(* ===== verification/_CoqProject ===== *)
-Q . S2P
Prelude.v
CString.v
Vsprintf.v
Cons.v
Utils.v
Aboot.v
Bits.v
Huft.v
Inflate.v
Deflate.v
HuftSim.v
Canon.v
HuftBuild.v
HuftSort.v
HuftDecode.v
Dynamic.v
Blocks.v
HuftTyped.v
Crc.v
BootFs.v
Gzip.v
Ext2Disk.v
Ufs.v
UfsRead.v
IsoLib.v
Safe.v
IsoDir.v
IsoRock.v
IsoSafe.v
Iso.v
Ext2.v
Ext2Read.v
Files.v
IsoRead.v
Disk.v
DiskLoad.v
Main.v
Config.v
Options.v
Ufile.v
Isomarkboot.v
IsoSample.v
Bio.v
BioFull.v
E2lib.v
E2writeboot.v
E2Alloc.v
E2Count.v
E2File.v
E2Boot.v
E2Dir.v
E2Inode.v
E2Sample.v
Sdisklabel.v
Srmboot.v
Netboot.v
Objtools.v
Sdisktool.v
Swriteboot.v
Segments.v
Lockstep.v
Unzip.v
Boot.v
