(* ===== verification/Prelude.v ===== *)
(** * aboot, the SRM boot loader for Linux/Alpha: a verification development

    ** The program

    aboot is loaded by the SRM console firmware from the boot block of a disk.
    It finds a file system on the boot partition, shows or takes from aboot.conf
    the name and the arguments of a kernel, reads the kernel (an ELF file, plain
    or compressed with gzip) to its place in memory, and jumps to it.  Around it
    are tools that make a disk bootable.  The parts, and who calls whom:

    - the console (src/cons.c) is the only way to the devices: [cons_read],
      [cons_puts], [cons_getchar].  The file systems read disks with it and
      utils.c prints with it;
    - src/utils.c has [printf], the memory map of the firmware, a bump allocator
      [malloc] that never takes memory back, line input, and the error exits
      ([longjmp] to src/disk.c while a kernel is being read);
    - src/lib/string.c and src/lib/vsprintf.c are the loader's own C library;
    - src/fs/ext2.c, ufs.c, iso.c (with src/lib/isolib.c) and dummy.c are the
      file systems, behind the table of functions of src/include/bootfs.h;
    - src/disk.c chooses partition and file system, reads aboot.conf, edits boot
      options, and loads the kernel: directly, or through src/zip/misc.c and
      unzip.c, which feed src/zip/inflate.c and get back windows of output;
    - src/aboot.c holds the loader's globals, reads ELF headers and the boot
      arguments, and at last starts the kernel;
    - tools: src/sdisklabel/ (disk labels, boot block of a labelled disk),
      src/tools/e2writeboot.c over e2lib.c over bio.c (a boot file on ext2),
      src/tools/isomarkboot.c over isolib.c (a boot block on a CD image),
      src/srmbootfat/ (a boot block on a FAT disk), objstrip, elfencap and
      abootconf under src/tools/ (boot images and their configuration);
    - src/netabootwrap.c and b2c.c put a loader, a kernel and a ramdisk into one
      image for network boot; src/net.c, in place of disk.c, finds them in memory.

    ** The files

    This file: machine integers, arrays ([aget], [aset], [aslice], [asplice] give
    [None] outside the object), little-endian fields, memories as finite maps of
    bytes, and the monad.  A computation [M St A] returns ([Ret]), leaves through
    longjmp or exit ([Jump]), makes an access outside every object or divides by
    zero ([Trap]), or has used up its fuel ([Diverge]).  [returns] and [loop] are
    its program logic: a loop is proved with an invariant and a measure, which
    shows that it ends.

    The C library: [CString] (lib/string.c, on a byte memory), [Vsprintf]
    (lib/vsprintf.c, with the specification of what a format prints).  The machine: [Cons] (cons.c, and printf of utils.c) gives
    the classes [Console] for the firmware and [ConsIO], [ConsOut] for everything
    above; [Utils] (utils.c); [Aboot] (the globals, ELF and boot arguments of
    aboot.c).

    Decompression: [Huft] and [Inflate] are zip/inflate.c over the class
    [InflateEnv]; [Bits] and [Deflate] have the format as a decoder of bit strings
    and the simulation lemmas, [HuftSim] moves tables between memories.  [Canon]
    is the canonical code of a list of lengths; [HuftBuild] (the loops over the
    tables) and [HuftSort] (counts and sorted values) lead to [HuftDecode]: the
    tables of [huft_build] decode that code.  [Dynamic] is the blocks that bring
    their own codes, [Blocks] the other kinds and the theorems on whole streams;
    [HuftTyped] is what holds of the tables for any input.
    [Crc] is the checksum of misc.c, [Gzip] the rest of misc.c and unzip.c on the
    loader's state, [Segments] what arrives in memory.  [Lockstep] runs inflate in
    two environments side by side; [Unzip] puts file, header, inflate, windows and
    checks together.

    File systems: [BootFs] is the table and the loader's state, [Files] the
    contract [BootFile] that disk.c relies on, with [BootTail] for reads beyond the
    end.  [Ext2Disk] is the ext2 format, [Ext2] fs/ext2.c, [Ext2Read] and [Files]
    what it reads.  [Ufs] and [UfsRead] are fs/ufs.c.  [IsoLib] is lib/isolib.c over the class [IsoEnv], [Iso] its
    instance fs/iso.c with the strncat of lib/string.c; [IsoDir] and [IsoRock] are what its searches find, [IsoRead]
    its reads with the instance of [BootFile], [Safe] a program logic for runs on
    arbitrary input with [IsoSafe] its use, [IsoSample] an image to try it on.

    Booting: [Disk] is disk.c and fs/dummy.c; [DiskLoad] loads a kernel from any
    file system that keeps [BootFile]; [Config] and [Options] are the
    configuration file and the boot options.  [Main] is main_ of aboot.c with
    pal_init of utils.c, over the class [Pal] of the PALcode instructions and the
    jump to the kernel; [Boot] goes from there through disk.c to the kernel.

    Tools: [Ufile] is a file of the operating system; [Bio] and [BioFull] are
    tools/bio.c; [E2lib] and [E2writeboot] the tools of these names, with
    [E2Alloc], [E2Count] (bitmaps and their counts), [E2File], [E2Boot] (block map
    and boot file), [E2Dir] (directories), [E2Inode] (the tool against the
    loader), [E2Sample] (the file system the theorems are tried on).
    [Isomarkboot] is the tool for CD images, [Srmboot] both tools of srmbootfat/.
    [Sdisklabel] is sdisklabel/library.c with the operations of the two programs
    there, [Sdisktool] and [Swriteboot] are their command lines and what they leave
    on the disk.  [Objtools] is objstrip, elfencap and abootconf.  [Netboot] is
    net.c with netabootwrap.c and b2c.c.

    ** What is shown

    The loader as a whole: main_ enters the kernel named, with its segments, its
    cleared data and the page of its arguments in memory (main_boots_kernel),
    after pal_init has set up the processor (pal_init_switches); an example runs
    from power-up to the jump.

    Kernels arrive: a gzip file on any file system with the contract
    [BootFile] is unpacked to the address of its kernel's segment
    (uncompress_kernel_loads).  In it, decoding a DEFLATE stream yields what the
    format says, for stored blocks, the fixed codes and codes sent with the block
    (inflate_refines, huft_build_decodes, the copy and CRC theorems; for arbitrary
    input inflate_tables_typed), the windows fill the segment
    (flush_stores_segment), reads of ext2 and UFS files are their blocks
    (ext2_breadi_reads, ufs_breadi_reads, over the block map of ext2_blkno_maps),
    and load_uncompressed puts every segment to its address on any file system
    with the contract (kernel_segments_loaded), given the chunks that the ELF
    headers describe (elf_chunks_loaded).

    The way there: configuration entries, initrd= and the ways through the
    options; the console's reads of any range and its output; printf
    (printf_line_ends) and vsprintf, whose text and length are those of a
    specification of formats by place value (vsprintf_renders); malloc's blocks;
    line editing.

    The tools: the buffer cache is an array of blocks (cache_refines_array),
    allocation keeps its counts (allocation_accounts), a new directory entry is
    found (mknod_found), and what e2writeboot leaves on the device is bootable
    (boot_file_on_device); likewise srmbootfat and srmbootraw (srmbootfat_marks,
    srmbootraw_device), swriteboot (swriteboot_device), sdisklabel and abootconf
    (sdisklabel_sets_partition, abootconf_sets).  Round trips: netabootwrap against net.c (netboot_parts_found),
    elfencap against objstrip (elfencap_objstrip).

    CD images: the search of a directory (iso_find_entry_finds, with the Rock
    Ridge names of rock_ridge_name), its end on any input (iso_find_entry_ends),
    the reads (iso_breadi_reads).  The names are put together in an array that is
    not initialised; with the loader's strncat, which does not close a string it
    cuts at the count, what was in the array shows behind them, and the theorems
    say how much of it is harmless (stale_name_hides_file: what is not).

    Where the code fails, the theorem says how: the error properties of the
    manifest state the behaviour that was found, for all inputs that show it.

    ** Choices of the model

    Integers are [Z] with the wrap-around of their C type written where it can
    happen ([u32], [s64], ...); a shift by a count out of range or a division by
    zero is a [Trap].  [char] is signed on the Alpha: bytes are kept unsigned and
    read through [s8] where it matters.  Structures of a disk are the bytes read,
    with accessors at their offsets.  A buffer that an operation fills is passed as
    the bytes it has from that address on and comes back changed.  What malloc or
    the stack provides reads as zeros before it is stored to, but in lib/isolib.c,
    where what it held before matters and is a parameter ([iso_stale]).  Loops the code
    leaves open take fuel; theorems ask for fuel above the measure of the loop
    (blocks to read, bytes of a string, entries of a directory), and any amount
    above it gives the same result.  The ext2 theorems on the tools are for blocks
    of 1024 bytes.

    ** Not modelled

    The assembly (src/head.S, src/lib/divide.S) but for what switch_to_osf_pal and
    run_kernel do; the page tables as such ([pal_init] stores to flat memory, so
    the virtual addresses its self map makes and removes are not seen); main of
    aboot.c for testing under Linux.  Firmware callbacks, PALcode instructions,
    the operating system under the tools and libc: parameters, or the documented
    behaviour of files; a write of a tool is never short, and its messages to
    stderr are kept only where they carry a result.  [netfs] of net.c reads memory
    as it is when decompression starts.  In src/include, what only describes the
    firmware (hwrpb.h, system.h) is used through its few constants and offsets. *)

From Stdlib Require Export ZArith Lia.
From stdpp Require Export base list gmap strings numbers.
Declare Scope c_scope.
Delimit Scope c_scope with C.
Open Scope Z_scope.
Open Scope c_scope.

(** ** Machine integers *)

(** A [w]-bit unsigned value, and the two's complement reading of one. *)
Definition wrap (w x : Z) : Z := x mod 2 ^ w.
Definition swrap (w x : Z) : Z := (x + 2 ^ (w - 1)) mod 2 ^ w - 2 ^ (w - 1).

Abbreviation u8 := (wrap 8).
Abbreviation u16 := (wrap 16).
Abbreviation u32 := (wrap 32).
Abbreviation u64 := (wrap 64).
Abbreviation s8 := (swrap 8).
Abbreviation s32 := (swrap 32).
Abbreviation s64 := (swrap 64).

(** A byte of memory. *)
Definition is_byte (b : Z) : Prop := 0 <= b < 256.

#[export] Instance is_byte_dec b : Decision (is_byte b).
Proof. unfold is_byte. apply _. Defined.

Section words.
Context (w : Z) (Hw : 0 < w).

Lemma wrap_range x : 0 <= wrap w x < 2 ^ w.
Proof. apply Z.mod_pos_bound. lia. Qed.

Lemma wrap_small x : 0 <= x < 2 ^ w → wrap w x = x.
Proof. apply Z.mod_small. Qed.

Lemma wrap_wrap x : wrap w (wrap w x) = wrap w x.
Proof. apply wrap_small, wrap_range. Qed.

Lemma swrap_range x : - 2 ^ (w - 1) <= swrap w x < 2 ^ (w - 1).
Proof.
  unfold swrap. pose proof (Z.mod_pos_bound (x + 2 ^ (w - 1)) (2 ^ w)).
  replace (2 ^ w) with (2 ^ (w - 1) * 2) in * by (rewrite Z.mul_comm, <- Z.pow_succ_r by lia; f_equal; lia).
  lia.
Qed.

Lemma swrap_small x : - 2 ^ (w - 1) <= x < 2 ^ (w - 1) → swrap w x = x.
Proof.
  intros H. unfold swrap. rewrite Z.mod_small; [lia|].
  replace (2 ^ w) with (2 ^ (w - 1) * 2) by (rewrite Z.mul_comm, <- Z.pow_succ_r by lia; f_equal; lia).
  lia.
Qed.

Lemma wrap_add x y : wrap w (wrap w x + wrap w y) = wrap w (x + y).
Proof. unfold wrap. symmetry. apply Zplus_mod. Qed.

Lemma wrap_add_l x y : wrap w (wrap w x + y) = wrap w (x + y).
Proof. apply Zplus_mod_idemp_l. Qed.

Lemma wrap_add_r x y : wrap w (x + wrap w y) = wrap w (x + y).
Proof. apply Zplus_mod_idemp_r. Qed.

Lemma wrap_land x : wrap w x = Z.land x (Z.ones w).
Proof. unfold wrap. rewrite Z.land_ones; [done|lia]. Qed.
End words.

(** Constants of the widths used below, for [lia]. *)
Lemma pow2_8 : 2 ^ 8 = 256. Proof. reflexivity. Qed.
Lemma pow2_32 : 2 ^ 32 = 4294967296. Proof. reflexivity. Qed.
Lemma pow2_64 : 2 ^ 64 = 18446744073709551616. Proof. reflexivity. Qed.

(** Disjoint bits: [lor] is addition. *)
Lemma lor_shiftl_add b c k : 0 <= k → 0 <= b < 2 ^ k → Z.lor b (Z.shiftl c k) = b + 2 ^ k * c.
Proof.
  intros Hk Hb. rewrite Z.shiftl_mul_pow2 by lia.
  assert (Z.land b (c * 2 ^ k) = 0) as E.
  { apply Z.bits_inj'. intros n Hn. rewrite Z.land_spec, Z.bits_0.
    destruct (decide (n < k)).
    - rewrite Z.mul_pow2_bits_low by lia. apply andb_false_r.
    - rewrite <- (Z.mod_small b (2 ^ k)) by lia. rewrite Z.mod_pow2_bits_high by lia. done. }
  pose proof (Z.add_lor_land b (c * 2 ^ k)) as HE. rewrite E in HE. lia.
Qed.

(** Bitwise operations stay within the width. *)
Lemma lxor_range w x y :
  0 <= w → 0 <= x < 2 ^ w → 0 <= y < 2 ^ w → 0 <= Z.lxor x y < 2 ^ w.
Proof.
  intros Hw Hx Hy. assert (0 <= Z.lxor x y) as H0 by (apply Z.lxor_nonneg; lia).
  split; [done|].
  assert (∀ z, 0 <= z < 2 ^ w → Z.land z (Z.ones w) = z) as Hs
    by (intros z Hz; rewrite Z.land_ones by lia; by apply Z.mod_small).
  assert (Z.lxor x y = Z.land (Z.lxor x y) (Z.ones w)) as ->.
  { rewrite <- (Hs x Hx), <- (Hs y Hy). apply Z.bits_inj. intros i.
    rewrite !Z.land_spec, !Z.lxor_spec, !Z.land_spec.
    by destruct (Z.testbit x i), (Z.testbit y i), (Z.testbit _ i). }
  rewrite Z.land_ones by lia. apply Z.mod_pos_bound. lia.
Qed.

Lemma u8_is_byte x : is_byte (u8 x).
Proof. apply (wrap_range 8). lia. Qed.

Lemma is_byte_u8 b : is_byte b → u8 b = b.
Proof. apply (wrap_small 8). Qed.

(** ** Arrays

    A C array is a list; an index is a [Z], and an access outside the list is
    [None], which every model below turns into its own failure. *)
Section arrays.
Context {A : Type}.
Implicit Types l : list A.

Definition zlen l : Z := Z.of_nat (length l).

Definition aget l (i : Z) : option A :=
  if decide (0 <= i) then l !! Z.to_nat i else None.

Definition aset l (i : Z) (x : A) : option (list A) :=
  if decide (0 <= i < zlen l) then Some (<[Z.to_nat i := x]> l) else None.

(** [n] cells from [off]. *)
Definition aslice l (off n : Z) : option (list A) :=
  if decide (0 <= off ∧ 0 <= n ∧ off + n <= zlen l)
  then Some (take (Z.to_nat n) (drop (Z.to_nat off) l)) else None.

(** [src] written over the cells from [off]. *)
Definition asplice l (off : Z) (src : list A) : option (list A) :=
  if decide (0 <= off ∧ off + zlen src <= zlen l)
  then Some (take (Z.to_nat off) l ++ src ++ drop (Z.to_nat off + length src) l)
  else None.

Lemma aget_Some l i x :
  aget l i = Some x ↔ 0 <= i ∧ l !! Z.to_nat i = Some x.
Proof. unfold aget. case_decide; naive_solver. Qed.

Lemma aget_of_nat l (n : nat) : aget l (Z.of_nat n) = l !! n.
Proof. unfold aget. rewrite decide_True by lia. by rewrite Nat2Z.id. Qed.

Lemma aget_is_Some l i : is_Some (aget l i) ↔ 0 <= i < zlen l.
Proof.
  unfold aget, zlen. case_decide.
  - rewrite lookup_lt_is_Some. lia.
  - split; [by intros []|lia].
Qed.

Lemma aget_range l i x : aget l i = Some x → 0 <= i < zlen l.
Proof. intros H. apply aget_is_Some. by eexists. Qed.

Lemma aget_Forall (P : A → Prop) l i x : Forall P l → aget l i = Some x → P x.
Proof. intros HF [_ H]%aget_Some. by eapply Forall_lookup_1. Qed.

Lemma aset_Some l i x l' :
  aset l i x = Some l' ↔ 0 <= i < zlen l ∧ l' = <[Z.to_nat i := x]> l.
Proof. unfold aset. case_decide; naive_solver. Qed.

Lemma aset_len l i x l' : aset l i x = Some l' → length l' = length l.
Proof. intros [_ ->]%aset_Some. apply length_insert. Qed.

Lemma aget_aset l i x l' j :
  aset l i x = Some l' → aget l' j = if decide (i = j) then Some x else aget l j.
Proof.
  intros [Hi ->]%aset_Some. unfold aget, zlen in *.
  repeat case_decide; subst; try lia; try done.
  - rewrite list_lookup_insert_eq; [done|lia].
  - rewrite list_lookup_insert_ne; [done|lia].
Qed.

Lemma aslice_Some l off n r :
  aslice l off n = Some r ↔
  0 <= off ∧ 0 <= n ∧ off + n <= zlen l ∧
  r = take (Z.to_nat n) (drop (Z.to_nat off) l).
Proof. unfold aslice. case_decide; naive_solver. Qed.

Lemma aslice_len l off n r : aslice l off n = Some r → zlen r = n.
Proof.
  intros (?&?&?&->)%aslice_Some. unfold zlen in *.
  rewrite length_take, length_drop. lia.
Qed.

Lemma aslice_app_mid (l1 l2 l3 : list A) off n :
  off = zlen l1 → n = zlen l2 → aslice (l1 ++ l2 ++ l3) off n = Some l2.
Proof.
  intros -> ->. apply aslice_Some. unfold zlen. rewrite !length_app.
  repeat split; try lia. rewrite !Nat2Z.id, drop_app_length.
  by rewrite take_app_length.
Qed.

Lemma asplice_len l off src l' : asplice l off src = Some l' → length l' = length l.
Proof.
  unfold asplice. case_decide; [|done]. intros [= <-]. unfold zlen in *.
  rewrite !length_app, length_take, length_drop. lia.
Qed.

Lemma aget_asplice l off src l' i :
  asplice l off src = Some l' →
  aget l' i = if decide (off <= i < off + zlen src) then aget src (i - off)
              else aget l i.
Proof.
  unfold asplice, zlen. case_decide as H; [|done]. intros [= <-].
  unfold aget. case_decide as Hi; [|by rewrite decide_False by lia].
  case_decide as Hin.
  - rewrite decide_True by lia. rewrite lookup_app_r by (rewrite length_take; lia).
    rewrite length_take, lookup_app_l by lia. f_equal. lia.
  - destruct (decide (i < off)).
    + rewrite lookup_app_l by (rewrite length_take; lia).
      apply lookup_take_lt. lia.
    + rewrite lookup_app_r by (rewrite length_take; lia).
      rewrite length_take, lookup_app_r by lia. rewrite lookup_drop. f_equal. lia.
Qed.
End arrays.

Lemma zlen_nonneg {A} (l : list A) : 0 <= zlen l.
Proof. unfold zlen. lia. Qed.

Lemma zlen_app {A} (l1 l2 : list A) : zlen (l1 ++ l2) = zlen l1 + zlen l2.
Proof. unfold zlen. rewrite length_app. lia. Qed.

Lemma zlen_cons {A} (x : A) l : zlen (x :: l) = 1 + zlen l.
Proof. unfold zlen. cbn [length]. lia. Qed.

Section slices.
Context {A : Type}.
Implicit Types l a b : list A.

Lemma zlen_take n l : zlen (take (Z.to_nat n) l) = Z.max 0 (Z.min n (zlen l)).
Proof. unfold zlen. rewrite length_take. lia. Qed.

Lemma zlen_drop n l : zlen (drop (Z.to_nat n) l) = Z.max 0 (zlen l - Z.max 0 n).
Proof. unfold zlen. rewrite length_drop. lia. Qed.

Lemma zlen_nil_inv l : zlen l = 0 → l = [].
Proof. destruct l; [done|]. rewrite zlen_cons. pose proof (zlen_nonneg l). lia. Qed.

Lemma aslice_is_Some l off n : 0 <= off → 0 <= n → off + n <= zlen l → is_Some (aslice l off n).
Proof. intros. unfold aslice. rewrite decide_True by lia. by eexists. Qed.

(** Neighbouring slices join. *)
Lemma aslice_join l off n1 n2 a b :
  aslice l off n1 = Some a → aslice l (off + n1) n2 = Some b →
  aslice l off (n1 + n2) = Some (a ++ b).
Proof.
  intros (?&?&?&->)%aslice_Some (?&?&?&->)%aslice_Some. apply aslice_Some.
  repeat split; try lia. rewrite !Z2Nat.inj_add by lia. rewrite <- drop_drop.
  set (d := drop (Z.to_nat off) l). rewrite <- (take_drop (Z.to_nat n1) d) at 3.
  rewrite take_app_add'; [done|]. subst d. rewrite length_take, length_drop. unfold zlen in *. lia.
Qed.

(** A slice of a slice. *)
Lemma aslice_aslice l off n a off' n' b :
  aslice l off n = Some a → aslice a off' n' = Some b → aslice l (off + off') n' = Some b.
Proof.
  intros Ha Hb. pose proof (aslice_len _ _ _ _ Ha) as Hz.
  apply aslice_Some in Ha as (?&?&?&->). apply aslice_Some in Hb as (?&?&?&->).
  apply aslice_Some. repeat split; try lia.
  rewrite Z2Nat.inj_add by lia. rewrite <- (drop_drop l), skipn_firstn_comm, take_take.
  f_equal. lia.
Qed.

Lemma aslice_all l : aslice l 0 (zlen l) = Some l.
Proof. apply aslice_Some. pose proof (zlen_nonneg l). unfold zlen. rewrite Nat2Z.id, drop_0, take_ge; [|done]. repeat split; lia. Qed.

Lemma aslice_app_l l l' off n a : aslice l off n = Some a → aslice (l ++ l') off n = Some a.
Proof.
  intros (?&?&?&->)%aslice_Some. pose proof (zlen_nonneg l'). unfold zlen in *. apply aslice_Some.
  unfold zlen. rewrite length_app. repeat split; try lia.
  rewrite drop_app_le by lia. rewrite take_app_le; [done|]. rewrite length_drop. lia.
Qed.

Lemma aslice_app_r l l' off n : zlen l <= off → aslice (l ++ l') off n = aslice l' (off - zlen l) n.
Proof.
  intros Hle. unfold aslice. rewrite zlen_app. pose proof (zlen_nonneg l). repeat case_decide; try lia; [|done].
  f_equal. f_equal. rewrite drop_app_ge by (unfold zlen in *; lia). f_equal. unfold zlen in *. lia.
Qed.

(** Writing behind a prefix that has been written already. *)
Lemma asplice_behind a l n b :
  zlen a = n → n + zlen b <= zlen l →
  asplice (a ++ drop (Z.to_nat n) l) n b = Some ((a ++ b) ++ drop (Z.to_nat (n + zlen b)) l).
Proof.
  intros Ha Hb. pose proof (zlen_nonneg a). pose proof (zlen_nonneg b). unfold asplice.
  rewrite zlen_app, zlen_drop, decide_True by lia. rewrite <- app_assoc. f_equal.
  unfold zlen in *. replace (Z.to_nat n) with (length a) by lia.
  rewrite take_app_length. do 2 f_equal. rewrite drop_app_add, drop_drop. f_equal. lia.
Qed.

Lemma asplice_0 l b :
  zlen b <= zlen l → asplice l 0 b = Some (b ++ drop (Z.to_nat (zlen b)) l).
Proof. intros. exact (asplice_behind [] l 0 b eq_refl ltac:(lia)). Qed.
End slices.

Lemma list_eq_aget {A} (l1 l2 : list A) :
  (∀ i, 0 <= i → aget l1 i = aget l2 i) → l1 = l2.
Proof. intros HE. apply list_eq. intros n. rewrite <- !aget_of_nat. apply HE. lia. Qed.

Lemma aget_aslice {A} (l : list A) off n a i :
  aslice l off n = Some a → 0 <= i < n → aget a i = aget l (off + i).
Proof.
  intros (?&?&?&->)%aslice_Some Hi. unfold aget. rewrite !decide_True by lia.
  rewrite lookup_take_lt by lia. rewrite lookup_drop. f_equal. lia.
Qed.

(** Slices depend on the cells they cover. *)
Lemma aslice_cells {A} (l l' : list A) o n :
  0 <= o → 0 <= n → o + n <= zlen l → o + n <= zlen l' →
  (∀ i, o <= i < o + n → aget l i = aget l' i) → aslice l o n = aslice l' o n.
Proof.
  intros Ho Hn Hl Hl' HE. destruct (aslice_is_Some l o n) as [a Ea]; [lia..|].
  destruct (aslice_is_Some l' o n) as [b Eb]; [lia..|]. rewrite Ea, Eb. f_equal.
  pose proof (aslice_len _ _ _ _ Ea). pose proof (aslice_len _ _ _ _ Eb).
  apply list_eq_aget. intros i _. destruct (decide (0 <= i < n)) as [Hi|Hi].
  - rewrite (aget_aslice _ _ _ _ i Ea), (aget_aslice _ _ _ _ i Eb) by lia. apply HE. lia.
  - destruct (aget a i) as [x|] eqn:Ex; [apply aget_range in Ex; lia|].
    destruct (aget b i) as [x|] eqn:Ey; [apply aget_range in Ey; lia|done].
Qed.

Lemma aslice_ext {A} (l l' : list A) o n :
  zlen l = zlen l' → (∀ i, o <= i < o + n → aget l i = aget l' i) → aslice l o n = aslice l' o n.
Proof.
  intros Hz HE. unfold aslice at 1. case_decide as H.
  - transitivity (aslice l o n); [unfold aslice; by rewrite decide_True|]. apply aslice_cells; [lia..|done].
  - unfold aslice. by rewrite decide_False by lia.
Qed.

Lemma asplice_is_Some {A} (l : list A) off src : 0 <= off → off + zlen src <= zlen l → is_Some (asplice l off src).
Proof. intros Ho Hl. unfold asplice. rewrite decide_True by lia. by eexists. Qed.

(** Two splices behind each other. *)
Lemma asplice_app {A} (l l1 l2 : list A) off a b :
  asplice l off a = Some l1 → asplice l1 (off + zlen a) b = Some l2 → asplice l off (a ++ b) = Some l2.
Proof.
  intros E1 E2. pose proof (asplice_len _ _ _ _ E1) as Hz. pose proof (zlen_nonneg a).
  assert (0 <= off ∧ off + zlen (a ++ b) <= zlen l) as Ho.
  { rewrite zlen_app. unfold asplice in E1, E2. do 2 case_decide; try done. unfold zlen in *. lia. }
  destruct (asplice_is_Some l off (a ++ b)) as [l3 E3]; [lia..|]. rewrite E3. f_equal. apply list_eq_aget. intros i Hi.
  rewrite (aget_asplice _ _ _ _ _ E3), (aget_asplice _ _ _ _ _ E2), (aget_asplice _ _ _ _ _ E1), zlen_app.
  pose proof (zlen_nonneg b). unfold aget, zlen in *. repeat case_decide; try lia; try done.
  - rewrite lookup_app_r by lia. f_equal. lia.
  - by rewrite lookup_app_l by lia.
Qed.

Lemma aslice_asplice_same {A} (l l' : list A) off src :
  asplice l off src = Some l' → aslice l' off (zlen src) = Some src.
Proof.
  intros E. unfold asplice in E. case_decide as H; [|done]. injection E as <-.
  pose proof (zlen_nonneg src). apply aslice_app_mid; [|done]. rewrite zlen_take. lia.
Qed.

Lemma aslice_asplice_other {A} (l l' : list A) off src o n :
  asplice l off src = Some l' → o + n <= off ∨ off + zlen src <= o → aslice l' o n = aslice l o n.
Proof.
  intros E H. apply aslice_ext.
  - apply asplice_len in E. unfold zlen. by rewrite E.
  - intros i Hi. rewrite (aget_asplice _ _ _ _ _ E), decide_False; [done|]. lia.
Qed.

(** ** Little-endian integers in byte lists *)

Fixpoint le_val (l : list Z) : Z :=
  match l with
  | [] => 0
  | b :: l => b + 256 * le_val l
  end.

Fixpoint le_bytes (n : nat) (x : Z) : list Z :=
  match n with
  | O => []
  | S n => u8 x :: le_bytes n (x / 256)
  end.

(** The [n]-byte little-endian field at [off]. *)
Definition get_le (n : Z) (l : list Z) (off : Z) : option Z :=
  le_val <$> aslice l off n.

(** The same field set to a value. *)
Definition put_le (n : nat) (l : list Z) (off v : Z) : option (list Z) := asplice l off (le_bytes n v).

Abbreviation get_u8 := (get_le 1).
Abbreviation get_u16 := (get_le 2).
Abbreviation get_u32 := (get_le 4).
Abbreviation get_u64 := (get_le 8).

Lemma length_le_bytes n x : length (le_bytes n x) = n.
Proof. revert x. induction n; intros x; cbn; auto. Qed.

Lemma le_bytes_is_byte n x : Forall is_byte (le_bytes n x).
Proof. revert x. induction n; intros x; cbn; constructor; auto using u8_is_byte. Qed.

Lemma le_val_range l :
  Forall is_byte l → 0 <= le_val l < 256 ^ zlen l.
Proof.
  induction 1 as [|b l Hb _ IH]; cbn [le_val]; [done|].
  rewrite zlen_cons, Z.pow_add_r by (unfold zlen; lia). unfold is_byte in Hb. lia.
Qed.

Lemma le_val_le_bytes n x : le_val (le_bytes n x) = x mod 256 ^ Z.of_nat n.
Proof.
  revert x. induction n as [|n IH]; intros x; cbn [le_val le_bytes].
  - cbn. by rewrite Z.mod_1_r.
  - rewrite IH, Nat2Z.inj_succ, Z.pow_succ_r by lia. unfold wrap. rewrite pow2_8.
    rewrite Z.rem_mul_r by lia. lia.
Qed.

Lemma le_bytes_le_val l : Forall is_byte l → le_bytes (length l) (le_val l) = l.
Proof.
  induction 1 as [|b l Hb _ IH]; cbn [le_val le_bytes length]; [done|].
  unfold is_byte in Hb. f_equal.
  - unfold wrap. rewrite pow2_8. rewrite Z.mul_comm, Z.mod_add by lia.
    by apply Z.mod_small.
  - rewrite Z.mul_comm, Z.div_add, Z.div_small by lia. apply IH.
Qed.

Lemma put_le_len n l off v l' : put_le n l off v = Some l' → zlen l' = zlen l.
Proof. intros E. apply asplice_len in E. unfold zlen. by rewrite E. Qed.

Lemma put_le_is_Some n l off v : 0 <= off → off + Z.of_nat n <= zlen l → is_Some (put_le n l off v).
Proof.
  intros. unfold put_le, asplice. rewrite decide_True; [by eexists|]. unfold zlen at 1.
  rewrite length_le_bytes. lia.
Qed.

(** A field reads back, and fields elsewhere keep their values. *)
Lemma get_put_le n l off v l' :
  put_le n l off v = Some l' → get_le (Z.of_nat n) l' off = Some (v mod 256 ^ Z.of_nat n).
Proof.
  intros E. unfold get_le. apply aslice_asplice_same in E. unfold zlen in E. rewrite length_le_bytes in E.
  rewrite E. cbn. by rewrite le_val_le_bytes.
Qed.

Lemma get_put_le_other n l off v l' m o :
  put_le n l off v = Some l' → o + m <= off ∨ off + Z.of_nat n <= o → get_le m l' o = get_le m l o.
Proof.
  intros E H. unfold get_le. f_equal. eapply aslice_asplice_other; [exact E|]. unfold zlen.
  rewrite length_le_bytes. lia.
Qed.

Lemma get_le_is_Some n (l : list Z) off : 0 <= n → 0 <= off → off + n <= zlen l → is_Some (get_le n l off).
Proof. intros Hn Ho Hl. unfold get_le. destruct (aslice_is_Some l off n) as [a ->]; [lia..|]. by eexists. Qed.

Lemma get_le_aslice k l off n a o : aslice l off n = Some a → 0 <= o → 0 <= k → o + k <= n → get_le k a o = get_le k l (off + o).
Proof.
  intros Ha Ho Hk Hn. unfold get_le. f_equal. pose proof (aslice_len _ _ _ _ Ha).
  destruct (aslice_is_Some a o k) as [b Eb]; [lia..|]. rewrite Eb. symmetry. exact (aslice_aslice _ _ _ _ _ _ _ Ha Eb).
Qed.

Lemma get_le_range n l off v : Forall is_byte l → get_le n l off = Some v → 0 <= v < 256 ^ n.
Proof.
  intros HF (a&Ea&->)%fmap_Some. pose proof (aslice_len _ _ _ _ Ea) as Hz.
  apply aslice_Some in Ea as (_&_&_&Ea). rewrite <- Hz. apply le_val_range. subst a.
  by apply Forall_take, Forall_drop.
Qed.

(** The bits of a field are bits of the whole. *)
Lemma add_bits b x k : 0 <= b < 256 → 0 <= k →
  Z.testbit (b + 256 * x) k = if decide (k < 8) then Z.testbit b k else Z.testbit x (k - 8).
Proof.
  intros Hb Hk. change 256 with (2 ^ 8) in *. case_decide.
  - rewrite <- (Z.mod_pow2_bits_low (b + 2 ^ 8 * x) 8) by lia. rewrite Z.mul_comm, Z.mod_add by lia.
    by rewrite Z.mod_pow2_bits_low by lia.
  - replace k with (k - 8 + 8) at 1 by lia. rewrite <- Z.div_pow2_bits by lia.
    rewrite Z.mul_comm, Z.div_add by lia. by rewrite (Z.div_small b) by lia.
Qed.

Lemma le_val_testbit l k : Forall is_byte l → 0 <= k →
  Z.testbit (le_val l) k = match aget l (k / 8) with Some b => Z.testbit b (k mod 8) | None => false end.
Proof.
  intros HF. revert k. induction HF as [|b l Hb _ IH]; intros k Hk; cbn [le_val].
  { rewrite Z.bits_0. unfold aget. by case_decide. }
  rewrite add_bits by done. case_decide.
  - rewrite Z.div_small, Z.mod_small by lia. done.
  - rewrite IH by lia. replace (k - 8) with (k + (-1) * 8) by lia.
    rewrite Z.div_add, Z.mod_add by lia. unfold aget. pose proof (Z.div_le_lower_bound k 8 1).
    rewrite !decide_True by lia. replace (Z.to_nat (k / 8)) with (S (Z.to_nat (k / 8 + -1))) by lia. done.
Qed.

Lemma get_le_testbit n l off v j : Forall is_byte l → get_le n l off = Some v → 0 <= j →
  Z.testbit v j = if decide (j < 8 * n) then Z.testbit (le_val l) (8 * off + j) else false.
Proof.
  intros HF (a&Ea&->)%fmap_Some Hj. pose proof (aslice_len _ _ _ _ Ea) as Hz.
  assert (Forall is_byte a) as HFa by (apply aslice_Some in Ea as (_&_&_&->); by apply Forall_take, Forall_drop).
  pose proof Ea as (Ho&_&_&_)%aslice_Some.
  rewrite !le_val_testbit by (done || lia). case_decide.
  - rewrite (aget_aslice _ _ _ _ _ Ea) by (split; [apply Z.div_pos|apply Z.div_lt_upper_bound]; lia).
    replace (8 * off + j) with (j + off * 8) by lia. rewrite Z.div_add, Z.mod_add by lia. by rewrite Z.add_comm.
  - destruct (aget a (j / 8)) eqn:E; [|done]. apply aget_range in E. rewrite Hz in E.
    pose proof (Z.div_le_lower_bound j 8 n). lia.
Qed.

Lemma put_le_bytes n l off v l' : Forall is_byte l → put_le n l off v = Some l' → Forall is_byte l'.
Proof.
  intros HF. unfold put_le, asplice. case_decide; [|done]. intros [= <-].
  rewrite !Forall_app. split; [by apply Forall_take|]. split; [apply le_bytes_is_byte|by apply Forall_drop].
Qed.

Lemma put_le_testbit n l off v l' k : Forall is_byte l → put_le n l off v = Some l' → 0 <= k →
  Z.testbit (le_val l') k =
    if decide (8 * off <= k < 8 * (off + Z.of_nat n)) then Z.testbit v (k - 8 * off)
    else Z.testbit (le_val l) k.
Proof.
  intros HF E Hk. pose proof (put_le_bytes _ _ _ _ _ HF E) as HF'. rewrite (le_val_testbit l') by done.
  unfold put_le in E. rewrite (aget_asplice _ _ _ _ _ E). assert (zlen (le_bytes n v) = Z.of_nat n) as Hz by (unfold zlen; by rewrite length_le_bytes).
  pose proof (Z.div_mod k 8 ltac:(lia)). pose proof (Z.mod_pos_bound k 8 ltac:(lia)).
  destruct (decide (8 * off <= k < _)).
  - rewrite decide_True by lia.
    assert (∃ b, aget (le_bytes n v) (k / 8 - off) = Some b) as [b Eb].
    { apply aget_is_Some. lia. }
    pose proof (le_val_testbit (le_bytes n v) (k - 8 * off) (le_bytes_is_byte _ _) ltac:(lia)) as Ht.
    assert ((k - 8 * off) / 8 = k / 8 - off ∧ (k - 8 * off) mod 8 = k mod 8) as [Eq Em].
    { replace (k - 8 * off) with (k + - off * 8) by lia. rewrite Z.div_add, Z.mod_add by lia. lia. }
    rewrite Eq, Em in Ht.
    rewrite Eb in Ht |- *. rewrite <- Ht, le_val_le_bytes. replace 256 with (2 ^ 8) by done.
    rewrite <- Z.pow_mul_r, Z.mod_pow2_bits_low by lia. done.
  - rewrite decide_False by lia. by rewrite le_val_testbit.
Qed.

(** ** Stateful code

    A C function that reads and writes shared state [St] is a [M St A].  It
    returns, or leaves through [_longjmp (jump_buffer, 1)] keeping the state it
    had then, or makes an access outside every object ([Trap]), or has used up
    the fuel its loops were given ([Diverge]). *)
Inductive result (St A : Type) : Type :=
| Ret (a : A) (s : St)
| Jump (msg : string) (s : St)
| Trap
| Diverge.
Arguments Ret {St A} a s.
Arguments Jump {St A} msg s.
Arguments Trap {St A}.
Arguments Diverge {St A}.

Definition M (St A : Type) : Type := St → result St A.

Section monad.
Context {St : Type}.

Definition ret {A} (a : A) : M St A := λ s, Ret a s.

Definition bind {A B} (m : M St A) (k : A → M St B) : M St B := λ s,
  match m s with
  | Ret a s' => k a s'
  | Jump e s' => Jump e s'
  | Trap => Trap
  | Diverge => Diverge
  end.

(** The state after a run that returns. *)
Definition after {A} (m : M St A) (s : St) : St := match m s with Ret _ s' => s' | _ => s end.

Lemma after_Ret (m : M St Z) s r :
  (match m s with Ret v _ => v =? r | _ => false end) = true → m s = Ret r (after m s).
Proof. unfold after. destruct (m s); try done. by intros ->%Z.eqb_eq. Qed.

Definition longjmp {A} (msg : string) : M St A := λ s, Jump msg s.
Definition trap {A} : M St A := λ _, Trap.
Definition diverge {A} : M St A := λ _, Diverge.

Definition gets {A} (f : St → A) : M St A := λ s, Ret (f s) s.
Definition modify (f : St → St) : M St unit := λ s, Ret tt (f s).

(** An array access: [None] is an access outside the object. *)
Definition lift_opt {A} (o : option A) : M St A :=
  match o with Some a => ret a | None => trap end.

(** A C loop: the body gives the next value of the loop's variables ([inl])
    or leaves the loop with a value ([inr]). *)
Fixpoint loop {A B} (fuel : nat) (body : A → M St (A + B)) (a : A) : M St B :=
  match fuel with
  | O => diverge
  | S n => bind (body a) (λ r, match r with inl a' => loop n body a' | inr b => ret b end)
  end.

(** [do body while] run a number of times known beforehand. *)
Fixpoint times {A} (n : nat) (body : A → M St A) (a : A) : M St A :=
  match n with
  | O => ret a
  | S n => bind (body a) (times n body)
  end.
End monad.

Notation "'let!' x ':=' m 'in' k" := (bind m (λ x, k))
  (at level 10, x name, m at level 200, k at level 200,
   format "'let!'  x  ':='  m  'in' '//' k") : c_scope.
Notation "'let!' ' p ':=' m 'in' k" := (bind m (λ x, match x with p => k end))
  (at level 10, p pattern, m at level 200, k at level 200,
   format "'let!'  ' p  ':='  m  'in' '//' k") : c_scope.
Notation "m ';;;' k" := (bind m (λ _, k))
  (at level 199, right associativity, format "m  ';;;' '//' k") : c_scope.
Notation "'let?' x ':=' m 'in' k" := (match m with Some x => k | None => None end)
  (at level 10, x pattern, m at level 200, k at level 200,
   format "'let?'  x  ':='  m  'in' '//' k") : c_scope.

Section monad_laws.
Context {St : Type}.

Lemma bind_Ret {A B} (m : M St A) (k : A → M St B) s a s' :
  m s = Ret a s' → bind m k s = k a s'.
Proof. unfold bind. by intros ->. Qed.

Lemma bind_ret {A B} (a : A) (k : A → M St B) s : bind (ret a) k s = k a s.
Proof. done. Qed.

Lemma bind_inv {A B} (m : M St A) (k : A → M St B) s b s'' :
  bind m k s = Ret b s'' → ∃ a s', m s = Ret a s' ∧ k a s' = Ret b s''.
Proof. unfold bind. destruct (m s) as [a s'| | |]; [|done..]. by exists a, s'. Qed.

Lemma bind_bind {A B C} (m : M St A) (k : A → M St B) (h : B → M St C) s :
  bind (bind m k) h s = bind m (λ a, bind (k a) h) s.
Proof. unfold bind. by destruct (m s). Qed.

Lemma bind_ext {A B} (m : M St A) (k k' : A → M St B) s :
  (∀ a s', k a s' = k' a s') → bind m k s = bind m k' s.
Proof. intros H. unfold bind. by destruct (m s). Qed.

Lemma bind_ext_l {A B} (m m' : M St A) (k k' : A → M St B) s :
  m s = m' s → (∀ a s', k a s' = k' a s') → bind m k s = bind m' k' s.
Proof. intros E H. unfold bind. rewrite E. by destruct (m' s). Qed.

Lemma lift_opt_Ret {A} (o : option A) (s : St) a s' :
  lift_opt o s = Ret a s' ↔ o = Some a ∧ s' = s.
Proof.
  destruct o; unfold lift_opt, ret, trap; split; try done.
  - by intros [= -> ->].
  - by intros [[= ->] ->].
  - by intros [[=] _].
Qed.

(** The total-correctness rule for loops: an invariant, a measure that every
    turn decreases, and fuel above the measure. *)
Lemma loop_total {A B} (I : A → St → Prop) (meas : A → St → nat)
    (Q : B → St → Prop) (body : A → M St (A + B)) :
  (∀ a s, I a s →
    (∃ a' s', body a s = Ret (inl a') s' ∧ I a' s' ∧ (meas a' s' < meas a s)%nat) ∨
    (∃ b s', body a s = Ret (inr b) s' ∧ Q b s')) →
  ∀ fuel a s, I a s → (meas a s < fuel)%nat →
    ∃ b s', loop fuel body a s = Ret b s' ∧ Q b s'.
Proof.
  intros Hbody fuel. induction fuel as [|fuel IH]; intros a s HI Hm; [lia|].
  cbn [loop]. destruct (Hbody a s HI) as [(a'&s'&E&HI'&Hlt)|(b&s'&E&HQ)].
  - rewrite (bind_Ret _ _ _ _ _ E). apply IH; [done|lia].
  - rewrite (bind_Ret _ _ _ _ _ E). by exists b, s'.
Qed.

Lemma loop_step {A B} (body : A → M St (A + B)) fuel a s a' s' :
  body a s = Ret (inl a') s' → loop (S fuel) body a s = loop fuel body a' s'.
Proof. intros E. cbn [loop]. by rewrite (bind_Ret _ _ _ _ _ E). Qed.

Lemma loop_exit {A B} (body : A → M St (A + B)) fuel a s b s' :
  body a s = Ret (inr b) s' → loop (S fuel) body a s = Ret b s'.
Proof. intros E. cbn [loop]. by rewrite (bind_Ret _ _ _ _ _ E). Qed.
(** A program logic for computations that return: [m] from [s] ends in a value
    and a state that satisfy [Q]. *)
Definition returns {A} (m : M St A) (s : St) (Q : A → St → Prop) : Prop :=
  ∃ a s', m s = Ret a s' ∧ Q a s'.

Lemma returns_ret {A} (a : A) s (Q : A → St → Prop) : Q a s → returns (ret a) s Q.
Proof. intros HQ. by exists a, s. Qed.

Lemma returns_gets {A B} (f : St → A) (k : A → M St B) s Q :
  returns (k (f s)) s Q → returns (bind (gets f) k) s Q.
Proof. done. Qed.

Lemma returns_modify {B} (f : St → St) (k : unit → M St B) s Q :
  returns (k tt) (f s) Q → returns (bind (modify f) k) s Q.
Proof. done. Qed.

Lemma returns_opt {A B} (o : option A) (k : A → M St B) a s Q :
  o = Some a → returns (k a) s Q → returns (bind (lift_opt o) k) s Q.
Proof. by intros ->. Qed.

Lemma returns_bind {A B} (m : M St A) (k : A → M St B) s Q R :
  returns m s Q → (∀ a s', Q a s' → returns (k a) s' R) → returns (bind m k) s R.
Proof. intros (a&s'&E&HQ) Hk. unfold returns. rewrite (bind_Ret _ _ _ _ _ E). by apply Hk. Qed.

Lemma returns_eq {A B} (m : M St A) (k : A → M St B) s a s' R :
  m s = Ret a s' → returns (k a) s' R → returns (bind m k) s R.
Proof. intros E Hk. unfold returns. by rewrite (bind_Ret _ _ _ _ _ E). Qed.

Lemma returns_mono {A} (m : M St A) s (Q R : A → St → Prop) :
  returns m s Q → (∀ a s', Q a s' → R a s') → returns m s R.
Proof. intros (a&s'&E&HQ) HR. exists a, s'. auto. Qed.

Lemma returns_assoc {A B C} (m : M St A) (k : A → M St B) (h : B → M St C) s Q :
  returns (bind m (λ a, bind (k a) h)) s Q → returns (bind (bind m k) h) s Q.
Proof. unfold returns. by rewrite bind_bind. Qed.

(** The rule of a loop: an invariant and a measure. *)
Lemma returns_loop {A B} (I : A → St → Prop) (meas : A → St → nat)
    (Q : B → St → Prop) (body : A → M St (A + B)) fuel a s :
  I a s → (meas a s < fuel)%nat →
  (∀ a s, I a s → returns (body a) s (λ r s',
     match r with inl a' => I a' s' ∧ (meas a' s' < meas a s)%nat | inr b => Q b s' end)) →
  returns (loop fuel body a) s Q.
Proof.
  intros HI Hf Hbody. apply (loop_total I meas Q); [|done..].
  intros a1 s1 H1. destruct (Hbody a1 s1 H1) as ([a'|b]&s'&E&HQ); [left|right]; by exists a', s' || exists b, s'.
Qed.
End monad_laws.

(** The value and the state of a computation that returns. *)
Definition value_of {St A} (r : result St A) : option A := match r with Ret a _ => Some a | _ => None end.
Definition state_of {St A} (s : St) (r : result St A) : St := match r with Ret _ s => s | _ => s end.

Lemma value_Ret {St A} (s : St) (r : result St A) a : value_of r = Some a → r = Ret a (state_of s r).
Proof. destruct r; [by intros [= ->]|done..]. Qed.

Lemma value_pair {S1 S2 A} s (r : result (S1 * S2) A) a :
  value_of r = Some a → r = Ret a ((state_of s r).1, (state_of s r).2).
Proof. intros E. rewrite <- surjective_pairing. by apply value_Ret. Qed.

(** ** Automation *)

(** Runs the straight-line prefix of a monadic goal. *)
Ltac run_ret :=
  repeat first
    [ progress cbn [ret bind gets modify lift_opt longjmp trap diverge]
    | rewrite bind_bind
    | erewrite bind_Ret by eassumption ].

(** One step of a goal about [returns]. *)
Ltac step :=
  match goal with
  | |- returns (bind (bind _ _) _) _ _ => apply returns_assoc; cbv beta
  | |- returns (bind (ret _) _) _ _ => unfold returns; rewrite bind_ret; cbv beta
  | |- returns (bind (gets _) _) _ _ => apply returns_gets; cbv beta
  | |- returns (bind (modify _) _) _ _ => apply returns_modify; cbv beta
  | |- returns (ret _) _ _ => apply returns_ret
  end.

Create HintDb aboot.
Create Rewrite HintDb aboot_len.
#[export] Hint Resolve u8_is_byte zlen_nonneg le_bytes_is_byte : aboot.
#[export] Hint Rewrite @zlen_app @zlen_cons length_le_bytes : aboot_len.
