(* ===== verification/CString.v ===== *)
(** * lib/string.c: the loader's own string library

    A flat memory, partial: an access outside the mapped bytes is a [Trap].
    Bytes are kept unsigned; a [char] is signed on the Alpha, so comparisons of
    characters go through [s8].  A function whose C loop is bounded only by a
    terminator takes fuel.  [NULL] is the address 0. *)

From S2P Require Import Prelude.

Abbreviation mem := (gmap Z Z).
Definition NULL : Z := 0.

Definition load (p : Z) : M mem Z := λ m,
  match m !! p with Some b => Ret b m | None => Trap end.

Definition store (p b : Z) : M mem unit := λ m,
  match m !! p with Some _ => Ret tt (<[p := u8 b]> m) | None => Trap end.

(** ** The functions *)

(* the copy loop of strcpy and strcat: up to and including the NUL *)
Definition copy_string (fuel : nat) (dest src : Z) : M mem unit :=
  loop fuel (λ '(d, s),
    let! c := load s in
    store d c ;;;
    ret (if c =? 0 then inr tt else inl (d + 1, s + 1))) (dest, src).

Definition strcpy (fuel : nat) (dest src : Z) : M mem Z :=
  copy_string fuel dest src ;;; ret dest.

Definition copy_string_n (fuel : nat) (dest src count : Z) : M mem unit :=
  loop fuel (λ '(d, s, n),
    if n =? 0 then ret (inr tt)
    else
      let! c := load s in
      store d c ;;;
      ret (if c =? 0 then inr tt else inl (d + 1, s + 1, n - 1))) (dest, src, count).

Definition strncpy (fuel : nat) (dest src count : Z) : M mem Z :=
  copy_string_n fuel dest src count ;;; ret dest.

(* walks a pointer to the terminator *)
Definition find_nul (fuel : nat) (p : Z) : M mem Z :=
  loop fuel (λ q, let! c := load q in ret (if c =? 0 then inr q else inl (q + 1))) p.

Definition strcat (fuel : nat) (dest src : Z) : M mem Z :=
  let! d := find_nul fuel dest in
  copy_string fuel d src ;;;
  ret dest.

Definition append_n (fuel : nat) (dest src count : Z) : M mem unit :=
  loop fuel (λ '(d, s, n),
    let! c := load s in
    store d c ;;;
    ret (if c =? 0 then inr tt
         else if n - 1 =? 0 then inr tt
         else inl (d + 1, s + 1, n - 1))) (dest, src, count).

Definition strncat (fuel : nat) (dest src count : Z) : M mem Z :=
  if count =? 0 then ret dest
  else
    let! d := find_nul fuel dest in
    append_n fuel d src count ;;;
    ret dest.

(* __res is a signed char: the difference is truncated to it *)
Definition strcmp (fuel : nat) (cs ct : Z) : M mem Z :=
  loop fuel (λ '(s, t),
    let! a := load s in
    let! b := load t in
    let res := s8 (s8 a - s8 b) in
    ret (if negb (res =? 0) || (a =? 0) then inr res else inl (s + 1, t + 1))) (cs, ct).

Definition strncmp_loop (fuel : nat) (cs ct count res : Z) : M mem Z :=
  loop fuel (λ '(s, t, n, r),
    if n =? 0 then ret (inr r)
    else
      let! a := load s in
      let! b := load t in
      let res := s8 (s8 a - s8 b) in
      ret (if negb (res =? 0) || (a =? 0) then inr res
           else inl (s + 1, t + 1, n - 1, res))) (cs, ct, count, res).

Definition strncmp (fuel : nat) (cs ct count : Z) : M mem Z :=
  strncmp_loop fuel cs ct count 0.

Definition strchr (fuel : nat) (s c : Z) : M mem Z :=
  loop fuel (λ p,
    let! a := load p in
    ret (if a =? c then inr p else if a =? 0 then inr NULL else inl (p + 1))) s.

(* the pointer is advanced before the character is compared *)
Definition strrchr_loop (fuel : nat) (s c r : Z) : M mem Z :=
  loop fuel (λ '(p, r),
    let! a := load p in
    if a =? 0 then ret (inr r)
    else
      let! b := load (p + 1) in
      ret (inl (p + 1, if b =? c then p + 1 else r))) (s, r).

Definition strrchr (fuel : nat) (s c : Z) : M mem Z := strrchr_loop fuel s c NULL.

Definition strlen (fuel : nat) (s : Z) : M mem Z :=
  let! sc := find_nul fuel s in ret (sc - s).

Definition strnlen (fuel : nat) (s count : Z) : M mem Z :=
  let! sc := loop fuel (λ '(p, n),
      let! c := load p in
      ret (if c =? 0 then inr p else if n =? 0 then inr p else inl (p + 1, n - 1)))
      (s, count) in
  ret (sc - s).

(* the inner loop of strspn and strpbrk: whether it was left by break *)
Definition char_in (fuel : nat) (set c : Z) : M mem bool :=
  loop fuel (λ a,
    let! b := load a in
    ret (if b =? 0 then inr false else if c =? b then inr true else inl (a + 1))) set.

Definition strspn_loop (fuel : nat) (s accept count : Z) : M mem Z :=
  loop fuel (λ '(p, count),
    let! c := load p in
    if c =? 0 then ret (inr count)
    else
      let! found := char_in fuel accept c in
      ret (if found then inl (p + 1, count + 1) else inr count)) (s, count).

Definition strspn (fuel : nat) (s accept : Z) : M mem Z := strspn_loop fuel s accept 0.

Definition strpbrk (fuel : nat) (cs ct : Z) : M mem Z :=
  loop fuel (λ p,
    let! c := load p in
    if c =? 0 then ret (inr NULL)
    else
      let! found := char_in fuel ct c in
      ret (if found then inr p else inl (p + 1))) cs.

(** [save] is the static [___strtok]; the result is the token and its new
    value. *)
Definition strtok (fuel : nat) (save s ct : Z) : M mem (Z * Z) :=
  let sbegin := if negb (s =? NULL) then s else save in
  if sbegin =? NULL then ret (NULL, save)
  else
    let! skip := strspn fuel sbegin ct in
    let sbegin := sbegin + skip in
    let! c := load sbegin in
    if c =? 0 then ret (NULL, NULL)
    else
      let! send := strpbrk fuel sbegin ct in
      if send =? NULL then ret (sbegin, send)
      else
        let! e := load send in
        if e =? 0 then ret (sbegin, send)
        else store send 0 ;;; ret (sbegin, send + 1).

Definition memset (s c count : Z) : M mem Z :=
  times (Z.to_nat count) (λ p, store p c ;;; ret (p + 1)) s ;;; ret s.

Definition copy_up (n : nat) (dest src : Z) : M mem (Z * Z) :=
  times n (λ '(d, s), let! c := load s in store d c ;;; ret (d + 1, s + 1)) (dest, src).

Definition copy_down (n : nat) (dest src : Z) : M mem (Z * Z) :=
  times n (λ '(d, s),
    let! c := load (s - 1) in store (d - 1) c ;;; ret (d - 1, s - 1)) (dest, src).

Definition memcpy (dest src count : Z) : M mem Z :=
  copy_up (Z.to_nat count) dest src ;;; ret dest.

(** lib/memcpy.c and lib/memset.c: the compiler's names for the same loops. *)
Definition __memcpy (dest source n : Z) : M mem Z :=
  times (Z.to_nat n) (λ '(dst, src), let! c := load src in store dst c ;;; ret (dst + 1, src + 1)) (dest, source) ;;;
  ret dest.

Definition __memset (s c n : Z) : M mem Z :=
  times (Z.to_nat n) (λ dst, store dst c ;;; ret (dst + 1)) s ;;; ret s.

Definition __constant_c_memset (dest c n : Z) : M mem Z := __memset dest c n.

Definition memmove (dest src count : Z) : M mem Z :=
  (if dest <=? src then copy_up (Z.to_nat count) dest src
   else copy_down (Z.to_nat count) (dest + count) (src + count)) ;;;
  ret dest.

Definition memcmp_loop (fuel : nat) (cs ct count res : Z) : M mem Z :=
  loop fuel (λ '(s, t, n, res),
    if 0 <? n then
      let! a := load s in
      let! b := load t in
      let res := s8 (a - b) in
      ret (if negb (res =? 0) then inr res else inl (s + 1, t + 1, n - 1, res))
    else ret (inr res)) (cs, ct, count, res).

Definition memcmp (fuel : nat) (cs ct count : Z) : M mem Z :=
  memcmp_loop fuel cs ct count 0.

(** ** What memory holds *)

Definition bytes_at (m : mem) (p : Z) (l : list Z) : Prop :=
  ∀ i b, l !! i = Some b → m !! (p + Z.of_nat i) = Some b.

(** A C string: its characters, none of them NUL, and the terminator. *)
Definition cstr (m : mem) (p : Z) (l : list Z) : Prop :=
  bytes_at m p (l ++ [0]) ∧ Forall (λ c, 0 < c < 256) l.

Definition mapped (m : mem) (p n : Z) : Prop :=
  ∀ q, p <= q < p + n → is_Some (m !! q).

(** [m] with [l] stored from [p] on. *)
Fixpoint mem_write (m : mem) (p : Z) (l : list Z) : mem :=
  match l with
  | [] => m
  | b :: l => mem_write (<[p := b]> m) (p + 1) l
  end.

Definition dest_free (d s n : Z) : Prop := d <= s ∨ s + n <= d.

(** The tokens of a string: the non-empty fields between delimiters. *)
Fixpoint fields (ds : list Z) (l : list Z) : list (list Z) :=
  match l with
  | [] => [[]]
  | c :: l =>
      if decide (c ∈ ds) then [] :: fields ds l
      else match fields ds l with
           | f :: fs => (c :: f) :: fs
           | [] => [[c]]
           end
  end.

Definition tokens (ds l : list Z) : list (list Z) :=
  filter (λ f, f ≠ []) (fields ds l).

(** The index of the last [c] of a list. *)
Fixpoint last_pos (c : Z) (l : list Z) : option Z :=
  match l with
  | [] => None
  | x :: l =>
      match last_pos c l with
      | Some i => Some (i + 1)
      | None => if decide (x = c) then Some 0 else None
      end
  end.

(** The way the callers use [strtok]: every token of the string at [s]. *)
Fixpoint strtok_all (n fuel : nat) (save s ct : Z) : M mem (list Z) :=
  match n with
  | O => diverge
  | S n =>
      let! '(t, save) := strtok fuel save s ct in
      if t =? NULL then ret []
      else
        let! ts := strtok_all n fuel save NULL ct in
        ret (t :: ts)
  end.

(** ** Lemmas on memory *)

Lemma bytes_at_cons m p b l :
  bytes_at m p (b :: l) ↔ m !! p = Some b ∧ bytes_at m (p + 1) l.
Proof.
  split.
  - intros H. split.
    + rewrite <- (Z.add_0_r p). by apply (H 0%nat).
    + intros i x Hi. replace (p + 1 + Z.of_nat i) with (p + Z.of_nat (S i)) by lia.
      by apply (H (S i)).
  - intros [H0 H] [|i] x; cbn.
    + intros [= <-]. by rewrite Z.add_0_r.
    + intros Hi. replace (p + Z.of_nat (S i)) with (p + 1 + Z.of_nat i) by lia.
      by apply H.
Qed.

Lemma bytes_at_nil m p : bytes_at m p [].
Proof. intros i b H. done. Qed.

Lemma bytes_at_app m p l1 l2 :
  bytes_at m p (l1 ++ l2) ↔ bytes_at m p l1 ∧ bytes_at m (p + zlen l1) l2.
Proof.
  revert p. induction l1 as [|b l1 IH]; intros p; cbn [app].
  - unfold zlen. cbn. rewrite Z.add_0_r. split; [|tauto].
    intros H. split; [apply bytes_at_nil|done].
  - rewrite !bytes_at_cons, IH, zlen_cons.
    replace (p + (1 + zlen l1)) with (p + 1 + zlen l1) by lia. tauto.
Qed.

Lemma bytes_at_insert m p l q b :
  bytes_at m p l → ¬ (p <= q < p + zlen l) → bytes_at (<[q := b]> m) p l.
Proof.
  intros H Hq i x Hi. rewrite lookup_insert_ne; [by apply H|].
  apply lookup_lt_Some in Hi. unfold zlen in Hq. lia.
Qed.

Lemma bytes_at_mapped m p l : bytes_at m p l → mapped m p (zlen l).
Proof.
  intros H q Hq. destruct (lookup_lt_is_Some_2 l (Z.to_nat (q - p))) as [b Hb].
  { unfold zlen in Hq. lia. }
  exists b. apply H in Hb. rewrite <- Hb. f_equal. lia.
Qed.

Lemma mapped_insert m p n q b : mapped m p n → mapped (<[q := b]> m) p n.
Proof.
  intros H r Hr. destruct (decide (q = r)) as [->|Hne].
  - rewrite lookup_insert_eq. by eexists.
  - rewrite lookup_insert_ne by done. by apply H.
Qed.

Lemma mapped_sub m p n p' n' :
  mapped m p n → p <= p' → p' + n' <= p + n → mapped m p' n'.
Proof. intros H ?? q Hq. apply H. lia. Qed.

Lemma mem_write_lookup m p l q :
  mem_write m p l !! q =
    if decide (p <= q < p + zlen l) then l !! Z.to_nat (q - p) else m !! q.
Proof.
  revert m p. induction l as [|b l IH]; intros m p; cbn [mem_write].
  { rewrite decide_False; [done|]. unfold zlen; cbn; lia. }
  rewrite IH, zlen_cons. pose proof (zlen_nonneg l).
  destruct (decide (q = p)) as [->|Hne].
  - rewrite decide_False by lia. rewrite lookup_insert_eq.
    rewrite decide_True by lia. by rewrite Z.sub_diag.
  - rewrite lookup_insert_ne by done. repeat case_decide; try lia; try done.
    replace (Z.to_nat (q - p)) with (S (Z.to_nat (q - (p + 1)))) by lia. done.
Qed.

Lemma bytes_at_mem_write m p l : bytes_at (mem_write m p l) p l.
Proof.
  intros i b Hi. pose proof (lookup_lt_Some _ _ _ Hi). rewrite mem_write_lookup.
  rewrite decide_True by (unfold zlen; lia). by replace (Z.to_nat _) with i by lia.
Qed.

Lemma mem_write_frame m p l q : ¬ (p <= q < p + zlen l) → mem_write m p l !! q = m !! q.
Proof. intros H. rewrite mem_write_lookup. by rewrite decide_False. Qed.

Lemma bytes_at_ext m m' p l :
  bytes_at m p l → (∀ q, p <= q < p + zlen l → m' !! q = m !! q) → bytes_at m' p l.
Proof.
  intros H E i b Hi. rewrite E; [by apply H|].
  apply lookup_lt_Some in Hi. unfold zlen. lia.
Qed.

Lemma mem_write_snoc m p l b :
  mem_write m p (l ++ [b]) = <[p + zlen l := b]> (mem_write m p l).
Proof.
  revert m p. induction l as [|c l IH]; intros m p; cbn [app mem_write].
  - unfold zlen; cbn. by rewrite Z.add_0_r.
  - rewrite IH, zlen_cons. f_equal. lia.
Qed.

Lemma load_Ret m p b : m !! p = Some b → load p m = Ret b m.
Proof. unfold load. by intros ->. Qed.

Lemma store_Ret m p b : is_Some (m !! p) → store p b m = Ret tt (<[p := u8 b]> m).
Proof. unfold store. by intros [x ->]. Qed.

Lemma cstr_cons m p c l : cstr m p (c :: l) ↔ 0 < c < 256 ∧ m !! p = Some c ∧ cstr m (p + 1) l.
Proof. unfold cstr. cbn [app]. rewrite bytes_at_cons, Forall_cons_iff. tauto. Qed.

Lemma cstr_nil m p : cstr m p [] ↔ m !! p = Some 0.
Proof.
  unfold cstr. cbn [app]. rewrite bytes_at_cons. split; [tauto|].
  intros H. repeat split; [done|apply bytes_at_nil|done].
Qed.

Lemma cstr_ext m m' p l :
  cstr m p l → (∀ q, p <= q <= p + zlen l → m' !! q = m !! q) → cstr m' p l.
Proof.
  intros [H HF] E. split; [|done]. eapply bytes_at_ext; [done|].
  intros q Hq. apply E. rewrite zlen_app in Hq. unfold zlen in *. cbn in Hq. lia.
Qed.

Lemma cstr_app m p l1 l2 :
  cstr m p (l1 ++ l2) ↔ bytes_at m p l1 ∧ Forall (λ c, 0 < c < 256) l1 ∧ cstr m (p + zlen l1) l2.
Proof. unfold cstr. rewrite <- app_assoc, bytes_at_app, Forall_app. tauto. Qed.

(** One turn of a loop whose body is straight-line code over [load]/[store]. *)
Ltac c_step :=
  repeat first
    [ rewrite (bind_Ret _ _ _ _ _ eq_refl)
    | erewrite load_Ret by eassumption
    | rewrite store_Ret by assumption
    | progress cbn [ret] ].

Ltac fuel_S fuel := destruct fuel as [|fuel]; [cbn [length] in *; lia|].

(** ** strlen, strcpy and their kin *)

Lemma find_nul_ok l fuel p m :
  cstr m p l → (length l < fuel)%nat → find_nul fuel p m = Ret (p + zlen l) m.
Proof.
  unfold find_nul. revert fuel p. induction l as [|c l IH]; intros fuel p H Hf; fuel_S fuel.
  - apply cstr_nil in H. rewrite (loop_exit _ _ _ _ p m).
    + unfold zlen; cbn. by rewrite Z.add_0_r.
    + by rewrite (bind_Ret _ _ _ _ _ (load_Ret _ _ _ H)).
  - apply cstr_cons in H as (Hc&H0&H). rewrite (loop_step _ _ _ _ (p + 1) m).
    + rewrite IH; [|done|cbn in Hf; lia]. rewrite zlen_cons. f_equal. lia.
    + rewrite (bind_Ret _ _ _ _ _ (load_Ret _ _ _ H0)).
      by rewrite (proj2 (Z.eqb_neq c 0)) by lia.
Qed.

Lemma strlen_ok l fuel p m :
  cstr m p l → (length l < fuel)%nat → strlen fuel p m = Ret (zlen l) m.
Proof.
  intros H Hf. unfold strlen. rewrite (bind_Ret _ _ _ _ _ (find_nul_ok _ _ _ _ H Hf)).
  unfold ret. f_equal. lia.
Qed.

Lemma copy_string_ok l fuel d s m :
  cstr m s l → mapped m d (zlen l + 1) → dest_free d s (zlen l + 1) →
  (length l < fuel)%nat →
  copy_string fuel d s m = Ret tt (mem_write m d (l ++ [0])).
Proof.
  unfold copy_string, dest_free.
  revert fuel d s m. induction l as [|c l IH]; intros fuel d s m H Hm Hd Hf; fuel_S fuel;
    pose proof (zlen_nonneg l) as Hl || pose proof I as Hl.
  - apply cstr_nil in H. rewrite (loop_exit _ _ _ _ tt (<[d := 0]> m)); [done|].
    rewrite (bind_Ret _ _ _ _ _ (load_Ret _ _ _ H)).
    rewrite (bind_Ret _ _ _ _ _ (store_Ret _ _ _ (Hm d ltac:(unfold zlen; cbn; lia)))). done.
  - apply cstr_cons in H as (Hc&H0&H). rewrite zlen_cons in *.
    rewrite (loop_step _ _ _ _ (d + 1, s + 1) (<[d := c]> m)).
    + cbn [app mem_write]. apply IH; [| |lia|cbn in Hf; lia].
      * eapply cstr_ext; [done|]. intros q Hq. apply lookup_insert_ne. lia.
      * apply mapped_insert. eapply mapped_sub; [done|lia..].
    + rewrite (bind_Ret _ _ _ _ _ (load_Ret _ _ _ H0)).
      rewrite (bind_Ret _ _ _ _ _ (store_Ret _ _ _ (Hm d ltac:(lia)))).
      rewrite (proj2 (Z.eqb_neq c 0)) by lia. rewrite is_byte_u8; [done|]. unfold is_byte; lia.
Qed.

(** [strcpy] copies the string and its terminator and touches nothing else;
    also when the two overlap with the destination first, as in
    [strcpy (boot_file, boot_file + 2)]. *)
Lemma strcpy_ok l fuel d s m :
  cstr m s l → mapped m d (zlen l + 1) → dest_free d s (zlen l + 1) →
  (length l < fuel)%nat →
  ∃ m', strcpy fuel d s m = Ret d m' ∧ cstr m' d l ∧
        ∀ q, ¬ (d <= q <= d + zlen l) → m' !! q = m !! q.
Proof.
  intros H Hm Hd Hf. exists (mem_write m d (l ++ [0])). repeat split.
  - unfold strcpy. by rewrite (bind_Ret _ _ _ _ _ (copy_string_ok _ _ _ _ _ H Hm Hd Hf)).
  - apply bytes_at_mem_write.
  - apply H.
  - intros q Hq. apply mem_write_frame. rewrite zlen_app. unfold zlen in *. cbn. lia.
Qed.

Lemma strcat_ok l1 l2 fuel d s m :
  cstr m d l1 → cstr m s l2 → mapped m (d + zlen l1) (zlen l2 + 1) →
  dest_free (d + zlen l1) s (zlen l2 + 1) →
  (length l1 < fuel)%nat → (length l2 < fuel)%nat →
  ∃ m', strcat fuel d s m = Ret d m' ∧ cstr m' d (l1 ++ l2) ∧
        ∀ q, ¬ (d + zlen l1 <= q <= d + zlen l1 + zlen l2) → m' !! q = m !! q.
Proof.
  intros H1 H2 Hm Hd Hf1 Hf2. exists (mem_write m (d + zlen l1) (l2 ++ [0])).
  split; [|split].
  - unfold strcat. rewrite (bind_Ret _ _ _ _ _ (find_nul_ok _ _ _ _ H1 Hf1)).
    by rewrite (bind_Ret _ _ _ _ _ (copy_string_ok _ _ _ _ _ H2 Hm Hd Hf2)).
  - apply cstr_app. repeat split; [|apply H1|apply bytes_at_mem_write|apply H2].
    destruct H1 as [H1 _]. apply bytes_at_app in H1 as [H1 _].
    eapply bytes_at_ext; [done|]. intros q Hq. apply mem_write_frame.
    pose proof (zlen_nonneg l2). rewrite zlen_app. lia.
  - intros q Hq. apply mem_write_frame. rewrite zlen_app. unfold zlen in *. cbn. lia.
Qed.

Lemma store_char_cstr m d s c l :
  cstr m s l → d < s ∨ s + zlen l < d → cstr (<[d := c]> m) s l.
Proof. intros H Hd. eapply cstr_ext; [done|]. intros q Hq. apply lookup_insert_ne. lia. Qed.

Lemma copy_string_n_ok l fuel d s n m :
  cstr m s l → 0 <= n → mapped m d (n `min` (zlen l + 1)) →
  dest_free d s (zlen l + 1) → (length l + 1 < fuel)%nat →
  copy_string_n fuel d s n m = Ret tt (mem_write m d (take (Z.to_nat n) (l ++ [0]))).
Proof.
  unfold copy_string_n, dest_free.
  revert fuel d s n m. induction l as [|c l IH]; intros fuel d s n m H Hn Hm Hd Hf; fuel_S fuel;
    (destruct (decide (n = 0)) as [->|Hn0]; [by rewrite (loop_exit _ _ _ _ tt m)|]);
    (destruct (Z.to_nat n) as [|k] eqn:Ek; [lia|]);
    (assert ((n =? 0) = false) as Eb by lia).
  - apply cstr_nil in H. assert (is_Some (m !! d)) as Hs by (apply Hm; unfold zlen; cbn; lia).
    rewrite (loop_exit _ _ _ _ tt (<[d := 0]> m)).
    + cbn. by rewrite take_nil.
    + rewrite Eb, (bind_Ret _ _ _ _ _ (load_Ret _ _ _ H)).
      by rewrite (bind_Ret _ _ _ _ _ (store_Ret _ _ _ Hs)).
  - apply cstr_cons in H as (Hc&H0&H). pose proof (zlen_nonneg l). rewrite zlen_cons in *.
    assert (is_Some (m !! d)) as Hs by (apply Hm; lia).
    rewrite (loop_step _ _ _ _ (d + 1, s + 1, n - 1) (<[d := c]> m)).
    + cbn [app take mem_write]. rewrite (IH _ _ _ (n - 1)).
      * by replace (Z.to_nat (n - 1)) with k by lia.
      * apply store_char_cstr; [done|lia].
      * lia.
      * apply mapped_insert. eapply mapped_sub; [done|lia..].
      * lia.
      * cbn in Hf; lia.
    + rewrite Eb, (bind_Ret _ _ _ _ _ (load_Ret _ _ _ H0)).
      rewrite (bind_Ret _ _ _ _ _ (store_Ret _ _ _ Hs)).
      rewrite (proj2 (Z.eqb_neq c 0)) by lia. rewrite is_byte_u8; [done|]. unfold is_byte; lia.
Qed.

(** [strncpy] copies at most [n] characters and, unlike the standard one, does
    not pad the rest with NULs. *)
Lemma strncpy_ok l fuel d s n m :
  cstr m s l → 0 <= n → mapped m d (n `min` (zlen l + 1)) →
  dest_free d s (zlen l + 1) → (length l + 1 < fuel)%nat →
  strncpy fuel d s n m = Ret d (mem_write m d (take (Z.to_nat n) (l ++ [0]))).
Proof.
  intros H Hn Hm Hd Hf. unfold strncpy.
  by rewrite (bind_Ret _ _ _ _ _ (copy_string_n_ok _ _ _ _ _ _ H Hn Hm Hd Hf)).
Qed.

Lemma append_n_ok l fuel d s n m :
  cstr m s l → 0 < n → mapped m d (n `min` (zlen l + 1)) →
  dest_free d s (zlen l + 1) → (length l < fuel)%nat →
  append_n fuel d s n m = Ret tt (mem_write m d (take (Z.to_nat n) (l ++ [0]))).
Proof.
  unfold append_n, dest_free.
  revert fuel d s n m. induction l as [|c l IH]; intros fuel d s n m H Hn Hm Hd Hf; fuel_S fuel;
    (destruct (Z.to_nat n) as [|k] eqn:Ek; [lia|]).
  - apply cstr_nil in H. assert (is_Some (m !! d)) as Hs by (apply Hm; unfold zlen; cbn; lia).
    rewrite (loop_exit _ _ _ _ tt (<[d := 0]> m)).
    + cbn. by rewrite take_nil.
    + rewrite (bind_Ret _ _ _ _ _ (load_Ret _ _ _ H)).
      by rewrite (bind_Ret _ _ _ _ _ (store_Ret _ _ _ Hs)).
  - apply cstr_cons in H as (Hc&H0&H). pose proof (zlen_nonneg l). rewrite zlen_cons in *.
    assert (is_Some (m !! d)) as Hs by (apply Hm; lia).
    assert (u8 c = c) as Hu by (apply is_byte_u8; unfold is_byte; lia).
    destruct (decide (n = 1)) as [->|Hn1].
    + rewrite (loop_exit _ _ _ _ tt (<[d := c]> m)).
      * by replace k with 0%nat by lia.
      * rewrite (bind_Ret _ _ _ _ _ (load_Ret _ _ _ H0)).
        rewrite (bind_Ret _ _ _ _ _ (store_Ret _ _ _ Hs)).
        rewrite (proj2 (Z.eqb_neq c 0)) by lia. by rewrite Hu.
    + rewrite (loop_step _ _ _ _ (d + 1, s + 1, n - 1) (<[d := c]> m)).
      * cbn [app take mem_write]. rewrite (IH _ _ _ (n - 1));
          [by replace (Z.to_nat (n - 1)) with k by lia|by apply store_char_cstr; [|lia]|lia|
           |lia|cbn in Hf; lia].
        apply mapped_insert. eapply mapped_sub; [done|lia..].
      * rewrite (bind_Ret _ _ _ _ _ (load_Ret _ _ _ H0)).
        rewrite (bind_Ret _ _ _ _ _ (store_Ret _ _ _ Hs)).
        rewrite (proj2 (Z.eqb_neq c 0)), (proj2 (Z.eqb_neq (n - 1) 0)) by lia. by rewrite Hu.
Qed.

(** [strncat] appends at most [n] characters.  It does not terminate the result
    when it stops at the count: what follows the [n] characters is left as it
    was. *)
Lemma strncat_ok l1 l2 fuel d s n m :
  cstr m d l1 → cstr m s l2 → 0 <= n →
  mapped m (d + zlen l1) (n `min` (zlen l2 + 1)) →
  dest_free (d + zlen l1) s (zlen l2 + 1) →
  (length l1 < fuel)%nat → (length l2 < fuel)%nat →
  strncat fuel d s n m = Ret d (mem_write m (d + zlen l1) (take (Z.to_nat n) (l2 ++ [0]))).
Proof.
  intros H1 H2 Hn Hm Hd Hf1 Hf2. unfold strncat.
  destruct (Z.eqb_spec n 0) as [->|Hn0]; [done|].
  rewrite (bind_Ret _ _ _ _ _ (find_nul_ok _ _ _ _ H1 Hf1)).
  assert (0 < n) as Hpos by lia.
  by rewrite (bind_Ret _ _ _ _ _ (append_n_ok _ _ _ _ _ _ H2 Hpos Hm Hd Hf2)).
Qed.

(** ** Comparison *)

(** The difference of two characters is truncated to a signed char: it keeps
    its zero, not its sign. *)
Lemma s8_diff_zero a b : is_byte a → is_byte b → s8 (s8 a - s8 b) = 0 ↔ a = b.
Proof.
  unfold is_byte, swrap. intros Ha Hb.
  change (2 ^ (8 - 1)) with 128. change (2 ^ 8) with 256.
  Z.to_euclidean_division_equations. lia.
Qed.

Lemma s8_diff_ascii a b : 0 <= a < 128 → 0 <= b < 128 → s8 (s8 a - s8 b) = a - b.
Proof.
  unfold swrap. intros Ha Hb.
  change (2 ^ (8 - 1)) with 128. change (2 ^ 8) with 256.
  Z.to_euclidean_division_equations. lia.
Qed.

Lemma s8_udiff_zero a b : is_byte a → is_byte b → s8 (a - b) = 0 ↔ a = b.
Proof.
  unfold is_byte, swrap. intros Ha Hb.
  change (2 ^ (8 - 1)) with 128. change (2 ^ 8) with 256.
  Z.to_euclidean_division_equations. lia.
Qed.

(** What [strcmp] returns, on the characters of the two strings. *)
Fixpoint cmp_spec (l1 l2 : list Z) : Z :=
  match l1, l2 with
  | [], [] => 0
  | [], b :: _ => s8 (0 - s8 b)
  | a :: _, [] => s8 (s8 a - 0)
  | a :: l1, b :: l2 => if decide (a = b) then cmp_spec l1 l2 else s8 (s8 a - s8 b)
  end.

Lemma cmp_spec_zero l1 l2 :
  Forall (λ c, 0 < c < 256) l1 → Forall (λ c, 0 < c < 256) l2 →
  cmp_spec l1 l2 = 0 ↔ l1 = l2.
Proof.
  intros H1. revert l2. induction H1 as [|a l1 Ha _ IH]; intros l2 H2;
    destruct H2 as [|b l2 Hb H2]; cbn [cmp_spec]; try done.
  - split; [|done]. intros E. apply (s8_diff_zero 0 b) in E; unfold is_byte; lia.
  - split; [|done]. intros E. apply (s8_diff_zero a 0) in E; unfold is_byte; lia.
  - case_decide as Hab.
    + subst b. rewrite (IH l2 H2). naive_solver.
    + rewrite s8_diff_zero by (unfold is_byte; lia). naive_solver.
Qed.

(** The byte of a C string at its first position. *)
Lemma cstr_load m p l :
  cstr m p l → ∃ c, m !! p = Some c ∧ is_byte c ∧ (c = 0 ↔ l = []) ∧ c = hd 0 l.
Proof.
  destruct l as [|c l].
  - intros H%cstr_nil. exists 0. unfold is_byte. naive_solver lia.
  - intros (Hc&H&_)%cstr_cons. exists c. unfold is_byte. cbn.
    split; [done|]. split; [lia|]. split; [|done]. split; [lia|done].
Qed.

Lemma strcmp_ok l1 l2 fuel s t m :
  cstr m s l1 → cstr m t l2 → (length l1 < fuel)%nat →
  strcmp fuel s t m = Ret (cmp_spec l1 l2) m.
Proof.
  unfold strcmp. revert l2 fuel s t.
  induction l1 as [|a l1 IH]; intros l2 fuel s t H1 H2 Hf; fuel_S fuel.
  - apply cstr_nil in H1. destruct (cstr_load _ _ _ H2) as (b&Hb&Hbb&Hb0&->).
    apply loop_exit. rewrite (bind_Ret _ _ _ _ _ (load_Ret _ _ _ H1)).
    rewrite (bind_Ret _ _ _ _ _ (load_Ret _ _ _ Hb)). rewrite orb_true_r.
    by destruct l2.
  - apply cstr_cons in H1 as (Ha&H0&H1). destruct l2 as [|b l2].
    + apply cstr_nil in H2. apply loop_exit.
      rewrite (bind_Ret _ _ _ _ _ (load_Ret _ _ _ H0)).
      rewrite (bind_Ret _ _ _ _ _ (load_Ret _ _ _ H2)).
      assert (s8 (s8 a - s8 0) ≠ 0) as Hne.
      { rewrite s8_diff_zero; unfold is_byte; lia. }
      by rewrite (proj2 (Z.eqb_neq _ 0) Hne).
    + apply cstr_cons in H2 as (Hb&Hb0&H2). cbn [cmp_spec]. case_decide as Hab.
      * subst b. rewrite (loop_step _ _ _ _ (s + 1, t + 1) m).
        { apply IH; [done|done|cbn in Hf; lia]. }
        rewrite (bind_Ret _ _ _ _ _ (load_Ret _ _ _ H0)).
        rewrite (bind_Ret _ _ _ _ _ (load_Ret _ _ _ Hb0)). rewrite Z.sub_diag.
        by rewrite (proj2 (Z.eqb_neq a 0)) by lia.
      * apply loop_exit. rewrite (bind_Ret _ _ _ _ _ (load_Ret _ _ _ H0)).
        rewrite (bind_Ret _ _ _ _ _ (load_Ret _ _ _ Hb0)).
        assert (s8 (s8 a - s8 b) ≠ 0) as Hne.
        { rewrite s8_diff_zero; unfold is_byte; lia. }
        by rewrite (proj2 (Z.eqb_neq _ 0) Hne).
Qed.

Lemma strncmp_loop_ok l1 l2 fuel s t n m :
  cstr m s l1 → cstr m t l2 → 0 <= n → (length l1 + 1 < fuel)%nat →
  strncmp_loop fuel s t n 0 m
    = Ret (cmp_spec (take (Z.to_nat n) l1) (take (Z.to_nat n) l2)) m.
Proof.
  unfold strncmp_loop. revert l2 fuel s t n.
  induction l1 as [|a l1 IH]; intros l2 fuel s t n H1 H2 Hn Hf; fuel_S fuel;
    (destruct (decide (n = 0)) as [->|Hn0]; [by rewrite (loop_exit _ _ _ _ 0 m)|]);
    (destruct (Z.to_nat n) as [|k] eqn:Ek; [lia|]);
    (assert ((n =? 0) = false) as Eb by lia).
  - apply cstr_nil in H1. destruct (cstr_load _ _ _ H2) as (b&Hb&Hbb&Hb0&->).
    apply loop_exit. rewrite Eb, (bind_Ret _ _ _ _ _ (load_Ret _ _ _ H1)).
    rewrite (bind_Ret _ _ _ _ _ (load_Ret _ _ _ Hb)). rewrite orb_true_r.
    by destruct l2.
  - apply cstr_cons in H1 as (Ha&H0&H1). destruct l2 as [|b l2].
    + apply cstr_nil in H2. apply loop_exit.
      rewrite Eb, (bind_Ret _ _ _ _ _ (load_Ret _ _ _ H0)).
      rewrite (bind_Ret _ _ _ _ _ (load_Ret _ _ _ H2)).
      assert (s8 (s8 a - s8 0) ≠ 0) as Hne.
      { rewrite s8_diff_zero; unfold is_byte; lia. }
      by rewrite (proj2 (Z.eqb_neq _ 0) Hne).
    + apply cstr_cons in H2 as (Hb&Hb0&H2). cbn [take cmp_spec]. case_decide as Hab.
      * subst b. rewrite (loop_step _ _ _ _ (s + 1, t + 1, n - 1, 0) m).
        { rewrite (IH l2); [|done|done|lia|cbn in Hf; lia].
          by replace (Z.to_nat (n - 1)) with k by lia. }
        rewrite Eb, (bind_Ret _ _ _ _ _ (load_Ret _ _ _ H0)).
        rewrite (bind_Ret _ _ _ _ _ (load_Ret _ _ _ Hb0)). rewrite Z.sub_diag.
        by rewrite (proj2 (Z.eqb_neq a 0)) by lia.
      * apply loop_exit. rewrite Eb, (bind_Ret _ _ _ _ _ (load_Ret _ _ _ H0)).
        rewrite (bind_Ret _ _ _ _ _ (load_Ret _ _ _ Hb0)).
        assert (s8 (s8 a - s8 b) ≠ 0) as Hne.
        { rewrite s8_diff_zero; unfold is_byte; lia. }
        by rewrite (proj2 (Z.eqb_neq _ 0) Hne).
Qed.

(** ** Block operations *)

Lemma copy_up_ok l d s m :
  bytes_at m s l → Forall is_byte l → mapped m d (zlen l) → dest_free d s (zlen l) →
  copy_up (length l) d s m = Ret (d + zlen l, s + zlen l) (mem_write m d l).
Proof.
  unfold copy_up, dest_free. revert d s m.
  induction l as [|b l IH]; intros d s m H HF Hm Hd.
  - cbn. unfold ret, zlen. cbn. by rewrite !Z.add_0_r.
  - apply bytes_at_cons in H as [H0 H]. inversion HF as [|?? Hb HF']; subst.
    pose proof (zlen_nonneg l). rewrite zlen_cons in *. cbn [length times].
    rewrite (bind_Ret _ _ _ (d + 1, s + 1) (<[d := b]> m)).
    + rewrite IH; [|apply bytes_at_insert; [done|lia]|done| |lia].
      * cbn [mem_write]. by rewrite !Z.add_assoc.
      * apply mapped_insert. eapply mapped_sub; [done|lia..].
    + rewrite (bind_Ret _ _ _ _ _ (load_Ret _ _ _ H0)).
      assert (is_Some (m !! d)) as Hs by (apply Hm; lia).
      rewrite (bind_Ret _ _ _ _ _ (store_Ret _ _ _ Hs)). by rewrite is_byte_u8.
Qed.

Lemma mem_write_app m p l1 l2 :
  mem_write m p (l1 ++ l2) = mem_write (mem_write m p l1) (p + zlen l1) l2.
Proof.
  revert m p. induction l1 as [|b l1 IH]; intros m p; cbn [app mem_write].
  - unfold zlen; cbn. by rewrite Z.add_0_r.
  - rewrite IH, zlen_cons. f_equal. lia.
Qed.

Lemma mem_write_insert_last m p l b :
  mem_write (<[p + zlen l := b]> m) p l = mem_write m p (l ++ [b]).
Proof.
  rewrite mem_write_snoc. apply map_eq. intros q.
  destruct (decide (q = p + zlen l)) as [->|Hq].
  - rewrite lookup_insert_eq, mem_write_frame by lia. by rewrite lookup_insert_eq.
  - rewrite lookup_insert_ne, !mem_write_lookup by done.
    rewrite lookup_insert_ne by done. done.
Qed.

Lemma copy_down_ok l d s m :
  bytes_at m s l → Forall is_byte l → mapped m d (zlen l) → s <= d →
  copy_down (length l) (d + zlen l) (s + zlen l) m = Ret (d, s) (mem_write m d l).
Proof.
  unfold copy_down. revert m. induction l as [|b l IH] using rev_ind; intros m H HF Hm Hd.
  - cbn. unfold ret, zlen. cbn. by rewrite !Z.add_0_r.
  - apply bytes_at_app in H as [H H0]. apply bytes_at_cons in H0 as [H0 _].
    apply Forall_app in HF as [HF Hb]. inversion Hb as [|?? Hb' _]; subst.
    assert (zlen (l ++ [b]) = zlen l + 1) as Hz by (rewrite zlen_app; done).
    pose proof (zlen_nonneg l). rewrite Hz in *.
    rewrite length_app. replace (length l + length [b])%nat with (S (length l)) by (cbn; lia).
    cbn [times]. rewrite (bind_Ret _ _ _ (d + zlen l, s + zlen l) (<[d + zlen l := b]> m)).
    + rewrite IH; [by rewrite mem_write_insert_last|..].
      * apply bytes_at_insert; [done|lia].
      * done.
      * apply mapped_insert. eapply mapped_sub; [done|lia..].
      * lia.
    + replace (d + (zlen l + 1) - 1) with (d + zlen l) by lia.
      replace (s + (zlen l + 1) - 1) with (s + zlen l) by lia.
      rewrite (bind_Ret _ _ _ _ _ (load_Ret _ _ _ H0)).
      assert (is_Some (m !! (d + zlen l))) as Hs by (apply Hm; lia).
      rewrite (bind_Ret _ _ _ _ _ (store_Ret _ _ _ Hs)). by rewrite is_byte_u8.
Qed.

Lemma memcpy_ok l d s m :
  bytes_at m s l → Forall is_byte l → mapped m d (zlen l) → dest_free d s (zlen l) →
  memcpy d s (zlen l) m = Ret d (mem_write m d l).
Proof.
  intros H HF Hm Hd. unfold memcpy, zlen at 1. rewrite Nat2Z.id.
  by rewrite (bind_Ret _ _ _ _ _ (copy_up_ok _ _ _ _ H HF Hm Hd)).
Qed.

Lemma memmove_write l d s m :
  bytes_at m s l → Forall is_byte l → mapped m d (zlen l) →
  memmove d s (zlen l) m = Ret d (mem_write m d l).
Proof.
  intros H HF Hm. unfold memmove. unfold zlen at 1 2. rewrite Nat2Z.id.
  destruct (Z.leb_spec d s) as [Hle|Hgt].
  - by rewrite (bind_Ret _ _ _ _ _ (copy_up_ok _ _ _ _ H HF Hm (or_introl Hle))).
  - assert (s <= d) as Hle by lia.
    by rewrite (bind_Ret _ _ _ _ _ (copy_down_ok _ _ _ _ H HF Hm Hle)).
Qed.

Lemma memset_ok n d c m :
  mapped m d (Z.of_nat n) →
  memset d c (Z.of_nat n) m = Ret d (mem_write m d (replicate n (u8 c))).
Proof.
  intros Hm. unfold memset. rewrite Nat2Z.id.
  enough (E : times n (λ p, store p c ;;; ret (p + 1)) d m =
    Ret (d + Z.of_nat n) (mem_write m d (replicate n (u8 c)))).
  { by rewrite (bind_Ret _ _ _ _ _ E). }
  revert d m Hm. induction n as [|n IH]; intros d m Hm.
  - cbn. unfold ret. by rewrite Z.add_0_r.
  - cbn [times replicate mem_write].
    rewrite (bind_Ret _ _ _ (d + 1) (<[d := u8 c]> m)).
    + rewrite IH; [by replace (d + 1 + Z.of_nat n) with (d + Z.of_nat (S n)) by lia|].
      apply mapped_insert. eapply mapped_sub; [done|lia..].
    + assert (is_Some (m !! d)) as Hs by (apply Hm; lia).
      by rewrite (bind_Ret _ _ _ _ _ (store_Ret _ _ _ Hs)).
Qed.

Lemma memcmp_loop_ok l1 l2 fuel s t m :
  bytes_at m s l1 → bytes_at m t l2 → Forall is_byte l1 → Forall is_byte l2 →
  length l1 = length l2 → (length l1 < fuel)%nat →
  ∃ r, memcmp_loop fuel s t (zlen l1) 0 m = Ret r m ∧ (r = 0 ↔ l1 = l2).
Proof.
  unfold memcmp_loop. revert l2 fuel s t.
  induction l1 as [|a l1 IH]; intros [|b l2] fuel s t H1 H2 F1 F2 Hlen Hf; try done; fuel_S fuel.
  - exists 0. split; [|done]. by apply loop_exit.
  - apply bytes_at_cons in H1 as [H10 H1]. apply bytes_at_cons in H2 as [H20 H2].
    inversion F1 as [|?? Ha F1']; inversion F2 as [|?? Hb F2']; subst.
    pose proof (zlen_nonneg l1). rewrite zlen_cons.
    destruct (decide (a = b)) as [->|Hab].
    + destruct (IH l2 fuel (s + 1) (t + 1)) as (r&Er&Hr); try done;
        [by injection Hlen|cbn in Hf; lia|].
      exists r. rewrite (loop_step _ _ _ _ (s + 1, t + 1, zlen l1, 0) m).
      { split; [done|]. rewrite Hr. naive_solver. }
      rewrite (proj2 (Z.ltb_lt 0 (1 + zlen l1))) by lia.
      rewrite (bind_Ret _ _ _ _ _ (load_Ret _ _ _ H10)).
      rewrite (bind_Ret _ _ _ _ _ (load_Ret _ _ _ H20)).
      rewrite Z.sub_diag. cbn. by replace (1 + zlen l1 - 1) with (zlen l1) by lia.
    + assert (s8 (a - b) ≠ 0) as Hne by (by rewrite s8_udiff_zero).
      exists (s8 (a - b)). split; [|naive_solver]. apply loop_exit.
      rewrite (proj2 (Z.ltb_lt 0 (1 + zlen l1))) by lia.
      rewrite (bind_Ret _ _ _ _ _ (load_Ret _ _ _ H10)).
      rewrite (bind_Ret _ _ _ _ _ (load_Ret _ _ _ H20)).
      by rewrite (proj2 (Z.eqb_neq _ 0) Hne).
Qed.

(** ** Searching *)

Lemma strchr_ok l fuel p c m :
  cstr m p l → 0 < c < 256 → (length l < fuel)%nat →
  strchr fuel p c m =
    Ret (match list_find (eq c) l with Some (i, _) => p + Z.of_nat i | None => NULL end) m.
Proof.
  unfold strchr. revert fuel p. induction l as [|x l IH]; intros fuel p H Hc Hf; fuel_S fuel.
  - apply cstr_nil in H. apply loop_exit. rewrite (bind_Ret _ _ _ _ _ (load_Ret _ _ _ H)).
    by rewrite (proj2 (Z.eqb_neq 0 c)) by lia.
  - apply cstr_cons in H as (Hx&H0&H). cbn [list_find]. case_decide as Hcx.
    + subst x. apply loop_exit. rewrite (bind_Ret _ _ _ _ _ (load_Ret _ _ _ H0)).
      rewrite Z.eqb_refl. by rewrite Z.add_0_r.
    + rewrite (loop_step _ _ _ _ (p + 1) m).
      * rewrite IH; [|done|done|cbn in Hf; lia].
        destruct (list_find (eq c) l) as [[i y]|]; cbn; [|done]. f_equal. lia.
      * rewrite (bind_Ret _ _ _ _ _ (load_Ret _ _ _ H0)).
        by rewrite (proj2 (Z.eqb_neq x c)), (proj2 (Z.eqb_neq x 0)) by lia.
Qed.

Lemma strnlen_ok l fuel p n m :
  cstr m p l → 0 <= n → (length l < fuel)%nat →
  strnlen fuel p n m = Ret (n `min` zlen l) m.
Proof.
  intros H Hn Hf. unfold strnlen.
  enough (E : ∀ fuel p n, cstr m p l → 0 <= n → (length l < fuel)%nat →
    loop fuel (λ '(p, n), let! c := load p in
      ret (if c =? 0 then inr p else if n =? 0 then inr p else inl (p + 1, n - 1)))
      (p, n) m = Ret (p + n `min` zlen l) m).
  { rewrite (bind_Ret _ _ _ _ _ (E _ _ _ H Hn Hf)). unfold ret. f_equal. lia. }
  clear. induction l as [|x l IH]; intros fuel p n H Hn Hf; fuel_S fuel.
  - apply cstr_nil in H. apply loop_exit. rewrite (bind_Ret _ _ _ _ _ (load_Ret _ _ _ H)).
    cbn. unfold ret, zlen. cbn. do 2 f_equal. lia.
  - apply cstr_cons in H as (Hx&H0&H). rewrite zlen_cons. pose proof (zlen_nonneg l).
    destruct (decide (n = 0)) as [->|Hn0].
    + apply loop_exit. rewrite (bind_Ret _ _ _ _ _ (load_Ret _ _ _ H0)).
      rewrite (proj2 (Z.eqb_neq x 0)) by lia. cbn. unfold ret. do 2 f_equal. lia.
    + rewrite (loop_step _ _ _ _ (p + 1, n - 1) m).
      * rewrite IH; [|done|lia|cbn in Hf; lia]. f_equal. lia.
      * rewrite (bind_Ret _ _ _ _ _ (load_Ret _ _ _ H0)).
        by rewrite (proj2 (Z.eqb_neq x 0)), (proj2 (Z.eqb_neq n 0)) by lia.
Qed.

(** [strrchr] looks at every position but the first. *)
Lemma strrchr_loop_ok l fuel p c r m :
  cstr m p l → is_byte c → (length l < fuel)%nat →
  strrchr_loop fuel p c r m =
    Ret (match last_pos c (tail (l ++ [0])) with
         | Some i => p + 1 + i
         | None => r
         end) m.
Proof.
  unfold strrchr_loop. revert fuel p r.
  induction l as [|x l IH]; intros fuel p r H Hc Hf; fuel_S fuel.
  - apply cstr_nil in H. apply loop_exit. by rewrite (bind_Ret _ _ _ _ _ (load_Ret _ _ _ H)).
  - apply cstr_cons in H as (Hx&H0&H).
    destruct (cstr_load _ _ _ H) as (b&Hb&_&Hb0&Ehd).
    rewrite (loop_step _ _ _ _ (p + 1, if b =? c then p + 1 else r) m).
    + rewrite IH; [|done|done|cbn in Hf; lia]. cbn [app tail].
      destruct l as [|y l]; cbn [app tail hd] in *; subst b.
      * cbn [last_pos]. destruct (Z.eqb_spec 0 c); case_decide; try lia; [|done].
        f_equal. lia.
      * cbn [last_pos]. destruct (last_pos c (l ++ [0])) as [i|]; [f_equal; lia|].
        destruct (Z.eqb_spec y c); case_decide; try lia; done || (f_equal; lia).
    + rewrite (bind_Ret _ _ _ _ _ (load_Ret _ _ _ H0)).
      rewrite (proj2 (Z.eqb_neq x 0)) by lia.
      by rewrite (bind_Ret _ _ _ _ _ (load_Ret _ _ _ Hb)).
Qed.

(** ** Tokens *)

Lemma char_in_ok ds fuel p c m :
  cstr m p ds → 0 < c < 256 → (length ds < fuel)%nat →
  char_in fuel p c m = Ret (bool_decide (c ∈ ds)) m.
Proof.
  unfold char_in. revert fuel p. induction ds as [|d ds IH]; intros fuel p H Hc Hf; fuel_S fuel.
  - apply cstr_nil in H. apply loop_exit. by rewrite (bind_Ret _ _ _ _ _ (load_Ret _ _ _ H)).
  - apply cstr_cons in H as (Hd&H0&H). destruct (decide (c = d)) as [->|Hcd].
    + apply loop_exit. rewrite (bind_Ret _ _ _ _ _ (load_Ret _ _ _ H0)).
      rewrite (proj2 (Z.eqb_neq d 0)), Z.eqb_refl by lia.
      rewrite bool_decide_eq_true_2; [done|]. by left.
    + rewrite (loop_step _ _ _ _ (p + 1) m).
      * rewrite IH; [|done|done|cbn in Hf; lia]. f_equal. apply bool_decide_ext.
        rewrite elem_of_cons. naive_solver.
      * rewrite (bind_Ret _ _ _ _ _ (load_Ret _ _ _ H0)).
        by rewrite (proj2 (Z.eqb_neq d 0)), (proj2 (Z.eqb_neq c d)) by lia.
Qed.

(** The head of a list, if any, satisfies [P]. *)
Definition starts_with (P : Z → Prop) (l : list Z) : Prop :=
  match l with [] => True | c :: _ => P c end.

Lemma strspn_loop_ok a b ds fuel p ct n m :
  cstr m p (a ++ b) → cstr m ct ds → Forall (λ c, c ∈ ds) a → starts_with (λ c, c ∉ ds) b →
  (length a < fuel)%nat → (length ds < fuel)%nat →
  strspn_loop fuel p ct n m = Ret (n + zlen a) m.
Proof.
  unfold strspn_loop. intros H Hct Ha Hb Hf Hfd.
  enough (E : ∀ fl p n, cstr m p (a ++ b) → (length a < fl)%nat →
    loop fl (λ '(p, count), let! c := load p in
      if c =? 0 then ret (inr count)
      else let! found := char_in fuel ct c in
           ret (if found then inl (p + 1, count + 1) else inr count)) (p, n) m
      = Ret (n + zlen a) m) by (by apply E).
  clear p n H Hf. induction Ha as [|c a Hc Ha IH]; intros fl p n H Hf; fuel_S fl; cbn [app] in H.
  - change (zlen []) with 0. rewrite Z.add_0_r. apply loop_exit. destruct b as [|c b].
    + apply cstr_nil in H. by rewrite (bind_Ret _ _ _ _ _ (load_Ret _ _ _ H)).
    + apply cstr_cons in H as (Hc&H0&H). rewrite (bind_Ret _ _ _ _ _ (load_Ret _ _ _ H0)).
      rewrite (proj2 (Z.eqb_neq c 0)) by lia.
      rewrite (bind_Ret _ _ _ _ _ (char_in_ok _ _ _ _ _ Hct Hc Hfd)).
      by rewrite bool_decide_eq_false_2.
  - apply cstr_cons in H as (Hcr&H0&H). rewrite (loop_step _ _ _ _ (p + 1, n + 1) m).
    + rewrite IH; [|done|cbn in Hf; lia]. rewrite zlen_cons. f_equal. lia.
    + rewrite (bind_Ret _ _ _ _ _ (load_Ret _ _ _ H0)).
      rewrite (proj2 (Z.eqb_neq c 0)) by lia.
      rewrite (bind_Ret _ _ _ _ _ (char_in_ok _ _ _ _ _ Hct Hcr Hfd)).
      by rewrite bool_decide_eq_true_2.
Qed.

Lemma strpbrk_ok a b ds fuel p ct m :
  cstr m p (a ++ b) → cstr m ct ds → Forall (λ c, c ∉ ds) a → starts_with (λ c, c ∈ ds) b →
  (length a < fuel)%nat → (length ds < fuel)%nat →
  strpbrk fuel p ct m = Ret (match b with [] => NULL | _ => p + zlen a end) m.
Proof.
  unfold strpbrk. intros H Hct Ha Hb Hf Hfd.
  enough (E : ∀ fl p, cstr m p (a ++ b) → (length a < fl)%nat →
    loop fl (λ p, let! c := load p in
      if c =? 0 then ret (inr NULL)
      else let! found := char_in fuel ct c in
           ret (if found then inr p else inl (p + 1))) p m
      = Ret (match b with [] => NULL | _ => p + zlen a end) m) by (by apply E).
  clear p H Hf. induction Ha as [|c a Hc Ha IH]; intros fl p H Hf; fuel_S fl; cbn [app] in H.
  - change (zlen []) with 0. rewrite Z.add_0_r. apply loop_exit. destruct b as [|c b].
    + apply cstr_nil in H. by rewrite (bind_Ret _ _ _ _ _ (load_Ret _ _ _ H)).
    + apply cstr_cons in H as (Hc&H0&H). rewrite (bind_Ret _ _ _ _ _ (load_Ret _ _ _ H0)).
      rewrite (proj2 (Z.eqb_neq c 0)) by lia.
      rewrite (bind_Ret _ _ _ _ _ (char_in_ok _ _ _ _ _ Hct Hc Hfd)).
      by rewrite bool_decide_eq_true_2.
  - apply cstr_cons in H as (Hcr&H0&H). rewrite (loop_step _ _ _ _ (p + 1) m).
    + rewrite IH; [|done|cbn in Hf; lia]. rewrite zlen_cons. destruct b; [done|]. f_equal. lia.
    + rewrite (bind_Ret _ _ _ _ _ (load_Ret _ _ _ H0)).
      rewrite (proj2 (Z.eqb_neq c 0)) by lia.
      rewrite (bind_Ret _ _ _ _ _ (char_in_ok _ _ _ _ _ Hct Hcr Hfd)).
      by rewrite bool_decide_eq_false_2.
Qed.

Lemma span_split (P : Z → Prop) `{!∀ c, Decision (P c)} l :
  ∃ a b, l = a ++ b ∧ Forall P a ∧ starts_with (λ c, ¬ P c) b.
Proof.
  induction l as [|c l (a&b&->&Ha&Hb)]; [by exists [], []|].
  destruct (decide (P c)).
  - exists (c :: a), b. auto.
  - by exists [], (c :: a ++ b).
Qed.

Lemma tokens_skip ds a b : Forall (λ c, c ∈ ds) a → tokens ds (a ++ b) = tokens ds b.
Proof.
  unfold tokens. induction 1 as [|c a Hc _ IH]; [done|]. cbn [app fields].
  rewrite decide_True by done. rewrite filter_cons_False; [done|]. naive_solver.
Qed.

Lemma fields_word ds t r :
  Forall (λ c, c ∉ ds) t → starts_with (λ c, c ∈ ds) r →
  fields ds (t ++ r) = t :: match r with [] => [] | _ :: r => fields ds r end.
Proof.
  induction 1 as [|c t Hc _ IH]; intros Hr; cbn [app].
  - destruct r as [|d r]; [done|]. cbn in *. by rewrite decide_True.
  - cbn [fields]. rewrite decide_False by done. by rewrite IH.
Qed.

Lemma tokens_word ds t r :
  t ≠ [] → Forall (λ c, c ∉ ds) t → starts_with (λ c, c ∈ ds) r →
  tokens ds (t ++ r) = t :: tokens ds (tail r).
Proof.
  intros Ht HF Hr. unfold tokens. rewrite fields_word by done.
  rewrite filter_cons_True by done. by destruct r.
Qed.

(** Memory changed at most inside [p, p+n). *)
Definition same_outside (m m' : mem) (p n : Z) : Prop :=
  ∀ q, ¬ (p <= q < p + n) → m' !! q = m !! q.

Definition apart (p n q k : Z) : Prop := p + n <= q ∨ q + k <= p.

Lemma strtok_null fuel save s ct m l ds :
  (s = NULL ∧ save = NULL) ∨
  ((s ≠ NULL ∨ s = NULL ∧ save ≠ NULL) ∧ cstr m (if decide (s = NULL) then save else s) l ∧
   cstr m ct ds ∧ tokens ds l = [] ∧ (length l + length ds < fuel)%nat) →
  strtok fuel save s ct m = Ret (NULL, NULL) m.
Proof.
  intros [[-> ->]|(Hne&H&Hct&Htok&Hf)]; [done|].
  unfold strtok. set (p := if decide (s = NULL) then save else s) in *.
  assert ((if negb (s =? NULL) then s else save) = p) as ->.
  { subst p. destruct (Z.eqb_spec s NULL), (decide (s = NULL)); naive_solver. }
  assert (p ≠ NULL) as Hp by (subst p; case_decide; naive_solver).
  rewrite (proj2 (Z.eqb_neq p NULL) Hp).
  destruct (span_split (λ c, c ∈ ds) l) as (a&b&->&Ha&Hb).
  rewrite length_app in Hf.
  unfold strspn. erewrite (bind_Ret _ _ _ _ _ (strspn_loop_ok _ _ _ _ _ _ _ _ H Hct Ha Hb _ _)).
  Unshelve. 2,3: lia.
  apply cstr_app in H as (_&_&H). rewrite Z.add_0_l.
  rewrite tokens_skip in Htok by done. destruct b as [|c b].
  - apply cstr_nil in H. by rewrite (bind_Ret _ _ _ _ _ (load_Ret _ _ _ H)).
  - exfalso. destruct (span_split (λ c, c ∉ ds) (c :: b)) as (t&r&E&Ht&Hr).
    rewrite E in Htok. rewrite tokens_word in Htok; [done| |done|].
    + intros ->. cbn [app] in E. subst r. cbn in Hr, Hb. naive_solver.
    + destruct r; [done|]. cbn in *. destruct (decide (z ∈ ds)); naive_solver.
Qed.

Lemma strtok_word a t r ds fuel save s p ct m :
  s = p ∨ s = NULL ∧ save = p → 0 < p →
  cstr m p (a ++ t ++ r) → cstr m ct ds →
  Forall (λ c, c ∈ ds) a → t ≠ [] → Forall (λ c, c ∉ ds) t → starts_with (λ c, c ∈ ds) r →
  (length a + length t + length ds < fuel)%nat →
  strtok fuel save s ct m =
    match r with
    | [] => Ret (p + zlen a, NULL) m
    | _ => Ret (p + zlen a, p + zlen a + zlen t + 1) (<[p + zlen a + zlen t := 0]> m)
    end.
Proof.
  intros Hs Hp H Hct Ha Hne Ht Hr Hf. unfold strtok.
  assert ((if negb (s =? NULL) then s else save) = p) as ->.
  { unfold NULL in *. destruct (Z.eqb_spec s 0); naive_solver lia. }
  unfold NULL in *. rewrite (proj2 (Z.eqb_neq p 0)) by lia.
  assert (starts_with (λ c, c ∉ ds) (t ++ r)) as Htr.
  { destruct t; [done|]. by inversion Ht. }
  assert (length a < fuel)%nat as Hfa by lia. assert (length ds < fuel)%nat as Hfd by lia.
  unfold strspn.
  rewrite (bind_Ret _ _ _ _ _ (strspn_loop_ok _ _ _ _ _ _ 0 _ H Hct Ha Htr Hfa Hfd)).
  apply cstr_app in H as (_&_&H). rewrite Z.add_0_l.
  assert (length t < fuel)%nat as Hft by lia.
  pose proof (strpbrk_ok _ _ _ _ _ _ _ H Hct Ht Hr Hft Hfd) as Epb.
  destruct t as [|c t]; [done|]. pose proof H as (Hc&H0&_)%cstr_cons.
  rewrite (bind_Ret _ _ _ _ _ (load_Ret _ _ _ H0)).
  rewrite (proj2 (Z.eqb_neq c 0)) by lia. rewrite (bind_Ret _ _ _ _ _ Epb).
  destruct r as [|d r]; [done|]. pose proof (zlen_nonneg a). pose proof (zlen_nonneg (c :: t)).
  rewrite (proj2 (Z.eqb_neq _ 0)) by lia.
  apply cstr_app in H as (_&_&(Hd&Hd0&_)%cstr_cons).
  rewrite (bind_Ret _ _ _ _ _ (load_Ret _ _ _ Hd0)).
  rewrite (proj2 (Z.eqb_neq d 0)) by lia.
  assert (is_Some (m !! (p + zlen a + zlen (c :: t)))) as Hsome by eauto.
  by rewrite (bind_Ret _ _ _ _ _ (store_Ret _ _ _ Hsome)).
Qed.

(** How a string falls apart when it has a token. *)
Lemma tokens_cons_inv ds l :
  tokens ds l = [] ∨
  ∃ a t r, l = a ++ t ++ r ∧ Forall (λ c, c ∈ ds) a ∧ t ≠ [] ∧ Forall (λ c, c ∉ ds) t ∧
    starts_with (λ c, c ∈ ds) r ∧ tokens ds l = t :: tokens ds (tail r).
Proof.
  destruct (span_split (λ c, c ∈ ds) l) as (a&b&->&Ha&Hb).
  destruct (span_split (λ c, c ∉ ds) b) as (t&r&->&Ht&Hr).
  assert (starts_with (λ c, c ∈ ds) r) as Hr'.
  { destruct r; [done|]. cbn in *. by apply dec_stable. }
  rewrite tokens_skip by done. destruct t as [|c t].
  - left. destruct r as [|d r]; [done|]. cbn [app starts_with] in *. done.
  - right. exists a, (c :: t), r. by rewrite tokens_word.
Qed.

Lemma strtok_all_ok n ds ct fuel : ∀ l save s p m,
  s = p ∨ s = NULL ∧ save = p → 0 < p →
  cstr m p l → cstr m ct ds → apart p (zlen l) ct (zlen ds + 1) →
  (length l + length ds < fuel)%nat → (length l + 1 < n)%nat →
  ∃ ts m', strtok_all n fuel save s ct m = Ret ts m' ∧
    Forall2 (λ t, cstr m' t) ts (tokens ds l) ∧
    Forall (λ t, p <= t) ts ∧ same_outside m m' p (zlen l).
Proof.
  induction n as [|n IH]; intros l save s p m Hs Hp H Hct Hap Hf Hn; [lia|].
  cbn [strtok_all]. unfold apart in *.
  destruct (tokens_cons_inv ds l) as [Htok|(a&t&r&->&Ha&Hne&Ht&Hr&Htok)]; rewrite Htok.
  - exists [], m. assert (strtok fuel save s ct m = Ret (NULL, NULL) m) as E.
    { apply (strtok_null _ _ _ _ _ l ds). right.
      assert ((if decide (s = NULL) then save else s) = p) as ->.
      { case_decide; unfold NULL in *; naive_solver lia. }
      unfold NULL in *. naive_solver lia. }
    rewrite (bind_Ret _ _ _ _ _ E). by repeat split; auto.
  - rewrite !length_app in *. rewrite !zlen_app in *.
    assert (length a + length t + length ds < fuel)%nat as Hf' by lia.
    pose proof (strtok_word _ _ _ _ _ _ _ _ _ _ Hs Hp H Hct Ha Hne Ht Hr Hf') as E.
    pose proof (zlen_nonneg a). pose proof (zlen_nonneg t).
    destruct r as [|d r].
    + rewrite (bind_Ret _ _ _ _ _ E). unfold NULL.
      rewrite (proj2 (Z.eqb_neq (p + zlen a) 0)) by lia.
      destruct n as [|n]; [lia|]. cbn [strtok_all tail].
      exists [p + zlen a], m. split; [done|]. rewrite app_nil_r in *.
      apply cstr_app in H as (_&_&H). split; [|split; [|done]].
      * constructor; [done|]. constructor.
      * constructor; [lia|done].
    + rewrite (bind_Ret _ _ _ _ _ E). unfold NULL.
      rewrite (proj2 (Z.eqb_neq (p + zlen a) 0)) by lia.
      set (q := p + zlen a + zlen t) in *. rewrite zlen_cons in *. pose proof (zlen_nonneg r).
      pose proof H as (_&_&(Hbt&Hct0&(_&_&Hr')%cstr_cons)%cstr_app)%cstr_app.
      destruct (IH r (q + 1) NULL (q + 1) (<[q := 0]> m)) as (ts&m'&E'&HF&HL&HO).
      * by right.
      * lia.
      * eapply cstr_ext; [done|]. intros z Hz. apply lookup_insert_ne. lia.
      * eapply cstr_ext; [done|]. intros z Hz. apply lookup_insert_ne. lia.
      * lia.
      * cbn in Hf; lia.
      * cbn in Hn. destruct t; [done|]. cbn in Hn. lia.
      * exists (p + zlen a :: ts), m'. rewrite (bind_Ret _ _ _ _ _ E'). split; [done|].
        cbn [tail]. split.
        { constructor; [|done]. split; [|done]. apply bytes_at_app. split.
          - eapply bytes_at_ext; [exact Hbt|]. intros z Hz.
            rewrite HO, lookup_insert_ne by lia. done.
          - apply bytes_at_cons. split; [|apply bytes_at_nil]. fold q.
            rewrite HO by lia. apply lookup_insert_eq. }
        split.
        { constructor; [lia|]. eapply Forall_impl; [|exact HL]. intros x Hx. simpl in Hx. subst q. lia. }
        intros z Hz. rewrite HO by (subst q; lia). apply lookup_insert_ne. subst q; lia.
Qed.

(** ** Deciding what memory holds *)

#[export] Instance bytes_at_dec m p l : Decision (bytes_at m p l).
Proof.
  revert p. induction l as [|b l IH]; intros p.
  - left. apply bytes_at_nil.
  - destruct (decide (m !! p = Some b)) as [H|H].
    + destruct (IH (p + 1)) as [H'|H']; [left|right]; rewrite bytes_at_cons; tauto.
    + right. rewrite bytes_at_cons. tauto.
Defined.

#[export] Instance cstr_dec m p l : Decision (cstr m p l).
Proof. unfold cstr. apply _. Defined.

Lemma mapped_seqZ m p n : mapped m p n ↔ Forall (λ q, is_Some (m !! q)) (seqZ p n).
Proof.
  unfold mapped. rewrite List.Forall_forall. split; intros H q Hq; apply H.
  - apply list_elem_of_In, elem_of_seqZ in Hq. lia.
  - apply list_elem_of_In, elem_of_seqZ. lia.
Qed.

#[export] Instance mapped_dec m p n : Decision (mapped m p n).
Proof.
  destruct (decide (Forall (λ q, is_Some (m !! q)) (seqZ p n))) as [H|H]; [left|right];
    by rewrite mapped_seqZ.
Defined.

#[export] Instance apart_dec p n q k : Decision (apart p n q k).
Proof. unfold apart. apply _. Defined.

(** *** Properties of the string library *)

(** [memmove] copies the bytes of the source as they were before the call,
    for every placement of the two ranges, overlapping ones included, and
    changes nothing outside the destination. *)
Theorem memmove_overlap l d s m :
  bytes_at m s l → Forall is_byte l → mapped m d (zlen l) →
  ∃ m', memmove d s (zlen l) m = Ret d m' ∧ bytes_at m' d l ∧
        same_outside m m' d (zlen l).
Proof.
  intros H HF Hm. exists (mem_write m d l). split; [by apply memmove_write|].
  split; [apply bytes_at_mem_write|]. intros q Hq. by apply mem_write_frame.
Qed.

Definition example_mem : mem := mem_write ∅ 100 (replicate 40 7).

Lemma memmove_overlap_witness :
  let m := mem_write example_mem 102 [1; 2; 3; 4; 5] in
  ∃ m', memmove 104 102 5 m = Ret 104 m' ∧ bytes_at m' 104 [1; 2; 3; 4; 5] ∧
        same_outside m m' 104 5.
Proof.
  cbv zeta. apply (memmove_overlap [1; 2; 3; 4; 5]); apply (bool_decide_unpack _);
    vm_compute; exact I.
Defined.

(** C36: Calling [strtok] until it returns NULL, first with the string and then
    with NULL, splits the string at the delimiters: the pointers returned are,
    in order, the non-empty fields between them, each terminated in place, and
    nothing outside the string is written. *)
Theorem strtok_tokenizes n fuel save s ct l ds m :
  0 < s → cstr m s l → cstr m ct ds → apart s (zlen l) ct (zlen ds + 1) →
  (length l + length ds < fuel)%nat → (length l + 1 < n)%nat →
  ∃ ts m', strtok_all n fuel save s ct m = Ret ts m' ∧
    Forall2 (λ t, cstr m' t) ts (tokens ds l) ∧
    same_outside m m' s (zlen l).
Proof.
  intros Hs H Hct Hap Hf Hn.
  destruct (strtok_all_ok n ds ct fuel l save s s m) as (ts&m'&E&HF&_&HO); auto.
  by exists ts, m'.
Qed.

Lemma strtok_tokenizes_witness :
  let m := mem_write (mem_write example_mem 100 [32; 97; 98; 32; 32; 99; 0]) 120 [32; 0] in
  tokens [32] [32; 97; 98; 32; 32; 99] = [[97; 98]; [99]] ∧
  ∃ ts m', strtok_all 10 20 0 100 120 m = Ret ts m' ∧
    Forall2 (λ t, cstr m' t) ts (tokens [32] [32; 97; 98; 32; 32; 99]) ∧
    same_outside m m' 100 6.
Proof.
  cbv zeta. split; [vm_compute; reflexivity|].
  apply (strtok_tokenizes 10 20 0 100 120 [32; 97; 98; 32; 32; 99] [32]);
    try (apply (bool_decide_unpack _); vm_compute; exact I); cbn; lia.
Defined.

(** [strrchr] advances its pointer before it compares: it finds the last
    occurrence of the character behind the first position (the terminator
    counts as a position), and so does not find a character that occurs only at
    the start of the string. *)
Theorem strrchr_behind_first l fuel p c m :
  cstr m p l → is_byte c → (length l < fuel)%nat →
  strrchr fuel p c m =
    Ret (match last_pos c (tail (l ++ [0])) with
         | Some i => p + 1 + i
         | None => NULL
         end) m.
Proof. intros H Hc Hf. by apply strrchr_loop_ok. Qed.

Lemma strrchr_behind_first_witness :
  let m := mem_write example_mem 100 [47; 97; 98; 0] in
  strrchr 9 100 47 m = Ret NULL m ∧ strchr 9 100 47 m = Ret 100 m.
Proof.
  cbv zeta. split; [|vm_compute; reflexivity].
  rewrite (strrchr_behind_first [47; 97; 98] 9 100 47).
  - vm_compute. reflexivity.
  - apply (bool_decide_unpack _). vm_compute. exact I.
  - apply (bool_decide_unpack _). vm_compute. exact I.
  - cbn. lia.
Defined.

(** [strcmp] returns 0 exactly for equal strings, but the difference of the
    first two different characters is kept in a signed char: its sign is the
    order of the strings only while the characters are ASCII. *)
Theorem strcmp_equal l1 l2 fuel s t m :
  cstr m s l1 → cstr m t l2 → (length l1 < fuel)%nat →
  ∃ r, strcmp fuel s t m = Ret r m ∧ (r = 0 ↔ l1 = l2).
Proof.
  intros H1 H2 Hf. exists (cmp_spec l1 l2). split; [by apply strcmp_ok|].
  apply cmp_spec_zero; [apply H1|apply H2].
Qed.

Lemma strcmp_equal_witness :
  let m := mem_write (mem_write example_mem 100 [127; 0]) 120 [128; 0] in
  (∃ r, strcmp 9 100 120 m = Ret r m ∧ (r = 0 ↔ [127] = [128])) ∧
  strcmp 9 100 120 m = Ret (-1) m.
Proof.
  cbv zeta. split; [|vm_compute; reflexivity].
  apply (strcmp_equal [127] [128] 9 100 120);
    [apply (bool_decide_unpack _); vm_compute; exact I..|cbn; lia].
Defined.
