(* ===== verification/Vsprintf.v ===== *)
(** * lib/vsprintf.c: number conversion and formatted output

    A C string is the list of its characters; reading it past its end gives the
    NUL.  [vsprintf] threads the bytes it has written, the arguments [va_arg]
    has not taken yet, and the stores made by [%n].  [print_all] is the
    specification: the text of a format from its syntax, with the digits of a
    number by place value. *)

From Stdlib Require Import Ascii String.
From S2P Require Import Prelude.

Open Scope Z_scope.
Open Scope list_scope.

Definition ch (a : ascii) : Z := Z.of_N (N_of_ascii a).

(** A string constant of the source, as bytes. *)
Fixpoint str (s : string) : list Z :=
  match s with
  | EmptyString => []
  | String a s => ch a :: str s
  end.

(* the escape of a linefeed *)
Definition nl : string := String (ascii_of_N 10) EmptyString.

(** The character a pointer into a string points to. *)
Definition peek (cp : list Z) : Z := hd 0 cp.

Definition is_digit (c : Z) : bool := (48 <=? c) && (c <=? 57).
Definition is_xdigit (c : Z) : bool :=
  is_digit c || ((65 <=? c) && (c <=? 70)) || ((97 <=? c) && (c <=? 102)).
Definition is_lower (c : Z) : bool := (97 <=? c) && (c <=? 122).

(* the macro adds, where an upper-casing one subtracts *)
Definition to_upper (c : Z) : Z := c + 97 - 65.

(** ** simple_strtoul *)

Definition digit_value (c : Z) : Z :=
  if is_digit c then c - 48 else (if is_lower c then to_upper c else c) - 65 + 10.

Fixpoint strtoul_loop (cp : list Z) (base result : Z) : Z * list Z :=
  match cp with
  | [] => (result, [])
  | c :: cp' =>
      if is_xdigit c && (digit_value c <? base)
      then strtoul_loop cp' base (u64 (result * base + digit_value c))
      else (result, cp)
  end.

(* base and cp after the prefix has been looked at *)
Definition strtoul_prefix (cp : list Z) (base : Z) : list Z * Z :=
  if base =? 0 then
    if peek cp =? 48 then
      let cp := tail cp in
      if (peek cp =? 120) && is_xdigit (peek (tail cp))
      then (tail cp, 16) else (cp, 8)
    else (cp, 10)
  else (cp, base).

(** The value and where [*endp] is left. *)
Definition simple_strtoul (cp : list Z) (base : Z) : Z * list Z :=
  let '(cp, base) := strtoul_prefix cp base in
  strtoul_loop cp base 0.

Fixpoint skip_atoi_loop (s : list Z) (i : Z) : Z * list Z :=
  match s with
  | c :: s' => if is_digit c then skip_atoi_loop s' (s32 (i * 10 + c - 48)) else (i, s)
  | [] => (i, [])
  end.

Definition skip_atoi (s : list Z) : Z * list Z := skip_atoi_loop s 0.

(** ** number *)

Definition ZEROPAD := 1.
Definition SIGN := 2.
Definition PLUS := 4.
Definition SPACE := 8.
Definition LEFT := 16.
Definition SPECIAL := 32.
Definition LARGE := 64.

Definition has (type flag : Z) : bool := negb (Z.land type flag =? 0).

Definition digits (type : Z) : list Z :=
  if has type LARGE then str "0123456789ABCDEFGHIJKLMNOPQRSTUVWXYZ"
  else str "0123456789abcdefghijklmnopqrstuvwxyz".

(** [tmp], least significant digit first; do_div divides unsigned. *)
Fixpoint number_digits (fuel : nat) (ds : list Z) (num base : Z) : list Z :=
  match fuel with
  | O => []
  | S n =>
      if num =? 0 then []
      else default 0 (aget ds (num mod base)) :: number_digits n ds (num / base) base
  end.

(* while (size-- > 0) *str++ = c: the bytes, and size afterwards *)
Definition pad (c size : Z) : list Z * Z :=
  (replicate (Z.to_nat size) c, (if 0 <? size then 0 else size) - 1).

(** The bytes [number] writes at [str]; [None] is its null return.  [num] is the
    bit pattern of the [long]. *)
Definition number (num base size precision type : Z) : option (list Z) :=
  let type := if has type LEFT then Z.land type (Z.lnot ZEROPAD) else type in
  if (base <? 2) || (36 <? base) then None
  else
    let ds := digits type in
    let c := if has type ZEROPAD then 48 else 32 in
    let '(sign, num, size) :=
      if has type SIGN then
        if s64 num <? 0 then (45, u64 (- s64 num), size - 1)
        else if has type PLUS then (43, num, size - 1)
        else if has type SPACE then (32, num, size - 1)
        else (0, num, size)
      else (0, num, size) in
    let size :=
      if has type SPECIAL then
        if base =? 16 then size - 2 else if base =? 8 then size - 1 else size
      else size in
    let tmp := if num =? 0 then [48] else number_digits 64 ds num base in
    let i := zlen tmp in
    let precision := if precision <? i then i else precision in
    let size := size - precision in
    let '(p1, size) := if has type (ZEROPAD + LEFT) then ([], size) else pad 32 size in
    let p2 := if negb (sign =? 0) then [sign] else [] in
    let p3 :=
      if has type SPECIAL then
        if base =? 8 then [48]
        else if base =? 16 then [48; default 0 (aget ds 33)] else []
      else [] in
    let '(p4, size) := if has type LEFT then ([], size) else pad c size in
    let p5 := replicate (Z.to_nat (precision - i)) 48 in
    let '(p6, size) := pad 32 size in
    Some (p1 ++ p2 ++ p3 ++ p4 ++ p5 ++ rev tmp ++ p6).

(** ** vsprintf *)

(** A variadic argument: an integer register, or a pointer to a C string. *)
Inductive arg :=
| AInt (z : Z)
| AStr (s : option (list Z)).

Record vstate := VState {
  v_out : list Z;             (* buf .. str *)
  v_args : list arg;          (* args *)
  v_stores : list (Z * Z * Z) (* %n: address, width in bits, value *)
}.

Definition emit (l : list Z) : M vstate unit :=
  modify (λ s, VState (v_out s ++ l) (v_args s) (v_stores s)).

(* no argument left, or one of another kind, is undefined *)
Definition next_arg : M vstate arg := λ s,
  match v_args s with
  | a :: rest => Ret a (VState (v_out s) rest (v_stores s))
  | [] => Trap
  end.

Definition va_word : M vstate Z :=
  let! a := next_arg in match a with AInt z => ret z | AStr _ => trap end.

Definition va_int : M vstate Z := let! z := va_word in ret (s32 z).
Definition va_uint : M vstate Z := let! z := va_word in ret (u32 z).
Definition va_ulong : M vstate Z := let! z := va_word in ret (u64 z).

Definition va_string : M vstate (option (list Z)) :=
  let! a := next_arg in match a with AStr s => ret s | AInt _ => trap end.

(* from the character behind '%': the flags and what follows them *)
Fixpoint parse_flags (fmt : list Z) (flags : Z) : Z * list Z :=
  match fmt with
  | [] => (flags, [])
  | c :: f =>
      if c =? ch "-" then parse_flags f (Z.lor flags LEFT)
      else if c =? ch "+" then parse_flags f (Z.lor flags PLUS)
      else if c =? ch " " then parse_flags f (Z.lor flags SPACE)
      else if c =? ch "#" then parse_flags f (Z.lor flags SPECIAL)
      else if c =? ch "0" then parse_flags f (Z.lor flags ZEROPAD)
      else (flags, fmt)
  end.

(** The field width, the flags it may change, and the rest of the format. *)
Definition parse_width (fmt : list Z) (flags : Z) : M vstate (Z * Z * list Z) :=
  if is_digit (peek fmt) then
    let '(w, fmt) := skip_atoi fmt in ret (w, flags, fmt)
  else if peek fmt =? 42 then
    let! w := va_int in
    ret (if w <? 0 then (s32 (- w), Z.lor flags LEFT, tail fmt) else (w, flags, tail fmt))
  else ret (-1, flags, fmt).

Definition parse_precision (fmt : list Z) : M vstate (Z * list Z) :=
  if peek fmt =? 46 then
    let fmt := tail fmt in
    let! ' (p, fmt) :=
      (if is_digit (peek fmt) then ret (skip_atoi fmt)
       else if peek fmt =? 42 then let! p := va_int in ret (p, tail fmt)
       else ret (-1, fmt)) in
    ret (if p <? 0 then 0 else p, fmt)
  else ret (-1, fmt).

Definition parse_qualifier (fmt : list Z) : Z * list Z :=
  let c := peek fmt in
  if (c =? 104) || (c =? 108) || (c =? 76) then (c, tail fmt) else (-1, fmt).

(* while (--field_width > 0) *str++ = c *)
Definition pad_pre (c width : Z) : list Z * Z :=
  (replicate (Z.to_nat (width - 1)) c, if 1 <? width then 0 else width - 1).

Definition conv_c (flags width : Z) : M vstate unit :=
  let '(p1, width) := if has flags LEFT then ([], width) else pad_pre 32 width in
  emit p1 ;;;
  let! c := va_int in
  emit [u8 c] ;;;
  emit (fst (pad_pre 32 width)).

(* while (len < field_width--) *str++ = ' ' *)
Definition pad_len (len width : Z) : list Z * Z :=
  (replicate (Z.to_nat (width - len)) 32, (if len <? width then len else width) - 1).

(* strnlen takes the precision as an unsigned long: -1 is no bound *)
Definition conv_s (flags width precision : Z) : M vstate unit :=
  let! s := va_string in
  let s := default (str "<NULL>") s in
  let len := Z.min (u64 precision) (zlen s) in
  let '(p1, width) := if has flags LEFT then ([], width) else pad_len len width in
  emit p1 ;;;
  emit (take (Z.to_nat len) s) ;;;
  emit (fst (pad_len len width)).

Definition emit_number (num base width precision flags : Z) : M vstate unit :=
  let! l := lift_opt (number num base width precision flags) in
  emit l.

Definition conv_p (flags width precision : Z) : M vstate unit :=
  let '(width, flags) := if width =? -1 then (16, Z.lor flags ZEROPAD) else (width, flags) in
  let! v := va_ulong in
  emit_number v 16 width precision flags.

Definition conv_n (qualifier : Z) : M vstate unit :=
  let! ip := va_ulong in
  modify (λ s, VState (v_out s) (v_args s)
    (v_stores s ++ [if qualifier =? 108 then (ip, 64, zlen (v_out s))
                    else (ip, 32, s32 (zlen (v_out s)))])).

Definition conv_int (base qualifier width precision flags : Z) : M vstate unit :=
  let! num :=
    (if qualifier =? 108 then va_ulong
     else if has flags SIGN then let! v := va_int in ret (u64 v)
     else va_uint) in
  emit_number num base width precision flags.

(* the switch on the conversion character *)
Definition convert (c qualifier flags width precision : Z) : M vstate unit :=
  if c =? ch "c" then conv_c flags width
  else if c =? ch "s" then conv_s flags width precision
  else if c =? ch "p" then conv_p flags width precision
  else if c =? ch "n" then conv_n qualifier
  else if c =? ch "o" then conv_int 8 qualifier width precision flags
  else if c =? ch "X" then conv_int 16 qualifier width precision (Z.lor flags LARGE)
  else if c =? ch "x" then conv_int 16 qualifier width precision flags
  else if (c =? ch "d") || (c =? ch "i")
       then conv_int 10 qualifier width precision (Z.lor flags SIGN)
  else if c =? ch "u" then conv_int 10 qualifier width precision flags
  else emit ((if c =? ch "%" then [] else [ch "%"]) ++ (if c =? 0 then [] else [c])).

(** One directive, [fmt] behind its '%'; the rest of the format. *)
Definition directive (fmt : list Z) : M vstate (list Z) :=
  let '(flags, fmt) := parse_flags fmt 0 in
  let! ' (width, flags, fmt) := parse_width fmt flags in
  let! ' (precision, fmt) := parse_precision fmt in
  let '(qualifier, fmt) := parse_qualifier fmt in
  convert (peek fmt) qualifier flags width precision ;;;
  ret (tail fmt).

Definition vsprintf_loop (fuel : nat) (fmt : list Z) : M vstate unit :=
  loop fuel (λ fmt,
    match fmt with
    | [] => ret (inr tt)
    | c :: fmt =>
        if c =? ch "%" then let! rest := directive fmt in ret (inl rest)
        else emit [c] ;;; ret (inl fmt)
    end) fmt.

(** The value returned, [str - buf]; the bytes stored at [buf] before the
    terminator; and the [%n] stores. *)
Definition vsprintf (fmt : list Z) (args : list arg) : result (list (Z * Z * Z)) (Z * list Z) :=
  match vsprintf_loop (S (length fmt)) fmt (VState [] args []) with
  | Ret _ s => Ret (zlen (v_out s), v_out s) (v_stores s)
  | Jump e s => Jump e (v_stores s)
  | Trap => Trap
  | Diverge => Diverge
  end.

Definition sprintf (fmt : string) (args : list arg) : result (list (Z * Z * Z)) (Z * list Z) :=
  vsprintf (str fmt) args.

(** ** The language of formats

    The abstract syntax of a format, what it means, and how it is written. *)
Inductive amount :=
| ANone
| ANum (n : Z)
| AStar.

Inductive item :=
| Lit (c : Z)
| Conv (flags : list Z) (width precision : amount) (qualifier : option Z) (conv : Z).

Definition flag_chars : list Z := str "-+ #0".
Definition conv_chars : list Z := str "cspnoxXdiu%".

Definition flag_bit (c : Z) : Z :=
  if c =? ch "-" then LEFT else if c =? ch "+" then PLUS else if c =? ch " " then SPACE
  else if c =? ch "#" then SPECIAL else ZEROPAD.

(** The digits of [n] by their place: as many as there are powers of the base
    up to [n], the [k]-th from the right being [n / base ^ k mod base]. *)
Definition digit_char (upper : bool) (d : Z) : Z :=
  if d <? 10 then 48 + d else (if upper then 65 else 97) + (d - 10).

Definition digit_count (base n : Z) : Z :=
  1 + zlen (filter (λ k, base ^ k <= n) (seqZ 1 63)).

Definition numeral (upper : bool) (base n : Z) : list Z :=
  map (λ k, digit_char upper (n / base ^ k mod base)) (rev (seqZ 0 (digit_count base n))).

(** A decimal number as it is written in a format. *)
Definition dec (n : Z) : list Z := numeral false 10 n.

Definition show_amount (a : amount) : list Z :=
  match a with ANone => [] | ANum n => dec n | AStar => str "*" end.

Definition show (i : item) : list Z :=
  match i with
  | Lit c => [c]
  | Conv fl w p q c =>
      ch "%" :: fl ++ show_amount w ++
      match p with ANone => [] | _ => ch "." :: show_amount p end ++
      match q with Some q => [q] | None => [] end ++ [c]
  end.

Definition item_ok (i : item) : Prop :=
  match i with
  | Lit c => c ≠ ch "%"
  | Conv fl w p q c =>
      Forall (λ c, c ∈ flag_chars) fl ∧ c ∈ conv_chars ∧
      match w with ANum n => 0 < n < 2 ^ 31 | _ => True end ∧
      match p with ANum n => 0 <= n < 2 ^ 31 | _ => True end ∧
      match q with Some q => q ∈ str "hlL" | None => True end
  end.

#[export] Instance item_ok_dec i : Decision (item_ok i).
Proof. destruct i as [c|fl w p q c]; [apply _|]. destruct w, p, q; apply _. Defined.

(** *** What a format prints

    The specification: from the syntax and the arguments, without the flag
    word, the buffers and the loops of [number] and [vsprintf]. *)
Definition blanks (c n : Z) : list Z := replicate (Z.to_nat n) c.

(** [lead] (a sign and a prefix) and [body] in a field of at least [width]
    characters: on the left of it, on the right of it, or filled with zeros
    behind [lead]. *)
Definition justify (left zero : bool) (width : Z) (lead body : list Z) : list Z :=
  let fill := width - zlen (lead ++ body) in
  if left then lead ++ body ++ blanks 32 fill
  else if zero then lead ++ blanks 48 fill ++ body
  else blanks 32 fill ++ lead ++ body.

Record look := Look { l_minus : bool; l_plus : bool; l_space : bool; l_alt : bool; l_zero : bool }.

Definition look_of (fl : list Z) : look :=
  Look (bool_decide (ch "-" ∈ fl)) (bool_decide (ch "+" ∈ fl)) (bool_decide (ch " " ∈ fl))
    (bool_decide (ch "#" ∈ fl)) (bool_decide (ch "0" ∈ fl)).

Definition sign_of (k : look) (v : Z) : list Z :=
  if v <? 0 then str "-" else if l_plus k then str "+" else if l_space k then str " " else [].

Definition prefix_of (k : look) (upper : bool) (base : Z) : list Z :=
  if l_alt k then
    if base =? 8 then str "0" else if base =? 16 then str (if upper then "0X" else "0x") else []
  else [].

(** The integer [v]: its sign, the prefix of its base, and at least [prec]
    digits. *)
Definition integer (k : look) (width prec : Z) (signed upper : bool) (base v : Z) : list Z :=
  let ds := numeral upper base (Z.abs v) in
  justify (l_minus k) (l_zero k) width
    ((if signed then sign_of k v else []) ++ prefix_of k upper base)
    (blanks 48 (prec - zlen ds) ++ ds).

(** What a directive prints, what it stores, and the arguments it leaves, when
    [count] characters have been printed before it. *)
Definition printed : Type := list Z * list (Z * Z * Z) * list arg.

Definition text (l : list Z) (args : list arg) : option printed := Some (l, [], args).

Definition print_conv (k : look) (width prec : option Z) (long : bool) (c count : Z)
    (args : list arg) : option printed :=
  let w := default 0 width in
  let p := default 0 prec in
  if c =? ch "%" then text (str "%") args else
  match args with
  | AStr s :: args =>
      let s := default (str "<NULL>") s in
      if c =? ch "s" then
        text (justify (l_minus k) false w []
                (match prec with Some p => take (Z.to_nat p) s | None => s end)) args
      else None
  | AInt z :: args =>
      let word := if long then u64 z else u32 z in
      let sword := if long then s64 z else s32 z in
      if c =? ch "c" then text (justify (l_minus k) false w [] [u8 z]) args
      else if c =? ch "p" then
        let k := match width with
                 | None => Look (l_minus k) (l_plus k) (l_space k) (l_alt k) true
                 | _ => k
                 end in
        text (integer k (default 16 width) p false false 16 (u64 z)) args
      else if c =? ch "n" then
        Some ([], [if long then (u64 z, 64, count) else (u64 z, 32, s32 count)], args)
      else if c =? ch "o" then text (integer k w p false false 8 word) args
      else if c =? ch "x" then text (integer k w p false false 16 word) args
      else if c =? ch "X" then text (integer k w p false true 16 word) args
      else if c =? ch "u" then text (integer k w p false false 10 word) args
      else if (c =? ch "d") || (c =? ch "i") then text (integer k w p true false 10 sword) args
      else None
  | [] => None
  end.

(** A star takes the next argument, an [int]. *)
Definition take_amount (a : amount) (args : list arg) : option (option Z * list arg) :=
  match a with
  | ANone => Some (None, args)
  | ANum n => Some (Some n, args)
  | AStar => match args with AInt z :: args => Some (Some (s32 z), args) | _ => None end
  end.

(* a negative width is a '-' flag and its magnitude, a negative precision is 0 *)
Definition print_item (i : item) (count : Z) (args : list arg) : option printed :=
  match i with
  | Lit c => text [c] args
  | Conv fl w p q c =>
      let? (w, args) := take_amount w args in
      let? (p, args) := take_amount p args in
      let k := look_of fl in
      let k := Look (l_minus k || (default 0 w <? 0)) (l_plus k) (l_space k) (l_alt k) (l_zero k) in
      print_conv k (option_map (λ w, s32 (Z.abs w)) w) (option_map (Z.max 0) p)
        (bool_decide (q = Some (ch "l"))) c count args
  end.

Fixpoint print_all (l : list item) (count : Z) (args : list arg) :
    option (list Z * list (Z * Z * Z)) :=
  match l with
  | [] => Some ([], [])
  | i :: l =>
      let? (t, st, args) := print_item i count args in
      let? (t', st') := print_all l (count + zlen t) args in
      Some (t ++ t', st ++ st')
  end.

(** The strings are those of a 64-bit address space. *)
Definition arg_ok (a : arg) : Prop :=
  match a with AStr (Some s) => zlen s < 2 ^ 64 | _ => True end.

#[export] Instance arg_ok_dec a : Decision (arg_ok a).
Proof. destruct a as [|[s|]]; apply _. Defined.

(** *** The items run by the code's own conversions *)
Definition render (i : item) : M vstate unit :=
  match i with
  | Lit c => emit [c]
  | Conv fl w p q c =>
      let flags := foldl (λ f c, Z.lor f (flag_bit c)) 0 fl in
      let! ' (width, flags) :=
        match w with
        | ANone => ret (-1, flags)
        | ANum n => ret (n, flags)
        | AStar => let! w := va_int in
                   ret (if w <? 0 then (s32 (- w), Z.lor flags LEFT) else (w, flags))
        end in
      let! precision :=
        match p with
        | ANone => ret (-1)
        | ANum n => ret n
        | AStar => let! p := va_int in ret (Z.max 0 p)
        end in
      convert c (default (-1) q) flags width precision
  end.

Fixpoint render_all (l : list item) : M vstate unit :=
  match l with
  | [] => ret tt
  | i :: l => render i ;;; render_all l
  end.

(** ** Digits *)

(** A digit prints as a character that reads back as the digit: below 10
    always, up to 15 when the upper-case digits are used. *)
Definition readable (type d : Z) : Prop := d < 10 ∨ has type LARGE = true ∧ d < 16.

Lemma digit_read type d :
  0 <= d → readable type d →
  ∃ c, aget (digits type) d = Some c ∧ is_xdigit c = true ∧ digit_value c = d ∧
       (d < 10 → is_digit c = true ∧ c = 48 + d).
Proof.
  intros Hd Hr. unfold digits.
  assert (d = 0 ∨ d = 1 ∨ d = 2 ∨ d = 3 ∨ d = 4 ∨ d = 5 ∨ d = 6 ∨ d = 7 ∨ d = 8 ∨ d = 9 ∨
    (has type LARGE = true ∧ (d = 10 ∨ d = 11 ∨ d = 12 ∨ d = 13 ∨ d = 14 ∨ d = 15))) as Hc.
  { destruct Hr as [|[? ?]]; [lia|]. destruct (decide (d < 10)); [lia|].
    do 10 right. split; [done|lia]. }
  destruct Hc as [->|[->|[->|[->|[->|[->|[->|[->|[->|[->|[HL Hc]]]]]]]]]]];
    try (destruct (has type LARGE); eexists; repeat split; done).
  rewrite HL. destruct Hc as [->|[->|[->|[->|[->| ->]]]]]; eexists; repeat split; try done; lia.
Qed.

(** The value of digits, most significant first, read from [acc] on. *)
Lemma number_digits_length fuel ds num base : (length (number_digits fuel ds num base) <= fuel)%nat.
Proof.
  revert num. induction fuel as [|n IH]; intros num; cbn [number_digits]; [cbn; lia|].
  case_match; cbn; [lia|]. specialize (IH (num / base)). lia.
Qed.

Lemma number_digits_read fuel type num base acc rest :
  2 <= base → (∀ d, d < base → readable type d) → 0 <= num < base ^ Z.of_nat fuel →
  strtoul_loop (rev (number_digits fuel (digits type) num base) ++ rest) base (u64 acc)
    = strtoul_loop rest base
        (u64 (acc * base ^ zlen (number_digits fuel (digits type) num base) + num)).
Proof.
  intros Hb Hr. revert num rest. induction fuel as [|n IH]; intros num rest Hn.
  - cbn [number_digits rev app]. unfold zlen; cbn. cbn in Hn. f_equal. f_equal. lia.
  - cbn [number_digits]. destruct (Z.eqb_spec num 0) as [->|Hn0].
    { cbn [rev app]. unfold zlen; cbn. do 2 f_equal. lia. }
    rewrite Nat2Z.inj_succ, Z.pow_succ_r in Hn by lia.
    pose proof (Z.mod_pos_bound num base) as Hm.
    destruct (digit_read type (num mod base)) as (c&Hc&Hx&Hv&_); [lia|apply Hr; lia|].
    rewrite Hc. cbn [rev default id]. rewrite <- app_assoc, IH.
    2:{ split; [apply Z.div_pos; lia|]. apply Z.div_lt_upper_bound; lia. }
    cbn [app strtoul_loop]. rewrite Hx, Hv, (proj2 (Z.ltb_lt (num mod base) base)) by lia. cbn [andb].
    f_equal. rewrite zlen_cons, (Z.pow_add_r _ 1) by (auto with aboot; lia).
    set (L := base ^ zlen _). unfold wrap.
    rewrite <- Z.add_mod_idemp_l, Z.mul_mod_idemp_l, Z.add_mod_idemp_l by lia.
    f_equal. rewrite (Z.div_mod num base) at 3 by lia. lia.
Qed.

Lemma strtoul_zeros k rest base :
  0 < base → strtoul_loop (replicate k 48 ++ rest) base 0 = strtoul_loop rest base 0.
Proof.
  intros Hb. induction k as [|k IH]; [done|]. cbn [replicate app strtoul_loop].
  change (is_xdigit 48) with true. change (digit_value 48) with 0.
  rewrite (proj2 (Z.ltb_lt 0 base)) by lia. apply IH.
Qed.

(** Where the conversion stops. *)
Definition stops (base : Z) (rest : list Z) : Prop :=
  match rest with [] => True | c :: _ => is_xdigit c = false ∨ base <= digit_value c end.

Lemma strtoul_loop_stop rest base acc :
  stops base rest → strtoul_loop rest base acc = (acc, rest).
Proof.
  destruct rest as [|c rest]; [done|]. cbn [stops strtoul_loop].
  intros [->|Hv]; [done|]. rewrite (proj2 (Z.ltb_ge _ _)) by lia. by rewrite andb_false_r.
Qed.

(** The digits [number] leaves in [tmp], for any value of 64 bits. *)
Lemma tmp_read type num base rest :
  2 <= base → (∀ d, d < base → readable type d) → 0 <= num < 2 ^ 64 → stops base rest →
  strtoul_loop
    (rev (if num =? 0 then [48] else number_digits 64 (digits type) num base) ++ rest) base 0
    = (num, rest).
Proof.
  intros Hb Hr Hn Hs. destruct (Z.eqb_spec num 0) as [->|Hn0].
  - change (rev [48]) with (replicate 1 48). rewrite strtoul_zeros by lia.
    by apply strtoul_loop_stop.
  - pose proof (number_digits_read 64 type num base 0 rest) as E.
    change (u64 0) with 0 in E. rewrite E; [|done|done|].
    + rewrite Z.mul_0_l, Z.add_0_l, (wrap_small 64) by lia. by apply strtoul_loop_stop.
    + split; [lia|]. apply Z.lt_le_trans with (2 ^ 64); [lia|].
      apply Z.pow_le_mono_l. lia.
Qed.

(** ** The specification and the code agree *)

(** *** Digits *)

Lemma digits_char type d :
  0 <= d < 36 → aget (digits type) d = Some (digit_char (has type LARGE) d).
Proof.
  intros Hd. unfold digits.
  assert (∀ up : bool, forallb (λ d, bool_decide (
    aget (if up then str "0123456789ABCDEFGHIJKLMNOPQRSTUVWXYZ"
          else str "0123456789abcdefghijklmnopqrstuvwxyz") d = Some (digit_char up d)))
    (seqZ 0 36) = true) as H by (intros []; vm_compute; reflexivity).
  specialize (H (has type LARGE)). rewrite forallb_forall in H.
  eapply bool_decide_eq_true, H, list_elem_of_In, elem_of_seqZ. lia.
Qed.

(** As many digits as the number of times it can be divided. *)
Lemma number_digits_places fuel type n base :
  2 <= base <= 36 → 0 < n < base ^ Z.of_nat fuel →
  ∃ m, 0 < m <= Z.of_nat fuel ∧ base ^ (m - 1) <= n < base ^ m ∧
    number_digits fuel (digits type) n base =
      map (λ k, digit_char (has type LARGE) (n / base ^ k mod base)) (seqZ 0 m).
Proof.
  intros Hb. revert n. induction fuel as [|f IH]; intros n Hn; [cbn in Hn; lia|].
  rewrite Nat2Z.inj_succ, Z.pow_succ_r in Hn by lia. cbn [number_digits].
  rewrite (proj2 (Z.eqb_neq n 0)) by lia.
  pose proof (Z.mod_pos_bound n base ltac:(lia)).
  rewrite digits_char by lia. cbn [default id].
  destruct (decide (n < base)) as [Hs|Hl].
  - exists 1. split; [lia|]. split; [rewrite Z.pow_1_r; change (base ^ (1 - 1)) with 1; lia|].
    rewrite (Z.div_small n base) by lia.
    change (seqZ 0 1) with [0]. cbn [map]. rewrite Z.pow_0_r, Z.div_1_r. by destruct f.
  - assert (0 < n / base) by (apply Z.div_str_pos; lia).
    destruct (IH (n / base)) as (m&Hm&Hr&->).
    { split; [done|]. apply Z.div_lt_upper_bound; lia. }
    exists (m + 1). split; [lia|].
    pose proof (Z.div_mod n base ltac:(lia)) as Hdm.
    assert (base ^ m = base * base ^ (m - 1)) as Ep
      by (rewrite <- Z.pow_succ_r by lia; f_equal; lia).
    split.
    { replace (m + 1 - 1) with m by lia. rewrite Z.pow_add_r, Z.pow_1_r by lia. nia. }
    rewrite (seqZ_cons 0 (m + 1)) by lia. cbn [map]. rewrite Z.pow_0_r, Z.div_1_r.
    f_equal. replace (Z.pred (m + 1)) with m by lia.
    change (Z.succ 0) with 1.
    rewrite <- (Z.add_0_r 1), <- (fmap_add_seqZ 1 0 m).
    rewrite (map_map (Z.add 1)). apply map_ext_in. intros k Hk%list_elem_of_In%elem_of_seqZ.
    rewrite Z.pow_add_r, Z.pow_1_r, Z.div_div; [done|lia| |lia|lia].
    apply Z.pow_pos_nonneg; lia.
Qed.

Lemma filter_keeps {A} (P : A → Prop) `{∀ x, Decision (P x)} l : Forall P l → filter P l = l.
Proof. induction 1 as [|x l Hx _ IH]; [done|]. by rewrite filter_cons_True, IH. Qed.

Lemma filter_drops {A} (P : A → Prop) `{∀ x, Decision (P x)} l :
  Forall (λ x, ¬ P x) l → filter P l = [].
Proof. induction 1 as [|x l Hx _ IH]; [done|]. by rewrite filter_cons_False, IH. Qed.

Lemma digit_count_places base n m :
  2 <= base → 0 < m <= 64 → base ^ (m - 1) <= n < base ^ m → digit_count base n = m.
Proof.
  intros Hb Hm Hn. unfold digit_count.
  replace 63 with ((m - 1) + (64 - m)) by lia.
  rewrite seqZ_app by lia. rewrite list.filter_app, zlen_app.
  assert (filter (λ k, base ^ k <= n) (seqZ 1 (m - 1)) = seqZ 1 (m - 1)) as ->.
  { apply filter_keeps, Forall_forall. intros k Hk%list_elem_of_In%elem_of_seqZ.
    etransitivity; [|apply Hn]. apply Z.pow_le_mono_r; lia. }
  assert (filter (λ k, base ^ k <= n) (seqZ (1 + (m - 1)) (64 - m)) = []) as ->.
  { apply filter_drops, Forall_forall. intros k Hk%list_elem_of_In%elem_of_seqZ.
    apply Z.lt_nge. eapply Z.lt_le_trans; [apply Hn|]. apply Z.pow_le_mono_r; lia. }
  unfold zlen. rewrite length_seqZ. cbn. lia.
Qed.

(** The digits [number] leaves in [tmp]. *)
Lemma number_digits_numeral type base n :
  2 <= base <= 36 → 0 <= n < 2 ^ 64 →
  rev (if n =? 0 then [48] else number_digits 64 (digits type) n base)
    = numeral (has type LARGE) base n.
Proof.
  intros Hb Hn. unfold numeral. rewrite map_rev. f_equal.
  destruct (Z.eqb_spec n 0) as [->|Hn0].
  - assert (digit_count base 0 = 1) as ->; [|reflexivity].
    unfold digit_count. rewrite filter_drops; [done|].
    apply Forall_forall. intros k Hk%list_elem_of_In%elem_of_seqZ. apply Z.lt_nge, Z.pow_pos_nonneg; lia.
  - destruct (number_digits_places 64 type n base) as (m&Hm&Hr&->); [done| |].
    + split; [lia|]. eapply Z.lt_le_trans; [apply Hn|]. apply Z.pow_le_mono_l. lia.
    + by rewrite (digit_count_places base n m) by (done || lia).
Qed.

Lemma dec_digits n :
  0 <= n < 2 ^ 64 → dec n = if n =? 0 then [48] else rev (number_digits 64 (digits 0) n 10).
Proof.
  intros Hn. unfold dec. change false with (has 0 LARGE).
  rewrite <- number_digits_numeral by lia. by destruct (n =? 0).
Qed.

(** ** Flags *)

Lemma has_lnot_zeropad type f : Z.land (Z.lnot 1) f = f → has (Z.land type (Z.lnot ZEROPAD)) f = has type f.
Proof. unfold has, ZEROPAD. intros E. by rewrite <- Z.land_assoc, E. Qed.

Lemma number_no_sign num base size precision type :
  2 <= base <= 36 → has type SIGN = false → has type SPECIAL = false →
  let tmp := if num =? 0 then [48] else number_digits 64 (digits type) num base in
  let width := size - Z.max precision (zlen tmp) in
  let zeros := replicate (Z.to_nat (precision - zlen tmp)) 48 in
  number num base size precision type = Some (
    if has type LEFT then zeros ++ rev tmp ++ replicate (Z.to_nat width) 32
    else replicate (Z.to_nat width) (if has type ZEROPAD then 48 else 32) ++ zeros ++ rev tmp).
Proof.
  intros Hb Hs Hsp. cbv zeta. unfold number. cbv zeta.
  rewrite (proj2 (Z.ltb_ge base 2)), (proj2 (Z.ltb_ge 36 base)) by lia. cbn [orb].
  set (t := if has type LEFT then _ else type).
  assert (has t SIGN = false ∧ has t SPECIAL = false ∧ has t LEFT = has type LEFT ∧
    digits t = digits type ∧ (has type LEFT = false → t = type)) as (->&->&->&->&Ht).
  { subst t. unfold digits. destruct (has type LEFT) eqn:E; [|done].
    rewrite !has_lnot_zeropad by reflexivity. done. }
  set (tmp := if num =? 0 then _ else _). change (negb (0 =? 0)) with false.
  replace (if precision <? zlen tmp then zlen tmp else precision)
    with (Z.max precision (zlen tmp)) by (destruct (Z.ltb_spec precision (zlen tmp)); lia).
  replace (Z.to_nat (Z.max precision (zlen tmp) - zlen tmp))
    with (Z.to_nat (precision - zlen tmp)) by lia.
  set (z := replicate (Z.to_nat (precision - zlen tmp)) 48). set (w := size - _).
  destruct (has type LEFT) eqn:EL.
  - assert (has t (ZEROPAD + LEFT) = true) as ->.
    { subst t. unfold has in *. rewrite <- Z.land_assoc. exact EL. }
    unfold pad. done.
  - rewrite Ht by done.
    assert (has type (ZEROPAD + LEFT) = has type ZEROPAD) as ->.
    { unfold has in *. change (ZEROPAD + LEFT) with (Z.lor ZEROPAD LEFT).
      rewrite Z.land_lor_distr_r. apply negb_false_iff, Z.eqb_eq in EL. by rewrite EL, Z.lor_0_r. }
    unfold pad. change (Z.to_nat (0 - 1)) with 0%nat.
    destruct (has type ZEROPAD), (Z.ltb_spec 0 w); cbn [fst snd app replicate];
      repeat (rewrite (Z2Nat.nonpos (w - 1)) by lia || rewrite (Z2Nat.nonpos w) by lia);
      cbn [replicate app]; rewrite ?app_nil_r; try done.
    all: destruct (Z.ltb_spec 0 (w - 1)); try lia; rewrite ?(Z2Nat.nonpos (w - 1 - 1)) by lia;
      cbn [replicate app]; by rewrite ?app_nil_r.
Qed.

Lemma readable_base type base :
  base <= 10 ∨ has type LARGE = true ∧ base <= 16 → ∀ d, d < base → readable type d.
Proof. unfold readable. intros [?|[? ?]] d Hd; [left; lia|]. right. split; [done|lia]. Qed.

Lemma stops_spaces base k rest : stops base rest → stops base (replicate k 32 ++ rest).
Proof. destruct k; [done|]. intros _. by left. Qed.

Lemma simple_strtoul_base cp base : base ≠ 0 → simple_strtoul cp base = strtoul_loop cp base 0.
Proof.
  intros Hb. unfold simple_strtoul, strtoul_prefix. by rewrite (proj2 (Z.eqb_neq base 0)).
Qed.

(** The length of the conversion without padding. *)
Lemma number_digits_pos fuel ds num base : num ≠ 0 → (0 < fuel)%nat → 0 < zlen (number_digits fuel ds num base).
Proof.
  intros Hn Hf. destruct fuel; [lia|]. cbn [number_digits].
  rewrite (proj2 (Z.eqb_neq num 0)) by done. rewrite zlen_cons.
  pose proof (zlen_nonneg (number_digits fuel ds (num / base) base)). lia.
Qed.

(** *** Properties of numbers *)

(** What [number] prints, [simple_strtoul] reads back: for every 64-bit
    value, every base up to 10 (up to 16 with the upper-case digits), any
    precision, and padding with zeros or on the right; the conversion stops
    behind the digits. *)
Theorem number_strtoul num base size precision type rest :
  0 <= num < 2 ^ 64 → 2 <= base →
  base <= 10 ∨ has type LARGE = true ∧ base <= 16 →
  has type SIGN = false → has type SPECIAL = false →
  size <= 0 ∨ has type LEFT = true ∨ has type ZEROPAD = true →
  stops base rest →
  ∃ l k, number num base size precision type = Some l ∧
    simple_strtoul (l ++ rest) base = (num, replicate k 32 ++ rest).
Proof.
  intros Hn Hb Hr Hs Hsp Hpad Hst.
  rewrite number_no_sign by (done || lia). cbv zeta.
  set (tmp := if num =? 0 then _ else _). set (w := size - _).
  assert (0 <= zlen tmp) as Htmp by (auto with aboot).
  assert (∀ k z, simple_strtoul ((replicate z 48 ++ rev tmp) ++ replicate k 32 ++ rest) base
    = (num, replicate k 32 ++ rest)) as HE.
  { intros k z. rewrite simple_strtoul_base, <- app_assoc, strtoul_zeros by lia.
    apply tmp_read; [lia|by apply readable_base|done|by apply stops_spaces]. }
  destruct (has type LEFT) eqn:EL.
  - eexists _, _. split; [done|]. rewrite <- (HE (Z.to_nat w) (Z.to_nat (precision - zlen tmp))).
    by rewrite <- !app_assoc.
  - eexists _, 0%nat. split; [done|]. cbn [replicate app].
    destruct Hpad as [Hsz|[?| ->]]; [|done|].
    + rewrite (Z2Nat.nonpos w) by lia. apply (HE 0%nat).
    + rewrite app_assoc, <- replicate_add. apply (HE 0%nat).
Qed.

Lemma number_strtoul_witness :
  ∃ l k, number 3735928559 16 12 (-1) (LARGE + ZEROPAD) = Some l ∧
    simple_strtoul (l ++ str ".") 16 = (3735928559, replicate k 32 ++ str ".").
Proof.
  apply number_strtoul; try lia; try reflexivity.
  - right. split; [reflexivity|lia].
  - right; right; reflexivity.
  - left. reflexivity.
Defined.

(** A lower-case hexadecimal digit ends the conversion in every base up to
    36: [to_upper] adds where it should subtract, so the value of such a digit
    is at least 74.  In particular the output of ["%lx"] does not read back. *)
Theorem strtoul_lower_case l c rest base acc :
  Forall (λ d, is_xdigit d = true ∧ digit_value d < base) l →
  97 <= c <= 102 → base <= 36 →
  ∃ v, strtoul_loop (l ++ c :: rest) base acc = (v, c :: rest) ∧
       strtoul_loop l base acc = (v, []).
Proof.
  intros HF Hc Hb. revert acc. induction HF as [|d l [Hx Hv] HF IH]; intros acc.
  - exists acc. split; [|done]. apply strtoul_loop_stop. right.
    unfold digit_value, is_digit, is_lower, to_upper.
    rewrite (proj2 (Z.leb_le 48 c)), (proj2 (Z.leb_gt c 57)) by lia.
    rewrite (proj2 (Z.leb_le 97 c)), (proj2 (Z.leb_le c 122)) by lia. cbn [andb]. lia.
  - cbn [app strtoul_loop]. rewrite Hx, (proj2 (Z.ltb_lt _ _)) by lia. apply IH.
Qed.

Lemma strtoul_lower_case_witness :
  number 31 16 (-1) (-1) 0 = Some (str "1f") ∧
  ∃ v, strtoul_loop (str "1" ++ ch "f" :: []) 16 0 = (v, [ch "f"]) ∧
       strtoul_loop (str "1") 16 0 = (v, []).
Proof.
  split; [reflexivity|]. apply strtoul_lower_case.
  - repeat constructor.
  - vm_compute. split; discriminate.
  - lia.
Defined.

(** What a sign and a prefix add. *)
Definition sign_len (num type : Z) : Z :=
  if has type SIGN && ((s64 num <? 0) || has type PLUS || has type SPACE) then 1 else 0.

Definition prefix_len (base type : Z) : Z :=
  if has type SPECIAL then if base =? 16 then 2 else if base =? 8 then 1 else 0 else 0.

Lemma zlen_replicate {A} n (x : A) : zlen (replicate n x) = Z.of_nat n.
Proof. unfold zlen. by rewrite length_replicate. Qed.

Lemma zlen_rev {A} (l : list A) : zlen (rev l) = zlen l.
Proof. unfold zlen. by rewrite length_rev. Qed.

Lemma zlen_pad c size : zlen (fst (pad c size)) = Z.max 0 size ∧
  snd (pad c size) = Z.min 0 size - 1.
Proof.
  unfold pad. cbn [fst snd]. rewrite zlen_replicate. destruct (Z.ltb_spec 0 size); lia.
Qed.

(** Of the three padding loops at most one writes: the first takes [size]
    below zero. *)
Lemma pad_three size (b1 b2 : bool) c :
  (b2 = true → b1 = true) →
  let '(p1, size1) := if b1 then ([], size) else pad 32 size in
  let '(p4, size2) := if b2 then ([], size1) else pad c size1 in
  let '(p6, _) := pad 32 size2 in
  zlen p1 + zlen p4 + zlen p6 = Z.max 0 size.
Proof.
  intros Hb. unfold pad.
  destruct b1, b2; try (by specialize (Hb eq_refl)); cbn [fst snd];
    rewrite ?zlen_replicate; change (zlen []) with 0;
    repeat match goal with |- context [if ?a <? ?b then _ else _] => destruct (Z.ltb_spec a b) end;
    lia.
Qed.

(** The field width is a minimum: whatever the flags, what [number] prints
    for a base up to 36 is as long as the wider of the width and the sign, the
    prefix and the digits (or the precision, if that is more).  There are 1 to
    64 digits, so [tmp], of 66 characters, is never overrun. *)
Theorem number_width num base size precision type :
  2 <= base <= 36 →
  ∃ l k, number num base size precision type = Some l ∧ 1 <= k <= 64 ∧
    zlen l = Z.max size (sign_len num type + prefix_len base type + Z.max precision k).
Proof.
  intros Hb. unfold number.
  rewrite (proj2 (Z.ltb_ge base 2)), (proj2 (Z.ltb_ge 36 base)) by lia. cbn [orb].
  set (t := if has type LEFT then _ else type).
  assert (has t SIGN = has type SIGN ∧ has t PLUS = has type PLUS ∧ has t SPACE = has type SPACE ∧
    has t SPECIAL = has type SPECIAL ∧ (has t LEFT = true → has t (ZEROPAD + LEFT) = true))
    as (-> & -> & -> & -> & Ht).
  { subst t. destruct (has type LEFT) eqn:E.
    - rewrite !has_lnot_zeropad by reflexivity. repeat split.
      unfold has, ZEROPAD in *. rewrite <- Z.land_assoc. change (Z.land (Z.lnot 1) (1 + LEFT)) with LEFT.
      done.
    - repeat split. by rewrite E. }
  set (sg := if has type SIGN then _ else _).
  assert (∃ c n, sg = (c, n, size - sign_len num type) ∧
    zlen (if negb (c =? 0) then [c] else []) = sign_len num type) as (c&n&->&Hsl).
  { subst sg. unfold sign_len. destruct (has type SIGN); cbn [andb]; [|eexists _, _; (split; [f_equal; try reflexivity; lia|done])].
    destruct (s64 num <? 0), (has type PLUS), (has type SPACE); cbn [orb];
      eexists _, _; (split; [f_equal; try reflexivity; lia|done]). }
  set (tmp := if n =? 0 then _ else _).
  assert (1 <= zlen tmp <= 64) as Hk.
  { subst tmp. destruct (Z.eqb_spec n 0) as [->|Hn]; [change (zlen [48]) with 1; lia|].
    pose proof (number_digits_pos 64 (digits t) n base Hn ltac:(lia)).
    pose proof (number_digits_length 64 (digits t) n base). unfold zlen in *. lia. }
  set (sz := if has type SPECIAL then _ else _).
  assert (sz = size - sign_len num type - prefix_len base type) as ->.
  { subst sz. unfold prefix_len. destruct (has type SPECIAL), (base =? 16), (base =? 8); lia. }
  set (pre := if has type SPECIAL then _ else _).
  assert (zlen pre = prefix_len base type) as Hpl.
  { subst pre. unfold prefix_len. destruct (has type SPECIAL); [|done].
    destruct (Z.eqb_spec base 8) as [->|]; [done|]. by destruct (base =? 16). }
  replace (if precision <? zlen tmp then zlen tmp else precision)
    with (Z.max precision (zlen tmp)) by (destruct (Z.ltb_spec precision (zlen tmp)); lia).
  set (size' := _ - Z.max _ _).
  pose proof (pad_three size' (has t (ZEROPAD + LEFT)) (has t LEFT)
    (if has t ZEROPAD then 48 else 32) Ht) as Hp.
  destruct (if has t (ZEROPAD + LEFT) then _ else _) as [p1 s1].
  destruct (if has t LEFT then _ else _) as [p4 s2]. destruct (pad 32 s2) as [p6 s3].
  eexists _, (zlen tmp). split; [done|]. split; [done|].
  rewrite !zlen_app, zlen_rev, zlen_replicate, Hsl, Hpl. subst size'. lia.
Qed.

Lemma number_width_witness :
  ∃ l k, number (u64 (-5)) 10 8 3 (SIGN + ZEROPAD) = Some l ∧ 1 <= k <= 64 ∧
    zlen l = Z.max 8 (sign_len (u64 (-5)) (SIGN + ZEROPAD) + prefix_len 10 (SIGN + ZEROPAD) + Z.max 3 k).
Proof. apply number_width. lia. Defined.

(** *** number prints an integer *)

Definition look_flags (type : Z) : look :=
  Look (has type LEFT) (has type PLUS) (has type SPACE) (has type SPECIAL) (has type ZEROPAD).

Lemma has_lor a b f : has (Z.lor a b) f = has a f || has b f.
Proof.
  unfold has. rewrite Z.land_lor_distr_l, <- negb_andb. f_equal.
  destruct (Z.eqb_spec (Z.lor (Z.land a f) (Z.land b f)) 0) as [E|E].
  - apply Z.lor_eq_0_iff in E as [-> ->]. done.
  - destruct (Z.eqb_spec (Z.land a f) 0), (Z.eqb_spec (Z.land b f) 0); try done.
    exfalso. by apply E, Z.lor_eq_0_iff.
Qed.

Lemma has_comm a b : has a b = has b a.
Proof. unfold has. by rewrite Z.land_comm. Qed.

(** What [type &= ~ZEROPAD] leaves when LEFT is set. *)
Lemma left_no_zeropad type :
  let t := if has type LEFT then Z.land type (Z.lnot ZEROPAD) else type in
  (has t SIGN = has type SIGN ∧ has t PLUS = has type PLUS ∧ has t SPACE = has type SPACE ∧
   has t SPECIAL = has type SPECIAL ∧ has t LARGE = has type LARGE ∧ has t LEFT = has type LEFT) ∧
  has t ZEROPAD = has type ZEROPAD && negb (has type LEFT) ∧
  has t (ZEROPAD + LEFT) = has type ZEROPAD || has type LEFT.
Proof.
  cbv zeta. change (ZEROPAD + LEFT) with (Z.lor ZEROPAD LEFT).
  rewrite (has_comm _ (Z.lor _ _)), has_lor, !(has_comm _ (if has type LEFT then _ else _)).
  destruct (has type LEFT) eqn:E.
  - rewrite !has_lnot_zeropad by reflexivity. rewrite E, !orb_true_r, andb_false_r.
    split; [done|]. split; [|done]. unfold has, ZEROPAD. by rewrite <- Z.land_assoc, Z.land_0_r.
  - rewrite E, andb_true_r. done.
Qed.

(** One of the three padding loops of [number] writes the filling. *)
Lemma pad_justify (left zero : bool) size (lead pre body : list Z) :
  let '(p1, size1) := if zero || left then ([], size) else pad 32 size in
  let '(p4, size2) := if left then ([], size1) else pad (if zero && negb left then 48 else 32) size1 in
  p1 ++ lead ++ pre ++ p4 ++ body ++ fst (pad 32 size2) =
    if left then (lead ++ pre) ++ body ++ blanks 32 size
    else if zero then (lead ++ pre) ++ blanks 48 size ++ body
    else blanks 32 size ++ (lead ++ pre) ++ body.
Proof.
  assert (∀ c z k, blanks c ((if 0 <? z then 0 else z) - 1 - k) = [] ∨ k < 0) as Hb.
  { intros c z k. destruct (decide (k < 0)); [by right|left]. unfold blanks.
    rewrite Z2Nat.nonpos; [done|]. destruct (Z.ltb_spec 0 z); lia. }
  unfold pad. cbn [fst]. fold (blanks 32 size). fold (blanks 48 size).
  destruct left, zero; cbn [orb andb negb app]; rewrite <- ?app_assoc; try done.
  all: cbv zeta.
  - destruct (Hb 32 size 0) as [H|]; [|lia]. rewrite Z.sub_0_r in H. unfold blanks in H.
    by rewrite H, app_nil_r.
  - destruct (Hb 32 size 0) as [H|]; [|lia]. rewrite Z.sub_0_r in H. unfold blanks in H at 1.
    rewrite H. cbn [app].
    destruct (Hb 32 ((if 0 <? size then 0 else size) - 1) 0) as [H'|]; [|lia].
    rewrite Z.sub_0_r in H'. unfold blanks in H'. by rewrite H', app_nil_r.
Qed.

Lemma swrap64_word num : 0 <= num < 2 ^ 64 →
  (0 <= s64 num → num = s64 num) ∧ (s64 num < 0 → u64 (- s64 num) = - s64 num).
Proof.
  intros Hn. pose proof (swrap_range 64 ltac:(lia) num) as Hr.
  split; intros Hs.
  - unfold swrap in *. destruct (decide (num < 2 ^ 63)).
    + rewrite Z.mod_small in * by lia. lia.
    + replace (num + 2 ^ (64 - 1)) with (num - 2 ^ 63 + 1 * 2 ^ 64) in * by lia.
      rewrite Z.mod_add, Z.mod_small in * by lia. lia.
  - apply wrap_small. lia.
Qed.

Lemma number_prints num base size prec type :
  2 <= base <= 36 → 0 <= num < 2 ^ 64 →
  number num base size prec type = Some
    (integer (look_flags type) size prec (has type SIGN) (has type LARGE) base
       (if has type SIGN then s64 num else num)).
Proof.
  intros Hb Hn. unfold number, integer, justify, look_flags. cbn [l_minus l_zero].
  rewrite (proj2 (Z.ltb_ge base 2)), (proj2 (Z.ltb_ge 36 base)) by lia. cbn [orb].
  pose proof (left_no_zeropad type) as Ht. cbv zeta in Ht.
  set (t := if has type LEFT then _ else type) in *.
  destruct Ht as ((-> & -> & -> & -> & HL & ->) & -> & ->).
  set (v := if has type SIGN then s64 num else num).
  set (sgn := if has type SIGN then _ else []).
  set (sg := if has type SIGN then _ else (0, num, size)).
  assert (∃ c, sg = (c, Z.abs v, size - zlen sgn) ∧ (if negb (c =? 0) then [c] else []) = sgn)
    as (c&->&Hc).
  { destruct (swrap64_word num Hn) as [H1 H2]. subst sg v sgn. unfold sign_of. cbn [l_plus l_space].
    destruct (has type SIGN).
    2:{ exists 0. change (zlen []) with 0. rewrite Z.abs_eq by lia. by rewrite Z.sub_0_r. }
    destruct (Z.ltb_spec (s64 num) 0) as [Hs|Hs].
    { exists 45. by rewrite H2, Z.abs_neq by lia. }
    rewrite Z.abs_eq, <- H1 by lia.
    destruct (has type PLUS); [by exists 43|]. destruct (has type SPACE); [by exists 32|].
    exists 0. change (zlen []) with 0. by rewrite Z.sub_0_r. }
  assert (0 <= Z.abs v < 2 ^ 64) as Hv.
  { subst v. pose proof (swrap_range 64 ltac:(lia) num). destruct (has type SIGN); lia. }
  rewrite Hc. pose proof (number_digits_numeral t base (Z.abs v) Hb Hv) as Hd. rewrite HL in Hd.
  set (ds := numeral (has type LARGE) base (Z.abs v)) in *.
  set (tmp := if Z.abs v =? 0 then [48] else _) in *.
  assert (zlen tmp = zlen ds) as -> by (by rewrite <- Hd, zlen_rev).
  rewrite Hd. clearbody tmp. clear Hd.
  set (pre := prefix_of _ _ _).
  set (p3 := if has type SPECIAL then _ else []).
  assert (p3 = pre) as ->.
  { subst p3 pre. unfold prefix_of. cbn [l_alt]. destruct (has type SPECIAL); [|done].
    destruct (base =? 8); [done|]. destruct (base =? 16); [|done].
    unfold digits. rewrite HL. by destruct (has type LARGE). }
  set (size1 := if has type SPECIAL then _ else _).
  assert (size1 = size - zlen sgn - zlen pre) as ->.
  { subst size1 pre. unfold prefix_of. cbn [l_alt]. destruct (has type SPECIAL).
    - destruct (Z.eqb_spec base 16) as [->|]; [by destruct (has type LARGE)|].
      destruct (base =? 8); [done|]. change (zlen []) with 0. lia.
    - change (zlen []) with 0. lia. }
  set (p := if prec <? zlen ds then _ else _).
  assert (p = Z.max prec (zlen ds)) as -> by (subst p; destruct (Z.ltb_spec prec (zlen ds)); lia).
  assert (replicate (Z.to_nat (Z.max prec (zlen ds) - zlen ds)) 48 = blanks 48 (prec - zlen ds)) as ->.
  { unfold blanks. f_equal. lia. }
  set (z := blanks 48 (prec - zlen ds)).
  replace (size - zlen sgn - zlen pre - Z.max prec (zlen ds))
    with (size - zlen ((sgn ++ pre) ++ z ++ ds)).
  2:{ rewrite !zlen_app. subst z. unfold blanks. rewrite zlen_replicate. lia. }
  pose proof (pad_justify (has type LEFT) (has type ZEROPAD) (size - zlen ((sgn ++ pre) ++ z ++ ds))
    sgn pre (z ++ ds)) as HP.
  destruct (if has type ZEROPAD || has type LEFT then _ else _) as [p1 s1].
  destruct (if has type LEFT then ([], s1) else _) as [p4 s2].
  rewrite <- HP. unfold pad. cbn [fst]. by rewrite <- !app_assoc.
Qed.

(** ** Formats *)

Lemma skip_atoi_digits fuel n acc rest :
  0 <= acc → 0 <= n < 10 ^ Z.of_nat fuel →
  acc * 10 ^ zlen (number_digits fuel (digits 0) n 10) + n < 2 ^ 31 →
  skip_atoi_loop (rev (number_digits fuel (digits 0) n 10) ++ rest) acc
    = skip_atoi_loop rest (acc * 10 ^ zlen (number_digits fuel (digits 0) n 10) + n).
Proof.
  intros Ha. revert n rest. induction fuel as [|f IH]; intros n rest Hn Hlt.
  - cbn [number_digits rev app] in *. unfold zlen in *; cbn in *. f_equal. lia.
  - cbn [number_digits] in *. destruct (Z.eqb_spec n 0) as [->|Hn0].
    { cbn [rev app]. unfold zlen; cbn. f_equal. lia. }
    rewrite Nat2Z.inj_succ, Z.pow_succ_r in Hn by lia.
    pose proof (Z.mod_pos_bound n 10 ltac:(lia)) as Hm.
    assert (readable 0 (n mod 10)) as Hrd by (left; lia).
    destruct (digit_read 0 (n mod 10) ltac:(lia) Hrd) as (c&Hc&_&_&Hd).
    destruct Hd as [Hd Hcv]; [lia|].
    rewrite Hc in *. cbn [rev default id] in *. rewrite zlen_cons in *.
    pose proof (zlen_nonneg (number_digits f (digits 0) (n / 10) 10)) as Hz.
    set (L := zlen (number_digits f (digits 0) (n / 10) 10)) in *.
    rewrite (Z.pow_add_r 10 1) in * by lia. change (10 ^ 1) with 10 in *.
    pose proof (Z.pow_pos_nonneg 10 L ltac:(lia) Hz) as HL. set (T := 10 ^ L) in *.
    assert (n = 10 * (n / 10) + n mod 10) as E by (apply Z.div_mod; lia).
    assert (0 <= acc * T) by (apply Z.mul_nonneg_nonneg; lia).
    assert (0 <= n / 10) by (apply Z.div_pos; lia).
    rewrite <- app_assoc, IH; cycle 1.
    { split; [done|]. apply Z.div_lt_upper_bound; lia. }
    { subst L. fold T. lia. }
    fold L. fold T. cbn [app skip_atoi_loop]. rewrite Hd. f_equal. rewrite Hcv.
    rewrite (swrap_small 32) by lia. lia.
Qed.

Lemma number_digits_head fuel n :
  0 < n < 10 ^ Z.of_nat fuel →
  ∃ c l, rev (number_digits fuel (digits 0) n 10) = c :: l ∧ 49 <= c <= 57.
Proof.
  revert n. induction fuel as [|f IH]; intros n Hn; [cbn in Hn; lia|].
  rewrite Nat2Z.inj_succ, Z.pow_succ_r in Hn by lia.
  cbn [number_digits rev]. rewrite (proj2 (Z.eqb_neq n 0)) by lia. cbn [rev].
  destruct (decide (n < 10)) as [Hs|Hb].
  - rewrite Z.div_small, Z.mod_small by lia.
    destruct (digit_read 0 n) as (c&->&_&_&Hd); [lia|left; lia|]. destruct Hd as [_ ->]; [lia|].
    exists (48 + n), []. split; [|lia]. by destruct f.
  - destruct (IH (n / 10)) as (c&l&->&Hc).
    { split; [apply Z.div_str_pos; lia|apply Z.div_lt_upper_bound; lia]. }
    eexists c, _. split; [|done]. reflexivity.
Qed.

Lemma dec_head n : 0 <= n < 2 ^ 31 → ∃ c l, dec n = c :: l ∧ 48 <= c <= 57 ∧ (0 < n → c ≠ 48).
Proof.
  intros Hn. rewrite dec_digits by lia. destruct (Z.eqb_spec n 0) as [->|Hn0]; [by exists 48, []|].
  destruct (number_digits_head 64 n) as (c&l&E&Hc); [cbn; lia|].
  exists c, l. split; [exact E|]. lia.
Qed.

Lemma skip_atoi_dec n rest :
  0 <= n < 2 ^ 31 → is_digit (peek rest) = false → skip_atoi (dec n ++ rest) = (n, rest).
Proof.
  intros Hn Hr. unfold skip_atoi. rewrite dec_digits by lia.
  assert (∀ v, skip_atoi_loop rest v = (v, rest)) as Hstop.
  { intros v. destruct rest as [|c rest]; [done|]. cbn in *. by rewrite Hr. }
  destruct (Z.eqb_spec n 0) as [->|Hn0]; [apply Hstop|].
  rewrite skip_atoi_digits; [by rewrite Z.mul_0_l, Z.add_0_l, Hstop|lia|cbn; lia|lia].
Qed.

(** The characters a conversion may end with are not confused with what comes
    before them. *)
Definition plain (c : Z) : Prop :=
  is_digit c = false ∧ c ≠ ch "*" ∧ c ≠ ch "." ∧ c ∉ flag_chars.

Ltac each_char H :=
  cbn [str] in H; rewrite !elem_of_cons in H;
  repeat destruct H as [->|H]; [..|by apply elem_of_nil in H];
  apply (bool_decide_unpack _); vm_compute; exact I.

#[export] Instance plain_dec c : Decision (plain c).
Proof. unfold plain. apply _. Defined.

Lemma conv_chars_plain c : c ∈ conv_chars → plain c ∧ c ∉ str "hlL".
Proof. unfold conv_chars. intros H. each_char H. Qed.

Lemma qual_plain q : q ∈ str "hlL" → plain q.
Proof. intros H. each_char H. Qed.

Lemma parse_flags_stop fmt flags : peek fmt ∉ flag_chars → parse_flags fmt flags = (flags, fmt).
Proof.
  destruct fmt as [|c fmt]; [done|]. cbn [peek hd parse_flags]. unfold flag_chars. cbn [str].
  rewrite !not_elem_of_cons. intros (H1&H2&H3&H4&H5&_).
  by rewrite (proj2 (Z.eqb_neq _ _) H1), (proj2 (Z.eqb_neq _ _) H2), (proj2 (Z.eqb_neq _ _) H3),
    (proj2 (Z.eqb_neq _ _) H4), (proj2 (Z.eqb_neq _ _) H5).
Qed.

Lemma parse_flags_ok fl rest flags :
  Forall (λ c, c ∈ flag_chars) fl → peek rest ∉ flag_chars →
  parse_flags (fl ++ rest) flags = (foldl (λ f c, Z.lor f (flag_bit c)) flags fl, rest).
Proof.
  intros HF Hr. revert flags. induction HF as [|c fl Hc _ IH]; intros flags; cbn [app foldl].
  - by apply parse_flags_stop.
  - rewrite <- IH. unfold flag_chars in Hc. cbn [str] in Hc.
    rewrite !elem_of_cons in Hc. destruct Hc as [->|[->|[->|[->|[->|Hc]]]]]; [done..|].
    by apply elem_of_nil in Hc.
Qed.

Lemma parse_width_ok w flags T s :
  match w with ANum n => 0 < n < 2 ^ 31 | _ => True end →
  is_digit (peek T) = false → peek T ≠ ch "*" →
  parse_width (show_amount w ++ T) flags s =
    bind (match w with
          | ANone => ret (-1, flags)
          | ANum n => ret (n, flags)
          | AStar => let! w := va_int in
                     ret (if w <? 0 then (s32 (- w), Z.lor flags LEFT) else (w, flags))
          end) (λ '(w, flags), ret (w, flags, T)) s.
Proof.
  intros Hw HT1 HT2. unfold parse_width. destruct w as [|n|]; cbn [show_amount app].
  - rewrite HT1. change 42 with (ch "*"). by rewrite (proj2 (Z.eqb_neq _ _) HT2).
  - destruct (dec_head n) as (c&l&E&Hc&_); [lia|].
    assert (is_digit (peek (dec n ++ T)) = true) as ->.
    { rewrite E. cbn. unfold is_digit. lia. }
    by rewrite skip_atoi_dec by (done || lia).
  - change (peek (str "*" ++ T)) with 42. cbn [is_digit]. change (is_digit 42) with false.
    change (42 =? 42) with true. cbv iota. rewrite bind_bind. cbn [str app tail].
    unfold bind. destruct (va_int s) as [v s'| | |]; [|done..]. by destruct (v <? 0).
Qed.

Lemma parse_precision_ok p T s :
  match p with ANum n => 0 <= n < 2 ^ 31 | _ => True end →
  is_digit (peek T) = false → peek T ≠ ch "." →
  parse_precision (match p with ANone => [] | _ => ch "." :: show_amount p end ++ T) s =
    bind (match p with
          | ANone => ret (-1)
          | ANum n => ret n
          | AStar => let! p := va_int in ret (Z.max 0 p)
          end) (λ p, ret (p, T)) s.
Proof.
  intros Hp HT1 HT2. unfold parse_precision. destruct p as [|n|]; cbn [show_amount app].
  - change 46 with (ch "."). by rewrite (proj2 (Z.eqb_neq _ _) HT2).
  - change (peek (ch "." :: dec n ++ T) =? 46) with true. cbn [tail].
    destruct (dec_head n) as (c&l&E&Hc&_); [lia|].
    assert (is_digit (peek (dec n ++ T)) = true) as ->.
    { rewrite E. cbn. unfold is_digit. lia. }
    rewrite skip_atoi_dec by (done || lia). unfold bind, ret.
    by rewrite (proj2 (Z.ltb_ge n 0)) by lia.
  - change (peek (ch "." :: str "*" ++ T) =? 46) with true. cbn [tail].
    change (is_digit (peek (str "*" ++ T))) with false.
    change (peek (str "*" ++ T) =? 42) with true. cbv iota. cbn [str app tail].
    rewrite !bind_bind. unfold bind, ret. destruct (va_int s) as [v s'| | |]; [|done..].
    do 2 f_equal. destruct (Z.ltb_spec v 0); lia.
Qed.

Lemma parse_qualifier_ok q T :
  match q with Some q => q ∈ str "hlL" | None => True end → peek T ∉ str "hlL" →
  parse_qualifier (match q with Some q => [q] | None => [] end ++ T) = (default (-1) q, T).
Proof.
  intros Hq HT. unfold parse_qualifier. destruct q as [q|]; cbn [app peek hd tail default].
  - cbn [str] in Hq. rewrite !elem_of_cons in Hq.
    destruct Hq as [->|[->|[->|Hq]]]; [done..|]. by apply elem_of_nil in Hq.
  - cbn [str] in HT. rewrite !not_elem_of_cons in HT. destruct HT as (H1&H2&H3&_).
    change 104 with (ch "h"). change 108 with (ch "l"). change 76 with (ch "L").
    by rewrite (proj2 (Z.eqb_neq _ _) H1), (proj2 (Z.eqb_neq _ _) H2), (proj2 (Z.eqb_neq _ _) H3).
Qed.

(** *** A directive prints what the specification says *)

Lemma blanks_none c n : n <= 0 → blanks c n = [].
Proof. intros Hn. unfold blanks. by rewrite Z2Nat.nonpos. Qed.

(** An absent width pads as little as 0 does. *)
Lemma justify_low left zero w w' lead body :
  w <= zlen (lead ++ body) → w' <= zlen (lead ++ body) →
  justify left zero w lead body = justify left zero w' lead body.
Proof. intros H1 H2. unfold justify. by rewrite !blanks_none by lia. Qed.

Lemma zlen_numeral up base n : 0 < zlen (numeral up base n).
Proof.
  unfold numeral, zlen. rewrite length_map, length_rev, length_seqZ. unfold digit_count.
  pose proof (zlen_nonneg (filter (λ k, base ^ k <= n) (seqZ 1 63))). lia.
Qed.

Lemma integer_absent k w p signed up base v :
  integer k (default (-1) w) (default (-1) p) signed up base v =
    integer k (default 0 w) (default 0 p) signed up base v.
Proof.
  unfold integer. set (ds := numeral up base (Z.abs v)).
  pose proof (zlen_numeral up base (Z.abs v)) as Hd. fold ds in Hd.
  assert (blanks 48 (default (-1) p - zlen ds) = blanks 48 (default 0 p - zlen ds)) as ->.
  { destruct p as [p|]; [done|]. cbn [default]. by rewrite !blanks_none by lia. }
  destruct w as [w|]; [done|]. cbn [default]. unfold id.
  set (l := _ ++ prefix_of k up base). set (z := blanks 48 _).
  assert (0 < zlen (l ++ z ++ ds)).
  { rewrite !zlen_app. pose proof (zlen_nonneg l). pose proof (zlen_nonneg z). lia. }
  apply justify_low; lia.
Qed.

(** The state behind a directive that printed [r]. *)
Definition behind (s : vstate) (r : option printed) : result vstate unit :=
  match r with
  | Some (t, st, args) => Ret tt (VState (v_out s ++ t) args (v_stores s ++ st))
  | None => Trap
  end.

Lemma emit_text l args s : emit l (VState (v_out s) args (v_stores s)) = behind s (text l args).
Proof. cbn. by rewrite app_nil_r. Qed.

Lemma conv_c_prints flags w s :
  conv_c flags (default (-1) w) s =
    behind s (match v_args s with
              | AInt z :: args => text (justify (has flags LEFT) false (default 0 w) [] [u8 z]) args
              | _ => None
              end).
Proof.
  destruct s as [out args st]. cbn [v_args].
  assert (u8 (s32 (match args with AInt z :: _ => z | _ => 0 end)) =
    u8 (match args with AInt z :: _ => z | _ => 0 end)) as E8.
  { generalize (match args with AInt z :: _ => z | _ => 0 end). intros z. unfold swrap, wrap.
    pose proof (Z.div_mod (z + 2 ^ (32 - 1)) (2 ^ 32) ltac:(lia)) as Hd.
    replace ((z + 2 ^ (32 - 1)) mod 2 ^ 32 - 2 ^ (32 - 1))
      with (z + (- (2 ^ 24 * ((z + 2 ^ (32 - 1)) / 2 ^ 32))) * 2 ^ 8) by lia.
    by rewrite Z.mod_add by lia. }
  assert (∀ z : Z, pad_pre 32 z = (blanks 32 (z - 1), if 1 <? z then 0 else z - 1)) as Hp by done.
  assert (blanks 32 (default (-1) w - 1) = blanks 32 (default 0 w - 1)) as Hb.
  { destruct w as [w|]; [done|]. cbn [default]. by rewrite !blanks_none by (unfold id; lia). }
  assert (∀ z, blanks 32 ((if 1 <? z then 0 else z - 1) - 1) = []) as Hz.
  { intros z. apply blanks_none. destruct (Z.ltb_spec 1 z); lia. }
  unfold conv_c, justify. cbn [app]. change (zlen [_]) with 1.
  destruct (has flags LEFT); rewrite ?Hp; cbv beta iota; rewrite ?Hp; cbn [fst]; rewrite ?Hz.
  all: unfold emit, va_int, va_word, next_arg, modify, bind, ret; cbn [v_args v_out v_stores].
  all: destruct args as [|[z|z] args]; try done; cbn in E8 |- *.
  all: rewrite Hb, E8, ?app_nil_r, <- ?app_assoc; done.
Qed.

Lemma conv_s_prints flags w p s :
  Forall arg_ok (v_args s) → match p with Some p => 0 <= p < 2 ^ 31 | None => True end →
  conv_s flags (default (-1) w) (default (-1) p) s =
    behind s (match v_args s with
              | AStr l :: args =>
                  let l := default (str "<NULL>") l in
                  text (justify (has flags LEFT) false (default 0 w) []
                    (match p with Some p => take (Z.to_nat p) l | None => l end)) args
              | _ => None
              end).
Proof.
  intros Ha Hp. destruct s as [out args st]. cbn [v_args] in *.
  unfold conv_s, va_string, next_arg, emit, modify, bind, ret. cbn [v_args v_out v_stores].
  destruct args as [|[z|l] args]; [done..|].
  apply Forall_inv in Ha. cbn [behind v_args v_out v_stores].
  assert (zlen (default (str "<NULL>") l) < 2 ^ 64) as Hl by (destruct l; [exact Ha|done]).
  set (x := default (str "<NULL>") l) in *. cbv zeta.
  set (y := match p with Some p => take (Z.to_nat p) x | None => x end).
  pose proof (zlen_nonneg x) as Hx0.
  assert (take (Z.to_nat (Z.min (u64 (default (-1) p)) (zlen x))) x = y ∧
    Z.min (u64 (default (-1) p)) (zlen x) = zlen y) as [-> ->].
  { subst y. destruct p as [p|]; cbn [default]; unfold id.
    - rewrite (wrap_small 64) by lia. rewrite zlen_take.
      split; [|lia]. destruct (decide (p <= zlen x)).
      + by rewrite Z.min_l by lia.
      + rewrite Z.min_r by lia. rewrite !take_ge by (unfold zlen in *; lia). done.
    - change (u64 (-1)) with (2 ^ 64 - 1). rewrite Z.min_r by lia. split; [|done].
      by rewrite take_ge by (unfold zlen; lia). }
  assert (blanks 32 (default (-1) w - zlen y) = blanks 32 (default 0 w - zlen y)) as Hb.
  { destruct w as [w|]; [done|]. cbn [default]. pose proof (zlen_nonneg y).
    by rewrite !blanks_none by (unfold id; lia). }
  assert (∀ z, fst (pad_len (zlen y) z) = blanks 32 (z - zlen y)) as Hf by done.
  assert (∀ z, pad_len (zlen y) z = (blanks 32 (z - zlen y), snd (pad_len (zlen y) z))) as Hq by done.
  assert (∀ z, blanks 32 (snd (pad_len (zlen y) z) - zlen y) = []) as Hz.
  { intros z. apply blanks_none. unfold pad_len. cbn [snd].
    destruct (Z.ltb_spec (zlen y) z); lia. }
  clearbody x y. unfold justify, text. cbn [app].
  destruct (has flags LEFT); cbv beta iota; [|rewrite (Hq (default (-1) w)); cbv beta iota];
    rewrite Hf, ?Hz, Hb; cbn; by rewrite ?app_nil_r, <- ?app_assoc.
Qed.

Lemma s64_u64 z : s64 (u64 z) = s64 z.
Proof. unfold swrap, wrap. by rewrite Z.add_mod_idemp_l. Qed.

Lemma s64_u64_small z : - 2 ^ 31 <= z < 2 ^ 31 → s64 (u64 z) = z.
Proof. intros Hz. rewrite s64_u64. apply swrap_small; lia. Qed.

Lemma emit_number_prints base num w p flags args s :
  2 <= base <= 36 → 0 <= num < 2 ^ 64 →
  emit_number num base (default (-1) w) (default (-1) p) flags (VState (v_out s) args (v_stores s)) =
    behind s (text (integer (look_flags flags) (default 0 w) (default 0 p) (has flags SIGN)
      (has flags LARGE) base (if has flags SIGN then s64 num else num)) args).
Proof.
  intros Hb Hn. unfold emit_number. rewrite number_prints, integer_absent by done.
  cbn [lift_opt bind ret]. apply emit_text.
Qed.

Lemma conv_int_prints base q w p flags s :
  2 <= base <= 36 →
  conv_int base q (default (-1) w) (default (-1) p) flags s =
    behind s (match v_args s with
      | AInt z :: args =>
          text (integer (look_flags flags) (default 0 w) (default 0 p) (has flags SIGN)
            (has flags LARGE) base
            (if has flags SIGN then if q =? 108 then s64 z else s32 z
             else if q =? 108 then u64 z else u32 z)) args
      | _ => None
      end).
Proof.
  intros Hb. unfold conv_int, va_ulong, va_int, va_uint, va_word, next_arg, bind, ret, trap.
  assert (∀ z, 0 <= u64 z < 2 ^ 64) as Hu by (intros; by apply wrap_range).
  assert (∀ z, 0 <= u32 z < 2 ^ 64) as Hu32
    by (intros z; pose proof (wrap_range 32 ltac:(lia) z); lia).
  assert (∀ z, s64 (u64 (s32 z)) = s32 z) as Hs
    by (intros z; pose proof (swrap_range 32 ltac:(lia) z); apply s64_u64_small; lia).
  destruct (q =? 108); [|destruct (has flags SIGN) eqn:E];
    (destruct (v_args s) as [|[z|z] args]; [done| |done]);
    rewrite emit_number_prints by (done || apply Hu || apply Hu32); rewrite ?E, ?Hs, ?s64_u64; done.
Qed.

(** The flags a format writes: neither SIGN nor LARGE, which the conversions
    add. *)
Definition user_flags (flags : Z) : Prop := has flags SIGN = false ∧ has flags LARGE = false.

Lemma look_flags_lor flags f :
  f = SIGN ∨ f = LARGE → look_flags (Z.lor flags f) = look_flags flags.
Proof. intros [->| ->]; unfold look_flags; rewrite !has_lor, !orb_false_r; done. Qed.

Lemma look_flags_zero flags :
  look_flags (Z.lor flags ZEROPAD) =
    Look (has flags LEFT) (has flags PLUS) (has flags SPACE) (has flags SPECIAL) true.
Proof. unfold look_flags. rewrite !has_lor, !orb_false_r. f_equal. apply orb_true_r. Qed.

Lemma convert_prints c q w p flags s :
  c ∈ conv_chars → user_flags flags → Forall arg_ok (v_args s) → w ≠ Some (-1) →
  match p with Some p => 0 <= p < 2 ^ 31 | None => True end →
  convert c (default (-1) q) flags (default (-1) w) (default (-1) p) s =
    behind s (print_conv (look_flags flags) w p (bool_decide (q = Some (ch "l"))) c
      (zlen (v_out s)) (v_args s)).
Proof.
  intros Hc [HS HL] Ha Hw Hp.
  assert (bool_decide (q = Some (ch "l")) = (default (-1) q =? 108)) as ->.
  { destruct q as [q|]; [|done]. cbn. change (ch "l") with 108.
    destruct (Z.eqb_spec q 108) as [->|]; [done|]. apply bool_decide_eq_false. congruence. }
  unfold conv_chars in Hc. cbn [str] in Hc. rewrite !elem_of_cons in Hc.
  destruct Hc as [->|[->|[->|[->|[->|[->|[->|[->|[->|[->|[->|Hc]]]]]]]]]]];
    [..|by apply elem_of_nil in Hc]; unfold convert, print_conv;
    repeat match goal with
      | |- context [ch ?a =? ch ?b] =>
          let v := eval vm_compute in (ch a =? ch b) in change (ch a =? ch b) with v
      end; cbv iota; cbn [orb].
  - apply conv_c_prints.
  - by apply conv_s_prints.
  - unfold conv_p, va_ulong, va_word, next_arg. cbn [l_minus l_plus l_space l_alt].
    assert ((if default (-1) w =? -1 then (16, Z.lor flags ZEROPAD) else (default (-1) w, flags)) =
      match w with Some w => (w, flags) | None => (16, Z.lor flags ZEROPAD) end) as ->.
    { destruct w as [w|]; [|done]. cbn [default]. unfold id.
      rewrite (proj2 (Z.eqb_neq w (-1))); [done|congruence]. }
    destruct w as [w|], (v_args s) as [|[z|z] args] eqn:E; try (unfold bind; by rewrite E);
      unfold bind, ret; rewrite E; cbv beta iota.
    all: pose proof (wrap_range 64 ltac:(lia) z).
    + rewrite (emit_number_prints 16 (u64 z) (Some w)) by lia. by rewrite HS, HL.
    + rewrite (emit_number_prints 16 (u64 z) (Some 16)) by lia.
      by rewrite look_flags_zero, !has_lor, HS, HL.
  - unfold conv_n, va_ulong, va_word, next_arg, bind, ret, modify.
    destruct (v_args s) as [|[z|z] args]; [done| |done]. cbn.
    rewrite app_nil_r. by destruct (default (-1) q =? 108).
  - rewrite conv_int_prints by lia. by rewrite HS, HL.
  - rewrite conv_int_prints by lia. by rewrite HS, HL.
  - rewrite conv_int_prints by lia. rewrite look_flags_lor, !has_lor, HS, orb_true_r by auto. done.
  - rewrite conv_int_prints by lia. rewrite look_flags_lor, !has_lor, HL, orb_true_r by auto. done.
  - rewrite conv_int_prints by lia. rewrite look_flags_lor, !has_lor, HL, orb_true_r by auto. done.
  - rewrite conv_int_prints by lia. by rewrite HS, HL.
  - cbn. by rewrite app_nil_r.
Qed.

Lemma flags_of_format fl flags :
  Forall (λ c, c ∈ flag_chars) fl →
  let flags' := foldl (λ f c, Z.lor f (flag_bit c)) flags fl in
  look_flags flags' = Look (has flags LEFT || l_minus (look_of fl)) (has flags PLUS || l_plus (look_of fl))
    (has flags SPACE || l_space (look_of fl)) (has flags SPECIAL || l_alt (look_of fl))
    (has flags ZEROPAD || l_zero (look_of fl)) ∧
  (user_flags flags → user_flags flags').
Proof.
  intros HF. revert flags. induction HF as [|c fl Hc HF IH]; intros flags; cbn [foldl].
  { split; [|done]. unfold look_flags. by rewrite !orb_false_r. }
  specialize (IH (Z.lor flags (flag_bit c))). cbv zeta in IH. destruct IH as [-> IH2].
  assert (look_of (c :: fl) = Look (bool_decide (c = ch "-") || l_minus (look_of fl))
    (bool_decide (c = ch "+") || l_plus (look_of fl)) (bool_decide (c = ch " ") || l_space (look_of fl))
    (bool_decide (c = ch "#") || l_alt (look_of fl)) (bool_decide (c = ch "0") || l_zero (look_of fl))) as ->.
  { unfold look_of. cbn [l_minus l_plus l_space l_alt l_zero].
    f_equal; rewrite <- bool_decide_or; apply bool_decide_ext; rewrite elem_of_cons; naive_solver. }
  cbn [l_minus l_plus l_space l_alt l_zero]. rewrite !has_lor.
  unfold flag_chars in Hc. cbn [str] in Hc. rewrite !elem_of_cons in Hc.
  split.
  - destruct Hc as [->|[->|[->|[->|[->|Hc]]]]]; [..|by apply elem_of_nil in Hc];
      (f_equal; rewrite <- orb_assoc; reflexivity).
  - intros [HS HL]. apply IH2. unfold user_flags. rewrite !has_lor, HS, HL.
    by destruct Hc as [->|[->|[->|[->|[->|Hc]]]]]; [..|by apply elem_of_nil in Hc].
Qed.

(** What is taken for a star leaves arguments of the same kind. *)
Lemma take_amount_ok a args w rest :
  take_amount a args = Some (w, rest) → Forall arg_ok args → Forall arg_ok rest.
Proof.
  destruct a; cbn; [by intros [= _ <-]..|].
  destruct args as [|[z|z] args]; [done| |done]. intros [= _ <-]. apply Forall_inv_tail.
Qed.

Lemma star_width w flags s :
  match w with ANum n => 0 < n < 2 ^ 31 | _ => True end →
  match w with
  | ANone => ret (-1, flags)
  | ANum n => ret (n, flags)
  | AStar => let! w := va_int in
             ret (if w <? 0 then (s32 (- w), Z.lor flags LEFT) else (w, flags))
  end s =
  match take_amount w (v_args s) with
  | Some (w, rest) =>
      Ret (default (-1) (option_map (λ w, s32 (Z.abs w)) w),
           if default 0 w <? 0 then Z.lor flags LEFT else flags) (VState (v_out s) rest (v_stores s))
  | None => Trap
  end.
Proof.
  destruct s as [out args st], w as [|n|]; cbn [take_amount v_args v_out v_stores]; intros Hw; [done| |].
  - cbn. rewrite Z.abs_eq, (swrap_small 32) by lia.
    by rewrite (proj2 (Z.ltb_ge n 0)) by lia.
  - unfold va_int, va_word, next_arg, bind, ret. cbn [v_args].
    destruct args as [|[z|z] args]; [done| |done]. cbn [option_map default]. unfold id.
    pose proof (swrap_range 32 ltac:(lia) z).
    destruct (Z.ltb_spec (s32 z) 0); [by rewrite Z.abs_neq by lia|].
    by rewrite Z.abs_eq, (swrap_small 32 ltac:(lia) (s32 z)) by lia.
Qed.

Lemma star_precision p s :
  match p with ANum n => 0 <= n < 2 ^ 31 | _ => True end →
  match p with
  | ANone => ret (-1)
  | ANum n => ret n
  | AStar => let! p := va_int in ret (Z.max 0 p)
  end s =
  match take_amount p (v_args s) with
  | Some (p, rest) =>
      Ret (default (-1) (option_map (Z.max 0) p)) (VState (v_out s) rest (v_stores s))
  | None => Trap
  end.
Proof.
  destruct s as [out args st], p as [|n|]; cbn [take_amount v_args v_out v_stores]; intros Hp; [done| |].
  - cbn [option_map default]. unfold id, ret. by rewrite Z.max_r by lia.
  - unfold va_int, va_word, next_arg, bind, ret. cbn [v_args].
    by destruct args as [|[z|z] args].
Qed.

(** What is taken for a width or a precision is an [int]. *)
Lemma take_amount_range a args w rest :
  match a with ANum n => 0 <= n < 2 ^ 31 | _ => True end →
  take_amount a args = Some (Some w, rest) → - 2 ^ 31 <= w < 2 ^ 31.
Proof.
  destruct a as [|n|]; cbn; [done| |].
  - intros Hn [= <- _]. lia.
  - destruct args as [|[z|z] args]; [done| |done]. intros _ [= <- _].
    pose proof (swrap_range 32 ltac:(lia) z). lia.
Qed.

Lemma render_prints i s :
  item_ok i → Forall arg_ok (v_args s) →
  render i s = behind s (print_item i (zlen (v_out s)) (v_args s)).
Proof.
  destruct i as [c|fl w p q c]; [intros _ _; cbn; by rewrite app_nil_r|].
  intros (Hfl&Hc&Hw&Hp&_) Ha. cbn [render print_item].
  destruct (flags_of_format fl 0 Hfl) as [HL HU]. cbv zeta in HL, HU.
  specialize (HU (conj eq_refl eq_refl)).
  set (flags := foldl _ 0 fl) in *.
  unfold bind at 1. rewrite star_width by done.
  destruct (take_amount w (v_args s)) as [[wv rest]|] eqn:Ew; [|done].
  unfold bind at 1. rewrite star_precision by done. cbn [v_args v_out v_stores].
  destruct (take_amount p rest) as [[pv rest']|] eqn:Ep; [|done].
  assert (∀ v, wv = Some v → - 2 ^ 31 <= v < 2 ^ 31) as Hwr.
  { intros v ->. eapply take_amount_range; [|exact Ew]. destruct w; lia || done. }
  assert (∀ v, pv = Some v → - 2 ^ 31 <= v < 2 ^ 31) as Hpr.
  { intros v ->. by eapply take_amount_range, Ep. }
  rewrite convert_prints; [|done|..].
  - unfold behind. cbn [v_args v_out v_stores].
    assert (look_flags (if default 0 wv <? 0 then Z.lor flags LEFT else flags) =
      Look (l_minus (look_of fl) || (default 0 wv <? 0)) (l_plus (look_of fl)) (l_space (look_of fl))
        (l_alt (look_of fl)) (l_zero (look_of fl))) as ->; [|done].
    destruct (default 0 wv <? 0).
    + unfold look_flags. rewrite !has_lor, !orb_false_r. injection HL as -> -> -> -> ->. done.
    + rewrite HL, orb_false_r. done.
  - destruct HU. destruct (default 0 wv <? 0); [|done]. by split; rewrite has_lor, orb_false_r.
  - eapply take_amount_ok, take_amount_ok; eauto.
  - destruct wv as [v|]; [|done]. cbn. intros [= E]. specialize (Hwr v eq_refl).
    destruct (decide (v = - 2 ^ 31)) as [->|]; [done|].
    rewrite (swrap_small 32) in E by lia. lia.
  - destruct pv as [v|]; [|done]. cbn. specialize (Hpr v eq_refl). lia.
Qed.

Lemma print_item_args i n args t st rest :
  print_item i n args = Some (t, st, rest) → Forall arg_ok args → Forall arg_ok rest.
Proof.
  destruct i as [c|fl w p q c]; cbn [print_item]; [by intros [= _ _ <-]|].
  destruct (take_amount w args) as [[wv args1]|] eqn:Ew; [|done].
  destruct (take_amount p args1) as [[pv args2]|] eqn:Ep; [|done].
  intros E Ha. pose proof (take_amount_ok _ _ _ _ Ep (take_amount_ok _ _ _ _ Ew Ha)) as H2.
  clear Ew Ep Ha. revert E. unfold print_conv, text.
  destruct (c =? ch "%"); [by intros [= _ _ <-]|].
  destruct args2 as [|[z|z] args2]; [done|apply Forall_inv_tail in H2..].
  - repeat case_match; intros; simplify_eq; done.
  - case_match; intros; simplify_eq; done.
Qed.

Lemma render_all_prints l s :
  Forall item_ok l → Forall arg_ok (v_args s) →
  match print_all l (zlen (v_out s)) (v_args s) with
  | Some (t, st) => ∃ rest, render_all l s = Ret tt (VState (v_out s ++ t) rest (v_stores s ++ st))
  | None => render_all l s = Trap
  end.
Proof.
  intros HF. revert s. induction HF as [|i l Hi _ IH]; intros s Ha; cbn [print_all render_all].
  { exists (v_args s). rewrite !app_nil_r. by destruct s. }
  unfold bind. rewrite render_prints by done. unfold behind.
  destruct (print_item i (zlen (v_out s)) (v_args s)) as [[[t st] args]|] eqn:E; [|done].
  specialize (IH (VState (v_out s ++ t) args (v_stores s ++ st))). cbn [v_args v_out v_stores] in IH.
  rewrite zlen_app in IH. specialize (IH (print_item_args _ _ _ _ _ _ E Ha)).
  destruct (print_all l _ args) as [[t' st']|]; [|exact IH].
  destruct IH as [rest ->]. exists rest. by rewrite !app_assoc.
Qed.

(** *** The format is parsed back *)

(** The tail of a directive, behind its flags, is recognised as such. *)
Lemma directive_show fl w p q c rest s :
  item_ok (Conv fl w p q c) →
  directive (tail (show (Conv fl w p q c)) ++ rest) s
    = bind (render (Conv fl w p q c)) (λ _, ret rest) s.
Proof.
  intros (Hfl&Hc&Hw&Hp&Hq). destruct (conv_chars_plain c Hc) as [Hcp Hcq].
  cbn [show tail render]. rewrite <- !app_assoc.
  set (Q := match q with Some q => [q] | None => [] end).
  set (TQ := Q ++ [c] ++ rest).
  set (P := match p with ANone => [] | _ => _ end).
  assert (plain (peek TQ)) as HQ.
  { subst TQ Q. destruct q as [q|]; [by apply qual_plain|done]. }
  assert (is_digit (peek (P ++ TQ)) = false ∧ peek (P ++ TQ) ≠ ch "*" ∧
    peek (P ++ TQ) ∉ flag_chars) as (HP1&HP2&HP3).
  { subst P. destruct p; [destruct HQ as (?&?&?&?); done|..];
      (repeat split; [done..|]; apply (bool_decide_unpack _); vm_compute; exact I). }
  assert (peek (show_amount w ++ P ++ TQ) ∉ flag_chars) as HW.
  { destruct w as [|n|]; cbn [show_amount app]; [done| |apply (bool_decide_unpack _); vm_compute; exact I].
    destruct (dec_head n) as (d&l&->&Hd&Hd0); [lia|]. cbn [app peek hd].
    specialize (Hd0 ltac:(lia)). unfold flag_chars. cbn [str]. rewrite !not_elem_of_cons.
    cbv [ch N_of_ascii N_of_digits]. repeat split; try lia. apply not_elem_of_nil. }
  unfold directive. rewrite parse_flags_ok by done.
  set (flags := foldl _ 0 fl). destruct HQ as (HQ1&HQ2&HQ3&HQ4).
  etransitivity; [apply bind_ext_l; [by apply parse_width_ok|intros; reflexivity]|].
  rewrite !bind_bind. apply bind_ext. intros [w' f'] s1. cbn [bind ret].
  etransitivity; [apply bind_ext_l; [by apply parse_precision_ok|intros; reflexivity]|].
  rewrite !bind_bind. apply bind_ext. intros p' s2. cbn [bind ret].
  subst TQ Q. by rewrite parse_qualifier_ok.
Qed.

Lemma show_nonempty i : (0 < length (show i))%nat.
Proof. destruct i; cbn; lia. Qed.

Lemma vsprintf_items fuel l s :
  Forall item_ok l → (length (concat (map show l)) < fuel)%nat →
  vsprintf_loop fuel (concat (map show l)) s = render_all l s.
Proof.
  unfold vsprintf_loop. intros HF. revert fuel s.
  induction HF as [|i l Hi _ IH]; intros fuel s Hf; cbn [map concat render_all] in *.
  - destruct fuel; [lia|]. done.
  - rewrite length_app in Hf. pose proof (show_nonempty i).
    destruct fuel as [|fuel]; [lia|]. cbn [loop]. destruct i as [c|fl w p q c].
    + cbn [show app item_ok render length] in *. rewrite (proj2 (Z.eqb_neq _ _) Hi).
      rewrite bind_bind. unfold bind, emit, modify, ret. rewrite IH by lia. done.
    + change (show (Conv fl w p q c)) with (ch "%" :: tail (show (Conv fl w p q c))) in *.
      cbn [app length] in *. change (ch "%" =? ch "%") with true. cbv iota.
      rewrite bind_bind. etransitivity; [apply bind_ext_l; [by apply directive_show|intros; reflexivity]|].
      rewrite bind_bind. apply bind_ext. intros _ s'. cbn [bind ret]. apply IH. lia.
Qed.


