(* ===== verification/Cons.v ===== *)
(** * cons.c: the SRM console, and printf of utils.c

    The firmware's callbacks ([dispatch]) are not under src/: they are the class
    [Console], over a state [K] of their own.  What the loader relies on is the
    class [ConsoleLaws].  The file also holds [printf], which cons.c calls and
    which calls [cons_puts], and the interface [ConsIO] that the rest of the
    loader uses to read disks and to print. *)

From Stdlib Require Import Ascii String.
From S2P Require Import Prelude CString Vsprintf.

Open Scope Z_scope.
Open Scope list_scope.

Definition SECT_SIZE : Z := 512.

(** ** The callbacks *)

(** Each callback with the arguments the loader passes; what it stores in a
    buffer is the list it returns. *)
Class Console (K : Type) := {
  ccb_puts : Z → list Z → M K Z;              (* device, characters: status *)
  ccb_getc : Z → M K Z;                       (* device *)
  ccb_get_env : Z → Z → M K (Z * list Z);     (* index, room: length, bytes *)
  ccb_open : list Z → M K Z;                  (* name *)
  ccb_close : Z → M K Z;
  ccb_read : Z → Z → Z → M K (Z * list Z);    (* device, count, lbn: count, bytes *)
  ccb_open_console : M K Z;
  ccb_close_console : M K Z;
  (* the indices of environment variables, asm/console.h *)
  ENV_TTY_DEV : Z;
  ENV_BOOTED_DEV : Z;
  ENV_BOOTED_FILE : Z;
  ENV_BOOTED_OSFLAGS : Z
}.

(** The statics of cons.c and of [printf]. *)
Record cstate (K : Type) := CState {
  con : K;
  cons_dev : Z;
  readbuf : list Z;     (* char readbuf[SECT_SIZE] *)
  pbuf : list Z         (* char buf[1024] of printf *)
}.
Arguments CState {K} con cons_dev readbuf pbuf.
Arguments con {K} c.
Arguments cons_dev {K} c.
Arguments readbuf {K} c.
Arguments pbuf {K} c.

(* the PAL call that stops the processor *)
Definition halt {St A} : M St A := longjmp "halt".

Section cons.
Context {K : Type} `{Console K}.

(** A callback, run on the console's part of the state. *)
Definition dispatch {A} (m : M K A) : M (cstate K) A := λ s,
  match m (con s) with
  | Ret a k => Ret a (CState k (cons_dev s) (readbuf s) (pbuf s))
  | Jump e k => Jump e (CState k (cons_dev s) (readbuf s) (pbuf s))
  | Trap => Trap
  | Diverge => Diverge
  end.

Definition set_readbuf (b : list Z) : M (cstate K) unit :=
  modify (λ s, CState (con s) (cons_dev s) b (pbuf s)).
Definition set_pbuf (b : list Z) : M (cstate K) unit :=
  modify (λ s, CState (con s) (cons_dev s) (readbuf s) b).
Definition set_cons_dev (d : Z) : M (cstate K) unit :=
  modify (λ s, CState (con s) d (readbuf s) (pbuf s)).

(** The bit fields of a status: the low word, the two top bits. *)
Definition sts_written (l : Z) : Z := s32 l.
Definition sts_v_sts1 (l : Z) : bool := Z.testbit l 62.
Definition sts_v_err (l : Z) : bool := Z.testbit l 63.

(** [fuel] bounds the turns of a loop that polls the console. *)
Definition cons_puts (fuel : nat) (str : list Z) (len : Z) : M (cstate K) Z :=
  loop fuel (λ '(p, remaining),
    if remaining =? 0 then ret (inr tt)
    else
      let! dev := gets cons_dev in
      let! chars := lift_opt (aslice str p remaining) in
      let! l_sts := dispatch (ccb_puts dev chars) in
      if negb (sts_v_err l_sts) then
        let written := sts_written l_sts in
        ret (inl (p + written, remaining - written))
      else if sts_v_sts1 l_sts then halt
      else ret (inl (p, remaining))) (0, len) ;;;
  ret len.

Definition cons_putchar (fuel : nat) (c : Z) : M (cstate K) unit :=
  cons_puts fuel [u8 c; 0] 1 ;;; ret tt.

Definition cons_getchar (fuel : nat) : M (cstate K) Z :=
  loop fuel (λ _,
    let! dev := gets cons_dev in
    let! c := dispatch (ccb_getc dev) in
    ret (if c <? 0 then inl tt else inr (s32 c))) tt.

(** [envval] afterwards, and the length.  [tmp] holds what the callback
    stored; copying more of it is an access to indeterminate bytes. *)
Definition cons_getenv (index : Z) (envval : list Z) (maxlen : Z)
    : M (cstate K) (Z * list Z) :=
  let! ' (len, tmp) := dispatch (ccb_get_env index (maxlen - 1)) in
  if 0 <=? len then
    let! copied := lift_opt (aslice tmp 0 len) in
    let! envval := lift_opt (asplice envval 0 copied) in
    let! envval := lift_opt (aset envval len 0) in
    ret (len, envval)
  else ret (len, envval).

Definition cons_open (devname : list Z) : M (cstate K) Z := dispatch (ccb_open devname).
Definition cons_close (dev : Z) : M (cstate K) Z := dispatch (ccb_close dev).
Definition cons_open_console : M (cstate K) unit := dispatch ccb_open_console ;;; ret tt.
Definition cons_close_console : M (cstate K) unit := dispatch ccb_close_console ;;; ret tt.

Definition cons_init : M (cstate K) unit :=
  let! ' (len, envval) := cons_getenv ENV_TTY_DEV (replicate 256 0) 256 in
  (if len <? 0 then halt else ret tt) ;;;
  set_cons_dev (fst (simple_strtoul envval 10)) ;;;
  cons_open_console.

(** ** printf (utils.c) *)

(* for (src = buf; *src; ++src): where it stops and the linefeeds passed *)
Fixpoint count_lf (buf : list Z) (src num_lf : Z) : option (Z * Z) :=
  match buf with
  | [] => None
  | c :: buf =>
      if c =? 0 then Some (src, num_lf)
      else count_lf buf (src + 1) (if c =? 10 then num_lf + 1 else num_lf)
  end.

(* for (dst = src + num_lf; src >= buf; ): in place, from the end *)
Fixpoint expand_lf (n : nat) (buf : list Z) (src dst : Z) : option (list Z) :=
  match n with
  | O => Some buf
  | S n =>
      let? c := aget buf src in
      let? (buf, dst) :=
        (if c =? 10 then let? buf := aset buf dst 13 in Some (buf, dst - 1)
         else Some (buf, dst)) in
      let? c := aget buf src in
      let? buf := aset buf dst c in
      expand_lf n buf (src - 1) (dst - 1)
  end.

(** [%n] would store outside this state: no format of the loader has it. *)
Definition printf (fuel : nat) (fmt : string) (args : list arg) : M (cstate K) Z :=
  match sprintf fmt args with
  | Ret (len, out) [] =>
      let! buf := gets pbuf in
      let! buf := lift_opt (asplice buf 0 (out ++ [0])) in
      let! ' (src, num_lf) := lift_opt (count_lf buf 0 0) in
      let! buf :=
        (if negb (num_lf =? 0)
         then lift_opt (expand_lf (Z.to_nat (src + 1)) buf src (src + num_lf))
         else ret buf) in
      set_pbuf buf ;;;
      cons_puts fuel buf (len + num_lf)
  | _ => trap
  end.

(** ** cons_read *)

Definition cons_read_step (fuel : nat) (dev : Z) :
    Z * Z * Z * Z * list Z →
    M (cstate K) ((Z * Z * Z * Z * list Z) + (Z * list Z)) :=
  λ '(bytesleft, iocount, blockoffset, lbn, buf),
    if 0 <? bytesleft then
      if (blockoffset =? 0) && (SECT_SIZE <=? bytesleft) then
        let iosize := SECT_SIZE in
        let! ' (retval, data) := dispatch (ccb_read dev iosize lbn) in
        let! buf := lift_opt (asplice buf iocount data) in
        if negb (retval =? iosize) then
          printf fuel ("read error 0x%lx" ++ nl) [AInt retval] ;;;
          ret (inr (-1, buf))
        else
          ret (inl (bytesleft - iosize, iocount + iosize, 0, lbn + 1, buf))
      else
        let! ' (retval, data) := dispatch (ccb_read dev SECT_SIZE lbn) in
        let! rb := gets readbuf in
        let! rb := lift_opt (asplice rb 0 data) in
        set_readbuf rb ;;;
        if negb (retval =? SECT_SIZE) then
          printf fuel ("read error, lbn %ld: 0x%lx" ++ nl) [AInt lbn; AInt retval] ;;;
          ret (inr (-1, buf))
        else
          let iosize :=
            if SECT_SIZE <=? blockoffset + bytesleft then SECT_SIZE - blockoffset
            else bytesleft in
          let! piece := lift_opt (aslice rb blockoffset iosize) in
          let! buf := lift_opt (asplice buf iocount piece) in
          ret (inl (bytesleft - iosize, iocount + iosize, 0, lbn + 1, buf))
    else ret (inr (iocount, buf)).

(** The value returned and [buf] afterwards.  Every turn reads at least a
    byte, so the loop has at most [count] of them. *)
Definition cons_read (fuel : nat) (dev : Z) (buf : list Z) (count offset : Z)
    : M (cstate K) (Z * list Z) :=
  if (Z.land count (SECT_SIZE - 1) =? 0) && (Z.land offset (SECT_SIZE - 1) =? 0) then
    let! ' (retval, data) := dispatch (ccb_read dev count (Z.quot offset SECT_SIZE)) in
    let! buf := lift_opt (asplice buf 0 data) in
    ret (retval, buf)
  else
    loop (S (Z.to_nat count)) (cons_read_step fuel dev)
      (count, 0, Z.rem offset SECT_SIZE, Z.quot offset SECT_SIZE, buf).
End cons.

(** ** What the firmware promises

    [con_shown] is what the console has displayed, [con_typed] the keys still
    to be read, [con_disk] the contents of a device, and [con_busy] how often
    the console will still ask to be called again.  A write may be partial and
    may fail softly (bit 63 without bit 62). *)
Class ConsoleLaws (K : Type) `{Console K} := {
  con_shown : K → list Z;
  con_typed : K → list Z;
  con_busy : K → nat;
  con_disk : K → Z → list Z;
  ccb_puts_ok : ∀ dev s k, 0 < zlen s < 2 ^ 31 →
    ∃ sts k', ccb_puts dev s k = Ret sts k' ∧
      con_disk k' = con_disk k ∧ con_typed k' = con_typed k ∧
      ((sts_v_err sts = false ∧ 0 < sts_written sts <= zlen s ∧
        con_shown k' = con_shown k ++ take (Z.to_nat (sts_written sts)) s ∧
        (con_busy k' <= con_busy k)%nat) ∨
       (sts_v_err sts = true ∧ sts_v_sts1 sts = false ∧
        con_shown k' = con_shown k ∧ (con_busy k' < con_busy k)%nat));
  ccb_getc_ok : ∀ dev k c rest, con_typed k = c :: rest →
    ∃ r k', ccb_getc dev k = Ret r k' ∧
      con_disk k' = con_disk k ∧ con_shown k' = con_shown k ∧
      ((r = c ∧ con_typed k' = rest ∧ (con_busy k' <= con_busy k)%nat) ∨
       (r < 0 ∧ con_typed k' = con_typed k ∧ (con_busy k' < con_busy k)%nat));
  ccb_read_ok : ∀ dev n lbn k, 0 <= lbn → 0 <= n → Z.land n 511 = 0 →
    512 * lbn + n <= zlen (con_disk k dev) →
    ∃ data k', ccb_read dev n lbn k = Ret (n, data) k' ∧
      aslice (con_disk k dev) (512 * lbn) n = Some data ∧
      con_disk k' = con_disk k ∧ (con_busy k' <= con_busy k)%nat
}.

(** ** The interface to the rest of the loader *)

(** What disk.c and the file systems use of cons.c and of [printf]. *)
Class ConsIO (K : Type) := {
  io_read : Z → list Z → Z → Z → M K (Z * list Z);   (* cons_read: dev, buf, count, offset *)
  io_printf : string → list arg → M K Z
}.

(** The device contents an operation leaves alone. *)
Class ConsIOLaws (K : Type) `{ConsIO K} := {
  io_ok : K → Prop;
  io_disk : K → Z → list Z;
  io_read_ok : ∀ dev buf count offset k, io_ok k →
    0 <= count <= zlen buf → 0 <= offset →
    512 * ((offset + count + 511) / 512) <= zlen (io_disk k dev) →
    ∃ data k', io_read dev buf count offset k
        = Ret (count, data ++ drop (Z.to_nat count) buf) k' ∧
      aslice (io_disk k dev) offset count = Some data ∧
      io_ok k' ∧ io_disk k' = io_disk k
}.

(** Printing leaves a console that still works, for the messages [printable]
    says: those that fit [printf]'s buffer. *)
Class ConsOut (K : Type) `{ConsIOLaws K} := {
  printable : string → list arg → Prop;
  out_printf : ∀ fmt args k, io_ok k → printable fmt args →
    ∃ r k', io_printf fmt args k = Ret r k' ∧ io_ok k' ∧ io_disk k' = io_disk k
}.

(** ** printf's linefeeds *)

(** What the expansion makes of a string: walking down from the end it stores
    the carriage return first, so it ends up behind the linefeed. *)
Definition lf_cr (l : list Z) : list Z :=
  concat (map (λ c, if c =? 10 then [10; 13] else [c]) l).

Definition linefeeds (l : list Z) : Z := zlen (filter (λ c, c = 10) l).

Lemma linefeeds_app l1 l2 : linefeeds (l1 ++ l2) = linefeeds l1 + linefeeds l2.
Proof. unfold linefeeds. by rewrite list.filter_app, zlen_app. Qed.

Lemma linefeeds_one c : linefeeds [c] = if c =? 10 then 1 else 0.
Proof.
  unfold linefeeds. destruct (Z.eqb_spec c 10).
  - by rewrite filter_cons_True.
  - by rewrite filter_cons_False.
Qed.

Lemma lf_cr_app l1 l2 : lf_cr (l1 ++ l2) = lf_cr l1 ++ lf_cr l2.
Proof. unfold lf_cr. by rewrite map_app, concat_app. Qed.

Lemma zlen_lf_cr l : zlen (lf_cr l) = zlen l + linefeeds l.
Proof.
  induction l as [|c l IH]; [done|]. change (c :: l) with ([c] ++ l).
  rewrite lf_cr_app, !zlen_app, linefeeds_app, linefeeds_one, IH.
  unfold lf_cr. cbn. destruct (c =? 10); cbn [app]; rewrite ?zlen_cons; change (@zlen Z []) with 0; lia.
Qed.

Lemma linefeeds_none l : linefeeds l = 0 → lf_cr l = l.
Proof.
  induction l as [|c l IH]; [done|]. change (c :: l) with ([c] ++ l).
  rewrite linefeeds_app, linefeeds_one, lf_cr_app. pose proof (zlen_nonneg (filter (λ c, c = 10) l)).
  fold (linefeeds l) in *. unfold lf_cr at 1. cbn [map concat]. destruct (c =? 10); [lia|].
  intros. by rewrite IH by lia.
Qed.

Lemma aset_app {A} (a d : list A) x y : aset (a ++ y :: d) (zlen a) x = Some (a ++ x :: d).
Proof.
  apply aset_Some. rewrite zlen_app, zlen_cons. pose proof (zlen_nonneg a). pose proof (zlen_nonneg d).
  split; [lia|]. unfold zlen. rewrite Nat2Z.id. rewrite insert_app_r_alt by lia.
  by rewrite Nat.sub_diag.
Qed.

Lemma aget_app {A} (a d : list A) y : aget (a ++ y :: d) (zlen a) = Some y.
Proof. unfold zlen. rewrite aget_of_nat. by apply list_lookup_middle. Qed.

Lemma snoc_of_cons {A} (c : A) g : ∃ g' y, c :: g = g' ++ [y] ∧ zlen g' = zlen g.
Proof.
  destruct (exists_last (l := c :: g)) as (g'&y&E); [done|]. exists g', y. split; [done|].
  apply (f_equal zlen) in E. rewrite zlen_app, zlen_cons in E. change (zlen [y]) with 1 in E. lia.
Qed.

Lemma expand_lf_ok l gap dn :
  zlen gap = linefeeds l →
  expand_lf (length l) (l ++ gap ++ dn) (zlen l - 1) (zlen l - 1 + zlen gap)
    = Some (lf_cr l ++ dn).
Proof.
  revert gap dn. induction l as [|c l IH] using rev_ind; intros gap dn Hg.
  - apply zlen_nil_inv in Hg as ->. done.
  - rewrite linefeeds_app, linefeeds_one in Hg. rewrite zlen_app. change (zlen [c]) with 1.
    rewrite length_app. replace (length l + length [c])%nat with (S (length l)) by (cbn; lia).
    replace (zlen l + 1 - 1) with (zlen l) by lia. rewrite <- app_assoc. cbn [app expand_lf].
    rewrite aget_app. rewrite lf_cr_app. unfold lf_cr at 2. cbn [map concat].
    destruct (Z.eqb_spec c 10) as [->|Hc].
    + destruct gap as [|x g]; [pose proof (zlen_nonneg (filter (λ c, c = 10) l));
        fold (linefeeds l) in *; change (zlen []) with 0 in Hg; lia|].
      destruct (snoc_of_cons x g) as (g1&y1&E1&Hg1). rewrite E1 in *. rewrite zlen_app in *.
      change (zlen [y1]) with 1 in *. rewrite <- !app_assoc.
      replace (l ++ 10 :: g1 ++ [y1] ++ dn) with ((l ++ 10 :: g1) ++ y1 :: dn)
        by (by rewrite <- !app_assoc).
      replace (zlen l + (zlen g1 + 1)) with (zlen (l ++ 10 :: g1))
        by (rewrite zlen_app, zlen_cons; lia).
      rewrite aset_app. rewrite zlen_app, zlen_cons. rewrite <- app_assoc.
      cbn [app]. rewrite aget_app.
      destruct (snoc_of_cons 10 g1) as (g2&y2&E2&Hg2).
      replace (l ++ 10 :: g1 ++ 13 :: dn) with ((l ++ g2) ++ y2 :: 13 :: dn).
      2:{ change (10 :: g1 ++ 13 :: dn) with ((10 :: g1) ++ 13 :: dn). rewrite E2.
          by rewrite <- !app_assoc. }
      replace (zlen l + (1 + zlen g1) - 1) with (zlen (l ++ g2)) by (rewrite zlen_app; lia).
      rewrite aset_app. rewrite zlen_app.
      replace (zlen l + zlen g2 - 1) with (zlen l - 1 + zlen g2) by lia.
      rewrite <- !app_assoc. rewrite IH by lia. by rewrite ?app_nil_r.
    + destruct (snoc_of_cons c gap) as (g2&y2&E2&Hg2).
      replace (l ++ c :: gap ++ dn) with ((l ++ g2) ++ y2 :: dn).
      2:{ change (c :: gap ++ dn) with ((c :: gap) ++ dn). rewrite E2. by rewrite <- !app_assoc. }
      assert (aget ((l ++ g2) ++ y2 :: dn) (zlen l) = Some c) as ->.
      { replace ((l ++ g2) ++ y2 :: dn) with (l ++ c :: gap ++ dn); [apply aget_app|].
        change (c :: gap ++ dn) with ((c :: gap) ++ dn). rewrite E2. by rewrite <- !app_assoc. }
      replace (zlen l + zlen gap) with (zlen (l ++ g2)) by (rewrite zlen_app; lia).
      rewrite aset_app, zlen_app.
      replace (zlen l + zlen g2 - 1) with (zlen l - 1 + zlen g2) by lia.
      rewrite <- !app_assoc. rewrite IH by lia. by rewrite ?app_nil_r.
Qed.

Lemma count_lf_ok out tl i n :
  Forall (λ c, c ≠ 0) out →
  count_lf (out ++ 0 :: tl) i n = Some (i + zlen out, n + linefeeds out).
Proof.
  intros HF. revert i n. induction HF as [|c out Hc _ IH]; intros i n.
  - cbn. rewrite !Z.add_0_r. done.
  - cbn [app count_lf]. rewrite (proj2 (Z.eqb_neq c 0)) by done. rewrite IH.
    change (c :: out) with ([c] ++ out). rewrite linefeeds_app, linefeeds_one, zlen_app.
    change (zlen [c]) with 1. f_equal. destruct (c =? 10); f_equal; lia.
Qed.

Section cons_proofs.
Context {K : Type} `{HL : ConsoleLaws K}.

Definition cons_ok (s : cstate K) : Prop := zlen (readbuf s) = SECT_SIZE.

(** The disks seen through the loader's state. *)
Definition cdisk (s : cstate K) : Z → list Z := con_disk (con s).

(** What a read leaves alone, [printf]'s buffer included. *)
Definition kept (s0 s : cstate K) : Prop :=
  cdisk s = cdisk s0 ∧ pbuf s = pbuf s0 ∧ (con_busy (con s) <= con_busy (con s0))%nat.

Lemma dispatch_Ret {A} (m : M K A) s a k :
  m (con s) = Ret a k → dispatch m s = Ret a (CState k (cons_dev s) (readbuf s) (pbuf s)).
Proof. unfold dispatch. by intros ->. Qed.

(** *** cons_read *)

(** The loop of [cons_read]: how far it has come. *)
Definition read_inv (s0 : cstate K) (dev : Z) (buf : list Z) (count offset : Z)
    (st : Z * Z * Z * Z * list Z) (s : cstate K) : Prop :=
  let '(bytesleft, iocount, blockoffset, lbn, b) := st in
  cons_ok s ∧ kept s0 s ∧
  0 <= bytesleft ∧ 0 <= iocount ∧ iocount + bytesleft = count ∧
  0 <= blockoffset < 512 ∧ (bytesleft > 0 → 512 * lbn + blockoffset = offset + iocount) ∧
  0 <= lbn ∧
  ∃ pre, aslice (cdisk s0 dev) offset iocount = Some pre ∧
         b = pre ++ drop (Z.to_nat iocount) buf.

Lemma cons_read_turn fuel s0 dev buf count offset st s :
  count <= zlen buf → 0 <= offset →
  512 * ((offset + count + 511) / 512) <= zlen (cdisk s0 dev) →
  read_inv s0 dev buf count offset st s →
  (∃ st' s', cons_read_step fuel dev st s = Ret (inl st') s' ∧
     read_inv s0 dev buf count offset st' s' ∧
     (Z.to_nat st'.1.1.1.1 < Z.to_nat st.1.1.1.1)%nat) ∨
  (∃ r s', cons_read_step fuel dev st s = Ret (inr r) s' ∧
     cons_ok s' ∧ kept s0 s' ∧
     ∃ data, aslice (cdisk s0 dev) offset count = Some data ∧
       r = (count, data ++ drop (Z.to_nat count) buf)).
Proof.
  intros Hbuf Hoff Hfit. destruct st as [[[[bytesleft iocount] bo] lbn] b].
  intros (Hok&Hkept&Hbl&Hio&Hsum&Hbo&Hpos&Hlbn&pre&Hpre&->). unfold cons_read_step.
  destruct (Z.ltb_spec 0 bytesleft) as [Hb|Hb].
  2:{ right. eexists _, s. split; [reflexivity|]. split; [done|]. split; [done|].
      exists pre. replace count with iocount by lia. done. }
  left. specialize (Hpos ltac:(lia)). pose proof Hkept as (Hd&Hpb&Hbusy).
  pose proof (aslice_len _ _ _ _ Hpre) as Hzpre.
  assert (512 * lbn + 512 <= zlen (con_disk (con s) dev)) as Hblk.
  { unfold cdisk in Hd, Hfit. rewrite Hd. 
    assert (lbn + 1 <= (offset + count + 511) / 512); [|lia].
    apply Z.div_le_lower_bound; lia. }
  destruct (ccb_read_ok dev 512 lbn (con s) Hlbn ltac:(lia) eq_refl Hblk) as (data&k'&Er&Hdata&Hk'&Hb').
  pose proof (aslice_len _ _ _ _ Hdata) as Hzd. unfold cdisk in Hd. rewrite Hd in Hdata.
  apply (dispatch_Ret _ s) in Er. set (s1 := CState k' _ _ _) in Er.
  assert (kept s0 s1) as Hd1 by (unfold kept, cdisk in *; cbn; split; [congruence|split; [done|lia]]).
  destruct ((bo =? 0) && (SECT_SIZE <=? bytesleft)) eqn:Ecase.
  - apply andb_true_iff in Ecase as [->%Z.eqb_eq Hfull%Z.leb_le]. unfold SECT_SIZE in *.
    rewrite (bind_Ret _ _ _ _ _ Er), asplice_behind by lia. cbn [lift_opt bind ret].
    eexists _, s1. split; [reflexivity|]. split; [|cbn; lia].
    unfold read_inv. split; [done|]. split; [done|]. repeat (split; [lia|]).
    exists (pre ++ data). split; [|by rewrite Hzd].
    eapply aslice_join; [done|]. by replace (offset + iocount) with (512 * lbn) by lia.
  - unfold SECT_SIZE in *. rewrite (bind_Ret _ _ _ _ _ Er).
    set (iosize := if 512 <=? bo + bytesleft then 512 - bo else bytesleft).
    assert (0 < iosize <= bytesleft ∧ bo + iosize <= 512 ∧
      (iosize < bytesleft → bo + iosize = 512)) as (Hi1&Hi2&Hi3).
    { subst iosize. destruct (Z.leb_spec 512 (bo + bytesleft)); lia. }
    destruct (aslice_is_Some data bo iosize) as [piece Hpiece]; [lia..|].
    pose proof (aslice_len _ _ _ _ Hpiece) as Hzp.
    assert (readbuf s = readbuf s1) as Erb by done. unfold cons_ok, SECT_SIZE in Hok.
    cbn [gets bind]. rewrite asplice_0 by (rewrite <- Erb; lia).
    cbn [lift_opt bind ret set_readbuf modify]. change (512 =? 512) with true. cbn [negb].
    rewrite (aslice_app_l _ _ _ _ _ Hpiece). cbn [lift_opt bind ret].
    rewrite asplice_behind by lia. cbn [lift_opt bind ret].
    eexists _, _. split; [reflexivity|]. split; [|cbn; lia].
    unfold read_inv. split.
    { unfold cons_ok. cbn. rewrite zlen_app, zlen_drop. unfold SECT_SIZE. lia. }
    split; [done|]. split; [lia|]. split; [lia|]. split; [lia|]. split; [lia|].
    split; [lia|]. split; [lia|]. exists (pre ++ piece). split; [|by rewrite Hzp].
    eapply aslice_join; [done|]. rewrite <- Hpos by lia. by eapply aslice_aslice.
Qed.

Lemma land_511 x : 0 <= x → Z.land x 511 = x mod 512.
Proof. intros. change 511 with (Z.ones 9). by rewrite Z.land_ones by lia. Qed.

Lemma round_up_512 x : x <= 512 * ((x + 511) / 512).
Proof. pose proof (Z.div_mod (x + 511) 512). pose proof (Z.mod_pos_bound (x + 511) 512). lia. Qed.

Lemma cons_read_ok fuel dev buf count offset s :
  cons_ok s → 0 <= count <= zlen buf → 0 <= offset →
  512 * ((offset + count + 511) / 512) <= zlen (cdisk s dev) →
  ∃ data s', cons_read fuel dev buf count offset s
      = Ret (count, data ++ drop (Z.to_nat count) buf) s' ∧
    aslice (cdisk s dev) offset count = Some data ∧ cons_ok s' ∧ kept s s'.
Proof.
  intros Hok Hc Ho Hfit. unfold cons_read. change (SECT_SIZE - 1) with 511.
  rewrite Z.quot_div_nonneg, Z.rem_mod_nonneg by (unfold SECT_SIZE; lia).
  unfold SECT_SIZE. destruct ((Z.land count 511 =? 0) && (Z.land offset 511 =? 0)) eqn:Ecase.
  - apply andb_true_iff in Ecase as [Ec%Z.eqb_eq Eo%Z.eqb_eq]. rewrite land_511 in Eo by lia.
    assert (offset = 512 * (offset / 512)) as Eoff by (apply Z.div_exact; lia).
    destruct (ccb_read_ok dev count (offset / 512) (con s)) as (data&k'&Er&Hdata&Hk'&Hb'); try lia; [|].
    { pose proof (round_up_512 (offset + count)). unfold cdisk in *. lia. }
    apply (dispatch_Ret _ s) in Er. rewrite (bind_Ret _ _ _ _ _ Er).
    pose proof (aslice_len _ _ _ _ Hdata). rewrite asplice_0 by lia. cbn [lift_opt bind ret].
    eexists data, _. split; [repeat f_equal; lia|]. split; [by rewrite Eoff|]. done.
  - set (Q := λ r s', cons_ok s' ∧ kept s s' ∧
       ∃ data, aslice (cdisk s dev) offset count = Some data ∧
         r = (count, data ++ drop (Z.to_nat count) buf)).
    match goal with |- ∃ d s', ?m s = _ ∧ _ =>
      assert (∃ r s', m s = Ret r s' ∧ Q r s') as (r&s'&E&Hok'&Hd'&data&Hdata&->) end;
      [apply loop_total with (I := read_inv s dev buf count offset)
         (meas := λ st _, Z.to_nat st.1.1.1.1)|by exists data, s'].
    + intros st s1 HI.
      apply (cons_read_turn fuel s dev buf count offset st s1); lia || done.
    + unfold read_inv. split; [done|]. split; [done|]. repeat (split; [lia|]).
      split; [apply Z.mod_pos_bound; lia|].
      split; [intros _; rewrite Z.add_0_r, <- Z.div_mod by lia; done|].
      split; [apply Z.div_pos; lia|]. exists []. split; [|done].
      apply aslice_Some. repeat split; [lia..|].
      pose proof (round_up_512 (offset + count)). lia.
    + cbn [fst]. lia.
Qed.

(** *** cons_puts *)

(** What [cons_puts] does to the console besides showing its string. *)
Definition shown_more (s s' : cstate K) (l : list Z) : Prop :=
  con_shown (con s') = con_shown (con s) ++ l ∧ cdisk s' = cdisk s ∧
  con_typed (con s') = con_typed (con s) ∧ (con_busy (con s') <= con_busy (con s))%nat ∧
  cons_dev s' = cons_dev s ∧ readbuf s' = readbuf s ∧ pbuf s' = pbuf s.

Lemma take_aslice_split (str : list Z) p r chars w :
  aslice str p r = Some chars → 0 <= w <= r →
  ∃ rest, aslice str p w = Some (take (Z.to_nat w) chars) ∧
          aslice str (p + w) (r - w) = Some rest ∧ chars = take (Z.to_nat w) chars ++ rest.
Proof.
  intros (?&?&?&->)%aslice_Some Hw.
  exists (take (Z.to_nat (r - w)) (drop (Z.to_nat (p + w)) str)).
  split; [|split].
  - apply aslice_Some. repeat split; try lia. rewrite take_take. f_equal. lia.
  - apply aslice_Some. repeat split; lia.
  - rewrite take_take, Nat.min_l by lia. rewrite Z2Nat.inj_add by lia. rewrite <- drop_drop.
    set (d := drop (Z.to_nat p) str). rewrite Z2Nat.inj_sub by lia.
    rewrite <- (take_drop (Z.to_nat w) (take (Z.to_nat r) d)) at 1.
    rewrite take_take, Nat.min_l by lia. f_equal. by rewrite skipn_firstn_comm.
Qed.

Lemma cons_puts_ok fuel str len chars s :
  aslice str 0 len = Some chars → len < 2 ^ 31 →
  (Z.to_nat len + con_busy (con s) < fuel)%nat →
  ∃ s', cons_puts fuel str len s = Ret len s' ∧ shown_more s s' chars.
Proof.
  intros Hs Hlen Hf. unfold cons_puts.
  set (body := λ '(p, remaining), _).
  assert (∃ u s', loop fuel body (0, len) s = Ret u s' ∧ shown_more s s' chars) as (u&s'&E&Hs');
    [apply loop_total with (meas := λ '(p, r) s1, (Z.to_nat r + con_busy (con s1))%nat)
    (I := λ '(p, r) s1, p + r = len ∧ 0 <= p ∧ 0 <= r ∧
       ∃ done rest, chars = done ++ rest ∧ aslice str p r = Some rest ∧ shown_more s s1 done)
    |rewrite (bind_Ret _ _ _ _ _ E); by exists s'].
  - intros [p r] s1 (Hpr&Hp&Hr&dn&rest&Hch&Hrest&Hsh). cbn [body].
    destruct (Z.eqb_spec r 0) as [->|Hr0].
    { right. eexists tt, s1. split; [done|]. apply aslice_len in Hrest.
      apply zlen_nil_inv in Hrest as ->. by rewrite Hch, app_nil_r. }
    left. cbn [gets bind]. rewrite Hrest. cbn [lift_opt bind ret].
    pose proof (aslice_len _ _ _ _ Hrest) as Hz.
    destruct (ccb_puts_ok (cons_dev s1) rest (con s1) ltac:(lia)) as (sts&k'&E&Hd&Ht&Hcase).
    apply (dispatch_Ret _ s1) in E. rewrite (bind_Ret _ _ _ _ _ E).
    destruct Hsh as (Hsh&Hdk&Hty&Hbu&Hdv&Hrb&Hpb).
    destruct Hcase as [(Herr&Hw&Hsh'&Hb')|(Herr&Hv1&Hsh'&Hb')]; rewrite Herr; cbn [negb].
    + eexists (_, _), _. split; [done|]. split; [|cbn [con]; lia].
      destruct (take_aslice_split _ _ _ _ (sts_written sts) Hrest) as (rest'&H1&H2&H3); [lia|].
      repeat (split; [lia|]). exists (dn ++ take (Z.to_nat (sts_written sts)) rest), rest'.
      split; [by rewrite <- app_assoc, <- H3|]. split; [done|].
      unfold shown_more, cdisk in *. cbn [con cons_dev readbuf pbuf].
      rewrite Hsh', Hsh, app_assoc. repeat split; congruence || lia.
    + rewrite Hv1. eexists (_, _), _. split; [done|]. split; [|cbn [con]; lia].
      repeat (split; [lia|]). exists dn, rest. split; [done|]. split; [done|].
      unfold shown_more, cdisk in *. cbn [con cons_dev readbuf pbuf].
      rewrite Hsh'. repeat split; congruence || lia.
  - cbn. pose proof (aslice_Some str 0 len chars) as [HH _]. destruct (HH Hs) as (?&?&?&_).
    repeat (split; [lia|]). exists [], chars. split; [done|]. split; [done|].
    unfold shown_more. rewrite app_nil_r. repeat split; lia || done.
  - exact Hf.
Qed.

(** *** printf and cons_getchar *)

(** All of [shown_more] but the buffer of [printf]. *)
Definition shown (s s' : cstate K) (l : list Z) : Prop :=
  con_shown (con s') = con_shown (con s) ++ l ∧ cdisk s' = cdisk s ∧
  con_typed (con s') = con_typed (con s) ∧ (con_busy (con s') <= con_busy (con s))%nat ∧
  cons_dev s' = cons_dev s ∧ readbuf s' = readbuf s ∧ zlen (pbuf s') = zlen (pbuf s).

Lemma printf_fits fuel fmt args out s :
  sprintf fmt args = Ret (zlen out, out) [] → Forall (λ c, c ≠ 0) out →
  zlen (lf_cr out) < zlen (pbuf s) < 2 ^ 31 →
  (length (lf_cr out) + con_busy (con s) < fuel)%nat →
  ∃ s', printf fuel fmt args s = Ret (zlen (lf_cr out)) s' ∧ shown s s' (lf_cr out).
Proof.
  intros E Hnz Hlen Hf. rewrite zlen_lf_cr in Hlen. unfold printf. rewrite E.
  cbn [gets bind]. pose proof (zlen_nonneg out).
  pose proof (zlen_nonneg (filter (λ c, c = 10) out)) as Hlf. fold (linefeeds out) in Hlf.
  assert (zlen (out ++ [0]) = zlen out + 1) as Hz1 by (rewrite zlen_app; done).
  rewrite asplice_0 by lia. cbn [lift_opt bind ret]. rewrite <- app_assoc. cbn [app].
  rewrite count_lf_ok by done. cbn [lift_opt bind ret]. rewrite !Z.add_0_l.
  set (tl := drop (Z.to_nat (zlen (out ++ [0]))) (pbuf s)).
  assert (zlen tl = zlen (pbuf s) - (zlen out + 1)) as Htl by (subst tl; rewrite zlen_drop; lia).
  set (m := if negb (linefeeds out =? 0) then _ else _).
  assert (∃ tl', m = lift_opt (Some (lf_cr out ++ 0 :: tl')) ∧
    zlen (lf_cr out ++ 0 :: tl') = zlen (pbuf s)) as (tl'&->&Htl').
  { subst m. destruct (Z.eqb_spec (linefeeds out) 0) as [E0|E0]; cbn [negb].
    - exists tl. rewrite linefeeds_none by done. split; [done|]. rewrite zlen_app, zlen_cons. lia.
    - set (g := take (Z.to_nat (linefeeds out)) tl). set (d := drop (Z.to_nat (linefeeds out)) tl).
      assert (zlen g = linefeeds out) as Hg by (subst g; rewrite zlen_take; lia).
      assert (zlen d = zlen tl - linefeeds out) as Hd by (subst d; rewrite zlen_drop; lia).
      pose proof (expand_lf_ok (out ++ [0]) g d) as EX.
      rewrite linefeeds_app in EX. change (linefeeds [0]) with 0 in EX. rewrite Hz1 in EX.
      rewrite length_app in EX. specialize (EX ltac:(lia)).
      exists d. rewrite lf_cr_app in EX. change (lf_cr [0]) with [0] in EX.
      rewrite <- !app_assoc in EX. cbn [app] in EX.
      change (length [0]) with 1%nat in EX.
      replace (length out + 1)%nat with (Z.to_nat (zlen out + 1)) in EX
        by (unfold zlen; cbn; lia).
      replace (zlen out + 1 - 1) with (zlen out) in EX by lia. rewrite Hg in EX.
      replace (g ++ d) with tl in EX by (symmetry; apply take_drop). rewrite EX.
      split; [done|]. rewrite zlen_app, zlen_lf_cr, zlen_cons. lia. }
  cbn [lift_opt bind ret set_pbuf modify].
  set (s1 := CState _ _ _ _).
  destruct (cons_puts_ok fuel (lf_cr out ++ 0 :: tl') (zlen out + linefeeds out) (lf_cr out) s1)
    as (s'&E'&(H1&H2&H3&H4&H5&H6&H7)).
  - exact (aslice_app_mid [] (lf_cr out) (0 :: tl') 0 _ eq_refl (eq_sym (zlen_lf_cr out))).
  - lia.
  - rewrite <- zlen_lf_cr. unfold zlen at 1. rewrite Nat2Z.id. exact Hf.
  - exists s'. rewrite zlen_lf_cr. split; [exact E'|].
    unfold shown. subst s1. cbn [con cons_dev readbuf pbuf] in *. rewrite H7.
    repeat split; done || congruence.
Qed.

Lemma printf_overflows fuel fmt args out s :
  sprintf fmt args = Ret (zlen out, out) [] → Forall (λ c, c ≠ 0) out →
  zlen (pbuf s) <= zlen (lf_cr out) → printf fuel fmt args s = Trap.
Proof.
  intros E Hnz Hlen. rewrite zlen_lf_cr in Hlen. unfold printf. rewrite E. cbn [gets bind].
  assert (zlen (out ++ [0]) = zlen out + 1) as Hz1 by (rewrite zlen_app; done).
  pose proof (zlen_nonneg out).
  destruct (decide (zlen out + 1 <= zlen (pbuf s))).
  2:{ unfold asplice. by rewrite decide_False by lia. }
  rewrite asplice_0 by lia. cbn [lift_opt bind ret]. rewrite <- app_assoc. cbn [app].
  rewrite count_lf_ok by done. cbn [lift_opt bind ret]. rewrite !Z.add_0_l.
  rewrite (proj2 (Z.eqb_neq (linefeeds out) 0)) by lia. cbn [negb].
  replace (Z.to_nat (zlen out + 1)) with (S (length out)) by (unfold zlen; lia).
  cbn [expand_lf]. rewrite aget_app. change (0 =? 10) with false. cbv iota. rewrite aget_app.
  unfold aset at 1. rewrite decide_False; [done|].
  rewrite zlen_app, zlen_cons, zlen_drop. lia.
Qed.

Lemma cons_getchar_ok fuel c rest s :
  con_typed (con s) = c :: rest → 0 <= c < 2 ^ 31 → (con_busy (con s) < fuel)%nat →
  ∃ s', cons_getchar fuel s = Ret c s' ∧ con_typed (con s') = rest ∧
    con_shown (con s') = con_shown (con s) ∧ (con_busy (con s') <= con_busy (con s))%nat ∧
    cdisk s' = cdisk s ∧ cons_dev s' = cons_dev s ∧ readbuf s' = readbuf s ∧ pbuf s' = pbuf s.
Proof.
  intros Ht Hc. revert s Ht. unfold cons_getchar.
  induction fuel as [|fuel IH]; intros s Ht Hf; [lia|].
  destruct (ccb_getc_ok (cons_dev s) (con s) c rest Ht) as (r&k'&E&Hd&Hs&Hcase).
  apply (dispatch_Ret _ s) in E.
  destruct Hcase as [(->&Ht'&Hb)|(Hr&Ht'&Hb)].
  - set (s1 := CState k' (cons_dev s) (readbuf s) (pbuf s)) in *.
    exists s1. rewrite (loop_exit _ _ _ _ c s1); [split; [done|]|].
    2:{ cbn [gets bind]. rewrite (bind_Ret _ _ _ _ _ E).
        rewrite (proj2 (Z.ltb_ge c 0)), (swrap_small 32) by lia. done. }
    unfold cdisk. subst s1. cbn. by repeat split.
  - destruct (IH (CState k' (cons_dev s) (readbuf s) (pbuf s))) as (s'&E'&H1&H2&H3&H4&H5&H6&H7);
      [cbn; congruence|cbn; lia|].
    exists s'. rewrite (loop_step _ _ _ _ tt (CState k' (cons_dev s) (readbuf s) (pbuf s))).
    2:{ cbn [gets bind]. rewrite (bind_Ret _ _ _ _ _ E). by rewrite (proj2 (Z.ltb_lt r 0)). }
    split; [exact E'|]. unfold cdisk in *. cbn [con cons_dev readbuf pbuf] in *.
    repeat split; done || lia || congruence.
Qed.
End cons_proofs.

(** ** The implementation of the interface *)

(** The static buffers have their size, and [fuel] is enough for a message. *)
Definition cons_ready {K} `{ConsoleLaws K} (fuel : nat) (s : cstate K) : Prop :=
  cons_ok s ∧ zlen (pbuf s) = 1024 ∧ (1024 + con_busy (con s) < fuel)%nat.

#[export] Instance cons_io {K} `{Console K} (fuel : nat) : ConsIO (cstate K) := {|
  io_read := cons_read fuel;
  io_printf := printf fuel
|}.

#[export] Program Instance cons_io_laws {K} `{HL : ConsoleLaws K} (fuel : nat) :
  @ConsIOLaws (cstate K) (cons_io fuel) := {|
  io_ok := cons_ready fuel;
  io_disk := cdisk
|}.
Next Obligation.
  intros K H HL fuel dev buf count offset k (Hok&Hpb&Hf) Hc Ho Hfit.
  destruct (cons_read_ok fuel dev buf count offset k) as (data&s'&E&?&?&Hd&Epb&Hb); [done..|].
  exists data, s'. unfold cons_ready. rewrite Epb. repeat (split; [done|]). split; [|done].
  split; [done|]. split; [done|lia].
Qed.

#[export] Program Instance cons_io_out {K} `{HL : ConsoleLaws K} (fuel : nat) :
  @ConsOut (cstate K) (cons_io fuel) (cons_io_laws fuel) := {|
  printable fmt args := ∃ out, sprintf fmt args = Ret (zlen out, out) [] ∧ Forall (λ c, c ≠ 0) out ∧
    zlen (lf_cr out) < 1024
|}.
Next Obligation.
  intros K H HL fuel fmt args k (Hok&Hpb&Hf) (out&E&Hnz&Hlen).
  destruct (printf_fits fuel fmt args out k E Hnz) as (s'&E'&_&Hd&_&Hb&_&Hrb&Hp); [lia|unfold zlen in *; lia|].
  exists (zlen (lf_cr out)), s'. split; [done|]. split; [|done].
  split; [unfold cons_ok; by rewrite Hrb|]. split; [by rewrite Hp|lia].
Qed.

(** A message that [printf] can show, tried out. *)
Definition printable_check (fmt : string) (args : list arg) : bool :=
  match sprintf fmt args with
  | Ret (len, out) [] =>
      (len =? zlen out) && bool_decide (Forall (λ c, c ≠ 0) out) && (zlen (lf_cr out) <? 1024)
  | _ => false
  end.

Lemma printable_checked {K} `{HL : ConsoleLaws K} fuel fmt args :
  printable_check fmt args = true → printable (ConsOut := cons_io_out (K := K) fuel) fmt args.
Proof.
  unfold printable_check. intros E. cbn [printable cons_io_out].
  destruct (sprintf _ _) as [[len out] [|]| | |]; try done.
  apply andb_true_iff in E as [E E2%Z.ltb_lt].
  apply andb_true_iff in E as [->%Z.eqb_eq E1%bool_decide_eq_true]. by exists out.
Qed.

(** ** A firmware

    One console that keeps the promises: it shows at most three characters a
    call, and asks to be called again as often as [rc_busy] says. *)
Record refcon := RefCon {
  rc_shown : list Z;
  rc_typed : list Z;
  rc_busy : nat;
  rc_disk : Z → list Z;
  rc_env : Z → option (list Z)
}.

Definition rc_wait (r : refcon) : refcon :=
  RefCon (rc_shown r) (rc_typed r) (pred (rc_busy r)) (rc_disk r) (rc_env r).

#[export] Instance refcon_console : Console refcon := {|
  ccb_puts := λ _ s r,
    match rc_busy r with
    | S _ => Ret (2 ^ 63) (rc_wait r)
    | O => let n := Z.min 3 (zlen s) in
           Ret n (RefCon (rc_shown r ++ take (Z.to_nat n) s) (rc_typed r) 0 (rc_disk r) (rc_env r))
    end;
  ccb_getc := λ _ r,
    match rc_busy r, rc_typed r with
    | S _, _ => Ret (-1) (rc_wait r)
    | O, c :: rest => Ret c (RefCon (rc_shown r) rest 0 (rc_disk r) (rc_env r))
    | O, [] => Ret (-1) r
    end;
  ccb_get_env := λ i n r,
    match rc_env r i with
    | Some v => Ret (Z.min n (zlen v), take (Z.to_nat n) v) r
    | None => Ret (-1, []) r
    end;
  ccb_open := λ _ r, Ret 1 r;
  ccb_close := λ _ r, Ret 0 r;
  ccb_read := λ dev n lbn r,
    match aslice (rc_disk r dev) (512 * lbn) n with
    | Some data => Ret (n, data) r
    | None => Ret (- 2 ^ 63, []) r
    end;
  ccb_open_console := Ret 0;
  ccb_close_console := Ret 0;
  ENV_TTY_DEV := 0;
  ENV_BOOTED_DEV := 1;
  ENV_BOOTED_FILE := 2;
  ENV_BOOTED_OSFLAGS := 3
|}.

#[export] Program Instance refcon_laws : ConsoleLaws refcon := {|
  con_shown := rc_shown;
  con_typed := rc_typed;
  con_busy := rc_busy;
  con_disk := rc_disk
|}.
Next Obligation.
  intros dev s [sh ty b d e] Hs. cbn. destruct b as [|b].
  - eexists _, _. split; [done|]. split; [done|]. split; [done|]. left. cbn [rc_shown rc_busy].
    assert (Z.min 3 (zlen s) = 1 ∨ Z.min 3 (zlen s) = 2 ∨ Z.min 3 (zlen s) = 3) as Hm by lia.
    destruct Hm as [E|[E|E]]; rewrite E;
      match goal with |- context [sts_written ?n] => change (sts_written n) with n end;
      (split; [done|]; split; [lia|]; split; [done|lia]).
  - eexists _, _. split; [done|]. split; [done|]. split; [done|]. right. cbn. repeat split; lia.
Qed.
Next Obligation.
  intros dev [sh ty b d e] c rest Hty. cbn in *. subst ty. destruct b as [|b].
  - eexists _, _. split; [done|]. split; [done|]. split; [done|]. left. cbn. auto.
  - eexists _, _. split; [done|]. split; [done|]. split; [done|]. right. cbn. repeat split; lia.
Qed.
Next Obligation.
  intros dev n lbn r Hl Hn _ Hfit. cbn.
  destruct (aslice_is_Some (rc_disk r dev) (512 * lbn) n) as [data E]; [lia..|].
  rewrite E. eexists _, _. done.
Qed.

Definition example_con (busy : nat) (typed : list Z) : cstate refcon :=
  CState (RefCon [] typed busy (λ d, if d =? 1 then concat (replicate 8 (seqZ 0 256)) else []) (λ _, None))
    0 (replicate 512 0) (replicate 1024 0).

(** *** Properties of the console *)

(** C31: [cons_read] reads any range of a device: whatever the alignment of the
    offset and the count, if the sectors that hold the range are on the device
    it returns [count], the first [count] bytes of the buffer are those at the
    offset, and the rest of the buffer is as it was. *)
Theorem cons_read_any_range {K} `{HL : ConsoleLaws K} fuel dev buf count offset (s : cstate K) :
  cons_ok s → 0 <= count <= zlen buf → 0 <= offset →
  512 * ((offset + count + 511) / 512) <= zlen (cdisk s dev) →
  ∃ data s', cons_read fuel dev buf count offset s
      = Ret (count, data ++ drop (Z.to_nat count) buf) s' ∧
    aslice (cdisk s dev) offset count = Some data ∧ cdisk s' = cdisk s.
Proof.
  intros. destruct (cons_read_ok fuel dev buf count offset s) as (data&s'&?&?&?&?&_); [done..|].
  by exists data, s'.
Qed.

Lemma cons_read_any_range_witness :
  ∃ data s', cons_read 9 1 (replicate 600 77) 530 250 (example_con 2 [])
      = Ret (530, data ++ drop 530 (replicate 600 77)) s' ∧
    aslice (cdisk (example_con 2 []) 1) 250 530 = Some data ∧
    cdisk s' = cdisk (example_con 2 []).
Proof.
  apply (cons_read_any_range 9 1 (replicate 600 77) 530 250 (example_con 2 [])).
  - reflexivity.
  - vm_compute. split; discriminate.
  - lia.
  - vm_compute. discriminate.
Defined.

(** C32: [cons_puts] shows the whole string, in order and once, however the
    firmware splits the writes and however often it fails softly: the loop ends
    once every character is out and every busy answer has been taken. *)
Theorem cons_puts_shows {K} `{HL : ConsoleLaws K} fuel str (s : cstate K) :
  zlen str < 2 ^ 31 → (length str + con_busy (con s) < fuel)%nat →
  ∃ s', cons_puts fuel str (zlen str) s = Ret (zlen str) s' ∧
    con_shown (con s') = con_shown (con s) ++ str ∧ cdisk s' = cdisk s.
Proof.
  intros Hlen Hf. destruct (cons_puts_ok fuel str (zlen str) str s) as (s'&E&Hs).
  - apply aslice_all.
  - done.
  - unfold zlen. by rewrite Nat2Z.id.
  - exists s'. unfold shown_more in Hs. tauto.
Qed.

Lemma cons_puts_shows_witness :
  ∃ s', cons_puts 30 (str "aboot> ") (zlen (str "aboot> ")) (example_con 5 []) = Ret 7 s' ∧
    con_shown (con s') = con_shown (con (example_con 5 [])) ++ str "aboot> " ∧
    cdisk s' = cdisk (example_con 5 []).
Proof.
  apply (cons_puts_shows 30 (str "aboot> ") (example_con 5 [])); vm_compute; [done|lia].
Defined.

(** C33: [printf] shows the formatted text with each linefeed followed by a
    carriage return - linefeed first, where the comment on the loop says
    "carriage-return/linefeed" - and returns the length of what is shown, when
    the text, the added characters and the terminator fit its buffer of 1024
    bytes; when they do not it writes outside the buffer. *)
Theorem printf_line_ends {K} `{HL : ConsoleLaws K} fuel fmt args out (s : cstate K) :
  sprintf fmt args = Ret (zlen out, out) [] → Forall (λ c, c ≠ 0) out → zlen (pbuf s) = 1024 →
  (1024 + con_busy (con s) < fuel)%nat →
  if decide (zlen (lf_cr out) < 1024) then
    ∃ s', printf fuel fmt args s = Ret (zlen (lf_cr out)) s' ∧
      con_shown (con s') = con_shown (con s) ++ lf_cr out
  else printf fuel fmt args s = Trap.
Proof.
  intros E Hnz Hb Hf. case_decide as Hd.
  - destruct (printf_fits fuel fmt args out s E Hnz) as (s'&E'&Hs).
    + lia.
    + unfold zlen in Hd. lia.
    + exists s'. unfold shown in Hs. tauto.
  - apply (printf_overflows _ _ _ _ _ E Hnz). lia.
Qed.

Lemma printf_line_ends_witness :
  if decide (zlen (lf_cr (str "v 7" ++ [10])) < 1024) then
    ∃ s', printf 2000 ("v %d" ++ nl) [AInt 7] (example_con 3 [])
      = Ret (zlen (lf_cr (str "v 7" ++ [10]))) s' ∧
      con_shown (con s') = con_shown (con (example_con 3 [])) ++ lf_cr (str "v 7" ++ [10])
  else printf 2000 ("v %d" ++ nl) [AInt 7] (example_con 3 []) = Trap.
Proof.
  apply (printf_line_ends 2000 ("v %d" ++ nl) [AInt 7] (str "v 7" ++ [10]) (example_con 3 [])).
  - vm_compute. reflexivity.
  - repeat constructor; vm_compute; discriminate.
  - vm_compute. reflexivity.
  - apply Nat.ltb_lt. vm_compute. reflexivity.
Defined.
