(* ===== verification/Utils.v ===== *)
(** * utils.c: memory descriptors, the bump allocator, line input

    [printf] of utils.c is in Cons.v.  The state is what these functions share:
    the console behind its interface, the memory clusters of the HWRPB, and the
    allocator's pointer. *)

From Stdlib Require Import Ascii String.
From S2P Require Import Prelude CString Vsprintf Cons.

Open Scope Z_scope.
Open Scope list_scope.

Definition EBUSY : Z := 16.
Definition ENOMEM : Z := 12.
Definition PAGE_SHIFT : Z := 13.

(** The fields of [struct memclust_struct] that are read. *)
Record cluster := Cluster {
  start_pfn : Z;
  numpages : Z;
  usage : Z
}.

(** ** check_memory and memory_end *)

Definition to_phys (start : Z) : Z :=
  if Z.shiftr (s64 start) 41 =? -2
  then u64 (Z.shiftr (s64 (Z.shiftl start (64 - 41))) (64 - 41))
  else start.

(* the loop over the clusters, with the range still to be found *)
Fixpoint check_clusters (l : list cluster) (s_pfn e_pfn : Z) : Z :=
  match l with
  | [] => - ENOMEM
  | c :: l =>
      let c_end := u64 (start_pfn c + numpages c) in
      if (e_pfn <? start_pfn c) || (c_end <=? s_pfn) then check_clusters l s_pfn e_pfn
      else if negb (Z.land (usage c) 3 =? 0) then - EBUSY
      else
        let e_pfn := if start_pfn c <=? e_pfn then u64 (start_pfn c - 1) else e_pfn in
        let s_pfn := if s_pfn <? c_end then c_end else s_pfn in
        if e_pfn <? s_pfn then 0 else check_clusters l s_pfn e_pfn
  end.

Definition check_memory (clusters : list cluster) (start size : Z) : Z :=
  let phys_start := to_phys start in
  check_clusters clusters (Z.shiftr phys_start PAGE_SHIFT)
    (Z.shiftr (u64 (phys_start + size - 1)) PAGE_SHIFT).

Definition page_offset : Z := 0xfffffc0000000000.
Definition page_shift : Z := 13.

Fixpoint highest (l : list cluster) (high : Z) : Z :=
  match l with
  | [] => high
  | c :: l =>
      if negb (usage c =? 0) then highest l high
      else
        let tmp := u64 (Z.shiftl (u64 (start_pfn c + numpages c)) page_shift) in
        highest l (if high <? tmp then tmp else high)
  end.

Definition memory_end (clusters : list cluster) : Z :=
  u64 (page_offset + highest clusters 0).

(** [find_pa]: the page frame of a virtual address, from the virtual page
    table ([vptb], indexed by page). *)
Definition find_pa (vptb : Z → Z) (address : Z) : Z :=
  let result := vptb (Z.shiftr address 13) in
  let result := Z.shiftr result 32 in
  let result := u64 (Z.shiftl result 13) in
  Z.lor result (Z.land address 0x1fff).

(** The checksum [pal_init] stores in the HWRPB: the words before it. *)
Definition hwrpb_sum (words : list Z) : Z := fold_left (λ sum l, u64 (sum + l)) words 0.

(** ** State and operations *)

Record ustate (K : Type) := UState {
  u_con : K;
  clusters : list cluster;    (* INIT_HWRPB's memory descriptor table *)
  pagesize : Z;               (* INIT_HWRPB->pagesize *)
  free_mem_ptr : Z;
  dest_addr : Z
}.
Arguments UState {K} u_con clusters pagesize free_mem_ptr dest_addr.
Arguments u_con {K} u.
Arguments clusters {K} u.
Arguments pagesize {K} u.
Arguments free_mem_ptr {K} u.
Arguments dest_addr {K} u.

Section utils.
Context {K : Type}.

Definition on_con {A} (m : M K A) : M (ustate K) A := λ s,
  match m (u_con s) with
  | Ret a k => Ret a (UState k (clusters s) (pagesize s) (free_mem_ptr s) (dest_addr s))
  | Jump e k => Jump e (UState k (clusters s) (pagesize s) (free_mem_ptr s) (dest_addr s))
  | Trap => Trap
  | Diverge => Diverge
  end.

Definition set_free_mem_ptr (p : Z) : M (ustate K) unit :=
  modify (λ s, UState (u_con s) (clusters s) (pagesize s) p (dest_addr s)).

(* prints, then leaves through jump_buffer *)
Definition error {A} `{ConsIO K} (x : string) : M (ustate K) A :=
  on_con (io_printf ("%s" ++ nl) [AStr (Some (str x))]) ;;;
  longjmp x.

Definition unzip_error {A} `{ConsIO K} (x : string) : M (ustate K) A :=
  on_con (io_printf (nl ++ "unzip: ") []) ;;;
  error x.

Definition malloc `{ConsIO K} (size : Z) : M (ustate K) Z :=
  let! p := gets free_mem_ptr in
  (if p =? 0 then let! cl := gets clusters in set_free_mem_ptr (memory_end cl) else ret tt) ;;;
  let! p := gets free_mem_ptr in
  let p := Z.land (u64 (p - size)) (Z.lnot 7) in
  set_free_mem_ptr p ;;;
  let! dest := gets dest_addr in
  let! psz := gets pagesize in
  (if p <=? u64 (dest + psz) then error (nl ++ "out of memory") else ret tt) ;;;
  ret p.

(* free does nothing *)
Definition free (where_ : Z) : M (ustate K) unit := ret tt.
End utils.

(** ** getline *)

Section getline.
Context {K : Type} `{Console K}.

Definition getline_step (fuel : nat) (maxlen : Z) :
    list Z * Z → M (cstate K) (list Z * Z + list Z * Z) :=
  λ '(buf, len),
    let! c := cons_getchar fuel in
    let c := s8 c in
    let! ' (buf, len) :=
      (if (c =? 0) || (c =? 10) || (c =? 13) then ret (buf, len)
       else if (c =? 8) || (c =? 127) then
         if 0 <? len then
           cons_putchar fuel 8 ;;;
           cons_putchar fuel 32 ;;;
           cons_putchar fuel 8 ;;;
           ret (buf, len - 1)
         else ret (buf, len)
       else if (len <? maxlen - 1) && (32 <=? c) then
         let! buf := lift_opt (aset buf len c) in
         cons_putchar fuel c ;;;
         ret (buf, len + 1)
       else ret (buf, len)) in
    ret (if negb (c =? 13) && negb (c =? 10) then inl (buf, len) else inr (buf, len)).

(** [turns] bounds the keys of the line; the result is [buf] afterwards. *)
Definition getline (turns fuel : nat) (buf : list Z) (maxlen : Z) : M (cstate K) (list Z) :=
  let! ' (buf, len) := loop turns (getline_step fuel maxlen) (buf, 0) in
  lift_opt (aset buf len 0).
End getline.

(** ** Lemmas *)

Definition overlaps (s e : Z) (c : cluster) : Prop :=
  start_pfn c <= e ∧ s < start_pfn c + numpages c.

#[export] Instance overlaps_dec s e c : Decision (overlaps s e c).
Proof. unfold overlaps. apply _. Defined.

(** A cluster as the firmware describes one: inside the address space, not
    empty, not at the first page. *)
Definition cluster_ok (c : cluster) : Prop :=
  0 < start_pfn c ∧ 0 < numpages c ∧ start_pfn c + numpages c < 2 ^ 51.

Lemma check_clusters_first l s e :
  Forall cluster_ok l →
  check_clusters l s e =
    match list_find (overlaps s e) l with
    | None => - ENOMEM
    | Some (_, c) => if Z.land (usage c) 3 =? 0 then 0 else - EBUSY
    end.
Proof.
  induction 1 as [|c l (H0&Hn&Hm) _ IH]; [done|]. cbn [check_clusters list_find].
  rewrite (wrap_small 64 (start_pfn c + numpages c)) by lia.
  destruct (Z.ltb_spec e (start_pfn c)) as [He|He]; cbn [orb].
  { rewrite decide_False by (unfold overlaps; lia). rewrite IH.
    by destruct (list_find _ l) as [[i c']|]. }
  destruct (Z.leb_spec (start_pfn c + numpages c) s) as [Hs|Hs].
  { rewrite decide_False by (unfold overlaps; lia). rewrite IH.
    by destruct (list_find _ l) as [[i c']|]. }
  rewrite decide_True by (unfold overlaps; lia).
  destruct (Z.land (usage c) 3 =? 0); cbn [negb]; [|done].
  rewrite (proj2 (Z.leb_le _ _) He), (proj2 (Z.ltb_lt _ _) Hs).
  rewrite (wrap_small 64) by lia. by rewrite (proj2 (Z.ltb_lt _ _)) by lia.
Qed.

Lemma highest_spec l high :
  Forall (λ c, 0 <= start_pfn c ∧ 0 <= numpages c ∧ start_pfn c + numpages c < 2 ^ 51) l →
  0 <= high →
  high <= highest l high ∧
  Forall (λ c, usage c = 0 → (start_pfn c + numpages c) * 8192 <= highest l high) l ∧
  (highest l high = high ∨
   Exists (λ c, usage c = 0 ∧ highest l high = (start_pfn c + numpages c) * 8192) l).
Proof.
  intros HF. revert high. induction HF as [|c l (Hs&Hn&Hm) _ IH]; intros high Hh.
  { cbn. split; [lia|]. auto. }
  cbn [highest]. destruct (Z.eqb_spec (usage c) 0) as [Hu|Hu]; cbn [negb].
  - rewrite (wrap_small 64 (start_pfn c + numpages c)) by lia.
    unfold page_shift. rewrite Z.shiftl_mul_pow2 by lia. change (2 ^ 13) with 8192.
    rewrite (wrap_small 64) by lia.
    set (t := (start_pfn c + numpages c) * 8192) in *.
    set (h := if high <? t then t else high).
    assert (high <= h ∧ t <= h ∧ (h = high ∨ h = t)) as (H1&H2&H3)
      by (subst h; destruct (Z.ltb_spec high t); lia).
    destruct (IH h) as (IH1&IH2&IH3); [lia|]. split; [lia|]. split.
    + constructor; [intros _; lia|done].
    + destruct IH3 as [->|IH3]; [|right; by right].
      destruct H3 as [->| ->]; [by left|]. right. by left.
  - destruct (IH high Hh) as (IH1&IH2&IH3). split; [done|]. split.
    + by constructor.
    + destruct IH3; [by left|right; by right].
Qed.

Lemma land_lnot7 x : 0 <= x → Z.land x (Z.lnot 7) = x - x mod 8.
Proof.
  intros Hx. rewrite <- (Z.ldiff_land x 7). change 7 with (Z.ones 3).
  rewrite Z.ldiff_ones_r by lia. rewrite Z.shiftl_mul_pow2, Z.shiftr_div_pow2 by lia.
  change (2 ^ 3) with 8. pose proof (Z.div_mod x 8). lia.
Qed.

(** *** The allocator *)

Section malloc_proofs.
Context {K : Type} `{ConsIO K}.

Lemma error_no_return {A} x (s : ustate K) a s' : error (A := A) x s ≠ Ret a s'.
Proof.
  unfold error, bind. destruct (on_con _ s) as [r s1| | |]; done.
Qed.

(** Where the next allocation starts from. *)
Definition heap_top (s : ustate K) : Z :=
  if free_mem_ptr s =? 0 then memory_end (clusters s) else free_mem_ptr s.

Lemma malloc_inv size s p s' :
  malloc size s = Ret p s' → 0 <= size → size <= heap_top s < 2 ^ 64 →
  p mod 8 = 0 ∧ p + size <= heap_top s ∧ heap_top s - size - 7 <= p ∧
  u64 (dest_addr s + pagesize s) < p ∧
  s' = UState (u_con s) (clusters s) (pagesize s) p (dest_addr s).
Proof.
  intros E Hs0 Hs. unfold malloc in E. cbn [gets bind] in E. unfold heap_top in *.
  apply bind_inv in E as (u&s1&Em&E).
  set (top := if free_mem_ptr s =? 0 then memory_end (clusters s) else free_mem_ptr s) in *.
  assert (s1 = UState (u_con s) (clusters s) (pagesize s) top (dest_addr s)) as ->.
  { subst top. destruct (free_mem_ptr s =? 0); cbn in Em; injection Em as _ <-; by destruct s. }
  cbn [gets bind free_mem_ptr] in E.
  rewrite (wrap_small 64 (top - size)), land_lnot7 in E by lia.
  set (q := top - size - (top - size) mod 8) in *.
  cbn [gets bind set_free_mem_ptr modify u_con clusters pagesize dest_addr] in E.
  destruct (Z.leb_spec q (u64 (dest_addr s + pagesize s))) as [Hle|Hgt].
  - apply bind_inv in E as (a&s2&E&_). by apply error_no_return in E.
  - cbn [ret bind] in E. injection E as <- <-.
    pose proof (Z.mod_pos_bound (top - size) 8). pose proof (Z.div_mod (top - size) 8).
    assert (q = 8 * ((top - size) / 8)) as Hq by (subst q; lia).
    split; [rewrite Hq, Z.mul_comm; by apply Z.mod_mul|]. repeat split; lia.
Qed.

(** A call that returns moved the allocator's pointer and nothing else. *)
Lemma malloc_frame size s p s' :
  malloc size s = Ret p s' →
  s' = UState (u_con s) (clusters s) (pagesize s) p (dest_addr s).
Proof.
  unfold malloc. cbn [gets bind]. intros E. apply bind_inv in E as (u&s1&Em&E).
  assert (∃ q, s1 = UState (u_con s) (clusters s) (pagesize s) q (dest_addr s)) as [q ->].
  { destruct (free_mem_ptr s =? 0); cbn in Em; injection Em as _ <-;
      [by eexists|exists (free_mem_ptr s); by destruct s]. }
  cbn [gets bind set_free_mem_ptr modify u_con clusters pagesize dest_addr free_mem_ptr] in E.
  destruct (_ <=? _).
  - apply bind_inv in E as (a&s2&E&_). by apply error_no_return in E.
  - cbn [ret bind] in E. by injection E as <- <-.
Qed.

Fixpoint mallocs (sizes : list Z) : M (ustate K) (list Z) :=
  match sizes with
  | [] => ret []
  | size :: sizes =>
      let! p := malloc size in
      let! ps := mallocs sizes in
      ret (p :: ps)
  end.

Definition sum_sizes (l : list Z) : Z := fold_right Z.add 0 l.

Lemma mallocs_inv sizes s ps s' :
  mallocs sizes s = Ret ps s' → Forall (λ z, 0 <= z) sizes →
  sum_sizes sizes + 7 * zlen sizes <= heap_top s < 2 ^ 64 →
  length ps = length sizes ∧
  (∀ i p size, ps !! i = Some p → sizes !! i = Some size →
     p mod 8 = 0 ∧ p + size <= heap_top s ∧ u64 (dest_addr s + pagesize s) < p ∧
     ∀ j q, (i < j)%nat → ps !! j = Some q → ∀ sz, sizes !! j = Some sz → q + sz <= p).
Proof.
  revert s ps s'. induction sizes as [|size sizes IH]; intros s ps s' E HF Htop.
  { cbn in E. injection E as <- <-. split; [done|]. intros i p sz Hi. by rewrite lookup_nil in Hi. }
  cbn [mallocs] in E. apply bind_inv in E as (p&s1&Em&E). apply bind_inv in E as (qs&s2&Er&E).
  injection E as <- <-. inversion HF as [|?? Hsz HF']; subst.
  cbn [sum_sizes fold_right] in Htop. fold (sum_sizes sizes) in Htop. rewrite zlen_cons in Htop.
  assert (0 <= sum_sizes sizes) as Hss.
  { clear -HF'. induction HF'; cbn; [lia|]. unfold sum_sizes in *. lia. }
  pose proof (zlen_nonneg sizes).
  destruct (malloc_inv _ _ _ _ Em) as (Ha&Hb&Hc&Hd&->); [done|lia|].
  assert (0 < p) as Hp0.
  { pose proof (wrap_range 64 ltac:(lia) (dest_addr s + pagesize s)). lia. }
  edestruct IH as [Hlen IH']; [exact Er|done| |].
  { unfold heap_top at 1 2. cbn [free_mem_ptr]. rewrite (proj2 (Z.eqb_neq p 0)) by lia. lia. }
  cbn [dest_addr pagesize] in IH'. unfold heap_top at 1 in IH'. cbn [free_mem_ptr] in IH'.
  rewrite (proj2 (Z.eqb_neq p 0)) in IH' by lia.
  split; [cbn; by rewrite Hlen|]. intros [|i] p' sz Hi Hs.
  - injection Hi as <-. injection Hs as <-. repeat (split; [done || lia|]).
    intros [|j] q Hj Hq sz Hsz'; [lia|]. cbn in Hq, Hsz'. edestruct IH' as (_&HH&_); eauto.
  - cbn in Hi, Hs. destruct (IH' i p' sz Hi Hs) as (A1&A2&A3&A4).
    split; [done|]. split; [lia|]. split; [done|].
    intros [|j] q Hj Hq sz' Hsz'; [lia|]. cbn in Hq, Hsz'. apply (A4 j q); [lia|done|done].
Qed.
End malloc_proofs.

(** *** Line editing *)

(** What a key does to the line so far, and what is echoed for it. *)
Definition edit (maxlen : Z) (l : list Z) (k : Z) : list Z :=
  if (k =? 8) || (k =? 127) then take (length l - 1) l
  else if (32 <=? k) && (k <? 127) && (zlen l <? maxlen - 1) then l ++ [k]
  else l.

Definition echo (maxlen : Z) (l : list Z) (k : Z) : list Z :=
  if (k =? 8) || (k =? 127) then if 0 <? zlen l then [8; 32; 8] else []
  else if (32 <=? k) && (k <? 127) && (zlen l <? maxlen - 1) then [k]
  else [].

Fixpoint echoes (maxlen : Z) (l : list Z) (keys : list Z) : list Z :=
  match keys with
  | [] => []
  | k :: keys => echo maxlen l k ++ echoes maxlen (edit maxlen l k) keys
  end.

Lemma s8_key k : is_byte k → s8 k = if k <? 128 then k else k - 256.
Proof.
  unfold is_byte, swrap. change (2 ^ (8 - 1)) with 128. change (2 ^ 8) with 256. intros Hk.
  destruct (Z.ltb_spec k 128); Z.to_euclidean_division_equations; lia.
Qed.

Section getline_proofs.
Context {K : Type} `{HL : ConsoleLaws K}.

(** The console moved on by some typed keys and some shown characters. *)
Definition io_step (s s' : cstate K) (keys rest out : list Z) : Prop :=
  con_typed (con s) = keys ++ rest ∧ con_typed (con s') = rest ∧
  con_shown (con s') = con_shown (con s) ++ out ∧
  (con_busy (con s') <= con_busy (con s))%nat.

Lemma cons_putchar_ok fuel c s :
  (1 + con_busy (con s) < fuel)%nat →
  ∃ s', cons_putchar fuel c s = Ret tt s' ∧ con_typed (con s') = con_typed (con s) ∧
    con_shown (con s') = con_shown (con s) ++ [u8 c] ∧
    (con_busy (con s') <= con_busy (con s))%nat.
Proof.
  intros Hf. unfold cons_putchar.
  destruct (cons_puts_ok fuel [u8 c; 0] 1 [u8 c] s) as (s'&E&H1&_&H2&H3&_); [done|lia|done|].
  exists s'. rewrite (bind_Ret _ _ _ _ _ E). done.
Qed.

Lemma getline_turn fuel maxlen buf l tl k rest s :
  con_typed (con s) = k :: rest → is_byte k → k ≠ 10 → k ≠ 13 →
  buf = l ++ tl → maxlen <= zlen buf → zlen l < maxlen →
  (1 + con_busy (con s) < fuel)%nat →
  ∃ s' l' tl', getline_step fuel maxlen (buf, zlen l) s
      = Ret (inl (l' ++ tl', zlen l')) s' ∧ l' = edit maxlen l k ∧
    zlen (l' ++ tl') = zlen buf ∧ zlen l' < maxlen ∧
    io_step s s' [k] rest (echo maxlen l k).
Proof.
  intros Ht Hk H10 H13 -> Hmax Hl Hf. unfold getline_step.
  destruct (cons_getchar_ok fuel k rest s Ht) as (s1&E1&T1&S1&B1&_);
    [unfold is_byte in Hk; lia|lia|].
  rewrite (bind_Ret _ _ _ _ _ E1), s8_key by done. unfold is_byte in Hk.
  set (c := if k <? 128 then k else k - 256).
  assert ((c =? 10) = false ∧ (c =? 13) = false ∧ (c =? 0) = (k =? 0) ∧
    ((c =? 8) || (c =? 127)) = ((k =? 8) || (k =? 127)) ∧
    ((k =? 8) || (k =? 127) = false → (32 <=? c) = (32 <=? k) && (k <? 127)))
    as (C1&C2&C3&C4&C5).
  { subst c. destruct (Z.ltb_spec k 128); lia. }
  rewrite C1, C2, C3, C4, !orb_false_r. cbn [negb andb].
  destruct (Z.eqb_spec k 0) as [->|Hk0].
  { exists s1, l, tl. repeat (split; [done|]). unfold io_step. cbn. rewrite app_nil_r. auto. }
  unfold edit, echo in *. destruct ((k =? 8) || (k =? 127)) eqn:Eers.
  - destruct (Z.ltb_spec 0 (zlen l)) as [Hpos|Hz].
    2:{ pose proof (zlen_nonneg l). assert (l = []) as -> by (apply zlen_nil_inv; lia).
        exists s1, [], tl. repeat (split; [done|]). unfold io_step. rewrite app_nil_r. auto. }
    destruct (cons_putchar_ok fuel 8 s1) as (s2&E2&T2&S2&B2); [lia|].
    destruct (cons_putchar_ok fuel 32 s2) as (s3&E3&T3&S3&B3); [lia|].
    destruct (cons_putchar_ok fuel 8 s3) as (s4&E4&T4&S4&B4); [lia|].
    rewrite !bind_bind, (bind_Ret _ _ _ _ _ E2), !bind_bind, (bind_Ret _ _ _ _ _ E3),
      !bind_bind, (bind_Ret _ _ _ _ _ E4). cbn [ret bind].
    destruct (exists_last (l := l)) as (l0&x&->).
    { intros ->. change (zlen []) with 0 in Hpos. lia. }
    assert (take (length (l0 ++ [x]) - 1) (l0 ++ [x]) = l0) as Etk.
    { rewrite length_app. replace (length l0 + length [x] - 1)%nat with (length l0) by (cbn; lia).
      apply take_app_length. }
    assert (zlen (l0 ++ [x]) = zlen l0 + 1) as Ez by (by rewrite zlen_app).
    exists s4, l0, ([x] ++ tl). rewrite app_assoc, Ez.
    replace (zlen l0 + 1 - 1) with (zlen l0) by lia.
    split; [done|]. split; [done|]. split; [done|]. split; [lia|].
    unfold io_step. rewrite T4, T3, T2, T1, S4, S3, S2, S1, <- !app_assoc. cbn [app].
    repeat split; [done|lia].
  - rewrite (C5 eq_refl). rewrite (andb_comm (zlen l <? _)).
    destruct ((32 <=? k) && (k <? 127) && (zlen l <? maxlen - 1)) eqn:Eins.
    + apply andb_true_iff in Eins as [[Hlo%Z.leb_le Hhi%Z.ltb_lt]%andb_true_iff Hroom%Z.ltb_lt].
      assert (c = k) as -> by (subst c; destruct (Z.ltb_spec k 128); lia).
      destruct tl as [|y tl]; [rewrite app_nil_r in Hmax; lia|].
      rewrite aset_app. cbn [lift_opt bind ret].
      destruct (cons_putchar_ok fuel k s1) as (s2&E2&T2&S2&B2); [lia|].
      rewrite bind_bind, bind_ret, bind_bind, (bind_Ret _ _ _ _ _ E2).
      cbn [ret bind]. replace (l ++ k :: tl) with ((l ++ [k]) ++ tl) by (by rewrite <- app_assoc).
      replace (zlen l + 1) with (zlen (l ++ [k])) by (by rewrite zlen_app).
      exists s2, (l ++ [k]), tl. split; [done|]. split; [done|]. split; [|split].
      * rewrite <- app_assoc, !zlen_app. cbn [app]. by rewrite !zlen_cons.
      * rewrite zlen_app; change (zlen [k]) with 1; lia.
      * unfold io_step. rewrite T2, T1, S2, S1, is_byte_u8 by done. repeat split; [done|lia].
    + exists s1, l, tl. repeat (split; [done|]). unfold io_step. rewrite app_nil_r. auto.
Qed.

Lemma getline_loop_ok fuel maxlen keys : ∀ turns l tl cr rest s,
  con_typed (con s) = keys ++ cr :: rest → cr = 10 ∨ cr = 13 →
  Forall (λ k, is_byte k ∧ k ≠ 10 ∧ k ≠ 13) keys →
  maxlen <= zlen (l ++ tl) → zlen l < maxlen →
  (1 + con_busy (con s) < fuel)%nat → (length keys < turns)%nat →
  ∃ s' tl', loop turns (getline_step fuel maxlen) (l ++ tl, zlen l) s
      = Ret (foldl (edit maxlen) l keys ++ tl', zlen (foldl (edit maxlen) l keys)) s' ∧
    zlen (foldl (edit maxlen) l keys ++ tl') = zlen (l ++ tl) ∧
    zlen (foldl (edit maxlen) l keys) < maxlen ∧
    io_step s s' (keys ++ [cr]) rest (echoes maxlen l keys).
Proof.
  induction keys as [|k keys IH]; intros turns l tl cr rest s Ht Hcr HF Hmax Hl Hf Hn.
  - destruct turns as [|turns]; [cbn in Hn; lia|]. cbn [app] in Ht.
    destruct (cons_getchar_ok fuel cr rest s Ht) as (s1&E1&T1&S1&B1&_); [lia|lia|].
    exists s1, tl. rewrite (loop_exit _ _ _ _ (l ++ tl, zlen l) s1).
    + split; [done|]. split; [done|]. split; [done|]. unfold io_step. cbn.
      rewrite app_nil_r. auto.
    + unfold getline_step. rewrite (bind_Ret _ _ _ _ _ E1). by destruct Hcr as [->| ->].
  - destruct turns as [|turns]; [cbn in Hn; lia|]. inversion HF as [|?? (Hk&H10&H13) HF']; subst.
    destruct (getline_turn fuel maxlen (l ++ tl) l tl k (keys ++ cr :: rest) s Ht Hk H10 H13
      eq_refl Hmax Hl Hf) as (s1&l'&tl'&E&->&Hz&Hl'&(I1&I2&I3&I4)).
    rewrite (loop_step _ _ _ _ _ _ E).
    destruct (IH turns (edit maxlen l k) tl' cr rest s1) as (s'&tl2&E'&Hz'&Hl2&(J1&J2&J3&J4));
      [done|done|done|lia|done|lia|cbn in Hn; lia|].
    exists s', tl2. cbn [foldl]. split; [done|]. split; [congruence|]. split; [done|].
    unfold io_step. cbn [app echoes]. rewrite J2, J3, I3, <- !app_assoc, Ht. cbn [app].
    repeat split; [done..|lia].
Qed.
End getline_proofs.

(** *** Properties of utils.c *)

(** C39: Line input: the buffer holds what the editing keys make of the keys
    typed before the first carriage return or linefeed (control and 8-bit
    characters ignored, erased characters gone, no more than [maxlen - 1]
    characters), terminated, with nothing written outside the buffer; exactly
    those keys are taken, and each edit is echoed. *)
Theorem getline_edits {K} `{HL : ConsoleLaws K} turns fuel buf maxlen keys cr rest (s : cstate K) :
  con_typed (con s) = keys ++ cr :: rest → cr = 10 ∨ cr = 13 →
  Forall (λ k, is_byte k ∧ k ≠ 10 ∧ k ≠ 13) keys →
  0 < maxlen <= zlen buf →
  (1 + con_busy (con s) < fuel)%nat → (length keys < turns)%nat →
  ∃ tl s', getline turns fuel buf maxlen s = Ret (foldl (edit maxlen) [] keys ++ 0 :: tl) s' ∧
    zlen (foldl (edit maxlen) [] keys) < maxlen ∧
    zlen (foldl (edit maxlen) [] keys ++ 0 :: tl) = zlen buf ∧
    con_typed (con s') = rest ∧
    con_shown (con s') = con_shown (con s) ++ echoes maxlen [] keys.
Proof.
  intros Ht Hcr HF Hm Hf Hn.
  destruct (getline_loop_ok fuel maxlen keys turns [] buf cr rest s Ht Hcr HF)
    as (s'&tl&E&Hz&Hl&(_&J2&J3&_)); [cbn [app]; lia|change (zlen []) with 0; lia|done|done|].
  cbn [app] in *. unfold getline. change 0 with (zlen (@nil Z)) at 1.
  rewrite (bind_Ret _ _ _ _ _ E). rewrite zlen_app in Hz.
  destruct tl as [|x tl]; [change (zlen []) with 0 in Hz; lia|].
  rewrite aset_app. exists tl, s'. rewrite zlen_app, zlen_cons in *. repeat split; done || lia.
Qed.

Lemma getline_edits_witness :
  let keys := str "bootx" ++ [127; 49; 50] in
  let s := example_con 3 (keys ++ [13; 65]) in
  foldl (edit 6) [] keys = str "boot1" ∧
  echoes 6 [] keys = str "bootx" ++ [8; 32; 8] ++ str "1" ∧
  ∃ tl s', getline 20 20 (replicate 6 0) 6 s = Ret (foldl (edit 6) [] keys ++ 0 :: tl) s' ∧
    zlen (foldl (edit 6) [] keys) < 6 ∧
    zlen (foldl (edit 6) [] keys ++ 0 :: tl) = zlen (replicate 6 0) ∧
    con_typed (con s') = [65] ∧
    con_shown (con s') = con_shown (con s) ++ echoes 6 [] keys.
Proof.
  cbv zeta. split; [vm_compute; reflexivity|]. split; [vm_compute; reflexivity|].
  apply (getline_edits 20 20 (replicate 6 0) 6 (str "bootx" ++ [127; 49; 50]) 13 [65]
    (example_con 3 ((str "bootx" ++ [127; 49; 50]) ++ [13; 65]))).
  - reflexivity.
  - right. reflexivity.
  - apply (bool_decide_unpack _). vm_compute. exact I.
  - vm_compute. split; [reflexivity|discriminate].
  - cbn. lia.
  - cbn. lia.
Defined.

(** C38: What [malloc] hands out: for any requests that fit below the pointer
    they start from (the end of memory at first), if the calls return at all
    their blocks are 8-aligned, lie between the kernel's first page and that
    pointer, and do not overlap: each block ends below every earlier one. *)
Theorem malloc_blocks {K} `{ConsIO K} sizes (s : ustate K) ps s' :
  mallocs sizes s = Ret ps s' → Forall (λ z, 0 <= z) sizes →
  sum_sizes sizes + 7 * zlen sizes <= heap_top s < 2 ^ 64 →
  length ps = length sizes ∧
  (∀ i p size, ps !! i = Some p → sizes !! i = Some size →
     p mod 8 = 0 ∧ p + size <= heap_top s ∧ u64 (dest_addr s + pagesize s) < p ∧
     ∀ j q, (i < j)%nat → ps !! j = Some q → ∀ sz, sizes !! j = Some sz → q + sz <= p).
Proof. apply mallocs_inv. Qed.

Definition example_clusters : list cluster :=
  [Cluster 1 255 3; Cluster 256 16000 0; Cluster 16256 128 1].

Definition example_ustate : ustate (cstate refcon) :=
  UState (example_con 0 []) example_clusters 8192 0 (page_offset + 0x310000).

Lemma malloc_blocks_witness :
  let _ := cons_io 10 : ConsIO (cstate refcon) in
  let ps := [page_offset + 133169008; page_offset + 133168984] in
  mallocs [141; 17] example_ustate =
    Ret ps (UState (example_con 0 []) example_clusters 8192 (page_offset + 133168984) (page_offset + 0x310000)) ∧
  length ps = 2%nat ∧
  (∀ i p size, ps !! i = Some p → [141; 17] !! i = Some size →
     p mod 8 = 0 ∧ p + size <= heap_top example_ustate ∧
     u64 (dest_addr example_ustate + pagesize example_ustate) < p ∧
     ∀ j q, (i < j)%nat → ps !! j = Some q → ∀ sz, [141; 17] !! j = Some sz → q + sz <= p).
Proof.
  cbv zeta. split; [vm_compute; reflexivity|].
  eapply (malloc_blocks (H := cons_io 10) [141; 17] example_ustate).
  - vm_compute. reflexivity.
  - repeat constructor; vm_compute; discriminate.
  - vm_compute. split; [discriminate|reflexivity].
Defined.

(** [check_memory] decides by the first cluster that touches the range:
    an unreserved one takes both ends of the range at once, so the search ends
    with success although the rest of the range may lie in reserved memory or
    in none. *)
Theorem check_memory_first_cluster l start size :
  Forall cluster_ok l → 0 <= to_phys start → 0 < size →
  to_phys start + size <= 2 ^ 64 →
  check_memory l start size =
    match list_find (overlaps (to_phys start / 8192) ((to_phys start + size - 1) / 8192)) l with
    | None => - ENOMEM
    | Some (_, c) => if Z.land (usage c) 3 =? 0 then 0 else - EBUSY
    end.
Proof.
  intros HF Hp Hs Hend. unfold check_memory, PAGE_SHIFT.
  rewrite (wrap_small 64), check_clusters_first by (done || lia).
  by rewrite !Z.shiftr_div_pow2 by lia.
Qed.

Lemma check_memory_first_cluster_witness :
  (* 16 pages free, the next 128 reserved, the range goes 3 pages into them *)
  let l := [Cluster 1 255 3; Cluster 256 16 0; Cluster 272 128 1] in
  check_memory l (0xfffffc0000000000 + 256 * 8192) (19 * 8192) = 0 ∧
  Exists (λ c, Z.land (usage c) 3 ≠ 0 ∧ overlaps 256 274 c) l.
Proof.
  cbv zeta. split.
  - rewrite check_memory_first_cluster.
    + vm_compute. reflexivity.
    + repeat constructor.
    + vm_compute. discriminate.
    + lia.
    + vm_compute. discriminate.
  - apply (bool_decide_unpack _). vm_compute. exact I.
Defined.
