(* ===== verification/Aboot.v ===== *)
(** * aboot.c: the loader's globals, the ELF header, the boot arguments

    [aboot] is the record of the globals of aboot.c, on top of the state of
    utils.c.  [is_loadable_elf] reads the headers from the bytes of the first
    block; a read behind them is a [Trap].  The layout of the headers and the
    constants are those of <elf.h>. *)

From Stdlib Require Import Ascii String.
From S2P Require Import Prelude CString Vsprintf Cons Utils.

Open Scope Z_scope.
Open Scope list_scope.

Record segment := Segment { addr : Z; offset : Z; size : Z }.

Record aboot (K : Type) := Aboot {
  sys : ustate K;
  start_addr : Z;
  entry_addr : Z;
  chunks : list segment;        (* the entries filled in *)
  nchunks : Z;
  boot_file : list Z;           (* char[256] *)
  initrd_file : list Z;
  kernel_args : list Z;
  bss_start : Z;
  bss_size : Z;
  initrd_start : Z;
  initrd_size : Z
}.
Arguments Aboot {K}.
Arguments sys {K} a.
Arguments start_addr {K} a.
Arguments entry_addr {K} a.
Arguments chunks {K} a.
Arguments nchunks {K} a.
Arguments boot_file {K} a.
Arguments initrd_file {K} a.
Arguments kernel_args {K} a.
Arguments bss_start {K} a.
Arguments bss_size {K} a.
Arguments initrd_start {K} a.
Arguments initrd_size {K} a.

Definition PT_LOAD : Z := 1.
Definition ET_EXEC : Z := 2.
Definition EM_ALPHA : Z := 0x9026.
Definition sizeof_phdr : Z := 56.
Definition sizeof_segment : Z := 24.

(** The fields of a program header that are read. *)
Record phdr := Phdr {
  p_type : Z;
  p_offset : Z;
  p_vaddr : Z;
  p_filesz : Z;
  p_memsz : Z
}.

Definition read_phdr (buf : list Z) (off : Z) : option phdr :=
  let? p_type := get_u32 buf off in
  let? p_offset := get_u64 buf (off + 8) in
  let? p_vaddr := get_u64 buf (off + 16) in
  let? p_filesz := get_u64 buf (off + 32) in
  let? p_memsz := get_u64 buf (off + 40) in
  Some (Phdr p_type p_offset p_vaddr p_filesz p_memsz).

Section aboot.
Context {K : Type} `{ConsIO K}.

Definition on_sys {A} (m : M (ustate K) A) : M (aboot K) A := λ s,
  let put u := Aboot u (start_addr s) (entry_addr s) (chunks s) (nchunks s) (boot_file s)
    (initrd_file s) (kernel_args s) (bss_start s) (bss_size s) (initrd_start s) (initrd_size s) in
  match m (sys s) with
  | Ret a u => Ret a (put u)
  | Jump e u => Jump e (put u)
  | Trap => Trap
  | Diverge => Diverge
  end.

Definition say (fmt : string) (args : list arg) : M (aboot K) unit :=
  on_sys (on_con (io_printf fmt args)) ;;; ret tt.

Definition set_entry (start entry : Z) : M (aboot K) unit :=
  modify (λ s, Aboot (sys s) start entry [] (nchunks s) (boot_file s)
    (initrd_file s) (kernel_args s) (bss_start s) (bss_size s) (initrd_start s) (initrd_size s)).

Definition add_chunk (c : segment) : M (aboot K) unit :=
  modify (λ s, Aboot (sys s) (start_addr s) (entry_addr s) (chunks s ++ [c]) (nchunks s)
    (boot_file s) (initrd_file s) (kernel_args s) (bss_start s) (bss_size s)
    (initrd_start s) (initrd_size s)).

Definition set_nchunks (n : Z) : M (aboot K) unit :=
  modify (λ s, Aboot (sys s) (start_addr s) (entry_addr s) (chunks s) n (boot_file s)
    (initrd_file s) (kernel_args s) (bss_start s) (bss_size s) (initrd_start s) (initrd_size s)).

Definition set_bss (start size : Z) : M (aboot K) unit :=
  modify (λ s, Aboot (sys s) (start_addr s) (entry_addr s) (chunks s) (nchunks s) (boot_file s)
    (initrd_file s) (kernel_args s) start size (initrd_start s) (initrd_size s)).

(** One program header; [false] refuses the file.  bss_size is a long. *)
Definition load_phdr (p : phdr) (i : Z) : M (aboot K) bool :=
  if negb (p_type p =? PT_LOAD) then ret true
  else
    add_chunk (Segment (p_vaddr p) (p_offset p) (p_filesz p)) ;;;
    let! cl := gets (λ s, clusters (sys s)) in
    let status := check_memory cl (p_vaddr p) (p_filesz p) in
    if negb (status =? 0) then
      say ("aboot: Can't load kernel." ++ nl ++ "  Memory at %lx - %lx (PHDR %i) is %s" ++ nl)
        [AInt (p_vaddr p); AInt (u64 (p_vaddr p + p_filesz p - 1)); AInt i;
         AStr (Some (str (if status =? - ENOMEM then "Not Found" else "Busy (Reserved)")))] ;;;
      ret false
    else if p_filesz p <? p_memsz p then
      let! bss := gets bss_size in
      if 0 <? bss then
        say ("aboot: Can't load kernel." ++ nl ++ "  Multiple BSS segments (PHDR %d)" ++ nl) [AInt i] ;;;
        ret false
      else
        set_bss (u64 (p_vaddr p + p_filesz p)) (s64 (p_memsz p - p_filesz p)) ;;;
        ret true
    else ret true.

Fixpoint load_phdrs (n : nat) (buf : list Z) (phdrs i : Z) : M (aboot K) bool :=
  match n with
  | O => ret true
  | S n =>
      let! p := lift_opt (read_phdr buf (phdrs + i * sizeof_phdr)) in
      let! ok := load_phdr p i in
      if ok then load_phdrs n buf phdrs (i + 1) else ret false
  end.

Definition is_loadable_elf (buf : list Z) (blocksize : Z) : M (aboot K) bool :=
  let! ident := lift_opt (aslice buf 0 4) in
  if negb (bool_decide (ident = [0x7f; 69; 76; 70])) then ret false
  else
    let! ei_class := lift_opt (aget buf 4) in
    let! ei_data := lift_opt (aget buf 5) in
    let! e_machine := lift_opt (get_u16 buf 18) in
    if negb (ei_class =? 2) || negb (ei_data =? 1) || negb (e_machine =? EM_ALPHA) then
      say ("aboot: ELF executable not for this machine" ++ nl) [] ;;; ret false
    else
      let! e_type := lift_opt (get_u16 buf 16) in
      if negb (e_type =? ET_EXEC) then
        say ("aboot: not an executable ELF file" ++ nl) [] ;;; ret false
      else
        let! e_phoff := lift_opt (get_u64 buf 32) in
        let! e_phnum := lift_opt (get_u16 buf 56) in
        if u32 blocksize <? u64 (e_phoff + e_phnum * sizeof_phdr) then
          say ("aboot: ELF program headers not in first block (%ld)" ++ nl) [AInt e_phoff] ;;;
          ret false
        else
          on_sys (malloc (sizeof_segment * e_phnum)) ;;;
          let! first := lift_opt (read_phdr buf e_phoff) in
          let! e_entry := lift_opt (get_u64 buf 24) in
          set_entry (p_vaddr first) e_entry ;;;
          let! ok := load_phdrs (Z.to_nat e_phnum) buf e_phoff 0 in
          if ok then
            let! cs := gets chunks in
            set_nchunks (zlen cs) ;;;
            ret true
          else ret false.
End aboot.

(** ** The boot arguments *)

Section boot_args.
Context {K : Type} `{Console K} (fuel : nat).

(* boot_file and kernel_args, as the arrays of 256 bytes they are *)
Definition get_boot_args (boot_file kernel_args : list Z) : M (cstate K) (list Z * list Z) :=
  let! ' (result, boot_file) := cons_getenv ENV_BOOTED_FILE boot_file 256 in
  let! boot_file :=
    (if result <? 0 then
       printf fuel ("aboot: warning: can't get ENV_BOOTED_FILE (result=%lx)!" ++ nl) [AInt result] ;;;
       lift_opt (asplice boot_file 0 (str "vmlinux.gz" ++ [0]))
     else ret boot_file) in
  let! ' (result, kernel_args) := cons_getenv ENV_BOOTED_OSFLAGS kernel_args 256 in
  let! kernel_args :=
    (if result <? 0 then
       printf fuel ("aboot: warning: can't get ENV_BOOTED_OSFLAGS (result=%lx)!" ++ nl) [AInt result] ;;;
       lift_opt (asplice kernel_args 0 (str "i" ++ [0]))
     else ret kernel_args) in
  ret (boot_file, kernel_args).
End boot_args.

(** ** What the header of a loadable kernel says *)

Definition is_load (p : phdr) : Prop := p_type p = PT_LOAD.
Definition has_bss (p : phdr) : Prop := p_filesz p < p_memsz p.
#[export] Instance is_load_dec p : Decision (is_load p).
Proof. unfold is_load. apply _. Defined.
#[export] Instance has_bss_dec p : Decision (has_bss p).
Proof. unfold has_bss. apply _. Defined.

Definition segment_of (p : phdr) : segment := Segment (p_vaddr p) (p_offset p) (p_filesz p).

(** [n] headers of the table at [off]. *)
Fixpoint phdr_table (buf : list Z) (off : Z) (n : nat) : option (list phdr) :=
  match n with
  | O => Some []
  | S n =>
      let? p := read_phdr buf off in
      let? ps := phdr_table buf (off + sizeof_phdr) n in
      Some (p :: ps)
  end.

(** The uninitialised data of the loaded headers, if any. *)
Definition bss_of (old : Z * Z) (ps : list phdr) : Z * Z :=
  fold_left (λ b p, if decide (is_load p ∧ has_bss p)
    then (u64 (p_vaddr p + p_filesz p), s64 (p_memsz p - p_filesz p)) else b) ps old.

Record elf_header := ElfHeader { h_entry : Z; h_phoff : Z; h_phnum : Z; h_table : list phdr }.

(** The headers of an executable for this machine, all inside the block. *)
Definition parse_elf (buf : list Z) : option elf_header :=
  let? ident := aslice buf 0 6 in
  let? e_type := get_u16 buf 16 in
  let? e_machine := get_u16 buf 18 in
  let? e_entry := get_u64 buf 24 in
  let? e_phoff := get_u64 buf 32 in
  let? e_phnum := get_u16 buf 56 in
  let? table := phdr_table buf e_phoff (Z.to_nat e_phnum) in
  if decide (ident = [0x7f; 69; 76; 70; 2; 1] ∧ e_type = ET_EXEC ∧ e_machine = EM_ALPHA)
  then Some (ElfHeader e_entry e_phoff e_phnum table) else None.

Section elf_proofs.
Context {K : Type} `{ConsIO K}.

(** The state after the headers [ps] have been taken. *)
Definition after_load (s : aboot K) (ps : list phdr) : aboot K :=
  let bss := bss_of (bss_start s, bss_size s) ps in
  Aboot (sys s) (start_addr s) (entry_addr s)
    (chunks s ++ map segment_of (filter is_load ps)) (nchunks s) (boot_file s)
    (initrd_file s) (kernel_args s) bss.1 bss.2 (initrd_start s) (initrd_size s).

Definition mem_free (s : aboot K) (p : phdr) : Prop :=
  is_load p → check_memory (clusters (sys s)) (p_vaddr p) (p_filesz p) = 0.

Definition bss_headers (ps : list phdr) : list phdr := filter (λ p, is_load p ∧ has_bss p) ps.

Lemma load_phdr_ok p i s :
  mem_free s p → (is_load p → has_bss p → bss_size s <= 0) →
  load_phdr p i s = Ret true (after_load s [p]).
Proof.
  intros Hm Hb. unfold load_phdr, after_load, bss_of, bss_headers. cbn [fold_left].
  destruct (Z.eqb_spec (p_type p) PT_LOAD) as [Hl|Hl]; cbn [negb].
  - rewrite filter_cons_True by done. cbn [bind add_chunk modify gets sys].
    specialize (Hm Hl). unfold mem_free in Hm. rewrite Hm. cbn [Z.eqb negb].
    destruct (Z.ltb_spec (p_filesz p) (p_memsz p)) as [Hlt|Hge].
    + rewrite decide_True by done. specialize (Hb Hl Hlt).
      cbn [gets bind bss_size]. rewrite (proj2 (Z.ltb_ge 0 (bss_size s))) by lia. done.
    + rewrite decide_False by (unfold has_bss; lia). done.
  - rewrite filter_cons_False by done. rewrite decide_False by tauto.
    cbn. rewrite app_nil_r. by destruct s.
Qed.

Lemma load_phdrs_ok ps : ∀ n buf off i s,
  phdr_table buf (off + i * sizeof_phdr) n = Some ps →
  Forall (mem_free s) ps → bss_size s <= 0 ∧ (length (bss_headers ps) <= 1)%nat ∨ bss_headers ps = [] →
  load_phdrs n buf off i s = Ret true (after_load s ps).
Proof.
  induction ps as [|p ps IH]; intros n buf off i s Ht HF Hb.
  - destruct n as [|n].
    + cbn. unfold after_load. cbn. rewrite app_nil_r. by destruct s.
    + cbn [phdr_table] in Ht. destruct (read_phdr _ _); [|done]. by destruct (phdr_table _ _ n).
  - destruct n as [|n]; [done|]. cbn [phdr_table] in Ht.
    destruct (read_phdr buf (off + i * sizeof_phdr)) as [p'|] eqn:Ep; [|done].
    destruct (phdr_table buf (off + i * sizeof_phdr + sizeof_phdr) n) as [ps'|] eqn:Eps; [|done].
    injection Ht as -> ->. inversion HF as [|?? Hm HF']; subst.
    cbn [load_phdrs]. rewrite Ep. cbn [lift_opt]. rewrite bind_ret.
    assert (bss_headers (p :: ps) = (if decide (is_load p ∧ has_bss p) then [p] else []) ++ bss_headers ps) as Ebs.
    { unfold bss_headers. case_decide; [by rewrite filter_cons_True|by rewrite filter_cons_False]. }
    rewrite Ebs in Hb.
    assert (is_load p → has_bss p → bss_size s <= 0) as Hb1.
    { intros. rewrite decide_True in Hb by done. destruct Hb as [[? _]|?]; [done|done]. }
    rewrite (bind_Ret _ _ _ _ _ (load_phdr_ok p i s Hm Hb1)).
    rewrite IH.
    + unfold after_load. cbn [sys start_addr entry_addr chunks nchunks boot_file initrd_file
        kernel_args bss_start bss_size initrd_start initrd_size].
      rewrite <- app_assoc, <- map_app. unfold bss_of. cbn [fold_left].
      rewrite <- list.filter_app. cbn [app]. by rewrite <- surjective_pairing.
    + by replace (off + (i + 1) * sizeof_phdr) with (off + i * sizeof_phdr + sizeof_phdr) by lia.
    + done.
    + case_decide as Hd.
      * right. destruct Hb as [[_ Hb]|Hb]; [|done]. cbn in Hb.
        apply nil_length_inv. lia.
      * cbn [app] in Hb. unfold after_load, bss_of. cbn. rewrite decide_False by done. done.
Qed.

Lemma load_phdr_stale p i s s' :
  0 < bss_size s → load_phdr p i s = Ret true s' →
  bss_size s' = bss_size s ∧ ¬ (is_load p ∧ has_bss p).
Proof.
  intros Hb E. unfold load_phdr in E. unfold is_load, has_bss.
  destruct (Z.eqb_spec (p_type p) PT_LOAD) as [Hl|Hl]; cbn [negb] in E.
  - cbn [bind add_chunk modify gets sys] in E.
    destruct (check_memory _ _ _ =? 0); cbn [negb] in E.
    + destruct (Z.ltb_spec (p_filesz p) (p_memsz p)).
      * cbn [gets bind bss_size] in E. rewrite (proj2 (Z.ltb_lt 0 _) Hb) in E.
        apply bind_inv in E as (?&?&_&[=]).
      * injection E as <-. cbn. split; [done|lia].
    + apply bind_inv in E as (?&?&_&[=]).
  - injection E as <-. split; [done|tauto].
Qed.

Lemma load_phdrs_stale n : ∀ buf off i ps s s',
  phdr_table buf (off + i * sizeof_phdr) n = Some ps → 0 < bss_size s →
  load_phdrs n buf off i s = Ret true s' → bss_headers ps = [].
Proof.
  induction n as [|n IH]; intros buf off i ps s s' Ht Hb E.
  - by injection Ht as <-.
  - cbn [phdr_table load_phdrs] in *. destruct (read_phdr buf (off + i * sizeof_phdr)) as [p|]; [|done].
    destruct (phdr_table buf (off + i * sizeof_phdr + sizeof_phdr) n) as [ps'|] eqn:Eps; [|done].
    injection Ht as <-. cbn [lift_opt] in E. rewrite bind_ret in E.
    apply bind_inv in E as (ok&s1&E1&E). destruct ok; [|done].
    destruct (load_phdr_stale _ _ _ _ Hb E1) as [Eb Hp].
    unfold bss_headers. rewrite filter_cons_False by done. eapply IH; [|by rewrite Eb|exact E].
    by replace (off + (i + 1) * sizeof_phdr) with (off + i * sizeof_phdr + sizeof_phdr) by lia.
Qed.

(** What [is_loadable_elf] does with headers that parse. *)
Lemma is_loadable_elf_parsed buf bs h s :
  parse_elf buf = Some h → h_phoff h + h_phnum h * sizeof_phdr <= u32 bs →
  0 <= h_phoff h → 0 < h_phnum h →
  ∃ p, hd_error (h_table h) = Some p ∧
  phdr_table buf (h_phoff h) (Z.to_nat (h_phnum h)) = Some (h_table h) ∧
  is_loadable_elf buf bs s =
    (on_sys (malloc (sizeof_segment * h_phnum h)) ;;;
     set_entry (p_vaddr p) (h_entry h) ;;;
     let! ok := load_phdrs (Z.to_nat (h_phnum h)) buf (h_phoff h) 0 in
     if ok then
       let! cs := gets chunks in
       set_nchunks (zlen cs) ;;;
       ret true
     else ret false) s.
Proof.
  intros Hp Hfit H0 Hn. unfold parse_elf in Hp.
  destruct (aslice buf 0 6) as [id|] eqn:Eid; [|done].
  destruct (get_u16 buf 16) as [ty|] eqn:Ety; [|done].
  destruct (get_u16 buf 18) as [ma|] eqn:Ema; [|done].
  destruct (get_u64 buf 24) as [en|] eqn:Een; [|done].
  destruct (get_u64 buf 32) as [po|] eqn:Epo; [|done].
  destruct (get_u16 buf 56) as [pn|] eqn:Epn; [|done].
  destruct (phdr_table buf po (Z.to_nat pn)) as [tb|] eqn:Etb; [|done].
  case_decide as Hd; [|done]. destruct Hd as (->&->&->). injection Hp as <-.
  cbn [h_entry h_phoff h_phnum h_table] in *.
  assert (aslice buf 0 4 = Some [0x7f; 69; 76; 70]) as E4.
  { apply (aslice_aslice buf 0 6 _ 0 4 _ Eid). reflexivity. }
  assert (aget buf 4 = Some 2 ∧ aget buf 5 = Some 1) as [E5 E6].
  { apply aslice_Some in Eid as (_&_&_&Eid). cbn [Z.to_nat Pos.to_nat drop] in Eid.
    split; apply aget_Some; (split; [lia|]); symmetry.
    - change (Z.to_nat 4) with 4%nat. change (Some 2) with ([127; 69; 76; 70; 2; 1] !! 4%nat).
      rewrite Eid. apply lookup_take_lt. change (Z.to_nat 6) with 6%nat. lia.
    - change (Z.to_nat 5) with 5%nat. change (Some 1) with ([127; 69; 76; 70; 2; 1] !! 5%nat).
      rewrite Eid. apply lookup_take_lt. change (Z.to_nat 6) with 6%nat. lia. }
  pose proof (wrap_range 32 ltac:(lia) bs) as Hbs.
  destruct (Z.to_nat pn) as [|n] eqn:En; [lia|]. pose proof Etb as Etb'. cbn [phdr_table] in Etb.
  destruct (read_phdr buf po) as [p|] eqn:Ep; [|done].
  destruct (phdr_table buf (po + sizeof_phdr) n) as [ps|]; [|done]. injection Etb as <-.
  exists p. split; [done|]. split; [done|].
  unfold is_loadable_elf. rewrite E4, E5, E6. cbn [lift_opt]. rewrite !bind_ret.
  rewrite bool_decide_eq_true_2 by done. cbn [negb]. rewrite !bind_ret. rewrite Ema. cbn [lift_opt].
  rewrite bind_ret. change (negb (2 =? 2) || negb (1 =? 1) || negb (EM_ALPHA =? EM_ALPHA)) with false.
  cbv iota. rewrite Ety. cbn [lift_opt]. rewrite bind_ret. change (negb (ET_EXEC =? ET_EXEC)) with false.
  cbv iota. rewrite Epo, Epn. cbn [lift_opt]. rewrite !bind_ret.
  unfold sizeof_phdr in *. rewrite (wrap_small 64 (po + pn * 56)) by lia.
  rewrite (proj2 (Z.ltb_ge (u32 bs) _)) by lia. apply bind_ext. intros _ s1.
  rewrite Ep, Een. cbn [lift_opt]. rewrite !bind_ret. by rewrite En.
Qed.

(** The globals after a kernel with the headers [h] has been accepted, [u]
    what the allocation of the chunks left. *)
Definition accepted (h : elf_header) (first : phdr) (u : ustate K) (s : aboot K) : aboot K :=
  let cs := map segment_of (filter is_load (h_table h)) in
  let bss := bss_of (bss_start s, bss_size s) (h_table h) in
  Aboot u (p_vaddr first) (h_entry h) cs (zlen cs) (boot_file s) (initrd_file s) (kernel_args s)
    bss.1 bss.2 (initrd_start s) (initrd_size s).

Lemma is_loadable_elf_ok buf bs h s u p0 :
  parse_elf buf = Some h → h_phoff h + h_phnum h * sizeof_phdr <= u32 bs →
  0 <= h_phoff h → 0 < h_phnum h →
  Forall (mem_free s) (h_table h) → bss_size s <= 0 →
  (length (bss_headers (h_table h)) <= 1)%nat →
  malloc (sizeof_segment * h_phnum h) (sys s) = Ret p0 u →
  ∃ p, hd_error (h_table h) = Some p ∧ is_loadable_elf buf bs s = Ret true (accepted h p u s).
Proof.
  intros Hp Hfit H0 Hn HF Hb Hone Em.
  destruct (is_loadable_elf_parsed buf bs h s Hp Hfit H0 Hn) as (p&Ehd&Etb&->).
  exists p. split; [done|].
  unfold on_sys at 1. unfold bind at 1. rewrite Em. apply malloc_frame in Em as ->.
  set (s1 := Aboot _ _ _ _ _ _ _ _ _ _ _ _).
  unfold set_entry. unfold modify at 1. unfold bind at 1. set (s2 := Aboot _ _ _ _ _ _ _ _ _ _ _ _).
  assert (load_phdrs (Z.to_nat (h_phnum h)) buf (h_phoff h) 0 s2 = Ret true (after_load s2 (h_table h))) as E.
  { apply load_phdrs_ok; [by rewrite Z.mul_0_l, Z.add_0_r|exact HF|left; done]. }
  by rewrite (bind_Ret _ _ _ _ _ E).
Qed.
End elf_proofs.

(** *** Properties of the ELF loader *)

(** C27: An executable for this machine is accepted when its headers lie in the
    block read, every loadable segment's memory passes [check_memory], at most
    one segment has uninitialised data and none is left over from an earlier
    file: the chunks are then exactly the PT_LOAD headers in order, the start
    address is that of the first header, and the bss is the one asked for. *)
Theorem elf_chunks_loaded {K} `{ConsIO K} buf bs h s u p0 :
  parse_elf buf = Some h → h_phoff h + h_phnum h * sizeof_phdr <= u32 bs →
  0 <= h_phoff h → 0 < h_phnum h →
  Forall (mem_free s) (h_table h) → bss_size s <= 0 →
  (length (bss_headers (h_table h)) <= 1)%nat →
  malloc (sizeof_segment * h_phnum h) (sys s) = Ret p0 u →
  ∃ s', is_loadable_elf buf bs s = Ret true s' ∧
    chunks s' = map segment_of (filter is_load (h_table h)) ∧ nchunks s' = zlen (chunks s') ∧
    entry_addr s' = h_entry h ∧ Some (start_addr s') = p_vaddr <$> hd_error (h_table h) ∧
    (bss_start s', bss_size s') = bss_of (bss_start s, bss_size s) (h_table h).
Proof.
  intros Hp Hfit H0 Hn HF Hb Hone Em.
  destruct (is_loadable_elf_ok buf bs h s u p0) as (p&Ehd&->); [done..|].
  eexists. split; [reflexivity|]. rewrite Ehd. cbn. repeat split. by destruct (bss_of _ _).
Qed.

(** An executable with two headers, the second one with a bss. *)
Definition example_elf : list Z :=
  [0x7f; 69; 76; 70; 2; 1; 1] ++ replicate 9 0 ++
  le_bytes 2 ET_EXEC ++ le_bytes 2 EM_ALPHA ++ le_bytes 4 1 ++
  le_bytes 8 0xfffffc0000310000 ++ le_bytes 8 64 ++ le_bytes 8 0 ++ le_bytes 4 0 ++
  le_bytes 2 64 ++ le_bytes 2 56 ++ le_bytes 2 2 ++ replicate 6 0 ++
  le_bytes 4 PT_LOAD ++ le_bytes 4 7 ++ le_bytes 8 0x2000 ++ le_bytes 8 0xfffffc0000310000 ++
  le_bytes 8 0 ++ le_bytes 8 0x4000 ++ le_bytes 8 0x4000 ++ le_bytes 8 0x2000 ++
  le_bytes 4 PT_LOAD ++ le_bytes 4 7 ++ le_bytes 8 0x6000 ++ le_bytes 8 0xfffffc0000314000 ++
  le_bytes 8 0 ++ le_bytes 8 0x1000 ++ le_bytes 8 0x9000 ++ le_bytes 8 0x2000.

Definition example_aboot : aboot (cstate refcon) :=
  Aboot example_ustate 0 0 [] 0 (replicate 256 0) (replicate 256 0) (replicate 256 0) 0 0 0 0.

Definition example_header : elf_header :=
  ElfHeader 0xfffffc0000310000 64 2
    [Phdr PT_LOAD 0x2000 0xfffffc0000310000 0x4000 0x4000;
     Phdr PT_LOAD 0x6000 0xfffffc0000314000 0x1000 0x9000].

Lemma elf_chunks_loaded_witness :
  let _ := cons_io 10 : ConsIO (cstate refcon) in
  ∃ s', is_loadable_elf example_elf 512 example_aboot = Ret true s' ∧
    chunks s' = map segment_of (filter is_load (h_table example_header)) ∧
    nchunks s' = zlen (chunks s') ∧
    entry_addr s' = h_entry example_header ∧
    Some (start_addr s') = p_vaddr <$> hd_error (h_table example_header) ∧
    (bss_start s', bss_size s') = bss_of (0, 0) (h_table example_header).
Proof.
  cbv zeta. eapply (elf_chunks_loaded (H := cons_io 10) example_elf 512 example_header example_aboot).
  - vm_compute. reflexivity.
  - vm_compute. discriminate.
  - cbn. lia.
  - cbn. lia.
  - repeat constructor; vm_compute; reflexivity.
  - cbn. lia.
  - vm_compute. lia.
  - vm_compute. reflexivity.
Defined.

(** [bss_size] is never reset: once a file with a bss has been looked at,
    no file that has one is accepted, so a failed boot cannot be retried. *)
Theorem elf_stale_bss {K} `{ConsIO K} buf bs h s s' :
  parse_elf buf = Some h → h_phoff h + h_phnum h * sizeof_phdr <= u32 bs →
  0 <= h_phoff h → 0 < h_phnum h →
  0 < bss_size s → bss_headers (h_table h) ≠ [] →
  is_loadable_elf buf bs s ≠ Ret true s'.
Proof.
  intros Hp Hfit H0 Hn Hb Hh E.
  destruct (is_loadable_elf_parsed buf bs h s Hp Hfit H0 Hn) as (p&_&Etb&E').
  rewrite E' in E. apply bind_inv in E as (q&s1&Em&E). apply bind_inv in E as (t&s2&Es&E).
  apply bind_inv in E as (ok&s3&El&E). destruct ok; [|done].
  apply Hh. eapply load_phdrs_stale; [|  |exact El].
  - by rewrite Z.mul_0_l, Z.add_0_r.
  - injection Es as _ <-. cbn. unfold on_sys in Em.
    destruct (malloc _ _); [|done..]. by injection Em as _ <-.
Qed.

Lemma elf_stale_bss_witness :
  let _ := cons_io 10 : ConsIO (cstate refcon) in
  let s := Aboot example_ustate 0 0 [] 0 [] [] [] 0 0x8000 0 0 in
  is_loadable_elf example_elf 512 s ≠ Ret true s.
Proof.
  cbv zeta. apply (elf_stale_bss (H := cons_io 10) example_elf 512 example_header).
  - vm_compute. reflexivity.
  - vm_compute. discriminate.
  - cbn. lia.
  - cbn. lia.
  - cbn. lia.
  - vm_compute. discriminate.
Defined.
