(* ===== verification/Bits.v ===== *)
(** * Bit strings

    The bits of integers and of byte strings, least significant bit first, as
    the DEFLATE format numbers them. *)

From S2P Require Import Prelude.

Fixpoint zbits (n : nat) (x : Z) : list bool :=
  match n with
  | O => []
  | S n => Z.odd x :: zbits n (x / 2)
  end.

Fixpoint bval (l : list bool) : Z :=
  match l with
  | [] => 0
  | b :: l => Z.b2z b + 2 * bval l
  end.

(** The bits of a byte string. *)
Definition fbits (l : list Z) : list bool := concat (map (zbits 8) l).

Lemma length_zbits n x : length (zbits n x) = n.
Proof. revert x. induction n; intros x; cbn; auto. Qed.

Lemma bval_range l : 0 <= bval l < 2 ^ zlen l.
Proof.
  induction l as [|b l IH]; [by cbn|]. cbn [bval].
  rewrite zlen_cons, Z.pow_add_r by (pose proof (zlen_nonneg l); lia).
  destruct b; cbn [Z.b2z]; lia.
Qed.

Lemma bval_zbits n x : bval (zbits n x) = x mod 2 ^ Z.of_nat n.
Proof.
  revert x. induction n as [|n IH]; intros x; cbn [bval zbits].
  - cbn. by rewrite Z.mod_1_r.
  - rewrite IH, Nat2Z.inj_succ, Z.pow_succ_r by lia.
    rewrite Z.rem_mul_r by lia. rewrite Zmod_odd. destruct (Z.odd x); cbn [Z.b2z]; lia.
Qed.

Lemma zbits_bval l : zbits (length l) (bval l) = l.
Proof.
  induction l as [|b l IH]; [done|]. cbn [length zbits bval].
  f_equal.
  - rewrite Z.odd_add_mul_2. by destruct b.
  - rewrite Z.mul_comm, Z.div_add by lia. rewrite (Z.div_small (Z.b2z b)) by (destruct b; cbn; lia).
    exact IH.
Qed.

Lemma bval_inj l1 l2 : length l1 = length l2 → bval l1 = bval l2 → l1 = l2.
Proof. intros Hl E. rewrite <- (zbits_bval l1), <- (zbits_bval l2). by rewrite Hl, E. Qed.

Lemma bval_app l1 l2 : bval (l1 ++ l2) = bval l1 + 2 ^ zlen l1 * bval l2.
Proof.
  induction l1 as [|b l1 IH]; [by rewrite Z.mul_1_l|]. cbn [app bval]. rewrite IH, zlen_cons.
  rewrite Z.pow_add_r by (pose proof (zlen_nonneg l1); lia). lia.
Qed.

Lemma zbits_app n m x : zbits (n + m) x = zbits n x ++ zbits m (x / 2 ^ Z.of_nat n).
Proof.
  revert x. induction n as [|n IH]; intros x; cbn [Nat.add zbits app].
  - by rewrite Z.div_1_r.
  - f_equal. rewrite IH. do 2 f_equal.
    rewrite Nat2Z.inj_succ, Z.pow_succ_r, Z.div_div by lia. done.
Qed.

Lemma zbits_mod n x : zbits n (x mod 2 ^ Z.of_nat n) = zbits n x.
Proof. apply bval_inj; [by rewrite !length_zbits|]. rewrite !bval_zbits. apply Z.mod_mod. lia. Qed.

Lemma take_zbits n m x : (n <= m)%nat → take n (zbits m x) = zbits n x.
Proof.
  intros H. replace m with (n + (m - n))%nat by lia. rewrite zbits_app.
  rewrite take_app_le by (rewrite length_zbits; lia). rewrite take_ge; [done|]. by rewrite length_zbits.
Qed.

Lemma drop_zbits n m x : (n <= m)%nat → drop n (zbits m x) = zbits (m - n) (x / 2 ^ Z.of_nat n).
Proof.
  intros H. replace m with (n + (m - n))%nat at 1 by lia. rewrite zbits_app.
  rewrite drop_app_ge by (rewrite length_zbits; lia). by rewrite length_zbits, Nat.sub_diag.
Qed.

Lemma fbits_cons c l : fbits (c :: l) = zbits 8 c ++ fbits l.
Proof. done. Qed.

Lemma fbits_app l1 l2 : fbits (l1 ++ l2) = fbits l1 ++ fbits l2.
Proof. unfold fbits. by rewrite map_app, concat_app. Qed.

Lemma length_fbits l : length (fbits l) = (8 * length l)%nat.
Proof.
  induction l as [|c l IH]; [done|]. rewrite fbits_cons, length_app, length_zbits, IH. cbn [length]. lia.
Qed.

Lemma byte_zbits c : is_byte c → bval (zbits 8 c) = c.
Proof. intros H. rewrite bval_zbits. apply Z.mod_small. exact H. Qed.

Lemma fbits_inj l1 l2 :
  Forall is_byte l1 → Forall is_byte l2 → fbits l1 = fbits l2 → l1 = l2.
Proof.
  intros H1. revert l2. induction H1 as [|c l1 Hc _ IH]; intros l2 H2 E; destruct H2 as [|d l2 Hd H2]; try done.
  rewrite !fbits_cons in E. apply app_inj_1 in E as [Ec E]; [|by rewrite !length_zbits].
  f_equal; [|by apply IH]. by rewrite <- (byte_zbits c), <- (byte_zbits d), Ec.
Qed.
