(* ===== verification/Huft.v ===== *)
(** * zip/inflate.c: the decoding tables

    What inflate needs of misc.c and utils.c is the class [InflateEnv]; the
    state is that environment with the globals of inflate.c and the tables
    [huft_build] has allocated.  A pointer to a table is its number in
    allocation order, NULL is [None]; an entry that has not been written is
    [None], and reading it a [Trap]; so it is with the array [v] of [huft_build].  [unsigned] is 32 bits wide. *)

From Stdlib Require Import Ascii String.
From S2P Require Import Prelude CString Vsprintf.

Open Scope Z_scope.
Open Scope list_scope.

(** ** The environment *)

Class InflateEnv (St : Type) := {
  get_byte : M St Z;                    (* gzip.h, with fill_inbuf *)
  unget_byte : M St unit;               (* inptr-- *)
  flush_window : M St unit;             (* misc.c *)
  env_malloc : Z → M St Z;
  env_unzip_error : ∀ A, string → M St A;
  window : St → list Z;                 (* slide *)
  set_window : list Z → St → St;
  outcnt : St → Z;                      (* wp *)
  set_outcnt : Z → St → St
}.

(** ** Tables *)

Inductive hval :=
| VN (n : Z)            (* literal, length base, or distance base *)
| VT (t : Z).           (* next level of table *)

Record huft := Huft { h_e : Z; h_b : Z; h_v : hval }.

(** A table behind its dummy first entry, which links to the next table. *)
Record htable := HTable { h_link : option Z; h_ents : list (option huft) }.

Record ist (St : Type) := IState {
  env : St;
  bb : Z;
  bk : Z;
  hufts : Z;
  heap : list htable
}.
Arguments IState {St} env bb bk hufts heap.
Arguments env {St} i.
Arguments bb {St} i.
Arguments bk {St} i.
Arguments hufts {St} i.
Arguments heap {St} i.

Definition BMAX : Z := 16.
Definition N_MAX : Z := 288.
Definition sizeof_huft : Z := 16.

Section huft.
Context {St : Type} `{InflateEnv St}.

Definition on_env {A} (m : M St A) : M (ist St) A := λ s,
  let put e := IState e (bb s) (bk s) (hufts s) (heap s) in
  match m (env s) with
  | Ret a e => Ret a (put e)
  | Jump x e => Jump x (put e)
  | Trap => Trap
  | Diverge => Diverge
  end.

Definition set_heap (h : list htable) : M (ist St) unit :=
  modify (λ s, IState (env s) (bb s) (bk s) (hufts s) h).

Definition set_hufts (n : Z) : M (ist St) unit :=
  modify (λ s, IState (env s) (bb s) (bk s) n (heap s)).

(** malloc of a table of [z] entries, and its link. *)
Definition new_table (z : Z) : M (ist St) Z :=
  on_env (env_malloc (u64 (u32 (z + 1) * sizeof_huft))) ;;;
  let! n := gets hufts in
  set_hufts (u32 (n + u32 (z + 1))) ;;;
  let! h := gets heap in
  set_heap (h ++ [HTable None (replicate (Z.to_nat z) None)]) ;;;
  ret (zlen h).

Definition get_entry (t : option Z) (i : Z) : M (ist St) huft :=
  let! h := gets heap in
  match t with
  | None => trap
  | Some t =>
      let! tab := lift_opt (aget h t) in
      let! ent := lift_opt (aget (h_ents tab) i) in
      lift_opt ent
  end.

Definition set_entry (t : option Z) (i : Z) (r : huft) : M (ist St) unit :=
  let! h := gets heap in
  match t with
  | None => trap
  | Some t =>
      let! tab := lift_opt (aget h t) in
      let! ents := lift_opt (aset (h_ents tab) i (Some r)) in
      let! h := lift_opt (aset h t (HTable (h_link tab) ents)) in
      set_heap h
  end.

Definition set_link (t : Z) (l : option Z) : M (ist St) unit :=
  let! h := gets heap in
  let! tab := lift_opt (aget h t) in
  let! h := lift_opt (aset h t (HTable l (h_ents tab))) in
  set_heap h.

(** ** huft_build *)

(* c[*p++]++ over the code lengths *)
Fixpoint count_lengths (b c : list Z) : option (list Z) :=
  match b with
  | [] => Some c
  | l :: b =>
      let? n := aget c l in
      let? c := aset c l (n + 1) in
      count_lengths b c
  end.

(* for (j = 1; j <= BMAX; j++) if (c[j]) break; *)
Fixpoint min_length (fuel : nat) (c : list Z) (j : Z) : Z :=
  match fuel with
  | O => j
  | S n =>
      if j <=? BMAX then
        if default 0 (aget c j) =? 0 then min_length n c (j + 1) else j
      else j
  end.

(* for (i = BMAX; i; i--) if (c[i]) break; *)
Fixpoint max_length (fuel : nat) (c : list Z) (i : Z) : Z :=
  match fuel with
  | O => i
  | S n =>
      if i =? 0 then i
      else if default 0 (aget c i) =? 0 then max_length n c (i - 1) else i
  end.

(* for (; j < i; j++, y <<= 1) if ((y -= c[j]) < 0) return 2; *)
Fixpoint dummy_codes (fuel : nat) (c : list Z) (j i y : Z) : option Z :=
  match fuel with
  | O => None
  | S n =>
      if j <? i then
        let y := y - default 0 (aget c j) in
        if y <? 0 then None else dummy_codes n c (j + 1) i (2 * y)
      else
        let y := y - default 0 (aget c i) in
        if y <? 0 then None else Some y
  end.

(* while (--i) *xp++ = (j += *p++), from p = c + 1 *)
Fixpoint offsets (n : nat) (c : list Z) (p j : Z) : list Z :=
  match n with
  | O => []
  | S n =>
      let j := j + default 0 (aget c p) in
      j :: offsets n c (p + 1) j
  end.

(* v[x[j]++] = i for each code i of length j *)
Fixpoint sort_values (b : list Z) (i : Z) (x : list Z) (v : list (option Z)) : option (list (option Z) * list Z) :=
  match b with
  | [] => Some (v, x)
  | j :: b =>
      if j =? 0 then sort_values b (i + 1) x v
      else
        let? o := aget x j in
        let? v := aset v o (Some i) in
        let? x := aset x j (o + 1) in
        sort_values b (i + 1) x v
  end.

(* while (++j < z) if ((f <<= 1) <= *++xp) break; f -= *xp; *)
Fixpoint smaller_table (fuel : nat) (c : list Z) (xp j z f : Z) : option Z :=
  match fuel with
  | O => None
  | S n =>
      let j := j + 1 in
      if j <? z then
        let f := u32 (2 * f) in
        let xp := xp + 1 in
        let? cx := aget c xp in
        if f <=? cx then Some j else smaller_table n c xp j z (u32 (f - cx))
      else Some j
  end.

(** The variables of the table-making loops that outlive a code: the table
    stack [u] and the code stack [x], the level [h], the bits before the
    table [w], the code [i], the value pointer [p], the current table [q] of
    [z] entries, and the pointer [t] the next table is linked from. *)
Record hloop := HLoop {
  l_h : Z; l_w : Z; l_i : Z; l_p : Z; l_q : option Z; l_z : Z;
  l_u : list (option Z); l_x : list Z;
  l_first : option Z;        (* the table huft_build returns *)
  l_last : option Z          (* the table whose link is *t, once there is one *)
}.

(* while (k > w + l): make tables up to the required level *)
Definition make_tables (c : list Z) (g l k a : Z) : hloop → M (ist St) hloop :=
  loop 17 (λ s : hloop,
    if l_w s + l <? k then
      let h := l_h s + 1 in
      let w := l_w s + l in
      let z := u32 (g - w) in
      let z := if u32 l <? z then l else z in
      let j := k - w in
      let f := u32 (Z.shiftl 1 j) in
      let! j := lift_opt
        (if u32 (a + 1) <? f then smaller_table 17 c k j z (u32 (f - u32 (a + 1)))
         else Some j) in
      let z := u32 (Z.shiftl 1 j) in
      let! q := new_table z in
      match l_last s with Some t => set_link t (Some q) | None => ret tt end ;;;
      let first := match l_first s with None => Some q | Some f => Some f end in
      let! u := lift_opt (aset (l_u s) h (Some q)) in
      let! x :=
        (if negb (h =? 0) then
           let! x := lift_opt (aset (l_x s) h (l_i s)) in
           let! up := lift_opt (aget u (h - 1)) in
           set_entry up (Z.shiftr (l_i s) (w - l)) (Huft (u8 (16 + j)) (u8 l) (VT q)) ;;;
           ret x
         else ret (l_x s)) in
      ret (inl (HLoop h w (l_i s) (l_p s) (Some q) z u x first (Some q)))
    else ret (inr s)).

(* for (j = i >> w; j < z; j += f) q[j] = r *)
Fixpoint fill_entries (fuel : nat) (q : option Z) (j z f : Z) (r : huft) : M (ist St) unit :=
  match fuel with
  | O => diverge
  | S n =>
      if j <? z then set_entry q j r ;;; fill_entries n q (j + f) z f r
      else ret tt
  end.

(* backwards increment the k-bit code i *)
Fixpoint back_increment (fuel : nat) (i j : Z) : Z :=
  match fuel with
  | O => Z.lxor i j
  | S n =>
      if Z.land i j =? 0 then Z.lxor i j
      else back_increment n (Z.lxor i j) (Z.shiftr j 1)
  end.

(* while ((i & ((1 << w) - 1)) != x[h]) h--, w -= l *)
Fixpoint back_up (fuel : nat) (l i h w : Z) (x : list Z) : option (Z * Z) :=
  match fuel with
  | O => None
  | S n =>
      let? xh := aget x h in
      if Z.land i (Z.shiftl 1 w - 1) =? xh then Some (h, w)
      else back_up n l i (h - 1) (w - l) x
  end.

(* the entry r for value *p; a value that has not been written has none *)
Definition code_entry (n s : Z) (v : list (option Z)) (d e : list Z) (k w p : Z) : option (huft * Z) :=
  let b := u8 (k - w) in
  if n <=? p then Some (Huft 99 b (VN 0), p)
  else
    let? vp := aget v p in
    let? vp := vp in
    if vp <? s then Some (Huft (if vp <? 256 then 16 else 15) b (VN vp), p + 1)
    else
      let? ee := aget e (vp - s) in
      let? dd := aget d (vp - s) in
      Some (Huft (u8 ee) b (VN dd), p + 1).

(* while (a--): the codes of length k *)
Fixpoint codes_of_length (n s : Z) (v : list (option Z)) (d e c : list Z) (g l k : Z) (a : nat)
    (st : hloop) : M (ist St) hloop :=
  match a with
  | O => ret st
  | S a =>
      let! st := make_tables c g l k (Z.of_nat a) st in
      let! ' (r, p) := lift_opt (code_entry n s v d e k (l_w st) (l_p st)) in
      fill_entries (S (Z.to_nat (l_z st))) (l_q st) (Z.shiftr (l_i st) (l_w st)) (l_z st)
        (Z.shiftl 1 (k - l_w st)) r ;;;
      let i := back_increment 17 (l_i st) (Z.shiftl 1 (k - 1)) in
      let! ' (h, w) := lift_opt (back_up 17 l i (l_h st) (l_w st) (l_x st)) in
      codes_of_length n s v d e c g l k a
        (HLoop h w i p (l_q st) (l_z st) (l_u st) (l_x st) (l_first st) (l_last st))
  end.

(* for (; k <= g; k++) *)
Fixpoint all_codes (fuel : nat) (n s : Z) (v : list (option Z)) (d e c : list Z) (g l k : Z) (st : hloop) :
    M (ist St) hloop :=
  match fuel with
  | O => diverge
  | S fl =>
      if k <=? g then
        let! a := lift_opt (aget c k) in
        let! st := codes_of_length n s v d e c g l k (Z.to_nat a) st in
        all_codes fl n s v d e c g l (k + 1) st
      else ret st
  end.

(** The value returned, the table left in the result and the lookup bits;
    without a table the caller's pointer is what it was. *)
Definition huft_build (b : list Z) (n s : Z) (d e : list Z) (m : Z) :
    M (ist St) (Z * option Z * Z) :=
  let! lens := lift_opt (aslice b 0 n) in
  let! c := lift_opt (count_lengths lens (replicate 17 0)) in
  if default 0 (aget c 0) =? n then ret (0, None, 0)
  else
    let j := min_length 17 c 1 in
    let l := if m <? j then j else m in
    let i := max_length 17 c BMAX in
    let l := if i <? l then i else l in
    match dummy_codes 17 c j i (Z.shiftl 1 j) with
    | None => ret (2, None, l)
    | Some y =>
        let! ci := lift_opt (aget c i) in
        let! c := lift_opt (aset c i (ci + y)) in
        let x := 0 :: 0 :: offsets (Z.to_nat (i - 1)) c 1 0 in
        let x := x ++ replicate (17 - length x) 0 in
        let! ' (v, x) := lift_opt (sort_values lens 0 x (replicate 288 None)) in
        let! x := lift_opt (aset x 0 0) in
        let st := HLoop (-1) (- l) 0 0 None 0 (replicate 16 None) x None None in
        let! st := all_codes 18 n s v d e c i l j st in
        ret (if negb (y =? 0) && negb (i =? 1) then 1 else 0, l_first st, l)
    end.

(** Walks the links; [free] does nothing. *)
Fixpoint huft_free (fuel : nat) (t : option Z) : M (ist St) unit :=
  match fuel with
  | O => diverge
  | S n =>
      match t with
      | None => ret tt
      | Some t =>
          let! h := gets heap in
          let! tab := lift_opt (aget h t) in
          huft_free n (h_link tab)
      end
  end.
End huft.
