(* ===== verification/Inflate.v ===== *)
(** * zip/inflate.c: decompression

    The local copies [b] and [k] of the bit buffer are threaded through the
    functions the way the C code keeps them in registers: they are written back
    only where the code does so. *)

From Stdlib Require Import Ascii String.
From S2P Require Import Prelude CString Vsprintf Huft.

Open Scope Z_scope.
Open Scope list_scope.

Definition WSIZE : Z := 0x8000.

(** ** Tables of the format *)

Definition border : list Z := [16; 17; 18; 0; 8; 7; 9; 6; 10; 5; 11; 4; 12; 3; 13; 2; 14; 1; 15].

Definition cplens : list Z :=
  [3; 4; 5; 6; 7; 8; 9; 10; 11; 13; 15; 17; 19; 23; 27; 31;
   35; 43; 51; 59; 67; 83; 99; 115; 131; 163; 195; 227; 258; 0; 0].

Definition cplext : list Z :=
  [0; 0; 0; 0; 0; 0; 0; 0; 1; 1; 1; 1; 2; 2; 2; 2;
   3; 3; 3; 3; 4; 4; 4; 4; 5; 5; 5; 5; 0; 99; 99].

Definition cpdist : list Z :=
  [1; 2; 3; 4; 5; 7; 9; 13; 17; 25; 33; 49; 65; 97; 129; 193;
   257; 385; 513; 769; 1025; 1537; 2049; 3073; 4097; 6145;
   8193; 12289; 16385; 24577].

Definition cpdext : list Z :=
  [0; 0; 0; 0; 1; 1; 2; 2; 3; 3; 4; 4; 5; 5; 6; 6;
   7; 7; 8; 8; 9; 9; 10; 10; 11; 11;
   12; 12; 13; 13].

Definition mask_bits : list Z :=
  [0x0000;
   0x0001; 0x0003; 0x0007; 0x000f; 0x001f; 0x003f; 0x007f; 0x00ff;
   0x01ff; 0x03ff; 0x07ff; 0x0fff; 0x1fff; 0x3fff; 0x7fff; 0xffff].

Definition lbits : Z := 9.
Definition dbits : Z := 6.

Section inflate.
Context {St : Type} `{InflateEnv St}.

(** The local bit buffer: b and k. *)
Definition bits : Type := Z * Z.

(* NEEDBITS(n): each turn adds 8 bits *)
Definition needbits (n : Z) (bk : bits) : M (ist St) bits :=
  loop (S (Z.to_nat n)) (λ '(b, k),
    if k <? n then
      let! c := on_env get_byte in
      ret (inl (u64 (Z.lor b (Z.shiftl (u8 c) k)), k + 8))
    else ret (inr (b, k))) bk.

(* DUMPBITS(n) *)
Definition dumpbits (n : Z) (bk : bits) : bits := (Z.shiftr (fst bk) n, u32 (snd bk - n)).

(* (unsigned)b & mask *)
Definition lowbits (bk : bits) (mask : Z) : Z := Z.land (u32 (fst bk)) mask.

Definition masked (n : Z) (bk : bits) : M (ist St) Z :=
  let! m := lift_opt (aget mask_bits n) in
  ret (lowbits bk m).

Definition get_globals : M (ist St) bits := gets (λ s, (bb s, bk s)).
Definition put_globals (bk : bits) : M (ist St) unit :=
  modify (λ s, IState (env s) (fst bk) (snd bk) (hufts s) (heap s)).

Definition get_wp : M (ist St) Z := gets (λ s, outcnt (env s)).
Definition put_wp (w : Z) : M (ist St) unit :=
  modify (λ s, IState (set_outcnt w (env s)) (bb s) (bk s) (hufts s) (heap s)).

Definition get_slide : M (ist St) (list Z) := gets (λ s, window (env s)).
Definition put_slide (l : list Z) : M (ist St) unit :=
  modify (λ s, IState (set_window l (env s)) (bb s) (bk s) (hufts s) (heap s)).

Definition flush_output (w : Z) : M (ist St) unit := put_wp w ;;; on_env flush_window.

(* slide[w++] = c *)
Definition put_byte (w c : Z) : M (ist St) Z :=
  let! sl := get_slide in
  let! sl := lift_opt (aset sl w (u8 c)) in
  put_slide sl ;;;
  ret (w + 1).

(* if (w == WSIZE) { flush_output(w); w = 0; } *)
Definition flush_full (w : Z) : M (ist St) Z :=
  if w =? WSIZE then flush_output w ;;; ret 0 else ret w.

(** ** inflate_codes *)

(* if ((e = ...) > 16) do ... while ((e = ...) > 16): from an entry to the
   entry of the symbol, or nothing for an invalid code *)
Definition walk_tables (ent : huft) (bk : bits) : M (ist St) (option huft * bits) :=
  loop 17 (λ '(ent, bk),
    if 16 <? h_e ent then
      if h_e ent =? 99 then ret (inr (None, bk))
      else
        let bk := dumpbits (h_b ent) bk in
        let e := h_e ent - 16 in
        let! bk := needbits e bk in
        let! i := masked e bk in
        match h_v ent with
        | VT t => let! ent := get_entry (Some t) i in ret (inl (ent, bk))
        | VN _ => trap
        end
    else ret (inr (Some ent, bk))) (ent, bk).

Definition lookup_code (t : option Z) (nbits : Z) (bk : bits) : M (ist St) (option huft * bits) :=
  let! m := lift_opt (aget mask_bits nbits) in
  let! bk := needbits nbits bk in
  let! ent := get_entry t (lowbits bk m) in
  walk_tables ent bk.

Definition base_of (ent : huft) : M (ist St) Z :=
  match h_v ent with VN n => ret n | VT _ => trap end.

(* the slow loop: do slide[w++] = slide[d++]; while (--e); *)
Fixpoint copy_slow (e : nat) (w d : Z) : M (ist St) (Z * Z) :=
  match e with
  | O => ret (w, d)
  | S e =>
      let! sl := get_slide in
      let! c := lift_opt (aget sl d) in
      let! sl := lift_opt (aset sl w c) in
      put_slide sl ;;;
      copy_slow e (w + 1) (d + 1)
  end.

(* memcpy within the window *)
Definition copy_block (e w d : Z) : M (ist St) (Z * Z) :=
  let! sl := get_slide in
  let! src := lift_opt (aslice sl d e) in
  let! sl := lift_opt (asplice sl w src) in
  put_slide sl ;;;
  ret (w + e, d + e).

(* do the copy: n bytes, w and d positions in the window *)
Definition copy_match (n w d : Z) : M (ist St) Z :=
  loop (S (Z.to_nat n)) (λ '(n, w, d),
    let d := Z.land d (WSIZE - 1) in
    let e := u32 (WSIZE - (if w <? d then d else w)) in
    let e := if n <? e then n else e in
    let n := u32 (n - e) in
    let! ' (w, d) :=
      (if e <=? u32 (w - d) then copy_block e w d
       else copy_slow (Z.to_nat e) w d) in
    let! w := flush_full w in
    ret (if negb (n =? 0) then inl (n, w, d) else inr w)) (n, w, d).

(** One symbol, from the state of the loop to the next; or the value
    inflate_codes leaves its loop with. *)
Definition codes_step (tl td : option Z) (bl bd : Z) (st : bits * Z) :
    M (ist St) (bits * Z + option (bits * Z)) :=
  let '(bk, w) := st in
  let! ' (ent, bk) := lookup_code tl bl bk in
  match ent with
  | None => ret (inr None)
  | Some t =>
      let bk := dumpbits (h_b t) bk in
      if h_e t =? 16 then
        let! n := base_of t in
        let! w := put_byte w n in
        let! w := flush_full w in
        ret (inl (bk, w))
      else if h_e t =? 15 then ret (inr (Some (bk, w)))
      else
        let! bk := needbits (h_e t) bk in
        let! x := masked (h_e t) bk in
        let! base := base_of t in
        let n := u32 (base + x) in
        let bk := dumpbits (h_e t) bk in
        let! ' (ent, bk) := lookup_code td bd bk in
        match ent with
        | None => ret (inr None)
        | Some t =>
            let bk := dumpbits (h_b t) bk in
            let! bk := needbits (h_e t) bk in
            let! x := masked (h_e t) bk in
            let! base := base_of t in
            let d := u32 (w - base - x) in
            let bk := dumpbits (h_e t) bk in
            let! w := copy_match n w d in
            ret (inl (bk, w))
        end
  end.

(** [fuel] bounds the symbols of a block. *)
Definition inflate_codes (fuel : nat) (tl td : option Z) (bl bd : Z) : M (ist St) Z :=
  let! bk := get_globals in
  let! w := get_wp in
  let! r := loop fuel (codes_step tl td bl bd) (bk, w) in
  match r with
  | None => ret 1
  | Some (bk, w) => put_wp w ;;; put_globals bk ;;; ret 0
  end.

(** ** Blocks *)

Fixpoint stored_bytes (n : nat) (bk : bits) (w : Z) : M (ist St) (bits * Z) :=
  match n with
  | O => ret (bk, w)
  | S n =>
      let! bk := needbits 8 bk in
      let! w := put_byte w (fst bk) in
      let! w := flush_full w in
      stored_bytes n (dumpbits 8 bk) w
  end.

Definition inflate_stored : M (ist St) Z :=
  let! bk := get_globals in
  let! w := get_wp in
  let bk := dumpbits (Z.land (snd bk) 7) bk in
  let! bk := needbits 16 bk in
  let n := lowbits bk 0xffff in
  let bk := dumpbits 16 bk in
  let! bk := needbits 16 bk in
  if negb (n =? u32 (Z.land (Z.lnot (fst bk)) 0xffff)) then ret 1
  else
    let bk := dumpbits 16 bk in
    let! ' (bk, w) := stored_bytes (Z.to_nat n) bk w in
    put_wp w ;;;
    put_globals bk ;;;
    ret 0.

Definition fixed_lengths : list Z :=
  replicate 144 8 ++ replicate 112 9 ++ replicate 24 7 ++ replicate 8 8.

(* the distance lengths overwrite the first of them *)
Definition fixed_dist_lengths : list Z := replicate 30 5 ++ drop 30 fixed_lengths.

(* the tables are freed by walking their links: enough turns for all *)
Definition free_tables (t : option Z) : M (ist St) unit :=
  let! h := gets heap in huft_free (S (length h)) t.

Definition inflate_fixed (fuel : nat) : M (ist St) Z :=
  let! ' (i, tl, bl) := huft_build fixed_lengths 288 257 cplens cplext 7 in
  if negb (i =? 0) then ret i
  else
    let! ' (i, td, bd) := huft_build fixed_dist_lengths 30 0 cpdist cpdext 5 in
    if 1 <? i then free_tables tl ;;; ret i
    else
      let! r := inflate_codes fuel tl td bl bd in
      if negb (r =? 0) then ret 1
      else
        free_tables tl ;;;
        free_tables td ;;;
        ret 0.

(* the bit-length-code lengths, in the order of border *)
Fixpoint read_border (order : list Z) (nb : Z) (ll : list Z) (bk : bits) :
    M (ist St) (list Z * bits) :=
  match order with
  | [] => ret (ll, bk)
  | o :: order =>
      if 0 <? nb then
        let! bk := needbits 3 bk in
        let! ll := lift_opt (aset ll o (lowbits bk 7)) in
        read_border order (nb - 1) ll (dumpbits 3 bk)
      else
        let! ll := lift_opt (aset ll o 0) in
        read_border order nb ll bk
  end.

(* while (j--) ll[i++] = x *)
Fixpoint repeat_length (j : nat) (ll : list Z) (i x : Z) : option (list Z * Z) :=
  match j with
  | O => Some (ll, i)
  | S j => let? ll := aset ll i x in repeat_length j ll (i + 1) x
  end.

(* 16, 17, 18: a repeat of x, its count in nb bits from base *)
Definition repeat_code (nb mask base x last n : Z) (ll : list Z) (i : Z) (bk : bits) :
    M (ist St) (list Z * Z * Z * bits + option (list Z * bits)) :=
  let! bk := needbits nb bk in
  let j := base + lowbits bk mask in
  let bk := dumpbits nb bk in
  if n <? i + j then ret (inr None)
  else
    let! ' (ll, i) := lift_opt (repeat_length (Z.to_nat j) ll i x) in
    ret (inl (ll, i, last, bk)).

Definition lengths_step (tl : option Z) (bl m n : Z) (st : list Z * Z * Z * bits) :
    M (ist St) (list Z * Z * Z * bits + option (list Z * bits)) :=
  let '(ll, i, l, bk) := st in
  if i <? n then
    let! bk := needbits bl bk in
    let! ent := get_entry tl (lowbits bk m) in
    let bk := dumpbits (h_b ent) bk in
    let! j := base_of ent in
    if j <? 16 then
      let! ll := lift_opt (aset ll i j) in
      ret (inl (ll, i + 1, j, bk))
    else if j =? 16 then repeat_code 2 3 3 l l n ll i bk
    else if j =? 17 then repeat_code 3 7 3 0 0 n ll i bk
    else repeat_code 7 0x7f 11 0 0 n ll i bk
  else ret (inr (Some (ll, bk))).

(** The lengths are at most 286 + 30. *)
Definition read_lengths (tl : option Z) (bl n : Z) (ll : list Z) (bk : bits) :
    M (ist St) (option (list Z * bits)) :=
  let! m := lift_opt (aget mask_bits bl) in
  loop (S (Z.to_nat n)) (lengths_step tl bl m n) (ll, 0, 0, bk).

(** [ll] is on the stack; its first contents do not matter. *)
Definition inflate_dynamic (fuel : nat) : M (ist St) Z :=
  let! bk := get_globals in
  let! bk := needbits 5 bk in
  let nl := 257 + lowbits bk 0x1f in
  let! bk := needbits 5 (dumpbits 5 bk) in
  let nd := 1 + lowbits bk 0x1f in
  let! bk := needbits 4 (dumpbits 5 bk) in
  let nb := 4 + lowbits bk 0xf in
  let bk := dumpbits 4 bk in
  if (286 <? nl) || (30 <? nd) then ret 1
  else
    let! ' (ll, bk) := read_border border nb (replicate 316 0) bk in
    let! ' (i, tl, bl) := huft_build ll 19 19 [] [] 7 in
    if negb (i =? 0) then
      (if i =? 1 then free_tables tl else ret tt) ;;; ret i
    else
      let! r := read_lengths tl bl (nl + nd) ll bk in
      match r with
      | None => ret 1
      | Some (ll, bk) =>
          free_tables tl ;;;
          put_globals bk ;;;
          let! ' (i, tl, bl) := huft_build ll nl 257 cplens cplext lbits in
          if negb (i =? 0) then
            (if i =? 1 then on_env (env_unzip_error unit "incomplete literal tree") ;;; free_tables tl
             else ret tt) ;;;
            ret i
          else
            let! ' (i, td, bd) := huft_build (drop (Z.to_nat nl) ll) nd 0 cpdist cpdext dbits in
            if negb (i =? 0) then
              (if i =? 1 then on_env (env_unzip_error unit "incomplete distance tree") ;;; free_tables td
               else ret tt) ;;;
              free_tables tl ;;;
              ret i
            else
              let! r := inflate_codes fuel tl td bl bd in
              if negb (r =? 0) then ret 1
              else
                free_tables tl ;;;
                free_tables td ;;;
                ret 0
      end.

(** The value returned and the last-block flag. *)
Definition inflate_block (fuel : nat) : M (ist St) (Z * Z) :=
  let! bk := get_globals in
  let! bk := needbits 1 bk in
  let e := lowbits bk 1 in
  let! bk := needbits 2 (dumpbits 1 bk) in
  let t := lowbits bk 3 in
  let bk := dumpbits 2 bk in
  put_globals bk ;;;
  let! r :=
    (if t =? 2 then inflate_dynamic fuel
     else if t =? 0 then inflate_stored
     else if t =? 1 then inflate_fixed fuel
     else ret 2) in
  ret (r, e).

(* while (bk >= 8) { bk -= 8; inptr--; } *)
Definition undo_lookahead : M (ist St) unit :=
  let! ' (_, k) := get_globals in
  loop (S (Z.to_nat k)) (λ k,
    if 8 <=? k then on_env unget_byte ;;; ret (inl (k - 8))
    else
      modify (λ s, IState (env s) (bb s) k (hufts s) (heap s)) ;;;
      ret (inr tt)) k.

Definition inflate_blocks (fuel : nat) : M (ist St) Z :=
  loop fuel (λ _,
    set_hufts 0 ;;;
    let! ' (r, e) := inflate_block fuel in
    ret (if negb (r =? 0) then inr r else if e =? 0 then inl tt else inr 0)) tt.

(** [fuel] bounds the blocks of a member and the symbols of a block. *)
Definition inflate (fuel : nat) : M (ist St) Z :=
  put_wp 0 ;;;
  put_globals (0, 0) ;;;
  let! r := inflate_blocks fuel in
  if negb (r =? 0) then ret r
  else
    undo_lookahead ;;;
    let! w := get_wp in
    flush_output w ;;;
    ret 0.
End inflate.
