(* ===== verification/Deflate.v ===== *)
(** * The DEFLATE decoder refines a decoder of bit strings

    The laws of the environment ([InflateLaws]), a decoder of the format over
    lists of bits with an unbounded output, and the proofs that the bit buffer,
    the sliding window and the tables of zip/inflate.c implement it. *)

From Stdlib Require Import Ascii String.
From S2P Require Import Prelude CString Vsprintf Bits Huft Inflate.

Open Scope Z_scope.
Open Scope list_scope.

(** ** What inflate relies on *)

(** [env_input] is the compressed data not read yet, [env_back] what has been
    read of it (last byte first, as far as it can be given back), [env_output]
    what the flushed windows held, [env_room] the memory [malloc] has left. *)
Class InflateLaws (St : Type) `{InflateEnv St} := {
  env_input : St → list Z;
  env_back : St → list Z;
  env_output : St → list Z;
  env_room : St → Z;
  window_set l s : window (set_window l s) = l;
  outcnt_window l s : outcnt (set_window l s) = outcnt s;
  input_window l s : env_input (set_window l s) = env_input s;
  back_window l s : env_back (set_window l s) = env_back s;
  output_window l s : env_output (set_window l s) = env_output s;
  room_window l s : env_room (set_window l s) = env_room s;
  window_outcnt n s : window (set_outcnt n s) = window s;
  outcnt_set n s : outcnt (set_outcnt n s) = n;
  input_outcnt n s : env_input (set_outcnt n s) = env_input s;
  back_outcnt n s : env_back (set_outcnt n s) = env_back s;
  output_outcnt n s : env_output (set_outcnt n s) = env_output s;
  room_outcnt n s : env_room (set_outcnt n s) = env_room s;
  get_byte_ok s c rest : env_input s = c :: rest →
    ∃ s', get_byte s = Ret c s' ∧ env_input s' = rest ∧ env_back s' = c :: env_back s ∧
      env_output s' = env_output s ∧ window s' = window s ∧ outcnt s' = outcnt s ∧
      env_room s' = env_room s;
  unget_byte_ok s c rest : env_back s = c :: rest →
    ∃ s', unget_byte s = Ret tt s' ∧ env_input s' = c :: env_input s ∧ env_back s' = rest ∧
      env_output s' = env_output s ∧ window s' = window s ∧ outcnt s' = outcnt s ∧
      env_room s' = env_room s;
  flush_window_ok s : 0 <= outcnt s <= zlen (window s) →
    ∃ s', flush_window s = Ret tt s' ∧
      env_output s' = env_output s ++ take (Z.to_nat (outcnt s)) (window s) ∧
      window s' = window s ∧ env_input s' = env_input s ∧ env_back s' = env_back s ∧
      env_room s' = env_room s;
  env_malloc_ok s n : 0 <= n → n + 8 <= env_room s →
    ∃ p s', env_malloc n s = Ret p s' ∧ env_room s' = env_room s - n - 8 ∧
      env_output s' = env_output s ∧ window s' = window s ∧ outcnt s' = outcnt s ∧
      env_input s' = env_input s ∧ env_back s' = env_back s
}.

(** ** The bit buffer *)

Section reader.
Context {St : Type} `{HL : InflateLaws St}.

(** Everything but the reading position is as it was. *)
Definition same_but_input (s s' : ist St) : Prop :=
  window (env s') = window (env s) ∧ outcnt (env s') = outcnt (env s) ∧
  env_output (env s') = env_output (env s) ∧ env_room (env s') = env_room (env s) ∧
  hufts s' = hufts s ∧ heap s' = heap s ∧ bb s' = bb s ∧ bk s' = bk s.

#[export] Instance same_but_input_preorder : PreOrder same_but_input.
Proof.
  split.
  - intros s. by repeat split.
  - intros s1 s2 s3 (?&?&?&?&?&?&?&?) (?&?&?&?&?&?&?&?). repeat split; congruence.
Qed.

(** The buffer [bk] and the input of [s] stand for the bits [bs], in a file
    whose bytes are [full]. *)
Definition reads (full : list Z) (s : ist St) (bk : bits) (bs : list bool) : Prop :=
  rev (env_back (env s)) ++ env_input (env s) = full ∧ Forall is_byte full ∧
  0 <= fst bk < 2 ^ snd bk ∧ 0 <= snd bk <= 32 ∧
  bs = zbits (Z.to_nat (snd bk)) (fst bk) ++ fbits (env_input (env s)) ∧
  ∃ used, fbits (rev (env_back (env s))) = used ++ zbits (Z.to_nat (snd bk)) (fst bk).

(** The reading position is what [reads] depends on. *)
Lemma reads_ext full s s' bk bs :
  reads full s bk bs → env_back (env s') = env_back (env s) →
  env_input (env s') = env_input (env s) → reads full s' bk bs.
Proof. unfold reads. intros Hr -> ->. exact Hr. Qed.

Lemma on_env_Ret {A} (m : M St A) s a e :
  m (env s) = Ret a e → on_env m s = Ret a (IState e (bb s) (bk s) (hufts s) (heap s)).
Proof. unfold on_env. by intros ->. Qed.

Lemma reads_push full s b k bs c rest :
  reads full s (b, k) bs → k <= 24 → env_input (env s) = c :: rest →
  ∃ s', on_env get_byte s = Ret c s' ∧ same_but_input s s' ∧
    reads full s' (u64 (Z.lor b (Z.shiftl (u8 c) k)), k + 8) bs.
Proof.
  intros (Hf&HF&Hb&Hk&Hbs&used&Hu) Hk24 Ein. cbn [fst snd] in *.
  destruct (get_byte_ok (env s) c rest Ein) as (e&E&Ei&Eb&Eo&Ew&Ec&Er).
  exists (IState e (bb s) (bk s) (hufts s) (heap s)).
  split; [by apply on_env_Ret|]. split; [by repeat split|].
  assert (is_byte c) as Hc.
  { rewrite Ein in Hf. rewrite <- Hf, Forall_app in HF. destruct HF as [_ HF]. by inversion HF. }
  rewrite (is_byte_u8 c) by done.
  pose proof (lor_shiftl_add b c k ltac:(lia) Hb) as Elor.
  unfold is_byte in Hc.
  assert (0 <= b + 2 ^ k * c < 2 ^ (k + 8)) as Hrange.
  { rewrite Z.pow_add_r by lia. change (2 ^ 8) with 256. nia. }
  assert (2 ^ (k + 8) <= 2 ^ 32) as H32 by (apply Z.pow_le_mono_r; lia).
  assert (zbits (Z.to_nat (k + 8)) (b + 2 ^ k * c) = zbits (Z.to_nat k) b ++ zbits 8 c) as Ez.
  { replace (Z.to_nat (k + 8)) with (Z.to_nat k + 8)%nat by lia.
    rewrite zbits_app, Z2Nat.id by lia. f_equal.
    - rewrite <- (zbits_mod _ (b + _)), Z2Nat.id by lia. f_equal.
      rewrite Z.mul_comm, Z.mod_add by lia. by apply Z.mod_small.
    - f_equal. rewrite Z.mul_comm, Z.div_add, Z.div_small by lia. lia. }
  rewrite Elor, (wrap_small 64) by lia. unfold reads. cbn [env fst snd].
  rewrite Ei, Eb. split; [by rewrite <- Hf, Ein; cbn [rev]; rewrite <- app_assoc|].
  split; [done|]. split; [done|]. split; [lia|]. split.
  - rewrite Ez, Hbs, Ein, fbits_cons. by rewrite <- app_assoc.
  - exists used. cbn [rev]. rewrite fbits_app, Hu, Ez. unfold fbits at 1. cbn [map concat].
    by rewrite app_nil_r, app_assoc.
Qed.

Lemma reads_length full s bk bs :
  reads full s bk bs → zlen bs = snd bk + 8 * zlen (env_input (env s)).
Proof.
  intros (_&_&_&Hk&->&_). unfold zlen. rewrite length_app, length_zbits, length_fbits. lia.
Qed.

(** NEEDBITS: afterwards the buffer holds at least [n] bits, and stands for
    the same bits. *)
Lemma needbits_ok full n s bk bs :
  reads full s bk bs → 0 <= n <= 16 → snd bk <= 24 → n <= zlen bs →
  ∃ bk' s', needbits n bk s = Ret bk' s' ∧ same_but_input s s' ∧ reads full s' bk' bs ∧
    n <= snd bk' ∧ (snd bk' = snd bk ∨ snd bk' < n + 8).
Proof.
  intros Hr Hn Hk Hlen. unfold needbits.
  set (Q := λ (bk' : bits) s', same_but_input s s' ∧ reads full s' bk' bs ∧ n <= snd bk' ∧
      (snd bk' = snd bk ∨ snd bk' < n + 8)).
  match goal with |- ∃ b' s', ?m s = _ ∧ _ =>
    assert (∃ b' s', m s = Ret b' s' ∧ Q b' s') as (bk'&s'&E&HQ) end.
  2:{ exists bk', s'. exact (conj E HQ). }
  apply loop_total with
    (I := λ bk' s', same_but_input s s' ∧ reads full s' bk' bs ∧
      (snd bk' = snd bk ∨ snd bk' < n + 8))
    (meas := λ bk' _, Z.to_nat (n - snd bk')).
  - intros [b k] s1 (Hs&Hr1&Hb1). cbn [snd] in *.
    destruct (Z.ltb_spec k n) as [Hlt|Hge].
    + left. destruct (env_input (env s1)) as [|c rest] eqn:Ein.
      { apply reads_length in Hr1. rewrite Ein in Hr1. cbn [snd] in Hr1.
        change (zlen []) with 0 in Hr1. lia. }
      destruct (reads_push full s1 b k bs c rest Hr1) as (s2&E&Hs2&Hr2); [lia|done|].
      exists (u64 (Z.lor b (Z.shiftl (u8 c) k)), k + 8), s2. rewrite (bind_Ret _ _ _ _ _ E).
      cbn [snd]. destruct Hr1 as (_&_&_&Hk1&_). cbn [snd] in Hk1.
      split; [done|]. split; [|lia]. split; [by etransitivity|]. split; [done|lia].
    + right. exists (b, k), s1. split; [done|]. unfold Q. cbn [snd]. split; [done|]. split; [done|]. lia.
  - split; [reflexivity|]. split; [done|]. by left.
  - destruct Hr as (_&_&_&Hk0&_). lia.
Qed.

(** DUMPBITS drops the bits from the string. *)
Lemma dumpbits_ok full n s bk bs :
  reads full s bk bs → 0 <= n <= snd bk →
  reads full s (dumpbits n bk) (drop (Z.to_nat n) bs) ∧ snd (dumpbits n bk) = snd bk - n.
Proof.
  destruct bk as [b k]. intros (Hf&HF&Hb&Hk&->&used&Hu) Hn. cbn [fst snd] in *.
  unfold dumpbits. cbn [fst snd]. rewrite (wrap_small 32) by lia. split; [|done].
  rewrite Z.shiftr_div_pow2 by lia. unfold reads. cbn [fst snd].
  split; [done|]. split; [done|]. split.
  { split; [apply Z.div_pos; lia|]. apply Z.div_lt_upper_bound; [lia|].
    rewrite <- Z.pow_add_r by lia. replace (n + (k - n)) with k by lia. lia. }
  split; [lia|].
  assert (drop (Z.to_nat n) (zbits (Z.to_nat k) b) = zbits (Z.to_nat (k - n)) (b / 2 ^ n)) as Ed.
  { rewrite drop_zbits by lia. rewrite Z2Nat.id by lia. f_equal. lia. }
  split.
  - rewrite drop_app_le by (rewrite length_zbits; lia). by rewrite Ed.
  - exists (used ++ take (Z.to_nat n) (zbits (Z.to_nat k) b)).
    rewrite Hu, <- app_assoc. f_equal. rewrite <- Ed. symmetry. apply take_drop.
Qed.

(** The masked buffer is the number the first bits make. *)
Lemma lowbits_ok full n s bk bs :
  reads full s bk bs → 0 <= n <= snd bk → n <= 16 →
  lowbits bk (Z.ones n) = bval (take (Z.to_nat n) bs).
Proof.
  destruct bk as [b k]. intros (_&_&Hb&Hk&->&_) Hn H16. cbn [fst snd] in *.
  rewrite take_app_le by (rewrite length_zbits; lia). rewrite take_zbits by lia.
  rewrite bval_zbits, Z2Nat.id by lia. unfold lowbits. cbn [fst].
  rewrite Z.land_ones by lia. unfold wrap.
  assert (Hd : (2 ^ n | 2 ^ 32)). { exists (2 ^ (32 - n)). rewrite <- Z.pow_add_r by lia. f_equal. lia. }
  rewrite <- Znumtheory.Zmod_div_mod; [done|lia|lia|done].
Qed.

Lemma mask_bits_ok n : 0 <= n <= 16 → aget mask_bits n = Some (Z.ones n).
Proof.
  intros Hn.
  assert (Forall (λ n, aget mask_bits n = Some (Z.ones n)) (seqZ 0 17)) as HF
    by (apply (bool_decide_unpack _); vm_compute; exact I).
  rewrite List.Forall_forall in HF. apply HF, list_elem_of_In, elem_of_seqZ. lia.
Qed.

Lemma masked_ok full n s bk bs :
  reads full s bk bs → 0 <= n <= snd bk → n <= 16 →
  masked n bk s = Ret (bval (take (Z.to_nat n) bs)) s.
Proof.
  intros Hr Hn H16. unfold masked. rewrite mask_bits_ok by lia. cbn [lift_opt].
  rewrite bind_ret. by erewrite lowbits_ok.
Qed.
End reader.

(** ** The sliding window *)

(** The window [sl], written up to [w], holds the end of the output [out]: the
    byte at distance [dist] is found [dist] places back, around the ring. *)
Definition hist (sl : list Z) (w : Z) (out : list Z) : Prop :=
  zlen sl = WSIZE ∧ 0 <= w <= WSIZE ∧
  ∀ dist, 1 <= dist <= WSIZE → dist <= zlen out →
    aget sl ((w - dist) mod WSIZE) = aget out (zlen out - dist).

(** A copy of [n] bytes from [dist] back, on the output itself. *)
Fixpoint lz_copy (n : nat) (dist : Z) (out : list Z) : option (list Z) :=
  match n with
  | O => Some out
  | S n => let? c := aget out (zlen out - dist) in lz_copy n dist (out ++ [c])
  end.

(** The slow copy on the window alone. *)
Fixpoint slow (e : nat) (sl : list Z) (w d : Z) : option (list Z) :=
  match e with
  | O => Some sl
  | S e =>
      let? c := aget sl d in
      let? sl := aset sl w c in
      slow e sl (w + 1) (d + 1)
  end.

Lemma aget_snoc_last {A} (l : list A) x : aget (l ++ [x]) (zlen l) = Some x.
Proof. unfold zlen. rewrite aget_of_nat. by apply list_lookup_middle. Qed.

Lemma aget_snoc_old {A} (l : list A) x i : i < zlen l → aget (l ++ [x]) i = aget l i.
Proof.
  intros Hi. unfold aget. case_decide; [|done]. apply lookup_app_l. unfold zlen in Hi. lia.
Qed.

Lemma hist_push sl w out c sl' :
  hist sl w out → w < WSIZE → aset sl w c = Some sl' → hist sl' (w + 1) (out ++ [c]).
Proof.
  intros (Hz&Hw&Hh) Hlt Es. unfold hist.
  assert (zlen sl' = WSIZE) as Hz' by (unfold zlen in *; erewrite aset_len by done; done).
  split; [done|]. split; [lia|]. intros dist Hd Hdo. rewrite (aget_aset _ _ _ _ _ Es).
  rewrite zlen_app in *. change (zlen [c]) with 1 in *. unfold WSIZE in *.
  destruct (decide (dist = 1)) as [->|Hne].
  - rewrite decide_True by (replace (w + 1 - 1) with w by lia; rewrite Z.mod_small; lia).
    replace (zlen out + 1 - 1) with (zlen out) by lia. by rewrite aget_snoc_last.
  - rewrite decide_False.
    + replace (w + 1 - dist) with (w - (dist - 1)) by lia. rewrite Hh by lia.
      rewrite aget_snoc_old by lia. f_equal. lia.
    + intros E. pose proof (Z.div_mod (w + 1 - dist) 32768). nia.
Qed.

Lemma take_aset (sl : list Z) w c sl' :
  aset sl w c = Some sl' → take (Z.to_nat (w + 1)) sl' = take (Z.to_nat w) sl ++ [c].
Proof.
  intros [Hw ->]%aset_Some. replace (Z.to_nat (w + 1)) with (S (Z.to_nat w)) by lia.
  unfold zlen in Hw. rewrite (take_S_r _ _ c).
  - f_equal. apply take_insert_ge. lia.
  - apply list_lookup_insert_eq. lia.
Qed.

(** The slow copy on the window is the copy on the output, as long as neither
    pointer leaves the window. *)
Lemma slow_lz e : ∀ (sl : list Z) w d (out : list Z) dist,
  hist sl w out → 1 <= dist <= WSIZE → dist <= zlen out →
  d = (w - dist) mod WSIZE → w + Z.of_nat e <= WSIZE → d + Z.of_nat e <= WSIZE →
  ∃ sl' (piece : list Z), slow e sl w d = Some sl' ∧ lz_copy e dist out = Some (out ++ piece) ∧
    zlen piece = Z.of_nat e ∧ hist sl' (w + Z.of_nat e) (out ++ piece) ∧
    take (Z.to_nat (w + Z.of_nat e)) sl' = take (Z.to_nat w) sl ++ piece.
Proof.
  induction e as [|e IH]; intros sl w d out dist Hh Hd Hdo -> Hwe Hde.
  - exists sl, []. cbn [slow lz_copy]. rewrite !app_nil_r, !Z.add_0_r. done.
  - destruct Hh as (Hz&Hw&Hh). pose proof (Hh dist Hd Hdo) as Hc.
    destruct (aget out (zlen out - dist)) as [c|] eqn:Eo.
    2:{ assert (is_Some (aget out (zlen out - dist))) as [x Hx] by (apply aget_is_Some; lia). congruence. }
    destruct (aset sl w c) as [sl1|] eqn:Es.
    2:{ unfold aset in Es. rewrite decide_True in Es by (rewrite Hz; lia). done. }
    assert (hist sl1 (w + 1) (out ++ [c])) as Hh1 by (eapply hist_push; [by split|lia|done]).
    cbn [slow lz_copy]. rewrite Hc, Eo, Es.
    assert (zlen (out ++ [c]) = zlen out + 1) as Hzo by (by rewrite zlen_app).
    destruct e as [|e'].
    + exists sl1, [c]. cbn [slow lz_copy]. change (Z.of_nat 1) with 1. rewrite (take_aset _ _ _ _ Es). done.
    + destruct (IH sl1 (w + 1) ((w - dist) mod WSIZE + 1) (out ++ [c]) dist)
        as (sl'&piece&E1&E2&E3&E4&E5); try lia; [done| |].
      { unfold WSIZE in *. pose proof (Z.div_mod (w - dist) 32768).
        pose proof (Z.mod_pos_bound (w - dist) 32768).
        apply (Z.mod_unique _ _ ((w - dist) / 32768)); lia. }
      exists sl', (c :: piece). split; [done|]. split; [by rewrite E2, <- app_assoc|].
      split; [rewrite zlen_cons; lia|].
      replace (w + Z.of_nat (S (S e'))) with (w + 1 + Z.of_nat (S e')) by lia.
      rewrite E5, (take_aset _ _ _ _ Es), <- app_assoc.
      rewrite <- app_assoc in E4. done.
Qed.

(** memcpy within the window is the slow copy, when the destination does not
    begin inside the source: below it, or not before the source's end. *)
Lemma slow_memcpy e : ∀ sl w d,
  (w <= d ∨ d + Z.of_nat e <= w) → 0 <= w → 0 <= d →
  w + Z.of_nat e <= zlen sl → d + Z.of_nat e <= zlen sl →
  slow e sl w d = (let? src := aslice sl d (Z.of_nat e) in asplice sl w src).
Proof.
  induction e as [|e IH]; intros sl w d Hov Hw Hd Hwe Hde.
  - unfold aslice. rewrite decide_True by lia. change (Z.to_nat (Z.of_nat 0)) with 0%nat.
    rewrite take_0. unfold asplice. change (zlen []) with 0. rewrite decide_True by lia.
    cbn [app length slow]. rewrite Nat.add_0_r. by rewrite take_drop.
  - cbn [slow].
    destruct (aget_is_Some sl d) as [_ [c Hc]]; [lia|]. rewrite Hc.
    destruct (aset sl w c) as [sl1|] eqn:Es.
    2:{ unfold aset in Es. by rewrite decide_True in Es by lia. }
    assert (zlen sl1 = zlen sl) as Hz1 by (unfold zlen; by erewrite aset_len by done).
    rewrite IH by (rewrite ?Hz1; lia).
    destruct (aslice_is_Some sl1 (d + 1) (Z.of_nat e)) as [a1 Ha1]; [lia..|].
    destruct (aslice_is_Some sl d (Z.of_nat (S e))) as [a Ha]; [lia..|].
    rewrite Ha1, Ha. pose proof (aslice_len _ _ _ _ Ha1). pose proof (aslice_len _ _ _ _ Ha).
    destruct (asplice sl1 (w + 1) a1) as [r1|] eqn:E1.
    2:{ unfold asplice in E1. by rewrite decide_True in E1 by lia. }
    destruct (asplice sl w a) as [r|] eqn:E2.
    2:{ unfold asplice in E2. by rewrite decide_True in E2 by lia. }
    f_equal. apply list_eq_aget. intros i Hi.
    rewrite (aget_asplice _ _ _ _ _ E1), (aget_asplice _ _ _ _ _ E2), (aget_aset _ _ _ _ _ Es).
    destruct (decide (i = w)) as [->|Hiw].
    + rewrite decide_False by lia. rewrite decide_True by done. rewrite decide_True by lia.
      rewrite (aget_aslice _ _ _ _ _ Ha) by lia. rewrite <- Hc. f_equal. lia.
    + repeat case_decide; try lia; try done.
      rewrite (aget_aslice _ _ _ _ _ Ha1), (aget_aslice _ _ _ _ _ Ha) by lia.
      rewrite (aget_aset _ _ _ _ _ Es). rewrite decide_False by lia. f_equal. lia.
Qed.

Lemma lz_copy_add n m dist out :
  lz_copy (n + m) dist out = (let? out1 := lz_copy n dist out in lz_copy m dist out1).
Proof.
  revert out. induction n as [|n IH]; intros out; [done|]. cbn [Nat.add lz_copy].
  destruct (aget out (zlen out - dist)); [apply IH|done].
Qed.

Section window_proofs.
Context {St : Type} `{HL : InflateLaws St}.

(** Everything but the window, its position and the output is as it was. *)
Definition keeps (s s' : ist St) : Prop :=
  env_input (env s') = env_input (env s) ∧ env_back (env s') = env_back (env s) ∧
  env_room (env s') = env_room (env s) ∧ hufts s' = hufts s ∧ heap s' = heap s ∧
  bb s' = bb s ∧ bk s' = bk s.

#[export] Instance keeps_preorder : PreOrder keeps.
Proof.
  split.
  - intros s. by repeat split.
  - intros s1 s2 s3 (?&?&?&?&?&?&?) (?&?&?&?&?&?&?). repeat split; congruence.
Qed.

(** [out] has been produced: flushed behind [base], or in the window up to
    [w]. *)
Definition win (s : ist St) (base : list Z) (w : Z) (out : list Z) : Prop :=
  hist (window (env s)) w out ∧
  env_output (env s) ++ take (Z.to_nat w) (window (env s)) = base ++ out.

Lemma win_ext s s' base w out :
  win s base w out → window (env s') = window (env s) → env_output (env s') = env_output (env s) →
  win s' base w out.
Proof. unfold win. intros Hw -> ->. exact Hw. Qed.

Lemma reads_keeps full s s' bk bs : reads full s bk bs → keeps s s' → reads full s' bk bs.
Proof. intros Hr (Ei&Eb&_). by eapply reads_ext. Qed.

Lemma put_slide_keeps l s : ∃ s', put_slide l s = Ret tt s' ∧ keeps s s' ∧
  window (env s') = l ∧ env_output (env s') = env_output (env s).
Proof.
  eexists. split; [reflexivity|]. unfold keeps. cbn [env hufts heap bb bk].
  rewrite input_window, back_window, room_window, output_window, window_set. done.
Qed.

Lemma put_byte_ok s base w out c :
  win s base w out → w < WSIZE →
  ∃ s', put_byte w c s = Ret (w + 1) s' ∧ keeps s s' ∧ win s' base (w + 1) (out ++ [u8 c]).
Proof.
  intros [Hh Ho] Hw. unfold put_byte, get_slide. cbn [gets bind].
  destruct (aset (window (env s)) w (u8 c)) as [sl|] eqn:Es.
  2:{ unfold aset in Es. destruct Hh as (Hz&Hw'&_). by rewrite decide_True in Es by lia. }
  cbn [lift_opt]. rewrite bind_ret.
  destruct (put_slide_keeps sl s) as (s'&E&Hk&Ew&Eo). rewrite (bind_Ret _ _ _ _ _ E).
  exists s'. split; [done|]. split; [done|]. split; rewrite Ew.
  - by eapply hist_push.
  - rewrite Eo, (take_aset _ _ _ _ Es), !app_assoc. by rewrite Ho.
Qed.

Lemma hist_wrap sl out : hist sl WSIZE out → hist sl 0 out.
Proof.
  intros (Hz&_&Hh). split; [done|]. split; [unfold WSIZE; lia|]. intros dist Hd Hdo.
  rewrite <- Hh by done. f_equal. unfold WSIZE.
  replace (32768 - dist) with (0 - dist + 1 * 32768) by lia. by rewrite Z.mod_add by lia.
Qed.

Lemma flush_full_ok s base w out :
  win s base w out →
  ∃ w' s', flush_full w s = Ret w' s' ∧ keeps s s' ∧ win s' base w' out ∧ w' < WSIZE.
Proof.
  intros [Hh Ho]. unfold flush_full. pose proof Hh as (Hz&Hw&_).
  destruct (Z.eqb_spec w WSIZE) as [->|Hne].
  2:{ exists w, s. split; [done|]. split; [done|]. split; [done|lia]. }
  unfold flush_output, put_wp. rewrite bind_bind. cbn [modify bind].
  set (s1 := IState _ _ _ _ _).
  destruct (flush_window_ok (env s1)) as (e&E&Eo&Ew&Ei&Eb&Er).
  { subst s1. cbn [env]. rewrite outcnt_set, window_outcnt, Hz. unfold WSIZE. lia. }
  apply (on_env_Ret _ s1) in E. rewrite (bind_Ret _ _ _ _ _ E).
  eexists 0, _. split; [done|]. subst s1. cbn [env bb bk hufts heap] in *.
  rewrite window_outcnt in *. rewrite outcnt_set, output_outcnt in *.
  rewrite input_outcnt, back_outcnt, room_outcnt in *.
  split; [by repeat split|]. split; [|unfold WSIZE; lia]. split; cbn [env]; rewrite Ew.
  - by apply hist_wrap.
  - rewrite Eo. cbn [Z.to_nat take]. by rewrite app_nil_r.
Qed.

Lemma copy_slow_ok e : ∀ s w d sl',
  slow e (window (env s)) w d = Some sl' →
  ∃ s', copy_slow e w d s = Ret (w + Z.of_nat e, d + Z.of_nat e) s' ∧ keeps s s' ∧
    window (env s') = sl' ∧ env_output (env s') = env_output (env s).
Proof.
  induction e as [|e IH]; intros s w d sl' E; cbn [slow copy_slow] in *.
  - injection E as <-. exists s. rewrite !Z.add_0_r. done.
  - unfold get_slide. cbn [gets bind].
    destruct (aget (window (env s)) d) as [c|]; [|done]. cbn [lift_opt bind ret].
    destruct (aset (window (env s)) w c) as [sl|]; [|done]. cbn [lift_opt bind ret].
    destruct (put_slide_keeps sl s) as (s1&E1&Hk&Ew&Eo). rewrite (bind_Ret _ _ _ _ _ E1).
    rewrite <- Ew in E. destruct (IH s1 (w + 1) (d + 1) sl' E) as (s'&E'&Hk'&Ew'&Eo').
    exists s'. rewrite E'. split; [do 2 f_equal; lia|]. split; [by etransitivity|].
    split; [done|congruence].
Qed.

Lemma copy_block_ok e s w d sl' :
  (let? src := aslice (window (env s)) d e in asplice (window (env s)) w src) = Some sl' →
  ∃ s', copy_block e w d s = Ret (w + e, d + e) s' ∧ keeps s s' ∧
    window (env s') = sl' ∧ env_output (env s') = env_output (env s).
Proof.
  intros E. unfold copy_block, get_slide. cbn [gets bind].
  destruct (aslice (window (env s)) d e) as [src|]; [|done]. cbn [lift_opt bind ret].
  rewrite E. cbn [lift_opt bind ret].
  destruct (put_slide_keeps sl' s) as (s1&E1&Hk&Ew&Eo).
  rewrite (bind_Ret _ _ _ _ _ E1). by exists s1.
Qed.

(** Either way of copying a piece that stays inside the window. *)
Lemma copy_piece_ok e s base w d out dist :
  win s base w out → 1 <= dist <= WSIZE → dist <= zlen out → d = (w - dist) mod WSIZE →
  0 < e → w + e <= WSIZE → d + e <= WSIZE →
  ∃ s' piece, (if e <=? u32 (w - d) then copy_block e w d else copy_slow (Z.to_nat e) w d) s
      = Ret (w + e, d + e) s' ∧
    keeps s s' ∧ lz_copy (Z.to_nat e) dist out = Some (out ++ piece) ∧
    win s' base (w + e) (out ++ piece) ∧ zlen piece = e.
Proof.
  intros [Hh Ho] Hd Hdo Ed He Hwe Hde.
  destruct (slow_lz (Z.to_nat e) _ w d out dist Hh Hd Hdo Ed) as (sl'&piece&E&El&Ez&Hh'&Et); [lia..|].
  rewrite Z2Nat.id in * by lia. pose proof Hh as (Hz&Hw&_).
  assert (0 <= d) by (subst d; apply Z.mod_pos_bound; unfold WSIZE; lia).
  assert (∃ s', (if e <=? u32 (w - d) then copy_block e w d else copy_slow (Z.to_nat e) w d) s
      = Ret (w + e, d + e) s' ∧ keeps s s' ∧ window (env s') = sl' ∧
      env_output (env s') = env_output (env s)) as (s'&E'&Hk&Ew&Eo).
  { destruct (Z.leb_spec e (u32 (w - d))) as [Hov|Hov].
    - apply copy_block_ok. rewrite <- E, slow_memcpy; rewrite ?Z2Nat.id by lia; try lia.
      + done.
      + destruct (decide (w <= d)); [by left|]. right.
        rewrite (wrap_small 32) in Hov by (unfold WSIZE in *; lia). lia.
    - destruct (copy_slow_ok (Z.to_nat e) s w d sl' E) as (s'&E'&?&?&?).
      rewrite Z2Nat.id in E' by lia. by exists s'. }
  exists s', piece. split; [done|]. split; [done|]. split; [done|]. split; [|done].
  split; rewrite Ew; [done|]. rewrite Eo, Et, app_assoc, Ho. by rewrite app_assoc.
Qed.

Lemma copy_match_ok n s base w d out dist out' :
  win s base w out → w < WSIZE → 1 <= n < 2 ^ 31 → 1 <= dist <= WSIZE → dist <= zlen out →
  0 <= d → d mod WSIZE = (w - dist) mod WSIZE → lz_copy (Z.to_nat n) dist out = Some out' →
  ∃ w' s', copy_match n w d s = Ret w' s' ∧ keeps s s' ∧ win s' base w' out' ∧ w' < WSIZE.
Proof.
  intros Hwin Hw Hn Hd Hdo Hd0 Hdm Hlz. unfold copy_match.
  set (Q := λ w' s', keeps s s' ∧ win s' base w' out' ∧ w' < WSIZE).
  match goal with |- ∃ w' s', ?m s = _ ∧ _ =>
    assert (∃ w' s', m s = Ret w' s' ∧ Q w' s') as (w'&s'&E&HQ) end.
  2:{ exists w', s'. exact (conj E HQ). }
  apply loop_total with
    (I := λ '(n1, w1, d1) s1, keeps s s1 ∧ w1 < WSIZE ∧ 1 <= n1 < 2 ^ 31 ∧ 0 <= d1 ∧
       ∃ out1, win s1 base w1 out1 ∧ dist <= zlen out1 ∧ d1 mod WSIZE = (w1 - dist) mod WSIZE ∧
         lz_copy (Z.to_nat n1) dist out1 = Some out')
    (meas := λ '(n1, _, _) _, Z.to_nat n1).
  - intros [[n1 w1] d1] s1 (Hk&Hw1&Hn1&Hd1&out1&Hwin1&Hdo1&Hdm1&Hlz1).
    change (WSIZE - 1) with (Z.ones 15). rewrite Z.land_ones by lia.
    change (2 ^ 15) with WSIZE. rewrite Hdm1. set (d2 := (w1 - dist) mod WSIZE).
    pose proof (Z.mod_pos_bound (w1 - dist) WSIZE ltac:(unfold WSIZE; lia)) as Hd2. fold d2 in Hd2.
    destruct Hwin1 as [Hh1 Ho1]. pose proof Hh1 as (_&Hw0&_).
    set (top := if w1 <? d2 then d2 else w1).
    assert (w1 <= top ∧ d2 <= top ∧ top < WSIZE) as (Ht1&Ht2&Ht3)
      by (subst top; destruct (Z.ltb_spec w1 d2); lia).
    rewrite (wrap_small 32 (WSIZE - top)) by (unfold WSIZE in *; lia).
    set (e := if n1 <? WSIZE - top then n1 else WSIZE - top).
    assert (0 < e ∧ e <= n1 ∧ e <= WSIZE - top) as (He1&He2&He3)
      by (subst e; destruct (Z.ltb_spec n1 (WSIZE - top)); lia).
    rewrite (wrap_small 32 (n1 - e)) by lia.
    destruct (copy_piece_ok e s1 base w1 d2 out1 dist) as (s2&piece&E2&Hk2&El2&Hwin2&Hz2);
      [by split|done|done|done|done|lia|lia|].
    rewrite (bind_Ret _ _ _ _ _ E2).
    destruct (flush_full_ok s2 base (w1 + e) (out1 ++ piece) Hwin2) as (w3&s3&E3&Hk3&Hwin3&Hw3).
    rewrite (bind_Ret _ _ _ _ _ E3).
    replace (Z.to_nat n1) with (Z.to_nat e + Z.to_nat (n1 - e))%nat in Hlz1 by lia.
    rewrite lz_copy_add, El2 in Hlz1.
    assert (keeps s s3) as Hks by (etransitivity; [done|]; by etransitivity).
    destruct (Z.eqb_spec (n1 - e) 0) as [E0|E0]; cbn [negb].
    + right. exists w3, s3. split; [done|]. rewrite E0 in Hlz1. cbn in Hlz1.
      injection Hlz1 as <-. done.
    + left. exists (n1 - e, w3, d2 + e), s3. split; [done|]. split; [|lia].
      split; [done|]. split; [done|]. split; [lia|]. split; [lia|].
      exists (out1 ++ piece). split; [done|]. split; [rewrite zlen_app; lia|]. split; [|done].
      assert (w3 mod WSIZE = (w1 + e) mod WSIZE) as Ewm.
      { unfold flush_full in E3. destruct (Z.eqb_spec (w1 + e) WSIZE) as [Ee|Ee].
        - apply bind_inv in E3 as (?&?&_&E3). injection E3 as <- _. by rewrite Ee.
        - by injection E3 as <- _. }
      rewrite <- (Zminus_mod_idemp_l w3), Ewm, Zminus_mod_idemp_l. subst d2.
      rewrite Zplus_mod_idemp_l. f_equal. lia.
  - split; [reflexivity|]. split; [done|]. split; [done|]. split; [done|].
    exists out. done.
  - lia.
Qed.
End window_proofs.

(** ** The format *)

Inductive lsym := Lit (c : Z) | Eob | Len (base extra : Z).
Inductive dsym := Dist (base extra : Z).

(** Length code [257 + k] and distance code [k]: base and extra bits. *)
Definition len_extra (k : Z) : Z := if (k <? 8) || (k =? 28) then 0 else k / 4 - 1.
Definition len_base (k : Z) : Z :=
  if k <? 8 then 3 + k else if k =? 28 then 258 else 3 + (4 + k mod 4) * 2 ^ (k / 4 - 1).
Definition dist_extra (k : Z) : Z := if k <? 2 then 0 else k / 2 - 1.
Definition dist_base (k : Z) : Z :=
  if k <? 2 then 1 + k else 1 + (2 + k mod 2) * 2 ^ (k / 2 - 1).

Definition lit_symbol (v : Z) : option lsym :=
  if v <? 0 then None
  else if v <? 256 then Some (Lit v)
  else if v =? 256 then Some Eob
  else if v <? 286 then Some (Len (len_base (v - 257)) (len_extra (v - 257)))
  else None.

Definition dist_symbol (v : Z) : option dsym :=
  if (0 <=? v) && (v <? 30) then Some (Dist (dist_base v) (dist_extra v)) else None.

(** A number of [n] bits, and the bits behind it. *)
Definition read_num (n : Z) (bs : list bool) : option (Z * list bool) :=
  if n <=? zlen bs then Some (bval (take (Z.to_nat n) bs), drop (Z.to_nat n) bs) else None.

(** The symbols of a block, given the two prefix codes. *)
Fixpoint block_codes (fuel : nat) (lit dist : list bool → option (Z * list bool))
    (bs : list bool) (out : list Z) : option (list bool * list Z) :=
  match fuel with
  | O => None
  | S fl =>
      let? (v, bs) := lit bs in
      let? sym := lit_symbol v in
      match sym with
      | Lit c => block_codes fl lit dist bs (out ++ [c])
      | Eob => Some (bs, out)
      | Len base extra =>
          let? (x, bs) := read_num extra bs in
          let? (dv, bs) := dist bs in
          let? dsym := dist_symbol dv in
          let 'Dist dbase dextra := dsym in
          let? (y, bs) := read_num dextra bs in
          if dbase + y <=? zlen out then
            let? out := lz_copy (Z.to_nat (base + x)) (dbase + y) out in
            block_codes fl lit dist bs out
          else None
      end
  end.

(** A prefix code is packed most significant bit first. *)
Definition hcode (l : list bool) : Z := fold_left (λ v b, 2 * v + Z.b2z b) l 0.

(** The fixed codes. *)
Definition fixed_lit (bs : list bool) : option (Z * list bool) :=
  let v7 := hcode (take 7 bs) in
  let v8 := hcode (take 8 bs) in
  let v9 := hcode (take 9 bs) in
  if decide (9 <= zlen bs) then
    if v7 <? 24 then Some (256 + v7, drop 7 bs)
    else if v8 <? 192 then Some (v8 - 48, drop 8 bs)
    else if v8 <? 200 then Some (280 + (v8 - 192), drop 8 bs)
    else Some (144 + (v9 - 400), drop 9 bs)
  else None.

Definition fixed_dist (bs : list bool) : option (Z * list bool) :=
  if decide (5 <= zlen bs) then Some (hcode (take 5 bs), drop 5 bs) else None.

(** ** What a table decodes *)

Definition entry_at (hp : list htable) (t i : Z) : option huft :=
  let? tab := aget hp t in
  let? ent := aget (h_ents tab) i in
  ent.

(** From an entry found with [nb] bits to the symbol's; [Some None] is an
    invalid code. *)
Fixpoint walk (fuel : nat) (hp : list htable) (ent : huft) (nb : Z) (bs : list bool) :
    option (option (huft * list bool)) :=
  match fuel with
  | O => None
  | S fl =>
      if 16 <? h_e ent then
        if h_e ent =? 99 then Some None
        else
          let e := h_e ent - 16 in
          let bs' := drop (Z.to_nat (h_b ent)) bs in
          if decide (0 <= h_b ent <= nb ∧ e <= 9 ∧ e <= zlen bs') then
            match h_v ent with
            | VT t =>
                let? ent := entry_at hp t (bval (take (Z.to_nat e) bs')) in
                walk fl hp ent e bs'
            | VN _ => None
            end
          else None
      else if decide (1 <= h_b ent <= nb ∧ 0 <= h_e ent)
           then Some (Some (ent, drop (Z.to_nat (h_b ent)) bs)) else None
  end.

Definition decode (hp : list htable) (t : option Z) (nb : Z) (bs : list bool) :
    option (option (huft * list bool)) :=
  let? t := t in
  if decide (0 <= nb <= 9 ∧ nb <= zlen bs) then
    let? ent := entry_at hp t (bval (take (Z.to_nat nb) bs)) in
    walk 17 hp ent nb bs
  else None.

(** The entry a symbol has. *)
Definition lit_entry (v : Z) : Z * hval :=
  match lit_symbol v with
  | Some (Lit c) => (16, VN c)
  | Some Eob => (15, VN 256)
  | Some (Len base extra) => (extra, VN base)
  | None => (99, VN 0)
  end.

Definition dist_entry (v : Z) : Z * hval :=
  match dist_symbol v with
  | Some (Dist base extra) => (extra, VN base)
  | None => (99, VN 0)
  end.

(** The table at [t] decodes the prefix code [code], as long as [ahead] bits
    can be looked at. *)
Definition decodes (hp : list htable) (t : option Z) (nb ahead : Z)
    (code : list bool → option (Z * list bool)) (valid : Z → bool) (entry : Z → Z * hval) : Prop :=
  ∀ bs v rest, ahead <= zlen bs → code bs = Some (v, rest) → valid v = true →
    ∃ ent, decode hp t nb bs = Some (Some (ent, rest)) ∧ (h_e ent, h_v ent) = entry v.

Definition lit_valid (v : Z) : bool := match lit_symbol v with Some _ => true | None => false end.
Definition dist_valid (v : Z) : bool := match dist_symbol v with Some _ => true | None => false end.

(** ** inflate_codes *)

Lemma len_symbol v base extra :
  lit_symbol v = Some (Len base extra) → 3 <= base <= 258 ∧ 0 <= extra <= 5.
Proof.
  assert (Forall (λ k, 3 <= len_base k <= 258 ∧ 0 <= len_extra k <= 5) (seqZ 0 29)) as HF
    by (apply (bool_decide_unpack _); vm_compute; exact I).
  unfold lit_symbol. intros E. repeat case_match; try done. simplify_eq.
  rewrite List.Forall_forall in HF. apply HF, list_elem_of_In, elem_of_seqZ. lia.
Qed.

Lemma dist_symbol_bounds v base extra :
  dist_symbol v = Some (Dist base extra) → 1 <= base ∧ 0 <= extra <= 13 ∧ base + 2 ^ extra <= WSIZE + 1.
Proof.
  assert (Forall (λ v, 1 <= dist_base v ∧ 0 <= dist_extra v <= 13 ∧
    dist_base v + 2 ^ dist_extra v <= WSIZE + 1) (seqZ 0 30)) as HF
    by (apply (bool_decide_unpack _); vm_compute; exact I).
  unfold dist_symbol. destruct (Z.leb_spec 0 v), (Z.ltb_spec v 30); cbn [andb]; try done.
  intros [= <- <-]. rewrite List.Forall_forall in HF. apply HF, list_elem_of_In, elem_of_seqZ. lia.
Qed.

Section codes_proofs.
Context {St : Type} `{HL : InflateLaws St}.

Lemma get_entry_ok t i ent (s : ist St) :
  entry_at (heap s) t i = Some ent → get_entry (Some t) i s = Ret ent s.
Proof.
  unfold entry_at, get_entry. cbn [gets bind]. destruct (aget (heap s) t) as [tab|]; [|done].
  cbn [lift_opt bind ret]. destruct (aget (h_ents tab) i) as [e|]; [|done]. by intros ->.
Qed.

Lemma walk_tables_ok full fuel : ∀ ent nb bs r (s : ist St) bk,
  walk fuel (heap s) ent nb bs = Some r →
  reads full s bk bs → nb <= snd bk <= 16 →
  ∃ bk' s', loop fuel (λ '(ent, bk),
    if 16 <? h_e ent then
      if h_e ent =? 99 then ret (inr (None, bk))
      else
        let bk := dumpbits (h_b ent) bk in
        let e := h_e ent - 16 in
        let! bk := needbits e bk in
        let! i := masked e bk in
        match h_v ent with
        | VT t => let! ent := get_entry (Some t) i in ret (inl (ent, bk))
        | VN _ => trap
        end
    else ret (inr (Some ent, bk))) (ent, bk) s = Ret (fst <$> r, bk') s' ∧ same_but_input s s' ∧
    match r with
    | Some (ent', rest) =>
        reads full s' (dumpbits (h_b ent') bk') rest ∧ snd (dumpbits (h_b ent') bk') <= 15 ∧
        0 <= h_e ent' <= 16
    | None => True
    end.
Proof.
  induction fuel as [|fl IH]; intros ent nb bs r s bk E Hr Hnb; [done|]. cbn [walk] in E.
  destruct (Z.ltb_spec 16 (h_e ent)) as [He|He].
  - destruct (Z.eqb_spec (h_e ent) 99) as [E99|E99].
    { injection E as <-. exists bk, s. split; [|done]. apply loop_exit.
      by rewrite (proj2 (Z.ltb_lt 16 _) He), E99. }
    case_decide as Hc; [|done]. destruct Hc as (Hb&He16&Hel).
    destruct (h_v ent) as [n|t] eqn:Ev; [done|].
    destruct (entry_at _ _ _) as [ent2|] eqn:Eent; [|done].
    destruct (dumpbits_ok full (h_b ent) s bk bs Hr) as [Hr1 Hk1]; [lia|].
    destruct (needbits_ok full (h_e ent - 16) s _ _ Hr1) as (bk2&s2&E2&Hs2&Hr2&Hk2&Hk2'); [lia|lia|lia|].
    assert (heap s2 = heap s) as Ehp by apply Hs2.
    destruct (IH ent2 (h_e ent - 16) (drop (Z.to_nat (h_b ent)) bs) r s2 bk2) as (bk'&s'&E'&Hs'&Hres);
      [by rewrite Ehp|done|lia|].
    exists bk', s'. split; [|split; [by etransitivity|done]].
    rewrite (loop_step _ _ _ _ (ent2, bk2) s2); [exact E'|].
    rewrite (proj2 (Z.ltb_lt 16 _) He), (proj2 (Z.eqb_neq _ _) E99).
    rewrite (bind_Ret _ _ _ _ _ E2).
    rewrite (bind_Ret _ _ _ _ _ (masked_ok full (h_e ent - 16) s2 bk2 _ Hr2 ltac:(lia) ltac:(lia))).
    rewrite Ev. rewrite <- Ehp in Eent. by rewrite (bind_Ret _ _ _ _ _ (get_entry_ok _ _ _ _ Eent)).
  - case_decide as Hc; [|done]. injection E as <-.
    exists bk, s. split; [apply loop_exit; by rewrite (proj2 (Z.ltb_ge 16 _) He)|].
    split; [done|]. destruct (dumpbits_ok full (h_b ent) s bk bs Hr) as [Hr1 Hk1]; [lia|].
    split; [done|]. lia.
Qed.

Lemma lookup_code_ok full t nb bs r (s : ist St) bk :
  decode (heap s) t nb bs = Some r → reads full s bk bs → snd bk <= 15 →
  ∃ bk' s', lookup_code t nb bk s = Ret (fst <$> r, bk') s' ∧ same_but_input s s' ∧
    match r with
    | Some (ent', rest) =>
        reads full s' (dumpbits (h_b ent') bk') rest ∧ snd (dumpbits (h_b ent') bk') <= 15 ∧
        0 <= h_e ent' <= 16
    | None => True
    end.
Proof.
  intros E Hr Hk. unfold decode in E. destruct t as [t|]; [|done].
  case_decide as Hc; [|done]. destruct Hc as [Hnb Hlen].
  destruct (entry_at _ _ _) as [ent|] eqn:Eent; [|done].
  destruct (needbits_ok full nb s bk bs Hr) as (bk2&s2&E2&Hs2&Hr2&Hk2&Hk2'); [lia..|].
  assert (heap s2 = heap s) as Ehp by apply Hs2.
  unfold lookup_code. rewrite mask_bits_ok by lia. cbn [lift_opt]. rewrite bind_ret.
  rewrite (bind_Ret _ _ _ _ _ E2), (lowbits_ok full nb s2 bk2 bs) by (done || lia).
  rewrite <- Ehp in Eent, E. rewrite (bind_Ret _ _ _ _ _ (get_entry_ok _ _ _ _ Eent)).
  destruct (walk_tables_ok full 17 ent nb bs r s2 bk2 E Hr2) as (bk'&s'&E'&Hs'&Hres); [lia|].
  exists bk', s'. split; [exact E'|]. split; [by etransitivity|done].
Qed.
End codes_proofs.

Definition shrinks (code : list bool → option (Z * list bool)) : Prop :=
  ∀ bs v rest, code bs = Some (v, rest) → zlen rest <= zlen bs.

Lemma read_num_Some n bs v rest :
  0 <= n → read_num n bs = Some (v, rest) →
  n <= zlen bs ∧ v = bval (take (Z.to_nat n) bs) ∧ rest = drop (Z.to_nat n) bs ∧ 0 <= v < 2 ^ n ∧
  zlen rest = zlen bs - n.
Proof.
  intros Hn. unfold read_num. destruct (Z.leb_spec n (zlen bs)) as [Hle|]; [|done].
  intros [= <- <-]. split; [done|]. split; [done|]. split; [done|]. rewrite zlen_drop.
  pose proof (bval_range (take (Z.to_nat n) bs)) as Hb. rewrite zlen_take in Hb.
  rewrite Z.min_l, Z.max_r in Hb by lia. lia.
Qed.

Lemma block_codes_shrinks fuel lit dist : ∀ bs out rest out',
  shrinks lit → shrinks dist → block_codes fuel lit dist bs out = Some (rest, out') →
  zlen rest <= zlen bs.
Proof.
  intros bs out rest out' Hl Hd. revert bs out. induction fuel as [|fl IH]; intros bs out E; [done|].
  cbn [block_codes] in E. destruct (lit bs) as [[v bs1]|] eqn:El; [|done]. apply Hl in El.
  destruct (lit_symbol v) as [sym|] eqn:Es; [|done]. destruct sym as [c| |base extra].
  - apply IH in E. lia.
  - injection E as <- <-. done.
  - apply len_symbol in Es as [_ He].
    destruct (read_num extra bs1) as [[x bs2]|] eqn:E1; [|done]. apply read_num_Some in E1; [|lia].
    destruct (dist bs2) as [[dv bs3]|] eqn:E2; [|done]. apply Hd in E2.
    destruct (dist_symbol dv) as [[dbase dextra]|] eqn:Eds; [|done].
    apply dist_symbol_bounds in Eds as (_&Hde&_).
    destruct (read_num dextra bs3) as [[y bs4]|] eqn:E3; [|done]. apply read_num_Some in E3; [|lia].
    destruct (_ <=? _); [|done]. destruct (lz_copy _ _ _) as [out1|]; [|done].
    apply IH in E. lia.
Qed.

Section inflate_codes_proofs.
Context {St : Type} `{HL : InflateLaws St}.

(** The tables, the memory and the saved bit buffer are as they were. *)
Definition stays (s s' : ist St) : Prop :=
  heap s' = heap s ∧ hufts s' = hufts s ∧ env_room (env s') = env_room (env s) ∧
  bb s' = bb s ∧ bk s' = bk s.

#[export] Instance stays_preorder : PreOrder stays.
Proof.
  split.
  - intros s. by repeat split.
  - intros s1 s2 s3 (?&?&?&?&?) (?&?&?&?&?). repeat split; congruence.
Qed.

Lemma keeps_stays s s' : keeps s s' → stays s s'.
Proof. intros (?&?&?&?&?&?&?). by repeat split. Qed.

Lemma same_stays s s' : same_but_input s s' → stays s s'.
Proof. intros (?&?&?&?&?&?&?&?). by repeat split. Qed.

Lemma win_same s s' base w out : win s base w out → same_but_input s s' → win s' base w out.
Proof. intros Hw (?&?&?&_). by eapply win_ext. Qed.

(** Extra bits behind a symbol. *)
Lemma extra_bits_ok full n s bk bs v rest :
  reads full s bk bs → snd bk <= 15 → 0 <= n <= 16 → read_num n bs = Some (v, rest) →
  ∃ bk' s', needbits n bk s = Ret bk' s' ∧ masked n bk' s' = Ret v s' ∧
    same_but_input s s' ∧ reads full s' (dumpbits n bk') rest ∧ snd (dumpbits n bk') <= 15.
Proof.
  intros Hr Hk Hn E. apply read_num_Some in E as (Hle&->&->&_); [|lia].
  destruct (needbits_ok full n s bk bs Hr) as (bk2&s2&E2&Hs2&Hr2&Hk2&Hk2'); [lia..|].
  destruct (dumpbits_ok full n s2 bk2 bs Hr2) as [Hr3 Hk3]; [lia|].
  exists bk2, s2. split; [done|]. split; [apply (masked_ok full n s2 bk2 bs Hr2); lia|].
  split; [done|]. split; [done|]. lia.
Qed.

Definition codes_result (full : list Z) (base : list Z) (s : ist St) (rest : list bool)
    (out' : list Z) (bk' : bits) (w' : Z) (s' : ist St) : Prop :=
  reads full s' bk' rest ∧ snd bk' <= 15 ∧ win s' base w' out' ∧ w' < WSIZE ∧ stays s s'.

(** The part of the step behind the length code [ent]: the match itself. *)
Definition match_tail (td : option Z) (bd : Z) (lbase extra : Z) (bk : bits) (w : Z) :
    M (ist St) (bits * Z + option (bits * Z)) :=
  let! bk := needbits extra bk in
  let! x := masked extra bk in
  let n := u32 (lbase + x) in
  let bk := dumpbits extra bk in
  let! ' (ent, bk) := lookup_code td bd bk in
  match ent with
  | None => ret (inr None)
  | Some t =>
      let bk := dumpbits (h_b t) bk in
      let! bk := needbits (h_e t) bk in
      let! x := masked (h_e t) bk in
      let! base := base_of t in
      let d := u32 (w - base - x) in
      let bk := dumpbits (h_e t) bk in
      let! w := copy_match n w d in
      ret (inl (bk, w))
  end.

(** The steps, by the kind of the symbol found. *)
Lemma literal_step tl td bl bd bk w s ent bk1 s1 c base out :
  lookup_code tl bl bk s = Ret (Some ent, bk1) s1 →
  (h_e ent, h_v ent) = (16, VN c) → is_byte c → win s1 base w out → w < WSIZE →
  ∃ w' s', codes_step tl td bl bd (bk, w) s = Ret (inl (dumpbits (h_b ent) bk1, w')) s' ∧
    keeps s1 s' ∧ win s' base w' (out ++ [c]) ∧ w' < WSIZE.
Proof.
  intros E [= Ee Ev] Hc Hwin Hw.
  destruct (put_byte_ok s1 base w out c Hwin Hw) as (s2&E2&Hk2&Hwin2).
  rewrite is_byte_u8 in Hwin2 by done.
  destruct (flush_full_ok s2 base (w + 1) (out ++ [c]) Hwin2) as (w3&s3&E3&Hk3&Hwin3&Hw3).
  exists w3, s3. unfold codes_step. rewrite (bind_Ret _ _ _ _ _ E), Ee.
  change (16 =? 16) with true. cbv iota. unfold base_of. rewrite Ev, bind_ret.
  rewrite (bind_Ret _ _ _ _ _ E2), (bind_Ret _ _ _ _ _ E3).
  split; [done|]. split; [by etransitivity|]. done.
Qed.

Lemma eob_step tl td bl bd bk w s ent bk1 s1 :
  lookup_code tl bl bk s = Ret (Some ent, bk1) s1 → h_e ent = 15 →
  codes_step tl td bl bd (bk, w) s = Ret (inr (Some (dumpbits (h_b ent) bk1, w))) s1.
Proof. intros E Ee. unfold codes_step. by rewrite (bind_Ret _ _ _ _ _ E), Ee. Qed.

Lemma length_step tl td bl bd bk w s ent bk1 s1 lbase extra :
  lookup_code tl bl bk s = Ret (Some ent, bk1) s1 →
  (h_e ent, h_v ent) = (extra, VN lbase) → extra < 15 →
  codes_step tl td bl bd (bk, w) s = match_tail td bd lbase extra (dumpbits (h_b ent) bk1) w s1.
Proof.
  intros E [= Ee Ev] He. unfold codes_step. rewrite (bind_Ret _ _ _ _ _ E), Ee.
  rewrite (proj2 (Z.eqb_neq extra 16)), (proj2 (Z.eqb_neq extra 15)) by lia.
  unfold match_tail. apply bind_ext. intros bk2 s2. apply bind_ext. intros x s3.
  unfold base_of at 1. by rewrite Ev, bind_ret.
Qed.

Lemma match_tail_ok full base s bk w out td bd lbase extra x bs1 bs2 dist dv bs3 dbase dextra y bs4 out1 :
  decodes (heap s) td bd 24 dist dist_valid dist_entry →
  reads full s bk bs1 → snd bk <= 15 → win s base w out → w < WSIZE →
  3 <= lbase <= 258 → 0 <= extra <= 5 →
  read_num extra bs1 = Some (x, bs2) → dist bs2 = Some (dv, bs3) →
  dist_symbol dv = Some (Dist dbase dextra) → read_num dextra bs3 = Some (y, bs4) →
  dbase + y <= zlen out → 24 <= zlen bs2 →
  lz_copy (Z.to_nat (lbase + x)) (dbase + y) out = Some out1 →
  ∃ bk' w' s', match_tail td bd lbase extra bk w s = Ret (inl (bk', w')) s' ∧
    codes_result full base s bs4 out1 bk' w' s'.
Proof.
  intros Hdd Hr Hk Hwin Hw Hlb Hle Ex Ed Eds Ey Hdo H24 Ecp.
  pose proof (dist_symbol_bounds _ _ _ Eds) as (Hdb&Hde&Hdm).
  pose proof (read_num_Some extra _ _ _ ltac:(lia) Ex) as (_&_&_&Hx&_).
  pose proof (read_num_Some dextra _ _ _ ltac:(lia) Ey) as (_&_&_&Hy&_).
  assert (2 ^ extra <= 2 ^ 5) as Hpe by (apply Z.pow_le_mono_r; lia).
  unfold match_tail.
  destruct (extra_bits_ok full extra s bk bs1 x bs2 Hr Hk ltac:(lia) Ex)
    as (bk3&s3&E3&M3&Hs3&Hr3&Hk3).
  rewrite (bind_Ret _ _ _ _ _ E3), (bind_Ret _ _ _ _ _ M3). cbv zeta.
  assert (heap s3 = heap s) as Ehp by apply Hs3. rewrite <- Ehp in Hdd.
  destruct (Hdd bs2 dv bs3 H24 Ed) as (dent&Eddec&Edent); [unfold dist_valid; by rewrite Eds|].
  unfold dist_entry in Edent. rewrite Eds in Edent. injection Edent as Ede Edv.
  destruct (lookup_code_ok full td bd bs2 _ s3 _ Eddec Hr3 Hk3) as (bk4&s4&E4&Hs4&Hr4&Hk4&_).
  rewrite (bind_Ret _ _ _ _ _ E4). cbn [fmap option_fmap option_map fst]. rewrite Ede.
  destruct (extra_bits_ok full dextra s4 _ bs3 y bs4 Hr4 Hk4 ltac:(lia) Ey)
    as (bk5&s5&E5&M5&Hs5&Hr5&Hk5).
  rewrite (bind_Ret _ _ _ _ _ E5), (bind_Ret _ _ _ _ _ M5).
  unfold base_of. rewrite Edv, bind_ret.
  assert (same_but_input s s5) as Hs05 by (etransitivity; [done|]; by etransitivity).
  assert (0 <= w) as Hw0 by (destruct Hwin as [(_&?&_) _]; lia).
  rewrite (wrap_small 32 (lbase + x)) by (clear -Hlb Hx Hpe; lia).
  destruct (copy_match_ok (lbase + x) s5 base w (u32 (w - dbase - y)) out (dbase + y) out1)
    as (w6&s6&E6&Hk6&Hwin6&Hw6); [by eapply win_same|done|clear -Hlb Hx Hpe; lia|
      clear -Hdm Hdb Hy; lia|done|apply (wrap_range 32); lia| |done|].
  { unfold wrap, WSIZE. rewrite <- Znumtheory.Zmod_div_mod; [f_equal; lia|lia|lia|].
    exists (2 ^ 17). reflexivity. }
  rewrite (bind_Ret _ _ _ _ _ E6). eexists _, w6, s6. split; [reflexivity|].
  split; [by eapply reads_keeps|]. split; [done|]. split; [done|]. split; [done|].
  etransitivity; [by apply same_stays|by apply keeps_stays].
Qed.

Lemma codes_loop_ok full base fuel lit dist tl td bl bd : ∀ bs out rest out' (s : ist St) bk w,
  shrinks lit → shrinks dist →
  decodes (heap s) tl bl 24 lit lit_valid lit_entry →
  decodes (heap s) td bd 24 dist dist_valid dist_entry →
  block_codes fuel lit dist bs out = Some (rest, out') → 24 <= zlen rest →
  reads full s bk bs → snd bk <= 15 → win s base w out → w < WSIZE →
  ∃ bk' w' s', loop fuel (codes_step tl td bl bd) (bk, w) s = Ret (Some (bk', w')) s' ∧
    codes_result full base s rest out' bk' w' s'.
Proof.
  intros bs out rest out' s bk w Hl Hd. revert bs out s bk w.
  induction fuel as [|fl IH]; intros bs out s bk w Hdl Hdd E H24 Hr Hk Hwin Hw; [done|].
  pose proof (block_codes_shrinks (S fl) lit dist bs out rest out' Hl Hd E) as Hsh.
  cbn [block_codes] in E. destruct (lit bs) as [[v bs1]|] eqn:El; [|done].
  destruct (lit_symbol v) as [sym|] eqn:Es; [|done].
  destruct (Hdl bs v bs1 ltac:(lia) El) as (ent&Edec&Eent); [unfold lit_valid; by rewrite Es|].
  unfold lit_entry in Eent. rewrite Es in Eent.
  destruct (lookup_code_ok full tl bl bs _ s bk Edec Hr Hk) as (bk1&s1&E1&Hs1&Hr1&Hk1&_).
  pose proof (win_same _ _ _ _ _ Hwin Hs1) as Hwin1.
  (* the rest of the loop, from the state after the step *)
  assert (∀ bk2 w2 s2 bs2 out2, codes_step tl td bl bd (bk, w) s = Ret (inl (bk2, w2)) s2 →
    codes_result full base s1 bs2 out2 bk2 w2 s2 →
    block_codes fl lit dist bs2 out2 = Some (rest, out') →
    ∃ bk' w' s', loop (S fl) (codes_step tl td bl bd) (bk, w) s = Ret (Some (bk', w')) s' ∧
      codes_result full base s rest out' bk' w' s') as Hgo.
  { intros bk2 w2 s2 bs2 out2 Estep (R1&R2&R3&R4&R5) E2.
    assert (stays s s2) as Hst by (etransitivity; [by apply same_stays|done]).
    assert (heap s2 = heap s) as Ehp by apply Hst.
    destruct (IH bs2 out2 s2 bk2 w2) as (bk'&w'&s'&E'&(T1&T2&T3&T4&T5)); rewrite ?Ehp; try done.
    exists bk', w', s'. split; [by rewrite (loop_step _ _ _ _ _ _ Estep)|].
    repeat (split; [done|]). by etransitivity. }
  destruct sym as [c| |lbase extra].
  - assert (is_byte c) as Hc
      by (unfold lit_symbol, is_byte in *; repeat case_match; simplify_eq; lia).
    destruct (literal_step tl td bl bd bk w s ent bk1 s1 c base out E1 Eent Hc Hwin1 Hw)
      as (w2&s2&E2&Hk2&Hwin2&Hw2).
    eapply Hgo; [exact E2| |exact E]. split; [by eapply reads_keeps|].
    repeat (split; [done|]). by apply keeps_stays.
  - injection E as <- <-. injection Eent as Ee _.
    eexists _, w, s1. split; [apply loop_exit; by eapply eob_step|].
    repeat (split; [done|]). by apply same_stays.
  - pose proof (len_symbol _ _ _ Es) as [Hlb Hle].
    destruct (read_num extra bs1) as [[x bs2]|] eqn:Ex; [|done].
    destruct (dist bs2) as [[dv bs3]|] eqn:Ed; [|done].
    destruct (dist_symbol dv) as [[dbase dextra]|] eqn:Eds; [|done].
    destruct (read_num dextra bs3) as [[y bs4]|] eqn:Ey; [|done].
    destruct (Z.leb_spec (dbase + y) (zlen out)) as [Hdo|]; [|done].
    destruct (lz_copy (Z.to_nat (lbase + x)) (dbase + y) out) as [out1|] eqn:Ecp; [|done].
    pose proof (dist_symbol_bounds _ _ _ Eds) as (_&Hde&_).
    pose proof (read_num_Some dextra _ _ _ ltac:(lia) Ey) as (_&_&_&_&Hy2).
    pose proof (Hd _ _ _ Ed) as Hsd.
    pose proof (block_codes_shrinks _ _ _ _ _ _ _ Hl Hd E) as Hsh4.
    assert (heap s1 = heap s) as Ehp by apply Hs1. rewrite <- Ehp in Hdd.
    destruct (match_tail_ok full base s1 (dumpbits (h_b ent) bk1) w out td bd lbase extra x bs1 bs2
      dist dv bs3 dbase dextra y bs4 out1) as (bk2&w2&s2&E2&HR); try done; [lia|].
    eapply Hgo; [|exact HR|exact E]. rewrite <- E2. eapply length_step; [done|done|lia].
Qed.
End inflate_codes_proofs.
(** *** An environment over lists *)

Record refenv := RefEnv {
  re_input : list Z; re_back : list Z; re_output : list Z; re_room : Z;
  re_window : list Z; re_outcnt : Z
}.

#[export] Instance refenv_env : InflateEnv refenv := {|
  get_byte := λ s, match re_input s with
    | c :: rest => Ret c (RefEnv rest (c :: re_back s) (re_output s) (re_room s) (re_window s) (re_outcnt s))
    | [] => Jump "attempted to read past eof" s
    end;
  unget_byte := λ s, match re_back s with
    | c :: rest => Ret tt (RefEnv (c :: re_input s) rest (re_output s) (re_room s) (re_window s) (re_outcnt s))
    | [] => Trap
    end;
  flush_window := λ s,
    Ret tt (RefEnv (re_input s) (re_back s) (re_output s ++ take (Z.to_nat (re_outcnt s)) (re_window s))
      (re_room s) (re_window s) (re_outcnt s));
  env_malloc := λ n s,
    if n + 8 <=? re_room s
    then Ret 8 (RefEnv (re_input s) (re_back s) (re_output s) (re_room s - n - 8) (re_window s) (re_outcnt s))
    else Jump "out of memory" s;
  env_unzip_error := λ A x s, Jump x s;
  window := re_window;
  set_window := λ l s, RefEnv (re_input s) (re_back s) (re_output s) (re_room s) l (re_outcnt s);
  outcnt := re_outcnt;
  set_outcnt := λ n s, RefEnv (re_input s) (re_back s) (re_output s) (re_room s) (re_window s) n
|}.

#[export] Program Instance refenv_laws : InflateLaws refenv := {|
  env_input := re_input; env_back := re_back; env_output := re_output; env_room := re_room
|}.
Solve Obligations with done.
Next Obligation. intros [i b o r w n] c rest E. cbn in *. subst i. eauto 10. Qed.
Next Obligation. intros [i b o r w n] c rest E. cbn in *. subst b. eauto 10. Qed.
Next Obligation. intros [i b o r w n] E. cbn in *. eauto 10. Qed.
Next Obligation.
  intros [i b o r w n] k Hk Hr. cbn in *. rewrite (proj2 (Z.leb_le _ _)) by lia. eauto 10.
Qed.

