(* ===== verification/HuftSim.v ===== *)
(** * Decoding tables do not depend on where they are built

    [huft_build] run in any environment with enough memory, and whatever tables
    exist already, makes the tables it makes in an empty memory: the same ones,
    behind the old ones.  A table for given lengths can so be computed once and
    used everywhere. *)

From S2P Require Import Prelude CString Vsprintf Bits Huft Inflate Deflate.

(** ** Moving tables *)

Definition shift_v (b : Z) (v : hval) : hval :=
  match v with VN n => VN n | VT t => VT (t + b) end.
Definition shift_ent (b : Z) (e : huft) : huft := Huft (h_e e) (h_b e) (shift_v b (h_v e)).
Definition shift_tab (b : Z) (t : htable) : htable :=
  HTable ((λ l, l + b) <$> h_link t) (map (fmap (shift_ent b)) (h_ents t)).
Definition shift_heap (b : Z) (h : list htable) : list htable := map (shift_tab b) h.

Lemma aget_map {A B} (f : A → B) l i : aget (map f l) i = f <$> aget l i.
Proof. unfold aget. case_decide; [|done]. apply list_lookup_fmap. Qed.

Lemma aset_map {A B} (f : A → B) l i x l' : aset l i x = Some l' → aset (map f l) i (f x) = Some (map f l').
Proof.
  intros [Hi ->]%aset_Some. apply aset_Some. unfold zlen in *. rewrite length_map.
  split; [done|]. apply list_fmap_insert.
Qed.

Lemma aget_app_r {A} (l1 l2 : list A) i : 0 <= i → aget (l1 ++ l2) (i + zlen l1) = aget l2 i.
Proof.
  intros Hi. unfold aget, zlen. rewrite !decide_True by lia.
  rewrite lookup_app_r by lia. f_equal. lia.
Qed.

Lemma aset_app_r {A} (l1 l2 : list A) i x l2' :
  aset l2 i x = Some l2' → aset (l1 ++ l2) (i + zlen l1) x = Some (l1 ++ l2').
Proof.
  intros [Hi ->]%aset_Some. apply aset_Some. unfold zlen in *. rewrite length_app.
  split; [lia|]. rewrite insert_app_r_alt by lia. do 2 f_equal. lia.
Qed.

Section sim.
Context {St : Type} `{HL : InflateLaws St} (hp0 : list htable) (slack : Z) (Hslack : 0 <= slack).

Definition base : Z := zlen hp0.

(** The run with nothing else in memory, and the run at hand. *)
Definition rel (s1 : ist refenv) (s2 : ist St) : Prop :=
  heap s2 = hp0 ++ shift_heap base (heap s1) ∧ re_room (env s1) + slack <= env_room (env s2).

(** [huft_build] touches nothing but the tables and the free memory. *)
Definition frame (s s' : ist St) : Prop :=
  env_input (env s') = env_input (env s) ∧ env_back (env s') = env_back (env s) ∧
  env_output (env s') = env_output (env s) ∧ window (env s') = window (env s) ∧
  outcnt (env s') = outcnt (env s) ∧ bb s' = bb s ∧ bk s' = bk s.

#[export] Instance frame_preorder : PreOrder frame.
Proof.
  split.
  - intros s. by repeat split.
  - intros s1 s2 s3 (?&?&?&?&?&?&?) (?&?&?&?&?&?&?). repeat split; congruence.
Qed.

Definition sim {A B} (R : A → B → Prop) (m1 : M (ist refenv) A) (m2 : M (ist St) B) : Prop :=
  ∀ s1 s2 a1 s1', rel s1 s2 → m1 s1 = Ret a1 s1' →
    ∃ a2 s2', m2 s2 = Ret a2 s2' ∧ R a1 a2 ∧ rel s1' s2' ∧ frame s2 s2'.

Lemma sim_ret {A B} (R : A → B → Prop) a b : R a b → sim R (ret a) (ret b).
Proof. intros HR s1 s2 a1 s1' Hrel [= <- <-]. by exists b, s2. Qed.

Lemma sim_bind {A1 A2 B1 B2} (RA : A1 → A2 → Prop) (RB : B1 → B2 → Prop) m1 m2 k1 k2 :
  sim RA m1 m2 → (∀ a1 a2, RA a1 a2 → sim RB (k1 a1) (k2 a2)) → sim RB (bind m1 k1) (bind m2 k2).
Proof.
  intros Hm Hk s1 s2 b1 s1' Hrel E. apply bind_inv in E as (a1&t1&E1&E2).
  destruct (Hm s1 s2 a1 t1 Hrel E1) as (a2&t2&F1&HR&Hrel1&Hf1).
  destruct (Hk a1 a2 HR t1 t2 b1 s1' Hrel1 E2) as (b2&s2'&F2&HR2&Hrel2&Hf2).
  exists b2, s2'. rewrite (bind_Ret _ _ _ _ _ F1). split; [done|]. split; [done|].
  split; [done|]. by etransitivity.
Qed.

Lemma sim_trap {A B} (R : A → B → Prop) m2 : sim R trap m2.
Proof. intros s1 s2 a1 s1' _ [=]. Qed.

Lemma sim_diverge {A B} (R : A → B → Prop) m2 : sim R diverge m2.
Proof. intros s1 s2 a1 s1' _ [=]. Qed.

Lemma sim_lift_eq {A} (o : option A) : sim eq (lift_opt o) (lift_opt o).
Proof. destruct o; [by apply sim_ret|apply sim_trap]. Qed.

Lemma sim_loop {A1 A2 B1 B2} (RA : A1 → A2 → Prop) (RB : B1 → B2 → Prop) fuel body1 body2 a1 a2 :
  (∀ a1 a2, RA a1 a2 → sim (λ r1 r2, match r1, r2 with
     | inl x, inl y => RA x y | inr x, inr y => RB x y | _, _ => False end) (body1 a1) (body2 a2)) →
  RA a1 a2 → sim RB (loop fuel body1 a1) (loop fuel body2 a2).
Proof.
  intros Hb. revert a1 a2. induction fuel as [|fuel IH]; intros a1 a2 Ha; [apply sim_diverge|].
  cbn [loop]. eapply sim_bind; [by apply Hb|]. intros [x|x] [y|y] HR; try done.
  - by apply IH.
  - by apply sim_ret.
Qed.

(** *** The operations on tables *)

Definition rtab (t1 t2 : Z) : Prop := 0 <= t1 ∧ t2 = t1 + base.
Definition ropt (t1 t2 : option Z) : Prop :=
  match t1, t2 with
  | None, None => True | Some x, Some y => rtab x y | _, _ => False
  end.

Lemma sim_gets_heap {B1 B2} (R : B1 → B2 → Prop) k1 k2 :
  (∀ h, sim R (k1 h) (k2 (hp0 ++ shift_heap base h))) →
  sim R (bind (gets heap) k1) (bind (gets heap) k2).
Proof.
  intros Hk s1 s2 b1 s1' Hrel E. cbn [gets bind] in *. destruct Hrel as [Eh Hr].
  rewrite Eh. by apply (Hk (heap s1) s1 s2).
Qed.

Lemma sim_set_heap h1 h2 : h2 = hp0 ++ shift_heap base h1 → sim eq (set_heap h1) (set_heap h2).
Proof.
  intros -> s1 s2 a1 s1' [Eh Hr] [= <- <-]. eexists tt, _. split; [reflexivity|].
  split; [done|]. split; [done|by repeat split].
Qed.

Lemma sim_malloc n : 0 <= n → sim (λ _ _, True) (on_env (env_malloc n)) (on_env (env_malloc n)).
Proof.
  intros Hn s1 s2 a1 s1' [Eh Hr] E. unfold on_env in E. cbn [env_malloc refenv_env] in E.
  destruct (Z.leb_spec (n + 8) (re_room (env s1))) as [Hle|]; [|done]. injection E as <- <-.
  destruct (env_malloc_ok (env s2) n Hn) as (p&e&E&Er&Eo&Ew&Ec&Ei&Eb); [lia|].
  exists p, (IState e (bb s2) (bk s2) (hufts s2) (heap s2)).
  split; [by apply on_env_Ret|]. split; [done|]. split.
  - split; [done|]. cbn [env re_room]. lia.
  - by repeat split.
Qed.

Lemma sim_hufts (f1 f2 : Z → Z) :
  sim (λ _ _, True) (let! n := gets hufts in set_hufts (f1 n)) (let! n := gets hufts in set_hufts (f2 n)).
Proof.
  intros s1 s2 a1 s1' [Eh Hr] E. injection E as <- <-. eexists tt, _. split; [reflexivity|].
  split; [done|]. split; [done|by repeat split].
Qed.

Lemma shift_new_table n :
  shift_tab base (HTable None (replicate n None)) = HTable None (replicate n None).
Proof. unfold shift_tab. cbn [h_link h_ents]. f_equal. induction n; [done|]. cbn. by rewrite IHn. Qed.

Lemma sim_new_table z : sim rtab (new_table z) (new_table z).
Proof.
  unfold new_table. eapply sim_bind.
  { apply sim_malloc. apply (wrap_range 64). lia. }
  intros _ _ _. cbv beta.
  intros s1 s2 a1 s1' [Eh Hr] E. cbn [gets bind set_hufts modify set_heap ret heap] in *.
  injection E as <- <-. eexists _, _. split; [reflexivity|]. rewrite Eh.
  split; [|split; [|by repeat split]].
  - unfold rtab, base. rewrite zlen_app. unfold shift_heap. split; [apply zlen_nonneg|].
    unfold zlen. rewrite length_map. lia.
  - split; [|done]. cbn [heap]. unfold shift_heap. rewrite map_app. cbn [map].
    by rewrite shift_new_table, app_assoc.
Qed.

Lemma aget_shift h t tab :
  aget h t = Some tab → aget (hp0 ++ shift_heap base h) (t + base) = Some (shift_tab base tab).
Proof.
  intros E. pose proof (aget_range _ _ _ E). unfold base. rewrite aget_app_r by lia.
  unfold shift_heap. by rewrite aget_map, E.
Qed.

Lemma aset_shift h t tab h' :
  aset h t tab = Some h' →
  aset (hp0 ++ shift_heap base h) (t + base) (shift_tab base tab) = Some (hp0 ++ shift_heap base h').
Proof. intros E. apply aset_app_r. by apply aset_map. Qed.

Lemma sim_set_entry t1 t2 i r1 :
  ropt t1 t2 → sim eq (set_entry t1 i r1) (set_entry t2 i (shift_ent base r1)).
Proof.
  intros Ht. unfold set_entry. apply sim_gets_heap. intros h.
  destruct t1 as [t1|]; [|apply sim_trap]. destruct t2 as [t2|]; [|done]. destruct Ht as [_ ->].
  destruct (aget h t1) as [tab|] eqn:E1; [|apply sim_trap]. rewrite (aget_shift _ _ _ E1).
  cbn [lift_opt]. eapply sim_bind; [by apply (sim_ret (λ x y, y = shift_tab base x ∧ x = tab))|].
  intros x y [-> ->]. unfold shift_tab at 1. cbn [h_ents].
  destruct (aset (h_ents tab) i (Some r1)) as [ents|] eqn:E2; [|apply sim_trap].
  change (Some (shift_ent base r1)) with (fmap (M := option) (shift_ent base) (Some r1)).
  rewrite (aset_map _ _ _ _ _ E2). cbn [lift_opt].
  eapply sim_bind; [by apply (sim_ret (λ x y, y = map (fmap (M := option) (shift_ent base)) x ∧ x = ents))|].
  intros x y [-> ->]. destruct (aset h t1 _) as [h'|] eqn:E3; [|apply sim_trap].
  pose proof (aset_shift _ _ _ _ E3) as E4. unfold shift_tab at 1 in E4. cbn [h_link h_ents] in E4.
  unfold shift_tab at 1. cbn [h_link]. rewrite E4. cbn [lift_opt].
  eapply sim_bind; [by apply (sim_ret (λ x y, y = hp0 ++ shift_heap base x))|].
  intros x y ->. by apply sim_set_heap.
Qed.

Lemma sim_set_link t1 t2 q1 q2 :
  rtab t1 t2 → ropt q1 q2 → sim eq (set_link t1 q1) (set_link t2 q2).
Proof.
  intros [_ ->] Hq. unfold set_link. apply sim_gets_heap. intros h.
  destruct (aget h t1) as [tab|] eqn:E1; [|apply sim_trap]. rewrite (aget_shift _ _ _ E1).
  cbn [lift_opt]. eapply sim_bind; [by apply (sim_ret (λ x y, y = shift_tab base x ∧ x = tab))|].
  intros x y [-> ->]. destruct (aset h t1 _) as [h'|] eqn:E3; [|apply sim_trap].
  pose proof (aset_shift _ _ _ _ E3) as E4. unfold shift_tab at 1 in E4. cbn [h_link h_ents] in E4.
  assert ((λ l, l + base) <$> q1 = q2) as Eq.
  { destruct q1, q2; try done. destruct Hq as [_ ->]. done. }
  rewrite Eq in E4. unfold shift_tab at 1. cbn [h_ents]. rewrite E4. cbn [lift_opt].
  eapply sim_bind; [by apply (sim_ret (λ x y, y = hp0 ++ shift_heap base x))|].
  intros x y ->. by apply sim_set_heap.
Qed.

(** *** huft_build *)

Definition rloop (a b : hloop) : Prop :=
  l_h a = l_h b ∧ l_w a = l_w b ∧ l_i a = l_i b ∧ l_p a = l_p b ∧ l_z a = l_z b ∧ l_x a = l_x b ∧
  ropt (l_q a) (l_q b) ∧ ropt (l_first a) (l_first b) ∧ ropt (l_last a) (l_last b) ∧
  Forall2 ropt (l_u a) (l_u b).

Lemma aset_Forall2 {A B} (R : A → B → Prop) l1 l2 i x y l1' :
  Forall2 R l1 l2 → R x y → aset l1 i x = Some l1' → ∃ l2', aset l2 i y = Some l2' ∧ Forall2 R l1' l2'.
Proof.
  intros HF HR [Hi ->]%aset_Some. exists (<[Z.to_nat i := y]> l2). split.
  - apply aset_Some. split; [|done]. unfold zlen in *. by rewrite <- (Forall2_length HF).
  - by apply Forall2_insert.
Qed.

Lemma aget_Forall2 {A B} (R : A → B → Prop) l1 l2 i x :
  Forall2 R l1 l2 → aget l1 i = Some x → ∃ y, aget l2 i = Some y ∧ R x y.
Proof.
  intros HF [Hi E]%aget_Some. destruct (Forall2_lookup_l _ _ _ _ _ HF E) as (y&E'&HR).
  exists y. split; [by apply aget_Some|done].
Qed.

Lemma sim_aset {A B} (R : A → B → Prop) l1 l2 i x y :
  Forall2 R l1 l2 → R x y → sim (Forall2 R) (lift_opt (aset l1 i x)) (lift_opt (aset l2 i y)).
Proof.
  intros HF HR. destruct (aset l1 i x) as [l1'|] eqn:E; [|apply sim_trap].
  destruct (aset_Forall2 R _ _ _ _ _ _ HF HR E) as (l2'&->&HF'). by apply sim_ret.
Qed.

Lemma sim_aget {A B} (R : A → B → Prop) l1 l2 i :
  Forall2 R l1 l2 → sim R (lift_opt (aget l1 i)) (lift_opt (aget l2 i)).
Proof.
  intros HF. destruct (aget l1 i) as [x|] eqn:E; [|apply sim_trap].
  destruct (aget_Forall2 R _ _ _ _ HF E) as (y&->&HR). by apply sim_ret.
Qed.

Lemma sim_make_tables c g l k a st1 st2 :
  rloop st1 st2 → sim rloop (make_tables c g l k a st1) (make_tables c g l k a st2).
Proof.
  intros Hst. unfold make_tables. apply sim_loop with (RA := rloop); [|done]. clear st1 st2 Hst.
  intros s1 s2 (Eh&Ew&Ei&Ep&Ez&Ex&Hq&Hf&Hl&Hu). rewrite <- Eh, <- Ew, <- Ei, <- Ep, <- Ex.
  destruct (l_w s1 + l <? k).
  2:{ apply sim_ret. by repeat split. }
  eapply sim_bind; [apply sim_lift_eq|]. intros j ? <-.
  eapply sim_bind; [apply sim_new_table|]. intros q1 q2 Hqq.
  eapply sim_bind.
  { destruct (l_last s1), (l_last s2); try done; [by apply sim_set_link|by apply (sim_ret eq)]. }
  intros [] [] _. eapply sim_bind; [by apply (sim_aset ropt)|]. intros u1 u2 Hu'.
  eapply (sim_bind eq).
  { destruct (negb (l_h s1 + 1 =? 0)); [|by apply sim_ret].
    eapply sim_bind; [apply sim_lift_eq|]. intros x ? <-.
    eapply sim_bind; [by apply (sim_aget ropt)|]. intros up1 up2 Hup.
    eapply sim_bind; [|intros ???; by apply sim_ret].
    destruct Hqq as [_ ->]. by apply (sim_set_entry up1 up2 _ (Huft _ _ (VT q1))). }
  intros x ? <-. apply sim_ret. unfold rloop. cbn. do 6 (split; [done|]). split; [exact Hqq|].
  split; [destruct (l_first s1), (l_first s2); done|]. split; [exact Hqq|done].
Qed.

Lemma sim_fill fuel q1 q2 j z f r :
  ropt q1 q2 → sim eq (fill_entries fuel q1 j z f r) (fill_entries fuel q2 j z f (shift_ent base r)).
Proof.
  intros Hq. revert j. induction fuel as [|n IH]; intros j; [apply sim_diverge|].
  cbn [fill_entries]. destruct (j <? z); [|by apply sim_ret].
  eapply sim_bind; [by apply sim_set_entry|]. intros ???. apply IH.
Qed.

Lemma code_entry_value n s v d e k w p r p' b :
  code_entry n s v d e k w p = Some (r, p') → shift_ent b r = r.
Proof.
  unfold code_entry. destruct (n <=? p); [by intros [= <- _]|].
  destruct (aget v p) as [[vp|]|]; try done. cbn [mbind option_bind]. destruct (vp <? s); [by intros [= <- _]|].
  destruct (aget e (vp - s)); [|done]. destruct (aget d (vp - s)); [|done]. by intros [= <- _].
Qed.

Lemma sim_codes_of_length n s v d e c g l k a : ∀ st1 st2,
  rloop st1 st2 →
  sim rloop (codes_of_length n s v d e c g l k a st1) (codes_of_length n s v d e c g l k a st2).
Proof.
  induction a as [|a IH]; intros st1 st2 Hst; [by apply sim_ret|]. cbn [codes_of_length].
  eapply sim_bind; [by apply sim_make_tables|].
  intros s1 s2 (Eh&Ew&Ei&Ep&Ez&Ex&Hq&Hf&Hl&Hu). rewrite <- Eh, <- Ew, <- Ei, <- Ep, <- Ex, <- Ez.
  destruct (code_entry n s v d e k (l_w s1) (l_p s1)) as [[r p]|] eqn:Ec; [|apply sim_trap].
  cbn [lift_opt]. eapply sim_bind; [by apply (sim_ret (λ x y, x = (r, p) ∧ y = (r, p)))|].
  intros x y [-> ->]. eapply sim_bind.
  { pose proof (sim_fill (S (Z.to_nat (l_z s1))) (l_q s1) (l_q s2) (Z.shiftr (l_i s1) (l_w s1))
      (l_z s1) (Z.shiftl 1 (k - l_w s1)) r Hq) as HS.
    rewrite (code_entry_value _ _ _ _ _ _ _ _ _ _ base Ec) in HS. exact HS. }
  intros _ _ _. eapply sim_bind; [apply sim_lift_eq|]. intros [h w] ? <-.
  apply IH. by repeat split.
Qed.

Lemma sim_all_codes fuel n s v d e c g l : ∀ k st1 st2,
  rloop st1 st2 →
  sim rloop (all_codes fuel n s v d e c g l k st1) (all_codes fuel n s v d e c g l k st2).
Proof.
  induction fuel as [|f IH]; intros k st1 st2 Hst; [apply sim_diverge|]. cbn [all_codes].
  destruct (k <=? g); [|by apply sim_ret].
  eapply sim_bind; [apply sim_lift_eq|]. intros a ? <-.
  eapply sim_bind; [by apply sim_codes_of_length|]. intros. by apply IH.
Qed.

Definition rbuild (a b : Z * option Z * Z) : Prop :=
  a.1.1 = b.1.1 ∧ ropt a.1.2 b.1.2 ∧ a.2 = b.2.

Lemma sim_huft_build b n s d e m : sim rbuild (huft_build b n s d e m) (huft_build b n s d e m).
Proof.
  unfold huft_build. eapply sim_bind; [apply sim_lift_eq|]. intros lens ? <-.
  eapply sim_bind; [apply sim_lift_eq|]. intros c ? <-.
  destruct (default 0 (aget c 0) =? n); [by apply sim_ret|]. cbv zeta.
  destruct (dummy_codes _ _ _ _ _) as [y|]; [|by apply sim_ret].
  eapply sim_bind; [apply sim_lift_eq|]. intros ci ? <-.
  eapply sim_bind; [apply sim_lift_eq|]. intros c' ? <-.
  eapply sim_bind; [apply sim_lift_eq|]. intros [v x0] ? <-.
  eapply sim_bind; [apply sim_lift_eq|]. intros x ? <-.
  eapply sim_bind; [apply sim_all_codes|].
  { repeat split; try done. apply Forall2_replicate. done. }
  intros st1 st2 (?&?&?&?&?&?&?&Hf&_&_). by apply sim_ret.
Qed.
End sim.

(** ** Building a table anywhere *)

Definition ghost (room : Z) : ist refenv := IState (RefEnv [] [] [] room [] 0) 0 0 0 [].

Lemma build_anywhere {St} `{HL : InflateLaws St} room slack b n sv d e m i t l g (s : ist St) :
  huft_build b n sv d e m (ghost room) = Ret (i, t, l) g → 0 <= slack →
  room + slack <= env_room (env s) →
  ∃ s', huft_build b n sv d e m s = Ret (i, (λ t, t + zlen (heap s)) <$> t, l) s' ∧
    heap s' = heap s ++ shift_heap (zlen (heap s)) (heap g) ∧
    re_room (env g) + slack <= env_room (env s') ∧ frame s s'.
Proof.
  intros E Hsl Hroom.
  destruct (sim_huft_build (heap s) slack Hsl b n sv d e m (ghost room) s (i, t, l) g)
    as ([[i2 t2] l2]&s'&E2&(R1&R2&R3)&[Hh Hr]&Hf).
  - split; [by rewrite app_nil_r|done].
  - done.
  - exists s'. cbn in R1, R2, R3. subst i2 l2. split; [|done].
    rewrite E2. do 3 f_equal. destruct t, t2; try done. destruct R2 as [_ ->]. done.
Qed.

(** ** What moved tables decode *)

Definition shift_res (b : Z) (r : option (huft * list bool)) : option (huft * list bool) :=
  (λ p, (shift_ent b p.1, p.2)) <$> r.

Lemma entry_at_shift hp0 h t i ent :
  entry_at h t i = Some ent →
  entry_at (hp0 ++ shift_heap (zlen hp0) h) (t + zlen hp0) i = Some (shift_ent (zlen hp0) ent).
Proof.
  unfold entry_at. destruct (aget h t) as [tab|] eqn:E; [|done].
  pose proof (aget_range _ _ _ E). rewrite aget_app_r by lia. unfold shift_heap.
  rewrite aget_map, E. cbn [fmap option_fmap option_map shift_tab h_ents].
  rewrite aget_map. destruct (aget (h_ents tab) i) as [o|]; [|done]. intros ->. done.
Qed.

Lemma walk_shift hp0 h fuel : ∀ ent nb bs r,
  walk fuel h ent nb bs = Some r →
  walk fuel (hp0 ++ shift_heap (zlen hp0) h) (shift_ent (zlen hp0) ent) nb bs
    = Some (shift_res (zlen hp0) r).
Proof.
  induction fuel as [|fl IH]; intros ent nb bs r E; [done|]. cbn [walk] in *.
  change (h_e (shift_ent _ ent)) with (h_e ent). change (h_b (shift_ent _ ent)) with (h_b ent).
  destruct (16 <? h_e ent).
  - destruct (h_e ent =? 99); [by injection E as <-|]. case_decide; [|done].
    unfold shift_ent at 1. cbn [h_v]. destruct (h_v ent) as [|t]; [done|]. cbn [shift_v].
    destruct (entry_at h t _) as [ent2|] eqn:E2; [|done].
    rewrite (entry_at_shift _ _ _ _ _ E2). by apply IH.
  - case_decide; [|done]. by injection E as <-.
Qed.

Lemma decode_shift hp0 h t nb bs r :
  decode h t nb bs = Some r →
  decode (hp0 ++ shift_heap (zlen hp0) h) ((λ t, t + zlen hp0) <$> t) nb bs
    = Some (shift_res (zlen hp0) r).
Proof.
  unfold decode. destruct t as [t|]; [|done]. cbn [fmap option_fmap option_map].
  case_decide; [|done]. destruct (entry_at h t _) as [ent|] eqn:E; [|done].
  rewrite (entry_at_shift _ _ _ _ _ E). apply walk_shift.
Qed.

Lemma lit_entry_shift b v : shift_v b (lit_entry v).2 = (lit_entry v).2.
Proof. unfold lit_entry. by destruct (lit_symbol v) as [[]|]. Qed.

Lemma dist_entry_shift b v : shift_v b (dist_entry v).2 = (dist_entry v).2.
Proof. unfold dist_entry. by destruct (dist_symbol v) as [[]|]. Qed.

Lemma decodes_shift hp0 h t nb ahead code valid entry :
  (∀ b v, shift_v b (entry v).2 = (entry v).2) →
  decodes h t nb ahead code valid entry →
  decodes (hp0 ++ shift_heap (zlen hp0) h) ((λ t, t + zlen hp0) <$> t) nb ahead code valid entry.
Proof.
  intros Hsv Hd bs v rest Hl Hc Hv. destruct (Hd bs v rest Hl Hc Hv) as (ent&E&Eent).
  exists (shift_ent (zlen hp0) ent). split; [by rewrite (decode_shift _ _ _ _ _ _ E)|].
  cbn. rewrite <- Eent at 1. specialize (Hsv (zlen hp0) v). rewrite <- Eent in Hsv. cbn in Hsv.
  cbn. by rewrite Hsv.
Qed.

(** Tables that are there stay there. *)
Lemma walk_more h h' fuel : ∀ ent nb bs r,
  walk fuel h ent nb bs = Some r → walk fuel (h ++ h') ent nb bs = Some r.
Proof.
  assert (∀ t i ent, entry_at h t i = Some ent → entry_at (h ++ h') t i = Some ent) as Hent.
  { intros t i ent. unfold entry_at. destruct (aget h t) as [tab|] eqn:E; [|done].
    assert (aget (h ++ h') t = Some tab) as ->; [|done].
    apply aget_Some in E as [Ht E]. apply aget_Some. split; [done|]. by apply lookup_app_l_Some. }
  induction fuel as [|fl IH]; intros ent nb bs r E; [done|]. cbn [walk] in *.
  destruct (16 <? h_e ent); [|done]. destruct (h_e ent =? 99); [done|]. case_decide; [|done].
  destruct (h_v ent) as [|t]; [done|]. destruct (entry_at h t _) as [ent2|] eqn:E2; [|done].
  rewrite (Hent _ _ _ E2). by apply IH.
Qed.

Lemma decodes_more h h' t nb ahead code valid entry :
  decodes h t nb ahead code valid entry → decodes (h ++ h') t nb ahead code valid entry.
Proof.
  intros Hd bs v rest Hl Hc Hv. destruct (Hd bs v rest Hl Hc Hv) as (ent&E&Eent).
  exists ent. split; [|done]. unfold decode in *. destruct t as [t|]; [|done].
  case_decide; [|done]. destruct (entry_at h t _) as [ent0|] eqn:E2; [|done].
  assert (entry_at (h ++ h') t (bval (take (Z.to_nat nb) bs)) = Some ent0) as ->.
  { revert E2. unfold entry_at. destruct (aget h t) as [tab|] eqn:E3; [|done].
    assert (aget (h ++ h') t = Some tab) as ->; [|done].
    apply aget_Some in E3 as [Ht E3]. apply aget_Some. split; [done|]. by apply lookup_app_l_Some. }
  by apply walk_more.
Qed.
