(* ===== verification/Canon.v ===== *)
(** * Canonical prefix codes

    RFC 1951, 3.2.2: a prefix code is given by the lengths of its codes.  Codes
    of the same length are consecutive in the order of their symbols, and a
    shorter code comes before a longer one.  Here are the code of every symbol,
    the decoder, and the arithmetic of code words that the proof about the
    decoding tables needs. *)

From S2P Require Import Prelude CString Vsprintf Bits Huft Inflate Deflate.

Open Scope Z_scope.
Open Scope list_scope.

(** ** The code *)

(** The number of symbols with a code of [k] bits. *)
Fixpoint bl_count (lens : list Z) (k : Z) : Z :=
  match lens with
  | [] => 0
  | l :: lens => (if l =? k then 1 else 0) + bl_count lens k
  end.

(** The first code of [k] bits: code = (code + bl_count[bits - 1]) << 1, with
    bl_count[0] = 0. *)
Fixpoint next_code (lens : list Z) (k : nat) : Z :=
  match k with
  | O => 0
  | S k => 2 * (next_code lens k + match k with O => 0 | _ => bl_count lens (Z.of_nat k) end)
  end.

(** Length and code of every symbol; [used] are the lengths before it. *)
Fixpoint code_table (all used lens : list Z) : list (Z * Z) :=
  match lens with
  | [] => []
  | k :: lens => (k, next_code all (Z.to_nat k) + bl_count used k) :: code_table all (used ++ [k]) lens
  end.

Fixpoint match_code (codes : list (Z * Z)) (v : Z) (bs : list bool) : option (Z * list bool) :=
  match codes with
  | [] => None
  | (k, c) :: codes =>
      if (0 <? k) && (k <=? zlen bs) && (hcode (take (Z.to_nat k) bs) =? c) then Some (v, drop (Z.to_nat k) bs)
      else match_code codes (v + 1) bs
  end.

(** The symbol whose code the bits begin with. *)
Definition canon (lens : list Z) : list bool → option (Z * list bool) :=
  let codes := code_table lens [] lens in λ bs, match_code codes 0 bs.

(** The part of the bit strings that have a code, in units of 2^-15. *)
Fixpoint kraft (lens : list Z) : Z :=
  match lens with
  | [] => 0
  | k :: lens => (if k =? 0 then 0 else 2 ^ (15 - k)) + kraft lens
  end.

(** The sets of lengths [huft_build] makes tables for: every bit string has a
    code; or there is no code; or there is one symbol, with a code of one bit.
    (For one code among several symbols it reads a value it has not written.) *)
Definition usable (lens : list Z) : bool :=
  (kraft lens =? 2 ^ 15) || forallb (λ k, k =? 0) lens || bool_decide (lens = [1]).

Example canon_rfc : (* the code of RFC 1951, 3.2.2 *)
  code_table [3; 3; 3; 3; 3; 2; 4; 4] [] [3; 3; 3; 3; 3; 2; 4; 4] =
    [(3, 2); (3, 3); (3, 4); (3, 5); (3, 6); (2, 0); (4, 14); (4, 15)].
Proof. reflexivity. Qed.

(** ** Lemmas on the decoder *)

Lemma match_code_Some codes v bs x rest : match_code codes v bs = Some (x, rest) →
  ∃ k c, aget codes (x - v) = Some (k, c) ∧ v <= x ∧ 0 < k <= zlen bs ∧ hcode (take (Z.to_nat k) bs) = c ∧
    rest = drop (Z.to_nat k) bs.
Proof.
  revert v. induction codes as [|[k c] codes IH]; intros v; [done|]. cbn [match_code].
  destruct (_ && _ && _) eqn:E.
  - apply andb_true_iff in E as [[E1%Z.ltb_lt E2%Z.leb_le]%andb_true_iff E3%Z.eqb_eq]. intros [= <- <-].
    exists k, c. rewrite Z.sub_diag. repeat split; try done; lia.
  - intros (k'&c'&Ea&Hv&H)%IH. exists k', c'. split; [|split; [lia|done]].
    apply aget_Some in Ea as [Hr Ea]. apply aget_Some. split; [lia|].
    replace (Z.to_nat (x - v)) with (S (Z.to_nat (x - (v + 1)))) by lia. done.
Qed.

Lemma code_table_get all used lens v k c : aget (code_table all used lens) v = Some (k, c) →
  aget lens v = Some k ∧ c = next_code all (Z.to_nat k) + bl_count (used ++ take (Z.to_nat v) lens) k.
Proof.
  revert used v. induction lens as [|k0 lens IH]; intros used v; [by intros [_ E]%aget_Some|].
  intros [Hr E]%aget_Some. cbn [code_table] in E. destruct (Z.to_nat v) as [|u] eqn:Eu.
  - injection E as <- <-. cbn [take]. rewrite app_nil_r. split; [|done]. apply aget_Some.
    rewrite Eu. split; [lia|done].
  - cbn in E. assert (aget (code_table all (used ++ [k0]) lens) (v - 1) = Some (k, c)) as E'.
    { apply aget_Some. split; [lia|]. by replace (Z.to_nat (v - 1)) with u by lia. }
    destruct (IH _ _ E') as [Ea ->]. split.
    + apply aget_Some in Ea as [Hr' Ea]. apply aget_Some. split; [lia|].
      rewrite Eu. by replace (Z.to_nat (v - 1)) with u in Ea by lia.
    + replace (Z.to_nat (v - 1)) with u by lia. cbn [take]. by rewrite <- app_assoc.
Qed.

(** What the decoder finds. *)
Lemma canon_Some lens bs v rest : canon lens bs = Some (v, rest) →
  ∃ k, aget lens v = Some k ∧ 0 < k <= zlen bs ∧
    hcode (take (Z.to_nat k) bs) = next_code lens (Z.to_nat k) + bl_count (take (Z.to_nat v) lens) k ∧
    rest = drop (Z.to_nat k) bs.
Proof.
  unfold canon. intros (k&c&Ea&_&Hk&Hc&Hr)%match_code_Some. rewrite Z.sub_0_r in Ea.
  apply code_table_get in Ea as [Ea ->]. by exists k.
Qed.

Lemma canon_shrinks lens : shrinks (canon lens).
Proof.
  intros bs v rest (k&_&Hk&_&->)%canon_Some. rewrite zlen_drop. pose proof (zlen_nonneg bs). lia.
Qed.

Lemma bl_count_nonneg lens k : 0 <= bl_count lens k.
Proof. induction lens as [|l lens IH]; cbn [bl_count]; [lia|]. destruct (l =? k); lia. Qed.

Lemma bl_count_app l1 l2 k : bl_count (l1 ++ l2) k = bl_count l1 k + bl_count l2 k.
Proof. induction l1 as [|l l1 IH]; cbn [app bl_count]; lia. Qed.

Lemma bl_count_before lens v k : aget lens v = Some k → bl_count (take (Z.to_nat v) lens) k < bl_count lens k.
Proof.
  intros [Hr E]%aget_Some. rewrite <- (take_drop (Z.to_nat v) lens) at 2. rewrite bl_count_app.
  rewrite (drop_S _ _ _ E). cbn [bl_count]. rewrite Z.eqb_refl. pose proof (bl_count_nonneg (drop (S (Z.to_nat v)) lens) k). lia.
Qed.

(** ** Code words *)

Lemma hcode_fold l : ∀ acc, fold_left (λ v b, 2 * v + Z.b2z b) l acc = acc * 2 ^ zlen l + hcode l.
Proof.
  unfold hcode. induction l as [|b l IH]; intros acc; cbn [fold_left]; [change (zlen (@nil bool)) with 0; lia|].
  rewrite IH, (IH (2 * 0 + _)), zlen_cons, Z.pow_add_r by (pose proof (zlen_nonneg l); lia). lia.
Qed.

Lemma hcode_app a b : hcode (a ++ b) = hcode a * 2 ^ zlen b + hcode b.
Proof. unfold hcode at 1. rewrite fold_left_app. apply hcode_fold. Qed.

Lemma hcode_snoc a b : hcode (a ++ [b]) = 2 * hcode a + Z.b2z b.
Proof. rewrite hcode_app. change (zlen [b]) with 1. change (hcode [b]) with (2 * 0 + Z.b2z b). lia. Qed.

Lemma hcode_range l : 0 <= hcode l < 2 ^ zlen l.
Proof.
  induction l as [|b l IH] using rev_ind; [by cbn|]. rewrite hcode_snoc, zlen_app, Z.pow_add_r by (try apply zlen_nonneg).
  change (2 ^ zlen [b]) with 2. destruct b; cbn [Z.b2z]; lia.
Qed.

Lemma hcode_inj a : ∀ b, zlen a = zlen b → hcode a = hcode b → a = b.
Proof.
  induction a as [|x a IH] using rev_ind; intros b Hz E; destruct b as [|y b _] using rev_ind; try done.
  1,2: unfold zlen in Hz; rewrite length_app in Hz; cbn [length] in Hz; lia.
  rewrite !hcode_snoc in E. rewrite !zlen_app in Hz. change (zlen [x]) with 1 in Hz. change (zlen [y]) with 1 in Hz.
  assert (hcode a = hcode b ∧ x = y) as [E' ->] by (destruct x, y; cbn [Z.b2z] in E; (split; [lia|done || lia])).
  by rewrite (IH b) by lia.
Qed.

Lemma hcode_zeros n : hcode (replicate n false) = 0.
Proof.
  induction n as [|n IH]; [done|]. cbn [replicate]. change (false :: replicate n false) with ([false] ++ replicate n false).
  rewrite hcode_app, IH. reflexivity.
Qed.

Lemma bval_zeros n : bval (replicate n false) = 0.
Proof. induction n as [|n IH]; [done|]. cbn [replicate bval]. rewrite IH. reflexivity. Qed.

Lemma bval_take w l : 0 <= w → Z.land (bval l) (2 ^ w - 1) = bval (take (Z.to_nat w) l).
Proof.
  intros Hw. replace (2 ^ w - 1) with (Z.ones w) by (rewrite Z.ones_equiv; lia).
  rewrite Z.land_ones by done. rewrite <- (take_drop (Z.to_nat w) l) at 1. rewrite bval_app, zlen_take.
  pose proof (bval_range (take (Z.to_nat w) l)) as Hb. rewrite zlen_take in Hb. pose proof (zlen_nonneg l).
  destruct (Z.le_gt_cases w (zlen l)) as [Hle|Hgt].
  - replace (Z.max 0 (Z.min w (zlen l))) with w in * by lia. rewrite Z.mul_comm, Z.mod_add by lia. by apply Z.mod_small.
  - rewrite (drop_ge l) by (unfold zlen in *; lia). cbn [bval]. rewrite Z.mul_0_r, Z.add_0_r. apply Z.mod_small.
    split; [lia|]. eapply Z.lt_le_trans; [apply Hb|]. apply Z.pow_le_mono_r; lia.
Qed.

Lemma bval_drop w l : 0 <= w → Z.shiftr (bval l) w = bval (drop (Z.to_nat w) l).
Proof.
  intros Hw. rewrite Z.shiftr_div_pow2 by done. rewrite <- (take_drop (Z.to_nat w) l) at 1. rewrite bval_app, zlen_take.
  pose proof (bval_range (take (Z.to_nat w) l)) as Hb. rewrite zlen_take in Hb. pose proof (zlen_nonneg l).
  destruct (Z.le_gt_cases w (zlen l)) as [Hle|Hgt].
  - replace (Z.max 0 (Z.min w (zlen l))) with w in * by lia. rewrite Z.mul_comm, Z.div_add, Z.div_small by lia. done.
  - rewrite (drop_ge l) by (unfold zlen in *; lia). cbn [bval]. rewrite Z.mul_0_r, Z.add_0_r. apply Z.div_small.
    split; [lia|]. eapply Z.lt_le_trans; [apply Hb|]. apply Z.pow_le_mono_r; lia.
Qed.

(** ** Counting backwards: the next code of the same length *)

Lemma land_top a n : 0 <= n → 0 <= a < 2 ^ n → Z.land a (2 ^ n) = 0.
Proof.
  intros Hn Ha. apply Z.bits_inj'. intros i Hi. rewrite Z.land_spec, Z.bits_0, Z.pow2_bits_eqb by done.
  destruct (Z.eqb_spec n i) as [<-|]; [|apply andb_false_r]. rewrite andb_true_r.
  destruct (decide (a = 0)) as [->|]; [apply Z.bits_0|]. apply Z.bits_above_log2; [lia|]. apply Z.log2_lt_pow2; lia.
Qed.

Lemma lxor_top a n : 0 <= n → 0 <= a < 2 ^ n → Z.lxor a (2 ^ n) = a + 2 ^ n.
Proof. intros Hn Ha. symmetry. apply Z.add_nocarry_lxor. by apply land_top. Qed.

Lemma land_top_set a n : 0 <= n → 0 <= a < 2 ^ n → Z.land (a + 2 ^ n) (2 ^ n) = 2 ^ n.
Proof.
  intros Hn Ha. rewrite <- lxor_top by done. apply Z.bits_inj'. intros i Hi.
  rewrite Z.land_spec, Z.lxor_spec, !Z.pow2_bits_eqb by done. destruct (Z.eqb_spec n i) as [<-|]; [|apply andb_false_r].
  destruct (decide (a = 0)) as [->|]; [by rewrite Z.bits_0|]. rewrite Z.bits_above_log2; [done|lia|]. apply Z.log2_lt_pow2; lia.
Qed.

Lemma lxor_top_set a n : 0 <= n → 0 <= a < 2 ^ n → Z.lxor (a + 2 ^ n) (2 ^ n) = a.
Proof. intros Hn Ha. rewrite <- lxor_top by done. by rewrite Z.lxor_assoc, Z.lxor_nilpotent, Z.lxor_0_r. Qed.

(** The loop that counts a code up from its last bit, on the reversed code:
    it changes the bits from some place on, and leaves zeros behind the first
    bit it changes. *)
Lemma back_increment_ok wd : ∀ fuel, (length wd < fuel)%nat →
  ∃ wd', length wd' = length wd ∧
    back_increment fuel (bval wd) (if zlen wd =? 0 then 0 else 2 ^ (zlen wd - 1)) = bval wd' ∧
    (hcode wd + 1 < 2 ^ zlen wd → hcode wd' = hcode wd + 1) ∧
    ∀ w, take w wd' = take w wd ∨ drop w wd' = replicate (length wd - w) false.
Proof.
  induction wd as [|b wd IH] using rev_ind; intros fuel Hf; (destruct fuel as [|fuel]; [lia|]).
  { exists []. split; [done|]. split; [done|]. split; [intros H; exfalso; change (1 < 1) in H; lia|]. intros w. left. done. }
  rewrite length_app in *. cbn [length] in *.
  assert (zlen (wd ++ [b]) = zlen wd + 1) as Hz by (by rewrite zlen_app). pose proof (zlen_nonneg wd) as H0.
  rewrite Hz, (proj2 (Z.eqb_neq _ 0)) by lia. replace (zlen wd + 1 - 1) with (zlen wd) by lia.
  pose proof (bval_range wd) as Hb. rewrite bval_app. cbn [back_increment bval].
  destruct b; cbn [Z.b2z].
  - replace (bval wd + 2 ^ zlen wd * (1 + 2 * 0)) with (bval wd + 2 ^ zlen wd) by lia. rewrite land_top_set, lxor_top_set by done. rewrite (proj2 (Z.eqb_neq _ 0)) by lia.
    assert (Z.shiftr (2 ^ zlen wd) 1 = if zlen wd =? 0 then 0 else 2 ^ (zlen wd - 1)) as ->.
    { destruct (Z.eqb_spec (zlen wd) 0) as [->|]; [done|]. rewrite Z.shiftr_div_pow2 by lia.
      change (2 ^ 1) with (2 ^ 1). rewrite <- Z.pow_sub_r by lia. done. }
    destruct (IH fuel) as (wd'&Hl&E&Hh&Hw); [lia|]. exists (wd' ++ [false]).
    split; [rewrite length_app; cbn [length]; lia|]. split; [rewrite E, bval_app; cbn; lia|]. split.
    + rewrite !hcode_snoc. cbn [Z.b2z]. intros Hlt. rewrite Z.pow_add_r in Hlt by lia. change (2 ^ 1) with 2 in Hlt.
      rewrite Hh by lia. lia.
    + intros w. destruct (decide (w <= length wd)%nat) as [Hle|Hgt].
      * destruct (Hw w) as [Ht|Hd].
        -- left. rewrite !take_app_le by lia. done.
        -- right. rewrite drop_app_le, Hd by lia. replace (length wd + 1 - w)%nat with (length wd - w + 1)%nat by lia.
           by rewrite replicate_add.
      * right. rewrite drop_ge by (rewrite length_app; cbn [length]; lia). by replace (length wd + 1 - w)%nat with 0%nat by lia.
  - replace (bval wd + 2 ^ zlen wd * (0 + 2 * 0)) with (bval wd) by lia. rewrite land_top by done. change (0 =? 0) with true. cbv iota.
    exists (wd ++ [true]). split; [by rewrite length_app|]. split; [rewrite lxor_top, bval_app by done; cbn; lia|]. split.
    + intros _. rewrite !hcode_snoc. cbn [Z.b2z]. lia.
    + intros w. destruct (decide (w <= length wd)%nat) as [Hle|Hgt].
      * left. by rewrite !take_app_le by lia.
      * right. rewrite drop_ge by (rewrite length_app; cbn [length]; lia). by replace (length wd + 1 - w)%nat with 0%nat by lia.
Qed.
