(* ===== verification/HuftBuild.v ===== *)
(** * huft_build makes tables that decode the code

    The tables for any complete set of lengths, or one single code: what
    [huft_build] leaves in memory decodes the canonical code of the lengths.
    The loop variable [i] is a code word with its first bit lowest, so tables are
    indexed by bits in the order of the stream.  Codes come in the order of their
    numeric value; a code of [k] bits with value [x] covers the numbers from
    x * 2^(g-k) to (x + 1) * 2^(g-k) of the strings of [g] bits, the position of
    the loop.  What lies before the position is decoded, and the tables on the
    stack are those along the word at the position, with nothing in them behind
    it. *)

From S2P Require Import Prelude CString Vsprintf Bits Huft Inflate Deflate HuftSim Canon.

Open Scope Z_scope.
Open Scope list_scope.

(** ** Tables in memory *)

Lemma aset_in {A} (l : list A) i x : 0 <= i < zlen l → ∃ l', aset l i x = Some l'.
Proof. intros Hi. eexists. apply aset_Some. split; [exact Hi|reflexivity]. Qed.

Lemma aget_take {A} (i : list A) m h : m < h → aget (take (Z.to_nat h) i) m = aget i m.
Proof.
  intros Hm. unfold aget. case_decide; [|done]. apply lookup_take_lt. lia.
Qed.

Definition slot (hp : list htable) (t i : Z) : option (option huft) :=
  let? tab := aget hp t in aget (h_ents tab) i.

Definition link (hp : list htable) (t : Z) : option (option Z) := h_link <$> aget hp t.

Lemma entry_at_slot hp t i ent : entry_at hp t i = Some ent ↔ slot hp t i = Some (Some ent).
Proof.
  unfold entry_at, slot. destruct (aget hp t) as [tab|]; [|done]. cbn [mbind option_bind].
  destruct (aget (h_ents tab) i); [|done]. cbn [mbind option_bind]. split; congruence.
Qed.

Definition with_heap {St} (hp : list htable) (s : ist St) : ist St := IState (env s) (bb s) (bk s) (hufts s) hp.

(** [r] put into some entries of table [t]. *)
Definition updated (hp hp' : list htable) (t : Z) (at_ : Z → bool) (r : huft) : Prop :=
  zlen hp' = zlen hp ∧ (∀ u, link hp' u = link hp u) ∧
  ∀ u i, slot hp' u i = if (u =? t) && at_ i then (λ _, Some r) <$> slot hp u i else slot hp u i.

Lemma set_entry_upd {St} `{InflateEnv St} t i r (s : ist St) o : slot (heap s) t i = Some o →
  ∃ hp', set_entry (Some t) i r s = Ret tt (with_heap hp' s) ∧ updated (heap s) hp' t (λ x, x =? i) r.
Proof.
  unfold slot, set_entry. destruct (aget (heap s) t) as [tab|] eqn:Et; [|done]. cbn [mbind option_bind]. intros Eo.
  pose proof (aget_range _ _ _ Et) as Ht. pose proof (aget_range _ _ _ Eo) as Hi.
  set (ents := <[Z.to_nat i := Some r]> (h_ents tab)).
  assert (aset (h_ents tab) i (Some r) = Some ents) as Ea by (apply aset_Some; done).
  set (hp' := <[Z.to_nat t := HTable (h_link tab) ents]> (heap s)).
  assert (aset (heap s) t (HTable (h_link tab) ents) = Some hp') as Eh by (apply aset_Some; done).
  exists hp'. split.
  { cbn [gets bind]. rewrite Et. cbn [lift_opt]. rewrite bind_ret, Ea. cbn [lift_opt]. rewrite bind_ret, Eh.
    cbn [lift_opt]. by rewrite bind_ret. }
  split; [apply aset_len in Eh; unfold zlen; by rewrite Eh|]. split.
  - intros u. unfold link. rewrite (aget_aset _ _ _ _ _ Eh). case_decide as E; [|done]. subst u. by rewrite Et.
  - intros u x. unfold slot. rewrite (aget_aset _ _ _ _ _ Eh). case_decide as E.
    + subst u. rewrite Et, Z.eqb_refl. cbn [mbind option_bind h_ents andb]. rewrite (aget_aset _ _ _ _ _ Ea).
      case_decide as E2; [subst x; by rewrite Z.eqb_refl, Eo|]. by rewrite (proj2 (Z.eqb_neq x i)).
    + by rewrite (proj2 (Z.eqb_neq u t)).
Qed.

Lemma updated_trans hp hp1 hp2 t a b r : updated hp hp1 t a r → updated hp1 hp2 t b r →
  updated hp hp2 t (λ x, a x || b x) r.
Proof.
  intros (Z1&L1&S1) (Z2&L2&S2). split; [lia|]. split; [intros u; by rewrite L2|]. intros u i. rewrite S2, S1.
  destruct (u =? t); cbn [andb]; [|done]. destruct (a i), (b i); cbn [orb]; try done. by destruct (slot hp u i).
Qed.

Lemma updated_ext hp hp' t a b r : (∀ x, is_Some (slot hp t x) → a x = b x) → updated hp hp' t a r → updated hp hp' t b r.
Proof.
  intros HE (Z1&L1&S1). split; [done|]. split; [done|]. intros u i. rewrite S1. destruct (Z.eqb_spec u t) as [->|]; [|done].
  cbn [andb]. destruct (slot hp t i) as [o|] eqn:E; [by rewrite HE by (by eexists)|]. by destruct (a i), (b i).
Qed.

(** Every [f]-th entry. *)
Lemma fill_entries_upd {St} `{InflateEnv St} t z f r : 0 < f → ∀ fuel j (s : ist St), 0 <= j → Z.max 0 (z - j) < Z.of_nat fuel →
  (∀ x, 0 <= x < z → is_Some (slot (heap s) t x)) → (∀ x, is_Some (slot (heap s) t x) → x < z) →
  ∃ hp', fill_entries fuel (Some t) j z f r s = Ret tt (with_heap hp' s) ∧
    updated (heap s) hp' t (λ x, (j <=? x) && (x mod f =? j mod f)) r.
Proof.
  intros Hf fuel. induction fuel as [|fuel IH]; intros j s Hj Hfuel Hs Hz; cbn [fill_entries].
  { lia. }
  destruct (Z.ltb_spec j z) as [Hlt|Hge].
  - destruct (Hs j) as [o Eo]; [lia|]. destruct (set_entry_upd t j r s o Eo) as (hp1&E1&U1). rewrite (bind_Ret _ _ _ _ _ E1).
    assert (∀ x, is_Some (slot hp1 t x) ↔ is_Some (slot (heap s) t x)) as Hiff.
    { intros x. destruct U1 as (_&_&S1). rewrite S1. destruct (_ && _); [|done].
      destruct (slot (heap s) t x); split; intros []; by eexists. }
    destruct (IH (j + f) (with_heap hp1 s)) as (hp2&E2&U2); [lia|lia|intros x Hx; apply Hiff, Hs; lia|intros x Hx; apply Hz, Hiff, Hx|].
    exists hp2. split; [exact E2|]. cbn [with_heap heap] in U2. pose proof (updated_trans _ _ _ _ _ _ _ U1 U2) as U.
    eapply updated_ext; [|exact U]. intros x Hx. cbv beta.
    replace ((j + f) mod f) with (j mod f) by (rewrite <- (Z.mul_1_l f) at 2; by rewrite Z.mod_add by lia).
    destruct (Z.eqb_spec x j) as [->|Hne]; [rewrite Z.leb_refl, Z.eqb_refl; done|]. cbn [orb].
    destruct (Z.eqb_spec (x mod f) (j mod f)) as [Em|]; [|by rewrite !andb_false_r].
    destruct (Z.leb_spec (j + f) x), (Z.leb_spec j x); try done; [lia|]. exfalso.
    pose proof (Z.div_mod x f ltac:(lia)). pose proof (Z.div_mod j f ltac:(lia)).
    assert (x - j = f * (x / f - j / f)) as Hd by lia. assert (0 < x - j < f) as Hr by lia. rewrite Hd in Hr.
    assert (x / f - j / f <= 0 ∨ 1 <= x / f - j / f) as [|] by lia; nia.
  - exists (heap s). split; [by destruct s|]. split; [done|]. split; [done|]. intros u i.
    destruct (Z.eqb_spec u t) as [->|]; [|done]. cbn [andb]. destruct (slot (heap s) t i) as [o|] eqn:E; [|by destruct (_ && _)].
    rewrite (proj2 (Z.leb_gt j i)); [done|]. specialize (Hz i ltac:(by eexists)). lia.
Qed.

Lemma slot_new hp z u i : 0 <= z → slot (hp ++ [HTable None (replicate (Z.to_nat z) None)]) u i =
  if u =? zlen hp then (if (0 <=? i) && (i <? z) then Some None else None) else slot hp u i.
Proof.
  intros Hz. unfold slot. destruct (Z.eqb_spec u (zlen hp)) as [->|Hne].
  - rewrite aget_snoc_last. cbn [mbind option_bind h_ents]. unfold aget. destruct (Z.leb_spec 0 i); cbn [andb].
    + rewrite decide_True by done. destruct (Z.ltb_spec i z); [by rewrite lookup_replicate_2 by lia|].
      apply lookup_ge_None. rewrite length_replicate. lia.
    + by rewrite decide_False by lia.
  - destruct (Z.lt_ge_cases u (zlen hp)) as [Hlt|Hge]; [by rewrite aget_snoc_old|].
    assert (∀ l : list htable, zlen l <= u → aget l u = None) as Hnone.
    { intros l Hl. destruct (aget l u) eqn:E; [|done]. apply aget_range in E. lia. }
    rewrite !Hnone; [done|lia|rewrite zlen_app; change (zlen [_]) with 1; lia].
Qed.

Lemma link_new hp z u : link (hp ++ [HTable None (replicate (Z.to_nat z) None)]) u = if u =? zlen hp then Some None else link hp u.
Proof.
  unfold link. destruct (Z.eqb_spec u (zlen hp)) as [->|Hne]; [by rewrite aget_snoc_last|].
  destruct (Z.lt_ge_cases u (zlen hp)) as [Hlt|Hge]; [by rewrite aget_snoc_old|].
  assert (∀ l : list htable, zlen l <= u → aget l u = None) as Hnone.
  { intros l Hl. destruct (aget l u) eqn:E; [|done]. apply aget_range in E. lia. }
  rewrite !Hnone; [done|lia|rewrite zlen_app; change (zlen [_]) with 1; lia].
Qed.

Lemma set_link_ok {St} `{InflateEnv St} t l (s : ist St) : 0 <= t < zlen (heap s) →
  ∃ hp', set_link t l s = Ret tt (with_heap hp' s) ∧ zlen hp' = zlen (heap s) ∧
    (∀ u i, slot hp' u i = slot (heap s) u i) ∧ ∀ u, link hp' u = if u =? t then Some l else link (heap s) u.
Proof.
  intros Ht. destruct (proj2 (aget_is_Some (heap s) t) Ht) as [tab Et].
  set (hp' := <[Z.to_nat t := HTable l (h_ents tab)]> (heap s)).
  assert (aset (heap s) t (HTable l (h_ents tab)) = Some hp') as Eh by (apply aset_Some; done).
  exists hp'. split.
  { unfold set_link. cbn [gets bind]. rewrite Et. cbn [lift_opt]. rewrite bind_ret, Eh. cbn [lift_opt]. by rewrite bind_ret. }
  split; [apply aset_len in Eh; unfold zlen; by rewrite Eh|]. split.
  - intros u i. unfold slot. rewrite (aget_aset _ _ _ _ _ Eh). case_decide as E; [|done]. subst u. by rewrite Et.
  - intros u. unfold link. rewrite (aget_aset _ _ _ _ _ Eh). case_decide as E; [subst u; by rewrite Z.eqb_refl|].
    by rewrite (proj2 (Z.eqb_neq u t)).
Qed.

(** ** Looking a word up *)

Definition look (fuel : nat) (hp : list htable) (t nb : Z) (bs : list bool) : option (option (huft * list bool)) :=
  let? ent := entry_at hp t (bval (take (Z.to_nat nb) bs)) in walk fuel hp ent nb bs.

Lemma walk_mono hp hp' fuel : (∀ t i ent, entry_at hp t i = Some ent → entry_at hp' t i = Some ent) → ∀ ent nb bs r,
  walk fuel hp ent nb bs = Some r → walk fuel hp' ent nb bs = Some r.
Proof.
  intros HE. induction fuel as [|fl IH]; intros ent nb bs r E; [done|]. cbn [walk] in *.
  destruct (16 <? h_e ent); [|done]. destruct (h_e ent =? 99); [done|]. case_decide; [|done].
  destruct (h_v ent) as [|t]; [done|]. destruct (entry_at hp t _) as [ent2|] eqn:E2; [|done].
  rewrite (HE _ _ _ E2). by apply IH.
Qed.

Lemma look_mono hp hp' fuel t nb bs r : (∀ t i ent, entry_at hp t i = Some ent → entry_at hp' t i = Some ent) →
  look fuel hp t nb bs = Some r → look fuel hp' t nb bs = Some r.
Proof.
  intros HE. unfold look. destruct (entry_at hp t _) as [ent|] eqn:E; [|done]. rewrite (HE _ _ _ E). by apply walk_mono.
Qed.

(** ** The codes *)

(** [cn k] codes of [k] bits, the first of them [fc k], with [off k] codes
    before it; together they use up the strings of [g] bits. *)
Record complete (g : Z) (cn fc off : Z → Z) : Prop := {
  cp_g : 1 <= g <= 15;
  cp_nonneg : ∀ k, 1 <= k <= g → 0 <= cn k;
  cp_last : 1 <= cn g;
  cp_first : fc 1 = 0;
  cp_next : ∀ k, 1 <= k < g → fc (k + 1) = 2 * (fc k + cn k);
  cp_full : fc g + cn g = 2 ^ g;
  cp_off : off 1 = 0;
  cp_off_next : ∀ k, 1 <= k <= g → off (k + 1) = off k + cn k
}.

Section codes.
Context {g : Z} {cn fc off : Z → Z} (HC : complete g cn fc off).

(** Where the codes of [k] bits begin, and where they end. *)
Definition low (k : Z) : Z := fc k * 2 ^ (g - k).
Definition high (k : Z) : Z := (fc k + cn k) * 2 ^ (g - k).

Lemma low_next k : 1 <= k < g → low (k + 1) = high k.
Proof.
  intros Hk. unfold low, high. rewrite (cp_next _ _ _ _ HC) by done.
  replace (g - k) with (g - (k + 1) + 1) by lia. rewrite Z.pow_add_r by lia. lia.
Qed.

Lemma low_high k : 1 <= k <= g → low k <= high k.
Proof. intros Hk. unfold low, high. pose proof (cp_nonneg _ _ _ _ HC k Hk). nia. Qed.

Lemma high_g : high g = 2 ^ g.
Proof. unfold high. rewrite Z.sub_diag, (cp_full _ _ _ _ HC). lia. Qed.

Lemma high_mono a b : 1 <= a → a <= b <= g → high a <= high b.
Proof.
  intros Ha Hb. replace b with (a + Z.of_nat (Z.to_nat (b - a))) in * by lia. generalize dependent (Z.to_nat (b - a)).
  intros n. induction n as [|n IH]; intros Hn; [rewrite Z.add_0_r; lia|].
  transitivity (high (a + Z.of_nat n)); [apply IH; lia|]. replace (a + Z.of_nat (S n)) with (a + Z.of_nat n + 1) by lia.
  rewrite <- low_next by lia. apply low_high. lia.
Qed.

Lemma high_le k : 1 <= k <= g → high k <= 2 ^ g.
Proof. intros Hk. rewrite <- high_g. apply high_mono; lia. Qed.

Lemma fc_nonneg k : 1 <= k <= g → 0 <= fc k.
Proof.
  intros Hk. replace k with (1 + Z.of_nat (Z.to_nat (k - 1))) in * by lia. generalize dependent (Z.to_nat (k - 1)).
  intros n. induction n as [|n IH]; intros Hn; [rewrite Z.add_0_r, (cp_first _ _ _ _ HC); lia|].
  replace (1 + Z.of_nat (S n)) with (1 + Z.of_nat n + 1) by lia. rewrite (cp_next _ _ _ _ HC) by lia.
  pose proof (cp_nonneg _ _ _ _ HC (1 + Z.of_nat n) ltac:(lia)). lia.
Qed.

Lemma off_mono a b : 1 <= a → a <= b <= g + 1 → off a <= off b.
Proof.
  intros Ha Hb. replace b with (a + Z.of_nat (Z.to_nat (b - a))) in * by lia. generalize dependent (Z.to_nat (b - a)).
  intros n. induction n as [|n IH]; intros Hn; [rewrite Z.add_0_r; lia|].
  transitivity (off (a + Z.of_nat n)); [apply IH; lia|]. replace (a + Z.of_nat (S n)) with (a + Z.of_nat n + 1) by lia.
  rewrite (cp_off_next _ _ _ _ HC) by lia. pose proof (cp_nonneg _ _ _ _ HC (a + Z.of_nat n) ltac:(lia)). lia.
Qed.

(** Every later code is as long at least: so many are needed to fill the
    rest. *)
Lemma rest_needs k j : 1 <= k → k <= j <= g → high j - high k <= (off (j + 1) - off (k + 1)) * 2 ^ (g - k).
Proof.
  intros Hk Hj. replace j with (k + Z.of_nat (Z.to_nat (j - k))) in * by lia. generalize dependent (Z.to_nat (j - k)).
  intros n. induction n as [|n IH]; intros Hn; [rewrite Z.add_0_r; lia|].
  specialize (IH ltac:(lia)). replace (k + Z.of_nat (S n)) with (k + Z.of_nat n + 1) in * by lia. set (i := k + Z.of_nat n) in *.
  rewrite (cp_off_next _ _ _ _ HC (i + 1)) by lia. pose proof (cp_nonneg _ _ _ _ HC (i + 1) ltac:(lia)).
  assert (high (i + 1) = high i + cn (i + 1) * 2 ^ (g - (i + 1))) as -> by (rewrite <- (low_next i) by lia; unfold low, high; lia).
  assert (2 ^ (g - (i + 1)) <= 2 ^ (g - k)) by (apply Z.pow_le_mono_r; lia). nia.
Qed.

(** A stretch that ends with the codes of [j] bits or before has no longer
    code. *)
Lemma no_longer j k e p : 1 <= j <= g → 1 <= k <= g → e <= high j → p < e → low k <= p → k <= j.
Proof.
  intros Hj Hk He Hp Hl. destruct (Z.le_gt_cases k j) as [|Hgt]; [done|]. exfalso.
  assert (low k = high (k - 1)) as E by (rewrite <- (low_next (k - 1)) by lia; by replace (k - 1 + 1) with k by lia).
  pose proof (high_mono j (k - 1) ltac:(lia) ltac:(lia)). lia.
Qed.

(** *** The size of a table *)

Lemma smaller_table_ok (c : list Z) w z e : 0 <= w → w + z <= g → (∀ k, 1 <= k <= g → aget c k = Some (cn k)) →
  ∀ fuel j f, 1 <= w + j → j < z → z - j < Z.of_nat fuel → e - high (w + j) = f * 2 ^ (g - (w + j)) → 0 < f <= 2 ^ j → 0 <= j →
  ∃ j', smaller_table fuel c (w + j) j z f = Some j' ∧ j < j' <= z ∧ (j' = z ∨ e <= high (w + j')).
Proof.
  intros Hw Hz Hc fuel. induction fuel as [|fuel IH]; intros j f Hwj Hj Hfu Hf Hf1 Hj0; [lia|]. cbn [smaller_table].
  pose proof (cp_g _ _ _ _ HC) as Hg.
  destruct (Z.ltb_spec (j + 1) z) as [Hlt|Hge].
  - assert (2 ^ (j + 1) = 2 * 2 ^ j) as Hp by (rewrite Z.pow_add_r by lia; lia).
    assert (2 ^ (j + 1) <= 2 ^ 15) by (apply Z.pow_le_mono_r; lia).
    rewrite (wrap_small 32) by lia. rewrite (Hc (w + j + 1)) by lia. cbn [mbind option_bind].
    assert (high (w + j + 1) = high (w + j) + cn (w + j + 1) * 2 ^ (g - (w + j + 1))) as Hh
      by (rewrite <- (low_next (w + j)) by lia; unfold low, high; lia).
    assert (2 ^ (g - (w + j)) = 2 * 2 ^ (g - (w + j + 1))) as Hp2
      by (replace (g - (w + j)) with (g - (w + j + 1) + 1) by lia; rewrite Z.pow_add_r by lia; lia).
    pose proof (cp_nonneg _ _ _ _ HC (w + j + 1) ltac:(lia)) as Hcn.
    destruct (Z.leb_spec (2 * f) (cn (w + j + 1))) as [Hle|Hgt].
    + exists (j + 1). split; [done|]. split; [lia|]. right. rewrite Z.add_assoc, Hh. nia.
    + rewrite (wrap_small 32) by lia.
      destruct (IH (j + 1) (2 * f - cn (w + j + 1))) as (j'&E&Hj'&Hr); [lia|lia|lia|rewrite Z.add_assoc; nia|lia|lia|].
      exists j'. rewrite Z.add_assoc in E. split; [exact E|]. split; [lia|done].
  - exists (j + 1). split; [done|]. split; [lia|]. left. lia.
Qed.
End codes.

(** ** The loops *)

Definition cost (j : Z) : Z := (2 ^ j + 1) * 16 + 8.

Lemma cost_mono i j : 0 <= i <= j → 0 < cost i <= cost j.
Proof.
  intros Hij. unfold cost. assert (2 ^ i <= 2 ^ j) by (apply Z.pow_le_mono_r; lia). assert (0 < 2 ^ i) by (apply Z.pow_pos_nonneg; lia). lia.
Qed.

Lemma new_table_ok j (s : ist refenv) : 0 <= j <= 15 → cost j <= re_room (env s) →
  ∃ s', new_table (2 ^ j) s = Ret (zlen (heap s)) s' ∧
    heap s' = heap s ++ [HTable None (replicate (Z.to_nat (2 ^ j)) None)] ∧ re_room (env s') = re_room (env s) - cost j.
Proof.
  intros Hj Hr. unfold cost in *. assert (0 < 2 ^ j <= 2 ^ 15) as Hp by (split; [apply Z.pow_pos_nonneg; lia|apply Z.pow_le_mono_r; lia]).
  unfold new_table, sizeof_huft. rewrite (wrap_small 32), (wrap_small 64) by lia.
  destruct (env_malloc_ok (env s) ((2 ^ j + 1) * 16)) as (p&e&E&Er&_); [lia|cbn; lia|].
  apply (on_env_Ret _ s) in E. rewrite (bind_Ret _ _ _ _ _ E).
  eexists. split; [reflexivity|]. cbn [heap env]. split; [done|]. cbn in Er. lia.
Qed.

Section loops.
Context (n s : Z) (v : list (option Z)) (d e c : list Z) (g l : Z) (cn fc off : Z → Z).
Context (HC : complete g cn fc off) (Hl : 1 <= l <= g).
Context (Hc : ∀ k, 1 <= k <= g → aget c k = Some (cn k)) (Hsmall : g <= l ∨ off (g + 1) < 2 ^ l) (Hn : 0 <= n).

Abbreviation low := (low (g := g) (fc := fc)).
Abbreviation high := (high (g := g) (cn := cn) (fc := fc)).

(** The entry of a symbol. *)
Definition entry_of (vp : Z) : option (Z * hval) :=
  if vp <? s then Some (if vp <? 256 then 16 else 15, VN vp)
  else
    let? ee := aget e (vp - s) in
    let? dd := aget d (vp - s) in
    Some (u8 ee, VN dd).

Context (Hent : ∀ k r, 1 <= k <= g → 0 <= r < cn k → off k + r < n → ∃ vp en, aget v (off k + r) = Some (Some vp) ∧ entry_of vp = Some en ∧ 0 <= en.1 <= 16).

Lemma code_entry_ok k w r : 1 <= k <= g → 0 <= r < cn k → 0 <= off k + r → 0 <= k - w < 256 →
  ∃ e0, code_entry n s v d e k w (Z.min n (off k + r)) = Some (e0, Z.min n (off k + r + 1)) ∧ h_b e0 = k - w ∧
    (off k + r < n → ∃ vp, aget v (off k + r) = Some (Some vp) ∧ entry_of vp = Some (h_e e0, h_v e0) ∧ 0 <= h_e e0 <= 16).
Proof.
  intros Hk Hr. generalize (Hent k r Hk Hr). clear Hk Hr. generalize (off k + r). intros q Hq0 Hq Hkw. unfold code_entry.
  rewrite (wrap_small 8 (k - w)) by lia. destruct (Z.leb_spec n (Z.min n q)) as [Hle|Hgt].
  { eexists. split; [do 2 f_equal; lia|]. split; [done|]. lia. }
  replace (Z.min n q) with q by lia. replace (Z.min n (q + 1)) with (q + 1) by lia.
  destruct Hq0 as (vp&en&Ev&Een&Hen); [lia|]. rewrite Ev. cbn [mbind option_bind]. unfold entry_of in *.
  destruct (vp <? s) eqn:Evs.
  { injection Een as <-. eexists. split; [reflexivity|]. split; [done|]. intros _. exists vp. by rewrite Evs. }
  destruct (aget e (vp - s)) as [ee|] eqn:Ee; [|done]. cbn [mbind option_bind] in *.
  destruct (aget d (vp - s)) as [dd|] eqn:Ed; [|done]. cbn [mbind option_bind] in *. injection Een as <-.
  eexists. split; [reflexivity|]. split; [done|]. intros _. exists vp. by rewrite Evs, Ee, Ed.
Qed.

Definition pre (m : Z) (wd : list bool) : list bool := take (Z.to_nat (l * m)) wd.
Definition mid (m : Z) (wd : list bool) : list bool := take (Z.to_nat l) (drop (Z.to_nat (l * m)) wd).
Definition posn (wd : list bool) : Z := hcode wd * 2 ^ (g - zlen wd).

(** Table [t] of [2 ^ j] entries at level [m], on the way of the word [wd];
    [tabs] are the tables on this way, and nothing from position [pos] on has
    an entry but these tables. *)
Record level (hp : list htable) (tabs : list (Z * Z)) (wd : list bool) (pos m t j : Z) : Prop := {
  lv_t : 0 <= t < zlen hp;
  lv_j : 1 <= j <= l;
  lv_g : l * m + j <= g;
  lv_w : l * m < zlen wd;
  lv_fits : j = l ∨ (hcode (pre m wd) + 1) * 2 ^ (g - l * m) <= high (l * m + j);
  lv_slots : ∀ S, zlen S = j → is_Some (slot hp t (bval S));
  lv_bound : ∀ x, is_Some (slot hp t x) → 0 <= x < 2 ^ j;
  lv_none : ∀ S, zlen S = j → pos <= hcode (pre m wd ++ S) * 2 ^ (g - l * m - j) →
    (m + 1 < zlen tabs → S ≠ mid m wd) → slot hp t (bval S) = Some None;
  lv_next : ∀ t' j', aget tabs (m + 1) = Some (t', j') → j = l ∧ t < t' ∧
    entry_at hp t (bval (mid m wd)) = Some (Huft (16 + j') l (VT t'))
}.

(** The loop at a code of [k] bits, whose word is [wd]. *)
Record active (hp : list htable) (st : hloop) (k : Z) (wd : list bool) (pos : Z) (tabs : list (Z * Z)) : Prop := {
  ac_len : zlen wd = k;
  ac_i : l_i st = bval wd;
  ac_h : l_h st = zlen tabs - 1;
  ac_w : l_w st = l * l_h st;
  ac_zero : k <= l * zlen tabs ∨ drop (Z.to_nat (l * zlen tabs)) wd = replicate (length wd - Z.to_nat (l * zlen tabs)) false;
  ac_top : k <= l * zlen tabs → ∃ t j, aget tabs (zlen tabs - 1) = Some (t, j) ∧ l_q st = Some t ∧ l_z st = 2 ^ j;
  ac_root : match tabs with [] => hp = [] | (t, j) :: _ => t = 0 ∧ j = l end;
  ac_u : zlen (l_u st) = 16 ∧ zlen (l_x st) = 17 ∧ aget (l_x st) 0 = Some 0;
  ac_tabs : ∀ m t j, aget tabs m = Some (t, j) →
    aget (l_u st) m = Some (Some t) ∧ aget (l_x st) m = Some (bval (pre m wd)) ∧ level hp tabs wd pos m t j
}.

(** The codes before code [r] of [k] bits are decoded. *)
Definition decoded (hp : list htable) (k r : Z) : Prop := ∀ k' r' wd,
  1 <= k' <= g → 0 <= r' < cn k' → k' < k ∨ k' = k ∧ r' < r → off k' + r' < n →
  zlen wd = k' → hcode wd = fc k' + r' →
  ∃ vp ent, aget v (off k' + r') = Some (Some vp) ∧ entry_of vp = Some (h_e ent, h_v ent) ∧
    (∀ tl, g <= zlen (wd ++ tl) → look 17 hp 0 l (wd ++ tl) = Some (Some (ent, tl))) ∧
    (g <= l → h_b ent = k' ∧ ∀ tl, g <= zlen (wd ++ tl) → entry_at hp 0 (bval (take (Z.to_nat l) (wd ++ tl))) = Some ent).

Definition linked (hp : list htable) : Prop := ∀ t, 0 <= t < zlen hp →
  link hp t = Some (if t + 1 <? zlen hp then Some (t + 1) else None).

Record common (hp : list htable) (st : hloop) (q : Z) (sst : ist refenv) : Prop := {
  cm_heap : heap sst = hp;
  cm_links : linked hp;
  cm_first : l_first st = if zlen hp =? 0 then None else Some 0;
  cm_last : l_last st = if zlen hp =? 0 then None else Some (zlen hp - 1);
  cm_room : (if zlen hp =? 0 then cost l else 0) + (off (g + 1) - q) * cost (Z.min l (g - l)) <= re_room (env sst)
}.

(** *** The stack of tables *)

Lemma zlen_pre m wd : 0 <= l * m <= zlen wd → zlen (pre m wd) = l * m.
Proof. intros Hm. unfold pre. rewrite zlen_take. lia. Qed.

Lemma pre_next m wd : 0 <= m → pre (m + 1) wd = pre m wd ++ mid m wd.
Proof.
  intros Hm. unfold pre, mid. rewrite take_take_drop. f_equal. nia.
Qed.

Lemma posn_pre w wd : 0 <= w <= zlen wd → zlen wd <= g →
  hcode (take (Z.to_nat w) wd) * 2 ^ (g - w) <= posn wd < (hcode (take (Z.to_nat w) wd) + 1) * 2 ^ (g - w).
Proof.
  intros Hw Hg. assert (∃ a b, wd = a ++ b ∧ zlen a = w ∧ take (Z.to_nat w) wd = a) as (a&b&->&Ha&->).
  { exists (take (Z.to_nat w) wd), (drop (Z.to_nat w) wd). rewrite take_drop, zlen_take. split; [done|]. split; [lia|done]. }
  unfold posn. rewrite zlen_app in *. rewrite hcode_app.
  pose proof (hcode_range b) as Hb. pose proof (zlen_nonneg b).
  subst w. replace (g - zlen a) with (zlen b + (g - (zlen a + zlen b))) by lia. rewrite Z.pow_add_r by lia.
  set (X := 2 ^ zlen b) in *. set (Y := 2 ^ (g - (zlen a + zlen b))). assert (0 < Y) by (apply Z.pow_pos_nonneg; lia). nia.
Qed.

Lemma posn_low k r wd : 1 <= k <= g → 0 <= r → zlen wd = k → hcode wd = fc k + r → low k <= posn wd.
Proof.
  intros Hk Hr Hz E. unfold posn, HuftBuild.low. rewrite Hz, E. assert (0 < 2 ^ (g - k)) by (apply Z.pow_pos_nonneg; lia). nia.
Qed.

(** The way from table [m] of the stack to the top. *)
Lemma stack_look hp st k wd pos tabs : active hp st k wd pos tabs → k <= g →
  ∀ i m f t j t' j' tl, aget tabs m = Some (t, j) → aget tabs (m + Z.of_nat i) = Some (t', j') → g <= zlen (wd ++ tl) →
    look (f + i) hp t j (drop (Z.to_nat (l * m)) (wd ++ tl)) =
    look f hp t' j' (drop (Z.to_nat (l * (m + Z.of_nat i))) (wd ++ tl)).
Proof.
  intros Ha Hk i. induction i as [|i IH]; intros m f t j t' j' tl Em Ei Htl.
  { rewrite Z.add_0_r, Nat.add_0_r in *. congruence. }
  destruct (ac_tabs _ _ _ _ _ _ Ha _ _ _ Em) as (_&_&Hlv). pose proof (aget_range _ _ _ Em) as Hm. pose proof (aget_range _ _ _ Ei) as Hi.
  destruct (proj2 (aget_is_Some tabs (m + 1)) ltac:(lia)) as [[t1 j1] E1].
  destruct (lv_next _ _ _ _ _ _ _ Hlv _ _ E1) as (->&_&Eent).
  destruct (ac_tabs _ _ _ _ _ _ Ha _ _ _ E1) as (_&_&Hlv1).
  pose proof (lv_w _ _ _ _ _ _ _ Hlv1) as Hw1. pose proof (lv_g _ _ _ _ _ _ _ Hlv1) as Hg1. pose proof (lv_j _ _ _ _ _ _ _ Hlv1) as Hj1.
  pose proof (ac_len _ _ _ _ _ _ Ha) as Hlen. pose proof (cp_g _ _ _ _ HC) as Hg15.
  replace (f + S i)%nat with (S (f + i)) by lia. unfold look at 1.
  assert (take (Z.to_nat l) (drop (Z.to_nat (l * m)) (wd ++ tl)) = mid m wd) as ->.
  { unfold mid. rewrite drop_app_le by (unfold zlen in *; nia). apply take_app_le. rewrite length_drop. unfold zlen in *. nia. }
  rewrite Eent. cbn [mbind option_bind walk h_e h_b h_v].
  rewrite (proj2 (Z.ltb_lt 16 (16 + j1))) by lia. rewrite (proj2 (Z.eqb_neq (16 + j1) 99)) by lia.
  rewrite drop_drop. replace (16 + j1 - 16) with j1 by lia.
  replace (Z.to_nat (l * m) + Z.to_nat l)%nat with (Z.to_nat (l * (m + 1))) by nia.
  rewrite decide_True by (rewrite zlen_drop; lia).
  replace (m + Z.of_nat (S i)) with (m + 1 + Z.of_nat i) in * by lia.
  rewrite <- (IH (m + 1) f t1 j1 t' j' tl E1 Ei Htl). reflexivity.
Qed.

(** *** A new table *)

Lemma cn_small k : 1 <= k <= g → 0 <= fc k ∧ 0 <= cn k ∧ fc k + cn k <= 2 ^ k.
Proof.
  intros Hk. pose proof (fc_nonneg HC k Hk). pose proof (cp_nonneg _ _ _ _ HC k Hk).
  pose proof (high_le HC k Hk) as H2. unfold HuftBuild.high in H2. split; [done|]. split; [done|].
  replace g with (k + (g - k)) in H2 at 2 by lia. rewrite Z.pow_add_r in H2 by lia.
  assert (0 < 2 ^ (g - k)) by (apply Z.pow_pos_nonneg; lia). nia.
Qed.

(** What is left beyond a stretch of strings of [w] bits in common. *)
Lemma stretch_needs w k r p : 0 <= w < k → k <= g → 0 <= r < cn k → fc k + r = p * 2 ^ (k - w) → p < 2 ^ w →
  (p + 1) * 2 ^ (g - w) - high k = (2 ^ (k - w) - (cn k - r)) * 2 ^ (g - k) ∧
  (k = g → 2 ^ (k - w) <= cn k - r) ∧ 2 ^ (k - w) <= off (g + 1).
Proof.
  intros Hw Hk Hr Hp Hp2. assert (2 ^ (g - w) = 2 ^ (k - w) * 2 ^ (g - k)) as E1 by (rewrite <- Z.pow_add_r by lia; f_equal; lia).
  assert (2 ^ g = 2 ^ w * 2 ^ (g - w)) as E2 by (rewrite <- Z.pow_add_r by lia; f_equal; lia).
  assert (0 < 2 ^ (g - k)) as H0 by (apply Z.pow_pos_nonneg; lia).
  assert (0 < 2 ^ (k - w)) as H1 by (apply Z.pow_pos_nonneg; lia).
  set (X := 2 ^ (g - k)) in *. set (Y := 2 ^ (k - w)) in *. rewrite E1 in E2 |- *.
  assert ((p + 1) * (Y * X) - high k = (Y - (cn k - r)) * X) as Ed.
  { unfold HuftBuild.high. fold X. replace (fc k) with (p * Y - r) by lia. ring. }
  assert ((p + 1) * (Y * X) <= 2 ^ g) as Ele by nia. split; [done|]. split.
  - intros ->. subst X. rewrite Z.sub_diag in *. pose proof (high_g HC) as Hh. lia.
  - pose proof (rest_needs HC k g ltac:(lia) ltac:(lia)) as Hr2. rewrite (high_g HC) in Hr2. fold X in Hr2.
    pose proof (cp_off_next _ _ _ _ HC k ltac:(lia)) as Ho. pose proof (off_mono HC 1 k ltac:(lia) ltac:(lia)) as Hom.
    rewrite (cp_off _ _ _ _ HC) in Hom. nia.
Qed.

Definition table_size (k a w : Z) : option Z :=
  let z := u32 (g - w) in
  let z := if u32 l <? z then l else z in
  let j := k - w in
  let f := u32 (Z.shiftl 1 j) in
  if u32 (a + 1) <? f then smaller_table 17 c k j z (u32 (f - u32 (a + 1))) else Some j.

Lemma table_size_ok w k r p : 0 <= w < k → k <= g → 0 <= r < cn k → fc k + r = p * 2 ^ (k - w) → 0 <= p < 2 ^ w → (g <= l → w = 0) →
  ∃ j, table_size k (cn k - r - 1) w = Some j ∧ k - w <= j <= Z.min l (g - w) ∧ (j = l ∨ (p + 1) * 2 ^ (g - w) <= high (w + j)).
Proof.
  intros Hw Hk Hr Hp Hp2 Hgl. destruct (stretch_needs w k r p) as (Hd&Hkg&Ho); [done..|lia|].
  pose proof (cn_small k ltac:(lia)) as (Hf0&Hc0&Hcs). pose proof (cp_g _ _ _ _ HC) as Hg.
  assert (2 ^ k <= 2 ^ 15) by (apply Z.pow_le_mono_r; lia). assert (2 ^ (k - w) <= 2 ^ 15) by (apply Z.pow_le_mono_r; lia).
  assert (0 < 2 ^ (k - w)) by (apply Z.pow_pos_nonneg; lia).
  assert (k - w <= l ∧ (k < g → k - w < l)) as [Hkl Hkl2].
  { destruct Hsmall as [Hs|Hs]; [specialize (Hgl Hs); lia|]. assert (k - w < l); [|lia]. apply (Z.pow_lt_mono_r_iff 2); lia. }
  unfold table_size. rewrite Z.shiftl_mul_pow2, Z.mul_1_l by lia.
  rewrite (wrap_small 32 (g - w)), (wrap_small 32 l), (wrap_small 32 (2 ^ _)), (wrap_small 32 (_ + 1)) by lia.
  assert ((if l <? g - w then l else g - w) = Z.min l (g - w)) as -> by (destruct (Z.ltb_spec l (g - w)); lia).
  destruct (Z.ltb_spec (cn k - r - 1 + 1) (2 ^ (k - w))) as [Hlt|Hge].
  - assert (k < g) as Hkg' by (destruct (decide (k = g)) as [E|]; [specialize (Hkg E); lia|lia]).
    rewrite (wrap_small 32) by lia.
    destruct (smaller_table_ok HC c w (Z.min l (g - w)) ((p + 1) * 2 ^ (g - w)) ltac:(lia) ltac:(lia) Hc 17 (k - w) (2 ^ (k - w) - (cn k - r - 1 + 1)))
      as (j&E&Hj&Hfit); [lia|lia|lia| |lia|lia|].
    { replace (w + (k - w)) with k by lia. rewrite Hd. f_equal; lia. }
    replace (w + (k - w)) with k in E by lia. exists j. split; [exact E|]. split; [lia|].
    destruct Hfit as [->|Hfit]; [|by right]. destruct (Z.le_gt_cases l (g - w)); [left; lia|]. right.
    rewrite Z.min_r by lia. replace (w + (g - w)) with g by lia. rewrite (high_g HC).
    replace (2 ^ g) with (2 ^ w * 2 ^ (g - w)) by (rewrite <- Z.pow_add_r by lia; f_equal; lia).
    apply Z.mul_le_mono_nonneg_r; [apply Z.pow_nonneg; lia|lia].
  - exists (k - w). split; [done|]. split; [lia|]. right. replace (w + (k - w)) with k by lia.
    assert (0 < 2 ^ (g - k)) by (apply Z.pow_pos_nonneg; lia). nia.
Qed.

(** *** The memory of a new table *)

Lemma alloc_ok j (sst : ist refenv) : linked (heap sst) → 0 <= j <= 15 → cost j <= re_room (env sst) →
  let hp := heap sst in
  ∃ s1 s2, new_table (2 ^ j) sst = Ret (zlen hp) s1 ∧
    match (if zlen hp =? 0 then None else Some (zlen hp - 1)) with
    | Some t => set_link t (Some (zlen hp)) | None => ret tt end s1 = Ret tt s2 ∧
    zlen (heap s2) = zlen hp + 1 ∧ linked (heap s2) ∧ re_room (env s2) = re_room (env sst) - cost j ∧
    ∀ u x, slot (heap s2) u x =
      if u =? zlen hp then (if (0 <=? x) && (x <? 2 ^ j) then Some None else None) else slot hp u x.
Proof.
  intros HL Hj Hr hp. destruct (new_table_ok j sst Hj Hr) as (s1&E1&Eh&Er). fold hp in E1, Eh, HL.
  assert (zlen (heap s1) = zlen hp + 1) as Hz by (by rewrite Eh, zlen_app).
  assert (0 <= 2 ^ j) as Hp by (apply Z.pow_nonneg; lia). pose proof (zlen_nonneg hp) as H0.
  destruct (Z.eqb_spec (zlen hp) 0) as [E0|Hne].
  - exists s1, s1. split; [done|]. split; [done|]. split; [done|]. split; [|split; [done|intros u x; rewrite Eh; by apply slot_new]].
    intros t Ht. rewrite Hz, E0 in *. rewrite Eh, link_new. rewrite (proj2 (Z.eqb_eq t _)) by lia.
    by rewrite (proj2 (Z.ltb_ge (t + 1) _)) by lia.
  - destruct (set_link_ok (zlen hp - 1) (Some (zlen hp)) s1) as (hp2&E2&Z2&S2&L2); [lia|].
    exists s1, (with_heap hp2 s1). split; [done|]. split; [done|]. cbn [with_heap heap env].
    split; [lia|]. split; [|split; [done|intros u x; rewrite S2, Eh; by apply slot_new]].
    intros t Ht. rewrite L2, Eh, link_new. replace (zlen hp2) with (zlen hp + 1) in * by lia.
    destruct (Z.eqb_spec t (zlen hp - 1)) as [->|].
    { rewrite (proj2 (Z.ltb_lt _ (zlen hp + 1))) by lia. do 2 f_equal. lia. }
    destruct (Z.eqb_spec t (zlen hp)) as [->|]; [by rewrite (proj2 (Z.ltb_ge _ _)) by lia|].
    rewrite HL by lia. by rewrite !(proj2 (Z.ltb_lt _ _)) by lia.
Qed.

(** *** What becomes of a level *)

Lemma tabs_grow hp st k wd pos tabs m t j m' t' j' : active hp st k wd pos tabs →
  aget tabs m = Some (t, j) → aget tabs m' = Some (t', j') → m < m' → t < t'.
Proof.
  intros Ha E E' Hm0. replace m' with (m + Z.of_nat (Z.to_nat (m' - m))) in * by lia.
  generalize dependent (Z.to_nat (m' - m)). intros i. revert t' j'.
  induction i as [|i IH]; intros t' j' E' Hm; [lia|].
  pose proof (aget_range _ _ _ E) as R. pose proof (aget_range _ _ _ E') as R'.
  destruct (proj2 (aget_is_Some tabs (m + Z.of_nat i)) ltac:(lia)) as [[t1 j1] E1].
  destruct (ac_tabs _ _ _ _ _ _ Ha _ _ _ E1) as (_&_&Hlv).
  replace (m + Z.of_nat (S i)) with (m + Z.of_nat i + 1) in E' by lia.
  destruct (lv_next _ _ _ _ _ _ _ Hlv _ _ E') as (_&Hlt&_).
  destruct i as [|i]; [rewrite Z.add_0_r in *; simplify_eq; lia|]. specialize (IH _ _ E1 ltac:(lia)). lia.
Qed.

(** A table nothing has been written to. *)
Lemma level_keep hp hp' tabs tabs' wd pos pos' m t j : level hp tabs wd pos m t j →
  zlen hp <= zlen hp' → (∀ x, slot hp' t x = slot hp t x) → pos <= pos' → 0 <= m → m + 1 < zlen tabs →
  aget tabs' (m + 1) = aget tabs (m + 1) → level hp' tabs' wd pos' m t j.
Proof.
  intros [] Hz Hs Hpos H0 Hm Ht. split; try done.
  - lia.
  - intros S HS. rewrite Hs. auto.
  - intros x. rewrite Hs. auto.
  - intros S HS Hle Hne. rewrite Hs. apply lv_none0; [done|lia|]. intros _. apply Hne.
    destruct (proj2 (aget_is_Some tabs (m + 1)) ltac:(lia)) as [y Ey].
    rewrite Ey in Ht. apply aget_range in Ht. lia.
  - intros t' j' E. rewrite Ht in E. destruct (lv_next0 _ _ E) as (?&?&Ee). split; [done|]. split; [done|].
    apply entry_at_slot. rewrite Hs. by apply entry_at_slot.
Qed.

(** *** A table for the code *)

Lemma zeros_word w wd : 0 <= w <= zlen wd → zlen wd <= g → drop (Z.to_nat w) wd = replicate (length wd - Z.to_nat w) false →
  let a := take (Z.to_nat w) wd in
  hcode wd = hcode a * 2 ^ (zlen wd - w) ∧ bval wd = bval a ∧ posn wd = hcode a * 2 ^ (g - w).
Proof.
  intros Hw Hg Hz a. assert (wd = a ++ replicate (length wd - Z.to_nat w) false) as E
    by (rewrite <- Hz; symmetry; apply take_drop).
  assert (zlen (replicate (length wd - Z.to_nat w) false) = zlen wd - w) as Hzl
    by (unfold zlen in *; rewrite length_replicate; lia).
  assert (hcode wd = hcode a * 2 ^ (zlen wd - w)) as Eh by (rewrite E at 1; by rewrite hcode_app, hcode_zeros, Hzl, Z.add_0_r).
  split; [done|]. split; [rewrite E at 1; rewrite bval_app, bval_zeros; lia|]. unfold posn. rewrite Eh, <- Z.mul_assoc.
  rewrite <- Z.pow_add_r by lia. do 2 f_equal. lia.
Qed.

(** The table on the top has [2 ^ l] entries and nothing at the word, when the
    code does not end in it. *)
Lemma parent_ok hp st k r wd tabs t j : active hp st k wd (posn wd) tabs → 1 <= k <= g → 0 <= r → hcode wd = fc k + r →
  l * zlen tabs < k → aget tabs (zlen tabs - 1) = Some (t, j) →
  j = l ∧ slot hp t (bval (mid (zlen tabs - 1) wd)) = Some None ∧
  Z.shiftr (bval wd) (l * zlen tabs - l) = bval (mid (zlen tabs - 1) wd).
Proof.
  intros Ha Hk Hr Hh Hlk E. pose proof (aget_range _ _ _ E) as Hm. set (m := zlen tabs - 1) in *.
  destruct (ac_tabs _ _ _ _ _ _ Ha _ _ _ E) as (_&_&Hlv). pose proof (ac_len _ _ _ _ _ _ Ha) as Hlen.
  replace (zlen tabs) with (m + 1) in * by lia.
  destruct (ac_zero _ _ _ _ _ _ Ha) as [Hz|Hz]; [exfalso; replace (zlen tabs) with (m + 1) in Hz by lia; lia|].
  replace (zlen tabs) with (m + 1) in Hz by lia.
  destruct (zeros_word (l * (m + 1)) wd ltac:(lia) ltac:(lia) Hz) as (Z1&Z2&Z3).
  pose proof (lv_j _ _ _ _ _ _ _ Hlv) as Hj. pose proof (lv_g _ _ _ _ _ _ _ Hlv) as Hg.
  assert (j = l) as ->.
  { destruct (lv_fits _ _ _ _ _ _ _ Hlv) as [|Hfit]; [done|]. exfalso.
    pose proof (no_longer HC (l * m + j) k _ (posn wd) ltac:(lia) Hk Hfit) as Hno.
    pose proof (posn_pre (l * m) wd ltac:(lia) ltac:(lia)) as Hp. fold (pre m wd) in Hp.
    pose proof (posn_low k r wd Hk Hr Hlen Hh). specialize (Hno ltac:(lia) ltac:(done)). lia. }
  assert (take (Z.to_nat (l * (m + 1))) wd = pre m wd ++ mid m wd) as Et by (by rewrite <- pre_next by lia).
  assert (zlen (mid m wd) = l) as Hzm.
  { unfold mid. rewrite zlen_take, zlen_drop. lia. }
  split; [done|]. split.
  - apply (lv_none _ _ _ _ _ _ _ Hlv); [done| |lia]. rewrite Z3, Et. apply Z.eq_le_incl. do 2 f_equal. lia.
  - rewrite Z2, Et. replace (l * (m + 1) - l) with (l * m) by lia. rewrite bval_drop by lia.
    f_equal. rewrite drop_app_ge by (pose proof (zlen_pre m wd ltac:(lia)); unfold zlen in *; lia).
    replace (Z.to_nat (l * m) - length (pre m wd))%nat with 0%nat by (pose proof (zlen_pre m wd ltac:(lia)); unfold zlen in *; lia). done.
Qed.

(** The slots of the memory with a new table and its parent's entry. *)
Definition grown (hp hp' : list htable) (z : Z) (up : option (Z * Z * huft)) : Prop :=
  zlen hp' = zlen hp + 1 ∧ linked hp' ∧ ∀ u x, slot hp' u x =
    if u =? zlen hp then (if (0 <=? x) && (x <? z) then Some None else None)
    else match up with
         | Some (t, i, e) => if (u =? t) && (x =? i) then Some (Some e) else slot hp u x
         | None => slot hp u x
         end.

Lemma grown_entry hp hp' z up : grown hp hp' z up → match up with Some (t, i, _) => slot hp t i = Some None | None => True end →
  ∀ u i ent, entry_at hp u i = Some ent → entry_at hp' u i = Some ent.
Proof.
  intros (_&_&Hs) Hup u i ent Ee. apply entry_at_slot in Ee. apply entry_at_slot. rewrite Hs.
  destruct (Z.eqb_spec u (zlen hp)) as [->|Hne].
  { unfold slot in Ee. destruct (aget hp (zlen hp)) eqn:E; [apply aget_range in E; lia|done]. }
  destruct up as [[[t x] e0]|]; [|done]. destruct (Z.eqb_spec u t) as [->|]; [|done].
  destruct (Z.eqb_spec i x) as [->|]; [|done]. cbn [andb]. congruence.
Qed.

Definition up_entry (hp : list htable) (tabs : list (Z * Z)) (wd : list bool) (j : Z) : option (Z * Z * huft) :=
  (λ tj, (tj.1, bval (mid (zlen tabs - 1) wd), Huft (16 + j) l (VT (zlen hp)))) <$> aget tabs (zlen tabs - 1).

Lemma active_grown hp hp' st st' k r wd tabs j u x :
  active hp st k wd (posn wd) tabs → 1 <= k <= g → 0 <= r → hcode wd = fc k + r → l * zlen tabs < k →
  k <= l * zlen tabs + j → 1 <= j <= Z.min l (g - l * zlen tabs) →
  (j = l ∨ (hcode (pre (zlen tabs) wd) + 1) * 2 ^ (g - l * zlen tabs) <= high (l * zlen tabs + j)) →
  grown hp hp' (2 ^ j) (up_entry hp tabs wd j) →
  aset (l_u st) (zlen tabs) (Some (zlen hp)) = Some u →
  (if zlen tabs =? 0 then Some (l_x st) else aset (l_x st) (zlen tabs) (l_i st)) = Some x →
  l_h st' = zlen tabs → l_w st' = l * zlen tabs → l_i st' = l_i st → l_q st' = Some (zlen hp) → l_z st' = 2 ^ j →
  l_u st' = u → l_x st' = x → active hp' st' k wd (posn wd) (tabs ++ [(zlen hp, j)]).
Proof.
  intros Ha Hk Hr Hh Hlk Hkj Hj Hfit Hg Eu Ex Sh Sw Si Sq Sz Su Sx. pose proof (ac_len _ _ _ _ _ _ Ha) as Hlen.
  pose proof (zlen_nonneg tabs) as H0. pose proof (zlen_nonneg hp) as Hhp0. set (h := zlen tabs) in *.
  assert (zlen (tabs ++ [(zlen hp, j)]) = h + 1) as Hz by (by rewrite zlen_app).
  destruct (ac_u _ _ _ _ _ _ Ha) as (Hu&Hx&Hx0).
  assert (drop (Z.to_nat (l * h)) wd = replicate (length wd - Z.to_nat (l * h)) false) as Hdrop
    by (destruct (ac_zero _ _ _ _ _ _ Ha) as [Hle|]; [fold h in Hle; lia|done]).
  destruct (zeros_word (l * h) wd ltac:(lia) ltac:(lia) Hdrop) as (_&Eb&_). fold (pre h wd) in Eb.
  assert (h = 0 ∨ zlen tabs - 1 = h - 1 ∧ 0 < h) as Hcase by lia.
  split; try done.
  - by rewrite Si, (ac_i _ _ _ _ _ _ Ha).
  - lia.
  - by rewrite Sw, Sh.
  - rewrite Hz. left. lia.
  - intros _. exists (zlen hp), j. rewrite Hz, Z.add_simpl_r. subst h. by rewrite aget_snoc_last.
  - pose proof (ac_root _ _ _ _ _ _ Ha) as Hroot. destruct tabs as [|[t0 j0] tabs]; [|done]. cbn [app]. subst hp.
    split; [done|]. change (zlen []) with 0 in *. subst h. replace (l * 0) with 0 in * by lia. destruct Hfit as [|Hfit]; [done|].
    change (pre 0 wd) with (take (Z.to_nat (l * 0)) wd) in Hfit. replace (Z.to_nat (l * 0)) with 0%nat in Hfit by lia.
    rewrite take_0, Z.sub_0_r in Hfit. change (hcode []) with 0 in Hfit. rewrite !Z.add_0_l in Hfit.
    assert (j = g) as E; [|lia]. destruct (decide (j = g)) as [|Hne]; [done|]. exfalso.
    pose proof (high_mono HC j (g - 1) ltac:(lia) ltac:(lia)) as Hm. rewrite <- (low_next HC (g - 1)) in Hm by lia.
    unfold HuftBuild.low in Hm. replace (g - 1 + 1) with g in Hm by lia. rewrite Z.sub_diag in Hm.
    pose proof (cp_last _ _ _ _ HC). pose proof (cp_full _ _ _ _ HC). lia.
  - rewrite Su, Sx. split; [rewrite <- Hu; unfold zlen; by erewrite aset_len|].
    destruct (Z.eqb_spec h 0) as [E0|E0]; [by injection Ex as <-|]. split; [rewrite <- Hx; unfold zlen; by erewrite aset_len|].
    rewrite (aget_aset _ _ _ _ _ Ex). by rewrite decide_False.
  - rewrite Su, Sx. intros m t j1 E. destruct (decide (m = h)) as [->|Hne].
    + subst h. rewrite aget_snoc_last in E. injection E as <- <-. split; [by rewrite (aget_aset _ _ _ _ _ Eu), decide_True|]. split.
      { destruct (Z.eqb_spec (zlen tabs) 0) as [E0|E0].
        - injection Ex as <-. rewrite E0 in *. unfold pre. replace (Z.to_nat (l * 0)) with 0%nat by lia. by rewrite take_0.
        - rewrite (aget_aset _ _ _ _ _ Ex), decide_True by done. by rewrite (ac_i _ _ _ _ _ _ Ha), Eb. }
      destruct Hg as (Hgz&_&Hs). assert (∀ y, slot hp' (zlen hp) y = if (0 <=? y) && (y <? 2 ^ j) then Some None else None) as Hsl
        by (intros y; by rewrite Hs, Z.eqb_refl).
      split; try lia; try done.
      * intros S HS. pose proof (bval_range S) as Hb. rewrite Hsl, HS in *. rewrite (proj2 (Z.leb_le _ _)), (proj2 (Z.ltb_lt _ _)) by lia. by eexists.
      * intros y. rewrite Hsl. destruct (Z.leb_spec 0 y), (Z.ltb_spec y (2 ^ j)); cbn [andb]; intros [? [=]]; lia.
      * intros S HS _ _. pose proof (bval_range S) as Hb. rewrite Hsl, HS in *. by rewrite (proj2 (Z.leb_le _ _)), (proj2 (Z.ltb_lt _ _)) by lia.
      * intros t' j' E. apply aget_range in E. lia.
    + pose proof (aget_range _ _ _ E) as Hm. rewrite Hz in Hm. rewrite aget_snoc_old in E by lia.
      destruct (ac_tabs _ _ _ _ _ _ Ha _ _ _ E) as (Tu&Tx&Hlv). split; [by rewrite (aget_aset _ _ _ _ _ Eu), decide_False by lia|].
      split; [destruct (Z.eqb_spec h 0); [lia|]; by rewrite (aget_aset _ _ _ _ _ Ex), decide_False by lia|].
      destruct (proj2 (aget_is_Some tabs (h - 1)) ltac:(lia)) as [[tp jp] Ep].
      destruct (parent_ok hp st k r wd tabs tp jp Ha Hk Hr Hh Hlk Ep) as (->&Hnone&_).
      destruct Hg as (Hgz&_&Hs). unfold up_entry in Hs. fold h in Hs. rewrite Ep in Hs. cbn [fmap option_fmap option_map fst] in Hs.
      pose proof (lv_t _ _ _ _ _ _ _ Hlv) as Ht.
      destruct (decide (m = h - 1)) as [->|Hne2].
      * rewrite Ep in E. injection E as <- <-.
        assert (∀ y, slot hp' tp y = if y =? bval (mid (h - 1) wd) then Some (Some (Huft (16 + j) l (VT (zlen hp)))) else slot hp tp y) as Hsl.
        { intros y. rewrite Hs, (proj2 (Z.eqb_neq tp _)), Z.eqb_refl by lia. done. }
        assert (0 <= l * (h - 1)) by nia.
        assert (zlen (mid (h - 1) wd) = l) as Hzm by (unfold mid; rewrite zlen_take, zlen_drop; lia).
        destruct Hlv. split; try done; try lia.
        -- intros S HS. rewrite Hsl. destruct (Z.eqb_spec (bval S) (bval (mid (h - 1) wd))); [by eexists|auto].
        -- intros y. rewrite Hsl. destruct (Z.eqb_spec y (bval (mid (h - 1) wd))) as [->|]; [|auto].
           intros _. apply lv_bound0. fold h in Hnone. rewrite Hnone. by eexists.
        -- intros S HS Hle Hne3. rewrite Hsl. destruct (Z.eqb_spec (bval S) (bval (mid (h - 1) wd))) as [Eb2|].
           { exfalso. apply Hne3; [rewrite Hz; lia|]. apply bval_inj; [unfold zlen in *; lia|done]. }
           apply lv_none0; [done|done|]. fold h. lia.
        -- intros t' j' E. replace (h - 1 + 1) with h in E by lia. subst h. rewrite aget_snoc_last in E. injection E as <- <-.
           split; [done|]. split; [lia|]. apply entry_at_slot. rewrite Hsl, Z.eqb_refl. done.
      * eapply level_keep; [exact Hlv|lia| |lia|lia|fold h; lia|apply aget_snoc_old; fold h; lia].
        intros y. rewrite Hs, (proj2 (Z.eqb_neq t (zlen hp))) by lia.
        pose proof (tabs_grow _ _ _ _ _ _ _ _ _ _ _ _ Ha E Ep ltac:(lia)). by rewrite (proj2 (Z.eqb_neq t tp)) by lia.
Qed.

Lemma decoded_mono hp hp' k r : (∀ t i ent, entry_at hp t i = Some ent → entry_at hp' t i = Some ent) →
  decoded hp k r → decoded hp' k r.
Proof.
  intros HE HD k' r' wd Hk Hr Hb Hq Hz Hh. destruct (HD k' r' wd Hk Hr Hb Hq Hz Hh) as (vp&ent&Ev&Een&Hlook&Hgl).
  exists vp, ent. split; [done|]. split; [done|]. split.
  - intros tl Htl. eapply look_mono; [exact HE|]. by apply Hlook.
  - intros Hg. destruct (Hgl Hg) as [Hb' Hent']. split; [done|]. intros tl Htl. by apply HE, Hent'.
Qed.

Lemma make_tables_skip k a st sst : ¬ l_w st + l < k → make_tables c g l k a st sst = Ret st sst.
Proof.
  intros Hk. unfold make_tables. apply loop_exit. by rewrite (proj2 (Z.ltb_ge _ _)) by lia.
Qed.

(** One new table. *)
Lemma make_tables_grow k a st (sst : ist refenv) j up tp tu h :
  h = l_h st + 1 → l_w st + l < k → k <= l_w st + l + l → table_size k a (l_w st + l) = Some j → 1 <= j <= l → 
  linked (heap sst) → cost j <= re_room (env sst) → l_last st = (if zlen (heap sst) =? 0 then None else Some (zlen (heap sst) - 1)) →
  zlen (l_u st) = 16 → zlen (l_x st) = 17 → 0 <= h < 16 →
  (up = None ∧ h = 0 ∨ h ≠ 0 ∧ up = Some (tp, tu, Huft (16 + j) l (VT (zlen (heap sst)))) ∧ aget (l_u st) (h - 1) = Some (Some tp) ∧
    is_Some (slot (heap sst) tp tu) ∧ tp < zlen (heap sst) ∧ Z.shiftr (l_i st) (l_w st + l - l) = tu) →
  ∃ sst' u x, make_tables c g l k a st sst = Ret (HLoop h (l_w st + l) (l_i st) (l_p st) (Some (zlen (heap sst))) (2 ^ j) u x
      (match l_first st with None => Some (zlen (heap sst)) | f => f end) (Some (zlen (heap sst)))) sst' ∧
    aset (l_u st) h (Some (zlen (heap sst))) = Some u ∧ (if h =? 0 then Some (l_x st) else aset (l_x st) h (l_i st)) = Some x ∧
    grown (heap sst) (heap sst') (2 ^ j) up ∧ re_room (env sst') = re_room (env sst) - cost j.
Proof.
  intros Eh Hlt Hle Ets Hj HL Hroom Elast Hu Hx Hh Hup. set (hp := heap sst) in *.
  pose proof (cp_g _ _ _ _ HC) as Hg. assert (2 ^ j <= 2 ^ 15) by (apply Z.pow_le_mono_r; lia). assert (0 < 2 ^ j) by (apply Z.pow_pos_nonneg; lia).
  destruct (alloc_ok j sst HL ltac:(lia) Hroom) as (s1&s2&E1&E2&Z2&L2&R2&S2). fold hp in E1, E2, Z2, S2. rewrite <- Elast in E2.
  destruct (aset_in (l_u st) h (Some (zlen hp)) ltac:(lia)) as [u Eu].
  destruct (aset_in (l_x st) h (l_i st) ltac:(lia)) as [x1 Ex1].
  assert (∀ s3 x, (if negb (h =? 0) then
      let! x := lift_opt (aset (l_x st) h (l_i st)) in
      let! up := lift_opt (aget u (h - 1)) in
      set_entry up (Z.shiftr (l_i st) (l_w st + l - l)) (Huft (u8 (16 + j)) (u8 l) (VT (zlen hp))) ;;;
      ret x else ret (l_x st)) s2 = Ret x s3 →
    make_tables c g l k a st sst = Ret (HLoop h (l_w st + l) (l_i st) (l_p st) (Some (zlen hp)) (2 ^ j) u x
      (match l_first st with None => Some (zlen hp) | f => f end) (Some (zlen hp))) s3) as Hmake.
  { intros s3 x E3. unfold make_tables. rewrite (loop_step _ _ _ _ (HLoop h (l_w st + l) (l_i st) (l_p st) (Some (zlen hp)) (2 ^ j) u x
      (match l_first st with None => Some (zlen hp) | f => f end) (Some (zlen hp))) s3).
    - apply loop_exit. cbn [l_w]. by rewrite (proj2 (Z.ltb_ge _ _)) by lia.
    - rewrite (proj2 (Z.ltb_lt _ _)) by lia. unfold table_size in Ets. cbv zeta in Ets |- *. rewrite Ets. cbn [lift_opt]. rewrite bind_ret.
      rewrite Z.shiftl_mul_pow2, Z.mul_1_l, (wrap_small 32 (2 ^ j)) by lia.
      rewrite (bind_Ret _ _ _ _ _ E1), (bind_Ret _ _ _ _ _ E2), <- Eh, Eu. cbn [lift_opt]. rewrite bind_ret, (bind_Ret _ _ _ _ _ E3). done. }
  destruct Hup as [[-> E0]|(E0&->&Eup&Hslot&Htp&Etu)].
  - exists s2, u, (l_x st). rewrite E0 in Hmake |- *. change (0 =? 0) with true in *. cbn [negb] in Hmake. split; [by apply Hmake|].
    rewrite <- E0. split; [done|]. split; [done|]. split; [done|lia].
  - assert (slot (heap s2) tp tu = slot hp tp tu) as Es by (by rewrite S2, (proj2 (Z.eqb_neq tp _)) by lia).
    destruct Hslot as [o Eo]. rewrite Eo in Es.
    destruct (set_entry_upd tp tu (Huft (16 + j) l (VT (zlen hp))) s2 o Es) as (hp3&E3&(Z3&L3&S3)).
    exists (with_heap hp3 s2), u, x1. rewrite (proj2 (Z.eqb_neq h 0)) in Hmake |- * by done. cbn [negb] in Hmake. split.
    + apply Hmake. rewrite Ex1. cbn [lift_opt]. rewrite bind_ret, (aget_aset _ _ _ _ _ Eu), decide_False, Eup by lia. cbn [lift_opt].
      rewrite bind_ret, Etu, (wrap_small 8 (16 + j)), (wrap_small 8 l) by lia. by rewrite (bind_Ret _ _ _ _ _ E3).
    + split; [done|]. split; [done|]. split; [|done]. cbn [with_heap heap]. split; [lia|]. split.
      * intros t Ht. rewrite L3, L2 by lia. by rewrite Z3.
      * intros u0 y. rewrite S3, S2. destruct (Z.eqb_spec u0 (zlen hp)) as [->|].
        { by rewrite (proj2 (Z.eqb_neq _ tp)) by lia. }
        destruct (Z.eqb_spec u0 tp) as [->|]; [|done]. cbn [andb]. destruct (Z.eqb_spec y tu) as [->|]; [|done]. by rewrite Eo.
Qed.

Lemma pre_range m wd k r : 0 <= l * m -> l * m < k → k <= g → zlen wd = k → hcode wd = fc k + r →
  drop (Z.to_nat (l * m)) wd = replicate (length wd - Z.to_nat (l * m)) false →
  fc k + r = hcode (pre m wd) * 2 ^ (k - l * m) ∧ 0 <= hcode (pre m wd) < 2 ^ (l * m).
Proof.
  intros H0 Hm Hk Hlen Hh Hz. destruct (zeros_word (l * m) wd ltac:(lia) ltac:(lia) Hz) as (Z1&_&_).
  unfold pre. rewrite <- Hh, Z1, Hlen. split; [done|].
  pose proof (hcode_range (take (Z.to_nat (l * m)) wd)) as Hr. rewrite zlen_take in Hr.
  replace (Z.max 0 (Z.min (l * m) (zlen wd))) with (l * m) in Hr by lia. exact Hr.
Qed.

Lemma make_tables_ok k r wd tabs q st sst :
  active (heap sst) st k wd (posn wd) tabs → common (heap sst) st q sst → decoded (heap sst) k r →
  1 <= k <= g → 0 <= r < cn k → hcode wd = fc k + r → q < off (g + 1) →
  ∃ st' sst' tabs', make_tables c g l k (cn k - r - 1) st sst = Ret st' sst' ∧
    active (heap sst') st' k wd (posn wd) tabs' ∧ k <= l * zlen tabs' ∧ decoded (heap sst') k r ∧
    common (heap sst') st' (q + 1) sst' ∧ l_p st' = l_p st.
Proof.
  intros Ha Hcm HD Hk Hr Hh Hq. pose proof (ac_w _ _ _ _ _ _ Ha) as Hw. pose proof (ac_h _ _ _ _ _ _ Ha) as Hhh.
  pose proof (ac_len _ _ _ _ _ _ Ha) as Hlen. pose proof (cp_g _ _ _ _ HC) as Hg. pose proof (zlen_nonneg tabs) as H0.
  pose proof (cost_mono (Z.min l (g - l)) l ltac:(lia)) as Hcost. set (hp := heap sst) in *.
  assert (cost (Z.min l (g - l)) <= (off (g + 1) - q) * cost (Z.min l (g - l))) as Hroom1 by nia.
  destruct (Z.le_gt_cases k (l * zlen tabs)) as [Hle|Hgt].
  { exists st, sst, tabs. split; [apply make_tables_skip; lia|]. do 3 (split; [done|]). split; [|done].
    destruct Hcm. split; try done. fold hp. lia. }
  assert (drop (Z.to_nat (l * zlen tabs)) wd = replicate (length wd - Z.to_nat (l * zlen tabs)) false) as Hdrop
    by (destruct (ac_zero _ _ _ _ _ _ Ha) as [Hle|]; [lia|done]).
  destruct (pre_range (zlen tabs) wd k r ltac:(nia) Hgt ltac:(lia) Hlen Hh Hdrop) as [Hp1 Hp2].
  destruct (table_size_ok (l * zlen tabs) k r _ ltac:(nia) ltac:(lia) Hr Hp1 Hp2) as (j&Ej&Hj&Hfit).
  { intros Hgl. assert (zlen tabs = 0) as E0; [|rewrite E0; lia]. destruct (Z.le_gt_cases 1 (zlen tabs)); [nia|lia]. }
  destruct (ac_u _ _ _ _ _ _ Ha) as (Hu&Hx&Hx0). destruct Hcm as [Hm1 Hm2 Hm3 Hm4 Hm5]. fold hp in Hm2, Hm3, Hm4, Hm5.
  assert (zlen tabs < 16) as Htl by nia.
  assert ((zlen hp =? 0) = (zlen tabs =? 0)) as Hzero.
  { pose proof (ac_root _ _ _ _ _ _ Ha) as Hroot. destruct tabs as [|[t0 j0] tabs]; [by rewrite Hroot|].
    destruct (ac_tabs _ _ _ _ _ _ Ha 0 t0 j0 eq_refl) as (_&_&Hlv). pose proof (lv_t _ _ _ _ _ _ _ Hlv).
    rewrite (proj2 (Z.eqb_neq _ _)), (proj2 (Z.eqb_neq _ _)); [done|rewrite zlen_cons; pose proof (zlen_nonneg tabs); lia|lia]. }
  assert (cost j <= re_room (env sst) ∧ (if zlen hp + 1 =? 0 then cost l else 0) + (off (g + 1) - (q + 1)) * cost (Z.min l (g - l)) <= re_room (env sst) - cost j) as [Hroom Hroom'].
  { rewrite (proj2 (Z.eqb_neq (zlen hp + 1) 0)) by (pose proof (zlen_nonneg hp); lia). rewrite Hzero in Hm5.
    destruct (Z.eqb_spec (zlen tabs) 0) as [E0|E0].
    - pose proof (cost_mono j l ltac:(lia)). nia.
    - pose proof (cost_mono j (Z.min l (g - l)) ltac:(nia)). nia. }
  set (parent := aget tabs (zlen tabs - 1)). assert (parent = aget tabs (zlen tabs - 1)) as Epar by done. clearbody parent.
  destruct (make_tables_grow k (cn k - r - 1) st sst j (up_entry hp tabs wd j) (from_option fst 0 parent) (bval (mid (zlen tabs - 1) wd)) (zlen tabs))
    as (sst'&u&x&Em&Eu&Ex&Hgr&Hrm); fold hp; [lia|lia|lia| |lia|done|done| |done|done|lia| |].
  { replace (l_w st + l) with (l * zlen tabs) by lia. done. }
  { done. }
  { unfold up_entry. rewrite <- Epar. destruct (decide (zlen tabs = 0)) as [E0|E0].
    - left. split; [|done]. rewrite Epar, E0. done.
    - right. split; [done|]. destruct (proj2 (aget_is_Some tabs (zlen tabs - 1)) ltac:(lia)) as [[tp jp] Ep]. rewrite Ep in Epar. subst parent.
      destruct (parent_ok hp st k r wd tabs tp jp Ha Hk ltac:(lia) Hh Hgt Ep) as (->&Hnone&Hsh).
      destruct (ac_tabs _ _ _ _ _ _ Ha _ _ _ Ep) as (Tu&_&Hlv). cbn [fmap option_fmap option_map fst from_option].
      split; [done|]. split; [done|]. split; [rewrite Hnone; by eexists|]. split; [apply (lv_t _ _ _ _ _ _ _ Hlv)|].
      rewrite (ac_i _ _ _ _ _ _ Ha), Hw, Hhh. rewrite <- Hsh. f_equal. lia. }
  fold hp in Em, Eu, Ex, Hgr. eexists _, sst', (tabs ++ [(zlen hp, j)]). split; [exact Em|].
  assert (zlen (tabs ++ [(zlen hp, j)]) = zlen tabs + 1) as Hz by (by rewrite zlen_app).
  split.
  { eapply (active_grown hp (heap sst') st _ k r wd tabs j u x Ha); try done; cbn [l_w l_x l_u]; try lia. }
  split; [rewrite Hz; lia|]. split.
  { eapply decoded_mono; [|exact HD]. eapply grown_entry; [exact Hgr|]. unfold up_entry.
    destruct (aget tabs (zlen tabs - 1)) as [[tp jp]|] eqn:Ep; [|done]. cbn [fmap option_fmap option_map fst].
    by destruct (parent_ok hp st k r wd tabs tp jp Ha Hk ltac:(lia) Hh Hgt Ep) as (_&Hnone&_). }
  destruct Hgr as (Zg&Lg&_). pose proof (zlen_nonneg hp). split; [|done]. split; cbn [l_first l_last]; try done.
  - rewrite Hm3, Zg, (proj2 (Z.eqb_neq (zlen hp + 1) 0)) by lia. destruct (Z.eqb_spec (zlen hp) 0) as [->|]; done.
  - rewrite Zg, (proj2 (Z.eqb_neq (zlen hp + 1) 0)) by lia. f_equal. lia.
  - rewrite Zg, Hrm. exact Hroom'.
Qed.

(** *** The entries of the code *)

Lemma fill_mask b S x : x = bval S → zlen b <= zlen S →
  (bval b <=? x) && (x mod 2 ^ zlen b =? bval b mod 2 ^ zlen b) = bool_decide (take (length b) S = b).
Proof.
  intros -> Hz. pose proof (bval_range b) as Hb. rewrite (Z.mod_small (bval b)) by done.
  pose proof (bval_take (zlen b) S (zlen_nonneg b)) as E. replace (2 ^ zlen b - 1) with (Z.ones (zlen b)) in E by (rewrite Z.ones_equiv; lia).
  rewrite Z.land_ones in E by apply zlen_nonneg. rewrite E. replace (Z.to_nat (zlen b)) with (length b) in * by (unfold zlen; lia).
  case_bool_decide as H.
  - rewrite H, Z.eqb_refl, andb_true_r. apply Z.leb_le. rewrite <- H at 1. rewrite <- E. apply Z.mod_le; [apply bval_range|].
    apply Z.pow_pos_nonneg; [lia|apply zlen_nonneg].
  - apply andb_false_iff. right. apply Z.eqb_neq. intros Eb. apply H. apply bval_inj; [|done].
    rewrite length_take. unfold zlen in *. lia.
Qed.

Definition suffix (w : Z) (wd : list bool) : list bool := drop (Z.to_nat w) wd.

(** A stretch that begins with the word is behind the position, before the next. *)
Lemma under_word w wd S : 0 <= w <= zlen wd → take (length (suffix w wd)) S = suffix w wd → w + zlen S <= g → zlen wd <= w + zlen S →
  posn wd <= hcode (take (Z.to_nat w) wd ++ S) * 2 ^ (g - w - zlen S) < posn wd + 2 ^ (g - zlen wd).
Proof.
  intros Hw Hs Hg Hz. set (T := drop (length (suffix w wd)) S). assert (take (Z.to_nat w) wd ++ S = wd ++ T) as ->.
  { rewrite <- (take_drop (length (suffix w wd)) S), Hs. fold T. unfold suffix. by rewrite app_assoc, take_drop. }
  assert (zlen (suffix w wd) = zlen wd - w) as Hsz by (unfold suffix; rewrite zlen_drop; lia).
  assert (zlen T = w + zlen S - zlen wd) as HT by (subst T; unfold zlen in *; rewrite length_drop; lia).
  rewrite hcode_app. pose proof (hcode_range T) as Hr. unfold posn.
  replace (g - zlen wd) with (zlen T + (g - w - zlen S)) by lia. rewrite Z.pow_add_r by (pose proof (zlen_nonneg T); lia).
  set (X := 2 ^ zlen T) in *. set (Y := 2 ^ (g - w - zlen S)). assert (0 < Y) by (apply Z.pow_pos_nonneg; lia). nia.
Qed.

(** [e0] put where the word leads in the table [t] of [2 ^ j] entries. *)
Record filled (hp hp' : list htable) (w : Z) (wd : list bool) (t j : Z) (e0 : huft) : Prop := {
  fl_len : zlen hp' = zlen hp;
  fl_link : ∀ u, link hp' u = link hp u;
  fl_other : ∀ u x, u ≠ t → slot hp' u x = slot hp u x;
  fl_slot : ∀ S, zlen S = j → slot hp' t (bval S) =
    if bool_decide (take (length (suffix w wd)) S = suffix w wd) then Some (Some e0) else slot hp t (bval S);
  fl_none : ∀ S, zlen S = j → take (length (suffix w wd)) S = suffix w wd → slot hp t (bval S) = Some None;
  fl_iff : ∀ x, is_Some (slot hp' t x) ↔ is_Some (slot hp t x)
}.

Lemma fill_ok k r wd tabs st (sst : ist refenv) e0 : active (heap sst) st k wd (posn wd) tabs → k <= l * zlen tabs → 1 <= k <= g →
  0 <= r → hcode wd = fc k + r →
  ∃ hp' t j, fill_entries (S (Z.to_nat (l_z st))) (l_q st) (Z.shiftr (l_i st) (l_w st)) (l_z st) (Z.shiftl 1 (k - l_w st)) e0 sst =
      Ret tt (with_heap hp' sst) ∧ aget tabs (zlen tabs - 1) = Some (t, j) ∧ k - l_w st <= j ∧
    filled (heap sst) hp' (l_w st) wd t j e0.
Proof.
  intros Ha Hkl Hk Hr Hh. pose proof (ac_len _ _ _ _ _ _ Ha) as Hlen. destruct (ac_top _ _ _ _ _ _ Ha Hkl) as (t&j&Et&Eq&Ez).
  destruct (ac_tabs _ _ _ _ _ _ Ha _ _ _ Et) as (_&_&Hlv). pose proof (aget_range _ _ _ Et) as Hm.
  rewrite (ac_w _ _ _ _ _ _ Ha), (ac_h _ _ _ _ _ _ Ha), (ac_i _ _ _ _ _ _ Ha), Eq, Ez. set (m := zlen tabs - 1) in *. set (hp := heap sst) in *.
  pose proof (lv_j _ _ _ _ _ _ _ Hlv) as Hj. pose proof (lv_g _ _ _ _ _ _ _ Hlv) as Hg. pose proof (lv_w _ _ _ _ _ _ _ Hlv) as Hw.
  assert (0 <= l * m) as H0 by nia.
  assert (k <= l * m + j) as Hkj.
  { destruct (lv_fits _ _ _ _ _ _ _ Hlv) as [->|Hfit]; [lia|]. pose proof (posn_pre (l * m) wd ltac:(lia) ltac:(lia)) as Hp. fold (pre m wd) in Hp.
    apply (no_longer HC (l * m + j) k _ (posn wd) ltac:(lia) Hk Hfit ltac:(lia)). apply (posn_low k r); done. }
  set (b := suffix (l * m) wd). assert (zlen b = k - l * m) as Hzb by (subst b; unfold suffix; rewrite zlen_drop; lia).
  assert (Z.shiftr (bval wd) (l * m) = bval b) as -> by (by rewrite bval_drop by lia).
  rewrite Z.shiftl_mul_pow2, Z.mul_1_l by lia. pose proof (bval_range b) as Hb. rewrite Hzb in Hb.
  assert (∀ x, is_Some (slot hp t x) ↔ 0 <= x < 2 ^ j) as Hiff.
  { intros x. split; [apply (lv_bound _ _ _ _ _ _ _ Hlv)|]. intros Hx. pose proof (lv_slots _ _ _ _ _ _ _ Hlv (zbits (Z.to_nat j) x)) as Hs.
    rewrite bval_zbits, Z2Nat.id, Z.mod_small in Hs by lia. apply Hs. unfold zlen. rewrite length_zbits. lia. }
  destruct (fill_entries_upd t (2 ^ j) (2 ^ (k - l * m)) e0 ltac:(apply Z.pow_pos_nonneg; lia) (S (Z.to_nat (2 ^ j))) (bval b) sst) as (hp'&E&(Z1&L1&S1)).
  { lia. }
  { lia. }
  { intros x Hx. by apply Hiff. }
  { intros x Hx%Hiff. lia. }
  fold hp in Z1, L1, S1. exists hp', t, j. split; [exact E|]. split; [done|]. split; [lia|]. split; try done.
  - intros u x Hu. by rewrite S1, (proj2 (Z.eqb_neq u t)).
  - intros S HS. rewrite S1, Z.eqb_refl. cbn [andb]. rewrite <- Hzb, (fill_mask b S _ eq_refl) by lia. fold b. case_bool_decide as Hbd; [|done].
    destruct (lv_slots _ _ _ _ _ _ _ Hlv S HS) as [o ->]. done.
  - intros S HS Htk. apply (lv_none _ _ _ _ _ _ _ Hlv); [done| |lia].
    pose proof (under_word (l * m) wd S ltac:(lia) Htk ltac:(lia) ltac:(lia)) as Hu. fold (pre m wd) in Hu. rewrite HS in Hu. lia.
  - intros x. rewrite S1, Z.eqb_refl. cbn [andb]. destruct (_ && _); [|done]. destruct (slot hp t x); split; intros []; by eexists.
Qed.

Lemma filled_entry hp hp' w wd t j e0 : filled hp hp' w wd t j e0 → 0 <= j → (∀ x, is_Some (slot hp t x) → 0 <= x < 2 ^ j) →
  ∀ u i ent, entry_at hp u i = Some ent → entry_at hp' u i = Some ent.
Proof.
  intros Hf Hj Hb u i ent Ee. apply entry_at_slot in Ee. apply entry_at_slot. destruct (decide (u = t)) as [->|]; [|by rewrite (fl_other _ _ _ _ _ _ _ Hf)].
  pose proof (Hb i ltac:(by eexists)) as Hi. assert (i = bval (zbits (Z.to_nat j) i)) as Ei by (rewrite bval_zbits, Z2Nat.id, Z.mod_small; lia).
  assert (zlen (zbits (Z.to_nat j) i) = j) as Hz by (unfold zlen; rewrite length_zbits; lia). rewrite Ei in Ee |- *.
  rewrite (fl_slot _ _ _ _ _ _ _ Hf) by done. case_bool_decide as Ht; [|done]. rewrite (fl_none _ _ _ _ _ _ _ Hf _ Hz Ht) in Ee. discriminate Ee.
Qed.

Lemma filled_active hp hp' st k wd tabs t j e0 : active hp st k wd (posn wd) tabs → k <= g → k <= l * zlen tabs → k - l_w st <= j →
  aget tabs (zlen tabs - 1) = Some (t, j) → filled hp hp' (l_w st) wd t j e0 → active hp' st k wd (posn wd + 2 ^ (g - k)) tabs.
Proof.
  intros Ha Hk Hkl Hkj Et Hf. pose proof (ac_len _ _ _ _ _ _ Ha) as Hlen. pose proof (aget_range _ _ _ Et) as Hm0.
  pose proof (ac_w _ _ _ _ _ _ Ha) as Hw. rewrite (ac_h _ _ _ _ _ _ Ha) in Hw. pose proof Ha as [? ? ? ? ? ? Hroot ? Htabs]. split; try done.
  - destruct tabs as [|[t0 j0] tabs]; [|done]. change (zlen []) with 0 in *. lia.
  - intros m t1 j1 E. destruct (Htabs _ _ _ E) as (Tu&Tx&Hlv). split; [done|]. split; [done|]. pose proof (aget_range _ _ _ E) as Hm.
    assert (0 < 2 ^ (g - k)) by (apply Z.pow_pos_nonneg; lia). pose proof (fl_len _ _ _ _ _ _ _ Hf) as Hfl.
    destruct (decide (m = zlen tabs - 1)) as [->|Hne].
    + rewrite Et in E. injection E as <- <-. destruct Hlv. split; try done.
      * lia.
      * intros S HS. apply (fl_iff _ _ _ _ _ _ _ Hf). auto.
      * intros x Hx%(fl_iff _ _ _ _ _ _ _ Hf). auto.
      * intros S HS Hle Hnm. rewrite (fl_slot _ _ _ _ _ _ _ Hf) by done. case_bool_decide as Htk; [|apply lv_none0; [done|lia|lia]].
        exfalso. rewrite Hw in Htk. pose proof (under_word (l * (zlen tabs - 1)) wd S ltac:(nia) Htk ltac:(lia) ltac:(lia)) as Hu.
        fold (pre (zlen tabs - 1) wd) in Hu. rewrite HS, Hlen in Hu. lia.
      * intros t' j' E. apply aget_range in E. lia.
    + eapply level_keep; [exact Hlv|lia| |lia|lia|lia|done]. intros x. apply (fl_other _ _ _ _ _ _ _ Hf).
      pose proof (tabs_grow _ _ _ _ _ _ _ _ _ _ _ _ Ha E Et ltac:(lia)). lia.
Qed.

Lemma decoded_next hp hp' st k r wd tabs t j e0 : active hp st k wd (posn wd) tabs → 1 <= k <= g → k <= l * zlen tabs →
  0 <= r → hcode wd = fc k + r → k - l_w st <= j →
  aget tabs (zlen tabs - 1) = Some (t, j) → filled hp hp' (l_w st) wd t j e0 → decoded hp k r → h_b e0 = k - l_w st →
  (off k + r < n → ∃ vp, aget v (off k + r) = Some (Some vp) ∧ entry_of vp = Some (h_e e0, h_v e0) ∧ 0 <= h_e e0 <= 16) →
  decoded hp' k (r + 1).
Proof.
  intros Ha Hk Hkl Hr Hh Hkj Et Hf HD Hb He k' r' wd' Hk' Hr' Hbef Hq Hz' Hh'.
  pose proof (filled_active _ _ _ _ _ _ _ _ _ Ha ltac:(lia) Hkl Hkj Et Hf) as Ha'.
  destruct (ac_tabs _ _ _ _ _ _ Ha _ _ _ Et) as (_&_&Hlv). pose proof (lv_j _ _ _ _ _ _ _ Hlv) as Hj.
  destruct (decide (k' = k ∧ r' = r)) as [[-> ->]|Hne].
  2:{ assert (decoded hp' k r) as HD' by (eapply decoded_mono; [|exact HD]; eapply filled_entry; [exact Hf|lia|apply Hlv]).
      apply (HD' k' r' wd'); try done. lia. }
  pose proof (ac_len _ _ _ _ _ _ Ha) as Hlen. assert (wd' = wd) as -> by (apply hcode_inj; lia). clear Hz' Hh' Hbef.
  destruct (He Hq) as (vp&Ev&Een&Hee). exists vp, e0. split; [done|]. split; [done|].
  pose proof (ac_w _ _ _ _ _ _ Ha) as Hw. rewrite (ac_h _ _ _ _ _ _ Ha) in Hw. pose proof (aget_range _ _ _ Et) as Hm. pose proof (cp_g _ _ _ _ HC) as Hg15.
  set (m := zlen tabs - 1) in *. pose proof (lv_g _ _ _ _ _ _ _ Hlv) as Hg. pose proof (lv_w _ _ _ _ _ _ _ Hlv) as Hlw. assert (0 <= l * m) by nia.
  assert (∀ tl, g <= zlen (wd ++ tl) → entry_at hp' t (bval (take (Z.to_nat j) (drop (Z.to_nat (l * m)) (wd ++ tl)))) = Some e0) as Hent1.
  { intros tl Htl. apply entry_at_slot. rewrite (fl_slot _ _ _ _ _ _ _ Hf) by (rewrite zlen_take, zlen_drop; lia).
    rewrite bool_decide_eq_true_2; [done|]. rewrite Hw. unfold suffix. rewrite take_take, Nat.min_l by (rewrite length_drop; unfold zlen in *; lia).
    rewrite drop_app_le by (unfold zlen in *; lia). apply take_app_length. }
  pose proof (ac_root _ _ _ _ _ _ Ha) as Hroot. destruct tabs as [|[t0 j0] tabs]; [change (zlen []) with 0 in *; lia|]. destruct Hroot as [-> ->].
  split.
  - intros tl Htl. assert (m < 16) as Hm16 by nia.
    pose proof (stack_look _ _ _ _ _ _ Ha' ltac:(lia) (Z.to_nat m) 0 (17 - Z.to_nat m) 0 l t j tl eq_refl) as Hlook.
    rewrite Z.add_0_l, Z2Nat.id in Hlook by lia. specialize (Hlook Et Htl). replace (17 - Z.to_nat m + Z.to_nat m)%nat with 17%nat in Hlook by lia.
    rewrite Z.mul_0_r in Hlook. change (drop (Z.to_nat 0) (wd ++ tl)) with (wd ++ tl) in Hlook. rewrite Hlook. unfold look.
    rewrite Hent1 by done. cbn [mbind option_bind]. replace (17 - Z.to_nat m)%nat with (S (16 - Z.to_nat m)) by lia. cbn [walk].
    rewrite (proj2 (Z.ltb_ge 16 (h_e e0))) by lia. rewrite decide_True by lia. rewrite drop_drop, Hb, Hw.
    replace (Z.to_nat (l * m) + Z.to_nat (k - l * m))%nat with (length wd) by (unfold zlen in *; lia). by rewrite drop_app_length.
  - intros Hgl. assert (m = 0) as Hm0 by nia. rewrite Hm0 in *. rewrite Hb, Hw. split; [lia|]. intros tl Htl. 
    assert (Some (t, j) = Some (0, l)) as E by (rewrite <- Et; reflexivity). injection E as -> ->. rewrite Z.mul_0_r in Hent1. by apply Hent1.
Qed.

(** *** Back to the table the next code begins in *)

Lemma back_up_ok hp st k wd pos tabs wd' : active hp st k wd pos tabs → zlen wd' = k →
  ∀ fuel h, 0 <= h < zlen tabs → h < Z.of_nat fuel →
  ∃ h', back_up fuel l (bval wd') h (l * h) (l_x st) = Some (h', l * h') ∧ 0 <= h' <= h ∧ pre h' wd' = pre h' wd ∧
    (h' < h → pre (h' + 1) wd' ≠ pre (h' + 1) wd).
Proof.
  intros Ha Hz fuel. pose proof (ac_len _ _ _ _ _ _ Ha) as Hlen.
  induction fuel as [|fuel IH]; intros h Hh Hf; [lia|]. cbn [back_up].
  destruct (proj2 (aget_is_Some tabs h) Hh) as [[t j] E]. destruct (ac_tabs _ _ _ _ _ _ Ha _ _ _ E) as (_&Ex&Hlv). rewrite Ex.
  pose proof (lv_w _ _ _ _ _ _ _ Hlv) as Hlw. assert (0 <= l * h) by nia.
  cbn [mbind option_bind]. rewrite Z.shiftl_mul_pow2, Z.mul_1_l, bval_take by lia. fold (pre h wd').
  destruct (Z.eqb_spec (bval (pre h wd')) (bval (pre h wd))) as [Eb|Hne].
  - exists h. split; [done|]. split; [lia|]. split; [|lia]. apply bval_inj; [|done].
    pose proof (zlen_pre h wd ltac:(lia)). pose proof (zlen_pre h wd' ltac:(lia)). unfold zlen in *. lia.
  - assert (h ≠ 0) as H0.
    { intros ->. apply Hne. unfold pre. rewrite Z.mul_0_r. reflexivity. }
    destruct (IH (h - 1) ltac:(lia) ltac:(lia)) as (h'&E'&Hh'&Hp&Hn'). exists h'. replace (l * h - l) with (l * (h - 1)) by lia.
    split; [done|]. split; [lia|]. split; [done|]. intros _. destruct (decide (h' < h - 1)) as [|Hge]; [by apply Hn'|].
    replace (h' + 1) with h by lia. intros Ep. apply Hne. by rewrite Ep.
Qed.

Lemma pre_le m m' wd wd' : 0 <= m <= m' → pre m' wd' = pre m' wd → pre m wd' = pre m wd.
Proof.
  intros Hm E. unfold pre in *. apply (f_equal (take (Z.to_nat (l * m)))) in E.
  by rewrite !take_take, !Nat.min_l in E by nia.
Qed.

Lemma mid_eq m m' wd wd' : 0 <= m < m' → pre m' wd' = pre m' wd → mid m wd' = mid m wd.
Proof.
  intros Hm E. pose proof (pre_le (m + 1) m' wd wd' ltac:(lia) E) as E1. unfold pre, mid in *.
  replace (Z.to_nat (l * (m + 1))) with (Z.to_nat (l * m) + Z.to_nat l)%nat in E1 by nia.
  apply (f_equal (drop (Z.to_nat (l * m)))) in E1. rewrite !skipn_firstn_comm in E1.
  by replace (Z.to_nat (l * m) + Z.to_nat l - Z.to_nat (l * m))%nat with (Z.to_nat l) in E1 by lia.
Qed.

Lemma active_popped hp st st' k wd pos tabs wd' h' :
  active hp st k wd pos tabs → k <= g → k <= l * zlen tabs → zlen wd' = k → pos = posn wd' → posn wd < pos → 0 <= h' < zlen tabs →
  pre h' wd' = pre h' wd → (h' < zlen tabs - 1 → pre (h' + 1) wd' ≠ pre (h' + 1) wd) →
  (∀ w, take w wd' = take w wd ∨ drop w wd' = replicate (length wd - w) false) →
  l_h st' = h' → l_w st' = l * h' → l_i st' = bval wd' → l_q st' = l_q st → l_z st' = l_z st → l_u st' = l_u st → l_x st' = l_x st →
  active hp st' k wd' pos (take (Z.to_nat (h' + 1)) tabs).
Proof.
  intros Ha Hk Hkl Hz Hpos Hlt Hh Hpre Hne Hdich Sh Sw Si Sq Sz Su Sx. pose proof (ac_len _ _ _ _ _ _ Ha) as Hlen.
  assert (zlen (take (Z.to_nat (h' + 1)) tabs) = h' + 1) as Hzt by (rewrite zlen_take; lia).
  assert (h' < zlen tabs - 1 → l * (h' + 1) < k) as Hdeep.
  { intros Hd. destruct (proj2 (aget_is_Some tabs (h' + 1)) ltac:(lia)) as [[t j] E]. destruct (ac_tabs _ _ _ _ _ _ Ha _ _ _ E) as (_&_&Hlv).
    pose proof (lv_w _ _ _ _ _ _ _ Hlv). lia. }
  split; rewrite ?Hzt; try done; try lia.
  - destruct (decide (h' < zlen tabs - 1)) as [Hd|Hd]; [|left; replace (h' + 1) with (zlen tabs) by lia; done]. right.
    destruct (Hdich (Z.to_nat (l * (h' + 1)))) as [Ht|Hdr]; [by destruct (Hne Hd)|]. rewrite Hdr. f_equal. unfold zlen in *. lia.
  - intros Hle. destruct (decide (h' < zlen tabs - 1)) as [Hd|Hd]; [specialize (Hdeep Hd); lia|]. rewrite Sq, Sz.
    replace (h' + 1) with (zlen tabs) by lia. unfold zlen at 1. rewrite Nat2Z.id, firstn_all. by apply (ac_top _ _ _ _ _ _ Ha).
  - pose proof (ac_root _ _ _ _ _ _ Ha) as Hroot. destruct tabs as [|[t j] tabs]; [change (zlen []) with 0 in *; lia|].
    by replace (Z.to_nat (h' + 1)) with (S (Z.to_nat h')) by lia.
  - rewrite Su, Sx. apply (ac_u _ _ _ _ _ _ Ha).
  - rewrite Su, Sx. intros m t j E. pose proof (aget_range _ _ _ E) as Hm. rewrite Hzt in Hm. rewrite aget_take in E by lia.
    destruct (ac_tabs _ _ _ _ _ _ Ha _ _ _ E) as (Tu&Tx&Hlv). split; [done|]. pose proof (pre_le m h' wd wd' ltac:(lia) Hpre) as Epm.
    split; [by rewrite Epm|]. destruct Hlv. split; rewrite ?Epm; try done; try lia.
    + intros S HS Hle Hnm. apply lv_none0; [done|done|]. intros Hd ES. destruct (decide (m = h')) as [->|Hmh].
      * destruct (proj2 (aget_is_Some tabs (h' + 1)) ltac:(lia)) as [[t1 j1] E1]. destruct (lv_next0 _ _ E1) as (->&_&_).
        rewrite ES in Hle. rewrite <- pre_next in Hle by lia. specialize (Hdeep ltac:(lia)).
        pose proof (posn_pre (l * (h' + 1)) wd ltac:(nia) ltac:(lia)) as Hp. fold (pre (h' + 1) wd) in Hp.
        replace (g - l * h' - l) with (g - l * (h' + 1)) in Hle by lia. lia.
      * apply Hnm; [lia|]. rewrite ES. symmetry. apply (mid_eq m h'); [lia|done].
    + intros t' j' E1. pose proof (aget_range _ _ _ E1) as Hm1. rewrite Hzt in Hm1. rewrite aget_take in E1 by lia.
      rewrite (mid_eq m h' wd wd') by (lia || done). by apply lv_next0.
Qed.

(** *** All codes *)

(** The loop before code [r] of [k] bits; behind the last code of all there is
    no word. *)
Definition ready (st : hloop) (sst : ist refenv) (k r : Z) : Prop :=
  common (heap sst) st (off k + r) sst ∧ decoded (heap sst) k r ∧ l_p st = Z.min n (off k + r) ∧
  (0 < off k + r → 0 < zlen (heap sst)) ∧ (fc k + r < 2 ^ k → ∃ wd tabs, hcode wd = fc k + r ∧ active (heap sst) st k wd (posn wd) tabs).

Lemma off_range k r : 1 <= k <= g → 0 <= r < cn k → 0 <= off k + r < off (g + 1).
Proof.
  intros Hk Hr. pose proof (off_mono HC 1 k ltac:(lia) ltac:(lia)) as H1. rewrite (cp_off _ _ _ _ HC) in H1.
  pose proof (off_mono HC (k + 1) (g + 1) ltac:(lia) ltac:(lia)) as H2. rewrite (cp_off_next _ _ _ _ HC) in H2 by lia. lia.
Qed.

(** The end of a turn. *)
Lemma turn_ok k r wd tabs st (sst : ist refenv) p pos : active (heap sst) st k wd pos tabs → pos = posn wd + 2 ^ (g - k) →
  k <= l * zlen tabs → 1 <= k <= g → hcode wd = fc k + r → common (heap sst) st (off k + r + 1) sst → decoded (heap sst) k (r + 1) →
  p = Z.min n (off k + r + 1) →
  ∃ h w, let i := back_increment 17 (l_i st) (Z.shiftl 1 (k - 1)) in
    back_up 17 l i (l_h st) (l_w st) (l_x st) = Some (h, w) ∧
    ready (HLoop h w i p (l_q st) (l_z st) (l_u st) (l_x st) (l_first st) (l_last st)) sst k (r + 1).
Proof.
  intros Ha Hpos Hkl Hk Hh Hcm HD Hp. pose proof (cp_g _ _ _ _ HC) as Hg. pose proof (ac_len _ _ _ _ _ _ Ha) as Hlen.
  rewrite (ac_i _ _ _ _ _ _ Ha). rewrite Z.shiftl_mul_pow2, Z.mul_1_l by lia.
  destruct (back_increment_ok wd 17) as (wd'&Hl'&Eb&Hinc&Hdich); [unfold zlen in *; lia|].
  rewrite Hlen, (proj2 (Z.eqb_neq k 0)) in Eb by lia. cbv zeta. rewrite Eb, (ac_w _ _ _ _ _ _ Ha).
  assert (zlen wd' = k) as Hz' by (unfold zlen in *; lia). assert (0 < zlen tabs) as Htn by (destruct (Z.le_gt_cases 1 (zlen tabs)); [lia|nia]).
  assert (zlen tabs < 17 ∧ 0 < zlen (heap sst)) as [Ht17 Hne0].
  { destruct (proj2 (aget_is_Some tabs (zlen tabs - 1)) ltac:(lia)) as [[t j] E]. destruct (ac_tabs _ _ _ _ _ _ Ha _ _ _ E) as (_&_&Hlv).
    pose proof (lv_w _ _ _ _ _ _ _ Hlv). pose proof (lv_t _ _ _ _ _ _ _ Hlv). nia. }
  destruct (back_up_ok _ _ _ _ _ _ wd' Ha Hz' 17 (l_h st)) as (h&Ebu&Hh'&Hpre&Hne);
    [rewrite (ac_h _ _ _ _ _ _ Ha); lia|rewrite (ac_h _ _ _ _ _ _ Ha); lia|].
  exists h, (l * h). split; [exact Ebu|]. split; [|split; [done|split; [cbn [l_p]; lia|split; [done|]]]].
  - rewrite Z.add_assoc. destruct Hcm. by split.
  - intros Hfit. assert (hcode wd' = hcode wd + 1) as Hh2 by (apply Hinc; rewrite Hlen; lia).
    assert (0 < 2 ^ (g - k)) by (apply Z.pow_pos_nonneg; lia).
    assert (pos = posn wd') as Hpos' by (rewrite Hpos; unfold posn; rewrite Hz', Hlen, Hh2; lia).
    exists wd', (take (Z.to_nat (h + 1)) tabs). split; [lia|]. rewrite <- Hpos'. rewrite (ac_h _ _ _ _ _ _ Ha) in *.
    apply (active_popped _ st _ k wd pos tabs wd' h); try done; lia.
Qed.

Lemma codes_of_length_ok k : 1 <= k <= g → ∀ a r st sst, Z.of_nat a = cn k - r → 0 <= r → ready st sst k r →
  ∃ st' sst', codes_of_length n s v d e c g l k a st sst = Ret st' sst' ∧ ready st' sst' k (cn k).
Proof.
  intros Hk a. induction a as [|a IH]; intros r st sst Ea Hr (Hcm&HD&Hp&Hne&Hact).
  { exists st, sst. split; [done|]. replace (cn k) with r by lia. done. }
  clear Hne. pose proof (cn_small k Hk) as (Hf0&Hc0&Hcs). destruct Hact as (wd&tabs&Hh&Ha); [lia|]. pose proof (off_range k r Hk ltac:(lia)) as Hoff.
  destruct (make_tables_ok k r wd tabs _ st sst Ha Hcm HD Hk ltac:(lia) Hh) as (st1&sst1&tabs1&Em&Ha1&Hkl&HD1&Hcm1&Hp1); [lia|].
  cbn [codes_of_length]. replace (Z.of_nat a) with (cn k - r - 1) by lia. rewrite (bind_Ret _ _ _ _ _ Em).
  destruct (ac_top _ _ _ _ _ _ Ha1 Hkl) as (t&j&Et&_). destruct (ac_tabs _ _ _ _ _ _ Ha1 _ _ _ Et) as (_&_&Hlv).
  pose proof (ac_w _ _ _ _ _ _ Ha1) as Hw. rewrite (ac_h _ _ _ _ _ _ Ha1) in Hw. pose proof (ac_len _ _ _ _ _ _ Ha1) as Hlen.
  pose proof (lv_w _ _ _ _ _ _ _ Hlv) as Hlw. pose proof (cp_g _ _ _ _ HC) as Hg.
  destruct (code_entry_ok k (l_w st1) r Hk ltac:(lia)) as (e0&Ece&Hb&Hv); [lia|lia|]. rewrite Hp1, Hp, Ece. cbn [lift_opt]. rewrite bind_ret.
  destruct (fill_ok k r wd tabs1 st1 sst1 e0 Ha1 Hkl Hk Hr Hh) as (hp'&t'&j'&Ef&Et'&Hkj&Hfl). rewrite (bind_Ret _ _ _ _ _ Ef).
  pose proof (filled_active _ _ _ _ _ _ _ _ _ Ha1 ltac:(lia) Hkl Hkj Et' Hfl) as Ha2.
  destruct (turn_ok k r wd tabs1 st1 (with_heap hp' sst1) (Z.min n (off k + r + 1)) _ Ha2 eq_refl Hkl Hk Hh) as (h&w&Ebu&Hrd); [| |done|].
  { destruct Hcm1, Hfl. split; cbn [with_heap heap env]; rewrite ?fl_len0; try done. intros u Hu. rewrite fl_link0, fl_len0 in *. auto. }
  { cbn [with_heap heap]. eapply decoded_next; done. }
  cbv zeta in Ebu. rewrite Ebu. cbn [lift_opt]. rewrite bind_ret. apply (IH (r + 1)); [lia|lia|exact Hrd].
Qed.

Lemma active_longer hp st k wd tabs : active hp st k wd (posn wd) tabs → 1 <= k < g →
  active hp st (k + 1) (wd ++ [false]) (posn (wd ++ [false])) tabs.
Proof.
  intros Ha Hk. pose proof (ac_len _ _ _ _ _ _ Ha) as Hlen. pose proof (zlen_nonneg tabs) as H0.
  assert (zlen (wd ++ [false]) = k + 1) as Hz by (by rewrite zlen_app, Hlen).
  assert (posn (wd ++ [false]) = posn wd) as ->.
  { unfold posn. rewrite Hz, Hlen, hcode_snoc. replace (g - k) with (g - (k + 1) + 1) by lia. rewrite Z.pow_add_r by lia. cbn [Z.b2z]. lia. }
  destruct Ha. split; try done.
  - by rewrite bval_app, Z.mul_0_r, Z.add_0_r.
  - destruct (Z.le_gt_cases (k + 1) (l * zlen tabs)); [by left|right]. rewrite length_app. cbn [length].
    destruct (decide (k = l * zlen tabs)) as [E|Hne].
    + rewrite drop_app_ge by (unfold zlen in *; lia). replace (Z.to_nat (l * zlen tabs) - length wd)%nat with 0%nat by (unfold zlen in *; lia).
      replace (length wd + 1 - Z.to_nat (l * zlen tabs))%nat with 1%nat by (unfold zlen in *; lia). done.
    + destruct ac_zero0 as [|E]; [lia|]. rewrite drop_app_le by (unfold zlen in *; lia). rewrite E.
      replace (length wd + 1 - Z.to_nat (l * zlen tabs))%nat with (length wd - Z.to_nat (l * zlen tabs) + 1)%nat by (unfold zlen in *; lia).
      by rewrite replicate_add.
  - intros Hle. apply ac_top0. lia.
  - intros m t j E. destruct (ac_tabs0 _ _ _ E) as (Tu&Tx&Hlv). pose proof (aget_range _ _ _ E) as Hm. pose proof (lv_w _ _ _ _ _ _ _ Hlv) as Hw.
    assert (pre m (wd ++ [false]) = pre m wd) as Epm by (unfold pre; apply take_app_le; unfold zlen in *; lia).
    split; [done|]. split; [by rewrite Epm|].
    assert (∀ t' j', aget tabs (m + 1) = Some (t', j') → mid m (wd ++ [false]) = mid m wd) as Hmid.
    { intros t' j' E'. destruct (ac_tabs0 _ _ _ E') as (_&_&Hlv'). pose proof (lv_w _ _ _ _ _ _ _ Hlv'). unfold mid.
      rewrite drop_app_le by (unfold zlen in *; lia). apply take_app_le. rewrite length_drop. unfold zlen in *. nia. }
    destruct Hlv. split; rewrite ?Epm; try done; try lia.
    + intros S HS Hle Hne. apply lv_none0; [done|done|]. intros Hm1. destruct (proj2 (aget_is_Some tabs (m + 1)) ltac:(lia)) as [[t' j'] E'].
      rewrite <- (Hmid _ _ E'). auto.
    + intros t' j' E'. rewrite (Hmid _ _ E'). auto.
Qed.

Lemma next_length k st sst : 1 <= k < g → ready st sst k (cn k) → ready st sst (k + 1) 0.
Proof.
  intros Hk (Hcm&HD&Hp&Hne&Hact). unfold ready. rewrite (cp_off_next _ _ _ _ HC), Z.add_0_r by lia. split; [done|]. split.
  { intros k' r' wd Hk' Hr' Hb. apply HD; [done|done|]. assert (k' < k ∨ k' = k) as [Hlt|Heq] by lia; [by left|right; subst k'; lia]. }
  split; [done|]. split; [done|]. intros Hlt. rewrite (cp_next _ _ _ _ HC) in * by lia.
  rewrite Z.pow_add_r in Hlt by lia. destruct Hact as (wd&tabs&Hh&Ha); [lia|]. exists (wd ++ [false]), tabs.
  split; [rewrite hcode_snoc, Hh; cbn [Z.b2z]; lia|]. by apply active_longer.
Qed.

Lemma all_codes_ok fuel : ∀ k st sst, 1 <= k <= g → g - k + 1 < Z.of_nat fuel → ready st sst k 0 →
  ∃ st' sst', all_codes fuel n s v d e c g l k st sst = Ret st' sst' ∧ ready st' sst' g (cn g).
Proof.
  induction fuel as [|fuel IH]; intros k st sst Hk Hf Hrd; [lia|]. cbn [all_codes].
  rewrite (proj2 (Z.leb_le k g)), (Hc k Hk) by lia. cbn [lift_opt]. rewrite bind_ret.
  pose proof (cp_nonneg _ _ _ _ HC k Hk).
  destruct (codes_of_length_ok k Hk (Z.to_nat (cn k)) 0 st sst ltac:(lia) ltac:(lia) Hrd) as (st1&sst1&E1&Hrd1).
  rewrite (bind_Ret _ _ _ _ _ E1). destruct (decide (k = g)) as [->|Hne].
  - exists st1, sst1. split; [|done]. destruct fuel as [|fuel]; [lia|]. cbn [all_codes]. by rewrite (proj2 (Z.leb_gt _ _)) by lia.
  - apply IH; [lia|lia|]. apply next_length; [lia|done].
Qed.

Lemma ready_first k st (sst : ist refenv) : 1 <= k <= g → (∀ k', 1 <= k' < k → cn k' = 0) →
  heap sst = [] → l_first st = None → l_last st = None → l_h st = -1 → l_w st = - l → l_i st = 0 → l_p st = 0 →
  zlen (l_u st) = 16 → zlen (l_x st) = 17 → aget (l_x st) 0 = Some 0 →
  cost l + off (g + 1) * cost (Z.min l (g - l)) <= re_room (env sst) → ready st sst k 0.
Proof.
  intros Hk H0 Hhp Hf Hla Hh Hw Hi Hp Hu Hx Hx0 Hroom.
  assert (fc k = 0 ∧ off k = 0) as [Hfc Hoff].
  { replace k with (1 + Z.of_nat (Z.to_nat (k - 1))) in * by lia. generalize dependent (Z.to_nat (k - 1)). intros i.
    induction i as [|i IH]; intros Hi1 H1; [by rewrite Z.add_0_r, (cp_first _ _ _ _ HC), (cp_off _ _ _ _ HC)|].
    replace (1 + Z.of_nat (S i)) with (1 + Z.of_nat i + 1) in * by lia.
    destruct IH as [E1 E2]; [lia|intros k' Hk'; apply H1; lia|].
    rewrite (cp_next _ _ _ _ HC), (cp_off_next _ _ _ _ HC), E1, E2, H1 by lia. done. }
  unfold ready. rewrite Hhp, Hfc, Hoff. split.
  { split; try done; [intros t Ht; change (zlen []) with 0 in Ht; lia|].
    change (zlen []) with 0. rewrite Z.add_0_l, Z.sub_0_r. done. }
  split.
  { intros k' r' wd Hk' Hr' Hb. rewrite H0 in Hr' by lia. lia. }
  split; [lia|]. split; [lia|]. intros _. exists (replicate (Z.to_nat k) false), []. split; [by rewrite hcode_zeros|].
  assert (zlen (replicate (Z.to_nat k) false) = k) as Hz by (unfold zlen; rewrite length_replicate; lia).
  split; try done.
  - by rewrite bval_zeros.
  - rewrite Hw, Hh. lia.
  - right. change (zlen []) with 0. rewrite Z.mul_0_r, length_replicate, Nat.sub_0_r. done.
  - intros Hle. change (zlen []) with 0 in Hle. lia.
  - intros m t j E. apply aget_range in E. change (zlen []) with 0 in E. lia.
Qed.
End loops.
