(* ===== verification/HuftSort.v ===== *)
(** * What huft_build computes before its tables

    The counts of the lengths, the shortest and the longest, the check that
    there are codes for all, and the symbols in the order of their codes. *)

From S2P Require Import Prelude CString Vsprintf Bits Huft Inflate Deflate HuftSim Canon HuftBuild.

Open Scope Z_scope.
Open Scope list_scope.

(** ** Counts *)

Lemma count_lengths_ok b : ∀ c, zlen c = 17 → Forall (λ k, 0 <= k <= 16) b →
  ∃ c', count_lengths b c = Some c' ∧ zlen c' = 17 ∧ ∀ k, aget c' k = (λ x, x + bl_count b k) <$> aget c k.
Proof.
  induction b as [|k b IH]; intros c Hz Hb; cbn [count_lengths bl_count].
  { exists c. split; [done|]. split; [done|]. intros k. destruct (aget c k); cbn; [f_equal; lia|done]. }
  apply list.Forall_cons in Hb as [Hk Hb]. destruct (proj2 (aget_is_Some c k) ltac:(lia)) as [x Ex]. rewrite Ex. cbn [mbind option_bind].
  destruct (aset_in c k (x + 1) ltac:(lia)) as [c1 Ec]. rewrite Ec. cbn [mbind option_bind].
  destruct (IH c1) as (c'&E&Hz'&Hc'); [unfold zlen in *; by rewrite (aset_len _ _ _ _ Ec)|done|].
  exists c'. split; [done|]. split; [done|]. intros i. rewrite Hc', (aget_aset _ _ _ _ _ Ec).
  case_decide as Hi; [subst i; rewrite Ex, Z.eqb_refl; cbn; f_equal; lia|].
  rewrite (proj2 (Z.eqb_neq k i)) by done. by rewrite Z.add_0_l.
Qed.

Lemma bl_count_range lens k : 0 <= bl_count lens k <= zlen lens.
Proof.
  induction lens as [|l lens IH]; cbn [bl_count]; [change (zlen []) with 0; lia|]. rewrite zlen_cons. destruct (l =? k); lia.
Qed.

Lemma bl_count_pos lens k : 0 < bl_count lens k ↔ k ∈ lens.
Proof.
  induction lens as [|l lens IH]; cbn [bl_count]; [split; [lia|intros H; inversion H]|]. rewrite elem_of_cons, <- IH.
  pose proof (bl_count_nonneg lens k). destruct (Z.eqb_spec l k); lia.
Qed.

(** The symbol of a given rank. *)
Lemma bl_count_nth lens k : ∀ r, 0 <= r < bl_count lens k →
  ∃ u, aget lens u = Some k ∧ bl_count (take (Z.to_nat u) lens) k = r.
Proof.
  induction lens as [|l lens IH]; intros r Hr; cbn [bl_count] in Hr; [lia|].
  assert (∀ u, 0 <= u → aget (l :: lens) (u + 1) = aget lens u ∧ take (Z.to_nat (u + 1)) (l :: lens) = l :: take (Z.to_nat u) lens) as Hcons.
  { intros u Hu. unfold aget. rewrite !decide_True by lia. by replace (Z.to_nat (u + 1)) with (S (Z.to_nat u)) by lia. }
  destruct (Z.eqb_spec l k) as [->|Hne].
  - destruct (decide (r = 0)) as [->|Hr0]; [by exists 0|]. destruct (IH (r - 1)) as (u&Eu&Ec); [lia|].
    pose proof (aget_range _ _ _ Eu) as Hu. destruct (Hcons u ltac:(lia)) as [H1 H2]. exists (u + 1). rewrite H1, H2. split; [done|].
    cbn [bl_count]. rewrite Z.eqb_refl. lia.
  - destruct (IH r) as (u&Eu&Ec); [lia|]. pose proof (aget_range _ _ _ Eu) as Hu. destruct (Hcons u ltac:(lia)) as [H1 H2].
    exists (u + 1). rewrite H1, H2. split; [done|]. cbn [bl_count]. by rewrite (proj2 (Z.eqb_neq l k)).
Qed.

Lemma bl_count_inj lens k u u' : aget lens u = Some k → aget lens u' = Some k →
  bl_count (take (Z.to_nat u) lens) k = bl_count (take (Z.to_nat u') lens) k → u = u'.
Proof.
  assert (∀ u u', u < u' → aget lens u = Some k → aget lens u' = Some k →
    bl_count (take (Z.to_nat u) lens) k < bl_count (take (Z.to_nat u') lens) k) as Hlt.
  { intros a b Hab Ea Eb. pose proof (aget_range _ _ _ Ea). assert (aget (take (Z.to_nat b) lens) a = Some k) as Ea' by (by rewrite aget_take).
    pose proof (bl_count_before _ _ _ Ea') as H'. by rewrite take_take, Nat.min_l in H' by lia. }
  intros E E' Ec. destruct (Z.lt_total u u') as [H|[H|H]]; [|done|].
  - specialize (Hlt _ _ H E E'). lia.
  - specialize (Hlt _ _ H E' E). lia.
Qed.

(** ** The shortest and the longest *)

Lemma min_length_ok c cnt : (∀ k, 0 <= k <= 16 → aget c k = Some (cnt k)) → ∀ fuel j, 17 - j < Z.of_nat fuel → 1 <= j →
  (∃ k, j <= k <= 16 ∧ cnt k ≠ 0) →
  let r := min_length fuel c j in j <= r <= 16 ∧ cnt r ≠ 0 ∧ ∀ k, j <= k < r → cnt k = 0.
Proof.
  intros Hc fuel. induction fuel as [|fuel IH]; intros j Hf Hj (k0&Hk0&Hn0); [lia|].
  assert (min_length (S fuel) c j = if cnt j =? 0 then min_length fuel c (j + 1) else j) as ->.
  { cbn [min_length]. unfold BMAX. by rewrite (proj2 (Z.leb_le j 16)), Hc by lia. }
  destruct (Z.eqb_spec (cnt j) 0) as [E|Hne]; [|split; [lia|split; [done|intros k Hk; lia]]].
  destruct (IH (j + 1)) as (H1&H2&H3); [lia|lia| |].
  { exists k0. split; [|done]. assert (k0 ≠ j) by congruence. lia. }
  split; [lia|]. split; [done|]. intros k Hk. destruct (decide (k = j)) as [->|]; [done|]. apply H3. lia.
Qed.

Lemma max_length_ok c cnt : (∀ k, 0 <= k <= 16 → aget c k = Some (cnt k)) → ∀ fuel i, i < Z.of_nat fuel → i <= 16 →
  (∃ k, 1 <= k <= i ∧ cnt k ≠ 0) →
  let r := max_length fuel c i in 1 <= r <= i ∧ cnt r ≠ 0 ∧ ∀ k, r < k <= i → cnt k = 0.
Proof.
  intros Hc fuel. induction fuel as [|fuel IH]; intros i Hf Hi (k0&Hk0&Hn0); [lia|].
  assert (max_length (S fuel) c i = if cnt i =? 0 then max_length fuel c (i - 1) else i) as ->.
  { cbn [max_length]. by rewrite (proj2 (Z.eqb_neq i 0)), Hc by lia. }
  destruct (Z.eqb_spec (cnt i) 0) as [E|Hne]; [|split; [lia|split; [done|intros k Hk; lia]]].
  destruct (IH (i - 1)) as (H1&H2&H3); [lia|lia| |].
  { exists k0. split; [|done]. assert (k0 ≠ i) by congruence. lia. }
  split; [lia|]. split; [done|]. intros k Hk. destruct (decide (k = i)) as [->|]; [done|]. apply H3. lia.
Qed.

(** ** Enough codes *)

(** The bit strings used up by the codes of up to [k] bits, in units of
    2^-15. *)
Fixpoint kraft_upto (k : Z) (lens : list Z) : Z :=
  match lens with
  | [] => 0
  | l :: lens => (if (0 <? l) && (l <=? k) then 2 ^ (15 - l) else 0) + kraft_upto k lens
  end.

Lemma kraft_upto_0 lens : kraft_upto 0 lens = 0.
Proof.
  induction lens as [|l lens IH]; [done|]. cbn [kraft_upto]. rewrite IH.
  destruct (Z.ltb_spec 0 l), (Z.leb_spec l 0); cbn [andb]; lia.
Qed.

Lemma kraft_upto_next lens k : 0 <= k → kraft_upto (k + 1) lens = kraft_upto k lens + bl_count lens (k + 1) * 2 ^ (15 - (k + 1)).
Proof.
  intros Hk. induction lens as [|l lens IH]; cbn [kraft_upto bl_count]; [lia|]. rewrite IH, Z.mul_add_distr_r.
  destruct (Z.eqb_spec l (k + 1)) as [->|Hne].
  - rewrite (proj2 (Z.ltb_lt 0 (k + 1))), (proj2 (Z.leb_le _ _)), (proj2 (Z.leb_gt (k + 1) k)) by lia. cbn [andb]. lia.
  - assert ((l <=? k + 1) = (l <=? k)) as -> by (destruct (Z.leb_spec l (k + 1)), (Z.leb_spec l k); done || lia). lia.
Qed.

Lemma kraft_upto_all lens k : Forall (λ l, 0 <= l <= k) lens → kraft_upto k lens = kraft lens.
Proof.
  induction 1 as [|l lens Hl _ IH]; [done|]. cbn [kraft_upto kraft]. rewrite IH, (proj2 (Z.leb_le l k)), andb_true_r by lia.
  destruct (Z.ltb_spec 0 l), (Z.eqb_spec l 0); done || lia.
Qed.

Lemma kraft_upto_le lens k : kraft_upto k lens <= kraft lens.
Proof.
  induction lens as [|l lens IH]; [done|]. cbn [kraft_upto kraft]. assert (0 <= 2 ^ (15 - l)) by (apply Z.pow_nonneg; lia).
  destruct (Z.ltb_spec 0 l), (Z.eqb_spec l 0), (l <=? k); cbn [andb]; lia.
Qed.

Lemma next_code_next lens k : 1 <= k → next_code lens (Z.to_nat (k + 1)) = 2 * (next_code lens (Z.to_nat k) + bl_count lens k).
Proof.
  intros Hk. replace (Z.to_nat (k + 1)) with (S (Z.to_nat k)) by lia. cbn [next_code].
  destruct (Z.to_nat k) as [|i] eqn:E; [lia|]. by replace (Z.of_nat (S i)) with k by lia.
Qed.

Lemma kraft_code lens k : 1 <= k <= 15 → kraft_upto k lens = (next_code lens (Z.to_nat k) + bl_count lens k) * 2 ^ (15 - k).
Proof.
  intros Hk. replace k with (1 + Z.of_nat (Z.to_nat (k - 1))) in * by lia. generalize dependent (Z.to_nat (k - 1)). intros i.
  induction i as [|i IH]; intros Hi.
  - change (1 + Z.of_nat 0) with (0 + 1). rewrite kraft_upto_next, kraft_upto_0 by lia. reflexivity.
  - replace (1 + Z.of_nat (S i)) with (1 + Z.of_nat i + 1) in * by lia. set (k1 := 1 + Z.of_nat i) in *.
    rewrite kraft_upto_next, next_code_next, IH by lia.
    replace (15 - k1) with (15 - (k1 + 1) + 1) by lia. rewrite Z.pow_add_r by lia. lia.
Qed.

Lemma codes_fit lens k : 1 <= k <= 15 → kraft lens <= 2 ^ 15 → next_code lens (Z.to_nat k) + bl_count lens k <= 2 ^ k.
Proof.
  intros Hk Hkr. pose proof (kraft_code lens k Hk). pose proof (kraft_upto_le lens k).
  assert (2 ^ 15 = 2 ^ k * 2 ^ (15 - k)) by (rewrite <- Z.pow_add_r by lia; f_equal; lia).
  assert (0 < 2 ^ (15 - k)) by (apply Z.pow_pos_nonneg; lia). nia.
Qed.

(** [y] bit strings of each length are left behind the shorter codes. *)
Lemma dummy_codes_ok lens c g : kraft lens <= 2 ^ 15 → 1 <= g <= 15 → (∀ k, 0 <= k <= 16 → aget c k = Some (bl_count lens k)) →
  ∀ fuel j, 1 <= j <= g → g - j < Z.of_nat fuel →
  dummy_codes fuel c j g (2 ^ j - next_code lens (Z.to_nat j)) = Some (2 ^ g - (next_code lens (Z.to_nat g) + bl_count lens g)).
Proof.
  intros Hkr Hg Hc fuel. induction fuel as [|fuel IH]; intros j Hj Hf; [lia|]. cbn [dummy_codes].
  destruct (Z.ltb_spec j g) as [Hlt|Hge].
  - rewrite Hc by lia. unfold default, id. pose proof (codes_fit lens j ltac:(lia) Hkr). rewrite (proj2 (Z.ltb_ge _ 0)) by lia.
    replace (2 * _) with (2 ^ (j + 1) - next_code lens (Z.to_nat (j + 1))); [apply IH; lia|].
    rewrite next_code_next, Z.pow_add_r by lia. lia.
  - replace j with g by lia. rewrite Hc by lia. unfold default, id. pose proof (codes_fit lens g ltac:(lia) Hkr).
    rewrite (proj2 (Z.ltb_ge _ 0)) by lia. f_equal. lia.
Qed.

(** ** The symbols in the order of their codes *)

(** The number of codes shorter than [k] bits. *)
Fixpoint bl_offset (lens : list Z) (k : nat) : Z :=
  match k with
  | O => 0
  | S k => bl_offset lens k + match k with O => 0 | _ => bl_count lens (Z.of_nat k) end
  end.

Lemma bl_offset_next lens k : 1 <= k → bl_offset lens (Z.to_nat (k + 1)) = bl_offset lens (Z.to_nat k) + bl_count lens k.
Proof.
  intros Hk. replace (Z.to_nat (k + 1)) with (S (Z.to_nat k)) by lia. cbn [bl_offset].
  destruct (Z.to_nat k) as [|i] eqn:E; [lia|]. by replace (Z.of_nat (S i)) with k by lia.
Qed.

Lemma bl_offset_mono lens a b : (a <= b)%nat → bl_offset lens a <= bl_offset lens b.
Proof.
  induction 1 as [|b _ IH]; [lia|]. cbn [bl_offset]. destruct b; [lia|]. pose proof (bl_count_nonneg lens (Z.of_nat (S b))). lia.
Qed.

Lemma bl_offset_total lens k : bl_offset lens k <= zlen lens.
Proof.
  induction lens as [|l lens IH].
  { change (zlen []) with 0. induction k as [|k IH]; [done|]. cbn [bl_offset bl_count]. destruct k; lia. }
  assert (∀ k, bl_offset (l :: lens) k = bl_offset lens k + if (1 <=? l) && (l <? Z.of_nat k) then 1 else 0) as H.
  { clear IH. intros i. induction i as [|i IH]; [cbn [bl_offset]; destruct (Z.leb_spec 1 l), (Z.ltb_spec l (Z.of_nat 0)); cbn [andb]; lia|].
    cbn [bl_offset]. rewrite IH. destruct i as [|i].
    - destruct (Z.leb_spec 1 l), (Z.ltb_spec l (Z.of_nat 0)), (Z.ltb_spec l (Z.of_nat 1)); cbn [andb]; lia.
    - cbn [bl_count]. destruct (Z.leb_spec 1 l), (Z.ltb_spec l (Z.of_nat (S i))), (Z.ltb_spec l (Z.of_nat (S (S i)))), (Z.eqb_spec l (Z.of_nat (S i)));
        cbn [andb]; lia. }
  rewrite H, zlen_cons. destruct (_ && _); lia.
Qed.

Lemma offsets_ok lens c g : (∀ k, 1 <= k < g → aget c k = Some (bl_count lens k)) → ∀ m p, 1 <= p → p + Z.of_nat m <= g →
  let l := offsets m c p (bl_offset lens (Z.to_nat p)) in
  length l = m ∧ ∀ i, 0 <= i < Z.of_nat m → aget l i = Some (bl_offset lens (Z.to_nat (p + 1 + i))).
Proof.
  intros Hc m. induction m as [|m IH]; intros p Hp Hm; cbn [offsets]; [split; [done|intros i Hi; lia]|].
  cbv zeta. rewrite Hc by lia. unfold default, id. rewrite <- bl_offset_next by done.
  destruct (IH (p + 1) ltac:(lia) ltac:(lia)) as [Hl Hi]. split; [cbn [length]; by rewrite Hl|]. intros i Hi'.
  destruct (decide (i = 0)) as [->|Hne]; [by rewrite Z.add_0_r|].
  specialize (Hi (i - 1) ltac:(lia)). replace (p + 1 + 1 + (i - 1)) with (p + 1 + i) in Hi by lia. rewrite <- Hi.
  unfold aget. rewrite !decide_True by lia. by replace (Z.to_nat i) with (S (Z.to_nat (i - 1))) by lia.
Qed.

(** Every symbol so far is in its place. *)
Definition sorted_to (lens : list Z) (i : Z) (v : list (option Z)) : Prop :=
  ∀ u k, u < i → aget lens u = Some k → 0 < k →
    aget v (bl_offset lens (Z.to_nat k) + bl_count (take (Z.to_nat u) lens) k) = Some (Some u).

Lemma place_inj lens u u' k k' : aget lens u = Some k → aget lens u' = Some k' → 0 < k → 0 < k' →
  bl_offset lens (Z.to_nat k) + bl_count (take (Z.to_nat u) lens) k = bl_offset lens (Z.to_nat k') + bl_count (take (Z.to_nat u') lens) k' →
  u = u'.
Proof.
  assert (∀ u u' k k', aget lens u = Some k → aget lens u' = Some k' → 0 < k < k' →
    bl_offset lens (Z.to_nat k) + bl_count (take (Z.to_nat u) lens) k < bl_offset lens (Z.to_nat k') + bl_count (take (Z.to_nat u') lens) k') as Hlt.
  { intros a b i j Ea Eb Hij. pose proof (bl_count_before _ _ _ Ea). pose proof (bl_count_nonneg (take (Z.to_nat b) lens) j).
    pose proof (bl_offset_next lens i ltac:(lia)). pose proof (bl_offset_mono lens (Z.to_nat (i + 1)) (Z.to_nat j) ltac:(lia)). lia. }
  intros E E' Hk Hk' Heq. destruct (Z.lt_total k k') as [H|[Heqk|H]]; [|subst k|].
  - specialize (Hlt _ _ _ _ E E' ltac:(lia)). lia.
  - apply (bl_count_inj lens k'); [done|done|lia].
  - specialize (Hlt _ _ _ _ E' E ltac:(lia)). lia.
Qed.

Lemma sort_values_ok lens g : Forall (λ k, 0 <= k <= g) lens → g <= 15 → zlen lens <= 288 →
  ∀ b a x v, lens = a ++ b → zlen x = 17 → zlen v = 288 →
  (∀ k, 1 <= k <= g → aget x k = Some (bl_offset lens (Z.to_nat k) + bl_count a k)) → sorted_to lens (zlen a) v →
  ∃ v' x', sort_values b (zlen a) x v = Some (v', x') ∧ zlen x' = 17 ∧ aget x' 0 = aget x 0 ∧ zlen v' = 288 ∧ sorted_to lens (zlen lens) v' ∧
    ∀ i, bl_offset lens (Z.to_nat (g + 1)) <= i → aget v' i = aget v i.
Proof.
  intros Hlens Hg Hn b. induction b as [|k b IH]; intros a x v Eab Hx Hv Hxs Hs; cbn [sort_values].
  { exists v, x. rewrite app_nil_r in Eab. subst a. done. }
  assert (zlen (a ++ [k]) = zlen a + 1) as Hza by (by rewrite zlen_app). assert (lens = (a ++ [k]) ++ b) as Eab' by (by rewrite <- app_assoc).
  assert (aget lens (zlen a) = Some k) as Ek.
  { apply aget_Some. split; [apply zlen_nonneg|]. unfold zlen. rewrite Nat2Z.id, Eab. by apply list_lookup_middle. }
  assert (take (Z.to_nat (zlen a)) lens = a) as Eta by (unfold zlen; rewrite Nat2Z.id, Eab; apply take_app_length).
  assert (0 <= k <= g) as Hk.
  { rewrite List.Forall_forall in Hlens. apply Hlens, list_elem_of_In. apply aget_Some in Ek as [_ Ek]. by eapply list_elem_of_lookup_2. }
  destruct (Z.eqb_spec k 0) as [->|Hk0].
  - destruct (IH (a ++ [0]) x v Eab' Hx Hv) as (v'&x'&E'&R).
    + intros i Hi. rewrite Hxs, bl_count_app by done. cbn [bl_count]. rewrite (proj2 (Z.eqb_neq 0 i)) by lia. f_equal. lia.
    + rewrite Hza. intros u i Hu Ei Hi. assert (u < zlen a ∨ u = zlen a) as [Hul|Hul] by lia; [by apply Hs|subst u]. rewrite Ek in Ei. simplify_eq. lia.
    + rewrite Hza in E'. by exists v', x'.
  - rewrite Hxs by lia. cbn [mbind option_bind]. set (pl := bl_offset lens (Z.to_nat k) + bl_count a k).
    assert (0 <= pl ∧ pl < bl_offset lens (Z.to_nat (k + 1))) as [Hp0 Hp1].
    { pose proof (bl_count_before _ _ _ Ek) as Hb. rewrite Eta in Hb. rewrite bl_offset_next by lia. subst pl.
      pose proof (bl_count_nonneg a k). pose proof (bl_offset_mono lens 0 (Z.to_nat k) ltac:(lia)) as H0. cbn [bl_offset] in H0. lia. }
    pose proof (bl_offset_mono lens (Z.to_nat (k + 1)) (Z.to_nat (g + 1)) ltac:(lia)). pose proof (bl_offset_total lens (Z.to_nat (g + 1))).
    destruct (aset_in v pl (Some (zlen a)) ltac:(lia)) as [v1 Ev1]. rewrite Ev1. cbn [mbind option_bind].
    destruct (aset_in x k (pl + 1) ltac:(lia)) as [x1 Ex1]. rewrite Ex1. cbn [mbind option_bind].
    destruct (IH (a ++ [k]) x1 v1 Eab') as (v'&x'&E'&Hx'&Hx0&Hz'&Hs'&Hr').
    + rewrite <- Hx. unfold zlen. by rewrite (aset_len _ _ _ _ Ex1).
    + rewrite <- Hv. unfold zlen. by rewrite (aset_len _ _ _ _ Ev1).
    + intros i Hi. rewrite (aget_aset _ _ _ _ _ Ex1), bl_count_app. cbn [bl_count]. case_decide as Hi2.
      * subst i. rewrite Z.eqb_refl. subst pl. f_equal. lia.
      * rewrite Hxs, (proj2 (Z.eqb_neq k i)) by lia. f_equal. lia.
    + rewrite Hza. intros u i Hu Ei Hi. rewrite (aget_aset _ _ _ _ _ Ev1). case_decide as Hpl.
      * do 2 f_equal. apply (place_inj lens _ _ k i Ek Ei); [lia|done|]. by rewrite Eta.
      * apply Hs; [|done|done]. assert (u ≠ zlen a); [|lia]. intros ->. rewrite Ek in Ei. injection Ei as <-. by rewrite Eta in Hpl.
    + rewrite Hza in E'. exists v', x'. split; [done|]. split; [done|].
      split; [by rewrite Hx0, (aget_aset _ _ _ _ _ Ex1), decide_False by lia|].
      split; [done|]. split; [done|]. intros i Hi. rewrite Hr' by done.
      rewrite (aget_aset _ _ _ _ _ Ev1), decide_False by lia. done.
Qed.
