(* ===== verification/HuftDecode.v ===== *)
(** * The tables decode the code

    [huft_build], for lengths that make a usable code, returns 0 and tables that
    decode the canonical code of the lengths, with the entry of each symbol the
    lists [d] and [e] give. *)

From S2P Require Import Prelude CString Vsprintf Bits Huft Inflate Deflate HuftSim Canon HuftBuild HuftSort.

Open Scope Z_scope.
Open Scope list_scope.

(** ** Freeing *)

Fixpoint free_walk (fuel : nat) (h : list htable) (t : option Z) : bool :=
  match fuel with
  | O => false
  | S n =>
      match t with
      | None => true
      | Some t => match aget h t with Some tab => free_walk n h (h_link tab) | None => false end
      end
  end.

Lemma linked_free hp : linked hp → ∀ fuel t, 0 <= t < zlen hp → zlen hp - t < Z.of_nat fuel → free_walk fuel hp (Some t) = true.
Proof.
  intros HL fuel. induction fuel as [|fuel IH]; intros t Ht Hf; [lia|]. cbn [free_walk].
  specialize (HL t Ht). unfold link in HL. destruct (aget hp t) as [tab|]; [|done]. cbn in HL. injection HL as ->.
  destruct (Z.ltb_spec (t + 1) (zlen hp)); [apply IH; lia|]. by destruct fuel; [lia|].
Qed.

Lemma free_walk_more fuel h h' t k :
  free_walk fuel h t = true → free_walk (fuel + k) (h ++ h') t = true.
Proof.
  revert t. induction fuel as [|n IH]; intros t E; [done|]. cbn [Nat.add free_walk] in *.
  destruct t as [t|]; [|done]. destruct (aget h t) as [tab|] eqn:Et; [|done].
  assert (aget (h ++ h') t = Some tab) as ->; [|by apply IH].
  apply aget_Some in Et as [Ht Et]. apply aget_Some. split; [done|]. by apply lookup_app_l_Some.
Qed.

Lemma free_walk_shift fuel hp0 h t :
  free_walk fuel h t = true →
  free_walk fuel (hp0 ++ shift_heap (zlen hp0) h) ((λ t, t + zlen hp0) <$> t) = true.
Proof.
  revert t. induction fuel as [|n IH]; intros t E; [done|]. cbn [free_walk] in *.
  destruct t as [t|]; [|done]. cbn [fmap option_fmap option_map].
  destruct (aget h t) as [tab|] eqn:Et; [|done]. pose proof (aget_range _ _ _ Et).
  rewrite aget_app_r by lia. unfold shift_heap. rewrite aget_map, Et. by apply IH.
Qed.

Lemma huft_free_ok {St} `{InflateEnv St} fuel t (s : ist St) :
  free_walk fuel (heap s) t = true → huft_free fuel t s = Ret tt s.
Proof.
  revert t. induction fuel as [|n IH]; intros t E; [done|]. cbn [free_walk huft_free] in *.
  destruct t as [t|]; [|done]. cbn [gets bind]. destruct (aget (heap s) t) as [tab|]; [|done].
  cbn [lift_opt bind ret]. by apply IH.
Qed.

(** ** Lengths with a code for every bit string *)

Lemma canon_zeros lens bs : Forall (λ k, k = 0) lens → canon lens bs = None.
Proof.
  intros HF. destruct (canon lens bs) as [[v rest]|] eqn:E; [|done]. apply canon_Some in E as (k&[_ Ek]%aget_Some&Hk&_).
  rewrite List.Forall_forall in HF. assert (k = 0) by (apply HF, list_elem_of_In; by eapply list_elem_of_lookup_2). lia.
Qed.

Lemma next_code_zero lens k : (∀ i, 1 <= i < k → bl_count lens i = 0) → next_code lens (Z.to_nat k) = 0.
Proof.
  intros H0. assert (∀ i, (i <= Z.to_nat k)%nat → next_code lens i = 0) as H; [|by apply H].
  intros i. induction i as [|i IH]; intros Hi; [done|]. cbn [next_code]. rewrite IH by lia. destruct i; [done|]. rewrite H0 by lia. done.
Qed.

Lemma kraft_bound lens j : 0 <= j <= 15 → Forall (λ k, k = 0 ∨ j <= k <= 15) lens → kraft lens <= zlen lens * 2 ^ (15 - j).
Proof.
  intros Hj. induction 1 as [|k lens Hk _ IH]; [done|]. cbn [kraft]. rewrite zlen_cons.
  assert (0 < 2 ^ (15 - j)) by (apply Z.pow_pos_nonneg; lia).
  destruct (Z.eqb_spec k 0); [lia|]. assert (2 ^ (15 - k) <= 2 ^ (15 - j)) by (apply Z.pow_le_mono_r; lia). lia.
Qed.

(** What [huft_build] finds out about the lengths: the shortest [j], the
    longest [g], and [y] strings of [g] bits left over. *)
Record shape (lens : list Z) (j g y : Z) : Prop := {
  sh_range : 1 <= j <= g;
  sh_g : g <= 15;
  sh_short : ∀ k, 1 <= k < j → bl_count lens k = 0;
  sh_last : 0 < bl_count lens g;
  sh_lens : Forall (λ k, 0 <= k <= g) lens;
  sh_full : next_code lens (Z.to_nat g) + bl_count lens g + y = 2 ^ g;
  sh_left : y = 0 ∨ lens = [1]
}.

Section shape.
Context (lens : list Z) (j g y : Z) (Hsh : shape lens j g y).

Definition sh_cn (k : Z) : Z := bl_count lens k + if k =? g then y else 0.
Definition sh_fc (k : Z) : Z := next_code lens (Z.to_nat k).
Definition sh_off (k : Z) : Z := bl_offset lens (Z.to_nat k) + if g <? k then y else 0.

Lemma shape_y : 0 <= y <= 1.
Proof.
  destruct (sh_left _ _ _ _ Hsh) as [|E]; [lia|]. pose proof (sh_full _ _ _ _ Hsh) as Hf. pose proof (sh_last _ _ _ _ Hsh) as Hl.
  pose proof (sh_range _ _ _ _ Hsh) as Hr. rewrite E in *. cbn [bl_count] in *. destruct (Z.eqb_spec 1 g) as [<-|]; [|lia].
  change (next_code [1] (Z.to_nat 1)) with 0 in Hf. lia.
Qed.

Lemma shape_complete : complete g sh_cn sh_fc sh_off.
Proof.
  pose proof shape_y as Hy. destruct Hsh as [Hr Hg Hs Hl HF Hf _]. unfold sh_cn, sh_fc, sh_off. split.
  - lia.
  - intros k Hk. pose proof (bl_count_nonneg lens k). destruct (k =? g); lia.
  - rewrite Z.eqb_refl. lia.
  - reflexivity.
  - intros k Hk. rewrite next_code_next, (proj2 (Z.eqb_neq k g)) by lia. lia.
  - rewrite Z.eqb_refl. lia.
  - rewrite (proj2 (Z.ltb_ge g 1)) by lia. reflexivity.
  - intros k Hk. rewrite bl_offset_next by lia. rewrite (proj2 (Z.ltb_ge g k)) by lia.
    destruct (Z.ltb_spec g (k + 1)), (Z.eqb_spec k g); lia.
Qed.

Lemma shape_total : sh_off (g + 1) <= zlen lens + 1.
Proof.
  unfold sh_off. pose proof (bl_offset_total lens (Z.to_nat (g + 1))). pose proof shape_y. destruct (g <? g + 1); lia.
Qed.

(** A code of [j] bits at least each: more codes than [2 ^ j]. *)
Lemma shape_short m : 1 <= m → zlen lens < 2 ^ m → j <= m.
Proof.
  intros Hm Hz. destruct (sh_left _ _ _ _ Hsh) as [Hy|E].
  - destruct (Z.le_gt_cases j m) as [|Hgt]; [done|]. exfalso. destruct Hsh as [Hr Hg Hs Hl HF Hf _]. subst y.
    pose proof (kraft_code lens g ltac:(lia)) as Hk. rewrite kraft_upto_all in Hk by done.
    assert (2 ^ g * 2 ^ (15 - g) = 2 ^ 15) as Hp by (rewrite <- Z.pow_add_r by lia; f_equal; lia).
    pose proof (kraft_bound lens j ltac:(lia)) as Hb.
    assert (Forall (λ k, k = 0 ∨ j <= k <= 15) lens) as HF'.
    { apply List.Forall_forall. intros k Hin. rewrite List.Forall_forall in HF. specialize (HF k Hin).
      destruct (decide (k = 0)); [by left|]. right. split; [|lia]. destruct (Z.le_gt_cases j k) as [|Hkj]; [done|].
      specialize (Hs k ltac:(lia)). assert (0 < bl_count lens k) by (by apply bl_count_pos, list_elem_of_In). lia. }
    specialize (Hb HF'). assert (2 ^ m * 2 ^ (15 - j) < 2 ^ j * 2 ^ (15 - j)).
    { apply Z.mul_lt_mono_pos_r; [apply Z.pow_pos_nonneg; lia|apply Z.pow_lt_mono_r; lia]. }
    assert (2 ^ j * 2 ^ (15 - j) = 2 ^ 15) by (rewrite <- Z.pow_add_r by lia; f_equal; lia).
    assert (0 < 2 ^ (15 - j)) by (apply Z.pow_pos_nonneg; lia). nia.
  - pose proof (sh_last _ _ _ _ Hsh) as Hl. pose proof (sh_range _ _ _ _ Hsh). rewrite E in Hl. cbn [bl_count] in Hl.
    destruct (Z.eqb_spec 1 g); lia.
Qed.
End shape.

(** ** huft_build *)

Lemma bl_count_zeros lens : Forall (λ k, 0 <= k) lens → bl_count lens 0 = zlen lens ↔ Forall (λ k, k = 0) lens.
Proof.
  induction 1 as [|k lens Hk _ IH]; [by split|]. cbn [bl_count]. rewrite zlen_cons. pose proof (bl_count_range lens 0).
  destruct (Z.eqb_spec k 0) as [->|Hne].
  - split; [intros E; constructor; [done|apply IH; lia]|]. intros HF. apply list.Forall_cons in HF as [_ HF]. apply IH in HF. lia.
  - split; [lia|]. intros HF. by apply list.Forall_cons in HF as [? _].
Qed.

Lemma kraft_zeros lens : Forall (λ k, k = 0) lens → kraft lens = 0.
Proof. induction 1 as [|k lens -> _ IH]; [done|]. cbn [kraft]. by rewrite IH. Qed.

(** The counts and what is computed from them. *)
Lemma shape_ok lens : Forall (λ k, 0 <= k <= 15) lens → usable lens = true → ¬ Forall (λ k, k = 0) lens →
  ∃ c y, count_lengths lens (replicate 17 0) = Some c ∧ zlen c = 17 ∧ (∀ k, 0 <= k <= 16 → aget c k = Some (bl_count lens k)) ∧
    let j := min_length 17 c 1 in let g := max_length 17 c BMAX in
    shape lens j g y ∧ dummy_codes 17 c j g (Z.shiftl 1 j) = Some y.
Proof.
  intros Hlens Hus Hnz.
  assert (∀ k, k ∈ lens → 0 <= k <= 15) as Hin.
  { intros k Hk. rewrite List.Forall_forall in Hlens. by apply Hlens, list_elem_of_In. }
  destruct (count_lengths_ok lens (replicate 17 0)) as (c&Ec&Hz&Hc0); [done| |].
  { apply List.Forall_forall. intros k Hk%list_elem_of_In%Hin. lia. }
  assert (∀ k, 0 <= k <= 16 → aget c k = Some (bl_count lens k)) as Hc.
  { intros k Hk. rewrite Hc0. assert (aget (replicate 17 0) k = Some 0) as ->; [|done].
    apply aget_Some. split; [lia|]. apply lookup_replicate_2. lia. }
  exists c. assert (∃ k, 1 <= k <= 15 ∧ bl_count lens k ≠ 0) as (k0&Hk0&Hn0).
  { destruct (decide (Exists (λ k, k ≠ 0) lens)) as [HE|HE].
    - apply list.Exists_exists in HE as (k&Hk&Hk0). exists k. pose proof (Hin k Hk). split; [lia|]. apply bl_count_pos in Hk. lia.
    - destruct Hnz. apply List.Forall_forall. intros k Hk%list_elem_of_In. destruct (decide (k = 0)); [done|]. destruct HE.
      apply list.Exists_exists. by exists k. }
  destruct (min_length_ok c (bl_count lens) Hc 17 1) as (J1&J2&J3); [lia|lia|exists k0; split; [lia|done]|].
  destruct (max_length_ok c (bl_count lens) Hc 17 BMAX) as (G1&G2&G3); [unfold BMAX; lia|unfold BMAX; lia|exists k0; split; [unfold BMAX; lia|done]|].
  unfold BMAX in *. set (j := min_length 17 c 1) in *. set (g := max_length 17 c 16) in *. clearbody j g.
  assert (∀ k, bl_count lens k ≠ 0 → k ∈ lens) as Hmem by (intros k Hk; apply bl_count_pos; pose proof (bl_count_nonneg lens k); lia).
  pose proof (Hin j (Hmem j J2)) as Hj. pose proof (Hin g (Hmem g G2)) as Hg.
  assert (j <= g) as Hjg. { destruct (Z.le_gt_cases j g) as [|Hgt]; [done|]. specialize (G3 j ltac:(lia)). lia. }
  assert (Forall (λ k, 0 <= k <= g) lens) as HF.
  { apply List.Forall_forall. intros k Hk%list_elem_of_In. pose proof (Hin k Hk). split; [lia|]. destruct (Z.le_gt_cases k g) as [|Hgt]; [done|].
    specialize (G3 k ltac:(lia)). apply bl_count_pos in Hk. lia. }
  pose proof (kraft_code lens g ltac:(lia)) as Hkr. rewrite kraft_upto_all in Hkr by done.
  assert (2 ^ g * 2 ^ (15 - g) = 2 ^ 15) as Hp by (rewrite <- Z.pow_add_r by lia; f_equal; lia).
  assert (0 < 2 ^ (15 - g)) as Hp0 by (apply Z.pow_pos_nonneg; lia).
  assert (kraft lens <= 2 ^ 15 ∧ (kraft lens = 2 ^ 15 ∨ lens = [1])) as [Hle Hcase].
  { unfold usable in Hus. apply orb_true_iff in Hus as [[Hus%Z.eqb_eq|Hus]%orb_true_iff|Hus%bool_decide_eq_true]; [split; [lia|by left]| |].
    - destruct Hnz. apply List.Forall_forall. intros k Hk. rewrite forallb_forall in Hus. by apply Z.eqb_eq, Hus.
    - subst lens. split; [done|by right]. }
  exists (2 ^ g - (next_code lens (Z.to_nat g) + bl_count lens g)). split; [done|]. split; [done|]. split; [done|]. split.
  - pose proof (bl_count_nonneg lens g). split; try done; try lia. destruct Hcase as [Hk|]; [left; nia|by right].
  - rewrite Z.shiftl_mul_pow2, Z.mul_1_l by lia. rewrite <- (dummy_codes_ok lens c g Hle ltac:(lia) Hc 17 j) by lia.
    f_equal. rewrite next_code_zero; [lia|]. intros i Hi. apply J3. lia.
Qed.

Definition tree_room (m n : Z) : Z := cost m + (n + 1) * cost (Z.min m (15 - m)).

(** The bits of the first table. *)
Definition first_bits (m j g : Z) : Z :=
  let l := if m <? j then j else m in if g <? l then g else l.

(** One table decodes the code: the reader of code lengths looks at no other. *)
Definition flat (hp : list htable) (t : option Z) (l ahead : Z) (code : list bool → option (Z * list bool))
    (valid : Z → bool) (entry : Z → Z * hval) : Prop :=
  ∀ bs v rest, ahead <= zlen bs → code bs = Some (v, rest) → valid v = true →
    ∃ t' ent, t = Some t' ∧ entry_at hp t' (bval (take (Z.to_nat l) bs)) = Some ent ∧
      (h_e ent, h_v ent) = entry v ∧ 0 <= h_b ent <= l ∧ rest = drop (Z.to_nat (h_b ent)) bs.

Section build.
Context (n s m : Z) (d e lens : list Z) (entry : Z → Z * hval) (valid : Z → bool).
Context (Hn : n = zlen lens) (H288 : n <= 288) (Hm : 1 <= m <= 9) (Hnm : n < 2 ^ m) (Hlens : Forall (λ k, 0 <= k <= 15) lens).
Context (Hentry : ∀ u, 0 <= u < n → ∃ en, entry_of s d e u = Some en ∧ 0 <= en.1 <= 16 ∧ (valid u = true → en = entry u)).

(** What is left to do when the lengths have been counted. *)
Lemma build_ok j g y c v x room : shape lens j g y → zlen c = 17 → (∀ k, 1 <= k <= g → aget c k = Some (sh_cn lens g y k)) →
  sorted_to lens (zlen lens) v → zlen x = 17 → aget x 0 = Some 0 → tree_room m n <= room →
  let l := first_bits m j g in
  ∃ st sst, all_codes 18 n s v d e c g l j (HLoop (-1) (- l) 0 0 None 0 (replicate 16 None) x None None) (ghost room) = Ret st sst ∧
    0 <= re_room (env sst) ∧ linked (heap sst) ∧ 0 < zlen (heap sst) ∧ l_first st = Some 0 ∧ 1 <= l <= m ∧ (g <= m → g <= l) ∧
    decoded n s v d e g l (sh_cn lens g y) (sh_fc lens) (sh_off lens g y) (heap sst) g (sh_cn lens g y g).
Proof.
  intros Hsh Hc17 Hc Hv Hx Hx0 Hroom l. pose proof (shape_complete _ _ _ _ Hsh) as HC. pose proof (shape_y _ _ _ _ Hsh) as Hy.
  pose proof (shape_short _ _ _ _ Hsh m ltac:(lia) ltac:(lia)) as Hjm. pose proof (sh_range _ _ _ _ Hsh) as Hr. pose proof (sh_g _ _ _ _ Hsh) as Hg.
  assert (l = Z.min m g) as El.
  { unfold l, first_bits. destruct (Z.ltb_spec m j); [lia|]. destruct (Z.ltb_spec g m); lia. }
  clearbody l. assert (lens = [1] → g = 1 ∧ n = 1) as Hone.
  { intros E. pose proof (sh_last _ _ _ _ Hsh) as Hl. rewrite Hn, E in *. cbn [bl_count] in Hl. destruct (Z.eqb_spec 1 g); [by subst g|lia]. }
  assert (g <= l ∨ sh_off lens g y (g + 1) < 2 ^ l) as Hsmall.
  { destruct (Z.le_gt_cases g m) as [|Hgm]; [left; lia|]. right. destruct (sh_left _ _ _ _ Hsh) as [Hy0|E]; [|apply Hone in E; lia].
    unfold sh_off. pose proof (bl_offset_total lens (Z.to_nat (g + 1))). replace l with m by lia. destruct (g <? g + 1); lia. }
  assert (∀ k r, 1 <= k <= g → 0 <= r < sh_cn lens g y k → sh_off lens g y k + r < n →
    ∃ vp en, aget v (sh_off lens g y k + r) = Some (Some vp) ∧ entry_of s d e vp = Some en ∧ 0 <= en.1 <= 16) as Hent.
  { intros k r Hk Hr2 Hoff. assert (r < bl_count lens k) as Hrb.
    { destruct (sh_left _ _ _ _ Hsh) as [Hy0|E]; [unfold sh_cn in Hr2; destruct (k =? g); lia|]. destruct (Hone E) as [Hg1 Hn1].
      assert (k = 1) as -> by lia. unfold sh_off in Hoff. change (bl_offset lens (Z.to_nat 1)) with 0 in Hoff.
      rewrite (proj2 (Z.ltb_ge g 1)) in Hoff by lia. pose proof (sh_last _ _ _ _ Hsh). rewrite Hg1 in *. lia. }
    destruct (bl_count_nth lens k r ltac:(lia)) as (u&Eu&Er). pose proof (aget_range _ _ _ Eu) as Hu.
    destruct (Hentry u ltac:(lia)) as (en&Een&Hen&_). exists u, en. split; [|done].
    unfold sh_off. rewrite (proj2 (Z.ltb_ge g k)), Z.add_0_r, <- Er by lia. by apply Hv; [lia|done|lia]. }
  assert (cost l + sh_off lens g y (g + 1) * cost (Z.min l (g - l)) <= room) as Hroom'.
  { etransitivity; [|exact Hroom]. unfold tree_room. pose proof (shape_total _ _ _ _ Hsh) as Ht. rewrite <- Hn in Ht.
        pose proof (cost_mono l m ltac:(lia)). pose proof (cost_mono (Z.min l (g - l)) (Z.min m (15 - m)) ltac:(lia)).
    assert (0 <= sh_off lens g y (g + 1)). { unfold sh_off. pose proof (bl_offset_mono lens 0 (Z.to_nat (g + 1)) ltac:(lia)) as Hb0. cbn [bl_offset] in Hb0. destruct (_ <? _); lia. }
    apply Z.add_le_mono; [lia|]. apply Z.mul_le_mono_nonneg; lia. }
  set (st0 := HLoop (-1) (- l) 0 0 None 0 (replicate 16 None) x None None).
  pose proof (ready_first n s v d e g l _ _ _ HC ltac:(lia) ltac:(pose proof (zlen_nonneg lens); lia) j st0 (ghost room) Hr) as Hrd.
  destruct (all_codes_ok n s v d e c g l _ _ _ HC ltac:(lia) Hc Hsmall Hent 18 j st0 (ghost room) Hr ltac:(lia)) as (st&sst&E&Hcm&HD&_&Hne&_).
  { apply Hrd; try done. intros k Hk. unfold sh_cn. rewrite (sh_short _ _ _ _ Hsh), (proj2 (Z.eqb_neq k g)) by lia. done. }
  exists st, sst. split; [exact E|]. destruct Hcm as [_ C2 C3 _ C5].
  assert (0 < zlen (heap sst)) as Hz.
  { apply Hne. pose proof (cp_last _ _ _ _ HC). pose proof (off_mono HC 1 g ltac:(lia) ltac:(lia)) as Ho. rewrite (cp_off _ _ _ _ HC) in Ho. lia. }
  rewrite (proj2 (Z.eqb_neq (zlen (heap sst)) 0)) in C3, C5 by lia. split.
  { pose proof (cp_off_next _ _ _ _ HC g ltac:(lia)) as Ho. rewrite Ho in C5. lia. }
  split; [done|]. split; [done|]. split; [done|]. split; [lia|]. split; [lia|]. exact HD.
Qed.

(** The codes of the table loop are the canonical codes. *)
Lemma decoded_canon j g y v l hp bs sym rest : shape lens j g y → sorted_to lens (zlen lens) v → 1 <= l <= 9 →
  decoded n s v d e g l (sh_cn lens g y) (sh_fc lens) (sh_off lens g y) hp g (sh_cn lens g y g) →
  24 <= zlen bs → canon lens bs = Some (sym, rest) → valid sym = true →
  ∃ ent, (h_e ent, h_v ent) = entry sym ∧ decode hp (Some 0) l bs = Some (Some (ent, rest)) ∧
    (g <= l → entry_at hp 0 (bval (take (Z.to_nat l) bs)) = Some ent ∧ 0 <= h_b ent <= l ∧ rest = drop (Z.to_nat (h_b ent)) bs).
Proof.
  intros Hsh Hv Hl HD Hbs Hcan Hval. apply canon_Some in Hcan as (k&Ek&Hk&Eh&->). pose proof (aget_range _ _ _ Ek) as Hu.
  pose proof (sh_g _ _ _ _ Hsh) as Hg. pose proof (shape_y _ _ _ _ Hsh) as Hy.
  assert (k <= g) as Hkg.
  { pose proof (sh_lens _ _ _ _ Hsh) as HF. rewrite List.Forall_forall in HF. apply (HF k), list_elem_of_In.
    apply aget_Some in Ek as [_ Ek]. by eapply list_elem_of_lookup_2. }
  set (wd := take (Z.to_nat k) bs) in *. set (r := bl_count (take (Z.to_nat sym) lens) k) in *.
  pose proof (bl_count_before _ _ _ Ek) as Hr. fold r in Hr. assert (0 <= r) as Hr0 by apply bl_count_nonneg.
  assert (sh_off lens g y k + r = bl_offset lens (Z.to_nat k) + r) as Eoff by (unfold sh_off; rewrite (proj2 (Z.ltb_ge g k)) by lia; lia).
  assert (sh_off lens g y k + r < n) as Hoff.
  { rewrite Eoff. pose proof (bl_offset_next lens k ltac:(lia)). pose proof (bl_offset_total lens (Z.to_nat (k + 1))). lia. }
  assert (r < sh_cn lens g y k) as Hrc by (unfold sh_cn; destruct (k =? g); lia).
  destruct (HD k r wd) as (vp&ent&Ev&Een&Hlook&Hflat); [lia|lia| |done|subst wd; rewrite zlen_take; lia|done|].
  { assert (k < g ∨ k = g) as [|Ekg] by lia; [by left|]. right. split; [done|]. by rewrite Ekg in Hrc. }
  pose proof (Hv sym k ltac:(lia) Ek ltac:(lia)) as Ev2. fold r in Ev2. rewrite Eoff, Ev2 in Ev. injection Ev as <-.
  destruct (Hentry sym ltac:(lia)) as (en&Een'&_&Hen). rewrite Een in Een'. injection Een' as <-. exists ent. split; [by apply Hen|].
  assert (wd ++ drop (Z.to_nat k) bs = bs) as Ebs by apply take_drop. split.
  - unfold decode. cbn [mbind option_bind]. rewrite decide_True by lia. specialize (Hlook (drop (Z.to_nat k) bs)).
    rewrite Ebs in Hlook. apply Hlook. lia.
  - intros Hgl. destruct (Hflat Hgl) as [Hb Hent']. specialize (Hent' (drop (Z.to_nat k) bs)). rewrite Ebs in Hent'.
    split; [apply Hent'; lia|]. rewrite Hb. split; [lia|done].
Qed.

(** All lengths zero: no tables, and 0 is returned. *)
Lemma huft_build_zeros b room : aslice b 0 n = Some lens → Forall (λ k, k = 0) lens →
  huft_build b n s d e m (ghost room) = Ret (0, None, 0) (ghost room).
Proof.
  intros Hsl HF. unfold huft_build. rewrite Hsl. cbn [lift_opt]. rewrite bind_ret.
  destruct (count_lengths_ok lens (replicate 17 0)) as (c&Ec&Hz&Hc0); [done| |].
  { eapply List.Forall_impl; [|exact HF]. intros k ->. lia. }
  rewrite Ec. cbn [lift_opt]. rewrite bind_ret, Hc0. change (aget (replicate 17 0) 0) with (Some 0). cbn [fmap option_fmap option_map].
  unfold default, id. rewrite (proj2 (bl_count_zeros lens ltac:(eapply List.Forall_impl; [|exact Hlens]; intros k Hk; cbv beta in Hk; lia)) HF), Z.add_0_l.
  by rewrite Hn, Z.eqb_refl.
Qed.

Lemma huft_build_ok b room : aslice b 0 n = Some lens → usable lens = true → tree_room m n <= room →
  ∃ t l gs, huft_build b n s d e m (ghost room) = Ret (0, t, l) gs ∧ 0 <= re_room (env gs) ∧ 0 <= l <= m ∧
    free_walk (S (length (heap gs))) (heap gs) t = true ∧ decodes (heap gs) t l 24 (canon lens) valid entry ∧
    (Forall (λ k, k <= m) lens → flat (heap gs) t l 24 (canon lens) valid entry).
Proof.
  intros Hsl Hus Hroom. destruct (decide (Forall (λ k, k = 0) lens)) as [HF|HF].
  { rewrite huft_build_zeros by done. exists None, 0, (ghost room). split; [done|]. pose proof (cost_mono 0 m ltac:(lia)).
    pose proof (cost_mono 0 (Z.min m (15 - m)) ltac:(lia)). unfold tree_room in Hroom. pose proof (zlen_nonneg lens).
    split; [cbn [ghost env re_room]; nia|]. split; [lia|]. split; [done|].
    split; [|intros _]; intros bs sym rest _ E _; by rewrite canon_zeros in E. }
  unfold huft_build. rewrite Hsl. cbn [lift_opt]. rewrite bind_ret.
  destruct (shape_ok lens Hlens Hus HF) as (c&y&Ec&Hc17&Hc&Hsh&Ed). rewrite Ec. cbn [lift_opt]. rewrite bind_ret.
  rewrite (Hc 0) by lia. unfold default, id. destruct (Z.eqb_spec (bl_count lens 0) n) as [E0|_].
  { destruct HF. apply bl_count_zeros; [|lia]. eapply List.Forall_impl; [|exact Hlens]. intros k Hk. cbv beta in Hk. lia. }
  cbv zeta. cbv zeta in Hsh, Ed. set (j := min_length 17 c 1) in *. set (g := max_length 17 c BMAX) in *. clearbody j g. rewrite Ed.
  pose proof (sh_range _ _ _ _ Hsh) as Hr. pose proof (sh_g _ _ _ _ Hsh) as Hg. rewrite (Hc g) by lia. cbn [lift_opt]. rewrite bind_ret.
  destruct (aset_in c g (bl_count lens g + y) ltac:(lia)) as [c' Ec']. rewrite Ec'. cbn [lift_opt]. rewrite bind_ret.
  assert (∀ k, 1 <= k <= g → aget c' k = Some (sh_cn lens g y k)) as Hc'.
  { intros k Hk. rewrite (aget_aset _ _ _ _ _ Ec'). unfold sh_cn. case_decide as Hgk; [subst k; by rewrite Z.eqb_refl|].
    rewrite (proj2 (Z.eqb_neq k g)), Hc by lia. f_equal. lia. }
  destruct (offsets_ok lens c' g) with (m := Z.to_nat (g - 1)) (p := 1) as [Hlo Hoi]; [|lia|lia|].
  { intros k Hk. rewrite Hc' by lia. unfold sh_cn. rewrite (proj2 (Z.eqb_neq k g)) by lia. f_equal. lia. }
  change (bl_offset lens (Z.to_nat 1)) with 0 in Hlo, Hoi.
  set (offs := offsets (Z.to_nat (g - 1)) c' 1 0) in *. set (x := (0 :: 0 :: offs) ++ replicate (17 - length (0 :: 0 :: offs)) 0).
  assert (zlen x = 17) as Hx by (unfold x, zlen; rewrite length_app, length_replicate; cbn [length]; lia).
  assert (∀ k, 1 <= k <= g → aget x k = Some (bl_offset lens (Z.to_nat k) + bl_count [] k)) as Hxk.
  { intros k Hk. cbn [bl_count]. rewrite Z.add_0_r. destruct (decide (k = 1)) as [->|Hk1]; [done|].
    specialize (Hoi (k - 2) ltac:(lia)). replace (1 + 1 + (k - 2)) with k in Hoi by lia. rewrite <- Hoi. unfold aget, x.
    rewrite !decide_True by lia. rewrite lookup_app_l by (cbn [length]; lia).
    by replace (Z.to_nat k) with (S (S (Z.to_nat (k - 2)))) by lia. }
  destruct (sort_values_ok lens g (sh_lens _ _ _ _ Hsh) Hg ltac:(lia) lens [] x (replicate 288 None) eq_refl Hx eq_refl Hxk)
    as (v&x'&Esv&Hx'&Hx0&Hv288&Hv&_).
  { intros u k Hu Eu. apply aget_range in Eu. change (zlen []) with 0 in Hu. lia. }
  change (zlen []) with 0 in Esv. rewrite Esv. cbn [lift_opt]. rewrite bind_ret.
  destruct (aset_in x' 0 0 ltac:(lia)) as [x'' Ex'']. rewrite Ex''. cbn [lift_opt]. rewrite bind_ret.
  destruct (build_ok j g y c' v x'' room Hsh) as (st&sst&E&Hroom'&Hlk&Hz&Hfi&Hl&Hgm&HD); [| done|done| | |done|].
  { rewrite <- Hc17. unfold zlen. by rewrite (aset_len _ _ _ _ Ec'). }
  { rewrite <- Hx'. unfold zlen. by rewrite (aset_len _ _ _ _ Ex''). }
  { by rewrite (aget_aset _ _ _ _ _ Ex''), decide_True. }
  unfold first_bits in E, Hl, Hgm, HD. cbv zeta in E, Hl, Hgm, HD. set (l := if g <? (if m <? j then j else m) then g else if m <? j then j else m) in *.
  rewrite (bind_Ret _ _ _ _ _ E), Hfi. exists (Some 0), l, sst. clearbody l. split.
  { assert ((negb (y =? 0) && negb (g =? 1)) = false) as ->; [|done].
    destruct (sh_left _ _ _ _ Hsh) as [->|E1]; [done|]. pose proof (sh_last _ _ _ _ Hsh) as Hla. rewrite E1 in Hla. cbn [bl_count] in Hla.
    destruct (Z.eqb_spec 1 g) as [<-|]; [|lia]. by rewrite andb_false_r. }
  split; [done|]. split; [lia|]. split; [apply linked_free; [done|lia|unfold zlen in *; lia]|]. split.
  - intros bs sym rest Hbs Hcan Hval. destruct (decoded_canon j g y v l (heap sst) bs sym rest Hsh Hv ltac:(lia) HD Hbs Hcan Hval) as (ent&Een&Edec&_).
    by exists ent.
  - intros HFm bs sym rest Hbs Hcan Hval.
    destruct (decoded_canon j g y v l (heap sst) bs sym rest Hsh Hv ltac:(lia) HD Hbs Hcan Hval) as (ent&Een&_&Hflat).
    destruct Hflat as (F1&F2&F3); [|by exists 0, ent]. apply Hgm. rewrite List.Forall_forall in HFm. apply HFm, list_elem_of_In.
    apply bl_count_pos, (sh_last _ _ _ _ Hsh).
Qed.
End build.

(** ** The theorem *)

(** C4: for lengths that make a code - complete, empty, or one bit for the one
    symbol - huft_build returns 0, and looking a code up in the tables it leaves,
    through as many of them as the code is long, finds the symbol the canonical
    code of RFC 1951 gives, with its entry, and the bits behind its code; the
    tables are linked so that huft_free finds all of them.  For the empty code,
    all lengths zero, the result is 0 with a null table and a table size of 0
    bits: the code does not do what the comment above huft_build says, which
    calls this input invalid and promises 2 for it.  [lens] are the lengths,
    [n] their number, less than 2^[m]. *)
Theorem huft_build_decodes n s m d e lens entry valid b room :
  n = zlen lens → n <= 288 → 1 <= m <= 9 → n < 2 ^ m → Forall (λ k, 0 <= k <= 15) lens →
  (∀ u, 0 <= u < n → ∃ en, entry_of s d e u = Some en ∧ 0 <= en.1 <= 16 ∧ (valid u = true → en = entry u)) →
  aslice b 0 n = Some lens → usable lens = true → tree_room m n <= room →
  ∃ t l gs, huft_build b n s d e m (ghost room) = Ret (0, t, l) gs ∧ 0 <= l <= m ∧
    decodes (heap gs) t l 24 (canon lens) valid entry ∧ free_walk (S (length (heap gs))) (heap gs) t = true ∧
    (Forall (λ k, k = 0) lens → t = None ∧ l = 0).
Proof.
  intros Hn H288 Hm Hnm HF Hent Hsl Hus Hroom.
  destruct (huft_build_ok n s m d e lens entry valid Hn H288 Hm Hnm HF Hent b room Hsl Hus Hroom) as (t&l&gs&E&_&Hl&Hfree&Hdec&_).
  exists t, l, gs. do 4 (split; [done|]). intros H0.
  erewrite huft_build_zeros in E by eassumption. by injection E as <- <- _.
Qed.

(* codes longer than three bits are found through a second table *)
Lemma huft_build_decodes_witness :
  ∃ t l gs, huft_build [1; 2; 3; 4; 5; 6; 6] 7 19 [] [] 3 (ghost 10000) = Ret (0, t, l) gs ∧ 0 <= l <= 3 ∧
    decodes (heap gs) t l 24 (canon [1; 2; 3; 4; 5; 6; 6]) (λ _, true) (λ v, (16, VN v)) ∧
    free_walk (S (length (heap gs))) (heap gs) t = true ∧
    (Forall (λ k, k = 0) [1; 2; 3; 4; 5; 6; 6] → t = None ∧ l = 0).
Proof.
  apply (huft_build_decodes 7 19 3 [] [] [1; 2; 3; 4; 5; 6; 6]).
  - reflexivity.
  - lia.
  - lia.
  - vm_compute. reflexivity.
  - apply (bool_decide_unpack _). vm_compute. exact I.
  - intros u Hu. exists (16, VN u). unfold entry_of. rewrite (proj2 (Z.ltb_lt u 19)), (proj2 (Z.ltb_lt u 256)) by lia.
    split; [reflexivity|]. split; [cbn; lia|reflexivity].
  - reflexivity.
  - vm_compute. reflexivity.
  - vm_compute. discriminate.
Defined.

(** One code of one bit among several symbols: the loop makes an entry for the
    other bit string too, from a value that has not been written. *)
Example one_code_unwritten : huft_build [1; 0] 2 19 [] [] 6 (ghost 10000) = Trap.
Proof. vm_compute. reflexivity. Qed.
