(* ===== verification/Dynamic.v ===== *)
(** * Blocks with their own codes

    A block of type 2 begins with the lengths of its two codes, themselves in a
    code of their own: the decoder of the format (RFC 1951, 3.2.7), and the parts
    of [inflate_dynamic] that read them. *)

From S2P Require Import Prelude CString Vsprintf Bits Huft Inflate Deflate HuftSim Canon HuftBuild HuftDecode.

Open Scope Z_scope.
Open Scope list_scope.

(** ** The format *)

(** [n] numbers of [w] bits. *)
Fixpoint read_nums (w : Z) (n : nat) (bs : list bool) : option (list Z * list bool) :=
  match n with
  | O => Some ([], bs)
  | S n =>
      let? (x, bs) := read_num w bs in
      let? (l, bs) := read_nums w n bs in
      Some (x :: l, bs)
  end.

(** The order the lengths of the code length code come in. *)
Definition clen_order : list Z := [16; 17; 18; 0; 8; 7; 9; 6; 10; 5; 11; 4; 12; 3; 13; 2; 14; 1; 15].

(** Those that do not come are 0. *)
Fixpoint put_clens (order l ll : list Z) : list Z :=
  match order with
  | [] => ll
  | o :: order => put_clens order (tail l) (<[Z.to_nat o := default 0 (head l)]> ll)
  end.

(** The lengths of both codes, [n] in all: a length, or a repeat of the last
    one (16) or of 0 (17, 18). *)
Fixpoint read_lens (fuel : nat) (code : list bool → option (Z * list bool)) (n : Z) (acc : list Z) (bs : list bool) :
    option (list Z * list bool) :=
  match fuel with
  | O => None
  | S fl =>
      if n <=? zlen acc then Some (acc, bs)
      else
        let? (j, bs) := code bs in
        if j <? 16 then read_lens fl code n (acc ++ [j]) bs
        else
          let? x := if j =? 16 then list.last acc else Some 0 in
          let '(nb, base) := if j =? 16 then (2, 3) else if j =? 17 then (3, 3) else (7, 11) in
          let? (r, bs) := read_num nb bs in
          let acc := acc ++ replicate (Z.to_nat (base + r)) x in
          if n <? zlen acc then None else read_lens fl code n acc bs
  end.

(** The lengths of the literal and of the distance code. *)
Definition read_trees (bs : list bool) : option (list Z * list Z * list bool) :=
  let? (hlit, bs) := read_num 5 bs in
  let? (hdist, bs) := read_num 5 bs in
  let? (hclen, bs) := read_num 4 bs in
  let nl := 257 + hlit in
  let nd := 1 + hdist in
  if (286 <? nl) || (30 <? nd) then None
  else
    let? (l, bs) := read_nums 3 (Z.to_nat (4 + hclen)) bs in
    let clens := put_clens clen_order l (replicate 19 0) in
    if usable clens then
      let? (lens, bs) := read_lens (S (Z.to_nat (nl + nd))) (canon clens) (nl + nd) [] bs in
      Some (take (Z.to_nat nl) lens, drop (Z.to_nat nl) lens, bs)
    else None.

Definition dynamic_block (fuel : nat) (bs : list bool) (out : list Z) : option (list bool * list Z) :=
  let? (ll, dl, bs) := read_trees bs in
  if usable ll && usable dl then block_codes fuel (canon ll) (canon dl) bs out else None.

(** ** What it uses up *)

Lemma read_nums_shrinks w n : 0 <= w → ∀ bs l rest, read_nums w n bs = Some (l, rest) →
  zlen rest <= zlen bs ∧ zlen l = Z.of_nat n ∧ Forall (λ x, 0 <= x < 2 ^ w) l.
Proof.
  intros Hw. induction n as [|n IH]; intros bs l rest E; cbn [read_nums] in E; [injection E as <- <-; by split|].
  destruct (read_num w bs) as [[x bs1]|] eqn:E1; [|done]. apply read_num_Some in E1 as (?&?&?&Hx&?); [|lia].
  destruct (read_nums w n bs1) as [[l1 bs2]|] eqn:E2; [|done]. injection E as <- <-. apply IH in E2 as (?&?&?).
  split; [lia|]. split; [rewrite zlen_cons; lia|]. by constructor.
Qed.

Definition lengths (code : list bool → option (Z * list bool)) : Prop :=
  ∀ bs v rest, code bs = Some (v, rest) → 0 <= v < 19.

Lemma read_lens_ok fuel code n : shrinks code → lengths code → ∀ acc bs lens rest,
  read_lens fuel code n acc bs = Some (lens, rest) → Forall (λ k, 0 <= k <= 15) acc → zlen acc <= n →
  zlen rest <= zlen bs ∧ zlen lens = n ∧ Forall (λ k, 0 <= k <= 15) lens.
Proof.
  intros Hsh Hr. induction fuel as [|fl IH]; intros acc bs lens rest E HF Hz; [done|]. cbn [read_lens] in E.
  destruct (Z.leb_spec n (zlen acc)) as [Hle|Hgt]; [injection E as <- <-; split; [lia|]; split; [lia|done]|].
  destruct (code bs) as [[j bs1]|] eqn:Ec; [|done]. pose proof (Hsh _ _ _ Ec). pose proof (Hr _ _ _ Ec).
  destruct (Z.ltb_spec j 16).
  - apply IH in E as (?&?&?); [split; [lia|done]| |rewrite zlen_app; change (zlen [j]) with 1; lia].
    apply list.Forall_app. split; [done|]. constructor; [lia|constructor].
  - destruct (if j =? 16 then list.last acc else Some 0) as [x|] eqn:Ex; [|done].
    assert (0 <= x <= 15) as Hx.
    { destruct (j =? 16); [|injection Ex as <-; lia]. rewrite List.Forall_forall in HF. apply HF, list_elem_of_In.
      rewrite last_lookup in Ex. by eapply list_elem_of_lookup_2. }
    destruct (if j =? 16 then (2, 3) else if j =? 17 then (3, 3) else (7, 11)) as [nb base] eqn:Eb.
    assert (0 <= nb) as Hnb by (destruct (j =? 16); [|destruct (j =? 17)]; injection Eb as <- <-; lia).
    destruct (read_num nb bs1) as [[r bs2]|] eqn:E1; [|done]. apply read_num_Some in E1 as (?&?&?&?&?); [|done].
    destruct (Z.ltb_spec n (zlen (acc ++ replicate (Z.to_nat (base + r)) x))); [done|]. apply IH in E as (?&?&?); [split; [lia|done]| |done].
    apply list.Forall_app. split; [done|]. by apply Forall_replicate.
Qed.

Lemma canon_lengths lens : zlen lens = 19 → lengths (canon lens).
Proof. intros Hz bs v rest (k&E&_)%canon_Some. apply aget_range in E. lia. Qed.

Lemma length_put_clens order : ∀ l ll, length (put_clens order l ll) = length ll.
Proof. induction order as [|o order IH]; intros l ll; [done|]. cbn [put_clens]. by rewrite IH, length_insert. Qed.

Lemma put_clens_range order : ∀ l ll, Forall (λ x, 0 <= x <= 7) l → Forall (λ x, 0 <= x <= 7) ll →
  Forall (λ x, 0 <= x <= 7) (put_clens order l ll).
Proof.
  induction order as [|o order IH]; intros l ll Hl Hll; [done|]. cbn [put_clens]. apply IH.
  - destruct Hl; [constructor|done].
  - apply Forall_insert; [done|]. destruct Hl; [cbn; lia|done].
Qed.

(** ** How zip/inflate.c reads them *)

Lemma take_insert_in {A} (n : nat) (l : list A) o x : take n (<[o := x]> l) = <[o := x]> (take n l).
Proof.
  apply list_eq. intros i. destruct (decide (i < n)%nat) as [Hi|Hi].
  - rewrite lookup_take_lt by done. destruct (decide (i = o)) as [->|Hne].
    + destruct (decide (o < length l)%nat) as [Ho|Ho].
      * rewrite !list_lookup_insert_eq; [done|rewrite length_take; lia|done].
      * rewrite !list_insert_ge by (rewrite ?length_take; lia). by rewrite lookup_take_lt.
    + rewrite !list_lookup_insert_ne by done. by rewrite lookup_take_lt.
  - rewrite !lookup_ge_None_2; [done|rewrite length_insert, length_take; lia|rewrite length_take; lia].
Qed.

Section reading.
Context {St : Type} `{HL : InflateLaws St}.

Lemma read_border_ok full order : ∀ nb ll bk (s : ist St) bs l rest,
  Forall (λ o, 0 <= o < 19) order → zlen ll = 316 → 0 <= nb <= zlen order → read_nums 3 (Z.to_nat nb) bs = Some (l, rest) →
  reads full s bk bs → snd bk <= 15 →
  ∃ ll' bk' s', read_border order nb ll bk s = Ret (ll', bk') s' ∧ same_but_input s s' ∧ reads full s' bk' rest ∧ snd bk' <= 15 ∧
    zlen ll' = 316 ∧ take 19 ll' = put_clens order l (take 19 ll).
Proof.
  induction order as [|o order IH]; intros nb ll bk s bs l rest HF Hz Hnb E Hr Hk; cbn [read_border put_clens].
  { change (zlen []) with 0 in Hnb. replace nb with 0 in E by lia. injection E as <- <-. exists ll, bk, s. done. }
  apply list.Forall_cons in HF as [Ho HF]. rewrite zlen_cons in Hnb. destruct (Z.ltb_spec 0 nb) as [Hpos|Hneg].
  - replace (Z.to_nat nb) with (S (Z.to_nat (nb - 1))) in E by lia. cbn [read_nums] in E.
    destruct (read_num 3 bs) as [[x bs1]|] eqn:E1; [|done]. destruct (read_nums 3 _ bs1) as [[l1 bs2]|] eqn:E2; [|done]. injection E as <- <-.
    destruct (extra_bits_ok full 3 s bk bs x bs1 Hr Hk ltac:(lia) E1) as (bk1&s1&F1&M1&Hs1&Hr1&Hk1). rewrite (bind_Ret _ _ _ _ _ F1).
    assert (lowbits bk1 7 = x) as ->. { unfold masked in M1. cbn in M1. by injection M1. }
    destruct (aset_in ll o x ltac:(lia)) as [ll1 E3]. rewrite E3. cbn [lift_opt]. rewrite bind_ret.
    destruct (IH (nb - 1) ll1 (dumpbits 3 bk1) s1 bs1 l1 bs2 HF) as (ll'&bk'&s'&F&Hs'&Hr'&Hk'&Hz'&Ht); [|lia|done|done|done|].
    { rewrite <- Hz. unfold zlen. by rewrite (aset_len _ _ _ _ E3). }
    exists ll', bk', s'. split; [done|]. split; [by etransitivity|]. split; [done|]. split; [done|]. split; [done|].
    rewrite Ht. apply aset_Some in E3 as [_ ->]. by rewrite take_insert_in.
  - replace nb with 0 in E by lia. injection E as <- <-. destruct (aset_in ll o 0 ltac:(lia)) as [ll1 E3]. rewrite E3. cbn [lift_opt]. rewrite bind_ret.
    destruct (IH 0 ll1 bk s bs [] bs HF) as (ll'&bk'&s'&F&Hs'&Hr'&Hk'&Hz'&Ht); [|pose proof (zlen_nonneg order); lia|done|done|done|].
    { rewrite <- Hz. unfold zlen. by rewrite (aset_len _ _ _ _ E3). }
    replace nb with 0 by lia. exists ll', bk', s'. split; [done|]. split; [done|]. split; [done|]. split; [done|]. split; [done|].
    rewrite Ht. apply aset_Some in E3 as [_ ->]. by rewrite take_insert_in.
Qed.

Lemma repeat_length_ok j : ∀ ll i x, 0 <= i → i + Z.of_nat j <= zlen ll →
  ∃ ll', repeat_length j ll i x = Some (ll', i + Z.of_nat j) ∧ zlen ll' = zlen ll ∧
    take (Z.to_nat (i + Z.of_nat j)) ll' = take (Z.to_nat i) ll ++ replicate j x.
Proof.
  induction j as [|j IH]; intros ll i x Hi Hz; cbn [repeat_length].
  { exists ll. rewrite Z.add_0_r. cbn [replicate]. by rewrite app_nil_r. }
  destruct (aset_in ll i x ltac:(lia)) as [ll1 E1]. rewrite E1. cbn [mbind option_bind].
  assert (zlen ll1 = zlen ll) as Hz1 by (unfold zlen; by rewrite (aset_len _ _ _ _ E1)).
  destruct (IH ll1 (i + 1) x ltac:(lia) ltac:(lia)) as (ll'&E&Hz'&Ht). exists ll'. rewrite E. split; [do 2 f_equal; lia|]. split; [lia|].
  replace (i + Z.of_nat (S j)) with (i + 1 + Z.of_nat j) by lia. rewrite Ht, (take_aset _ _ _ _ E1). by rewrite <- app_assoc.
Qed.

(** The entry of a code length symbol. *)
Definition clen_entry (v : Z) : Z * hval := (16, VN v).

(** The state of the reader: [acc] are the lengths so far. *)
Definition len_state (full : list Z) (s0 : ist St) (acc : list Z) (bs : list bool) (ll : list Z) (i l : Z) (bk : bits) (s : ist St) : Prop :=
  zlen ll = 316 ∧ i = zlen acc ∧ take (length acc) ll = acc ∧ (∀ x, list.last acc = Some x → x = l) ∧ same_but_input s0 s ∧ reads full s bk bs ∧ snd bk <= 15.

Lemma repeat_code_ok full s0 acc bs ll i l bk s nb mask base x last n r rest :
  len_state full s0 acc bs ll i l bk s → mask = Z.ones nb → 0 <= nb <= 16 → 1 <= base → read_num nb bs = Some (r, rest) → n <= 316 →
  zlen (acc ++ replicate (Z.to_nat (base + r)) x) <= n → last = x →
  ∃ ll' bk' s', repeat_code nb mask base x last n ll i bk s = Ret (inl (ll', zlen (acc ++ replicate (Z.to_nat (base + r)) x), last, bk')) s' ∧
    len_state full s0 (acc ++ replicate (Z.to_nat (base + r)) x) rest ll' (zlen (acc ++ replicate (Z.to_nat (base + r)) x)) last bk' s'.
Proof.
  intros (Hz&->&Ht&Hlast&Hs&Hr&Hk) -> Hnb Hb Er Hn Hle ->. pose proof (read_num_Some nb _ _ _ ltac:(lia) Er) as (_&_&_&Hr0&_).
  rewrite zlen_app in *. assert (zlen (replicate (Z.to_nat (base + r)) x) = base + r) as Hzr by (unfold zlen; rewrite length_replicate; lia).
  rewrite Hzr in *. unfold repeat_code. destruct (extra_bits_ok full nb s bk bs r rest Hr Hk Hnb Er) as (bk1&s1&F1&M1&Hs1&Hr1&Hk1).
  rewrite (bind_Ret _ _ _ _ _ F1). unfold masked in M1. rewrite mask_bits_ok in M1 by lia. cbn [lift_opt] in M1. rewrite bind_ret in M1.
  injection M1 as ->. rewrite (proj2 (Z.ltb_ge n _)) by lia. pose proof (zlen_nonneg acc) as H0.
  destruct (repeat_length_ok (Z.to_nat (base + r)) ll (zlen acc) x H0 ltac:(lia)) as (ll'&E&Hz'&Ht'). rewrite E. cbn [lift_opt]. rewrite bind_ret.
  replace (zlen acc + Z.of_nat (Z.to_nat (base + r))) with (zlen acc + (base + r)) in * by lia.
  exists ll', (dumpbits nb bk1), s1. split; [done|]. split; [lia|]. split; [by rewrite zlen_app, Hzr|]. split.
  { rewrite length_app, length_replicate. replace (length acc + Z.to_nat (base + r))%nat with (Z.to_nat (zlen acc + (base + r))) by (unfold zlen; lia).
    rewrite Ht'. f_equal. replace (Z.to_nat (zlen acc)) with (length acc) by (unfold zlen; lia). done. }
  split; [|split; [by etransitivity|done]]. intros y. replace (Z.to_nat (base + r)) with (Z.to_nat (base + r) - 1 + 1)%nat by lia.
  rewrite replicate_add, app_assoc. change (replicate 1 x) with [x]. rewrite last_snoc. congruence.
Qed.

(** A symbol of the code length code. *)
Lemma clen_symbol_ok full tl bl code bs j rest (s : ist St) bk :
  flat (heap s) tl bl 24 code (λ _, true) clen_entry → 0 <= bl <= 7 → 24 <= zlen bs → code bs = Some (j, rest) →
  reads full s bk bs → snd bk <= 15 →
  ∃ bk' s' ent, needbits bl bk s = Ret bk' s' ∧ get_entry tl (lowbits bk' (Z.ones bl)) s' = Ret ent s' ∧ base_of ent s' = Ret j s' ∧
    same_but_input s s' ∧ reads full s' (dumpbits (h_b ent) bk') rest ∧ snd (dumpbits (h_b ent) bk') <= 15.
Proof.
  intros Hfl Hbl H24 Ec Hr Hk. destruct (Hfl bs j rest H24 Ec eq_refl) as (t'&ent&->&Eent&[= He Hv]&Hb&->).
  destruct (needbits_ok full bl s bk bs Hr) as (bk2&s2&E2&Hs2&Hr2&Hk2&Hk2'); [lia..|].
  destruct (dumpbits_ok full (h_b ent) s2 bk2 bs Hr2) as [Hr3 Hk3]; [lia|]. assert (heap s2 = heap s) as Ehp by apply Hs2. rewrite <- Ehp in Eent.
  exists bk2, s2, ent. split; [done|]. split.
  { rewrite (lowbits_ok full bl s2 bk2 bs) by (done || lia). by apply get_entry_ok. }
  split; [unfold base_of; by rewrite Hv|]. split; [done|]. split; [done|]. lia.
Qed.

Lemma lengths_step_ok full tl bl n s0 acc bs ll i l bk (s : ist St) code fl lens rest :
  len_state full s0 acc bs ll i l bk s → flat (heap s) tl bl 24 code (λ _, true) clen_entry → lengths code → shrinks code →
  0 <= bl <= 7 → n <= 316 → zlen acc < n → read_lens (S fl) code n acc bs = Some (lens, rest) → Forall (λ k, 0 <= k <= 15) acc → 24 <= zlen rest →
  ∃ acc' bs' ll' i' l' bk' s', lengths_step tl bl (Z.ones bl) n (ll, i, l, bk) s = Ret (inl (ll', i', l', bk')) s' ∧
    len_state full s0 acc' bs' ll' i' l' bk' s' ∧ acc' ≠ [] ∧ Forall (λ k, 0 <= k <= 15) acc' ∧ zlen acc' <= n ∧
    read_lens fl code n acc' bs' = Some (lens, rest).
Proof.
  intros Hst Hfl Hlen Hsh Hbl Hn Hlt E HF H24. pose proof Hst as (Hz&Ei&Ht&Hlast&Hs&Hr&Hk).
  pose proof (read_lens_ok (S fl) code n Hsh Hlen acc bs lens rest E HF ltac:(lia)) as (Hle&_&_).
  cbn [read_lens] in E. rewrite (proj2 (Z.leb_gt n (zlen acc))) in E by lia.
  destruct (code bs) as [[j bs1]|] eqn:Ec; [|done]. cbn [mbind option_bind] in E.
  destruct (clen_symbol_ok full tl bl code bs j bs1 s bk Hfl Hbl ltac:(lia) Ec Hr Hk) as (bk1&s1&ent&F1&F2&F3&Hs1&Hr1&Hk1).
  pose proof (Hlen _ _ _ Ec) as Hj. unfold lengths_step. rewrite Ei, (proj2 (Z.ltb_lt _ _)) by lia.
  rewrite (bind_Ret _ _ _ _ _ F1), (bind_Ret _ _ _ _ _ F2). cbv zeta. rewrite (bind_Ret _ _ _ _ _ F3).
  assert (same_but_input s0 s1) as Hs01 by (by etransitivity).
  destruct (Z.ltb_spec j 16) as [Hj16|Hj16].
  - destruct (aset_in ll (zlen acc) j ltac:(pose proof (zlen_nonneg acc); lia)) as [ll1 E1]. rewrite E1. cbn [lift_opt]. rewrite bind_ret.
    assert (zlen (acc ++ [j]) = zlen acc + 1) as Hz1 by (by rewrite zlen_app).
    exists (acc ++ [j]), bs1, ll1, (zlen acc + 1), j, (dumpbits (h_b ent) bk1), s1. split; [done|]. split.
    { split; [rewrite <- Hz; unfold zlen; by rewrite (aset_len _ _ _ _ E1)|]. split; [lia|]. split.
      { rewrite length_app. cbn [length]. pose proof (take_aset _ _ _ _ E1) as Hta. unfold zlen in Hta at 2. rewrite Nat2Z.id, Ht in Hta.
        rewrite <- Hta. f_equal. unfold zlen. lia. }
      split; [intros x; rewrite last_snoc; congruence|]. done. }
    split; [by destruct acc|]. split; [apply list.Forall_app; split; [done|]; constructor; [lia|constructor]|]. split; [lia|done].
  - assert (∀ nb base x l', (0 <= nb <= 16 ∧ 1 <= base) → 0 <= x <= 15 → l' = x → (∀ r bs2, read_num nb bs1 = Some (r, bs2) → 
        (if n <? zlen (acc ++ replicate (Z.to_nat (base + r)) x) then None else read_lens fl code n (acc ++ replicate (Z.to_nat (base + r)) x) bs2) =
        Some (lens, rest) →
      ∃ acc' bs' ll' i' l'' bk' s', repeat_code nb (Z.ones nb) base x l' n ll (zlen acc) (dumpbits (h_b ent) bk1) s1 = Ret (inl (ll', i', l'', bk')) s' ∧
        len_state full s0 acc' bs' ll' i' l'' bk' s' ∧ acc' ≠ [] ∧ Forall (λ k, 0 <= k <= 15) acc' ∧ zlen acc' <= n ∧
        read_lens fl code n acc' bs' = Some (lens, rest))) as Hrep.
    { intros nb base x l' [Hnb Hbase] Hx -> r bs2 Er E2. destruct (Z.ltb_spec n (zlen (acc ++ replicate (Z.to_nat (base + r)) x))) as [|Hfit]; [done|].
      pose proof (read_num_Some nb _ _ _ ltac:(lia) Er) as (_&_&_&Hr0&_).
      assert (len_state full s0 acc bs1 ll (zlen acc) l (dumpbits (h_b ent) bk1) s1) as Hst1 by done.
      destruct (repeat_code_ok full s0 acc bs1 ll (zlen acc) l (dumpbits (h_b ent) bk1) s1 nb (Z.ones nb) base x x n r bs2
        Hst1 eq_refl ltac:(lia) Hbase Er Hn Hfit eq_refl) as (ll'&bk'&s'&F&Hst').
      eexists _, _, _, _, _, _, _. split; [exact F|]. split; [exact Hst'|]. split.
      { replace (Z.to_nat (base + r)) with (S (Z.to_nat (base + r - 1))) by lia. cbn [replicate]. by destruct acc. }
      split; [apply list.Forall_app; split; [done|]; by apply Forall_replicate|]. split; [lia|done]. }
    destruct (Z.eqb_spec j 16) as [->|Hj1].
    + destruct (list.last acc) as [x|] eqn:Elast; [|done]. cbn [mbind option_bind] in E. pose proof (Hlast x eq_refl) as ->.
      destruct (read_num 2 bs1) as [[r bs2]|] eqn:Er; [|done]. cbn [mbind option_bind] in E.
      apply (Hrep 2 3 l l ltac:(lia)) with (r := r) (bs2 := bs2); try done.
      rewrite List.Forall_forall in HF. apply HF, list_elem_of_In. rewrite last_lookup in Elast. by eapply list_elem_of_lookup_2.
    + cbn [mbind option_bind] in E. destruct (Z.eqb_spec j 17) as [->|Hj2].
      * destruct (read_num 3 bs1) as [[r bs2]|] eqn:Er; [|done]. cbn [mbind option_bind] in E.
        apply (Hrep 3 3 0 0 ltac:(lia)) with (r := r) (bs2 := bs2); try done.
      * destruct (read_num 7 bs1) as [[r bs2]|] eqn:Er; [|done]. cbn [mbind option_bind] in E.
        apply (Hrep 7 11 0 0 ltac:(lia)) with (r := r) (bs2 := bs2); try done.
Qed.

Lemma lengths_loop_ok full tl bl n s0 code lens rest : flat (heap s0) tl bl 24 code (λ _, true) clen_entry → lengths code → shrinks code →
  0 <= bl <= 7 → n <= 316 → 24 <= zlen rest → ∀ fl fuel acc bs ll i l bk (s : ist St), (fl <= fuel)%nat →
  len_state full s0 acc bs ll i l bk s → read_lens fl code n acc bs = Some (lens, rest) → Forall (λ k, 0 <= k <= 15) acc → zlen acc <= n →
  ∃ ll' bk' s', loop fuel (lengths_step tl bl (Z.ones bl) n) (ll, i, l, bk) s = Ret (Some (ll', bk')) s' ∧ zlen ll' = 316 ∧
    take (Z.to_nat n) ll' = lens ∧ same_but_input s0 s' ∧ reads full s' bk' rest ∧ snd bk' <= 15.
Proof.
  intros Hfl Hlen Hsh Hbl Hn H24 fl. induction fl as [|fl IH]; intros fuel acc bs ll i l bk s Hf Hst E HF Hz; [done|].
  destruct fuel as [|fuel]; [lia|]. destruct (Z.le_gt_cases n (zlen acc)) as [Hle|Hgt].
  - cbn [read_lens] in E. rewrite (proj2 (Z.leb_le n (zlen acc))) in E by lia. injection E as <- <-. pose proof Hst as (Hz'&->&Ht&_&Hs&Hr&Hk).
    exists ll, bk, s. split; [apply loop_exit; unfold lengths_step; by rewrite (proj2 (Z.ltb_ge _ _)) by lia|].
    split; [done|]. split; [|done]. rewrite <- Ht. f_equal. unfold zlen in *. lia.
  - pose proof Hst as (_&_&_&_&Hs&_). assert (heap s = heap s0) as Ehp by apply Hs.
    destruct (lengths_step_ok full tl bl n s0 acc bs ll i l bk s code fl lens rest Hst) as (acc'&bs'&ll'&i'&l'&bk'&s'&F&Hst'&_&HF'&Hz'&E');
      [by rewrite Ehp|done|done|done|done|done|done|done|done|].
    rewrite (loop_step _ _ _ _ _ _ F). apply (IH fuel acc' bs'); try done. lia.
Qed.

Lemma read_lengths_ok full tl bl n code lens rest bs ll bk (s : ist St) : flat (heap s) tl bl 24 code (λ _, true) clen_entry → lengths code → shrinks code →
  0 <= bl <= 7 → 0 <= n <= 316 → 24 <= zlen rest → zlen ll = 316 → reads full s bk bs → snd bk <= 15 →
  read_lens (S (Z.to_nat n)) code n [] bs = Some (lens, rest) →
  ∃ ll' bk' s', read_lengths tl bl n ll bk s = Ret (Some (ll', bk')) s' ∧ zlen ll' = 316 ∧
    take (Z.to_nat n) ll' = lens ∧ same_but_input s s' ∧ reads full s' bk' rest ∧ snd bk' <= 15.
Proof.
  intros Hfl Hlen Hsh Hbl Hn H24 Hz Hr Hk E. unfold read_lengths. rewrite mask_bits_ok by lia. cbn [lift_opt]. rewrite bind_ret.
  apply (lengths_loop_ok full tl bl n s code lens rest Hfl Hlen Hsh Hbl ltac:(lia) H24 (S (Z.to_nat n)) _ [] bs); try done.
  change (zlen []) with 0. lia.
Qed.

(** *** The tables for the lengths *)

Lemma build_tree b n sv d e m lens entry valid room (s : ist St) :
  n = zlen lens → n <= 288 → 1 <= m <= 9 → n < 2 ^ m → Forall (λ k, 0 <= k <= 15) lens →
  (∀ u, 0 <= u < n → ∃ en, entry_of sv d e u = Some en ∧ 0 <= en.1 <= 16 ∧ (valid u = true → en = entry u)) →
  (∀ b v, shift_v b (entry v).2 = (entry v).2) →
  aslice b 0 n = Some lens → usable lens = true → tree_room m n <= room → room <= env_room (env s) →
  ∃ t l s' h, huft_build b n sv d e m s = Ret (0, t, l) s' ∧ frame s s' ∧ env_room (env s) - room <= env_room (env s') ∧ 0 <= l <= m ∧
    heap s' = heap s ++ h ∧ (∀ h', decodes (heap s' ++ h') t l 24 (canon lens) valid entry) ∧
    (Forall (λ k, k <= m) lens → flat (heap s') t l 24 (canon lens) valid entry) ∧
    (∀ (s'' : ist St) h', heap s'' = heap s' ++ h' → free_tables t s'' = Ret tt s'').
Proof.
  intros Hn H288 Hm Hnm Hlens Hentry Hshift Hsl Hus Hroom Henv.
  destruct (huft_build_ok n sv m d e lens entry valid Hn H288 Hm Hnm Hlens Hentry b room Hsl Hus Hroom)
    as (t&l&g&E&Hrm&Hl&Hfree&Hdec&Hflat).
  destruct (build_anywhere room (env_room (env s) - room) _ _ _ _ _ _ _ _ _ _ s E) as (s'&E'&Hh&Hrm'&Hfr); [lia|lia|].
  exists ((λ t, t + zlen (heap s)) <$> t), l, s', (shift_heap (zlen (heap s)) (heap g)). split; [exact E'|]. split; [done|]. split; [lia|]. split; [done|].
  split; [done|]. split.
  { intros h'. rewrite Hh. apply decodes_more. by apply decodes_shift. }
  split.
  - intros HF bs v rest Hbs Hc Hv. destruct (Hflat HF bs v rest Hbs Hc Hv) as (t'&ent&->&Eent&Een&Hb&Hrest).
    exists (t' + zlen (heap s)), (shift_ent (zlen (heap s)) ent). split; [done|]. split; [rewrite Hh; by apply entry_at_shift|].
    split; [|done]. cbn. specialize (Hshift (zlen (heap s)) v). rewrite <- Een in Hshift |- *. cbn in Hshift. by rewrite Hshift.
  - intros s'' h' Eh. unfold free_tables. unfold bind, gets. apply huft_free_ok. rewrite Eh, Hh.
    rewrite !length_app. unfold shift_heap at 1. rewrite length_map.
    replace (S (length (heap s) + length (heap g) + length h')) with (S (length (heap g)) + (length (heap s) + length h'))%nat by lia.
    apply free_walk_more. by apply free_walk_shift.
Qed.
End reading.

(** *** The entries of the symbols *)

Definition entry_ok (s : Z) (d e : list Z) (entry : Z → Z * hval) (u : Z) : bool :=
  match entry_of s d e u, entry u with
  | Some (ex, VN x), (ey, VN y) => (0 <=? ex) && (ex <=? 16) && (ex =? ey) && (x =? y)
  | _, _ => false
  end.

Lemma entries_ok s d e entry (valid : Z → bool) n : forallb (entry_ok s d e entry) (seqZ 0 n) = true →
  ∀ u, 0 <= u < n → ∃ en, entry_of s d e u = Some en ∧ 0 <= en.1 <= 16 ∧ (valid u = true → en = entry u).
Proof.
  intros H u Hu. rewrite forallb_forall in H. specialize (H u ltac:(apply list_elem_of_In, elem_of_seqZ; lia)). unfold entry_ok in H.
  destruct (entry_of s d e u) as [[ex [x|]]|], (entry u) as [ey [y|]]; try done.
  apply andb_true_iff in H as [[[H1%Z.leb_le H2%Z.leb_le]%andb_true_iff H3%Z.eqb_eq]%andb_true_iff H4%Z.eqb_eq]. subst ey y. by exists (ex, VN x).
Qed.

Lemma clen_entries n : n <= 19 → ∀ u, 0 <= u < n →
  ∃ en, entry_of 19 [] [] u = Some en ∧ 0 <= en.1 <= 16 ∧ (true = true → en = clen_entry u).
Proof. intros Hn u Hu. apply (entries_ok 19 [] [] clen_entry (λ _, true) 19); [by vm_compute|lia]. Qed.

Lemma lit_entries n : n <= 286 → ∀ u, 0 <= u < n →
  ∃ en, entry_of 257 cplens cplext u = Some en ∧ 0 <= en.1 <= 16 ∧ (lit_valid u = true → en = lit_entry u).
Proof. intros Hn u Hu. apply (entries_ok 257 cplens cplext lit_entry lit_valid 286); [by vm_compute|lia]. Qed.

Lemma dist_entries n : n <= 30 → ∀ u, 0 <= u < n →
  ∃ en, entry_of 0 cpdist cpdext u = Some en ∧ 0 <= en.1 <= 16 ∧ (dist_valid u = true → en = dist_entry u).
Proof. intros Hn u Hu. apply (entries_ok 0 cpdist cpdext dist_entry dist_valid 30); [by vm_compute|lia]. Qed.

(** What the lengths read are. *)
Lemma read_trees_Some bs ll dl rest : read_trees bs = Some (ll, dl, rest) →
  ∃ hlit hdist hclen bs1 bs2 bs3 l bs4 lens, read_num 5 bs = Some (hlit, bs1) ∧ read_num 5 bs1 = Some (hdist, bs2) ∧
    read_num 4 bs2 = Some (hclen, bs3) ∧ 0 <= hlit <= 29 ∧ 0 <= hdist <= 29 ∧ 0 <= hclen < 16 ∧
    read_nums 3 (Z.to_nat (4 + hclen)) bs3 = Some (l, bs4) ∧
    let clens := put_clens clen_order l (replicate 19 0) in
    usable clens = true ∧ zlen clens = 19 ∧ Forall (λ k, 0 <= k <= 7) clens ∧
    read_lens (S (Z.to_nat (257 + hlit + (1 + hdist)))) (canon clens) (257 + hlit + (1 + hdist)) [] bs4 = Some (lens, rest) ∧
    ll = take (Z.to_nat (257 + hlit)) lens ∧ dl = drop (Z.to_nat (257 + hlit)) lens ∧ zlen lens = 257 + hlit + (1 + hdist) ∧
    Forall (λ k, 0 <= k <= 15) lens ∧ zlen rest <= zlen bs4 <= zlen bs3 ∧ zlen bs3 <= zlen bs.
Proof.
  unfold read_trees. intros E. destruct (read_num 5 bs) as [[hlit bs1]|] eqn:E1; [|done]. cbn [mbind option_bind] in E.
  destruct (read_num 5 bs1) as [[hdist bs2]|] eqn:E2; [|done]. cbn [mbind option_bind] in E.
  destruct (read_num 4 bs2) as [[hclen bs3]|] eqn:E3; [|done]. cbn [mbind option_bind] in E.
  destruct (Z.ltb_spec 286 (257 + hlit)), (Z.ltb_spec 30 (1 + hdist)); cbn [orb] in E; try done.
  destruct (read_nums 3 _ bs3) as [[l bs4]|] eqn:E4; [|done]. cbn [mbind option_bind] in E. cbv zeta in E.
  destruct (usable _) eqn:Eu; [|done]. destruct (read_lens _ _ _ _ bs4) as [[lens bs5]|] eqn:E5; [|done]. injection E as <- <- <-.
  exists hlit, hdist, hclen, bs1, bs2, bs3, l, bs4, lens. pose proof (read_num_Some 5 _ _ _ ltac:(lia) E1) as (_&_&_&?&?).
  pose proof (read_num_Some 5 _ _ _ ltac:(lia) E2) as (_&_&_&?&?). pose proof (read_num_Some 4 _ _ _ ltac:(lia) E3) as (_&_&_&?&?).
  pose proof (read_nums_shrinks 3 _ ltac:(lia) _ _ _ E4) as (?&_&HF). set (clens := put_clens clen_order l (replicate 19 0)) in *.
  assert (zlen clens = 19) as Hz by (subst clens; unfold zlen; by rewrite length_put_clens).
  pose proof (read_lens_ok _ _ _ (canon_shrinks clens) (canon_lengths clens Hz) _ _ _ _ E5 ltac:(constructor) ltac:(change (zlen []) with 0; lia)) as (?&?&?).
  split; [done|]. split; [done|]. split; [done|]. split; [lia|]. split; [lia|]. split; [lia|]. split; [done|]. cbv zeta. split; [done|]. split; [done|].
  split.
  { apply put_clens_range; [|by apply Forall_replicate]. eapply List.Forall_impl; [|exact HF]. intros x Hx. cbv beta in Hx. change (2 ^ 3) with 8 in Hx. lia. }
  split; [done|]. split; [done|]. split; [done|]. split; [done|]. split; [done|]. lia.
Qed.

Lemma dynamic_block_shrinks fuel bs out rest out' : dynamic_block fuel bs out = Some (rest, out') → zlen rest <= zlen bs.
Proof.
  unfold dynamic_block. destruct (read_trees bs) as [[[ll dl] bs1]|] eqn:E; [|done]. cbn [mbind option_bind].
  apply read_trees_Some in E as (?&?&?&?&?&?&?&?&?&_&_&_&_&_&_&_&H). cbv zeta in H. destruct H as (_&_&_&_&_&_&_&_&?&?).
  destruct (_ && _); [|done]. intros E2%block_codes_shrinks; [lia|apply canon_shrinks|apply canon_shrinks].
Qed.
