(* ===== verification/Blocks.v ===== *)
(** * Blocks of a DEFLATE stream

    Stored blocks, blocks with the fixed codes and blocks with codes of their own
    ([Dynamic]), decoded by zip/inflate.c as the format prescribes; the fixed
    tables are computed once. *)

From Stdlib Require Import Ascii String.
From S2P Require Import Prelude CString Vsprintf Bits Huft Inflate Deflate HuftSim Canon HuftBuild HuftDecode Dynamic.

Open Scope Z_scope.
Open Scope list_scope.

(** ** Stored blocks *)

Fixpoint read_bytes (n : nat) (bs : list bool) : option (list Z * list bool) :=
  match n with
  | O => Some ([], bs)
  | S n =>
      let? (c, bs) := read_num 8 bs in
      let? (l, bs) := read_bytes n bs in
      Some (c :: l, bs)
  end.

(** To the next byte of the file: its length is a whole number of bytes. *)
Definition align (bs : list bool) : list bool := drop (Z.to_nat (zlen bs mod 8)) bs.

Definition stored_block (bs : list bool) (out : list Z) : option (list bool * list Z) :=
  let? (n, bs) := read_num 16 (align bs) in
  let? (m, bs) := read_num 16 bs in
  if n + m =? 65535 then
    let? (l, bs) := read_bytes (Z.to_nat n) bs in
    Some (bs, out ++ l)
  else None.

(** ** The stream *)

(** A block's contents, by its type. *)
Definition block_body (fuel : nat) (t : Z) (bs : list bool) (out : list Z) :
    option (list bool * list Z) :=
  if t =? 0 then stored_block bs out
  else if t =? 1 then block_codes fuel fixed_lit fixed_dist bs out
  else if t =? 2 then dynamic_block fuel bs out
  else None.

(** Blocks up to the last one. *)
Fixpoint stream (blocks fuel : nat) (bs : list bool) (out : list Z) : option (list bool * list Z) :=
  match blocks with
  | O => None
  | S n =>
      let? (e, bs) := read_num 1 bs in
      let? (t, bs) := read_num 2 bs in
      let? (bs, out) := block_body fuel t bs out in
      if e =? 0 then stream n fuel bs out else Some (bs, out)
  end.

(** ** The fixed tables *)

Definition all_bits (n : nat) : list (list bool) := map (zbits n) (seqZ 0 (2 ^ Z.of_nat n)).

Lemma all_bits_complete n l : length l = n → l ∈ all_bits n.
Proof.
  intros <-. apply list_elem_of_fmap. exists (bval l). rewrite zbits_bval. split; [done|].
  apply elem_of_seqZ. pose proof (bval_range l). unfold zlen in *. lia.
Qed.

Definition app_res {A} (tl : list bool) (r : option (A * list bool)) : option (A * list bool) :=
  (λ p, (p.1, p.2 ++ tl)) <$> r.

Lemma walk_app h fuel tl : ∀ ent nb bs r,
  nb <= zlen bs → walk fuel h ent nb bs = Some r → walk fuel h ent nb (bs ++ tl) = Some (app_res tl r).
Proof.
  induction fuel as [|fl IH]; intros ent nb bs r Hnb E; [done|]. cbn [walk] in *.
  pose proof (zlen_nonneg tl).
  destruct (16 <? h_e ent).
  - destruct (h_e ent =? 99); [by injection E as <-|]. case_decide as Hc; [|done].
    destruct Hc as (Hb&He&Hl).
    assert (drop (Z.to_nat (h_b ent)) (bs ++ tl) = drop (Z.to_nat (h_b ent)) bs ++ tl) as ->
      by (apply drop_app_le; unfold zlen in *; lia).
    rewrite decide_True by (rewrite zlen_app; lia).
    rewrite take_app_le by (unfold zlen in Hl; lia).
    destruct (h_v ent) as [|t]; [done|]. destruct (entry_at _ _ _); [|done]. by apply IH.
  - case_decide as Hc; [|done]. injection E as <-.
    rewrite drop_app_le by (unfold zlen in *; lia). done.
Qed.

Lemma decode_app h t nb bs tl r :
  decode h t nb bs = Some r → decode h t nb (bs ++ tl) = Some (app_res tl r).
Proof.
  unfold decode. destruct t as [t|]; [|done]. case_decide as Hc; [|done]. destruct Hc as [Hnb Hl].
  pose proof (zlen_nonneg tl). rewrite decide_True by (rewrite zlen_app; lia).
  rewrite take_app_le by (unfold zlen in Hl; lia).
  destruct (entry_at _ _ _); [|done]. by apply walk_app.
Qed.

(** A code that looks at [n] bits is decoded if all strings of [n] bits are. *)
Definition decodes_at (h : list htable) (t : option Z) (nb : Z)
    (code : list bool → option (Z * list bool)) (valid : Z → bool) (entry : Z → Z * hval)
    (p : list bool) : bool :=
  match code p with
  | Some (v, r) =>
      negb (valid v) ||
      match decode h t nb p with
      | Some (Some (ent, r')) =>
          bool_decide (r = r') && (h_e ent =? (entry v).1) &&
          match h_v ent, (entry v).2 with VN x, VN y => x =? y | _, _ => false end
      | _ => false
      end
  | None => false
  end.

Lemma decodes_check h t nb n ahead code valid entry :
  Z.of_nat n <= ahead →
  (∀ p tl, length p = n → code (p ++ tl) = app_res tl (code p)) →
  forallb (decodes_at h t nb code valid entry) (all_bits n) = true →
  decodes h t nb ahead code valid entry.
Proof.
  intros Hn Hcode Hall bs v rest Hl Hc Hv. rewrite <- (take_drop n bs) in Hc |- *.
  set (p := take n bs) in *. set (tl := drop n bs) in *.
  assert (length p = n) as Hp by (subst p; rewrite length_take; unfold zlen in Hl; lia).
  rewrite Hcode in Hc by done.
  rewrite forallb_forall in Hall. specialize (Hall p). unfold decodes_at in Hall.
  destruct (code p) as [[v' r]|]; [|done]. cbn in Hc. injection Hc as <- <-.
  rewrite Hv in Hall. cbn [negb orb] in Hall.
  destruct (decode h t nb p) as [[[ent r']|]|] eqn:Ed.
  - specialize (Hall ltac:(by apply list_elem_of_In, all_bits_complete)).
    apply andb_true_iff in Hall as [[->%bool_decide_eq_true He%Z.eqb_eq]%andb_true_iff Hhv].
    exists ent. rewrite (decode_app _ _ _ _ _ _ Ed). split; [done|].
    destruct (h_v ent) as [x|], (entry v') as [ev [y|]]; cbn in *; try done.
    apply Z.eqb_eq in Hhv as ->. by rewrite He.
  - by specialize (Hall ltac:(by apply list_elem_of_In, all_bits_complete)).
  - by specialize (Hall ltac:(by apply list_elem_of_In, all_bits_complete)).
Qed.

Lemma fixed_lit_app p tl : length p = 9%nat → fixed_lit (p ++ tl) = app_res tl (fixed_lit p).
Proof.
  intros Hp. unfold fixed_lit. pose proof (zlen_nonneg tl).
  assert (zlen p = 9) as Hz by (unfold zlen; lia).
  rewrite (decide_True (P := 9 <= zlen (p ++ tl))) by (rewrite zlen_app; lia).
  rewrite decide_True by lia. rewrite !take_app_le, !drop_app_le by lia.
  repeat case_match; done.
Qed.

Lemma fixed_dist_app p tl : length p = 5%nat → fixed_dist (p ++ tl) = app_res tl (fixed_dist p).
Proof.
  intros Hp. unfold fixed_dist. pose proof (zlen_nonneg tl).
  assert (zlen p = 5) as Hz by (unfold zlen; lia).
  rewrite decide_True by (rewrite zlen_app; lia).
  rewrite decide_True by lia. by rewrite !take_app_le, !drop_app_le by lia.
Qed.

Definition build_result (r : result (ist refenv) (Z * option Z * Z)) : option (Z * option Z * Z * list htable) :=
  match r with Ret a s => Some (a, heap s) | _ => None end.

Definition lit_room : Z := 10840.
Definition dist_room : Z := 536.

Definition fixed_lit_heap : list htable := Eval vm_compute in
  match huft_build fixed_lengths 288 257 cplens cplext 7 (ghost lit_room) with
  | Ret _ s => heap s | _ => [] end.

Definition fixed_dist_heap : list htable := Eval vm_compute in
  match huft_build fixed_dist_lengths 30 0 cpdist cpdext 5 (ghost dist_room) with
  | Ret _ s => heap s | _ => [] end.

Lemma fixed_lit_build :
  ∃ g, huft_build fixed_lengths 288 257 cplens cplext 7 (ghost lit_room) = Ret (0, Some 0, 7) g ∧
    heap g = fixed_lit_heap ∧ re_room (env g) = 0.
Proof. eexists. split; [vm_compute; reflexivity|]. split; vm_compute; reflexivity. Qed.

Lemma fixed_dist_build :
  ∃ g, huft_build fixed_dist_lengths 30 0 cpdist cpdext 5 (ghost dist_room) = Ret (1, Some 0, 5) g ∧
    heap g = fixed_dist_heap ∧ re_room (env g) = 0.
Proof. eexists. split; [vm_compute; reflexivity|]. split; vm_compute; reflexivity. Qed.

Lemma fixed_lit_decodes : decodes fixed_lit_heap (Some 0) 7 24 fixed_lit lit_valid lit_entry.
Proof. apply (decodes_check _ _ _ 9); [lia|apply fixed_lit_app|]. vm_compute. reflexivity. Qed.

Lemma fixed_dist_decodes : decodes fixed_dist_heap (Some 0) 5 24 fixed_dist dist_valid dist_entry.
Proof. apply (decodes_check _ _ _ 5); [lia|apply fixed_dist_app|]. vm_compute. reflexivity. Qed.

Lemma fixed_lit_shrinks : shrinks fixed_lit.
Proof.
  intros bs v rest. unfold fixed_lit. case_decide; [|done].
  repeat case_match; intros [= <- <-]; unfold zlen; rewrite length_drop; lia.
Qed.

Lemma fixed_dist_shrinks : shrinks fixed_dist.
Proof.
  intros bs v rest. unfold fixed_dist. case_decide; [|done].
  intros [= <- <-]; unfold zlen; rewrite length_drop; lia.
Qed.

Section blocks_proofs.
Context {St : Type} `{HL : InflateLaws St}.

(** Between blocks: the input stands at [bs], [out] has been produced. *)
Definition at_block (full base : list Z) (s : ist St) (bs : list bool) (out : list Z) : Prop :=
  reads full s (bb s, bk s) bs ∧ bk s <= 15 ∧ win s base (outcnt (env s)) out ∧
  0 <= outcnt (env s) < WSIZE.

Lemma at_block_end full base s bs out bk' w' :
  reads full s bk' bs → snd bk' <= 15 → win s base w' out → w' < WSIZE →
  ∃ s', (put_wp w' ;;; put_globals bk' ;;; ret 0) s = Ret 0 s' ∧ at_block full base s' bs out ∧
    env_room (env s') = env_room (env s) ∧ heap s' = heap s.
Proof.
  intros Hr Hk Hwin Hw. eexists. split; [reflexivity|].
  unfold at_block. cbn [env bb bk heap]. rewrite outcnt_set, room_outcnt.
  rewrite <- surjective_pairing.
  split; [|done]. split.
  { eapply reads_ext; [done|cbn [env]; apply back_outcnt|cbn [env]; apply input_outcnt]. }
  split; [done|]. split.
  - eapply win_ext; [done|cbn [env]; apply window_outcnt|cbn [env]; apply output_outcnt].
  - destruct Hwin as [(_&?&_) _]. lia.
Qed.

Lemma inflate_codes_ok full base fuel lit dist tl td bl bd bs out rest out' s :
  shrinks lit → shrinks dist →
  decodes (heap s) tl bl 24 lit lit_valid lit_entry →
  decodes (heap s) td bd 24 dist dist_valid dist_entry →
  block_codes fuel lit dist bs out = Some (rest, out') → 24 <= zlen rest →
  at_block full base s bs out →
  ∃ s', inflate_codes fuel tl td bl bd s = Ret 0 s' ∧ at_block full base s' rest out' ∧
    env_room (env s') = env_room (env s) ∧ heap s' = heap s.
Proof.
  intros Hl Hd Hdl Hdd E H24 (Hr&Hk&Hwin&Hw).
  destruct (codes_loop_ok full base fuel lit dist tl td bl bd bs out rest out' s (bb s, bk s)
    (outcnt (env s)) Hl Hd Hdl Hdd E H24 Hr Hk Hwin ltac:(lia)) as (bk'&w'&s1&E1&(R1&R2&R3&R4&R5)).
  destruct (at_block_end full base s1 rest out' bk' w' R1 R2 R3 R4) as (s'&E'&Hat&Hrm&Hhp).
  exists s'. unfold inflate_codes, get_globals, get_wp. cbn [gets bind].
  rewrite (bind_Ret _ _ _ _ _ E1). destruct bk' as [b k]. split; [exact E'|]. split; [done|].
  destruct R5 as (?&?&?&_). split; congruence.
Qed.

(** *** Fixed blocks *)

Lemma at_block_frame full base s s' bs out :
  at_block full base s bs out → frame s s' → at_block full base s' bs out.
Proof.
  intros (Hr&Hk&Hwin&Hw) (Ei&Eb&Eo&Ew&Ec&Ebb&Ebk). unfold at_block. rewrite Ebb, Ebk, Ec.
  split; [by eapply reads_ext|]. split; [done|]. split; [by eapply win_ext|done].
Qed.

Lemma inflate_fixed_ok full base fuel bs out rest out' s :
  block_codes fuel fixed_lit fixed_dist bs out = Some (rest, out') → 24 <= zlen rest →
  at_block full base s bs out → lit_room + dist_room <= env_room (env s) →
  ∃ s', inflate_fixed fuel s = Ret 0 s' ∧ at_block full base s' rest out' ∧
    env_room (env s) - (lit_room + dist_room) <= env_room (env s').
Proof.
  intros E H24 Hat Hroom.
  destruct fixed_lit_build as (g1&G1&Gh1&Gr1). destruct fixed_dist_build as (g2&G2&Gh2&Gr2).
  destruct (build_anywhere lit_room (env_room (env s) - lit_room) _ _ _ _ _ _ _ _ _ _ s G1)
    as (s1&E1&Hh1&Hr1&Hf1); [unfold dist_room in *; lia|lia|].
  rewrite Gh1 in Hh1. rewrite Gr1 in Hr1.
  destruct (build_anywhere dist_room (env_room (env s) - lit_room - dist_room) _ _ _ _ _ _ _ _ _ _ s1 G2)
    as (s2&E2&Hh2&Hr2&Hf2); [lia|lia|].
  rewrite Gh2 in Hh2. rewrite Gr2 in Hr2.
  set (tl := (λ t, t + zlen (heap s)) <$> Some 0) in *.
  set (td := (λ t, t + zlen (heap s1)) <$> Some 0) in *.
  assert (decodes (heap s2) tl 7 24 fixed_lit lit_valid lit_entry) as Dl.
  { rewrite Hh2, Hh1. apply decodes_more, decodes_shift; [apply lit_entry_shift|].
    apply fixed_lit_decodes. }
  assert (decodes (heap s2) td 5 24 fixed_dist dist_valid dist_entry) as Dd.
  { rewrite Hh2. apply decodes_shift; [apply dist_entry_shift|]. apply fixed_dist_decodes. }
  pose proof (at_block_frame _ _ _ _ _ _ Hat Hf1) as Hat1.
  pose proof (at_block_frame _ _ _ _ _ _ Hat1 Hf2) as Hat2.
  destruct (inflate_codes_ok full base fuel fixed_lit fixed_dist tl td 7 5 bs out rest out' s2
    fixed_lit_shrinks fixed_dist_shrinks Dl Dd E H24 Hat2) as (s3&E3&Hat3&Hr3&Hh3).
  exists s3. split; [|split; [done|lia]].
  unfold inflate_fixed. rewrite (bind_Ret _ _ _ _ _ E1). change (negb (0 =? 0)) with false. cbv iota.
  rewrite (bind_Ret _ _ _ _ _ E2). change (1 <? 1) with false. cbv iota.
  rewrite (bind_Ret _ _ _ _ _ E3). change (negb (0 =? 0)) with false. cbv iota.
  assert (length (heap s3) = (length (heap s) + 105 + 1)%nat) as Hlen.
  { rewrite Hh3, Hh2, Hh1. unfold shift_heap. by rewrite !length_app, !length_map. }
  assert (huft_free (S (length (heap s3))) tl s3 = Ret tt s3) as Hfl.
  { apply huft_free_ok. rewrite Hlen, Hh3, Hh2, Hh1.
    replace (S (length (heap s) + 105 + 1)) with (106 + (length (heap s) + 1))%nat by lia.
    apply free_walk_more, free_walk_shift. vm_compute. reflexivity. }
  assert (huft_free (S (length (heap s3))) td s3 = Ret tt s3) as Hfd.
  { apply huft_free_ok. rewrite Hlen, Hh3, Hh2.
    replace (S (length (heap s) + 105 + 1)) with (2 + (length (heap s) + 105))%nat by lia.
    rewrite <- (app_nil_r (heap s1 ++ _)). apply free_walk_more, free_walk_shift. vm_compute. reflexivity. }
  unfold free_tables. rewrite !bind_bind. cbn [gets]. unfold bind at 1, gets at 1.
  rewrite (bind_Ret _ _ _ _ _ Hfl), bind_bind. unfold bind at 1, gets at 1.
  by rewrite (bind_Ret _ _ _ _ _ Hfd).
Qed.

(** *** Stored blocks *)

Lemma read_bytes_length n : ∀ bs l rest, read_bytes n bs = Some (l, rest) → zlen rest = zlen bs - 8 * Z.of_nat n.
Proof.
  induction n as [|n IH]; intros bs l rest E; cbn [read_bytes] in E.
  - injection E as <- <-. lia.
  - destruct (read_num 8 bs) as [[c bs1]|] eqn:E1; [|done]. apply read_num_Some in E1; [|lia].
    destruct (read_bytes n bs1) as [[l1 bs2]|] eqn:E2; [|done]. injection E as <- <-.
    apply IH in E2. lia.
Qed.

Lemma stored_bytes_ok full base n : ∀ bs l rest s bk w out,
  read_bytes n bs = Some (l, rest) → reads full s bk bs → snd bk <= 15 →
  win s base w out → w < WSIZE →
  ∃ bk' w' s', stored_bytes n bk w s = Ret (bk', w') s' ∧ reads full s' bk' rest ∧ snd bk' <= 15 ∧
    win s' base w' (out ++ l) ∧ w' < WSIZE ∧ stays s s'.
Proof.
  induction n as [|n IH]; intros bs l rest s bk w out E Hr Hk Hwin Hw; cbn [read_bytes stored_bytes] in *.
  - injection E as <- <-. rewrite app_nil_r. by exists bk, w, s.
  - destruct (read_num 8 bs) as [[c bs1]|] eqn:E1; [|done].
    destruct (read_bytes n bs1) as [[l1 bs2]|] eqn:E2; [|done]. injection E as <- <-.
    apply read_num_Some in E1 as (Hle&Ec&->&Hc&_); [|lia].
    destruct (needbits_ok full 8 s bk bs Hr) as (bk2&s2&E3&Hs2&Hr2&Hk2&Hk2'); [lia..|].
    rewrite (bind_Ret _ _ _ _ _ E3).
    destruct (put_byte_ok s2 base w out (fst bk2) (win_same _ _ _ _ _ Hwin Hs2) Hw)
      as (s3&E4&Hk3&Hwin3).
    rewrite (bind_Ret _ _ _ _ _ E4).
    assert (u8 (fst bk2) = c) as Eu.
    { pose proof (lowbits_ok full 8 s2 bk2 bs Hr2 ltac:(lia) ltac:(lia)) as Elow.
      rewrite <- Ec in Elow. rewrite <- Elow. unfold lowbits.
      rewrite Z.land_ones by lia. unfold wrap. rewrite <- Znumtheory.Zmod_div_mod; [done|lia|lia|].
      exists (2 ^ 24). reflexivity. }
    rewrite Eu in Hwin3.
    destruct (flush_full_ok s3 base (w + 1) (out ++ [c]) Hwin3) as (w4&s4&E5&Hk4&Hwin4&Hw4).
    rewrite (bind_Ret _ _ _ _ _ E5).
    assert (keeps s2 s4) as Hk24 by (by etransitivity).
    pose proof (reads_keeps _ _ _ _ _ Hr2 Hk24) as Hr4.
    destruct (dumpbits_ok full 8 s4 bk2 bs Hr4) as [Hr5 Hk5]; [lia|].
    destruct (IH _ _ _ s4 (dumpbits 8 bk2) w4 (out ++ [c]) E2 Hr5) as (bk'&w'&s'&E'&R1&R2&R3&R4&R5);
      [lia|done|done|].
    exists bk', w', s'. split; [done|]. split; [done|]. split; [done|].
    split; [by rewrite <- app_assoc in R3|]. split; [done|].
    etransitivity; [by apply same_stays|]. etransitivity; [by apply keeps_stays|done].
Qed.

Lemma complement_16 b : u32 (Z.land (Z.lnot b) 0xffff) = 65535 - Z.land (u32 b) 0xffff.
Proof.
  change 0xffff with (Z.ones 16). rewrite !Z.land_ones by lia.
  assert (Z.lnot b mod 2 ^ 16 = 65535 - b mod 2 ^ 16) as ->.
  { unfold Z.lnot. symmetry. apply (Z.mod_unique _ _ (- (b / 2 ^ 16) - 1)).
    - left. pose proof (Z.mod_pos_bound b (2 ^ 16)). change (2 ^ 16) with 65536 in *. lia.
    - pose proof (Z.div_mod b (2 ^ 16)). change (2 ^ 16) with 65536 in *. lia. }
  pose proof (Z.mod_pos_bound b (2 ^ 16) ltac:(lia)). change (2 ^ 16) with 65536 in *.
  rewrite (wrap_small 32) by lia. unfold wrap.
  rewrite <- (Znumtheory.Zmod_div_mod 65536 (2 ^ 32)); [done|lia|lia|].
  exists (2 ^ 16). reflexivity.
Qed.

Lemma inflate_stored_ok full base bs out rest out' s :
  stored_block bs out = Some (rest, out') → at_block full base s bs out →
  ∃ s', inflate_stored s = Ret 0 s' ∧ at_block full base s' rest out' ∧
    env_room (env s') = env_room (env s).
Proof.
  intros E (Hr&Hk&Hwin&Hw). unfold stored_block in E.
  destruct (read_num 16 (align bs)) as [[n bs1]|] eqn:E1; [|done].
  destruct (read_num 16 bs1) as [[m bs2]|] eqn:E2; [|done].
  destruct (Z.eqb_spec (n + m) 65535) as [Hnm|]; [|done].
  destruct (read_bytes (Z.to_nat n) bs2) as [[l bs3]|] eqn:E3; [|done]. injection E as <- <-.
  pose proof (reads_length _ _ _ _ Hr) as Hlen. cbn [snd] in Hlen.
  assert (Z.land (bk s) 7 = zlen bs mod 8) as Ek.
  { change 7 with (Z.ones 3). rewrite Z.land_ones by lia. change (2 ^ 3) with 8.
    rewrite Hlen, Z.mul_comm. symmetry. apply Z.mod_add. lia. }
  assert (0 <= bk s) as Hk0 by (destruct Hr as (_&_&_&?&_); cbn in *; lia).
  pose proof (Z.mod_le (bk s) 8 Hk0 ltac:(lia)) as Hmod.
  assert (zlen bs mod 8 = bk s mod 8) as Emod.
  { rewrite Hlen, Z.mul_comm. apply Z.mod_add. lia. }
  pose proof (Z.mod_pos_bound (bk s) 8 ltac:(lia)) as Hmod2.
  destruct (dumpbits_ok full (zlen bs mod 8) s (bb s, bk s) bs Hr) as [Hr1 Hk1]; [cbn [snd]; lia|].
  fold (align bs) in Hr1. cbn [snd] in Hk1.
  unfold inflate_stored, get_globals, get_wp. cbn [gets bind]. cbn [snd]. rewrite Ek.
  destruct (extra_bits_ok full 16 s _ (align bs) n bs1 Hr1) as (bk2&s2&F2&M2&Hs2&Hr2&Hk2);
    [lia|lia|done|].
  rewrite (bind_Ret _ _ _ _ _ F2).
  destruct (extra_bits_ok full 16 s2 _ bs1 m bs2 Hr2) as (bk3&s3&F3&M3&Hs3&Hr3&Hk3);
    [lia|lia|done|].
  rewrite (bind_Ret _ _ _ _ _ F3).
  assert (lowbits bk2 0xffff = n) as ->.
  { unfold masked in M2. cbn in M2. by injection M2. }
  assert (Z.land (u32 (fst bk3)) 0xffff = m) as Em.
  { unfold masked in M3. cbn in M3. by injection M3. }
  rewrite complement_16, Em. rewrite (proj2 (Z.eqb_eq n (65535 - m))) by lia. cbn [negb].
  pose proof (win_same _ _ _ _ _ (win_same _ _ _ _ _ Hwin Hs2) Hs3) as Hwin3.
  destruct (stored_bytes_ok full base (Z.to_nat n) bs2 l bs3 s3 _ _ out E3 Hr3 Hk3 Hwin3 ltac:(lia))
    as (bk4&w4&s4&F4&R1&R2&R3&R4&R5).
  rewrite (bind_Ret _ _ _ _ _ F4).
  destruct (at_block_end full base s4 bs3 (out ++ l) bk4 w4 R1 R2 R3 R4) as (s'&E'&Hat&Hrm&_).
  exists s'. split; [exact E'|]. split; [done|].
  destruct R5 as (_&_&Hr5&_). destruct Hs2 as (_&_&_&Hq2&_). destruct Hs3 as (_&_&_&Hq3&_). congruence.
Qed.

(** *** Blocks with their own codes *)

(** Memory for the three sets of tables. *)
Definition clens_room : Z := tree_room 7 19.
Definition own_lit_room : Z := tree_room 9 286.
Definition own_dist_room : Z := tree_room 6 30.
Definition dynamic_room : Z := clens_room + own_lit_room + own_dist_room.

Lemma tree_room_mono m n n' : 0 <= m <= 15 → n <= n' → tree_room m n <= tree_room m n'.
Proof.
  intros Hm Hn. unfold tree_room. pose proof (cost_mono (Z.min m (15 - m)) (Z.min m (15 - m)) ltac:(lia)). nia.
Qed.

(** From the lengths on. *)
Definition dynamic_codes (fuel : nat) (nl nd : Z) (ll : list Z) : M (ist St) Z :=
  let! ' (i, tl, bl) := huft_build ll nl 257 cplens cplext lbits in
  if negb (i =? 0) then
    (if i =? 1 then on_env (env_unzip_error unit "incomplete literal tree") ;;; free_tables tl
     else ret tt) ;;;
    ret i
  else
    let! ' (i, td, bd) := huft_build (drop (Z.to_nat nl) ll) nd 0 cpdist cpdext dbits in
    if negb (i =? 0) then
      (if i =? 1 then on_env (env_unzip_error unit "incomplete distance tree") ;;; free_tables td
       else ret tt) ;;;
      free_tables tl ;;;
      ret i
    else
      let! r := inflate_codes fuel tl td bl bd in
      if negb (r =? 0) then ret 1
      else
        free_tables tl ;;;
        free_tables td ;;;
        ret 0.

Lemma dynamic_codes_ok full base fuel nl nd ll lens bs out rest out' s :
  257 <= nl <= 286 → 1 <= nd <= 30 → zlen lens = nl + nd → take (Z.to_nat (nl + nd)) ll = lens → Forall (λ k, 0 <= k <= 15) lens →
  usable (take (Z.to_nat nl) lens) = true → usable (drop (Z.to_nat nl) lens) = true →
  block_codes fuel (canon (take (Z.to_nat nl) lens)) (canon (drop (Z.to_nat nl) lens)) bs out = Some (rest, out') → 24 <= zlen rest →
  at_block full base s bs out → own_lit_room + own_dist_room <= env_room (env s) →
  ∃ s', dynamic_codes fuel nl nd ll s = Ret 0 s' ∧ at_block full base s' rest out' ∧
    env_room (env s) - (own_lit_room + own_dist_room) <= env_room (env s').
Proof.
  intros Hnl Hnd Hz Ht HF Hul Hud E H24 Hat Hroom.
  assert (0 <= own_dist_room ∧ 0 <= own_lit_room) as [Hr1 Hr2] by (split; vm_compute; discriminate).
  assert (zlen ll >= nl + nd) as Hzll by (rewrite <- Ht, zlen_take in Hz; lia).
  assert (aslice ll 0 nl = Some (take (Z.to_nat nl) lens)) as Esl.
  { unfold aslice. rewrite decide_True by lia. rewrite <- Ht, take_take, Nat.min_l by lia. done. }
  assert (aslice (drop (Z.to_nat nl) ll) 0 nd = Some (drop (Z.to_nat nl) lens)) as Esd.
  { unfold aslice. rewrite decide_True by (rewrite zlen_drop; lia). rewrite <- Ht, skipn_firstn_comm. do 2 f_equal. lia. }
  assert (Forall (λ k, 0 <= k <= 15) (take (Z.to_nat nl) lens) ∧ Forall (λ k, 0 <= k <= 15) (drop (Z.to_nat nl) lens)) as [HFl HFd].
  { rewrite <- (take_drop (Z.to_nat nl) lens) in HF. by apply list.Forall_app in HF. }
  destruct (build_tree ll nl 257 cplens cplext lbits (take (Z.to_nat nl) lens) lit_entry lit_valid own_lit_room s) as (tl&bl&s1&h1&E1&Hf1&Hm1&_&Hh1&Dl&_&Fl);
    [rewrite zlen_take; lia|lia|unfold lbits; lia|unfold lbits; lia|exact HFl|apply lit_entries; lia|apply lit_entry_shift|exact Esl|done|
     apply tree_room_mono; lia|lia|].
  destruct (build_tree (drop (Z.to_nat nl) ll) nd 0 cpdist cpdext dbits (drop (Z.to_nat nl) lens) dist_entry dist_valid own_dist_room s1)
    as (td&bd&s2&h2&E2&Hf2&Hm2&_&Hh2&Dd&_&Fd);
    [rewrite zlen_drop; lia|lia|unfold dbits; lia|unfold dbits; lia|exact HFd|apply dist_entries; lia|apply dist_entry_shift|exact Esd|done|
     apply tree_room_mono; lia|lia|].
  pose proof (at_block_frame _ _ _ _ _ _ (at_block_frame _ _ _ _ _ _ Hat Hf1) Hf2) as Hat2.
  assert (decodes (heap s2) tl bl 24 (canon (take (Z.to_nat nl) lens)) lit_valid lit_entry) as Dl2 by (rewrite Hh2; apply Dl).
  assert (decodes (heap s2) td bd 24 (canon (drop (Z.to_nat nl) lens)) dist_valid dist_entry) as Dd2 by (rewrite <- (app_nil_r (heap s2)); apply Dd).
  destruct (inflate_codes_ok full base fuel (canon (take (Z.to_nat nl) lens)) (canon (drop (Z.to_nat nl) lens)) tl td bl bd bs out rest out' s2
    (canon_shrinks _) (canon_shrinks _) Dl2 Dd2 E H24 Hat2)
    as (s3&E3&Hat3&Hm3&Hh3).
  exists s3. split; [|split; [done|lia]]. unfold dynamic_codes. rewrite (bind_Ret _ _ _ _ _ E1). change (negb (0 =? 0)) with false. cbv iota.
  rewrite (bind_Ret _ _ _ _ _ E2). change (negb (0 =? 0)) with false. cbv iota.
  rewrite (bind_Ret _ _ _ _ _ E3). change (negb (0 =? 0)) with false. cbv iota.
  rewrite (bind_Ret _ _ _ _ _ (Fl s3 h2 ltac:(by rewrite Hh3, Hh2))).
  by rewrite (bind_Ret _ _ _ _ _ (Fd s3 [] ltac:(by rewrite Hh3, app_nil_r))).
Qed.

Lemma masked_lowbits n bk (s : ist St) v :
  0 <= n <= 16 → masked n bk s = Ret v s → lowbits bk (Z.ones n) = v.
Proof.
  intros Hn. unfold masked. rewrite mask_bits_ok by lia. cbn [lift_opt]. rewrite bind_ret.
  by intros [= ->].
Qed.

(** The numbers of a header. *)
Lemma header_bits_ok full n s bk bs v rest mask : reads full s bk bs → snd bk <= 15 → 0 <= n <= 16 → mask = Z.ones n →
  read_num n bs = Some (v, rest) →
  ∃ bk' s', needbits n bk s = Ret bk' s' ∧ lowbits bk' mask = v ∧ same_but_input s s' ∧
    reads full s' (dumpbits n bk') rest ∧ snd (dumpbits n bk') <= 15.
Proof.
  intros Hr Hk Hn -> E. destruct (extra_bits_ok full n s bk bs v rest Hr Hk Hn E) as (bk'&s'&F&M&Hs&Hr'&Hk').
  apply masked_lowbits in M; [|done]. by exists bk', s'.
Qed.

Lemma at_block_put full base s s' bk bs bs' out : at_block full base s bs out →
  window (env s') = window (env s) → outcnt (env s') = outcnt (env s) → env_output (env s') = env_output (env s) →
  reads full s' bk bs' → snd bk <= 15 →
  at_block full base (IState (env s') (fst bk) (snd bk) (hufts s') (heap s')) bs' out.
Proof.
  intros (_&_&Hwin&Hw) Ew Ec Eo Hr Hk. unfold at_block. cbn [env bb Huft.bk]. rewrite <- surjective_pairing, Ec.
  split; [by eapply reads_ext|]. split; [done|]. split; [by eapply win_ext|done].
Qed.

Lemma inflate_dynamic_ok full base fuel bs out rest out' s :
  dynamic_block fuel bs out = Some (rest, out') → 24 <= zlen rest → at_block full base s bs out → dynamic_room <= env_room (env s) →
  ∃ s', inflate_dynamic fuel s = Ret 0 s' ∧ at_block full base s' rest out' ∧ env_room (env s) - dynamic_room <= env_room (env s').
Proof.
  intros E H24 Hat Hroom. pose proof Hat as (Hr&Hk&_). unfold dynamic_block in E.
  destruct (read_trees bs) as [[[tll tdl] bs5]|] eqn:Et; [|done]. cbn [mbind option_bind] in E.
  destruct (usable tll) eqn:Eul; [|done]. destruct (usable tdl) eqn:Eud; [|done]. cbn [andb] in E.
  pose proof (block_codes_shrinks _ _ _ _ _ _ _ (canon_shrinks _) (canon_shrinks _) E) as Hsh.
  apply read_trees_Some in Et as (hlit&hdist&hclen&bs1&bs2&bs3&l&bs4&lens&E1&E2&E3&Hhl&Hhd&Hhc&E4&Et). cbv zeta in Et.
  set (clens := put_clens clen_order l (replicate 19 0)) in *. destruct Et as (Euc&Hzc&HFc&E5&->&->&Hzl&HF&Hz45&_).
  assert (0 <= clens_room ∧ 0 <= own_dist_room ∧ 0 <= own_lit_room) as (Hr0&Hr1&Hr2) by (split; [|split]; vm_compute; discriminate).
  unfold inflate_dynamic, get_globals. cbn [gets bind].
  destruct (header_bits_ok full 5 s (bb s, bk s) bs hlit bs1 0x1f Hr Hk ltac:(lia) eq_refl E1) as (k1&s1&F1&L1&S1&R1&K1). rewrite (bind_Ret _ _ _ _ _ F1), L1.
  destruct (header_bits_ok full 5 s1 _ bs1 hdist bs2 0x1f R1 K1 ltac:(lia) eq_refl E2) as (k2&s2&F2&L2&S2&R2&K2). rewrite (bind_Ret _ _ _ _ _ F2), L2.
  destruct (header_bits_ok full 4 s2 _ bs2 hclen bs3 0xf R2 K2 ltac:(lia) eq_refl E3) as (k3&s3&F3&L3&S3&R3&K3). rewrite (bind_Ret _ _ _ _ _ F3), L3.
  cbv zeta. rewrite (proj2 (Z.ltb_ge 286 _)), (proj2 (Z.ltb_ge 30 _)) by lia. cbn [orb].
  destruct (read_border_ok full border (4 + hclen) (replicate 316 0) (dumpbits 4 k3) s3 bs3 l bs4) as (ll4&k4&s4&F4&S4&R4&K4&Hz4&Ht4);
    [by apply (bool_decide_unpack _); vm_compute|done|change (zlen border) with 19; lia|done|done|done|].
  rewrite (bind_Ret _ _ _ _ _ F4). assert (same_but_input s s4) as S04 by (do 3 (etransitivity; [eassumption|]); done).
  assert (env_room (env s4) = env_room (env s)) as Hrm4 by apply S04.
  assert (aslice ll4 0 19 = Some clens) as Esl.
  { unfold aslice. rewrite decide_True by lia. change (Z.to_nat 0) with 0%nat. change (Z.to_nat 19) with 19%nat. by rewrite drop_0, Ht4. }
  unfold dynamic_room in *.
  destruct (build_tree ll4 19 19 [] [] 7 clens clen_entry (λ _, true) clens_room s4) as (tl&bl&s5&h5&F5&Hf5&Hm5&Hbl&Hh5&_&Hflat&Fr5);
    [done|lia|lia|lia|eapply List.Forall_impl; [|exact HFc]; intros x Hx; cbv beta in Hx; lia|by apply clen_entries|done|exact Esl|done|reflexivity|lia|].
  rewrite (bind_Ret _ _ _ _ _ F5). change (negb (0 =? 0)) with false. cbv iota.
  assert (Forall (λ k, k <= 7) clens) as HF7 by (eapply List.Forall_impl; [|exact HFc]; intros x Hx; cbv beta in Hx; lia).
  assert (reads full s5 k4 bs4) as R5 by (destruct Hf5 as (Ei&Eb&_); by eapply reads_ext).
  destruct (read_lengths_ok full tl bl (257 + hlit + (1 + hdist)) (canon clens) lens bs5 bs4 ll4 k4 s5 (Hflat HF7)
    (canon_lengths _ Hzc) (canon_shrinks _) Hbl ltac:(lia) ltac:(lia) Hz4 R5 K4 E5) as (ll6&k6&s6&F6&Hz6&Ht6&S6&R6&K6).
  rewrite (bind_Ret _ _ _ _ _ F6). assert (heap s6 = heap s5 ++ []) as Hh6 by (rewrite app_nil_r; apply S6).
  rewrite (bind_Ret _ _ _ _ _ (Fr5 s6 [] Hh6)). unfold put_globals, modify. unfold bind at 1.
  set (s7 := IState (env s6) (fst k6) (snd k6) (hufts s6) (heap s6)).
  assert (at_block full base s7 bs5 out) as Hat7.
  { destruct S04 as (W1&C1&O1&_), Hf5 as (_&_&O2&W2&C2&_), S6 as (W3&C3&O3&_). apply (at_block_put full base s s6 k6 bs bs5 out Hat); try done; congruence. }
  destruct (dynamic_codes_ok full base fuel (257 + hlit) (1 + hdist) ll6 lens bs5 out rest out' s7) as (s8&F8&Hat8&Hm8); try done; try lia.
  { subst s7. cbn [env]. destruct S6 as (_&_&_&Hrm6&_). lia. }
  exists s8. split; [exact F8|]. split; [done|]. subst s7. cbn [env] in Hm8. destruct S6 as (_&_&_&Hrm6&_). lia.
Qed.

(** *** A block, and the stream *)

Definition block_room : Z := dynamic_room.

Lemma block_room_fixed : 0 <= lit_room + dist_room <= block_room.
Proof. split; vm_compute; discriminate. Qed.

Lemma inflate_block_ok full base fuel e t bs bs1 bs2 out rest out' s :
  at_block full base s bs out → read_num 1 bs = Some (e, bs1) → read_num 2 bs1 = Some (t, bs2) →
  block_body fuel t bs2 out = Some (rest, out') → 24 <= zlen rest →
  block_room <= env_room (env s) →
  ∃ s', inflate_block fuel s = Ret (0, e) s' ∧ at_block full base s' rest out' ∧
    env_room (env s) - block_room <= env_room (env s').
Proof.
  intros (Hr&Hk&Hwin&Hw) E1 E2 Eb H24 Hroom. unfold inflate_block, get_globals. cbn [gets bind].
  destruct (extra_bits_ok full 1 s _ bs e bs1 Hr) as (bk2&s2&F2&M2&Hs2&Hr2&Hk2); [done|lia|done|].
  rewrite (bind_Ret _ _ _ _ _ F2).
  destruct (extra_bits_ok full 2 s2 _ bs1 t bs2 Hr2) as (bk3&s3&F3&M3&Hs3&Hr3&Hk3); [done|lia|done|].
  rewrite (bind_Ret _ _ _ _ _ F3).
  apply masked_lowbits in M2; [|lia]. apply masked_lowbits in M3; [|lia].
  change (Z.ones 1) with 1 in M2. change (Z.ones 2) with 3 in M3. rewrite M2, M3.
  set (s4 := IState (env s3) (fst (dumpbits 2 bk3)) (snd (dumpbits 2 bk3)) (hufts s3) (heap s3)).
  assert (at_block full base s4 bs2 out) as Hat4.
  { pose proof (win_same _ _ _ _ _ (win_same _ _ _ _ _ Hwin Hs2) Hs3) as Hwin3.
    destruct Hs2 as (_&Hc2&_), Hs3 as (_&Hc3&_). unfold at_block. subst s4. cbn [env bb bk].
    rewrite <- surjective_pairing. rewrite Hc3, Hc2. split; [by eapply reads_ext|].
    split; [done|]. split; [by eapply win_ext|done]. }
  assert (env_room (env s4) = env_room (env s)) as Hrm4.
  { destruct Hs2 as (_&_&_&Hc2&_), Hs3 as (_&_&_&Hc3&_). subst s4. cbn [env]. congruence. }
  assert (∃ s', (if t =? 2 then inflate_dynamic fuel else if t =? 0 then inflate_stored
      else if t =? 1 then inflate_fixed fuel else ret 2) s4 = Ret 0 s' ∧
    at_block full base s' rest out' ∧ env_room (env s) - block_room <= env_room (env s'))
    as (s'&F4&Hat'&Hrm').
  { pose proof block_room_fixed as Hfix. unfold block_body in Eb. destruct (Z.eqb_spec t 0) as [->|].
    - destruct (inflate_stored_ok full base bs2 out rest out' s4 Eb Hat4) as (s'&F4&?&?).
      exists s'. split; [exact F4|]. split; [done|]. lia.
    - destruct (Z.eqb_spec t 1) as [->|].
      + destruct (inflate_fixed_ok full base fuel bs2 out rest out' s4 Eb H24 Hat4) as (s'&F4&?&?); [lia|].
        exists s'. split; [exact F4|]. split; [done|]. lia.
      + destruct (Z.eqb_spec t 2) as [->|]; [|done].
        destruct (inflate_dynamic_ok full base fuel bs2 out rest out' s4 Eb H24 Hat4) as (s'&F4&?&?); [unfold block_room in *; lia|].
        exists s'. split; [exact F4|]. split; [done|]. unfold block_room. lia. }
  exists s'. split; [|done]. unfold put_globals, modify. unfold bind at 1. fold s4.
  by rewrite (bind_Ret _ _ _ _ _ F4).
Qed.

Lemma at_block_hufts full base s bs out n :
  at_block full base s bs out → at_block full base (IState (env s) (bb s) (bk s) n (heap s)) bs out.
Proof. done. Qed.

Lemma stream_shrinks n fuel : ∀ bs out rest out',
  stream n fuel bs out = Some (rest, out') → zlen rest <= zlen bs.
Proof.
  induction n as [|n IH]; intros bs out rest out' E; [done|]. cbn [stream] in E.
  destruct (read_num 1 bs) as [[e bs1]|] eqn:E1; [|done]. apply read_num_Some in E1; [|lia].
  destruct (read_num 2 bs1) as [[t bs2]|] eqn:E2; [|done]. apply read_num_Some in E2; [|lia].
  destruct (block_body fuel t bs2 out) as [[bs3 out3]|] eqn:Eb; [|done].
  assert (zlen bs3 <= zlen bs2) as Hs3.
  { unfold block_body in Eb. destruct (t =? 0).
    - unfold stored_block in Eb. destruct (read_num 16 (align bs2)) as [[a b1]|] eqn:F1; [|done].
      destruct (read_num 16 b1) as [[c b2]|] eqn:F2; [|done]. destruct (_ =? _); [|done].
      destruct (read_bytes _ b2) as [[l b3]|] eqn:F3; [|done]. injection Eb as <- <-.
      apply read_num_Some in F1; [|lia]. apply read_num_Some in F2; [|lia].
      apply read_bytes_length in F3. unfold align in F1. rewrite zlen_drop in F1.
      pose proof (Z.mod_pos_bound (zlen bs2) 8). pose proof (zlen_nonneg bs2). lia.
    - destruct (t =? 1); [by eapply block_codes_shrinks in Eb; [|apply fixed_lit_shrinks|apply fixed_dist_shrinks]|].
      destruct (t =? 2); [|done]. by eapply dynamic_block_shrinks. }
  destruct (e =? 0).
  - apply IH in E. lia.
  - injection E as <- <-. lia.
Qed.

Lemma inflate_blocks_ok full base n : ∀ fuel fuel' bs out rest out' s,
  stream n fuel bs out = Some (rest, out') → (n <= fuel')%nat → 24 <= zlen rest →
  at_block full base s bs out → block_room * Z.of_nat n <= env_room (env s) →
  ∃ s', loop fuel' (λ _ : unit,
      set_hufts 0 ;;;
      let! ' (r, e) := inflate_block fuel in
      ret (if negb (r =? 0) then inr r else if e =? 0 then inl tt else inr 0)) tt s = Ret 0 s' ∧
    at_block full base s' rest out'.
Proof.
  induction n as [|n IH]; intros fuel fuel' bs out rest out' s E Hf H24 Hat Hroom; [done|].
  destruct fuel' as [|fuel']; [lia|]. pose proof (stream_shrinks (S n) fuel _ _ _ _ E) as Hsh0.
  cbn [stream] in E.
  destruct (read_num 1 bs) as [[e bs1]|] eqn:E1; [|done].
  destruct (read_num 2 bs1) as [[t bs2]|] eqn:E2; [|done].
  destruct (block_body fuel t bs2 out) as [[bs3 out3]|] eqn:Eb; [|done].
  assert (24 <= zlen bs3) as H24'.
  { destruct (e =? 0); [apply stream_shrinks in E; lia|by injection E as -> ->]. }
  apply (at_block_hufts _ _ _ _ _ 0) in Hat.
  destruct (inflate_block_ok full base fuel e t bs bs1 bs2 out bs3 out3 _ Hat E1 E2 Eb H24')
    as (s1&F1&Hat1&Hr1); [cbn [env]; pose proof block_room_fixed; nia|].
  cbn [env] in Hr1. destruct (e =? 0) eqn:Ee.
  - destruct (IH fuel fuel' bs3 out3 rest out' s1 E) as (s'&F'&Hat'); [lia|done|done|lia|].
    exists s'. split; [|done]. rewrite (loop_step _ _ _ _ tt s1); [done|].
    unfold set_hufts, modify. unfold bind at 1. rewrite (bind_Ret _ _ _ _ _ F1). by rewrite Ee.
  - injection E as <- <-. exists s1. split; [|done]. apply loop_exit.
    unfold set_hufts, modify. unfold bind at 1. rewrite (bind_Ret _ _ _ _ _ F1). by rewrite Ee.
Qed.

(** *** Giving the lookahead back *)

Lemma undo_loop_ok rest : ∀ fuel k s used zb,
  fbits (rev (env_back (env s))) = used ++ zb → zlen zb = k →
  zb ++ fbits (env_input (env s)) = rest → (Z.to_nat k < fuel)%nat →
  ∃ s', loop fuel (λ k,
      if 8 <=? k then on_env unget_byte ;;; ret (inl (k - 8))
      else
        modify (λ s, IState (env s) (bb s) k (hufts s) (heap s)) ;;;
        ret (inr tt)) k s = Ret tt s' ∧
    fbits (env_input (env s')) = align rest ∧
    env_output (env s') = env_output (env s) ∧ window (env s') = window (env s) ∧
    outcnt (env s') = outcnt (env s).
Proof.
  induction fuel as [|fuel IH]; intros k s used zb Hu Hz Hrest Hf; [lia|].
  pose proof (zlen_nonneg zb) as Hz0. destruct (Z.leb_spec 8 k) as [H8|H8].
  - destruct (env_back (env s)) as [|c back] eqn:Eb.
    { exfalso. cbn in Hu. apply (f_equal length) in Hu. rewrite length_app in Hu. unfold zlen in *. cbn in Hu. lia. }
    destruct (unget_byte_ok (env s) c back Eb) as (e&F&Ei&Ebk&Eo&Ew&Ec&_).
    apply (on_env_Ret _ s) in F. set (s1 := IState e _ _ _ _) in F.
    set (zb' := take (Z.to_nat (k - 8)) zb).
    assert (used ++ zb' = fbits (rev back) ∧ drop (Z.to_nat (k - 8)) zb = zbits 8 c) as [Hu' Hd].
    { cbn [rev] in Hu. rewrite fbits_app in Hu. unfold fbits at 2 in Hu. cbn [map concat] in Hu.
      rewrite app_nil_r in Hu. rewrite <- (take_drop (Z.to_nat (k - 8)) zb), app_assoc in Hu.
      symmetry in Hu. apply app_inj_2 in Hu; [done|].
      rewrite length_drop, length_zbits. unfold zlen in *. lia. }
    destruct (IH (k - 8) s1 used zb') as (s'&F'&R1&R2&R3&R4).
    + subst s1. cbn [env]. by rewrite Ebk, Hu'.
    + subst zb'. rewrite zlen_take. lia.
    + subst s1. cbn [env]. rewrite Ei, fbits_cons, <- Hd, <- Hrest. subst zb'.
      rewrite app_assoc. by rewrite take_drop.
    + lia.
    + exists s'. rewrite (loop_step _ _ _ _ (k - 8) s1).
      * subst s1. cbn [env] in *. split; [done|]. split; [done|]. split; [congruence|]. split; congruence.
      * rewrite (proj2 (Z.leb_le 8 k)) by lia. by rewrite (bind_Ret _ _ _ _ _ F).
  - eexists. rewrite (loop_exit _ _ _ _ tt (IState (env s) (bb s) k (hufts s) (heap s))).
    + split; [done|]. cbn [env]. split; [|done]. unfold align.
      assert (zlen rest mod 8 = k) as ->.
      { rewrite <- Hrest, zlen_app. unfold zlen at 2. rewrite length_fbits, Nat2Z.inj_mul.
        change (Z.of_nat 8) with 8. rewrite (Z.mul_comm 8), Z.mod_add by lia.
        rewrite Hz. apply Z.mod_small. lia. }
      rewrite <- Hrest, drop_app_ge by (unfold zlen in *; lia).
      replace (Z.to_nat k - length zb)%nat with 0%nat by (unfold zlen in *; lia). done.
    + by rewrite (proj2 (Z.leb_gt 8 k)) by lia.
Qed.

Lemma inflate_ok n fuel s rest out :
  zlen (window (env s)) = WSIZE → Forall is_byte (env_input (env s)) →
  stream n fuel (fbits (env_input (env s))) [] = Some (rest, out) → (n <= fuel)%nat →
  24 <= zlen rest → block_room * Z.of_nat n <= env_room (env s) → env_back (env s) = [] →
  ∃ s', inflate fuel s = Ret 0 s' ∧
    env_output (env s') = env_output (env s) ++ out ∧
    fbits (env_input (env s')) = align rest.
Proof.
  intros Hwz HF E Hn H24 Hroom Hback. unfold inflate.
  set (s1 := IState (set_outcnt 0 (env s)) 0 0 (hufts s) (heap s)).
  assert (at_block (env_input (env s)) (env_output (env s)) s1 (fbits (env_input (env s))) []) as Hat.
  { unfold at_block, reads, win, hist. subst s1. cbn [env bb bk fst snd].
    rewrite input_outcnt, back_outcnt, window_outcnt, output_outcnt, outcnt_set, Hback.
    split.
    { split; [done|]. split; [done|]. split; [cbn; lia|]. split; [lia|]. split; [done|]. by exists []. }
    split; [lia|]. split; [|unfold WSIZE; lia]. split; [|done]. split; [done|].
    split; [unfold WSIZE; lia|]. intros dist Hd Hdo. change (zlen []) with 0 in Hdo. lia. }
  assert (block_room * Z.of_nat n <= env_room (env s1)) as Hroom1
    by (subst s1; cbn [env]; by rewrite room_outcnt).
  destruct (inflate_blocks_ok _ _ n fuel fuel _ _ _ _ s1 E Hn H24 Hat Hroom1) as (s2&F2&(Hr&Hk&Hwin&Hw)).
  pose proof Hr as (_&_&_&Hk0&Hbs&used&Hu). cbn [fst snd] in *.
  destruct (undo_loop_ok rest (S (Z.to_nat (bk s2))) (bk s2) s2 used _ Hu) as (s3&F3&U1&U2&U3&U4).
  { unfold zlen. rewrite length_zbits. lia. }
  { done. }
  { lia. }
  destruct Hwin as [(Hz&_) Ho].
  set (s4 := IState (set_outcnt (outcnt (env s3)) (env s3)) (bb s3) (bk s3) (hufts s3) (heap s3)).
  destruct (flush_window_ok (env s4)) as (e&F4&V1&V2&V3&_).
  { subst s4. cbn [env]. rewrite outcnt_set, window_outcnt, U3, U4, Hz. unfold WSIZE in *. lia. }
  apply (on_env_Ret _ s4) in F4. eexists. split.
  - rewrite (bind_Ret (put_wp 0) _ s tt (IState (set_outcnt 0 (env s)) (bb s) (bk s) (hufts s) (heap s)) eq_refl).
    rewrite (bind_Ret (put_globals (0, 0)) _
      (IState (set_outcnt 0 (env s)) (bb s) (bk s) (hufts s) (heap s)) tt s1 eq_refl).
    unfold inflate_blocks. rewrite (bind_Ret _ _ _ _ _ F2). change (negb (0 =? 0)) with false. cbv iota.
    rewrite (bind_Ret undo_lookahead _ s2 tt s3).
    2: { unfold undo_lookahead. rewrite (bind_Ret get_globals _ s2 (bb s2, bk s2) s2 eq_refl). exact F3. }
    rewrite (bind_Ret get_wp _ s3 (outcnt (env s3)) s3 eq_refl).
    unfold flush_output. rewrite bind_bind.
    rewrite (bind_Ret (put_wp (outcnt (env s3))) _ s3 tt s4 eq_refl).
    rewrite (bind_Ret _ _ _ _ _ F4). reflexivity.
  - cbn [env]. rewrite V1, V3. subst s4. cbn [env].
    rewrite outcnt_set, window_outcnt, output_outcnt, input_outcnt, U2, U3, U4, Ho. done.
Qed.
End blocks_proofs.

(** ** The theorems *)

(** C3: inflate returns 0 on every stream of stored blocks, blocks with the
    fixed codes and blocks with codes of their own that the format accepts: what
    it flushes and leaves in the window is the decoded output, and it gives back
    the whole bytes it read ahead, so that the input stands at the first byte
    behind the stream.  [rest] are the bits behind the stream, three bytes at
    least (the trailer of a gzip member has eight); [n] blocks need [block_room]
    bytes of memory each, for their tables.  A block's own codes are any that are
    [usable]: complete ones, and an empty one. *)
Theorem inflate_refines {St} `{HL : InflateLaws St} n fuel (s : ist St) rest out :
  zlen (window (env s)) = WSIZE → Forall is_byte (env_input (env s)) →
  stream n fuel (fbits (env_input (env s))) [] = Some (rest, out) → (n <= fuel)%nat →
  24 <= zlen rest → block_room * Z.of_nat n <= env_room (env s) → env_back (env s) = [] →
  ∃ s', inflate fuel s = Ret 0 s' ∧
    env_output (env s') = env_output (env s) ++ out ∧
    fbits (env_input (env s')) = align rest.
Proof. apply inflate_ok. Qed.

(* a block with the fixed codes ("abcabc"), an empty stored block, and a block
   with its own codes, as zlib writes them; then three bytes *)
Definition example_deflate : list Z :=
  [74; 76; 74; 78; 76; 74; 6; 0; 0; 0; 255; 255; 37; 135; 193; 9; 0; 0; 8; 132; 254; 183; 165; 222; 254; 59; 20; 5; 10; 170;
   216; 34; 101; 137; 100; 67; 235; 61; 225; 237; 0; 7; 8; 9].

Definition example_text : list Z := map (λ c, Z.of_N (N_of_ascii c))
  (String.list_ascii_of_string ("abcabcbbabccabacaaca" ++ nl ++ "ba" ++ nl ++ "caabbcbcaacaa" ++ nl ++ "aaa" ++ nl ++ "aaac")).

Definition example_ist : ist refenv :=
  IState (RefEnv example_deflate [] [] 2000000 (replicate 32768 0) 0) 0 0 0 [].

Definition example_rest : list bool := Eval vm_compute in
  match stream 3 60 (fbits example_deflate) [] with Some (rest, _) => rest | None => [] end.

Lemma inflate_refines_witness :
  ∃ s', inflate 60 example_ist = Ret 0 s' ∧ env_output (env s') = [] ++ example_text ∧
    fbits (env_input (env s')) = align example_rest.
Proof.
  apply (inflate_refines (HL := refenv_laws) 3 60 example_ist example_rest example_text).
  - vm_compute. reflexivity.
  - apply (bool_decide_unpack _). vm_compute. exact I.
  - vm_compute. reflexivity.
  - lia.
  - vm_compute. discriminate.
  - vm_compute. discriminate.
  - reflexivity.
Defined.

(** C30: the copy of a match. The code copies pieces that fit the window with
    memcpy when the distance allows it and byte by byte when source and
    destination overlap, wraps both positions and flushes a full window; the
    outcome is always the copy of [n] bytes, one at a time, from [dist] back in
    the output so far. *)
Theorem match_copies_output {St} `{HL : InflateLaws St} n (s : ist St) base w d out dist out' :
  win s base w out → w < WSIZE → 1 <= n < 2 ^ 31 → 1 <= dist <= WSIZE → dist <= zlen out →
  0 <= d → d mod WSIZE = (w - dist) mod WSIZE → lz_copy (Z.to_nat n) dist out = Some out' →
  ∃ w' s', copy_match n w d s = Ret w' s' ∧ keeps s s' ∧ win s' base w' out' ∧ w' < WSIZE.
Proof. apply copy_match_ok. Qed.

(* two bytes before the end of the window: the match wraps *)
Definition example_window : ist refenv :=
  IState (RefEnv [] [] [] 0 (replicate 32765 7 ++ [1; 0; 0]) 0) 0 0 0 [].

Lemma match_copies_output_witness :
  ∃ w' s', copy_match 4 32766 32765 example_window = Ret w' s' ∧ keeps example_window s' ∧
    win s' [] w' (replicate 32765 7 ++ [1; 1; 1; 1; 1]) ∧ w' < WSIZE.
Proof.
  apply (match_copies_output (HL := refenv_laws) 4 example_window [] 32766 32765
    (replicate 32765 7 ++ [1]) 1 (replicate 32765 7 ++ [1; 1; 1; 1; 1])).
  - split; [split|].
    + vm_compute. reflexivity.
    + split; [vm_compute; split; discriminate|]. intros dist Hd Hl.
      assert (zlen (replicate 32765 7 ++ [1]) = 32766) as Hz by (vm_compute; reflexivity).
      rewrite Hz in *.
      rewrite Z.mod_small by (unfold WSIZE in *; lia).
      change (window (env example_window)) with (replicate 32765 7 ++ [1; 0; 0]).
      change [1; 0; 0] with ([1] ++ [0; 0]). rewrite app_assoc. unfold aget. rewrite !decide_True by lia. apply lookup_app_l.
      unfold zlen in Hz. lia.
    + apply (bool_decide_unpack _). vm_compute. exact I.
  - vm_compute. reflexivity.
  - lia.
  - unfold WSIZE. lia.
  - vm_compute. discriminate.
  - lia.
  - vm_compute. reflexivity.
  - apply (bool_decide_unpack _). vm_compute. exact I.
Defined.
