(* ===== verification/HuftTyped.v ===== *)
(** * zip/inflate.c: the tables are well formed

    Whatever the input, the tables of [huft_build] are well formed: every entry
    written is a symbol, an invalid code or a link, and a link leads to a later
    table that has as many entries as the bits it asks for.  So walking from
    table to table stays inside the tables and ends. *)

From Stdlib Require Import Ascii String.
From S2P Require Import Prelude CString Vsprintf Huft Inflate Deflate Blocks.

Open Scope Z_scope.
Open Scope list_scope.

(** ** Types *)

(** A symbol or an invalid code has a number; a link of table [t] leads to a
    table behind it, of the size its bits select from. *)
Definition entry_typed (h : list htable) (t : Z) (r : huft) : Prop :=
  match h_v r with
  | VN _ => h_e r <= 16 ∨ h_e r = 99
  | VT q => 16 < h_e r <= 32 ∧ t < q ∧
      ∃ tab, aget h q = Some tab ∧ zlen (h_ents tab) = 2 ^ (h_e r - 16)
  end.

Definition typed (h : list htable) : Prop :=
  ∀ t tab i r, aget h t = Some tab → aget (h_ents tab) i = Some (Some r) → entry_typed h t r.

(** [h'] has the tables of [h], of the same sizes, and perhaps more. *)
Definition extends (h h' : list htable) : Prop :=
  zlen h <= zlen h' ∧ ∀ t tab, aget h t = Some tab →
    ∃ tab', aget h' t = Some tab' ∧ zlen (h_ents tab') = zlen (h_ents tab).

#[export] Instance extends_preorder : PreOrder extends.
Proof.
  split; [intros h; split; [lia|eauto]|]. intros h1 h2 h3 [L1 H1] [L2 H2]. split; [lia|].
  intros t tab E. destruct (H1 t tab E) as (tab2&E2&Z2). destruct (H2 t tab2 E2) as (tab3&E3&Z3).
  exists tab3. split; [done|congruence].
Qed.

Lemma entry_typed_extends h h' t r : extends h h' → entry_typed h t r → entry_typed h' t r.
Proof.
  intros [_ Hx] Hr. unfold entry_typed in *. destruct (h_v r) as [n|q]; [done|].
  destruct Hr as (He&Hq&tab&E&Z1). split; [done|]. split; [done|]. destruct (Hx q tab E) as (tab'&E'&Z2).
  exists tab'. split; [done|congruence].
Qed.

(** *** The stores *)

Lemma extends_new h tab : extends h (h ++ [tab]).
Proof.
  split; [rewrite zlen_app; change (zlen [tab]) with 1; lia|]. intros t tab' E. exists tab'. split; [|done].
  rewrite aget_snoc_old; [done|]. apply aget_range in E. lia.
Qed.

Lemma typed_new h tab : typed h → (∀ i r, aget (h_ents tab) i ≠ Some (Some r)) → typed (h ++ [tab]).
Proof.
  intros Ht He t tab' i r E Er. apply aget_range in E as Hr. rewrite zlen_app in Hr. change (zlen [tab]) with 1 in Hr.
  destruct (decide (t = zlen h)) as [->|Hne].
  - rewrite aget_snoc_last in E. injection E as <-. destruct (He _ _ Er).
  - rewrite aget_snoc_old in E by lia. eapply entry_typed_extends; [apply extends_new|]. by apply (Ht t tab' i).
Qed.

(** A table stored with as many entries as before. *)
Lemma extends_set h h' t tab tab' : aget h t = Some tab → aset h t tab' = Some h' →
  zlen (h_ents tab') = zlen (h_ents tab) → extends h h'.
Proof.
  intros Et Es Hz. split; [unfold zlen; rewrite (aset_len _ _ _ _ Es); lia|]. intros q tq Eq.
  rewrite (aget_aset _ _ _ _ _ Es). case_decide as Hd; [|by exists tq].
  subst q. rewrite Et in Eq. injection Eq as <-. by exists tab'.
Qed.

Lemma typed_set h h' t tab tab' : typed h → aget h t = Some tab → aset h t tab' = Some h' →
  zlen (h_ents tab') = zlen (h_ents tab) →
  (∀ i r, aget (h_ents tab') i = Some (Some r) → aget (h_ents tab) i = Some (Some r) ∨ entry_typed h t r) →
  typed h'.
Proof.
  intros Ht Et Es Hz He q tq i r Eq Er. pose proof (extends_set _ _ _ _ _ Et Es Hz) as Hx.
  eapply entry_typed_extends; [exact Hx|]. rewrite (aget_aset _ _ _ _ _ Es) in Eq. case_decide as Hd.
  - subst q. injection Eq as <-. destruct (He i r Er) as [Er'|Hr]; [by apply (Ht t tab i)|done].
  - by apply (Ht q tq i).
Qed.

(** ** Partial correctness *)

Section post.
Context {St : Type}.

(** When [m] returns, its value and its state satisfy [Q]. *)
Definition post {A} (m : M St A) (s : St) (Q : A → St → Prop) : Prop := ∀ a s', m s = Ret a s' → Q a s'.

Lemma post_ret {A} (a : A) s (Q : A → St → Prop) : Q a s → post (ret a) s Q.
Proof. by intros HQ b s' [= <- <-]. Qed.

Lemma post_bind {A B} (m : M St A) (k : A → M St B) s Q :
  post m s (λ a s', post (k a) s' Q) → post (bind m k) s Q.
Proof. intros Hm b s' E. apply bind_inv in E as (a&s1&E1&E2). by eapply Hm. Qed.

Lemma post_mono {A} (m : M St A) s (P Q : A → St → Prop) :
  post m s P → (∀ a s', P a s' → Q a s') → post m s Q.
Proof. intros Hm HQ a s' E. by apply HQ, Hm. Qed.

Lemma post_gets {A} (f : St → A) s (Q : A → St → Prop) : Q (f s) s → post (gets f) s Q.
Proof. by intros HQ b s' [= <- <-]. Qed.

Lemma post_modify (f : St → St) s (Q : unit → St → Prop) : Q tt (f s) → post (modify f) s Q.
Proof. by intros HQ b s' [= <- <-]. Qed.

Lemma post_lift {A} (o : option A) s (Q : A → St → Prop) : (∀ a, o = Some a → Q a s) → post (lift_opt o) s Q.
Proof. destruct o; [|by intros _ b s']. intros HQ b s' [= <- <-]. by apply HQ. Qed.

Lemma post_trap {A} s (Q : A → St → Prop) : post trap s Q.
Proof. by intros a s'. Qed.

Lemma post_diverge {A} s (Q : A → St → Prop) : post diverge s Q.
Proof. by intros a s'. Qed.

Lemma post_loop {A B} (I : A → St → Prop) (Q : B → St → Prop) (body : A → M St (A + B)) fuel :
  (∀ a s, I a s → post (body a) s (λ r s', match r with inl a' => I a' s' | inr b => Q b s' end)) →
  ∀ a s, I a s → post (loop fuel body a) s Q.
Proof.
  intros Hb. induction fuel as [|n IH]; intros a s Ha; [apply post_diverge|]. cbn [loop].
  apply post_bind. eapply post_mono; [by apply Hb|]. intros [a'|b] s' HI; [by apply IH|by apply post_ret].
Qed.
End post.

(** ** huft_build *)

Section typed_build.
Context {St : Type} `{InflateEnv St}.

Lemma post_on_env {A} (m : M St A) (s : ist St) (Q : A → ist St → Prop) :
  (∀ a s', heap s' = heap s → Q a s') → post (on_env m) s Q.
Proof.
  intros HQ a s' E. unfold on_env in E. destruct (m (env s)) as [x e|x e| |]; try discriminate.
  injection E as <- <-. by apply HQ.
Qed.

Lemma post_new_table z (s : ist St) (Q : Z → ist St → Prop) : typed (heap s) →
  (∀ s', heap s' = heap s ++ [HTable None (replicate (Z.to_nat z) None)] → typed (heap s') → Q (zlen (heap s)) s') →
  post (new_table z) s Q.
Proof.
  intros Ht HQ. unfold new_table. apply post_bind, post_on_env. intros _ s1 E1.
  apply post_bind, post_gets, post_bind, post_modify, post_bind, post_gets, post_bind, post_modify, post_ret.
  cbn [heap]. rewrite E1. apply HQ; [done|]. apply typed_new; [done|]. cbn [h_ents].
  intros i r [_ E]%aget_Some. apply lookup_replicate in E as [? _]. done.
Qed.

Lemma post_set_link t l (s : ist St) (Q : unit → ist St → Prop) : typed (heap s) →
  (∀ s', extends (heap s) (heap s') → typed (heap s') → Q tt s') → post (set_link t l) s Q.
Proof.
  intros Ht HQ. unfold set_link. apply post_bind, post_gets, post_bind, post_lift. intros tab Et.
  apply post_bind, post_lift. intros h' Eh. apply post_modify. apply HQ; cbn [heap].
  - by eapply extends_set.
  - eapply typed_set; [exact Ht|exact Et|exact Eh|done|]. cbn [h_ents]. auto.
Qed.

Lemma post_set_entry o i r (s : ist St) (Q : unit → ist St → Prop) : typed (heap s) →
  (∀ t, o = Some t → entry_typed (heap s) t r) →
  (∀ s', extends (heap s) (heap s') → typed (heap s') → Q tt s') → post (set_entry o i r) s Q.
Proof.
  intros Ht Hr HQ. unfold set_entry. apply post_bind, post_gets. destruct o as [t|]; [|apply post_trap].
  apply post_bind, post_lift. intros tab Et. apply post_bind, post_lift. intros ents Ee.
  apply post_bind, post_lift. intros h' Eh. apply post_modify.
  assert (zlen ents = zlen (h_ents tab)) as Hz by (unfold zlen; by rewrite (aset_len _ _ _ _ Ee)).
  apply HQ; cbn [heap]; [by eapply extends_set|].
  eapply typed_set; [exact Ht|exact Et|exact Eh|exact Hz|]. cbn [h_ents]. intros k r' Ek.
  rewrite (aget_aset _ _ _ _ _ Ee) in Ek. case_decide; [|by left]. injection Ek as <-. right. by apply Hr.
Qed.

(** The variables of the loops: the bits before a level are those of the levels
    above, and the table stack holds tables there are. *)
Record loop_ok (l : Z) (h : list htable) (st : hloop) : Prop := {
  lo_typed : typed h;
  lo_bits : l_w st = l * l_h st;
  lo_level : -1 <= l_h st;
  lo_stack i t : aget (l_u st) i = Some (Some t) → t < zlen h
}.

Lemma loop_ok_extends l h h' st : loop_ok l h st → extends h h' → typed h' → loop_ok l h' st.
Proof. intros [L1 L2 L3 L4] Hx Ht. split; try done. intros i t E. destruct Hx as [Hz _]. specialize (L4 i t E). lia. Qed.

Lemma smaller_table_range fuel c z : z <= 16 → ∀ xp j f j',
  smaller_table fuel c xp j z f = Some j' → j < j' <= Z.max (j + 1) 16.
Proof.
  intros Hz. induction fuel as [|n IH]; intros xp j f j' E; [done|]. cbn [smaller_table] in E.
  destruct (Z.ltb_spec (j + 1) z); [|injection E as <-; lia].
  destruct (aget c (xp + 1)) as [cx|]; [|done]. cbn in E.
  destruct (_ <=? cx); [injection E as <-; lia|]. apply IH in E. lia.
Qed.

(** The bits of a new table, at a level [w] bits down. *)
Lemma table_bits c g l k w a j : 1 <= l <= 16 → 0 <= w → w < k <= 16 →
  (let z := u32 (g - w) in
   let z := if u32 l <? z then l else z in
   let j := k - w in
   let f := u32 (Z.shiftl 1 j) in
   if u32 (a + 1) <? f then smaller_table 17 c k j z (u32 (f - u32 (a + 1))) else Some j) = Some j →
  1 <= j <= Z.max (k - w + 1) 16.
Proof.
  intros Hl Hw Hk E. cbv zeta in E. destruct (_ <? u32 (Z.shiftl 1 (k - w))); [|injection E as <-; lia].
  apply smaller_table_range in E; [lia|]. rewrite (wrap_small 32 l) by lia.
  destruct (Z.ltb_spec l (u32 (g - w))); lia.
Qed.

Lemma pow_small j : 1 <= j <= 17 → u32 (Z.shiftl 1 j) = 2 ^ j.
Proof.
  intros Hj. rewrite Z.shiftl_1_l. apply wrap_small. split; [lia|].
  apply Z.le_lt_trans with (2 ^ 17); [apply Z.pow_le_mono_r; lia|done].
Qed.

(** The link of a new table. *)
Lemma link_typed h t l j q tab : 1 <= j <= 16 → t < q → aget h q = Some tab → zlen (h_ents tab) = 2 ^ j →
  entry_typed h t (Huft (u8 (16 + j)) (u8 l) (VT q)).
Proof.
  intros Hj Ht Eq Hz. unfold entry_typed. cbn [h_v h_e]. rewrite wrap_small by lia.
  split; [lia|]. split; [done|]. exists tab. split; [done|]. rewrite Hz. f_equal. lia.
Qed.

Lemma post_make_tables c g l k a st (s : ist St) : 1 <= l <= 16 → k <= 16 → loop_ok l (heap s) st →
  post (make_tables c g l k a st) s (λ st' s', loop_ok l (heap s') st').
Proof.
  intros Hl Hk. revert st s. unfold make_tables. apply (post_loop (λ st s', loop_ok l (heap s') st)).
  intros st s L. pose proof L as [L1 L2 L3 L4].
  destruct (Z.ltb_spec (l_w st + l) k) as [Hlt|_]; [|by apply post_ret]. cbv zeta.
  assert (0 <= l_w st + l) as Hw by nia. apply post_bind, post_lift. intros j Ej.
  assert (1 <= j <= Z.max (k - (l_w st + l) + 1) 16) as Hj by (eapply table_bits; [exact Hl|exact Hw|lia|exact Ej]).
  apply post_bind, post_new_table; [done|]. intros s1 E1 T1. set (q := zlen (heap s)) in *.
  assert (aget (heap s1) q = Some (HTable None (replicate (Z.to_nat (u32 (Z.shiftl 1 j))) None))) as Eq
    by (rewrite E1; apply aget_snoc_last).
  assert (extends (heap s) (heap s1)) as X1 by (rewrite E1; apply extends_new).
  assert (q < zlen (heap s1)) as Hq by (apply aget_range in Eq; lia).
  apply post_bind.
  assert (post (match l_last st with Some t => set_link t (Some q) | None => ret tt end) s1
    (λ _ s', extends (heap s1) (heap s') ∧ typed (heap s'))) as Hset.
  { destruct (l_last st); [by apply post_set_link|by apply post_ret]. }
  eapply post_mono; [exact Hset|]. intros _ s2 [X2 T2]. apply post_bind, post_lift. intros u Eu.
  assert (∀ i t, aget u i = Some (Some t) → t < zlen (heap s2)) as Hu.
  { intros i t. destruct X2 as [Z2 _], X1 as [Z1 _]. rewrite (aget_aset _ _ _ _ _ Eu). case_decide; [intros [= <-]; lia|].
    intros E. specialize (L4 i t E). lia. }
  apply post_bind. destruct (Z.eqb_spec (l_h st + 1) 0) as [E0|E0]; cbn [negb].
  - apply post_ret, post_ret. split; cbn [l_w l_h l_u]; [done|lia|lia|done].
  - apply post_bind, post_lift. intros x Ex. apply post_bind, post_lift. intros up Eup. apply post_bind.
    apply post_set_entry; [done| |].
    + intros t ->. destruct X2 as [_ X2]. destruct (X2 q _ Eq) as (tab&E2&Z2).
      apply (link_typed _ _ _ _ _ tab); [nia| |exact E2|].
      * rewrite (aget_aset _ _ _ _ _ Eu), decide_False in Eup by lia. by apply (L4 _ _ Eup).
      * rewrite Z2. cbn [h_ents]. rewrite pow_small by lia. unfold zlen. rewrite length_replicate.
        pose proof (Z.pow_pos_nonneg 2 j). lia.
    + intros s3 X3 T3. apply post_ret, post_ret. apply (loop_ok_extends _ (heap s2)); [|done|done].
      split; cbn [l_w l_h l_u]; [done|lia|lia|done].
Qed.

(** The extra bits of the codes behind the literals: a number of bits, or 99. *)
Definition extra_ok (e : list Z) : Prop := Forall (λ x, 0 <= x <= 16 ∨ x = 99) e.

Lemma code_entry_typed n s v d e k w p r p' h t : extra_ok e →
  code_entry n s v d e k w p = Some (r, p') → entry_typed h t r.
Proof.
  intros He E. unfold code_entry in E. unfold entry_typed.
  destruct (n <=? p); [injection E as <- _; cbn; by right|].
  destruct (aget v p) as [[vp|]|]; cbn in E; [|done..].
  destruct (vp <? s); [injection E as <- _; cbn; left; destruct (vp <? 256); lia|].
  destruct (aget e (vp - s)) as [ee|] eqn:Ee; [|done]. destruct (aget d (vp - s)) as [dd|]; [|done].
  injection E as <- _. cbn [h_v h_e]. pose proof (aget_Forall _ _ _ _ He Ee) as [Hee|Hee]; cbv beta in Hee.
  - left. rewrite wrap_small; lia.
  - right. by subst.
Qed.

Lemma post_fill q z f r fuel : ∀ j (s : ist St), typed (heap s) → (∀ h t, entry_typed h t r) →
  post (fill_entries fuel q j z f r) s (λ _ s', extends (heap s) (heap s') ∧ typed (heap s')).
Proof.
  induction fuel as [|n IH]; intros j s Ht Hr; [apply post_diverge|]. cbn [fill_entries].
  destruct (j <? z); [|by apply post_ret]. apply post_bind, post_set_entry; [done|auto|].
  intros s1 X1 T1. eapply post_mono; [by apply IH|]. intros _ s2 [X2 T2]. split; [by etrans|done].
Qed.

Lemma back_up_level fuel l i x : ∀ h w h' w', back_up fuel l i h w x = Some (h', w') → w = l * h →
  0 <= h' ∧ w' = l * h'.
Proof.
  induction fuel as [|n IH]; intros h w h' w' E Hw; [done|]. cbn [back_up] in E.
  destruct (aget x h) as [xh|] eqn:Eh; [|done]. cbn in E.
  destruct (_ =? xh); [injection E as <- <-; apply aget_range in Eh; lia|].
  eapply IH; [exact E|lia].
Qed.

Lemma post_codes_of_length n sv v d e c g l k a : extra_ok e → 1 <= l <= 16 → k <= 16 →
  ∀ st (s : ist St), loop_ok l (heap s) st →
  post (codes_of_length n sv v d e c g l k a st) s (λ st' s', loop_ok l (heap s') st').
Proof.
  intros He Hl Hk. induction a as [|a IH]; intros st s L; [by apply post_ret|]. cbn [codes_of_length].
  apply post_bind. eapply post_mono; [by apply post_make_tables|]. intros st1 s1 L1.
  apply post_bind, post_lift. intros [r p] Er. apply post_bind.
  eapply post_mono; [apply post_fill; [apply L1|intros h t; by eapply code_entry_typed]|].
  intros _ s2 [X2 T2]. apply post_bind, post_lift. intros [h w] Eb.
  destruct (back_up_level _ _ _ _ _ _ _ _ Eb (lo_bits _ _ _ L1)) as [Hh Hw]. apply IH.
  destruct (loop_ok_extends _ _ _ _ L1 X2 T2) as [M1 M2 M3 M4]. split; cbn [l_w l_h l_u]; [done|done|lia|done].
Qed.

Lemma post_all_codes n sv v d e c g l fuel : extra_ok e → g <= 16 → (1 <= g → 1 <= l <= 16) →
  ∀ k st (s : ist St), 1 <= k → loop_ok l (heap s) st →
  post (all_codes fuel n sv v d e c g l k st) s (λ _ s', typed (heap s')).
Proof.
  intros He Hg Hl. induction fuel as [|f IH]; intros k st s Hk L; [apply post_diverge|]. cbn [all_codes].
  destruct (Z.leb_spec k g); [|by apply post_ret; destruct L]. apply post_bind, post_lift. intros a Ea.
  apply post_bind. eapply post_mono; [apply post_codes_of_length; [done|lia|lia|exact L]|].
  intros st1 s1 L1. apply IH; [lia|done].
Qed.

Lemma min_length_pos fuel c : ∀ j, 1 <= j → 1 <= min_length fuel c j.
Proof.
  induction fuel as [|n IH]; intros j Hj; cbn [min_length]; [done|].
  destruct (j <=? BMAX); [|done]. destruct (_ =? 0); [apply IH; lia|done].
Qed.

Lemma max_length_le fuel c : ∀ i, i <= 16 → max_length fuel c i <= 16.
Proof.
  induction fuel as [|n IH]; intros i Hi; cbn [max_length]; [done|].
  destruct (i =? 0); [done|]. destruct (_ =? 0); [apply IH; lia|done].
Qed.

(** huft_build keeps the tables well formed, for any code lengths. *)
Lemma post_huft_build b n sv d e m (s : ist St) : extra_ok e → 1 <= m → typed (heap s) →
  post (huft_build b n sv d e m) s (λ _ s', typed (heap s')).
Proof.
  intros He Hm Ht. unfold huft_build. apply post_bind, post_lift. intros lens _. apply post_bind, post_lift. intros c _.
  destruct (_ =? n); [by apply post_ret|]. cbv zeta.
  pose proof (min_length_pos 17 c 1 ltac:(lia)) as Hmin. pose proof (max_length_le 17 c BMAX ltac:(done)) as Hmax.
  set (j := min_length 17 c 1) in *. set (i := max_length 17 c BMAX) in *.
  set (l := if i <? (if m <? j then j else m) then i else if m <? j then j else m).
  assert (1 <= i → 1 <= l <= 16) as Hl.
  { intros Hi. unfold l. destruct (Z.ltb_spec m j); destruct (Z.ltb_spec i j), (Z.ltb_spec i m); lia. }
  destruct (dummy_codes _ _ _ _ _) as [y|]; [|by apply post_ret].
  apply post_bind, post_lift. intros ci _. apply post_bind, post_lift. intros c2 _.
  apply post_bind, post_lift. intros [v x] _. apply post_bind, post_lift. intros x2 _.
  apply post_bind. eapply post_mono; [apply post_all_codes; [done|exact Hmax|exact Hl|exact Hmin|]|].
  - split; cbn [l_w l_h l_u]; [done|lia|lia|]. intros k t [_ E]%aget_Some. by apply lookup_replicate in E as [? _].
  - intros st s' T. by apply post_ret.
Qed.
End typed_build.

(** ** inflate *)

Section typed_inflate.
Context {St : Type} `{InflateEnv St}.

(** The tables stay well formed. *)
Definition types {A} (m : M (ist St) A) : Prop := ∀ s, typed (heap s) → post m s (λ _ s', typed (heap s')).

Lemma types_ret {A} (a : A) : types (ret a).
Proof. intros s Ht. by apply post_ret. Qed.

Lemma types_bind {A B} (m : M (ist St) A) (k : A → M (ist St) B) : types m → (∀ a, types (k a)) → types (bind m k).
Proof. intros Hm Hk s Ht. apply post_bind. eapply post_mono; [by apply Hm|]. intros a s'. apply Hk. Qed.

Lemma types_loop {A B} fuel (body : A → M (ist St) (A + B)) : (∀ a, types (body a)) → ∀ a, types (loop fuel body a).
Proof.
  intros Hb a s Ht. apply (post_loop (λ _ s, typed (heap s))); [|done]. intros a1 s1 T1.
  eapply post_mono; [by apply Hb|]. by intros [?|?].
Qed.

Lemma types_gets {A} (f : ist St → A) : types (gets f).
Proof. intros s Ht. by apply post_gets. Qed.

Lemma types_modify f : (∀ s : ist St, heap (f s) = heap s) → types (modify f).
Proof. intros Hf s Ht. apply post_modify. by rewrite Hf. Qed.

Lemma types_lift {A} (o : option A) : types (lift_opt o).
Proof. intros s Ht. by apply post_lift. Qed.

Lemma types_trap {A} : types (A := A) trap.
Proof. intros s Ht. apply post_trap. Qed.

Lemma types_diverge {A} : types (A := A) diverge.
Proof. intros s Ht. apply post_diverge. Qed.

Lemma types_on_env {A} (m : M St A) : types (on_env m).
Proof. intros s Ht. apply post_on_env. by intros a s' ->. Qed.

Lemma types_build b n sv d e m : extra_ok e → 1 <= m → types (huft_build b n sv d e m).
Proof. intros He Hm s Ht. by apply post_huft_build. Qed.

Lemma extra_tables : extra_ok cplext ∧ extra_ok cpdext ∧ extra_ok [].
Proof. split; [|split]; apply (bool_decide_unpack _); vm_compute; exact I. Qed.

Lemma types_fixed_lengths : types (huft_build fixed_lengths 288 257 cplens cplext 7).
Proof. apply types_build; [apply extra_tables|lia]. Qed.
Lemma types_fixed_dist : types (huft_build fixed_dist_lengths 30 0 cpdist cpdext 5).
Proof. apply types_build; [apply extra_tables|lia]. Qed.
Lemma types_bit_lengths ll : types (huft_build ll 19 19 [] [] 7).
Proof. apply types_build; [apply extra_tables|lia]. Qed.
Lemma types_literals ll n : types (huft_build ll n 257 cplens cplext lbits).
Proof. apply types_build; [apply extra_tables|done]. Qed.
Lemma types_distances ll n : types (huft_build ll n 0 cpdist cpdext dbits).
Proof. apply types_build; [apply extra_tables|done]. Qed.

Create HintDb typed discriminated.
#[local] Hint Resolve types_ret types_gets types_lift types_trap types_diverge types_on_env types_fixed_lengths
  types_fixed_dist types_bit_lengths types_literals types_distances : typed.

(** Walks through the code. *)
Ltac walk := repeat (cbv zeta; match goal with
  | |- ∀ _, _ => intro
  | |- types (bind _ _) => apply types_bind
  | |- types (loop _ _ _) => apply types_loop
  | |- types (if ?b then _ else _) => destruct b
  | |- types (match ?x with _ => _ end) => destruct x
  | |- types (ret _) => apply types_ret
  | |- types (modify _) => by apply types_modify
  | |- types _ => solve [auto with typed nocore]
  end).

Lemma types_globals bk : types (put_globals bk).
Proof. by apply types_modify. Qed.
Lemma types_wp w : types (put_wp w).
Proof. by apply types_modify. Qed.
Lemma types_slide l : types (put_slide l).
Proof. by apply types_modify. Qed.
Lemma types_hufts n : types (set_hufts n).
Proof. by apply types_modify. Qed.
Lemma types_get_entry t i : types (get_entry t i).
Proof. unfold get_entry. walk. Qed.
Lemma types_free fuel : ∀ t, types (huft_free fuel t).
Proof. induction fuel as [|n IH]; intros t; cbn [huft_free]; walk. Qed.
Lemma types_needbits n bk : types (needbits n bk).
Proof. unfold needbits. walk. Qed.
#[local] Hint Resolve types_globals types_wp types_slide types_hufts types_get_entry types_free types_needbits : typed.

Lemma types_flush w : types (flush_full w).
Proof. unfold flush_full, flush_output. walk. Qed.
Lemma types_put_byte w c : types (put_byte w c).
Proof. unfold put_byte, get_slide. walk. Qed.
Lemma types_copy_slow e : ∀ w d, types (copy_slow e w d).
Proof. induction e as [|e IH]; intros w d; cbn [copy_slow]; unfold get_slide; walk. Qed.
#[local] Hint Resolve types_flush types_put_byte types_copy_slow : typed.

Lemma types_copy_match n w d : types (copy_match n w d).
Proof. unfold copy_match, copy_block, get_slide. walk. Qed.
Lemma types_lookup t nb bk : types (lookup_code t nb bk).
Proof. unfold lookup_code, walk_tables, masked. walk. Qed.
#[local] Hint Resolve types_copy_match types_lookup : typed.

Lemma types_codes fuel tl td bl bd : types (inflate_codes fuel tl td bl bd).
Proof. unfold inflate_codes, codes_step, base_of, masked, get_globals, get_wp. walk. Qed.
Lemma types_stored_bytes n : ∀ bk w, types (stored_bytes n bk w).
Proof. induction n as [|n IH]; intros bk w; cbn [stored_bytes]; walk. Qed.
Lemma types_border order : ∀ nb ll bk, types (read_border order nb ll bk).
Proof. induction order as [|o order IH]; intros nb ll bk; cbn [read_border]; walk. Qed.
Lemma types_lengths tl bl n ll bk : types (read_lengths tl bl n ll bk).
Proof. unfold read_lengths, lengths_step, repeat_code, base_of. walk. Qed.
Lemma types_free_tables t : types (free_tables t).
Proof. unfold free_tables. walk. Qed.
#[local] Hint Resolve types_codes types_stored_bytes types_border types_lengths types_free_tables : typed.

Lemma types_block fuel : types (inflate_block fuel).
Proof. unfold inflate_block, inflate_dynamic, inflate_fixed, inflate_stored, get_globals, get_wp. walk. Qed.
#[local] Hint Resolve types_block : typed.

Lemma types_inflate fuel : types (inflate fuel).
Proof. unfold inflate, inflate_blocks, undo_lookahead, flush_output, get_globals, get_wp. walk. Qed.
End typed_inflate.

(** A table that links: the masked bits select an entry of a later table. *)
Definition links_inside (h : list htable) : Prop :=
  ∀ t tab i ent bk, aget h t = Some tab → aget (h_ents tab) i = Some (Some ent) → 16 < h_e ent → h_e ent ≠ 99 →
    ∃ m q tab', aget mask_bits (h_e ent - 16) = Some m ∧ h_v ent = VT q ∧ t < q ∧ aget h q = Some tab' ∧
      0 <= lowbits bk m < zlen (h_ents tab').

Lemma typed_links h : typed h → links_inside h.
Proof.
  intros Ht t tab i ent bk Et Ei H16 H99. specialize (Ht t tab i ent Et Ei). unfold entry_typed in Ht.
  destruct (h_v ent) as [n|q]; [lia|]. destruct Ht as (He&Hq&tab'&Eq&Hz).
  exists (Z.ones (h_e ent - 16)), q, tab'. split; [apply mask_bits_ok; lia|]. do 3 (split; [done|]).
  rewrite Hz. unfold lowbits. rewrite Z.land_ones by lia. apply Z.mod_pos_bound. apply Z.pow_pos_nonneg; lia.
Qed.

(** ** The theorem *)

(** C5: inflate keeps the decoding tables well formed, whatever it is given to
    decompress and whatever the environment answers: when it returns - success
    or error - every entry written is a symbol, an invalid code or a link, and
    the bits a link asks for always select an entry of an existing table behind
    it.  So no table is read outside its bounds and no walk goes round. *)
Theorem inflate_tables_typed {St} `{InflateEnv St} fuel (s s' : ist St) r :
  typed (heap s) → inflate fuel s = Ret r s' → typed (heap s') ∧ links_inside (heap s').
Proof.
  intros Ht E. assert (typed (heap s')) as Ht' by exact (types_inflate fuel s Ht r s' E).
  split; [exact Ht'|by apply typed_links].
Qed.

Lemma inflate_tables_typed_witness :
  ∃ s', inflate 60 example_ist = Ret 0 s' ∧ (5 < zlen (heap s')) ∧ typed (heap s') ∧ links_inside (heap s').
Proof.
  exists (state_of example_ist (inflate 60 example_ist)).
  assert (inflate 60 example_ist = Ret 0 (state_of example_ist (inflate 60 example_ist))) as E
    by (apply value_Ret; vm_compute; reflexivity).
  split; [exact E|]. split; [vm_compute; reflexivity|].
  apply (inflate_tables_typed 60 example_ist _ 0); [|exact E]. intros t tab i ent Et.
  apply aget_range in Et. change (zlen (heap example_ist)) with 0 in Et. lia.
Defined.
