(* ===== verification/Crc.v ===== *)
(** * zip/misc.c: the CRC-32 of a gzip member

    [updcrc] keeps its shift register in a static variable; here it is an
    argument and a result.  The table-driven update is compared with the
    polynomial division it stands for. *)

From S2P Require Import Prelude.

Definition crc_32_tab : list Z :=
  [0x00000000; 0x77073096; 0xee0e612c; 0x990951ba; 0x076dc419; 0x706af48f;
   0xe963a535; 0x9e6495a3; 0x0edb8832; 0x79dcb8a4; 0xe0d5e91e; 0x97d2d988;
   0x09b64c2b; 0x7eb17cbd; 0xe7b82d07; 0x90bf1d91; 0x1db71064; 0x6ab020f2;
   0xf3b97148; 0x84be41de; 0x1adad47d; 0x6ddde4eb; 0xf4d4b551; 0x83d385c7;
   0x136c9856; 0x646ba8c0; 0xfd62f97a; 0x8a65c9ec; 0x14015c4f; 0x63066cd9;
   0xfa0f3d63; 0x8d080df5; 0x3b6e20c8; 0x4c69105e; 0xd56041e4; 0xa2677172;
   0x3c03e4d1; 0x4b04d447; 0xd20d85fd; 0xa50ab56b; 0x35b5a8fa; 0x42b2986c;
   0xdbbbc9d6; 0xacbcf940; 0x32d86ce3; 0x45df5c75; 0xdcd60dcf; 0xabd13d59;
   0x26d930ac; 0x51de003a; 0xc8d75180; 0xbfd06116; 0x21b4f4b5; 0x56b3c423;
   0xcfba9599; 0xb8bda50f; 0x2802b89e; 0x5f058808; 0xc60cd9b2; 0xb10be924;
   0x2f6f7c87; 0x58684c11; 0xc1611dab; 0xb6662d3d; 0x76dc4190; 0x01db7106;
   0x98d220bc; 0xefd5102a; 0x71b18589; 0x06b6b51f; 0x9fbfe4a5; 0xe8b8d433;
   0x7807c9a2; 0x0f00f934; 0x9609a88e; 0xe10e9818; 0x7f6a0dbb; 0x086d3d2d;
   0x91646c97; 0xe6635c01; 0x6b6b51f4; 0x1c6c6162; 0x856530d8; 0xf262004e;
   0x6c0695ed; 0x1b01a57b; 0x8208f4c1; 0xf50fc457; 0x65b0d9c6; 0x12b7e950;
   0x8bbeb8ea; 0xfcb9887c; 0x62dd1ddf; 0x15da2d49; 0x8cd37cf3; 0xfbd44c65;
   0x4db26158; 0x3ab551ce; 0xa3bc0074; 0xd4bb30e2; 0x4adfa541; 0x3dd895d7;
   0xa4d1c46d; 0xd3d6f4fb; 0x4369e96a; 0x346ed9fc; 0xad678846; 0xda60b8d0;
   0x44042d73; 0x33031de5; 0xaa0a4c5f; 0xdd0d7cc9; 0x5005713c; 0x270241aa;
   0xbe0b1010; 0xc90c2086; 0x5768b525; 0x206f85b3; 0xb966d409; 0xce61e49f;
   0x5edef90e; 0x29d9c998; 0xb0d09822; 0xc7d7a8b4; 0x59b33d17; 0x2eb40d81;
   0xb7bd5c3b; 0xc0ba6cad; 0xedb88320; 0x9abfb3b6; 0x03b6e20c; 0x74b1d29a;
   0xead54739; 0x9dd277af; 0x04db2615; 0x73dc1683; 0xe3630b12; 0x94643b84;
   0x0d6d6a3e; 0x7a6a5aa8; 0xe40ecf0b; 0x9309ff9d; 0x0a00ae27; 0x7d079eb1;
   0xf00f9344; 0x8708a3d2; 0x1e01f268; 0x6906c2fe; 0xf762575d; 0x806567cb;
   0x196c3671; 0x6e6b06e7; 0xfed41b76; 0x89d32be0; 0x10da7a5a; 0x67dd4acc;
   0xf9b9df6f; 0x8ebeeff9; 0x17b7be43; 0x60b08ed5; 0xd6d6a3e8; 0xa1d1937e;
   0x38d8c2c4; 0x4fdff252; 0xd1bb67f1; 0xa6bc5767; 0x3fb506dd; 0x48b2364b;
   0xd80d2bda; 0xaf0a1b4c; 0x36034af6; 0x41047a60; 0xdf60efc3; 0xa867df55;
   0x316e8eef; 0x4669be79; 0xcb61b38c; 0xbc66831a; 0x256fd2a0; 0x5268e236;
   0xcc0c7795; 0xbb0b4703; 0x220216b9; 0x5505262f; 0xc5ba3bbe; 0xb2bd0b28;
   0x2bb45a92; 0x5cb36a04; 0xc2d7ffa7; 0xb5d0cf31; 0x2cd99e8b; 0x5bdeae1d;
   0x9b64c2b0; 0xec63f226; 0x756aa39c; 0x026d930a; 0x9c0906a9; 0xeb0e363f;
   0x72076785; 0x05005713; 0x95bf4a82; 0xe2b87a14; 0x7bb12bae; 0x0cb61b38;
   0x92d28e9b; 0xe5d5be0d; 0x7cdcefb7; 0x0bdbdf21; 0x86d3d2d4; 0xf1d4e242;
   0x68ddb3f8; 0x1fda836e; 0x81be16cd; 0xf6b9265b; 0x6fb077e1; 0x18b74777;
   0x88085ae6; 0xff0f6a70; 0x66063bca; 0x11010b5c; 0x8f659eff; 0xf862ae69;
   0x616bffd3; 0x166ccf45; 0xa00ae278; 0xd70dd2ee; 0x4e048354; 0x3903b3c2;
   0xa7672661; 0xd06016f7; 0x4969474d; 0x3e6e77db; 0xaed16a4a; 0xd9d65adc;
   0x40df0b66; 0x37d83bf0; 0xa9bcae53; 0xdebb9ec5; 0x47b2cf7f; 0x30b5ffe9;
   0xbdbdf21c; 0xcabac28a; 0x53b39330; 0x24b4a3a6; 0xbad03605; 0xcdd70693;
   0x54de5729; 0x23d967bf; 0xb3667a2e; 0xc4614ab8; 0x5d681b02; 0x2a6f2b94;
   0xb40bbe37; 0xc30c8ea1; 0x5a05df1b; 0x2d02ef8d].

(* one turn of the loop; the register is an unsigned long *)
Definition crc_step (c b : Z) : option Z :=
  let? t := aget crc_32_tab (Z.land (Z.lxor (s32 c) b) 0xff) in
  Some (Z.lxor t (Z.shiftr c 8)).

Fixpoint crc_loop (c : Z) (s : list Z) : option Z :=
  match s with
  | [] => Some c
  | b :: s => let? c := crc_step c b in crc_loop c s
  end.

(** [s] is [None] for NULL; the register afterwards and the value returned. *)
Definition updcrc (crc : Z) (s : option (list Z)) : option (Z * Z) :=
  let? c := match s with None => Some 0xffffffff | Some s => crc_loop crc s end in
  Some (c, Z.lxor c 0xffffffff).

(** ** The polynomial division *)

(** One bit: the register is shifted, and reduced when a one falls out. *)
Definition crc_bit (c : Z) : Z :=
  if Z.odd c then Z.lxor (Z.shiftr c 1) 0xedb88320 else Z.shiftr c 1.

Definition crc_bits (n : nat) (c : Z) : Z := Nat.iter n crc_bit c.

(** A message: its bytes are added to the low end, eight bits each. *)
Definition crc_feed (c : Z) (l : list Z) : Z :=
  fold_left (λ c b, crc_bits 8 (Z.lxor c b)) l c.

Definition crc32 (l : list Z) : Z := Z.lxor (crc_feed 0xffffffff l) 0xffffffff.

Lemma crc_bit_lxor x y : crc_bit (Z.lxor x y) = Z.lxor (crc_bit x) (crc_bit y).
Proof.
  unfold crc_bit. rewrite <- !Z.bit0_odd, Z.lxor_spec, Z.shiftr_lxor.
  destruct (Z.testbit x 0), (Z.testbit y 0); cbn [xorb]; apply Z.bits_inj; intros i;
    rewrite ?Z.lxor_spec; repeat destruct (Z.testbit _ _); done.
Qed.

Lemma crc_bits_lxor n x y : crc_bits n (Z.lxor x y) = Z.lxor (crc_bits n x) (crc_bits n y).
Proof.
  unfold crc_bits. induction n as [|n IH]; [done|]. cbn [Nat.iter nat_rect].
  rewrite <- crc_bit_lxor. f_equal. apply IH.
Qed.

Lemma crc_bits_add n m x : crc_bits (n + m) x = crc_bits n (crc_bits m x).
Proof. apply Nat.iter_add. Qed.

Lemma crc_bit_double y : crc_bit (Z.shiftl y 1) = y.
Proof.
  unfold crc_bit. rewrite <- Z.bit0_odd, Z.shiftl_spec_low by lia.
  rewrite Z.shiftr_shiftl_l by lia. apply Z.shiftl_0_r.
Qed.

Lemma crc_bits_shiftl n y : crc_bits n (Z.shiftl y (Z.of_nat n)) = y.
Proof.
  induction n as [|n IH]; [apply Z.shiftl_0_r|].
  replace (S n) with (n + 1)%nat at 1 by lia. rewrite crc_bits_add. cbn [crc_bits Nat.iter nat_rect].
  replace (Z.of_nat (S n)) with (Z.of_nat n + 1) by lia.
  rewrite <- Z.shiftl_shiftl, crc_bit_double by lia. apply IH.
Qed.

Lemma crc_bit_range c : 0 <= c < 2 ^ 32 → 0 <= crc_bit c < 2 ^ 32.
Proof.
  intros Hc. unfold crc_bit. rewrite Z.shiftr_div_pow2 by lia. change (2 ^ 1) with 2.
  assert (0 <= c / 2 < 2 ^ 31) by (split; [apply Z.div_pos; lia|apply Z.div_lt_upper_bound; lia]).
  destruct (Z.odd c); [apply lxor_range|]; lia.
Qed.

Lemma crc_bits_range n c : 0 <= c < 2 ^ 32 → 0 <= crc_bits n c < 2 ^ 32.
Proof.
  intros Hc. unfold crc_bits. induction n as [|n IH]; [done|]. cbn [Nat.iter nat_rect].
  by apply crc_bit_range.
Qed.

(** ** The table *)

Lemma crc_table_entries :
  Forall (λ i, aget crc_32_tab i = Some (crc_bits 8 i)) (seqZ 0 256).
Proof. apply (bool_decide_unpack _). vm_compute. exact I. Qed.

Lemma low_byte c b : is_byte b → Z.land (Z.lxor (s32 c) b) 0xff = Z.land (Z.lxor c b) 0xff.
Proof.
  intros Hb. change 0xff with (Z.ones 8).
  assert (Z.land (s32 c) (Z.ones 8) = Z.land c (Z.ones 8)) as E.
  { rewrite !Z.land_ones by lia. unfold swrap.
    pose proof (Z.div_mod (c + 2 ^ (32 - 1)) (2 ^ 32)).
    replace ((c + 2 ^ (32 - 1)) mod 2 ^ 32 - 2 ^ (32 - 1))
      with (c + - ((c + 2 ^ (32 - 1)) / 2 ^ 32 * 2 ^ 24) * 2 ^ 8) by lia.
    by rewrite Z.mod_add by lia. }
  apply Z.bits_inj. intros i. apply (f_equal (λ z, Z.testbit z i)) in E.
  rewrite !Z.land_spec in E |- *. rewrite !Z.lxor_spec.
  by destruct (Z.testbit (s32 c) i), (Z.testbit c i), (Z.testbit b i), (Z.testbit (Z.ones 8) i).
Qed.

Lemma split_byte x : x = Z.lxor (Z.land x 0xff) (Z.shiftl (Z.shiftr x 8) 8).
Proof.
  change 0xff with (Z.ones 8). apply Z.bits_inj'. intros i Hi.
  rewrite Z.lxor_spec, Z.land_spec. destruct (decide (i < 8)).
  - rewrite Z.shiftl_spec_low, Z.ones_spec_low by lia. by destruct (Z.testbit x i).
  - rewrite Z.shiftl_spec_high, Z.ones_spec_high, Z.shiftr_spec by lia.
    replace (i - 8 + 8) with i by lia. by destruct (Z.testbit x i).
Qed.

Lemma crc_step_ok c b : is_byte b → crc_step c b = Some (crc_bits 8 (Z.lxor c b)).
Proof.
  intros Hb. unfold crc_step. rewrite low_byte by done.
  set (x := Z.lxor c b). assert (0 <= Z.land x 0xff < 256) as Hi.
  { change 0xff with (Z.ones 8). rewrite Z.land_ones by lia. by apply Z.mod_pos_bound. }
  pose proof crc_table_entries as HT. rewrite List.Forall_forall in HT.
  rewrite HT by (apply list_elem_of_In, elem_of_seqZ; lia). f_equal.
  rewrite (split_byte x) at 2. rewrite crc_bits_lxor. f_equal.
  rewrite (crc_bits_shiftl 8). subst x. rewrite Z.shiftr_lxor.
  assert (Z.shiftr b 8 = 0) as ->; [|by rewrite Z.lxor_0_r].
  rewrite Z.shiftr_div_pow2 by lia. apply Z.div_small. exact Hb.
Qed.

Lemma crc_loop_ok l c : Forall is_byte l → crc_loop c l = Some (crc_feed c l).
Proof.
  intros HF. revert c. induction HF as [|b l Hb _ IH]; intros c; [done|].
  cbn [crc_loop]. rewrite crc_step_ok by done. apply IH.
Qed.

(** Calls on the pieces of a message, the first of them after a reset. *)
Fixpoint updcrc_all (crc : Z) (pieces : list (list Z)) : option Z :=
  match pieces with
  | [] => Some crc
  | s :: pieces => let? (crc, _) := updcrc crc (Some s) in updcrc_all crc pieces
  end.

Lemma crc_feed_app c l1 l2 : crc_feed c (l1 ++ l2) = crc_feed (crc_feed c l1) l2.
Proof. apply fold_left_app. Qed.

Lemma updcrc_all_ok pieces : ∀ c, Forall (Forall is_byte) pieces →
  updcrc_all c pieces = Some (crc_feed c (concat pieces)).
Proof.
  induction pieces as [|s l IH]; intros c HF; [done|]. inversion HF; subst.
  cbn [updcrc_all concat]. unfold updcrc. rewrite crc_loop_ok, crc_feed_app by done. by apply IH.
Qed.

(** ** Nothing is lost *)

Lemma crc_bit_zero z : 0 <= z < 2 ^ 32 → crc_bit z = 0 → z = 0.
Proof.
  intros Hz. unfold crc_bit. rewrite Z.shiftr_div_pow2 by lia. change (2 ^ 1) with 2.
  pose proof (Z.div_mod z 2). rewrite Zmod_odd in H. destruct (Z.odd z).
  - rewrite Z.lxor_eq_0_iff. lia.
  - lia.
Qed.

Lemma crc_bits_inj n x y :
  0 <= x < 2 ^ 32 → 0 <= y < 2 ^ 32 → crc_bits n x = crc_bits n y → x = y.
Proof.
  intros Hx Hy E. apply Z.lxor_eq_0_iff in E. rewrite <- crc_bits_lxor in E.
  apply Z.lxor_eq_0_iff. pose proof (lxor_range 32 x y ltac:(lia) Hx Hy) as Hr.
  revert E. induction n as [|n IH]; [done|]. intros E. apply IH.
  apply crc_bit_zero; [by apply crc_bits_range|done].
Qed.

Lemma feed_range l : ∀ c, 0 <= c < 2 ^ 32 → Forall is_byte l → 0 <= crc_feed c l < 2 ^ 32.
Proof.
  induction l as [|b l IH]; intros c Hc HF; [done|]. inversion HF as [|?? Hb ?]; subst.
  apply IH; [|done]. apply crc_bits_range, lxor_range; [lia|done|]. unfold is_byte in Hb. lia.
Qed.

(** Up to four bytes are shifted in as one number. *)
Lemma crc_feed_word m : ∀ c, Forall is_byte m →
  crc_feed c m = crc_bits (8 * length m) (Z.lxor c (le_val m)).
Proof.
  induction m as [|b m IH]; intros c HF; [cbn; by rewrite Z.lxor_0_r|].
  inversion HF as [|?? Hb HF']; subst. cbn [length].
  change (crc_feed c (b :: m)) with (crc_feed (crc_bits 8 (Z.lxor c b)) m).
  rewrite IH by done. replace (8 * S (length m))%nat with (8 * length m + 8)%nat by lia.
  rewrite crc_bits_add. f_equal. rewrite <- (crc_bits_shiftl 8 (le_val m)) at 1.
  rewrite <- crc_bits_lxor. f_equal. rewrite Z.lxor_assoc. f_equal.
  rewrite (split_byte (le_val (b :: m))). cbn [le_val]. unfold is_byte in Hb.
  change 0xff with (Z.ones 8). rewrite Z.land_ones, Z.shiftr_div_pow2 by lia.
  change (2 ^ 8) with 256. rewrite (Z.mul_comm 256), Z.mod_add, Z.div_add by lia.
  rewrite Z.mod_small, Z.div_small by lia. done.
Qed.

Lemma crc_feed_inj_state l : ∀ c c', 0 <= c < 2 ^ 32 → 0 <= c' < 2 ^ 32 → Forall is_byte l →
  crc_feed c l = crc_feed c' l → c = c'.
Proof.
  induction l as [|b l IH]; intros c c' Hc Hc' HF E; [done|]. inversion HF as [|?? Hb ?]; subst.
  assert (0 <= b < 2 ^ 32) by (unfold is_byte in Hb; lia).
  apply IH in E; [|by apply crc_bits_range, lxor_range; [lia|..]..|done].
  apply crc_bits_inj in E; [|by apply lxor_range; [lia|..]..].
  apply (f_equal (λ z, Z.lxor z b)) in E. by rewrite !Z.lxor_assoc, !Z.lxor_nilpotent, !Z.lxor_0_r in E.
Qed.

Lemma le_val_range4 m : Forall is_byte m → (length m <= 4)%nat → 0 <= le_val m < 2 ^ 32.
Proof.
  intros HF Hl. pose proof (le_val_range m HF) as Hr. split; [lia|].
  apply Z.lt_le_trans with (256 ^ zlen m); [lia|]. change (2 ^ 32) with (256 ^ 4).
  apply Z.pow_le_mono_r; unfold zlen; lia.
Qed.

(** ** The theorems *)

(** C29: the CRC of a member. After [updcrc(NULL, 0)] the pieces of the output,
    however it is cut into windows, leave [updcrc(buf, 0)] returning the CRC-32
    of the whole: the remainder of the bitwise division by the polynomial
    0x04c11db7 (reflected), started from ones and complemented. *)
Theorem updcrc_is_crc32 pieces crc0 :
  Forall (Forall is_byte) pieces →
  (let? (crc, _) := updcrc crc0 None in
   let? crc := updcrc_all crc pieces in
   let? (_, r) := updcrc crc (Some []) in Some r) = Some (crc32 (concat pieces)).
Proof. intros HF. unfold updcrc at 1. by rewrite updcrc_all_ok. Qed.

Lemma updcrc_is_crc32_witness :
  Forall (Forall is_byte) [[49; 50; 51]; []; [52; 53; 54; 55; 56; 57]] ∧
  (let? (crc, _) := updcrc 5 None in
   let? crc := updcrc_all crc [[49; 50; 51]; []; [52; 53; 54; 55; 56; 57]] in
   let? (_, r) := updcrc crc (Some []) in Some r) = Some 0xcbf43926.
Proof.
  assert (Forall (Forall is_byte) [[49; 50; 51]; []; [52; 53; 54; 55; 56; 57]]) as HF
    by (apply (bool_decide_unpack _); vm_compute; exact I).
  split; [exact HF|]. rewrite (updcrc_is_crc32 _ 5 HF). vm_compute. reflexivity.
Defined.

(** What the check of a member detects. Two outputs that differ in a run of
    at most four bytes (32 bits) have different CRCs, so [unzip] refuses a
    member whose output was damaged in one such burst. *)
Theorem updcrc_detects_bursts pre m m' post crc0 :
  Forall is_byte pre → Forall is_byte m → Forall is_byte m' → Forall is_byte post →
  length m = length m' → (length m <= 4)%nat → m ≠ m' →
  (let? (crc, _) := updcrc crc0 None in snd <$> updcrc crc (Some (pre ++ m ++ post))) ≠
  (let? (crc, _) := updcrc crc0 None in snd <$> updcrc crc (Some (pre ++ m' ++ post))).
Proof.
  intros Hpre Hm Hm' Hpost El H4 Hne E. unfold updcrc in E. cbn [snd] in E.
  rewrite !crc_loop_ok in E by (apply List.Forall_app; split; [done|apply List.Forall_app; done]). cbn in E. injection E as E.
  apply (f_equal (λ z, Z.lxor z 0xffffffff)) in E.
  rewrite !Z.lxor_assoc, !Z.lxor_nilpotent, !Z.lxor_0_r, !crc_feed_app in E.
  assert (0 <= crc_feed 0xffffffff pre < 2 ^ 32) as Hp by (apply feed_range; [lia|done]).
  apply crc_feed_inj_state in E; [|by apply feed_range..|done].
  rewrite (crc_feed_word m), (crc_feed_word m'), <- El in E by done.
  pose proof (le_val_range4 m Hm H4). pose proof (le_val_range4 m' Hm' ltac:(lia)).
  apply crc_bits_inj in E; [|apply lxor_range; [lia|done|done]..].
  apply (f_equal (Z.lxor (crc_feed 0xffffffff pre))) in E.
  rewrite <- !Z.lxor_assoc, !Z.lxor_nilpotent, !Z.lxor_0_l in E.
  apply Hne. by rewrite <- (le_bytes_le_val m Hm), <- (le_bytes_le_val m' Hm'), E, El.
Qed.

Lemma updcrc_detects_bursts_witness :
  (let? (crc, _) := updcrc 0 None in snd <$> updcrc crc (Some ([1; 2] ++ [3; 4; 5; 6] ++ [7]))) ≠
  (let? (crc, _) := updcrc 0 None in snd <$> updcrc crc (Some ([1; 2] ++ [9; 4; 0; 255] ++ [7]))).
Proof.
  apply (updcrc_detects_bursts [1; 2] [3; 4; 5; 6] [9; 4; 0; 255] [7] 0).
  1-4: apply (bool_decide_unpack _); vm_compute; exact I.
  - reflexivity.
  - cbn. lia.
  - discriminate.
Defined.
