(* ===== verification/BootFs.v ===== *)
(** * include/bootfs.h: the interface of the file systems

    [bootfs] is the C structure: a record of functions over the private state
    of the file systems ([F]) and the state of utils.c.  A buffer an operation
    fills is passed as the bytes it has from that address on and comes back as
    they are afterwards.  The end of the file are C strings in arrays, as the
    callers keep file names. *)

From Stdlib Require Import Ascii String.
From S2P Require Import Prelude CString Vsprintf Cons Utils Aboot.

Open Scope Z_scope.
Open Scope list_scope.

(** The fields of [struct stat] that are filled in. *)
Record stat := Stat {
  st_ino : Z; st_mode : Z; st_nlink : Z; st_uid : Z; st_gid : Z;
  st_size : Z; st_blocks : Z; st_atime : Z; st_mtime : Z; st_ctime : Z
}.

Record bootfs (F K : Type) := Bootfs {
  fs_type : Z;
  blocksize : F → Z;
  mount : Z → Z → Z → M (F * ustate K) Z;
  open : list Z → M (F * ustate K) Z;
  bread : Z → Z → Z → list Z → M (F * ustate K) (Z * list Z);
  close : Z → M (F * ustate K) unit;
  readdir : Z → Z → M (F * ustate K) (option (list Z));
  fstat : Z → stat → M (F * ustate K) (Z * stat)
}.
Arguments Bootfs {F K}.
Arguments fs_type {F K} b.
Arguments blocksize {F K} b.
Arguments mount {F K} b.
Arguments open {F K} b.
Arguments bread {F K} b.
Arguments close {F K} b.
Arguments readdir {F K} b.
Arguments fstat {F K} b.

Section fs_monad.
Context {F K : Type} `{ConsIO K}.

Definition on_ustate {A} (m : M (ustate K) A) : M (F * ustate K) A := λ s,
  match m s.2 with
  | Ret a u => Ret a (s.1, u)
  | Jump e u => Jump e (s.1, u)
  | Trap => Trap
  | Diverge => Diverge
  end.

Definition get_fs {A} (f : F → A) : M (F * ustate K) A := gets (λ s, f s.1).
Definition mod_fs (f : F → F) : M (F * ustate K) unit := modify (λ s, (f s.1, s.2)).

Definition fs_printf (fmt : string) (args : list arg) : M (F * ustate K) unit :=
  on_ustate (on_con (io_printf fmt args)) ;;; ret tt.

Definition fs_read (dev : Z) (buf : list Z) (count offset : Z) : M (F * ustate K) (Z * list Z) :=
  on_ustate (on_con (io_read dev buf count offset)).

Definition fs_malloc (size : Z) : M (F * ustate K) Z := on_ustate (malloc size).
End fs_monad.

(** ** Strings in arrays *)

(** The characters before the NUL of an array, [None] when there is none. *)
Fixpoint cstring (buf : list Z) : option (list Z) :=
  match buf with
  | [] => None
  | c :: buf => if c =? 0 then Some [] else (cons c) <$> cstring buf
  end.

(** [strcpy(buf, s)] into an array. *)
Definition put_cstring (buf : list Z) (s : list Z) : option (list Z) := asplice buf 0 (s ++ [0]).

(** [strchr]: the rest of the string from the first [c] on. *)
Fixpoint str_from (s : list Z) (c : Z) : option (list Z) :=
  match s with
  | [] => if c =? 0 then Some [] else None
  | x :: s' => if x =? c then Some s else str_from s' c
  end.

(** [strrchr] of lib/string.c, which does not look at the first character. *)
Definition str_last (s : list Z) (c : Z) : option Z := Z.succ <$> last_pos c (tail s).

(** [while ( *p == ' ') ++p]. *)
Fixpoint skip_spaces (s : list Z) : list Z :=
  match s with
  | c :: s' => if c =? 32 then skip_spaces s' else s
  | [] => []
  end.

Definition is_prefix (p s : list Z) : bool := bool_decide (take (length p) s = p).

Lemma cstring_app s rest : Forall (λ c, c ≠ 0) s → cstring (s ++ 0 :: rest) = Some s.
Proof.
  induction 1 as [|c s Hc _ IH]; [done|]. cbn [app cstring].
  rewrite (proj2 (Z.eqb_neq c 0)) by done. by rewrite IH.
Qed.

Lemma cstring_Some buf s : cstring buf = Some s →
  Forall (λ c, c ≠ 0) s ∧ ∃ rest, buf = s ++ 0 :: rest.
Proof.
  revert s. induction buf as [|c buf IH]; intros s E; [done|]. cbn [cstring] in E.
  destruct (Z.eqb_spec c 0) as [->|Hc].
  - injection E as <-. split; [constructor|by exists buf].
  - apply fmap_Some in E as (t&E&->). destruct (IH t E) as (HF&rest&->).
    split; [by constructor|by exists rest].
Qed.

(** ** The loader's state *)

(** The globals of aboot.c, the file systems' own state, and the memory behind
    the addresses a kernel or a ramdisk is loaded at. *)
Record loader (F K : Type) := Loader {
  ab : aboot K;
  fss : F;
  kmem : mem
}.
Arguments Loader {F K}.
Arguments ab {F K} l.
Arguments fss {F K} l.
Arguments kmem {F K} l.

(** [n] bytes at [p], where all of them are mapped. *)
Definition read_mem (m : mem) (p n : Z) : option (list Z) := mapM (λ q, m !! q) (seqZ p n).

(** [l] stored at [p], where all of it is mapped. *)
Definition write_mem (m : mem) (p : Z) (l : list Z) : option mem :=
  let? _ := read_mem m p (zlen l) in Some (mem_write m p l).

Section loader.
Context {F K : Type} `{ConsIO K}.

Definition on_ab {A} (m : M (aboot K) A) : M (loader F K) A := λ s,
  match m (ab s) with
  | Ret a x => Ret a (Loader x (fss s) (kmem s))
  | Jump e x => Jump e (Loader x (fss s) (kmem s))
  | Trap => Trap
  | Diverge => Diverge
  end.

Definition set_sys (a : aboot K) (u : ustate K) : aboot K :=
  Aboot u (start_addr a) (entry_addr a) (chunks a) (nchunks a) (boot_file a)
    (initrd_file a) (kernel_args a) (bss_start a) (bss_size a) (initrd_start a) (initrd_size a).

(** A call through a file system's table. *)
Definition on_fs {A} (m : M (F * ustate K) A) : M (loader F K) A := λ s,
  match m (fss s, sys (ab s)) with
  | Ret a (f, u) => Ret a (Loader (set_sys (ab s) u) f (kmem s))
  | Jump e (f, u) => Jump e (Loader (set_sys (ab s) u) f (kmem s))
  | Trap => Trap
  | Diverge => Diverge
  end.

Definition tell (fmt : string) (args : list arg) : M (loader F K) unit := on_ab (say fmt args).

Definition peek_mem (p n : Z) : M (loader F K) (list Z) :=
  let! m := gets kmem in lift_opt (read_mem m p n).

Definition poke_mem (p : Z) (l : list Z) : M (loader F K) unit :=
  let! m := gets kmem in
  let! m := lift_opt (write_mem m p l) in
  modify (λ s, Loader (ab s) (fss s) m).
End loader.

Lemma read_mem_bytes m p l : bytes_at m p l → read_mem m p (zlen l) = Some l.
Proof.
  intros Hb. unfold read_mem. apply mapM_Some. revert p Hb.
  induction l as [|b l IH]; intros p Hb; [constructor|].
  rewrite zlen_cons. rewrite seqZ_cons by (pose proof (zlen_nonneg l); lia).
  apply bytes_at_cons in Hb as [Hb Hl]. constructor; [done|].
  replace (Z.pred (1 + zlen l)) with (zlen l) by lia. apply IH. by rewrite <- Z.add_1_r.
Qed.

Lemma read_mem_length m p n l : read_mem m p n = Some l → 0 <= n → zlen l = n.
Proof.
  intros E Hn. apply mapM_Some, Forall2_length in E. unfold zlen. rewrite <- E, length_seqZ. lia.
Qed.

Lemma read_mem_mapped m p n : 0 <= n → mapped m p n → ∃ l, read_mem m p n = Some l ∧ zlen l = n.
Proof.
  intros Hn Hm. assert (is_Some (read_mem m p n)) as [l E].
  { apply mapM_is_Some. apply mapped_seqZ in Hm. done. }
  exists l. split; [done|]. by eapply read_mem_length.
Qed.

Lemma write_mem_mapped m p l : mapped m p (zlen l) → write_mem m p l = Some (mem_write m p l).
Proof.
  intros Hm. unfold write_mem. destruct (read_mem_mapped m p (zlen l) (zlen_nonneg l) Hm) as (x&->&_). done.
Qed.

(** Memory that holds a piece of [l], read back. *)
Lemma read_mem_cells m p l off n :
  0 <= off → 0 <= n → off + n <= zlen l →
  (∀ i, 0 <= i < n → m !! (p + i) = aget l (off + i)) → read_mem m p n = aslice l off n.
Proof.
  intros Ho Hn Hl Hm. destruct (aslice_is_Some l off n) as [x Ex]; [done..|]. rewrite Ex.
  pose proof (aslice_len _ _ _ _ Ex) as Hzx. rewrite <- Hzx. apply read_mem_bytes. intros i b Hb.
  rewrite <- aget_of_nat in Hb. pose proof (aget_range _ _ _ Hb). rewrite Hm by lia.
  rewrite <- (aget_aslice _ _ _ _ _ Ex) by lia. done.
Qed.
