(* ===== verification/Gzip.v ===== *)
(** * zip/misc.c and zip/unzip.c: decompressing a kernel file

    [gzip] holds the globals of the two files (and [outcnt] and [window], which
    inflate.c knows as [wp] and [slide]) on top of the loader's state.  Both
    buffers come from [malloc], so they have addresses: a read behind the end of
    the window finds the input buffer if it lies there. *)

From Stdlib Require Import Ascii String.
From S2P Require Import Prelude CString Vsprintf Cons Utils Aboot Huft Inflate Crc BootFs.

Open Scope Z_scope.
Open Scope list_scope.

Definition INBUFSIZ : Z := 0x20000.
Definition EXTHDR : Z := 16.
Definition DEFLATED : Z := 8.
Definition STORED : Z := 0.
Definition LOCSIG : Z := 0x04034b50.
Definition LOCCRC : Z := 14.
Definition LOCSIZ : Z := 18.
Definition LOCLEN : Z := 22.

Definition CONTINUATION : Z := 0x02.
Definition EXTRA_FIELD : Z := 0x04.
Definition ORIG_NAME : Z := 0x08.
Definition COMMENT : Z := 0x10.
Definition ENCRYPTED : Z := 0x20.
Definition RESERVED : Z := 0xc0.

Record gzip (F K : Type) := Gzip {
  base : loader F K;
  inbuf : list Z;
  inbuf_at : Z;
  slide : list Z;
  slide_at : Z;
  wp : Z;                  (* outcnt *)
  insize : Z;
  inptr : Z;
  bytes_out : Z;
  method : Z;
  block_number : Z;
  input_fd : Z;
  chunk : Z;
  file_offset : Z;
  crc : Z;                 (* updcrc's register *)
  pkzip : Z;
  extended : Z
}.
Arguments Gzip {F K}.
Arguments base {F K} g.
Arguments inbuf {F K} g.
Arguments inbuf_at {F K} g.
Arguments slide {F K} g.
Arguments slide_at {F K} g.
Arguments wp {F K} g.
Arguments insize {F K} g.
Arguments inptr {F K} g.
Arguments bytes_out {F K} g.
Arguments method {F K} g.
Arguments block_number {F K} g.
Arguments input_fd {F K} g.
Arguments chunk {F K} g.
Arguments file_offset {F K} g.
Arguments crc {F K} g.
Arguments pkzip {F K} g.
Arguments extended {F K} g.

Section setters.
Context {F K : Type}.

Definition set_base (b : loader F K) (g : gzip F K) : gzip F K :=
  Gzip b (inbuf g) (inbuf_at g) (slide g) (slide_at g) (wp g) (insize g) (inptr g) (bytes_out g)
    (method g) (block_number g) (input_fd g) (chunk g) (file_offset g) (crc g) (pkzip g) (extended g).

Definition set_buffers (i : list Z) (iat : Z) (w : list Z) (wat : Z) (g : gzip F K) : gzip F K :=
  Gzip (base g) i iat w wat (wp g) (insize g) (inptr g) (bytes_out g)
    (method g) (block_number g) (input_fd g) (chunk g) (file_offset g) (crc g) (pkzip g) (extended g).

Definition set_wp (n : Z) (g : gzip F K) : gzip F K :=
  Gzip (base g) (inbuf g) (inbuf_at g) (slide g) (slide_at g) n (insize g) (inptr g) (bytes_out g)
    (method g) (block_number g) (input_fd g) (chunk g) (file_offset g) (crc g) (pkzip g) (extended g).

Definition set_input (size ptr blk : Z) (g : gzip F K) : gzip F K :=
  Gzip (base g) (inbuf g) (inbuf_at g) (slide g) (slide_at g) (wp g) size ptr (bytes_out g)
    (method g) blk (input_fd g) (chunk g) (file_offset g) (crc g) (pkzip g) (extended g).

Definition set_output (n c off : Z) (g : gzip F K) : gzip F K :=
  Gzip (base g) (inbuf g) (inbuf_at g) (slide g) (slide_at g) (wp g) (insize g) (inptr g) n
    (method g) (block_number g) (input_fd g) c off (crc g) (pkzip g) (extended g).

Definition set_method (m : Z) (g : gzip F K) : gzip F K :=
  Gzip (base g) (inbuf g) (inbuf_at g) (slide g) (slide_at g) (wp g) (insize g) (inptr g) (bytes_out g)
    m (block_number g) (input_fd g) (chunk g) (file_offset g) (crc g) (pkzip g) (extended g).

Definition set_input_fd (fd : Z) (g : gzip F K) : gzip F K :=
  Gzip (base g) (inbuf g) (inbuf_at g) (slide g) (slide_at g) (wp g) (insize g) (inptr g) (bytes_out g)
    (method g) (block_number g) fd (chunk g) (file_offset g) (crc g) (pkzip g) (extended g).

Definition set_crc (c : Z) (g : gzip F K) : gzip F K :=
  Gzip (base g) (inbuf g) (inbuf_at g) (slide g) (slide_at g) (wp g) (insize g) (inptr g) (bytes_out g)
    (method g) (block_number g) (input_fd g) (chunk g) (file_offset g) c (pkzip g) (extended g).

Definition set_pkzip (p e : Z) (g : gzip F K) : gzip F K :=
  Gzip (base g) (inbuf g) (inbuf_at g) (slide g) (slide_at g) (wp g) (insize g) (inptr g) (bytes_out g)
    (method g) (block_number g) (input_fd g) (chunk g) (file_offset g) (crc g) p e.
End setters.

Section gzip_code.
Context {F K : Type} `{ConsIO K} (bfs : bootfs F K).

Definition on_base {A} (m : M (loader F K) A) : M (gzip F K) A := λ g,
  match m (base g) with
  | Ret a b => Ret a (set_base b g)
  | Jump e b => Jump e (set_base b g)
  | Trap => Trap
  | Diverge => Diverge
  end.

Definition gz_printf (fmt : string) (args : list arg) : M (gzip F K) unit := on_base (tell fmt args).

Definition gz_malloc (n : Z) : M (gzip F K) Z := on_base (on_ab (on_sys (malloc n))).

Definition gz_error {A} (x : string) : M (gzip F K) A := on_base (on_ab (on_sys (unzip_error x))).

(** ** misc.c *)

Definition clear_bufs : M (gzip F K) unit :=
  modify (λ g, set_wp 0 (set_input 0 0 0 (set_output 0 0 0 g))).

Definition do_updcrc (s : option (list Z)) : M (gzip F K) Z :=
  let! c := gets crc in
  let! ' (c, r) := lift_opt (updcrc c s) in
  modify (set_crc c) ;;;
  ret r.

Definition fill_inbuf : M (gzip F K) Z :=
  let! bs := gets (λ g, blocksize bfs (fss (base g))) in
  if bs =? 0 then trap
  else
    (if negb (Z.rem INBUFSIZ bs =? 0) then
       gz_printf ("INBUFSIZ (%d) is not multiple of block-size (%d)" ++ nl) [AInt INBUFSIZ; AInt bs] ;;;
       gz_error "bad block-size"
     else ret tt) ;;;
    let! blk := gets block_number in
    (if blk <? 0 then gz_error "attempted to read past eof" else ret tt) ;;;
    let nblocks := Z.quot INBUFSIZ bs in
    let! fd := gets input_fd in
    let! buf := gets inbuf in
    let! ' (nread, buf) := on_base (on_fs (bread bfs fd blk nblocks buf)) in
    modify (λ g, set_buffers buf (inbuf_at g) (slide g) (slide_at g) g) ;;;
    (if negb (nread =? nblocks * bs) then
       if nread <? nblocks * bs then
         modify (λ g, set_input (u32 (nblocks * bs)) (inptr g) (-1) g)
       else
         gz_printf ("Read returned %ld instead of %ld bytes" ++ nl) [AInt nread; AInt (nblocks * bs)] ;;;
         gz_error "read error"
     else modify (λ g, set_input INBUFSIZ (inptr g) (s32 (blk + nblocks)) g)) ;;;
    modify (λ g, set_input (insize g) 1 (block_number g) g) ;;;
    lift_opt (aget buf 0).

(* the macro of gzip.h *)
Definition get_char : M (gzip F K) Z :=
  let! p := gets inptr in
  let! n := gets insize in
  if p <? n then
    let! buf := gets inbuf in
    let! c := lift_opt (aget buf p) in
    modify (λ g, set_input (insize g) (u32 (p + 1)) (block_number g) g) ;;;
    ret c
  else fill_inbuf.

Definition unget_char : M (gzip F K) unit :=
  modify (λ g, set_input (insize g) (u32 (inptr g - 1)) (block_number g) g).

(** The bytes of the window, and of what lies behind it. *)
Definition from_window (g : gzip F K) : list Z :=
  slide g ++ (if inbuf_at g =? slide_at g + zlen (slide g) then inbuf g else []).

(** One turn of the loop over the segments; [inr] leaves it. *)
Definition store_chunk : M (gzip F K) (unit + unit) :=
  let! k := gets chunk in
  let! n := gets (λ g, nchunks (ab (base g))) in
  if negb (k <? n) then ret (inr tt)
  else
    let! cs := gets (λ g, chunks (ab (base g))) in
    let! c := lift_opt (aget cs k) in
    let! fo := gets file_offset in
    let! out := gets wp in
    let chunk_offset := s64 (fo - offset c) in
    let '(src, dest) :=
      (if chunk_offset <? 0 then (- chunk_offset, addr c) else (0, u64 (addr c + chunk_offset))) in
    if out <=? src then
      modify (λ g, set_output (bytes_out g) (chunk g) (u64 (fo + out)) g) ;;;
      ret (inr tt)
    else
      (if chunk_offset =? 0 then
         gz_printf ("aboot: segment %d, %ld bytes at %#lx" ++ nl) [AInt k; AInt (size c); AInt (addr c)]
       else ret tt) ;;;
      let to_copy := s64 (offset c + size c - fo) in
      let to_copy := if out <? to_copy then out else to_copy in
      let! w := gets from_window in
      let! bytes := lift_opt (aslice w src to_copy) in
      on_base (poke_mem dest bytes) ;;;
      modify (λ g, set_output (bytes_out g) (chunk g) (u64 (fo + to_copy)) g) ;;;
      if to_copy <? out then
        modify (λ g, set_wp (u32 (out - to_copy))
          (set_output (bytes_out g) (s32 (chunk g + 1)) (file_offset g) g)) ;;;
        ret (inl tt)
      else ret (inr tt).

Definition flush_slide : M (gzip F K) unit :=
  let! out := gets wp in
  if out =? 0 then ret tt
  else
    let! w := gets slide in
    let! bytes := lift_opt (aslice w 0 out) in
    do_updcrc (Some bytes) ;;;
    let! n := gets bytes_out in
    (if n =? 0 then
       let! w := gets from_window in
       let! ok := on_base (on_ab (is_loadable_elf w out)) in
       if ok then ret tt else gz_error "invalid exec header"
     else ret tt) ;;;
    modify (λ g, set_output (u64 (bytes_out g + out)) (chunk g) (file_offset g) g) ;;;
    let! n := gets (λ g, nchunks (ab (base g))) in
    let! k := gets chunk in
    loop (S (Z.to_nat (n - k))) (λ _, store_chunk) tt.

(** What inflate.c sees of all this. *)
#[export] Instance gzip_env : InflateEnv (gzip F K) := {|
  get_byte := get_char;
  unget_byte := unget_char;
  flush_window := flush_slide;
  env_malloc := gz_malloc;
  env_unzip_error := @gz_error;
  window := slide;
  set_window := λ l g, set_buffers (inbuf g) (inbuf_at g) l (slide_at g) g;
  outcnt := wp;
  set_outcnt := set_wp
|}.

(* skips the bytes up to and including a NUL; [fuel] bounds their number *)
Definition skip_name (fuel : nat) : M (gzip F K) unit :=
  loop fuel (λ _, let! c := get_char in ret (if c =? 0 then inr tt else inl tt)) tt.

Definition skip_bytes (n : Z) : M (gzip F K) unit := times (Z.to_nat n) (λ _, get_char ;;; ret tt) tt.

Definition flag (flags bit : Z) : bool := negb (Z.land flags bit =? 0).

Definition get_method (fuel : nat) : M (gzip F K) Z :=
  let! m0 := get_char in
  let! m1 := get_char in
  modify (set_method (-1)) ;;;
  (if bool_decide ([m0; m1] = [0x1f; 0x8b]) || bool_decide ([m0; m1] = [0x1f; 0x9e]) then
     let! m := get_char in
     modify (set_method m) ;;;
     let! flags := get_char in
     (if flag flags ENCRYPTED then gz_error "input is encrypted" else ret tt) ;;;
     (if flag flags CONTINUATION then gz_error "multi part input" else ret tt) ;;;
     (if flag flags RESERVED then gz_error "input has invalid flags" else ret tt) ;;;
     skip_bytes 6 ;;;
     (if flag flags EXTRA_FIELD then
        let! lo := get_char in
        let! hi := get_char in
        skip_bytes (Z.lor lo (Z.shiftl hi 8))
      else ret tt) ;;;
     (if flag flags ORIG_NAME then skip_name fuel else ret tt) ;;;
     (if flag flags COMMENT then skip_name fuel else ret tt)
   else gz_error "unknown compression method") ;;;
  gets method.

(** ** unzip.c *)

(* put_char of gzip.h *)
Definition put_char (c : Z) : M (gzip F K) unit :=
  let! w := gets slide in
  let! n := gets wp in
  let! w := lift_opt (aset w n (u8 c)) in
  modify (λ g, set_wp (u32 (n + 1)) (set_buffers (inbuf g) (inbuf_at g) w (slide_at g) g)) ;;;
  if u32 (n + 1) =? WSIZE then flush_slide else ret tt.

Fixpoint get_chars (n : nat) : M (gzip F K) (list Z) :=
  match n with
  | O => ret []
  | S n => let! c := get_char in let! l := get_chars n in ret (c :: l)
  end.

Definition read_le (buf : list Z) (off : Z) : M (gzip F K) Z := lift_opt (get_u32 buf off).

Definition run_inflate (fuel : nat) : M (gzip F K) Z := λ g,
  match inflate fuel (IState g 0 0 0 []) with
  | Ret r s => Ret r (env s)
  | Jump e s => Jump e (env s)
  | Trap => Trap
  | Diverge => Diverge
  end.

Definition unzip (fuel : nat) : M (gzip F K) unit :=
  do_updcrc None ;;;
  let! pk := gets pkzip in
  let! ext := gets extended in
  let! ' (orig_crc, orig_len) :=
    (if negb (pk =? 0) && (ext =? 0) then
       let! buf := gets inbuf in
       let! c := read_le buf LOCCRC in
       let! l := read_le buf LOCLEN in
       ret (c, l)
     else ret (0, 0)) in
  let! m := gets method in
  (if m =? DEFLATED then
     let! res := run_inflate fuel in
     if res =? 3 then gz_error "out of memory"
     else if negb (res =? 0) then gz_error "invalid compressed format"
     else ret tt
   else if negb (pk =? 0) && (m =? STORED) then
     let! buf := gets inbuf in
     let! n := read_le buf LOCLEN in
     let! sz := read_le buf LOCSIZ in
     (if negb (n =? sz) then gz_error "length mismatch" else ret tt) ;;;
     times (Z.to_nat n) (λ _, let! c := get_char in put_char c) tt
   else gz_error "internal error, invalid method") ;;;
  let! ' (orig_crc, orig_len) :=
    (if pk =? 0 then
       let! buf := get_chars 8 in
       let! c := read_le buf 0 in
       let! l := read_le buf 4 in
       ret (c, l)
     else if negb (ext =? 0) then
       let! buf := get_chars (Z.to_nat EXTHDR) in
       let! c := read_le buf 4 in
       let! l := read_le buf 12 in
       ret (c, l)
     else ret (orig_crc, orig_len)) in
  let! c := do_updcrc (Some []) in
  (if negb (orig_crc =? c) then gz_error "crc error" else ret tt) ;;;
  let! n := gets bytes_out in
  (if negb (orig_len =? n) then gz_error "length error" else ret tt) ;;;
  let! p := gets inptr in
  let! n := gets insize in
  (if negb (pk =? 0) && (u32 (p + 4) <? n) then
     let! buf := gets inbuf in
     let! sig := read_le buf p in
     if sig =? LOCSIG then gz_error "zip file has more than one entry" else ret tt
   else ret tt) ;;;
  modify (set_pkzip 0 0).

(** [fuel] bounds a name in the header, the blocks and the symbols of one. *)
Definition uncompress_kernel (fuel : nat) (fd : Z) : M (gzip F K) Z :=
  modify (set_input_fd fd) ;;;
  let! iat := gz_malloc INBUFSIZ in
  let! wat := gz_malloc WSIZE in
  modify (set_buffers (replicate (Z.to_nat INBUFSIZ) 0) iat (replicate (Z.to_nat WSIZE) 0) wat) ;;;
  clear_bufs ;;;
  let! m := get_method fuel in
  modify (set_method m) ;;;
  unzip fuel ;;;
  ret 1.
End gzip_code.
