(* ===== verification/Ext2Disk.v ===== *)
(** * The on-disk format of ext2, for the loader and the tools

    A structure is kept as its bytes; here are the offsets of the fields that
    are used, those of <ext2fs/ext2_fs.h>, which are the format's.  The fields
    that only the tools change have a second accessor that writes them. *)

From S2P Require Import Prelude.

Definition EXT2_MIN_BLOCK_SIZE : Z := 1024.
Definition EXT2_SUPER_MAGIC : Z := 0xef53.
Definition EXT2_NDIR_BLOCKS : Z := 12.
Definition EXT2_IND_BLOCK : Z := 12.
Definition EXT2_DIND_BLOCK : Z := 13.
Definition EXT2_ROOT_INO : Z := 2.
Definition EXT4_EXTENTS_FL : Z := 0x80000.
Definition EXT4_EXT_MAGIC : Z := 0xf30a.
Definition sizeof_sb : Z := 1024.
Definition sizeof_gd : Z := 32.
Definition sizeof_inode : Z := 128.

Definition S_ISDIR (mode : Z) : bool := Z.land mode 0xf000 =? 0x4000.
Definition S_ISLNK (mode : Z) : bool := Z.land mode 0xf000 =? 0xa000.

Definition s_blocks_count (sb : list Z) := get_u32 sb 4.
Definition s_first_data_block (sb : list Z) := get_u32 sb 20.
Definition s_log_block_size (sb : list Z) := get_u32 sb 24.
Definition s_blocks_per_group (sb : list Z) := get_u32 sb 32.
Definition s_inodes_per_group (sb : list Z) := get_u32 sb 40.
Definition s_magic (sb : list Z) := get_u16 sb 56.

(** EXT2_INODE_SIZE: fixed in revision 0. *)
Definition s_inode_size (sb : list Z) : option Z :=
  let? rev := get_u32 sb 76 in
  if rev =? 0 then Some 128 else get_u16 sb 88.

Definition bg_inode_table (gds : list Z) (group : Z) := get_u32 gds (sizeof_gd * group + 8).

Definition i_mode (ip : list Z) := get_u16 ip 0.
Definition i_uid (ip : list Z) := get_u16 ip 2.
Definition i_size (ip : list Z) := get_u32 ip 4.
Definition i_atime (ip : list Z) := get_u32 ip 8.
Definition i_ctime (ip : list Z) := get_u32 ip 12.
Definition i_mtime (ip : list Z) := get_u32 ip 16.
Definition i_gid (ip : list Z) := get_u16 ip 24.
Definition i_links_count (ip : list Z) := get_u16 ip 26.
Definition i_blocks (ip : list Z) := get_u32 ip 28.
Definition i_flags (ip : list Z) := get_u32 ip 32.
(* i_block[n], unsigned *)
Definition i_block (ip : list Z) (n : Z) : option Z :=
  if decide (0 <= n < 15) then get_u32 ip (40 + 4 * n) else None.


Definition bg_block_bitmap (gds : list Z) (group : Z) := get_u32 gds (sizeof_gd * group).
Definition bg_inode_bitmap (gds : list Z) (group : Z) := get_u32 gds (sizeof_gd * group + 4).
Definition bg_free_blocks_count (gds : list Z) (group : Z) := get_u16 gds (sizeof_gd * group + 12).
Definition bg_free_inodes_count (gds : list Z) (group : Z) := get_u16 gds (sizeof_gd * group + 14).
Definition bg_used_dirs_count (gds : list Z) (group : Z) := get_u16 gds (sizeof_gd * group + 16).

(** ** The block map of a file

    [rd] gives the contents of a block, [n] is the number of pointers in one.
    Number 0 stands for a block that is not there, all of whose pointers are 0. *)

Definition pointer_in (rd : Z → option (list Z)) (no i : Z) : option Z :=
  if no =? 0 then Some 0
  else let? b := rd no in s32 <$> get_u32 b (4 * i).

(** The block of the device that holds block [k] of the file, 0 for a hole. *)
Definition block_map (rd : Z → option (list Z)) (n : Z) (ip : list Z) (k : Z) : option Z :=
  if k <? 12 then s32 <$> i_block ip k
  else if k <? 12 + n then
    let? ind := s32 <$> i_block ip 12 in pointer_in rd ind (k - 12)
  else if k <? 12 + n + n * n then
    let? dind := s32 <$> i_block ip 13 in
    let? ind := pointer_in rd dind ((k - 12 - n) / n) in
    pointer_in rd ind ((k - 12 - n) mod n)
  else None.

(** ** The contents of a file: [n] blocks from the [k]-th, [fb] giving each *)

Fixpoint blocks_from (fb : Z → option (list Z)) (k : Z) (n : nat) : option (list Z) :=
  match n with
  | O => Some []
  | S n => let? b := fb k in let? bs := blocks_from fb (k + 1) n in Some (b ++ bs)
  end.


Lemma blocks_from_add fb a : ∀ k b data, blocks_from fb k (a + b) = Some data →
  ∃ d1 d2, blocks_from fb k a = Some d1 ∧ blocks_from fb (k + Z.of_nat a) b = Some d2 ∧ data = d1 ++ d2.
Proof.
  induction a as [|a IH]; intros k b data E.
  { exists [], data. by rewrite Z.add_0_r. }
  cbn [Nat.add blocks_from] in *. destruct (fb k) as [x|]; [|done].
  destruct (blocks_from fb (k + 1) (a + b)) as [y|] eqn:Ey; [|done]. injection E as <-.
  destruct (IH _ _ _ Ey) as (d1&d2&E1&E2&->). exists (x ++ d1), d2. rewrite E1.
  replace (k + Z.of_nat (S a)) with (k + 1 + Z.of_nat a) by lia. by rewrite app_assoc.
Qed.

Lemma blocks_from_len fb B n : (∀ k b, fb k = Some b → zlen b = B) →
  ∀ k data, blocks_from fb k n = Some data → zlen data = Z.of_nat n * B.
Proof.
  intros Hfb. induction n as [|n IH]; intros k data E; [by injection E as <-|]. cbn [blocks_from] in E.
  destruct (fb k) as [x|] eqn:Ex; [|done].
  destruct (blocks_from fb (k + 1) n) as [y|] eqn:Ey; [|done]. injection E as <-.
  rewrite zlen_app, (Hfb _ _ Ex), (IH _ _ Ey). lia.
Qed.

Lemma blocks_from_at fb n : ∀ k data j, blocks_from fb k n = Some data → 0 <= j < Z.of_nat n → is_Some (fb (k + j)).
Proof.
  induction n as [|n IH]; intros k data j E Hj; [lia|]. cbn [blocks_from] in E.
  destruct (fb k) as [x|] eqn:Ex; [|done]. destruct (blocks_from fb (k + 1) n) as [y|] eqn:Ey; [|done].
  destruct (decide (j = 0)) as [->|]; [by rewrite Z.add_0_r, Ex|].
  replace (k + j) with (k + 1 + (j - 1)) by lia. eapply IH; [exact Ey|lia].
Qed.
