(* ===== verification/Ufs.v ===== *)
(** * fs/ufs.c: reading files of a BSD fast file system

    The superblock and the inode are kept as the bytes read; the offsets are
    those of include/ufs.h on the Alpha, with daddr_t a signed and ino_t an
    unsigned 32-bit integer.  A pointer that may be NULL is an option: the
    superblock before the first mount, the buffers of a file.  The path is
    tokenized in [namebuf], so a pointer into it is an offset.  [fuel] bounds the
    loops over blocks, directory entries and path components. *)

From Stdlib Require Import Ascii String.
From S2P Require Import Prelude CString Vsprintf Cons Utils Aboot BootFs.

Open Scope Z_scope.
Open Scope list_scope.

Definition MAX_OPEN_FILES : Z := 1.
Definition DEV_BSIZE : Z := 512.
Definition MAXBSIZE : Z := 8192.
Definition MAXPATHLEN : Z := 1024.
Definition MAXSYMLINKS : Z := 8.
Definition FS_SYMLINK_LOOP : Z := 5003.
Definition SBSIZE : Z := 8192.
Definition SBLOCK : Z := 16.
Definition ROOTINO : Z := 2.
Definition FS_MAGIC : Z := 0x011954.
Definition sizeof_fs : Z := 1380.
Definition sizeof_dinode : Z := 128.
Definition NDADDR : Z := 12.
Definition NIADDR : Z := 3.
Definition IFMT : Z := 0xf000.
Definition IFDIR : Z := 0x4000.
Definition IFLNK : Z := 0xa000.
Definition IC_FASTLINK : Z := 1.

(** ** The on-disk format *)

(** An int. *)
Definition get_s32 (b : list Z) (off : Z) : option Z := s32 <$> get_u32 b off.

Definition fs_iblkno (fs : list Z) := get_s32 fs 16.
Definition fs_cgoffset (fs : list Z) := get_s32 fs 24.
Definition fs_cgmask (fs : list Z) := get_s32 fs 28.
Definition fs_bsize (fs : list Z) := get_s32 fs 48.
Definition fs_fsize (fs : list Z) := get_s32 fs 52.
Definition fs_bmask (fs : list Z) := get_s32 fs 72.
Definition fs_fmask (fs : list Z) := get_s32 fs 76.
Definition fs_bshift (fs : list Z) := get_s32 fs 80.
Definition fs_fshift (fs : list Z) := get_s32 fs 84.
Definition fs_fragshift (fs : list Z) := get_s32 fs 96.
Definition fs_fsbtodb (fs : list Z) := get_s32 fs 100.
Definition fs_nindir (fs : list Z) := get_s32 fs 116.
Definition fs_inopb (fs : list Z) := get_s32 fs 120.
Definition fs_ipg (fs : list Z) := get_s32 fs 184.
Definition fs_fpg (fs : list Z) := get_s32 fs 188.
Definition fs_magic (fs : list Z) := get_s32 fs 1372.

Definition ic_mode (ic : list Z) := get_u16 ic 0.
Definition ic_size (ic : list Z) : option Z := s64 <$> get_u64 ic 8.
Definition ic_db (ic : list Z) (i : Z) : option Z := if decide (0 <= i < NDADDR) then get_s32 ic (40 + 4 * i) else None.
Definition ic_ib (ic : list Z) (i : Z) : option Z := if decide (0 <= i < NIADDR) then get_s32 ic (88 + 4 * i) else None.
Definition ic_flags (ic : list Z) := get_s32 ic 100.

(** [x << n] where the count is in range. *)
Definition shl32 (x n : Z) : option Z := if decide (0 <= n < 32) then Some (s32 (Z.shiftl x n)) else None.
Definition shl64 (x n : Z) : option Z := if decide (0 <= n < 64) then Some (s64 (Z.shiftl x n)) else None.
Definition shr64 (x n : Z) : option Z := if decide (0 <= n < 64) then Some (Z.shiftr x n) else None.

Definition fsbtodb (fs : list Z) (b : Z) : option Z := let? k := fs_fsbtodb fs in shl32 b k.

(** The byte of the device where block [b] starts: an int is multiplied. *)
Definition block_offset (fs : list Z) (po b : Z) : option Z :=
  let? n := fsbtodb fs b in Some (s64 (s32 (n * DEV_BSIZE) + po)).

Definition cgstart (fs : list Z) (c : Z) : option Z :=
  let? fpg := fs_fpg fs in
  let? off := fs_cgoffset fs in
  let? mask := fs_cgmask fs in
  Some (u32 (s32 (fpg * c) + off * Z.land c (u32 (Z.lnot mask)))).
Definition cgimin (fs : list Z) (c : Z) : option Z :=
  let? s := cgstart fs c in let? b := fs_iblkno fs in Some (u32 (s + b)).

(** The block of an inode, and its place in it; a division by zero traps. *)
Definition itod (fs : list Z) (x : Z) : option Z :=
  let? ipg := fs_ipg fs in
  let? inopb := fs_inopb fs in
  let? k := fs_fragshift fs in
  if (ipg =? 0) || (inopb =? 0) then None
  else
    let? m := cgimin fs (x / u32 ipg) in
    if decide (0 <= k < 32)
    then Some (s32 (m + u32 (Z.shiftl (x mod u32 ipg / u32 inopb) k))) else None.
Definition itoo (fs : list Z) (x : Z) : option Z :=
  let? inopb := fs_inopb fs in if inopb =? 0 then None else Some (x mod u32 inopb).

Definition numfrags (fs : list Z) (loc : Z) : option Z := let? k := fs_fshift fs in shr64 loc k.
Definition blkoff (fs : list Z) (loc : Z) : option Z :=
  let? m := fs_bmask fs in Some (Z.land loc (Z.lnot m)).
Definition fragroundup (fs : list Z) (size : Z) : option Z :=
  let? n := fs_fsize fs in
  let? m := fs_fmask fs in
  Some (Z.land (s64 (size + n - 1)) m).

Definition blksize (fs ic : list Z) (lbn : Z) : option Z :=
  let? bsize := fs_bsize fs in
  if NDADDR <=? lbn then Some bsize
  else
    let? size := ic_size ic in
    let? k := fs_bshift fs in
    let? next := shl64 (s64 (lbn + 1)) k in
    if next <=? size then Some bsize
    else let? o := blkoff fs size in fragroundup fs o.

(** ** State *)

(** f_blksize, f_buf_blkno and the last element of f_nindir are never used. *)
Record file := File {
  inuse : Z;
  i_ic : list Z;
  f_nindir : list Z;
  f_blk : list (option (list Z));
  f_blkno : list Z;
  f_buf : option (list Z);
  f_buf_size : Z
}.

Record ufs := Ufs {
  dev : Z;
  partition_offset : Z;
  buf : list Z;                  (* the superblock's static buffer *)
  fs_set : bool;                 (* fs points to it *)
  inode_table : list file;
  namebuf : list Z;
  strtok_pos : option Z;         (* ___strtok, within namebuf *)
  ufs_blocksize : Z
}.

Definition zero_file : file :=
  File 0 (replicate 128 0) [0; 0; 0] [None; None; None] [0; 0; 0] None 0.

Definition ufs_init : ufs :=
  Ufs 0 0 (replicate (Z.to_nat SBSIZE) 0) false [zero_file] (replicate (Z.to_nat (MAXPATHLEN + 1)) 0) None 0.

Definition set_buf (b : list Z) (s : ufs) : ufs :=
  Ufs (dev s) (partition_offset s) b (fs_set s) (inode_table s) (namebuf s) (strtok_pos s) (ufs_blocksize s).
Definition set_table (t : list file) (s : ufs) : ufs :=
  Ufs (dev s) (partition_offset s) (buf s) (fs_set s) t (namebuf s) (strtok_pos s) (ufs_blocksize s).
Definition set_namebuf (b : list Z) (s : ufs) : ufs :=
  Ufs (dev s) (partition_offset s) (buf s) (fs_set s) (inode_table s) b (strtok_pos s) (ufs_blocksize s).
Definition set_strtok (p : option Z) (s : ufs) : ufs :=
  Ufs (dev s) (partition_offset s) (buf s) (fs_set s) (inode_table s) (namebuf s) p (ufs_blocksize s).

Definition set_ic (ic : list Z) (f : file) : file :=
  File (inuse f) ic (f_nindir f) (f_blk f) (f_blkno f) (f_buf f) (f_buf_size f).
Definition set_nindir (l : list Z) (f : file) : file :=
  File (inuse f) (i_ic f) l (f_blk f) (f_blkno f) (f_buf f) (f_buf_size f).
Definition set_blk (l : list (option (list Z))) (f : file) : file :=
  File (inuse f) (i_ic f) (f_nindir f) l (f_blkno f) (f_buf f) (f_buf_size f).
Definition set_blkno (l : list Z) (f : file) : file :=
  File (inuse f) (i_ic f) (f_nindir f) (f_blk f) l (f_buf f) (f_buf_size f).
Definition set_fbuf (b : option (list Z)) (f : file) : file :=
  File (inuse f) (i_ic f) (f_nindir f) (f_blk f) (f_blkno f) b (f_buf_size f).

Section ufs_code.
Context {K : Type} `{ConsIO K} (fuel : nat).

Abbreviation U2 := (M (ufs * ustate K)).

(** The superblock, through [fs]. *)
Definition the_fs : U2 (list Z) :=
  let! ok := get_fs fs_set in
  if ok : bool then get_fs buf else trap.

Definition get_file (fp : Z) : U2 file := let! t := get_fs inode_table in lift_opt (aget t fp).
Definition mod_file (fp : Z) (g : file → file) : U2 unit :=
  let! t := get_fs inode_table in
  let! f := lift_opt (aget t fp) in
  let! t := lift_opt (aset t fp (g f)) in
  mod_fs (set_table t).

(** cons_read at a block; the buffer is a pointer that may be NULL. *)
Definition read_block (b : option (list Z)) (count block : Z) : U2 (Z * list Z) :=
  let! fs := the_fs in
  let! d := get_fs dev in
  let! po := get_fs partition_offset in
  let! offset := lift_opt (block_offset fs po block) in
  let! b := lift_opt b in
  fs_read d b count offset.

Definition read_inode (inumber fp : Z) : U2 Z :=
  let! fs := the_fs in
  let! disk_block := lift_opt (itod fs inumber) in
  let! bsize := lift_opt (fs_bsize fs) in
  let! f := get_file fp in
  let! ' (r, b) := read_block (f_buf f) bsize disk_block in
  mod_file fp (set_fbuf (Some b)) ;;;
  if negb (r =? bsize) then
    fs_printf ("ufs_read_inode: read error" ++ nl) [] ;;; ret 1
  else
    let! o := lift_opt (itoo fs inumber) in
    let! ic := lift_opt (aslice b (o * sizeof_dinode) sizeof_dinode) in
    mod_file fp (set_ic ic) ;;;
    mod_file fp (λ f, set_blkno [-1; -1; -1] (set_blk [None; None; None] f)) ;;;
    ret 0.

(* for (level = 0; level < NIADDR; level++) *)
Fixpoint find_level (l : list Z) (file_block level : Z) : Z * Z :=
  match l with
  | [] => (level, file_block)
  | n :: l => if file_block <? n then (level, file_block) else find_level l (s32 (file_block - n)) (level + 1)
  end.

(** An indirect block of a level in core; [None] after a failed read, which
    leaves the new buffer with the old number. *)
Definition get_level (fp level ind_block_num : Z) : U2 (option (list Z)) :=
  let! f := get_file fp in
  let! no := lift_opt (aget (f_blkno f) level) in
  let! b := lift_opt (aget (f_blk f) level) in
  if negb (no =? ind_block_num) then
    let! fs := the_fs in
    let! bsize := lift_opt (fs_bsize fs) in
    fs_malloc (u64 bsize) ;;;
    let! ' (r, b) := read_block (Some (replicate (Z.to_nat bsize) 0)) bsize ind_block_num in
    let! l := lift_opt (aset (f_blk f) level (Some b)) in
    mod_file fp (set_blk l) ;;;
    if negb (r =? bsize) then fs_printf ("ufs_block_map: read error" ++ nl) [] ;;; ret None
    else
      let! l := lift_opt (aset (f_blkno f) level ind_block_num) in
      mod_file fp (set_blkno l) ;;;
      ret (Some b)
  else let! b := lift_opt b in ret (Some b).

(* for (; level >= 0; level--), [n] levels to go *)
Fixpoint walk_levels (n : nat) (fp file_block ind_block_num : Z) : U2 Z :=
  match n with
  | O => ret ind_block_num
  | S n =>
      let level := Z.of_nat n in
      if ind_block_num =? 0 then ret 0
      else
        let! b := get_level fp level ind_block_num in
        match b with
        | None => ret (-1)
        | Some b =>
            let! ' (idx, file_block) :=
              (if 0 <? level then
                 let! f := get_file fp in
                 let! m := lift_opt (aget (f_nindir f) (level - 1)) in
                 if m =? 0 then trap else ret (Z.quot file_block m, Z.rem file_block m)
               else ret (file_block, file_block)) in
            let! p := lift_opt (get_s32 b (4 * idx)) in
            walk_levels n fp file_block p
        end
  end.

Definition block_map (fp file_block : Z) : U2 Z :=
  let! f := get_file fp in
  if file_block <? NDADDR then lift_opt (ic_db (i_ic f) file_block)
  else
    let '(level, file_block) := find_level (f_nindir f) (file_block - NDADDR) 0 in
    if level =? NIADDR then
      fs_printf ("ufs_block_map: block number too high" ++ nl) [] ;;; ret (-1)
    else
      let! ind_block_num := lift_opt (ic_ib (i_ic f) level) in
      walk_levels (Z.to_nat (level + 1)) fp file_block ind_block_num.

(* the do loop: how many fragments follow one another on the device *)
Definition contiguous (fp disk_block blkno nblks : Z) : U2 (Z * Z * Z) :=
  let! ' (blkno, nblks, nbytes, _) :=
    loop fuel (λ '(blkno, nblks, nbytes, ncontig),
      let! fs := the_fs in
      let! f := get_file fp in
      let! block_size := lift_opt (blksize fs (i_ic f) blkno) in
      let nbytes := nbytes + block_size in
      let! k := lift_opt (numfrags fs block_size) in
      let ncontig := ncontig + k in
      let blkno := blkno + 1 in
      let nblks := nblks - 1 in
      if nblks =? 0 then ret (inr (blkno, nblks, nbytes, ncontig))
      else
        let! b := block_map fp (s32 blkno) in
        ret (if b =? disk_block + ncontig then inl (blkno, nblks, nbytes, ncontig)
             else inr (blkno, nblks, nbytes, ncontig))) (blkno, nblks, 0, 0) in
  ret (blkno, nblks, nbytes).

(** One run of blocks; [tot] is also how far [buffer] has advanced. *)
Definition breadi_step (fp : Z) : Z * Z * Z * list Z → U2 (Z * Z * Z * list Z + Z * list Z) :=
  λ '(blkno, nblks, tot, buffer),
    if nblks =? 0 then ret (inr (s32 tot, buffer))
    else
      let! disk_block := block_map fp (s32 blkno) in
      let! ' (blkno, nblks, nbytes) := contiguous fp disk_block blkno nblks in
      if disk_block =? 0 then
        let! buffer := lift_opt (asplice buffer tot (replicate (Z.to_nat nbytes) 0)) in
        ret (inl (blkno, nblks, tot + nbytes, buffer))
      else
        let! ' (r, sub) := read_block (aslice buffer tot (zlen buffer - tot)) nbytes disk_block in
        let buffer := take (Z.to_nat tot) buffer ++ sub in
        if negb (r =? nbytes) then
          fs_printf ("ufs_breadi: read error" ++ nl) [] ;;; ret (inr (-1, buffer))
        else ret (inl (blkno, nblks, tot + nbytes, buffer)).

Definition breadi (fp blkno nblks : Z) (buffer : list Z) : U2 (Z * list Z) :=
  loop fuel (breadi_step fp) (blkno, nblks, 0, buffer).

(** strcmp(name, dp->d_name) == 0 *)
Fixpoint same_string (name b : list Z) (off : Z) : option bool :=
  let? x := aget b off in
  match name with
  | [] => Some (x =? 0)
  | c :: name => if x =? c then same_string name b (off + 1) else Some false
  end.

Definition d_ino (b : list Z) (dp : Z) := get_u32 b dp.
Definition d_reclen (b : list Z) (dp : Z) := get_u16 b (dp + 4).
Definition d_namlen (b : list Z) (dp : Z) := get_u16 b (dp + 6).

(* the entries of the block in f_buf *)
Definition search_block (b name : list Z) (bsize : Z) : U2 (option Z) :=
  loop fuel (λ blockoffset,
    if blockoffset <? bsize then
      let! ino := lift_opt (d_ino b blockoffset) in
      let! namlen := lift_opt (d_namlen b blockoffset) in
      let! same :=
        (if negb (ino =? 0) && (namlen =? s32 (zlen name))
         then lift_opt (same_string name b (blockoffset + 8)) else ret false) in
      if same : bool then ret (inr (Some ino))
      else let! n := lift_opt (d_reclen b blockoffset) in ret (inl (blockoffset + n))
    else ret (inr None)) 0.

(** The inode number, if the name is found. *)
Definition search_dir (name : list Z) (fp : Z) : U2 (option Z) :=
  loop fuel (λ offset,
    let! f := get_file fp in
    let! size := lift_opt (ic_size (i_ic f)) in
    if offset <? size then
      let! fs := the_fs in
      let! bsize := lift_opt (fs_bsize fs) in
      if bsize =? 0 then trap
      else
        let! b := lift_opt (f_buf f) in
        let! ' (r, b) := breadi fp (Z.quot offset bsize) 1 b in
        mod_file fp (set_fbuf (Some b)) ;;;
        if r <? 0 then ret (inr None)
        else
          let! ino := search_block b name bsize in
          match ino with
          | Some ino => ret (inr (Some ino))
          | None => ret (inl (offset + bsize))
          end
    else ret (inr None)) 0.

Definition ufs_mount (cons_dev p_offset quiet : Z) : U2 Z :=
  mod_fs (λ s, Ufs cons_dev p_offset (buf s) (fs_set s) [zero_file] (namebuf s) (strtok_pos s) (ufs_blocksize s)) ;;;
  let! b := get_fs buf in
  let! ' (rc, b) := fs_read cons_dev b SBSIZE (s64 (SBLOCK * DEV_BSIZE + p_offset)) in
  mod_fs (set_buf b) ;;;
  if negb (rc =? SBSIZE) then
    fs_printf ("ufs_mount: superblock read failed (retval=%ld)" ++ nl) [AInt rc] ;;; ret (-1)
  else
    mod_fs (λ s, Ufs (dev s) (partition_offset s) (buf s) true (inode_table s) (namebuf s) (strtok_pos s)
      (ufs_blocksize s)) ;;;
    let! magic := lift_opt (fs_magic b) in
    let! bsize := lift_opt (fs_bsize b) in
    if negb (magic =? FS_MAGIC) || (MAXBSIZE <? bsize) || (bsize <? sizeof_fs) then
      (if quiet =? 0 then
         fs_printf ("ufs_mount: invalid superblock (magic=%x, bsize=%d)" ++ nl) [AInt magic; AInt bsize]
       else ret tt) ;;;
      ret (-1)
    else
      mod_fs (λ s, Ufs (dev s) (partition_offset s) (buf s) (fs_set s) (inode_table s) (namebuf s) (strtok_pos s)
        bsize) ;;;
      ret 0.

(* for (fd = 0; inode_table[fd].inuse; ++fd) *)
Fixpoint free_slot (t : list file) (fd : Z) : option (option Z) :=
  match t with
  | [] => None
  | f :: t =>
      if inuse f =? 0 then Some (Some fd)
      else if MAX_OPEN_FILES <=? fd then Some None
      else free_slot t (fd + 1)
  end.

(** strspn(s, "/"), and what strpbrk(s, "/") leaves in front. *)
Fixpoint slashes (s : list Z) : nat :=
  match s with c :: s => if c =? 47 then S (slashes s) else O | [] => O end.
Fixpoint up_to_slash (s : list Z) : list Z :=
  match s with c :: s => if c =? 47 then [] else c :: up_to_slash s | [] => [] end.

(** strtok(s, "/") on [namebuf] from [s], or from where it stopped: the
    component, and namebuf cut behind it. *)
Definition strtok_name (s : option Z) : U2 (option (list Z)) :=
  let! saved := get_fs strtok_pos in
  let! b := get_fs namebuf in
  match (match s with Some p => Some p | None => saved end) with
  | None => ret None
  | Some p =>
      let! str := lift_opt (cstring (drop (Z.to_nat p) b)) in
      let skipped := slashes str in
      let rest := drop skipped str in
      let name := up_to_slash rest in
      if bool_decide (rest = []) then mod_fs (set_strtok None) ;;; ret None
      else
        let e := p + Z.of_nat skipped + zlen name in
        (if zlen name <? zlen rest then
           let! b := lift_opt (aset b e 0) in
           mod_fs (set_namebuf b) ;;;
           mod_fs (set_strtok (Some (e + 1)))
         else mod_fs (set_strtok None)) ;;;
        ret (Some name)
  end.

(* memcpy within namebuf, byte by byte upwards *)
Fixpoint copy_up (n : nat) (b : list Z) (dst src : Z) : option (list Z) :=
  match n with
  | O => Some b
  | S n => let? x := aget b src in let? b := aset b dst x in copy_up n b (dst + 1) (src + 1)
  end.

(** The contents of a symbolic link to the front of namebuf; [false] after a
    short read. *)
Definition read_link (fp link_len : Z) : U2 bool :=
  let! f := get_file fp in
  let! flags := lift_opt (ic_flags (i_ic f)) in
  if negb (Z.land flags IC_FASTLINK =? 0) then
    let! l := lift_opt (aslice (i_ic f) 40 link_len) in
    let! b := get_fs namebuf in
    let! b := lift_opt (asplice b 0 l) in
    mod_fs (set_namebuf b) ;;;
    ret true
  else
    let! disk_block := block_map fp 0 in
    let! b := get_fs namebuf in
    let! ' (rc, b) := read_block (Some b) (MAXPATHLEN + 1) disk_block in
    mod_fs (set_namebuf b) ;;;
    ret (rc =? MAXPATHLEN + 1).

(** The treatment of a symbolic link: an error code, or the inode to go on
    from. [cp] is NULL until a link has been followed. *)
Definition follow_link (fp parent_inumber : Z) (cp : option Z) (nlinks : Z) : U2 (Z + Z) :=
  let! f := get_file fp in
  let! size := lift_opt (ic_size (i_ic f)) in
  let link_len := s32 size in
  let! p := lift_opt cp in
  let! b := get_fs namebuf in
  let! rest := lift_opt (cstring (drop (Z.to_nat p) b)) in
  let len := s32 (zlen rest + 1) in
  if MAXPATHLEN - 1 <=? s32 (link_len + len) then ret (inl (-1))
  else if MAXSYMLINKS <? nlinks + 1 then ret (inl FS_SYMLINK_LOOP)
  else
    let! b := lift_opt (copy_up (Z.to_nat len) b link_len p) in
    mod_fs (set_namebuf b) ;;;
    let! ok := read_link fp link_len in
    if negb ok then ret (inl (-1))
    else
      let! b := get_fs namebuf in
      let! c := lift_opt (aget b 0) in
      ret (inr (if c =? 47 then ROOTINO else parent_inumber)).

(* while (component): 0, or what ufs_open returns *)
Definition walk_path (fp : Z) (component : option (list Z)) (inumber : Z) : U2 Z :=
  loop fuel (λ '(component, inumber, cp, nlinks),
    match component with
    | None => ret (inr 0)
    | Some component =>
        let! f := get_file fp in
        let! mode := lift_opt (ic_mode (i_ic f)) in
        if negb (Z.land mode IFMT =? IFDIR) then ret (inr (-1))
        else
          let! ino := search_dir component fp in
          match ino with
          | None => ret (inr (-1))
          | Some ino =>
              let! r := read_inode ino fp in
              if negb (r =? 0) then ret (inr (-1))
              else
                let! f := get_file fp in
                let! mode := lift_opt (ic_mode (i_ic f)) in
                let! next :=
                  (if Z.land mode IFMT =? IFLNK then
                     let! next := follow_link fp inumber cp nlinks in
                     match next with
                     | inl e => ret (inl e)
                     | inr i =>
                         let! r := read_inode i fp in
                         ret (if negb (r =? 0) then inl (-1) else inr (i, Some 0, nlinks + 1))
                     end
                   else ret (inr (ino, cp, nlinks))) in
                match next with
                | inl e => ret (inr e)
                | inr (inumber, cp, nlinks) =>
                    let! component := strtok_name None in
                    ret (inl (component, inumber, cp, nlinks))
                end
          end
    end) (component, inumber, None : option Z, 0).

(* mult *= NINDIR(fs) *)
Fixpoint powers (n : nat) (mult nindir : Z) : list Z :=
  match n with
  | O => []
  | S n => let mult := s32 (mult * nindir) in mult :: powers n mult nindir
  end.

(** [path] without its NUL. *)
Definition ufs_open (path : list Z) : U2 Z :=
  if bool_decide (path = []) then ret (-1)
  else
    let! t := get_fs inode_table in
    let! fd := lift_opt (free_slot t 0) in
    match fd with
    | None => ret (-1)
    | Some fd =>
        let! fs := the_fs in
        let! bsize := lift_opt (fs_bsize fs) in
        fs_malloc (u64 bsize) ;;;
        mod_file fd (λ f, File (inuse f) (i_ic f) (f_nindir f) (f_blk f) (f_blkno f)
          (Some (replicate (Z.to_nat bsize) 0)) bsize) ;;;
        let! b := get_fs namebuf in
        let! b := lift_opt (asplice b 0 (path ++ [0])) in
        mod_fs (set_namebuf b) ;;;
        let! r := read_inode ROOTINO fd in
        if r <? 0 then ret (-1)
        else
          let! component := strtok_name (Some 0) in
          let! r := walk_path fd component ROOTINO in
          if negb (r =? 0) then ret r
          else
            let! fs := the_fs in
            let! nindir := lift_opt (fs_nindir fs) in
            mod_file fd (set_nindir (powers (Z.to_nat NIADDR) 1 nindir)) ;;;
            ret fd
    end.

Definition ufs_bread (fd blkno nblks : Z) (buffer : list Z) : U2 (Z * list Z) := breadi fd blkno nblks buffer.

Definition ufs_close (fd : Z) : U2 unit :=
  mod_file fd (λ f, File 0 (i_ic f) (f_nindir f) (f_blk f) (f_blkno f) (f_buf f) (f_buf_size f)).

Definition ufs_readdir (fd rewind : Z) : U2 (option (list Z)) := ret None.
Definition ufs_fstat (fd : Z) (buf : stat) : U2 (Z * stat) := ret (-1, buf).

Definition ufs_bootfs : bootfs ufs K :=
  Bootfs 7 (λ s, ufs_blocksize s) ufs_mount ufs_open ufs_bread ufs_close ufs_readdir ufs_fstat.
End ufs_code.
