(* ===== verification/UfsRead.v ===== *)
(** * Reading a file: fs/ufs.c against the on-disk format

    The inode of a fast file system keeps its block numbers where ext2 has them,
    so the block map of the format is [Ext2Disk.block_map]; block numbers count
    fragments.  Indirect blocks are kept in memory that [malloc] gives and never
    takes back, so what is read is bounded by the heap. *)

From Stdlib Require Import Ascii String.
From S2P Require Import Prelude CString Vsprintf Cons Utils Aboot BootFs.
From S2P Require Ext2Disk.
From S2P Require Import Ufs.

Open Scope Z_scope.
Open Scope list_scope.

(** ** The format *)

(** Blocks of [B] bytes and [N] pointers, fragments of [U] bytes, [r] in a block. *)
Record sb_ok (fs : list Z) (B N U r : Z) : Prop := {
  sk_bsize : fs_bsize fs = Some B ∧ 0 < B <= 8192;
  sk_ptrs : B = 4 * N;
  sk_unit : ∃ k, fs_fsbtodb fs = Some k ∧ 0 <= k < 16 ∧ U = 2 ^ k * DEV_BSIZE;
  sk_frags : B = r * U ∧ 0 < r;
  sk_fshift : ∃ j, fs_fshift fs = Some j ∧ 0 <= j < 32 ∧ 2 ^ j = U;
  sk_bshift : ∃ l, fs_bshift fs = Some l ∧ 0 <= l < 32 ∧ 2 ^ l = B
}.

(** Block [no] of the partition: the code computes its place as an int. *)
Definition blk (disk : list Z) (po B U no : Z) : option (list Z) :=
  let off := po + no * U in
  if decide (0 < no ∧ no * U < 2 ^ 31 ∧ 0 <= off < 2 ^ 62 ∧ 512 * ((off + B + 511) / 512) <= zlen disk)
  then aslice disk off B else None.

(** Block [k] of the file [ic]. *)
Definition file_block (disk : list Z) (po B N U : Z) (ic : list Z) (k : Z) : option (list Z) :=
  let? no := Ext2Disk.block_map (blk disk po B U) N ic k in
  if no =? 0 then Some (replicate (Z.to_nat B) 0) else blk disk po B U no.

(** [blksize] is that of a whole block. *)
Definition whole (ic : list Z) (B k : Z) : Prop :=
  NDADDR <= k ∨ ∃ size, ic_size ic = Some size ∧ (k + 1) * B <= size.

Lemma blk_Some disk po B U no b : 0 < B → blk disk po B U no = Some b →
  0 < no ∧ no * U < 2 ^ 31 ∧ 0 <= po + no * U < 2 ^ 62 ∧ 512 * ((po + no * U + B + 511) / 512) <= zlen disk ∧
  aslice disk (po + no * U) B = Some b ∧ zlen b = B.
Proof.
  intros HB. unfold blk. case_decide as H; [|done]. intros E. destruct H as (?&?&?&?).
  repeat split; try lia; [done|]. by eapply aslice_len.
Qed.

(** Arithmetic of the superblock. *)
Lemma blksize_whole fs B N U r ic k : sb_ok fs B N U r → whole ic B k → 0 <= k < 2 ^ 31 →
  blksize fs ic k = Some B ∧ numfrags fs B = Some r.
Proof.
  intros [[E1 HB] _ _ [EB Hr] (j&Ej&Hj&E2j) (l&El&Hl&E2l)] Hw Hk. split.
  - unfold blksize. rewrite E1. destruct (Z.leb_spec NDADDR k); [done|]. destruct Hw as [|(size&Es&Hs)]; [lia|].
    rewrite Es, El. unfold shl64. rewrite decide_True by lia. rewrite Z.shiftl_mul_pow2, E2l by lia.
    rewrite (swrap_small 64 eq_refl (k + 1)), (swrap_small 64 eq_refl) by nia.
    by rewrite (proj2 (Z.leb_le _ _)) by lia.
  - unfold numfrags, shr64. rewrite Ej, decide_True by lia. rewrite Z.shiftr_div_pow2, E2j, EB by lia.
    assert (U ≠ 0) by nia. by rewrite Z.div_mul.
Qed.

Lemma block_offset_ok fs B N U r po no : sb_ok fs B N U r → 0 <= no → no * U < 2 ^ 31 → 0 <= po + no * U < 2 ^ 62 →
  block_offset fs po no = Some (po + no * U).
Proof.
  intros [_ _ (k&Ek&Hk&EU) _ _ _] Hno H31 H62. unfold block_offset, fsbtodb. rewrite Ek. unfold shl32.
  rewrite decide_True by lia. rewrite Z.shiftl_mul_pow2 by lia. unfold DEV_BSIZE in *.
  assert (0 < 2 ^ k) by (apply Z.pow_pos_nonneg; lia).
  rewrite (swrap_small 32 eq_refl (no * 2 ^ k)) by nia.
  replace (no * 2 ^ k * 512) with (no * U) by (subst U; lia).
  rewrite (swrap_small 32 eq_refl) by nia. rewrite (swrap_small 64 eq_refl) by lia. f_equal. lia.
Qed.

(** ** The state between calls *)

(** [malloc] can give [m] more blocks of [B] bytes. *)
Definition room {K} `{ConsIO K} (B m : Z) (u : ustate K) : Prop :=
  heap_top u < 2 ^ 64 ∧ u64 (dest_addr u + pagesize u) < heap_top u - m * (B + 8).

Lemma malloc_room {K} `{ConsIO K} B m (u : ustate K) : 0 < B → 0 < m → room B m u →
  ∃ p u', malloc B u = Ret p u' ∧ room B (m - 1) u' ∧ u_con u' = u_con u.
Proof.
  intros HB Hm [Ht Hr]. pose proof (wrap_range 64 eq_refl (dest_addr u + pagesize u)) as Hd.
  assert (B + 8 <= m * (B + 8)) as Hle by nia.
  set (top := heap_top u) in *.
  assert ((if free_mem_ptr u =? 0 then let! cl := gets clusters in set_free_mem_ptr (memory_end cl) else ret tt) u =
    Ret tt (UState (u_con u) (clusters u) (pagesize u) top (dest_addr u))) as E1.
  { subst top. unfold heap_top. destruct (free_mem_ptr u =? 0); [done|]. by destruct u. }
  unfold malloc. cbn [bind gets]. rewrite (bind_Ret _ _ _ _ _ E1). cbn [bind gets free_mem_ptr].
  rewrite (wrap_small 64 (top - B)), land_lnot7 by lia. cbn [set_free_mem_ptr bind modify gets dest_addr pagesize u_con clusters].
  pose proof (Z.mod_pos_bound (top - B) 8 ltac:(lia)) as Hmb. set (p := top - B - (top - B) mod 8) in *.
  rewrite (proj2 (Z.leb_gt p _)) by lia. cbn [ret bind].
  eexists p, _. split; [done|]. split; [|done]. unfold room, heap_top. cbn.
  rewrite (proj2 (Z.eqb_neq p 0)) by lia. lia.
Qed.

Section ufs_read.
Context {K : Type} `{HL : ConsIOLaws K} (fuel : nat).
Context (fs : list Z) (B N U r po d : Z) (disk ic : list Z) (fp : Z) (Hsb : sb_ok fs B N U r).

Abbreviation rd := (blk disk po B U).
Abbreviation the_map := (Ext2Disk.block_map rd N ic).

(** A buffer whose number is that of a block holds the block. *)
Definition caches (f : file) : Prop :=
  length (f_blk f) = 3%nat ∧ length (f_blkno f) = 3%nat ∧
  ∀ i no b, aget (f_blkno f) i = Some no → rd no = Some b → aget (f_blk f) i = Some (Some b).

(** The file system is mounted and the file open, and there is memory for [m]
    more blocks. *)
Definition ready (m : Z) (s : ufs * ustate K) : Prop :=
  (io_ok (u_con s.2) ∧ io_disk (u_con s.2) d = disk) ∧
  (fs_set s.1 = true ∧ buf s.1 = fs ∧ partition_offset s.1 = po ∧ dev s.1 = d) ∧
  room B m s.2 ∧
  ∃ f t, aget (inode_table s.1) fp = Some f ∧ i_ic f = ic ∧ f_nindir f = [N; N * N; t] ∧ caches f.

Lemma ready_le m m' s : m' <= m → ready m s → ready m' s.
Proof.
  intros Hm (H1&H2&[H3 H4]&H5). split; [done|]. split; [done|]. split; [|done]. split; [done|].
  destruct (sk_bsize _ _ _ _ _ Hsb). nia.
Qed.

Lemma the_fs_ok m s : ready m s → the_fs s = Ret fs s.
Proof. intros (_&(E1&E2&_)&_). unfold the_fs. cbn [get_fs bind gets]. by rewrite E1, <- E2. Qed.

Lemma get_file_ok m s : ready m s →
  ∃ f t, get_file fp s = Ret f s ∧ aget (inode_table s.1) fp = Some f ∧ i_ic f = ic ∧ f_nindir f = [N; N * N; t] ∧ caches f.
Proof.
  intros (_&_&_&f&t&E&Hf). exists f, t. split; [|done]. unfold get_file. cbn [get_fs bind gets]. by rewrite E.
Qed.

Lemma mod_file_run g (s : ufs * ustate K) f : aget (inode_table s.1) fp = Some f →
  ∃ t, mod_file fp g s = Ret tt (set_table t s.1, s.2) ∧ aget t fp = Some (g f).
Proof.
  intros E. pose proof (aget_range _ _ _ E) as Hr. unfold mod_file. cbn [get_fs bind gets]. rewrite E.
  cbn [lift_opt]. rewrite bind_ret. destruct (aset (inode_table s.1) fp (g f)) as [t|] eqn:Et.
  2: { unfold aset in Et. by rewrite decide_True in Et. }
  cbn [lift_opt]. rewrite bind_ret. exists t. split; [done|].
  rewrite (aget_aset _ _ _ _ fp Et). by rewrite decide_True.
Qed.

Lemma get_file_inode (s s' : ufs * ustate K) f : get_file fp s = Ret f s' → aget (inode_table s.1) fp = Some f.
Proof.
  unfold get_file. cbn [get_fs bind gets]. destruct (aget (inode_table s.1) fp); [|done]. by intros [= <- _].
Qed.

(** A block of the device is read. *)
Lemma read_block_ok m s b0 count no : ready m s → 0 < no → no * U < 2 ^ 31 → 0 <= count <= zlen b0 →
  0 <= po + no * U < 2 ^ 62 → 512 * ((po + no * U + count + 511) / 512) <= zlen disk →
  ∃ data s', read_block (Some b0) count no s = Ret (count, data ++ drop (Z.to_nat count) b0) s' ∧
    aslice disk (po + no * U) count = Some data ∧ ready m s' ∧ s'.1 = s.1.
Proof.
  intros Hs Hno H31 Hc Ho Hd. pose proof Hs as ([Hio Hdk]&(H2&H3&H4&H5)&Hroom&Hf).
  unfold read_block. rewrite (bind_Ret _ _ _ _ _ (the_fs_ok m s Hs)). cbn [get_fs bind gets].
  rewrite H4, H5, (block_offset_ok _ _ _ _ _ _ _ Hsb) by lia. cbn [lift_opt]. rewrite !bind_ret.
  destruct (io_read_ok d b0 count (po + no * U) (u_con s.2)) as (data&k&E&Ea&Hk&Hkd);
    [done|done|lia|by rewrite Hdk|]. rewrite Hdk in Ea.
  exists data, (s.1, UState k (clusters s.2) (pagesize s.2) (free_mem_ptr s.2) (dest_addr s.2)).
  split; [unfold fs_read, on_ustate, on_con; by rewrite E|]. split; [done|]. split; [|done].
  split; [cbn; by rewrite Hkd|]. done.
Qed.

Lemma get_level_ok m s level no b : ready m s → 0 < m → 0 <= level < 3 → rd no = Some b →
  ∃ s', get_level fp level no s = Ret (Some b) s' ∧ ready (m - 1) s'.
Proof.
  intros Hs Hm Hl Hb. destruct (get_file_ok m s Hs) as (f&t&E&Ef&_&_&(L1&L2&Hc)). unfold get_level.
  rewrite (bind_Ret _ _ _ _ _ E). destruct (sk_bsize _ _ _ _ _ Hsb) as [Ebs HB].
  assert (∃ n, aget (f_blkno f) level = Some n) as [n En].
  { apply aget_is_Some. unfold zlen. lia. }
  assert (∃ c, aget (f_blk f) level = Some c) as [c Ec].
  { apply aget_is_Some. unfold zlen. lia. }
  rewrite En, Ec. cbn [lift_opt]. rewrite !bind_ret. destruct (Z.eqb_spec n no) as [->|Hne]; cbn [negb].
  { rewrite (Hc level no b En Hb) in Ec. injection Ec as <-. cbn [lift_opt]. rewrite bind_ret.
    exists s. split; [done|]. by apply (ready_le m); [lia|]. }
  rewrite (bind_Ret _ _ _ _ _ (the_fs_ok m s Hs)), Ebs. cbn [lift_opt]. rewrite bind_ret.
  destruct (blk_Some _ _ _ _ _ _ (proj1 HB) Hb) as (B1&B2&B3&B4&B5&B6).
  pose proof Hs as (H1&H2&Hroom&Hfile).
  destruct (malloc_room B m s.2 (proj1 HB) Hm Hroom) as (p&u'&Em&Hroom'&Econ).
  assert (fs_malloc (u64 B) s = Ret p (s.1, u')) as Em' by (unfold fs_malloc, on_ustate; by rewrite wrap_small, Em by lia).
  rewrite (bind_Ret _ _ _ _ _ Em').
  assert (ready (m - 1) (s.1, u')) as Hs1 by (split; [cbn; by rewrite Econ|done]).
  destruct (read_block_ok (m - 1) (s.1, u') (replicate (Z.to_nat B) 0) B no Hs1 B1 B2) as (data&s2&E2&Ea&Hs2&Es2);
    [unfold zlen; rewrite length_replicate; lia|done|done|].
  rewrite (bind_Ret _ _ _ _ _ E2). rewrite B5 in Ea. injection Ea as <-.
  rewrite drop_ge, app_nil_r by (rewrite length_replicate; lia).
  destruct (aset (f_blk f) level (Some b)) as [l1|] eqn:El1.
  2: { unfold aset in El1. rewrite decide_True in El1; [done|]. unfold zlen. lia. }
  destruct (aset (f_blkno f) level no) as [l2|] eqn:El2.
  2: { unfold aset in El2. rewrite decide_True in El2; [done|]. unfold zlen. lia. }
  cbn [lift_opt]. rewrite bind_ret. pose proof (aset_len _ _ _ _ El1) as Z1. pose proof (aset_len _ _ _ _ El2) as Z2.
  destruct Hfile as (f'&t'&Ef'&Hic&Hn&_). pose proof (get_file_inode _ _ _ E) as Ef0. rewrite Ef0 in Ef'.
  injection Ef' as <-.
  destruct (mod_file_run (set_blk l1) s2 f) as (t1&M1&A1); [by rewrite Es2|].
  rewrite (bind_Ret _ _ _ _ _ M1), Z.eqb_refl. cbn [negb]. rewrite bind_ret.
  destruct (mod_file_run (set_blkno l2) (set_table t1 s2.1, s2.2) _ A1) as (t2&M2&A2).
  rewrite (bind_Ret _ _ _ _ _ M2). eexists. split; [done|].
  destruct Hs2 as (R1&(R2&R3&R4&R5)&R6&_). split; [done|]. split; [done|]. split; [done|].
  exists (set_blkno l2 (set_blk l1 f)), t'. split; [done|]. split; [done|]. split; [done|].
  split; [cbn; unfold zlen in *; lia|]. split; [cbn; unfold zlen in *; lia|]. cbn. intros i x y Hx Hy.
  rewrite (aget_aset _ _ _ _ i El2) in Hx. rewrite (aget_aset _ _ _ _ i El1). case_decide as Ei.
  - injection Hx as <-. rewrite Hb in Hy. by injection Hy as <-.
  - by eapply Hc.
Qed.

(** *** The block map *)

Lemma walk_pointer m s i no p : ready m s → 0 < m → Ext2Disk.pointer_in rd no i = Some p →
  ∃ s', walk_levels 1 fp i no s = Ret p s' ∧ ready (m - 1) s'.
Proof.
  intros Hs Hm Hp. unfold Ext2Disk.pointer_in in Hp. cbn [walk_levels].
  destruct (no =? 0) eqn:E0.
  { injection Hp as <-. exists s. split; [done|]. by apply (ready_le m); [lia|]. }
  destruct (rd no) as [b|] eqn:Eb; [|done].
  destruct (get_level_ok m s 0 no b Hs Hm) as (s1&E1&Hs1); [lia|done|].
  exists s1. split; [|done]. change (Z.of_nat 0) with 0. rewrite (bind_Ret _ _ _ _ _ E1). change (0 <? 0) with false.
  cbv iota. rewrite bind_ret. unfold get_s32. by rewrite Hp.
Qed.

Lemma nindir_pos : 0 < N <= 2048.
Proof. destruct (sk_bsize _ _ _ _ _ Hsb), Hsb. lia. Qed.

Lemma map_ok m s k no : ready m s → 2 <= m → 0 <= k < 12 + N + N * N → the_map k = Some no →
  ∃ s', block_map fp k s = Ret no s' ∧ ready (m - 2) s'.
Proof.
  intros Hs Hm Hk Hmap. destruct (get_file_ok m s Hs) as (f&t&E&_&Eic&En&_). unfold block_map.
  pose proof nindir_pos as HN.
  rewrite (bind_Ret _ _ _ _ _ E), Eic, En. unfold Ext2Disk.block_map, Ext2Disk.i_block in Hmap. unfold NDADDR.
  destruct (Z.ltb_spec k 12) as [H1|H1].
  { exists s. split; [|by apply (ready_le m); [lia|]]. unfold ic_db, get_s32, NDADDR. rewrite decide_True by lia.
    rewrite decide_True in Hmap by lia. by rewrite Hmap. }
  cbn [find_level]. destruct (Z.ltb_spec k (12 + N)) as [H2|H2].
  { rewrite (proj2 (Z.ltb_lt (k - 12) N)) by lia. unfold ic_ib, get_s32, NIADDR. cbn [decide] in *.
    rewrite decide_True by lia. rewrite decide_True in Hmap by lia. change (0 =? 3) with false. cbv iota.
    change (88 + 4 * 0) with (40 + 4 * 12). destruct (get_u32 ic (40 + 4 * 12)) as [v|]; [|done].
    cbn [fmap option_fmap option_map lift_opt] in *. rewrite bind_ret.
    destruct (walk_pointer m s (k - 12) (s32 v) no Hs) as (s1&E1&Hs1); [lia|done|].
    exists s1. split; [exact E1|]. by apply (ready_le (m - 1)); [lia|]. }
  rewrite (proj2 (Z.ltb_ge (k - 12) N)) by lia. rewrite (proj2 (Z.ltb_lt k (12 + N + N * N))) in Hmap by lia.
  rewrite (swrap_small 32 eq_refl) by nia. rewrite (proj2 (Z.ltb_lt (k - 12 - N) (N * N))) by lia.
  change (0 + 1) with 1. unfold ic_ib, get_s32, NIADDR.
  rewrite decide_True by lia. rewrite decide_True in Hmap by lia. change (1 =? 3) with false. cbv iota.
  change (88 + 4 * 1) with (40 + 4 * 13). destruct (get_u32 ic (40 + 4 * 13)) as [v|]; [|done].
  cbn [fmap option_fmap option_map lift_opt] in *. rewrite bind_ret.
  destruct (Ext2Disk.pointer_in rd (s32 v) _) as [ib|] eqn:Ep; [|done].
  change (Z.to_nat (1 + 1)) with 2%nat. unfold Ext2Disk.pointer_in in Ep. cbn [walk_levels].
  destruct (s32 v =? 0) eqn:E0.
  { injection Ep as <-. cbn in Hmap. injection Hmap as <-. exists s. split; [done|]. by apply (ready_le m); [lia|]. }
  destruct (rd (s32 v)) as [db|] eqn:Eb; [|done].
  destruct (get_level_ok m s 1 (s32 v) db Hs) as (s1&E1&Hs1); [lia|lia|done|].
  change (Z.of_nat 1) with 1. rewrite (bind_Ret _ _ _ _ _ E1). change (0 <? 1) with true. cbv iota.
  destruct (get_file_ok _ s1 Hs1) as (f1&t1&F1&_&_&Fn&_). rewrite bind_bind, (bind_Ret _ _ _ _ _ F1), Fn.
  cbn [aget]. change (aget [N; N * N; t1] (1 - 1)) with (Some N). cbn [lift_opt]. rewrite bind_bind, bind_ret.
  rewrite (proj2 (Z.eqb_neq N 0)) by lia. rewrite bind_ret. rewrite Z.quot_div_nonneg, Z.rem_mod_nonneg by lia.
  unfold get_s32. rewrite Ep. cbn [lift_opt]. rewrite bind_ret.
  destruct (walk_pointer (m - 1) s1 ((k - 12 - N) mod N) ib no Hs1) as (s2&E2&Hs2); [lia|done|].
  exists s2. split; [exact E2|]. by apply (ready_le (m - 1 - 1)); [lia|].
Qed.

(** *** Runs of blocks *)

(** A run of [c] blocks from block [k] that follow one another on the device. *)
Definition is_run (k no c : Z) : Prop := ∀ j, 0 < j < c → the_map (k + j) = Some (no + j * r).

Lemma ufs_contiguous_ok no k n : ∀ fl c m (s : ufs * ustate K) bytes frags,
  ready m s → 2 * (n - c) <= m → 0 <= k → 0 <= c < n → k + n <= 12 + N + N * N →
  (∀ j, 0 <= j < n → is_Some (the_map (k + j)) ∧ whole ic B (k + j)) →
  is_run k no (c + 1) → bytes = c * B → frags = c * r → (Z.to_nat (n - c) <= fl)%nat →
  ∃ c' s', loop fl (λ '(blkno, nblks, nbytes, ncontig),
      let! fs := the_fs in
      let! f := get_file fp in
      let! block_size := lift_opt (blksize fs (i_ic f) blkno) in
      let nbytes := nbytes + block_size in
      let! k := lift_opt (numfrags fs block_size) in
      let ncontig := ncontig + k in
      let blkno := blkno + 1 in
      let nblks := nblks - 1 in
      if nblks =? 0 then ret (inr (blkno, nblks, nbytes, ncontig))
      else
        let! b := block_map fp (s32 blkno) in
        ret (if b =? no + ncontig then inl (blkno, nblks, nbytes, ncontig)
             else inr (blkno, nblks, nbytes, ncontig))) (k + c, n - c, bytes, frags) s
      = Ret (k + c', n - c', c' * B, c' * r) s' ∧
    ready (m - 2 * (c' - c)) s' ∧ c < c' <= n ∧ is_run k no c'.
Proof.
  pose proof nindir_pos as HN. assert (N * N <= 2048 * 2048) as HNN by nia.
  induction fl as [|fl IH]; intros c m s bytes frags Hs Hm Hk Hc Hlim Hall Hrun Eb Er Hf; [lia|].
  destruct (get_file_ok m s Hs) as (f&t&E&_&Eic&_). destruct (Hall c Hc) as [_ Hw].
  destruct (blksize_whole _ _ _ _ _ _ _ Hsb Hw) as [Ebs Enf]; [lia|].
  assert (∀ b s1, (n - c - 1 = 0 ∧ s1 = s ∨ n - c - 1 ≠ 0 ∧ block_map fp (s32 (k + c + 1)) s = Ret b s1) →
    (let '(blkno, nblks, nbytes, ncontig) := (k + c, n - c, bytes, frags) in
      let! fs := the_fs in
      let! f := get_file fp in
      let! block_size := lift_opt (blksize fs (i_ic f) blkno) in
      let nbytes := nbytes + block_size in
      let! k := lift_opt (numfrags fs block_size) in
      let ncontig := ncontig + k in
      let blkno := blkno + 1 in
      let nblks := nblks - 1 in
      if nblks =? 0 then ret (inr (blkno, nblks, nbytes, ncontig))
      else
        let! b := block_map fp (s32 blkno) in
        ret (if b =? no + ncontig then inl (blkno, nblks, nbytes, ncontig)
             else inr (blkno, nblks, nbytes, ncontig))) s =
    Ret ((if bool_decide (n - c - 1 ≠ 0) && (b =? no + (c + 1) * r) then inl else inr)
      (k + (c + 1), n - (c + 1), (c + 1) * B, (c + 1) * r)) s1) as Hbody.
  { intros b s1 H1. subst bytes frags. cbv beta iota zeta. rewrite (bind_Ret _ _ _ _ _ (the_fs_ok m s Hs)).
    rewrite (bind_Ret _ _ _ _ _ E), Eic, Ebs. cbn [lift_opt]. rewrite bind_ret, Enf. cbn [lift_opt]. rewrite bind_ret.
    replace (c * B + B) with ((c + 1) * B) by lia. replace (c * r + r) with ((c + 1) * r) by lia.
    replace (n - (c + 1)) with (n - c - 1) by lia. rewrite Z.add_assoc.
    destruct H1 as [[H1 ->]|[H1 H2]].
    - rewrite (proj2 (Z.eqb_eq _ _) H1), bool_decide_eq_false_2 by lia. done.
    - rewrite (proj2 (Z.eqb_neq _ _) H1), bool_decide_eq_true_2, (bind_Ret _ _ _ _ _ H2) by done. cbn [andb].
      by destruct (b =? _). }
  destruct (Z.eqb_spec (n - c - 1) 0) as [En|En].
  { exists (c + 1), s. specialize (Hbody 0 s ltac:(left; split; [exact En|exact eq_refl])).
    rewrite bool_decide_eq_false_2 in Hbody by lia.
    erewrite loop_exit; [|exact Hbody]. split; [done|]. split; [by apply (ready_le m); [lia|]|]. split; [lia|done]. }
  destruct (Hall (c + 1)) as [[b Hb] _]; [lia|].
  destruct (map_ok m s (k + (c + 1)) b Hs) as (s1&E1&Hs1); [lia|lia|done|].
  rewrite Z.add_assoc in E1.
  specialize (Hbody b s1). rewrite (swrap_small 32 eq_refl (k + c + 1)) in Hbody by lia.
  specialize (Hbody (or_intror (conj En E1))). rewrite bool_decide_eq_true_2 in Hbody by done. cbn [andb] in Hbody.
  destruct (Z.eqb_spec b (no + (c + 1) * r)) as [Hn|Hn].
  - destruct (IH (c + 1) (m - 2) s1 ((c + 1) * B) ((c + 1) * r) Hs1) as (c'&s2&E2&Hs2&Hc'&Hr'); try done; try lia.
    { intros j Hj. destruct (decide (j = c + 1)) as [->|]; [by rewrite Hb, Hn|]. apply Hrun. lia. }
    exists c', s2. erewrite loop_step; [|exact Hbody]. split; [exact E2|]. split; [|split; [lia|done]].
    by apply (ready_le (m - 2 - 2 * (c' - (c + 1)))); [lia|].
  - exists (c + 1), s1. erewrite loop_exit; [|exact Hbody]. split; [done|].
    split; [by apply (ready_le (m - 2)); [lia|]|]. split; [lia|done].
Qed.

Abbreviation fb := (file_block disk po B N U ic).

Lemma ufs_file_block_len k b : fb k = Some b → zlen b = B.
Proof.
  pose proof (proj1 (proj2 (sk_bsize _ _ _ _ _ Hsb))) as HB. unfold file_block.
  destruct (the_map k) as [no|]; [|done]. destruct (no =? 0); [|intros E; apply (blk_Some _ _ _ _ _ _ HB E)].
  intros [= <-]. unfold zlen. rewrite length_replicate. lia.
Qed.

Lemma file_block_map k b : fb k = Some b → is_Some (the_map k).
Proof. unfold file_block. by destruct (the_map k). Qed.

(** The bytes of [n] blocks from [no] on can be read at once. *)
Definition run_readable (no n : Z) : Prop :=
  0 <= po + no * U < 2 ^ 62 ∧ no * U < 2 ^ 31 ∧ 512 * ((po + no * U + n * B + 511) / 512) <= zlen disk.

(** The blocks of a run are one piece of the device. *)
Lemma ufs_run_slice : ∀ c no k data, 0 < no → the_map k = Some no → is_run k no (Z.of_nat (S c)) →
  Ext2Disk.blocks_from fb k (S c) = Some data →
  aslice disk (po + no * U) (Z.of_nat (S c) * B) = Some data ∧ run_readable no (Z.of_nat (S c)).
Proof.
  pose proof (proj1 (proj2 (sk_bsize _ _ _ _ _ Hsb))) as HB. pose proof (sk_frags _ _ _ _ _ Hsb) as [EB Hr].
  assert (∀ k no, the_map k = Some no → 0 < no → fb k = rd no) as Hfb.
  { intros k no E Hno. unfold file_block. by rewrite E, (proj2 (Z.eqb_neq no 0)) by lia. }
  induction c as [|c IH]; intros no k data Hno Hm Hrun Hd; cbn [Ext2Disk.blocks_from] in Hd; rewrite (Hfb k no Hm Hno) in Hd;
    destruct (rd no) as [b|] eqn:Eb; try done; destruct (blk_Some _ _ _ _ _ _ HB Eb) as (B1&B2&B3&B4&B5&_).
  - injection Hd as <-. rewrite app_nil_r. change (Z.of_nat 1) with 1. unfold run_readable. by rewrite Z.mul_1_l.
  - change (match fb (k + 1) with Some b0 => _ | None => None end) with (Ext2Disk.blocks_from fb (k + 1) (S c)) in Hd.
    destruct (Ext2Disk.blocks_from fb (k + 1) (S c)) as [bs|] eqn:Ebs; [|done]. injection Hd as <-.
    destruct (IH (no + r) (k + 1) bs) as [Ha (R1&R2&R3)]; [lia| | |done|].
    + rewrite (Hrun 1) by lia. f_equal. lia.
    + intros j Hj. replace (k + 1 + j) with (k + (j + 1)) by lia. rewrite Hrun by lia. f_equal. lia.
    + replace (po + (no + r) * U) with (po + no * U + B) in Ha, R3 by lia.
      replace (Z.of_nat (S (S c)) * B) with (B + Z.of_nat (S c) * B) by lia.
      split; [by eapply aslice_join|]. unfold run_readable.
      replace (Z.of_nat (S (S c)) * B) with (B + Z.of_nat (S c) * B) by lia. by rewrite Z.add_assoc.
Qed.

(** The pointers of [n] blocks from [k] on as a sound file has them: none to
    the block behind the first, where the superblock lies. *)
Definition sound (k n : Z) : Prop := ∀ j no, 0 <= j < n → the_map (k + j) = Some no → 0 <= no ∧ no ≠ r.

(** What is in [done_] is read; the rest of the buffer is as it was. *)
Abbreviation filled done_ buf0 := (done_ ++ drop (Z.to_nat (zlen done_)) buf0).

(** One run: the bytes of its blocks are stored behind those read before. *)
Lemma ufs_breadi_run m s k n buf0 done_ data : ready m s → 4 * n <= m → 0 <= k → 0 < n → k + n <= 12 + N + N * N →
  (Z.to_nat n <= fuel)%nat → Ext2Disk.blocks_from fb k (Z.to_nat n) = Some data → sound k n →
  (∀ j, 0 <= j < n → whole ic B (k + j)) → zlen done_ + n * B <= zlen buf0 →
  ∃ c s' d1, breadi_step fuel fp (k, n, zlen done_, filled done_ buf0) s
      = Ret (inl (k + c, n - c, zlen (done_ ++ d1), filled (done_ ++ d1) buf0)) s' ∧
    ready (m - 4 * c) s' ∧ 0 < c <= n ∧ Ext2Disk.blocks_from fb k (Z.to_nat c) = Some d1.
Proof.
  intros Hs Hm Hk Hn Hlim Hfl Hd Hsound Hwhole Hbuf. pose proof nindir_pos as HN.
  assert (N * N <= 2048 * 2048) as HNN by nia. pose proof (proj2 (sk_bsize _ _ _ _ _ Hsb)) as HB.
  assert (∀ j, 0 <= j < n → is_Some (the_map (k + j))) as Hall.
  { intros j Hj. destruct (Ext2Disk.blocks_from_at fb (Z.to_nat n) k data j Hd) as [b Hb]; [lia|]. by eapply file_block_map. }
  destruct (Hall 0) as [no Hno]; [lia|]. rewrite Z.add_0_r in Hno.
  destruct (map_ok m s k no Hs) as (s1&E1&Hs1); [lia|lia|done|].
  destruct (ufs_contiguous_ok no k n fuel 0 (m - 2) s1 0 0 Hs1) as (c&s2&E2&Hs2&Hc&Hrun); try done; try lia.
  { intros j Hj. split; [by apply Hall|by apply Hwhole]. }
  { intros j Hj. lia. }
  rewrite Z.add_0_r, Z.sub_0_r in E2. replace (Z.to_nat n) with (Z.to_nat c + Z.to_nat (n - c))%nat in Hd by lia.
  destruct (Ext2Disk.blocks_from_add _ _ _ _ _ Hd) as (d1&d2&Hd1&_&->).
  pose proof (Ext2Disk.blocks_from_len fb B _ ufs_file_block_len _ _ Hd1) as Hz1. rewrite Z2Nat.id in Hz1 by lia.
  pose proof (zlen_nonneg done_) as Hz0. assert (length done_ = Z.to_nat (zlen done_)) as Eld by (unfold zlen; lia).
  set (buf := filled done_ buf0).
  assert (zlen buf = zlen buf0) as Hzb by (subst buf; rewrite zlen_app, zlen_drop; nia).
  assert (zlen done_ + c * B <= zlen buf0) as Hfit by nia.
  unfold breadi_step. rewrite (proj2 (Z.eqb_neq n 0)), (swrap_small 32 eq_refl k) by lia.
  rewrite (bind_Ret _ _ _ _ _ E1).
  assert (contiguous fuel fp no k n s1 = Ret (k + c, n - c, c * B) s2) as E2'
    by (unfold contiguous; by rewrite (bind_Ret _ _ _ _ _ E2)).
  rewrite (bind_Ret _ _ _ _ _ E2'). exists c.
  assert (∀ s', Ret (St := ufs * ustate K) (inl (B := Z * list Z) (k + c, n - c, zlen done_ + c * B,
      (done_ ++ d1) ++ drop (Z.to_nat (zlen done_ + c * B)) buf0)) s'
    = Ret (inl (k + c, n - c, zlen (done_ ++ d1), filled (done_ ++ d1) buf0)) s') as Eres
    by (intros s'; by rewrite zlen_app, Hz1).
  destruct (Z.eqb_spec no 0) as [E0|E0].
  - (* a hole: the run has one block *)
    assert (c = 1) as ->.
    { destruct (decide (c = 1)) as [|Hc1]; [done|]. specialize (Hrun 1 ltac:(lia)). rewrite E0 in Hrun.
      destruct (Hsound 1 _ ltac:(lia) Hrun). lia. }
    assert (d1 = replicate (Z.to_nat (1 * B)) 0) as ->.
    { change (Z.to_nat 1) with 1%nat in Hd1. cbn [Ext2Disk.blocks_from] in Hd1. unfold file_block in Hd1.
      rewrite Hno, E0 in Hd1. change (0 =? 0) with true in Hd1. cbv iota in Hd1.
      injection Hd1 as <-. by rewrite app_nil_r, Z.mul_1_l. }
    exists s2, (replicate (Z.to_nat (1 * B)) 0). unfold buf. rewrite asplice_behind by (rewrite ?Hz1; lia).
    cbn [lift_opt]. rewrite bind_ret, <- Eres, Hz1.
    split; [done|]. split; [by apply (ready_le (m - 2 - 2 * (1 - 0))); [lia|]|]. split; [lia|done].
  - destruct (Hsound 0 no) as [Hno0 _]; [lia|by rewrite Z.add_0_r|].
    destruct (ufs_run_slice (Z.to_nat (c - 1)) no k d1) as [Ha (R1&R2&R3)]; [lia|done| | |].
    { by replace (Z.of_nat (S (Z.to_nat (c - 1)))) with c by lia. }
    { by replace (S (Z.to_nat (c - 1))) with (Z.to_nat c) by lia. }
    replace (Z.of_nat (S (Z.to_nat (c - 1)))) with c in Ha, R3 by lia.
    assert (aslice buf (zlen done_) (zlen buf - zlen done_) = Some (drop (Z.to_nat (zlen done_)) buf0)) as ->.
    { apply aslice_Some. split; [lia|]. split; [nia|]. split; [lia|]. rewrite Hzb. subst buf.
      rewrite <- Eld, drop_app_length, take_ge; [done|]. rewrite length_drop. unfold zlen in *. lia. }
    destruct (read_block_ok _ s2 (drop (Z.to_nat (zlen done_)) buf0) (c * B) no Hs2) as (dat&s3&E3&Ea&Hs3&_);
      [lia|done|rewrite zlen_drop; nia|done|done|].
    rewrite Ha in Ea. injection Ea as <-. rewrite (bind_Ret _ _ _ _ _ E3), Z.eqb_refl. cbn [negb].
    exists s3, d1. rewrite <- Eres. split.
    { unfold ret. do 2 f_equal. f_equal. subst buf.
      rewrite <- Eld, take_app_length, drop_drop, app_assoc. do 2 f_equal. lia. }
    split; [by apply (ready_le (m - 2 - 2 * (c - 0))); [lia|]|by split].
Qed.

Lemma ufs_breadi_loop fl : ∀ m s k n buf0 done_ data, ready m s → 4 * n <= m → 0 <= k → 0 <= n → k + n <= 12 + N + N * N →
  (Z.to_nat n <= fuel)%nat → Ext2Disk.blocks_from fb k (Z.to_nat n) = Some data → sound k n →
  (∀ j, 0 <= j < n → whole ic B (k + j)) → zlen done_ + n * B <= zlen buf0 → zlen done_ + n * B < 2 ^ 31 →
  (Z.to_nat n < fl)%nat →
  ∃ s', loop fl (breadi_step fuel fp) (k, n, zlen done_, filled done_ buf0) s
      = Ret (zlen (done_ ++ data), filled (done_ ++ data) buf0) s' ∧ ready (m - 4 * n) s'.
Proof.
  induction fl as [|fl IH]; intros m s k n buf0 done_ data Hs Hm Hk Hn Hlim Hfl Hd Hsound Hwhole Hbuf Hint Hlt; [lia|].
  pose proof (zlen_nonneg done_). destruct (decide (n = 0)) as [->|Hn0].
  - injection Hd as <-. exists s. rewrite app_nil_r. split; [|by apply (ready_le m); [lia|]].
    apply loop_exit. unfold breadi_step. change (0 =? 0) with true. cbv iota.
    by rewrite swrap_small by lia.
  - destruct (ufs_breadi_run m s k n buf0 done_ data) as (c&s1&d1&E1&Hs1&Hc&Hd1); try done; [lia|].
    rewrite (loop_step _ _ _ _ _ _ E1). replace (Z.to_nat n) with (Z.to_nat c + Z.to_nat (n - c))%nat in Hd by lia.
    destruct (Ext2Disk.blocks_from_add _ _ _ _ _ Hd) as (d1'&d2&Hd1'&Hd2&->). assert (d1' = d1) as -> by congruence.
    rewrite Z2Nat.id in Hd2 by lia. pose proof (Ext2Disk.blocks_from_len fb B _ ufs_file_block_len _ _ Hd1) as Hz1.
    rewrite Z2Nat.id in Hz1 by lia.
    destruct (IH (m - 4 * c) s1 (k + c) (n - c) buf0 (done_ ++ d1) d2 Hs1) as (s2&E2&Hs2); try done; try lia.
    + intros j no Hj E. rewrite <- Z.add_assoc in E. apply (Hsound (c + j) no); [lia|done].
    + intros j Hj. rewrite <- Z.add_assoc. apply Hwhole. lia.
    + rewrite zlen_app, Hz1. lia.
    + rewrite zlen_app, Hz1. lia.
    + exists s2. rewrite app_assoc. split; [exact E2|]. by apply (ready_le (m - 4 * c - 4 * (n - c))); [lia|].
Qed.
End ufs_read.

(** ** A file system to read

    Blocks of 2048 bytes in two fragments: the superblock behind 8192 bytes, an
    inode block, the root directory with the file "kernel" (inode 3, fourteen
    blocks with a hole and an indirect block). *)

Definition ux_bytes (n : Z) (fields : list (Z * list Z)) : list Z :=
  fold_left (λ b f, default b (asplice b f.1 f.2)) fields (replicate (Z.to_nat n) 0).

Definition ux_dirent (ino len : Z) (name : string) : list Z :=
  le_bytes 4 ino ++ le_bytes 2 len ++ le_bytes 2 (Z.of_nat (String.length name)) ++ str name.

Definition ux_super : list Z :=
  ux_bytes 8192 [(16, le_bytes 4 16); (48, le_bytes 4 2048); (52, le_bytes 4 1024);
    (72, le_bytes 4 (2 ^ 32 - 2048)); (76, le_bytes 4 (2 ^ 32 - 1024)); (80, le_bytes 4 11); (84, le_bytes 4 10);
    (96, le_bytes 4 1); (100, le_bytes 4 1); (116, le_bytes 4 512); (120, le_bytes 4 16); (184, le_bytes 4 32);
    (188, le_bytes 4 1024); (1372, le_bytes 4 FS_MAGIC)].

Definition ux_inode : list Z :=
  ux_bytes 128 [(0, le_bytes 2 0x81a4); (8, le_bytes 8 28000);
    (40, concat (map (le_bytes 4) [20; 22; 24; 0; 26; 28; 30; 32; 34; 36; 38; 40; 42]))].

Definition ux_disk : list Z :=
  replicate 8192 0 ++ ux_super ++
  ux_bytes 2048 [(256, le_bytes 2 0x41ed); (256 + 8, le_bytes 8 2048); (256 + 40, le_bytes 4 18); (384, ux_inode)] ++
  ux_bytes 2048 [(0, ux_dirent 2 12 "."); (12, ux_dirent 2 12 ".."); (24, ux_dirent 3 2024 "kernel")] ++
  concat (map (replicate 2048) (seqZ 20 11)) ++
  ux_bytes 2048 [(0, le_bytes 4 44); (4, le_bytes 4 46)] ++ replicate 2048 44 ++ replicate 2048 46.

Definition ux_ustate : ustate (cstate refcon) :=
  UState (CState (RefCon [] [] 0 (λ d, if d =? 1 then ux_disk else []) (λ _, None)) 0 (replicate 512 0)
    (replicate 1024 0)) example_clusters 8192 0 (page_offset + 0x310000).

Definition ux_io : ConsIO (cstate refcon) := cons_io 2000.
Definition ux_laws : @ConsIOLaws (cstate refcon) ux_io := cons_io_laws 2000.

(** Mounted, and the file opened by its name. *)
Definition ux_start : M (ufs * ustate (cstate refcon)) Z :=
  ufs_mount (H := ux_io) 1 0 0 ;;; ufs_open (H := ux_io) 100 (str "kernel").

Definition ux_open : ufs * ustate (cstate refcon) := after ux_start (ufs_init, ux_ustate).

Definition ux_data : list Z :=
  default [] (Ext2Disk.blocks_from (file_block ux_disk 0 2048 512 1024 ux_inode) 2 12).

Lemma ux_sb : sb_ok ux_super 2048 512 1024 2.
Proof.
  split; [by vm_compute|done| | |exists 10; by vm_compute|exists 11; by vm_compute].
  - exists 1. by vm_compute.
  - done.
Qed.

(** There is memory for the read, and nothing cached is wrong. *)
Lemma ux_ready : ready (HL := ux_laws) ux_super 2048 512 1024 0 1 ux_disk ux_inode 0 48 ux_open.
Proof.
  split; [split; [|apply (bool_decide_unpack _); vm_compute; exact I]|].
  { split; [vm_compute; reflexivity|split; [vm_compute; reflexivity|apply Nat.ltb_lt; vm_compute; reflexivity]]. }
  split; [split; [vm_compute; reflexivity|split; [apply (bool_decide_unpack _); vm_compute; exact I|]];
    split; vm_compute; reflexivity|].
  split; [vm_compute; split; reflexivity|].
  eexists _, 134217728. split; [vm_compute; reflexivity|]. split; [vm_compute; reflexivity|].
  split; [vm_compute; reflexivity|]. split; [vm_compute; reflexivity|]. split; [vm_compute; reflexivity|].
  intros i no b Hno Hb. pose proof (aget_range _ _ _ Hno) as Hi. vm_compute in Hno. change (0 <= i < 3) in Hi.
  assert (no = -1) as -> by (assert (i = 0 ∨ i = 1 ∨ i = 2) as [->|[->| ->]] by lia; cbn in Hno; congruence).
  vm_compute in Hb. discriminate.
Qed.

Lemma sound_check disk N U B r po ic k n :
  forallb (λ j, match Ext2Disk.block_map (blk disk po B U) N ic (k + j) with
                | Some no => (0 <=? no) && negb (no =? r) | None => true end) (seqZ 0 n) = true →
  sound B N U r po disk ic k n.
Proof.
  intros HF j no Hj E. rewrite forallb_forall in HF. specialize (HF j). rewrite E in HF.
  assert ((0 <=? no) && negb (no =? r) = true) as Hb by (apply HF, list_elem_of_In, elem_of_seqZ; lia).
  apply andb_true_iff in Hb as [H1%Z.leb_le H2%negb_true_iff%Z.eqb_neq]. done.
Qed.

(** C8: reading from a fast file system. [breadi], which joins runs of blocks
    that follow one another on the device into one read, returns the blocks of
    the file as the pointers of the inode give them, through the indirect blocks
    and with zeros for holes, whatever of them is already in memory.  It
    allocates, without ever freeing, for at most four blocks of memory per block
    read. *)
Theorem ufs_breadi_reads {K} `{HL : ConsIOLaws K} fuel fs B N U r po d disk ic fp m k n buf data (s : ufs * ustate K) :
  sb_ok fs B N U r → ready fs B N U po d disk ic fp m s → 4 * n <= m →
  0 <= k → 0 <= n → k + n <= 12 + N + N * N → n * B < 2 ^ 31 → n * B <= zlen buf → (Z.to_nat n < fuel)%nat →
  (∀ j, 0 <= j < n → whole ic B (k + j)) → sound B N U r po disk ic k n →
  Ext2Disk.blocks_from (file_block disk po B N U ic) k (Z.to_nat n) = Some data →
  ∃ s', breadi fuel fp k n buf s = Ret (n * B, data ++ drop (Z.to_nat (n * B)) buf) s' ∧
    ready fs B N U po d disk ic fp (m - 4 * n) s'.
Proof.
  intros Hsb Hs Hm Hk Hn Hlim Hint Hbuf Hfuel Hwhole Hsound Hd.
  destruct (ufs_breadi_loop fuel fs B N U r po d disk ic fp Hsb fuel m s k n buf [] data) as (s'&E&Hs');
    [done|done|done|done|done|lia|done|done|done|done|done|done|].
  exists s'. split; [|done]. cbn [app] in E.
  rewrite (Ext2Disk.blocks_from_len _ B _ (ufs_file_block_len fs B N U r po disk ic Hsb) _ _ Hd), Z2Nat.id in E by lia. exact E.
Qed.

Lemma ufs_breadi_reads_witness :
  ∃ s', breadi (H := ux_io) 20 0 2 12 (replicate 26000 7) ux_open =
      Ret (24576, ux_data ++ drop (Z.to_nat 24576) (replicate 26000 7)) s' ∧
    ready (HL := ux_laws) ux_super 2048 512 1024 0 1 ux_disk ux_inode 0 0 s'.
Proof.
  refine (ufs_breadi_reads (HL := ux_laws) 20 ux_super 2048 512 1024 2 0 1 ux_disk ux_inode 0 48 2 12
    (replicate 26000 7) ux_data ux_open ux_sb ux_ready _ _ _ _ _ _ _ _ _ _).
  - lia.
  - lia.
  - lia.
  - lia.
  - lia.
  - vm_compute. discriminate.
  - lia.
  - intros j Hj. destruct (decide (10 <= j)); [left; unfold NDADDR; lia|].
    right. exists 28000. split; [vm_compute; reflexivity|lia].
  - apply sound_check. vm_compute. reflexivity.
  - apply (bool_decide_unpack _). vm_compute. exact I.
Defined.
