(* ===== verification/IsoLib.v ===== *)
(** * lib/isolib.c: ISO 9660 and High Sierra file systems, with Rock Ridge

    The library is linked into the loader (fs/iso.c) and into isomarkboot, each
    with its own [iso_dev_read], [printf], [malloc] and [strncat]: the class
    [IsoEnv], over a state [S] of their own.  The loader's [strncat] is that of
    lib/string.c, which writes no NUL when it stops at its count, so an array
    that nothing was stored in shows what was in memory before: [iso_stale].  A pointer to an in-core inode is its slot of
    [inode_table]; a pointer to a directory record is a buffer and an offset in
    it; other pointers into a buffer are the bytes from there on, so a read
    behind the buffer is a [Trap].  Records are arrays of bytes, their fields
    offsets.  [fuel] bounds the loops over directory records, continuation areas
    and symbolic links. *)

From Stdlib Require Import Ascii String.
From S2P Require Import Prelude CString Vsprintf Cons Utils Aboot BootFs.

Open Scope Z_scope.
Open Scope list_scope.

Definition MAX_OPEN_FILES : Z := 5.
Definition ISOFS_BLOCK_BITS : Z := 11.
Definition ISOFS_BLOCK_SIZE : Z := 2048.
Definition ISO_VD_PRIMARY : Z := 1.
Definition ISO_VD_END : Z := 255.
Definition ISO_STANDARD_ID : list Z := str "CD001".
Definition HS_STANDARD_ID : list Z := str "CDROM".
Definition ISOFS_FILE_UNKNOWN : Z := 0.
Definition ISOFS_FILE_TEXT : Z := 1.
Definition ISOFS_FILE_BINARY : Z := 2.
Definition ISOFS_FILE_TEXT_M : Z := 3.
Definition S_IFREG : Z := 0x8000.
Definition S_IFDIR : Z := 0x4000.
Definition S_IRUGO : Z := 0x124.  (* octal 444 *)
Definition S_IXUGO : Z := 0x49.   (* octal 111 *)
Definition S_ISDIR (mode : Z) : bool := Z.land mode 0xf000 =? 0x4000.
Definition S_ISLNK (mode : Z) : bool := Z.land mode 0xf000 =? 0xa000.

(** ** Numbers on the disk *)

Definition isonum_711 (p : list Z) : option Z := aget p 0.

Definition isonum_712 (p : list Z) : option Z :=
  let? v := aget p 0 in
  let val := s8 v in
  Some (if negb (Z.land val 0x80 =? 0) then s32 (Z.lor val 0xffffff00) else val).

Definition isonum_721 (p : list Z) : option Z :=
  let? a := aget p 0 in let? b := aget p 1 in Some (Z.lor a (Z.shiftl b 8)).
Definition isonum_722 (p : list Z) : option Z :=
  let? a := aget p 0 in let? b := aget p 1 in Some (Z.lor (Z.shiftl a 8) b).
Definition isonum_723 (p : list Z) : option Z := isonum_721 p.

Definition isonum_731 (p : list Z) : option Z :=
  let? a := aget p 0 in let? b := aget p 1 in let? c := aget p 2 in let? d := aget p 3 in
  Some (s32 (Z.lor (Z.lor (Z.lor a (Z.shiftl b 8)) (Z.shiftl c 16)) (Z.shiftl d 24))).
Definition isonum_732 (p : list Z) : option Z :=
  let? a := aget p 0 in let? b := aget p 1 in let? c := aget p 2 in let? d := aget p 3 in
  Some (s32 (Z.lor (Z.lor (Z.lor (Z.shiftl a 24) (Z.shiftl b 16)) (Z.shiftl c 8)) d)).
Definition isonum_733 (p : list Z) : option Z := isonum_731 p.

(** The bytes of an object from an offset on. *)
Definition from (b : list Z) (off : Z) : list Z := drop (Z.to_nat off) b.

(** Fields of a volume descriptor ([hs]: of a High Sierra one). *)
Definition vd_type (hs : bool) (b : list Z) := isonum_711 (from b (if hs then 8 else 0)).
Definition vd_id (hs : bool) (b : list Z) := aslice b (if hs then 9 else 1) 5.
Definition vd_volume_space_size (hs : bool) (b : list Z) := isonum_733 (from b (if hs then 88 else 80)).
Definition vd_logical_block_size (hs : bool) (b : list Z) := isonum_723 (from b (if hs then 136 else 128)).
Definition vd_root (hs : bool) (b : list Z) : list Z := from b (if hs then 180 else 156).

(** Fields of a directory record. *)
Definition sizeof_record : Z := 33.
Definition de_length (de : list Z) := isonum_711 de.
Definition de_ext_attr_length (de : list Z) := isonum_711 (from de 1).
Definition de_extent (de : list Z) := isonum_733 (from de 2).
Definition de_size (de : list Z) := isonum_733 (from de 10).
Definition de_flags (high_sierra : Z) (de : list Z) := aget de (25 - high_sierra).
Definition de_file_unit_size (de : list Z) := aget de 26.
Definition de_interleave (de : list Z) := aget de 27.
Definition de_name_len (de : list Z) := aget de 32.
Definition de_name (de : list Z) (i : Z) := aget de (33 + i).

(** ** State *)

(** [old_mode] and [start] are never used. *)
Record inode_table_entry := InodeTableEntry {
  i_first_extent : Z; i_backlink : Z; i_file_format : Z;
  inumber : Z; it_free : Z; it_size : Z; it_nlink : Z; it_mode : Z
}.

(** [s_mounted], [s_nosuid] and [s_nodev] are never used. *)
Record isofs_super_block := IsofsSuperBlock {
  s_ninodes : Z; s_nzones : Z; s_firstdatazone : Z; s_log_zone_size : Z; s_max_size : Z;
  s_high_sierra : Z; s_mapping : Z; s_conversion : Z; s_rock : Z; s_cruft : Z;
  s_blocksize : Z; s_blocksize_bits : Z; s_unhide : Z; s_mode : Z
}.

Record iso := Iso {
  inode_table : list inode_table_entry;
  root_inode : Z;
  sb : isofs_super_block;
  data_block : list Z;
  big_data_block : list Z;
  blockoffset : Z;               (* of iso_readdir_i *)
  diroffset : Z;
  first_time : Z                 (* of iso_read_super *)
}.

Definition iso_init : iso :=
  Iso (replicate 5 (InodeTableEntry 0 0 0 0 0 0 0 0)) 0 (IsofsSuperBlock 0 0 0 0 0 0 0 0 0 0 0 0 0 0)
    (replicate 1024 0) (replicate 2048 0) 0 0 1.

Definition set_table (t : list inode_table_entry) (s : iso) : iso :=
  Iso t (root_inode s) (sb s) (data_block s) (big_data_block s) (blockoffset s) (diroffset s) (first_time s).
Definition set_root (r : Z) (s : iso) : iso :=
  Iso (inode_table s) r (sb s) (data_block s) (big_data_block s) (blockoffset s) (diroffset s) (first_time s).
Definition set_sb (b : isofs_super_block) (s : iso) : iso :=
  Iso (inode_table s) (root_inode s) b (data_block s) (big_data_block s) (blockoffset s) (diroffset s) (first_time s).
Definition set_data (b : list Z) (s : iso) : iso :=
  Iso (inode_table s) (root_inode s) (sb s) b (big_data_block s) (blockoffset s) (diroffset s) (first_time s).
Definition set_big (b : list Z) (s : iso) : iso :=
  Iso (inode_table s) (root_inode s) (sb s) (data_block s) b (blockoffset s) (diroffset s) (first_time s).
Definition set_offsets (bo d : Z) (s : iso) : iso :=
  Iso (inode_table s) (root_inode s) (sb s) (data_block s) (big_data_block s) bo d (first_time s).
Definition set_first_time (v : Z) (s : iso) : iso :=
  Iso (inode_table s) (root_inode s) (sb s) (data_block s) (big_data_block s) (blockoffset s) (diroffset s) v.

Definition set_cruft (c : Z) (b : isofs_super_block) : isofs_super_block :=
  IsofsSuperBlock (s_ninodes b) (s_nzones b) (s_firstdatazone b) (s_log_zone_size b) (s_max_size b)
    (s_high_sierra b) (s_mapping b) (s_conversion b) (s_rock b) c
    (s_blocksize b) (s_blocksize_bits b) (s_unhide b) (s_mode b).

Definition set_inumber (ino free : Z) (e : inode_table_entry) : inode_table_entry :=
  InodeTableEntry (i_first_extent e) (i_backlink e) (i_file_format e) ino free (it_size e) (it_nlink e) (it_mode e).
Definition set_attr (mode nlink : Z) (e : inode_table_entry) : inode_table_entry :=
  InodeTableEntry (i_first_extent e) (i_backlink e) (i_file_format e) (inumber e) (it_free e) (it_size e) nlink mode.
Definition set_size (n : Z) (e : inode_table_entry) : inode_table_entry :=
  InodeTableEntry (i_first_extent e) (i_backlink e) (i_file_format e) (inumber e) (it_free e) n (it_nlink e) (it_mode e).
Definition set_first_extent (x : Z) (e : inode_table_entry) : inode_table_entry :=
  InodeTableEntry x (i_backlink e) (i_file_format e) (inumber e) (it_free e) (it_size e) (it_nlink e) (it_mode e).
Definition set_backlink (x : Z) (e : inode_table_entry) : inode_table_entry :=
  InodeTableEntry (i_first_extent e) x (i_file_format e) (inumber e) (it_free e) (it_size e) (it_nlink e) (it_mode e).
Definition set_format (x : Z) (e : inode_table_entry) : inode_table_entry :=
  InodeTableEntry (i_first_extent e) (i_backlink e) x (inumber e) (it_free e) (it_size e) (it_nlink e) (it_mode e).

(** What the library needs of the program it is linked into. *)
Class IsoEnv (S : Type) := {
  iso_dev_read : list Z → Z → Z → M S (Z * list Z);   (* the buffer, the offset, the size *)
  iso_printf : string → list arg → M S unit;
  iso_malloc : Z → M S Z;
  (* the array, the characters behind the source pointer, the count; [None] for
     an access outside them *)
  iso_strncat : list Z → list Z → Z → option (list Z);
  (* the byte at an offset of an array nothing was stored in, on the stack or
     from malloc *)
  iso_stale : S → Z → Z
}.

Section isolib.
Context {S : Type} `{IsoEnv S} (fuel : nat).

Abbreviation I := (M (iso * S)).

Definition on_env {A} (m : M S A) : I A := λ s,
  match m s.2 with
  | Ret a e => Ret a (s.1, e)
  | Jump x e => Jump x (s.1, e)
  | Trap => Trap
  | Diverge => Diverge
  end.

Definition get_iso {A} (f : iso → A) : I A := gets (λ s, f s.1).
Definition mod_iso (f : iso → iso) : I unit := modify (λ s, (f s.1, s.2)).
Definition get_sb {A} (f : isofs_super_block → A) : I A := get_iso (λ s, f (sb s)).
Definition print (fmt : string) (args : list arg) : I unit := on_env (iso_printf fmt args).

(** [n] bytes of memory in which nothing was stored. *)
Definition stale_bytes (e : S) (n : Z) : list Z := map (iso_stale e) (seqZ 0 n).
Definition fresh (n : Z) : I (list Z) := gets (λ s, stale_bytes s.2 n).

Definition get_inode (i : Z) : I inode_table_entry := let! t := get_iso inode_table in lift_opt (aget t i).
Definition mod_inode (i : Z) (g : inode_table_entry → inode_table_entry) : I unit :=
  let! t := get_iso inode_table in
  let! e := lift_opt (aget t i) in
  let! t := lift_opt (aset t i (g e)) in
  mod_iso (set_table t).

(** A block into [data_block]: was it read? *)
Definition read_block (block : Z) : I bool :=
  let! bs := get_sb s_blocksize in
  let! b := get_iso data_block in
  let! ' (r, b) := on_env (iso_dev_read b (u32 (block * bs)) bs) in
  mod_iso (set_data b) ;;;
  ret (r =? bs).

(** [memcpy(big_data_block, data_block + off, n)] *)
Definition save_fragment (off n : Z) : I unit :=
  let! b := get_iso data_block in
  let! big := get_iso big_data_block in
  let! l := lift_opt (aslice b off n) in
  let! big := lift_opt (asplice big 0 l) in
  mod_iso (set_big big).

(** [memcpy(big_data_block + frag1, data_block, n)] *)
Definition join_fragment (frag1 n : Z) : I unit :=
  let! b := get_iso data_block in
  let! big := get_iso big_data_block in
  let! l := lift_opt (aslice b 0 n) in
  let! big := lift_opt (asplice big frag1 l) in
  mod_iso (set_big big).

Definition iso_bmap (inode : inode_table_entry) (block : Z) : I Z :=
  if block <? 0 then print "iso_bmap: block<0" [] ;;; ret 0
  else
    let! bits := get_sb s_blocksize_bits in
    if decide (0 <= bits < 32) then ret (s32 (u32 (Z.shiftr (i_first_extent inode) bits + block))) else trap.

Definition iso_breadi (ip : Z) (blkno nblks : Z) (buffer : list Z) : I (Z * list Z) :=
  let! e := get_inode ip in
  if i_first_extent e =? 0 then ret (-1, buffer)
  else
    let! bs := get_sb s_blocksize in
    let i_size := it_size e in
    let! nblks :=
      (if i_size <? (blkno + nblks) * bs then
         if bs =? 0 then trap else ret (Z.quot (i_size + bs) bs - blkno)
       else ret nblks) in
    let! abs_blkno := iso_bmap e (s32 blkno) in
    if abs_blkno =? 0 then ret (-1, buffer)
    else on_env (iso_dev_read buffer (abs_blkno * bs) (nblks * bs)).

Definition iso_iput (ip : Z) : I unit := mod_inode ip (set_inumber 0 1).

(** ** System use fields *)

(* the characters of a string, at most [n] *)
Fixpoint strn (l : list Z) (n : Z) : option (list Z) :=
  if n =? 0 then Some []
  else match l with
       | [] => None
       | c :: l => if c =? 0 then Some [] else cons c <$> strn l (n - 1)
       end.

(** [strcat] of the string [l] to the one in an array *)
Definition str_cat (b l : list Z) : option (list Z) :=
  let? cur := cstring b in asplice b (zlen cur) (l ++ [0]).

Definition SIG (a b : string) : Z :=
  match str a, str b with [x], [y] => Z.lor (Z.shiftl x 8) y | _, _ => 0 end.

Definition RR_PX : Z := 1.
Definition RR_SL : Z := 4.
Definition RR_NM : Z := 8.
Definition RR_CL : Z := 16.
Definition RR_TF : Z := 128.

(** SETUP_ROCK_RIDGE: where the fields of a record begin, and their length. *)
Definition setup_rock_ridge (de : list Z) : option (list Z * Z) :=
  let? name_len := de_name_len de in
  let? length := de_length de in
  let len := sizeof_record + name_len in
  let len := if negb (Z.land len 1 =? 0) then len + 1 else len in
  Some (from de len, length - len).

(** CHECK_CE: extent, offset and size of the continuation. *)
Definition check_ce (rr : list Z) : option (Z * Z * Z) :=
  let? e := isonum_733 (from rr 4) in
  let? o := isonum_733 (from rr 12) in
  let? n := isonum_733 (from rr 20) in
  Some (e, o, n).

Definition check_sp (rr : list Z) : option bool :=
  let? a := aget rr 4 in
  if negb (a =? 0xbe) then Some false else let? b := aget rr 5 in Some (b =? 0xef).

(** while (len > 1): the fields in [chr], each passed to [field] with its
    signature.  The flag of a result says that a [goto out] was taken; a field of
    length 0 ends the loop, with [on_zero] for the flag.  Every field is at least
    one byte long, so the loop ends. *)
Definition susp_loop {A} (on_zero : bool) (field : Z → list Z → A → I (A * bool)) (chr : list Z) (len : Z) (a : A) :
  I (A * bool) :=
  loop (Datatypes.S (Z.to_nat len)) (λ '(chr, len, a),
    if 1 <? len then
      let! n := lift_opt (aget chr 2) in
      if n =? 0 then ret (inr (a, on_zero))
      else
        let! c0 := lift_opt (aget chr 0) in
        let! c1 := lift_opt (aget chr 1) in
        let! ' (a, out) := field (Z.shiftl c0 8 + c1) chr a in
        if out : bool then ret (inr (a, true)) else ret (inl (from chr n, len - n, a))
    else ret (inr (a, false))) (chr, len, a).

(** A continuation area: its bytes, or [None] when they cannot be read; [inl]
    is the [goto out] behind a failing malloc. *)
Definition read_continuation (cont : Z * Z * Z) : I (unit + option (list Z)) :=
  let '(extent, offset, size) := cont in
  let! p := on_env (iso_malloc (u64 size)) in
  if p =? 0 then ret (inl tt)
  else
    let! b := fresh (u64 size) in
    let! ' (r, b) := on_env (iso_dev_read b
      (s32 (s32 (extent * ISOFS_BLOCK_SIZE) + offset)) size) in
    ret (inr (if r =? size then Some b else None)).

Definition extent_of (cont : Z * Z * Z) : Z := let '(e, _, _) := cont in e.
Definition size_of (cont : Z * Z * Z) : Z := let '(_, _, n) := cont in n.
Definition offset_of (cont : Z * Z * Z) : Z := let '(_, o, _) := cont in o.

(** *** The alternate name *)

(** [retname] is the caller's array of 256 bytes. *)
Record name_acc := NameAcc { retname : list Z; retnamlen : Z; truncate : bool; na_cont : Z * Z * Z }.

(* strncat(retname, l, n); retnamlen += added *)
Definition name_cat (a : name_acc) (l : list Z) (n added : Z) (trunc : bool) : I (name_acc * bool) :=
  let! arr := lift_opt (iso_strncat (retname a) l n) in
  ret (NameAcc arr (s32 (retnamlen a + added)) trunc (na_cont a), false).

Definition name_field (sig : Z) (rr : list Z) (a : name_acc) : I (name_acc * bool) :=
  if sig =? SIG "R" "R" then
    let! f := lift_opt (aget rr 4) in ret (a, Z.land f RR_NM =? 0)
  else if sig =? SIG "S" "P" then
    let! ok := lift_opt (check_sp rr) in ret (a, negb ok)
  else if sig =? SIG "C" "E" then
    let! c := lift_opt (check_ce rr) in ret (NameAcc (retname a) (retnamlen a) (truncate a) c, false)
  else if sig =? SIG "N" "M" then
    if truncate a then ret (a, false)
    else
      let! f := lift_opt (aget rr 4) in
      let! n := lift_opt (aget rr 2) in
      if negb (Z.land f 6 =? 0) then ret (a, false)
      else if negb (Z.land f (Z.lnot 1) =? 0) then
        print ("Unsupported NM flag settings (%d)" ++ nl) [AInt f] ;;; ret (a, false)
      else
        let! cur := lift_opt (cstring (retname a)) in
        if 254 <=? u64 (zlen cur + n - 5) then
          let i := 254 - zlen cur in
          name_cat a (from rr 5) (u64 i) i true
        else name_cat a (from rr 5) (u64 (n - 5)) (n - 5) (truncate a)
  else if sig =? SIG "R" "E" then ret (a, true)
  else ret (a, false).

(** The length of the name, 0 where there is none, and the array [arr] it was
    put in.  A continuation is read into memory of its own, but looked at from its offset
    on. *)
Definition get_rock_ridge_filename (de arr : list Z) : I (Z * list Z) :=
  let! rock := get_sb s_rock in
  if rock =? 0 then ret (0, arr)
  else
    let! arr := lift_opt (aset arr 0 0) in
    let! ' (chr, len) := lift_opt (setup_rock_ridge de) in
    loop fuel (λ '(chr, len, a),
      let! ' (a, out) := susp_loop false name_field chr len a in
      if out : bool then ret (inr (0, retname a))
      else if negb (extent_of (na_cont a) =? 0) then
        let! c := read_continuation (na_cont a) in
        match c with
        | inr (Some b) =>
            if offset_of (na_cont a) <? 0 then trap
            else ret (inl (from b (offset_of (na_cont a)), size_of (na_cont a),
              NameAcc (retname a) (retnamlen a) (truncate a) (0, 0, 0)))
        | _ => ret (inr (0, retname a))
        end
      else ret (inr (retnamlen a, retname a))) (chr, len, NameAcc arr 0 false (0, 0, 0)).

(** *** Attributes and symbolic links *)

(** while (slen > 1): the components of an SL field; [comp] is given the flags
    and the bytes of a component, [sep] is run where a '/' goes behind it.
    [slp] is the component's offset in the field. *)
Definition sl_loop {A} (comp : Z → list Z → A → I A) (sep : A → I A) (rr : list Z) (slen : Z) (a : A) : I A :=
  loop (Datatypes.S (Z.to_nat slen)) (λ '(slp, slen, a),
    if 1 <? slen then
      let! flags := lift_opt (aget rr slp) in
      let! a := comp (Z.land flags (Z.lnot 1)) (from rr slp) a in
      let rootflag := Z.land flags (Z.lnot 1) =? 8 in
      let! n := lift_opt (aget rr (slp + 1)) in
      let slen := slen - (n + 2) in
      if slen <? 2 then
        let! sl_flags := lift_opt (aget rr 4) in
        let! a := (if negb (Z.land sl_flags 1 =? 0) && (Z.land flags 1 =? 0) then sep a else ret a) in
        ret (inr a)
      else
        let! a := (if negb rootflag && (Z.land flags 1 =? 0) then sep a else ret a) in
        ret (inl (slp + n + 2, slen, a))
    else ret (inr a)) (5, slen, a).

(** Adds to the size of the link. *)
Definition size_comp (ip flags : Z) (slp : list Z) : unit → I unit := λ _,
  if flags =? 0 then
    let! n := lift_opt (aget slp 1) in mod_inode ip (λ e, set_size (u32 (it_size e + n)) e)
  else if flags =? 2 then mod_inode ip (λ e, set_size (u32 (it_size e + 1)) e)
  else if flags =? 4 then mod_inode ip (λ e, set_size (u32 (it_size e + 2)) e)
  else if flags =? 8 then mod_inode ip (λ e, set_size (u32 (it_size e + 1)) e)
  else print ("Symlink component flag not implemented" ++ nl) [].

(** The accumulator is [symlink_len] and the continuation. *)
Definition inode_field (ip : Z) (sig : Z) (rr : list Z) : Z * (Z * Z * Z) → I (Z * (Z * Z * Z) * bool) :=
  λ '(symlink_len, cont),
  let a := (symlink_len, cont) in
  if sig =? SIG "R" "R" then
    let! f := lift_opt (aget rr 4) in
    ret (a, Z.land f (Z.lor (Z.lor RR_PX RR_TF) (Z.lor RR_SL RR_CL)) =? 0)
  else if sig =? SIG "S" "P" then
    let! ok := lift_opt (check_sp rr) in ret (a, negb ok)
  else if sig =? SIG "C" "E" then
    let! c := lift_opt (check_ce rr) in ret ((symlink_len, c), false)
  else if sig =? SIG "P" "X" then
    let! mode := lift_opt (isonum_733 (from rr 4)) in
    let! nlink := lift_opt (isonum_733 (from rr 12)) in
    mod_inode ip (set_attr mode nlink) ;;;
    ret (a, false)
  else if sig =? SIG "S" "L" then
    let! n := lift_opt (aget rr 2) in
    mod_inode ip (set_size (u32 symlink_len)) ;;;
    sl_loop (size_comp ip) (λ _, mod_inode ip (λ e, set_size (u32 (it_size e + 1)) e)) rr (n - 5) tt ;;;
    let! e := get_inode ip in
    ret ((s32 (it_size e), cont), false)
  else if sig =? SIG "R" "E" then
    print ("Attempt to read inode for relocated directory" ++ nl) [] ;;; ret (a, true)
  else ret (a, false).

Definition parse_rock_ridge_inode (de : list Z) (ip : Z) : I Z :=
  let! rock := get_sb s_rock in
  if rock =? 0 then ret 0
  else
    let! ' (chr, len) := lift_opt (setup_rock_ridge de) in
    loop fuel (λ '(chr, len, a),
      let! ' ((symlink_len, cont), out) := susp_loop true (inode_field ip) chr len a in
      if out : bool then ret (inr 0)
      else if negb (extent_of cont =? 0) then
        let! c := read_continuation cont in
        match c with
        | inl _ => ret (inr 0)
        | inr (Some b) => ret (inl (b, size_of cont, (symlink_len, (0, 0, 0))))
        | inr None => print ("Unable to read rock-ridge attributes" ++ nl) [] ;;; ret (inr 1)
        end
      else ret (inr 1)) (chr, len, (0, (0, 0, 0))).

(** The bytes [rpnt] points to, [None] before malloc. *)
Definition link_comp (flags : Z) (slp : list Z) (rpnt : list Z) : I (list Z) :=
  if flags =? 0 then
    let! n := lift_opt (aget slp 1) in lift_opt (iso_strncat rpnt (from slp 2) n)
  else if flags =? 2 then lift_opt (str_cat rpnt (str "."))
  else if flags =? 4 then lift_opt (str_cat rpnt (str ".."))
  else if flags =? 8 then lift_opt (str_cat rpnt (str "/"))
  else ret rpnt.

Definition symlink_field (ip : Z) (sig : Z) (rr : list Z) :
  option (list Z) * (Z * Z * Z) → I (option (list Z) * (Z * Z * Z) * bool) :=
  λ '(rpnt, cont),
  let a := (rpnt, cont) in
  if sig =? SIG "R" "R" then
    let! f := lift_opt (aget rr 4) in ret (a, Z.land f RR_SL =? 0)
  else if sig =? SIG "S" "P" then
    let! ok := lift_opt (check_sp rr) in ret (a, negb ok)
  else if sig =? SIG "S" "L" then
    let! n := lift_opt (aget rr 2) in
    let slen := n - 5 in
    if 1 <? slen then
      let! e := get_inode ip in
      let! ' (rpnt, ok) :=
        (match rpnt with
         | Some b => ret (b, true)
         | None =>
             let! p := on_env (iso_malloc (u32 (it_size e + 1))) in
             let! b := fresh (u32 (it_size e + 1)) in
             if p =? 0 then ret ([], false)
             else let! b := lift_opt (aset b 0 0) in ret (b, true)
         end) in
      if negb ok then ret ((None, cont), true)
      else
        let! rpnt := sl_loop link_comp (λ b, lift_opt (str_cat b (str "/"))) rr slen rpnt in
        ret ((Some rpnt, cont), false)
    else ret (a, false)
  else if sig =? SIG "C" "E" then
    let! c := lift_opt (check_ce rr) in ret ((rpnt, c), false)
  else ret (a, false).

(** The array with the target, or NULL. *)
Definition get_rock_ridge_symlink (ip : Z) : I (option (list Z)) :=
  let! rock := get_sb s_rock in
  if rock =? 0 then ret None
  else
    let! e := get_inode ip in
    let block := Z.shiftr (inumber e) ISOFS_BLOCK_BITS in
    let blockoffset := Z.land (inumber e) (ISOFS_BLOCK_SIZE - 1) in
    let! _ := on_env (iso_malloc ISOFS_BLOCK_SIZE) in
    let! buf := fresh ISOFS_BLOCK_SIZE in
    let! ' (r, buf) := on_env (iso_dev_read buf
      (s32 (Z.shiftl block ISOFS_BLOCK_BITS)) ISOFS_BLOCK_SIZE) in
    if negb (r =? ISOFS_BLOCK_SIZE) then print "unable to read block" [] ;;; ret None
    else
      let pnt := from buf blockoffset in
      let! length := lift_opt (de_length pnt) in
      if ISOFS_BLOCK_SIZE <? blockoffset + length then
        print ("symlink spans iso9660 blocks" ++ nl) [] ;;; ret None
      else
        let! ' (chr, len) := lift_opt (setup_rock_ridge pnt) in
        loop fuel (λ '(chr, len, a),
          let! ' ((rpnt, cont), out) := susp_loop true (symlink_field ip) chr len a in
          if out : bool then ret (inr None)
          else if negb (extent_of cont =? 0) then
            let! c := read_continuation cont in
            match c with
            | inl _ => ret (inr None)
            | inr (Some b) => ret (inl (b, size_of cont, (rpnt, (0, 0, 0))))
            | inr None => print ("Unable to read rock-ridge attributes" ++ nl) [] ;;; ret (inr rpnt)
            end
          else ret (inr rpnt)) (chr, len, (None, (0, 0, 0))).
(** ** Inodes *)

(* for (i = 0; i < MAX_OPEN_FILES; i++) *)
Fixpoint free_slot (t : list inode_table_entry) (i : Z) : option Z :=
  match t with
  | [] => None
  | e :: t => if negb (it_free e =? 0) then Some i else free_slot t (i + 1)
  end.

(* for (i = 0; i < name_len; i++): where the first '.' or ';' is, or name_len *)
Fixpoint find_dot (n : nat) (de : list Z) (i : Z) : option Z :=
  match n with
  | O => Some i
  | Datatypes.S n =>
      let? c := de_name de i in
      if (c =? 46) || (c =? 59) then Some i else find_dot n de (i + 1)
  end.

(** The record of an inode: in [data_block], or joined in [big_data_block]. *)
Definition inode_record (ino : Z) : I (option (list Z)) :=
  let! bs := get_sb s_blocksize in
  let! bits := get_sb s_blocksize_bits in
  if decide (0 <= bits < 32) then
    let block := Z.shiftr ino bits in
    let! ok := read_block block in
    if negb ok then print "iso9660: unable to read i-node block" [] ;;; ret None
    else
      let offset := Z.land (u32 ino) (u32 (bs - 1)) in
      let! b := get_iso data_block in
      let! length := lift_opt (aget b offset) in
      if bs <? u32 (offset + length) then
        let frag1 := s32 (bs - offset) in
        save_fragment offset frag1 ;;;
        let! ok := read_block (block + 1) in
        if negb ok then print "unable to read i-node block" [] ;;; ret None
        else
          join_fragment frag1 (s32 (offset + length - bs)) ;;;
          let! big := get_iso big_data_block in
          ret (Some big)
      else ret (Some (from b offset))
  else trap.

(** Type and permissions, then the size with the two work-arounds. *)
Definition set_mode (itp : Z) (de : list Z) : I unit :=
  let! hs := get_sb s_high_sierra in
  let! flags := lift_opt (de_flags hs de) in
  if negb (Z.land flags 2 =? 0) then
    mod_inode itp (set_attr (Z.lor (Z.lor S_IRUGO S_IXUGO) S_IFDIR) 1)
  else
    let! m := get_sb s_mode in
    let! len := lift_opt (de_name_len de) in
    let! i := lift_opt (find_dot (Z.to_nat len) de 0) in
    let! x :=
      (if i =? len then ret true
       else let! c := lift_opt (de_name de i) in ret (c =? 59)) in
    let mode := Z.lor (s32 m) S_IFREG in
    mod_inode itp (set_attr (if x : bool then Z.lor mode S_IXUGO else mode) 1).

Definition quote : string := String (Ascii.ascii_of_N 34) EmptyString.

Definition set_file_size (itp ino : Z) (de : list Z) : I unit :=
  let! n := lift_opt (de_size de) in
  mod_inode itp (set_size (u32 n)) ;;;
  let! cruft := get_sb s_cruft in
  (if (700000000 <? u32 n) && (cruft =? 110) then
     print ("Warning: defective cdrom.  Enabling " ++ quote ++ "cruft" ++ quote ++ " mount option." ++ nl) [] ;;;
     mod_iso (λ s, set_sb (set_cruft 121 (sb s)) s)
   else ret tt) ;;;
  let! cruft := get_sb s_cruft in
  (if (cruft =? 121) && negb (Z.land (u32 n) 0xff000000 =? 0)
   then mod_inode itp (set_size (Z.land (u32 n) 0x00ffffff)) else ret tt) ;;;
  let! interleave := lift_opt (de_interleave de) in
  (if negb (interleave =? 0) then
     print ("Interleaved files not (yet) supported." ++ nl) [] ;;; mod_inode itp (set_size 0)
   else ret tt) ;;;
  let! unit_size := lift_opt (de_file_unit_size de) in
  if negb (unit_size =? 0) then print ("File unit size != 0 for ISO file (%d)." ++ nl) [AInt ino] else ret tt.

Definition iso_iget (ino : Z) : I (option Z) :=
  let! t := get_iso inode_table in
  match free_slot t 0 with
  | None => print ("iso9660 (iget): no free inodes" ++ nl) [] ;;; ret None
  | Some itp =>
      let! r := inode_record ino in
      match r with
      | None => ret None
      | Some de =>
          set_mode itp de ;;;
          set_file_size itp ino de ;;;
          let! extent := lift_opt (de_extent de) in
          let! attr := lift_opt (de_ext_attr_length de) in
          let! log := get_sb s_log_zone_size in
          let! first_extent := (if decide (0 <= log < 32) then ret (u32 (Z.shiftl (s32 (extent + attr)) log)) else trap) in
          mod_inode itp (set_first_extent first_extent) ;;;
          let! rock := get_sb s_rock in
          (if negb (rock =? 0) then parse_rock_ridge_inode de itp ;;; ret tt else ret tt) ;;;
          mod_inode itp (set_backlink 0xffffffff) ;;;
          let! conversion := get_sb s_conversion in
          (if conversion =? 97 then mod_inode itp (set_format ISOFS_FILE_UNKNOWN)
           else if conversion =? 98 then mod_inode itp (set_format ISOFS_FILE_BINARY)
           else if conversion =? 116 then mod_inode itp (set_format ISOFS_FILE_TEXT)
           else if conversion =? 109 then mod_inode itp (set_format ISOFS_FILE_TEXT_M)
           else ret tt) ;;;
          mod_inode itp (set_inumber ino 0) ;;;
          ret (Some itp)
      end
  end.

(** ** Directories *)

(** memcmp(name, compare, len) == 0, [compare] at an offset of an array. *)
Fixpoint same_bytes (name b : list Z) (off : Z) : option bool :=
  match name with
  | [] => Some true
  | c :: name =>
      let? x := aget b off in
      if x =? c then same_bytes name b (off + 1) else Some false
  end.

(** [name] has [len] bytes; [compare] is at [off] in [b]. *)
Definition iso_match (name b : list Z) (off dlen : Z) : option bool :=
  let len := zlen name in
  if dlen =? 1 then
    let? c := aget b off in
    if c =? 0 then
      if len =? 0 then Some true
      else if len =? 1 then same_bytes name (str "." ++ [0]) 0 else Some false
    else if c =? 1 then (if len =? 2 then same_bytes name (str ".." ++ [0]) 0 else Some false)
    else if len =? 1 then same_bytes name b off else Some false
  else if dlen =? len then same_bytes name b off else Some false.

(** A pointer to a directory record: in [big_data_block], or in [data_block]. *)
Definition buffer (big : bool) (s : iso) : list Z := if big then big_data_block s else data_block s.
Definition set_buffer (big : bool) (b : list Z) (s : iso) : iso := if big then set_big b s else set_data b s.
Definition record_at (big : bool) (off : Z) : I (list Z) := let! b := get_iso (buffer big) in ret (from b off).

(** Stores into the name of the record. *)
Definition put_name (big : bool) (off i : Z) (l : list Z) : I unit :=
  let! b := get_iso (buffer big) in
  let! b := lift_opt (asplice b (off + sizeof_record + i) l) in
  mod_iso (set_buffer big b).

Definition lower (c : Z) : Z := if (65 <=? c) && (c <=? 90) then Z.lor c 0x20 else c.

(* the loop over the name of a record without Rock Ridge: the new [dlen] *)
Definition map_name (big : bool) (off dlen : Z) : I Z :=
  loop (Datatypes.S (Z.to_nat dlen)) (λ i,
    if i <? dlen then
      let! de := record_at big off in
      let! c := lift_opt (de_name de i) in
      let c := lower c in
      let! cut :=
        (if (c =? 59) && (i =? dlen - 2)
         then let! d := lift_opt (de_name de (i + 1)) in ret (d =? 49) else ret false) in
      if cut : bool then ret (inr (dlen - 2))
      else put_name big off i [if c =? 59 then 46 else c] ;;; ret (inl (i + 1))
    else ret (inr dlen)) 0.

(** The name a record is compared by, in place: its length, and the array
    [retname] of 256 bytes, of which strcpy copies the string. *)
Definition entry_name (big : bool) (off namelen : Z) (retname : list Z) : I (Z * list Z) :=
  let! de := record_at big off in
  let! ' (dlen, retname) := get_rock_ridge_filename de retname in
  if negb (dlen =? 0) then
    let! name := lift_opt (cstring retname) in
    put_name big off 0 (name ++ [0]) ;;;
    ret (dlen, retname)
  else
    let! dlen := lift_opt (isonum_711 (from de 32)) in
    let! mapping := get_sb s_mapping in
    if mapping =? 110 then
      let! dlen := map_name big off dlen in
      let! de := record_at big off in
      let! c := lift_opt (de_name de (dlen - 1)) in
      ret (if (c =? 46) && (namelen =? dlen - 1) then dlen - 1 else dlen, retname)
    else ret (dlen, retname).

(** Inode number and backlink of a record. *)
Definition entry_numbers (dir : Z) (big : bool) (off inode_number : Z) : I (Z * Z) :=
  let! de := record_at big off in
  let! e := get_inode dir in
  let! first := lift_opt (de_name de 0) in
  let! len := lift_opt (de_name_len de) in
  if (first =? 0) && (len =? 1) then ret (u32 (inumber e), 0)
  else if (first =? 1) && (len =? 1) then
    let! zone := get_sb s_firstdatazone in
    if negb (s32 zone =? inumber e) then
      let! extent := lift_opt (de_extent de) in
      let! attr := lift_opt (de_ext_attr_length de) in
      let! log := get_sb s_log_zone_size in
      if decide (0 <= log < 32) then ret (u32 (Z.shiftl (s32 (extent + attr)) log), 0) else trap
    else ret (u32 (inumber e), 0)
  else ret (inode_number, u32 (inumber e)).
(** The block of a directory that holds position [f_pos]: its number, 0 for an
    error, or [None] after a failed read. *)
Definition dir_block (dir f_pos : Z) : I (option Z) :=
  let! bits := get_sb s_blocksize_bits in
  let! e := get_inode dir in
  if decide (0 <= bits < 32) then
    let! block := iso_bmap e (s32 (Z.shiftr f_pos bits)) in
    let block := u32 block in
    if block =? 0 then ret (Some 0)
    else let! ok := read_block block in ret (if ok : bool then Some block else None)
  else trap.

Definition next_sector (f_pos : Z) : Z :=
  u32 (Z.land f_pos (u32 (Z.lnot (ISOFS_BLOCK_SIZE - 1))) + ISOFS_BLOCK_SIZE).

(** A record against the name: the results of [iso_find_entry] (its value, [*ino]
    and [*ino_back]) if the search ends with it, and [retname]. *)
Definition check_entry (dir : Z) (name : list Z) (big : bool) (de_off inode_number : Z) (retname : list Z) :
  I (option (Z * Z * Z) * list Z) :=
  let! ' (inode_number, backlink) := entry_numbers dir big de_off inode_number in
  let! ' (dlen, retname) := entry_name big de_off (zlen name) retname in
  let! hs := get_sb s_high_sierra in
  let! unhide := get_sb s_unhide in
  let! de := record_at big de_off in
  let! flags := lift_opt (de_flags hs de) in
  let! matched :=
    (if (Z.land flags 5 =? 0) || (unhide =? 121)
     then let! b := get_iso (buffer big) in lift_opt (iso_match name b (de_off + sizeof_record) dlen)
     else ret false) in
  if matched : bool then
    if s32 inode_number =? -1 then
      print ("iso9660: error inode_number = -1" ++ nl) [] ;;; ret (Some (-1, 0, 0), retname)
    else ret (Some (0, inode_number, backlink), retname)
  else ret (None, retname).

(** One turn of the search.  [retname] is an array of the loop's block: a turn
    finds in it what the turn before has left. *)
Definition find_step (dir : Z) (name : list Z) : Z * Z * Z * list Z → I (Z * Z * Z * list Z + Z * Z * Z) :=
  λ '(f_pos, offset, block, retname),
  let! e := get_inode dir in
  if f_pos <? it_size e then
    let! bs := get_sb s_blocksize in
    let! bits := get_sb s_blocksize_bits in
    let! b := get_iso data_block in
    let! length := lift_opt (aget b offset) in
    let inode_number := u32 (u32 (Z.shiftl block bits) + Z.land offset (bs - 1)) in
    if length =? 0 then
      let f_pos := next_sector f_pos in
      let! block := dir_block dir f_pos in
      match block with
      | Some block => if block =? 0 then ret (inr (-1, 0, 0)) else ret (inl (f_pos, 0, block, retname))
      | None => ret (inr (-1, 0, 0))
      end
    else
      let old_offset := offset in
      let offset := u32 (offset + length) in
      let f_pos := u32 (f_pos + length) in
      let! next :=
        (if bs <=? offset then
           let frag1 := u32 (bs - old_offset) in
           save_fragment old_offset frag1 ;;;
           let offset := Z.land f_pos (bs - 1) in
           let! block := dir_block dir f_pos in
           match block with
           | Some block =>
               if block =? 0 then ret (inl (-1))
               else join_fragment frag1 offset ;;; ret (inr (true, 0, offset, block))
           | None => ret (inl 0)
           end
         else ret (inr (false, old_offset, offset, block))) in
      match next with
      | inl rc => ret (inr (rc, 0, 0))
      | inr (big, de_off, offset, block) =>
          let! ' (found, retname) := check_entry dir name big de_off inode_number retname in
          ret (match found with Some r => inr r | None => inl (f_pos, offset, block, retname) end)
      end
  else ret (inr (-1, 0, 0)).

Definition iso_find_entry (dir : Z) (name : list Z) : I (Z * Z * Z) :=
  let! retname := fresh 256 in
  let! e := get_inode dir in
  if i_first_extent e =? 0 then ret (-1, 0, 0)
  else
    let! block := dir_block dir 0 in
    match block with
    | Some block =>
        if block =? 0 then ret (-1, 0, 0)
        else loop fuel (find_step dir name) (0, 0, block, retname)
    | None => ret (-1, 0, 0)
    end.

(** The components in front of a '/', each looked up and entered. *)
Definition lookup_step (name : list Z) : Z * Z * Z → I (Z * Z * Z + option (Z * list Z)) :=
  λ '(dir, first, last),
  if last <? zlen name then
    let! c := lift_opt (aget name last) in
    if c =? 47 then
      let! component := lift_opt (aslice name first (last - first)) in
      let! ' (rc, ino, _) := iso_find_entry dir component in
      if negb (rc =? 0) then ret (inr None)
      else
        iso_iput dir ;;;
        let! next := iso_iget (s32 ino) in
        match next with
        | None => ret (inr None)
        | Some dir => ret (inl (dir, last + 1, last + 1))
        end
    else ret (inl (dir, first, last + 1))
  else let! component := lift_opt (aslice name first (last - first)) in ret (inr (Some (dir, component))).

Definition iso_lookup (dir : Z) (name : list Z) : I (option Z) :=
  let! e := get_inode dir in
  if negb (S_ISDIR (it_mode e)) then iso_iput dir ;;; ret None
  else
    let! r := loop (Datatypes.S (length name)) (lookup_step name) (dir, 0, 0) in
    match r with
    | None => ret None
    | Some (dir, component) =>
        let! ' (rc, ino, ino_back) := iso_find_entry dir component in
        if negb (rc =? 0) then iso_iput dir ;;; ret None
        else
          let! result := iso_iget (s32 ino) in
          match result with
          | None => iso_iput dir ;;; ret None
          | Some result =>
              mod_inode result (set_backlink (u32 ino_back)) ;;;
              iso_iput dir ;;;
              ret (Some result)
          end
    end.

(** The inode of the root is looked up first, whether it is needed or not. *)
Definition iso_follow_link (from_ : Z) (basename : list Z) : I (option Z) :=
  let! r := get_iso root_inode in
  let! root := iso_iget (s32 r) in
  let! e := get_inode from_ in
  if negb (S_ISLNK (it_mode e)) then ret None
  else if it_size e =? 0 then ret None
  else
    let! linkto := get_rock_ridge_symlink from_ in
    match linkto with
    | None => ret None
    | Some linkto =>
        let! e := get_inode from_ in
        let! linkto := lift_opt (aset linkto (it_size e) 0) in
        let! target := lift_opt (cstring linkto) in
        let fullname :=
          if bool_decide (head target = Some 47) then target
          else match str_last basename 47 with
               | Some p => take (Z.to_nat (p + 1)) basename ++ target
               | None => target
               end in
        let! root := lift_opt root in
        let! result := iso_lookup root fullname in
        iso_iput root ;;;
        ret result
    end.
(** ** Mounting *)

Definition iso_get_last_session : Z := 0.

(** The search for the volume descriptor, from sector [iso_blknum] on for [n]
    sectors: [None] for an error, else whether it is a High Sierra one, or
    [Some None] when there is none. *)
Fixpoint find_descriptor (n : nat) (iso_blknum : Z) : I (option (option bool)) :=
  match n with
  | O => ret (Some None)
  | Datatypes.S n =>
      let! bs := get_sb s_blocksize in
      let! b := get_iso data_block in
      let! ' (r, b) := on_env (iso_dev_read b (u32 (iso_blknum * 2048)) bs) in
      mod_iso (set_data b) ;;;
      if negb (r =? bs) then
        print ("iso_read_super: bread failed, dev iso_blknum %d" ++ nl) [AInt iso_blknum] ;;; ret None
      else
        let! hs_id := lift_opt (vd_id true b) in
        let! id := lift_opt (vd_id false b) in
        if bool_decide (hs_id = HS_STANDARD_ID) then
          let! type := lift_opt (vd_type true b) in
          ret (if negb (type =? ISO_VD_PRIMARY) then None else Some (Some true))
        else if bool_decide (id = ISO_STANDARD_ID) then
          let! type := lift_opt (vd_type false b) in
          ret (if negb (type =? ISO_VD_PRIMARY) then None else Some (Some false))
        else find_descriptor n (iso_blknum + 1)
  end.

(* switch (sb.s_log_zone_size) *)
Definition log_zone_size (n : Z) : option Z :=
  if n =? 512 then Some 9 else if n =? 1024 then Some 10 else if n =? 2048 then Some 11 else None.

Definition mod_sb (f : isofs_super_block → isofs_super_block) : I unit := mod_iso (λ s, set_sb (f (sb s)) s).

Definition iso_read_super (silent : Z) : I Z :=
  mod_iso (λ s, set_table (map (set_inumber 0 1) (inode_table s)) s) ;;;
  mod_sb (λ b, IsofsSuperBlock (s_ninodes b) (s_nzones b) (s_firstdatazone b) (s_log_zone_size b) (s_max_size b)
    0 (s_mapping b) (s_conversion b) (s_rock b) (s_cruft b) 1024 10 (s_unhide b) (s_mode b)) ;;;
  let vol_desc_start := iso_get_last_session in
  let! found := find_descriptor 84 (vol_desc_start + 16) in
  match found with
  | None => ret (-1)
  | Some None =>
      (if silent =? 0 then print ("iso: Unable to identify CD-ROM format." ++ nl) [] else ret tt) ;;; ret (-1)
  | Some (Some hs) =>
      let! d := get_iso data_block in
      let! space := lift_opt (vd_volume_space_size hs d) in
      let! zone := lift_opt (vd_logical_block_size hs d) in
      mod_sb (λ b, IsofsSuperBlock 0 (u64 space) (s_firstdatazone b) zone (u64 space)
        (if hs then 1 else 0) (s_mapping b) (s_conversion b) (s_rock b) (s_cruft b)
        (s_blocksize b) (s_blocksize_bits b) (s_unhide b) (s_mode b)) ;;;
      match log_zone_size zone with
      | None => print ("Bad logical zone size %ld" ++ nl) [AInt zone] ;;; ret (-1)
      | Some log =>
          let! extent := lift_opt (de_extent (vd_root hs d)) in
          let root := u64 (s32 (Z.shiftl extent log)) in
          mod_sb (λ b, IsofsSuperBlock (s_ninodes b) (s_nzones b) root log (s_max_size b)
            (s_high_sierra b) (s_mapping b) (s_conversion b) (s_rock b) (s_cruft b)
            (s_blocksize b) (s_blocksize_bits b) (s_unhide b) (s_mode b)) ;;;
          let! first := get_iso first_time in
          (if negb (first =? 0) then
             mod_iso (set_first_time 0) ;;;
             print ("iso: Max size:%ld   Log zone size:%ld" ++ nl) [AInt (u64 space); AInt (Z.shiftl 1 log)] ;;;
             print ("iso: First datazone:%ld   Root inode number %d" ++ nl)
               [AInt (Z.shiftr root log); AInt (s32 (Z.shiftl extent log))] ;;;
             (if hs then print ("iso: Disc in High Sierra format." ++ nl) [] else ret tt)
           else ret tt) ;;;
          mod_sb (λ b, IsofsSuperBlock (s_ninodes b) (s_nzones b) (s_firstdatazone b) (s_log_zone_size b) (s_max_size b)
            (s_high_sierra b) 110 98 (if hs then 0 else 1) 110
            (s_blocksize b) (s_blocksize_bits b) 110 (Z.land S_IRUGO 0x1ff)) ;;;
          mod_iso (set_root root) ;;;
          ret 0
      end
  end.

(** ** The operations *)

Definition iso_bread (fd blkno nblks : Z) (buffer : list Z) : I (Z * list Z) := iso_breadi fd blkno nblks buffer.

(** The slot of the file, -1 on failure. *)
Definition iso_open (filename : list Z) : I Z :=
  let! r := get_iso root_inode in
  let! root := iso_iget (s32 r) in
  match root with
  | None => print ("iso9660: get root inode failed" ++ nl) [] ;;; ret (-1)
  | Some root =>
      let! inode := iso_lookup root filename in
      loop fuel (λ inode : option Z,
        match inode with
        | None => ret (inr (-1))
        | Some i =>
            let! e := get_inode i in
            if S_ISLNK (it_mode e) then
              let! next := iso_follow_link i filename in
              iso_iput i ;;;
              ret (inl next)
            else ret (inr i)
        end) inode
  end.

Definition iso_close (fd : Z) : I unit := iso_iput fd.

Definition iso_map (fd block : Z) : I Z :=
  let! e := get_inode fd in
  let! b := iso_bmap e (s32 block) in
  let! bs := get_sb s_blocksize in
  ret (u32 (b * bs)).

Definition iso_fstat (fd : Z) (buf : stat) : I (Z * stat) :=
  if MAX_OPEN_FILES <=? fd then ret (-1, buf)
  else
    let! e := get_inode fd in
    ret (0, Stat (inumber e) (it_mode e) (it_nlink e) 0 0 (it_size e) 0 0 0 0).

(** *** Listing a directory *)

Definition next_record : I (bool * Z) := let! bo := get_iso blockoffset in ret (false, bo).

(* the end of a sector: the next one, unless the directory is at its end *)
Definition next_dir_sector (fd : Z) : I bool :=
  let! d := get_iso diroffset in
  let! bo := get_iso blockoffset in
  mod_iso (set_offsets bo (next_sector d)) ;;;
  let! e := get_inode fd in
  if it_size e <=? next_sector d then ret false
  else
    let! block := dir_block fd (next_sector d) in
    match block with
    | Some block => if block =? 0 then ret false else mod_iso (set_offsets 0 (next_sector d)) ;;; ret true
    | None => ret false
    end.

(* the record at [oldoffset] goes on in the next block *)
Definition join_record (fd oldoffset : Z) : I (option Z) :=
  let! bs := get_sb s_blocksize in
  let! bits := get_sb s_blocksize_bits in
  let! d := get_iso diroffset in
  let fraglen := u32 (bs - oldoffset) in
  save_fragment oldoffset fraglen ;;;
  let! e := get_inode fd in
  let! block := (if decide (0 <= bits < 32) then iso_bmap e (s32 (Z.shiftr d bits)) else trap) in
  let block := u32 block in
  if block =? 0 then ret None
  else
    let! big := get_iso big_data_block in
    let! ' (r, b) := on_env (iso_dev_read (from big fraglen) (u32 (block * bs)) bs) in
    mod_iso (set_big (take (Z.to_nat fraglen) big ++ b)) ;;;
    if negb (r =? bs) then ret None
    else mod_iso (set_offsets 0 d) ;;; ret (Some fraglen).

(* the name of a record without Rock Ridge, in place: its new length *)
Definition list_name (big : bool) (off name_len : Z) : I Z :=
  loop (Datatypes.S (Z.to_nat name_len)) (λ i,
    if i <? name_len then
      let! de := record_at big off in
      let! c := lift_opt (de_name de i) in
      let c := lower c in
      let! c1 :=
        (if (c =? 46) && (i =? name_len - 3)
         then let! d := lift_opt (de_name de (i + 1)) in
              if d =? 59 then let! d := lift_opt (de_name de (i + 2)) in ret (d =? 49) else ret false
         else ret false) in
      if c1 : bool then ret (inr (name_len - 3))
      else
        let! c2 :=
          (if (c =? 59) && (i =? name_len - 2)
           then let! d := lift_opt (de_name de (i + 1)) in ret (d =? 49) else ret false) in
        if c2 : bool then ret (inr (name_len - 2))
        else put_name big off i [if c =? 59 then 46 else c] ;;; ret (inl (i + 1))
    else ret (inr name_len)) 0.

(** The name of a record for the listing: 0 for a record that is passed over.
    The result of get_rock_ridge_filename replaces the length, also where it is
    0 because there is no alternate name.  [rrname] is an array of 256 bytes of
    the loop's block. *)
Definition listed_name (big : bool) (off : Z) (rrname : list Z) : I (Z * list Z) :=
  let! de := record_at big off in
  let! len := lift_opt (isonum_711 (from de 32)) in
  let! dots :=
    (if len =? 1 then let! c := lift_opt (de_name de 0) in ret ((c =? 0) || (c =? 1)) else ret false) in
  let name_len := if dots : bool then 0 else len in
  let! unhide := get_sb s_unhide in
  let! hs := get_sb s_high_sierra in
  let! hidden :=
    (if unhide =? 110 then let! f := lift_opt (de_flags hs de) in ret (negb (Z.land f 5 =? 0)) else ret false) in
  let name_len := if hidden : bool then 0 else name_len in
  if name_len =? 0 then ret (0, rrname)
  else
    let! ' (n, rrname) := get_rock_ridge_filename de rrname in
    let name_len := u32 n in
    if negb (name_len =? 0) then
      let! rrname := lift_opt (aset rrname name_len 0) in
      let! name := lift_opt (cstring rrname) in
      put_name big off 0 (name ++ [0]) ;;;
      ret (name_len, rrname)
    else
      let! mapping := get_sb s_mapping in
      if mapping =? 110 then
        let! name_len := list_name big off name_len in
        put_name big off name_len [0] ;;;
        ret (name_len, rrname)
      else ret (name_len, rrname).

(** One turn of the listing: the next record, or its name when it has one. *)
Definition readdir_step (fd : Z) : list Z → I (list Z + option (list Z)) := λ rrname,
  let! bo := get_iso blockoffset in
  let! b := get_iso data_block in
  let! dirent_len := lift_opt (de_length (from b bo)) in
  let! more := (if dirent_len =? 0 then next_dir_sector fd else ret true) in
  if negb more then ret (inr None)
  else
    let! oldoffset := get_iso blockoffset in
    let! b := get_iso data_block in
    let! dirent_len := lift_opt (de_length (from b oldoffset)) in
    let! d := get_iso diroffset in
    let! bs := get_sb s_blocksize in
    let bo := u32 (oldoffset + dirent_len) in
    mod_iso (set_offsets bo (u32 (d + dirent_len))) ;;;
    let! joined := (if bs <=? bo then join_record fd oldoffset else ret (Some 0)) in
    match joined with
    | None => ret (inr None)
    | Some fraglen =>
        let big := bs <=? bo in
        let de_off := if big then 0 else oldoffset in
        let! ' (name_len, rrname) := listed_name big de_off rrname in
        (if negb (fraglen =? 0) then
           let! big := get_iso big_data_block in
           let! b := get_iso data_block in
           let! l := lift_opt (aslice big dirent_len (s32 (bs - dirent_len))) in
           let! b := lift_opt (asplice b 0 l) in
           let! d := get_iso diroffset in
           mod_iso (set_data b) ;;;
           mod_iso (set_offsets 0 d)
         else ret tt) ;;;
        if name_len =? 0 then ret (inl rrname)
        else
          let! b := get_iso (buffer big) in
          let! name := lift_opt (cstring (from b (de_off + sizeof_record))) in
          ret (inr (Some name))
    end.

Definition iso_readdir_i (fd rewind : Z) : I (option (list Z)) :=
  let! rrname := fresh 256 in
  let! e := get_inode fd in
  if negb (S_ISDIR (it_mode e)) then print ("Not a directory" ++ nl) [] ;;; ret None
  else
    let! ok :=
      (if negb (rewind =? 0) then
         mod_iso (set_offsets 0 0) ;;;
         let! block := dir_block fd 0 in
         ret (match block with Some b => negb (b =? 0) | None => false end)
       else ret true) in
    if negb ok then ret None else loop fuel (readdir_step fd) rrname.
End isolib.

(** What a host's [strncat] does: it appends at the end of the string and closes
    the string when it meets the end of the source; the C library's closes it
    also when it stops at the count, that of lib/string.c does not. *)
Class StrncatLaws (S : Type) `{IsoEnv S} := {
  strncat_closes : bool;
  iso_strncat_ok : ∀ b cur l n s, cstring b = Some cur → 0 <= n → strn l n = Some s →
    iso_strncat b l n =
      asplice b (zlen cur) (s ++ if strncat_closes || (zlen s <? n) then [0] else [])
}.
