(* ===== verification/Safe.v ===== *)
(** * Invariants of computations

    [holds D Inv m Q]: from a state with [Inv], [m] ends, unless in a stray access or a
    jump, in a value with [Q] and a state with [Inv]; that it does not end is
    [D].  With [False] for [D] this says that the fuel of the loops is enough. *)

From S2P Require Import Prelude.

Open Scope Z_scope.

Section holds.
Context {St : Type} (D : Prop) (Inv : St → Prop).

Definition holds {A} (m : M St A) (Q : A → Prop) : Prop :=
  ∀ s, Inv s → match m s with Ret a s' => Inv s' ∧ Q a | Diverge => D | _ => True end.

Lemma holds_ret {A} (a : A) (Q : A → Prop) : Q a → holds (ret a) Q.
Proof. by intros HQ s Hs. Qed.

Lemma holds_trap {A} (Q : A → Prop) : holds trap Q.
Proof. by intros s Hs. Qed.

Lemma holds_longjmp {A} msg (Q : A → Prop) : holds (longjmp msg) Q.
Proof. by intros s Hs. Qed.

Lemma holds_bind {A B} (m : M St A) (k : A → M St B) Q R :
  holds m Q → (∀ a, Q a → holds (k a) R) → holds (bind m k) R.
Proof.
  intros Hm Hk s Hs. specialize (Hm s Hs). unfold bind. destruct (m s) as [a s'| | |]; [|done..].
  destruct Hm as [Hs' HQ]. by apply Hk.
Qed.

Lemma holds_weaken {A} (m : M St A) (Q R : A → Prop) : holds m Q → (∀ a, Q a → R a) → holds m R.
Proof. intros Hm HQ s Hs. specialize (Hm s Hs). destruct (m s); [|done..]. naive_solver. Qed.

Lemma holds_gets {A} (f : St → A) (Q : A → Prop) : (∀ s, Inv s → Q (f s)) → holds (gets f) Q.
Proof. intros HQ s Hs. by split; [|apply HQ]. Qed.

Lemma holds_modify (f : St → St) (Q : unit → Prop) : (∀ s, Inv s → Inv (f s)) → Q tt → holds (modify f) Q.
Proof. intros Hf HQ s Hs. by split; [apply Hf|]. Qed.

Lemma holds_lift {A} (o : option A) (Q : A → Prop) : (∀ a, o = Some a → Q a) → holds (lift_opt o) Q.
Proof. intros HQ. destruct o as [a|]; [by apply holds_ret, HQ|apply holds_trap]. Qed.

Lemma holds_bind_lift {A B} (o : option A) (k : A → M St B) Q :
  (∀ a, o = Some a → holds (k a) Q) → holds (bind (lift_opt o) k) Q.
Proof. intros Hk. apply (holds_bind _ _ (λ a, o = Some a)); [by apply holds_lift|done]. Qed.

(** Any value is good enough, or the loop has a variant. *)
Lemma holds_loop {A B} (body : A → M St (A + B)) (P : A → Prop) (meas : A → nat) (Q : B → Prop) :
  (∀ a, P a → holds (body a) (λ r, match r with inl a' => P a' ∧ (D ∨ meas a' < meas a)%nat | inr b => Q b end)) →
  ∀ fuel a, P a → (D ∨ meas a < fuel)%nat → holds (loop fuel body a) Q.
Proof.
  intros Hbody fuel. induction fuel as [|fuel IH]; intros a Ha Hm; [intros s _; cbn; destruct Hm as [|]; [done|lia]|].
  cbn [loop]. eapply holds_bind; [by apply Hbody|]. intros [a'|b] Hr; [|by apply holds_ret].
  destruct Hr as [Hp Hlt]. apply IH; [done|]. destruct Hm; [by left|]. destruct Hlt; [by left|right; lia].
Qed.
End holds.

(** With [D] false: the computation ends. *)
Lemma holds_ends {St A} (Inv : St → Prop) (m : M St A) Q s : holds False Inv m Q → Inv s → m s ≠ Diverge.
Proof. intros Hm Hs E. specialize (Hm s Hs). by rewrite E in Hm. Qed.
