(* ===== verification/IsoDir.v ===== *)
(** * Directories of ISO 9660, searched by lib/isolib.c

    A directory is a piece of the disk; its records do not cross a sector of
    2048 bytes, but may cross the blocks of 1024 bytes the library reads.  The
    search changes names in its buffers.  [dir_find] is the search on the bytes of
    the directory. *)

From Stdlib Require Import Ascii String.
From S2P Require Import Prelude CString Vsprintf Cons Utils Aboot BootFs IsoLib.

Open Scope Z_scope.
Open Scope list_scope.

(** What a host of the library promises: reads inside the disk return it. *)
Class IsoEnvLaws (S : Type) `{IsoEnv S} := {
  env_ok : S → Prop;
  env_disk : S → list Z;
  dev_read_ok : ∀ buf off n e, env_ok e → 0 <= n <= zlen buf → 0 <= off →
    512 * ((off + n + 511) / 512) <= zlen (env_disk e) →
    ∃ data e', iso_dev_read buf off n e = Ret (n, data ++ drop (Z.to_nat n) buf) e' ∧
      aslice (env_disk e) off n = Some data ∧ env_ok e' ∧ env_disk e' = env_disk e
}.

(** ** Names *)

(** A character of a name without Rock Ridge, as it is compared. *)
Definition plain_char (c : Z) : Z := if lower c =? 59 then 46 else lower c.

(** The name without its version 1. *)
Definition plain_len (nm : list Z) : Z :=
  if bool_decide (drop (length nm - 2) nm = [59; 49]) then zlen nm - 2 else zlen nm.

Definition plain_name (nm : list Z) : list Z := map plain_char (take (Z.to_nat (plain_len nm)) nm).

(** Does a name with the bytes [c] match, [dlen] of them? *)
Definition match_in (name c : list Z) (dlen : Z) : bool := default false (iso_match name c 0 dlen).

(** A trailing period may be left out. *)
Definition plain_match (name nm : list Z) : bool :=
  let c := plain_name nm in
  let n := zlen c in
  match_in name c (if (default 0 (aget c (n - 1)) =? 46) && (zlen name =? n - 1) then n - 1 else n).

(** A directory record: the 33 bytes in front of the name, the name, the bytes
    behind it, and the alternate name, [[]] where there is none. *)
Record dirent := Dirent { e_hd : list Z; e_name : list Z; e_tl : list Z; e_alt : list Z }.

Definition e_bytes (e : dirent) : list Z := e_hd e ++ e_name e ++ e_tl e.

Definition e_visible (b : isofs_super_block) (e : dirent) : bool :=
  (Z.land (default 0 (de_flags (s_high_sierra b) (e_hd e))) 5 =? 0) || (s_unhide b =? 121).

Definition e_match (b : isofs_super_block) (e : dirent) (name : list Z) : bool :=
  e_visible b e &&
  (if bool_decide (e_alt e = []) then plain_match name (e_name e) else match_in name (e_alt e) (zlen (e_alt e))).

(** What the search reports of a record at byte [addr] of the disk: the number
    of the inode and of the one that leads back. *)
Definition e_numbers (b : isofs_super_block) (dir_ino : Z) (e : dirent) (addr : Z) : Z * Z :=
  if bool_decide (e_name e = [0]) then (u32 dir_ino, 0)
  else if bool_decide (e_name e = [1]) then
    (if s32 (s_firstdatazone b) =? dir_ino then u32 dir_ino
     else u32 (Z.shiftl (s32 (default 0 (de_extent (e_hd e)) + default 0 (de_ext_attr_length (e_hd e))))
                 (s_log_zone_size b)), 0)
  else (addr, u32 dir_ino).

Section isolib_laws.
Context {S : Type} `{HL : IsoEnvLaws S} (fuel : nat).

Abbreviation St := (iso * S)%type.

Lemma from_app (a b : list Z) n : zlen a = n → from (a ++ b) n = b.
Proof. intros <-. unfold from, zlen. rewrite Nat2Z.id. apply drop_app_length. Qed.

Lemma from_app_in (a b : list Z) n : 0 <= n <= zlen a → from (a ++ b) n = from a n ++ b.
Proof. intros Hn. unfold from, zlen in *. apply drop_app_le. lia. Qed.

Lemma asplice_mid {A} (a b b' c : list A) n : zlen a = n → zlen b = zlen b' → asplice (a ++ b ++ c) n b' = Some (a ++ b' ++ c).
Proof.
  intros <- Hb. pose proof (zlen_nonneg a). pose proof (zlen_nonneg c). unfold asplice.
  rewrite decide_True by (rewrite !zlen_app; lia). unfold zlen in *. rewrite Nat2Z.id, take_app_length, drop_app_add.
  do 3 f_equal. replace (length b') with (length b) by lia. apply drop_app_length.
Qed.

(** *** The loop over a name *)

Lemma put_name_ok big pre rec post i l (s : St) rec' :
  buffer big s.1 = pre ++ rec ++ post → 0 <= i → sizeof_record + i + zlen l <= zlen rec →
  asplice rec (sizeof_record + i) l = Some rec' →
  put_name big (zlen pre) i l s = Ret tt (set_buffer big (pre ++ rec' ++ post) s.1, s.2).
Proof.
  intros Hb Hi Hl Hr. unfold put_name. rewrite (bind_Ret (get_iso (buffer big)) _ s _ s eq_refl), Hb.
  assert (asplice (pre ++ rec ++ post) (zlen pre + sizeof_record + i) l = Some (pre ++ rec' ++ post)) as ->; [|done].
  pose proof (zlen_nonneg l). pose proof (zlen_nonneg pre). pose proof (zlen_nonneg post).
  unfold asplice in *. unfold sizeof_record in *. rewrite decide_True in Hr by lia. injection Hr as <-.
  rewrite decide_True by (rewrite !zlen_app; lia). f_equal.
  replace (Z.to_nat (zlen pre + 33 + i)) with (length pre + Z.to_nat (33 + i))%nat by (unfold zlen; lia).
  rewrite take_app_add, <- Nat.add_assoc, drop_app_add. unfold zlen in *.
  rewrite take_app_le, drop_app_le by lia. by rewrite <- !app_assoc.
Qed.

Lemma lower_semicolon c : lower c = 59 → c = 59.
Proof.
  unfold lower. destruct (Z.leb_spec 65 c); destruct (Z.leb_spec c 90); cbn [andb]; try done. intros E.
  assert (Forall (λ c, Z.lor c 32 ≠ 59) (seqZ 65 26)) as HF by (apply (bool_decide_unpack _); vm_compute; exact I).
  rewrite List.Forall_forall in HF. exfalso. apply (HF c); [apply list_elem_of_In, elem_of_seqZ; lia|done].
Qed.

(** The buffer with [rec] between [pre] and [post]. *)
Definition put_rec (big : bool) (pre rec post : list Z) (s : St) : St := (set_buffer big (pre ++ rec ++ post) s.1, s.2).

Lemma put_rec_put big pre rec rec' post s : put_rec big pre rec' post (put_rec big pre rec post s) = put_rec big pre rec' post s.
Proof. by destruct s as [s e], big. Qed.

Lemma buffer_put_rec big pre rec post s : buffer big (put_rec big pre rec post s).1 = pre ++ rec ++ post.
Proof. by destruct big. Qed.

Lemma put_rec_id big pre rec post (s : St) : buffer big s.1 = pre ++ rec ++ post → put_rec big pre rec post s = s.
Proof. intros E. unfold put_rec. rewrite <- E. by destruct s as [[] e], big. Qed.

Lemma record_at_ok big pre rec post (s : St) : buffer big s.1 = pre ++ rec ++ post →
  record_at big (zlen pre) s = Ret (rec ++ post) s.
Proof.
  intros E. unfold record_at. rewrite (bind_Ret (get_iso (buffer big)) _ s _ s eq_refl), E. by rewrite (from_app pre).
Qed.

Lemma de_name_at hd (a : list Z) x b post i : zlen hd = 33 → i = zlen a → de_name ((hd ++ a ++ x :: b) ++ post) i = Some x.
Proof.
  intros Hh ->. unfold de_name. apply aget_Some. pose proof (zlen_nonneg a). split; [lia|].
  replace (Z.to_nat (33 + zlen a)) with (length (hd ++ a)) by (rewrite length_app; unfold zlen in *; lia).
  rewrite app_assoc, <- app_assoc. cbn [app]. apply list_lookup_middle. done.
Qed.

Lemma plain_len_two a c d : plain_len (a ++ [c; d]) = if (c =? 59) && (d =? 49) then zlen a else zlen a + 2.
Proof.
  unfold plain_len. rewrite length_app. cbn [length]. replace (length a + 2 - 2)%nat with (length a) by lia.
  rewrite drop_app_length, zlen_app. change (zlen [c; d]) with 2.
  destruct (Z.eqb_spec c 59) as [->|Hc], (Z.eqb_spec d 49) as [->|Hd]; cbn [andb];
    (rewrite bool_decide_eq_true_2 by done) || (rewrite bool_decide_eq_false_2 by congruence); lia.
Qed.

Lemma plain_len_short nm : (length nm < 2)%nat → plain_len nm = zlen nm.
Proof.
  intros Hl. unfold plain_len. rewrite bool_decide_eq_false_2; [done|]. intros E%(f_equal length).
  rewrite length_drop in E. cbn in E. lia.
Qed.

Lemma plain_len_bounds nm : plain_len nm = zlen nm ∨ plain_len nm = zlen nm - 2.
Proof. unfold plain_len. case_bool_decide; lia. Qed.

Lemma map_name_loop big pre post hd tl : zlen hd = 33 → ∀ todo done_ s fl,
  (length todo < fl)%nat → ((length todo < 2)%nat → plain_len (done_ ++ todo) = zlen (done_ ++ todo)) →
  buffer big s.1 = pre ++ (hd ++ map plain_char done_ ++ todo ++ tl) ++ post →
  loop fl (λ i,
    if i <? zlen (done_ ++ todo) then
      let! de := record_at big (zlen pre) in
      let! c := lift_opt (de_name de i) in
      let c := lower c in
      let! cut :=
        (if (c =? 59) && (i =? zlen (done_ ++ todo) - 2)
         then let! d := lift_opt (de_name de (i + 1)) in ret (d =? 49) else ret false) in
      if cut : bool then ret (inr (zlen (done_ ++ todo) - 2))
      else put_name big (zlen pre) i [if c =? 59 then 46 else c] ;;; ret (inl (i + 1))
    else ret (inr (zlen (done_ ++ todo)))) (zlen done_) s
  = Ret (plain_len (done_ ++ todo)) (put_rec big pre
      (hd ++ map plain_char (done_ ++ take (Z.to_nat (plain_len (done_ ++ todo) - zlen done_)) todo) ++
       drop (Z.to_nat (plain_len (done_ ++ todo) - zlen done_)) todo ++ tl) post s).
Proof.
  intros Hh. induction todo as [|c todo IH]; intros done_ s fl Hfl Hlen Hb; (destruct fl as [|fl]; [cbn in Hfl; lia|]).
  { rewrite app_nil_r, take_nil, drop_nil, app_nil_r in *. rewrite Hlen by (cbn; lia).
    erewrite loop_exit; [|by rewrite Z.ltb_irrefl]. f_equal. by rewrite put_rec_id. }
  set (nm := done_ ++ c :: todo) in *.
  assert (zlen nm = zlen done_ + 1 + zlen todo) as Hz by (subst nm; rewrite zlen_app, zlen_cons; lia).
  pose proof (zlen_nonneg todo). pose proof (zlen_nonneg done_).
  assert (de_name ((hd ++ map plain_char done_ ++ (c :: todo) ++ tl) ++ post) (zlen done_) = Some c) as Ec.
  { cbn [app]. apply de_name_at; [done|]. unfold zlen. by rewrite length_map. }
  set (de := (hd ++ map plain_char done_ ++ (c :: todo) ++ tl) ++ post) in *.
  assert (∃ b : bool,
    (if (lower c =? 59) && (zlen done_ =? zlen nm - 2)
     then let! d := lift_opt (de_name de (zlen done_ + 1)) in ret (d =? 49) else ret false) s = Ret b s ∧
    (if b then plain_len nm = zlen done_ ∧ zlen nm - 2 = zlen done_
     else (length todo < 2)%nat → plain_len nm = zlen nm)) as (b&Eb&Hcut).
  { destruct (Z.eqb_spec (zlen done_) (zlen nm - 2)) as [E2|E2].
    - destruct todo as [|d [|d2 rest]]; rewrite ?zlen_cons in *; change (zlen (@nil Z)) with 0 in *;
        [lia| |pose proof (zlen_nonneg rest); lia].
      pose proof (plain_len_two done_ c d) as Ep. fold nm in Ep. destruct (Z.eqb_spec (lower c) 59) as [E1|E1]; cbn [andb].
      + apply lower_semicolon in E1 as ->. rewrite Z.eqb_refl in Ep. cbn [andb] in Ep.
        assert (de_name de (zlen done_ + 1) = Some d) as ->.
        { subst de. cbn [app].
          replace (hd ++ map plain_char done_ ++ 59 :: d :: tl) with (hd ++ (map plain_char done_ ++ [59]) ++ d :: tl)
            by (by rewrite <- app_assoc).
          apply de_name_at; [done|]. rewrite zlen_app. unfold zlen. by rewrite length_map. }
        cbn [lift_opt]. rewrite bind_ret. eexists. split; [done|]. destruct (d =? 49); lia.
      + exists false. split; [done|]. intros _. rewrite Ep. destruct (Z.eqb_spec c 59) as [->|]; [done|]. cbn. lia.
    - rewrite andb_false_r. exists false. split; [done|]. intros Ht. destruct todo as [|d [|]].
      + apply Hlen. cbn. lia.
      + rewrite ?zlen_cons in *; change (zlen (@nil Z)) with 0 in *. lia.
      + cbn in Ht. lia. }
  destruct b.
  - destruct Hcut as [Hp Hz2]. erewrite loop_exit.
    2:{ rewrite (proj2 (Z.ltb_lt _ _)) by lia. rewrite (bind_Ret _ _ _ _ _ (record_at_ok _ _ _ _ _ Hb)). fold de.
        rewrite Ec. cbn [lift_opt]. rewrite bind_ret. cbv zeta. by rewrite (bind_Ret _ _ _ _ _ Eb). }
    rewrite Hz2, Hp. f_equal. rewrite Z.sub_diag. change (Z.to_nat 0) with 0%nat. cbn [take drop].
    by rewrite app_nil_r, put_rec_id.
  - assert (nm = (done_ ++ [c]) ++ todo) as Enm by (subst nm; by rewrite <- app_assoc).
    set (s1 := put_rec big pre (hd ++ map plain_char (done_ ++ [c]) ++ todo ++ tl) post s).
    assert (put_name big (zlen pre) (zlen done_) [plain_char c] s = Ret tt s1) as Ep.
    { erewrite put_name_ok; [|exact Hb|lia| |].
      - done.
      - unfold sizeof_record, zlen in *. rewrite !length_app, length_map. cbn [length]. lia.
      - unfold sizeof_record. rewrite map_app, <- app_assoc. cbn [app map]. rewrite !(app_assoc hd).
        apply (asplice_mid _ [c] [plain_char c]); [|done]. rewrite zlen_app, Hh. unfold zlen. by rewrite length_map. }
    erewrite loop_step with (a' := zlen (done_ ++ [c])) (s' := s1).
    2:{ rewrite (proj2 (Z.ltb_lt _ _)) by lia. rewrite (bind_Ret _ _ _ _ _ (record_at_ok _ _ _ _ _ Hb)). fold de.
        rewrite Ec. cbn [lift_opt]. rewrite bind_ret. cbv zeta. rewrite (bind_Ret _ _ _ _ _ Eb).
        unfold plain_char in Ep. rewrite (bind_Ret _ _ _ _ _ Ep). by rewrite zlen_app. }
    rewrite Enm in *. rewrite IH; [|cbn in Hfl; lia|done|subst s1; by rewrite buffer_put_rec].
    f_equal. subst s1. rewrite put_rec_put. f_equal.
    assert (0 <= plain_len ((done_ ++ [c]) ++ todo) - zlen (done_ ++ [c])) as Hk.
    { rewrite zlen_app. change (zlen [c]) with 1. destruct (plain_len_bounds ((done_ ++ [c]) ++ todo)) as [E|E]; [lia|].
      destruct (decide (length todo < 2)%nat) as [Hs|Hs]; [specialize (Hcut Hs); lia|]. unfold zlen in *. lia. }
    replace (Z.to_nat (plain_len ((done_ ++ [c]) ++ todo) - zlen done_)) with
      (Datatypes.S (Z.to_nat (plain_len ((done_ ++ [c]) ++ todo) - zlen (done_ ++ [c]))))
      by (rewrite zlen_app in *; change (zlen [c]) with 1 in *; lia).
    cbn [take drop]. by rewrite <- (app_assoc done_).
Qed.
(** *** One record *)

(** A record the library reads without looking elsewhere. *)
Record dirent_ok (e : dirent) : Prop := {
  eo_hd : zlen (e_hd e) = 33;
  eo_len : aget (e_hd e) 0 = Some (zlen (e_bytes e)) ∧ zlen (e_bytes e) <= 255;
  eo_name : aget (e_hd e) 32 = Some (zlen (e_name e)) ∧ 0 < zlen (e_name e)
}.

(** [retname] holds [arr] before the record and [arr'] behind it.  The string in
    it is the alternate name and whatever [strncat] has left behind that; the
    record has room for all of it and a NUL. *)
Record alt_step (b : isofs_super_block) (arr : list Z) (e : dirent) (arr' : list Z) : Prop := {
  as_name : ∀ post (s : St), sb s.1 = b →
    get_rock_ridge_filename fuel (e_bytes e ++ post) arr s = Ret (zlen (e_alt e), arr') s;
  as_fit : e_alt e ≠ [] → ∃ rest, cstring arr' = Some (e_alt e ++ rest) ∧
    zlen (e_alt e) + zlen rest + 1 <= zlen (e_name e) + zlen (e_tl e)
}.

(** The records of a directory, one after the other. *)
Inductive alt_chain (b : isofs_super_block) : list Z → list dirent → list Z → Prop :=
| alt_nil arr : alt_chain b arr [] arr
| alt_cons arr e arr1 es arr2 :
    alt_step b arr e arr1 → alt_chain b arr1 es arr2 → alt_chain b arr (e :: es) arr2.

Lemma alt_chain_app b arr es es' arr2 :
  alt_chain b arr (es ++ es') arr2 → ∃ arr1, alt_chain b arr es arr1 ∧ alt_chain b arr1 es' arr2.
Proof.
  revert arr. induction es as [|e es IH]; intros arr; cbn [app].
  - intros Hc. exists arr. split; [constructor|done].
  - inversion 1 as [|? ? arr0 ? ? Hs Hc]; subst. destruct (IH arr0 Hc) as (arr1&Hc1&Hc2).
    exists arr1. split; [by econstructor|done].
Qed.

Lemma same_bytes_in name pre c post : ∀ k, 0 <= k → k + zlen name <= zlen c →
  same_bytes name (pre ++ c ++ post) (zlen pre + k) = same_bytes name c k.
Proof.
  induction name as [|x name IH]; intros k Hk Hl; [done|]. cbn [same_bytes]. rewrite zlen_cons in Hl.
  pose proof (zlen_nonneg name).
  assert (aget (pre ++ c ++ post) (zlen pre + k) = aget c k) as ->.
  { pose proof (zlen_nonneg pre). unfold aget. rewrite !decide_True by lia.
    rewrite lookup_app_r by (unfold zlen; lia). rewrite lookup_app_l by (unfold zlen in *; lia). f_equal. unfold zlen. lia. }
  destruct (aget c k) as [y|]; [|done]. destruct (y =? x); [|done]. rewrite <- Z.add_assoc. apply IH; lia.
Qed.

Lemma aget_in {A} (pre c post : list A) k : 0 <= k < zlen c → aget (pre ++ c ++ post) (zlen pre + k) = aget c k.
Proof.
  intros Hk. pose proof (zlen_nonneg pre). unfold aget. rewrite !decide_True by lia.
  rewrite lookup_app_r by (unfold zlen; lia). rewrite lookup_app_l by (unfold zlen in *; lia). f_equal. unfold zlen. lia.
Qed.

Lemma same_bytes_is_Some nm b : ∀ off, 0 <= off → off + zlen nm <= zlen b → is_Some (same_bytes nm b off).
Proof.
  induction nm as [|x nm IH]; intros off Hoff Hl; [by eexists|]. rewrite zlen_cons in Hl. cbn [same_bytes].
  pose proof (zlen_nonneg nm). destruct (proj2 (aget_is_Some b off)) as [y ->]; [lia|].
  destruct (y =? x); [apply IH; lia|by eexists].
Qed.

Lemma iso_match_is_Some name c dlen : 0 <= dlen <= zlen c → is_Some (iso_match name c 0 dlen).
Proof.
  intros Hd. unfold iso_match. repeat case_match; try (by eexists);
    repeat match goal with E : (_ =? _) = true |- _ => apply Z.eqb_eq in E end.
  all: try (apply same_bytes_is_Some; [lia|];
    try change (zlen (str "." ++ [0])) with 2; try change (zlen (str ".." ++ [0])) with 3; lia).
  destruct (proj2 (aget_is_Some c 0)); [lia|congruence].
Qed.

Lemma iso_match_in name pre c post dlen : 0 <= dlen <= zlen c →
  iso_match name (pre ++ c ++ post) (zlen pre) dlen = Some (match_in name c dlen).
Proof.
  intros Hd. destruct (iso_match_is_Some name c dlen Hd) as [v Ev]. unfold match_in. rewrite Ev. change (Some (default false (Some v))) with (Some v). rewrite <- Ev.
  pose proof (zlen_nonneg name). rewrite <- (Z.add_0_r (zlen pre)). unfold iso_match. destruct (Z.eqb_spec dlen 1) as [->|].
  - rewrite aget_in by lia. destruct (aget c 0) as [y|]; [|done]. destruct (y =? 0); [done|]. destruct (y =? 1); [done|].
    destruct (Z.eqb_spec (zlen name) 1); [|done]. apply same_bytes_in; lia.
  - destruct (Z.eqb_spec dlen (zlen name)); [|done]. apply same_bytes_in; lia.
Qed.

Lemma match_in_prefix name c post dlen : 0 <= dlen <= zlen c → match_in name (c ++ post) dlen = match_in name c dlen.
Proof.
  intros Hd. pose proof (iso_match_in name [] c post dlen Hd) as E. unfold match_in at 1.
  change ([] ++ c ++ post) with (c ++ post) in E. change (zlen (@nil Z)) with 0 in E. by rewrite E.
Qed.

Lemma de_field_app (hd b : list Z) i : 0 <= i < zlen hd → aget (hd ++ b) i = aget hd i.
Proof. intros Hi. rewrite <- (app_nil_l (hd ++ b)). rewrite <- (aget_in [] hd b i Hi). by rewrite Z.add_0_l. Qed.

Lemma isonum_731_app (p q : list Z) : 4 <= zlen p → isonum_731 (p ++ q) = isonum_731 p.
Proof. intros Hp. unfold isonum_731. by rewrite !de_field_app by lia. Qed.

Lemma get_inode_ok dir e (s : St) : aget (inode_table s.1) dir = Some e → get_inode dir s = Ret e s.
Proof. intros E. unfold get_inode. cbn [get_iso bind gets]. by rewrite E. Qed.

Lemma entry_numbers_ok dir ino big pre post e addr (s : St) : dirent_ok e →
  buffer big s.1 = pre ++ e_bytes e ++ post → inumber <$> aget (inode_table s.1) dir = Some ino →
  0 <= s_log_zone_size (sb s.1) < 32 →
  entry_numbers dir big (zlen pre) addr s = Ret (e_numbers (sb s.1) ino e addr) s.
Proof.
  intros Hok Hb Hino Hlog. destruct (aget (inode_table s.1) dir) as [ie|] eqn:Eie; [|done]. injection Hino as <-.
  unfold entry_numbers. rewrite (bind_Ret _ _ _ _ _ (record_at_ok _ _ _ _ _ Hb)), (bind_Ret _ _ _ _ _ (get_inode_ok _ _ _ Eie)).
  pose proof (eo_hd _ Hok) as Hh. destruct (eo_name _ Hok) as [Hlen Hpos].
  destruct (e_name e) as [|c nm] eqn:En; [done|]. unfold e_bytes. rewrite En.
  rewrite (de_name_at (e_hd e) [] c (nm ++ e_tl e) post 0 Hh eq_refl : de_name ((e_hd e ++ (c :: nm) ++ e_tl e) ++ post) 0 = Some c).
  unfold de_name_len. rewrite <- (app_assoc (e_hd e)), de_field_app, Hlen by lia. cbn [lift_opt]. rewrite !bind_ret.
  unfold e_numbers. rewrite En, zlen_cons. pose proof (zlen_nonneg nm).
  assert (∀ x, bool_decide (c :: nm = [x]) = (c =? x) && (1 + zlen nm =? 1)) as Heq.
  { intros x. destruct nm as [|d nm]; [|rewrite zlen_cons in *; pose proof (zlen_nonneg nm)].
    - change (1 + zlen (@nil Z) =? 1) with true. rewrite andb_true_r. destruct (Z.eqb_spec c x) as [->|].
      + by rewrite bool_decide_eq_true_2.
      + rewrite bool_decide_eq_false_2; [done|congruence].
    - rewrite (proj2 (Z.eqb_neq _ 1)), andb_false_r by lia. by rewrite bool_decide_eq_false_2. }
  rewrite !Heq. destruct ((c =? 0) && _); [done|]. destruct ((c =? 1) && _); [|done].
  rewrite (bind_Ret (get_sb s_firstdatazone) _ s (s_firstdatazone (sb s.1)) s eq_refl).
  destruct (s32 (s_firstdatazone (sb s.1)) =? inumber ie); cbn [negb]; [done|].
  unfold de_extent, de_ext_attr_length, isonum_711, isonum_733. rewrite !from_app_in by lia.
  assert (∀ n, 0 <= n <= 33 → zlen (from (e_hd e) n) = 33 - n) as Hz
    by (intros n Hn; unfold from; rewrite zlen_drop by lia; lia).
  rewrite isonum_731_app, de_field_app by (rewrite Hz; lia).
  destruct (isonum_731 (from (e_hd e) 2)) as [x|] eqn:Ex.
  2:{ exfalso. unfold isonum_731 in Ex. repeat case_match; try done;
      match goal with E : aget ?l ?i = None |- _ =>
        destruct (proj2 (aget_is_Some l i)); [rewrite Hz; lia|congruence] end. }
  destruct (proj2 (aget_is_Some (from (e_hd e) 1) 0)) as [y Ey]; [rewrite Hz; lia|]. rewrite Ey.
  cbn [lift_opt default]. rewrite !bind_ret. rewrite (bind_Ret (get_sb s_log_zone_size) _ s _ s eq_refl).
  by rewrite decide_True.
Qed.
Lemma map_name_ok big pre post hd nm tl (s : St) : zlen hd = 33 → buffer big s.1 = pre ++ (hd ++ nm ++ tl) ++ post →
  map_name big (zlen pre) (zlen nm) s
  = Ret (plain_len nm) (put_rec big pre (hd ++ plain_name nm ++ drop (Z.to_nat (plain_len nm)) nm ++ tl) post s).
Proof.
  intros Hh Hb. unfold map_name. change 0 with (zlen (@nil Z)).
  rewrite (map_name_loop big pre post hd tl Hh nm [] s); [|unfold zlen; rewrite Nat2Z.id; lia|apply plain_len_short|done].
  rewrite app_nil_l. change (zlen (@nil Z)) with 0. by rewrite Z.sub_0_r.
Qed.

Lemma plain_name_len nm : zlen (plain_name nm) = plain_len nm ∧ (0 < plain_len nm ∨ zlen nm = 0 ∨ zlen nm = 2).
Proof.
  pose proof (zlen_nonneg nm). assert (0 <= plain_len nm <= zlen nm ∧ (0 < plain_len nm ∨ zlen nm = 0 ∨ zlen nm = 2)) as [H1 H2].
  { unfold plain_len. case_bool_decide as E; [|lia]. apply (f_equal length) in E. rewrite length_drop in E.
    cbn in E. unfold zlen in *. lia. }
  split; [|done]. unfold plain_name, zlen in *. rewrite length_map, length_take. lia.
Qed.

Lemma entry_name_ok big pre post e namelen arr arr' (s : St) : dirent_ok e → alt_step (sb s.1) arr e arr' →
  s_mapping (sb s.1) = 110 → buffer big s.1 = pre ++ e_bytes e ++ post →
  ∃ dlen c rest, entry_name fuel big (zlen pre) namelen arr s = Ret (dlen, arr') (put_rec big pre (e_hd e ++ c ++ rest) post s) ∧
    zlen c + zlen rest = zlen (e_name e) + zlen (e_tl e) ∧ 0 <= dlen <= zlen c ∧
    ∀ name, zlen name = namelen → match_in name c dlen =
      (if bool_decide (e_alt e = []) then plain_match name (e_name e) else match_in name (e_alt e) (zlen (e_alt e))).
Proof.
  intros Hok [Hrr Hfit] Hmap Hb. unfold entry_name. rewrite (bind_Ret _ _ _ _ _ (record_at_ok _ _ _ _ _ Hb)).
  rewrite (bind_Ret _ _ _ _ _ (Hrr post s eq_refl)).
  pose proof (eo_hd _ Hok) as Hh. destruct (eo_name _ Hok) as [Hlen Hpos]. unfold e_bytes in Hb.
  case_bool_decide as Ealt.
  - rewrite Ealt. change (zlen (@nil Z) =? 0) with true. cbn [negb].
    assert (isonum_711 (from (e_bytes e ++ post) 32) = Some (zlen (e_name e))) as ->.
    { unfold isonum_711, from, aget. rewrite decide_True, lookup_drop by lia.
      replace (Z.to_nat 32 + Z.to_nat 0)%nat with (Z.to_nat 32) by lia. unfold e_bytes. rewrite <- !app_assoc.
      rewrite lookup_app_l by (unfold zlen in *; lia). unfold aget in Hlen. by rewrite decide_True in Hlen by lia. }
    cbn [lift_opt]. rewrite bind_ret, (bind_Ret (get_sb s_mapping) _ s _ s eq_refl), Hmap. change (110 =? 110) with true. cbv iota.
    rewrite (bind_Ret _ _ _ _ _ (map_name_ok _ _ _ _ _ _ _ Hh Hb)).
    set (c := plain_name (e_name e)). destruct (plain_name_len (e_name e)) as [Hc Hz]. fold c in Hc.
    set (rest := drop (Z.to_nat (plain_len (e_name e))) (e_name e) ++ e_tl e). set (s1 := put_rec _ _ _ _ s).
    assert (zlen c + zlen rest = zlen (e_name e) + zlen (e_tl e)) as Hsum.
    { subst rest. rewrite zlen_app. destruct (plain_len_bounds (e_name e)) as [E|E];
        rewrite zlen_drop by (pose proof (zlen_nonneg c); lia); lia. }
    pose proof (zlen_nonneg c) as Hc0.
    rewrite (bind_Ret _ _ _ _ _ (record_at_ok big pre (e_hd e ++ c ++ rest) post s1 (buffer_put_rec _ _ _ _ _))).
    assert (∃ y, de_name ((e_hd e ++ c ++ rest) ++ post) (plain_len (e_name e) - 1) = Some y ∧
      (y =? 46) = (default 0 (aget c (zlen c - 1)) =? 46)) as (y&Ey&Hy).
    { unfold de_name. rewrite <- !app_assoc. rewrite <- Hc. destruct (Z.eqb_spec (zlen c) 0) as [E0|E0].
      - exists (zlen (e_name e)). rewrite E0. split; [by rewrite de_field_app by lia|].
        assert (aget c (0 - 1) = None) as -> by (unfold aget; by rewrite decide_False by lia).
        assert (zlen (e_name e) = 2) as -> by lia. done.
      - destruct (proj2 (aget_is_Some c (zlen c - 1))) as [y Ey]; [lia|]. exists y. rewrite <- Hh, aget_in by lia.
        by rewrite Ey. }
    rewrite Ey. cbn [lift_opt]. rewrite bind_ret, Hy. rewrite <- Hc. eexists _, c, rest. split; [done|]. split; [done|].
    split; [|by intros name <-].
    assert (0 <= namelen ∨ namelen < 0) as [Hn|Hn] by lia; destruct (Z.eqb_spec namelen (zlen c - 1));
      rewrite ?andb_false_r, ?andb_true_r; repeat case_match; try lia.
    apply Z.eqb_eq in H0. destruct (Z.eqb_spec (zlen c) 0) as [E0|]; [|lia]. rewrite E0 in H0. done.
  - destruct (Z.eqb_spec (zlen (e_alt e)) 0) as [E0|E0]; [destruct (e_alt e) as [|x0 l0]; [done|rewrite zlen_cons in E0; pose proof (zlen_nonneg l0); lia]|].
    cbn [negb]. destruct (Hfit Ealt) as (junk&->&Hroom). cbn [lift_opt]. rewrite bind_ret.
    pose proof (zlen_nonneg (e_alt e)). pose proof (zlen_nonneg junk). set (c := e_alt e ++ junk).
    assert (zlen c = zlen (e_alt e) + zlen junk) as Hc by (subst c; by rewrite zlen_app).
    set (k := Z.to_nat (zlen c + 1)).
    assert (asplice (e_hd e ++ e_name e ++ e_tl e) (sizeof_record + 0) (c ++ [0]) =
      Some (e_hd e ++ (c ++ [0]) ++ drop k (e_name e ++ e_tl e))) as Ea.
    { rewrite <- (take_drop k (e_name e ++ e_tl e)) at 1. apply asplice_mid; [done|].
      unfold zlen in *. rewrite length_take, !length_app in *. cbn [length]. lia. }
    erewrite bind_Ret; [|eapply put_name_ok; [exact Hb|lia| |exact Ea]].
    2:{ unfold sizeof_record. rewrite !zlen_app, Hh. change (zlen [0]) with 1. lia. }
    exists (zlen (e_alt e)), c, ([0] ++ drop k (e_name e ++ e_tl e)). rewrite <- (app_assoc c).
    split; [done|]. split; [|split; [lia|]].
    + subst k. rewrite (zlen_app [0]), zlen_drop by (rewrite zlen_app; lia). rewrite zlen_app. change (zlen [0]) with 1. lia.
    + intros name _. apply (match_in_prefix name (e_alt e) junk). lia.
Qed.
Lemma check_entry_ok dir ino name big pre post e addr arr arr' (s : St) : dirent_ok e → alt_step (sb s.1) arr e arr' →
  s_mapping (sb s.1) = 110 →
  0 <= s_log_zone_size (sb s.1) < 32 → 0 <= s_high_sierra (sb s.1) <= 25 →
  buffer big s.1 = pre ++ e_bytes e ++ post → inumber <$> aget (inode_table s.1) dir = Some ino →
  s32 (e_numbers (sb s.1) ino e addr).1 ≠ -1 →
  ∃ rec', zlen rec' = zlen (e_bytes e) ∧
    check_entry fuel dir name big (zlen pre) addr arr s =
    Ret (if e_match (sb s.1) e name
         then Some (0, (e_numbers (sb s.1) ino e addr).1, (e_numbers (sb s.1) ino e addr).2) else None, arr')
      (put_rec big pre rec' post s).
Proof.
  intros Hok Halt Hmap Hlog Hhs Hb Hino Hm1. unfold check_entry.
  rewrite (bind_Ret _ _ _ _ _ (entry_numbers_ok dir ino big pre post e addr s Hok Hb Hino Hlog)).
  destruct (e_numbers (sb s.1) ino e addr) as [n back]. cbn [fst snd] in *.
  destruct (entry_name_ok big pre post e (zlen name) arr arr' s Hok Halt Hmap Hb) as (dlen&c&rest&E&Hz&Hd&Hmatch).
  rewrite (bind_Ret _ _ _ _ _ E). set (s1 := put_rec _ _ _ _ s).
  assert (sb s1.1 = sb s.1) as Esb by (subst s1; by destruct s as [[] ?], big).
  exists (e_hd e ++ c ++ rest). split; [unfold e_bytes; rewrite !zlen_app; lia|].
  rewrite (bind_Ret (get_sb s_high_sierra) _ s1 _ s1 eq_refl), (bind_Ret (get_sb s_unhide) _ s1 _ s1 eq_refl), Esb.
  assert (buffer big s1.1 = pre ++ (e_hd e ++ c ++ rest) ++ post) as Hb1 by (subst s1; by rewrite buffer_put_rec).
  rewrite (bind_Ret _ _ _ _ _ (record_at_ok big pre _ post s1 Hb1)). pose proof (eo_hd _ Hok) as Hh.
  unfold e_match, e_visible, de_flags. rewrite <- (app_assoc (e_hd e)), de_field_app by lia.
  destruct (proj2 (aget_is_Some (e_hd e) (25 - s_high_sierra (sb s.1)))) as [flags ->]; [lia|].
  cbn [lift_opt default]. rewrite bind_ret. destruct (_ || _); [|done]. cbn [andb].
  rewrite bind_bind, (bind_Ret (get_iso (buffer big)) _ s1 _ s1 eq_refl), Hb1.
  assert (iso_match name (pre ++ (e_hd e ++ c ++ rest) ++ post) (zlen pre + sizeof_record) dlen = Some (match_in name c dlen)) as ->.
  { replace (pre ++ (e_hd e ++ c ++ rest) ++ post) with ((pre ++ e_hd e) ++ c ++ (rest ++ post)) by (by rewrite <- !app_assoc).
    replace (zlen pre + sizeof_record) with (zlen (pre ++ e_hd e)) by (rewrite zlen_app; unfold sizeof_record; lia).
    by apply iso_match_in. }
  rewrite (Hmatch name eq_refl). cbn [lift_opt]. rewrite bind_ret.
  destruct (if bool_decide (e_alt e = []) then _ else _); [|done]. by rewrite (proj2 (Z.eqb_neq _ _) Hm1).
Qed.

(** ** The directory *)

(** Records of one sector and of a directory, and where the first one that is
    looked for lies. *)
Definition sector_bytes (es : list dirent) : list Z :=
  concat (map e_bytes es) ++ replicate (Z.to_nat (2048 - zlen (concat (map e_bytes es)))) 0.

Definition dir_bytes (secs : list (list dirent)) : list Z := concat (map sector_bytes secs).

Fixpoint sector_find (m : dirent → bool) (es : list dirent) (pos : Z) : option (Z * dirent) :=
  match es with
  | [] => None
  | e :: es => if m e then Some (pos, e) else sector_find m es (pos + zlen (e_bytes e))
  end.

Fixpoint dir_find (m : dirent → bool) (secs : list (list dirent)) (pos : Z) : option (Z * dirent) :=
  match secs with
  | [] => None
  | es :: secs => match sector_find m es pos with Some r => Some r | None => dir_find m secs (pos + 2048) end
  end.

(** The start of the next sector. *)
Lemma next_sector_ok pos : 0 <= pos < 2 ^ 32 - 2048 → next_sector pos = (pos / 2048 + 1) * 2048 ∧ pos < (pos / 2048 + 1) * 2048.
Proof.
  intros Hp. pose proof (Z.div_mod pos 2048 ltac:(lia)). pose proof (Z.mod_pos_bound pos 2048 ltac:(lia)).
  split; [|lia]. unfold next_sector, ISOFS_BLOCK_SIZE.
  change (u32 (Z.lnot (2048 - 1))) with (Z.ldiff (Z.ones 32) (Z.ones 11)).
  assert (Z.land pos (Z.ldiff (Z.ones 32) (Z.ones 11)) = pos / 2048 * 2048) as ->.
  { transitivity (Z.ldiff (Z.land pos (Z.ones 32)) (Z.ones 11)).
    - apply Z.bits_inj'. intros n Hn. rewrite !Z.land_spec, !Z.ldiff_spec, Z.land_spec. by rewrite andb_assoc.
    - rewrite Z.land_ones, Z.ldiff_ones_r by lia. rewrite Z.mod_small by lia.
      by rewrite Z.shiftl_mul_pow2, Z.shiftr_div_pow2 by lia. }
  rewrite wrap_small; lia.
Qed.

Section search.
Context (i0 : iso) (dir ino base size : Z) (A : list Z) (name : list Z) (disk : list Z).

(** The directory in its slot, its blocks on the disk with the one behind it,
    which the code reads when a record ends with the last sector. *)
Record dir_ready : Prop := {
  dr_slot : ∃ ie, aget (inode_table i0) dir = Some ie ∧ inumber ie = ino ∧ it_size ie = size ∧
    0 <= i_first_extent ie < 2 ^ 32 ∧ i_first_extent ie / 1024 = base;
  dr_sb : s_blocksize (sb i0) = 1024 ∧ s_blocksize_bits (sb i0) = 10 ∧ s_mapping (sb i0) = 110 ∧
    0 <= s_log_zone_size (sb i0) < 32 ∧ 0 <= s_high_sierra (sb i0) <= 25;
  dr_base : 0 < base ∧ 0 <= size ∧ size mod 2048 = 0 ∧ base * 1024 + size + 1024 <= 2 ^ 31;
  dr_disk : aslice disk (base * 1024) (size + 1024) = Some A
}.

(** Only the buffers change. *)
Definition good (s : St) : Prop :=
  ∃ data big, s.1 = set_big big (set_data data i0) ∧ zlen data = 1024 ∧ zlen big = 2048 ∧
    env_ok s.2 ∧ env_disk s.2 = disk.

(** The rest of the block of position [pos] is in [data_block]. *)
Definition at_pos (pos : Z) (s : St) : Prop :=
  ∃ pre X, data_block s.1 = pre ++ X ∧ zlen pre = pos mod 1024 ∧ aslice A pos (1024 - pos mod 1024) = Some X.

Context (HR : dir_ready).

Lemma dir_block_ok pos (s : St) : good s → 0 <= pos <= size →
  ∃ blk s', dir_block dir pos s = Ret (Some (base + pos / 1024)) s' ∧ good s' ∧ data_block s'.1 = blk ∧
    aslice A (pos / 1024 * 1024) 1024 = Some blk ∧ big_data_block s'.1 = big_data_block s.1.
Proof.
  destruct HR as [(ie&Eie&Eino&Esz&Hfe&Ebase) (Ebs&Ebits&_) (Hb&Hs0&Hs2&H31) Hdisk].
  intros (data&big&Es&Hd&Hbig&Henv&Edk) Hp. unfold dir_block.
  rewrite (bind_Ret (get_sb s_blocksize_bits) _ s _ s eq_refl), Es. cbn [sb set_big set_data]. rewrite Ebits.
  rewrite (bind_Ret _ _ _ _ _ (get_inode_ok dir ie s ltac:(by rewrite Es))). rewrite decide_True by lia.
  rewrite Z.shiftr_div_pow2 by lia. change (2 ^ 10) with 1024.
  pose proof (Z.div_pos pos 1024 ltac:(lia) ltac:(lia)). pose proof (Z.mul_div_le pos 1024 ltac:(lia)).
  rewrite (swrap_small 32 eq_refl (pos / 1024)) by lia. unfold iso_bmap. rewrite (proj2 (Z.ltb_ge _ 0)) by lia.
  rewrite bind_bind, (bind_Ret (get_sb s_blocksize_bits) _ s _ s eq_refl), Es. cbn [sb set_big set_data]. rewrite Ebits.
  rewrite decide_True by lia. rewrite Z.shiftr_div_pow2 by lia. change (2 ^ 10) with 1024. rewrite Ebase. rewrite bind_ret.
  rewrite (wrap_small 32 (base + _)), (swrap_small 32 eq_refl), (wrap_small 32) by lia.
  rewrite (proj2 (Z.eqb_neq _ 0)) by lia. unfold read_block.
  rewrite bind_bind, (bind_Ret (get_sb s_blocksize) _ s _ s eq_refl), bind_bind, Es. cbn [sb set_big set_data]. rewrite Ebs.
  rewrite (bind_Ret (get_iso data_block) _ s _ s eq_refl), Es. cbn [data_block set_big set_data].
  rewrite (wrap_small 32) by lia.
  assert (zlen disk >= base * 1024 + size + 1024) as Hzd by (apply aslice_Some in Hdisk as (?&?&?&?); lia).
  destruct (dev_read_ok data ((base + pos / 1024) * 1024) 1024 s.2) as (blk&e'&E&Ea&He'&Ed'); [done|lia|lia| |].
  { rewrite Edk. pose proof (Z.mod_pos_bound ((base + pos / 1024) * 1024 + 1024 + 511) 512 ltac:(lia)).
    pose proof (Z.div_mod ((base + pos / 1024) * 1024 + 1024 + 511) 512 ltac:(lia)). lia. }
  rewrite drop_ge, app_nil_r in E by (unfold zlen in *; lia). rewrite Edk in Ea.
  assert (on_env (iso_dev_read data ((base + pos / 1024) * 1024) 1024) s = Ret (1024, blk) (s.1, e')) as E1
    by (unfold on_env; by rewrite E).
  rewrite bind_bind, (bind_Ret _ _ _ _ _ E1). cbn [mod_iso modify bind fst snd ret]. rewrite Z.eqb_refl.
  exists blk, (set_data blk s.1, e'). split; [done|]. pose proof (aslice_len _ _ _ _ Ea) as Hblk.
  split; [|split; [done|split; [|by rewrite Es]]].
  - exists blk, big. cbn. rewrite Es. split; [done|]. split; [done|]. split; [done|]. by rewrite Ed'.
  - pose proof (aslice_len _ _ _ _ Hdisk) as HzA. pose proof (Z.div_mod size 1024 ltac:(lia)).
    pose proof (Z.div_le_mono pos size 1024 ltac:(lia) ltac:(lia)).
    assert (size mod 1024 = 0) as Hm.
    { rewrite (Z.div_mod size 2048) by lia. rewrite Hs2, Z.add_0_r.
      replace (2048 * (size / 2048)) with (2 * (size / 2048) * 1024) by lia. by apply Z.mod_mul. }
    destruct (aslice_is_Some A (pos / 1024 * 1024) 1024) as [x Ex]; [lia..|]. rewrite Ex.
    pose proof (aslice_aslice _ _ _ _ _ _ _ Hdisk Ex) as E2. rewrite <- Z.mul_add_distr_r in E2. congruence.
Qed.
Lemma good_sb (s : St) : good s → sb s.1 = sb i0 ∧ inode_table s.1 = inode_table i0 ∧ zlen (data_block s.1) = 1024 ∧
  zlen (big_data_block s.1) = 2048.
Proof. intros (data&big&Es&Hd&Hb&_). by rewrite Es. Qed.

Lemma good_put_rec big pre rec rec' post (s : St) : good s → buffer big s.1 = pre ++ rec ++ post → zlen rec' = zlen rec →
  good (put_rec big pre rec' post s).
Proof.
  intros (data&bg&Es&Hd&Hb&He) Hbuf Hz. unfold put_rec.
  assert (zlen (pre ++ rec' ++ post) = zlen (buffer big s.1)) as E by (rewrite Hbuf, !zlen_app; lia).
  destruct big; cbn in E |- *; [exists data, (pre ++ rec' ++ post)|exists (pre ++ rec' ++ post), bg];
    (rewrite Es in *; split; [done|cbn in E; rewrite E; done]).
Qed.

Lemma pos_block pos : 0 <= pos → pos / 1024 * 1024 + pos mod 1024 = pos ∧ 0 <= pos mod 1024 < 1024.
Proof. intros Hp. pose proof (Z.div_mod pos 1024 ltac:(lia)). pose proof (Z.mod_pos_bound pos 1024 ltac:(lia)). lia. Qed.

(** Behind a read of the block of [pos]. *)
Lemma at_pos_read pos blk (s : St) : 0 <= pos → aslice A (pos / 1024 * 1024) 1024 = Some blk → data_block s.1 = blk → at_pos pos s.
Proof.
  intros Hp Ha Hd. destruct (pos_block pos Hp) as [E Hm]. pose proof (aslice_len _ _ _ _ Ha) as Hz.
  exists (take (Z.to_nat (pos mod 1024)) blk), (drop (Z.to_nat (pos mod 1024)) blk).
  rewrite take_drop. split; [done|]. split; [unfold zlen in *; rewrite length_take; lia|].
  rewrite <- E at 1. eapply aslice_aslice; [exact Ha|]. apply aslice_Some. split; [lia|]. split; [lia|]. split; [lia|].
  rewrite take_ge; [done|]. rewrite length_drop. unfold zlen in *. lia.
Qed.

(** The head of a turn. *)
Lemma at_pos_byte pos (s : St) x : 0 <= pos → at_pos pos s → aget A pos = Some x → aget (data_block s.1) (pos mod 1024) = Some x.
Proof.
  intros Hp (pre&X&Ed&Hz&Ha) Hx. destruct (pos_block pos Hp) as [_ Hm]. rewrite Ed, <- Hz, <- (Z.add_0_r (zlen pre)).
  rewrite <- (app_nil_r X), aget_in by (apply aslice_len in Ha; lia).
  rewrite (aget_aslice _ _ _ _ _ Ha) by lia. by rewrite Z.add_0_r.
Qed.

Lemma step_zero pos arr (s : St) : good s → at_pos pos s → 0 <= pos < size → aget A pos = Some 0 →
  let pos' := (pos / 2048 + 1) * 2048 in
  ∃ s', find_step fuel dir name (pos, pos mod 1024, base + pos / 1024, arr) s =
      Ret (inl (pos', pos' mod 1024, base + pos' / 1024, arr)) s' ∧ good s' ∧ at_pos pos' s' ∧ pos' <= size.
Proof.
  intros Hg Hat Hp Hz pos'. pose proof HR as [(ie&Eie&Eino&Esz&Hfe&Ebase) (Ebs&Ebits&_) (Hb&Hs0&Hs2&H31) Hdisk].
  destruct (good_sb s Hg) as (Esb&Etb&Hdl&_). unfold find_step.
  rewrite (bind_Ret _ _ _ _ _ (get_inode_ok dir ie s ltac:(by rewrite Etb))), Esz, (proj2 (Z.ltb_lt _ _)) by lia.
  rewrite (bind_Ret (get_sb s_blocksize) _ s _ s eq_refl), (bind_Ret (get_sb s_blocksize_bits) _ s _ s eq_refl).
  rewrite (bind_Ret (get_iso data_block) _ s _ s eq_refl), (at_pos_byte pos s 0) by (done || lia).
  cbn [lift_opt]. rewrite bind_ret. change (0 =? 0) with true. cbv iota zeta.
  pose proof (Z.div_mod pos 2048 ltac:(lia)). pose proof (Z.mod_pos_bound pos 2048 ltac:(lia)).
  pose proof (Z.div_mod size 2048 ltac:(lia)). pose proof (Z.div_le_mono pos size 2048 ltac:(lia) ltac:(lia)).
  assert (pos' <= size) as Hle.
  { subst pos'. assert (pos / 2048 < size / 2048 ∨ pos / 2048 = size / 2048) as [|E] by lia; [lia|].
    rewrite E in *. lia. }
  destruct (next_sector_ok pos) as [-> _]; [lia|]. fold pos'.
  destruct (dir_block_ok pos' s Hg) as (blk&s'&E&Hg'&Hd'&Ha&_); [subst pos'; lia|].
  rewrite (bind_Ret _ _ _ _ _ E), (proj2 (Z.eqb_neq _ 0)) by (pose proof (Z.div_pos pos' 1024 ltac:(subst pos'; lia) ltac:(lia)); lia).
  assert (pos' mod 1024 = 0) as Em.
  { subst pos'. replace ((pos / 2048 + 1) * 2048) with ((pos / 2048 + 1) * 2 * 1024) by lia. by apply Z.mod_mul. }
  exists s'. rewrite Em. split; [done|]. split; [done|]. split; [|done].
  eapply at_pos_read; [subst pos'; lia|exact Ha|exact Hd'].
Qed.
Lemma good_set_big b (s : St) : good s → zlen b = 2048 → good (set_big b s.1, s.2).
Proof. intros (data&big&Es&Hd&Hb&He) Hz. exists data, b. cbn. by rewrite Es. Qed.

Lemma save_fragment_ok pre X (s : St) : good s → data_block s.1 = pre ++ X →
  ∃ R s1, save_fragment (zlen pre) (zlen X) s = Ret tt s1 ∧ good s1 ∧ data_block s1.1 = data_block s.1 ∧
    big_data_block s1.1 = X ++ R ∧ zlen X + zlen R = 2048.
Proof.
  intros Hg Ed. destruct (good_sb s Hg) as (_&_&Hdl&Hbl). pose proof (zlen_nonneg pre). pose proof (zlen_nonneg X).
  assert (zlen pre + zlen X = 1024) as Hz by (rewrite <- zlen_app, <- Ed; done).
  unfold save_fragment. rewrite (bind_Ret (get_iso data_block) _ s _ s eq_refl), (bind_Ret (get_iso big_data_block) _ s _ s eq_refl).
  rewrite Ed. assert (aslice (pre ++ X) (zlen pre) (zlen X) = Some X) as ->.
  { rewrite <- (app_nil_r X) at 1. by apply aslice_app_mid. }
  cbn [lift_opt]. rewrite bind_ret, (asplice_0 _ X) by lia. cbn [lift_opt]. rewrite bind_ret.
  set (R := drop _ _). assert (zlen X + zlen R = 2048) as HR2 by (subst R; rewrite zlen_drop by lia; lia).
  exists R, (set_big (X ++ R) s.1, s.2). split; [done|]. split; [apply good_set_big; [done|rewrite zlen_app; lia]|].
  by destruct s as [[] ?].
Qed.

Lemma join_fragment_ok X R n (s : St) : good s → big_data_block s.1 = X ++ R → 0 <= n <= 1024 → n <= zlen R →
  ∃ s1, join_fragment (zlen X) n s = Ret tt s1 ∧ good s1 ∧ data_block s1.1 = data_block s.1 ∧
    big_data_block s1.1 = (X ++ take (Z.to_nat n) (data_block s.1)) ++ drop (Z.to_nat n) R.
Proof.
  intros Hg Eb Hn HnR. destruct (good_sb s Hg) as (_&_&Hdl&Hbl). unfold join_fragment.
  rewrite (bind_Ret (get_iso data_block) _ s _ s eq_refl), (bind_Ret (get_iso big_data_block) _ s _ s eq_refl), Eb.
  assert (aslice (data_block s.1) 0 n = Some (take (Z.to_nat n) (data_block s.1))) as Ea by (apply aslice_Some; repeat split; lia).
  rewrite Ea. cbn [lift_opt]. rewrite bind_ret. pose proof (aslice_len _ _ _ _ Ea) as Hz.
  assert (asplice (X ++ R) (zlen X) (take (Z.to_nat n) (data_block s.1)) =
    Some (X ++ take (Z.to_nat n) (data_block s.1) ++ drop (Z.to_nat n) R)) as ->.
  { rewrite <- (take_drop (Z.to_nat n) R) at 1. apply asplice_mid; [done|].
    rewrite Hz. unfold zlen in *. rewrite length_take. lia. }
  cbn [lift_opt]. rewrite bind_ret. eexists. split; [done|]. cbn [fst]. rewrite <- app_assoc.
  split; [apply good_set_big; [done|]|by destruct s as [[] ?]].
  rewrite Eb, zlen_app in Hbl. rewrite !zlen_app, Hz, zlen_drop by lia. lia.
Qed.

Lemma slice_of_slice X pos n l m : aslice A pos m = Some X → aslice A pos n = Some l → n <= m →
  X = l ++ drop (Z.to_nat n) X ∧ aslice A (pos + n) (m - n) = Some (drop (Z.to_nat n) X).
Proof.
  intros HX Hl Hn. pose proof (aslice_len _ _ _ _ HX) as Hz. pose proof (aslice_len _ _ _ _ Hl) as Hzl.
  pose proof (zlen_nonneg l). destruct (aslice_is_Some X 0 n) as [b Eb]; [lia..|].
  pose proof (aslice_aslice _ _ _ _ _ _ _ HX Eb) as E. rewrite Z.add_0_r, Hl in E. injection E as <-.
  apply aslice_Some in Eb as (_&_&_&E). rewrite drop_0 in E. split; [rewrite E at 1; by rewrite take_drop|].
  eapply aslice_aslice; [exact HX|]. apply aslice_Some. split; [lia|]. split; [lia|]. split; [lia|].
  rewrite take_ge; [done|]. rewrite length_drop. unfold zlen in *. lia.
Qed.
Lemma dirent_len e : dirent_ok e → 34 <= zlen (e_bytes e) <= 255 ∧ aget (e_bytes e) 0 = Some (zlen (e_bytes e)).
Proof.
  intros Hok. pose proof (eo_hd _ Hok) as Hh. destruct (eo_len _ Hok) as [Hl H255]. destruct (eo_name _ Hok) as [_ Hn].
  pose proof (zlen_nonneg (e_tl e)). split; [unfold e_bytes in *; rewrite !zlen_app in *; lia|].
  unfold e_bytes at 1. by rewrite de_field_app by lia.
Qed.

(** The turn up to the check of the record: inside a block. *)
Lemma turn_inside pos e arr arr' (s : St) : good s → at_pos pos s → dirent_ok e → alt_step (sb i0) arr e arr' →
  0 <= pos → pos + zlen (e_bytes e) <= size → aslice A pos (zlen (e_bytes e)) = Some (e_bytes e) →
  pos mod 1024 + zlen (e_bytes e) < 1024 →
  s32 (e_numbers (sb i0) ino e (base * 1024 + pos)).1 ≠ -1 →
  ∃ pre post rec', data_block s.1 = pre ++ e_bytes e ++ post ∧ zlen pre = pos mod 1024 ∧ zlen rec' = zlen (e_bytes e) ∧
    check_entry fuel dir name false (pos mod 1024) (base * 1024 + pos) arr s =
    Ret (if e_match (sb i0) e name
         then Some (0, (e_numbers (sb i0) ino e (base * 1024 + pos)).1, (e_numbers (sb i0) ino e (base * 1024 + pos)).2) else None, arr')
      (put_rec false pre rec' post s) ∧
    aslice A (pos + zlen (e_bytes e)) (1024 - (pos mod 1024 + zlen (e_bytes e))) = Some post.
Proof.
  intros Hg (pre&X&Ed&Hz&HX) Hok Halt Hp Hle Hl Hin Hm1. destruct (good_sb s Hg) as (Esb&Etb&_).
  pose proof HR as [(ie&Eie&Eino&_) (_&_&Emap&Hlog&Hhs) _ _].
  destruct (slice_of_slice X pos _ _ _ HX Hl) as [EX Hpost]; [lia|]. set (post := drop _ X) in *.
  destruct (check_entry_ok dir ino name false pre post e (base * 1024 + pos) arr arr' s) as (rec'&Hzr&E).
  { done. }
  { by rewrite Esb. }
  { by rewrite Esb. }
  { by rewrite Esb. }
  { by rewrite Esb. }
  { cbn [buffer]. by rewrite Ed, EX at 1. }
  { by rewrite Etb, Eie; cbn; rewrite Eino. }
  { by rewrite Esb. }
  rewrite Esb, Hz in E. exists pre, post, rec'. rewrite <- EX. split; [done|]. split; [done|]. split; [done|].
  split; [exact E|]. replace (1024 - (pos mod 1024 + zlen (e_bytes e))) with (1024 - pos mod 1024 - zlen (e_bytes e)) by lia. done.
Qed.

(** ... and across two. *)
Lemma turn_across pos e arr arr' (s : St) : good s → at_pos pos s → dirent_ok e → alt_step (sb i0) arr e arr' →
  0 <= pos → pos + zlen (e_bytes e) <= size → aslice A pos (zlen (e_bytes e)) = Some (e_bytes e) →
  1024 <= pos mod 1024 + zlen (e_bytes e) →
  s32 (e_numbers (sb i0) ino e (base * 1024 + pos)).1 ≠ -1 →
  let pos' := pos + zlen (e_bytes e) in
  ∃ s1 s2 s3 rec' R blk,
    save_fragment (pos mod 1024) (1024 - pos mod 1024) s = Ret tt s1 ∧
    dir_block dir pos' s1 = Ret (Some (base + pos' / 1024)) s2 ∧
    join_fragment (1024 - pos mod 1024) (pos' mod 1024) s2 = Ret tt s3 ∧
    good s3 ∧ data_block s3.1 = blk ∧ aslice A (pos' / 1024 * 1024) 1024 = Some blk ∧
    buffer true s3.1 = [] ++ e_bytes e ++ R ∧ zlen rec' = zlen (e_bytes e) ∧
    check_entry fuel dir name true 0 (base * 1024 + pos) arr s3 =
    Ret (if e_match (sb i0) e name
         then Some (0, (e_numbers (sb i0) ino e (base * 1024 + pos)).1, (e_numbers (sb i0) ino e (base * 1024 + pos)).2) else None, arr')
      (put_rec true [] rec' R s3).
Proof.
  intros Hg (pre&X&Ed&Hzp&HX) Hok Halt Hp Hle Hl Hs Hm1 pos'. destruct (dirent_len e Hok) as [Hz _].
  destruct (pos_block pos Hp) as [Epos Hm]. pose proof HR as [(ie&Eie&Eino&_) (_&_&Emap&Hlog&Hhs) _ _].
  pose proof (aslice_len _ _ _ _ HX) as HzX. destruct (save_fragment_ok pre X s Hg Ed) as (R&s1&E1&Hg1&_&Eb1&HzR).
  rewrite Hzp, HzX in E1. destruct (dir_block_ok pos' s1 Hg1) as (blk&s2&E2&Hg2&Hd2&Hblk&Eb2); [lia|].
  assert (pos' / 1024 = pos / 1024 + 1 ∧ pos' mod 1024 = pos mod 1024 + zlen (e_bytes e) - 1024) as [Ediv Emod].
  { subst pos'. assert (pos + zlen (e_bytes e) = 1024 * (pos / 1024 + 1) + (pos mod 1024 + zlen (e_bytes e) - 1024)) as Eq by lia.
    split; [symmetry; by apply (Z.div_unique _ _ _ (pos mod 1024 + zlen (e_bytes e) - 1024)); [lia|]|].
    symmetry. by apply (Z.mod_unique _ _ (pos / 1024 + 1)); [lia|]. }
  rewrite Eb1 in Eb2. destruct (join_fragment_ok X R (pos' mod 1024) s2 Hg2 Eb2) as (s3&E3&Hg3&Hd3&Eb3); [lia|lia|].
  rewrite HzX in E3. rewrite Hd2 in Hd3, Eb3.
  assert (X ++ take (Z.to_nat (pos' mod 1024)) blk = e_bytes e) as EX.
  { pose proof (aslice_len _ _ _ _ Hblk) as Hzb.
    assert (aslice blk 0 (pos' mod 1024) = Some (take (Z.to_nat (pos' mod 1024)) blk)) as Et by (apply aslice_Some; repeat split; lia).
    pose proof (aslice_aslice _ _ _ _ _ _ _ Hblk Et) as Et2. rewrite Ediv in Et2.
    replace ((pos / 1024 + 1) * 1024 + 0) with (pos + (1024 - pos mod 1024)) in Et2 by lia.
    pose proof (aslice_join _ _ _ _ _ _ HX Et2) as Ej. rewrite Emod in Ej at 1.
    replace (1024 - pos mod 1024 + (pos mod 1024 + zlen (e_bytes e) - 1024)) with (zlen (e_bytes e)) in Ej by lia. congruence. }
  rewrite EX in Eb3. destruct (good_sb s3 Hg3) as (Esb&Etb&_). set (R' := drop _ R) in *.
  destruct (check_entry_ok dir ino name true [] R' e (base * 1024 + pos) arr arr' s3) as (rec'&Hzr&E).
  { done. }
  { by rewrite Esb. }
  { by rewrite Esb. }
  { by rewrite Esb. }
  { by rewrite Esb. }
  { done. }
  { by rewrite Etb, Eie; cbn; rewrite Eino. }
  { by rewrite Esb. }
  rewrite Esb in E. by exists s1, s2, s3, rec', R', blk.
Qed.

Lemma addr_ok pos : 0 <= pos < size → u32 (u32 (Z.shiftl (base + pos / 1024) 10) + Z.land (pos mod 1024) (1024 - 1)) = base * 1024 + pos.
Proof.
  intros Hp. pose proof HR as [_ _ (Hb&Hs0&_&H31) _]. destruct (pos_block pos (proj1 Hp)) as [E Hm].
  change (1024 - 1) with (Z.ones 10). rewrite Z.land_ones, Z.shiftl_mul_pow2 by lia. change (2 ^ 10) with 1024.
  rewrite (Z.mod_small (pos mod 1024)) by lia. pose proof (Z.div_pos pos 1024 ltac:(lia) ltac:(lia)).
  rewrite (wrap_small 32 ((base + pos / 1024) * 1024)), wrap_small by lia. lia.
Qed.

Lemma step_entry pos e arr arr' (s : St) : good s → at_pos pos s → dirent_ok e → alt_step (sb i0) arr e arr' →
  0 <= pos → pos + zlen (e_bytes e) <= size → aslice A pos (zlen (e_bytes e)) = Some (e_bytes e) →
  s32 (e_numbers (sb i0) ino e (base * 1024 + pos)).1 ≠ -1 →
  let n := e_numbers (sb i0) ino e (base * 1024 + pos) in let pos' := pos + zlen (e_bytes e) in
  ∃ s', find_step fuel dir name (pos, pos mod 1024, base + pos / 1024, arr) s =
      Ret (if e_match (sb i0) e name then inr (0, n.1, n.2) else inl (pos', pos' mod 1024, base + pos' / 1024, arr')) s' ∧
    good s' ∧ at_pos pos' s'.
Proof.
  intros Hg Hat Hok Halt Hp Hle Hl Hm1 n pos'. assert (pos + zlen (e_bytes e) = pos') as Epos' by done. clearbody pos'. pose proof HR as [(ie&Eie&Eino&Esz&Hfe&Ebase) (Ebs&Ebits&_) (Hb&Hs0&Hs2&H31) Hdisk].
  destruct (good_sb s Hg) as (Esb&Etb&Hdl&_). destruct (dirent_len e Hok) as [Hz E0]. destruct (pos_block pos Hp) as [Epos Hm].
  unfold find_step.
  rewrite (bind_Ret _ _ _ _ _ (get_inode_ok dir ie s ltac:(by rewrite Etb))), Esz, (proj2 (Z.ltb_lt _ _)) by lia.
  rewrite (bind_Ret (get_sb s_blocksize) _ s _ s eq_refl), (bind_Ret (get_sb s_blocksize_bits) _ s _ s eq_refl), Esb, Ebs, Ebits.
  rewrite (bind_Ret (get_iso data_block) _ s _ s eq_refl).
  rewrite (at_pos_byte pos s (zlen (e_bytes e))) by (done || (rewrite (aget_aslice _ _ _ _ 0 Hl) in E0 by lia; by rewrite Z.add_0_r in E0)).
  cbn [lift_opt]. rewrite bind_ret, (proj2 (Z.eqb_neq _ 0)), addr_ok by lia. cbv zeta.
  rewrite (wrap_small 32 (pos mod 1024 + _)), (wrap_small 32 (pos + _)), Epos' by lia.
  destruct (Z.leb_spec 1024 (pos mod 1024 + zlen (e_bytes e))) as [Hs|Hs].
  - destruct (turn_across pos e arr arr' s Hg Hat Hok Halt Hp Hle Hl Hs Hm1) as (s1&s2&s3&rec'&R&blk&E1&E2&E3&Hg3&Hd3&Hblk&Hb3&Hzr&E).
    rewrite Epos' in E2, E3, Hblk.
    rewrite bind_bind, (wrap_small 32 (1024 - _)), (bind_Ret _ _ _ _ _ E1) by lia. rewrite bind_bind, (bind_Ret _ _ _ _ _ E2).
    pose proof (Z.div_pos pos' 1024 ltac:(lia) ltac:(lia)) as Hdp.
    rewrite (proj2 (Z.eqb_neq (base + pos' / 1024) 0)) by lia.
    assert (Z.land pos' (1024 - 1) = pos' mod 1024) as -> by (change (1024 - 1) with (Z.ones 10); by rewrite Z.land_ones by lia).
    rewrite bind_bind, (bind_Ret _ _ _ _ _ E3), bind_ret, (bind_Ret _ _ _ _ _ E). fold n.
    eexists. split; [by destruct (e_match (sb i0) e name)|]. split; [by eapply good_put_rec|].
    by eapply at_pos_read; [lia|exact Hblk|].
  - destruct (turn_inside pos e arr arr' s Hg Hat Hok Halt Hp Hle Hl Hs Hm1) as (pre&post&rec'&Ed&Hzp&Hzr&E&Hpost).
    rewrite bind_ret, (bind_Ret _ _ _ _ _ E). fold n.
    assert (pos' / 1024 = pos / 1024 ∧ pos' mod 1024 = pos mod 1024 + zlen (e_bytes e)) as [Ediv Emod].
    { subst pos'. assert (pos + zlen (e_bytes e) = 1024 * (pos / 1024) + (pos mod 1024 + zlen (e_bytes e))) as Eq by lia.
      split; [symmetry; by apply (Z.div_unique _ _ _ (pos mod 1024 + zlen (e_bytes e))); [lia|]|].
      symmetry. by apply (Z.mod_unique _ _ (pos / 1024)); [lia|]. }
    eexists. split; [rewrite Ediv, Emod; by destruct (e_match (sb i0) e name)|]. split; [by eapply good_put_rec|].
    exists (pre ++ rec'), post. rewrite Emod. split; [cbn; by rewrite app_assoc|]. split; [rewrite zlen_app; lia|]. by rewrite <- Epos'.
Qed.

(** *** The loop *)

Definition m_of (e : dirent) : bool := e_match (sb i0) e name.
Definition numbers_at (pos : Z) (e : dirent) : Z * Z := e_numbers (sb i0) ino e (base * 1024 + pos).
Definition turn_at (pos : Z) (arr : list Z) : Z * Z * Z * list Z := (pos, pos mod 1024, base + pos / 1024, arr).

Definition numbers_ok (e : dirent) : Prop := ∀ addr, 0 <= addr < 2 ^ 31 → s32 (e_numbers (sb i0) ino e addr).1 ≠ -1.

Lemma sector_loop : ∀ es k pos m fl arr arr' s, good s → at_pos pos s → Forall dirent_ok es →
  alt_chain (sb i0) arr es arr' → Forall numbers_ok es →
  0 <= k → 2048 * k <= pos <= 2048 * (k + 1) → 2048 * (k + 1) <= size →
  aslice A pos (2048 * (k + 1) - pos) = Some (concat (map e_bytes es) ++ replicate m 0) → (length es < fl)%nat →
  ∃ s', good s' ∧
    match sector_find m_of es pos with
    | Some (p, e) => loop fl (find_step fuel dir name) (turn_at pos arr) s = Ret (0, (numbers_at p e).1, (numbers_at p e).2) s'
    | None => ∃ fl', (fl <= fl' + length es + 1)%nat ∧ at_pos (2048 * (k + 1)) s' ∧
        loop fl (find_step fuel dir name) (turn_at pos arr) s =
          loop fl' (find_step fuel dir name) (turn_at (2048 * (k + 1)) arr') s'
    end.
Proof.
  pose proof HR as [_ _ (Hb&Hs0&Hs2&H31) _].
  induction es as [|e es IH]; intros k pos m fl arr arr' s Hg Hat Hes Halt Hns Hk Hp Hsz Ha Hfl; cbn [sector_find];
    inversion Halt as [|? ? arr1 ? ? Hstep Hchain]; subst.
  - destruct (decide (pos = 2048 * (k + 1))) as [->|Hne].
    { exists s. split; [done|]. exists fl. split; [lia|]. done. }
    pose proof (aslice_len _ _ _ _ Ha) as Hz. cbn [map concat app] in Ha, Hz.
    destruct m as [|m]; [change (zlen (replicate 0 0)) with 0 in Hz; lia|].
    destruct (step_zero pos arr' s Hg Hat) as (s'&E&Hg'&Hat'&_); [lia| |].
    { pose proof (aget_aslice _ _ _ _ 0 Ha ltac:(lia)) as E. by rewrite Z.add_0_r in E. }
    assert ((pos / 2048 + 1) * 2048 = 2048 * (k + 1)) as Epos.
    { rewrite <- (Z.div_unique pos 2048 k (pos - 2048 * k)) by lia. lia. }
    rewrite Epos in *. destruct fl as [|fl]; [cbn in Hfl; lia|].
    exists s'. split; [done|]. exists fl. split; [cbn; lia|]. split; [done|]. by apply loop_step.
  - apply List.Forall_cons_iff in Hes as [He Hes]. apply List.Forall_cons_iff in Hns as [Hn Hns].
    destruct (dirent_len e He) as [Hz _]. cbn [map concat] in Ha. rewrite <- app_assoc in Ha.
    pose proof (aslice_len _ _ _ _ Ha) as HzA. set (rest := _ ++ replicate m 0) in *.
    rewrite zlen_app in HzA. pose proof (zlen_nonneg rest).
    assert (aslice A pos (zlen (e_bytes e)) = Some (e_bytes e) ∧
      aslice A (pos + zlen (e_bytes e)) (2048 * (k + 1) - pos - zlen (e_bytes e)) = Some rest) as [Ha1 Ha2].
    { assert (aslice A pos (zlen (e_bytes e)) = Some (e_bytes e)) as E.
      { rewrite <- (Z.add_0_r pos). eapply aslice_aslice; [exact Ha|].
        change 0 with (zlen (@nil Z)). by apply (aslice_app_mid []). }
      split; [done|]. destruct (slice_of_slice _ _ _ _ _ Ha E) as [_ E2]; [lia|].
      by rewrite E2, (drop_app_length' (e_bytes e)) by (unfold zlen; lia). }
    destruct (step_entry pos e arr arr1 s Hg Hat He Hstep ltac:(lia) ltac:(lia) Ha1 (Hn (base * 1024 + pos) ltac:(lia))) as (s'&E&Hg'&Hat').
    destruct fl as [|fl]; [cbn in Hfl; lia|]. fold (turn_at pos arr) in E. fold (m_of e) in E |- *.
    destruct (m_of e) eqn:Em.
    { exists s'. split; [done|]. by apply loop_exit. }
    destruct (IH k (pos + zlen (e_bytes e)) m fl arr1 arr' s' Hg' Hat' Hes Hchain Hns Hk) as (s2&Hg2&E2); [lia|lia| |cbn in Hfl; lia|].
    { by rewrite Z.sub_add_distr. }
    exists s2. split; [done|]. rewrite (loop_step _ _ _ _ _ _ E).
    destruct (sector_find m_of es (pos + zlen (e_bytes e))) as [[p e']|]; [done|].
    destruct E2 as (fl'&Hfl'&?&?). exists fl'. split; [cbn; lia|done].
Qed.

Definition sector_ok (es : list dirent) : Prop :=
  Forall dirent_ok es ∧ Forall numbers_ok es ∧ zlen (concat (map e_bytes es)) <= 2048.

Lemma sector_bytes_len es : sector_ok es → zlen (sector_bytes es) = 2048.
Proof.
  intros (_&_&Hl). pose proof (zlen_nonneg (concat (map e_bytes es))). unfold sector_bytes. rewrite zlen_app.
  unfold zlen at 2. rewrite length_replicate. lia.
Qed.

Fixpoint dir_turns (secs : list (list dirent)) : nat :=
  match secs with [] => 1 | es :: secs => length es + 1 + dir_turns secs end.

Lemma dir_loop : ∀ secs k fl arr arr' s, good s → at_pos (2048 * k) s → Forall sector_ok secs →
  alt_chain (sb i0) arr (concat secs) arr' →
  0 <= k → 2048 * k + 2048 * zlen secs = size →
  aslice A (2048 * k) (size - 2048 * k) = Some (dir_bytes secs) → (dir_turns secs <= fl)%nat →
  ∃ s', good s' ∧ loop fl (find_step fuel dir name) (turn_at (2048 * k) arr) s =
    Ret (match dir_find m_of secs (2048 * k) with
         | Some (p, e) => (0, (numbers_at p e).1, (numbers_at p e).2)
         | None => (-1, 0, 0)
         end) s'.
Proof.
  pose proof HR as [(ie&Eie&Eino&Esz&Hfe&Ebase) (Ebs&Ebits&_) (Hb&Hs0&Hs2&H31) _].
  induction secs as [|es secs IH]; intros k fl arr arr' s Hg Hat Hok Halt Hk Hsz Ha Hfl; cbn [dir_find dir_turns] in *.
  - destruct fl as [|fl]; [lia|]. change (zlen []) with 0 in Hsz. destruct (good_sb s Hg) as (_&Etb&_).
    exists s. split; [done|]. apply loop_exit. unfold find_step, turn_at.
    rewrite (bind_Ret _ _ _ _ _ (get_inode_ok dir ie s ltac:(by rewrite Etb))), Esz, (proj2 (Z.ltb_ge _ _)) by lia. done.
  - apply List.Forall_cons_iff in Hok as [Hes Hok]. cbn [concat] in Halt.
    destruct (alt_chain_app _ _ _ _ _ Halt) as (arr1&Hc1&Hc2). rewrite zlen_cons in Hsz. pose proof (zlen_nonneg secs).
    pose proof (sector_bytes_len es Hes) as Hz. destruct Hes as (He&Hn&_).
    unfold dir_bytes in Ha. cbn [map concat] in Ha. fold (dir_bytes secs) in Ha.
    assert (aslice A (2048 * k) 2048 = Some (sector_bytes es)) as E.
    { rewrite <- (Z.add_0_r (2048 * k)). eapply aslice_aslice; [exact Ha|].
      rewrite <- Hz. change 0 with (zlen (@nil Z)). by apply (aslice_app_mid []). }
    destruct (slice_of_slice _ _ _ _ _ Ha E) as [_ E2]; [lia|].
    rewrite (drop_app_length' (sector_bytes es)) in E2 by (unfold zlen in *; lia).
    destruct (sector_loop es k (2048 * k) (Z.to_nat (2048 - zlen (concat (map e_bytes es)))) fl arr arr1 s Hg Hat He Hc1 Hn Hk)
      as (s'&Hg'&El); [lia|lia| |lia|].
    { replace (2048 * (k + 1) - 2048 * k) with 2048 by lia. exact E. }
    destruct (sector_find m_of es (2048 * k)) as [[p e]|]; [by exists s'|]. destruct El as (fl'&Hfl'&Hat'&->).
    replace (2048 * k + 2048) with (2048 * (k + 1)) by lia.
    apply (IH _ _ _ arr'); [done|done|done|done|lia|lia| |lia].
    replace (2048 * (k + 1)) with (2048 * k + 2048) by lia. by rewrite Z.sub_add_distr.
Qed.
End search.

Lemma good_self i (s : St) : i = s.1 → zlen (data_block s.1) = 1024 → zlen (big_data_block s.1) = 2048 → env_ok s.2 →
  good i (env_disk s.2) s.
Proof. intros -> Hd Hb He. exists (data_block s.1), (big_data_block s.1). by destruct s as [[] ?]. Qed.

(** C9: [iso_find_entry] in a directory of whole sectors, each with its records
    and zeros behind them: the result is 0 with the inode number and the number
    that leads back of the first record that is visible and whose name matches
    (its alternate name when it has one, else its name in lower case without the
    version), and -1 when there is none.  The directory is read in blocks of
    1024 bytes, and a record that crosses two of them is put together; the search
    changes names in the buffers, and nothing else changes.  The array [retname]
    is not initialised and goes from one record to the next ([alt_chain]): it is
    assumed that the alternate name, with what the host's [strncat] has left
    behind it, fits the record it is copied over, as it always does on a host
    whose [strncat] closes the string; where it does not, see
    [stale_name_hides_file] of IsoSample. *)
Theorem iso_find_entry_finds dir ino base secs extra name retname (s : St) :
  dir_ready s.1 dir ino base (2048 * zlen secs) (dir_bytes secs ++ extra) (env_disk s.2) →
  zlen (data_block s.1) = 1024 → zlen (big_data_block s.1) = 2048 → env_ok s.2 →
  Forall (sector_ok s.1 ino) secs → alt_chain (sb s.1) (stale_bytes s.2 256) (concat secs) retname →
  (dir_turns secs <= fuel)%nat →
  ∃ s', iso_find_entry fuel dir name s =
      Ret (match dir_find (λ e, e_match (sb s.1) e name) secs 0 with
           | Some (pos, e) =>
               let n := e_numbers (sb s.1) ino e (base * 1024 + pos) in (0, n.1, n.2)
           | None => (-1, 0, 0)
           end) s' ∧
    good s.1 (env_disk s.2) s'.
Proof.
  intros HR Hd Hbig He Hok Halt Hfuel. pose proof (good_self s.1 s eq_refl Hd Hbig He) as Hg.
  pose proof HR as [(ie&Eie&Eino&Esz&Hfe&Ebase) _ (Hb&Hs0&Hs2&H31) Hdisk]. unfold iso_find_entry.
  rewrite (bind_Ret (fresh 256) _ s _ s eq_refl).
  rewrite (bind_Ret _ _ _ _ _ (get_inode_ok dir ie s Eie)).
  rewrite (proj2 (Z.eqb_neq (i_first_extent ie) 0)) by (intros E; rewrite E in Ebase; change (0 / 1024) with 0 in Ebase; lia).
  destruct (dir_block_ok s.1 dir ino base _ _ (env_disk s.2) HR 0 s Hg) as (blk&s1&E&Hg1&Hd1&Ha&_); [lia|].
  change (0 / 1024) with 0 in E, Ha. rewrite Z.add_0_r in E. rewrite (bind_Ret _ _ _ _ _ E), (proj2 (Z.eqb_neq base 0)) by lia.
  destruct (dir_loop s.1 dir ino base _ _ name (env_disk s.2) HR secs 0 fuel (stale_bytes s.2 256) retname s1 Hg1) as (s'&Hg'&E'); [|done|done|lia|lia| |lia|].
  - eapply at_pos_read; [lia|exact Ha|exact Hd1].
  - rewrite Z.sub_0_r. change (2048 * 0) with 0. pose proof (aslice_len _ _ _ _ Hdisk) as Hz.
    assert (zlen (dir_bytes secs) = 2048 * zlen secs) as Hzd.
    { clear -Hok. induction Hok as [|es secs Hes Hok IH]; [done|]. unfold dir_bytes in *. cbn [map concat].
      rewrite zlen_app, zlen_cons, IH, (sector_bytes_len _ _ _ Hes). lia. }
    rewrite <- Hzd. change 0 with (zlen (@nil Z)). by apply (aslice_app_mid []).
  - exists s'. split; [|done]. unfold turn_at in E'. change (2048 * 0) with 0 in E'. change (0 / 1024) with 0 in E'. rewrite Z.add_0_r in E'. exact E'.
Qed.
End isolib_laws.
