(* ===== verification/IsoRock.v ===== *)
(** * Alternate names on ISO 9660 (Rock Ridge)

    Behind the name of a directory record lies its system use area, a list of
    fields; [get_rock_ridge_filename] puts the parts of the NM fields together in
    the caller's array, with the host's [strncat] ([StrncatLaws]).  What it leaves
    in the array, which holds the last name or what was in the stack, is [named].
    Continuation areas are not looked at here. *)

From Stdlib Require Import Ascii String.
From S2P Require Import Prelude CString Vsprintf Cons Utils Aboot BootFs IsoLib IsoDir.

Open Scope Z_scope.
Open Scope list_scope.

(** A field: the two characters of its signature, its version and its bytes. *)
Record su_field := SuField { su_sig : Z * Z; su_version : Z; su_body : list Z }.

Definition su_bytes (f : su_field) : list Z :=
  [(su_sig f).1; (su_sig f).2; 4 + zlen (su_body f); su_version f] ++ su_body f.

Definition su_code (f : su_field) : Z := Z.shiftl (su_sig f).1 8 + (su_sig f).2.

(** Fields that let the search for the name go on: a complete part of the name,
    an RR field that promises one, a proper SP, and what the code skips. *)
Definition su_ok (f : su_field) : bool :=
  if su_code f =? SIG "R" "R" then match su_body f with x :: _ => negb (Z.land x RR_NM =? 0) | [] => false end
  else if su_code f =? SIG "S" "P" then match su_body f with x :: y :: _ => (x =? 0xbe) && (y =? 0xef) | _ => false end
  else if su_code f =? SIG "C" "E" then false
  else if su_code f =? SIG "N" "M" then
    match su_body f with x :: cs => ((x =? 0) || (x =? 1)) && forallb (λ c, negb (c =? 0)) cs | [] => false end
  else negb (su_code f =? SIG "R" "E").

(** The part of the name in a field. *)
Definition su_part (f : su_field) : list Z := if su_code f =? SIG "N" "M" then tail (su_body f) else [].

Definition su_name (fs : list su_field) : list Z := concat (map su_part fs).

Definition su_area (fs : list su_field) : list Z := concat (map su_bytes fs).

(** The array [arr] after the name [l] was put together in it: it is emptied
    first, then every part is appended. *)
Definition named_tail (closes : bool) (arr l : list Z) : list Z :=
  match l with
  | [] => 0 :: drop 1 arr
  | _ => if closes then 0 :: drop (length l + 1) arr else drop (length l) arr
  end.

Definition named (closes : bool) (arr l : list Z) : list Z := l ++ named_tail closes arr l.

(** Every NM field but the first finds a NUL behind the parts before it ([l]
    those of fields in front of [fs]): always, if [strncat] closes the string, else
    if the array held one there. *)
Fixpoint joins (closes : bool) (arr l : list Z) (fs : list su_field) : bool :=
  match fs with
  | [] => true
  | f :: fs =>
      (negb (su_code f =? SIG "N" "M") || closes || bool_decide (l = []) ||
       (default 1 (aget arr (zlen l)) =? 0)) && joins closes arr (l ++ su_part f) fs
  end.

Section rock.
Context {S : Type} `{HS : StrncatLaws S} (fuel : nat).

Abbreviation St := (iso * S)%type.

Lemma strn_ok cs rest : forallb (λ c, negb (c =? 0)) cs = true → strn (cs ++ rest) (zlen cs) = Some cs.
Proof.
  induction cs as [|c cs IH]; intros Hc; [by destruct rest|]. cbn in Hc. apply andb_prop in Hc as [Hc Hcs].
  cbn [app strn]. rewrite zlen_cons. pose proof (zlen_nonneg cs). rewrite (proj2 (Z.eqb_neq _ 0)) by lia.
  apply negb_true_iff in Hc as ->. replace (1 + zlen cs - 1) with (zlen cs) by lia. by rewrite IH.
Qed.

Lemma asplice_end (l x y : list Z) : (length y <= length x)%nat →
  asplice (l ++ x) (zlen l) y = Some (l ++ y ++ drop (length y) x).
Proof.
  intros Hl. pose proof (zlen_nonneg l). unfold asplice.
  rewrite decide_True by (rewrite zlen_app; unfold zlen; lia). unfold zlen.
  by rewrite Nat2Z.id, take_app_length, drop_app_add.
Qed.

Lemma length_named_tail closes (arr l : list Z) : (length l < length arr)%nat →
  length (named_tail closes arr l) = (length arr - length l)%nat.
Proof.
  intros Hl. unfold named_tail. destruct l as [|c l], closes; cbn [length] in *; rewrite ?length_drop; lia.
Qed.

Lemma length_named closes (arr l : list Z) : (length l < length arr)%nat → length (named closes arr l) = length arr.
Proof. intros Hl. unfold named. rewrite length_app, length_named_tail by done. lia. Qed.

(** The string in the array. *)
Lemma cstring_nonzero l x : Forall (λ c, c ≠ 0) l → cstring (l ++ x) = (app l) <$> cstring x.
Proof.
  induction 1 as [|c l Hc _ IH]; [cbn [app]; by destruct (cstring x)|]. cbn [app cstring].
  rewrite (proj2 (Z.eqb_neq c 0) Hc), IH. by destruct (cstring x).
Qed.

Lemma cstring_named closes arr l :
  Forall (λ c, c ≠ 0) l → closes = true ∨ l = [] ∨ default 1 (aget arr (zlen l)) = 0 →
  cstring (named closes arr l) = Some l.
Proof.
  intros Hl Hc. unfold named. rewrite cstring_nonzero by done.
  assert (∃ x, named_tail closes arr l = 0 :: x) as [x ->]; [|cbn; by rewrite app_nil_r].
  unfold named_tail. destruct l as [|c l]; [by eexists|]. destruct closes; [by eexists|].
  destruct Hc as [|[|Hc]]; [done..|]. destruct (aget arr _) as [y|] eqn:E; [|done]. cbn in Hc. subst y.
  apply aget_Some in E as [_ E]. unfold zlen in E. rewrite Nat2Z.id in E. eexists. by apply drop_S.
Qed.

(** One part more. *)
Lemma named_app closes arr l cs :
  (length (l ++ cs) < length arr)%nat →
  asplice (named closes arr l) (zlen l) (cs ++ if closes then [0] else []) = Some (named closes arr (l ++ cs)).
Proof.
  intros Hlen. rewrite length_app in Hlen. unfold named at 1. set (y := cs ++ _).
  assert (length y <= length (named_tail closes arr l))%nat as Hy.
  { rewrite length_named_tail by lia. subst y. rewrite length_app. destruct closes; cbn [length]; lia. }
  rewrite asplice_end by done. unfold named. rewrite <- app_assoc. do 2 f_equal. subst y.
  rewrite <- app_assoc. f_equal. rewrite length_app. unfold named_tail. clear Hy.
  destruct cs as [|c cs].
  - rewrite app_nil_r. destruct l as [|d l], closes; cbn [length app drop Nat.add]; rewrite ?drop_drop; try done;
      by rewrite Nat.add_0_r.
  - destruct l as [|d l], closes; cbn [length app drop Nat.add]; rewrite ?length_app, ?drop_drop; cbn [length];
      repeat f_equal; lia.
Qed.

Definition acc (arr l : list Z) : name_acc := NameAcc (named strncat_closes arr l) (zlen l) false (0, 0, 0).

Lemma su_part_nonzero f : su_ok f = true → Forall (λ c, c ≠ 0) (su_part f).
Proof.
  unfold su_ok, su_part. destruct (Z.eqb_spec (su_code f) (SIG "N" "M")) as [->|]; [|constructor].
  change (SIG "N" "M" =? SIG "R" "R") with false. change (SIG "N" "M" =? SIG "S" "P") with false.
  change (SIG "N" "M" =? SIG "C" "E") with false. change (SIG "N" "M" =? SIG "N" "M") with true. cbv iota.
  destruct (su_body f) as [|x cs]; [done|]. intros [_ Hcs]%andb_prop. rewrite forallb_forall in Hcs.
  apply List.Forall_forall. intros c Hc%Hcs%negb_true_iff%Z.eqb_neq. done.
Qed.

Lemma name_field_ok f fs rest arr l (s : St) : su_ok f = true → zlen (su_body f) <= 251 →
  zlen (l ++ su_part f) < 254 → zlen arr = 256 → Forall (λ c, c ≠ 0) l → joins strncat_closes arr l (f :: fs) = true →
  name_field (su_code f) (su_bytes f ++ rest) (acc arr l) s = Ret (acc arr (l ++ su_part f), false) s.
Proof.
  intros Hok Hlen Hz Harr Hl [Hj _]%andb_prop. unfold name_field, su_ok, su_part in *. unfold su_bytes. rewrite <- !app_assoc.
  destruct (Z.eqb_spec (su_code f) (SIG "R" "R")) as [E|_].
  { rewrite E. change (SIG "R" "R" =? SIG "N" "M") with false. cbv iota. rewrite app_nil_r.
    destruct (su_body f) as [|x body]; [done|]. apply negb_true_iff in Hok. cbn [app].
    change (aget (?a :: ?b :: ?c :: ?d :: x :: ?l) 4) with (Some x). cbn [lift_opt]. by rewrite bind_ret, Hok. }
  destruct (Z.eqb_spec (su_code f) (SIG "S" "P")) as [E|_].
  { rewrite E. change (SIG "S" "P" =? SIG "N" "M") with false. cbv iota. rewrite app_nil_r.
    destruct (su_body f) as [|x [|y body]]; [done..|]. apply andb_prop in Hok as [Hx Hy]. cbn [app].
    assert (∀ a b c d, check_sp (a :: b :: c :: d :: x :: y :: body ++ rest) = Some true) as ->; [|done].
    intros a b c d. unfold check_sp. change (aget (a :: b :: c :: d :: x :: y :: body ++ rest) 4) with (Some x).
    change (aget (a :: b :: c :: d :: x :: y :: body ++ rest) 5) with (Some y). cbn [option_bind mbind]. by rewrite Hx, Hy. }
  destruct (su_code f =? SIG "C" "E"); [done|].
  destruct (su_code f =? SIG "N" "M").
  2:{ rewrite app_nil_r. by destruct (su_code f =? SIG "R" "E"). }
  destruct (su_body f) as [|x cs] eqn:Eb; [done|]. apply andb_prop in Hok as [Hx Hcs]. cbn [tail app acc truncate].
  change (aget (?a :: ?b :: ?c :: ?d :: x :: ?l) 4) with (Some x).
  change (aget (?a :: ?b :: ?c :: ?l) 2) with (Some c). cbn [lift_opt]. rewrite !bind_ret.
  assert (Z.land x 6 = 0 ∧ Z.land x (Z.lnot 1) = 0) as [-> ->] by (apply orb_prop in Hx as [->%Z.eqb_eq| ->%Z.eqb_eq]; done).
  assert (cstring (named strncat_closes arr l) = Some l) as Ecur.
  { apply cstring_named; [done|]. cbn [negb orb] in Hj. apply orb_prop in Hj as [Hj|Hj%Z.eqb_eq]; [|auto].
    apply orb_prop in Hj as [Hj|Hj%bool_decide_eq_true]; auto. }
  cbn [retname retnamlen acc negb Z.eqb]. rewrite Ecur. cbn [lift_opt]. rewrite bind_ret, zlen_cons in *. cbn [tail] in Hz. rewrite zlen_app in Hz.
  pose proof (zlen_nonneg cs). pose proof (zlen_nonneg l). rewrite (wrap_small 64 (zlen l + _ - 5)), (proj2 (Z.leb_gt _ _)) by lia.
  rewrite (wrap_small 64) by lia. replace (4 + (1 + zlen cs) - 5) with (zlen cs) by lia.
  change (from (?a :: ?b :: ?c :: ?d :: x :: ?l) 5) with l.
  unfold name_cat. cbn [retname retnamlen acc na_cont].
  rewrite (iso_strncat_ok _ l (cs ++ rest) (zlen cs) cs Ecur ltac:(lia) (strn_ok cs rest Hcs)), Z.ltb_irrefl, orb_false_r.
  rewrite named_app by (unfold zlen in *; rewrite length_app; lia). cbn [lift_opt]. rewrite bind_ret.
  rewrite swrap_small by lia. unfold acc. by rewrite zlen_app.
Qed.

Lemma susp_loop_ok rest arr : zlen arr = 256 → ∀ fs l len fl (s : St), forallb su_ok fs = true →
  Forall (λ f, zlen (su_body f) <= 251) fs → Forall (λ c, c ≠ 0) l → joins strncat_closes arr l fs = true →
  zlen (l ++ su_name fs) < 254 → zlen (su_area fs) <= len <= zlen (su_area fs) + 1 → (length fs < fl)%nat →
  ∃ s', s' = s ∧ loop fl (λ '(chr, len, a),
    if 1 <? len then
      let! n := lift_opt (aget chr 2) in
      if n =? 0 then ret (inr (a, false))
      else
        let! c0 := lift_opt (aget chr 0) in
        let! c1 := lift_opt (aget chr 1) in
        let! ' (a, out) := name_field (Z.shiftl c0 8 + c1) chr a in
        if out : bool then ret (inr (a, true)) else ret (inl (from chr n, len - n, a))
    else ret (inr (a, false))) (su_area fs ++ rest, len, acc arr l) s = Ret (acc arr (l ++ su_name fs), false) s'.
Proof.
  intros Harr. induction fs as [|f fs IH]; intros l len fl s Hok Hl Hnz Hj Hz Hlen Hfl; (destruct fl as [|fl]; [cbn in Hfl; lia|]).
  - exists s. split; [done|]. erewrite loop_exit; [unfold su_name; cbn [map concat]; by rewrite app_nil_r|].
    change (zlen (su_area [])) with 0 in Hlen. by rewrite (proj2 (Z.ltb_ge 1 len)) by lia.
  - cbn [forallb] in Hok. apply andb_prop in Hok as [Hf Hok]. apply List.Forall_cons_iff in Hl as [Hlf Hl].
    unfold su_name, su_area in *. cbn [map concat] in *. rewrite <- (app_assoc (su_bytes f)). rewrite (app_assoc l) in *.
    assert (zlen (su_bytes f) = 4 + zlen (su_body f)) as Hzf by (unfold su_bytes; by rewrite zlen_app).
    pose proof (zlen_nonneg (su_body f)). pose proof (zlen_nonneg (concat (map su_bytes fs))).
    pose proof (zlen_nonneg (concat (map su_part fs))). rewrite zlen_app in Hlen.
    set (more := concat (map su_bytes fs) ++ rest).
    erewrite loop_step.
    2:{ rewrite (proj2 (Z.ltb_lt _ _)) by lia. cbv iota. change (aget (su_bytes f ++ more) 2) with (Some (4 + zlen (su_body f))).
        change (aget (su_bytes f ++ more) 0) with (Some (su_sig f).1).
        change (aget (su_bytes f ++ more) 1) with (Some (su_sig f).2).
        cbn [lift_opt]. rewrite bind_ret, (proj2 (Z.eqb_neq _ 0)) by lia. cbv iota. rewrite !bind_ret. fold (su_code f).
        rewrite (bind_Ret _ _ _ _ _ (name_field_ok f fs more arr l s Hf Hlf ltac:(rewrite zlen_app in Hz; lia) Harr Hnz Hj)).
        reflexivity. }
    assert (joins strncat_closes arr (l ++ su_part f) fs = true) as Hj' by (cbn [joins] in Hj; by apply andb_prop in Hj as [_ Hj]).
    destruct (IH (l ++ su_part f) (len - (4 + zlen (su_body f))) fl s Hok Hl (Forall_app_2 _ _ _ Hnz (su_part_nonzero f Hf)) Hj' Hz) as (s'&Es&E); [lia|cbn in Hfl; lia|].
    exists s'. split; [done|]. rewrite <- E. f_equal. do 3 f_equal.
    rewrite <- Hzf. unfold from, zlen. rewrite Nat2Z.id. apply drop_app_length.
Qed.

(** The name of a record with the fields [fs], and at most one byte behind them. *)
Lemma rock_name_ok hd nm pad fs extra post arr (s : St) : zlen arr = 256 → joins strncat_closes arr [] fs = true →
  s_rock (sb s.1) ≠ 0 → zlen hd = 33 → aget hd 32 = Some (zlen nm) → zlen pad = (33 + zlen nm) mod 2 → zlen extra <= 1 →
  aget hd 0 = Some (zlen (hd ++ nm ++ pad ++ su_area fs ++ extra)) →
  forallb su_ok fs = true → Forall (λ f, zlen (su_body f) <= 251) fs → zlen (su_name fs) < 254 → (0 < fuel)%nat →
  get_rock_ridge_filename fuel ((hd ++ nm ++ pad ++ su_area fs ++ extra) ++ post) arr s
    = Ret (zlen (su_name fs), named strncat_closes arr (su_name fs)) s.
Proof.
  intros Harr Hj Hrock Hh Hnm Hpad Hx H0 Hok Hl Hz Hfuel. unfold get_rock_ridge_filename.
  rewrite (bind_Ret (get_sb s_rock) _ s _ s eq_refl), (proj2 (Z.eqb_neq _ 0) Hrock).
  assert (aset arr 0 0 = Some (named strncat_closes arr [])) as ->.
  { unfold aset. rewrite decide_True by lia. by destruct arr. }
  cbn [lift_opt]. rewrite bind_ret.
  unfold setup_rock_ridge, de_name_len, de_length, isonum_711. rewrite <- (app_assoc hd), !de_field_app, Hnm, H0 by lia.
  cbn [lift_opt]. rewrite bind_ret. unfold sizeof_record. pose proof (zlen_nonneg extra).
  assert ((if negb (Z.land (33 + zlen nm) 1 =? 0) then 33 + zlen nm + 1 else 33 + zlen nm) = zlen (hd ++ nm ++ pad)) as ->.
  { rewrite !zlen_app, Hh, Hpad. rewrite (Z.land_ones (33 + zlen nm) 1 ltac:(lia) : Z.land _ 1 = _ mod 2).
    pose proof (Z.mod_pos_bound (33 + zlen nm) 2 ltac:(lia)). destruct (Z.eqb_spec ((33 + zlen nm) mod 2) 0); cbn [negb]; lia. }
  destruct fuel as [|fl]; [lia|]. cbv iota.
  assert (zlen (hd ++ nm ++ pad ++ su_area fs ++ extra) - zlen (hd ++ nm ++ pad) = zlen (su_area fs) + zlen extra) as ->
    by (rewrite !zlen_app; lia).
  destruct (susp_loop_ok (extra ++ post) arr Harr fs [] (zlen (su_area fs) + zlen extra)
    (Datatypes.S (Z.to_nat (zlen (su_area fs) + zlen extra))) s Hok Hl) as (s'&->&E); [constructor|done|done|lia| |].
  { assert (Z.of_nat (length fs) <= zlen (su_area fs)) as Hfs; [|lia].
    clear. unfold su_area. induction fs as [|f fs IH]; [done|]. cbn [map concat length]. rewrite zlen_app.
    unfold su_bytes at 1. rewrite zlen_app. pose proof (zlen_nonneg (su_body f)). change (zlen [_; _; _; _]) with 4. lia. }
  rewrite app_nil_l in E. unfold susp_loop.
  replace (hd ++ (nm ++ pad ++ su_area fs ++ extra) ++ post) with ((hd ++ nm ++ pad) ++ su_area fs ++ extra ++ post)
    by (by rewrite <- !app_assoc).
  rewrite (from_app (hd ++ nm ++ pad)) by done.
  erewrite loop_exit; [reflexivity|]. rewrite (bind_Ret _ _ _ _ _ E). reflexivity.
Qed.

(** The string in the array behind the name. *)
Lemma cstring_named_any closes arr l : Forall (λ c, c ≠ 0) l →
  cstring (named closes arr l) =
    (app l) <$> (if closes || bool_decide (l = []) then Some [] else cstring (drop (length l) arr)).
Proof.
  intros Hl. unfold named. rewrite cstring_nonzero by done. f_equal. unfold named_tail.
  destruct l as [|c l]; [by rewrite bool_decide_eq_true_2, orb_true_r|].
  rewrite bool_decide_eq_false_2, orb_false_r by done. by destruct closes.
Qed.

Lemma su_name_nonzero fs : forallb su_ok fs = true → Forall (λ c, c ≠ 0) (su_name fs).
Proof.
  unfold su_name. induction fs as [|f fs IH]; cbn [map concat forallb]; [constructor|].
  intros [Hf Hfs]%andb_prop. apply Forall_app_2; [by apply su_part_nonzero|by apply IH].
Qed.

(** C11: [get_rock_ridge_filename] returns the length of the parts of the NM
    fields, wherever they lie among fields that say nothing of the name, and
    leaves them, one after the other, at the start of [retname]; a record without
    NM fields has the length 0.  The array is not initialised.  On a host whose
    [strncat] closes the string, as isomarkboot's does, it then holds the name
    whatever was in it.  With that of lib/string.c, which is the loader's, the
    bytes behind the name stay as they were, so the string in the array goes on
    with them ([stale] until their first NUL), and the parts of a name in several
    fields come one after the other only if the array had a NUL behind each of them
    but the last ([joins]).  At most one byte may follow the fields, and the name
    has fewer than 254 characters, the length at which the code begins to cut it. *)
Theorem rock_ridge_name hd nm pad fs extra post arr (s : St) :
  s_rock (sb s.1) ≠ 0 → zlen hd = 33 → aget hd 32 = Some (zlen nm) → zlen pad = (33 + zlen nm) mod 2 → zlen extra <= 1 →
  aget hd 0 = Some (zlen (hd ++ nm ++ pad ++ su_area fs ++ extra)) →
  forallb su_ok fs = true → Forall (λ f, zlen (su_body f) <= 251) fs → zlen (su_name fs) < 254 → (0 < fuel)%nat →
  zlen arr = 256 → joins strncat_closes arr [] fs = true →
  let name := su_name fs in
  let stale := if strncat_closes || bool_decide (name = []) then Some [] else cstring (drop (length name) arr) in
  ∃ arr', get_rock_ridge_filename fuel ((hd ++ nm ++ pad ++ su_area fs ++ extra) ++ post) arr s = Ret (zlen name, arr') s ∧
    zlen arr' = 256 ∧ take (length name) arr' = name ∧ cstring arr' = (λ t, name ++ t) <$> stale.
Proof.
  intros Hrock Hh Hnm Hpad Hx H0 Hok Hl Hz Hfuel Harr Hj name stale. exists (named strncat_closes arr name).
  split; [by apply rock_name_ok|]. subst name stale. split; [|split].
  - unfold zlen in *. rewrite length_named; lia.
  - unfold named. apply take_app_length.
  - by apply cstring_named_any, su_name_nonzero.
Qed.

(** *** Records the search can read *)

Lemma su_name_fits fs : su_name fs ≠ [] → forallb su_ok fs = true → zlen (su_name fs) + 1 <= zlen (su_area fs).
Proof.
  intros Hne Hok. assert (zlen (su_name fs) + 4 * Z.of_nat (length fs) <= zlen (su_area fs)).
  { clear Hne Hok. unfold su_name, su_area. induction fs as [|f fs IH]; [done|]. cbn [map concat length]. rewrite !zlen_app.
    assert (zlen (su_part f) + 4 <= zlen (su_bytes f)); [|lia]. unfold su_part, su_bytes. rewrite zlen_app.
    change (zlen [_; _; _; _]) with 4. pose proof (zlen_nonneg (su_body f)).
    destruct (_ =? _); [|change (zlen (@nil Z)) with 0; lia]. destruct (su_body f); cbn [tail]; [lia|]. rewrite zlen_cons. lia. }
  destruct fs as [|f fs]; [done|]. cbn [length] in *. lia.
Qed.

(** A record with fields: its alternate name, and what is in the array behind it,
    which [stale] says. *)
Definition stale_after (arr name : list Z) : option (list Z) :=
  if strncat_closes || bool_decide (name = []) then Some [] else cstring (drop (length name) arr).

Lemma alt_step_rock b hd nm pad fs extra arr : s_rock b ≠ 0 → (0 < fuel)%nat →
  zlen hd = 33 → aget hd 32 = Some (zlen nm) → zlen pad = (33 + zlen nm) mod 2 → zlen extra <= 1 →
  aget hd 0 = Some (zlen (hd ++ nm ++ pad ++ su_area fs ++ extra)) →
  forallb su_ok fs = true → Forall (λ f, zlen (su_body f) <= 251) fs → zlen (su_name fs) < 254 →
  zlen arr = 256 → joins strncat_closes arr [] fs = true →
  (su_name fs ≠ [] → ∃ rest, stale_after arr (su_name fs) = Some rest ∧
    zlen (su_name fs) + zlen rest + 1 <= zlen nm + zlen (pad ++ su_area fs ++ extra)) →
  alt_step (S := S) fuel b arr (Dirent hd nm (pad ++ su_area fs ++ extra) (su_name fs))
    (named strncat_closes arr (su_name fs)).
Proof.
  intros Hrock Hfuel Hh Hnm Hpad Hx H0 Hok Hl Hz Harr Hj Hfit. split; unfold e_bytes; cbn [e_hd e_name e_tl e_alt].
  - intros post s Hb. rewrite <- Hb in Hrock. by apply rock_name_ok.
  - intros Hne. destruct (Hfit Hne) as (rest&Er&Hr). exists rest. split; [|done].
    rewrite cstring_named_any by (by apply su_name_nonzero). unfold stale_after in Er. by rewrite Er.
Qed.

(** Where [strncat] closes the string, nothing is asked of the array. *)
Lemma joins_closed arr fs : ∀ l, joins true arr l fs = true.
Proof. induction fs as [|f fs IH]; intros l; cbn [joins]; [done|]. by rewrite orb_true_r, IH. Qed.

Lemma stale_closed arr fs (nm pad extra : list Z) : strncat_closes = true → forallb su_ok fs = true → su_name fs ≠ [] →
  ∃ rest, stale_after arr (su_name fs) = Some rest ∧
    zlen (su_name fs) + zlen rest + 1 <= zlen nm + zlen (pad ++ su_area fs ++ extra).
Proof.
  intros Hc Hok Hne. exists []. unfold stale_after. rewrite Hc. split; [done|].
  pose proof (su_name_fits fs Hne Hok). rewrite !zlen_app.
  pose proof (zlen_nonneg nm). pose proof (zlen_nonneg pad). pose proof (zlen_nonneg extra). change (zlen (@nil Z)) with 0. lia.
Qed.

(** A record with fields. *)
Inductive rock_dirent : dirent → Prop :=
| RockDirent hd nm pad fs extra :
    zlen hd = 33 → aget hd 32 = Some (zlen nm) → zlen pad = (33 + zlen nm) mod 2 → zlen extra <= 1 →
    aget hd 0 = Some (zlen (hd ++ nm ++ pad ++ su_area fs ++ extra)) →
    forallb su_ok fs = true → Forall (λ f, zlen (su_body f) <= 251) fs → zlen (su_name fs) < 254 →
    rock_dirent (Dirent hd nm (pad ++ su_area fs ++ extra) (su_name fs)).

Lemma alt_chain_closed b es : strncat_closes = true → s_rock b ≠ 0 → (0 < fuel)%nat → Forall rock_dirent es →
  ∀ arr, zlen arr = 256 → ∃ arr', alt_chain (S := S) fuel b arr es arr'.
Proof.
  intros Hc Hrock Hf. induction 1 as [|e es He _ IH]; intros arr Harr; [exists arr; constructor|].
  destruct He as [hd nm pad fs extra Hh Hnm Hpad Hx H0 Hok Hl Hz].
  destruct (IH (named strncat_closes arr (su_name fs))) as [arr' Hch].
  { unfold zlen in *. rewrite length_named; lia. }
  exists arr'. eapply alt_cons; [|exact Hch].
  apply alt_step_rock; try done; [by rewrite Hc, joins_closed|]. intros Hne. by apply stale_closed.
Qed.

(** A record on a disk without Rock Ridge leaves the array alone. *)
Lemma alt_step_plain b hd nm tl arr : s_rock b = 0 → alt_step (S := S) fuel b arr (Dirent hd nm tl []) arr.
Proof.
  intros Hrock. split; [|done]. intros post s Hb. unfold get_rock_ridge_filename.
  rewrite (bind_Ret (get_sb s_rock) _ s _ s eq_refl), Hb, Hrock. done.
Qed.
End rock.
