(* ===== verification/IsoSafe.v ===== *)
(** * What lib/isolib.c does on any disk

    Whatever the bytes of a directory are, the search for a name ends
    ([iso_find_entry_ends]), and without Rock Ridge the listing of a directory
    shows no names at all ([iso_readdir_i_unnamed]). *)

From Stdlib Require Import Ascii String.
From S2P Require Import Prelude CString Vsprintf Cons Utils Aboot BootFs IsoLib Safe IsoDir.

Open Scope Z_scope.
Open Scope list_scope.

Section any_disk.
Context {S : Type} `{IsoEnv S} (fuel : nat) (D : Prop) (B : Z → Prop) (E : S → Prop)
  (b : isofs_super_block) (t : list inode_table_entry).

(** A host whose reads fill the buffer with bytes, and whose functions end. *)
Hypothesis Hread : ∀ buf off n e, E e → Forall B buf →
  match iso_dev_read buf off n e with Ret (_, buf') e' => E e' ∧ Forall B buf' | Diverge => D | _ => True end.
Hypothesis Hprintf : ∀ fmt args e, E e → match iso_printf fmt args e with Ret _ e' => E e' | Diverge => D | _ => True end.
Hypothesis Hplain : ∀ c, B c → B (plain_char c).

Hypothesis Hrock : s_rock b = 0.

Abbreviation St := (iso * S)%type.

(** The super block and the table stay, the buffers hold bytes. *)
Definition Inv (s : St) : Prop :=
  sb s.1 = b ∧ inode_table s.1 = t ∧ Forall B (data_block s.1) ∧ Forall B (big_data_block s.1) ∧ E s.2.

Abbreviation safe := (holds D Inv).

Lemma Forall_from l n : Forall B l → Forall B (from l n).
Proof. apply Forall_drop. Qed.

Lemma Forall_aget l i x : Forall B l → aget l i = Some x → B x.
Proof. intros Hl Hx. unfold aget in Hx. case_decide; [|done]. by eapply Forall_lookup_1. Qed.

Lemma Forall_aslice l o n r : Forall B l → aslice l o n = Some r → Forall B r.
Proof. intros Hl (_&_&_&->)%aslice_Some. by apply Forall_take, Forall_drop. Qed.

Lemma Forall_asplice l o d r : Forall B l → Forall B d → asplice l o d = Some r → Forall B r.
Proof.
  intros Hl Hd. unfold asplice. case_decide; [|done]. intros [= <-].
  repeat apply Forall_app_2; auto using Forall_take, Forall_drop.
Qed.

Lemma safe_sb {A} (f : isofs_super_block → A) : safe (get_sb f) (λ x, x = f b).
Proof. apply holds_gets. by intros s (->&_). Qed.

Lemma safe_inode i : safe (get_inode i) (λ e, aget t i = Some e).
Proof.
  eapply holds_bind; [by apply (holds_gets _ _ _ (λ x, x = t)); intros s (_&->&_)|]. intros ? ->.
  by apply holds_lift.
Qed.

Lemma safe_data : safe (get_iso data_block) (Forall B).
Proof. apply holds_gets. by intros s (_&_&?&_&_). Qed.

Lemma safe_big : safe (get_iso big_data_block) (Forall B).
Proof. apply holds_gets. by intros s (_&_&_&?&_). Qed.

Lemma safe_buffer big : safe (get_iso (buffer big)) (Forall B).
Proof. destruct big; [apply safe_big|apply safe_data]. Qed.

Lemma safe_set_buffer big l : Forall B l → safe (mod_iso (set_buffer big l)) (λ _, True).
Proof. intros Hl. apply holds_modify; [|done]. intros s (?&?&?&?&?). by destruct big. Qed.

Lemma safe_record big off : safe (record_at big off) (Forall B).
Proof.
  eapply holds_bind; [apply safe_buffer|]. intros l Hl. by apply holds_ret, Forall_from.
Qed.

Lemma safe_print fmt args : safe (print fmt args) (λ _, True).
Proof.
  intros s (?&?&?&?&He). unfold print, on_env. specialize (Hprintf fmt args s.2 He). by destruct (iso_printf fmt args s.2).
Qed.

Lemma safe_read buf off n : Forall B buf → safe (on_env (iso_dev_read buf off n)) (λ r, Forall B r.2).
Proof.
  intros Hb s (?&?&?&?&He). unfold on_env. specialize (Hread buf off n s.2 He Hb).
  destruct (iso_dev_read buf off n s.2) as [[r l] e| | |]; [|done..]. by destruct Hread.
Qed.

Lemma safe_put_name big off i l : Forall B l → safe (put_name big off i l) (λ _, True).
Proof.
  intros Hl. eapply holds_bind; [apply safe_buffer|]. intros l0 Hl0. apply holds_bind_lift. intros l1 El.
  eapply safe_set_buffer, Forall_asplice; [exact Hl0|exact Hl|exact El].
Qed.

Lemma safe_read_block block : safe (read_block block) (λ _, True).
Proof.
  unfold read_block. eapply holds_bind; [apply safe_sb|]. intros bs _. eapply holds_bind; [apply safe_data|].
  intros l Hl. eapply holds_bind; [by apply safe_read|]. intros [r l'] Hl'.
  eapply holds_bind; [by apply (safe_set_buffer false)|]. intros _ _. by apply holds_ret.
Qed.

Lemma safe_save off n : safe (save_fragment off n) (λ _, True).
Proof.
  unfold save_fragment. eapply holds_bind; [apply safe_data|]. intros l Hl. eapply holds_bind; [apply safe_big|].
  intros l2 Hl2. apply holds_bind_lift. intros l3 E3. apply holds_bind_lift. intros l4 E4.
  eapply (safe_set_buffer true), Forall_asplice; [exact Hl2| |exact E4]. eapply Forall_aslice; [exact Hl|exact E3].
Qed.

Lemma safe_join off n : safe (join_fragment off n) (λ _, True).
Proof.
  unfold join_fragment. eapply holds_bind; [apply safe_data|]. intros l Hl. eapply holds_bind; [apply safe_big|].
  intros l2 Hl2. apply holds_bind_lift. intros l3 E3. apply holds_bind_lift. intros l4 E4.
  eapply (safe_set_buffer true), Forall_asplice; [exact Hl2| |exact E4]. eapply Forall_aslice; [exact Hl|exact E3].
Qed.

Lemma safe_bmap e block : safe (iso_bmap e block) (λ _, True).
Proof.
  unfold iso_bmap. destruct (block <? 0).
  - eapply holds_bind; [apply safe_print|]. intros _ _. by apply holds_ret.
  - eapply holds_bind; [apply safe_sb|]. intros bits _. case_decide; [by apply holds_ret|apply holds_trap].
Qed.

Lemma safe_dir_block dir pos : safe (dir_block dir pos) (λ _, True).
Proof.
  unfold dir_block. eapply holds_bind; [apply safe_sb|]. intros bits _. eapply holds_bind; [apply safe_inode|].
  intros e _. case_decide; [|apply holds_trap]. eapply holds_bind; [apply safe_bmap|]. intros block _.
  destruct (_ =? 0); [by apply holds_ret|]. eapply holds_bind; [apply safe_read_block|]. intros ok _. by apply holds_ret.
Qed.

Lemma safe_fresh n : safe (fresh n) (λ _, True).
Proof. by apply holds_gets. Qed.

Lemma safe_alternate de arr : safe (get_rock_ridge_filename fuel de arr) (λ r, r = (0, arr)).
Proof.
  unfold get_rock_ridge_filename. eapply holds_bind; [apply safe_sb|]. intros rock ->. rewrite Hrock. by apply holds_ret.
Qed.
(** *** The search *)

Lemma safe_map_name big off n : safe (map_name big off n) (λ _, True).
Proof.
  unfold map_name. apply (holds_loop _ _ _ (λ i, 0 <= i) (λ i, Z.to_nat (n - i))); [|lia|right; lia].
  intros i Hi. destruct (Z.ltb_spec i n); [|by apply holds_ret]. eapply holds_bind; [apply safe_record|]. intros de Hde.
  apply holds_bind_lift. intros c Hc. eapply (holds_bind _ _ _ _ (λ _, True)).
  { destruct (_ && _); [|by apply holds_ret]. apply holds_bind_lift. intros. by apply holds_ret. }
  intros cut _. destruct cut; [by apply holds_ret|]. eapply holds_bind.
  - apply safe_put_name. constructor; [|constructor]. apply Hplain. by eapply Forall_aget.
  - intros _ _. apply holds_ret. split; [lia|right; lia].
Qed.

Lemma safe_entry_name big off n arr : safe (entry_name fuel big off n arr) (λ _, True).
Proof.
  unfold entry_name. eapply holds_bind; [apply safe_record|]. intros de Hde. eapply holds_bind; [apply safe_alternate|].
  intros ? ->. change (negb (0 =? 0)) with false. cbv iota. apply holds_bind_lift. intros dlen _.
  eapply holds_bind; [apply safe_sb|]. intros mapping _. destruct (_ =? 110); [|by apply holds_ret].
  eapply holds_bind; [apply safe_map_name|]. intros dlen' _. eapply holds_bind; [apply safe_record|]. intros de' _.
  apply holds_bind_lift. intros c _. by apply holds_ret.
Qed.

Lemma safe_entry_numbers dir big off addr : safe (entry_numbers dir big off addr) (λ _, True).
Proof.
  unfold entry_numbers. eapply holds_bind; [apply safe_record|]. intros de _. eapply holds_bind; [apply safe_inode|].
  intros e _. apply holds_bind_lift. intros first _. apply holds_bind_lift. intros len _.
  destruct (_ && _); [by apply holds_ret|]. destruct (_ && _); [|by apply holds_ret].
  eapply holds_bind; [apply safe_sb|]. intros zone _. destruct (negb _); [|by apply holds_ret].
  apply holds_bind_lift. intros x _. apply holds_bind_lift. intros y _. eapply holds_bind; [apply safe_sb|]. intros log _.
  case_decide; [by apply holds_ret|apply holds_trap].
Qed.

Lemma safe_check_entry dir name big off addr arr : safe (check_entry fuel dir name big off addr arr) (λ _, True).
Proof.
  unfold check_entry. eapply holds_bind; [apply safe_entry_numbers|]. intros [no back] _.
  eapply holds_bind; [apply safe_entry_name|]. intros [dlen arr'] _. eapply holds_bind; [apply safe_sb|]. intros hs _.
  eapply holds_bind; [apply safe_sb|]. intros unhide _. eapply holds_bind; [apply safe_record|]. intros de _.
  apply holds_bind_lift. intros flags _. eapply (holds_bind _ _ _ _ (λ _, True)).
  { destruct (_ || _); [|by apply holds_ret]. eapply holds_bind; [apply safe_buffer|]. intros l _. by apply holds_lift. }
  intros m _. destruct m; [|by apply holds_ret]. destruct (_ =? _); [|by apply holds_ret].
  eapply holds_bind; [apply safe_print|]. intros _ _. by apply holds_ret.
Qed.

(** A turn of the search moves on by at least a byte. *)
Lemma safe_find_step dir name e : (∀ x, B x → 0 <= x < 256) → aget t dir = Some e → it_size e <= 2 ^ 32 - 2048 →
  ∀ a, 0 <= a.1.1.1 → safe (find_step fuel dir name a) (λ r,
    match r with
    | inl a' => 0 <= a'.1.1.1 ∧ (D ∨ Z.to_nat (it_size e - a'.1.1.1) < Z.to_nat (it_size e - a.1.1.1))%nat
    | inr _ => True
    end).
Proof.
  intros HB Ee Hsz [[[pos off] blk] arr] Hp. cbn [fst] in *. unfold find_step.
  eapply holds_bind; [apply safe_inode|]. intros e' Ee'. assert (e' = e) as -> by congruence.
  destruct (Z.ltb_spec pos (it_size e)) as [Hlt|]; [|by apply holds_ret].
  eapply holds_bind; [apply safe_sb|]. intros bs _. eapply holds_bind; [apply safe_sb|]. intros bits _.
  eapply holds_bind; [apply safe_data|]. intros l Hl. apply holds_bind_lift. intros len Hlen. apply (Forall_aget _ _ _ Hl), HB in Hlen.
  destruct (Z.eqb_spec len 0).
  - eapply holds_bind; [apply safe_dir_block|]. intros [x|] _; [|by apply holds_ret].
    destruct (x =? 0); [by apply holds_ret|]. apply holds_ret. cbn [fst].
    destruct (next_sector_ok pos) as [-> Hn]; [lia|]. split; [lia|right; lia].
  - rewrite (wrap_small 32 (pos + len)) by lia. eapply (holds_bind _ _ _ _ (λ _, True)).
    { destruct (_ <=? _); [|by apply holds_ret]. eapply holds_bind; [apply safe_save|]. intros _ _.
      eapply holds_bind; [apply safe_dir_block|]. intros [x|] _; [|by apply holds_ret].
      destruct (x =? 0); [by apply holds_ret|]. eapply holds_bind; [apply safe_join|]. intros _ _. by apply holds_ret. }
    intros [rc|[[[big de_off] off'] blk']] _; [by apply holds_ret|]. eapply holds_bind; [apply safe_check_entry|].
    intros [[r|] arr'] _; apply holds_ret; cbn [fst]; [done|]. split; [lia|right; lia].
Qed.

Lemma safe_find dir name e : (∀ x, B x → 0 <= x < 256) → aget t dir = Some e → it_size e <= 2 ^ 32 - 2048 →
  (Z.to_nat (it_size e) < fuel)%nat → safe (iso_find_entry fuel dir name) (λ _, True).
Proof.
  intros HB Ee Hsz Hf. unfold iso_find_entry. eapply holds_bind; [apply safe_fresh|]. intros arr _. eapply holds_bind; [apply safe_inode|]. intros e' Ee'. assert (e' = e) as -> by congruence.
  destruct (_ =? 0); [by apply holds_ret|]. eapply holds_bind; [apply safe_dir_block|]. intros [x|] _; [|by apply holds_ret].
  destruct (x =? 0); [by apply holds_ret|].
  apply (holds_loop _ _ _ (λ a, 0 <= a.1.1.1) (λ a, Z.to_nat (it_size e - a.1.1.1))); [by apply safe_find_step|cbn; lia|].
  right. cbn [fst]. lia.
Qed.
(** *** The listing *)

Lemma safe_get {A} (f : iso → A) : safe (get_iso f) (λ _, True).
Proof. by apply holds_gets. Qed.

Lemma safe_offsets bo d : safe (mod_iso (set_offsets bo d)) (λ _, True).
Proof. by apply holds_modify. Qed.

Lemma safe_next_sector fd : safe (next_dir_sector fd) (λ _, True).
Proof.
  unfold next_dir_sector. eapply holds_bind; [apply safe_get|]. intros d _. eapply holds_bind; [apply safe_get|]. intros bo _.
  eapply holds_bind; [apply safe_offsets|]. intros _ _. eapply holds_bind; [apply safe_inode|]. intros e _.
  destruct (_ <=? _); [by apply holds_ret|]. eapply holds_bind; [apply safe_dir_block|]. intros [x|] _; [|by apply holds_ret].
  destruct (x =? 0); [by apply holds_ret|]. eapply holds_bind; [apply safe_offsets|]. intros _ _. by apply holds_ret.
Qed.

Lemma safe_join_record fd off : safe (join_record fd off) (λ _, True).
Proof.
  unfold join_record. eapply holds_bind; [apply safe_sb|]. intros bs _. eapply holds_bind; [apply safe_sb|]. intros bits _.
  eapply holds_bind; [apply safe_get|]. intros d _. eapply holds_bind; [apply safe_save|]. intros _ _.
  eapply holds_bind; [apply safe_inode|]. intros e _. eapply (holds_bind _ _ _ _ (λ _, True)).
  { case_decide; [apply safe_bmap|apply holds_trap]. }
  intros block _. destruct (_ =? 0); [by apply holds_ret|]. eapply holds_bind; [apply safe_big|]. intros big Hbig.
  eapply holds_bind; [by apply safe_read, Forall_from|]. intros [r l] Hl.
  eapply holds_bind; [apply (safe_set_buffer true), Forall_app_2; [by apply Forall_take|done]|]. intros _ _.
  destruct (negb _); [by apply holds_ret|]. eapply holds_bind; [apply safe_offsets|]. intros _ _. by apply holds_ret.
Qed.

(** No name is left after [get_rock_ridge_filename]. *)
Lemma safe_listed_name big off arr : B 0 → safe (listed_name fuel big off arr) (λ r, r.1 = 0).
Proof.
  intros HB0. unfold listed_name. eapply holds_bind; [apply safe_record|]. intros de _. apply holds_bind_lift. intros len _.
  eapply (holds_bind _ _ _ _ (λ _, True)).
  { destruct (_ =? 1); [|by apply holds_ret]. apply holds_bind_lift. intros. by apply holds_ret. }
  intros dots _. eapply holds_bind; [apply safe_sb|]. intros unhide _. eapply holds_bind; [apply safe_sb|]. intros hs _.
  eapply (holds_bind _ _ _ _ (λ _, True)).
  { destruct (_ =? 110); [|by apply holds_ret]. apply holds_bind_lift. intros. by apply holds_ret. }
  intros hidden _. cbv zeta. destruct (_ =? 0); [by apply holds_ret|]. eapply holds_bind; [apply safe_alternate|]. intros ? ->.
  change (negb (u32 0 =? 0)) with false. cbv iota. eapply holds_bind; [apply safe_sb|]. intros mapping _.
  destruct (_ =? 110); [|by apply holds_ret]. change (list_name big off (u32 0)) with (list_name (S := S) big off 0).
  eapply (holds_bind _ _ _ _ (λ n, n = 0)); [by intros s Hs; cbn|]. intros n ->.
  eapply holds_bind; [apply safe_put_name; by constructor|]. intros _ _. by apply holds_ret.
Qed.

Lemma safe_readdir_step fd arr : B 0 → safe (readdir_step fuel fd arr) (λ r, match r with inl _ => True | inr n => n = None end).
Proof.
  intros HB0. unfold readdir_step. eapply holds_bind; [apply safe_get|]. intros bo _. eapply holds_bind; [apply safe_get|].
  intros l _. apply holds_bind_lift. intros len _. eapply (holds_bind _ _ _ _ (λ _, True)).
  { destruct (_ =? 0); [apply safe_next_sector|by apply holds_ret]. }
  intros more _. destruct (negb more); [by apply holds_ret|]. eapply holds_bind; [apply safe_get|]. intros old _.
  eapply holds_bind; [apply safe_get|]. intros l2 _. apply holds_bind_lift. intros len2 _.
  eapply holds_bind; [apply safe_get|]. intros d _. eapply holds_bind; [apply safe_sb|]. intros bs _.
  eapply holds_bind; [apply safe_offsets|]. intros _ _. eapply (holds_bind _ _ _ _ (λ _, True)).
  { destruct (_ <=? _); [apply safe_join_record|by apply holds_ret]. }
  intros [frag|] _; [|by apply holds_ret]. eapply holds_bind; [by apply safe_listed_name|]. intros [n arr'] En. cbn [fst] in En. subst n.
  eapply (holds_bind _ _ _ _ (λ _, True)); [|intros _ _; by apply holds_ret].
  destruct (negb (frag =? 0)); [|by apply holds_ret].
  eapply holds_bind; [apply safe_big|]. intros b1 Hb1. eapply holds_bind; [apply safe_data|]. intros b2 Hb2.
  apply holds_bind_lift. intros l3 E3. apply holds_bind_lift. intros l4 E4. eapply holds_bind; [apply safe_get|]. intros d2 _.
  eapply holds_bind; [eapply (safe_set_buffer false), Forall_asplice; [exact Hb2| |exact E4]; eapply Forall_aslice; [exact Hb1|exact E3]|].
  intros _ _. apply safe_offsets.
Qed.

Lemma safe_readdir fd rewind : B 0 → D → safe (iso_readdir_i fuel fd rewind) (λ r, r = None).
Proof.
  intros HB0 HD. unfold iso_readdir_i. eapply holds_bind; [apply safe_fresh|]. intros arr _. eapply holds_bind; [apply safe_inode|]. intros e _.
  destruct (negb _). { eapply holds_bind; [apply safe_print|]. intros _ _. by apply holds_ret. }
  eapply (holds_bind _ _ _ _ (λ _, True)).
  { destruct (negb _); [|by apply holds_ret]. eapply holds_bind; [apply safe_offsets|]. intros _ _.
    eapply holds_bind; [apply safe_dir_block|]. intros x _. by apply holds_ret. }
  intros ok _. destruct (negb ok); [by apply holds_ret|].
  apply (holds_loop _ _ _ (λ _, True) (λ _, 0%nat)); [|done|by left]. intros arr' _.
  eapply holds_weaken; [by apply safe_readdir_step|]. intros [arr2|n]; [by auto|done].
Qed.
End any_disk.

(** C12: on a disk without Rock Ridge [iso_find_entry] ends whatever bytes the
    directory holds, on a host whose reads return bytes and whose functions end:
    every turn moves on by at least one byte, so the size of the directory bounds
    their number.  A stray access is not excluded. *)
Theorem iso_find_entry_ends {S} `{IsoEnv S} (E : S → Prop) fuel dir name e (s : iso * S) :
  let byte c := 0 <= c < 256 in
  (∀ buf off n x, E x → Forall byte buf →
     match iso_dev_read buf off n x with Ret (_, buf') x' => E x' ∧ Forall byte buf' | Diverge => False | _ => True end) →
  (∀ fmt args x, E x → match iso_printf fmt args x with Ret _ x' => E x' | Diverge => False | _ => True end) →
  s_rock (sb s.1) = 0 → aget (inode_table s.1) dir = Some e → it_size e <= 2 ^ 32 - 2048 →
  Forall byte (data_block s.1) → Forall byte (big_data_block s.1) → E s.2 →
  (Z.to_nat (it_size e) < fuel)%nat →
  iso_find_entry fuel dir name s ≠ Diverge.
Proof.
  intros byte Hread Hpr Hrock Ee Hsz Hd Hb He Hf.
  apply (holds_ends (Inv byte E (sb s.1) (inode_table s.1)) _ (λ _, True)); [|done].
  eapply safe_find; try done. intros c Hc. unfold plain_char, lower, byte in *.
  destruct ((65 <=? c) && (c <=? 90)) eqn:El; [|case_match; lia].
  assert (Forall (λ c, 0 <= (if Z.lor c 32 =? 59 then 46 else Z.lor c 32) < 256) (seqZ 65 26)) as HF
    by (apply (bool_decide_unpack _); vm_compute; exact I).
  rewrite List.Forall_forall in HF. apply HF, list_elem_of_In, elem_of_seqZ. apply andb_prop in El. lia.
Qed.

(** C40: without Rock Ridge a listing shows nothing: where there is no alternate
    name its length, 0, takes the place of the name's own, so every record is
    passed over and [iso_readdir_i] returns no name for any disk and host. *)
Theorem iso_readdir_i_unnamed {S} `{IsoEnv S} fuel fd rewind (s : iso * S) r s' :
  s_rock (sb s.1) = 0 → iso_readdir_i fuel fd rewind s = Ret r s' → r = None.
Proof.
  intros Hrock E. assert (holds True (Inv (λ _, True) (λ _, True) (sb s.1) (inode_table s.1))
    (iso_readdir_i fuel fd rewind) (λ r, r = None)) as Hh.
  { apply safe_readdir; try done; intros; repeat case_match; try done. split; [done|by apply Forall_true]. }
  specialize (Hh s). rewrite E in Hh. apply Hh. repeat split; by apply Forall_true.
Qed.
