(* ===== verification/Iso.v ===== *)
(** * fs/iso.c: the ISO 9660 library in the loader

    [iso_dev_read] is [cons_read] on the device of the last mount, messages and
    memory come from utils.c, [strncat] from lib/string.c.  [stale] is what the
    memory holds that the stack and [malloc] hand out.  The table [isofs] is that of the other file
    systems; its file system is never found through a partition type. *)

From Stdlib Require Import Ascii String.
From S2P Require Import Prelude CString Vsprintf Cons Utils Aboot BootFs IsoLib.

Open Scope Z_scope.
Open Scope list_scope.

(** The static data of isolib.c and of iso.c. *)
Record isofs := Isofs { lib : iso; cd_device : Z }.

Definition isofs_init : isofs := Isofs iso_init (-1).

(** [strncat] of lib/string.c, to the string in an array: nothing for a count of
    0; it stops behind a NUL it has copied, or after [count] characters, without
    one. *)
Definition strncat (dest src : list Z) (count : Z) : option (list Z) :=
  if count =? 0 then Some dest
  else
    let? cur := cstring dest in
    let? s := strn src count in
    asplice dest (zlen cur) (if zlen s <? count then s ++ [0] else s).

(** What is written is what [CString.strncat] writes to memory
    ([CString.strncat_ok]): the first [count] characters of the source and its NUL. *)
Lemma strncat_written dest src rest cur count :
  cstring dest = Some cur → Forall (λ c, c ≠ 0) src → 0 < count →
  strncat dest (src ++ 0 :: rest) count = asplice dest (zlen cur) (take (Z.to_nat count) (src ++ [0])).
Proof.
  intros Hc Hs Hn. unfold strncat. rewrite (proj2 (Z.eqb_neq count 0)), Hc by lia.
  assert (∀ l n, Forall (λ c, c ≠ 0) l → 0 <= n → strn (l ++ 0 :: rest) n = Some (take (Z.to_nat n) l)) as Hst.
  { clear. intros l n Hl. revert n. induction Hl as [|c l Hc _ IH]; intros n Hn; cbn [app strn].
    - destruct (Z.eqb_spec n 0); by rewrite take_nil.
    - destruct (Z.eqb_spec n 0) as [->|]; [done|]. rewrite (proj2 (Z.eqb_neq c 0) Hc), IH by lia.
      by replace (Z.to_nat n) with (S (Z.to_nat (n - 1))) by lia. }
  rewrite Hst by (done || lia). f_equal. destruct (Z.ltb_spec (zlen (take (Z.to_nat count) src)) count) as [Hl|Hl].
  - assert (zlen src < count) by (unfold zlen in *; rewrite length_take in Hl; lia).
    rewrite !take_ge by (unfold zlen in *; rewrite ?length_app; cbn [length]; lia). done.
  - rewrite take_app_le; [done|]. unfold zlen in *. rewrite length_take in Hl. lia.
Qed.

Section iso_c.
Context {K : Type} `{ConsIO K} (fuel : nat) (stale : ustate K → Z → Z).

Definition dev_read (buf : list Z) (offset size : Z) : M (Z * ustate K) (Z * list Z) := λ s,
  match io_read s.1 buf size offset (u_con s.2) with
  | Ret r k => Ret r (s.1, UState k (clusters s.2) (pagesize s.2) (free_mem_ptr s.2) (dest_addr s.2))
  | Jump x k => Jump x (s.1, UState k (clusters s.2) (pagesize s.2) (free_mem_ptr s.2) (dest_addr s.2))
  | Trap => Trap
  | Diverge => Diverge
  end.

#[export] Instance loader_env : IsoEnv (Z * ustate K) := {|
  iso_dev_read := dev_read;
  iso_printf := fs_printf;
  iso_malloc := fs_malloc;
  iso_strncat := strncat;
  iso_stale e := stale e.2
|}.

#[export] Program Instance loader_strncat : StrncatLaws (Z * ustate K) := {| strncat_closes := false |}.
Next Obligation.
  intros b cur l n s Hc Hn Hs. cbn. unfold strncat. rewrite Hc, Hs. destruct (Z.eqb_spec n 0) as [->|Hn0].
  - assert (asplice b (zlen cur) [] = Some b) as Eb.
    { apply cstring_Some in Hc as (_&rest&->). pose proof (zlen_nonneg cur). pose proof (zlen_nonneg rest).
      unfold asplice. change (zlen (@nil Z)) with 0. rewrite decide_True by (rewrite zlen_app, zlen_cons; lia).
      cbn [app length]. rewrite Nat.add_0_r. by rewrite take_drop. }
    destruct l; injection Hs as <-; symmetry; exact Eb.
  - cbn [orb]. destruct (zlen s <? n); [done|]. by rewrite app_nil_r.
Qed.

(** A function of the library, on the loader's state. *)
Definition with_lib {A} (m : M (iso * (Z * ustate K)) A) : M (isofs * ustate K) A := λ s,
  match m (lib s.1, (cd_device s.1, s.2)) with
  | Ret a x => Ret a (Isofs x.1 x.2.1, x.2.2)
  | Jump e x => Jump e (Isofs x.1 x.2.1, x.2.2)
  | Trap => Trap
  | Diverge => Diverge
  end.

Definition iso_mount (cons_dev p_offset quiet : Z) : M (isofs * ustate K) Z :=
  mod_fs (λ s, Isofs (lib s) cons_dev) ;;;
  with_lib (iso_read_super quiet).

Definition iso_readdir (fd rewind : Z) : M (isofs * ustate K) (option (list Z)) :=
  with_lib (iso_readdir_i fuel fd rewind).

Definition iso_bootfs : bootfs isofs K :=
  Bootfs (-1) (λ _, 1024) iso_mount (λ path, with_lib (iso_open fuel path))
    (λ fd k n buf, with_lib (iso_bread fd k n buf)) (λ fd, with_lib (iso_close fd))
    iso_readdir (λ fd buf, with_lib (iso_fstat fd buf)).
End iso_c.
