(* ===== verification/Ext2.v ===== *)
(** * fs/ext2.c: reading files of an ext2 (and single-extent ext4) file system

    The on-disk structures are kept as the bytes read ([Ext2Disk]).  A pointer to an in-core inode is its slot of
    [inode_table]; a pointer to a directory entry is its offset in [blkbuf].
    [fuel] bounds the loops the code leaves open: the entries of a directory
    ([rec_len] may be 0), chains of symbolic links, and the blocks of a read. *)

From Stdlib Require Import Ascii String.
From S2P Require Import Prelude CString Vsprintf Cons Utils Aboot BootFs.
From S2P Require Export Ext2Disk.

Open Scope Z_scope.
Open Scope list_scope.

Definition MAX_OPEN_FILES : Z := 5.
(** ** State *)

(** What mounting finds out. *)
Record geometry := Geometry {
  sb : list Z;
  gds : list Z;
  ngroups : Z;
  directlim : Z;
  ind1lim : Z;
  ind2lim : Z;
  ptrs_per_blk : Z;
  fs_bsize : Z;            (* ext2fs.blocksize *)
  dev : Z;
  partition_offset : Z
}.

(** An indirect block in core, and its number. *)
Record iblock := IBlock { cached_no : Z; cached : list Z }.

Record inode_slot := InodeSlot {
  inode : list Z;
  inumber : Z;
  is_free : Z;
  old_mode : Z
}.

Record ext2 := Ext2 {
  geo : geometry;
  blkbuf : list Z;
  ind : iblock;            (* cached_iblkno, iblkbuf *)
  dind : iblock;           (* cached_diblkno, diblkbuf *)
  inode_table : list inode_slot;
  root_inode : option Z;
  diroffset : Z;           (* the statics of ext2_readdiri *)
  blockoffset : Z
}.

Definition ext2_init : ext2 :=
  Ext2 (Geometry (replicate 1024 0) [] 0 0 0 0 0 0 (-1) 0) [] (IBlock (-1) []) (IBlock (-1) [])
    (replicate 5 (InodeSlot (replicate 128 0) 0 0 0)) None 0 0.

Definition set_geo (g : geometry) (s : ext2) : ext2 :=
  Ext2 g (blkbuf s) (ind s) (dind s) (inode_table s) (root_inode s) (diroffset s) (blockoffset s).
Definition set_blkbuf (b : list Z) (s : ext2) : ext2 :=
  Ext2 (geo s) b (ind s) (dind s) (inode_table s) (root_inode s) (diroffset s) (blockoffset s).
Definition set_ind (c : iblock) (s : ext2) : ext2 :=
  Ext2 (geo s) (blkbuf s) c (dind s) (inode_table s) (root_inode s) (diroffset s) (blockoffset s).
Definition set_dind (c : iblock) (s : ext2) : ext2 :=
  Ext2 (geo s) (blkbuf s) (ind s) c (inode_table s) (root_inode s) (diroffset s) (blockoffset s).
Definition set_table (t : list inode_slot) (s : ext2) : ext2 :=
  Ext2 (geo s) (blkbuf s) (ind s) (dind s) t (root_inode s) (diroffset s) (blockoffset s).
Definition set_root (r : option Z) (s : ext2) : ext2 :=
  Ext2 (geo s) (blkbuf s) (ind s) (dind s) (inode_table s) r (diroffset s) (blockoffset s).
Definition set_dirpos (d b : Z) (s : ext2) : ext2 :=
  Ext2 (geo s) (blkbuf s) (ind s) (dind s) (inode_table s) (root_inode s) d b.

Section ext2_code.
Context {K : Type} `{ConsIO K} (fuel : nat).

Abbreviation E2 := (M (ext2 * ustate K)).

Definition inode_of (slot : Z) : E2 (list Z) :=
  let! t := get_fs inode_table in
  let! e := lift_opt (aget t slot) in
  ret (inode e).

(** [bread]'s [buffer + pos]. *)
Definition read_at (buf : list Z) (pos count offset : Z) : E2 (Z * list Z) :=
  let! d := get_fs (λ s, dev (geo s)) in
  let! sub := lift_opt (aslice buf pos (zlen buf - pos)) in
  let! ' (r, sub) := fs_read d sub count offset in
  ret (r, take (Z.to_nat pos) buf ++ sub).

Definition mod_geo (f : geometry → geometry) : E2 unit := mod_fs (λ s, set_geo (f (geo s)) s).

(* a block buffer from malloc *)
Definition new_block (put : list Z → ext2 → ext2) : E2 unit :=
  let! bs := get_fs (λ s, fs_bsize (geo s)) in
  fs_malloc (u64 bs) ;;;
  mod_fs (put (replicate (Z.to_nat bs) 0)).

Definition ext2_mount (cons_dev p_offset quiet : Z) : E2 Z :=
  mod_geo (λ g, Geometry (sb g) (gds g) (ngroups g) (directlim g) (ind1lim g) (ind2lim g)
    (ptrs_per_blk g) (fs_bsize g) cons_dev p_offset) ;;;
  mod_fs (λ s, set_table (map (λ e, InodeSlot (inode e) 0 1 (old_mode e)) (inode_table s)) s) ;;;
  mod_fs (set_root None) ;;;
  let! old := get_fs (λ s, sb (geo s)) in
  let! ' (r, sbuf) := fs_read cons_dev old sizeof_sb (s64 (p_offset + EXT2_MIN_BLOCK_SIZE)) in
  mod_geo (λ g, Geometry sbuf (gds g) (ngroups g) (directlim g) (ind1lim g) (ind2lim g)
    (ptrs_per_blk g) (fs_bsize g) (dev g) (partition_offset g)) ;;;
  if negb (r =? sizeof_sb) then
    fs_printf ("ext2 sb read failed" ++ nl) [] ;;; ret (-1)
  else
    let! magic := lift_opt (s_magic sbuf) in
    if negb (magic =? EXT2_SUPER_MAGIC) then
      (if quiet =? 0 then fs_printf ("ext2_init: bad magic 0x%x" ++ nl) [AInt magic] else ret tt) ;;;
      ret (-1)
    else
      let! count := lift_opt (s_blocks_count sbuf) in
      let! first := lift_opt (s_first_data_block sbuf) in
      let! bpg := lift_opt (s_blocks_per_group sbuf) in
      let! log := lift_opt (s_log_block_size sbuf) in
      if (bpg =? 0) || (32 <=? log) then trap
      else
        let ng := s32 (u32 (count - first + bpg - 1) / bpg) in
        let gsize := u64 (ng * sizeof_gd) in
        fs_malloc gsize ;;;
        let bs := s32 (Z.shiftl EXT2_MIN_BLOCK_SIZE log) in
        mod_geo (λ g, Geometry (sb g) (replicate (Z.to_nat gsize) 0) ng (directlim g) (ind1lim g)
          (ind2lim g) (ptrs_per_blk g) bs (dev g) (partition_offset g)) ;;;
        new_block set_blkbuf ;;;
        new_block (λ b s, set_ind (IBlock (cached_no (ind s)) b) s) ;;;
        new_block (λ b s, set_dind (IBlock (cached_no (dind s)) b) s) ;;;
        if bs =? 0 then trap
        else
          let! old := get_fs (λ s, gds (geo s)) in
          let! ' (_, gbuf) := fs_read cons_dev old (s64 gsize)
            (s64 (p_offset + s32 (bs * (Z.quot EXT2_MIN_BLOCK_SIZE bs + 1)))) in
          let dl := EXT2_NDIR_BLOCKS - 1 in
          let ppb := s32 (u64 bs / 4) in
          mod_geo (λ g, Geometry (sb g) gbuf (ngroups g) dl (s32 (ppb + dl)) (s32 (ppb * ppb + dl))
            ppb bs (dev g) (partition_offset g)) ;;;
          ret 0.

(* the first free slot *)
Fixpoint free_slot (t : list inode_slot) (i : Z) : option Z :=
  match t with
  | [] => None
  | e :: t => if negb (is_free e =? 0) then Some i else free_slot t (i + 1)
  end.

Definition inode_offset (g : geometry) (ino : Z) : option Z :=
  let? ipg := s_inodes_per_group (sb g) in
  let? isz := s_inode_size (sb g) in
  if ipg =? 0 then None
  else
    let group := s32 (u32 (ino - 1) / ipg) in
    let? table := bg_inode_table (gds g) group in
    Some (s64 (partition_offset g + table * fs_bsize g + u32 (u32 (ino - 1) mod ipg * isz))).

Definition ext2_iget (ino : Z) : E2 (option Z) :=
  let! t := get_fs inode_table in
  match free_slot t 0 with
  | None => fs_printf ("ext2_iget: no free inodes" ++ nl) [] ;;; ret None
  | Some i =>
      let! g := get_fs geo in
      let! off := lift_opt (inode_offset g ino) in
      let! e := lift_opt (aget t i) in
      let! ' (r, ip) := fs_read (dev g) (inode e) sizeof_inode off in
      let! t := lift_opt (aset t i (InodeSlot ip (inumber e) (is_free e) (old_mode e))) in
      mod_fs (set_table t) ;;;
      if negb (r =? sizeof_inode) then
        fs_printf ("ext2_iget: read error" ++ nl) [] ;;; ret None
      else
        let! mode := lift_opt (i_mode ip) in
        let! t := lift_opt (aset t i (InodeSlot ip ino 0 mode)) in
        mod_fs (set_table t) ;;;
        ret (Some i)
  end.

Definition ext2_iput (ip : Z) : E2 unit :=
  let! t := get_fs inode_table in
  let! e := lift_opt (aget t ip) in
  let! t := lift_opt (aset t ip (InodeSlot (inode e) 0 1 (old_mode e))) in
  mod_fs (set_table t).

(** An indirect block, read unless it is the one in core; [None] after a
    failed read. *)
Definition get_iblock (get : ext2 → iblock) (put : iblock → ext2 → ext2) (no : Z) (msg : string) :
    E2 (option (list Z)) :=
  let! c := get_fs get in
  if negb (cached_no c =? no) then
    let! g := get_fs geo in
    let! ' (r, b) := fs_read (dev g) (cached c) (fs_bsize g)
      (s64 (partition_offset g + no * fs_bsize g)) in
    mod_fs (put (IBlock (cached_no c) b)) ;;;
    if negb (r =? fs_bsize g) then fs_printf msg [] ;;; ret None
    else mod_fs (put (IBlock no b)) ;;; ret (Some b)
  else ret (Some (cached c)).

(* ilp[i] *)
Definition entry_of (b : list Z) (i : Z) : E2 Z := lift_opt (get_u32 b (4 * i)).

(** [ip] is the inode; the block number is an int. *)
Definition ext2_blkno (ip : list Z) (blkoff : Z) : E2 Z :=
  let! g := get_fs geo in
  if blkoff <=? directlim g then
    let! b := lift_opt (i_block ip blkoff) in ret (s32 b)
  else if blkoff <=? ind1lim g then
    let! b := lift_opt (i_block ip EXT2_IND_BLOCK) in
    let iblkno := s32 b in
    if iblkno =? 0 then ret 0
    else
      let! ib := get_iblock ind set_ind iblkno ("ext2_blkno: error on iblk read" ++ nl) in
      match ib with
      | None => ret 0
      | Some ib => let! b := entry_of ib (blkoff - (directlim g + 1)) in ret (s32 b)
      end
  else if blkoff <=? ind2lim g then
    let! b := lift_opt (i_block ip EXT2_DIND_BLOCK) in
    let diblkno := s32 b in
    if diblkno =? 0 then ret 0
    else
      let! db := get_iblock dind set_dind diblkno ("ext2_blkno: err reading dindr blk" ++ nl) in
      match db with
      | None => ret 0
      | Some db =>
          let! b := entry_of db (Z.quot (blkoff - (ind1lim g + 1)) (ptrs_per_blk g)) in
          let iblkno := s32 b in
          if iblkno =? 0 then ret 0
          else
            let! ib := get_iblock ind set_ind iblkno ("ext2_blkno: err on iblk read" ++ nl) in
            match ib with
            | None => ret 0
            | Some ib =>
                let! b := entry_of ib (Z.rem (blkoff - (ind1lim g + 1)) (ptrs_per_blk g)) in
                ret (s32 b)
            end
      end
  else
    fs_printf ("ext2_blkno: block number too large: %d" ++ nl) [AInt blkoff] ;;;
    ret 0.

(** ** Reading a file's blocks *)

Definition ext4_breadi (ip : list Z) (blkno nblks : Z) (buffer : list Z) : E2 (Z * list Z) :=
  let! eh_magic := lift_opt (get_u16 ip 40) in
  let! eh_entries := lift_opt (get_u16 ip 42) in
  let! ee_block := lift_opt (get_u32 ip 52) in
  let! ee_len := lift_opt (get_u16 ip 56) in
  let! ee_start_hi := lift_opt (get_u16 ip 58) in
  let! ee_start_lo := lift_opt (get_u32 ip 60) in
  if negb (eh_magic =? EXT4_EXT_MAGIC) then
    fs_printf ("ext4_breadi: Extent header magic wrong." ++ nl) [] ;;; ret (-1, buffer)
  else if negb (eh_entries =? 1) then
    fs_printf ("ext4_breadi: Extent entries must be 1." ++ nl) [] ;;; ret (-1, buffer)
  else if negb (ee_block =? 0) then
    fs_printf ("ext4_breadi: First logical block must be 0." ++ nl) [] ;;; ret (-1, buffer)
  else if ee_len <? nblks then
    fs_printf ("ext4_breadi: Request nblks greater than extent len." ++ nl) [] ;;; ret (-1, buffer)
  else
    let ee_start := Z.shiftl ee_start_hi 32 + ee_start_lo in
    let nblks := if ee_len <? blkno + nblks then ee_len - blkno else nblks in
    let! g := get_fs geo in
    let offset := s64 (partition_offset g + (ee_start + blkno) * fs_bsize g) in
    let nbytes := nblks * fs_bsize g in
    let! ' (tot_bytes, buffer) := fs_read (dev g) buffer nbytes offset in
    if negb (tot_bytes =? nbytes) then
      fs_printf ("ext4_breadi: cons_read failed." ++ nl) [] ;;; ret (-1, buffer)
    else ret (s32 tot_bytes, buffer).

(* the inner loop: how many blocks follow one another on the device *)
Definition contiguous (ip : list Z) (dev_blkno bs blkno nblks : Z) : E2 (Z * Z * Z * Z) :=
  loop fuel (λ '(blkno, ncontig, nblks, nbytes),
    let blkno := blkno + 1 in
    let ncontig := ncontig + 1 in
    let nblks := nblks - 1 in
    let nbytes := nbytes + bs in
    if nblks =? 0 then ret (inr (blkno, ncontig, nblks, nbytes))
    else
      let! b := ext2_blkno ip (s32 blkno) in
      ret (if b =? dev_blkno + ncontig then inl (blkno, ncontig, nblks, nbytes)
           else inr (blkno, ncontig, nblks, nbytes))) (blkno, 0, nblks, 0).

(** One run of blocks; [tot] is also how far [buffer] has advanced. *)
Definition breadi_step (ip : list Z) :
    Z * Z * Z * list Z → E2 (Z * Z * Z * list Z + Z * list Z) :=
  λ '(blkno, nblks, tot, buffer),
    if nblks =? 0 then ret (inr (s32 tot, buffer))
    else
      let! g := get_fs geo in
      let! dev_blkno := ext2_blkno ip (s32 blkno) in
      let! ' (blkno, _, nblks, nbytes) := contiguous ip dev_blkno (fs_bsize g) blkno nblks in
      if dev_blkno =? 0 then
        let! buffer := lift_opt (asplice buffer tot (replicate (Z.to_nat nbytes) 0)) in
        ret (inl (blkno, nblks, tot + nbytes, buffer))
      else
        let offset := s64 (partition_offset g + dev_blkno * fs_bsize g) in
        let! ' (r, buffer) := read_at buffer tot nbytes offset in
        if negb (r =? nbytes) then
          fs_printf ("ext2_bread: read error" ++ nl) [] ;;; ret (inr (-1, buffer))
        else ret (inl (blkno, nblks, tot + nbytes, buffer)).

Definition ext2_breadi (ip : list Z) (blkno nblks : Z) (buffer : list Z) : E2 (Z * list Z) :=
  let! flags := lift_opt (i_flags ip) in
  if negb (Z.land flags EXT4_EXTENTS_FL =? 0) then
    fs_printf ("ext2_breadi: This function does not handle ext4 extents" ++ nl) [] ;;;
    ret (-1, buffer)
  else
    let! g := get_fs geo in
    let! size := lift_opt (i_size ip) in
    if fs_bsize g =? 0 then trap
    else
      let nblks :=
        (if size <? (blkno + nblks) * fs_bsize g
         then u32 (size + fs_bsize g) / u32 (fs_bsize g) - blkno
         else nblks) in
      loop fuel (breadi_step ip) (blkno, nblks, 0, buffer).

Definition extn_breadi (ip : list Z) (blkno nblks : Z) (buffer : list Z) : E2 (Z * list Z) :=
  let! flags := lift_opt (i_flags ip) in
  if negb (Z.land flags EXT4_EXTENTS_FL =? 0) then ext4_breadi ip blkno nblks buffer
  else ext2_breadi ip blkno nblks buffer.

(* extn_breadi(ip, blkno, 1, blkbuf) *)
Definition read_blkbuf (ip : list Z) (blkno : Z) : E2 Z :=
  let! buf := get_fs blkbuf in
  let! ' (r, buf) := extn_breadi ip blkno 1 buf in
  mod_fs (set_blkbuf buf) ;;;
  ret r.

(** ** Directories *)

Definition de_inode (off : Z) : E2 Z := let! b := get_fs blkbuf in lift_opt (get_u32 b off).
Definition de_rec_len (off : Z) : E2 Z := let! b := get_fs blkbuf in lift_opt (get_u16 b (off + 4)).
Definition de_name_len (off : Z) : E2 Z := let! b := get_fs blkbuf in lift_opt (get_u8 b (off + 6)).

(** The entry at [blockoffset], and on to the next. *)
Definition take_entry : E2 (option Z) :=
  let! dp := get_fs blockoffset in
  let! len := de_rec_len dp in
  mod_fs (λ s, set_dirpos (diroffset s) (s32 (dp + len)) s) ;;;
  ret (Some dp).

Definition ext2_readdiri (dir : list Z) (rewind : Z) : E2 (option Z) :=
  let! ok :=
    (if negb (rewind =? 0) then
       mod_fs (set_dirpos 0 0) ;;;
       let! r := read_blkbuf dir 0 in
       ret (negb (r <? 0))
     else ret true) in
  if negb ok then ret None
  else
    let! g := get_fs geo in
    let! bo := get_fs blockoffset in
    if fs_bsize g <=? bo then
      mod_fs (λ s, set_dirpos (s32 (diroffset s + fs_bsize g)) (blockoffset s) s) ;;;
      let! d := get_fs diroffset in
      let! size := lift_opt (i_size dir) in
      if size <=? u32 d then ret None
      else if fs_bsize g =? 0 then trap
      else
        let! r := read_blkbuf dir (Z.quot d (fs_bsize g)) in
        if r <? 0 then ret None
        else
          mod_fs (λ s, set_dirpos (diroffset s) 0 s) ;;;
          take_entry
    else take_entry.

(** strncmp(component, dp->name, length) == 0, for the characters of a
    component, none of them NUL. *)
Fixpoint same_name (component : list Z) (off : Z) : E2 bool :=
  match component with
  | [] => ret true
  | c :: component =>
      let! b := get_fs blkbuf in
      let! x := lift_opt (aget b off) in
      if x =? c then same_name component (off + 1) else ret false
  end.

(* the search of one directory: the inode number, or -1 *)
Definition find_entry (dir component : list Z) : E2 Z :=
  loop fuel (λ rewind,
    let! dp := ext2_readdiri dir rewind in
    match dp with
    | None => ret (inr (-1))
    | Some dp =>
        let! nlen := de_name_len dp in
        if nlen =? zlen component then
          let! same := same_name component (dp + 8) in
          if same then let! ino := de_inode dp in ret (inr (s32 ino))
          else ret (inl 0)
        else ret (inl 0)
    end) 1.

Fixpoint walk_path (components : list (list Z)) (dir : Z) : E2 (option Z) :=
  match components with
  | [] => ret (Some dir)
  | c :: components =>
      let! ip := inode_of dir in
      let! next_ino := find_entry ip c in
      let! root := get_fs root_inode in
      (if bool_decide (root = Some dir) then ret tt else ext2_iput dir) ;;;
      if next_ino <? 0 then ret None
      else
        let! next := ext2_iget next_ino in
        match next with
        | None => ret None
        | Some next => walk_path components next
        end
  end.

(** [name] without its NUL; the components are what strtok finds. *)
Definition ext2_namei (name : list Z) : E2 (option Z) :=
  lift_opt (put_cstring (replicate 256 0) name) ;;;
  let! root := get_fs root_inode in
  let! root :=
    match root with
    | Some _ => ret root
    | None =>
        let! r := ext2_iget EXT2_ROOT_INO in
        mod_fs (set_root r) ;;;
        ret r
    end in
  match root with
  | None => ret None
  | Some dir => walk_path (tokens (str "/") name) dir
  end.

(** ** The operations of the table *)

Definition ext2_bread (fd blkno nblks : Z) (buffer : list Z) : E2 (Z * list Z) :=
  let! ip := inode_of fd in
  extn_breadi ip blkno nblks buffer.

Definition ext2_readdir (fd rewind : Z) : E2 (option (list Z)) :=
  let! ip := inode_of fd in
  let! mode := lift_opt (i_mode ip) in
  if negb (S_ISDIR mode) then
    let! t := get_fs inode_table in
    let! e := lift_opt (aget t fd) in
    fs_printf ("fd %d (inode %d) is not a directory (mode %x)" ++ nl)
      [AInt fd; AInt (inumber e); AInt mode] ;;;
    ret None
  else
    let! ent := ext2_readdiri ip rewind in
    match ent with
    | None => ret None
    | Some dp =>
        let! n := de_name_len dp in
        let! b := get_fs blkbuf in
        let! b := lift_opt (aset b (dp + 8 + n) 0) in
        mod_fs (set_blkbuf b) ;;;
        let! name := lift_opt (cstring (drop (Z.to_nat (dp + 8)) b)) in
        ret (Some name)
    end.

Definition ext2_fstat (fd : Z) (buf : stat) : E2 (Z * stat) :=
  if MAX_OPEN_FILES <=? fd then ret (-1, buf)
  else
    let! t := get_fs inode_table in
    let! e := lift_opt (aget t fd) in
    let ip := inode e in
    let! mode := lift_opt (i_mode ip) in
    let! nlink := lift_opt (i_links_count ip) in
    let! uid := lift_opt (i_uid ip) in
    let! gid := lift_opt (i_gid ip) in
    let! size := lift_opt (i_size ip) in
    let! blocks := lift_opt (i_blocks ip) in
    let! atime := lift_opt (i_atime ip) in
    let! mtime := lift_opt (i_mtime ip) in
    let! ctime := lift_opt (i_ctime ip) in
    ret (0, Stat (inumber e) mode nlink uid gid size blocks atime mtime ctime).

Definition ext2_follow_link (from : Z) (base : list Z) : E2 (option Z) :=
  let! ip := inode_of from in
  let! blocks := lift_opt (i_blocks ip) in
  let! linkto :=
    (if negb (blocks =? 0) then
       let! r := read_blkbuf ip 0 in
       if r =? -1 then ret None
       else let! b := get_fs blkbuf in let! l := lift_opt (cstring b) in ret (Some l)
     else let! l := lift_opt (cstring (drop 40 ip)) in ret (Some l)) in
  match linkto with
  | None => ret None
  | Some linkto =>
      if negb (bool_decide (head linkto = Some 47)) then
        match str_last base 47 with
        | Some e => ext2_namei (take (Z.to_nat (e + 1)) base ++ linkto)
        | None => ext2_namei linkto
        end
      else ext2_namei linkto
  end.

(* while (S_ISLNK(ip->i_mode)) *)
Definition follow_links (filename : list Z) (ip : Z) : E2 (option Z) :=
  loop fuel (λ ip,
    let! i := inode_of ip in
    let! mode := lift_opt (i_mode i) in
    if S_ISLNK mode then
      let! next := ext2_follow_link ip filename in
      match next with
      | None => ret (inr None)
      | Some next => ret (inl next)
      end
    else ret (inr (Some ip))) ip.

Definition ext2_open (filename : list Z) : E2 Z :=
  let! ip := ext2_namei filename in
  match ip with
  | None => ret (-1)
  | Some ip =>
      let! ip := follow_links filename ip in
      match ip with
      | None => ret (-1)
      | Some ip => ret ip
      end
  end.

Definition ext2_close (fd : Z) : E2 unit :=
  let! root := get_fs root_inode in
  if bool_decide (root = Some fd) then ret tt else ext2_iput fd.

Definition ext2fs : bootfs ext2 K :=
  Bootfs 8 (λ s, fs_bsize (geo s)) ext2_mount ext2_open ext2_bread ext2_close ext2_readdir ext2_fstat.
End ext2_code.
