(* ===== verification/Ext2Read.v ===== *)
(** * Reading a file: fs/ext2.c against the on-disk format

    [file_map] is the block map of an inode as the format defines it, on the
    contents of the device; the proofs show that the code computes it through
    its two cached blocks, and that the grouped reads of [ext2_breadi] return
    the blocks of the file. *)

From Stdlib Require Import Ascii String.
From S2P Require Import Prelude CString Vsprintf Cons Utils Aboot BootFs Ext2.

Open Scope Z_scope.
Open Scope list_scope.

(** ** The format *)

(** The loader reads whole sectors: [n] bytes at [off] are readable when the
    device has the sectors they lie in. *)
Definition readable (disk : list Z) (off n : Z) : Prop :=
  0 <= off < 2 ^ 62 ∧ 0 <= n ∧ 512 * ((off + n + 511) / 512) <= zlen disk.

#[export] Instance readable_dec disk off n : Decision (readable disk off n).
Proof. unfold readable. apply _. Defined.

(** Block [no] of the file system. *)
Definition dev_block (disk : list Z) (g : geometry) (no : Z) : option (list Z) :=
  let off := partition_offset g + no * fs_bsize g in
  if decide (readable disk off (fs_bsize g)) then aslice disk off (fs_bsize g) else None.

Abbreviation pointer disk g := (pointer_in (dev_block disk g)).

(** The block map of a file, on the contents of the device. *)
Definition file_map (disk : list Z) (g : geometry) (ip : list Z) (k : Z) : option Z :=
  block_map (dev_block disk g) (ptrs_per_blk g) ip k.

(** A block of the file, and [n] of them. *)
Definition file_block (disk : list Z) (g : geometry) (ip : list Z) (k : Z) : option (list Z) :=
  let? no := file_map disk g ip k in
  if no =? 0 then Some (replicate (Z.to_nat (fs_bsize g)) 0) else dev_block disk g no.

Abbreviation file_blocks disk g ip := (blocks_from (file_block disk g ip)).

(** ** The state between calls *)

(** The limits [ext2_mount] computes. *)
Record geo_ok (g : geometry) : Prop := {
  geo_ptrs : 0 < ptrs_per_blk g < 2 ^ 15;
  geo_bsize : fs_bsize g = 4 * ptrs_per_blk g;
  geo_direct : directlim g = 11;
  geo_ind1 : ind1lim g = ptrs_per_blk g + 11;
  geo_ind2 : ind2lim g = ptrs_per_blk g * ptrs_per_blk g + 11;
  geo_offset : 0 <= partition_offset g < 2 ^ 61
}.

Section ext2_read.
Context {K : Type} `{HL : ConsIOLaws K} (fuel : nat).

Definition disk_of (s : ext2 * ustate K) : list Z := io_disk (u_con s.2) (dev (geo s.1)).

(** A cached block is the block of the device it is the number of. *)
Definition coherent (disk : list Z) (g : geometry) (c : iblock) : Prop :=
  zlen (cached c) = fs_bsize g ∧
  ∀ b, cached_no c ≠ 0 → dev_block disk g (cached_no c) = Some b → cached c = b.

Definition fs_ok (s : ext2 * ustate K) : Prop :=
  io_ok (u_con s.2) ∧ geo_ok (geo s.1) ∧
  coherent (disk_of s) (geo s.1) (ind s.1) ∧ coherent (disk_of s) (geo s.1) (dind s.1).

(** Nothing but the cached blocks and the console's own state has changed. *)
Definition frame (s s' : ext2 * ustate K) : Prop :=
  fs_ok s' ∧ geo s'.1 = geo s.1 ∧ blkbuf s'.1 = blkbuf s.1 ∧
  inode_table s'.1 = inode_table s.1 ∧ root_inode s'.1 = root_inode s.1 ∧
  diroffset s'.1 = diroffset s.1 ∧ blockoffset s'.1 = blockoffset s.1 ∧
  io_disk (u_con s'.2) = io_disk (u_con s.2) ∧ clusters s'.2 = clusters s.2 ∧
  pagesize s'.2 = pagesize s.2 ∧ free_mem_ptr s'.2 = free_mem_ptr s.2 ∧
  dest_addr s'.2 = dest_addr s.2.

Lemma frame_refl s : fs_ok s → frame s s.
Proof. intros. by split. Qed.

Lemma frame_trans s1 s2 s3 : frame s1 s2 → frame s2 s3 → frame s1 s3.
Proof.
  intros (?&?&?&?&?&?&?&?&?&?&?&?) (?&?&?&?&?&?&?&?&?&?&?&?).
  split; [done|]. repeat (split; [congruence|]). congruence.
Qed.

Lemma frame_disk s s' : frame s s' → disk_of s' = disk_of s.
Proof. intros (_&Eg&_&_&_&_&_&Ed&_). unfold disk_of. by rewrite Ed, Eg. Qed.

(** *** Reading the device *)

Lemma fs_read_ok d buf count offset (s : ext2 * ustate K) :
  io_ok (u_con s.2) → 0 <= count <= zlen buf → readable (io_disk (u_con s.2) d) offset count →
  ∃ data k, fs_read d buf count offset s = Ret (count, data ++ drop (Z.to_nat count) buf)
      (s.1, UState k (clusters s.2) (pagesize s.2) (free_mem_ptr s.2) (dest_addr s.2)) ∧
    aslice (io_disk (u_con s.2) d) offset count = Some data ∧ io_ok k ∧
    io_disk k = io_disk (u_con s.2).
Proof.
  intros Hok Hc (Ho&_&Hr). destruct (io_read_ok d buf count offset (u_con s.2)) as (data&k&E&Ea&Hk&Hd);
    [done|done|lia|done|].
  exists data, k. split; [|done]. unfold fs_read, on_ustate, on_con. by rewrite E.
Qed.

(** The state after a read, with a change to the file system's own state that
    keeps its caches in step. *)
Lemma frame_read (s : ext2 * ustate K) (f : ext2 → ext2) k :
  fs_ok s → io_ok k → io_disk k = io_disk (u_con s.2) →
  geo (f s.1) = geo s.1 → blkbuf (f s.1) = blkbuf s.1 →
  inode_table (f s.1) = inode_table s.1 → root_inode (f s.1) = root_inode s.1 →
  diroffset (f s.1) = diroffset s.1 → blockoffset (f s.1) = blockoffset s.1 →
  coherent (disk_of s) (geo s.1) (ind (f s.1)) → coherent (disk_of s) (geo s.1) (dind (f s.1)) →
  frame s (f s.1, UState k (clusters s.2) (pagesize s.2) (free_mem_ptr s.2) (dest_addr s.2)).
Proof.
  intros (_&Hg&_&_) Hk Hd E1 E2 E3 E4 E5 E6 C1 C2. unfold frame, fs_ok, disk_of. cbn.
  rewrite E1, Hd. by repeat (split; [done|]).
Qed.

Lemma dev_block_Some disk g no b : dev_block disk g no = Some b →
  readable disk (partition_offset g + no * fs_bsize g) (fs_bsize g) ∧
  aslice disk (partition_offset g + no * fs_bsize g) (fs_bsize g) = Some b ∧ zlen b = fs_bsize g.
Proof.
  unfold dev_block. case_decide; [|done]. intros E. split; [done|]. split; [done|].
  by eapply aslice_len.
Qed.

(** Either cached block. *)
Definition slot_of (get : ext2 → iblock) (put : iblock → ext2 → ext2) : Prop :=
  (get = ind ∧ put = set_ind) ∨ (get = dind ∧ put = set_dind).

Lemma get_iblock_ok get put no msg b (s : ext2 * ustate K) :
  slot_of get put → fs_ok s → no ≠ 0 → dev_block (disk_of s) (geo s.1) no = Some b →
  ∃ s', get_iblock get put no msg s = Ret (Some b) s' ∧ frame s s'.
Proof.
  intros Hslot Hok Hno Hb. pose proof Hok as (Hio&Hg&Hi&Hd). unfold get_iblock.
  rewrite (bind_Ret (get_fs get) _ s (get s.1) s eq_refl).
  assert (coherent (disk_of s) (geo s.1) (get s.1)) as [Hz Hc] by (by destruct Hslot as [[-> _]|[-> _]]).
  destruct (Z.eqb_spec (cached_no (get s.1)) no) as [E|E]; cbn [negb].
  - exists s. subst no. rewrite (Hc b) by done. split; [done|by apply frame_refl].
  - rewrite (bind_Ret (get_fs geo) _ s (geo s.1) s eq_refl).
    destruct (dev_block_Some _ _ _ _ Hb) as (Hrd&Ea&Hzb). pose proof (geo_offset _ Hg).
    pose proof Hrd as (?&?&_). rewrite swrap_small by lia.
    destruct (fs_read_ok (dev (geo s.1)) (cached (get s.1)) (fs_bsize (geo s.1))
      (partition_offset (geo s.1) + no * fs_bsize (geo s.1)) s Hio) as (data&k&Er&Ed&Hk&Hdk);
      [lia|done|].
    rewrite (bind_Ret _ _ _ _ _ Er). fold (disk_of s) in Ed. rewrite Ea in Ed. injection Ed as <-.
    rewrite drop_ge, app_nil_r by (unfold zlen in *; lia).
    assert (coherent (disk_of s) (geo s.1) (IBlock no b)) as Hnew.
    { split; [done|]. cbn. intros b' _ E'. congruence. }
    eexists. cbn [mod_fs bind modify fst snd ret]. rewrite Z.eqb_refl. cbn [negb]. split; [done|].
    apply frame_read with (f := λ e, put (IBlock no b) (put (IBlock (cached_no (get s.1)) b) e));
      destruct Hslot as [[-> ->]|[-> ->]]; done.
Qed.

Lemma get_u32_Some (b : list Z) n i :
  zlen b = 4 * n → 0 <= i < n → is_Some (get_u32 b (4 * i)).
Proof.
  intros Hz Hi. unfold get_le. destruct (aslice_is_Some b (4 * i) 4) as [a ->]; [lia..|]. by eexists.
Qed.

(** *** The block map *)

Lemma pointer_ok get put no i msg p (s : ext2 * ustate K) :
  slot_of get put → fs_ok s → pointer (disk_of s) (geo s.1) no i = Some p →
  ∃ s', (if no =? 0 then ret 0
         else
           let! ib := get_iblock get put no msg in
           match ib with
           | None => ret 0
           | Some ib => let! b := entry_of ib i in ret (s32 b)
           end) s = Ret p s' ∧ frame s s'.
Proof.
  intros Hslot Hok Hp. unfold pointer_in in Hp. destruct (Z.eqb_spec no 0) as [|Hno].
  { injection Hp as <-. exists s. split; [done|by apply frame_refl]. }
  destruct (dev_block (disk_of s) (geo s.1) no) as [b|] eqn:Eb; [|done].
  destruct (get_iblock_ok get put no msg b s Hslot Hok Hno Eb) as (s'&E&Hf).
  rewrite (bind_Ret _ _ _ _ _ E). apply fmap_Some in Hp as (v&Ev&->).
  exists s'. split; [|done]. unfold entry_of. rewrite Ev. done.
Qed.

Lemma ext2_blkno_ok ip k no (s : ext2 * ustate K) :
  fs_ok s → 0 <= k <= ind2lim (geo s.1) → file_map (disk_of s) (geo s.1) ip k = Some no →
  ∃ s', ext2_blkno ip k s = Ret no s' ∧ frame s s'.
Proof.
  intros Hok Hk Hm. pose proof Hok as (_&[G1 G2 G3 G4 G5 G6]&_&_).
  unfold ext2_blkno. rewrite (bind_Ret (get_fs geo) _ s (geo s.1) s eq_refl). unfold file_map, block_map in Hm.
  set (n := ptrs_per_blk (geo s.1)) in *. rewrite G3, G4, G5 in *.
  destruct (Z.ltb_spec k 12) as [H1|H1].
  { rewrite (proj2 (Z.leb_le k 11)) by lia. apply fmap_Some in Hm as (v&Ev&->).
    rewrite Ev. exists s. split; [done|by apply frame_refl]. }
  rewrite (proj2 (Z.leb_gt k 11)) by lia.
  destruct (Z.ltb_spec k (12 + n)) as [H2|H2].
  { rewrite (proj2 (Z.leb_le k (n + 11))) by lia.
    unfold EXT2_IND_BLOCK. destruct (i_block ip 12) as [v|]; [|done]. cbn in Hm |- *.
    change (11 + 1) with 12. by apply (pointer_ok ind set_ind); [left|..]. }
  rewrite (proj2 (Z.leb_gt k (n + 11))), (proj2 (Z.leb_le k (n * n + 11))) by lia.
  rewrite (proj2 (Z.ltb_lt k (12 + n + n * n))) in Hm by lia.
  unfold EXT2_DIND_BLOCK. destruct (i_block ip 13) as [v|]; [|done]. cbn in Hm |- *.
  replace (k - (n + 11 + 1)) with (k - 12 - n) by lia.
  rewrite Z.quot_div_nonneg, Z.rem_mod_nonneg by lia.
  destruct (pointer_in _ (s32 v) _) as [ib|] eqn:Ep; [|done].
  unfold pointer_in in Ep. destruct (s32 v =? 0) eqn:E0.
  { injection Ep as <-. cbn in Hm. injection Hm as <-. exists s. split; [done|by apply frame_refl]. }
  apply Z.eqb_neq in E0. destruct (dev_block _ _ (s32 v)) as [db|] eqn:Eb; [|done].
  destruct (get_iblock_ok dind set_dind (s32 v) ("ext2_blkno: err reading dindr blk" ++ nl) db s)
    as (s1&E1&Hf1); [by right|done|done|done|].
  rewrite (bind_Ret _ _ _ _ _ E1). apply fmap_Some in Ep as (w&Ew&->).
  unfold entry_of at 1. rewrite Ew. cbn [lift_opt]. rewrite bind_ret.
  destruct (pointer_ok ind set_ind (s32 w) ((k - 12 - n) mod n) ("ext2_blkno: err on iblk read" ++ nl) no s1)
    as (s2&E2&Hf2); [by left|apply Hf1| |].
  { rewrite (frame_disk s s1 Hf1). by rewrite (proj1 (proj2 Hf1)). }
  exists s2. split; [exact E2|by eapply frame_trans].
Qed.

(** *** Runs of blocks *)

(** A run of [c] blocks that follow one another on the device. *)
Definition is_run (disk : list Z) (g : geometry) (ip : list Z) (k no c : Z) : Prop :=
  ∀ j, 0 < j < c → file_map disk g ip (k + j) = Some (no + j).

Lemma contiguous_ok ip no fl k n : ∀ c (s : ext2 * ustate K) bytes,
  let g := geo s.1 in
  fs_ok s → 0 <= k → 0 <= c < n → k + n - 1 <= ind2lim g → k + n < 2 ^ 31 →
  (∀ j, 0 <= j < n → is_Some (file_map (disk_of s) g ip (k + j))) →
  is_run (disk_of s) g ip k no (c + 1) → bytes = c * fs_bsize g → (Z.to_nat (n - c) <= fl)%nat →
  ∃ c' s', loop fl (λ '(blkno, ncontig, nblks, nbytes),
      let blkno := blkno + 1 in
      let ncontig := ncontig + 1 in
      let nblks := nblks - 1 in
      let nbytes := nbytes + fs_bsize g in
      if nblks =? 0 then ret (inr (blkno, ncontig, nblks, nbytes))
      else
        let! b := ext2_blkno ip (s32 blkno) in
        ret (if b =? no + ncontig then inl (blkno, ncontig, nblks, nbytes)
             else inr (blkno, ncontig, nblks, nbytes))) (k + c, c, n - c, bytes) s
      = Ret (k + c', c', n - c', c' * fs_bsize g) s' ∧
    frame s s' ∧ c < c' <= n ∧ is_run (disk_of s) g ip k no c'.
Proof.
  induction fl as [|fl IH]; intros c s bytes g Hok Hk Hc Hlim H31 Hall Hrun Eb Hf; [lia|].
  destruct (Z.eqb_spec (n - c - 1) 0) as [E|E].
  - exists (c + 1), s. rewrite (loop_exit _ _ _ _ (k + c + 1, c + 1, n - c - 1, bytes + fs_bsize g) s).
    + subst bytes. split; [by rewrite Z.add_assoc, Z.sub_add_distr, Z.mul_add_distr_r, Z.mul_1_l|].
      split; [by apply frame_refl|]. split; [lia|done].
    + cbv beta iota zeta. by rewrite (proj2 (Z.eqb_eq _ 0)) by done.
  - destruct (Hall (c + 1)) as [b Hb]; [lia|].
    destruct (ext2_blkno_ok ip (k + (c + 1)) b s Hok) as (s1&E1&Hf1); [subst g; lia|done|].
    assert (s32 (k + c + 1) = k + (c + 1)) as Es by (rewrite swrap_small; lia).
    destruct (Z.eqb_spec b (no + (c + 1))) as [Hn|Hn].
    + destruct (IH (c + 1) s1 (bytes + fs_bsize g)) as (c'&s2&E2&Hf2&Hc'&Hr').
      * apply Hf1.
      * done.
      * lia.
      * rewrite (proj1 (proj2 Hf1)). done.
      * done.
      * rewrite (frame_disk _ _ Hf1), (proj1 (proj2 Hf1)). done.
      * rewrite (frame_disk _ _ Hf1), (proj1 (proj2 Hf1)). fold g. intros j Hj.
        destruct (decide (j = c + 1)) as [->|]; [by rewrite Hb, Hn|]. apply Hrun. lia.
      * rewrite (proj1 (proj2 Hf1)). subst bytes. fold g. lia.
      * lia.
      * rewrite (frame_disk _ _ Hf1), (proj1 (proj2 Hf1)) in *. fold g in E2, Hr'.
        exists c', s2. split; [|split; [by eapply frame_trans|split; [lia|done]]].
        rewrite (loop_step _ _ _ _ (k + (c + 1), c + 1, n - (c + 1), bytes + fs_bsize g) s1); [exact E2|].
        cbv beta iota zeta. rewrite (proj2 (Z.eqb_neq _ 0)) by done. rewrite Es, (bind_Ret _ _ _ _ _ E1).
        rewrite (proj2 (Z.eqb_eq _ _) Hn). by rewrite Z.add_assoc, Z.sub_add_distr.
    + exists (c + 1), s1. rewrite (loop_exit _ _ _ _ (k + c + 1, c + 1, n - c - 1, bytes + fs_bsize g) s1).
      * subst bytes. split; [by rewrite Z.add_assoc, Z.sub_add_distr, Z.mul_add_distr_r, Z.mul_1_l|].
        split; [done|]. split; [lia|done].
      * cbv beta iota zeta. rewrite (proj2 (Z.eqb_neq _ 0)) by done. rewrite Es, (bind_Ret _ _ _ _ _ E1).
        by rewrite (proj2 (Z.eqb_neq _ _) Hn).
Qed.

(** The blocks of a run are one piece of the device. *)
Lemma run_slice disk g ip no : ∀ c k,
  0 < fs_bsize g → no ≠ 0 → 0 <= no → file_map disk g ip k = Some no →
  is_run disk g ip k no (Z.of_nat (S c)) →
  ∀ data, file_blocks disk g ip k (S c) = Some data →
    aslice disk (partition_offset g + no * fs_bsize g) (Z.of_nat (S c) * fs_bsize g) = Some data ∧
    readable disk (partition_offset g + no * fs_bsize g) (Z.of_nat (S c) * fs_bsize g).
Proof.
  intros c. revert no. induction c as [|c IH]; intros no k Hbs Hno Hno0 Hm Hrun data Hd.
  - cbn [blocks_from] in Hd. unfold file_block in Hd. rewrite Hm in Hd.
    rewrite (proj2 (Z.eqb_neq no 0)) in Hd by done.
    destruct (dev_block disk g no) as [b|] eqn:Eb; [|done]. injection Hd as <-.
    destruct (dev_block_Some _ _ _ _ Eb) as (Hr&Ha&_). rewrite app_nil_r.
    change (Z.of_nat 1) with 1. by rewrite Z.mul_1_l.
  - cbn [blocks_from] in Hd. destruct (file_block disk g ip k) as [b|] eqn:Eb; [|done].
    destruct (file_blocks disk g ip (k + 1) (S c)) as [bs|] eqn:Ebs.
    2:{ cbn [blocks_from] in Ebs. rewrite Ebs in Hd. done. }
    assert (data = b ++ bs) as ->.
    { cbn [blocks_from] in Ebs. rewrite Ebs in Hd. congruence. }
    unfold file_block in Eb. rewrite Hm, (proj2 (Z.eqb_neq no 0)) in Eb by done.
    destruct (dev_block_Some _ _ _ _ Eb) as (Hr&Ha&_).
    destruct (IH (no + 1) (k + 1)) with (data := bs) as [Ha2 Hr2]; try done; try lia.
    + apply Hrun. lia.
    + intros j Hj. replace (k + 1 + j) with (k + (j + 1)) by lia. rewrite Hrun by lia. f_equal. lia.
    + replace (partition_offset g + (no + 1) * fs_bsize g)
        with (partition_offset g + no * fs_bsize g + fs_bsize g) in Ha2, Hr2 by lia.
      replace (Z.of_nat (S (S c)) * fs_bsize g) with (fs_bsize g + Z.of_nat (S c) * fs_bsize g) by lia.
      split; [by eapply aslice_join|]. destruct Hr as (?&?&_), Hr2 as (?&?&Hr2).
      split; [lia|]. split; [lia|by rewrite Z.add_assoc].
Qed.

Lemma file_block_len disk g ip k b : 0 < fs_bsize g → file_block disk g ip k = Some b → zlen b = fs_bsize g.
Proof.
  intros Hbs. unfold file_block. destruct (file_map disk g ip k) as [no|]; [|done].
  destruct (no =? 0).
  - intros [= <-]. unfold zlen. rewrite length_replicate. lia.
  - intros E. by apply dev_block_Some in E as (_&_&?).
Qed.

Lemma file_blocks_len disk g ip n k data : 0 < fs_bsize g →
  file_blocks disk g ip k n = Some data → zlen data = Z.of_nat n * fs_bsize g.
Proof. intros Hbs. apply blocks_from_len. intros j b. by apply file_block_len. Qed.

Lemma file_blocks_map disk g ip n k data j : file_blocks disk g ip k n = Some data →
  0 <= j < Z.of_nat n → is_Some (file_map disk g ip (k + j)).
Proof.
  intros Hd Hj. destruct (blocks_from_at _ _ _ _ _ Hd Hj) as [b Hb]. unfold file_block in Hb.
  by destruct (file_map disk g ip (k + j)).
Qed.

(** Block pointers as a sound file has them: not beyond 2^31, and none to
    block 1, which the superblock or the group descriptors occupy. *)
Definition plain_map (disk : list Z) (g : geometry) (ip : list Z) (k n : Z) : Prop :=
  ∀ j no, 0 <= j < n → file_map disk g ip (k + j) = Some no → 0 <= no ∧ no ≠ 1.

(** One run: the bytes of its blocks are stored behind those read before. *)
Lemma breadi_run ip k n (s : ext2 * ustate K) buf0 done_ data :
  let g := geo s.1 in
  fs_ok s → 0 <= k → 0 < n → k + n - 1 <= ind2lim g → k + n < 2 ^ 31 → (Z.to_nat n <= fuel)%nat →
  file_blocks (disk_of s) g ip k (Z.to_nat n) = Some data → plain_map (disk_of s) g ip k n →
  zlen done_ + n * fs_bsize g <= zlen buf0 →
  ∃ c s' d1, breadi_step fuel ip (k, n, zlen done_, done_ ++ drop (Z.to_nat (zlen done_)) buf0) s
      = Ret (inl (k + c, n - c, zlen (done_ ++ d1), (done_ ++ d1) ++ drop (Z.to_nat (zlen (done_ ++ d1))) buf0)) s' ∧
    frame s s' ∧ 0 < c <= n ∧ file_blocks (disk_of s) g ip k (Z.to_nat c) = Some d1.
Proof.
  intros g Hok Hk Hn Hlim H31 Hfl Hd Hplain Hbuf. pose proof Hok as (_&Hg&_&_).
  assert (0 < fs_bsize g) as Hbs by (destruct Hg; subst g; lia).
  destruct (file_blocks_map _ _ _ _ _ _ 0 Hd) as [no Hno]; [lia|]. rewrite Z.add_0_r in Hno.
  destruct (ext2_blkno_ok ip k no s Hok) as (s1&E1&Hf1); [fold g; lia|done|].
  pose proof (frame_disk _ _ Hf1) as Ed1. pose proof (proj1 (proj2 Hf1)) as Eg1.
  destruct (contiguous_ok ip no fuel k n 0 s1 0) as (c&s2&E2&Hf2&Hc&Hrun).
  { apply Hf1. }
  { done. }
  { lia. }
  { rewrite Eg1. done. }
  { done. }
  { rewrite Ed1, Eg1. intros j Hj. eapply file_blocks_map; [exact Hd|lia]. }
  { intros j Hj. lia. }
  { lia. }
  { lia. }
  rewrite Ed1, Eg1 in Hrun. rewrite Z.add_0_r, Z.sub_0_r in E2. fold g in Hrun.
  assert (frame s s2) as Hf by (by eapply frame_trans).
  pose proof (frame_disk _ _ Hf) as Ed2. pose proof (proj1 (proj2 Hf)) as Eg2.
  replace (Z.to_nat n) with (Z.to_nat c + Z.to_nat (n - c))%nat in Hd by lia.
  destruct (blocks_from_add _ _ _ _ _ Hd) as (d1&d2&Hd1&_&->).
  pose proof (file_blocks_len _ _ _ _ _ _ Hbs Hd1) as Hz1. rewrite Z2Nat.id in Hz1 by lia.
  pose proof (zlen_nonneg done_) as Hz0.
  set (buf := done_ ++ drop (Z.to_nat (zlen done_)) buf0).
  assert (zlen buf = zlen buf0) as Hzb by (subst buf; rewrite zlen_app, zlen_drop; nia).
  assert (zlen done_ + c * fs_bsize g <= zlen buf0) as Hfit by nia.
  unfold breadi_step. rewrite (proj2 (Z.eqb_neq n 0)) by lia.
  rewrite (bind_Ret (get_fs geo) _ s g s eq_refl). rewrite (swrap_small 32 ltac:(lia) k) by lia.
  rewrite (bind_Ret _ _ _ _ _ E1).
  assert (contiguous fuel ip no (fs_bsize g) k n s1 = Ret (k + c, c, n - c, c * fs_bsize g) s2) as E2'.
  { rewrite Eg1 in E2. exact E2. }
  rewrite (bind_Ret _ _ _ _ _ E2').
  assert (Ret (St := ext2 * ustate K) (inl (B := Z * list Z) (k + c, n - c, zlen done_ + c * fs_bsize g,
      (done_ ++ d1) ++ drop (Z.to_nat (zlen done_ + c * fs_bsize g)) buf0))
    = Ret (inl (k + c, n - c, zlen (done_ ++ d1), (done_ ++ d1) ++ drop (Z.to_nat (zlen (done_ ++ d1))) buf0)))
    as Eres by (by rewrite zlen_app, Hz1).
  destruct (Z.eqb_spec no 0) as [E0|E0].
  - (* a hole: the run has one block *)
    assert (c = 1) as ->.
    { destruct (decide (c = 1)) as [|Hc1]; [done|]. specialize (Hrun 1 ltac:(lia)). rewrite E0 in Hrun.
      by destruct (Hplain 1 1 ltac:(lia) Hrun). }
    assert (d1 = replicate (Z.to_nat (1 * fs_bsize g)) 0) as ->.
    { change (Z.to_nat 1) with 1%nat in Hd1. cbn [blocks_from] in Hd1. unfold file_block in Hd1.
      rewrite Hno, E0 in Hd1. change (0 =? 0) with true in Hd1. cbv iota in Hd1.
      injection Hd1 as <-. by rewrite app_nil_r, Z.mul_1_l. }
    unfold buf. rewrite asplice_behind by (rewrite ?Hz1; lia). cbn [lift_opt]. rewrite bind_ret.
    exists 1, s2, (replicate (Z.to_nat (1 * fs_bsize g)) 0). rewrite <- Eres, Hz1.
    split; [done|]. split; [done|]. split; [lia|done].
  - assert (0 <= no) as Hno0 by (destruct (Hplain 0 no) as [? _]; rewrite ?Z.add_0_r; [lia|done|done]).
    destruct (run_slice (disk_of s) g ip no (Z.to_nat (c - 1)) k) with (data := d1) as [Ha Hr]; try done.
    { replace (Z.of_nat (S (Z.to_nat (c - 1)))) with c by lia. done. }
    { by replace (S (Z.to_nat (c - 1))) with (Z.to_nat c) by lia. }
    replace (Z.of_nat (S (Z.to_nat (c - 1)))) with c in Ha, Hr by lia.
    pose proof Hr as ((Ho0&Ho1)&_). rewrite swrap_small by lia.
    unfold read_at. rewrite bind_bind.
    rewrite (bind_Ret (get_fs (λ s, dev (geo s))) _ s2 (dev g) s2) by (unfold get_fs, gets; by rewrite Eg2).
    destruct (aslice_is_Some buf (zlen done_) (zlen buf - zlen done_)) as [sub Esub]; [lia|nia|lia|].
    rewrite Esub, bind_bind. cbn [lift_opt]. rewrite bind_ret, bind_bind.
    pose proof (aslice_len _ _ _ _ Esub) as Hzs.
    assert (sub = drop (Z.to_nat (zlen done_)) buf0) as ->.
    { apply aslice_Some in Esub as (_&_&_&->). subst buf.
      replace (Z.to_nat (zlen done_)) with (length done_) at 2 by (unfold zlen; lia).
      rewrite drop_app_length. apply take_ge. rewrite length_drop. unfold zlen in *. lia. }
    destruct (fs_read_ok (dev g) (drop (Z.to_nat (zlen done_)) buf0) (c * fs_bsize g)
      (partition_offset g + no * fs_bsize g) s2) as (dat&kk&Er&Ea&Hkk&Hdk).
    { apply Hf. }
    { nia. }
    { rewrite (proj1 (proj2 (proj2 (proj2 (proj2 (proj2 (proj2 (proj2 Hf)))))))). exact Hr. }
    rewrite (bind_Ret _ _ _ _ _ Er). cbn [ret bind].
    rewrite (proj1 (proj2 (proj2 (proj2 (proj2 (proj2 (proj2 (proj2 Hf)))))))) in Ea, Hdk.
    fold (disk_of s) in Ea. change (io_disk (u_con s.2) (dev g)) with (disk_of s) in Ea.
    rewrite Ha in Ea. injection Ea as <-. rewrite Z.eqb_refl. cbn [negb].
    eexists c, _, d1. rewrite <- Eres. split.
    { f_equal. f_equal. f_equal. subst buf.
      replace (Z.to_nat (zlen done_)) with (length done_) at 1 by (unfold zlen; lia).
      rewrite take_app_length, drop_drop, app_assoc. do 2 f_equal. lia. }
    split; [|by split].
    eapply frame_trans; [exact Hf|]. apply (frame_read s2 id); try done; try apply Hf.
    rewrite Hdk. symmetry. apply (proj1 (proj2 (proj2 (proj2 (proj2 (proj2 (proj2 (proj2 Hf)))))))).
Qed.

Lemma plain_map_rest disk g ip k n c : plain_map disk g ip k n → 0 <= c <= n → plain_map disk g ip (k + c) (n - c).
Proof.
  intros Hp Hc j no Hj E. replace (k + c + j) with (k + (c + j)) in E by lia. apply (Hp (c + j) no); [lia|done].
Qed.

Lemma breadi_loop ip fl : ∀ k n (s : ext2 * ustate K) buf0 done_ data,
  let g := geo s.1 in
  fs_ok s → 0 <= k → 0 <= n → k + n - 1 <= ind2lim g → k + n < 2 ^ 31 → (Z.to_nat n <= fuel)%nat →
  file_blocks (disk_of s) g ip k (Z.to_nat n) = Some data → plain_map (disk_of s) g ip k n →
  zlen done_ + n * fs_bsize g <= zlen buf0 → zlen done_ + n * fs_bsize g < 2 ^ 31 → (Z.to_nat n < fl)%nat →
  ∃ s', loop fl (breadi_step fuel ip) (k, n, zlen done_, done_ ++ drop (Z.to_nat (zlen done_)) buf0) s
      = Ret (zlen (done_ ++ data), (done_ ++ data) ++ drop (Z.to_nat (zlen (done_ ++ data))) buf0) s' ∧
    frame s s'.
Proof.
  induction fl as [|fl IH]; intros k n s buf0 done_ data g Hok Hk Hn Hlim H31 Hfl Hd Hplain Hbuf Hint Hlt; [lia|].
  pose proof (zlen_nonneg done_). assert (0 < fs_bsize g) as Hbs by (destruct Hok as (_&[]&_); subst g; lia).
  destruct (decide (n = 0)) as [->|Hn0].
  - injection Hd as <-. exists s. rewrite app_nil_r. split; [|by apply frame_refl].
    apply loop_exit. unfold breadi_step. change (0 =? 0) with true. cbv iota.
    by rewrite swrap_small by lia.
  - destruct (breadi_run ip k n s buf0 done_ data) as (c&s1&d1&E1&Hf1&Hc&Hd1); try done; [lia|].
    rewrite (loop_step _ _ _ _ _ _ E1). pose proof (frame_disk _ _ Hf1) as Ed1.
    pose proof (proj1 (proj2 Hf1)) as Eg1.
    replace (Z.to_nat n) with (Z.to_nat c + Z.to_nat (n - c))%nat in Hd by lia.
    destruct (blocks_from_add _ _ _ _ _ Hd) as (d1'&d2&Hd1'&Hd2&->).
    fold g in Hd1. assert (d1' = d1) as -> by congruence.
    rewrite Z2Nat.id in Hd2 by lia. pose proof (file_blocks_len _ _ _ _ _ _ Hbs Hd1) as Hz1.
    rewrite Z2Nat.id in Hz1 by lia.
    destruct (IH (k + c) (n - c) s1 buf0 (done_ ++ d1) d2) as (s2&E2&Hf2).
    + apply Hf1.
    + lia.
    + lia.
    + rewrite Eg1. fold g. lia.
    + lia.
    + lia.
    + by rewrite Ed1, Eg1.
    + rewrite Ed1, Eg1. apply plain_map_rest; [done|lia].
    + rewrite Eg1, zlen_app, Hz1. fold g. nia.
    + rewrite Eg1, zlen_app, Hz1. fold g. nia.
    + lia.
    + exists s2. rewrite app_assoc. split; [exact E2|by eapply frame_trans].
Qed.

(** The blocks a request stands for: all of them, or, when it goes beyond the
    size of the file, those up to the block behind its last full one. *)
Definition effective (g : geometry) (size k n : Z) : Z :=
  if size <? (k + n) * fs_bsize g then (size + fs_bsize g) / fs_bsize g - k else n.

Lemma ext2_breadi_ok ip flags size k n (s : ext2 * ustate K) buf data :
  let g := geo s.1 in let m := effective g size k n in
  fs_ok s → i_flags ip = Some flags → Z.land flags EXT4_EXTENTS_FL = 0 →
  i_size ip = Some size → 0 <= size → size + fs_bsize g < 2 ^ 32 →
  0 <= k → 0 <= m → k + m - 1 <= ind2lim g → k + m < 2 ^ 31 → m * fs_bsize g < 2 ^ 31 →
  (Z.to_nat m < fuel)%nat → m * fs_bsize g <= zlen buf → plain_map (disk_of s) g ip k m →
  file_blocks (disk_of s) g ip k (Z.to_nat m) = Some data →
  ∃ s', ext2_breadi fuel ip k n buf s =
      Ret (m * fs_bsize g, data ++ drop (Z.to_nat (m * fs_bsize g)) buf) s' ∧ frame s s'.
Proof.
  intros g m Hok Efl Hfl Esz Hsz H32 Hk Hm Hlim H31 Hint Hfuel Hbuf Hplain Hd.
  pose proof Hok as (_&Hg&_). assert (0 < fs_bsize g < 2 ^ 17) as Hbs by (destruct Hg; subst g; lia).
  unfold ext2_breadi. rewrite Efl, Esz. cbn [lift_opt]. rewrite bind_ret, Hfl. change (negb (0 =? 0)) with false.
  cbv iota. rewrite (bind_Ret (get_fs geo) _ s g s eq_refl), bind_ret.
  rewrite (proj2 (Z.eqb_neq _ 0)) by lia. rewrite (wrap_small 32 (size + _)), (wrap_small 32 (fs_bsize g)) by lia.
  fold (effective g size k n). fold m.
  destruct (breadi_loop ip fuel k m s buf [] data) as (s'&E&Hf); try done.
  - change (zlen (@nil Z)) with 0. fold g. lia.
  - exists s'. split; [|done]. cbn [app] in E. change (zlen (@nil Z)) with 0 in E.
    change (drop (Z.to_nat 0) buf) with buf in E.
    assert (zlen data = m * fs_bsize g) as Hz.
    { rewrite (file_blocks_len _ _ _ _ _ _ (proj1 Hbs) Hd). rewrite Z2Nat.id by lia. done. }
    by rewrite Hz in E.
Qed.
End ext2_read.

(** ** A file system to read

    Twenty blocks of 1024 bytes: the superblock, one group, sixteen inodes, the
    root directory with the file "kernel" (inode 11, fourteen blocks with a hole
    and an indirect block) and the symbolic link "link" to it. *)

Definition ex_block (fields : list (Z * list Z)) : list Z :=
  fold_left (λ b f, default b (asplice b f.1 f.2)) fields (replicate 1024 0).

Definition ex_dirent (ino len : Z) (name : string) : list Z :=
  le_bytes 4 ino ++ le_bytes 2 len ++ [Z.of_nat (String.length name); 0] ++ str name.

Definition ex_disk : list Z :=
  replicate 1024 0 ++
  ex_block [(4, le_bytes 4 20); (20, le_bytes 4 1); (32, le_bytes 4 8192); (40, le_bytes 4 16);
            (56, le_bytes 2 EXT2_SUPER_MAGIC)] ++
  ex_block [(8, le_bytes 4 3)] ++
  ex_block [(128, le_bytes 2 0x41ed); (128 + 4, le_bytes 4 1024); (128 + 28, le_bytes 4 2);
            (128 + 40, le_bytes 4 5)] ++
  ex_block [(256, le_bytes 2 0x81a4); (256 + 4, le_bytes 4 13412); (256 + 28, le_bytes 4 28);
            (256 + 40, concat (map (le_bytes 4) [6; 7; 8; 0; 9; 10; 11; 12; 13; 14; 15; 16; 17]));
            (384, le_bytes 2 0xa1ff); (384 + 4, le_bytes 4 6); (384 + 40, str "kernel")] ++
  ex_block [(0, ex_dirent 2 12 "."); (12, ex_dirent 2 12 ".."); (24, ex_dirent 11 16 "kernel");
            (40, ex_dirent 12 984 "link")] ++
  concat (map (λ b, replicate 1024 b) [6; 7; 8; 9; 10; 11; 12; 13; 14; 15; 16]) ++
  ex_block [(0, le_bytes 4 18); (4, le_bytes 4 19)] ++
  replicate 1024 18 ++ replicate 1024 19.

Definition ex_con : cstate refcon :=
  CState (RefCon [] [] 0 (λ d, if d =? 1 then ex_disk else []) (λ _, None)) 0
    (replicate 512 0) (replicate 1024 0).

Definition ex_ustate : ustate (cstate refcon) :=
  UState ex_con example_clusters 8192 0 (page_offset + 0x310000).

(** The state after mounting it, and the inode of the file. *)
Definition ex_io : ConsIO (cstate refcon) := cons_io 2000.

Definition ex_mounted : ext2 * ustate (cstate refcon) :=
  match ext2_mount (H := ex_io) 1 0 0 (ext2_init, ex_ustate) with
  | Ret _ s => s
  | _ => (ext2_init, ex_ustate)
  end.

Definition ex_inode : list Z := default [] (aslice ex_disk (4 * 1024 + 256) 128).

Definition ex_data : list Z :=
  default [] (file_blocks ex_disk (geo ex_mounted.1) ex_inode 2 12).

Lemma plain_map_check disk g ip k n :
  forallb (λ j, match file_map disk g ip (k + j) with
                | Some no => (0 <=? no) && negb (no =? 1) | None => true end) (seqZ 0 n) = true →
  plain_map disk g ip k n.
Proof.
  intros HF j no Hj E. rewrite forallb_forall in HF. specialize (HF j). rewrite E in HF.
  assert ((0 <=? no) && negb (no =? 1) = true) as Hb by (apply HF, list_elem_of_In, elem_of_seqZ; lia).
  apply andb_true_iff in Hb as [H1%Z.leb_le H2%negb_true_iff%Z.eqb_neq]. done.
Qed.

Definition ex_laws : @ConsIOLaws (cstate refcon) ex_io := cons_io_laws 2000.

(** Everything [fs_ok] asks of the mounted example, by computation. *)
Lemma ex_mounted_ok : fs_ok (HL := ex_laws) ex_mounted.
Proof.
  split; [split; [vm_compute; reflexivity|split; [vm_compute; reflexivity|apply Nat.ltb_lt; vm_compute; reflexivity]]|]. split.
  { split; vm_compute; try (split; discriminate || reflexivity); reflexivity. }
  split; (split; [vm_compute; reflexivity|]); intros b _ E; vm_compute in E; discriminate.
Defined.

(** ** The theorems *)

(** C13: the block map. For every block number the code handles, [ext2_blkno]
    returns what the direct, indirect and double-indirect pointers on the disk
    say (0 for a hole), through whatever its two cached blocks hold, and changes
    nothing but them. *)
Theorem ext2_blkno_maps {K} `{HL : ConsIOLaws K} ip k no (s : ext2 * ustate K) :
  fs_ok s → 0 <= k <= ind2lim (geo s.1) → file_map (disk_of s) (geo s.1) ip k = Some no →
  ∃ s', ext2_blkno ip k s = Ret no s' ∧ frame s s'.
Proof. apply ext2_blkno_ok. Qed.

Lemma ext2_blkno_maps_witness :
  ∃ s', ext2_blkno (H := ex_io) ex_inode 13 ex_mounted = Ret 19 s' ∧ frame (HL := ex_laws) ex_mounted s'.
Proof.
  apply (ext2_blkno_maps (HL := ex_laws) ex_inode 13 19 ex_mounted).
  - exact ex_mounted_ok.
  - vm_compute. split; discriminate.
  - vm_compute. reflexivity.
Defined.

(** C7: reading a file. [ext2_breadi], which reads runs of blocks that follow
    one another on the device with one call each, returns the bytes of the
    blocks asked for: those of the device, zeros for holes, in the order of the
    file, cut off behind the block that holds the end of the file. [plain_map]
    excludes pointers to block 1, which would be taken for a hole's neighbour. *)
Theorem ext2_breadi_reads {K} `{HL : ConsIOLaws K} fuel ip flags size k n (s : ext2 * ustate K) buf data :
  let g := geo s.1 in let m := effective g size k n in
  fs_ok s → i_flags ip = Some flags → Z.land flags EXT4_EXTENTS_FL = 0 →
  i_size ip = Some size → 0 <= size → size + fs_bsize g < 2 ^ 32 →
  0 <= k → 0 <= m → k + m - 1 <= ind2lim g → k + m < 2 ^ 31 → m * fs_bsize g < 2 ^ 31 →
  (Z.to_nat m < fuel)%nat → m * fs_bsize g <= zlen buf → plain_map (disk_of s) g ip k m →
  file_blocks (disk_of s) g ip k (Z.to_nat m) = Some data →
  ∃ s', ext2_breadi fuel ip k n buf s =
      Ret (m * fs_bsize g, data ++ drop (Z.to_nat (m * fs_bsize g)) buf) s' ∧ frame s s'.
Proof. apply ext2_breadi_ok. Qed.

Lemma ext2_breadi_reads_witness :
  ∃ s', ext2_breadi (H := ex_io) 20 ex_inode 2 30 (replicate 13000 7) ex_mounted =
      Ret (12288, ex_data ++ drop (Z.to_nat 12288) (replicate 13000 7)) s' ∧
    frame (HL := ex_laws) ex_mounted s'.
Proof.
  refine (ext2_breadi_reads (HL := ex_laws) 20 ex_inode 0 13412 2 30 ex_mounted (replicate 13000 7)
    ex_data _ _ _ _ _ _ _ _ _ _ _ _ _ _ _).
  - exact ex_mounted_ok.
  - vm_compute. reflexivity.
  - reflexivity.
  - vm_compute. reflexivity.
  - lia.
  - vm_compute. reflexivity.
  - lia.
  - vm_compute. discriminate.
  - vm_compute. discriminate.
  - vm_compute. reflexivity.
  - vm_compute. reflexivity.
  - apply (bool_decide_unpack _). vm_compute. exact I.
  - vm_compute. discriminate.
  - apply plain_map_check. vm_compute. reflexivity.
  - apply (bool_decide_unpack _). vm_compute. exact I.
Defined.

(** ** What goes wrong *)

Section ext2_findings.
Context {K : Type} `{ConsIO K}.

Lemma on_ustate_fs {A} (m : M (ustate K) A) (s : ext2 * ustate K) a s' :
  on_ustate m s = Ret a s' → s'.1 = s.1.
Proof. unfold on_ustate. destruct (m s.2); [|done..]. by intros [= _ <-]. Qed.

Lemma fs_printf_fs fmt args (s : ext2 * ustate K) a s' : fs_printf fmt args s = Ret a s' → s'.1 = s.1.
Proof. intros (x&s1&E&E2)%bind_inv. injection E2 as _ <-. by apply on_ustate_fs in E. Qed.

Lemma mod_fs_inv (f : ext2 → ext2) (s : ext2 * ustate K) a s' : mod_fs f s = Ret a s' → s' = (f s.1, s.2).
Proof. by intros [= _ <-]. Qed.

Lemma new_block_inv put (s : ext2 * ustate K) a s' : new_block put s = Ret a s' →
  s'.1 = put (replicate (Z.to_nat (fs_bsize (geo s.1))) 0) s.1.
Proof.
  intros (bs&s1&[= <- <-]&E)%bind_inv. apply bind_inv in E as (p&s2&E1%on_ustate_fs&E2%mod_fs_inv).
  rewrite E2, E1. done.
Qed.

(** A mount that succeeds left the numbers of the cached blocks and replaced
    their contents. *)
Lemma ext2_mount_caches d off quiet (s s' : ext2 * ustate K) :
  ext2_mount d off quiet s = Ret 0 s' →
  cached_no (ind s'.1) = cached_no (ind s.1) ∧ cached_no (dind s'.1) = cached_no (dind s.1) ∧
  cached (ind s'.1) = replicate (Z.to_nat (fs_bsize (geo s'.1))) 0 ∧
  cached (dind s'.1) = replicate (Z.to_nat (fs_bsize (geo s'.1))) 0.
Proof.
  unfold ext2_mount. intros E.
  apply bind_inv in E as (?&s1&E1%mod_fs_inv&E). apply bind_inv in E as (?&s2&E2%mod_fs_inv&E).
  apply bind_inv in E as (?&s3&E3%mod_fs_inv&E). apply bind_inv in E as (?&s4&[= <- <-]&E).
  apply bind_inv in E as ([r sbuf]&s5&E5%on_ustate_fs&E). apply bind_inv in E as (?&s6&E6%mod_fs_inv&E).
  assert (ind s6.1 = ind s.1 ∧ dind s6.1 = dind s.1) as [I6 D6]
    by (rewrite E6; cbn; rewrite E5, E3; cbn; by rewrite E2, E1).
  destruct (negb (r =? sizeof_sb)).
  { apply bind_inv in E as (?&?&_&E). done. }
  apply bind_inv in E as (magic&s7&[_ ->]%lift_opt_Ret&E).
  destruct (negb (magic =? EXT2_SUPER_MAGIC)).
  { apply bind_inv in E as (?&?&_&E). done. }
  apply bind_inv in E as (count&s8&[_ ->]%lift_opt_Ret&E).
  apply bind_inv in E as (fst_&s9&[_ ->]%lift_opt_Ret&E).
  apply bind_inv in E as (bpg&s10&[_ ->]%lift_opt_Ret&E).
  apply bind_inv in E as (log&s11&[_ ->]%lift_opt_Ret&E).
  destruct ((bpg =? 0) || (32 <=? log)); [done|]. cbv zeta in E.
  apply bind_inv in E as (?&s12&E12%on_ustate_fs&E). apply bind_inv in E as (?&s13&E13%mod_fs_inv&E).
  apply bind_inv in E as (?&s14&E14%new_block_inv&E). apply bind_inv in E as (?&s15&E15%new_block_inv&E).
  apply bind_inv in E as (?&s16&E16%new_block_inv&E).
  destruct (_ =? 0); [done|].
  apply bind_inv in E as (?&s17&[= <- <-]&E). apply bind_inv in E as ([? gbuf]&s18&E18%on_ustate_fs&E).
  apply bind_inv in E as (?&s19&E19%mod_fs_inv&E). injection E as <-.
  rewrite E19. cbn [fst set_geo ind dind geo fs_bsize]. rewrite E18, E16. cbn. rewrite E15. cbn.
  rewrite E14. cbn. rewrite E13. cbn. rewrite E12, I6, D6. done.
Qed.

Lemma ext2_blkno_beyond ip k (s : ext2 * ustate K) r s' :
  directlim (geo s.1) < k → ind1lim (geo s.1) < k → ind2lim (geo s.1) < k →
  ext2_blkno ip k s = Ret r s' → r = 0.
Proof.
  intros H1 H2 H3. unfold ext2_blkno. rewrite (bind_Ret (get_fs geo) _ s (geo s.1) s eq_refl).
  rewrite !(proj2 (Z.leb_gt _ _)) by lia. intros (?&?&_&E)%bind_inv. by injection E as <- _.
Qed.
End ext2_findings.

(** Mounting a second time. [ext2_mount] allocates new buffers for the
    cached indirect blocks but keeps their numbers, so the map of a file whose
    indirect block is the one used last before the mount is read from the new,
    empty buffer: every block reached through it is a hole. *)
Theorem ext2_remount_stale {K} `{ConsIO K} d poff quiet ip k no (s s' : ext2 * ustate K) :
  ext2_mount d poff quiet s = Ret 0 s' → geo_ok (geo s'.1) → no ≠ 0 →
  cached_no (ind s.1) = no → i_block ip 12 = Some (u32 no) → s32 (u32 no) = no →
  12 <= k <= ind1lim (geo s'.1) →
  ext2_blkno ip k s' = Ret 0 s'.
Proof.
  intros E [G1 G2 G3 G4 G5 G6] Hno Hc Hip Hs Hk. destruct (ext2_mount_caches _ _ _ _ _ E) as (Ei&_&Eb&_).
  unfold ext2_blkno. rewrite (bind_Ret (get_fs geo) _ s' (geo s'.1) s' eq_refl).
  rewrite G3. rewrite (proj2 (Z.leb_gt k 11)), (proj2 (Z.leb_le k _)) by lia.
  unfold EXT2_IND_BLOCK. rewrite Hip. cbn [lift_opt]. rewrite bind_ret, Hs, (proj2 (Z.eqb_neq no 0)) by done.
  rewrite (bind_Ret (get_iblock ind set_ind no _) _ s' (Some (cached (ind s'.1))) s').
  2:{ unfold get_iblock. rewrite (bind_Ret (get_fs ind) _ s' (ind s'.1) s' eq_refl).
      by rewrite Ei, Hc, Z.eqb_refl. }
  rewrite Eb. unfold entry_of.
  assert (get_u32 (replicate (Z.to_nat (fs_bsize (geo s'.1))) 0) (4 * (k - (11 + 1))) = Some 0) as ->; [|done].
  unfold get_le. set (off := 4 * (k - (11 + 1))). set (l := replicate _ 0).
  assert (zlen l = fs_bsize (geo s'.1)) as Hz by (subst l; unfold zlen; rewrite length_replicate; lia).
  destruct (aslice_is_Some l off 4) as [a Ea]; [subst off; lia..|]. rewrite Ea.
  assert (a = [0; 0; 0; 0]) as ->; [|done].
  apply aslice_Some in Ea as (_&_&_&->). subst l. rewrite drop_replicate, take_replicate.
  replace (_ `min` _)%nat with 4%nat; [done|]. subst off. lia.
Qed.

(* after reading block 13 of the file, and after mounting again *)
Definition ex_used : ext2 * ustate (cstate refcon) :=
  match ext2_blkno (H := ex_io) ex_inode 13 ex_mounted with Ret _ s => s | _ => ex_mounted end.

Definition ex_again : ext2 * ustate (cstate refcon) :=
  match ext2_mount (H := ex_io) 1 0 0 ex_used with Ret _ s => s | _ => ex_used end.

Lemma ext2_remount_stale_witness : ext2_blkno (H := ex_io) ex_inode 13 ex_again = Ret 0 ex_again.
Proof.
  apply (ext2_remount_stale (H := ex_io) 1 0 0 ex_inode 13 17 ex_used ex_again).
  - unfold ex_again.
    assert (match ext2_mount (H := ex_io) 1 0 0 ex_used with Ret 0 _ => true | _ => false end = true) as E
      by (vm_compute; reflexivity).
    destruct (ext2_mount 1 0 0 ex_used) as [r s|e s| |]; [|discriminate E..].
    destruct r; [reflexivity|discriminate E..].
  - split; vm_compute; try (split; discriminate || reflexivity); reflexivity.
  - discriminate.
  - vm_compute. reflexivity.
  - vm_compute. reflexivity.
  - vm_compute. reflexivity.
  - vm_compute. split; discriminate.
Defined.

(** The end of the double-indirect range. [ext2_mount] computes the limit
    as if the double-indirect blocks began behind the direct ones: for the last
    [ptrs_per_blk] blocks that the format maps through the double-indirect
    block, [ext2_blkno] reports an error and answers "hole". *)
Theorem ext2_last_blocks_lost {K} `{ConsIO K} ip k (s : ext2 * ustate K) r s' :
  geo_ok (geo s.1) →
  let n := ptrs_per_blk (geo s.1) in 12 + n * n <= k < 12 + n + n * n → 2 <= n →
  ext2_blkno ip k s = Ret r s' → r = 0.
Proof.
  intros [G1 G2 G3 G4 G5 G6] n Hk Hn. fold n in G1, G4, G5. apply ext2_blkno_beyond; rewrite ?G3, ?G4, ?G5; nia.
Qed.

Lemma ext2_last_blocks_lost_witness :
  ∃ s', ext2_blkno (H := ex_io) ex_inode 65548 ex_mounted = Ret 0 s' ∧ 0 = 0.
Proof.
  assert (∃ s', ext2_blkno (H := ex_io) ex_inode 65548 ex_mounted = Ret 0 s') as [s' E].
  { assert (match ext2_blkno (H := ex_io) ex_inode 65548 ex_mounted with Ret 0 _ => true | _ => false end = true)
      as E by (vm_compute; reflexivity).
    destruct (ext2_blkno ex_inode 65548 ex_mounted) as [r s|e s| |]; [|discriminate E..].
    destruct r; [by exists s|discriminate E..]. }
  exists s'. split; [exact E|].
  apply (ext2_last_blocks_lost (H := ex_io) ex_inode 65548 ex_mounted 0 s').
  - exact (proj1 (proj2 ex_mounted_ok)).
  - vm_compute. split; [discriminate|reflexivity].
  - vm_compute. discriminate.
  - exact E.
Defined.
