(* ===== verification/Files.v ===== *)
(** * What a file system promises of an open file

    [BootFile] is the contract between disk.c and a file system: reads of whole
    blocks inside the file return its contents, and a message or an allocation
    between two reads does no harm.  [BootTail] adds the read that reaches beyond
    the end.  fs/ext2.c keeps them for a file without extents; what disk.c does
    with it is in DiskLoad, what zip/misc.c does in Unzip. *)

From Stdlib Require Import Ascii String.
From S2P Require Import Prelude CString Vsprintf Cons Utils Aboot BootFs Ext2 Ext2Read.

Open Scope Z_scope.
Open Scope list_scope.

(** All of utils.c's state but the console. *)
Definition same_heap {K} (u u' : ustate K) : Prop :=
  clusters u' = clusters u ∧ pagesize u' = pagesize u ∧
  free_mem_ptr u' = free_mem_ptr u ∧ dest_addr u' = dest_addr u.

#[export] Instance same_heap_preorder {K} : PreOrder (@same_heap K).
Proof.
  split; [by intros u|]. intros u1 u2 u3 (?&?&?&?) (?&?&?&?). unfold same_heap. by repeat split; etrans.
Qed.

(** [malloc] looks at nothing but the heap. *)
Lemma malloc_same_heap {K} `{ConsIO K} n (u v u' : ustate K) p :
  malloc n u = Ret p u' → same_heap u v →
  ∃ v', malloc n v = Ret p v' ∧ u_con v' = u_con v ∧ same_heap u' v'.
Proof.
  intros E (Hc&Hp&Hf&Hd). pose proof (malloc_frame _ _ _ _ E) as ->.
  exists (UState (u_con v) (clusters v) (pagesize v) p (dest_addr v)).
  split; [|split; [done|unfold same_heap; cbn; by rewrite Hc, Hp, Hd]].
  destruct u as [k cl ps fm da], v as [k' cl' ps' fm' da']. cbn in *. subst.
  unfold malloc in *. cbn [gets bind free_mem_ptr] in *.
  destruct (fm =? 0); cbn [set_free_mem_ptr gets bind modify ret free_mem_ptr dest_addr pagesize u_con clusters] in *;
    (match goal with |- context [if ?b then _ else _] => destruct b end;
     [apply bind_inv in E as (?&?&E&_); by apply error_no_return in E
     |cbn [ret bind] in *; injection E as E; by rewrite E]).
Qed.

(** The open file [fd] of [fs]: [content] are its blocks of [bs] bytes. *)
Class BootFile {F K : Type} `{HO : ConsOut K} (fs : bootfs F K) (fd bs : Z) (content : list Z) := {
  file_ok : F * ustate K → Prop;
  file_bsize f u : file_ok (f, u) → blocksize fs f = bs;
  file_io f u : file_ok (f, u) → io_ok (u_con u);
  file_heap f u u' : file_ok (f, u) → io_ok (u_con u') →
    io_disk (u_con u') = io_disk (u_con u) → file_ok (f, u');
  file_bread f u k n buf :
    file_ok (f, u) → 0 <= k → 0 <= n → (k + n) * bs <= zlen content →
    n * bs < 2 ^ 31 → n * bs <= zlen buf →
    ∃ data f' u', bread fs fd k n buf (f, u) =
        Ret (n * bs, data ++ drop (Z.to_nat (n * bs)) buf) (f', u') ∧
      aslice content (k * bs) (n * bs) = Some data ∧ file_ok (f', u') ∧ same_heap u u';
  file_close f u : file_ok (f, u) → ∃ f', close fs fd (f, u) = Ret tt (f', u)
}.

(** And of a read that goes beyond the end of the file: it gets the blocks there
    are, and returns no more than it was asked for. *)
Class BootTail {F K : Type} `{HO : ConsOut K} (fs : bootfs F K) (fd bs : Z) (content : list Z)
    `{HB : !BootFile fs fd bs content} := {
  file_tail f u k n buf :
    file_ok (f, u) → 0 <= k → k * bs < zlen content < (k + n) * bs → n * bs < 2 ^ 31 → n * bs <= zlen buf →
    ∃ r f' u', bread fs fd k n buf (f, u) =
        Ret (r, drop (Z.to_nat (k * bs)) content ++ drop (Z.to_nat (zlen content - k * bs)) buf) (f', u') ∧
      r <= n * bs ∧ file_ok (f', u') ∧ same_heap u u'
}.

(** ** ext2 *)

(** An inode without extents whose blocks are all on the device and within the
    limits of the code. *)
Record ext2_inode (disk : list Z) (g : geometry) (ip content : list Z) (size nb : Z) : Prop := {
  in_flags : ∃ flags, i_flags ip = Some flags ∧ Z.land flags EXT4_EXTENTS_FL = 0;
  in_size : i_size ip = Some size;
  in_range : 0 <= size ∧ size + fs_bsize g < 2 ^ 32;
  in_blocks : (nb - 1) * fs_bsize g < size <= nb * fs_bsize g;
  in_limit : 0 <= nb ∧ nb - 1 <= ind2lim g ∧ nb < 2 ^ 31;
  in_plain : plain_map disk g ip 0 nb;
  in_content : file_blocks disk g ip 0 (Z.to_nat nb) = Some content
}.

Section ext2_file.
Context {K : Type} `{HO : ConsOut K} (fuel : nat).

(** A mounted file system with the inode in the slot. *)
Definition ext2_holds (disk : list Z) (g : geometry) (ip : list Z) (fd : Z) (s : ext2 * ustate K) : Prop :=
  fs_ok s ∧ geo s.1 = g ∧ disk_of s = disk ∧
  ∃ e, aget (inode_table s.1) fd = Some e ∧ inode e = ip.

Lemma file_blocks_slice disk g ip nb content k n :
  0 < fs_bsize g → file_blocks disk g ip 0 (Z.to_nat nb) = Some content →
  0 <= k → 0 <= n → k + n <= nb →
  ∃ data, file_blocks disk g ip k (Z.to_nat n) = Some data ∧
    aslice content (k * fs_bsize g) (n * fs_bsize g) = Some data.
Proof.
  intros Hbs Hc Hk Hn Hle.
  replace (Z.to_nat nb) with (Z.to_nat k + (Z.to_nat n + Z.to_nat (nb - k - n)))%nat in Hc by lia.
  apply blocks_from_add in Hc as (d1&d2&H1&H2&->).
  apply blocks_from_add in H2 as (d3&d4&H3&_&->). rewrite Z.add_0_l, Z2Nat.id in H3 by lia.
  exists d3. split; [done|]. apply aslice_app_mid.
  - rewrite (file_blocks_len _ _ _ _ _ _ Hbs H1). lia.
  - rewrite (file_blocks_len _ _ _ _ _ _ Hbs H3). lia.
Qed.

(** A request inside the file is not cut. *)
Lemma effective_inside g size nb k n :
  0 < fs_bsize g → (nb - 1) * fs_bsize g < size <= nb * fs_bsize g →
  k + n <= nb → effective g size k n = n.
Proof.
  intros Hbs Hsz Hle. unfold effective. destruct (Z.ltb_spec size ((k + n) * fs_bsize g)); [|done].
  assert (nb = k + n) as -> by nia.
  assert ((size + fs_bsize g) / fs_bsize g = k + n); [|lia].
  symmetry. apply (Z.div_unique _ _ _ (size + fs_bsize g - fs_bsize g * (k + n))); lia.
Qed.

(** A request whose part inside the file is [m] blocks reads these. *)
Lemma ext2_bread_blocks disk g ip content size nb fd f u k n m buf :
  ext2_inode disk g ip content size nb → (Z.to_nat nb < fuel)%nat → ext2_holds disk g ip fd (f, u) →
  effective g size k n = m → 0 <= k → 0 <= m → k + m <= nb → m * fs_bsize g < 2 ^ 31 → m * fs_bsize g <= zlen buf →
  ∃ data f' u', bread (ext2fs fuel) fd k n buf (f, u) =
      Ret (m * fs_bsize g, data ++ drop (Z.to_nat (m * fs_bsize g)) buf) (f', u') ∧
    aslice content (k * fs_bsize g) (m * fs_bsize g) = Some data ∧ ext2_holds disk g ip fd (f', u') ∧ same_heap u u'.
Proof.
  intros HI Hf (Hok&Hg&Hdk&e&Ee&Eip) Eeff Hk Hm Hle H31 Hbuf.
  destruct HI as [(flags&Efl&Hfl) Esz (Hs0&Hs32) Hnb (Hnb0&Hlim&Hnb31) Hpl Hc].
  assert (0 < fs_bsize g) as Hbs by (destruct Hok as (_&[]&_); cbn in *; subst g; lia).
  destruct (file_blocks_slice disk g ip nb content k m) as (data&Hd&Hsl); [done..|].
  destruct (ext2_breadi_ok fuel ip flags size k n (f, u) buf data) as ((f'&u')&E&Hfr);
    cbn [fst] in *; rewrite ?Hg, ?Hdk, ?Eeff in *; try done; try lia.
  { intros j no Hj Ej. apply (Hpl (k + j) no); [lia|done]. }
  exists data, f', u'. pose proof Hfr as (Hok'&Hg'&_&Ht'&_&_&_&Hdk'&H1&H2&H3&H4).
  split; [|split; [done|split; [|done]]].
  - unfold ext2fs, ext2_bread, inode_of. cbn [bread]. rewrite bind_bind.
    rewrite (bind_Ret (get_fs inode_table) _ (f, u) (inode_table f) (f, u) eq_refl).
    cbn [fst] in Ee. rewrite Ee. cbn [lift_opt]. rewrite bind_bind, bind_ret, bind_ret, Eip.
    unfold extn_breadi. rewrite Efl. cbn [lift_opt]. rewrite bind_ret, Hfl. exact E.
  - split; [done|]. cbn [fst snd] in *. split; [congruence|].
    split; [by rewrite (frame_disk _ _ Hfr)|]. exists e. by rewrite Ht'.
Qed.

(** The file's bytes are its whole blocks. *)
Lemma ext2_content_len disk g ip content size nb s fd : ext2_inode disk g ip content size nb →
  ext2_holds disk g ip fd s → 0 < fs_bsize g ∧ zlen content = nb * fs_bsize g.
Proof.
  intros HI (Hok&Hg&_). destruct HI as [_ _ _ _ (Hnb0&_) _ Hc].
  assert (0 < fs_bsize g) as Hbs by (destruct Hok as (_&[]&_); cbn in *; subst g; lia).
  split; [done|]. rewrite (file_blocks_len _ _ _ _ _ _ Hbs Hc). lia.
Qed.

#[export] Program Instance ext2_boot_file disk g ip content size nb fd
    (HI : ext2_inode disk g ip content size nb) (Hf : (Z.to_nat nb < fuel)%nat) :
  BootFile (ext2fs fuel) fd (fs_bsize g) content := {|
  file_ok := ext2_holds disk g ip fd
|}.
Next Obligation. intros disk g ip content size nb fd HI Hf f u (_&Hg&_). cbn in *. by rewrite Hg. Qed.
Next Obligation. by intros disk g ip content size nb fd HI Hf f u ((Hio&_)&_). Qed.
Next Obligation.
  intros disk g ip content size nb fd HI Hf f u u' ((_&Hgeo&Hi&Hd)&Hg&Hdk&He) Hio Edk.
  unfold ext2_holds, fs_ok, disk_of in *. cbn in *. rewrite Edk. done.
Qed.
Next Obligation.
  intros disk g ip content size nb fd HI Hf f u k n buf Hh Hk Hn Hin H31 Hbuf.
  destruct (ext2_content_len _ _ _ _ _ _ _ _ HI Hh) as [Hbs Hzc].
  apply (ext2_bread_blocks disk g ip content size nb); try done; [|nia].
  apply (effective_inside g size nb); [done|apply HI|nia].
Qed.
Next Obligation.
  intros disk g ip content size nb fd HI Hf f u (_&_&_&e&Ee&_). cbn [fst] in Ee.
  cbn [close ext2fs]. unfold ext2_close.
  rewrite (bind_Ret (get_fs root_inode) _ (f, u) (root_inode f) (f, u) eq_refl).
  case_bool_decide; [by exists f|]. unfold ext2_iput.
  rewrite (bind_Ret (get_fs inode_table) _ (f, u) (inode_table f) (f, u) eq_refl). rewrite Ee.
  cbn [lift_opt]. rewrite bind_ret. unfold aset. rewrite decide_True by (by eapply aget_range).
  by eexists.
Qed.

(** When the file does not fill its last block, [effective] stops at its end. *)
#[export] Program Instance ext2_boot_tail disk g ip content size nb fd
    (HI : ext2_inode disk g ip content size nb) (Hf : (Z.to_nat nb < fuel)%nat) (Hend : size mod fs_bsize g ≠ 0) :
  BootTail (HB := ext2_boot_file disk g ip content size nb fd HI Hf) (ext2fs fuel) fd (fs_bsize g) content := {|
  file_tail := _
|}.
Next Obligation.
  intros disk g ip content size nb fd HI Hf Hend f u k n buf Hh Hk Hin H31 Hbuf.
  destruct (ext2_content_len _ _ _ _ _ _ _ _ HI Hh) as [Hbs Hzc]. pose proof (in_blocks _ _ _ _ _ _ HI) as Hsz.
  assert (effective g size k n = nb - k) as Eeff.
  { unfold effective. rewrite (proj2 (Z.ltb_lt _ _)) by lia. f_equal. symmetry.
    assert (size ≠ nb * fs_bsize g) by (intros ->; rewrite Z.mod_mul in Hend by lia; done).
    apply (Z.div_unique _ _ _ (size + fs_bsize g - fs_bsize g * nb)); lia. }
  destruct (ext2_bread_blocks disk g ip content size nb fd f u k n (nb - k) buf) as (data&f'&u'&E&Hd&Hh'&Hu);
    try done; [nia|lia|nia|nia|].
  apply aslice_Some in Hd as (_&_&_&->). exists ((nb - k) * fs_bsize g), f', u'. split; [|split; [nia|done]].
  rewrite E. do 3 f_equal; [|f_equal; lia]. rewrite take_ge; [done|]. rewrite length_drop. unfold zlen in Hzc. lia.
Qed.
End ext2_file.
