(* ===== verification/IsoRead.v ===== *)
(** * Files of ISO 9660, read by lib/isolib.c and fs/iso.c

    A file is one extent of the disk.  [iso_breadi_reads] is for any host of the
    library that keeps [IsoEnvLaws], the loader does ([loader_laws]); an open
    file keeps the contract of disk.c ([iso_boot_file]).  The sample image at the
    end is the one the directory theorems are tried on. *)

From Stdlib Require Import Ascii String.
From S2P Require Import Prelude CString Vsprintf Cons Utils Aboot BootFs Files IsoLib IsoDir IsoRock Iso.

Open Scope Z_scope.
Open Scope list_scope.

(** A file in its slot: [base] is its first block of 1024 bytes. *)
Record iso_file (i : iso) (ip base size : Z) : Prop := {
  if_slot : ∃ e, aget (inode_table i) ip = Some e ∧ 0 <= i_first_extent e < 2 ^ 32 ∧
    i_first_extent e / 1024 = base ∧ it_size e = size;
  if_sb : s_blocksize (sb i) = 1024 ∧ s_blocksize_bits (sb i) = 10;
  if_base : 0 < base ∧ 0 <= size
}.

(** The blocks a request stands for: as for ext2, a request that goes beyond the
    size of the file ends with the block behind its last full one. *)
Definition iso_effective (size k n : Z) : Z := if size <? (k + n) * 1024 then (size + 1024) / 1024 - k else n.

Section reads.
Context {S : Type} `{IsoEnv S}.

Lemma iso_breadi_run ip base size k n buf (s : iso * S) : iso_file s.1 ip base size →
  0 <= k → base + k < 2 ^ 31 →
  iso_breadi ip k n buf s = on_env (iso_dev_read buf ((base + k) * 1024) (iso_effective size k n * 1024)) s.
Proof.
  intros [(e&Ee&Hfe&Ebase&Esz) (Ebs&Ebits) (Hb&Hs0)] Hk H31. unfold iso_breadi.
  rewrite (bind_Ret _ _ _ _ _ (get_inode_ok ip e s Ee)).
  rewrite (proj2 (Z.eqb_neq (i_first_extent e) 0)) by (intros E; rewrite E in Ebase; change (0 / 1024) with 0 in Ebase; lia).
  rewrite (bind_Ret (get_sb s_blocksize) _ s _ s eq_refl), Ebs, Esz. change (1024 =? 0) with false. cbv iota.
  assert ((if size <? (k + n) * 1024 then ret (Z.quot (size + 1024) 1024 - k) else ret n) s
    = Ret (iso_effective size k n) s) as E.
  { unfold iso_effective. rewrite Z.quot_div_nonneg by lia. by destruct (size <? _). }
  rewrite (bind_Ret _ _ _ _ _ E), (swrap_small 32 eq_refl k) by lia. unfold iso_bmap.
  rewrite (proj2 (Z.ltb_ge k 0)) by lia. rewrite bind_bind, (bind_Ret (get_sb s_blocksize_bits) _ s _ s eq_refl), Ebits.
  rewrite decide_True by lia. rewrite bind_ret, Z.shiftr_div_pow2 by lia. change (2 ^ 10) with 1024. rewrite Ebase.
  rewrite (wrap_small 32 (base + k)), (swrap_small 32 eq_refl (base + k)) by lia.
  by rewrite (proj2 (Z.eqb_neq (base + k) 0)) by lia.
Qed.

(** C10: a read of [n] blocks from block [k] of a file returns the bytes of its
    extent on the disk and leaves the rest of the buffer; behind the end of the
    file it is cut to the block behind the last full one. *)
Theorem iso_breadi_reads `{HL : !IsoEnvLaws S} ip base size k n buf (s : iso * S) :
  let m := iso_effective size k n in
  iso_file s.1 ip base size → env_ok s.2 → 0 <= k → 0 <= m → base + k < 2 ^ 31 → m * 1024 <= zlen buf →
  (base + k + m) * 1024 <= zlen (env_disk s.2) →
  ∃ data e', iso_breadi ip k n buf s = Ret (m * 1024, data ++ drop (Z.to_nat (m * 1024)) buf) (s.1, e') ∧
    aslice (env_disk s.2) ((base + k) * 1024) (m * 1024) = Some data ∧ env_ok e' ∧ env_disk e' = env_disk s.2.
Proof.
  intros m Hf He Hk Hm H31 Hbuf Hd. rewrite (iso_breadi_run ip base size) by done. fold m.
  pose proof (if_base _ _ _ _ Hf) as [Hb _].
  destruct (dev_read_ok buf ((base + k) * 1024) (m * 1024) s.2) as (data&e'&E&Ha&He'&Ed); [done|lia|lia| |].
  { pose proof (Z.mul_div_le ((base + k) * 1024 + m * 1024 + 511) 512 ltac:(lia)).
    pose proof (Z.mod_pos_bound ((base + k) * 1024 + m * 1024 + 511) 512 ltac:(lia)).
    rewrite <- (Z.div_unique _ 512 ((base + k + m) * 2) 511) by lia. lia. }
  exists data, e'. split; [|done]. unfold on_env. by rewrite E.
Qed.
End reads.

(** ** In the loader *)

Section loader.
Context {K : Type} `{HO : ConsOut K} (fuel : nat) (stale : ustate K → Z → Z).

#[export] Program Instance loader_laws : @IsoEnvLaws (Z * ustate K) (loader_env stale) := {|
  env_ok e := io_ok (u_con e.2);
  env_disk e := io_disk (u_con e.2) e.1
|}.
Next Obligation.
  intros buf off n [dev u] Hok Hn Hoff Hfit. cbn in *.
  destruct (io_read_ok dev buf n off (u_con u)) as (data&k'&E&Ha&Hk&Hd); [done..|].
  unfold dev_read. cbn [fst snd]. rewrite E. eexists data, _. split; [done|]. split; [done|]. split; [done|].
  cbn. by rewrite Hd.
Qed.

(** The open file, its whole blocks on the disk of the mount. *)
Definition iso_holds (disk : list Z) (fd base size : Z) (s : isofs * ustate K) : Prop :=
  iso_file (lib s.1) fd base size ∧ io_ok (u_con s.2) ∧ io_disk (u_con s.2) (cd_device s.1) = disk.

#[export] Program Instance iso_boot_file disk fd base size nb content
    (Hnb : (nb - 1) * 1024 < size <= nb * 1024 ∧ base + nb < 2 ^ 31)
    (Hc : aslice disk (base * 1024) (nb * 1024) = Some content) :
  BootFile (iso_bootfs fuel stale) fd 1024 content := {|
  file_ok := iso_holds disk fd base size
|}.
Next Obligation. done. Qed.
Next Obligation. by intros disk fd base size nb content _ _ f u (_&Hio&_). Qed.
Next Obligation. intros disk fd base size nb content _ _ f u u' (Hf&_&Hd) Hio Ed. split; [done|]. cbn in *. by rewrite Ed. Qed.
Next Obligation.
  intros disk fd base size nb content [Hnb H31] Hc f u k n buf (Hf&Hio&Hd) Hk Hn Hin Hi Hbuf. cbn [fst snd] in *.
  pose proof (aslice_len _ _ _ _ Hc) as Hzc. assert (k + n <= nb) as Hle by lia.
  assert (iso_effective size k n = n) as Em.
  { unfold iso_effective. destruct (Z.ltb_spec size ((k + n) * 1024)); [|done].
    assert (nb = k + n) as -> by lia.
    rewrite <- (Z.div_unique (size + 1024) 1024 (k + n) (size + 1024 - 1024 * (k + n))) by lia. lia. }
  cbn [bread iso_bootfs]. unfold with_lib, iso_bread. cbn [fst snd].
  rewrite (iso_breadi_run fd base size) by (done || lia). rewrite Em. unfold on_env. cbn [fst snd iso_dev_read loader_env dev_read].
  pose proof (if_base _ _ _ _ Hf) as [Hb _]. apply aslice_Some in Hc as Hc'.
  destruct (aslice_is_Some content (k * 1024) (n * 1024)) as [data Edata]; [lia..|].
  destruct (io_read_ok (cd_device f) buf (n * 1024) ((base + k) * 1024) (u_con u)) as (data'&k'&E&Ha&Hk'&Hd'); [done|lia|lia| |].
  { rewrite <- (Z.div_unique _ 512 ((base + k + n) * 2) 511) by lia. rewrite Hd. lia. }
  unfold dev_read. cbn [fst snd]. rewrite E. eexists data', _, _. split; [done|]. cbn [fst snd lib cd_device].
  rewrite Hd in Ha. pose proof (aslice_aslice _ _ _ _ _ _ _ Hc Edata) as E2. rewrite <- Z.mul_add_distr_r in E2.
  split; [congruence|]. split; [|done]. split; [done|]. split; [done|]. cbn. by rewrite Hd'.
Qed.
Next Obligation.
  intros disk fd base size nb content _ _ f u (Hf&_&_). cbn [fst] in Hf.
  destruct (if_slot _ _ _ _ Hf) as (e&Ee&_). cbn [close iso_bootfs]. unfold with_lib, iso_close, iso_iput.
  cbn [fst snd]. unfold mod_inode. rewrite (bind_Ret (get_iso inode_table) _ (lib f, (cd_device f, u)) _ _ eq_refl).
  cbn [fst]. rewrite Ee. cbn [lift_opt]. rewrite bind_ret. unfold aset. rewrite decide_True by (by eapply aget_range).
  cbn. by eexists.
Qed.
End loader.
