(* ===== verification/Disk.v ===== *)
(** * disk.c and fs/dummy.c: finding and loading the kernel

    The file systems are reached through their tables ([bootfs]), the firmware
    through [ConsIO] and [ConsDev].  [disk] adds the globals of disk.c to the
    state of the decompressor.  A [longjmp] of the loader arrives in
    [read_kernel]; halting is not one of them. *)

From Stdlib Require Import Ascii String.
From S2P Require Import Prelude CString Vsprintf Cons Utils Aboot BootFs Gzip.

Open Scope Z_scope.
Open Scope list_scope.

Definition BOOT_SECTOR : Z := 2.
Definition LABELSECTOR : Z := 0.
Definition LABELOFFSET : Z := 64.
Definition DISKLABELMAGIC : Z := 0x82564557.
Definition sizeof_disklabel : Z := 276.
Definition PAGE_SIZE : Z := 0x2000.
Definition ABOOT_VERSION : string := "1.0_pre20040408".
Definition CONFIG_FILE : string := "/etc/aboot.conf".
Definition tab : string := String (ascii_of_N 9) EmptyString.

(** What disk.c uses of cons.c and utils.c besides [ConsIO]. *)
Class ConsDev (K : Type) := {
  io_getenv : Z → list Z → Z → M K (Z * list Z);
  io_open : list Z → M K Z;
  io_close : Z → M K Z;
  io_getline : list Z → Z → M K (list Z)
}.

#[export] Instance cons_dev_ops {K} `{Console K} (turns fuel : nat) : ConsDev (cstate K) := {|
  io_getenv := cons_getenv;
  io_open := cons_open;
  io_close := cons_close;
  io_getline := λ buf maxlen, getline turns fuel buf maxlen
|}.

(** ** fs/dummy.c *)

Section dummy.
(* [aboot_end] is the size of the loader, &_end - BOOT_ADDR; the file systems'
   state holds dummy.c's [dev] *)
Context {F K : Type} `{ConsIO K} (aboot_end : Z) (get_dev : F → Z) (put_dev : Z → F → F).

Definition BLOCKSIZE : Z := 16 * SECT_SIZE.

Definition dummy_mount (cons_dev p_offset quiet : Z) : M (F * ustate K) Z :=
  mod_fs (put_dev cons_dev) ;;; ret 0.

Definition dummy_size : Z := Z.land (aboot_end + SECT_SIZE - 1) (Z.lnot (SECT_SIZE - 1)).

Definition dummy_bread (fd blkno nblks : Z) (buffer : list Z) : M (F * ustate K) (Z * list Z) :=
  let! d := get_fs get_dev in
  let! ' (r, buffer) := fs_read d buffer (nblks * BLOCKSIZE)
    (BOOT_SECTOR * SECT_SIZE + blkno * BLOCKSIZE + dummy_size) in
  if negb (r =? nblks * BLOCKSIZE) then
    fs_printf ("dummy_bread: read error" ++ nl) [] ;;; ret (-1, buffer)
  else ret (s32 (nblks * BLOCKSIZE), buffer).

Definition dummy_open (filename : list Z) : M (F * ustate K) Z := ret 1.
Definition dummy_close (fd : Z) : M (F * ustate K) unit := ret tt.

(* no readdir, no fstat: calling them goes through a null pointer *)
Definition dummyfs : bootfs F K :=
  Bootfs 0 (λ _, BLOCKSIZE) dummy_mount dummy_open dummy_bread dummy_close
    (λ _ _, trap) (λ _ _, trap).
End dummy.

(** ** State *)

Record disk (F K : Type) := Disk {
  gz : gzip F K;
  label : option (list Z);       (* the disk label read, if it is one *)
  boot_part : Z;
  config_file_partition : Z;
  bfs : option (bootfs F K);
  first : Z                      (* static of get_aboot_options *)
}.
Arguments Disk {F K}.
Arguments gz {F K} d.
Arguments label {F K} d.
Arguments boot_part {F K} d.
Arguments config_file_partition {F K} d.
Arguments bfs {F K} d.
Arguments first {F K} d.

Definition d_magic (l : list Z) := get_u32 l 0.
Definition d_secsize (l : list Z) := get_u32 l 40.
Definition d_magic2 (l : list Z) := get_u32 l 132.
Definition d_npartitions (l : list Z) := get_u16 l 138.
(* d_partitions[i] *)
Definition p_offset (l : list Z) (i : Z) := get_u32 l (148 + 16 * i + 4).
Definition p_fstype (l : list Z) (i : Z) := get_u8 l (148 + 16 * i + 12).

Definition ends_in_gz (name : list Z) : bool :=
  (3 <? zlen name) && bool_decide (drop (length name - 3) name = str ".gz").

Section disk_code.
Context {F K : Type} `{ConsIO K} `{ConsDev K}.
(* bootfs[]: &ext2fs, &iso, &ufs; and &dummyfs *)
Context (table : list (bootfs F K)) (dummy : bootfs F K).
(* &_end - BOOT_ADDR, and a bound for the loops *)
Context (aboot_size : Z) (fuel : nat).

Abbreviation DM := (M (disk F K)).

Definition on_gz {A} (m : M (gzip F K) A) : DM A := λ d,
  let put g := Disk g (label d) (boot_part d) (config_file_partition d) (bfs d) (first d) in
  match m (gz d) with
  | Ret a g => Ret a (put g)
  | Jump e g => Jump e (put g)
  | Trap => Trap
  | Diverge => Diverge
  end.

Definition on_loader {A} (m : M (loader F K) A) : DM A := on_gz (on_base m).
Definition on_aboot {A} (m : M (aboot K) A) : DM A := on_loader (on_ab m).
Definition on_console {A} (m : M K A) : DM A := on_aboot (on_sys (on_con m)).
Definition through {A} (m : M (F * ustate K) A) : DM A := on_loader (on_fs m).
Definition print (fmt : string) (args : list arg) : DM unit := on_loader (tell fmt args).
Definition get_aboot {A} (f : aboot K → A) : DM A := gets (λ d, f (ab (base (gz d)))).
Definition mod_aboot (f : aboot K → aboot K) : DM unit := on_aboot (modify f).
Definition get_bsize (fs : bootfs F K) : DM Z := gets (λ d, blocksize fs (fss (base (gz d)))).

Definition set_disk (l : option (list Z)) (bp cfp : Z) (b : option (bootfs F K)) (f : Z) : DM unit :=
  modify (λ d, Disk (gz d) l bp cfp b f).
Definition set_label (l : option (list Z)) : DM unit :=
  modify (λ d, Disk (gz d) l (boot_part d) (config_file_partition d) (bfs d) (first d)).
Definition set_boot_part (p : Z) : DM unit :=
  modify (λ d, Disk (gz d) (label d) p (config_file_partition d) (bfs d) (first d)).
Definition set_config_partition (p : Z) : DM unit :=
  modify (λ d, Disk (gz d) (label d) (boot_part d) p (bfs d) (first d)).
Definition set_bfs (b : option (bootfs F K)) : DM unit :=
  modify (λ d, Disk (gz d) (label d) (boot_part d) (config_file_partition d) b (first d)).
Definition set_first (f : Z) : DM unit :=
  modify (λ d, Disk (gz d) (label d) (boot_part d) (config_file_partition d) (bfs d) f).

Definition set_boot_file (l : list Z) : DM unit :=
  mod_aboot (λ s, Aboot (sys s) (start_addr s) (entry_addr s) (chunks s) (nchunks s) l
    (initrd_file s) (kernel_args s) (bss_start s) (bss_size s) (initrd_start s) (initrd_size s)).
Definition set_initrd_file (l : list Z) : DM unit :=
  mod_aboot (λ s, Aboot (sys s) (start_addr s) (entry_addr s) (chunks s) (nchunks s) (boot_file s)
    l (kernel_args s) (bss_start s) (bss_size s) (initrd_start s) (initrd_size s)).
Definition set_kernel_args (l : list Z) : DM unit :=
  mod_aboot (λ s, Aboot (sys s) (start_addr s) (entry_addr s) (chunks s) (nchunks s) (boot_file s)
    (initrd_file s) l (bss_start s) (bss_size s) (initrd_start s) (initrd_size s)).
Definition set_initrd (start sz : Z) : DM unit :=
  mod_aboot (λ s, Aboot (sys s) (start_addr s) (entry_addr s) (chunks s) (nchunks s) (boot_file s)
    (initrd_file s) (kernel_args s) (bss_start s) (bss_size s) start sz).

(** ** Loading segments *)

(* cons_read into memory *)
Definition read_to_mem (dev dest count offset : Z) : DM Z :=
  let! buf := on_loader (peek_mem dest count) in
  let! ' (nread, buf) := on_console (io_read dev buf count offset) in
  on_loader (poke_mem dest buf) ;;;
  ret nread.

Definition raw_segment (dev ksect i : Z) : DM bool :=
  let! cs := get_aboot chunks in
  let! c := lift_opt (aget cs i) in
  print ("aboot: segment %d, %ld bytes at %#lx" ++ nl) [AInt i; AInt (size c); AInt (addr c)] ;;;
  let! nread := read_to_mem dev (addr c) (size c) (s64 (offset c + ksect * SECT_SIZE)) in
  if negb (u64 nread =? size c) then
    print ("aboot: read returned %ld instead of %ld bytes" ++ nl) [AInt nread; AInt (size c)] ;;;
    ret false
  else ret true.

(* for (i = 0; i < nchunks; ++i), left with -1 by a failing segment *)
Definition each_segment (seg : Z → DM bool) : DM Z :=
  let! n := get_aboot nchunks in
  loop (S (Z.to_nat n)) (λ i,
    if i <? n then
      let! ok := seg i in
      ret (if ok then inl (i + 1) else inr (-1))
    else ret (inr 0)) 0.

Definition load_raw (dev : Z) : DM Z :=
  let ksect := Z.quot (aboot_size + SECT_SIZE - 1) SECT_SIZE + BOOT_SECTOR in
  print ("aboot: loading kernel from boot sectors..." ++ nl) [] ;;;
  on_aboot (on_sys (malloc SECT_SIZE)) ;;;
  let! ' (nread, buf) := on_console
    (io_read dev (replicate (Z.to_nat SECT_SIZE) 0) SECT_SIZE (ksect * SECT_SIZE)) in
  if negb (nread =? SECT_SIZE) then
    print ("aboot: read returned %ld instead of %ld bytes" ++ nl) [AInt nread; AInt SECT_SIZE] ;;;
    ret (-1)
  else
    let! ok := on_aboot (is_loadable_elf buf SECT_SIZE) in
    if negb ok then ret (-1) else each_segment (raw_segment dev ksect).

Definition file_segment (fs : bootfs F K) (bs fd i : Z) : DM bool :=
  let! cs := get_aboot chunks in
  let! c := lift_opt (aget cs i) in
  let low := Z.land (offset c) (bs - 1) in
  let nblocks := u64 (size c + low + bs - 1) / bs in
  print ("aboot: segment %d, %ld bytes at %#lx" ++ nl) [AInt i; AInt (size c); AInt (addr c)] ;;;
  let! buf := on_loader (peek_mem (addr c) (nblocks * bs)) in
  let! ' (nread, buf) := through (bread fs fd (offset c / bs) nblocks buf) in
  on_loader (poke_mem (addr c) buf) ;;;
  if negb (nread =? nblocks * bs) then
    print ("aboot: read returned %ld instead of %ld bytes" ++ nl) [AInt nread; AInt (nblocks * bs)] ;;;
    ret false
  else if negb (low =? 0) then
    let! moved := on_loader (peek_mem (addr c + low) (size c)) in
    on_loader (poke_mem (addr c) moved) ;;;
    ret true
  else ret true.

Definition load_uncompressed (fs : bootfs F K) (fd : Z) : DM Z :=
  let! bs := get_bsize fs in
  on_aboot (on_sys (malloc (u64 bs))) ;;;
  let! ' (nread, buf) := through (bread fs fd 0 1 (replicate (Z.to_nat bs) 0)) in
  if negb (nread =? bs) then
    print ("aboot: read returned %ld instead of %ld bytes" ++ nl) [AInt nread; AInt 8] ;;;
    ret (-1)
  else
    let! ok := on_aboot (is_loadable_elf buf bs) in
    if negb ok then ret (-1)
    else if bs =? 0 then trap
    else each_segment (file_segment fs bs fd).

(** [_setjmp] around a call: [None] when it came back through a jump. *)
Definition catch {A} (m : DM A) : DM (option A) := λ d,
  match m d with
  | Ret a d => Ret (Some a) d
  | Jump e d => if bool_decide (e = "halt"%string) then Jump e d else Ret None d
  | Trap => Trap
  | Diverge => Diverge
  end.

Definition method_name (method : Z) : string :=
  if method =? 0 then "uncompressed" else "compressed".

(* one attempt: [inr] is read_kernel's result *)
Definition attempt_method (fs : bootfs F K) (filename : list Z) (method : Z) : DM (Z + Z) :=
  let! fd := through (open fs filename) in
  if fd <? 0 then
    print ("%s: file not found" ++ nl) [AStr (Some filename)] ;;; ret (inr (-1))
  else
    print ("aboot: loading %s %s..." ++ nl) [AStr (Some (str (method_name method))); AStr (Some filename)] ;;;
    let! res := catch
      (let! res := (if method =? 0 then load_uncompressed fs fd
                    else on_gz (uncompress_kernel fs fuel fd)) in
       through (close fs fd) ;;;
       ret res) in
    match res with
    | Some res => ret (if 0 <=? res then inr 0 else inl (Z.rem (method + 1) 2))
    | None => ret (inl (Z.rem (method + 1) 2))
    end.

Definition read_kernel (fs : bootfs F K) (filename : list Z) : DM Z :=
  let! r := attempt_method fs filename (if ends_in_gz filename then 1 else 0) in
  match r with
  | inr res => ret res
  | inl method =>
      let! r := attempt_method fs filename method in
      ret (match r with inr res => res | inl _ => -1 end)
  end.

Definition no_stat : stat := Stat 0 0 0 0 0 0 0 0 0 0.

Definition read_initrd (fs : bootfs F K) : DM Z :=
  let! name := get_aboot initrd_file in
  let! name := lift_opt (cstring name) in
  let! fd := through (open fs name) in
  if fd <? 0 then
    print ("%s: file not found" ++ nl) [AStr (Some name)] ;;; ret (-1)
  else
    let! ' (_, buf) := through (fstat fs fd no_stat) in
    let initrd_size := u64 (st_size buf) in
    let! u := get_aboot sys in
    let top := (if free_mem_ptr u =? 0 then memory_end (clusters u) else free_mem_ptr u) in
    let initrd_start := Z.land (u64 (top - initrd_size)) (Z.lnot (PAGE_SIZE - 1)) in
    set_initrd initrd_start initrd_size ;;;
    on_aboot (on_sys (set_free_mem_ptr initrd_start)) ;;;
    let! bs := get_bsize fs in
    if bs =? 0 then trap
    else
      let nblocks := s32 (initrd_size / u64 bs) in
      print ("aboot: loading initrd (%ld bytes/%d blocks) at %#lx" ++ nl)
        [AInt initrd_size; AInt nblocks; AInt initrd_start] ;;;
      let nblocks := (if negb (Z.land nblocks (bs - 1) =? 0) then nblocks + 1 else nblocks) in
      let! mem := on_loader (peek_mem initrd_start (nblocks * bs)) in
      let! ' (nread, mem) := through (bread fs fd 0 nblocks mem) in
      on_loader (poke_mem initrd_start mem) ;;;
      if negb (nread =? s32 (nblocks * bs)) then
        print ("aboot: read returned %d instead of %d (%d*%d) bytes" ++ nl)
          [AInt nread; AInt (nblocks * bs); AInt nblocks; AInt bs] ;;;
        ret (-1)
      else ret 0.

(** ** Disk label and file systems *)

Definition get_disklabel (dev : Z) : DM unit :=
  let n := LABELOFFSET + sizeof_disklabel in
  let! ' (nread, lsect) := on_console (io_read dev (replicate 512 0) n LABELSECTOR) in
  if negb (nread =? n) then
    print ("aboot: read of disklabel sector failed (nread=%ld)" ++ nl) [AInt nread]
  else
    let! l := lift_opt (aslice lsect LABELOFFSET sizeof_disklabel) in
    let! m := lift_opt (d_magic l) in
    let! m2 := lift_opt (d_magic2 l) in
    if (m =? DISKLABELMAGIC) && (m2 =? DISKLABELMAGIC) then
      let! n := lift_opt (d_npartitions l) in
      set_label (Some l) ;;;
      print ("aboot: valid disklabel found: %d partitions." ++ nl) [AInt n]
    else
      print ("aboot: no disklabel found." ++ nl) [] ;;;
      set_label None.

(* the first file system of bootfs[] that mounts the whole device *)
Fixpoint probe (l : list (bootfs F K)) (dev : Z) : DM (option (bootfs F K)) :=
  match l with
  | [] => ret None
  | fs :: l =>
      let! r := through (mount fs dev 0 1) in
      if 0 <=? r then ret (Some fs) else probe l dev
  end.

Definition mount_fs (dev partition : Z) : DM (option (bootfs F K)) :=
  let! l := gets label in
  if partition =? 0 then
    let! r := through (mount dummy dev 0 0) in
    if r <? 0 then print ("aboot: disk mount failed" ++ nl) [] ;;; ret None
    else ret (Some dummy)
  else
    match l with
    | None =>
        let! fs := probe table dev in
        match fs with
        | None => print ("aboot: unknown filesystem type" ++ nl) [] ;;; ret None
        | Some fs => ret (Some fs)
        end
    | Some l =>
        let! n := lift_opt (d_npartitions l) in
        if n <=? u32 (partition - 1) then
          print ("aboot: invalid partition %u" ++ nl) [AInt partition] ;;; ret None
        else
          let! t := lift_opt (p_fstype l (partition - 1)) in
          match List.find (λ fs, fs_type fs =? t) table with
          | None =>
              print ("aboot: don't know how to mount partition %d (filesystem type %d)" ++ nl)
                [AInt partition; AInt t] ;;;
              ret None
          | Some fs =>
              let! off := lift_opt (p_offset l (partition - 1)) in
              let! secsize := lift_opt (d_secsize l) in
              let! r := through (mount fs dev (s64 (off * secsize)) 0) in
              if r <? 0 then
                print ("aboot: mount of partition %d failed" ++ nl) [AInt partition] ;;; ret None
              else ret (Some fs)
          end
    end.

Definition list_directory (fs : bootfs F K) (dir : list Z) : DM unit :=
  let! fd := through (open fs dir) in
  if fd <? 0 then print ("%s: directory not found" ++ nl) [AStr (Some dir)]
  else
    loop fuel (λ rewind,
      let! ent := through (readdir fs fd rewind) in
      match ent with
      | None => ret (inr tt)
      | Some name => print ("%s" ++ nl) [AStr (Some name)] ;;; ret (inl 0)
      end) 1 ;;;
    through (close fs fd).

(** ** The configuration file *)

Definition configs : list string :=
  ["/etc/aboot.conf"; "/aboot.conf"; "/etc/aboot.cfg"; "/aboot.cfg"]%string.

Fixpoint open_first (fs : bootfs F K) (names : list string) (fd : Z) : DM Z :=
  match names with
  | [] => ret fd
  | name :: names =>
      let! fd := through (open fs (str name)) in
      if 0 <=? fd then ret fd else open_first fs names fd
  end.

Definition open_config_file (fs : bootfs F K) : DM Z := open_first fs configs (-1).

Definition print_config_file (fs : bootfs F K) : DM unit :=
  let! fd := open_config_file fs in
  if fd <? 0 then print ("%s: file not found" ++ nl) [AStr (Some (str CONFIG_FILE))]
  else
    let! bs := get_bsize fs in
    on_aboot (on_sys (malloc (u64 (bs + 1)))) ;;;
    loop fuel (λ '(blkno, buf),
      let! ' (nread, buf) := through (bread fs fd blkno 1 buf) in
      let! buf := lift_opt (aset buf nread 0) in
      let! text := lift_opt (cstring buf) in
      print "%s" [AStr (Some text)] ;;;
      ret (if 0 <? nread then inl (blkno + 1, buf) else inr tt))
      (0, replicate (Z.to_nat (bs + 1)) 0) ;;;
    through (close fs fd).

(** The scanner of [get_default_args]: its state, the line, the bytes of
    [str] and [d] as an index into them. *)
Record scanner := Scanner { sc_state : Z; sc_line : Z; sc_str : list Z; sc_d : Z }.

Definition scan_char (num : Z) (c : Z) (sc : scanner) : DM scanner :=
  let go state := Scanner state (sc_line sc) (sc_str sc) (sc_d sc) in
  let c := s8 c in
  if (sc_state sc =? 0) || (sc_state sc =? 1) then ret (if c =? 10 then go 2 else sc)
  else if sc_state sc =? 2 then
    let to state := Scanner state (s32 (sc_line sc + 1)) (sc_str sc) (sc_d sc) in
    ret (if c =? num then to 3 else if c =? 35 then to 1 else if c =? 45 then to 5 else to 0)
  else if sc_state sc =? 3 then
    if c =? 58 then ret (go 4)
    else
      print ("aboot: syntax error in line %d: `:' expected" ++ nl) [AInt (sc_line sc)] ;;;
      ret (go 2)
  else if sc_state sc =? 4 then
    if c =? 10 then
      let! l := lift_opt (aset (sc_str sc) (sc_d sc) 0) in
      ret (Scanner 5 (sc_line sc) l (sc_d sc))
    else
      let! l := lift_opt (aset (sc_str sc) (sc_d sc) (u8 c)) in
      ret (Scanner 4 (sc_line sc) l (sc_d sc + 1))
  else ret sc.

(* while (p < buf + nread && *p && state != 5), over the bytes read *)
Fixpoint scan_block (num : Z) (p : list Z) (sc : scanner) : DM scanner :=
  match p with
  | [] => ret sc
  | c :: p =>
      if (c =? 0) || (sc_state sc =? 5) then ret sc
      else let! sc := scan_char num c sc in scan_block num p sc
  end.

Definition get_default_args (fs : bootfs F K) (out : list Z) (num : Z) : DM (Z * list Z) :=
  let! out := lift_opt (aset out 0 0) in
  let! fd := open_config_file fs in
  if fd <? 0 then
    print ("%s: file not found" ++ nl) [AStr (Some (str CONFIG_FILE))] ;;; ret (-1, out)
  else
    let! bs := get_bsize fs in
    on_aboot (on_sys (malloc (u64 bs))) ;;;
    let! sc := loop fuel (λ '(blkno, buf, sc),
      let! ' (nread, buf) := through (bread fs fd blkno 1 buf) in
      let! p := lift_opt (aslice buf 0 (Z.max 0 nread)) in
      let! sc := scan_block num p sc in
      ret (if (0 <? nread) && negb (sc_state sc =? 5) then inl (blkno + 1, buf, sc) else inr sc))
      (0, replicate (Z.to_nat bs) 0, Scanner 2 1 out 0) in
    through (close fs fd) ;;;
    if negb (sc_state sc =? 5) then
      print ("aboot: could not find default config `%c'" ++ nl) [AInt num] ;;; ret (-1, sc_str sc)
    else ret (0, sc_str sc).

(** ** The boot options *)

Definition help_lines : list string :=
  [ "Commands:" ++ nl;
    " h, ?" ++ tab ++ tab ++ tab ++ "Display this message" ++ nl;
    " q" ++ tab ++ tab ++ tab ++ "Halt the system and return to SRM" ++ nl;
    " p 1-8" ++ tab ++ tab ++ tab ++ "Look in partition <num> for configuration/kernel" ++ nl;
    " l" ++ tab ++ tab ++ tab ++ "List preconfigured kernels" ++ nl;
    " d <dir>" ++ tab ++ tab ++ "List directory <dir> in current filesystem" ++ nl;
    " b <file> <args>" ++ tab ++ "Boot kernel in <file> (- for raw boot)" ++ nl;
    " i <file>" ++ tab ++ tab ++ "Use <file> as initial ramdisk" ++ nl;
    tab ++ tab ++ tab ++ "with arguments <args>" ++ nl;
    " 0-9" ++ tab ++ tab ++ tab ++ "Boot preconfiguration 0-9 (list with 'l')" ++ nl ]%string.

Definition print_help : DM unit := print (String.concat "" help_lines) [].

(* a C string inside an array, from an offset *)
Definition string_at (buf : list Z) (off : Z) : DM (list Z) :=
  let! tl := lift_opt (aslice buf off (zlen buf - off)) in lift_opt (cstring tl).

Definition char_at (buf : list Z) (off : Z) : DM Z :=
  let! c := lift_opt (aget buf off) in ret (s8 c).

(* extra_args = &kernel_args[off], without leading spaces; NULL when empty *)
Definition extra_from (args : list Z) (off : Z) : DM (option Z) :=
  let! s := string_at args off in
  let t := skip_spaces s in
  ret (match t with [] => None | _ => Some (off + (zlen s - zlen t)) end).

(** The forms of the -flags argument: preset, interactive, extra arguments (an
    offset in kernel_args). *)
Definition parse_flags_arg : DM (Z * Z * option Z) :=
  let! args := get_aboot kernel_args in
  let! c0 := char_at args 0 in
  let! c1 := char_at args 1 in
  let! c2 := char_at args 2 in
  let! c3 := char_at args 3 in
  if (49 <=? c0) && (c0 <=? 57) && (c1 =? 58) && negb (c2 =? 0) && ((c3 =? 0) || (c3 =? 32)) then
    set_config_partition (c0 - 48) ;;;
    if negb (c3 =? 0) then let! e := extra_from args 3 in ret (c2, 0, e)
    else ret (c2, 0, None)
  else if negb (c0 =? 0) && ((c1 =? 0) || (c1 =? 32)) then
    if c0 =? 105 then ret (0, 1, None)
    else if negb (c1 =? 0) then let! e := extra_from args 1 in ret (c0, 0, e)
    else ret (c0, 0, None)
  else if c0 =? 0 then ret (0, 1, None)
  else ret (0, 0, None).

(* p = strchr(buf, ' '); while (p && *p == ' ') ++p; *)
Definition argument (buf : list Z) : DM (option (list Z)) :=
  let! s := lift_opt (cstring buf) in
  ret (skip_spaces <$> str_from s 32).

(** The variables of the command loop. *)
Record options := Options {
  o_preset : Z;
  o_extra : option Z;
  o_buf : list Z;
  o_fs : option (bootfs F K)
}.

(* if (!fs) fs = mount_fs(dev, config_file_partition) *)
Definition ensure_fs (dev : Z) (fs : option (bootfs F K)) : DM (option (bootfs F K)) :=
  match fs with
  | Some fs => ret (Some fs)
  | None => let! p := gets config_file_partition in mount_fs dev p
  end.

(* the commands that look at a file system *)
Definition with_fs (dev : Z) (o : options) (k : bootfs F K → DM unit) : DM (options + options) :=
  let! fs := ensure_fs dev (o_fs o) in
  match fs with
  | None =>
      let! p := gets config_file_partition in
      print ("Partition %ld is invalid. Please specify another with 'p'" ++ nl) [AInt p] ;;;
      ret (inl (Options (o_preset o) (o_extra o) (o_buf o) None))
  | Some fs =>
      k fs ;;;
      ret (inl (Options (o_preset o) (o_extra o) (o_buf o) (Some fs)))
  end.

Definition command_p (o : options) : DM (options + options) :=
  let! p := argument (o_buf o) in
  match p with
  | Some (c :: rest) =>
      if (49 <=? s8 c) && (s8 c <=? 56) && bool_decide (head rest = None ∨ head rest = Some 32) then
        set_config_partition (s8 c - 48) ;;;
        ret (inl (Options (o_preset o) (o_extra o) (o_buf o) None))
      else print ("Please specify a number between 1 and 8" ++ nl) [] ;;; ret (inl o)
  | _ => print ("Please specify a number between 1 and 8" ++ nl) [] ;;; ret (inl o)
  end.

Definition command_d (dev : Z) (o : options) : DM (options + options) :=
  with_fs dev o (λ fs,
    let! p := argument (o_buf o) in
    list_directory fs (match p with Some p => p | None => str "/" end)).

Definition command_b (o : options) : DM (options + options) :=
  let! p := argument (o_buf o) in
  match p with
  | Some p =>
      let! buf := lift_opt (put_cstring (o_buf o) p) in
      ret (inr (Options (o_preset o) (o_extra o) buf (o_fs o)))
  | None =>
      print ("Please specify a file to load the kernel from, or '-' to load the kernel from the boot sector" ++ nl) [] ;;;
      ret (inl o)
  end.

Definition command_i (o : options) : DM (options + options) :=
  let! p := argument (o_buf o) in
  match p with
  | Some p =>
      let! f := get_aboot initrd_file in
      let! f := lift_opt (put_cstring f p) in
      set_initrd_file f ;;;
      ret (inl o)
  | None => print ("Please specify a file to use as initial ramdisk" ++ nl) [] ;;; ret (inl o)
  end.

Definition command_digit (c : Z) (o : options) : DM (options + options) :=
  let! p := argument (o_buf o) in
  match p with
  | Some p =>
      let! a := get_aboot kernel_args in
      let! a := lift_opt (put_cstring a p) in
      set_kernel_args a ;;;
      ret (inl (Options c (Some 0) (o_buf o) (o_fs o)))
  | None => ret (inl (Options c (o_extra o) (o_buf o) (o_fs o)))
  end.

(** One turn of the loop; [inr] when it is done. *)
Definition options_turn (dev : Z) (o : options) : DM (options + options) :=
  if negb (o_preset o =? 0) then
    let! fs := ensure_fs dev (o_fs o) in
    match fs with
    | None => ret (inl (Options 0 (o_extra o) (o_buf o) None))
    | Some fs =>
        let! ' (r, buf) := get_default_args fs (o_buf o) (o_preset o) in
        if 0 <=? r then ret (inr (Options (o_preset o) (o_extra o) buf (Some fs)))
        else ret (inl (Options 0 (o_extra o) buf (Some fs)))
    end
  else
    let! a := get_aboot kernel_args in
    let! a := lift_opt (aset a 0 0) in
    set_kernel_args a ;;;
    let! f := gets first in
    (if negb (f =? 0) then
       print ("Welcome to aboot " ++ ABOOT_VERSION ++ nl) [] ;;;
       print_help ;;;
       set_first 0
     else ret tt) ;;;
    print "aboot> " [] ;;;
    let! buf := on_console (io_getline (o_buf o) 256) in
    let o := Options (o_preset o) (o_extra o) buf (o_fs o) in
    print nl [] ;;;
    let! c := char_at buf 0 in
    if (c =? 104) || (c =? 63) then print_help ;;; ret (inl o)
    else if c =? 113 then halt
    else if c =? 112 then command_p o
    else if c =? 108 then with_fs dev o print_config_file
    else if c =? 100 then command_d dev o
    else if c =? 98 then command_b o
    else if c =? 105 then command_i o
    else if (48 <=? c) && (c <=? 57) then command_digit c o
    else ret (inl o).

(* the buffer of a command or a preset becomes boot_file and kernel_args *)
Definition split_command (o : options) : DM unit :=
  let! a := get_aboot kernel_args in
  let! buf :=
    match o_extra o with
    | Some off =>
        let! s := lift_opt (cstring (o_buf o)) in
        let! extra := string_at a off in
        lift_opt (put_cstring (o_buf o) (s ++ [32] ++ extra))
    | None => ret (o_buf o)
    end in
  let! s := lift_opt (cstring buf) in
  let! file :=
    match str_from s 32 with
    | Some rest =>
        let! a := lift_opt (put_cstring a (skip_spaces (tail rest))) in
        set_kernel_args a ;;;
        ret (take (length s - length rest) s)
    | None => ret s
    end in
  let! b := get_aboot boot_file in
  let! b := lift_opt (put_cstring b file) in
  set_boot_file b.

(** [do { if (strncmp(p, "initrd=", 7) == 0) break; } while ( *p++)]: where p
    points afterwards.  Without a match it is behind the NUL. *)
Fixpoint find_initrd (s : list Z) (p : Z) : Z :=
  if is_prefix (str "initrd=") s then p
  else match s with
       | [] => p + 1
       | _ :: s => find_initrd s (p + 1)
       end.

Definition parse_initrd : DM unit :=
  let! args := get_aboot kernel_args in
  let! s := lift_opt (cstring args) in
  let p := find_initrd s 0 in
  let! c := lift_opt (aget args p) in
  if c =? 0 then ret tt
  else
    let! a := string_at args (p + 7) in
    let! f := get_aboot initrd_file in
    match str_from a 32 with
    | Some e =>
        let name := take (length a - length e) a in
        let! f := lift_opt (put_cstring f name) in
        set_initrd_file f ;;;
        let! args := lift_opt (asplice args p (e ++ [0])) in
        set_kernel_args args
    | None =>
        let! f := lift_opt (put_cstring f a) in
        set_initrd_file f ;;;
        let! args := lift_opt (aset args p 0) in
        set_kernel_args args
    end.

(* the partition in front of the file name *)
Definition parse_partition : DM unit :=
  let! f := get_aboot boot_file in
  let! c0 := char_at f 0 in
  let! c1 := char_at f 1 in
  if (48 <=? c0) && (c0 <=? 57) && (c1 =? 47) then
    set_boot_part (c0 - 48) ;;;
    let! s := string_at f 2 in
    let! f := lift_opt (put_cstring f s) in
    set_boot_file f
  else
    let! p := gets config_file_partition in
    set_boot_part p.

(** [buf] is the array of 256 bytes on the stack. *)
Definition get_aboot_options (dev : Z) (buf : list Z) : DM unit :=
  let! ' (preset, interactive, extra) := parse_flags_arg in
  (if negb (preset =? 0) || negb (interactive =? 0) then
     let! o := loop fuel (options_turn dev) (Options preset extra buf None) in
     split_command o
   else ret tt) ;;;
  parse_initrd ;;;
  parse_partition.

(** ** Loading *)

Definition load (dev : Z) : DM Z :=
  let! fname := get_aboot boot_file in
  let! fname := lift_opt (cstring fname) in
  let! r :=
    (if bool_decide (fname = str "-") then load_raw dev
     else
       let! p := gets boot_part in
       let! fs := mount_fs dev p in
       set_bfs fs ;;;
       match fs with
       | None =>
           print ("aboot: mount of partition %d failed" ++ nl) [AInt p] ;;; ret (-1)
       | Some fs => read_kernel fs fname
       end) in
  if r <? 0 then ret (-1)
  else
    let! bss := get_aboot (λ s, (bss_start s, bss_size s)) in
    print ("aboot: zero-filling %ld bytes at 0x%p" ++ nl) [AInt bss.2; AInt bss.1] ;;;
    on_loader (poke_mem bss.1 (replicate (Z.to_nat bss.2) 0)) ;;;
    let! f := get_aboot initrd_file in
    let! c := lift_opt (aget f 0) in
    if c =? 0 then ret 0
    else
      let! p := gets boot_part in
      let! fs := mount_fs dev p in
      set_bfs fs ;;;
      match fs with
      | None => print ("aboot: mount of partition %d failed" ++ nl) [AInt p] ;;; ret (-1)
      | Some fs =>
          let! r := read_initrd fs in
          ret (if r <? 0 then -1 else 0)
      end.

(** The device booted from, opened and its label looked for; [None] when there
    is none.  [stack] stands for the bytes of an array nothing has been stored in. *)
Definition boot_device (stack : list Z) : DM (option Z) :=
  let! ' (r, envval) := on_console (io_getenv ENV_BOOTED_DEV stack 256) in
  if r <? 0 then
    print ("aboot: Can't get BOOTED_DEV environment variable!" ++ nl) [] ;;; ret None
  else
    let! name := lift_opt (cstring envval) in
    print ("aboot: booting from device '%s'" ++ nl) [AStr (Some name)] ;;;
    let! dev := on_console (io_open name) in
    if dev <? 0 then
      print ("aboot: unable to open boot device `%s': %lx" ++ nl) [AStr (Some name); AInt dev] ;;;
      ret None
    else
      let dev := Z.land dev 0xffffffff in
      get_disklabel dev ;;;
      ret (Some dev).

(** One turn: [inl] asks the user for other options. *)
Definition load_turn (dev : Z) (stack : list Z) : DM (unit + Z) :=
  get_aboot_options dev stack ;;;
  let! result := load dev in
  if negb (result =? -1) then ret (inr result)
  else
    let! a := get_aboot kernel_args in
    let! a := lift_opt (put_cstring a (str "i")) in
    set_kernel_args a ;;;
    ret (inl tt).

Definition load_kernel (stack : list Z) : DM Z :=
  let! dev := boot_device stack in
  match dev with
  | None => ret (-1)
  | Some dev =>
      let! result := loop fuel (λ _, load_turn dev stack) tt in
      on_console (io_close dev) ;;;
      ret result
  end.
End disk_code.
