(* ===== verification/DiskLoad.v ===== *)
(** * disk.c over a file system: the kernel in memory

    [load_uncompressed] against the contract of the file system ([BootFile]):
    whatever file system keeps it, every segment of the kernel ends up at its
    address. *)

From Stdlib Require Import Ascii String.
From S2P Require Import Prelude CString Vsprintf Cons Utils Aboot BootFs Gzip Ext2 Ext2Read Files Disk.

Open Scope Z_scope.
Open Scope list_scope.

Section disk_load.
Context {F K : Type} `{HO : ConsOut K} (fs : bootfs F K) (fd bs : Z) (content : list Z)
  `{HB : !BootFile fs fd bs content}.

(** [d] with another file system state, console and allocator, and memory. *)
Definition at_state (d : disk F K) (f : F) (u : ustate K) (m : mem) : disk F K :=
  Disk (set_base (Loader (set_sys (ab (base (gz d))) u) f m) (gz d)) (label d) (boot_part d)
    (config_file_partition d) (bfs d) (first d).

(** The state [d] is itself of that form. *)
Lemma at_state_self d : d = at_state d (fss (base (gz d))) (sys (ab (base (gz d)))) (kmem (base (gz d))).
Proof. by destruct d as [[[[]]] ? ? ? ? ?]. Qed.

(** *** The steps of the loader *)

Lemma print_io {B} fmt args (k : unit → M (disk F K) B) d f u m Q :
  io_ok (u_con u) → printable fmt args →
  (∀ c, io_ok c → io_disk c = io_disk (u_con u) →
     returns (k tt) (at_state d f (UState c (clusters u) (pagesize u) (free_mem_ptr u) (dest_addr u)) m) Q) →
  returns (bind (print fmt args) k) (at_state d f u m) Q.
Proof.
  intros Hio Hp HQ. destruct (out_printf fmt args (u_con u) Hio Hp) as (r&c&E&Hc&Hd).
  eapply returns_eq; [|exact (HQ c Hc Hd)].
  unfold print, on_loader, on_gz, on_base, tell, on_ab, say, on_sys, on_con, bind.
  cbn [gz at_state base set_base ab sys set_sys]. by rewrite E.
Qed.

Lemma print_at {B} fmt args (k : unit → M (disk F K) B) d f u m Q :
  file_ok (f, u) → printable fmt args →
  (∀ u', file_ok (f, u') → same_heap u u' → returns (k tt) (at_state d f u' m) Q) →
  returns (bind (print fmt args) k) (at_state d f u m) Q.
Proof.
  intros Hf Hp HQ. apply print_io; [by apply (file_io _ _ Hf)|done|]. intros c Hc Hd.
  apply HQ; [by apply (file_heap _ _ _ Hf)|done].
Qed.

Lemma peek_at p n d f u m l : read_mem m p n = Some l →
  on_loader (peek_mem p n) (at_state d f u m) = Ret l (at_state d f u m).
Proof.
  intros E. unfold on_loader, on_gz, on_base, peek_mem, bind, gets.
  cbn [gz at_state base set_base kmem]. by rewrite E.
Qed.

Lemma poke_at p l d f u m : mapped m p (zlen l) →
  on_loader (poke_mem p l) (at_state d f u m) = Ret tt (at_state d f u (mem_write m p l)).
Proof.
  intros Hm. unfold on_loader, on_gz, on_base, poke_mem, bind, gets.
  cbn [gz at_state base set_base kmem]. by rewrite write_mem_mapped.
Qed.

Lemma bread_at k n buf d f u m (Q : Z * list Z → disk F K → Prop) :
  file_ok (f, u) → 0 <= k → 0 <= n → (k + n) * bs <= zlen content → n * bs < 2 ^ 31 → n * bs <= zlen buf →
  (∀ data f' u', aslice content (k * bs) (n * bs) = Some data → file_ok (f', u') → same_heap u u' →
     Q (n * bs, data ++ drop (Z.to_nat (n * bs)) buf) (at_state d f' u' m)) →
  returns (through (bread fs fd k n buf)) (at_state d f u m) Q.
Proof.
  intros Hf Hk Hn Hin H31 Hb HQ.
  destruct (file_bread f u k n buf Hf Hk Hn Hin H31 Hb) as (data&f'&u'&E&Hd&Hf'&Hu).
  exists (n * bs, data ++ drop (Z.to_nat (n * bs)) buf), (at_state d f' u' m). split; [|by apply HQ].
  unfold through, on_loader, on_gz, on_base, on_fs. cbn [gz at_state base set_base fss ab sys set_sys].
  by rewrite E.
Qed.

(** *** One segment *)

Definition low_of (c : segment) : Z := Z.land (offset c) (bs - 1).
Definition nblocks_of (c : segment) : Z := u64 (size c + low_of c + bs - 1) / bs.
(** The bytes stored from the segment's address on. *)
Definition extent (c : segment) : Z := nblocks_of c * bs.

Definition announced (i : Z) (c : segment) : Prop :=
  printable ("aboot: segment %d, %ld bytes at %#lx" ++ nl) [AInt i; AInt (size c); AInt (addr c)].

(** The blocks of the segment are in the file, and the memory for them there. *)
Definition loadable (m : mem) (i : Z) (c : segment) : Prop :=
  0 <= offset c ∧ 0 <= size c ∧ size c + 2 * bs < 2 ^ 31 ∧
  (offset c / bs + nblocks_of c) * bs <= zlen content ∧ announced i c ∧ mapped m (addr c) (extent c).

Definition loaded (c : segment) (m : mem) : Prop :=
  ∀ x, 0 <= x < size c → m !! (addr c + x) = aget content (offset c + x).

Definition block_power : Prop := ∃ e, 0 <= e ∧ bs = 2 ^ e.

Lemma bs_pos : block_power → 0 < bs.
Proof. intros (e&He&->). lia. Qed.

Lemma low_mod c : block_power → 0 <= offset c → low_of c = offset c mod bs.
Proof.
  intros (e&He&Ebs) Ho. unfold low_of. rewrite Ebs, Z.sub_1_r, <- Z.ones_equiv. by apply Z.land_ones.
Qed.

(** The blocks cover the segment. *)
Lemma extent_covers c m i : block_power → loadable m i c →
  0 <= nblocks_of c ∧ low_of c + size c <= extent c < 2 ^ 31 ∧ 0 <= low_of c < bs.
Proof.
  intros Hb (Ho&Hs&H31&_). pose proof (bs_pos Hb) as Hbs. rewrite (low_mod c Hb Ho).
  pose proof (Z.mod_pos_bound (offset c) bs Hbs) as Hl.
  unfold extent, nblocks_of. rewrite (low_mod c Hb Ho), (wrap_small 64) by lia.
  set (n := size c + offset c mod bs + bs - 1). pose proof (Z.div_mod n bs ltac:(lia)) as Hd.
  pose proof (Z.mod_pos_bound n bs Hbs). pose proof (Z.div_pos n bs ltac:(lia) Hbs). lia.
Qed.

Lemma nblocks_eq c : u64 (size c + low_of c + bs - 1) / bs = nblocks_of c.
Proof. done. Qed.

(** What a segment's load changes. *)
Definition segment_stored (c : segment) (m m' : mem) : Prop :=
  loaded c m' ∧ (∀ q, ¬ (addr c <= q < addr c + extent c) → m' !! q = m !! q) ∧
  (∀ q, is_Some (m !! q) → is_Some (m' !! q)).

Lemma mem_write_keeps m p l q : is_Some (m !! q) → is_Some (mem_write m p l !! q).
Proof.
  intros Hq. rewrite mem_write_lookup. case_decide; [|done]. apply lookup_lt_is_Some. unfold zlen in *. lia.
Qed.

Lemma mem_write_at m p l i : 0 <= i < zlen l → mem_write m p l !! (p + i) = aget l i.
Proof.
  intros Hi. rewrite mem_write_lookup. unfold aget. rewrite !decide_True by lia. f_equal. lia.
Qed.

Lemma stored_plain c m data : zlen data = extent c → size c <= extent c →
  (∀ x, 0 <= x < size c → aget data x = aget content (offset c + x)) →
  segment_stored c m (mem_write m (addr c) data).
Proof.
  intros Hz Hle Hd. split; [|split].
  - intros x Hx. rewrite mem_write_at by lia. by apply Hd.
  - intros q Hq. apply mem_write_frame. by rewrite Hz.
  - intros q. apply mem_write_keeps.
Qed.

Lemma stored_moved c m data moved : zlen data = extent c → zlen moved = size c → size c <= extent c →
  (∀ x, 0 <= x < size c → aget moved x = aget content (offset c + x)) →
  segment_stored c m (mem_write (mem_write m (addr c) data) (addr c) moved).
Proof.
  intros Hz Hzm Hle Hd. split; [|split].
  - intros x Hx. rewrite mem_write_at by lia. by apply Hd.
  - intros q Hq. rewrite !mem_write_frame by lia. done.
  - intros q Hq. by apply mem_write_keeps, mem_write_keeps.
Qed.

Lemma file_segment_ok d f u m i c :
  block_power → file_ok (f, u) → aget (chunks (ab (base (gz d)))) i = Some c → loadable m i c →
  returns (file_segment fs bs fd i) (at_state d f u m) (λ ok d', ok = true ∧ ∃ f' u' m',
    d' = at_state d f' u' m' ∧ file_ok (f', u') ∧ same_heap u u' ∧ segment_stored c m m').
Proof.
  intros Hb Hf Hc Hl. pose proof (bs_pos Hb) as Hbs. pose proof Hl as (Ho&Hs&H31&Hin&Hann&Hmap).
  destruct (extent_covers c m i Hb Hl) as (Hn0&Hext&Hlow).
  unfold file_segment, get_aboot. step. eapply returns_opt; [exact Hc|]. cbv beta zeta.
  fold (low_of c). rewrite nblocks_eq. fold (extent c).
  apply print_at; [done|exact Hann|]. intros u1 Hf1 Hu1.
  destruct (read_mem_mapped m (addr c) (extent c)) as (buf&Ebuf&Hzb); [lia|done|].
  eapply returns_eq; [by apply peek_at|].
  eapply returns_bind; [apply (bread_at _ _ _ d f u1 m (λ r d', ∃ data f' u',
    aslice content (offset c / bs * bs) (extent c) = Some data ∧ r = (extent c, data) ∧
    d' = at_state d f' u' m ∧ file_ok (f', u') ∧ same_heap u1 u'))|].
  { done. } { by apply Z.div_pos. } { done. } { done. } { fold (extent c). lia. } { fold (extent c). lia. }
  { intros data f' u' Hd Hf' Hu'. exists data, f', u'. split; [done|]. split; [|done].
    fold (extent c). rewrite drop_ge by (unfold zlen in *; lia). by rewrite app_nil_r. }
  intros ? ? (data&f2&u2&Hd&->&->&Hf2&Hu2). pose proof (aslice_len _ _ _ _ Hd) as Hzd.
  eapply returns_eq; [apply poke_at; by rewrite Hzd|]. rewrite Z.eqb_refl. cbn [negb].
  assert (offset c = offset c / bs * bs + low_of c) as Eo
    by (rewrite (low_mod c Hb Ho); pose proof (Z.div_mod (offset c) bs ltac:(lia)); lia).
  destruct (Z.eqb_spec (low_of c) 0) as [E0|E0]; cbn [negb].
  - step. split; [done|]. exists f2, u2, (mem_write m (addr c) data). split; [done|]. split; [done|].
    split; [by etrans|]. apply stored_plain; [done|lia|]. intros x Hx.
    rewrite (aget_aslice _ _ _ _ _ Hd) by lia. f_equal. lia.
  - destruct (aslice_is_Some data (low_of c) (size c)) as [mv Emv]; [lia..|].
    pose proof (aslice_len _ _ _ _ Emv) as Hzm.
    assert (read_mem (mem_write m (addr c) data) (addr c + low_of c) (size c) = Some mv) as Er.
    { rewrite <- Emv. apply read_mem_cells; [lia..|].
      intros x Hx. rewrite <- Z.add_assoc. by apply mem_write_at; lia. }
    eapply returns_eq; [by apply peek_at|].
    eapply returns_eq; [apply poke_at|].
    { intros q Hq. apply mem_write_keeps, Hmap. lia. }
    step. split; [done|]. eexists f2, u2, _. split; [done|]. split; [done|]. split; [by etrans|].
    apply stored_moved; [done|done|lia|]. intros x Hx.
    rewrite (aget_aslice _ _ _ _ _ Emv), (aget_aslice _ _ _ _ _ Hd) by lia. f_equal. lia.
Qed.

(** *** All of them *)

(** No segment is loaded over one loaded before it. *)
Definition segments_apart (cs : list segment) : Prop :=
  ∀ i j a b x, 0 <= i < j → aget cs i = Some a → aget cs j = Some b → 0 <= x < size a →
    ¬ (addr b <= addr a + x < addr b + extent b).

Lemma stored_keeps_loaded a c m m' : segment_stored c m m' → loaded a m →
  (∀ x, 0 <= x < size a → ¬ (addr c <= addr a + x < addr c + extent c)) → loaded a m'.
Proof. intros (_&Hfr&_) Ha Hap x Hx. rewrite Hfr by auto. by apply Ha. Qed.

Lemma each_segment_ok d f u m :
  let cs := chunks (ab (base (gz d))) in
  nchunks (ab (base (gz d))) = zlen cs → block_power → file_ok (f, u) → segments_apart cs →
  (∀ i c, aget cs i = Some c → loadable m i c) →
  returns (each_segment (file_segment fs bs fd)) (at_state d f u m) (λ r d', r = 0 ∧ ∃ f' u' m',
    d' = at_state d f' u' m' ∧ file_ok (f', u') ∧ same_heap u u' ∧
    (∀ i c, aget cs i = Some c → loaded c m') ∧ (∀ q, is_Some (m !! q) → is_Some (m' !! q))).
Proof.
  intros cs Hn Hb Hf Hap Hl. unfold each_segment, get_aboot. step.
  change (nchunks (ab (base (gz (at_state d f u m))))) with (nchunks (ab (base (gz d)))). rewrite Hn.
  pose proof (zlen_nonneg cs) as Hz.
  apply returns_loop with (meas := λ i _, Z.to_nat (zlen cs - i)) (I := λ i d', 0 <= i <= zlen cs ∧
    ∃ f' u' m', d' = at_state d f' u' m' ∧ file_ok (f', u') ∧ same_heap u u' ∧
    (∀ j c, j < i → aget cs j = Some c → loaded c m') ∧ (∀ q, is_Some (m !! q) → is_Some (m' !! q))).
  - split; [lia|]. exists f, u, m. do 2 (split; [done|]). split; [done|].
    split; [|done]. intros j c Hj E. apply aget_range in E. lia.
  - lia.
  - intros i d1 (Hi&f1&u1&m1&->&Hf1&Hu1&Hld&Hdom). destruct (Z.ltb_spec i (zlen cs)) as [Hlt|Hge].
    2:{ step. split; [done|]. exists f1, u1, m1. do 3 (split; [done|]). split; [|done].
        intros j c E. apply (Hld j c); [apply aget_range in E; lia|done]. }
    destruct (proj2 (aget_is_Some cs i)) as [c Ec]; [lia|].
    eapply returns_bind; [apply (file_segment_ok d f1 u1 m1 i c Hb Hf1 Ec)|].
    { destruct (Hl i c Ec) as (?&?&?&?&?&Hmap). repeat (split; [done|]). intros q Hq. by apply Hdom, Hmap. }
    intros ok d2 (->&f2&u2&m2&->&Hf2&Hu2&Hst). step. split; [|lia]. split; [lia|].
    exists f2, u2, m2. split; [done|]. split; [done|]. split; [by etrans|]. split.
    + intros j a Hj Ea. destruct (decide (j = i)) as [->|Hne].
      * rewrite Ec in Ea. injection Ea as <-. apply Hst.
      * apply (stored_keeps_loaded a c m1 m2 Hst); [apply (Hld j a); [lia|done]|].
        intros x Hx. apply aget_range in Ea as Hj'. apply (Hap j i a c x); [lia|done..].
    + intros q Hq. by apply Hst, Hdom.
Qed.

(** *** load_uncompressed *)

Lemma malloc_at n d f u m p u' : malloc n u = Ret p u' →
  on_aboot (on_sys (malloc n)) (at_state d f u m) = Ret p (at_state d f u' m).
Proof.
  intros E. unfold on_aboot, on_loader, on_gz, on_base, on_ab, on_sys.
  cbn [gz at_state base set_base ab sys set_sys]. by rewrite E.
Qed.

(** [d] with the globals of aboot.c replaced. *)
Definition with_aboot (a : aboot K) (d : disk F K) : disk F K :=
  Disk (set_base (Loader a (fss (base (gz d))) (kmem (base (gz d)))) (gz d)) (label d) (boot_part d)
    (config_file_partition d) (bfs d) (first d).

Lemma malloc_file_ok n f u p u' : file_ok (f, u) → malloc n u = Ret p u' → file_ok (f, u').
Proof.
  intros Hf E. apply malloc_frame in E as ->. apply (file_heap _ _ _ Hf); [|done].
  exact (file_io _ _ Hf).
Qed.

Lemma load_uncompressed_ok d h hdr p1 u1 p2 u2 :
  let a := ab (base (gz d)) in let u := sys a in let m := kmem (base (gz d)) in
  let cs := map segment_of (filter is_load (h_table h)) in
  file_ok (fss (base (gz d)), u) → block_power → bs < 2 ^ 31 → aslice content 0 bs = Some hdr →
  parse_elf hdr = Some h → h_phoff h + h_phnum h * sizeof_phdr <= bs → 0 <= h_phoff h → 0 < h_phnum h →
  Forall (mem_free a) (h_table h) → bss_size a <= 0 → (length (bss_headers (h_table h)) <= 1)%nat →
  malloc bs u = Ret p1 u1 → malloc (sizeof_segment * h_phnum h) u1 = Ret p2 u2 →
  segments_apart cs → (∀ i c, aget cs i = Some c → loadable m i c) →
  returns (load_uncompressed fs fd) d (λ r d', r = 0 ∧ ∃ p v f' u' m',
    hd_error (h_table h) = Some p ∧ d' = at_state (with_aboot (accepted h p v a) d) f' u' m' ∧ file_ok (f', u') ∧
    (∀ i c, aget cs i = Some c → loaded c m') ∧ (∀ q, is_Some (m !! q) → is_Some (m' !! q))).
Proof.
  intros a u m cs Hf Hb H31 Ehdr Eh Hfit Hph Hn Hfree Hbss Hone Em1 Em2 Hap Hl.
  pose proof (bs_pos Hb) as Hbs. rewrite (at_state_self d). fold a u m.
  unfold load_uncompressed, get_bsize. step. cbn [gz at_state base set_base fss].
  rewrite (file_bsize _ _ Hf), (wrap_small 64) by lia.
  eapply returns_eq; [by apply malloc_at|]. pose proof (malloc_file_ok _ _ _ _ _ Hf Em1) as Hf1.
  apply aslice_Some in Ehdr as Hr. destruct Hr as (_&_&Hlen&_).
  eapply returns_bind; [apply (bread_at 0 1 _ d _ u1 m (λ r d', ∃ f' u', r = (bs, hdr) ∧
    d' = at_state d f' u' m ∧ file_ok (f', u') ∧ same_heap u1 u'))|];
    [done|lia|lia|lia|lia|unfold zlen; rewrite length_replicate; lia| |].
  { intros data f' u' Hd Hf' Hu'. exists f', u'. rewrite Z.mul_0_l, Z.mul_1_l, Ehdr in Hd. injection Hd as <-.
    split; [|done]. rewrite Z.mul_1_l, drop_ge, app_nil_r by (rewrite length_replicate; lia). done. }
  intros ? ? (f2&v1&->&->&Hf2&Hv1). rewrite Z.eqb_refl. cbn [negb].
  destruct (malloc_same_heap _ _ _ _ _ Em2 Hv1) as (v2&Ev2&Hcon&Hv2).
  destruct (is_loadable_elf_ok hdr bs h (set_sys a v1) v2 p2) as (p&Ehd&Ea); try done.
  { by rewrite (wrap_small 32) by lia. }
  { eapply List.Forall_impl; [|exact Hfree]. intros q Hq Hlo. unfold mem_free in Hq. cbn [sys set_sys].
    destruct Hv1 as (->&_). apply malloc_frame in Em1 as ->. by apply Hq. }
  set (a2 := accepted h p v2 (set_sys a v1)) in *.
  eapply (returns_eq _ _ _ true (at_state (with_aboot a2 d) f2 v2 m)).
  { unfold on_aboot, on_loader, on_gz, on_base, on_ab. cbn [gz at_state base set_base ab]. fold a. by rewrite Ea. }
  cbn [negb]. rewrite (proj2 (Z.eqb_neq bs 0)) by lia.
  eapply returns_mono; [apply (each_segment_ok (with_aboot a2 d) f2 v2 m)|]; try done.
  - by apply (malloc_file_ok _ _ _ _ _ Hf2 Ev2).
  - intros r d' (->&f'&u'&m'&->&Hf'&_&Hld&Hdom). split; [done|]. exists p, v2, f', u', m'.
    exact (conj Ehd (conj eq_refl (conj Hf' (conj Hld Hdom)))).
Qed.
End disk_load.

(** ** The theorem *)

(** C14: An uncompressed kernel is loaded from any file system that keeps the
    contract of [BootFile]. When the first block of the file holds the headers
    of an acceptable executable, the heap has room for the buffers, the blocks
    of every segment are in the file, memory for them is there and no segment
    is loaded over an earlier one, then [load_uncompressed] returns 0, the
    entry address is that of the header, and every segment's address holds the
    bytes of the file from its offset on, whatever the alignment of the offset
    to the blocks. *)
Theorem kernel_segments_loaded {F K} `{HO : ConsOut K} fs fd bs content
    `{HB : !BootFile (F := F) fs fd bs content} (d : disk F K) h hdr p1 u1 p2 u2 :
  let a := ab (base (gz d)) in let cs := map segment_of (filter is_load (h_table h)) in
  file_ok (fss (base (gz d)), sys a) → block_power bs → bs < 2 ^ 31 → aslice content 0 bs = Some hdr →
  parse_elf hdr = Some h → h_phoff h + h_phnum h * sizeof_phdr <= bs → 0 <= h_phoff h → 0 < h_phnum h →
  Forall (mem_free a) (h_table h) → bss_size a <= 0 → (length (bss_headers (h_table h)) <= 1)%nat →
  malloc bs (sys a) = Ret p1 u1 → malloc (sizeof_segment * h_phnum h) u1 = Ret p2 u2 →
  segments_apart bs cs → (∀ i c, aget cs i = Some c → loadable bs content (kmem (base (gz d))) i c) →
  ∃ d', load_uncompressed fs fd d = Ret 0 d' ∧ entry_addr (ab (base (gz d'))) = h_entry h ∧
    Forall (λ c, read_mem (kmem (base (gz d'))) (addr c) (size c) = aslice content (offset c) (size c)) cs.
Proof.
  intros a cs Hf Hb H31 Hhdr Eh Hfit Hph Hn Hfree Hbss Hone Em1 Em2 Hap Hl.
  destruct (load_uncompressed_ok fs fd bs content d h hdr p1 u1 p2 u2) as (r&d'&E&->&p&v&f'&u'&m'&_&->&_&Hld&_); try done.
  eexists. split; [exact E|]. split; [done|]. apply List.Forall_forall. intros c Hc.
  apply list_elem_of_In, list_elem_of_lookup in Hc as [i Hi]. rewrite <- aget_of_nat in Hi.
  pose proof (Hl _ _ Hi) as Hlc. destruct (extent_covers fs fd bs content c _ _ Hb Hlc) as (_&Hcov&_).
  destruct Hlc as (Ho&Hs&_&Hin&_). apply read_mem_cells; [done|done| |by apply (Hld _ _ Hi)].
  unfold extent in Hcov. pose proof (Z.div_mod (offset c) bs).
  rewrite (low_mod bs c Hb Ho) in Hcov. pose proof (bs_pos fs fd bs content Hb). lia.
Qed.

(** *** An example: a kernel of two segments on an ext2 file system *)

Definition kx_phdr (off vaddr filesz memsz : Z) : list Z :=
  le_bytes 4 PT_LOAD ++ le_bytes 4 7 ++ le_bytes 8 off ++ le_bytes 8 vaddr ++ le_bytes 8 0 ++
  le_bytes 8 filesz ++ le_bytes 8 memsz ++ le_bytes 8 0x2000.

(** The file: the segments start in the middle of a block. *)
Definition kx_file : list Z :=
  let head := take 56 example_elf ++ le_bytes 2 2 ++ replicate 6 0 ++
    kx_phdr 200 0xfffffc0000310000 900 900 ++ kx_phdr 1500 0xfffffc0000320000 1000 4000 in
  let body := map (λ i, Z.of_nat i mod 251) (seq 0 2700) in
  take 3072 (head ++ body ++ replicate 1024 0).

Definition kx_disk : list Z :=
  take (3 * 1024) ex_disk ++
  ex_block [(128, le_bytes 2 0x41ed); (128 + 4, le_bytes 4 1024); (128 + 28, le_bytes 4 2);
            (128 + 40, le_bytes 4 5)] ++
  ex_block [(256, le_bytes 2 0x81a4); (256 + 4, le_bytes 4 2600); (256 + 28, le_bytes 4 6);
            (256 + 40, concat (map (le_bytes 4) [7; 8; 9]))] ++
  ex_block [(0, ex_dirent 2 12 "."); (12, ex_dirent 2 12 ".."); (24, ex_dirent 11 1000 "kernel")] ++
  replicate 1024 0 ++ kx_file ++ replicate 1024 0.

Definition kx_con : cstate refcon :=
  CState (RefCon [] [] 0 (λ d, if d =? 1 then kx_disk else []) (λ _, None)) 0
    (replicate 512 0) (replicate 1024 0).

Definition kx_fs : bootfs ext2 (cstate refcon) := ext2fs (H := ex_io) 20.

(** The file system mounted and the kernel open. *)
Definition kx_opened : Z * (ext2 * ustate (cstate refcon)) :=
  let s := (ext2_init, UState kx_con example_clusters 8192 0 (page_offset + 0x310000)) in
  match (mount kx_fs 1 0 0 ;;; open kx_fs (str "/kernel")) s with
  | Ret fd s => (fd, s)
  | _ => (-1, s)
  end.

Definition kx_inode : list Z := default [] (aslice kx_disk (4 * 1024 + 256) 128).

Definition kx_loader : disk ext2 (cstate refcon) :=
  let a := Aboot (kx_opened.2.2) 0 0 [] 0 [] [] [] 0 0 0 0 in
  let m := mem_write (mem_write ∅ 0xfffffc0000310000 (replicate 2048 0xff))
             0xfffffc0000320000 (replicate 2048 0xff) in
  Disk (Gzip (Loader a kx_opened.2.1 m) [] 0 [] 0 0 0 0 0 0 0 0 0 0 0 0 0) None 0 0 (Some kx_fs) 0.

Example kx_fd : kx_opened.1 = 1.
Proof. vm_compute. reflexivity. Qed.

Lemma kx_inode_ok : ext2_inode kx_disk (geo kx_opened.2.1) kx_inode kx_file 2600 3.
Proof.
  split.
  - exists 0. split; vm_compute; reflexivity.
  - vm_compute. reflexivity.
  - split; vm_compute; [discriminate|reflexivity].
  - split; vm_compute; [reflexivity|discriminate].
  - split; vm_compute; [discriminate|]. split; [discriminate|reflexivity].
  - apply plain_map_check. vm_compute. reflexivity.
  - apply (bool_decide_unpack _). vm_compute. exact I.
Qed.

Lemma kx_holds : ext2_holds (H0 := ex_laws) kx_disk (geo kx_opened.2.1) kx_inode 1
  (kx_opened.2.1, kx_opened.2.2).
Proof.
  split.
  - split; [split; [vm_compute; reflexivity|split; [vm_compute; reflexivity|apply Nat.ltb_lt; vm_compute; reflexivity]]|].
    split; [split; vm_compute; try (split; discriminate || reflexivity); reflexivity|].
    split; (split; [vm_compute; reflexivity|]); intros b _ E; vm_compute in E; discriminate.
  - split; [vm_compute; reflexivity|]. split; [vm_compute; reflexivity|].
    eexists. split; vm_compute; reflexivity.
Qed.

Definition kx_boot_file : BootFile (HO := cons_io_out 2000) kx_fs 1 1024 kx_file :=
  ext2_boot_file (HO := cons_io_out 2000) 20 kx_disk (geo kx_opened.2.1) kx_inode kx_file 2600 3 1
    kx_inode_ok ltac:(vm_compute; lia).

Definition kx_header : elf_header :=
  ElfHeader 0xfffffc0000310000 64 2
    [Phdr PT_LOAD 200 0xfffffc0000310000 900 900; Phdr PT_LOAD 1500 0xfffffc0000320000 1000 4000].

Lemma announced_short i c :
  printable_check ("aboot: segment %d, %ld bytes at %#lx" ++ nl) [AInt i; AInt (size c); AInt (addr c)] = true →
  announced (HO := cons_io_out 2000 (K := refcon)) i c.
Proof. apply (printable_checked (K := refcon) 2000). Qed.

Definition kx_sys : ustate (cstate refcon) := sys (ab (base (gz kx_loader))).
(** The heap after the block buffer, and after the table of segments. *)
Definition kx_heap (p : Z) : ustate (cstate refcon) :=
  UState (u_con kx_sys) (clusters kx_sys) (pagesize kx_sys) p (dest_addr kx_sys).

Lemma kx_malloc1 : malloc (H := cons_io 2000) 1024 (sys (ab (base (gz kx_loader)))) =
  Ret 18446739675796205536 (kx_heap 18446739675796205536).
Proof. vm_compute. reflexivity. Qed.

Lemma kx_malloc2 : malloc (H := cons_io 2000) 48 (kx_heap 18446739675796205536) =
  Ret 18446739675796205488 (kx_heap 18446739675796205488).
Proof. vm_compute. reflexivity. Qed.

Definition kx_chunks : list segment :=
  [Segment 0xfffffc0000310000 200 900; Segment 0xfffffc0000320000 1500 1000].

Lemma kx_apart : segments_apart 1024 kx_chunks.
Proof.
  intros i j a b x Hij Ea Eb Hx. apply aget_range in Ea as Hi. apply aget_range in Eb as Hj.
  change (zlen kx_chunks) with 2 in *. assert (i = 0 ∧ j = 1) as [-> ->] by lia.
  injection Ea as <-. injection Eb as <-. cbn [addr size] in *.
  change (extent 1024 (Segment 0xfffffc0000320000 1500 1000)) with 2048. lia.
Qed.

Lemma kx_loadable i c : aget kx_chunks i = Some c →
  loadable (HO := cons_io_out 2000) 1024 kx_file (kmem (base (gz kx_loader))) i c.
Proof.
  intros E. apply aget_range in E as Hi. change (zlen kx_chunks) with 2 in Hi.
  assert (i = 0 ∨ i = 1) as [-> | ->] by lia; injection E as <-;
    (split; [vm_compute; discriminate|]; split; [vm_compute; discriminate|];
     split; [vm_compute; reflexivity|]; split; [vm_compute; discriminate|]; split;
     [apply announced_short; vm_compute; reflexivity|
      apply mapped_seqZ; apply (bool_decide_unpack _); vm_compute; exact I]).
Qed.

Lemma kernel_segments_loaded_witness :
  ∃ d', load_uncompressed (H := ex_io) kx_fs 1 kx_loader = Ret 0 d' ∧
    entry_addr (ab (base (gz d'))) = 0xfffffc0000310000 ∧
    Forall (λ c, read_mem (kmem (base (gz d'))) (addr c) (size c) = aslice kx_file (offset c) (size c))
      kx_chunks.
Proof.
  apply (kernel_segments_loaded (HO := cons_io_out 2000) (HB := kx_boot_file) kx_fs 1 1024 kx_file
    kx_loader kx_header (take 1024 kx_file) 18446739675796205536 (kx_heap 18446739675796205536) 18446739675796205488 (kx_heap 18446739675796205488)).
  - exact kx_holds.
  - by exists 10.
  - done.
  - apply (bool_decide_unpack _). vm_compute. exact I.
  - vm_compute. reflexivity.
  - vm_compute. discriminate.
  - vm_compute. discriminate.
  - vm_compute. reflexivity.
  - repeat constructor; vm_compute; reflexivity.
  - vm_compute. discriminate.
  - vm_compute. lia.
  - exact kx_malloc1.
  - exact kx_malloc2.
  - exact kx_apart.
  - exact kx_loadable.
Defined.
