(* ===== verification/Main.v ===== *)
(** * aboot.c and utils.c: main_ and pal_init

    What head.S calls: the console is opened, PALcode is changed, the boot
    arguments are read, the kernel is loaded, and the kernel is entered.  The
    PALcode instructions and the kernel are not under src/: they are the class
    [Pal].  [pal_init] works on the tables in memory ([kmem]); memory is flat
    here, so the self map of the page table is the entries it stores. *)

From Stdlib Require Import Ascii String.
From S2P Require Import Prelude CString Vsprintf Cons Utils Aboot BootFs Gzip Files Disk DiskLoad.

Open Scope Z_scope.
Open Scope list_scope.

(* aboot.c: offsets from start_addr *)
Definition PARAM_OFFSET : Z := -0x6000.
Definition STACK_OFFSET : Z := -0xe000.

(* utils.c: where the tables are *)
Definition L1_TABLE : Z := 0x200802000.
Definition pcb_va : Z := 0x20000000.
Definition old_vptb : Z := 0x0000000200000000.
Definition new_vptb : Z := 0xfffffffe00000000.

(* hwrpb.h: offsets of the fields that are used *)
Definition INIT_HWRPB : Z := 0x10000000.
Definition hwrpb_vptb : Z := 120.
Definition hwrpb_processor_offset : Z := 160.
Definition hwrpb_chksum : Z := 288.
Definition percpu_pal_revision : Z := 168.
Definition percpu_palcode_avail (i : Z) : Z := 464 + 8 * i.
Definition pcb_ksp : Z := 0.
Definition pcb_usp : Z := 8.
Definition pcb_ptbr : Z := 16.
Definition pcb_pcc : Z := 24.
Definition pcb_asn : Z := 28.
Definition pcb_unique : Z := 32.
Definition pcb_flags : Z := 40.

(** The processor: [PAL_swppal] with a0, a2, a3 and a4, [PAL_tbi] with its
    argument, and the kernel entered with a stack pointer. *)
Class Pal (D : Type) := {
  PAL_swppal : Z → Z → Z → Z → M D Z;
  PAL_tbi : Z → M D unit;
  enter_kernel : Z → Z → M D unit
}.

Section main.
Context {F K : Type} `{Console K}.
(* what [Disk] is parameterised by; bounds for the loops and the line *)
Context (table : list (bootfs F (cstate K))) (dummy : bootfs F (cstate K)).
Context (aboot_size : Z) (turns fuel : nat).
Context `{Pal (disk F (cstate K))}.
(* the stack pointer in switch_to_osf_pal *)
Context (sp : Z).

Abbreviation DM := (M (disk F (cstate K))).

#[local] Hint Extern 0 (ConsIO _) => exact (cons_io fuel) : typeclass_instances.
#[local] Hint Extern 0 (ConsDev _) => exact (cons_dev_ops turns fuel) : typeclass_instances.

(** Fields of tables in memory. *)
Definition load64 (p : Z) : DM Z := let! l := on_loader (peek_mem p 8) in ret (le_val l).
Definition store64 (p v : Z) : DM unit := on_loader (poke_mem p (le_bytes 8 v)).
Definition store32 (p v : Z) : DM unit := on_loader (poke_mem p (le_bytes 4 v)).

(** ** utils.c, head.S *)

(* the stack pointer goes into the PCB, whose address is a1 *)
Definition switch_to_osf_pal (a0 pcb pcb_pa vptb : Z) : DM Z :=
  store64 (pcb + pcb_ksp) sp ;;;
  PAL_swppal a0 pcb_pa vptb sp.

Definition tbia : DM unit := PAL_tbi (-2).

(** The quadwords the checksum is over. *)
Fixpoint load_quads (n : nat) (p : Z) : DM (list Z) :=
  match n with
  | O => ret []
  | S n => let! l := load64 p in let! ls := load_quads n (p + 8) in ret (l :: ls)
  end.

Definition update_checksum : DM unit :=
  let! l := load_quads (Z.to_nat (hwrpb_chksum / 8)) INIT_HWRPB in
  store64 (INIT_HWRPB + hwrpb_chksum) (hwrpb_sum l).

Definition pal_init : DM unit :=
  let! l1 := load64 (L1_TABLE + 8) in
  store64 (L1_TABLE + 8 * 1023) l1 ;;;
  let! off := load64 (INIT_HWRPB + hwrpb_processor_offset) in
  let percpu := u64 (off + INIT_HWRPB) in
  store64 (pcb_va + pcb_ksp) 0 ;;;
  store64 (pcb_va + pcb_usp) 0 ;;;
  let! l1 := load64 (L1_TABLE + 8) in
  store64 (pcb_va + pcb_ptbr) (Z.shiftr l1 32) ;;;
  store32 (pcb_va + pcb_asn) 0 ;;;
  store32 (pcb_va + pcb_pcc) 0 ;;;
  store64 (pcb_va + pcb_unique) 0 ;;;
  store64 (pcb_va + pcb_flags) 1 ;;;
  (* find_pa reads one entry of the table *)
  let! pte := load64 (old_vptb + 8 * Z.shiftr pcb_va 13) in
  let pcb_pa := find_pa (λ _, pte) pcb_va in
  print "aboot: switching to OSF/1 PALcode" [] ;;;
  let! i := switch_to_osf_pal 2 pcb_va pcb_pa new_vptb in
  (if negb (i =? 0) then
     print ("---failed, code %ld" ++ nl) [AInt i] ;;; halt
   else ret tt) ;;;
  let! rev := load64 (percpu + percpu_palcode_avail 2) in
  store64 (percpu + percpu_pal_revision) rev ;;;
  store64 (INIT_HWRPB + hwrpb_vptb) new_vptb ;;;
  update_checksum ;;;
  print (" version %ld.%ld" ++ nl) [AInt (Z.land (Z.shiftr rev 8) 0xff); AInt (Z.land rev 0xff)] ;;;
  store64 (L1_TABLE + 8) 0 ;;;
  tbia.

(** ** aboot.c *)

Definition boot_args : DM unit :=
  let! file := get_aboot boot_file in
  let! args := get_aboot kernel_args in
  let! ' (file, args) := on_console (get_boot_args fuel file args) in
  set_boot_file file ;;;
  set_kernel_args args.

Definition run_kernel (entry stack : Z) : DM unit := enter_kernel entry stack.

(** The arguments and the place of the ramdisk, below the kernel. *)
Definition put_params (start : Z) (args : list Z) (rd_start rd_size : Z) : DM unit :=
  on_loader (poke_mem (u64 (start + PARAM_OFFSET)) (args ++ [0])) ;;;
  store64 (u64 (start + PARAM_OFFSET + 0x100)) rd_start ;;;
  store64 (u64 (start + PARAM_OFFSET + 0x108)) rd_size.

(** Everything in place: the entry address and the stack pointer. *)
Definition prepare_kernel : DM (Z * Z) :=
  let! file := get_aboot boot_file in
  let! file := lift_opt (cstring file) in
  let! args := get_aboot kernel_args in
  let! args := lift_opt (cstring args) in
  print ("aboot: starting kernel %s with arguments %s" ++ nl) [AStr (Some file); AStr (Some args)] ;;;
  let! start := get_aboot start_addr in
  let! rd := get_aboot (λ s, (initrd_start s, initrd_size s)) in
  put_params start args rd.1 rd.2 ;;;
  on_console cons_close_console ;;;
  let! entry := get_aboot entry_addr in
  ret (entry, u64 (start + STACK_OFFSET)).

(* the loop that counts to 2^32 has no effect *)
Definition kernel_returned : DM unit :=
  on_console cons_open_console ;;;
  print ("aboot: kernel returned unexpectedly.  Halting slowly..." ++ nl) [] ;;;
  on_console cons_close_console ;;;
  halt.

(** [stack] as for [load_kernel]. *)
Definition main_ (stack : list Z) : DM unit :=
  on_console cons_init ;;;
  print ("aboot: Linux/Alpha SRM bootloader version " ++ ABOOT_VERSION ++ nl) [] ;;;
  let! psz := get_aboot (λ s, pagesize (sys s)) in
  if negb (psz =? 8192) then
    print ("aboot: expected 8kB pages, got %ldkB" ++ nl) [AInt (Z.shiftr psz 10)] ;;;
    on_console cons_close_console
  else
    pal_init ;;;
    boot_args ;;;
    let! result := load_kernel table dummy aboot_size fuel stack in
    if result <? 0 then
      print ("aboot: kernel load failed (%ld)" ++ nl) [AInt result] ;;;
      on_console cons_close_console
    else
      let! ' (entry, stk) := prepare_kernel in
      run_kernel entry stk ;;;
      kernel_returned.
End main.

(** ** Fields of the memory *)

(** The quadword at an address, and [n] of them. *)
Definition field64 (m : mem) (p : Z) : option Z := le_val <$> read_mem m p 8.

Fixpoint quads (m : mem) (n : nat) (p : Z) : option (list Z) :=
  match n with
  | O => Some []
  | S n => let? l := field64 m p in let? ls := quads m n (p + 8) in Some (l :: ls)
  end.

Lemma mapped_mem_write m p n q l : mapped m p n → mapped (mem_write m q l) p n.
Proof. intros Hm x Hx. by apply mem_write_keeps, Hm. Qed.

Lemma mapM_ext_in {A B} (f g : A → option B) l : (∀ x, x ∈ l → f x = g x) → mapM f l = mapM g l.
Proof.
  induction l as [|x l IH]; intros Hx; [done|]. cbn. rewrite (Hx x) by left. by rewrite IH by (intros; apply Hx; by right).
Qed.

Lemma read_mem_ext m m' p n : (∀ q, p <= q < p + n → m' !! q = m !! q) → read_mem m' p n = read_mem m p n.
Proof.
  intros Hq. unfold read_mem. apply mapM_ext_in. intros q Hi. apply Hq. apply elem_of_seqZ in Hi. lia.
Qed.

Lemma field64_ext m m' p : (∀ q, p <= q < p + 8 → m' !! q = m !! q) → field64 m' p = field64 m p.
Proof. intros Hq. unfold field64. by rewrite (read_mem_ext m). Qed.

Lemma field64_other m p q l : p + 8 <= q ∨ q + zlen l <= p → field64 (mem_write m q l) p = field64 m p.
Proof. intros Hd. apply field64_ext. intros x Hx. apply mem_write_frame. lia. Qed.

Lemma field64_bytes m p l : zlen l = 8 → bytes_at m p l → field64 m p = Some (le_val l).
Proof. intros Hz Hb. unfold field64. rewrite <- Hz. by rewrite (read_mem_bytes _ _ _ Hb). Qed.

Lemma field64_same m p v : field64 (mem_write m p (le_bytes 8 v)) p = Some (u64 v).
Proof.
  rewrite (field64_bytes _ _ (le_bytes 8 v)); [by rewrite le_val_le_bytes|done|apply bytes_at_mem_write].
Qed.

Lemma field64_mapped m p : mapped m p 8 → is_Some (field64 m p).
Proof. intros Hm. unfold field64. destruct (read_mem_mapped m p 8) as (l&->&_); [lia|done|]. by eexists. Qed.

Lemma mapped_field64 m p v : field64 m p = Some v → mapped m p 8.
Proof.
  unfold field64, read_mem. intros E. apply fmap_Some in E as (l&E&_). apply mapped_seqZ.
  apply mapM_Some in E. apply Forall2_same_length_lookup in E as [Hl E]. apply Forall_lookup. intros i q Hq.
  destruct (lookup_lt_is_Some_2 l i) as [x Hx]; [rewrite <- Hl; by eapply lookup_lt_Some|].
  exists x. by eapply E.
Qed.

Lemma quads_mapped m n : ∀ p, mapped m p (8 * Z.of_nat n) → is_Some (quads m n p).
Proof.
  induction n as [|n IH]; intros p Hm; [by eexists|]. cbn [quads].
  destruct (field64_mapped m p) as [v ->]; [eapply mapped_sub; [exact Hm|lia..]|].
  destruct (IH (p + 8)) as [l ->]; [eapply mapped_sub; [exact Hm|lia..]|]. by eexists.
Qed.

Lemma quads_other m n q l : ∀ p, p + 8 * Z.of_nat n <= q ∨ q + zlen l <= p →
  quads (mem_write m q l) n p = quads m n p.
Proof.
  induction n as [|n IH]; intros p Hd; [done|]. cbn [quads]. rewrite field64_other by lia.
  destruct (field64 m p); [|done]. by rewrite IH by lia.
Qed.

(** ** PALcode *)

(** What the switch needs: the PCB with the stack pointer, the page table and
    the flag, at the physical address given; the page table's self map behind
    the new virtual page table. *)
Definition pal_ready (m : mem) (pa vptb ksp : Z) : Prop :=
  (∃ l1, field64 m (pcb_va + pcb_ksp) = Some (u64 ksp) ∧ field64 m (pcb_va + pcb_usp) = Some 0 ∧
    field64 m (pcb_va + pcb_ptbr) = Some (Z.shiftr l1 32) ∧ field64 m (pcb_va + pcb_pcc) = Some 0 ∧
    field64 m (pcb_va + pcb_unique) = Some 0 ∧ field64 m (pcb_va + pcb_flags) = Some 1 ∧
    field64 m (L1_TABLE + 8) = Some l1 ∧ field64 m (L1_TABLE + 8 * 1023) = Some l1) ∧
  (∃ pte, field64 m (old_vptb + 8 * Z.shiftr pcb_va 13) = Some pte ∧ pa = find_pa (λ _, pte) pcb_va) ∧
  vptb = new_vptb.

(** The processor changes PALcode, given that, and touches at most the PCB. *)
Class PalLaws {F K : Type} `{Pal (disk F (cstate K))} := {
  swppal_ok d f u m pa vptb ksp : pal_ready m pa vptb ksp →
    ∃ m', PAL_swppal 2 pa vptb ksp (at_state d f u m) = Ret 0 (at_state d f u m') ∧
      (∀ q, ¬ (pcb_va <= q < pcb_va + 128) → m' !! q = m !! q);
  tbi_ok n (d : disk F (cstate K)) : PAL_tbi n d = Ret tt d
}.

(** The tables as the console leaves them: [l1] the self map, [off] the offset
    of the processor's slot, [rev] the revision of its PALcode, [pte] the page
    of the PCB. *)
Record pal_tables (m : mem) (l1 off rev pte : Z) : Prop := {
  pt_self : field64 m (L1_TABLE + 8) = Some l1;
  pt_l1 : 0 <= l1 < 2 ^ 64;
  pt_top : mapped m (L1_TABLE + 8 * 1023) 8;
  pt_hwrpb : mapped m INIT_HWRPB 296;
  pt_off : field64 m (INIT_HWRPB + hwrpb_processor_offset) = Some off;
  pt_slot : 296 <= off ∧ INIT_HWRPB + off + 480 + 8 <= pcb_va;
  pt_rev : field64 m (INIT_HWRPB + off + percpu_palcode_avail 2) = Some rev;
  pt_rev_range : 0 <= rev < 2 ^ 64;
  pt_slot_mapped : mapped m (INIT_HWRPB + off + percpu_pal_revision) 8;
  pt_pcb : mapped m pcb_va 48;
  pt_pte : field64 m (old_vptb + 8 * Z.shiftr pcb_va 13) = Some pte
}.

Lemma zlen_le_bytes n v : zlen (le_bytes n v) = Z.of_nat n.
Proof. unfold zlen. by rewrite length_le_bytes. Qed.

Ltac addresses := change (Z.shiftr pcb_va 13) with 65536 in *;
  unfold L1_TABLE, INIT_HWRPB, hwrpb_processor_offset, hwrpb_vptb, hwrpb_chksum, percpu_pal_revision,
    percpu_palcode_avail, pcb_va, pcb_ksp, pcb_usp, pcb_ptbr, pcb_pcc, pcb_asn, pcb_unique, pcb_flags,
    old_vptb in *;
  rewrite ?zlen_le_bytes; change (Z.of_nat 8) with 8; change (Z.of_nat 4) with 4.

Section pal.
Context {F K : Type} `{HL : ConsoleLaws K} (fuel : nat) `{HP : Pal (disk F (cstate K))}.

#[local] Hint Extern 0 (ConsIO _) => exact (cons_io fuel) : typeclass_instances.
#[local] Hint Extern 0 (ConsIOLaws _) => exact (cons_io_laws fuel) : typeclass_instances.
#[local] Hint Extern 0 (ConsOut _) => exact (cons_io_out fuel) : typeclass_instances.

Definition mem_of (d : disk F (cstate K)) : mem := kmem (base (gz d)).

Lemma load64_step {B} p v (k : Z → M (disk F (cstate K)) B) d f u m Q :
  field64 m p = Some v → returns (k v) (at_state d f u m) Q →
  returns (bind (load64 p) k) (at_state d f u m) Q.
Proof.
  intros E HQ. unfold field64 in E. apply fmap_Some in E as (l&El&->). unfold load64. step.
  eapply returns_eq; [by apply peek_at|]. by step.
Qed.

Lemma store_step {B} n p v (k : unit → M (disk F (cstate K)) B) d f u m Q :
  mapped m p (Z.of_nat n) → returns (k tt) (at_state d f u (mem_write m p (le_bytes n v))) Q →
  returns (bind (on_loader (poke_mem p (le_bytes n v))) k) (at_state d f u m) Q.
Proof. intros Hm HQ. eapply returns_eq; [apply poke_at|done]. by rewrite zlen_le_bytes. Qed.

Lemma load_quads_ok {B} n : ∀ p l (k : list Z → M (disk F (cstate K)) B) d f u m Q,
  quads m n p = Some l → returns (k l) (at_state d f u m) Q →
  returns (bind (load_quads n p) k) (at_state d f u m) Q.
Proof.
  induction n as [|n IH]; intros p l k d f u m Q E HQ; cbn [load_quads quads] in *.
  - injection E as <-. by step.
  - destruct (field64 m p) as [v|] eqn:Ev; [|done]. destruct (quads m n (p + 8)) as [ls|] eqn:El; [|done].
    injection E as <-. step. eapply load64_step; [exact Ev|]. step. eapply IH; [exact El|]. by step.
Qed.

Lemma update_checksum_ok {B} l (k : unit → M (disk F (cstate K)) B) d f u m Q :
  mapped m INIT_HWRPB 296 → quads m 36 INIT_HWRPB = Some l →
  returns (k tt) (at_state d f u (mem_write m (INIT_HWRPB + hwrpb_chksum) (le_bytes 8 (hwrpb_sum l)))) Q →
  returns (bind update_checksum k) (at_state d f u m) Q.
Proof.
  intros Hm E HQ. unfold update_checksum. step. change (Z.to_nat (hwrpb_chksum / 8)) with 36%nat.
  eapply load_quads_ok; [exact E|]. apply store_step; [|exact HQ]. eapply mapped_sub; [exact Hm|addresses; lia..].
Qed.

(** The fields of the PCB, and the self map, as they are at the switch. *)
Definition pcb_filled (m : mem) (l1 : Z) : mem :=
  let m := mem_write m (L1_TABLE + 8 * 1023) (le_bytes 8 l1) in
  let m := mem_write m (pcb_va + pcb_ksp) (le_bytes 8 0) in
  let m := mem_write m (pcb_va + pcb_usp) (le_bytes 8 0) in
  let m := mem_write m (pcb_va + pcb_ptbr) (le_bytes 8 (Z.shiftr l1 32)) in
  let m := mem_write m (pcb_va + pcb_asn) (le_bytes 4 0) in
  let m := mem_write m (pcb_va + pcb_pcc) (le_bytes 4 0) in
  let m := mem_write m (pcb_va + pcb_unique) (le_bytes 8 0) in
  mem_write m (pcb_va + pcb_flags) (le_bytes 8 1).

Ltac far := repeat (rewrite field64_other by (addresses; lia)).
Ltac near :=
  repeat match goal with |- mapped (mem_write _ _ _) _ _ => apply mapped_mem_write end.

Lemma pcb_filled_ready m l1 off rev pte sp : pal_tables m l1 off rev pte →
  pal_ready (mem_write (pcb_filled m l1) (pcb_va + pcb_ksp) (le_bytes 8 sp)) (find_pa (λ _, pte) pcb_va) new_vptb sp.
Proof.
  intros [T1 T2 T3 T4 T5 T6 T7 T8 T9 T10 T11]. split; [|split; [|done]].
  - exists l1. unfold pcb_filled.
    split; [apply field64_same|].
    split; [far; by rewrite field64_same|].
    split. { far. rewrite field64_same. rewrite wrap_small; [done|]. rewrite Z.shiftr_div_pow2 by lia. change (2 ^ 32) with 4294967296.
      pose proof (Z.div_pos l1 4294967296). pose proof (Z.div_le_upper_bound l1 4294967296 (2 ^ 32)). lia. }
    split.
    { far. apply (field64_bytes _ _ (le_bytes 4 0 ++ le_bytes 4 0)); [done|].
      apply bytes_at_app. split; [apply bytes_at_mem_write|]. eapply bytes_at_ext; [apply bytes_at_mem_write|].
      intros q Hq. rewrite zlen_le_bytes in Hq. apply mem_write_frame. addresses. lia. }
    split; [far; by rewrite field64_same|].
    split; [far; by rewrite field64_same|].
    split; [by far|]. far. rewrite field64_same. by rewrite wrap_small by lia.
  - exists pte. split; [|done]. unfold pcb_filled. by far.
Qed.

(** Where [pal_init] stores: the HWRPB with the processor's slot, the PCB, the
    first page table. *)
Definition pal_area (q : Z) : Prop :=
  INIT_HWRPB <= q < pcb_va + 128 ∨ L1_TABLE <= q < L1_TABLE + 8192.

(** The tables as the kernel will find them. *)
Definition pal_done (m : mem) (l1 off rev : Z) : Prop :=
  field64 m (INIT_HWRPB + hwrpb_vptb) = Some new_vptb ∧
  field64 m (INIT_HWRPB + off + percpu_pal_revision) = Some rev ∧
  (∃ ws, quads m 36 INIT_HWRPB = Some ws ∧ field64 m (INIT_HWRPB + hwrpb_chksum) = Some (hwrpb_sum ws)) ∧
  field64 m (L1_TABLE + 8) = Some 0 ∧ field64 m (L1_TABLE + 8 * 1023) = Some l1.

Lemma hwrpb_sum_range l : 0 <= hwrpb_sum l < 2 ^ 64.
Proof.
  unfold hwrpb_sum. assert (∀ s, 0 <= s < 2 ^ 64 → 0 <= fold_left (λ sum l, u64 (sum + l)) l s < 2 ^ 64) as Hs.
  { induction l as [|x l IH]; intros s Hs; [done|]. cbn [fold_left]. by apply IH, wrap_range. }
  by apply Hs.
Qed.

(** The stores behind the switch. *)
Definition pal_stores (m : mem) (off rev : Z) (sum : mem → Z) : mem :=
  let m := mem_write m (INIT_HWRPB + off + percpu_pal_revision) (le_bytes 8 rev) in
  let m := mem_write m (INIT_HWRPB + hwrpb_vptb) (le_bytes 8 new_vptb) in
  let m := mem_write m (INIT_HWRPB + hwrpb_chksum) (le_bytes 8 (sum m)) in
  mem_write m (L1_TABLE + 8) (le_bytes 8 0).

(** The sum over the HWRPB in memory. *)
Definition sum_of (m : mem) : Z := hwrpb_sum (default [] (quads m 36 INIT_HWRPB)).

Lemma pal_stores_done m l1 off rev :
  mapped m INIT_HWRPB 296 → 296 <= off ∧ INIT_HWRPB + off + 480 + 8 <= pcb_va → 0 <= rev < 2 ^ 64 →
  field64 m (L1_TABLE + 8 * 1023) = Some l1 → pal_done (pal_stores m off rev sum_of) l1 off rev.
Proof.
  intros Hm Ho Hr Ht. unfold pal_stores, sum_of. cbv zeta.
  set (m1 := mem_write (mem_write m _ _) _ _).
  destruct (quads_mapped m1 36 INIT_HWRPB) as [ws Ew]; [unfold m1; near; eapply mapped_sub; [exact Hm|lia..]|]. rewrite Ew. unfold default, id.
  pose proof (hwrpb_sum_range ws).
  split. { far. unfold m1. by rewrite field64_same. }
  split. { far. unfold m1. far. rewrite field64_same. by rewrite wrap_small. }
  split. { exists ws. split; [|far; rewrite field64_same; by rewrite wrap_small].
    do 2 rewrite quads_other by (addresses; lia). done. }
  split; [by rewrite field64_same|]. far. unfold m1. by far.
Qed.

Lemma pal_filled_keeps m l1 q : ¬ pal_area q → pcb_filled m l1 !! q = m !! q.
Proof.
  intros Hq. unfold pal_area in Hq. unfold pcb_filled.
  repeat (rewrite mem_write_frame by (addresses; lia)). done.
Qed.

Lemma pal_stores_keeps m off rev q : 296 <= off ∧ INIT_HWRPB + off + 480 + 8 <= pcb_va → ¬ pal_area q →
  pal_stores m off rev sum_of !! q = m !! q.
Proof.
  intros Ho Hq. unfold pal_area in Hq. unfold pal_stores. cbv zeta.
  repeat (rewrite mem_write_frame by (addresses; lia)). done.
Qed.

(** The code behind the switch. *)
Lemma pal_stores_ok (d : disk F (cstate K)) f u m off rev Q `{HPL : !PalLaws} :
  mapped m INIT_HWRPB 296 → 296 <= off ∧ INIT_HWRPB + off + 480 + 8 <= pcb_va →
  field64 m (INIT_HWRPB + off + percpu_palcode_avail 2) = Some rev →
  mapped m (INIT_HWRPB + off + percpu_pal_revision) 8 → mapped m (L1_TABLE + 8) 8 →
  io_ok (u_con u) → printable (" version %ld.%ld" ++ nl) [AInt (Z.land (Z.shiftr rev 8) 0xff); AInt (Z.land rev 0xff)] →
  (∀ c, io_ok c → io_disk c = io_disk (u_con u) → Q tt (at_state d f
     (UState c (clusters u) (pagesize u) (free_mem_ptr u) (dest_addr u)) (pal_stores m off rev sum_of))) →
  returns (let! rev := load64 (INIT_HWRPB + off + percpu_palcode_avail 2) in
    store64 (INIT_HWRPB + off + percpu_pal_revision) rev ;;;
    store64 (INIT_HWRPB + hwrpb_vptb) new_vptb ;;;
    update_checksum ;;;
    print (" version %ld.%ld" ++ nl) [AInt (Z.land (Z.shiftr rev 8) 0xff); AInt (Z.land rev 0xff)] ;;;
    store64 (L1_TABLE + 8) 0 ;;;
    tbia) (at_state d f u m) Q.
Proof.
  intros Hm Ho Hr Hs Hl Hio Hp HQ. eapply load64_step; [exact Hr|]. cbv beta.
  apply store_step; [exact Hs|]. apply store_step.
  { near. eapply mapped_sub; [exact Hm|addresses; lia..]. }
  set (m1 := mem_write (mem_write m _ _) _ _).
  assert (mapped m1 INIT_HWRPB 296) as Hm1 by (unfold m1; near; exact Hm).
  destruct (quads_mapped m1 36 INIT_HWRPB) as [ws Ew]; [eapply mapped_sub; [exact Hm1|lia..]|].
  eapply update_checksum_ok; [exact Hm1|exact Ew|]. apply print_io; [exact Hio|exact Hp|]. intros c Hc Hd.
  apply store_step; [unfold m1; near; exact Hl|]. unfold tbia. do 2 eexists. split; [apply tbi_ok|].
  assert (hwrpb_sum ws = sum_of m1) as -> by (unfold sum_of; by rewrite Ew). by apply HQ.
Qed.

Lemma pal_init_ok sp (d : disk F (cstate K)) f u m l1 off rev pte `{HPL : !PalLaws} :
  pal_tables m l1 off rev pte → io_ok (u_con u) →
  printable (" version %ld.%ld" ++ nl) [AInt (Z.land (Z.shiftr rev 8) 0xff); AInt (Z.land rev 0xff)] →
  returns (pal_init fuel sp) (at_state d f u m) (λ _ d', ∃ c m',
    d' = at_state d f (UState c (clusters u) (pagesize u) (free_mem_ptr u) (dest_addr u)) m' ∧
    io_ok c ∧ io_disk c = io_disk (u_con u) ∧ pal_done m' l1 off rev ∧
    ∀ q, ¬ pal_area q → m' !! q = m !! q).
Proof.
  intros HT Hio Hp. pose proof HT as [T1 T2 T3 T4 T5 T6 T7 T8 T9 T10 T11].
  assert (∀ q, pcb_va <= q < pcb_va + 48 → is_Some (m !! q)) as Hpcb by exact T10.
  unfold pal_init. eapply load64_step; [exact T1|]. cbv beta.
  apply store_step; [exact T3|]. eapply load64_step; [by far|]. cbv beta zeta.
  assert (u64 (off + INIT_HWRPB) = INIT_HWRPB + off) as -> by (rewrite wrap_small; addresses; lia).
  do 2 (apply store_step; [near; eapply mapped_sub; [exact T10|addresses; lia..]|]).
  eapply load64_step; [by far|]. cbv beta.
  do 5 (apply store_step; [near; eapply mapped_sub; [exact T10|addresses; lia..]|]).
  eapply load64_step; [by far|]. cbv beta zeta. apply print_io; [exact Hio| |].
  { apply (printable_checked (K := K)). vm_compute. reflexivity. }
  intros c Hc Hd. unfold switch_to_osf_pal. step. apply store_step.
  { near. eapply mapped_sub; [exact T10|addresses; lia..]. }
  fold (pcb_filled m l1).
  destruct (swppal_ok d f (UState c (clusters u) (pagesize u) (free_mem_ptr u) (dest_addr u)) _ _ _ _
    (pcb_filled_ready m l1 off rev pte sp HT)) as (m1&E&Hm1).
  eapply returns_eq; [exact E|]. rewrite Z.eqb_refl. cbn [negb]. step.
  assert (∀ q, ¬ (pcb_va <= q < pcb_va + 128) → ¬ (L1_TABLE + 8 * 1023 <= q < L1_TABLE + 8 * 1023 + 8) →
    m1 !! q = m !! q) as Hk.
  { intros q Hq1 Hq2. rewrite Hm1 by done. unfold pcb_filled.
    repeat (rewrite mem_write_frame by (addresses; lia)). done. }
  apply (pal_stores_ok d f _ m1 off rev _).
  - intros q Hq. rewrite Hk by (addresses; lia). by apply T4.
  - exact T6.
  - rewrite (field64_ext m); [exact T7|]. intros q Hq. apply Hk; addresses; lia.
  - intros q Hq. rewrite Hk by (addresses; lia). by apply T9.
  - apply mapped_field64 in T1. intros q Hq. rewrite Hk by (addresses; lia). by apply T1.
  - exact Hc.
  - exact Hp.
  - intros c2 Hc2 Hd2. eexists c2, _. split; [reflexivity|]. split; [exact Hc2|]. split; [etrans; [exact Hd2|exact Hd]|]. split.
    + apply pal_stores_done; [intros q Hq; rewrite Hk by (addresses; lia); by apply T4|exact T6|exact T8|].
      rewrite (field64_ext (pcb_filled m l1)); [unfold pcb_filled; far; rewrite field64_same; by rewrite wrap_small|].
      intros q Hq. rewrite Hm1 by (addresses; lia). apply mem_write_frame. addresses. lia.
    + intros q Hq. rewrite pal_stores_keeps by done. unfold pal_area in Hq. apply Hk; addresses; lia.
Qed.
End pal.

(** ** pal_init *)

(** C15: [pal_init] calls the PALcode with a process control block that is
    complete - the stack pointer, the page table of the self map, the flag - at
    its physical address, and with the self map already in the last entry of the
    page table.  When it is through, the HWRPB names the new virtual page table,
    the slot of the processor has the revision of the new PALcode, the checksum
    is the sum of the words before it, the old mapping is gone, and no memory
    but these tables and the globals of the console has changed. *)
Theorem pal_init_switches {F K} `{HL : ConsoleLaws K} fuel sp `{HP : Pal (disk F (cstate K))} `{HPL : !PalLaws}
    (d : disk F (cstate K)) l1 off rev pte :
  let a := ab (base (gz d)) in let m := mem_of d in
  pal_tables m l1 off rev pte → cons_ready fuel (u_con (sys a)) →
  printable (ConsOut := cons_io_out fuel) (" version %ld.%ld" ++ nl)
    [AInt (Z.land (Z.shiftr rev 8) 0xff); AInt (Z.land rev 0xff)] →
  ∃ d', pal_init fuel sp d = Ret tt d' ∧ pal_done (mem_of d') l1 off rev ∧
    (∀ q, ¬ pal_area q → mem_of d' !! q = m !! q) ∧ cons_ready fuel (u_con (sys (ab (base (gz d'))))).
Proof.
  intros a m HT Hc Hp. rewrite (at_state_self d).
  destruct (pal_init_ok fuel sp d (fss (base (gz d))) (sys a) m l1 off rev pte HT Hc Hp)
    as ([]&d'&E&c&m'&->&Hc'&_&Hd&Hq).
  eexists. split; [exact E|]. split; [exact Hd|]. split; [exact Hq|exact Hc'].
Qed.
