(* ===== verification/Config.v ===== *)
(** * The configuration file

    [get_default_args] scans the file block by block with a state machine; the
    proofs compare it with the lines of the file, independently of where the
    blocks end. *)

From Stdlib Require Import Ascii String.
From S2P Require Import Prelude CString Vsprintf Cons Utils Aboot BootFs Gzip Ext2 Ext2Read Files Disk DiskLoad.

Open Scope Z_scope.
Open Scope list_scope.

(** ** The scanner as a function *)

(** One character; [None] where the code prints an error or leaves the array. *)
Definition sc_step (num c : Z) (sc : scanner) : option scanner :=
  let go state := Scanner state (sc_line sc) (sc_str sc) (sc_d sc) in
  let c8 := s8 c in
  if (sc_state sc =? 0) || (sc_state sc =? 1) then Some (if c8 =? 10 then go 2 else sc)
  else if sc_state sc =? 2 then
    let to state := Scanner state (s32 (sc_line sc + 1)) (sc_str sc) (sc_d sc) in
    Some (if c8 =? num then to 3 else if c8 =? 35 then to 1 else if c8 =? 45 then to 5 else to 0)
  else if sc_state sc =? 3 then
    if c8 =? 58 then Some (go 4) else None
  else if sc_state sc =? 4 then
    if c8 =? 10 then
      let? l := aset (sc_str sc) (sc_d sc) 0 in Some (Scanner 5 (sc_line sc) l (sc_d sc))
    else
      let? l := aset (sc_str sc) (sc_d sc) (u8 c8) in Some (Scanner 4 (sc_line sc) l (sc_d sc + 1))
  else Some sc.

Fixpoint sc_run (num : Z) (p : list Z) (sc : scanner) : option scanner :=
  match p with
  | [] => Some sc
  | c :: p =>
      if (c =? 0) || (sc_state sc =? 5) then Some sc
      else let? sc := sc_step num c sc in sc_run num p sc
  end.

Section scan.
Context {F K : Type} `{HO : ConsOut K} (num : Z).

Lemma scan_char_step c sc sc' (d : disk F K) :
  sc_step num c sc = Some sc' → scan_char num c sc d = Ret sc' d.
Proof.
  unfold sc_step, scan_char. intros E.
  repeat match type of E with
  | (if ?b then _ else _) = _ => destruct b
  | (match ?o with Some _ => _ | None => _ end) = _ => destruct o eqn:?
  end; try discriminate E; by injection E as <-.
Qed.

Lemma scan_block_run p : ∀ sc sc' (d : disk F K),
  sc_run num p sc = Some sc' → scan_block num p sc d = Ret sc' d.
Proof.
  induction p as [|c p IH]; intros sc sc' d E; cbn [sc_run scan_block] in *; [by injection E as <-|].
  destruct ((c =? 0) || (sc_state sc =? 5)); [by injection E as <-|].
  destruct (sc_step num c sc) as [sc1|] eqn:E1; [|done].
  rewrite (bind_Ret _ _ _ _ _ (scan_char_step c sc sc1 d E1)). by apply IH.
Qed.

Lemma sc_run_done p sc : sc_state sc = 5 → sc_run num p sc = Some sc.
Proof. intros E. destruct p; [done|]. cbn [sc_run]. by rewrite E, orb_true_r. Qed.

(** Scanning in pieces. *)
Lemma sc_run_app p : ∀ q sc sc', Forall (λ c, c ≠ 0) p → sc_run num p sc = Some sc' →
  sc_run num (p ++ q) sc = sc_run num q sc'.
Proof.
  induction p as [|c p IH]; intros q sc sc' Hp E; [by injection E as <-|].
  inversion Hp; subst. cbn [app sc_run] in *. rewrite (proj2 (Z.eqb_neq c 0)) in * by done. cbn [orb] in *.
  destruct (Z.eqb_spec (sc_state sc) 5) as [E5|E5].
  - injection E as <-. by rewrite sc_run_done.
  - destruct (sc_step num c sc) as [sc1|]; [|done]. by apply IH.
Qed.

(** A piece of a text whose scan succeeds is scanned. *)
Lemma sc_run_prefix p : ∀ q sc sc', sc_run num (p ++ q) sc = Some sc' → ∃ sc1, sc_run num p sc = Some sc1.
Proof.
  induction p as [|c p IH]; intros q sc sc' E; [by exists sc|]. cbn [app sc_run] in *.
  destruct ((c =? 0) || (sc_state sc =? 5)); [by exists sc|].
  destruct (sc_step num c sc) as [sc1|]; [|done]. by eapply IH.
Qed.

(** *** Lines *)

Definition text_char (c : Z) : Prop := 0 < c < 128 ∧ c ≠ 10.
#[export] Instance text_char_dec c : Decision (text_char c).
Proof. unfold text_char. apply _. Defined.

(** A line that is passed over: it begins with a character that is neither the
    one looked for nor the end mark. *)
Definition other_line (l : list Z) : Prop :=
  Forall text_char l ∧ ∃ c l', l = c :: l' ∧ c ≠ num ∧ c ≠ 45.

Lemma text_s8 c : text_char c → s8 c = c.
Proof. intros ((?&?)&?). apply swrap_small; lia. Qed.

Lemma skip_rest l : ∀ q sc, Forall text_char l → sc_state sc = 0 ∨ sc_state sc = 1 →
  sc_run num (l ++ 10 :: q) sc = sc_run num q (Scanner 2 (sc_line sc) (sc_str sc) (sc_d sc)).
Proof.
  induction l as [|c l IH]; intros q sc Hl Hs.
  - cbn [app sc_run]. unfold sc_step. by destruct Hs as [-> | ->].
  - inversion Hl as [|?? Hc Hl']; subst. cbn [app sc_run]. unfold sc_step. rewrite (text_s8 c Hc).
    destruct Hc as (?&?). rewrite (proj2 (Z.eqb_neq c 0)), (proj2 (Z.eqb_neq c 10)) by lia.
    assert ((sc_state sc =? 0) || (sc_state sc =? 1) = true) as -> by (destruct Hs as [-> | ->]; done).
    assert ((sc_state sc =? 5) = false) as -> by (destruct Hs as [-> | ->]; done). cbn [orb].
    by apply IH.
Qed.

Lemma skip_line l q sc : other_line l → sc_state sc = 2 →
  sc_run num (l ++ 10 :: q) sc = sc_run num q (Scanner 2 (s32 (sc_line sc + 1)) (sc_str sc) (sc_d sc)).
Proof.
  intros (Hl&c&l'&->&Hn&H45) Hs. inversion Hl as [|?? Hc Hl']; subst. cbn [app sc_run]. unfold sc_step.
  rewrite (text_s8 c Hc), Hs. destruct Hc as (?&?). rewrite (proj2 (Z.eqb_neq c 0)) by lia.
  change (2 =? 5) with false. change (2 =? 0) with false. change (2 =? 1) with false.
  change (2 =? 2) with true. cbn [orb]. cbv iota zeta.
  rewrite (proj2 (Z.eqb_neq c num)), (proj2 (Z.eqb_neq c 45)) by done.
  destruct (c =? 35); rewrite skip_rest; cbn; auto.
Qed.

Lemma skip_lines pre : ∀ q sc, Forall other_line pre → sc_state sc = 2 →
  ∃ line, sc_run num (concat (map (λ l, l ++ [10]) pre) ++ q) sc =
    sc_run num q (Scanner 2 line (sc_str sc) (sc_d sc)).
Proof.
  induction pre as [|l pre IH]; intros q sc Hp Hs.
  - exists (sc_line sc). cbn [map concat app]. destruct sc. cbn in *. by rewrite Hs.
  - inversion Hp; subst. cbn [map concat]. rewrite <- !app_assoc. cbn [app]. rewrite skip_line by done.
    destruct (IH q (Scanner 2 (s32 (sc_line sc + 1)) (sc_str sc) (sc_d sc))) as [line E]; [done..|].
    exists line. exact E.
Qed.

(** The arguments are copied up to the end of the line. *)
Lemma copy_args args : ∀ q done_ old line, Forall text_char args → zlen args < zlen old →
  ∃ rest, sc_run num (args ++ 10 :: q) (Scanner 4 line (done_ ++ old) (zlen done_)) =
    Some (Scanner 5 line (done_ ++ args ++ 0 :: rest) (zlen done_ + zlen args)).
Proof.
  induction args as [|c args IH]; intros q dn old line Ha Hz.
  - destruct old as [|x old]; [change (zlen (@nil Z)) with 0 in Hz; lia|]. exists old.
    cbn [app sc_run]. unfold sc_step. cbn [sc_state sc_str sc_d sc_line].
    change (10 =? 0) with false. cbn. rewrite aset_app. rewrite Z.add_0_r. by apply sc_run_done.
  - inversion Ha as [|?? Hc Ha']; subst. destruct old as [|x old]; [rewrite zlen_cons in Hz; pose proof (zlen_nonneg args); change (zlen (@nil Z)) with 0 in Hz; lia|].
    rewrite !zlen_cons in Hz.
    destruct (IH q (dn ++ [c]) old line Ha') as [rest E]; [lia|]. exists rest.
    cbn [app sc_run]. unfold sc_step. cbn [sc_state sc_str sc_d sc_line]. rewrite (text_s8 c Hc).
    destruct Hc as (?&?). rewrite (proj2 (Z.eqb_neq c 0)), (proj2 (Z.eqb_neq c 10)) by lia.
    change ((4 =? 0) || (4 =? 1)) with false. cbn -[sc_run s8 u8 Z.add]. rewrite aset_app.
    rewrite is_byte_u8 by (unfold is_byte; lia).
    rewrite <- app_assoc in E. cbn [app] in E. rewrite zlen_app in E. change (zlen [c]) with 1 in E.
    rewrite E. f_equal. f_equal; [by rewrite <- app_assoc|rewrite zlen_cons; lia].
Qed.

(** The text of a configuration file up to and with the entry. *)
Definition config_text (pre : list (list Z)) (args : list Z) : list Z :=
  concat (map (λ l, l ++ [10]) pre) ++ [num; 58] ++ args ++ [10].

Lemma scan_entry pre args out : 0 < num < 128 → num ≠ 10 → Forall other_line pre → Forall text_char args →
  zlen args < zlen out →
  ∃ line rest, sc_run num (config_text pre args) (Scanner 2 1 out 0) =
    Some (Scanner 5 line (args ++ 0 :: rest) (zlen args)).
Proof.
  intros Hn Hn10 Hp Ha Hz. unfold config_text.
  destruct (skip_lines pre ([num; 58] ++ args ++ [10]) (Scanner 2 1 out 0) Hp eq_refl) as [line ->].
  cbn [sc_str sc_d app sc_run]. unfold sc_step at 1. cbn [sc_state sc_line sc_str sc_d].
  rewrite (text_s8 num) by done. rewrite (proj2 (Z.eqb_neq num 0)) by lia. cbn -[sc_run sc_step s32 Z.eqb].
  change (2 =? 5) with false. change (2 =? 0) with false. change (2 =? 1) with false. change (2 =? 2) with true.
  cbn -[sc_run sc_step s32]. rewrite Z.eqb_refl.
  unfold sc_step at 1. cbn -[sc_run s32].
  destruct (copy_args args [] [] out (s32 (line + 1)) Ha Hz) as [rest E]. cbn [app] in E.
  change (zlen []) with 0 in E. rewrite Z.add_0_l in E. eauto.
Qed.
End scan.

(** ** The blocks of the file *)

Section config.
Context {F K : Type} `{HO : ConsOut K} (fs : bootfs F K) (fd bs : Z) (content : list Z)
  `{HB : !BootFile fs fd bs content} (num : Z) (fuel : nat).

Lemma text_nonzero pre args : 0 < num < 128 → Forall (other_line num) pre → Forall text_char args →
  Forall (λ c, c ≠ 0) (config_text num pre args).
Proof.
  intros Hn Hp Ha. unfold config_text.
  assert (∀ l, Forall text_char l → Forall (λ c, c ≠ 0) l) as Hnz.
  { intros l Hl. eapply List.Forall_impl; [|exact Hl]. intros c ((?&?)&?). lia. }
  rewrite !Forall_app. split; [|split; [by repeat constructor; lia|split; [by apply Hnz|by repeat constructor]]].
  induction Hp as [|l pre (Hl&_) _ IH]; [constructor|]. cbn [map concat].
  rewrite !Forall_app. split; [split; [by apply Hnz|by repeat constructor]|exact IH].
Qed.

(** The bytes of one block, against the text. *)
Lemma block_scan text more k data sc0 sc fin :
  content = text ++ more → Forall (λ c, c ≠ 0) text → 0 <= k → 0 < bs →
  k * bs <= zlen text → aslice content (k * bs) bs = Some data →
  sc_run num (take (Z.to_nat (k * bs)) text) sc0 = Some sc →
  sc_run num text sc0 = Some fin → sc_state fin = 5 →
  ∃ sc1, sc_run num data sc = Some sc1 ∧
    (sc_state sc1 = 5 → sc1 = fin) ∧
    (sc_state sc1 ≠ 5 → (k + 1) * bs <= zlen text ∧
       sc_run num (take (Z.to_nat ((k + 1) * bs)) text) sc0 = Some sc1).
Proof.
  intros Ec Hnz Hk Hbs Hle Hd Hsc Hfin H5.
  set (a := take (Z.to_nat (k * bs)) text) in *. set (b := drop (Z.to_nat (k * bs)) text).
  assert (text = a ++ b) as Et by (symmetry; apply take_drop).
  assert (Forall (λ c, c ≠ 0) a ∧ Forall (λ c, c ≠ 0) b) as [Ha Hb] by (rewrite Et in Hnz; by apply Forall_app in Hnz).
  assert (zlen a = k * bs) as Hza by (unfold a; rewrite zlen_take; lia).
  assert (zlen text = zlen a + zlen b) as Hzt by (rewrite Et at 1; apply zlen_app).
  assert (sc_run num b sc = Some fin) as Hb5 by (by rewrite <- (sc_run_app num a b sc0 sc Ha Hsc), <- Et).
  assert (aslice (b ++ more) 0 bs = Some data) as Hd'.
  { rewrite Ec, Et, <- app_assoc, aslice_app_r in Hd by lia. by rewrite Hza, Z.sub_diag in Hd. }
  apply aslice_Some in Hd' as (_&_&Hlen&Ed). change (Z.to_nat 0) with 0%nat in Ed. rewrite drop_0 in Ed.
  destruct (decide (bs <= zlen b)) as [Hin|Hout].
  - assert (data = take (Z.to_nat bs) b) as -> by (rewrite Ed; apply take_app_le; unfold zlen in Hin; lia).
    set (b1 := take (Z.to_nat bs) b). assert (b = b1 ++ drop (Z.to_nat bs) b) as Eb by (symmetry; apply take_drop).
    rewrite Eb in Hb5. destruct (sc_run_prefix num b1 _ sc fin Hb5) as [sc1 E1]. exists sc1.
    assert (Forall (λ c, c ≠ 0) b1) as Hb1 by (by apply Forall_take).
    split; [done|]. split.
    + intros E5. rewrite (sc_run_app num b1 _ sc sc1 Hb1 E1), (sc_run_done num _ _ E5) in Hb5. by injection Hb5.
    + intros _. split; [lia|]. replace (Z.to_nat ((k + 1) * bs)) with (length a + Z.to_nat bs)%nat
        by (unfold zlen in Hza; lia).
      rewrite Et, take_app_add. fold b1. by rewrite (sc_run_app num a b1 sc0 sc Ha Hsc).
  - exists fin. assert (∃ r, data = b ++ r) as [r ->].
    { rewrite Ed. rewrite take_app_ge by (unfold zlen in Hout; lia). by eexists. }
    rewrite (sc_run_app num b r sc fin Hb Hb5), (sc_run_done num _ _ H5). split; [done|]. split; [done|congruence].
Qed.

Lemma get_default_args_ok (d : disk F K) f u p u' pre args more out nb :
  let m := kmem (base (gz d)) in
  open_config_file fs d = Ret fd (at_state d f u m) → 0 <= fd → file_ok (f, u) → 0 < bs < 2 ^ 31 →
  malloc bs u = Ret p u' → 0 < num < 128 → num ≠ 10 → Forall (other_line num) pre → Forall text_char args →
  zlen args < zlen out → content = config_text num pre args ++ more →
  zlen content = nb * bs → (Z.to_nat nb < fuel)%nat →
  returns (get_default_args fuel fs out num) d (λ r _, ∃ out', r = (0, out') ∧ cstring out' = Some args).
Proof.
  intros m Hop Hfd Hf Hbs Em Hn Hn10 Hp Ha Hz Ec Hnb Hfuel. pose proof (zlen_nonneg args).
  unfold get_default_args. destruct (proj2 (aget_is_Some out 0)) as [x0 Ex0]; [lia|].
  unfold aset at 1. rewrite decide_True by lia. set (out0 := <[Z.to_nat 0:=0]> out).
  assert (zlen out0 = zlen out) as Hz0 by (unfold out0, zlen; by rewrite length_insert).
  eapply returns_opt; [reflexivity|]. eapply returns_eq; [exact Hop|]. rewrite (proj2 (Z.ltb_ge fd 0)) by lia.
  unfold get_bsize. step. cbn [gz at_state base set_base fss]. rewrite (file_bsize _ _ Hf).
  rewrite (wrap_small 64) by lia. eapply returns_eq; [by apply malloc_at|].
  destruct (scan_entry num pre args out0) as (line&rest&Hfin); [done..|lia|].
  set (fin := Scanner 5 line (args ++ 0 :: rest) (zlen args)) in *.
  set (text := config_text num pre args) in *.
  pose proof (text_nonzero pre args Hn Hp Ha) as Hnz. fold text in Hnz.
  apply returns_bind with (Q := λ sc d', sc = fin ∧ ∃ f' u1, d' = at_state d f' u1 m ∧ file_ok (f', u1)).
  2:{ intros ? ? (->&f'&u1&->&Hf'). destruct (file_close _ _ Hf') as [f2 Ecl].
      eapply (returns_eq _ _ _ tt (at_state d f2 u1 m)).
      { unfold through, on_loader, on_gz, on_base, on_fs.
        cbn [gz at_state base set_base fss ab sys set_sys]. by rewrite Ecl. }
      cbn [fin sc_state]. rewrite Z.eqb_refl. cbn [negb]. step. eexists. split; [done|]. cbn [sc_str]. apply cstring_app.
      eapply List.Forall_impl; [|exact Ha]. intros c ((?&?)&?). lia. }
  apply returns_loop with (meas := λ '(k, _, _) _, Z.to_nat (nb - k))
    (I := λ '(k, buf, sc) d', 0 <= k <= nb ∧ zlen buf = bs ∧ k * bs <= zlen text ∧ sc_state sc ≠ 5 ∧
      sc_run num (take (Z.to_nat (k * bs)) text) (Scanner 2 1 out0 0) = Some sc ∧
      ∃ f' u1, d' = at_state d f' u1 m ∧ file_ok (f', u1)).
  - pose proof (zlen_nonneg content); assert (0 <= nb) by nia. split; [lia|]. split; [unfold zlen; rewrite length_replicate; lia|]. split; [pose proof (zlen_nonneg text); lia|].
    split; [done|]. split; [done|]. exists f, u'. split; [done|]. by eapply malloc_file_ok.
  - lia.
  - intros [[k buf] sc] d1 (Hk&Hzb&Hle&Hs5&Hsc&f1&u1&->&Hf1).
    assert (k * bs < zlen text) as Hlt.
    { destruct (decide (k * bs = zlen text)) as [E|]; [|lia]. exfalso. apply Hs5.
      rewrite E in Hsc. unfold zlen in Hsc. rewrite Nat2Z.id, firstn_all in Hsc. rewrite Hsc in Hfin. by injection Hfin as ->. }
    assert (zlen content = zlen text + zlen more) as Hzc by (rewrite Ec; apply zlen_app).
    pose proof (zlen_nonneg more). assert (k < nb) as Hknb by nia.
    eapply returns_bind; [apply (bread_at fs fd bs content k 1 buf d f1 u1 m (λ r d', ∃ data f' u2,
      aslice content (k * bs) bs = Some data ∧ r = (bs, data) ∧ d' = at_state d f' u2 m ∧ file_ok (f', u2)))|].
    { done. } { lia. } { lia. } { nia. } { lia. } { lia. }
    { intros data f' u2 Hd Hf' _. rewrite Z.mul_1_l in *. exists data, f', u2. split; [done|]. split; [|done].
      rewrite drop_ge, app_nil_r by (unfold zlen in Hzb; lia). done. }
    intros ? ? (data&f2&u2&Hd&->&->&Hf2). pose proof (aslice_len _ _ _ _ Hd) as Hzd.
    eapply returns_opt; [rewrite Z.max_r by lia; rewrite <- Hzd at 1; apply aslice_all|].
    destruct (block_scan text more k data (Scanner 2 1 out0 0) sc fin) as (sc1&E1&H5&Hn5);
      [done|done|lia|lia|lia|done|done|done|done|].
    eapply returns_eq; [by apply scan_block_run|]. rewrite (proj2 (Z.ltb_lt 0 bs)) by lia. cbn [andb].
    destruct (Z.eqb_spec (sc_state sc1) 5) as [E5|E5]; cbn [negb]; step.
    + split; [by apply H5|]. by exists f2, u2.
    + destruct (Hn5 E5) as (Hle1&Hrun). split; [|lia]. split; [lia|]. do 4 (split; [done|]). by exists f2, u2.
Qed.
End config.

(** ** The theorem *)

(** C34: A preset is found. In a configuration file whose lines before the entry
    begin with neither the preset's character nor the end mark, whatever they
    hold and wherever the blocks of the file end, [get_default_args] returns 0
    and leaves the text of the entry in the buffer. *)
Theorem preset_found {F K} `{HO : ConsOut K} fs fd bs content `{HB : !BootFile (F := F) fs fd bs content}
    num fuel (d : disk F K) f u p u' pre args more out nb :
  open_config_file fs d = Ret fd (at_state d f u (kmem (base (gz d)))) → 0 <= fd → file_ok (f, u) →
  0 < bs < 2 ^ 31 → malloc bs u = Ret p u' → 0 < num < 128 → num ≠ 10 →
  Forall (other_line num) pre → Forall text_char args → zlen args < zlen out →
  content = config_text num pre args ++ more → zlen content = nb * bs → (Z.to_nat nb < fuel)%nat →
  ∃ out' d', get_default_args fuel fs out num d = Ret (0, out') d' ∧ cstring out' = Some args.
Proof.
  intros. destruct (get_default_args_ok fs fd bs content num fuel d f u p u' pre args more out nb)
    as (r&d'&E&out'&->&Ho); [done..|]. by exists out', d'.
Qed.

(** *** An example: the entry lies across the end of the first block *)

Definition cx_pre : list (list Z) := [str "# aboot.conf"; 35 :: replicate 990 120; str "0:vmlinux root=/dev/sda2"].
Definition cx_args : list Z := str "3/boot/vmlinux.gz root=/dev/sda1 console=ttyS0".
Definition cx_text : list Z := config_text 51 cx_pre cx_args.
Definition cx_file : list Z := take 2048 (cx_text ++ str "-" ++ [10] ++ replicate 2048 0).

Definition cx_disk : list Z :=
  take (3 * 1024) ex_disk ++
  ex_block [(128, le_bytes 2 0x41ed); (128 + 4, le_bytes 4 1024); (128 + 28, le_bytes 4 2);
            (128 + 40, le_bytes 4 5)] ++
  ex_block [(256, le_bytes 2 0x81a4); (256 + 4, le_bytes 4 1090); (256 + 28, le_bytes 4 4);
            (256 + 40, concat (map (le_bytes 4) [6; 7]))] ++
  ex_block [(0, ex_dirent 2 12 "."); (12, ex_dirent 2 12 ".."); (24, ex_dirent 11 1000 "aboot.conf")] ++
  cx_file ++ replicate 1024 0.

Definition cx_con : cstate refcon :=
  CState (RefCon [] [] 0 (λ d, if d =? 1 then cx_disk else []) (λ _, None)) 0
    (replicate 512 0) (replicate 1024 0).

Definition cx_mounted : ext2 * ustate (cstate refcon) :=
  let s := (ext2_init, UState cx_con example_clusters 8192 0 (page_offset + 0x310000)) in
  match mount kx_fs 1 0 0 s with Ret _ s => s | _ => s end.

Definition cx_loader : disk ext2 (cstate refcon) :=
  Disk (Gzip (Loader (Aboot cx_mounted.2 0 0 [] 0 [] [] [] 0 0 0 0) cx_mounted.1 ∅) [] 0 [] 0
    0 0 0 0 0 0 0 0 0 0 0 0) None 0 0 None 0.

Definition cx_opened : Z * (ext2 * ustate (cstate refcon)) :=
  match open_config_file kx_fs cx_loader with
  | Ret fd d => (fd, (fss (base (gz d)), sys (ab (base (gz d)))))
  | _ => (-1, cx_mounted)
  end.

Definition cx_inode : list Z := default [] (aslice cx_disk (4 * 1024 + 256) 128).

Lemma cx_inode_ok : ext2_inode cx_disk (geo cx_opened.2.1) cx_inode cx_file 1090 2.
Proof.
  split.
  - exists 0. split; vm_compute; reflexivity.
  - vm_compute. reflexivity.
  - split; vm_compute; [discriminate|reflexivity].
  - split; vm_compute; [reflexivity|discriminate].
  - split; vm_compute; [discriminate|]. split; [discriminate|reflexivity].
  - apply plain_map_check. vm_compute. reflexivity.
  - apply (bool_decide_unpack _). vm_compute. exact I.
Qed.

Lemma cx_holds : ext2_holds (H0 := ex_laws) cx_disk (geo cx_opened.2.1) cx_inode 1
  (cx_opened.2.1, cx_opened.2.2).
Proof.
  split.
  - split; [split; [vm_compute; reflexivity|split; [vm_compute; reflexivity|apply Nat.ltb_lt; vm_compute; reflexivity]]|].
    split; [split; vm_compute; try (split; discriminate || reflexivity); reflexivity|].
    split; (split; [vm_compute; reflexivity|]); intros b _ E; vm_compute in E; discriminate.
  - split; [vm_compute; reflexivity|]. split; [vm_compute; reflexivity|].
    eexists. split; vm_compute; reflexivity.
Qed.

Definition cx_boot_file : BootFile (HO := cons_io_out 2000) kx_fs 1 1024 cx_file :=
  ext2_boot_file (HO := cons_io_out 2000) 20 cx_disk (geo cx_opened.2.1) cx_inode cx_file 1090 2 1
    cx_inode_ok ltac:(vm_compute; lia).

Lemma cx_open : open_config_file kx_fs cx_loader = Ret 1 (at_state cx_loader cx_opened.2.1 cx_opened.2.2 ∅).
Proof. vm_compute. reflexivity. Qed.

Definition cx_heap : ustate (cstate refcon) :=
  let u := cx_opened.2.2 in UState (u_con u) (clusters u) (pagesize u) 18446739675796205536 (dest_addr u).

Lemma cx_malloc : malloc (H := ex_io) 1024 cx_opened.2.2 = Ret 18446739675796205536 cx_heap.
Proof. vm_compute. reflexivity. Qed.

Lemma cx_pre_ok : Forall (other_line 51) cx_pre.
Proof.
  repeat (apply List.Forall_cons; [split;
    [apply (bool_decide_unpack _); vm_compute; exact I|eexists _, _; split; [reflexivity|split; discriminate]]|]).
  apply List.Forall_nil.
Qed.

Lemma preset_found_witness :
  ∃ out' d', get_default_args (H := ex_io) 10 kx_fs (replicate 256 7) 51 cx_loader = Ret (0, out') d' ∧
    cstring out' = Some cx_args.
Proof.
  apply (preset_found (HO := cons_io_out 2000) (HB := cx_boot_file) kx_fs 1 1024 cx_file 51 10 cx_loader
    cx_opened.2.1 cx_opened.2.2 18446739675796205536 cx_heap cx_pre cx_args
    (drop (length cx_text) cx_file) (replicate 256 7) 2).
  - exact cx_open.
  - lia.
  - exact cx_holds.
  - lia.
  - exact cx_malloc.
  - lia.
  - lia.
  - exact cx_pre_ok.
  - apply (bool_decide_unpack _). vm_compute. exact I.
  - vm_compute. reflexivity.
  - vm_compute. reflexivity.
  - vm_compute. reflexivity.
  - vm_compute. lia.
Defined.
