(* ===== verification/Options.v ===== *)
(** * The boot options

    What [parse_initrd] and [parse_partition] of get_aboot_options make of
    kernel_args and boot_file, as strings in their arrays. *)

From Stdlib Require Import Ascii String.
From S2P Require Import Prelude CString Vsprintf Cons Utils Aboot BootFs Gzip Disk.

Open Scope Z_scope.
Open Scope list_scope.

(** ** Strings in arrays *)

(** A string stored at the start of an array that has room for it. *)
Lemma put_cstring_ok buf s : zlen s < zlen buf → Forall (λ c, c ≠ 0) s →
  ∃ buf', put_cstring buf s = Some buf' ∧ cstring buf' = Some s ∧ zlen buf' = zlen buf.
Proof.
  intros Hz Hs. unfold put_cstring. rewrite asplice_0 by (rewrite zlen_app; change (zlen [0]) with 1; lia).
  eexists. split; [done|]. split.
  - rewrite <- app_assoc. by apply cstring_app.
  - rewrite zlen_app, zlen_drop, !zlen_app. change (zlen [0]) with 1. pose proof (zlen_nonneg s). lia.
Qed.

Lemma is_prefix_app p rest : is_prefix p (p ++ rest) = true.
Proof. apply bool_decide_eq_true. apply take_app_length. Qed.

(** "initrd=" is found where it first occurs. *)
Lemma find_initrd_first pre rest : ∀ p,
  (∀ i, (i < length pre)%nat → is_prefix (str "initrd=") (drop i (pre ++ str "initrd=" ++ rest)) = false) →
  find_initrd (pre ++ str "initrd=" ++ rest) p = p + zlen pre.
Proof.
  induction pre as [|c pre IH]; intros p Hno.
  - cbn [app]. change (zlen []) with 0. unfold find_initrd.
    destruct (str "initrd=" ++ rest) eqn:E; rewrite <- E, is_prefix_app; lia.
  - pose proof (Hno 0%nat ltac:(cbn; lia)) as H0. rewrite drop_0 in H0.
    cbn [app find_initrd] in *. rewrite H0. rewrite IH; [rewrite zlen_cons; lia|].
    intros i Hi. apply (Hno (S i)). cbn. lia.
Qed.

(** Without it the scan ends behind the NUL. *)
Lemma find_initrd_none s : ∀ p,
  (∀ i, (i <= length s)%nat → is_prefix (str "initrd=") (drop i s) = false) →
  find_initrd s p = p + zlen s + 1.
Proof.
  induction s as [|c s IH]; intros p Hno.
  - change (zlen []) with 0. cbn [find_initrd]. change (is_prefix (str "initrd=") []) with false. cbv iota. lia.
  - pose proof (Hno 0%nat ltac:(cbn; lia)) as H0. rewrite drop_0 in H0. cbn [find_initrd]. rewrite H0.
    rewrite IH; [rewrite zlen_cons; lia|]. intros i Hi. apply (Hno (S i)). cbn. lia.
Qed.

(** [strchr] for a space. *)
Lemma str_from_app name rest : Forall (λ c, c ≠ 32) name →
  str_from (name ++ rest) 32 = str_from rest 32.
Proof.
  induction 1 as [|c name Hc _ IH]; [done|]. cbn [app str_from]. by rewrite (proj2 (Z.eqb_neq c 32)).
Qed.

Section options.
Context {F K : Type} `{ConsIO K}.

Definition args_of (d : disk F K) : list Z := kernel_args (ab (base (gz d))).
Definition initrd_of (d : disk F K) : list Z := initrd_file (ab (base (gz d))).

(** Storing the name and closing the gap. *)
Lemma string_at_ok buf off s (d : disk F K) : 0 <= off <= zlen buf →
  cstring (drop (Z.to_nat off) buf) = Some s → string_at buf off d = Ret s d.
Proof.
  intros Ho Hs. unfold string_at.
  destruct (aslice_is_Some buf off (zlen buf - off)) as [t E]; [lia..|]. rewrite E. cbn [lift_opt]. rewrite bind_ret.
  apply aslice_Some in E as (_&_&_&->). rewrite take_ge by (rewrite length_drop; unfold zlen in *; lia).
  by rewrite Hs.
Qed.

Lemma parse_initrd_ok (d : disk F K) pre name rest stale :
  let s := pre ++ str "initrd=" ++ name ++ rest in
  args_of d = s ++ 0 :: stale → Forall (λ c, c ≠ 0) s → Forall (λ c, c ≠ 32) name →
  rest = [] ∨ head rest = Some 32 → zlen name < zlen (initrd_of d) →
  (∀ i, (i < length pre)%nat → is_prefix (str "initrd=") (drop i s) = false) →
  returns parse_initrd d (λ _ d', cstring (initrd_of d') = Some name ∧ cstring (args_of d') = Some (pre ++ rest)).
Proof.
  intros s Ea Hs Hname Hrest Hz Hno. unfold parse_initrd, get_aboot. step. fold (args_of d). rewrite Ea.
  eapply returns_opt; [by apply cstring_app|]. cbv zeta.
  assert (find_initrd s 0 = zlen pre) as -> by exact (find_initrd_first pre (name ++ rest) 0 Hno).
  assert (Forall (λ c, c ≠ 0) pre ∧ Forall (λ c, c ≠ 0) name ∧ Forall (λ c, c ≠ 0) rest) as (Hp0&Hn0&Hr0).
  { unfold s in Hs. rewrite !Forall_app in Hs. tauto. }
  pose proof (zlen_nonneg pre) as Hzp.
  eapply returns_opt.
  { unfold s. rewrite <- app_assoc. unfold zlen. rewrite aget_of_nat. apply list_lookup_middle. done. }
  change (ch "i" =? 0) with false. cbv iota.
  assert (zlen (s ++ 0 :: stale) = zlen pre + 7 + zlen name + zlen rest + 1 + zlen stale) as Hzs.
  { unfold s. rewrite !zlen_app, zlen_cons. change (zlen (str "initrd=")) with 7. lia. }
  pose proof (zlen_nonneg name). pose proof (zlen_nonneg rest). pose proof (zlen_nonneg stale).
  eapply returns_eq; [apply (string_at_ok _ _ (name ++ rest)); [lia|]|].
  { replace (Z.to_nat (zlen pre + 7)) with (length (pre ++ str "initrd=")) by (rewrite length_app; unfold zlen; cbn; lia).
    unfold s. rewrite <- !app_assoc, (app_assoc pre), drop_app_length, app_assoc.
    apply cstring_app. by apply Forall_app. }
  step. fold (initrd_of d).
  destruct (put_cstring_ok (initrd_of d) name Hz Hn0) as (f'&Ef&Ecf&_).
  rewrite (str_from_app name rest Hname). destruct Hrest as [->|Hrest].
  - change (str_from [] 32) with (@None (list Z)). rewrite app_nil_r in *. cbv iota.
    eapply returns_opt; [exact Ef|]. eapply returns_eq; [reflexivity|]. eapply returns_opt.
    { unfold s. rewrite <- app_assoc. cbn [str app]. apply aset_app. }
    exists tt. eexists. split; [reflexivity|]. split; [exact Ecf|]. unfold args_of. cbn. rewrite (app_nil_r pre). by apply cstring_app.
  - destruct rest as [|x rest]; [done|]. injection Hrest as ->. cbn [str_from]. rewrite Z.eqb_refl.
    replace (length (name ++ 32%Z :: rest) - length (32%Z :: rest))%nat with (length name)
      by (rewrite length_app; lia). rewrite take_app_length.
    set (tl := drop (Z.to_nat (zlen pre) + length ((32 :: rest) ++ [0])) (s ++ 0 :: stale)).
    eapply returns_opt; [exact Ef|]. eapply returns_eq; [reflexivity|].
    eapply (returns_opt _ _ ((pre ++ 32 :: rest) ++ 0 :: tl)).
    { unfold asplice. rewrite decide_True by (rewrite Hzs, zlen_app; change (zlen [0]) with 1; lia).
      fold tl. f_equal. unfold s at 1. rewrite <- !app_assoc. unfold zlen at 1. rewrite Nat2Z.id.
      by rewrite take_app_length. }
    exists tt. eexists. split; [reflexivity|]. split; [exact Ecf|].
    change (cstring ((pre ++ 32 :: rest) ++ 0 :: tl) = Some (pre ++ 32 :: rest)).
    apply cstring_app. by apply Forall_app.
Qed.

(** Without the option and with a byte behind the NUL. *)
Lemma parse_initrd_stale (d : disk F K) s x stale a :
  args_of d = s ++ 0 :: x :: stale → Forall (λ c, c ≠ 0) s → x ≠ 0 →
  (∀ i, (i <= length s)%nat → is_prefix (str "initrd=") (drop i s) = false) →
  cstring (drop 6 stale) = Some a → str_from a 32 = None → zlen a < zlen (initrd_of d) →
  returns parse_initrd d (λ _ d', cstring (initrd_of d') = Some a).
Proof.
  intros Ea Hs Hx Hno Ha H32 Hz. unfold parse_initrd, get_aboot. step. fold (args_of d). rewrite Ea.
  eapply returns_opt; [by apply cstring_app|]. cbv zeta. rewrite (find_initrd_none s 0 Hno), Z.add_0_l.
  assert (s ++ 0 :: x :: stale = (s ++ [0]) ++ x :: stale) as Es by (by rewrite <- app_assoc).
  assert (zlen s + 1 = zlen (s ++ [0])) as Ez by (by rewrite zlen_app).
  rewrite Es, Ez. eapply returns_opt; [apply aget_app|]. rewrite (proj2 (Z.eqb_neq x 0)) by done.
  pose proof (zlen_nonneg (s ++ [0])) as Hz0.
  assert (7 <= zlen (x :: stale)) as Hst.
  { apply cstring_Some in Ha as (_&r&E). apply (f_equal length) in E. rewrite length_drop, length_app in E.
    rewrite zlen_cons. unfold zlen. cbn [length] in E. lia. }
  eapply returns_eq; [apply (string_at_ok _ _ a); [rewrite (zlen_app (s ++ [0])); lia|]|].
  { replace (Z.to_nat (zlen (s ++ [0]) + 7)) with (length (s ++ [0%Z]) + 7)%nat by (unfold zlen; lia).
    rewrite drop_app_add. exact Ha. }
  step. fold (initrd_of d). rewrite H32.
  assert (Forall (λ c, c ≠ 0) a) as Ha0 by (by apply cstring_Some in Ha as (?&_)).
  destruct (put_cstring_ok (initrd_of d) a Hz Ha0) as (f'&Ef&Ecf&_).
  eapply returns_opt; [exact Ef|]. eapply returns_eq; [reflexivity|].
  eapply returns_opt; [apply aset_app|]. exists tt. eexists. split; [reflexivity|]. exact Ecf.
Qed.
End options.

(** ** The theorems *)

(** C35: The initrd= option. When kernel_args holds it, the name up to the next
    space is stored in initrd_file and the option is cut out of kernel_args:
    what was in front of it and what follows it remain. *)
Theorem initrd_extracted {F K} `{ConsIO K} (d : disk F K) pre name rest stale :
  let s := pre ++ str "initrd=" ++ name ++ rest in
  args_of d = s ++ 0 :: stale → Forall (λ c, c ≠ 0) s → Forall (λ c, c ≠ 32) name →
  rest = [] ∨ head rest = Some 32 → zlen name < zlen (initrd_of d) →
  (∀ i, (i < length pre)%nat → is_prefix (str "initrd=") (drop i s) = false) →
  ∃ d', parse_initrd d = Ret tt d' ∧ cstring (initrd_of d') = Some name ∧
    cstring (args_of d') = Some (pre ++ rest).
Proof.
  intros s Ea Hs Hn Hr Hz Hno. destruct (parse_initrd_ok d pre name rest stale) as ([]&d'&E&Hd); [done..|].
  by exists d'.
Qed.

(** A disk state with these arrays. *)
Definition ox_disk (args initrd : list Z) : disk unit (cstate refcon) :=
  Disk (Gzip (Loader (Aboot example_ustate 0 0 [] 0 [] initrd args 0 0 0 0) () ∅) [] 0 [] 0
    0 0 0 0 0 0 0 0 0 0 0 0) None 0 0 None 0.

Lemma no_match_check s n :
  forallb (λ i, negb (is_prefix (str "initrd=") (drop i s))) (seq 0 n) = true →
  ∀ i, (i < n)%nat → is_prefix (str "initrd=") (drop i s) = false.
Proof.
  intros HF i Hi. rewrite forallb_forall in HF. apply negb_true_iff, HF, in_seq. lia.
Qed.

Lemma initrd_extracted_witness :
  ∃ d', parse_initrd (ox_disk (str "root=/dev/sda2 initrd=/boot/initrd.img ro" ++ [0; 1; 2])
      (replicate 256 0)) = Ret tt d' ∧
    cstring (initrd_of d') = Some (str "/boot/initrd.img") ∧
    cstring (args_of d') = Some (str "root=/dev/sda2 " ++ str " ro").
Proof.
  apply (initrd_extracted (H := cons_io 10) (ox_disk (str "root=/dev/sda2 initrd=/boot/initrd.img ro" ++ [0; 1; 2])
    (replicate 256 0)) (str "root=/dev/sda2 ") (str "/boot/initrd.img") (str " ro") [1; 2]).
  - reflexivity.
  - apply (bool_decide_unpack _). vm_compute. exact I.
  - apply (bool_decide_unpack _). vm_compute. exact I.
  - by right.
  - vm_compute. reflexivity.
  - apply no_match_check. vm_compute. reflexivity.
Defined.

(** The scan for initrd= runs one character past the end. Without the option
    the pointer stops behind the NUL of kernel_args; a byte left there by a
    longer string is taken for a match, and the name of a ramdisk is read from
    seven bytes further on. *)
Theorem initrd_from_stale_bytes {F K} `{ConsIO K} (d : disk F K) s x stale a :
  args_of d = s ++ 0 :: x :: stale → Forall (λ c, c ≠ 0) s → x ≠ 0 →
  (∀ i, (i <= length s)%nat → is_prefix (str "initrd=") (drop i s) = false) →
  cstring (drop 6 stale) = Some a → str_from a 32 = None → zlen a < zlen (initrd_of d) →
  ∃ d', parse_initrd d = Ret tt d' ∧ cstring (initrd_of d') = Some a.
Proof.
  intros Ea Hs Hx Hno Ha H32 Hz. destruct (parse_initrd_stale d s x stale a) as ([]&d'&E&Hd); [done..|].
  by exists d'.
Qed.

(** "ro" stored over "root=/dev/sda2". *)
Lemma initrd_from_stale_bytes_witness :
  ∃ d', parse_initrd (ox_disk (str "ro" ++ 0 :: str "t=/dev/sda2" ++ [0]) (replicate 256 0)) = Ret tt d' ∧
    cstring (initrd_of d') = Some (str "sda2").
Proof.
  apply (initrd_from_stale_bytes (H := cons_io 10)
    (ox_disk (str "ro" ++ 0 :: str "t=/dev/sda2" ++ [0]) (replicate 256 0))
    (str "ro") (ch "t") (str "=/dev/sda2" ++ [0]) (str "sda2")).
  - reflexivity.
  - apply (bool_decide_unpack _). vm_compute. exact I.
  - vm_compute. discriminate.
  - intros i Hi. apply (no_match_check _ 3); [vm_compute; reflexivity|cbn in Hi; lia].
  - vm_compute. reflexivity.
  - vm_compute. reflexivity.
  - vm_compute. reflexivity.
Defined.
