(* ===== verification/Ufile.v ===== *)
(** * An open file of the operating system, as the tools use one

    A file is its contents and the position [lseek] has set; a failing [lseek]
    leaves the position.  Reads and writes do not fail, but a read stops at the
    end of the file.  This is what POSIX says of [lseek], [read] and [write] on a
    regular file. *)

From S2P Require Import Prelude.

Record ufile := UFile { contents : list Z; pos : Z }.

Definition f_lseek (off : Z) (f : ufile) : ufile :=
  if 0 <=? off then UFile (contents f) off else f.

(** [write]: behind the end the file is extended, a gap reads as zeros. *)
Definition f_write (bytes : list Z) (f : ufile) : ufile :=
  let p := Z.to_nat (pos f) in
  let c := contents f ++ replicate (p - length (contents f)) 0 in
  UFile (take p c ++ bytes ++ drop (p + length bytes) c) (pos f + zlen bytes).

(** [read] of at most [n] bytes. *)
Definition f_read (n : Z) (f : ufile) : list Z * ufile :=
  let bytes := take (Z.to_nat n) (drop (Z.to_nat (pos f)) (contents f)) in
  (bytes, UFile (contents f) (pos f + zlen bytes)).

Lemma f_write_in (bytes c : list Z) p :
  0 <= p → p + zlen bytes <= zlen c →
  ∃ c', asplice c p bytes = Some c' ∧ f_write bytes (UFile c p) = UFile c' (p + zlen bytes).
Proof.
  intros Hp Hl. unfold asplice. rewrite decide_True by lia. eexists. split; [done|].
  unfold f_write. cbn [contents pos]. pose proof (zlen_nonneg bytes). unfold zlen in Hl.
  replace (Z.to_nat p - length c)%nat with 0%nat by lia. by rewrite app_nil_r.
Qed.

Lemma f_read_in n c p :
  0 <= n → 0 <= p → p + n <= zlen c →
  ∃ bytes, aslice c p n = Some bytes ∧ f_read n (UFile c p) = (bytes, UFile c (p + n)).
Proof.
  intros Hn Hp Hl. destruct (aslice_is_Some c p n) as [b E]; [lia..|].
  exists b. split; [done|]. pose proof (aslice_len _ _ _ _ E) as Hz.
  unfold f_read. cbn [contents pos]. apply aslice_Some in E as (_&_&_&->). by rewrite Hz.
Qed.
