(* ===== verification/Isomarkboot.v ===== *)
(** * tools/isomarkboot.c: a boot block on an ISO 9660 image

    The files of such an image are contiguous, so only the boot block has to be
    written, and the start of a second file into the volume descriptor.  The
    image is an open file ([disk], [None] where open fails), messages are kept
    with their arguments, exit(1) is a [Jump]; [heap] is what malloc(3) returns
    for a size, [stale] what memory holds in which nothing was stored; strncat(3)
    closes the string.  The arguments are those behind the program's name. *)

From Stdlib Require Import Ascii String.
From S2P Require Import Prelude CString Vsprintf BootFs Ufile IsoLib.

Open Scope Z_scope.
Open Scope list_scope.

Record tool := Tool { disk : ufile; output : list (string * list arg) }.

(** [lseek] fails only for a negative offset. *)
Definition dev_read (buf : list Z) (offset size : Z) : M tool (Z * list Z) := λ t,
  if offset <? 0 then Ret (-1, buf) (Tool (disk t) (output t ++ [("lseek"%string, [])]))
  else
    let '(bytes, f) := f_read size (f_lseek offset (disk t)) in
    match asplice buf 0 bytes with
    | Some buf => Ret (zlen bytes, buf) (Tool f (output t))
    | None => Trap
    end.

Definition put_line (fmt : string) (args : list arg) : M tool unit :=
  modify (λ t, Tool (disk t) (output t ++ [(fmt, args)])).

(** strncat(3): at most [count] characters and a NUL. *)
Definition strncat (dest src : list Z) (count : Z) : option (list Z) :=
  let? cur := cstring dest in
  let? s := strn src count in
  asplice dest (zlen cur) (s ++ [0]).

#[export] Instance tool_env (heap : Z → Z) (stale : tool → Z → Z) : IsoEnv tool := {|
  iso_dev_read := dev_read;
  iso_printf := put_line;
  iso_malloc := λ n, ret (heap n);
  iso_strncat := strncat;
  iso_stale := stale
|}.

#[export] Program Instance tool_strncat heap stale : @StrncatLaws tool (tool_env heap stale) := {| strncat_closes := true |}.
Next Obligation. intros heap stale b cur l n s Hc Hn Hs. cbn. unfold strncat. by rewrite Hc, Hs. Qed.

(** Little-endian 64-bit quantities. *)
Definition write_64 (b : list Z) (off v : Z) : option (list Z) := put_le 8 b off v.
Definition read_64 (b : list Z) (off : Z) : option Z := get_u64 b off.

(* for (i = 0; i < 63; i++) sum += *)
Fixpoint sum_sector (n : nat) (sector : list Z) (i sum : Z) : option Z :=
  match n with
  | O => Some sum
  | S n => let? w := read_64 sector (8 * i) in sum_sector n sector (i + 1) (u64 (sum + w))
  end.

(** The sector read, with the text, the fields and the checksum of a boot block. *)
Definition boot_sector (sector : list Z) (aboot_size aboot_pos : Z) : option (list Z) :=
  let? b := asplice sector 0 (str "Linux/Alpha aboot for ISO filesystem." ++ [0]) in
  let? b := write_64 b 480 (Z.quot aboot_size 512) in
  let? b := write_64 b 488 (Z.quot aboot_pos 512) in
  let? b := write_64 b 496 0 in
  let? sum := sum_sector 63 b 0 0 in
  write_64 b 504 sum.

(** application_data of the primary volume descriptor *)
Definition root_start (rootbin_pos : Z) : list Z :=
  str "ROOT START=" ++ dec (Z.quot rootbin_pos 2048) ++ str "        ".

Section isomarkboot.
Context (fuel : nat) (heap : Z → Z) (stale : tool → Z → Z).

Abbreviation T := (M (iso * tool)).

Definition say (fmt : string) (args : list arg) : T unit := modify (λ s, (s.1, Tool (disk s.2) (output s.2 ++ [(fmt, args)]))).
Definition exit {A} : T A := longjmp "exit(1)".

(** lseek and read, or lseek and write, of [n] bytes. *)
Definition seek_read (off n : Z) : T (list Z) := λ s,
  let '(b, f) := f_read n (f_lseek off (disk s.2)) in Ret b (s.1, Tool f (output s.2)).
Definition seek_write (off : Z) (b : list Z) : T unit := λ s,
  Ret tt (s.1, Tool (f_write b (f_lseek off (disk s.2))) (output s.2)).

Definition empty_stat : stat := Stat 0 0 0 0 0 0 0 0 0 0.

(** The position and the size of an open file. *)
Definition place_of (fd : Z) : T (Z * Z) :=
  let! ' (_, st) := iso_fstat fd empty_stat in
  let! pos := @iso_map tool (tool_env heap stale) fd 0 in
  ret (pos, st_size st).

Definition mark_boot_block (argv2 : list Z) : T unit :=
  let! aboot_fd := @iso_open tool (tool_env heap stale) fuel argv2 in
  if aboot_fd <? 0 then say ("%s: file not found" ++ nl) [AStr (Some argv2)] ;;; exit
  else
    let! ' (aboot_pos, aboot_size) := place_of aboot_fd in
    say ("%s: %s is at offset %ld and is %lu bytes long" ++ nl) [AStr (Some argv2); AInt aboot_pos; AInt aboot_size] ;;;
    let! sector := seek_read 0 512 in
    if negb (zlen sector =? 512) then say ("%s: short read" ++ nl) [] ;;; exit
    else
      let! sector := lift_opt (boot_sector sector aboot_size aboot_pos) in
      seek_write 0 sector.

Definition mark_root (argv3 : list Z) : T unit :=
  let! rootbin_fd := @iso_open tool (tool_env heap stale) fuel argv3 in
  if rootbin_fd <? 0 then say ("%s: file not found" ++ nl) [AStr (Some argv3)] ;;; exit
  else
    let! rootbin_pos := @iso_map tool (tool_env heap stale) rootbin_fd 0 in
    iso_close rootbin_fd ;;;
    let! ' (_, st) := iso_fstat rootbin_fd empty_stat in
    say ("%s: %s is at offset %ld and is %lu bytes long" ++ nl) [AStr (Some argv3); AInt rootbin_pos; AInt (st_size st)] ;;;
    let! vol_desc := seek_read (16 * 2048) 2048 in
    if negb (zlen vol_desc =? 2048) then say ("%s: short read" ++ nl) [] ;;; exit
    else
      let! id := lift_opt (vd_id false vol_desc) in
      let! type := lift_opt (vd_type false vol_desc) in
      if negb (bool_decide (id = ISO_STANDARD_ID)) then
        say ("first volume descriptor has not an ISO_STANDARD_ID!!" ++ nl) [] ;;; exit
      else if negb (type =? ISO_VD_PRIMARY) then
        say ("first volume descriptor is not a primary one!!" ++ nl) [] ;;; exit
      else if negb (Z.land rootbin_pos 2047 =? 0) then
        say ("erreur:rootbin_pos=%ld is not at a isoblock boundary" ++ nl) [AInt rootbin_pos] ;;; exit
      else
        say ("writing %s in application_data of first volume descriptor" ++ nl) [AStr (Some (root_start rootbin_pos))] ;;;
        let! vol_desc := lift_opt (asplice vol_desc 883 (root_start rootbin_pos)) in
        seek_write (16 * 2048) vol_desc.

Definition main (args : list (list Z)) (file : option ufile) : T Z :=
  match args with
  | argv1 :: argv2 :: rest =>
      if 1 <? zlen rest then say ("usage: %s filesys path [root.bin]" ++ nl) [] ;;; exit
      else
        match file with
        | None => say "perror" [] ;;; exit
        | Some f =>
            modify (λ s, (s.1, Tool f (output s.2))) ;;;
            let! r := @iso_read_super tool (tool_env heap stale) 0 in
            if r <? 0 then say ("%s: cannot mount" ++ nl) [AStr (Some argv1)] ;;; exit
            else
              mark_boot_block argv2 ;;;
              match rest with
              | argv3 :: _ => mark_root argv3
              | [] => ret tt
              end ;;;
              ret 0
        end
  | _ => say ("usage: %s filesys path [root.bin]" ++ nl) [] ;;; exit
  end.
End isomarkboot.
