(* ===== verification/IsoSample.v ===== *)
(** * A sample ISO 9660 image

    A directory of two sectors with Rock Ridge names, a record of which lies
    across two blocks, mounted and opened by the loader; the theorems about the
    library are tried on it. *)

From Stdlib Require Import Ascii String.
From S2P Require Import Prelude CString Vsprintf Cons Utils Aboot BootFs UfsRead Ufile IsoLib IsoDir IsoRock IsoSafe Iso IsoRead Isomarkboot.

Open Scope Z_scope.
Open Scope list_scope.

Definition both_endian (w : nat) (x : Z) : list Z := le_bytes w x ++ rev (le_bytes w x).

(** The bytes in front of a name, and a record. *)
Definition rx_head (total extent size flags nlen : Z) : list Z :=
  [total; 0] ++ both_endian 4 extent ++ both_endian 4 size ++ replicate 7 0 ++ [flags; 0; 0] ++ both_endian 2 1 ++ [nlen].

Definition rx_pad (nm : list Z) : list Z := replicate (Z.to_nat ((33 + zlen nm) mod 2)) 0.

Record rx_entry := RxEntry { rx_extent : Z; rx_size : Z; rx_flags : Z; rx_nm : list Z; rx_fields : list su_field }.

Definition rx_len (x : rx_entry) : Z := 33 + zlen (rx_nm x) + zlen (rx_pad (rx_nm x)) + zlen (su_area (rx_fields x)).

Definition rx_dirent (x : rx_entry) : dirent :=
  Dirent (rx_head (rx_len x) (rx_extent x) (rx_size x) (rx_flags x) (zlen (rx_nm x))) (rx_nm x)
    (rx_pad (rx_nm x) ++ su_area (rx_fields x) ++ []) (su_name (rx_fields x)).

Definition rx_check (x : rx_entry) : bool :=
  (0 <? zlen (rx_nm x)) && (rx_len x <=? 255) && forallb su_ok (rx_fields x) &&
  forallb (λ f, zlen (su_body f) <=? 251) (rx_fields x) && (zlen (su_name (rx_fields x)) <? 254).

Lemma rx_head_len t e s f n : zlen (rx_head t e s f n) = 33.
Proof. unfold rx_head, both_endian. rewrite !zlen_app. unfold zlen. by rewrite !length_rev, !length_le_bytes. Qed.

Lemma rx_bytes x : rx_head (rx_len x) (rx_extent x) (rx_size x) (rx_flags x) (zlen (rx_nm x)) ++
  rx_nm x ++ rx_pad (rx_nm x) ++ su_area (rx_fields x) ++ [] = e_bytes (rx_dirent x).
Proof. reflexivity. Qed.

Lemma rx_bytes_len x : zlen (e_bytes (rx_dirent x)) = rx_len x.
Proof.
  rewrite <- rx_bytes, !zlen_app, rx_head_len. unfold rx_len. change (zlen (@nil Z)) with 0. lia.
Qed.

Lemma rx_dirent_ok x : rx_check x = true → dirent_ok (rx_dirent x).
Proof.
  intros Hx. unfold rx_check in Hx. repeat (apply andb_prop in Hx as [Hx ?]).
  split; rewrite ?rx_bytes_len; cbn [e_hd e_name e_tl e_alt rx_dirent]; [apply rx_head_len| |];
    (split; [reflexivity|lia]).
Qed.

Lemma rx_rock x : rx_check x = true → rock_dirent (rx_dirent x).
Proof.
  intros Hx. unfold rx_check in Hx. repeat (apply andb_prop in Hx as [Hx ?]).
  apply RockDirent; rewrite ?rx_bytes, ?rx_bytes_len; try done; try lia.
  - pose proof (Z.mod_pos_bound (33 + zlen (rx_nm x)) 2 ltac:(lia)).
    unfold rx_pad, zlen at 1. rewrite length_replicate. lia.
  - rewrite List.Forall_forall. rewrite forallb_forall in *. intros f Hin. apply Z.leb_le. auto.
Qed.

(** ** The image *)

Definition rx_nm_field (flags : Z) (s : string) : su_field := SuField (78, 77) 1 (flags :: str s).
Definition rx_rr : su_field := SuField (82, 82) 1 [8].

(** Names of the directory: two parts of one name, plain names, a version. *)
Definition rx_first : list rx_entry :=
  [RxEntry 18 4096 2 [0] []; RxEntry 18 4096 2 [1] [];
   RxEntry 20 3000 0 (str "KERNEL.;1") [rx_rr; rx_nm_field 1 "vm"; rx_nm_field 0 "linux-2.2"]].
Definition rx_numbered (n : Z) : rx_entry := RxEntry 20 (n + 1) 0 (str "FILE" ++ dec n ++ str ".TXT;1") [].
Definition rx_second : list rx_entry := [RxEntry 22 2048 0 (str "INITRD.GZ;1") []; RxEntry 22 7 0 (str "README.;1") []].

Definition rx_secs : list (list dirent) :=
  [map rx_dirent (rx_first ++ map rx_numbered (seqZ 10 32)); map rx_dirent rx_second].

Definition rx_pvd : list Z :=
  ux_bytes 2048 [(0, [1]); (1, str "CD001"); (80, both_endian 4 24); (128, both_endian 2 2048);
    (156, e_bytes (rx_dirent (RxEntry 18 4096 2 [0] [])))].

Definition rx_file : list Z := map (λ i, i mod 251) (seqZ 0 4096).
Definition rx_disk : list Z := replicate 32768 0 ++ rx_pvd ++ replicate 2048 255 ++ dir_bytes rx_secs ++ rx_file ++ rx_file.

Definition rx_ustate : ustate (cstate refcon) :=
  UState (CState (RefCon [] [] 0 (λ d, if d =? 1 then rx_disk else []) (λ _, None)) 0 (replicate 512 0)
    (replicate 1024 0)) example_clusters 8192 0 (page_offset + 0x310000).

Definition rx_io : ConsIO (cstate refcon) := cons_io 2000.

(** The stack holds zeros, but a string far behind the place of a name. *)
Definition rx_stale : ustate (cstate refcon) → Z → Z := λ _ i, if (100 <=? i) && (i <? 120) then 65 else 0.
Definition rx_env : IsoEnv (Z * ustate (cstate refcon)) := loader_env (H := rx_io) rx_stale.
Definition rx_cat : @StrncatLaws _ rx_env := loader_strncat rx_stale.

(** Mounted, with the root in a slot. *)
Definition rx_start : M (isofs * ustate (cstate refcon)) Z :=
  iso_mount (H := rx_io) rx_stale 1 0 0 ;;; with_lib (iso_open (H := rx_env) 100 (str "/")).
Definition rx_open : isofs * ustate (cstate refcon) := after rx_start (isofs_init, rx_ustate).
Definition rx_state : iso * (Z * ustate (cstate refcon)) := (lib rx_open.1, (cd_device rx_open.1, rx_open.2)).

Definition rx_laws : @IsoEnvLaws _ rx_env := loader_laws (H0 := cons_io_laws 2000) rx_stale.

Lemma rx_console : env_ok (IsoEnvLaws := rx_laws) rx_state.2.
Proof. split; [vm_compute; reflexivity|split; [vm_compute; reflexivity|apply Nat.ltb_lt; vm_compute; reflexivity]]. Qed.

Lemma rx_sb : sb rx_state.1 = IsofsSuperBlock 0 24 36864 11 24 0 110 98 1 110 1024 10 110 292.
Proof. vm_compute. reflexivity. Qed.

(** Where the record lies does not matter. *)
Lemma numbers_ok_check i ino e : negb (s32 (e_numbers (sb i) ino e 0).1 =? -1) = true → numbers_ok i ino e.
Proof.
  intros He addr Ha. apply negb_true_iff, Z.eqb_neq in He. revert He. unfold e_numbers.
  destruct (bool_decide (e_name e = [0])), (bool_decide (e_name e = [1])); cbn [fst]; try done.
  intros _. rewrite swrap_small by lia. lia.
Qed.

Lemma rx_sector_ok xs (Hx : forallb rx_check xs = true) ino :
  forallb (λ e, negb (s32 (e_numbers (sb rx_state.1) ino e 0).1 =? -1)) (map rx_dirent xs) = true →
  zlen (concat (map e_bytes (map rx_dirent xs))) <=? 2048 = true →
  sector_ok rx_state.1 ino (map rx_dirent xs).
Proof.
  intros Hn Hl. split; [|split; [|by apply Z.leb_le]]; rewrite List.Forall_forall.
  2:{ intros e He. rewrite forallb_forall in Hn. by apply numbers_ok_check, Hn. }
  intros e (x&<-&Hin)%in_map_iff. rewrite forallb_forall in Hx. by apply rx_dirent_ok, Hx.
Qed.

(** The array [retname] in the loader, record by record: the names join in it,
    and the string in it fits the record. *)
Definition rx_fits (arr : list Z) (x : rx_entry) : bool :=
  let name := su_name (rx_fields x) in
  (zlen arr =? 256) && joins false arr [] (rx_fields x) &&
  (bool_decide (name = []) ||
   match cstring (drop (length name) arr) with
   | Some rest => zlen name + zlen rest + 1 <=? rx_len x - 33
   | None => false
   end).

Fixpoint rx_chain (arr : list Z) (xs : list rx_entry) : option (list Z) :=
  match xs with
  | [] => Some arr
  | x :: xs =>
      if rx_check x && rx_fits arr x then rx_chain (named false arr (su_name (rx_fields x))) xs else None
  end.

Lemma rx_chain_ok {K} `{ConsIO K} stale b xs : s_rock b ≠ 0 → ∀ arr arr', rx_chain arr xs = Some arr' →
  alt_chain (H := loader_env (K := K) stale) 100 b arr (map rx_dirent xs) arr'.
Proof.
  intros Hrock. induction xs as [|x xs IH]; intros arr arr' E; cbn [rx_chain map] in *.
  { injection E as <-. constructor. }
  destruct (rx_check x) eqn:Hx; [|done]. destruct (rx_fits arr x) eqn:Hf; [|done]. cbn [andb] in E.
  eapply alt_cons; [|by apply IH]. unfold rx_fits in Hf.
  apply andb_prop in Hf as [[Harr%Z.eqb_eq Hj]%andb_prop Hf].
  pose proof (rx_bytes_len x) as Hbl. pose proof (rx_head_len (rx_len x) (rx_extent x) (rx_size x) (rx_flags x) (zlen (rx_nm x))) as Hh.
  unfold rx_check in Hx. repeat (apply andb_prop in Hx as [Hx ?]).
  apply (alt_step_rock (H := loader_env stale) (HS := loader_strncat stale)); rewrite ?rx_bytes, ?rx_bytes_len; try done; try lia.
  - pose proof (Z.mod_pos_bound (33 + zlen (rx_nm x)) 2 ltac:(lia)).
    unfold rx_pad, zlen at 1. rewrite length_replicate. lia.
  - rewrite List.Forall_forall. rewrite forallb_forall in *. intros f Hin. apply Z.leb_le. auto.
  - intros Hne. unfold stale_after. cbn [strncat_closes loader_strncat orb].
    rewrite bool_decide_eq_false_2 in Hf |- * by done. cbn [orb] in Hf.
    destruct (cstring _) as [rest|]; [|done]. exists rest. split; [done|]. apply Z.leb_le in Hf.
    rewrite <- rx_bytes, !zlen_app, Hh in Hbl. rewrite !zlen_app. lia.
Qed.

Lemma rx_disk_of : env_disk (IsoEnvLaws := rx_laws) rx_state.2 = rx_disk.
Proof. apply (bool_decide_unpack _). vm_compute. exact I. Qed.

Lemma rx_ready : dir_ready rx_state.1 1 36864 36 (2048 * zlen rx_secs) (dir_bytes rx_secs ++ take 1024 rx_file)
  (env_disk (IsoEnvLaws := rx_laws) rx_state.2).
Proof.
  rewrite rx_disk_of.
  split.
  - eexists. split; [vm_compute; reflexivity|]. repeat split; try (vm_compute; reflexivity); vm_compute; discriminate.
  - rewrite rx_sb. cbn. lia.
  - assert (zlen rx_secs = 2) as -> by (vm_compute; reflexivity). repeat split; vm_compute; done.
  - apply (bool_decide_unpack _). vm_compute. exact I.
Qed.

Lemma rx_secs_ok : Forall (sector_ok rx_state.1 36864) rx_secs.
Proof. constructor; [|constructor; [|constructor]]; (apply rx_sector_ok; vm_compute; reflexivity). Qed.

Definition rx_all : list rx_entry := rx_first ++ map rx_numbered (seqZ 10 32) ++ rx_second.

Lemma rx_alternates : ∃ arr, alt_chain (H := rx_env) 100 (sb rx_state.1) (stale_bytes (H := rx_env) rx_state.2 256)
  (concat rx_secs) arr.
Proof.
  assert (concat rx_secs = map rx_dirent rx_all) as -> by (vm_compute; reflexivity).
  assert (is_Some (rx_chain (stale_bytes (H := rx_env) rx_state.2 256) rx_all)) as [arr E].
  { apply (bool_decide_unpack _). vm_compute. exact I. }
  exists arr. apply rx_chain_ok; [by rewrite rx_sb|exact E].
Qed.

(** The record of the name lies across the first two blocks. *)
Lemma iso_find_entry_finds_witness :
  ∃ s', iso_find_entry (H := rx_env) 100 1 (str "file29.txt") rx_state = Ret (0, 37874, 36864) s' ∧
    good (HL := rx_laws) rx_state.1 rx_disk s'.
Proof.
  destruct rx_alternates as [arr Hchain].
  destruct (iso_find_entry_finds (HL := rx_laws) 100 1 36864 36 rx_secs (take 1024 rx_file) (str "file29.txt") arr rx_state)
    as (s'&E&Hg); [exact rx_ready|vm_compute; reflexivity|vm_compute; reflexivity|exact rx_console|exact rx_secs_ok|exact Hchain| |].
  - apply Nat.leb_le. vm_compute. reflexivity.
  - exists s'. rewrite <- rx_disk_of. split; [|exact Hg]. rewrite E. vm_compute. reflexivity.
Defined.

(** A name in two parts, in a record with the fields RR and NM, and a field of
    attributes the search does not look at; the array holds a longer name. *)
Lemma rock_ridge_name_witness :
  let fs := [rx_rr; rx_nm_field 1 "vm"; rx_nm_field 0 "linux-2.2"; SuField (80, 88) 1 (replicate 32 0)] in
  let nm := str "KERNEL.;1" in
  let arr := str "a" ++ [0; 0] ++ str "bootstraploader.gz" ++ replicate 235 0 in
  ∃ arr', get_rock_ridge_filename (H := rx_env) 1
      ((rx_head 105 20 3000 0 9 ++ nm ++ [] ++ su_area fs ++ [0]) ++ replicate 9 255) arr rx_state
    = Ret (11, arr') rx_state ∧
    cstring arr' = Some (str "vmlinux-2.2ploader.gz").
Proof.
  intros fs nm arr.
  assert (su_name fs = str "vmlinux-2.2") as En by (vm_compute; reflexivity).
  destruct (rock_ridge_name (H := rx_env) (HS := rx_cat) 1 (rx_head 105 20 3000 0 9) nm [] fs [0] (replicate 9 255) arr rx_state)
    as (arr'&E&_&_&Ec).
  - by rewrite rx_sb.
  - apply rx_head_len.
  - vm_compute. reflexivity.
  - vm_compute. reflexivity.
  - vm_compute. discriminate.
  - vm_compute. reflexivity.
  - vm_compute. reflexivity.
  - apply (bool_decide_unpack _). vm_compute. exact I.
  - vm_compute. reflexivity.
  - lia.
  - vm_compute. reflexivity.
  - vm_compute. reflexivity.
  - exists arr'. rewrite En in E, Ec. split; [exact E|]. rewrite Ec. vm_compute. reflexivity.
Defined.

(** The search in the same directory by isomarkboot, whatever its stack holds. *)
Example closed_names_chain heap stale arr : zlen arr = 256 →
  ∃ arr', alt_chain (H := tool_env heap stale) 100 (sb rx_state.1) arr (concat rx_secs) arr'.
Proof.
  intros Harr. apply (alt_chain_closed (H := tool_env heap stale) (HS := tool_strncat heap stale)); [done|by rewrite rx_sb|lia| |done].
  assert (concat rx_secs = map rx_dirent rx_all) as -> by (vm_compute; reflexivity).
  apply List.Forall_forall. intros e (x&<-&Hin)%in_map_iff. apply rx_rock.
  assert (forallb rx_check rx_all = true) as Hall by (vm_compute; reflexivity).
  rewrite forallb_forall in Hall. by apply Hall.
Qed.

(** ** A stale name

    In one sector, behind a file with a long name, one with a short name. *)
Definition named_entry (x : Z) (nm name : string) : rx_entry :=
  RxEntry x 100 0 (str nm) [rx_rr; rx_nm_field 0 name].

Definition sx_secs : list (list dirent) :=
  [map rx_dirent [RxEntry 1 2048 2 [0] []; RxEntry 1 2048 2 [1] [];
     named_entry 5 "AKERNEL.;1" "a-kernel-whose-name-is-much-longer-than-those-of-the-other-files-in-this-directory.gz";
     named_entry 6 "MOTD.;1" "motd"; named_entry 7 "VMLINUX.;1" "vmlinux"]].
Definition sx_disk : list Z := replicate 2048 0 ++ dir_bytes sx_secs ++ replicate 2048 0.

Definition sx_iso : iso :=
  set_table [InodeTableEntry 2048 0 2 2048 0 2048 1 16749]
    (set_sb (IsofsSuperBlock 0 24 2048 11 24 0 110 98 1 110 1024 10 110 292) iso_init).
Definition sx_ustate : ustate (cstate refcon) :=
  UState (CState (RefCon [] [] 0 (λ d, if d =? 1 then sx_disk else []) (λ _, None)) 0 (replicate 512 0)
    (replicate 1024 0)) example_clusters 8192 0 (page_offset + 0x310000).

(** The loader, on a stack of zeros, does not find the file behind them: over the
    record of the short name goes that name with the tail of the long one, which
    covers the name of the next record.  isomarkboot finds it. *)
Example stale_name_hides_file :
  dir_find (λ e, e_match (sb sx_iso) e (str "vmlinux")) sx_secs 0 ≠ None ∧
  value_of (iso_find_entry (H := loader_env (H := rx_io) (λ _ _, 0)) 100 0 (str "vmlinux") (sx_iso, (1, sx_ustate)))
    = Some (-1, 0, 0) ∧
  value_of (iso_find_entry (H := tool_env (λ n, n) (λ _ _, 0)) 100 0 (str "vmlinux") (sx_iso, Tool (UFile sx_disk 0) []))
    = Some (0, 2309, 2048).
Proof. split; [vm_compute; discriminate|]. split; vm_compute; reflexivity. Qed.

(** The last part of the kernel's 3000 bytes, asked for with more behind it. *)
Lemma iso_file_kernel : iso_file (set_table
    [InodeTableEntry (20 * 2048) 0 2 36932 0 3000 1 0] rx_state.1) 0 40 3000.
Proof. split; [by eexists|by split; vm_compute|done]. Qed.

Lemma iso_breadi_reads_witness :
  let s := (set_table [InodeTableEntry (20 * 2048) 0 2 36932 0 3000 1 0] rx_state.1, rx_state.2) in
  ∃ data e', iso_breadi (H := rx_env) 0 1 30 (replicate 4000 7) s
      = Ret (2048, data ++ drop 2048 (replicate 4000 7)) (s.1, e') ∧
    aslice rx_disk 41984 2048 = Some data.
Proof.
  cbv zeta. generalize iso_file_kernel, rx_console, rx_disk_of.
  generalize (set_table [InodeTableEntry (20 * 2048) 0 2 36932 0 3000 1 0] rx_state.1), rx_state.2. intros i e Hf He Hd.
  destruct (iso_breadi_reads (HL := rx_laws) 0 40 3000 1 30 (replicate 4000 7) (i, e)) as (data&e'&E&Ha&_); try done.
  - cbn [snd]. rewrite Hd. apply Z.leb_le. vm_compute. reflexivity.
  - exists data, e'. cbn [snd] in Ha. rewrite Hd in Ha. split; [exact E|exact Ha].
Defined.

(** A directory of 4000 bytes without sense, in the tool. *)
Definition junk : list Z := map (λ i, (i * i * 41 + 77 * i) mod 256) (seqZ 0 8192).
Definition junk_env : IsoEnv tool := tool_env (λ n, n) (λ _ _, 7).
Definition junk_state : iso * tool :=
  (set_table [InodeTableEntry 2048 0 2 2048 0 4000 1 16749]
     (set_sb (IsofsSuperBlock 0 24 2048 11 24 1 110 98 0 110 1024 10 110 292) iso_init),
   Tool (UFile junk 0) []).

Lemma iso_find_entry_ends_witness : iso_find_entry (H := junk_env) 5000 0 (str "vmlinux") junk_state ≠ Diverge.
Proof.
  apply (iso_find_entry_ends (H := junk_env) (λ x, Forall (λ c, 0 <= c < 256) (contents (disk x))) 5000 0 (str "vmlinux")
    (InodeTableEntry 2048 0 2 2048 0 4000 1 16749) junk_state).
  - intros buf off n x Hx Hb. cbn. unfold dev_read, f_read. destruct (off <? 0); [done|].
    assert (contents (f_lseek off (disk x)) = contents (disk x)) as -> by (unfold f_lseek; by destruct (0 <=? off)).
    destruct (asplice _ _ _) as [b|] eqn:Eb; [|done]. split; [exact Hx|].
    eapply Forall_asplice; [exact Hb| |exact Eb]. by apply Forall_take, Forall_drop.
  - intros fmt args x Hx. exact Hx.
  - done.
  - done.
  - done.
  - apply (bool_decide_unpack _). vm_compute. exact I.
  - apply (bool_decide_unpack _). vm_compute. exact I.
  - apply (bool_decide_unpack _). vm_compute. exact I.
  - apply Nat.ltb_lt. vm_compute. reflexivity.
Defined.

(** The sample directory, without Rock Ridge. *)
Definition rx_tool : iso * tool :=
  (set_table (inode_table rx_state.1)
     (set_sb (IsofsSuperBlock 0 24 36864 11 24 0 110 98 0 110 1024 10 110 292) iso_init),
   Tool (UFile rx_disk 0) []).

Lemma iso_readdir_i_unnamed_witness :
  ∃ r s', iso_readdir_i (H := junk_env) 100 1 1 rx_tool = Ret r s' ∧ r = None.
Proof.
  assert (match iso_readdir_i (H := junk_env) 100 1 1 rx_tool with Ret _ _ => true | _ => false end = true) as Hr
    by (vm_compute; reflexivity).
  destruct (iso_readdir_i (H := junk_env) 100 1 1 rx_tool) as [r s'| | |] eqn:E; [|discriminate..].
  exists r, s'. split; [reflexivity|]. refine (iso_readdir_i_unnamed (H := junk_env) 100 1 1 rx_tool r s' _ E).
  vm_compute. reflexivity.
Defined.
