(* ===== verification/Bio.v ===== *)
(** * tools/bio.c: the buffer cache of the ext2 tools

    A buffer without memory has [None] for its data, and copying from or to it
    is a [Trap].  The cache is compared with an array of blocks. *)

From S2P Require Import Prelude Ufile.

(** ** The buffers *)

Record bio_buf := BioBuf {
  blkno : Z;
  last_access : Z;
  dirty : bool;
  data : option (list Z)
}.

Definition NBUFS : Z := 32.

Record bio := Bio {
  bio_file : ufile;
  bio_counter : Z;
  bio_blocksize : Z;
  buflist : list bio_buf
}.

Definition set_file (f : ufile) (s : bio) : bio :=
  Bio f (bio_counter s) (bio_blocksize s) (buflist s).
Definition set_bufs (l : list bio_buf) (s : bio) : bio :=
  Bio (bio_file s) (bio_counter s) (bio_blocksize s) l.

Definition binit (f : ufile) (blocksize : Z) (s : bio) : bio :=
  Bio f (bio_counter s) blocksize (map (λ _, BioBuf 0 0 false None) (buflist s)).

(* lseek, then write the buffer's data *)
Definition write_out (bs : Z) (b : bio_buf) (f : ufile) : option ufile :=
  let? d := data b in
  Some (f_write (take (Z.to_nat bs) d) (f_lseek (s32 (blkno b * bs)) f)).

Fixpoint flush_all (bs : Z) (l : list bio_buf) (f : ufile) : option (list bio_buf * ufile) :=
  match l with
  | [] => Some ([], f)
  | b :: l =>
      if dirty b then
        let? f := write_out bs b f in
        let? (l, f) := flush_all bs l f in
        Some (BioBuf (blkno b) (last_access b) false (data b) :: l, f)
      else
        let? (l, f) := flush_all bs l f in
        Some (b :: l, f)
  end.

Definition bflush : M bio unit :=
  let! s := gets id in
  let! ' (l, f) := lift_opt (flush_all (bio_blocksize s) (buflist s) (bio_file s)) in
  modify (λ s, set_bufs l (set_file f s)).

(* the buffer that holds a block *)
Fixpoint find_buf (l : list bio_buf) (b i : Z) : option Z :=
  match l with
  | [] => None
  | x :: l => if blkno x =? b then Some i else find_buf l b (i + 1)
  end.

(* the buffer not used for longest, the first of them *)
Fixpoint oldest (l : list bio_buf) (i lowcount lowcount_buf : Z) : Z :=
  match l with
  | [] => lowcount_buf
  | x :: l =>
      if last_access x <? lowcount then oldest l (i + 1) (last_access x) i
      else oldest l (i + 1) lowcount lowcount_buf
  end.

Definition get_buf (i : Z) : M bio bio_buf := let! l := gets buflist in lift_opt (aget l i).
Definition put_buf (i : Z) (b : bio_buf) : M bio unit :=
  let! l := gets buflist in
  let! l := lift_opt (aset l i b) in
  modify (set_bufs l).

(* ++bio_counter *)
Definition tick : M bio Z :=
  let! n := gets (λ s, s32 (bio_counter s + 1)) in
  modify (λ s, Bio (bio_file s) n (bio_blocksize s) (buflist s)) ;;;
  ret n.

(** Find a buffer, and write it out if it is dirty. *)
Definition recycle : M bio Z :=
  let! l := gets buflist in
  let! b0 := lift_opt (aget l 0) in
  let i := oldest (tail l) 1 (last_access b0) 0 in
  let! b := get_buf i in
  (if dirty b then
     let! s := gets id in
     let! f := lift_opt (write_out (bio_blocksize s) b (bio_file s)) in
     modify (set_file f) ;;;
     put_buf i (BioBuf (blkno b) (last_access b) false (data b))
   else ret tt) ;;;
  ret i.

(* the memory of a buffer, allocated when it has none *)
Definition buf_memory (bs : Z) (b : bio_buf) : list Z :=
  match data b with Some d => d | None => replicate (Z.to_nat bs) 0 end.

(** The bytes stored to [blkbuf]. *)
Definition bread (n : Z) : M bio (list Z) :=
  let! l := gets buflist in
  let! bs := gets bio_blocksize in
  match find_buf l n 0 with
  | Some i =>
      let! t := tick in
      let! b := get_buf i in
      put_buf i (BioBuf (blkno b) t (dirty b) (data b)) ;;;
      let! d := lift_opt (data b) in
      lift_opt (aslice d 0 bs)
  | None =>
      let! i := recycle in
      let! b := get_buf i in
      let! f := gets bio_file in
      let '(bytes, f) := f_read bs (f_lseek (s32 (n * bs)) f) in
      modify (set_file f) ;;;
      let! d := lift_opt (asplice (buf_memory bs b) 0 bytes) in
      let! t := tick in
      put_buf i (BioBuf n t (dirty b) (Some d)) ;;;
      lift_opt (aslice d 0 bs)
  end.

(** [bytes] are the [bio_blocksize] bytes at [blkbuf]. *)
Definition bwrite (n : Z) (bytes : list Z) : M bio unit :=
  let! l := gets buflist in
  let! bs := gets bio_blocksize in
  match find_buf l n 0 with
  | Some i =>
      let! t := tick in
      let! b := get_buf i in
      let! d := lift_opt (data b) in
      let! d := lift_opt (asplice d 0 bytes) in
      put_buf i (BioBuf (blkno b) t true (Some d))
  | None =>
      let! i := recycle in
      let! b := get_buf i in
      let! t := tick in
      let! d := lift_opt (asplice (buf_memory bs b) 0 bytes) in
      put_buf i (BioBuf n t true (Some d))
  end.

(** ** The array of blocks *)

(** What a reader of the device sees: the blocks in core before those of the
    file. *)
Definition file_block (s : bio) (n : Z) : option (list Z) :=
  aslice (contents (bio_file s)) (n * bio_blocksize s) (bio_blocksize s).

(** The buffer in use that has a block. *)
Definition cached (l : list bio_buf) (n : Z) : option bio_buf :=
  snd <$> list_find (λ b, blkno b = n ∧ is_Some (data b)) l.

Definition view (s : bio) (n : Z) : option (list Z) :=
  match cached (buflist s) n with
  | Some b => data b
  | None => file_block s n
  end.

(** The blocks of the device, and a cache in step with it: every buffer in use
    has the memory of one block of the file, no other buffer has its number,
    and a clean one is what the file holds. *)
Record bio_ok (s : bio) : Prop := {
  ok_size : 0 < bio_blocksize s;
  ok_bufs : buflist s ≠ [];
  ok_file : zlen (contents (bio_file s)) < 2 ^ 31;
  ok_pos : 0 <= pos (bio_file s);
  ok_used : ∀ i b d, buflist s !! i = Some b → data b = Some d →
    0 <= blkno b ∧ (blkno b + 1) * bio_blocksize s <= zlen (contents (bio_file s)) ∧
    zlen d = bio_blocksize s ∧ (dirty b = false → file_block s (blkno b) = Some d);
  ok_unused : ∀ i b, buflist s !! i = Some b → data b = None → blkno b = 0 ∧ dirty b = false;
  ok_unique : ∀ i j b c, buflist s !! i = Some b → buflist s !! j = Some c →
    blkno b = blkno c → is_Some (data b) → i = j
}.

(** Every buffer is in use. *)
Definition full (s : bio) : Prop := ∀ i b, buflist s !! i = Some b → is_Some (data b).

(** A block that can be asked for. A buffer never used has number 0, so block 0
    can be asked for when there is none. *)
Definition valid_block (s : bio) (n : Z) : Prop :=
  0 <= n ∧ (n + 1) * bio_blocksize s <= zlen (contents (bio_file s)) ∧ (n = 0 → full s).

(** ** Lemmas *)

Lemma block_splice (c c' d : list Z) bs n m :
  asplice c (n * bs) d = Some c' → zlen d = bs → 0 < bs →
  aslice c' (m * bs) bs = if decide (m = n) then Some d else aslice c (m * bs) bs.
Proof.
  intros E Hd Hbs. case_decide as H.
  - subst m. rewrite <- Hd at 2. by eapply aslice_asplice_same.
  - eapply aslice_asplice_other; [exact E|]. rewrite Hd. destruct (Z.lt_total m n) as [|[|]]; nia.
Qed.

Lemma find_buf_Some l n : ∀ k i, find_buf l n k = Some i →
  k <= i < k + zlen l ∧ ∃ b, l !! Z.to_nat (i - k) = Some b ∧ blkno b = n.
Proof.
  induction l as [|x l IH]; intros k i E; [done|]. cbn [find_buf] in E. rewrite zlen_cons.
  pose proof (zlen_nonneg l). destruct (Z.eqb_spec (blkno x) n).
  - injection E as <-. split; [lia|]. exists x. by rewrite Z.sub_diag.
  - apply IH in E as (Hr&b&Hb&Hn). split; [lia|]. exists b. split; [|done].
    replace (Z.to_nat (i - k)) with (S (Z.to_nat (i - (k + 1)))) by lia. done.
Qed.

Lemma find_buf_None l n k : find_buf l n k = None → ∀ j b, l !! j = Some b → blkno b ≠ n.
Proof.
  revert k. induction l as [|x l IH]; intros k E j b Hj; [done|]. cbn [find_buf] in E.
  destruct (Z.eqb_spec (blkno x) n); [done|]. destruct j as [|j]; [by injection Hj as <-|by eapply IH].
Qed.

Lemma oldest_range l : ∀ i lc lb,
  oldest l i lc lb = lb ∨ i <= oldest l i lc lb < i + zlen l.
Proof.
  induction l as [|x l IH]; intros i lc lb; [by left|]. cbn [oldest]. rewrite zlen_cons.
  pose proof (zlen_nonneg l). destruct (_ <? _).
  - right. destruct (IH (i + 1) (last_access x) i); lia.
  - destruct (IH (i + 1) lc lb); [by left|right; lia].
Qed.

Lemma holder_used s n i b : bio_ok s → valid_block s n → buflist s !! i = Some b → blkno b = n →
  is_Some (data b).
Proof.
  intros Hok (_&_&Hf) Hi Hb. destruct (data b) as [d|] eqn:E; [by eexists|].
  destruct (ok_unused s Hok i b Hi E) as [E0 _]. rewrite <- E. by apply (Hf ltac:(lia) i).
Qed.

Lemma cached_spec s n b : bio_ok s →
  cached (buflist s) n = Some b ↔ ∃ i, buflist s !! i = Some b ∧ blkno b = n ∧ is_Some (data b).
Proof.
  intros Hok. unfold cached. split.
  - intros ((i&c)&(Hi&[Hc Hd]&_)%list_find_Some&E)%fmap_Some. cbn in E. subst c. by exists i.
  - intros (i&Hi&Hb&Hd).
    destruct (list_find (λ b, blkno b = n ∧ is_Some (data b)) (buflist s)) as [[j c]|] eqn:E.
    + apply list_find_Some in E as (Hj&[Hc Hd']&_).
      assert (j = i) as -> by (eapply (ok_unique s); eauto; congruence).
      cbn. congruence.
    + apply list_find_None in E. rewrite Forall_lookup in E. by destruct (E i b).
Qed.

Lemma cached_None l n :
  cached l n = None ↔ ∀ i b, l !! i = Some b → blkno b = n → ¬ is_Some (data b).
Proof. unfold cached. rewrite fmap_None, list_find_None, Forall_lookup. naive_solver. Qed.

Lemma inv_insert (l : list bio_buf) i (x : bio_buf) j c :
  <[i := x]> l !! j = Some c → (j = i ∧ c = x) ∨ (j ≠ i ∧ l !! j = Some c).
Proof.
  intros Hj. destruct (decide (i = j)) as [<-|Hne].
  - left. split; [done|]. rewrite list_lookup_insert_eq in Hj; [congruence|].
    apply lookup_lt_Some in Hj. by rewrite length_insert in Hj.
  - right. by rewrite list_lookup_insert_ne in Hj.
Qed.

Lemma insert_not_nil (l : list bio_buf) i x : l ≠ [] → <[i := x]> l ≠ [].
Proof. intros H E. apply (f_equal length) in E. rewrite length_insert in E. by destruct l. Qed.

(** A buffer takes over a block: one that held it, or a clean one. *)
Lemma store_ok s i b n t dy d :
  bio_ok s → valid_block s n → buflist s !! i = Some b →
  (∀ j c, buflist s !! j = Some c → blkno c = n → j = i) →
  blkno b = n ∨ dirty b = false → zlen d = bio_blocksize s →
  (dy = false → file_block s n = Some d) →
  let s' := set_bufs (<[i := BioBuf n t dy (Some d)]> (buflist s)) s in
  bio_ok s' ∧ (full s → full s') ∧ ∀ m, view s' m = if decide (m = n) then Some d else view s m.
Proof.
  intros Hok (Hn0&Hn&_) Hi Huniq Hor Hd Hclean s'.
  pose proof (lookup_lt_Some _ _ _ Hi) as Hlt.
  assert (∀ j c, buflist s' !! j = Some c →
    (j = i ∧ c = BioBuf n t dy (Some d)) ∨ (j ≠ i ∧ buflist s !! j = Some c)) as Hinv
    by (intros j c; apply inv_insert).
  assert (bio_ok s') as Hok'.
  { destruct Hok as [O1 O2 O3 O4 O5 O6 O7]. split; try done.
    - by apply insert_not_nil.
    - intros j c e [[-> ->]|[_ Hj]]%Hinv Hc; [|by eapply O5]. cbn in *. injection Hc as <-. done.
    - intros j c [[-> ->]|[_ Hj]]%Hinv Hc; [done|by eapply O6].
    - intros j k c e [[-> ->]|[Hji Hj]]%Hinv [[-> ->]|[Hki Hk]]%Hinv Hce Hc0; cbn in *; try done.
      + symmetry in Hce. by apply (Huniq k e Hk) in Hce.
      + by apply (Huniq j c Hj) in Hce.
      + by eapply O7. }
  split; [done|]. split.
  { intros Hf j c [[-> ->]|[_ Hj]]%Hinv; [by eexists|by eapply Hf]. }
  intros m. unfold view.
  destruct (cached (buflist s') m) as [c|] eqn:E.
  - apply (cached_spec s' m c Hok') in E as (j&[[-> ->]|[Hji Hj]]%Hinv&Hc&Hcd).
    + cbn in Hc. by rewrite decide_True.
    + rewrite decide_False by (intros ->; by apply Hji, (Huniq j c Hj)).
      rewrite (proj2 (cached_spec s m c Hok)); [done|]. by exists j.
  - rewrite cached_None in E.
    assert (m ≠ n) as Hmn.
    { intros ->. eapply (E i); [cbn; by apply list_lookup_insert_eq|done|by eexists]. }
    rewrite decide_False by done.
    destruct (cached (buflist s) m) as [c|] eqn:Ec; [|done].
    apply (cached_spec s m c Hok) in Ec as (j&Hj&Hc&[d' Hd']).
    destruct (decide (j = i)) as [->|Hji].
    + rewrite Hi in Hj. injection Hj as <-. destruct Hor as [|Hcl]; [congruence|].
      destruct (ok_used s Hok i b d' Hi Hd') as (_&_&_&Hf). rewrite Hd', <- Hc. by apply Hf.
    + exfalso. eapply (E j c); [|exact Hc|by eexists]. cbn. by rewrite list_lookup_insert_ne.
Qed.

(** Writing a dirty buffer out changes nothing a reader sees. *)
Lemma clean_ok s i b :
  bio_ok s → buflist s !! i = Some b → dirty b = true →
  ∃ f, write_out (bio_blocksize s) b (bio_file s) = Some f ∧
    let s' := set_bufs (<[i := BioBuf (blkno b) (last_access b) false (data b)]> (buflist s))
      (set_file f s) in
    bio_ok s' ∧ (full s → full s') ∧ zlen (contents f) = zlen (contents (bio_file s)) ∧
    ∀ m, view s' m = view s m.
Proof.
  intros Hok Hi Hdirty. pose proof Hok as [O1 O2 O3 O4 O5 O6 O7].
  destruct (data b) as [d|] eqn:Ed; [|by destruct (O6 i b Hi Ed); congruence].
  destruct (O5 i b d Hi Ed) as (Hpos&Hfit&Hz&_).
  set (bs := bio_blocksize s) in *. set (c := contents (bio_file s)) in *.
  destruct (f_write_in d c (blkno b * bs)) as (c'&Ec&Ef); [nia|nia|].
  exists (UFile c' (blkno b * bs + zlen d)).
  assert (zlen c' = zlen c) as Hzc.
  { apply asplice_len in Ec. unfold zlen. by rewrite Ec. }
  split.
  { unfold write_out. rewrite Ed. rewrite swrap_small by nia.
    unfold f_lseek. rewrite (proj2 (Z.leb_le 0 _)) by nia. fold c.
    rewrite take_ge by (unfold zlen in Hz; lia). by rewrite Ef. }
  intros s'. assert (∀ m, file_block s' m = if decide (m = blkno b) then Some d else file_block s m) as Hblk
    by (intros m; by apply block_splice with (d := d)).
  set (b' := BioBuf (blkno b) (last_access b) false (Some d)) in *.
  assert (∀ j x, buflist s' !! j = Some x →
    (j = i ∧ x = b') ∨ (j ≠ i ∧ buflist s !! j = Some x)) as Hinv by (intros j x; apply inv_insert).
  assert (bio_ok s') as Hok'.
  { split; cbn [s' set_bufs set_file bio_blocksize bio_file contents pos buflist]; try done.
    - by apply insert_not_nil.
    - fold c in O3. lia.
    - pose proof (zlen_nonneg d). nia.
    - fold bs. rewrite Hzc. intros j x e [[-> ->]|[Hji Hj]]%Hinv Hx.
      + cbn in *. injection Hx as <-. split; [done|]. split; [done|]. split; [done|].
        intros _. rewrite Hblk. by rewrite decide_True.
      + destruct (O5 j x e Hj Hx) as (?&?&?&Hf). split; [done|]. split; [done|].
        split; [done|]. intros Hcl. rewrite Hblk.
        rewrite decide_False by (intros E; apply Hji; eapply O7; eauto). by apply Hf.
    - intros j x [[-> ->]|[_ Hj]]%Hinv Hx; [done|by eapply O6].
    - intros j k x y [[-> ->]|[Hji Hj]]%Hinv [[-> ->]|[Hki Hk]]%Hinv Hxy Hx; cbn in *; try done.
      + by eapply O7; [exact Hi|exact Hk| |rewrite Ed].
      + by eapply O7.
      + by eapply O7. }
  split; [done|]. split.
  { intros Hf j x [[-> ->]|[_ Hj]]%Hinv; [by eexists|by eapply Hf]. }
  split; [exact Hzc|]. intros m. unfold view.
  destruct (cached (buflist s) m) as [x|] eqn:E.
  - apply (cached_spec s m x Hok) in E as (j&Hj&Hx&Hxd).
    destruct (decide (j = i)) as [->|Hne].
    + rewrite Hi in Hj. injection Hj as <-.
      rewrite (proj2 (cached_spec s' m b' Hok')); [done|]. exists i. cbn.
      rewrite list_lookup_insert_eq by (by eapply lookup_lt_Some). done.
    + rewrite (proj2 (cached_spec s' m x Hok')); [done|]. exists j. cbn.
      by rewrite list_lookup_insert_ne.
  - rewrite cached_None in E. rewrite (proj2 (cached_None _ _)).
    + rewrite Hblk, decide_False; [done|]. intros ->. by destruct (E i b Hi eq_refl).
    + intros j x [[-> ->]|[_ Hj]]%Hinv; [|by eapply E]. cbn. intros <-.
      by destruct (E i b Hi eq_refl).
Qed.

(** The device is the same size and the blocks the same, to a reader. *)
Definition same_view (s s' : bio) : Prop :=
  bio_ok s' ∧ bio_blocksize s' = bio_blocksize s ∧
  zlen (contents (bio_file s')) = zlen (contents (bio_file s)) ∧ (full s → full s') ∧
  ∀ m, view s' m = view s m.

Lemma same_view_refl s : bio_ok s → same_view s s.
Proof. intros. by split. Qed.

Lemma same_view_trans s1 s2 s3 : same_view s1 s2 → same_view s2 s3 → same_view s1 s3.
Proof.
  intros (?&?&?&?&HV) (?&?&?&?&HW). split; [done|]. split; [congruence|]. split; [congruence|].
  split; [auto|]. intros m. by rewrite HW, HV.
Qed.

Lemma valid_block_same s s' n : same_view s s' → valid_block s n → valid_block s' n.
Proof. intros (_&E1&E2&Hf&_). unfold valid_block. rewrite E1, E2. naive_solver. Qed.

(** Neither the access count nor the position matters. *)
Lemma bio_ok_ext s s' : bio_ok s → contents (bio_file s') = contents (bio_file s) →
  0 <= pos (bio_file s') → bio_blocksize s' = bio_blocksize s → buflist s' = buflist s →
  same_view s s'.
Proof.
  intros [O1 O2 O3 O4 O5 O6 O7] Ec Hp Eb El.
  assert (∀ m, file_block s' m = file_block s m) as Ef by (intros m; unfold file_block; by rewrite Ec, Eb).
  split; [|split; [done|split; [by rewrite Ec|split]]].
  - split; rewrite ?Ec, ?Eb, ?El; try done.
    intros i b d Hi Hb. rewrite Ef. by apply (O5 i).
  - unfold full. by rewrite El.
  - intros m. unfold view. by rewrite El, Ef.
Qed.

Lemma aget_buf l i (b : bio_buf) : aget l i = Some b → l !! Z.to_nat i = Some b.
Proof. by intros [_ ?]%aget_Some. Qed.

Lemma put_buf_Ret i b (s : bio) : 0 <= i < zlen (buflist s) →
  put_buf i b s = Ret tt (set_bufs (<[Z.to_nat i := b]> (buflist s)) s).
Proof.
  intros Hi. unfold put_buf. cbn [bind gets]. unfold aset. rewrite decide_True by done. done.
Qed.

Lemma get_buf_Ret i b (s : bio) : aget (buflist s) i = Some b → get_buf i s = Ret b s.
Proof. intros E. unfold get_buf. cbn [bind gets]. by rewrite E. Qed.

Lemma recycle_ok s : bio_ok s →
  ∃ i b s', recycle s = Ret i s' ∧ same_view s s' ∧ aget (buflist s') i = Some b ∧ dirty b = false ∧
    map blkno (buflist s') = map blkno (buflist s).
Proof.
  intros Hok. destruct (buflist s) as [|b0 l] eqn:El; [by destruct (ok_bufs s Hok)|].
  unfold recycle. rewrite (bind_Ret (gets buflist) _ s (b0 :: l) s) by (unfold gets; by rewrite El).
  rewrite (bind_Ret (lift_opt (aget (b0 :: l) 0)) _ s b0 s eq_refl). cbn [tail].
  set (i := oldest l 1 (last_access b0) 0).
  assert (0 <= i < zlen (buflist s)) as Hi.
  { rewrite El, zlen_cons. pose proof (zlen_nonneg l). destruct (oldest_range l 1 (last_access b0) 0); lia. }
  apply aget_is_Some in Hi as Hg. destruct Hg as [b Hb]. apply aget_buf in Hb as Hb'.
  rewrite (bind_Ret _ _ _ _ _ (get_buf_Ret i b s Hb)).
  destruct (dirty b) eqn:Ed.
  - destruct (clean_ok s (Z.to_nat i) b Hok Hb' Ed) as (f&Ew&Hok'&Hfu&Hz&HV).
    eexists i, _, _. split.
    { rewrite bind_bind. rewrite (bind_Ret (gets id) _ s s s eq_refl), bind_bind, Ew.
      rewrite (bind_Ret (lift_opt (Some f)) _ s f s eq_refl), bind_bind.
      rewrite (bind_Ret (modify (set_file f)) _ s tt (set_file f s) eq_refl).
      rewrite (bind_Ret _ _ _ _ _ (put_buf_Ret i _ (set_file f s) Hi)). done. }
    split; [done|]. split.
    { cbn. unfold aget. rewrite decide_True by lia. apply list_lookup_insert_eq.
      by eapply lookup_lt_Some. }
    split; [done|]. rewrite <- El. cbn [buflist set_bufs].
    change (blkno <$> <[Z.to_nat i:=BioBuf (blkno b) (last_access b) false (data b)]> (buflist s) =
      blkno <$> buflist s). rewrite list_fmap_insert. cbn [blkno]. apply list_insert_id. rewrite list_lookup_fmap, Hb'. done.
  - eexists i, b, s. split; [done|]. split; [by apply same_view_refl|]. by rewrite <- El.
Qed.

Lemma tick_Ret s : tick s =
  Ret (s32 (bio_counter s + 1)) (Bio (bio_file s) (s32 (bio_counter s + 1)) (bio_blocksize s) (buflist s)).
Proof. done. Qed.

Lemma asplice_full {A} (l d : list A) : zlen l = zlen d → asplice l 0 d = Some d.
Proof.
  intros E. rewrite asplice_0 by lia. rewrite drop_ge by (unfold zlen in *; lia). by rewrite app_nil_r.
Qed.

Lemma memory_len s i b : bio_ok s → buflist s !! i = Some b →
  zlen (buf_memory (bio_blocksize s) b) = bio_blocksize s.
Proof.
  intros Hok Hi. unfold buf_memory. pose proof (ok_size s Hok).
  destruct (data b) as [d|] eqn:E.
  - by destruct (ok_used s Hok i b d Hi E) as (_&_&Hd&_).
  - unfold zlen. rewrite length_replicate. lia.
Qed.

Lemma no_holder_map s s' n : map blkno (buflist s') = map blkno (buflist s) →
  (∀ j b, buflist s !! j = Some b → blkno b ≠ n) → ∀ j b, buflist s' !! j = Some b → blkno b ≠ n.
Proof.
  intros E H j b Hj Hb. apply (f_equal (λ l, l !! j)) in E.
  rewrite !list_lookup_fmap, Hj in E. cbn in E.
  destruct (buflist s !! j) as [c|] eqn:Ec; [|done]. injection E as E. apply (H j c Ec). congruence.
Qed.

(** The block takes its place in buffer [i], the access count having moved. *)
Lemma settle s i b n t dy d :
  bio_ok s → valid_block s n → aget (buflist s) i = Some b →
  (∀ j c, buflist s !! j = Some c → blkno c = n → j = Z.to_nat i) →
  blkno b = n ∨ dirty b = false → zlen d = bio_blocksize s →
  (dy = false → file_block s n = Some d) →
  ∃ s', put_buf i (BioBuf n t dy (Some d)) s = Ret tt s' ∧ bio_ok s' ∧
    bio_blocksize s' = bio_blocksize s ∧ bio_file s' = bio_file s ∧ (full s → full s') ∧
    ∀ m, view s' m = if decide (m = n) then Some d else view s m.
Proof.
  intros Hok Hn Hi Hu Hor Hd Hc. pose proof (aget_range _ _ _ Hi). apply aget_buf in Hi.
  destruct (store_ok s (Z.to_nat i) b n t dy d) as (H1&H2&H3); try done.
  eexists. rewrite put_buf_Ret by done. done.
Qed.

Lemma hit_unique s i n : bio_ok s → valid_block s n → find_buf (buflist s) n 0 = Some i →
  ∃ b d, aget (buflist s) i = Some b ∧ blkno b = n ∧ data b = Some d ∧ zlen d = bio_blocksize s ∧
    (dirty b = false → file_block s n = Some d) ∧ view s n = Some d ∧
    ∀ j c, buflist s !! j = Some c → blkno c = n → j = Z.to_nat i.
Proof.
  intros Hok Hn Ef. apply find_buf_Some in Ef as (Hi&b&Hb&Hbn).
  rewrite Z.sub_0_r in Hb. destruct (holder_used s n _ b Hok Hn Hb Hbn) as [d Ed].
  destruct (ok_used s Hok (Z.to_nat i) b d Hb Ed) as (_&_&Hd&Hf).
  exists b, d. split; [unfold aget; by rewrite decide_True by lia|]. split; [done|]. split; [done|].
  split; [done|]. split; [by rewrite <- Hbn|]. split.
  - unfold view. rewrite (proj2 (cached_spec s n b Hok)); [done|]. exists (Z.to_nat i). by rewrite Ed.
  - intros j c Hj Hc. symmetry. eapply (ok_unique s Hok); eauto; congruence.
Qed.

Lemma view_miss s n : find_buf (buflist s) n 0 = None → view s n = file_block s n.
Proof.
  intros E. unfold view. rewrite (proj2 (cached_None _ _)); [done|]. intros i b Hi Hb. by destruct (find_buf_None _ _ 0 E i b Hi).
Qed.

Lemma find_buf_miss l n k : (∀ j b, l !! j = Some b → blkno b ≠ n) → find_buf l n k = None.
Proof.
  revert k. induction l as [|x l IH]; intros k H; [done|]. cbn [find_buf].
  rewrite (proj2 (Z.eqb_neq _ _)) by (by apply (H 0%nat)). apply IH. intros j. apply (H (S j)).
Qed.

Lemma valid_is_Some s n : bio_ok s → valid_block s n → ∃ d, file_block s n = Some d ∧ zlen d = bio_blocksize s.
Proof.
  intros Hok (Hn&Hfit&_). pose proof (ok_size s Hok).
  destruct (aslice_is_Some (contents (bio_file s)) (n * bio_blocksize s) (bio_blocksize s)) as [d E]; [nia..|].
  exists d. split; [done|]. by eapply aslice_len.
Qed.

Lemma bread_ok n s : bio_ok s → valid_block s n →
  ∃ d s', bread n s = Ret d s' ∧ view s n = Some d ∧ same_view s s'.
Proof.
  intros Hok Hn. unfold bread. cbn [bind gets].
  destruct (find_buf (buflist s) n 0) as [i|] eqn:Ef.
  - destruct (hit_unique s i n Hok Hn Ef) as (b&d&Hb&Hbn&Ed&Hd&Hf&Hv&Hu).
    rewrite (bind_Ret _ _ _ _ _ (tick_Ret s)). set (s1 := Bio _ _ _ _).
    assert (same_view s s1) as Hs1 by (apply bio_ok_ext; try done; apply (ok_pos s Hok)).
    rewrite (bind_Ret _ _ _ _ _ (get_buf_Ret i b s1 Hb)), Ed.
    destruct (settle s1 i b n (s32 (bio_counter s + 1)) (dirty b) d) as (s2&E2&Hok2&Eb2&Ef2&Hfu2&Hv2);
      [apply Hs1|done|done|done|by left|done|done|].
    rewrite Hbn, (bind_Ret _ _ _ _ _ E2). cbn [lift_opt]. rewrite bind_ret.
    replace (bio_blocksize s) with (zlen d). rewrite aslice_all.
    exists d, s2. split; [done|]. split; [done|]. split; [done|]. split; [done|].
    split; [by rewrite Ef2|]. split; [exact Hfu2|]. intros m. rewrite Hv2. case_decide; [congruence|].
    by apply Hs1.
  - destruct (recycle_ok s Hok) as (i&b&s1&E1&Hs1&Hb&Hcl&Hmap).
    rewrite (bind_Ret _ _ _ _ _ E1). pose proof Hs1 as (Hok1&Ebs1&Ez1&Hfu1&Hv1).
    rewrite (bind_Ret _ _ _ _ _ (get_buf_Ret i b s1 Hb)).
    rewrite (bind_Ret (gets bio_file) _ s1 (bio_file s1) s1 eq_refl).
    apply (valid_block_same s s1 n Hs1) in Hn as Hn1.
    destruct (valid_is_Some s1 n Hok1 Hn1) as (d&Ed&Hzd). rewrite Ebs1 in Hzd.
    pose proof (ok_size s Hok). pose proof (ok_file s1 Hok1) as H31. pose proof Hn1 as (Hn0&Hfit&_).
    rewrite <- Ebs1. rewrite swrap_small by nia. unfold f_lseek. rewrite (proj2 (Z.leb_le 0 _)) by nia.
    unfold f_read. cbn [contents pos].
    assert (take (Z.to_nat (bio_blocksize s1)) (drop (Z.to_nat (n * bio_blocksize s1))
      (contents (bio_file s1))) = d) as Etk by (apply aslice_Some in Ed; by destruct Ed as (_&_&_&->)).
    rewrite Etk. set (f2 := UFile _ _).
    rewrite (bind_Ret (modify (set_file f2)) _ s1 tt (set_file f2 s1) eq_refl).
    apply aget_buf in Hb as Hb'. pose proof (memory_len s1 _ b Hok1 Hb') as Hm.
    rewrite asplice_full by congruence. cbn [lift_opt]. rewrite bind_ret.
    rewrite (bind_Ret _ _ _ _ _ (tick_Ret _)). cbn [set_file bio_file bio_counter bio_blocksize buflist].
    set (s3 := Bio f2 _ _ _). pose proof (zlen_nonneg d).
    assert (same_view s1 s3) as Hs3 by (apply bio_ok_ext; try done; cbn; nia).
    pose proof (no_holder_map s s1 n Hmap (find_buf_None _ _ _ Ef)) as Hno.
    destruct (settle s3 i b n (s32 (bio_counter s1 + 1)) (dirty b) d) as (s4&E4&Hok4&Eb4&Ef4&Hfu4&Hv4);
      [apply Hs3|by eapply valid_block_same|done| |by right|cbn; congruence|done|].
    { intros j c Hj Hc. by destruct (Hno j c Hj). }
    rewrite (bind_Ret _ _ _ _ _ E4). rewrite Ebs1, <- Hzd, aslice_all.
    assert (view s n = Some d) as Hvn.
    { rewrite <- Hv1. rewrite view_miss; [done|]. apply find_buf_miss. exact Hno. }
    exists d, s4. split; [done|]. split; [done|].
    apply (same_view_trans s s1); [done|]. apply (same_view_trans s1 s3); [done|].
    split; [done|]. split; [done|]. split; [by rewrite Ef4|]. split; [done|].
    intros m. rewrite Hv4. case_decide as E; [|done]. subst m.
    rewrite (proj2 (proj2 (proj2 (proj2 Hs3)))), Hv1. by rewrite Hvn.
Qed.

Lemma bwrite_ok n bytes s : bio_ok s → valid_block s n → zlen bytes = bio_blocksize s →
  ∃ s', bwrite n bytes s = Ret tt s' ∧ bio_ok s' ∧ bio_blocksize s' = bio_blocksize s ∧
    zlen (contents (bio_file s')) = zlen (contents (bio_file s)) ∧ (full s → full s') ∧
    ∀ m, view s' m = if decide (m = n) then Some bytes else view s m.
Proof.
  intros Hok Hn Hz. unfold bwrite. cbn [bind gets].
  destruct (find_buf (buflist s) n 0) as [i|] eqn:Ef.
  - destruct (hit_unique s i n Hok Hn Ef) as (b&d&Hb&Hbn&Ed&Hd&Hf&Hv&Hu).
    rewrite (bind_Ret _ _ _ _ _ (tick_Ret s)). set (s1 := Bio _ _ _ _).
    assert (same_view s s1) as Hs1 by (apply bio_ok_ext; try done; apply (ok_pos s Hok)).
    rewrite (bind_Ret _ _ _ _ _ (get_buf_Ret i b s1 Hb)), Ed. cbn [lift_opt]. rewrite bind_ret.
    rewrite asplice_full by congruence. cbn [lift_opt]. rewrite bind_ret, Hbn.
    destruct (settle s1 i b n (s32 (bio_counter s + 1)) true bytes) as (s2&E2&Hok2&Eb2&Ef2&Hfu2&Hv2);
      [apply Hs1|done|done|done|by left|done|done|].
    exists s2. split; [done|]. split; [done|]. split; [done|]. split; [by rewrite Ef2|]. split; [exact Hfu2|].
    intros m. rewrite Hv2. case_decide; [done|]. by apply Hs1.
  - destruct (recycle_ok s Hok) as (i&b&s1&E1&Hs1&Hb&Hcl&Hmap).
    rewrite (bind_Ret _ _ _ _ _ E1). pose proof Hs1 as (Hok1&Ebs1&Ez1&Hfu1&Hv1).
    rewrite (bind_Ret _ _ _ _ _ (get_buf_Ret i b s1 Hb)).
    rewrite (bind_Ret _ _ _ _ _ (tick_Ret s1)). set (s2 := Bio _ _ _ _).
    assert (same_view s1 s2) as Hs2 by (apply bio_ok_ext; try done; apply (ok_pos s1 Hok1)).
    apply aget_buf in Hb as Hb'. pose proof (memory_len s1 _ b Hok1 Hb') as Hm.
    rewrite asplice_full by congruence. cbn [lift_opt]. rewrite bind_ret.
    apply (valid_block_same s s1 n Hs1) in Hn as Hn1.
    pose proof (no_holder_map s s1 n Hmap (find_buf_None _ _ _ Ef)) as Hno.
    destruct (settle s2 i b n (s32 (bio_counter s1 + 1)) true bytes) as (s3&E3&Hok3&Eb3&Ef3&Hfu3&Hv3);
      [apply Hs2|by eapply valid_block_same|done| |by right|cbn; congruence|done|].
    { intros j c Hj Hc. by destruct (Hno j c Hj). }
    exists s3. split; [done|]. split; [done|]. split; [by rewrite Eb3, <- Ebs1|].
    split; [by rewrite Ef3|]. split; [intros Hf; by apply Hfu3, Hfu1|].
    intros m. rewrite Hv3. case_decide; [done|].
    rewrite (proj2 (proj2 (proj2 (proj2 Hs2)))). by apply Hv1.
Qed.

(** Flushing from buffer [length l1] on. *)
Lemma flush_all_ok l2 : ∀ l1 s, bio_ok s → buflist s = l1 ++ l2 →
  ∃ l2' f, flush_all (bio_blocksize s) l2 (bio_file s) = Some (l2', f) ∧
    same_view s (set_bufs (l1 ++ l2') (set_file f s)) ∧ Forall (λ b, dirty b = false) l2'.
Proof.
  induction l2 as [|b l2 IH]; intros l1 s Hok El.
  { exists [], (bio_file s). split; [done|]. split; [|constructor]. rewrite <- El.
    apply bio_ok_ext; try done. apply (ok_pos s Hok). }
  cbn [flush_all]. assert (buflist s !! length l1 = Some b) as Hb by (rewrite El; by apply list_lookup_middle).
  destruct (dirty b) eqn:Ed.
  - destruct (clean_ok s _ b Hok Hb Ed) as (f&->&Hok1&Hfu1&Hz1&Hv1).
    set (b' := BioBuf (blkno b) (last_access b) false (data b)) in *.
    set (s1 := set_bufs _ (set_file f s)) in *.
    assert (same_view s s1) as Hs1 by by (split; [done|]; split; [done|]; split; [exact Hz1|]; by split).
    destruct (IH (l1 ++ [b']) s1 Hok1) as (l2'&f'&E'&Hs2&HF).
    { cbn. rewrite El, insert_app_r_alt by lia. rewrite Nat.sub_diag, <- app_assoc. done. }
    cbn [s1 set_bufs set_file bio_blocksize bio_file] in E'. rewrite E'.
    exists (b' :: l2'), f'. split; [done|]. split; [|by constructor].
    rewrite <- app_assoc in Hs2. by eapply same_view_trans.
  - destruct (IH (l1 ++ [b]) s Hok) as (l2'&f'&E'&Hs2&HF); [by rewrite El, <- app_assoc|].
    rewrite E'. exists (b :: l2'), f'. split; [done|]. rewrite <- app_assoc in Hs2.
    split; [done|by constructor].
Qed.

Lemma bflush_ok s : bio_ok s →
  ∃ s', bflush s = Ret tt s' ∧ same_view s s' ∧ ∀ m, file_block s' m = view s m.
Proof.
  intros Hok. destruct (flush_all_ok (buflist s) [] s Hok eq_refl) as (l&f&E&Hs&HF).
  unfold bflush. rewrite (bind_Ret (gets id) _ s s s eq_refl), E. cbn [lift_opt]. rewrite bind_ret.
  eexists. split; [done|]. cbn [app] in Hs. split; [done|]. intros m.
  pose proof Hs as (Hok'&_&_&_&Hv). rewrite <- Hv. unfold view.
  destruct (cached l m) as [b|] eqn:Ec; cbn [set_bufs set_file buflist]; rewrite Ec; [|done].
  apply (cached_spec _ m b Hok') in Ec as (i&Hi&Hb&[d Ed]).
  destruct (ok_used _ Hok' i b d Hi Ed) as (_&_&_&Hf). rewrite Ed, <- Hb. apply Hf.
  by eapply Forall_lookup_1 in HF.
Qed.

Lemma binit_ok f bs s : 0 < bs → buflist s ≠ [] → zlen (contents f) < 2 ^ 31 → 0 <= pos f →
  bio_ok (binit f bs s).
Proof.
  intros Hbs Hl Hf Hp. assert (∀ i b, buflist (binit f bs s) !! i = Some b → b = BioBuf 0 0 false None) as Hinv.
  { intros i b. cbn. rewrite list_lookup_fmap. destruct (buflist s !! i); cbn; congruence. }
  split; try done.
  - cbn. by destruct (buflist s).
  - by intros i b d ->%Hinv.
  - by intros i b ->%Hinv.
  - intros i j b c ->%Hinv _ _ [? [=]].
Qed.

Lemma binit_view f bs s m : view (binit f bs s) m = aslice (contents f) (m * bs) bs.
Proof.
  unfold view. rewrite (proj2 (cached_None _ _)); [done|].
  intros i b. cbn. rewrite list_lookup_fmap. destruct (buflist s !! i); cbn; [|done].
  intros [= <-] _ [? [=]].
Qed.

(** ** The theorem *)

(** The calls of a program that uses the cache, and the same on an array. *)
Inductive bop := Read (n : Z) | Write (n : Z) (bytes : list Z) | Flush.

Fixpoint run_ops (ops : list bop) : M bio (list (list Z)) :=
  match ops with
  | [] => ret []
  | Read n :: ops => let! d := bread n in let! ds := run_ops ops in ret (d :: ds)
  | Write n bytes :: ops => bwrite n bytes ;;; run_ops ops
  | Flush :: ops => bflush ;;; run_ops ops
  end.

Fixpoint run_array (ops : list bop) (a : Z → option (list Z)) :
    list (option (list Z)) * (Z → option (list Z)) :=
  match ops with
  | [] => ([], a)
  | Read n :: ops => let '(ds, a') := run_array ops a in (a n :: ds, a')
  | Write n bytes :: ops => run_array ops (λ m, if decide (m = n) then Some bytes else a m)
  | Flush :: ops => run_array ops a
  end.

Definition op_ok (s : bio) (op : bop) : Prop :=
  match op with
  | Read n => valid_block s n
  | Write n bytes => valid_block s n ∧ zlen bytes = bio_blocksize s
  | Flush => True
  end.

Lemma run_array_ext ops : ∀ a a', (∀ m, a m = a' m) →
  (run_array ops a).1 = (run_array ops a').1 ∧ ∀ m, (run_array ops a).2 m = (run_array ops a').2 m.
Proof.
  induction ops as [|[n|n bytes|] ops IH]; intros a a' HE; [by split|..]; cbn [run_array].
  - destruct (IH a a' HE) as [E1 E2].
    destruct (run_array ops a), (run_array ops a'). cbn in *. split; [|done]. by rewrite HE, E1.
  - apply IH. intros m. case_decide; [done|]. by apply HE.
  - by apply IH.
Qed.

(** One call, against the array. *)
Lemma op_ok_after s s1 ops : bio_blocksize s1 = bio_blocksize s →
  zlen (contents (bio_file s1)) = zlen (contents (bio_file s)) → (full s → full s1) →
  Forall (op_ok s) ops → Forall (op_ok s1) ops.
Proof.
  intros E1 E2 Hf HF. eapply List.Forall_impl; [|exact HF].
  intros [n|n b|]; cbn; unfold valid_block; rewrite ?E1, ?E2; naive_solver.
Qed.

Lemma run_ops_ok ops : ∀ s, bio_ok s → Forall (op_ok s) ops →
  ∃ ds s', run_ops ops s = Ret ds s' ∧ map Some ds = (run_array ops (view s)).1 ∧
    bio_ok s' ∧ bio_blocksize s' = bio_blocksize s ∧
    zlen (contents (bio_file s')) = zlen (contents (bio_file s)) ∧
    ∀ m, view s' m = (run_array ops (view s)).2 m.
Proof.
  induction ops as [|op ops IH]; intros s Hok HF.
  { by exists [], s. }
  inversion HF as [|?? Hop HF']; subst.
  destruct op as [n|n bytes|]; cbn [run_ops run_array].
  - destruct (bread_ok n s Hok Hop) as (d&s1&E1&Hv&(Hok1&Eb1&Ez1&Hf1&Hv1)). rewrite (bind_Ret _ _ _ _ _ E1).
    destruct (IH s1 Hok1 (op_ok_after s s1 ops Eb1 Ez1 Hf1 HF')) as (ds&s2&E2&Eds&Hok2&Eb2&Ez2&Hv2).
    rewrite (bind_Ret _ _ _ _ _ E2). exists (d :: ds), s2. split; [done|].
    destruct (run_array_ext ops (view s1) (view s) Hv1) as [X1 X2].
    destruct (run_array ops (view s)) as [rs a']. cbn in *. rewrite Eds, X1, Hv.
    split; [done|]. split; [done|]. split; [congruence|]. split; [congruence|].
    intros m. by rewrite Hv2, X2.
  - destruct Hop as [Hn Hz]. destruct (bwrite_ok n bytes s Hok Hn Hz) as (s1&E1&Hok1&Eb1&Ez1&Hf1&Hv1).
    rewrite (bind_Ret _ _ _ _ _ E1).
    destruct (IH s1 Hok1 (op_ok_after s s1 ops Eb1 Ez1 Hf1 HF')) as (ds&s2&E2&Eds&Hok2&Eb2&Ez2&Hv2).
    exists ds, s2. split; [done|].
    destruct (run_array_ext ops (view s1) (λ m, if decide (m = n) then Some bytes else view s m) Hv1)
      as [X1 X2].
    rewrite Eds, X1. split; [done|]. split; [done|]. split; [congruence|]. split; [congruence|].
    intros m. by rewrite Hv2, X2.
  - destruct (bflush_ok s Hok) as (s1&E1&(Hok1&Eb1&Ez1&Hf1&Hv1)&_). rewrite (bind_Ret _ _ _ _ _ E1).
    destruct (IH s1 Hok1 (op_ok_after s s1 ops Eb1 Ez1 Hf1 HF')) as (ds&s2&E2&Eds&Hok2&Eb2&Ez2&Hv2).
    exists ds, s2. split; [done|].
    destruct (run_array_ext ops (view s1) (view s) Hv1) as [X1 X2].
    rewrite Eds, X1. split; [done|]. split; [done|]. split; [congruence|]. split; [congruence|].
    intros m. by rewrite Hv2, X2.
Qed.

(** C24: the buffer cache is an array of blocks. After [binit] on a file, any
    sequence of [bread], [bwrite] and [bflush] on blocks of the file other than
    block 0 gives what the same sequence on an array of the file's blocks
    gives, whatever was evicted and written back on the way; a final [bflush]
    leaves the array's blocks in the file. *)
Theorem cache_refines_array f bs s0 ops :
  0 < bs → buflist s0 ≠ [] → zlen (contents f) < 2 ^ 31 → 0 <= pos f →
  Forall (op_ok (binit f bs s0)) ops →
  let array n := aslice (contents f) (n * bs) bs in
  ∃ ds s1 s2, run_ops ops (binit f bs s0) = Ret ds s1 ∧ bflush s1 = Ret tt s2 ∧
    map Some ds = (run_array ops array).1 ∧
    ∀ m, aslice (contents (bio_file s2)) (m * bs) bs = (run_array ops array).2 m.
Proof.
  intros Hbs Hl Hf Hp HF array. pose proof (binit_ok f bs s0 Hbs Hl Hf Hp) as Hok.
  destruct (run_array_ext ops _ _ (binit_view f bs s0)) as [X1 X2].
  destruct (run_ops_ok ops _ Hok HF) as (ds&s1&E1&Eds&Hok1&Eb1&Ez1&Hv1).
  destruct (bflush_ok s1 Hok1) as (s2&E2&(Hok2&Eb2&_)&Hf2).
  exists ds, s1, s2. split; [done|]. split; [done|]. split; [by rewrite Eds|].
  intros m. specialize (Hf2 m). unfold file_block in Hf2. rewrite Eb2, Eb1 in Hf2.
  change (bio_blocksize (binit f bs s0)) with bs in Hf2. by rewrite Hf2, Hv1, X2.
Qed.

(* two buffers, so that the third block evicts the first *)
Definition example_bio : bio :=
  Bio (UFile [] 0) 5 0 [BioBuf 7 3 true (Some [9]); BioBuf 0 0 false None].

Definition example_device : ufile := UFile [0; 0; 1; 1; 2; 2; 3; 3; 4] 1.

Definition example_ops : list bop := [Write 1 [7; 8]; Read 2; Read 3; Read 1; Flush; Write 3 [5; 6]; Read 3].

Lemma cache_refines_array_witness :
  let array n := aslice (contents example_device) (n * 2) 2 in
  ∃ ds s1 s2, run_ops example_ops (binit example_device 2 example_bio) = Ret ds s1 ∧
    bflush s1 = Ret tt s2 ∧ map Some ds = (run_array example_ops array).1 ∧
    ∀ m, aslice (contents (bio_file s2)) (m * 2) 2 = (run_array example_ops array).2 m.
Proof.
  apply (cache_refines_array example_device 2 example_bio example_ops).
  - lia.
  - discriminate.
  - vm_compute. reflexivity.
  - vm_compute. discriminate.
  - repeat constructor; try (intros [=]); vm_compute; try discriminate; reflexivity.
Defined.

(** Block 0 is the number of a buffer never used: reading it copies from a null
    pointer. *)
Lemma bread_block_0 f bs s0 : buflist s0 ≠ [] → bread 0 (binit f bs s0) = Trap.
Proof.
  intros Hl. destruct s0 as [f0 c0 bs0 [|b l]]; [done|].
  unfold bread, binit. cbn [bind gets buflist map find_buf blkno bio_blocksize].
  rewrite Z.eqb_refl. reflexivity.
Qed.
