(* ===== verification/BioFull.v ===== *)
(** * When the buffers of tools/bio.c are all in use

    Block 0 can be asked for only when no buffer is unused.  An unused buffer is
    taken before a used one is given up, so a program that has asked for as many
    different blocks as there are buffers has filled them.  [lru_step k] says
    what [k] calls keep. *)

From S2P Require Import Prelude Ufile Bio.

(** Unused buffers have never been accessed. *)
Record lru (s : bio) : Prop := {
  lru_counter : 0 <= bio_counter s;
  lru_bufs : ∀ i b, buflist s !! i = Some b →
    (data b = None ∧ last_access b = 0) ∨ (is_Some (data b) ∧ 0 < last_access b)
}.

Definition has (s : bio) (n : Z) : Prop := ∃ i b, buflist s !! i = Some b ∧ blkno b = n ∧ is_Some (data b).

Definition lru_step (k : Z) (s s' : bio) : Prop :=
  length (buflist s') = length (buflist s) ∧ (full s → full s') ∧
  (lru s → bio_counter s + k < 2 ^ 31 →
    lru s' ∧ bio_counter s' <= bio_counter s + k ∧ (full s' ∨ ∀ n, has s n → has s' n)).

Lemma lru_step_refl s : lru_step 0 s s.
Proof. split; [done|]. split; [done|]. intros Hl _. split; [done|]. split; [lia|by right]. Qed.

Lemma lru_step_trans k1 k2 s1 s2 s3 : 0 <= k2 →
  lru_step k1 s1 s2 → lru_step k2 s2 s3 → lru_step (k1 + k2) s1 s3.
Proof.
  intros Hk (El1&Hf1&H1) (El2&Hf2&H2). split; [congruence|]. split; [auto|]. intros Hl Hc.
  destruct H1 as (Hl2&Hc2&Hh2); [done|lia|]. destruct H2 as (Hl3&Hc3&Hh3); [done|lia|].
  split; [done|]. split; [lia|]. destruct Hh2, Hh3; auto.
Qed.

Lemma lru_step_le k1 k2 s s' : k1 <= k2 → lru_step k1 s s' → lru_step k2 s s'.
Proof.
  intros Hk (El&Hf&H). split; [done|]. split; [done|]. intros Hl Hc.
  destruct H as (?&?&?); [done|lia|]. split; [done|]. split; [lia|done].
Qed.

(** The buffer that is recycled is one of those not used for longest. *)
Lemma oldest_min l : ∀ i lc lb, let r := oldest l i lc lb in
  (r = lb ∧ ∀ j b, l !! j = Some b → lc <= last_access b) ∨
  (∃ b, i <= r ∧ l !! Z.to_nat (r - i) = Some b ∧ last_access b <= lc ∧
    ∀ j c, l !! j = Some c → last_access b <= last_access c).
Proof.
  induction l as [|x l IH]; intros i lc lb; cbn [oldest].
  { left. split; [done|]. intros j b Hj. by rewrite lookup_nil in Hj. }
  destruct (Z.ltb_spec (last_access x) lc) as [Hlt|Hge].
  - right. destruct (IH (i + 1) (last_access x) i) as [[-> Hmin]|(b&Hr&Hb&Hle&Hmin)].
    + exists x. split; [lia|]. split; [by rewrite Z.sub_diag|]. split; [lia|].
      intros [|j] c Hj; [by injection Hj as <-|by eapply Hmin].
    + exists b. split; [lia|]. split.
      { replace (Z.to_nat (oldest l (i + 1) (last_access x) i - i)) with
          (S (Z.to_nat (oldest l (i + 1) (last_access x) i - (i + 1)))) by lia. done. }
      split; [lia|]. intros [|j] c Hj; [by injection Hj as <-|by eapply Hmin].
  - destruct (IH (i + 1) lc lb) as [[-> Hmin]|(b&Hr&Hb&Hle&Hmin)].
    + left. split; [done|]. intros [|j] c Hj; [by injection Hj as <-|by eapply Hmin].
    + right. exists b. split; [lia|]. split.
      { replace (Z.to_nat (oldest l (i + 1) lc lb - i)) with
          (S (Z.to_nat (oldest l (i + 1) lc lb - (i + 1)))) by lia. done. }
      split; [done|]. intros [|j] c Hj; [injection Hj as <-; lia|by eapply Hmin].
Qed.

Lemma oldest_head b0 l r b : r = oldest l 1 (last_access b0) 0 → (b0 :: l) !! Z.to_nat r = Some b →
  ∀ j c, (b0 :: l) !! j = Some c → last_access b <= last_access c.
Proof.
  intros Er Hb j c Hj. destruct (oldest_min l 1 (last_access b0) 0) as [[E Hmin]|(x&Hr&Hx&Hle&Hmin)];
    rewrite <- Er in *.
  - rewrite E in Hb. cbn in Hb. injection Hb as <-. destruct j as [|j]; [by injection Hj as <-|by eapply Hmin].
  - replace (Z.to_nat r) with (S (Z.to_nat (r - 1))) in Hb by lia.
    change (l !! Z.to_nat (r - 1) = Some b) in Hb. rewrite Hx in Hb. injection Hb as <-.
    destruct j as [|j]; [by injection Hj as <-|by eapply Hmin].
Qed.

(** ** The shape of a call *)

(** The same buffers, but for the dirty flag. *)
Definition alike (x y : bio_buf) : Prop :=
  blkno y = blkno x ∧ last_access y = last_access x ∧ data y = data x.

Lemma alike_refl l : Forall2 alike l l.
Proof. by apply Forall2_same_length_lookup_2; [|intros i x y ? ?; assert (x = y) as -> by congruence]. Qed.

Lemma put_buf_inv i b (s : bio) u s' : put_buf i b s = Ret u s' →
  0 <= i < zlen (buflist s) ∧ s' = set_bufs (<[Z.to_nat i := b]> (buflist s)) s.
Proof.
  unfold put_buf. cbn [bind gets]. intros (l&s1&[Ea ->]%lift_opt_Ret&E)%bind_inv.
  apply aset_Some in Ea as [Hi ->]. by injection E as _ <-.
Qed.

Lemma recycle_shape s i s' : recycle s = Ret i s' →
  bio_counter s' = bio_counter s ∧ Forall2 alike (buflist s) (buflist s') ∧
  ∃ b, 0 <= i ∧ buflist s !! Z.to_nat i = Some b ∧
    ∀ j c, buflist s !! j = Some c → last_access b <= last_access c.
Proof.
  unfold recycle. intros E. cbn [bind gets] in E.
  apply bind_inv in E as (b0&s1&[E0 ->]%lift_opt_Ret&E).
  destruct (buflist s) as [|x l] eqn:El; [done|]. injection E0 as <-. cbn [tail] in E.
  apply bind_inv in E as (b&s1&Eg&E). unfold get_buf in Eg. cbn [bind gets] in Eg.
  apply lift_opt_Ret in Eg as [Eb ->]. rewrite El in Eb. apply aget_Some in Eb as [Hi Hb].
  set (r := oldest l 1 (last_access x) 0) in *.
  apply bind_inv in E as (u&s2&E1&E2). injection E2 as <- <-.
  assert (∃ b, 0 <= r ∧ (x :: l) !! Z.to_nat r = Some b ∧
    ∀ j c, (x :: l) !! j = Some c → last_access b <= last_access c) as Hmin
    by (exists b; split; [done|]; split; [done|]; by eapply oldest_head).
  destruct (dirty b).
  - rewrite (bind_Ret (gets id) _ s s s eq_refl) in E1.
    apply bind_inv in E1 as (f&s3&[_ ->]%lift_opt_Ret&E1). cbn [bind modify] in E1.
    apply put_buf_inv in E1 as [_ ->]. cbn [set_bufs set_file bio_counter buflist]. split; [done|].
    rewrite El. split; [|exact Hmin]. apply Forall2_same_length_lookup_2.
    { by rewrite length_insert. }
    intros j y z Hy [[-> ->]|[_ Hz]]%inv_insert.
    + assert (y = b) as -> by congruence. done.
    + by assert (y = z) as -> by congruence.
  - injection E1 as _ <-. split; [done|]. rewrite El. split; [apply alike_refl|exact Hmin].
Qed.

(** After a call buffer [i] has the block, and it was the block's already or
    one not used for longer than any other. *)
Definition touched (n : Z) (s s' : bio) : Prop :=
  bio_counter s' = s32 (bio_counter s + 1) ∧
  ∃ l i x dy d, buflist s' = <[i := BioBuf n (bio_counter s') dy (Some d)]> l ∧
    Forall2 alike (buflist s) l ∧ buflist s !! i = Some x ∧
    (blkno x = n ∨ ∀ j c, buflist s !! j = Some c → last_access x <= last_access c).

Lemma bread_touched n s b s' : bread n s = Ret b s' → touched n s s'.
Proof.
  unfold bread. cbn [bind gets]. destruct (find_buf (buflist s) n 0) as [i|] eqn:Ef; intros E.
  - apply find_buf_Some in Ef as (Hi&x&Hx&Hn). rewrite Z.sub_0_r in Hx.
    rewrite (bind_Ret _ _ _ _ _ (tick_Ret s)) in E.
    apply bind_inv in E as (y&s1&Eg&E). unfold get_buf in Eg. cbn [bind gets buflist] in Eg.
    apply lift_opt_Ret in Eg as [[_ Hy]%aget_Some ->]. assert (y = x) as -> by congruence.
    apply bind_inv in E as (u&s2&Ep&E). apply put_buf_inv in Ep as [Hil ->]. cbn [buflist] in *.
    apply bind_inv in E as (d&s3&[Ed ->]%lift_opt_Ret&[_ ->]%lift_opt_Ret).
    split; [done|]. exists (buflist s), (Z.to_nat i), x, (dirty x), d. cbn. rewrite Hn, Ed.
    split; [done|]. split; [apply alike_refl|]. split; [done|by left].
  - apply bind_inv in E as (i&s1&Er&E). apply recycle_shape in Er as (Ec&Hal&x&Hi&Hx&Hmin).
    apply bind_inv in E as (y&s2&Eg&E). unfold get_buf in Eg. cbn [bind gets buflist] in Eg.
    apply lift_opt_Ret in Eg as [_ ->]. cbn [bind gets] in E.
    destruct (f_read _ _) as [bytes f]. cbn [bind modify] in E.
    apply bind_inv in E as (d&s3&[_ ->]%lift_opt_Ret&E). rewrite (bind_Ret _ _ _ _ _ (tick_Ret _)) in E.
    apply bind_inv in E as (u&s4&Ep&E). apply put_buf_inv in Ep as [_ ->].
    apply lift_opt_Ret in E as [_ ->]. cbn [set_bufs set_file bio_counter buflist]. rewrite Ec.
    split; [done|]. exists (buflist s1), (Z.to_nat i), x, (dirty y), d.
    split; [done|]. split; [done|]. split; [done|by right].
Qed.

Lemma bwrite_touched n bytes s u s' : bwrite n bytes s = Ret u s' → touched n s s'.
Proof.
  unfold bwrite. cbn [bind gets]. destruct (find_buf (buflist s) n 0) as [i|] eqn:Ef; intros E.
  - apply find_buf_Some in Ef as (Hi&x&Hx&Hn). rewrite Z.sub_0_r in Hx.
    rewrite (bind_Ret _ _ _ _ _ (tick_Ret s)) in E.
    apply bind_inv in E as (y&s1&Eg&E). unfold get_buf in Eg. cbn [bind gets buflist] in Eg.
    apply lift_opt_Ret in Eg as [[_ Hy]%aget_Some ->]. assert (y = x) as -> by congruence.
    apply bind_inv in E as (d&s3&[_ ->]%lift_opt_Ret&E).
    apply bind_inv in E as (d'&s3&[_ ->]%lift_opt_Ret&Ep). apply put_buf_inv in Ep as [Hil ->].
    split; [done|]. exists (buflist s), (Z.to_nat i), x, true, d'. cbn. rewrite Hn.
    split; [done|]. split; [apply alike_refl|]. split; [done|by left].
  - apply bind_inv in E as (i&s1&Er&E). apply recycle_shape in Er as (Ec&Hal&x&Hi&Hx&Hmin).
    apply bind_inv in E as (y&s2&Eg&E). unfold get_buf in Eg. cbn [bind gets buflist] in Eg.
    apply lift_opt_Ret in Eg as [_ ->]. rewrite (bind_Ret _ _ _ _ _ (tick_Ret _)) in E.
    apply bind_inv in E as (d&s3&[_ ->]%lift_opt_Ret&Ep). apply put_buf_inv in Ep as [_ ->].
    cbn [set_bufs set_file bio_counter buflist]. rewrite Ec.
    split; [done|]. exists (buflist s1), (Z.to_nat i), x, true, d.
    split; [done|]. split; [done|]. split; [done|by right].
Qed.

Lemma touched_lru n s s' : touched n s s' → lru_step 1 s s' ∧ has s' n.
Proof.
  intros (Ec&l&i&x&dy&d&El&Hal&Hx&Hor).
  assert (∀ j b, buflist s' !! j = Some b →
    (j = i ∧ b = BioBuf n (bio_counter s') dy (Some d)) ∨
    (j ≠ i ∧ ∃ c, buflist s !! j = Some c ∧ alike c b)) as Hinv.
  { intros j b Hj. rewrite El in Hj. apply inv_insert in Hj as [?|[? Hj]]; [by left|right].
    split; [done|]. by eapply Forall2_lookup_r in Hal as (c&?&?); [exists c|]. }
  assert (i < length l)%nat as Hil by (apply Forall2_length in Hal; apply lookup_lt_Some in Hx; lia).
  split; [split; [|split]|].
  - rewrite El, length_insert. apply Forall2_length in Hal. done.
  - intros Hf j b [[-> ->]|(_&c&Hc&_&_&->)]%Hinv; [by eexists|by eapply Hf].
  - intros [Hcnt Hl] H31. rewrite swrap_small in Ec by lia. split; [|split; [lia|]].
    + split; [lia|]. intros j b [[-> ->]|(_&c&Hc&_&Ela&Ed)]%Hinv.
      * right. cbn. split; [by eexists|lia].
      * rewrite Ela, Ed. by eapply Hl.
    + destruct (decide (Forall (λ b, is_Some (data b)) (buflist s'))) as [Hfull|Hnot].
      { left. intros j b Hj. by eapply Forall_lookup_1 in Hfull. }
      right. intros m (j&b&Hj&Hb&Hbd). destruct (decide (j = i)) as [->|Hne].
      * assert (b = x) as -> by congruence. destruct Hor as [E|Hmin].
        { exists i, (BioBuf n (bio_counter s') dy (Some d)). rewrite El, list_lookup_insert_eq by done.
          split; [done|]. split; [by rewrite <- E|by eexists]. }
        exfalso. apply Hnot. apply Forall_lookup_2. intros k c [[-> ->]|(_&e&He&_&_&->)]%Hinv; [by eexists|].
        destruct (Hl i x Hx) as [[Hxd _]|[_ Hpos]]; [by rewrite Hxd in Hbd; destruct Hbd|].
        destruct (Hl k e He) as [[_ H0]|[H0 _]]; [|done]. specialize (Hmin k e He). lia.
      * eapply Forall2_lookup_l in Hal as (c&Hc&E1&_&E3); [|exact Hj]. exists j, c.
        rewrite El, list_lookup_insert_ne by done. split; [done|]. split; [by rewrite E1|by rewrite E3].
  - exists i, (BioBuf n (bio_counter s') dy (Some d)). rewrite El, list_lookup_insert_eq by done.
    split; [done|]. split; [done|by eexists].
Qed.

(** As many different blocks in core as there are buffers: none is unused. *)
Lemma has_all_full s ns : NoDup ns → Forall (has s) ns → (length (buflist s) <= length ns)%nat → full s.
Proof.
  intros Hnd Hall Hlen j x Hj. destruct (data x) as [d|] eqn:Ed; [by eexists|exfalso].
  assert (∃ ks : list nat, length ks = length ns ∧ NoDup (j :: ks) ∧
    Forall (λ i, i < length (buflist s))%nat (j :: ks)) as (ks&Els&Hnd'&Hb).
  { clear Hlen. assert (∃ ks : list nat, Forall2 (λ n i, ∃ b, buflist s !! i = Some b ∧ blkno b = n ∧
        is_Some (data b)) ns ks) as [ks HF].
    { induction Hall as [|n ns (i&b&H) _ IH]; [by exists []|].
      apply list.NoDup_cons in Hnd as [_ Hnd]. destruct (IH Hnd) as [ks HF].
      exists (i :: ks). constructor; [by exists b|done]. }
    exists ks. split; [by apply Forall2_length in HF|]. split.
    - apply list.NoDup_cons. split.
      + intros [k Hk]%list_elem_of_lookup. eapply Forall2_lookup_r in HF as (n&_&b&Hb&_&Hbd); [|exact Hk].
        assert (b = x) as -> by congruence. rewrite Ed in Hbd. by destruct Hbd.
      + clear -Hnd HF. induction HF as [|n i ns ks (b&Hb&Hn&_) HF IH]; [constructor|].
        apply list.NoDup_cons in Hnd as [Hni Hnd]. apply list.NoDup_cons. split; [|by apply IH].
        intros [k Hk]%list_elem_of_lookup. eapply Forall2_lookup_r in HF as (m&Hm&c&Hc&Hcm&_); [|exact Hk].
        assert (b = c) as <- by congruence. apply Hni, list_elem_of_lookup. exists k. congruence.
    - constructor; [by eapply lookup_lt_Some|]. apply Forall_lookup_2. intros k i Hk.
      eapply Forall2_lookup_r in HF as (n&_&b&Hb&_); [|exact Hk]. by eapply lookup_lt_Some. }
  assert (length (j :: ks) <= length (seq 0 (length (buflist s))))%nat as Hle.
  { apply submseteq_length, NoDup_submseteq; [done|]. intros i Hi. apply elem_of_seq.
    apply list_elem_of_In in Hi. rewrite List.Forall_forall in Hb. specialize (Hb i Hi). lia. }
  rewrite length_seq in Hle. cbn in Hle. lia.
Qed.

(** ** Reading and writing, with what they keep *)

Lemma bread_keeps n s : bio_ok s → valid_block s n →
  ∃ d s', bread n s = Ret d s' ∧ view s n = Some d ∧ same_view s s' ∧ lru_step 1 s s' ∧ has s' n.
Proof.
  intros Hok Hn. destruct (bread_ok n s Hok Hn) as (d&s'&E&Hv&Hs). exists d, s'.
  split; [done|]. split; [done|]. split; [done|]. eapply touched_lru, bread_touched, E.
Qed.

Lemma bwrite_keeps n bytes s : bio_ok s → valid_block s n → zlen bytes = bio_blocksize s →
  ∃ s', bwrite n bytes s = Ret tt s' ∧ bio_ok s' ∧ bio_blocksize s' = bio_blocksize s ∧
    zlen (contents (bio_file s')) = zlen (contents (bio_file s)) ∧
    (∀ m, view s' m = if decide (m = n) then Some bytes else view s m) ∧ lru_step 1 s s' ∧ has s' n.
Proof.
  intros Hok Hn Hz. destruct (bwrite_ok n bytes s Hok Hn Hz) as (s'&E&Hok'&Eb&Ez&_&Hv). exists s'.
  do 5 (split; [done|]). eapply touched_lru, bwrite_touched, E.
Qed.
