(* ===== verification/E2lib.v ===== *)
(** * tools/e2lib.c: reading and changing an ext2 file system from a program

    The static variables are the state.  A pointer to an in-core inode is its
    slot of [inode_table], a pointer into a block buffer an offset.  A buffer on
    the stack holds a block; what the code has not stored in it reads as zeros,
    and an access behind the block is a [Trap].  The device is an open file
    behind the buffer cache of [Bio]; [ext2_close] writes to it directly. [fuel]
    bounds the loops over directory entries, whose [rec_len] may be 0.  Messages
    are kept with their arguments. *)

From Stdlib Require Import Ascii String.
From S2P Require Import Prelude CString Vsprintf Ext2Disk Ufile Bio.

Open Scope Z_scope.
Open Scope list_scope.

Definition MAX_OPEN_FILES : Z := 8.
Definition O_RDONLY : Z := 0.
Definition O_RDWR : Z := 2.
Definition BITS_PER_LONG : Z := 32.

(** ** State *)

(** What [ext2_init] finds out. *)
Record config := Config {
  ngroups : Z;
  blocksize : Z;
  directlim : Z;
  ind1lim : Z;
  ind2lim : Z;
  ptrs_per_blk : Z;
  filename : list Z;
  readonly : bool;
  verbose : bool
}.

Record inode_slot := InodeSlot {
  inode : list Z;
  inumber : Z;
  is_free : Z;
  old_mode : Z
}.

Record e2fs := E2fs {
  disk : bio;
  sb : list Z;
  gds : list Z;
  conf : config;
  inode_table : list inode_slot;
  messages : list (string * list arg)
}.

Definition set_disk (d : bio) (s : e2fs) : e2fs :=
  E2fs d (sb s) (gds s) (conf s) (inode_table s) (messages s).
Definition set_sb (b : list Z) (s : e2fs) : e2fs :=
  E2fs (disk s) b (gds s) (conf s) (inode_table s) (messages s).
Definition set_gds (g : list Z) (s : e2fs) : e2fs :=
  E2fs (disk s) (sb s) g (conf s) (inode_table s) (messages s).
Definition set_conf (c : config) (s : e2fs) : e2fs :=
  E2fs (disk s) (sb s) (gds s) c (inode_table s) (messages s).
Definition set_table (t : list inode_slot) (s : e2fs) : e2fs :=
  E2fs (disk s) (sb s) (gds s) (conf s) t (messages s).
Definition set_messages (m : list (string * list arg)) (s : e2fs) : e2fs :=
  E2fs (disk s) (sb s) (gds s) (conf s) (inode_table s) m.

Abbreviation E2 := (M e2fs).

Definition conf_of {A} (f : config → A) : E2 A := gets (λ s, f (conf s)).

(** printf and fprintf. *)
Definition say (fmt : string) (args : list arg) : E2 unit :=
  modify (λ s, set_messages (messages s ++ [(fmt, args)]) s).
Definition say_verbose (fmt : string) (args : list arg) : E2 unit :=
  let! v := conf_of verbose in if v then say fmt args else ret tt.

(** A call of the buffer cache. *)
Definition on_disk {A} (m : M bio A) : E2 A := λ s,
  match m (disk s) with
  | Ret a d => Ret a (set_disk d s)
  | Jump e d => Jump e (set_disk d s)
  | Trap => Trap
  | Diverge => Diverge
  end.

(** The block number is passed as an int. *)
Definition bread (n : Z) : E2 (list Z) := on_disk (Bio.bread (s32 n)).
Definition bwrite (n : Z) (b : list Z) : E2 unit := on_disk (Bio.bwrite (s32 n) b).

(** A bitmap is read into an array of 256 longwords. *)
Definition read_map (n : Z) : E2 (list Z) :=
  let! b := bread n in
  if zlen (A := Z) b <=? 1024 then ret b else trap.

(** The fields of the superblock and of group [i] that are changed. *)
Definition sb_field (f : list Z → option Z) : E2 Z := let! b := gets sb in lift_opt (f b).
Definition gd_field (f : list Z → Z → option Z) (i : Z) : E2 Z := let! g := gets gds in lift_opt (f g i).

Definition s_free_blocks_count (b : list Z) := get_u32 b 12.
Definition s_free_inodes_count (b : list Z) := get_u32 b 16.

Definition add_sb (off k : Z) : E2 unit :=
  let! b := gets sb in
  let! n := lift_opt (get_u32 b off) in
  let! b := lift_opt (put_le 4 b off (n + k)) in
  modify (set_sb b).
Definition add_gd (i off k : Z) : E2 unit :=
  let! g := gets gds in
  let! n := lift_opt (get_u16 g (sizeof_gd * i + off)) in
  let! g := lift_opt (put_le 2 g (sizeof_gd * i + off) (n + k)) in
  modify (set_gds g).

(** An in-core inode. *)
Definition get_slot (ip : Z) : E2 inode_slot := let! t := gets inode_table in lift_opt (aget t ip).
Definition put_slot (ip : Z) (e : inode_slot) : E2 unit :=
  let! t := gets inode_table in
  let! t := lift_opt (aset t ip e) in
  modify (set_table t).
Definition i_field (f : list Z → option Z) (ip : Z) : E2 Z :=
  let! e := get_slot ip in lift_opt (f (inode e)).
Definition set_field (n : nat) (ip off v : Z) : E2 unit :=
  let! e := get_slot ip in
  let! b := lift_opt (put_le n (inode e) off v) in
  put_slot ip (InodeSlot b (inumber e) (is_free e) (old_mode e)).
Definition set_i_block (ip k v : Z) : E2 unit :=
  if (0 <=? k) && (k <? 15) then set_field 4 ip (40 + 4 * k) v else trap.
Definition add_i_blocks (ip k : Z) : E2 unit :=
  let! n := i_field i_blocks ip in set_field 4 ip 28 (n + k).

(** ** Initialization *)

(** [file] is the open file, if open succeeds; [env] whether EXT2_VERBOSE is
    set.  A file of the format has blocks. *)
Definition ext2_init (name : list Z) (access : Z) (file : option ufile) (env : bool) : E2 Z :=
  modify (λ s, set_table (map (λ e, InodeSlot (inode e) 0 1 (old_mode e)) (inode_table s)) s) ;;;
  if negb (access =? O_RDONLY) && negb (access =? O_RDWR) then
    say ("ext2_init: Access must be O_RDONLY or O_RDWR, not %d" ++ nl) [AInt access] ;;; ret (-1)
  else
    match file with
    | None => say "perror" [] ;;; ret (-1)
    | Some f =>
        let! c := conf_of id in
        let ro := if access =? O_RDONLY then true else readonly c in
        let '(sbuf, f) := f_read sizeof_sb (f_lseek EXT2_MIN_BLOCK_SIZE f) in
        let! old := gets sb in
        let! b := lift_opt (asplice old 0 sbuf) in
        modify (set_sb b) ;;;
        modify (set_conf (Config (ngroups c) (blocksize c) (directlim c) (ind1lim c) (ind2lim c)
          (ptrs_per_blk c) (filename c) ro (verbose c))) ;;;
        if negb (zlen sbuf =? sizeof_sb) then say "ext2 sb read" [] ;;; ret (-1)
        else
          let! magic := sb_field s_magic in
          if negb (magic =? EXT2_SUPER_MAGIC) then
            say ("ext2 bad magic 0x%x" ++ nl) [AInt magic] ;;; ret (-1)
          else
            let! first := sb_field s_first_data_block in
            if negb (first =? 1) then
              say ("Brain-damaged utils can't deal with a filesystem" ++ nl ++
                   "where s_first_data_block != 1." ++ nl ++ "Re-initialize the filesystem" ++ nl) [] ;;;
              ret (-1)
            else
              let! count := sb_field s_blocks_count in
              let! bpg := sb_field s_blocks_per_group in
              let! log := sb_field s_log_block_size in
              if (bpg =? 0) || (32 <=? log) then trap
              else
                let ng := s32 (u32 (count + bpg - 1) / bpg) in
                let '(gbuf, f) := f_read (u64 (ng * sizeof_gd)) f in
                modify (set_conf (Config ng (blocksize c) (directlim c) (ind1lim c) (ind2lim c)
                  (ptrs_per_blk c) (filename c) ro (verbose c))) ;;;
                modify (set_gds gbuf) ;;;
                if negb (zlen gbuf =? u64 (ng * sizeof_gd)) then
                  say "ext2_init: group desc read error" [] ;;; ret (-1)
                else
                  let bs := s32 (Z.shiftl EXT2_MIN_BLOCK_SIZE log) in
                  let dl := EXT2_NDIR_BLOCKS - 1 in
                  let ppb := s32 (u64 bs / 4) in
                  lift_opt (asplice (replicate 256 0) 0 (name ++ [0])) ;;;
                  modify (set_conf (Config ng bs dl (s32 (ppb + dl)) (s32 (ppb * ppb + dl)) ppb name ro
                    (env || verbose c))) ;;;
                  modify (λ s, set_disk (binit f bs (disk s)) s) ;;;
                  let! fb := sb_field s_free_blocks_count in
                  let! ic := sb_field (λ b, get_u32 b 0) in
                  let! fi := sb_field s_free_inodes_count in
                  say_verbose ("Initialized filesystem %s" ++ nl) [AStr (Some name)] ;;;
                  say_verbose ("  %d blocks (%dKb), %d free (%dKb)" ++ nl)
                    [AInt count; AInt (u32 (count * bs) / 1024); AInt fb; AInt (u32 (fb * bs) / 1024)] ;;;
                  say_verbose ("  %d inodes,  %d free" ++ nl) [AInt ic; AInt fi] ;;;
                  say_verbose ("  %d groups, %d blocks/group" ++ nl) [AInt ng; AInt bpg] ;;;
                  ret 0
    end.

Definition ext2_blocksize : E2 Z := conf_of blocksize.

(** The writes to the open file, each complete. *)
Definition on_file (f : ufile → ufile) : E2 unit :=
  modify (λ s, set_disk (set_file (f (bio_file (disk s))) (disk s)) s).

Fixpoint close_groups (n : nat) (i : Z) : E2 unit :=
  match n with
  | O => ret tt
  | S n =>
      let! bpg := sb_field s_blocks_per_group in
      let! bs := conf_of blocksize in
      let! b := gets sb in
      let! g := gets gds in
      on_file (f_lseek (s32 (s32 (s32 (i * s32 bpg) + 1) * bs))) ;;;
      on_file (f_write b) ;;;
      on_file (f_write g) ;;;
      on_disk bflush ;;;
      close_groups n (i + 1)
  end.

Definition ext2_close : E2 unit :=
  let! c := conf_of id in
  if readonly c then ret tt else close_groups (Z.to_nat (ngroups c)) 0.

(** ** Bitmaps *)

(* the bits of a longword that is not full *)
Fixpoint scan_bits (n : nat) (lwval mask bit : Z) : option Z :=
  match n with
  | O => None
  | S n => if Z.land lwval mask =? 0 then Some bit else scan_bits n lwval (u32 (Z.shiftl mask 1)) (bit + 1)
  end.

Fixpoint scan_longs (n : nat) (addr : list Z) (longword size : Z) : option Z :=
  match n with
  | O => Some size
  | S n =>
      let? lwval := get_u32 addr (4 * longword) in
      if lwval =? 0xffffffff then scan_longs n addr (longword + 1) size
      else match scan_bits 32 lwval 1 0 with
           | Some bit => Some (u32 (longword * BITS_PER_LONG + bit))
           | None => scan_longs n addr (longword + 1) size
           end
  end.

Definition find_first_zero_bit (addr : list Z) (size : Z) : option Z :=
  if size =? 0 then Some 0
  else scan_longs (Z.to_nat (u32 (Z.shiftr (size + BITS_PER_LONG - 1) 5))) addr 0 size.

Definition set_bit (addr : list Z) (bitno : Z) : option (list Z) :=
  let i := u64 bitno / BITS_PER_LONG in
  let? w := get_u32 addr (4 * i) in
  put_le 4 addr (4 * i) (Z.lor w (u32 (Z.shiftl 1 (u64 bitno mod BITS_PER_LONG)))).

Definition clear_bit (addr : list Z) (bitno : Z) : option (list Z) :=
  let i := u64 bitno / BITS_PER_LONG in
  let? w := get_u32 addr (4 * i) in
  put_le 4 addr (4 * i) (Z.land w (u32 (Z.lnot (Z.shiftl 1 (u64 bitno mod BITS_PER_LONG))))).

(** ** Blocks *)

Fixpoint balloc_from (n : nat) (i : Z) : E2 Z :=
  match n with
  | O => say_verbose ("ext2_balloc: can't find a free block" ++ nl) [] ;;; ret 0
  | S n =>
      let! free := gd_field bg_free_blocks_count i in
      if 0 <? free then
        let! map_blk := gd_field bg_block_bitmap i in
        let! bpg := sb_field s_blocks_per_group in
        let! blockmap := read_map map_blk in
        let! blk := lift_opt (find_first_zero_bit blockmap bpg) in
        if (blk =? 0) || (blk =? bpg) then
          say ("group %d has %d blocks free but none in bitmap?" ++ nl) [AInt i; AInt free] ;;;
          balloc_from n (i + 1)
        else
          let! blockmap := lift_opt (set_bit blockmap (s32 blk)) in
          bwrite map_blk blockmap ;;;
          add_gd i 12 (-1) ;;;
          add_sb 12 (-1) ;;;
          let blk := u32 (blk + u32 (i * bpg) + 1) in
          (if blk =? 0 then say ("ext2_balloc: blk == 0?" ++ nl) [] else ret tt) ;;;
          ret (s32 blk)
      else balloc_from n (i + 1)
  end.

Definition ext2_balloc : E2 Z :=
  let! ro := conf_of readonly in
  if ro : bool then say ("ext2_balloc: readonly filesystem" ++ nl) [] ;;; ret 0
  else let! n := conf_of ngroups in balloc_from (Z.to_nat n) 0.

Definition ext2_bfree (blk : Z) : E2 unit :=
  let! bpg := sb_field s_blocks_per_group in
  if bpg =? 0 then trap
  else
    let i := s32 (u32 (blk - 1) / bpg) in
    let! map_blk := gd_field bg_block_bitmap i in
    let! blockmap := read_map map_blk in
    let! blockmap := lift_opt (clear_bit blockmap (s32 (u32 (blk - 1) mod bpg))) in
    bwrite map_blk blockmap ;;;
    add_gd i 12 1 ;;;
    add_sb 12 1.

(* for(; first < longs_per_group; first++) if the longword is (not) 0 break *)
Fixpoint skip_longs (n : nat) (stop_at_zero : bool) (addr : list Z) (i : Z) : option Z :=
  match n with
  | O => Some i
  | S n =>
      let? w := get_u32 addr (4 * i) in
      if eqb (w =? 0) stop_at_zero then Some i else skip_longs n stop_at_zero addr (i + 1)
  end.

(* the do loop: a run of free longwords, or [longs_per_group].  Every turn but
   the last leaves a longword behind. *)
Fixpoint find_run (n : nat) (addr : list Z) (firstlong longs_per_group longs_needed : Z) : option Z :=
  match n with
  | O => None
  | S n =>
      let? firstlong := skip_longs (Z.to_nat (longs_per_group - firstlong)) true addr firstlong in
      if firstlong =? longs_per_group then Some firstlong
      else
        let? lastlong := skip_longs (Z.to_nat (longs_per_group - firstlong)) false addr firstlong in
        if lastlong - firstlong <? longs_needed then
          (* while((lastlong-firstlong) < longs_needed) with the two equal now *)
          if 0 <? longs_needed then find_run n addr lastlong longs_per_group longs_needed
          else Some lastlong
        else Some firstlong
  end.

(* for(j = 0; j < nblocks; j++) *)
Fixpoint set_bits (n : nat) (addr : list Z) (bitno : Z) : option (list Z) :=
  match n with
  | O => Some addr
  | S n => let? addr := set_bit addr bitno in set_bits n addr (bitno + 1)
  end.

Fixpoint contiguous_from (n : nat) (i nblocks longs_needed longs_per_group : Z) : E2 Z :=
  match n with
  | O =>
      say_verbose ("ext2_contiguous_balloc: can't find %d contiguous free blocks" ++ nl) [AInt nblocks] ;;;
      ret 0
  | S n =>
      let! free := gd_field bg_free_blocks_count i in
      if nblocks <=? free then
        let! map_blk := gd_field bg_block_bitmap i in
        let! blockmap := read_map map_blk in
        let! firstlong := lift_opt
          (find_run (S (Z.to_nat longs_per_group)) blockmap 0 longs_per_group longs_needed) in
        if firstlong =? longs_per_group then
          contiguous_from n (i + 1) nblocks longs_needed longs_per_group
        else
          let blk := s32 (firstlong * BITS_PER_LONG) in
          let! blockmap := lift_opt (set_bits (Z.to_nat nblocks) blockmap blk) in
          bwrite map_blk blockmap ;;;
          add_gd i 12 (- nblocks) ;;;
          add_sb 12 (- nblocks) ;;;
          let! bpg := sb_field s_blocks_per_group in
          let blk := s32 (blk + u32 (i * bpg) + 1) in
          say_verbose ("ext2_contiguous_balloc: allocated %d blks @%d" ++ nl) [AInt nblocks; AInt blk] ;;;
          ret blk
      else contiguous_from n (i + 1) nblocks longs_needed longs_per_group
  end.

Definition ext2_contiguous_balloc (nblocks : Z) : E2 Z :=
  let! ro := conf_of readonly in
  if ro : bool then say ("ext2_contiguous_balloc: readonly filesystem" ++ nl) [] ;;; ret 0
  else
    let longs_needed := s32 (u64 (nblocks + BITS_PER_LONG - 1) / BITS_PER_LONG) in
    let! bpg := sb_field s_blocks_per_group in
    let longs_per_group := s32 (bpg / BITS_PER_LONG) in
    let! n := conf_of ngroups in
    contiguous_from (Z.to_nat n) 0 nblocks longs_needed longs_per_group.

(** ** Inodes *)

Fixpoint ialloc_from (n : nat) (i : Z) : E2 Z :=
  match n with
  | O => ret 0
  | S n =>
      let! free := gd_field bg_free_inodes_count i in
      if 4 <? free then
        let! map_blk := gd_field bg_inode_bitmap i in
        let! ipg := sb_field s_inodes_per_group in
        let! inodemap := read_map map_blk in
        let! ino := lift_opt (find_first_zero_bit inodemap ipg) in
        if (s32 ino =? 0) || (ino =? ipg) then
          say ("group %d has %d inodes free but none in bitmap?" ++ nl) [AInt i; AInt free] ;;;
          ialloc_from n (i + 1)
        else
          let! inodemap := lift_opt (set_bit inodemap (s32 ino)) in
          bwrite map_blk inodemap ;;;
          add_gd i 14 (-1) ;;;
          add_sb 16 (-1) ;;;
          ret (s32 (ino + u32 (i * ipg) + 1))
      else ialloc_from n (i + 1)
  end.

Definition ext2_ialloc : E2 Z :=
  let! ro := conf_of readonly in
  if ro : bool then ret 0
  else let! n := conf_of ngroups in ialloc_from (Z.to_nat n) 0.

Definition ext2_ifree (ino : Z) : E2 unit :=
  let! ipg := sb_field s_inodes_per_group in
  if ipg =? 0 then trap
  else
    let i := s32 (u32 (ino - 1) / ipg) in
    let! map_blk := gd_field bg_inode_bitmap i in
    let! inodemap := read_map map_blk in
    let! inodemap := lift_opt (clear_bit inodemap (s32 (u32 (ino - 1) mod ipg))) in
    bwrite map_blk inodemap ;;;
    add_gd i 14 1 ;;;
    add_sb 16 1.

(** Where an inode is: the group, the block and the offset in it. *)
Definition inode_place (ino : Z) : E2 (Z * Z * Z) :=
  let! ipg := sb_field s_inodes_per_group in
  let! bs := conf_of blocksize in
  if (ipg =? 0) || (bs =? 0) then trap
  else
    let group := s32 (u32 ino / ipg) in
    let! table := gd_field bg_inode_table group in
    let blkoffset := s32 (table * bs) in
    let byteoffset := s32 (u32 (ino - 1) mod ipg * sizeof_inode) in
    let blkoffset := s32 (blkoffset + Z.quot byteoffset bs * bs) in
    ret (group, Z.quot blkoffset bs, Z.rem byteoffset bs).

(* the first free slot *)
Fixpoint free_slot (t : list inode_slot) (i : Z) : option Z :=
  match t with
  | [] => None
  | e :: t => if negb (is_free e =? 0) then Some i else free_slot t (i + 1)
  end.

Definition ext2_iget (ino : Z) : E2 (option Z) :=
  let! t := gets inode_table in
  match free_slot t 0 with
  | None => say ("ext2_iget: no free inodes" ++ nl) [] ;;; ret None
  | Some ip =>
      let! ' (_, blk, byteoffset) := inode_place ino in
      let! inobuf := bread blk in
      let! b := lift_opt (aslice inobuf byteoffset sizeof_inode) in
      let! mode := lift_opt (i_mode b) in
      put_slot ip (InodeSlot b ino 0 mode) ;;;
      ret (Some ip)
  end.

Definition ext2_iput (ip : Z) : E2 unit :=
  let! e := get_slot ip in
  let ino := inumber e in
  let! links := lift_opt (i_links_count (inode e)) in
  (if links =? 0 then ext2_ifree ino else ret tt) ;;;
  put_slot ip (InodeSlot (inode e) 0 (is_free e) (old_mode e)) ;;;
  let! ro := conf_of readonly in
  (if ro : bool then ret tt
   else
     let! ' (group, blk, byteoffset) := inode_place ino in
     let! inode_mode := lift_opt (i_mode (inode e)) in
     let! inobuf := bread blk in
     let! inobuf := lift_opt (asplice inobuf byteoffset (inode e)) in
     bwrite blk inobuf ;;;
     (if S_ISDIR (old_mode e) && negb (S_ISDIR inode_mode) then add_gd group 16 (-1) else ret tt) ;;;
     (if negb (S_ISDIR (old_mode e)) && S_ISDIR inode_mode then add_gd group 16 1 else ret tt)) ;;;
  put_slot ip (InodeSlot (inode e) 0 1 (old_mode e)).

(** ** The block map *)

(* ip->i_blocks += (blocksize / 512) *)
Definition count_block (ip : Z) : E2 unit :=
  let! bs := conf_of blocksize in add_i_blocks ip (Z.quot bs 512).

(* the zero block *)
Definition zero_block : E2 (list Z) :=
  let! bs := conf_of blocksize in ret (replicate (Z.to_nat bs) 0).

(** The single-indirect range: [lp] is the block buffer. *)
Definition ind_blkno (ip blkoff : Z) (allocate : bool) : E2 Z :=
  let! dl := conf_of directlim in
  let! iblkno := i_field (λ b, i_block b EXT2_IND_BLOCK) ip in
  let! iblkno :=
    (if (iblkno =? 0) && allocate then
       let! b := ext2_balloc in
       if b =? 0 then ret 0
       else
         set_i_block ip EXT2_IND_BLOCK b ;;;
         say_verbose ("Allocated indirect block %d" ++ nl) [AInt b] ;;;
         count_block ip ;;;
         let! z := zero_block in
         bwrite b z ;;;
         ret b
     else ret (s32 iblkno)) in
  if iblkno =? 0 then ret 0
  else
    let! lp := bread iblkno in
    let k := blkoff - (dl + 1) in
    let! blkno := lift_opt (get_u32 lp (4 * k)) in
    if (blkno =? 0) && allocate then
      let! b := ext2_balloc in
      let! lp := lift_opt (put_le 4 lp (4 * k) b) in
      if b =? 0 then ret 0
      else
        count_block ip ;;;
        say_verbose ("Allocated data block %d" ++ nl) [AInt b] ;;;
        bwrite iblkno lp ;;;
        ret b
    else ret (s32 blkno).

(** The double-indirect range.  The data block is not tested when there is none
    left. *)
Definition dind_blkno (ip blkoff : Z) (allocate : bool) : E2 Z :=
  let! lim := conf_of ind1lim in
  let! ppb := conf_of ptrs_per_blk in
  let! diblkno := i_field (λ b, i_block b EXT2_DIND_BLOCK) ip in
  let! diblkno :=
    (if (diblkno =? 0) && allocate then
       let! b := ext2_balloc in
       if b =? 0 then ret 0
       else
         count_block ip ;;;
         say_verbose ("Allocated double-indirect block %d" ++ nl) [AInt b] ;;;
         let! z := zero_block in
         bwrite b z ;;;
         set_i_block ip EXT2_DIND_BLOCK b ;;;
         ret b
     else ret (s32 diblkno)) in
  if diblkno =? 0 then ret 0
  else if ppb =? 0 then trap
  else
    let! lp := bread diblkno in
    let k := Z.quot (blkoff - (lim + 1)) ppb in
    let! iblkno := lift_opt (get_u32 lp (4 * k)) in
    let! iblkno :=
      (if (iblkno =? 0) && allocate then
         let! b := ext2_balloc in
         if b =? 0 then ret 0
         else
           count_block ip ;;;
           say_verbose ("Allocated single-indirect block %d" ++ nl) [AInt b] ;;;
           let! lp := lift_opt (put_le 4 lp (4 * k) b) in
           bwrite diblkno lp ;;;
           let! z := zero_block in
           bwrite b z ;;;
           ret b
       else ret (s32 iblkno)) in
    if iblkno =? 0 then ret 0
    else
      let! lp := bread iblkno in
      let k := Z.rem (blkoff - (lim + 1)) ppb in
      let! blkno := lift_opt (get_u32 lp (4 * k)) in
      if (blkno =? 0) && allocate then
        let! b := ext2_balloc in
        let! lp := lift_opt (put_le 4 lp (4 * k) b) in
        count_block ip ;;;
        say_verbose ("Allocated data block %d" ++ nl) [AInt b] ;;;
        bwrite iblkno lp ;;;
        ret b
      else ret (s32 blkno).

Definition direct_blkno (ip blkoff : Z) (allocate : bool) : E2 Z :=
  let! b := i_field (λ b, i_block b blkoff) ip in
  (if (b =? 0) && allocate then
     let! b := ext2_balloc in
     set_i_block ip blkoff b ;;;
     say_verbose ("Allocated data block %d" ++ nl) [AInt b] ;;;
     count_block ip
   else ret tt) ;;;
  let! b := i_field (λ b, i_block b blkoff) ip in ret (s32 b).

Definition ext2_blkno (ip blkoff : Z) (allocate : bool) : E2 Z :=
  let! c := conf_of id in
  if allocate && readonly c then
    say ("ext2_blkno: Cannot allocate on a readonly file system!" ++ nl) [] ;;; ret 0
  else if blkoff <=? directlim c then direct_blkno ip blkoff allocate
  else if blkoff <=? ind1lim c then ind_blkno ip blkoff allocate
  else if blkoff <=? ind2lim c then dind_blkno ip blkoff allocate
  else say ("ext2_blkno: block number too large: %d" ++ nl) [AInt blkoff] ;;; ret 0.

(** The bytes stored to the buffer. *)
Definition ext2_bread (ip blkno : Z) : E2 (list Z) :=
  let! dev_blkno := ext2_blkno ip blkno false in
  if dev_blkno =? 0 then zero_block else bread dev_blkno.

Definition ext2_bwrite (ip blkno : Z) (buffer : list Z) : E2 unit :=
  let! c := conf_of id in
  if readonly c then say ("ext2_bwrite: Cannot write to a readonly filesystem!" ++ nl) []
  else
    let! dev_blkno := ext2_blkno ip blkno true in
    if dev_blkno =? 0 then say ("%s: No space on ext2 device" ++ nl) [AStr (Some (filename c))]
    else bwrite dev_blkno buffer.

(** ** A contiguous file *)

(* the stores of the block numbers, to the inode and behind [lp]; [k] counts
   the latter *)
Fixpoint store_blocks (n : nat) (ip i firstblock k : Z) (lp : list Z) : E2 (list Z) :=
  match n with
  | O => ret lp
  | S n =>
      if i <? EXT2_NDIR_BLOCKS then
        set_i_block ip i (firstblock + i) ;;;
        store_blocks n ip (i + 1) firstblock k lp
      else
        let! lp := lift_opt (put_le 4 lp (4 * k) (firstblock + i)) in
        store_blocks n ip (i + 1) firstblock (k + 1) lp
  end.

(* for(i = 0; i < nblocks; i++) ext2_bfree(i) *)
Fixpoint free_numbers (n : nat) (i : Z) : E2 unit :=
  match n with
  | O => ret tt
  | S n => ext2_bfree i ;;; free_numbers n (i + 1)
  end.

Definition ext2_fill_contiguous (ip nblocks : Z) : E2 Z :=
  let! c := conf_of id in
  if ind1lim c <? nblocks then
    say ("ext2_fill_contiguous: file size too big (%d); cannot exceed %d" ++ nl)
      [AInt nblocks; AInt (ind1lim c)] ;;;
    ret (-1)
  else
    let! firstblock := ext2_contiguous_balloc nblocks in
    if firstblock =? 0 then
      say ("ext2_fill_contiguous: Cannot allocate %d contiguous blocks" ++ nl) [AInt nblocks] ;;; ret (-1)
    else
      set_field 4 ip 28 (nblocks * Z.quot (blocksize c) 512) ;;;
      let! iblkno :=
        (if directlim c <? nblocks then
           let! b := ext2_balloc in
           if b =? 0 then
             say ("ext2_fill_contiguous: cannot allocate indirect block" ++ nl) [] ;;;
             free_numbers (Z.to_nat nblocks) 0 ;;;
             ret None
           else
             count_block ip ;;;
             set_i_block ip EXT2_IND_BLOCK b ;;;
             ret (Some b)
         else ret (Some 0)) in
      match iblkno with
      | None => ret (-1)
      | Some iblkno =>
          set_field 4 ip 4 (nblocks * blocksize c) ;;;
          let! lp := zero_block in
          let! lp := store_blocks (Z.to_nat nblocks) ip 0 firstblock 0 lp in
          (if negb (iblkno =? 0) then bwrite iblkno lp else ret tt) ;;;
          ret firstblock
      end.

Definition ext2_write_bootblock (bb : list Z) : E2 unit := bwrite 0 bb.

(** ** Truncation *)

(* the loop over the pointers of a block, with what frees the block or chain
   of one; the pointers are not stored back *)
Fixpoint free_pointers (free : Z → E2 unit) (n : nat) (i : Z) (b : list Z) : E2 unit :=
  match n with
  | O => ret tt
  | S n =>
      let! p := lift_opt (get_u32 b (4 * i)) in
      (if negb (p =? 0) then free (s32 p) else ret tt) ;;;
      free_pointers free n (i + 1) b
  end.

Fixpoint ext2_free_indirect (level : nat) (indirect_blkno : Z) : E2 unit :=
  let! b := bread indirect_blkno in
  let! n := conf_of ptrs_per_blk in
  free_pointers (match level with O => ext2_bfree | S l => ext2_free_indirect l end) (Z.to_nat n) 0 b ;;;
  ext2_bfree indirect_blkno.

(* one block number of the inode: what it stands for is freed and it is cleared *)
Definition clear_i_block (free : Z → E2 unit) (ip i : Z) : E2 unit :=
  let! b := i_field (λ b, i_block b i) ip in
  if negb (b =? 0) then free (s32 b) ;;; set_i_block ip i 0 else ret tt.

Definition EXT2_TIND_BLOCK : Z := 14.

Definition ext2_truncate (ip : Z) : E2 unit :=
  times 12 (λ i, clear_i_block ext2_bfree ip i ;;; ret (i + 1)) 0 ;;;
  clear_i_block (ext2_free_indirect 0) ip EXT2_IND_BLOCK ;;;
  clear_i_block (ext2_free_indirect 1) ip EXT2_DIND_BLOCK ;;;
  clear_i_block (ext2_free_indirect 2) ip EXT2_TIND_BLOCK ;;;
  set_field 4 ip 4 0.

(** ** Directories

    An entry is its offset in the block: inode at 0, rec_len at 4, name_len at
    6 (two bytes), the name from 8 on. *)

Definition dp_inode (b : list Z) (dp : Z) := get_u32 b dp.
Definition dp_rec_len (b : list Z) (dp : Z) := get_u16 b (dp + 4).
Definition dp_name_len (b : list Z) (dp : Z) := get_u16 b (dp + 6).

(** EXT2_DIR_REC_LEN: the header and the name, up to a multiple of four. *)
Definition EXT2_DIR_REC_LEN (len : Z) : Z := Z.land (len + 8 + 3) (Z.lnot 3).

(** strncmp(component, dp->name, length) == 0: up to the first difference. *)
Fixpoint same_name (component b : list Z) (off : Z) : option bool :=
  match component with
  | [] => Some true
  | c :: component =>
      let? x := aget b off in
      if x =? c then same_name component b (off + 1) else Some false
  end.

Section directories.
Context (fuel : nat).

(* the entries of a block, from [blockoffset] on: the inode number, or -1 *)
Definition search_block (dirbuf component : list Z) (blocksize : Z) : E2 Z :=
  loop fuel (λ blockoffset,
    if blockoffset <? blocksize then
      let! namelen := lift_opt (dp_name_len dirbuf blockoffset) in
      let! same := (if namelen =? zlen component
                    then lift_opt (same_name component dirbuf (blockoffset + 8)) else ret false) in
      if same : bool then let! ino := lift_opt (dp_inode dirbuf blockoffset) in ret (inr (s32 ino))
      else
        let! n := lift_opt (dp_rec_len dirbuf blockoffset) in ret (inl (blockoffset + n))
    else ret (inr (-1))) 0.

Definition search_dir (dir : Z) (component : list Z) : E2 Z :=
  loop fuel (λ diroffset,
    let! size := i_field i_size dir in
    if diroffset <? size then
      let! bs := conf_of blocksize in
      if bs =? 0 then trap
      else
        let! dirbuf := ext2_bread dir (s32 (diroffset / u32 bs)) in
        let! next_ino := search_block dirbuf component bs in
        ret (if 0 <=? next_ino then inr next_ino else inl (u32 (diroffset + bs)))
    else ret (inr (-1))) 0.

Fixpoint walk_path (components : list (list Z)) (dir : option Z) : E2 (option Z) :=
  match components with
  | [] => ret dir
  | c :: components =>
      let! dir_inode := lift_opt dir in
      let! next_ino := search_dir dir_inode c in
      ext2_iput dir_inode ;;;
      if next_ino <? 0 then ret None
      else
        let! next := ext2_iget next_ino in
        walk_path components next
  end.

(** [name] without its NUL; the components are what strtok finds. *)
Definition ext2_namei (name : list Z) : E2 (option Z) :=
  lift_opt (asplice (replicate 256 0) 0 (name ++ [0])) ;;;
  let! root := ext2_iget EXT2_ROOT_INO in
  walk_path (tokens (str "/") name) root.

(* the place for an entry in a block, and the block with the entry before it
   cut down *)
Definition find_room (dirbuf : list Z) (blocksize namelen : Z) : E2 (option Z * list Z) :=
  loop fuel (λ blockoffset,
    if blockoffset <? blocksize then
      let! dp_ino := lift_opt (dp_inode dirbuf blockoffset) in
      let! dp_reclen := lift_opt (dp_rec_len dirbuf blockoffset) in
      let! dp_namelen := lift_opt (dp_name_len dirbuf blockoffset) in
      if (dp_ino =? 0) && (EXT2_DIR_REC_LEN namelen <=? dp_reclen) then
        ret (inr (Some blockoffset, dirbuf))
      else if negb (dp_ino =? 0) &&
              (EXT2_DIR_REC_LEN namelen <=? dp_reclen - EXT2_DIR_REC_LEN dp_namelen) then
        let new_reclen := dp_reclen - EXT2_DIR_REC_LEN dp_namelen in
        let dp_reclen := EXT2_DIR_REC_LEN dp_namelen in
        let! dirbuf := lift_opt (put_le 2 dirbuf (blockoffset + 4) dp_reclen) in
        let entry_dp := blockoffset + dp_reclen in
        let! dirbuf := lift_opt (put_le 2 dirbuf (entry_dp + 4) new_reclen) in
        ret (inr (Some entry_dp, dirbuf))
      else ret (inl (blockoffset + dp_reclen))
    else ret (inr (None, dirbuf))) 0.

(* inode, name_len and name of an entry *)
Definition store_entry (dirbuf : list Z) (dp ino : Z) (name : list Z) : E2 (list Z) :=
  let! b := lift_opt (put_le 4 dirbuf dp ino) in
  let! b := lift_opt (put_le 2 b (dp + 6) (zlen name)) in
  lift_opt (asplice b (dp + 8) name).

(* the loop over the blocks: the place, and diroffset and dirbuf then *)
Definition find_entry_place (dip namelen : Z) (dirbuf : list Z) : E2 (option Z * Z * list Z) :=
  loop fuel (λ '(diroffset, dirbuf),
    let! size := i_field i_size dip in
    if diroffset <? size then
      let! bs := conf_of blocksize in
      if bs =? 0 then trap
      else
        let! dirbuf := ext2_bread dip (s32 (diroffset / u32 bs)) in
        let! ' (entry_dp, dirbuf) := find_room dirbuf bs namelen in
        match entry_dp with
        | Some dp => ret (inr (Some dp, diroffset, dirbuf))
        | None => ret (inl (u32 (diroffset + bs), dirbuf))
        end
    else ret (inr (None, diroffset, dirbuf))) (0, dirbuf).

(** [name] without its NUL, which strncpy leaves out too. *)
Definition ext2_mknod (dip : Z) (name : list Z) (ino : Z) : E2 unit :=
  let! bs := conf_of blocksize in
  let! dirbuf := zero_block in
  let! ' (entry_dp, diroffset, dirbuf) := find_entry_place dip (zlen name) dirbuf in
  if bs =? 0 then trap
  else
    match entry_dp with
    | Some dp =>
        let! dirbuf := store_entry dirbuf dp ino name in
        ext2_bwrite dip (s32 (diroffset / u32 bs)) dirbuf
    | None =>
        let! dirbuf := store_entry dirbuf 0 ino name in
        let! dirbuf := lift_opt (put_le 2 dirbuf 4 bs) in
        let! size := i_field i_size dip in
        ext2_bwrite dip (s32 (size / u32 bs)) dirbuf ;;;
        let! size := i_field i_size dip in
        set_field 4 dip 4 (size + bs)
    end.
End directories.
