(* ===== verification/E2writeboot.v ===== *)
(** * tools/e2writeboot.c: a boot file and a boot block on an ext2 file system

    [main], over the state of [E2lib]; exit(1) is a [Jump].  The arguments are
    those behind the program's name; [file] and [image] are the open file system
    and the contents of the boot file, [None] where open fails; [now] is what
    time(0) returns. *)

From Stdlib Require Import Ascii String.
From S2P Require Import Prelude CString Vsprintf Ext2Disk Ufile Bio E2lib.

Open Scope Z_scope.
Open Scope list_scope.

Definition CONSOLE_BLOCK_SIZE : Z := 512.
Definition S_ISREG (mode : Z) : bool := Z.land mode 0xf000 =? 0x8000.

Definition exit {A} : E2 A := longjmp "exit(1)".

(** The fields of the boot block: count, lbn, flags and chk_sum are its last
    four quadwords. *)
Definition boot_fields (b : list Z) (count lbn : Z) : option (list Z) :=
  let? b := put_le 8 b 480 count in
  let? b := put_le 8 b 488 lbn in
  put_le 8 b 496 0.

Fixpoint sum_quads (n : nat) (b : list Z) (i checksum : Z) : option Z :=
  match n with
  | O => Some checksum
  | S n => let? w := get_u64 b (8 * i) in sum_quads n b (i + 1) (u64 (checksum + w))
  end.

(** The file system's first block, [blocksize] bytes of an array of 1024. *)
Definition boot_block (bs bs_start bootstrap_size : Z) : option (list Z) :=
  if 1024 <? bs then None
  else
    let? b := boot_fields (replicate 1024 0) (Z.quot bootstrap_size CONSOLE_BLOCK_SIZE)
      (Z.quot (s32 (bs_start * bs)) CONSOLE_BLOCK_SIZE) in
    let? checksum := sum_quads (Z.to_nat (CONSOLE_BLOCK_SIZE / 8)) b 0 0 in
    let? b := put_le 8 b 504 checksum in
    aslice b 0 bs.

(* bootstrap_size += blocksize-1; bootstrap_size &= ~(blocksize-1) *)
Definition round_up (size bs : Z) : Z := Z.land (s32 (size + bs - 1)) (Z.lnot (bs - 1)).

(** The fields of a new inode. *)
Fixpoint set_fields (ip : Z) (l : list (nat * Z * Z)) : E2 unit :=
  match l with
  | [] => ret tt
  | (n, off, v) :: l => set_field n ip off v ;;; set_fields ip l
  end.

Definition new_inode_fields (now : Z) : list (nat * Z * Z) :=
  [ (2%nat, 0, 0x8168);                     (* i_mode = 0550 | S_IFREG *)
    (2%nat, 2, 0); (2%nat, 24, 0);          (* i_uid, i_gid *)
    (4%nat, 4, 0);                          (* i_size *)
    (4%nat, 16, now); (4%nat, 12, now); (4%nat, 8, now);
    (4%nat, 20, 0);                         (* i_dtime *)
    (2%nat, 26, 1);                         (* i_links_count *)
    (4%nat, 28, 0); (4%nat, 32, 0);         (* i_blocks, i_flags *)
    (4%nat, 36, 0) ] ++                     (* l_i_version *)
  map (λ k, (4%nat, 40 + 4 * Z.of_nat k, 0)) (seq 0 15) ++
  [ (4%nat, 100, 0); (4%nat, 104, 0);       (* i_generation, i_file_acl *)
    (2%nat, 116, 0); (2%nat, 120, 0); (2%nat, 122, 0) ].

Section main.
Context (fuel : nat).

(** The inode of the boot file: an existing regular file is emptied, a missing
    one made. *)
Definition create_boot_file (namebuf : list Z) (now : Z) : E2 Z :=
  let '(dirname, filename) :=
    match last_pos 47 namebuf with
    | Some i => (take (Z.to_nat i) namebuf, drop (Z.to_nat (i + 1)) namebuf)
    | None => (str "/", namebuf)
    end in
  let! dip := ext2_namei fuel dirname in
  match dip with
  | None =>
      say ("Directory %s does not exist" ++ nl) [AStr (Some dirname)] ;;; ext2_close ;;; exit
  | Some dip =>
      say ("Creating new file %s in directory %s" ++ nl) [AStr (Some filename); AStr (Some dirname)] ;;;
      let! inumber := ext2_ialloc in
      let! ip := ext2_iget inumber in
      match ip with
      | None => say ("PANIC! ip == NULL" ++ nl) [] ;;; exit
      | Some ip =>
          ext2_mknod fuel dip filename inumber ;;;
          ext2_iput dip ;;;
          set_fields ip (new_inode_fields now) ;;;
          ret ip
      end
  end.

Definition open_boot_file (namebuf : list Z) (now : Z) : E2 Z :=
  let! ip := ext2_namei fuel namebuf in
  match ip with
  | Some ip =>
      let! mode := i_field i_mode ip in
      if negb (S_ISREG mode) then
        say ("%s: Not a regular file.  Must remove it first." ++ nl) [AStr (Some namebuf)] ;;;
        ext2_iput ip ;;; ext2_close ;;; exit
      else
        say ("Using existing file %s" ++ nl) [AStr (Some namebuf)] ;;;
        ext2_truncate ip ;;;
        ret ip
  | None => create_boot_file namebuf now
  end.

(* while(filesize > 0) *)
Fixpoint write_image (n : nat) (ip blkno filesize : Z) (bsbuf : list Z) : E2 unit :=
  if filesize <=? 0 then ret tt
  else match n with
       | O => diverge
       | S n =>
           let! bs := conf_of blocksize in
           let! b := lift_opt (aslice bsbuf (s32 (blkno * bs)) bs) in
           ext2_bwrite ip blkno b ;;;
           write_image n ip (blkno + 1) (filesize - bs) bsbuf
       end.

(* from the contiguous allocation on *)
Definition fill_boot_file (ip bootstrap_size now : Z) (bsbuf argv2 : list Z) : E2 unit :=
  let! bs := conf_of blocksize in
  if bs =? 0 then trap
  else
    let! bs_start := ext2_fill_contiguous ip (Z.quot bootstrap_size bs) in
    if bs_start <=? 0 then
      say ("Cannot allocate blocks for %s... goodbye!" ++ nl) [AStr (Some argv2)] ;;; ext2_close ;;; exit
    else
      write_image (S (Z.to_nat bootstrap_size)) ip 0 bootstrap_size bsbuf ;;;
      set_field 4 ip 4 bootstrap_size ;;;
      set_field 4 ip 16 now ;;;
      let! bb := lift_opt (boot_block bs bs_start bootstrap_size) in
      ext2_write_bootblock bb ;;;
      ext2_iput ip ;;;
      ext2_close.

Definition main (args : list (list Z)) (file : option ufile) (env : bool) (image : option (list Z))
    (now : Z) : E2 Z :=
  match args with
  | [argv1; argv2] =>
      lift_opt (asplice (replicate 512 0) 0 (argv1 ++ [0])) ;;;
      let namebuf := str "/linuxboot" in
      let! r := ext2_init argv1 O_RDWR file env in
      if r <? 0 then exit
      else
        match image with
        | None => say "perror" [] ;;; ext2_close ;;; exit
        | Some image =>
            let! bs := ext2_blocksize in
            let size := s32 (zlen image) in
            say "bootstrap_size: %d -> " [AInt size] ;;;
            let bootstrap_size := round_up size bs in
            say ("%d" ++ nl) [AInt bootstrap_size] ;;;
            let! bsbuf := lift_opt (asplice (replicate (Z.to_nat bootstrap_size) 0) 0
              (take (Z.to_nat bootstrap_size) image)) in
            let! ip := open_boot_file namebuf now in
            fill_boot_file ip bootstrap_size now bsbuf argv2 ;;;
            say ("%d bytes written to %s" ++ nl) [AInt bootstrap_size; AStr (Some namebuf)] ;;;
            ret 0
        end
  | _ => say ("Usage: %s ext2-fs input-file" ++ nl) [] ;;; exit
  end.
End main.
