(* ===== verification/E2Alloc.v ===== *)
(** * The bitmaps of tools/e2lib.c, and what is allocated

    A bitmap is its block read as one little-endian integer, so that bit [k] of
    the map is bit [k] of the integer.  The free blocks of the file system are a
    set; the allocators take blocks out of it and [ext2_bfree] puts one back. *)

From Stdlib Require Import Ascii String.
From S2P Require Import Prelude CString Vsprintf Ext2Disk Ufile Bio BioFull E2lib.

Open Scope Z_scope.
Open Scope list_scope.

(** ** Bits *)

Definition marked (b : list Z) (k : Z) : bool := Z.testbit (le_val b) k.

Lemma word_bits b i w j : Forall is_byte b → get_u32 b (4 * i) = Some w → 0 <= i → 0 <= j < 32 →
  Z.testbit w j = marked b (32 * i + j).
Proof.
  intros HF E Hi Hj. rewrite (get_le_testbit 4 b (4 * i) w j HF E) by lia. rewrite decide_True by lia.
  unfold marked. f_equal. lia.
Qed.

Lemma word_range b i w : Forall is_byte b → get_u32 b (4 * i) = Some w → 0 <= w < 2 ^ 32.
Proof. intros HF E. by apply (get_le_range 4 b (4 * i)). Qed.

(** A word has all its bits exactly when it is 0xffffffff. *)
Lemma word_full w : 0 <= w < 2 ^ 32 → (w = 0xffffffff ↔ ∀ j, 0 <= j < 32 → Z.testbit w j = true).
Proof.
  intros Hw. change 0xffffffff with (Z.ones 32). split.
  - intros -> j Hj. apply Z.ones_spec_low. lia.
  - intros H. apply Z.bits_inj'. intros j Hj. destruct (decide (j < 32)).
    + rewrite H, Z.ones_spec_low by lia. done.
    + rewrite Z.ones_spec_high by lia. rewrite <- (Z.mod_small w (2 ^ 32)) by lia.
      by rewrite Z.mod_pow2_bits_high by lia.
Qed.

Lemma land_pow2 w j : 0 <= j → Z.land w (2 ^ j) = if Z.testbit w j then 2 ^ j else 0.
Proof.
  intros Hj. apply Z.bits_inj'. intros i Hi. rewrite Z.land_spec.
  destruct (Z.testbit w j) eqn:E; rewrite ?Z.bits_0; destruct (decide (i = j)) as [->|Hne];
    rewrite ?Z.pow2_bits_true, ?E by lia; try done.
  - rewrite Z.pow2_bits_false by lia. apply andb_false_r.
  - rewrite Z.pow2_bits_false by lia. apply andb_false_r.
Qed.

(** *** find_first_zero_bit *)

Lemma scan_bits_ok w (n : nat) bit : 0 <= bit → bit + Z.of_nat n = 32 →
  match scan_bits n w (2 ^ bit) bit with
  | Some r => bit <= r < 32 ∧ Z.testbit w r = false ∧ ∀ j, bit <= j < r → Z.testbit w j = true
  | None => ∀ j, bit <= j < 32 → Z.testbit w j = true
  end.
Proof.
  revert bit. induction n as [|n IH]; intros bit Hb Hn; cbn [scan_bits]; [intros; lia|].
  rewrite land_pow2 by done. destruct (Z.testbit w bit) eqn:E.
  - rewrite (proj2 (Z.eqb_neq _ 0)) by lia. destruct (decide (n = 0%nat)) as [->|Hn0].
    { cbn. intros j Hj. by replace j with bit by lia. }
    rewrite Z.shiftl_mul_pow2, <- Z.pow_add_r by lia.
    rewrite wrap_small by (split; [lia|apply Z.pow_lt_mono_r; lia]).
    specialize (IH (bit + 1)).
    destruct (scan_bits n w (2 ^ (bit + 1)) (bit + 1)) as [r|].
    + destruct IH as (Hr&Hf&Ht); [lia..|]. split; [lia|]. split; [done|]. intros j Hj.
      destruct (decide (j = bit)) as [->|]; [done|]. apply Ht. lia.
    + intros j Hj. destruct (decide (j = bit)) as [->|]; [done|]. apply IH; lia.
  - cbn [Z.eqb]. split; [lia|]. split; [done|]. intros; lia.
Qed.

Lemma scan_longs_ok b size (n : nat) i : Forall is_byte b → 0 <= i → 4 * (i + Z.of_nat n) <= zlen b →
  (i + Z.of_nat n) * 32 < 2 ^ 32 →
  ∃ r, scan_longs n b i size = Some r ∧
    ((r = size ∧ ∀ j, 32 * i <= j < 32 * (i + Z.of_nat n) → marked b j = true) ∨
     (32 * i <= r < 32 * (i + Z.of_nat n) ∧ marked b r = false ∧
      ∀ j, 32 * i <= j < r → marked b j = true)).
Proof.
  intros HF. revert i. induction n as [|n IH]; intros i Hi Hz H32; cbn [scan_longs].
  { exists size. split; [done|]. left. split; [done|]. intros; lia. }
  destruct (aslice_is_Some b (4 * i) 4) as [a Ea]; [lia..|].
  assert (get_u32 b (4 * i) = Some (le_val a)) as Ew by (unfold get_le; by rewrite Ea).
  rewrite Ew. set (w := le_val a) in *. pose proof (word_range b i w HF Ew) as Hw.
  assert (∀ j, 32 * i <= j < 32 * i + 32 → Z.testbit w (j - 32 * i) = marked b j) as Hbits.
  { intros j Hj. rewrite (word_bits b i w) by (done || lia). f_equal. lia. }
  assert ((∀ j, 32 * i <= j < 32 * i + 32 → marked b j = true) →
    ∃ r, scan_longs n b (i + 1) size = Some r ∧
      ((r = size ∧ ∀ j, 32 * i <= j < 32 * (i + Z.of_nat (S n)) → marked b j = true) ∨
       (32 * i <= r < 32 * (i + Z.of_nat (S n)) ∧ marked b r = false ∧
        ∀ j, 32 * i <= j < r → marked b j = true))) as Hnext.
  { intros Hall. destruct (IH (i + 1)) as (r&E&HC); [lia..|]. exists r. split; [done|].
    destruct HC as [[-> Hj]|(Hr&Hf&Hj)]; [left|right]; (split; [lia || done|]).
    - intros j Hjj. destruct (decide (j < 32 * i + 32)); [apply Hall|apply Hj]; lia.
    - split; [done|]. intros j Hjj. destruct (decide (j < 32 * i + 32)); [apply Hall|apply Hj]; lia. }
  destruct (Z.eqb_spec w 0xffffffff) as [E|E].
  - apply Hnext. intros j Hj. rewrite <- Hbits by lia. apply (proj1 (word_full w Hw) E). lia.
  - pose proof (scan_bits_ok w 32 0 ltac:(lia) eq_refl) as Hs. change (2 ^ 0) with 1 in Hs.
    destruct (scan_bits 32 w 1 0) as [r|].
    + destruct Hs as (Hr&Hf&Ht). rewrite wrap_small by (unfold BITS_PER_LONG; lia).
      exists (i * BITS_PER_LONG + r). split; [done|]. right. unfold BITS_PER_LONG. split; [lia|]. split.
      * rewrite <- Hbits by lia. by replace (i * 32 + r - 32 * i) with r by lia.
      * intros j Hj. rewrite <- Hbits by lia. apply Ht. lia.
    + exfalso. apply E. apply word_full; [done|]. apply Hs.
Qed.

Definition longs (size : Z) : Z := (size + 31) / 32.

(** The first clear bit of the longwords that hold [size] bits, or [size]. *)
Lemma find_first_zero_bit_ok b size : Forall is_byte b → 0 < size < 2 ^ 31 → 4 * longs size <= zlen b →
  ∃ r, find_first_zero_bit b size = Some r ∧
    ((r = size ∧ ∀ j, 0 <= j < 32 * longs size → marked b j = true) ∨
     (0 <= r < 32 * longs size ∧ marked b r = false ∧ ∀ j, 0 <= j < r → marked b j = true)).
Proof.
  intros HF Hs Hz. unfold find_first_zero_bit. rewrite (proj2 (Z.eqb_neq size 0)) by lia.
  rewrite Z.shiftr_div_pow2 by lia. unfold BITS_PER_LONG. change (2 ^ 5) with 32.
  replace (size + 32 - 1) with (size + 31) by lia. fold (longs size).
  assert (0 <= longs size < 2 ^ 27) as Hl by (unfold longs; split; [apply Z.div_pos|apply Z.div_lt_upper_bound]; lia).
  rewrite wrap_small by lia.
  destruct (scan_longs_ok b size (Z.to_nat (longs size)) 0) as (r&E&HC); [done|lia..|].
  rewrite Z2Nat.id in HC by lia. exists r. split; [done|]. by rewrite !Z.add_0_l, Z.mul_0_r in HC.
Qed.

(** *** set_bit and clear_bit *)

(** The longword that holds bit [k] is in the map. *)
Definition in_map (b : list Z) (k : Z) : Prop := 0 <= k < 2 ^ 31 ∧ 4 * (k / 32) + 4 <= zlen b.

Lemma word_at b k : in_map b k → ∃ w, get_u32 b (4 * (u64 k / BITS_PER_LONG)) = Some w.
Proof.
  intros [Hk Hz]. rewrite wrap_small by lia. unfold BITS_PER_LONG. pose proof (Z.div_pos k 32).
  destruct (aslice_is_Some b (4 * (k / 32)) 4) as [a Ea]; [lia..|].
  exists (le_val a). unfold get_le. by rewrite Ea.
Qed.

(** A longword changed in bit [k mod 32] only. *)
Lemma store_word_ok b k w v (f : bool) : Forall is_byte b → in_map b k →
  get_u32 b (4 * (k / 32)) = Some w →
  (∀ j, 0 <= j < 32 → Z.testbit v j = if decide (j = k mod 32) then f else Z.testbit w j) →
  ∃ b', put_le 4 b (4 * (k / 32)) v = Some b' ∧ Forall is_byte b' ∧ zlen b' = zlen b ∧
    ∀ j, 0 <= j → marked b' j = if decide (j = k) then f else marked b j.
Proof.
  intros HF [Hk Hz] Ew Hv. pose proof (Z.div_pos k 32). pose proof (Z.div_mod k 32).
  pose proof (Z.mod_pos_bound k 32).
  destruct (put_le_is_Some 4 b (4 * (k / 32)) v) as [b' E]; [lia..|].
  exists b'. split; [done|]. split; [by eapply put_le_bytes|]. split; [by eapply put_le_len|].
  intros j Hj. unfold marked. rewrite (put_le_testbit _ _ _ _ _ j HF E) by done.
  destruct (decide (8 * (4 * (k / 32)) <= j < _)) as [Hin|Hout].
  - replace (j - 8 * (4 * (k / 32))) with (j - 32 * (k / 32)) by lia. rewrite Hv by lia.
    destruct (decide (j - 32 * (k / 32) = k mod 32)) as [Ej|Ej].
    + by rewrite decide_True by lia.
    + rewrite decide_False by lia. rewrite (word_bits b (k / 32) w) by (done || lia).
      unfold marked. f_equal. lia.
  - by rewrite decide_False by lia.
Qed.

Lemma set_bit_ok b k : Forall is_byte b → in_map b k →
  ∃ b', set_bit b k = Some b' ∧ Forall is_byte b' ∧ zlen b' = zlen b ∧
    ∀ j, 0 <= j → marked b' j = if decide (j = k) then true else marked b j.
Proof.
  intros HF Hk. destruct (word_at b k Hk) as [w Ew]. unfold set_bit. rewrite Ew. destruct Hk as [Hk Hz].
  rewrite wrap_small in * by lia. unfold BITS_PER_LONG in *. pose proof (Z.mod_pos_bound k 32).
  rewrite Z.shiftl_1_l, (wrap_small 32) by (split; [lia|apply Z.pow_lt_mono_r; lia]).
  eapply store_word_ok; [done|done|done|]. intros j Hj. rewrite Z.lor_spec. case_decide as E.
  - subst j. rewrite Z.pow2_bits_true by lia. apply orb_true_r.
  - rewrite Z.pow2_bits_false by lia. apply orb_false_r.
Qed.

Lemma clear_bit_ok b k : Forall is_byte b → in_map b k →
  ∃ b', clear_bit b k = Some b' ∧ Forall is_byte b' ∧ zlen b' = zlen b ∧
    ∀ j, 0 <= j → marked b' j = if decide (j = k) then false else marked b j.
Proof.
  intros HF Hk. destruct (word_at b k Hk) as [w Ew]. unfold clear_bit. rewrite Ew. destruct Hk as [Hk Hz].
  rewrite (wrap_small 64) in * by lia. unfold BITS_PER_LONG in *. pose proof (Z.mod_pos_bound k 32).
  rewrite Z.shiftl_1_l. eapply store_word_ok; [done|done|done|]. intros j Hj.
  rewrite Z.land_spec. unfold wrap. rewrite Z.mod_pow2_bits_low, Z.lnot_spec by lia. case_decide as E.
  - subst j. rewrite Z.pow2_bits_true by lia. apply andb_false_r.
  - rewrite Z.pow2_bits_false by lia. apply andb_true_r.
Qed.

(** ** The file system between calls *)

(** The bitmap of group [i], as a program sees it. *)
Definition group_map (s : e2fs) (i : Z) : option (list Z) :=
  let? no := bg_block_bitmap (gds s) i in view (disk s) no.

(** Block [b] is not allocated: its bit in the map of its group is clear. *)
Definition blk_free (bpg : Z) (s : e2fs) (b : Z) : bool :=
  match (if decide (0 < b) then group_map s ((b - 1) / bpg) else None) with
  | Some m => negb (marked m ((b - 1) mod bpg))
  | None => false
  end.

(** A block of the device behind its first. *)
Definition in_dev (s : e2fs) (b : Z) : Prop :=
  0 < b ∧ (b + 1) * 1024 <= zlen (contents (bio_file (disk s))).

Definition is_bitmap (s : e2fs) (b : Z) : Prop := ∃ i, bg_block_bitmap (gds s) i = Some b.

(** The limits of a file system with blocks of 1024 bytes, the only ones
    [ext2_init] accepts. *)
Record conf_ok (c : config) : Prop := {
  cf_blocksize : blocksize c = 1024;
  cf_directlim : directlim c = 11;
  cf_ind1lim : ind1lim c = 267;
  cf_ind2lim : ind2lim c = 65547;
  cf_ptrs : ptrs_per_blk c = 256
}.

(** [bpg] blocks in a group, whole longwords of its map; the maps of the groups
    are different blocks of the device, and a free block is a block of the
    device that is not a map. *)
Record fs_ok (bpg : Z) (s : e2fs) : Prop := {
  fo_bio : bio_ok (disk s);
  fo_size : bio_blocksize (disk s) = 1024;
  fo_conf : conf_ok (conf s);
  fo_sb : Forall is_byte (sb s) ∧ zlen (sb s) = 1024;
  fo_gds : Forall is_byte (gds s) ∧ zlen (gds s) = 32 * ngroups (conf s);
  fo_bpg : s_blocks_per_group (sb s) = Some bpg ∧ 0 < bpg <= 8192 ∧ bpg mod 32 = 0;
  fo_count : 0 <= ngroups (conf s) ∧ ngroups (conf s) * bpg < 2 ^ 31 - 1;
  fo_bytes : ∀ n b, view (disk s) n = Some b → Forall is_byte b;
  fo_maps : ∀ n, is_bitmap s n → in_dev s n;
  fo_distinct : ∀ i j n, bg_block_bitmap (gds s) i = Some n → bg_block_bitmap (gds s) j = Some n → i = j;
  fo_free : ∀ b, blk_free bpg s b = true → in_dev s b ∧ ¬ is_bitmap s b
}.

(** What a call leaves alone: the limits, the size of the device, where maps and
    tables are; and [k] accesses to the cache at most. *)
Record kept (k : Z) (s s' : e2fs) : Prop := {
  kp_conf : conf s' = conf s;
  kp_size : zlen (contents (bio_file (disk s'))) = zlen (contents (bio_file (disk s)));
  kp_bpg : s_blocks_per_group (sb s') = s_blocks_per_group (sb s);
  kp_ipg : s_inodes_per_group (sb s') = s_inodes_per_group (sb s);
  kp_maps : ∀ i, bg_block_bitmap (gds s') i = bg_block_bitmap (gds s) i;
  kp_imaps : ∀ i, bg_inode_bitmap (gds s') i = bg_inode_bitmap (gds s) i;
  kp_itables : ∀ i, bg_inode_table (gds s') i = bg_inode_table (gds s) i;
  kp_lru : lru_step k (disk s) (disk s')
}.

Lemma kept_refl s : kept 0 s s.
Proof. split; try done. apply lru_step_refl. Qed.

Lemma kept_trans k1 k2 s1 s2 s3 : 0 <= k2 → kept k1 s1 s2 → kept k2 s2 s3 → kept (k1 + k2) s1 s3.
Proof.
  intros Hk [] []. split; try congruence; try (intros i; congruence). by eapply lru_step_trans.
Qed.

Lemma kept_le k1 k2 s s' : k1 <= k2 → kept k1 s s' → kept k2 s s'.
Proof. intros Hk []. split; try done. by eapply lru_step_le. Qed.

Lemma kept_in_dev k s s' b : kept k s s' → in_dev s' b ↔ in_dev s b.
Proof. intros []. unfold in_dev. by rewrite kp_size0. Qed.

Lemma kept_bitmap k s s' b : kept k s s' → is_bitmap s' b ↔ is_bitmap s b.
Proof. intros []. unfold is_bitmap. by setoid_rewrite kp_maps0. Qed.

Lemma in_dev_valid bpg s b : fs_ok bpg s → in_dev s b → valid_block (disk s) b ∧ s32 b = b.
Proof.
  intros Hok [Hb Hd]. pose proof (ok_file _ (fo_bio _ _ Hok)). split.
  - split; [lia|]. rewrite (fo_size _ _ Hok). split; [done|intros ->; lia].
  - apply swrap_small; lia.
Qed.

Lemma view_len bpg s b d : fs_ok bpg s → view (disk s) b = Some d → zlen d = 1024.
Proof.
  intros Hok. rewrite <- (fo_size _ _ Hok). unfold view. pose proof (fo_bio _ _ Hok) as Hb.
  destruct (cached (buflist (disk s)) b) as [x|] eqn:E.
  - apply (cached_spec _ _ _ Hb) in E as (i&Hi&_&_). intros Ed.
    by destruct (ok_used _ Hb i x d Hi Ed) as (_&_&?&_).
  - intros Ed. by eapply aslice_len.
Qed.

(** *** Reading and writing blocks *)

(** Only the cache and the messages have changed, and not what is seen. *)
Definition looked (k : Z) (s s' : e2fs) : Prop :=
  kept k s s' ∧ sb s' = sb s ∧ gds s' = gds s ∧ inode_table s' = inode_table s ∧
  same_view (disk s) (disk s').

Lemma looked_refl bpg s : fs_ok bpg s → looked 0 s s.
Proof. intros Hok. split; [apply kept_refl|]. repeat (split; [done|]). apply same_view_refl, Hok. Qed.

Lemma looked_trans k1 k2 s1 s2 s3 : 0 <= k2 → looked k1 s1 s2 → looked k2 s2 s3 → looked (k1 + k2) s1 s3.
Proof.
  intros Hk (?&?&?&?&?) (?&?&?&?&?). split; [by eapply kept_trans|].
  repeat (split; [congruence|]). by eapply same_view_trans.
Qed.

Lemma looked_le k1 k2 s s' : k1 <= k2 → looked k1 s s' → looked k2 s s'.
Proof. intros Hk [? ?]. split; [by eapply kept_le|done]. Qed.

Lemma looked_view k s s' n : looked k s s' → view (disk s') n = view (disk s) n.
Proof. intros (_&_&_&_&_&_&_&_&E). apply E. Qed.

Lemma looked_free bpg k s s' b : looked k s s' → blk_free bpg s' b = blk_free bpg s b.
Proof.
  intros HL. unfold blk_free, group_map. destruct HL as (_&_&->&_&_&_&_&_&E).
  destruct (decide (0 < b)); [|done]. by destruct (bg_block_bitmap _ _); rewrite ?E.
Qed.

Lemma looked_ok bpg k s s' : looked k s s' → fs_ok bpg s → fs_ok bpg s'.
Proof.
  intros HL Hok. pose proof HL as (HK&Es&Eg&Et&Hok'&Eb&_&_&Ev).
  destruct Hok as [O1 O2 O3 O4 O5 O6 O7 O8 O9 O10 O11].
  split; rewrite ?(kp_conf _ _ _ HK), ?Es, ?Eg; try done.
  - congruence.
  - intros n b. rewrite Ev. apply O8.
  - intros n. rewrite (kept_bitmap _ _ _ _ HK), (kept_in_dev _ _ _ _ HK). apply O9.
  - intros b. rewrite (looked_free _ _ _ _ _ HL), (kept_bitmap _ _ _ _ HK), (kept_in_dev _ _ _ _ HK).
    apply O11.
Qed.

Lemma say_looked bpg fmt args s : fs_ok bpg s →
  ∃ s', say fmt args s = Ret tt s' ∧ looked 0 s s'.
Proof.
  intros Hok. eexists. split; [done|]. apply (looked_refl bpg s) in Hok as ([]&?). by split; [split|]. Qed.

Lemma say_verbose_looked bpg fmt args s : fs_ok bpg s →
  ∃ s', say_verbose fmt args s = Ret tt s' ∧ looked 0 s s'.
Proof.
  intros Hok. unfold say_verbose, conf_of. cbn [bind gets]. destruct (verbose (conf s)).
  - by eapply say_looked.
  - exists s. split; [done|]. by eapply looked_refl.
Qed.

Lemma bread_looked bpg n s : fs_ok bpg s → in_dev s n →
  ∃ b s', bread n s = Ret b s' ∧ view (disk s) n = Some b ∧ zlen b = 1024 ∧ looked 1 s s' ∧ has (disk s') n.
Proof.
  intros Hok Hn. destruct (in_dev_valid bpg s n Hok Hn) as [Hv Es].
  destruct (bread_keeps n (disk s) (fo_bio _ _ Hok) Hv) as (b&d&E&Hb&Hs&Hl&Hh).
  exists b, (set_disk d s). unfold bread, on_disk. rewrite Es, E. split; [done|]. split; [done|].
  split; [by eapply view_len|]. split; [|done]. split; [|done]. pose proof Hs as (_&_&Hz&_). by split.
Qed.

Lemma read_map_looked bpg n s : fs_ok bpg s → in_dev s n →
  ∃ b s', read_map n s = Ret b s' ∧ view (disk s) n = Some b ∧ zlen b = 1024 ∧ looked 1 s s'.
Proof.
  intros Hok Hn. destruct (bread_looked bpg n s Hok Hn) as (b&s'&E&Hv&Hz&HL&_).
  exists b, s'. unfold read_map. rewrite (bind_Ret _ _ _ _ _ E), Hz. done.
Qed.

(** A block is written: every other block, and all the rest, is as it was. *)
Definition wrote (k n : Z) (b : list Z) (s s' : e2fs) : Prop :=
  kept k s s' ∧ sb s' = sb s ∧ gds s' = gds s ∧ inode_table s' = inode_table s ∧
  bio_ok (disk s') ∧ bio_blocksize (disk s') = bio_blocksize (disk s) ∧
  ∀ m, view (disk s') m = if decide (m = n) then Some b else view (disk s) m.

Lemma bwrite_wrote bpg n b s : fs_ok bpg s → in_dev s n → zlen b = 1024 →
  ∃ s', bwrite n b s = Ret tt s' ∧ wrote 1 n b s s' ∧ has (disk s') n.
Proof.
  intros Hok Hn Hz. destruct (in_dev_valid bpg s n Hok Hn) as [Hv Es].
  destruct (bwrite_keeps n b (disk s) (fo_bio _ _ Hok) Hv) as (d&E&Hb&Ebs&Hs&Hvw&Hl&Hh);
    [by rewrite (fo_size _ _ Hok)|].
  exists (set_disk d s). unfold bwrite, on_disk. rewrite Es, E. split; [done|]. split; [|done].
  by split; [split|].
Qed.

(** A block that is no map. *)
Lemma wrote_free bpg k n b s s' x : wrote k n b s s' → ¬ is_bitmap s n → blk_free bpg s' x = blk_free bpg s x.
Proof.
  intros (_&_&Eg&_&_&_&Ev) Hn. unfold blk_free, group_map. rewrite Eg.
  destruct (decide (0 < x)); [|done].
  destruct (bg_block_bitmap (gds s) ((x - 1) / bpg)) as [no|] eqn:E; [|done]. rewrite Ev.
  rewrite decide_False; [done|]. intros ->. apply Hn. by eexists.
Qed.

Lemma wrote_ok bpg k n b s s' : wrote k n b s s' → Forall is_byte b →
  (∀ x, blk_free bpg s' x = true → in_dev s x ∧ ¬ is_bitmap s x) → fs_ok bpg s → fs_ok bpg s'.
Proof.
  intros (HK&Es&Eg&Et&Hok'&Eb&Ev) Hb Hf [O1 O2 O3 O4 O5 O6 O7 O8 O9 O10 O11].
  split; rewrite ?(kp_conf _ _ _ HK), ?Es, ?Eg; try done.
  - congruence.
  - intros m c. rewrite Ev. case_decide; [by intros [= <-]|apply O8].
  - intros m. rewrite (kept_bitmap _ _ _ _ HK), (kept_in_dev _ _ _ _ HK). apply O9.
  - intros x Hx. rewrite (kept_bitmap _ _ _ _ HK), (kept_in_dev _ _ _ _ HK). by apply Hf.
Qed.

Lemma wrote_data_ok bpg k n b s s' : wrote k n b s s' → Forall is_byte b → ¬ is_bitmap s n →
  fs_ok bpg s → fs_ok bpg s'.
Proof.
  intros HW Hb Hn Hok. eapply wrote_ok; [done|done| |done]. intros x.
  rewrite (wrote_free _ _ _ _ _ _ _ HW Hn). apply (fo_free _ _ Hok).
Qed.

(** *** The counts *)

(** The free blocks of group [i] and of the file system change by [k]. *)
Definition counted (i k : Z) (s s' : e2fs) : Prop :=
  (∀ j, bg_free_blocks_count (gds s') j =
    if decide (j = i) then (λ c, u16 (c + k)) <$> bg_free_blocks_count (gds s) j
    else bg_free_blocks_count (gds s) j) ∧
  s_free_blocks_count (sb s') = (λ c, u32 (c + k)) <$> s_free_blocks_count (sb s).

Lemma gd_fields_in bpg s i n : fs_ok bpg s → bg_block_bitmap (gds s) i = Some n → 0 <= i < ngroups (conf s).
Proof.
  intros Hok (a&(Ha&_&Hb&_)%aslice_Some&_)%fmap_Some. destruct (fo_gds _ _ Hok) as [_ Hz].
  unfold sizeof_gd in *. lia.
Qed.

Lemma gd_field_is_Some bpg s i o n : fs_ok bpg s → 0 <= i < ngroups (conf s) → 0 <= o → 0 <= n → o + n <= 32 →
  is_Some (get_le n (gds s) (sizeof_gd * i + o)).
Proof.
  intros Hok Hi Ho Hn Hle. destruct (fo_gds _ _ Hok) as [_ Hz]. unfold sizeof_gd, get_le.
  destruct (aslice_is_Some (gds s) (32 * i + o) n) as [a Ea]; [lia..|]. rewrite Ea. by eexists.
Qed.

(** The same blocks and maps, other counts. *)
Definition recounted (s s' : e2fs) : Prop :=
  disk s' = disk s ∧ inode_table s' = inode_table s ∧ kept 0 s s' ∧
  Forall is_byte (sb s') ∧ zlen (sb s') = zlen (sb s) ∧
  Forall is_byte (gds s') ∧ zlen (gds s') = zlen (gds s).

Lemma recounted_ok bpg s s' : recounted s s' → fs_ok bpg s → fs_ok bpg s' ∧
  ∀ b, blk_free bpg s' b = blk_free bpg s b.
Proof.
  intros (Ed&Et&HK&Hsb&Hsz&Hgb&Hgz) Hok.
  assert (∀ b, blk_free bpg s' b = blk_free bpg s b) as Ef.
  { intros b. unfold blk_free, group_map. by rewrite Ed, (kp_maps _ _ _ HK). }
  split; [|done]. destruct Hok as [O1 O2 O3 [O4 O4'] [O5 O5'] O6 O7 O8 O9 O10 O11].
  split; rewrite ?Ed, ?(kp_conf _ _ _ HK), ?(kp_bpg _ _ _ HK); try done.
  - split; [done|congruence].
  - split; [done|congruence].
  - intros n. rewrite (kept_bitmap _ _ _ _ HK), (kept_in_dev _ _ _ _ HK). apply O9.
  - intros i j n. rewrite !(kp_maps _ _ _ HK). apply O10.
  - intros b. rewrite Ef, (kept_bitmap _ _ _ _ HK), (kept_in_dev _ _ _ _ HK). apply O11.
Qed.

Lemma recounted_trans s1 s2 s3 : recounted s1 s2 → recounted s2 s3 → recounted s1 s3.
Proof.
  intros (?&?&?&?&?&?&?) (?&?&?&?&?&?&?). split; [congruence|]. split; [congruence|].
  split; [by apply (kept_trans 0 0 s1 s2 s3)|]. split; [done|].
  split; [congruence|]. split; [done|congruence].
Qed.

(** A count of group [i] that is no block number: its other fields stay. *)
Lemma add_gd_ok bpg s i off k : fs_ok bpg s → 0 <= i < ngroups (conf s) → 12 <= off → off + 2 <= 32 →
  ∃ s' c, add_gd i off k s = Ret tt s' ∧ recounted s s' ∧ sb s' = sb s ∧
    get_u16 (gds s) (sizeof_gd * i + off) = Some c ∧
    get_u16 (gds s') (sizeof_gd * i + off) = Some (u16 (c + k)) ∧
    ∀ n o, o + n <= sizeof_gd * i + off ∨ sizeof_gd * i + off + 2 <= o → get_le n (gds s') o = get_le n (gds s) o.
Proof.
  intros Hok Hi Ho Hle. destruct (gd_field_is_Some bpg s i off 2 Hok) as [c Ec]; [lia..|].
  destruct (fo_gds _ _ Hok) as [Hb Hz]. unfold sizeof_gd in *.
  destruct (put_le_is_Some 2 (gds s) (32 * i + off) (c + k)) as [g Eg]; [lia..|].
  exists (set_gds g s), c. unfold add_gd. cbn [bind gets]. unfold sizeof_gd. rewrite Ec. cbn [lift_opt].
  rewrite bind_ret, Eg. cbn [lift_opt]. rewrite bind_ret. split; [done|].
  assert (∀ n o, o + n <= 32 * i + off ∨ 32 * i + off + 2 <= o → get_le n g o = get_le n (gds s) o) as Hother
    by (intros n o H; by apply (get_put_le_other _ _ _ _ _ n o Eg)).
  split; [|split; [done|split; [done|split]]].
  - split; [done|]. split; [done|]. split.
    { split; try done; try (intros j; apply Hother; unfold sizeof_gd; lia). apply lru_step_refl. }
    destruct (fo_sb _ _ Hok). split; [done|]. split; [done|]. split; [exact (put_le_bytes _ _ _ _ _ Hb Eg)|].
    exact (put_le_len _ _ _ _ _ Eg).
  - by apply (get_put_le 2) in Eg.
  - exact Hother.
Qed.

Lemma add_sb_ok bpg s off k : fs_ok bpg s → off = 12 ∨ off = 16 →
  ∃ s' c, add_sb off k s = Ret tt s' ∧ recounted s s' ∧ gds s' = gds s ∧
    get_u32 (sb s) off = Some c ∧ get_u32 (sb s') off = Some (u32 (c + k)) ∧
    ∀ n o, o + n <= off ∨ off + 4 <= o → get_le n (sb s') o = get_le n (sb s) o.
Proof.
  intros Hok Ho. destruct (fo_sb _ _ Hok) as [Hb Hz].
  destruct (aslice_is_Some (sb s) off 4) as [a Ea]; [lia..|].
  destruct (put_le_is_Some 4 (sb s) off (le_val a + k)) as [b Eb]; [lia..|].
  assert (get_u32 (sb s) off = Some (le_val a)) as Ec by (unfold get_le; by rewrite Ea).
  exists (set_sb b s), (le_val a). unfold add_sb. cbn [bind gets]. rewrite Ec. cbn [lift_opt].
  rewrite bind_ret, Eb. cbn [lift_opt]. rewrite bind_ret. split; [done|].
  assert (∀ n o, o + n <= off ∨ off + 4 <= o → get_le n b o = get_le n (sb s) o) as Hother
    by (intros n o H; by apply (get_put_le_other _ _ _ _ _ n o Eb)).
  split; [|split; [done|split; [done|split]]].
  - split; [done|]. split; [done|]. split.
    { split; try done; try (apply Hother; lia). apply lru_step_refl. }
    destruct (fo_gds _ _ Hok). split; [exact (put_le_bytes _ _ _ _ _ Hb Eb)|].
    split; [exact (put_le_len _ _ _ _ _ Eb)|done].
  - by apply (get_put_le 4) in Eb.
  - exact Hother.
Qed.

(** Both counts of free blocks. *)
Lemma count_blocks_ok bpg s i k : fs_ok bpg s → 0 <= i < ngroups (conf s) →
  ∃ s1 s', add_gd i 12 k s = Ret tt s1 ∧ add_sb 12 k s1 = Ret tt s' ∧ recounted s s' ∧ counted i k s s'.
Proof.
  intros Hok Hi. destruct (add_gd_ok bpg s i 12 k Hok Hi) as (s1&c&E1&HR1&Es1&Ec&Ec1&Ho1); [lia..|].
  destruct (recounted_ok bpg _ _ HR1 Hok) as [Hok1 _].
  destruct (add_sb_ok bpg s1 12 k Hok1 (or_introl eq_refl)) as (s2&d&E2&HR2&Eg2&Ed&Ed2&_).
  exists s1, s2. split; [done|]. split; [done|]. split; [by eapply recounted_trans|]. split.
  - intros j. unfold bg_free_blocks_count. rewrite Eg2. case_decide as Ej.
    + subst j. by rewrite Ec1, Ec.
    + apply Ho1. unfold sizeof_gd. lia.
  - unfold s_free_blocks_count. rewrite Ed2. rewrite Es1 in Ed. by rewrite Ed.
Qed.

(** ** Allocation *)

Lemma group_of bpg i k : 0 <= k < bpg → (i * bpg + k) / bpg = i ∧ (i * bpg + k) mod bpg = k.
Proof.
  intros Hk. rewrite (Z.add_comm (i * bpg)), Z.div_add, Z.mod_add, Z.div_small, Z.mod_small by lia. lia.
Qed.

(** Bit [k] of the map of group [i] is for this block. *)
Lemma blk_free_bit bpg s i no m k : fs_ok bpg s → bg_block_bitmap (gds s) i = Some no →
  view (disk s) no = Some m → 0 <= k < bpg → blk_free bpg s (i * bpg + k + 1) = negb (marked m k).
Proof.
  intros Hok Ei Em Hk. pose proof (gd_fields_in _ _ _ _ Hok Ei). unfold blk_free, group_map.
  rewrite decide_True by nia. replace (i * bpg + k + 1 - 1) with (i * bpg + k) by lia.
  destruct (group_of bpg i k Hk) as [-> ->]. by rewrite Ei, Em.
Qed.

Lemma map_len bpg s i no m : fs_ok bpg s → bg_block_bitmap (gds s) i = Some no → view (disk s) no = Some m →
  Forall is_byte m ∧ zlen m = 1024 ∧ 4 * longs bpg <= zlen m ∧ 32 * longs bpg = bpg ∧
  ∀ k, 0 <= k < bpg → in_map m k.
Proof.
  intros Hok Ei Em. pose proof (view_len _ _ _ _ Hok Em) as Hz. destruct (fo_bpg _ _ Hok) as (_&Hb&Hm).
  pose proof (Z.div_mod bpg 32). assert (longs bpg = bpg / 32) as El.
  { unfold longs. replace (bpg + 31) with (bpg / 32 * 32 + 31) by lia.
    rewrite Z.div_add_l by lia. change (31 / 32) with 0. lia. }
  split; [by eapply fo_bytes|]. split; [done|]. split; [lia|]. split; [lia|].
  intros k Hk. split; [lia|]. pose proof (Z.div_lt_upper_bound k 32 (bpg / 32)). lia.
Qed.

(** The map of a group is written back. *)
Lemma write_map_ok bpg s i no m m' : fs_ok bpg s → bg_block_bitmap (gds s) i = Some no →
  view (disk s) no = Some m → Forall is_byte m' → zlen m' = 1024 →
  (∀ k, 0 <= k < bpg → marked m' k = false →
    marked m k = false ∨ in_dev s (i * bpg + k + 1) ∧ ¬ is_bitmap s (i * bpg + k + 1)) →
  ∃ s', bwrite no m' s = Ret tt s' ∧ fs_ok bpg s' ∧ wrote 1 no m' s s' ∧
    ∀ b, blk_free bpg s' b =
      if decide (0 < b ∧ (b - 1) / bpg = i) then negb (marked m' ((b - 1) mod bpg)) else blk_free bpg s b.
Proof.
  intros Hok Ei Em HF Hz Hnew.
  destruct (bwrite_wrote bpg no m' s Hok (fo_maps _ _ Hok no (ex_intro _ i Ei)) Hz) as (s'&E&HW&_).
  destruct (fo_bpg _ _ Hok) as (_&Hb&_).
  assert (∀ b, blk_free bpg s' b =
      if decide (0 < b ∧ (b - 1) / bpg = i) then negb (marked m' ((b - 1) mod bpg)) else blk_free bpg s b) as Ef.
  { intros b. destruct HW as (_&_&Eg&_&_&_&Ev). unfold blk_free, group_map. rewrite Eg.
    destruct (decide (0 < b)) as [Hpos|]; [|by rewrite decide_False by tauto].
    destruct (decide (0 < b ∧ _)) as [[_ <-]|Hne].
    - rewrite Ei, Ev. by rewrite decide_True.
    - destruct (bg_block_bitmap (gds s) ((b - 1) / bpg)) as [no'|] eqn:E'; [|done].
      rewrite Ev, decide_False; [done|]. intros ->. apply Hne. split; [done|]. by eapply fo_distinct. }
  exists s'. split; [done|]. split; [|by split].
  eapply wrote_ok; [done|done| |done]. intros x. rewrite Ef. case_decide as Hx; [|apply (fo_free _ _ Hok)].
  destruct Hx as [Hx <-]. pose proof (Z.mod_pos_bound (x - 1) bpg) as Hk. intros Hmk%negb_true_iff.
  assert ((x - 1) / bpg * bpg + (x - 1) mod bpg + 1 = x) as Ex by (pose proof (Z.div_mod (x - 1) bpg); lia).
  destruct (Hnew ((x - 1) mod bpg)) as [Hm|Hm]; [lia|done| |by rewrite Ex in Hm].
  apply (fo_free _ _ Hok). rewrite <- Ex. rewrite (blk_free_bit bpg s _ no m) by (done || lia).
  by rewrite Hm.
Qed.

(** Blocks [b] to [b + n - 1], of group [i], are no longer free; nothing else has
    happened. *)
Record taken (bpg k i b n : Z) (s s' : e2fs) : Prop := {
  tk_ok : fs_ok bpg s';
  tk_kept : kept k s s';
  tk_inodes : inode_table s' = inode_table s;
  tk_group : i * bpg < b ∧ b + n - 1 <= (i + 1) * bpg ∧ 0 <= i < ngroups (conf s);
  tk_free : ∀ x, blk_free bpg s' x = blk_free bpg s x && negb (bool_decide (b <= x < b + n));
  tk_view : ∀ m, ¬ is_bitmap s m → view (disk s') m = view (disk s) m;
  tk_counts : counted i (- n) s s'
}.

(** Calls that only look may come first. *)
Lemma taken_after bpg k1 k2 i b n s s1 s' : 0 <= k2 →
  looked k1 s s1 → taken bpg k2 i b n s1 s' → taken bpg (k1 + k2) i b n s s'.
Proof.
  intros Hk HL [T1 T2 T3 T4 T5 T6 T7]. pose proof HL as (HK&Es&Eg&Et&_). split.
  - done.
  - by eapply kept_trans.
  - congruence.
  - by rewrite <- (kp_conf _ _ _ HK).
  - intros x. by rewrite T5, (looked_free _ _ _ _ _ HL).
  - intros m Hm. rewrite T6, (looked_view _ _ _ _ HL); [done|]. by rewrite (kept_bitmap _ _ _ _ HK).
  - unfold counted in *. by rewrite Es, Eg in T7.
Qed.

Lemma taken_look bpg k1 k2 i b n s s1 s' : 0 <= k2 →
  taken bpg k1 i b n s s1 → looked k2 s1 s' → taken bpg (k1 + k2) i b n s s'.
Proof.
  intros Hk [T1 T2 T3 T4 T5 T6 T7] HL. pose proof HL as (HK&Es&Eg&Et&_). split.
  - by eapply looked_ok.
  - by eapply kept_trans.
  - congruence.
  - done.
  - intros x. by rewrite (looked_free _ _ _ _ _ HL).
  - intros m Hm. rewrite (looked_view _ _ _ _ HL). by apply T6.
  - unfold counted in *. by rewrite Es, Eg.
Qed.

Lemma taken_le bpg k1 k2 i b n s s' : k1 <= k2 → taken bpg k1 i b n s s' → taken bpg k2 i b n s s'.
Proof. intros Hk []. split; try done. by eapply kept_le. Qed.

(** The bits of [n] free blocks are set, the map written and the counts moved. *)
Lemma take_ok {A} bpg s i no m m' k n (c : E2 A) : fs_ok bpg s → bg_block_bitmap (gds s) i = Some no →
  view (disk s) no = Some m → Forall is_byte m' → zlen m' = 1024 → 0 <= k → 0 <= n → k + n <= bpg →
  (∀ j, 0 <= j → marked m' j = marked m j || bool_decide (k <= j < k + n)) →
  ∃ s', (bwrite no m' ;;; add_gd i 12 (- n) ;;; add_sb 12 (- n) ;;; c) s = c s' ∧
    taken bpg 1 i (i * bpg + k + 1) n s s'.
Proof.
  intros Hok Ei Em HF Hz Hk Hn Hkn Hm'. pose proof (gd_fields_in _ _ _ _ Hok Ei) as Hi.
  destruct (write_map_ok bpg s i no m m' Hok Ei Em HF Hz) as (s1&E1&Hok1&HW&Ef1).
  { intros j Hj. rewrite Hm' by lia. intros [? _]%orb_false_iff. by left. }
  pose proof HW as (HK1&Es1&Eg1&Et1&_&_&Ev1).
  destruct (count_blocks_ok bpg s1 i (- n) Hok1) as (s0&s2&E0&E2&HR&HC).
  { by rewrite (kp_conf _ _ _ HK1). }
  exists s2. rewrite (bind_Ret _ _ _ _ _ E1), (bind_Ret _ _ _ _ _ E0), (bind_Ret _ _ _ _ _ E2). split; [done|].
  destruct (recounted_ok bpg _ _ HR Hok1) as [Hok2 Ef2]. pose proof HR as (Ed&Et&HK2&_).
  split; [done| |congruence|nia| | |].
  - apply (kept_trans 1 0 s s1 s2); [done..|]. done.
  - intros x. rewrite Ef2, Ef1. destruct (fo_bpg _ _ Hok) as (_&Hb&_). case_decide as Hx.
    + destruct Hx as [Hx Hxi]. pose proof (Z.mod_pos_bound (x - 1) bpg). pose proof (Z.div_mod (x - 1) bpg) as Hdm.
      rewrite Hxi in Hdm. rewrite Hm' by lia.
      replace (blk_free bpg s x) with (negb (marked m ((x - 1) mod bpg))).
      2: { rewrite <- (blk_free_bit bpg s i no m) by (done || lia). f_equal. lia. }
      rewrite negb_orb. f_equal. f_equal. apply bool_decide_ext. lia.
    + rewrite bool_decide_eq_false_2; [by rewrite andb_true_r|]. intros Hin. apply Hx. split; [nia|].
      replace (x - 1) with (i * bpg + (x - 1 - i * bpg)) by lia. apply group_of. lia.
  - intros x Hx. rewrite Ed, Ev1, decide_False; [done|]. intros ->. apply Hx. by eexists.
  - destruct HC as [HC1 HC2]. unfold counted. by rewrite <- Es1, <- Eg1.
Qed.

(** From group [i] on there is no free block in a group that says it has some,
    unless its first block is free. *)
Definition exhausted (bpg i : Z) (s : e2fs) : Prop :=
  ∀ j c m, i <= j → bg_free_blocks_count (gds s) j = Some c → 0 < c → group_map s j = Some m →
    marked m 0 = true → ∀ k, 0 <= k < bpg → marked m k = true.

Lemma exhausted_looked bpg k i s s' : looked k s s' → exhausted bpg i s' → exhausted bpg i s.
Proof.
  intros HL H j c m Hj Hc Hpos Hm. pose proof HL as (_&_&Eg&_&_&_&_&_&Ev).
  eapply (H j c m); [done|by rewrite Eg|done|]. unfold group_map in *. rewrite Eg.
  destruct (bg_block_bitmap (gds s) j); [|done]. by rewrite Ev.
Qed.

Lemma gd_field_ok bpg s i o n (f : list Z → Z → option Z) : fs_ok bpg s → 0 <= i < ngroups (conf s) →
  (∀ g j, f g j = get_le n g (sizeof_gd * j + o)) → 0 <= o → 0 <= n → o + n <= 32 →
  ∃ v, gd_field f i s = Ret v s ∧ f (gds s) i = Some v ∧ 0 <= v < 256 ^ n.
Proof.
  intros Hok Hi Hf Ho Hn Hle. destruct (gd_field_is_Some bpg s i o n Hok Hi Ho Hn Hle) as [v Ev].
  rewrite <- Hf in Ev. exists v. split.
  { unfold gd_field. cbn [bind gets]. by rewrite Ev. }
  split; [done|].
  rewrite Hf in Ev.
  eapply get_le_range; [apply (fo_gds _ _ Hok)|exact Ev].
Qed.

Lemma block_bitmap_ok bpg s i : fs_ok bpg s → 0 <= i < ngroups (conf s) →
  ∃ no, gd_field bg_block_bitmap i s = Ret no s ∧ bg_block_bitmap (gds s) i = Some no ∧ in_dev s no.
Proof.
  intros Hok Hi. destruct (gd_field_ok bpg s i 0 4 bg_block_bitmap Hok Hi) as (no&E&En&_); [|lia..|].
  { intros g j. unfold bg_block_bitmap. by rewrite Z.add_0_r. }
  exists no. split; [done|]. split; [done|]. apply (fo_maps _ _ Hok). by eexists.
Qed.

Lemma balloc_from_ok bpg (n : nat) : ∀ i s, fs_ok bpg s → 0 <= i → i + Z.of_nat n = ngroups (conf s) →
  ∃ r s', balloc_from n i s = Ret r s' ∧
    ((r = 0 ∧ looked (Z.of_nat n) s s' ∧ exhausted bpg i s) ∨
     (∃ j, taken bpg (Z.of_nat n + 1) j r 1 s s' ∧ blk_free bpg s r = true)).
Proof.
  induction n as [|n IH]; intros i s Hok Hi Hn.
  { cbn [balloc_from]. destruct (say_verbose_looked bpg ("ext2_balloc: can't find a free block" ++ nl) [] s Hok)
      as (s'&E&HL). exists 0, s'. rewrite (bind_Ret _ _ _ _ _ E). split; [done|]. left. split; [done|].
    split; [done|]. intros j c m Hj Hc _ Hm _ k _. unfold group_map in Hm.
    destruct (bg_block_bitmap (gds s) j) eqn:Ej; [|done]. pose proof (gd_fields_in bpg s j _ Hok Ej); lia. }
  cbn [balloc_from].
  destruct (gd_field_ok bpg s i 12 2 bg_free_blocks_count) as (free&E1&Efree&_); [done|lia|done|lia..|].
  rewrite (bind_Ret _ _ _ _ _ E1). clear E1.
  assert (∀ s1, looked 1 s s1 → (∀ c m, bg_free_blocks_count (gds s) i = Some c → 0 < c →
      group_map s i = Some m → marked m 0 = true → ∀ k, 0 <= k < bpg → marked m k = true) →
    ∃ r s', balloc_from n (i + 1) s1 = Ret r s' ∧
    ((r = 0 ∧ looked (Z.of_nat (S n)) s s' ∧ exhausted bpg i s) ∨
     (∃ j, taken bpg (Z.of_nat (S n) + 1) j r 1 s s' ∧ blk_free bpg s r = true))) as Hnext.
  { intros s1 HL1 Hi1. pose proof (looked_ok _ _ _ _ HL1 Hok) as Hok1.
    destruct (IH (i + 1) s1 Hok1) as (r&s'&E&[(->&HL&Hex)|(j&HT&Hf)]);
      [lia|rewrite (kp_conf _ _ _ (proj1 HL1)); lia|..]; exists r || exists 0; exists s'; (split; [done|]).
    - left. split; [done|]. split.
      { replace (Z.of_nat (S n)) with (1 + Z.of_nat n) by lia. apply looked_trans with s1; [lia|done..]. }
      apply (exhausted_looked _ _ _ _ _ HL1) in Hex. intros j c m Hj Hc Hpos Hm.
      destruct (decide (j = i)) as [->|]; [by eapply Hi1|]. eapply (Hex j); [lia|done..].
    - right. exists j. split; [|by rewrite <- (looked_free _ _ _ _ _ HL1)].
      replace (Z.of_nat (S n) + 1) with (1 + (Z.of_nat n + 1)) by lia. by eapply taken_after; [lia|..]. }
  destruct (Z.ltb_spec 0 free) as [Hpos|Hzero].
  2: { apply Hnext; [eapply looked_le; [|by eapply looked_refl]; lia|]. intros c m Hc Hc0.
       rewrite Efree in Hc. injection Hc as <-. lia. }
  destruct (block_bitmap_ok bpg s i) as (no&E1&Eno&Hno); [done|lia|]. rewrite (bind_Ret _ _ _ _ _ E1). clear E1.
  destruct (fo_bpg _ _ Hok) as (Ebpg&Hb&Hmod).
  rewrite (bind_Ret (sb_field s_blocks_per_group) _ s bpg s)
    by (unfold sb_field; cbn [bind gets]; by rewrite Ebpg).
  destruct (read_map_looked bpg no s Hok Hno) as (m&s1&E1&Em&Hz&HL1).
  rewrite (bind_Ret _ _ _ _ _ E1). pose proof (looked_ok _ _ _ _ HL1 Hok) as Hok1.
  destruct (map_len bpg s i no m Hok Eno Em) as (HF&_&Hlz&Hl&Hin).
  destruct (find_first_zero_bit_ok m bpg HF) as (blk&->&Hblk); [lia|done|]. rewrite Hl in Hblk.
  cbn [lift_opt]. rewrite bind_ret.
  destruct ((blk =? 0) || (blk =? bpg)) eqn:Eb.
  - edestruct (say_looked bpg) as (s2&E2&HL2); [exact Hok1|]. rewrite (bind_Ret _ _ _ _ _ E2).
    apply Hnext; [by apply (looked_trans 1 0 s s1 s2)|]. intros c m' Hc _ Hm' H0 k Hk.
    unfold group_map in Hm'. rewrite Eno, Em in Hm'. injection Hm' as <-.
    apply orb_true_iff in Eb as [->%Z.eqb_eq| ->%Z.eqb_eq].
    + destruct Hblk as [[E Hall]|(_&Hf&_)]; [lia|congruence].
    + destruct Hblk as [[_ Hall]|(Hr&_&_)]; [by apply Hall|lia].
  - apply orb_false_iff in Eb as [Eb0%Z.eqb_neq Eb1%Z.eqb_neq].
    destruct Hblk as [[E _]|(Hr&Hf&Hlow)]; [done|].
    assert (s32 blk = blk) as -> by (apply swrap_small; lia).
    destruct (set_bit_ok m blk HF) as (m'&->&HF'&Hz'&Hm'); [apply Hin; lia|].
    cbn [lift_opt]. rewrite bind_ret. pose proof HL1 as (HK1&_&Eg1&_).
    assert (bg_block_bitmap (gds s1) i = Some no) as Eno1 by congruence.
    assert (view (disk s1) no = Some m) as Em1 by (by rewrite (looked_view _ _ _ _ HL1)).
    edestruct (take_ok (A := Z) bpg s1 i no m m' blk 1) as (s2&->&HT); [done|done|done|done|congruence|lia|lia|lia| |].
    { intros j Hj. rewrite Hm' by done. case_decide as Ej.
      - rewrite bool_decide_eq_true_2 by lia. by rewrite orb_true_r.
      - rewrite bool_decide_eq_false_2 by lia. by rewrite orb_false_r. }
    destruct (fo_count _ _ Hok) as [_ Hc31].
    rewrite (wrap_small 32 (i * bpg)), (wrap_small 32), (proj2 (Z.eqb_neq _ 0)) by (lia || nia).
    rewrite bind_ret. rewrite (swrap_small 32) by nia.
    replace (blk + i * bpg + 1) with (i * bpg + blk + 1) by lia. eexists _, s2. split; [done|].
    right. exists i. split; [|rewrite (blk_free_bit bpg s i no m) by (done || lia); by rewrite Hf].
    eapply taken_le; [|apply (taken_after bpg 1 1 i _ 1 s s1 s2); [lia|exact HL1|exact HT]]. lia.
Qed.

Lemma ext2_balloc_ok bpg s : fs_ok bpg s → readonly (conf s) = false →
  ∃ r s', ext2_balloc s = Ret r s' ∧
    ((r = 0 ∧ looked (ngroups (conf s)) s s' ∧ exhausted bpg 0 s) ∨
     (∃ j, taken bpg (ngroups (conf s) + 1) j r 1 s s' ∧ blk_free bpg s r = true)).
Proof.
  intros Hok Hro. destruct (fo_count _ _ Hok) as [Hng _].
  unfold ext2_balloc, conf_of. cbn [bind gets]. rewrite Hro.
  destruct (balloc_from_ok bpg (Z.to_nat (ngroups (conf s))) 0 s Hok) as (r&s'&E&H); [lia..|].
  exists r, s'. rewrite Z2Nat.id in H by lia. done.
Qed.

(** In general: [f] is the new set of free blocks, and of the other blocks only
    those of [w] have new contents. *)
Record realloc (bpg k : Z) (f : Z → bool) (w : Z → Prop) (s s' : e2fs) : Prop := {
  ra_ok : fs_ok bpg s';
  ra_kept : kept k s s';
  ra_free : ∀ x, blk_free bpg s' x = f x;
  ra_view : ∀ m, ¬ is_bitmap s m → ¬ w m → view (disk s') m = view (disk s) m
}.

Lemma taken_realloc bpg k i b n s s' w : taken bpg k i b n s s' →
  realloc bpg k (λ x, blk_free bpg s x && negb (bool_decide (b <= x < b + n))) w s s'.
Proof. intros []. split; auto. Qed.

Lemma looked_realloc bpg k s s' w : fs_ok bpg s → looked k s s' → realloc bpg k (blk_free bpg s) w s s'.
Proof.
  intros Hok HL. split.
  - by eapply looked_ok.
  - by destruct HL.
  - intros x. by eapply looked_free.
  - intros m _ _. by eapply looked_view.
Qed.

Lemma wrote_realloc bpg k n b s s' (w : Z → Prop) : fs_ok bpg s → wrote k n b s s' → Forall is_byte b →
  ¬ is_bitmap s n → w n → realloc bpg k (blk_free bpg s) w s s'.
Proof.
  intros Hok HW Hb Hn Hw. pose proof HW as (HK&_&_&_&_&_&Ev). split.
  - by eapply wrote_data_ok.
  - done.
  - intros x. by eapply wrote_free.
  - intros m _ Hm. rewrite Ev, decide_False; [done|]. by intros ->.
Qed.

Lemma realloc_trans bpg k1 k2 f g (w : Z → Prop) s1 s2 s3 : 0 <= k2 →
  realloc bpg k1 f w s1 s2 → realloc bpg k2 g w s2 s3 → realloc bpg (k1 + k2) g w s1 s3.
Proof.
  intros Hk [? HK] []. split; try done.
  - by eapply kept_trans.
  - intros m Hm Hw. rewrite ra_view1, ra_view0; [done|done|done| |done]. by rewrite (kept_bitmap _ _ _ _ HK).
Qed.

Lemma realloc_impl bpg k k' f g (w w' : Z → Prop) s s' : k <= k' → (∀ x, f x = g x) → (∀ x, w x → w' x) →
  realloc bpg k f w s s' → realloc bpg k' g w' s s'.
Proof.
  intros Hk E Hw []. split; [done|by eapply kept_le|intros x; by rewrite ra_free0|].
  intros m Hm Hn. apply ra_view0; [done|]. intros ?. by apply Hn, Hw.
Qed.

(** A block of a group can be freed. *)
Definition freeable (bpg : Z) (s : e2fs) (b : Z) : Prop :=
  in_dev s b ∧ ¬ is_bitmap s b ∧ b <= ngroups (conf s) * bpg.

Lemma freeable_kept bpg k s s' b : kept k s s' → freeable bpg s' b ↔ freeable bpg s b.
Proof.
  intros HK. unfold freeable. by rewrite (kept_in_dev _ _ _ _ HK), (kept_bitmap _ _ _ _ HK), (kp_conf _ _ _ HK).
Qed.

Lemma ext2_bfree_ok bpg s b : fs_ok bpg s → freeable bpg s b →
  ∃ s', ext2_bfree b s = Ret tt s' ∧ realloc bpg 2 (λ x, blk_free bpg s x || (x =? b)) (λ _, False) s s' ∧
    inode_table s' = inode_table s ∧ counted ((b - 1) / bpg) 1 s s'.
Proof.
  intros Hok (Hin&Hnb&Hle). destruct (fo_bpg _ _ Hok) as (Ebpg&Hb&_). pose proof Hin as [Hpos _].
  destruct (fo_count _ _ Hok) as [_ Hc31]. unfold ext2_bfree.
  rewrite (bind_Ret (sb_field s_blocks_per_group) _ s bpg s)
    by (unfold sb_field; cbn [bind gets]; by rewrite Ebpg).
  rewrite (proj2 (Z.eqb_neq bpg 0)) by lia. rewrite (wrap_small 32 (b - 1)) by lia.
  set (i := (b - 1) / bpg). set (k := (b - 1) mod bpg).
  assert (0 <= k < bpg) as Hk by (apply Z.mod_pos_bound; lia).
  assert (b = i * bpg + k + 1) as Eb by (pose proof (Z.div_mod (b - 1) bpg); lia).
  assert (0 <= i < ngroups (conf s)) as Hi.
  { split; [apply Z.div_pos; lia|]. apply Z.div_lt_upper_bound; lia. }
  rewrite (swrap_small 32 eq_refl i) by nia. rewrite (swrap_small 32 eq_refl k) by lia.
  destruct (block_bitmap_ok bpg s i Hok Hi) as (no&E1&Eno&Hno). rewrite (bind_Ret _ _ _ _ _ E1). clear E1.
  destruct (read_map_looked bpg no s Hok Hno) as (m&s1&E1&Em&Hz&HL1). rewrite (bind_Ret _ _ _ _ _ E1).
  pose proof (looked_ok _ _ _ _ HL1 Hok) as Hok1.
  destruct (map_len bpg s i no m Hok Eno Em) as (HF&_&_&_&Hmap).
  destruct (clear_bit_ok m k HF (Hmap k Hk)) as (m'&->&HF'&Hz'&Hm'). cbn [lift_opt]. rewrite bind_ret.
  pose proof HL1 as (HK1&Es1&Eg1&Et1&_).
  assert (bg_block_bitmap (gds s1) i = Some no) as Eno1 by congruence.
  assert (view (disk s1) no = Some m) as Em1 by (by rewrite (looked_view _ _ _ _ HL1)).
  destruct (write_map_ok bpg s1 i no m m' Hok1 Eno1 Em1 HF') as (s2&E2&Hok2&HW&Ef2); [congruence|..].
  { intros j Hj. rewrite Hm' by lia. case_decide as Ej; [|by left]. intros _. right. subst j.
    rewrite <- Eb. by rewrite (kept_in_dev _ _ _ _ HK1), (kept_bitmap _ _ _ _ HK1). }
  rewrite (bind_Ret _ _ _ _ _ E2). pose proof HW as (HK2&Es2&Eg2&Et2&_&_&Ev2).
  destruct (count_blocks_ok bpg s2 i 1 Hok2) as (s0&s3&E0&E3&HR&HC).
  { by rewrite (kp_conf _ _ _ HK2), (kp_conf _ _ _ HK1). }
  rewrite (bind_Ret _ _ _ _ _ E0), E3.
  exists s3. split; [done|]. destruct (recounted_ok bpg _ _ HR Hok2) as [Hok3 Ef3].
  pose proof HR as (Ed3&Et3&HK3&_). split; [split|split; [congruence|]].
  - done.
  - apply (kept_trans 1 1 s s1 s3); [done..|]. apply (kept_trans 1 0 s1 s2 s3); done.
  - intros x. rewrite Ef3, Ef2, (looked_free _ _ _ _ _ HL1). case_decide as Hx.
    + destruct Hx as [Hx Hxi]. pose proof (Z.mod_pos_bound (x - 1) bpg).
      pose proof (Z.div_mod (x - 1) bpg) as Hdm. rewrite Hxi in Hdm. rewrite Hm' by lia.
      replace (blk_free bpg s x) with (negb (marked m ((x - 1) mod bpg))).
      2: { rewrite <- (blk_free_bit bpg s i no m) by (done || lia). f_equal. lia. }
      case_decide as Ej.
      * rewrite (proj2 (Z.eqb_eq x b)) by lia. by rewrite orb_true_r.
      * rewrite (proj2 (Z.eqb_neq x b)) by (intros ->; done). by rewrite orb_false_r.
    + rewrite (proj2 (Z.eqb_neq x b)); [by rewrite orb_false_r|]. intros ->. by apply Hx.
  - intros x Hx _. rewrite Ed3, Ev2, decide_False; [by eapply looked_view|].
    intros ->. apply Hx. by eexists.
  - destruct HC as [HC1 HC2]. unfold counted. by rewrite <- Es1, <- Es2, <- Eg1, <- Eg2.
Qed.

(** *** A run of blocks *)

Lemma skip_longs_ok stop b (n : nat) i : Forall is_byte b → 0 <= i → 4 * (i + Z.of_nat n) <= zlen b →
  ∃ r, skip_longs n stop b i = Some r ∧ i <= r <= i + Z.of_nat n ∧
    (∀ j w, i <= j < r → get_u32 b (4 * j) = Some w → Bool.eqb (w =? 0) stop = false) ∧
    (r < i + Z.of_nat n → ∃ w, get_u32 b (4 * r) = Some w ∧ Bool.eqb (w =? 0) stop = true).
Proof.
  intros HF. revert i. induction n as [|n IH]; intros i Hi Hz; cbn [skip_longs].
  { exists i. split; [done|]. split; [lia|]. split; intros; lia. }
  destruct (aslice_is_Some b (4 * i) 4) as [a Ea]; [lia..|].
  assert (get_u32 b (4 * i) = Some (le_val a)) as Ew by (unfold get_le; by rewrite Ea).
  rewrite Ew. destruct (Bool.eqb (le_val a =? 0) stop) eqn:Es.
  - exists i. split; [done|]. split; [lia|]. split; [intros; lia|]. intros _. by exists (le_val a).
  - destruct (IH (i + 1)) as (r&E&Hr&Hall&Hstop); [lia..|]. exists r. split; [done|]. split; [lia|].
    split; [|intros; apply Hstop; lia]. intros j w Hj Hw. destruct (decide (j = i)) as [->|].
    + rewrite Ew in Hw. by injection Hw as <-.
    + apply (Hall j); [lia|done].
Qed.

Lemma eqb_eqb (b stop : bool) : eqb b stop = Bool.eqb b stop.
Proof. done. Qed.

(** There is a run of [needed] clear longwords from [f] on. *)
Definition clear_run (b : list Z) (f needed : Z) : Prop :=
  ∀ j, f <= j < f + needed → get_u32 b (4 * j) = Some 0.

(** The first run, or the end of the map when there is none. *)
Lemma find_run_ok b lpg needed (n : nat) first : Forall is_byte b → 4 * lpg <= zlen b → 0 <= first <= lpg →
  0 < needed → (Z.to_nat (lpg - first) < n)%nat →
  ∃ r, find_run n b first lpg needed = Some r ∧ first <= r <= lpg ∧
    (r < lpg → r + needed <= lpg ∧ clear_run b r needed) ∧
    (r = lpg → ∀ f, first <= f → f + needed <= lpg → ¬ clear_run b f needed).
Proof.
  intros HF Hz Hf Hnd. revert first Hf. induction n as [|n IH]; intros first Hf Hn; [lia|]. cbn [find_run].
  destruct (skip_longs_ok true b (Z.to_nat (lpg - first)) first HF) as (r1&->&Hr1&Hall1&Hs1); [lia..|].
  assert (∀ f, first <= f < r1 → ¬ clear_run b f needed) as Hno1.
  { intros f Hff Hrun. specialize (Hall1 f 0 ltac:(lia) (Hrun f ltac:(lia))). done. }
  destruct (Z.eqb_spec r1 lpg) as [->|Hne].
  { exists lpg. split; [done|]. split; [lia|]. split; [lia|]. intros _ f H1 H2. apply Hno1. lia. }
  destruct (skip_longs_ok false b (Z.to_nat (lpg - r1)) r1 HF) as (r2&->&Hr2&Hall&Hs2); [lia..|].
  assert (∀ j, r1 <= j < r2 → get_u32 b (4 * j) = Some 0) as Hzero.
  { intros j Hj. destruct (aslice_is_Some b (4 * j) 4) as [a Ea]; [lia..|].
    assert (get_u32 b (4 * j) = Some (le_val a)) as Ew by (unfold get_le; by rewrite Ea).
    specialize (Hall j _ Hj Ew). rewrite Ew. destruct (Z.eqb_spec (le_val a) 0); [congruence|done]. }
  assert (r1 < r2) as Hlt.
  { destruct (decide (r1 < r2)); [done|]. assert (r2 = r1) as -> by lia.
    destruct Hs1 as (w&Ew&H1); [lia|]. destruct Hs2 as (w'&Ew'&H2); [lia|].
    assert (w' = w) as -> by congruence. by destruct (w =? 0). }
  destruct (Z.ltb_spec (r2 - r1) needed) as [Hshort|Hlong].
  - rewrite (proj2 (Z.ltb_lt 0 needed)) by lia. destruct (IH r2) as (r&E&Hr&HR&Hno); [lia..|].
    exists r. split; [done|]. split; [lia|]. split; [done|]. intros Er f H1 H2 Hrun.
    destruct (decide (f < r1)); [by apply (Hno1 f); [lia|]|].
    destruct (decide (r2 <= f)); [by apply (Hno Er f)|].
    destruct Hs2 as (w&Ew&H3); [lia|]. rewrite (Hrun r2) in Ew by lia. by injection Ew as <-.
  - exists r1. split; [done|]. split; [lia|]. split; [|lia]. intros _. split; [lia|].
    intros j Hj. apply Hzero. lia.
Qed.

Lemma zero_word_clear b j k : Forall is_byte b → get_u32 b (4 * j) = Some 0 → 0 <= j →
  32 * j <= k < 32 * j + 32 → marked b k = false.
Proof.
  intros HF Ew Hj Hk. replace k with (32 * j + (k - 32 * j)) by lia.
  rewrite <- (word_bits b j 0 (k - 32 * j) HF Ew) by lia. apply Z.bits_0.
Qed.

Lemma set_bits_ok (n : nat) : ∀ b k, Forall is_byte b → (∀ j, k <= j < k + Z.of_nat n → in_map b j) →
  ∃ b', set_bits n b k = Some b' ∧ Forall is_byte b' ∧ zlen b' = zlen b ∧
    ∀ j, 0 <= j → marked b' j = marked b j || bool_decide (k <= j < k + Z.of_nat n).
Proof.
  induction n as [|n IH]; intros b k HF Hin; cbn [set_bits].
  { exists b. split; [done|]. split; [done|]. split; [done|]. intros j _.
    rewrite bool_decide_eq_false_2 by lia. by rewrite orb_false_r. }
  destruct (set_bit_ok b k HF) as (b1&->&HF1&Hz1&Hm1); [apply Hin; lia|].
  destruct (IH b1 (k + 1) HF1) as (b2&E&HF2&Hz2&Hm2).
  { intros j Hj. unfold in_map. rewrite Hz1. apply Hin. lia. }
  exists b2. split; [done|]. split; [done|]. split; [congruence|]. intros j Hj.
  rewrite Hm2, Hm1 by done. case_decide as E'; [rewrite (bool_decide_eq_true_2 (k <= j < _)) by lia|].
  - cbn. by rewrite orb_true_r.
  - f_equal. apply bool_decide_ext. lia.
Qed.

(** No group from [i] on that says it has [n] free blocks has them in clear
    longwords next to each other. *)
Definition no_run (bpg i n : Z) (s : e2fs) : Prop :=
  ∀ j c m, i <= j → bg_free_blocks_count (gds s) j = Some c → n <= c → group_map s j = Some m →
    ∀ f, 0 <= f → f + longs n <= bpg / 32 → ¬ clear_run m f (longs n).

Lemma no_run_looked bpg k i n s s' : looked k s s' → no_run bpg i n s' → no_run bpg i n s.
Proof.
  intros HL H j c m Hj Hc Hle Hm. pose proof HL as (_&_&Eg&_&_&_&_&_&Ev).
  eapply (H j c m); [done|by rewrite Eg|done|]. unfold group_map in *. rewrite Eg.
  destruct (bg_block_bitmap (gds s) j); [|done]. by rewrite Ev.
Qed.

Lemma contiguous_from_ok bpg nb (n : nat) : 0 < nb < 2 ^ 30 → ∀ i s, fs_ok bpg s → 0 <= i →
  i + Z.of_nat n = ngroups (conf s) →
  ∃ r s', contiguous_from n i nb (longs nb) (bpg / 32) s = Ret r s' ∧
    ((r = 0 ∧ looked (Z.of_nat n) s s' ∧ no_run bpg i nb s) ∨
     (∃ j, taken bpg (Z.of_nat n + 1) j r nb s s' ∧ ∀ x, r <= x < r + nb → blk_free bpg s x = true)).
Proof.
  intros Hnb. induction n as [|n IH]; intros i s Hok Hi Hn.
  { cbn [contiguous_from]. edestruct (say_verbose_looked bpg) as (s'&E&HL); [exact Hok|]. exists 0, s'.
    rewrite (bind_Ret _ _ _ _ _ E). split; [done|]. left. split; [done|].
    split; [done|]. intros j c m Hj Hc _ Hm f _ _. unfold group_map in Hm.
    destruct (bg_block_bitmap (gds s) j) eqn:Ej; [|done]. pose proof (gd_fields_in bpg s j _ Hok Ej). lia. }
  cbn [contiguous_from].
  destruct (gd_field_ok bpg s i 12 2 bg_free_blocks_count) as (free&E1&Efree&_); [done|lia|done|lia..|].
  rewrite (bind_Ret _ _ _ _ _ E1). clear E1.
  assert (∀ s1, looked 1 s s1 → (∀ c m, bg_free_blocks_count (gds s) i = Some c → nb <= c →
      group_map s i = Some m → ∀ f, 0 <= f → f + longs nb <= bpg / 32 → ¬ clear_run m f (longs nb)) →
    ∃ r s', contiguous_from n (i + 1) nb (longs nb) (bpg / 32) s1 = Ret r s' ∧
    ((r = 0 ∧ looked (Z.of_nat (S n)) s s' ∧ no_run bpg i nb s) ∨
     (∃ j, taken bpg (Z.of_nat (S n) + 1) j r nb s s' ∧
        ∀ x, r <= x < r + nb → blk_free bpg s x = true))) as Hnext.
  { intros s1 HL1 Hi1. pose proof (looked_ok _ _ _ _ HL1 Hok) as Hok1.
    destruct (IH (i + 1) s1 Hok1) as (r&s'&E&[(->&HL&Hex)|(j&HT&Hf)]);
      [lia|rewrite (kp_conf _ _ _ (proj1 HL1)); lia|..]; exists r || exists 0; exists s'; (split; [done|]).
    - left. split; [done|]. split.
      { replace (Z.of_nat (S n)) with (1 + Z.of_nat n) by lia. apply looked_trans with s1; [lia|done..]. }
      apply (no_run_looked _ _ _ _ _ _ HL1) in Hex. intros j c m Hj Hc Hpos Hm.
      destruct (decide (j = i)) as [->|]; [by eapply Hi1|]. eapply (Hex j); [lia|done..].
    - right. exists j. split; [|intros x Hx; rewrite <- (looked_free _ _ _ _ _ HL1); by apply Hf].
      replace (Z.of_nat (S n) + 1) with (1 + (Z.of_nat n + 1)) by lia. by eapply taken_after; [lia|..]. }
  destruct (Z.leb_spec nb free) as [Hle|Hgt].
  2: { apply Hnext; [eapply looked_le; [|by eapply looked_refl]; lia|]. intros c m Hc Hc0.
       rewrite Efree in Hc. injection Hc as <-. lia. }
  destruct (block_bitmap_ok bpg s i) as (no&E1&Eno&Hno); [done|lia|]. rewrite (bind_Ret _ _ _ _ _ E1). clear E1.
  destruct (fo_bpg _ _ Hok) as (Ebpg&Hb&Hmod). pose proof (Z.div_mod bpg 32).
  destruct (read_map_looked bpg no s Hok Hno) as (m&s1&E1&Em&Hz&HL1).
  rewrite (bind_Ret _ _ _ _ _ E1). pose proof (looked_ok _ _ _ _ HL1 Hok) as Hok1.
  destruct (map_len bpg s i no m Hok Eno Em) as (HF&_&Hlz&Hl&Hin).
  assert (0 < longs nb ∧ nb <= 32 * longs nb) as [Hl0 Hl1].
  { unfold longs. pose proof (Z.div_mod (nb + 31) 32). pose proof (Z.mod_pos_bound (nb + 31) 32). lia. }
  destruct (find_run_ok m (bpg / 32) (longs nb) (S (Z.to_nat (bpg / 32))) 0 HF) as (r&->&Hr&Hrun&Hnone); [lia..|].
  cbn [lift_opt]. rewrite bind_ret. destruct (Z.eqb_spec r (bpg / 32)) as [->|Hne].
  { apply Hnext; [done|]. intros c m' _ _ Hm' f Hf Hfl. unfold group_map in Hm'. rewrite Eno, Em in Hm'.
    injection Hm' as <-. by apply Hnone. }
  destruct Hrun as [Hfit Hrun]; [lia|]. unfold BITS_PER_LONG. rewrite (swrap_small 32 eq_refl (r * 32)) by lia.
  destruct (set_bits_ok (Z.to_nat nb) m (r * 32) HF) as (m'&->&HF'&Hz'&Hm').
  { intros j Hj. apply Hin. lia. }
  cbn [lift_opt]. rewrite bind_ret. pose proof HL1 as (HK1&Es1&Eg1&_).
  assert (bg_block_bitmap (gds s1) i = Some no) as Eno1 by congruence.
  assert (view (disk s1) no = Some m) as Em1 by (by rewrite (looked_view _ _ _ _ HL1)).
  rewrite Z2Nat.id in Hm' by lia.
  edestruct (take_ok (A := Z) bpg s1 i no m m' (r * 32) nb) as (s2&->&HT);
    [done|done|done|done|congruence|lia|lia|lia|done|].
  rewrite (bind_Ret (sb_field s_blocks_per_group) _ s2 bpg s2).
  2: { unfold sb_field. cbn [bind gets]. destruct (fo_bpg _ _ (tk_ok _ _ _ _ _ _ _ HT)) as (Eb&_). by rewrite Eb. }
  destruct (fo_count _ _ Hok) as [_ Hc31].
  rewrite (wrap_small 32 (i * bpg)), (swrap_small 32) by (lia || nia).
  edestruct (say_verbose_looked bpg) as (s3&E3&HL3); [exact (tk_ok _ _ _ _ _ _ _ HT)|].
  rewrite (bind_Ret _ _ _ _ _ E3). replace (r * 32 + i * bpg + 1) with (i * bpg + r * 32 + 1) by lia.
  eexists _, s3. split; [done|]. right. exists i. split.
  - eapply taken_le; [|apply (taken_after bpg 1 1 i _ nb s s1 s3); [lia|exact HL1|]]; [lia|].
    by apply (taken_look bpg 1 0 i _ nb s1 s2 s3).
  - intros x Hx. replace x with (i * bpg + (x - i * bpg - 1) + 1) by lia.
    rewrite (blk_free_bit bpg s i no m) by (done || lia).
    set (k := x - i * bpg - 1). pose proof (Z.div_mod k 32). pose proof (Z.mod_pos_bound k 32).
    rewrite (zero_word_clear m (k / 32) k HF); [done|apply Hrun; lia|apply Z.div_pos; lia|lia].
Qed.

Lemma ext2_contiguous_balloc_ok bpg s nb : fs_ok bpg s → readonly (conf s) = false → 0 < nb < 2 ^ 30 →
  ∃ r s', ext2_contiguous_balloc nb s = Ret r s' ∧
    ((r = 0 ∧ looked (ngroups (conf s)) s s' ∧ no_run bpg 0 nb s) ∨
     (∃ j, taken bpg (ngroups (conf s) + 1) j r nb s s' ∧ ∀ x, r <= x < r + nb → blk_free bpg s x = true)).
Proof.
  intros Hok Hro Hnb. destruct (fo_count _ _ Hok) as [Hng _]. destruct (fo_bpg _ _ Hok) as (Ebpg&Hb&_).
  unfold ext2_contiguous_balloc, conf_of. cbn [bind gets]. rewrite Hro.
  rewrite (bind_Ret (sb_field s_blocks_per_group) _ s bpg s)
    by (unfold sb_field; cbn [bind gets]; by rewrite Ebpg).
  unfold BITS_PER_LONG. replace (nb + 32 - 1) with (nb + 31) by lia.
  rewrite (wrap_small 64) by lia. fold (longs nb).
  assert (0 <= longs nb < 2 ^ 30) as Hl by (unfold longs; split; [apply Z.div_pos|apply Z.div_lt_upper_bound]; lia).
  assert (0 <= bpg / 32 < 2 ^ 30) as Hl2 by (split; [apply Z.div_pos|apply Z.div_lt_upper_bound]; lia).
  rewrite !(swrap_small 32) by lia.
  destruct (contiguous_from_ok bpg nb (Z.to_nat (ngroups (conf s))) Hnb 0 s Hok) as (r&s'&E&H); [lia..|].
  exists r, s'. rewrite Z2Nat.id in H by lia. done.
Qed.
