(* ===== verification/E2Count.v ===== *)
(** * The counts of free blocks

    Any sequence of allocations and deallocations keeps the count of every group
    equal to the clear bits of its map, and the superblock's count equal to their
    sum. *)

From Stdlib Require Import Ascii String.
From S2P Require Import Prelude CString Vsprintf Ext2Disk Ufile Bio BioFull E2lib E2Alloc.

Open Scope Z_scope.
Open Scope list_scope.

(** ** Sums *)

Fixpoint sum_to (f : Z → Z) (n : nat) : Z :=
  match n with O => 0 | S n => sum_to f n + f (Z.of_nat n) end.

(** [f] and [g] differ by [c] on [n] places from [k] on. *)
Lemma sum_change f g k n c (len : nat) : 0 <= k → 0 <= n →
  (∀ x, 0 <= x < Z.of_nat len → f x = if decide (k <= x < k + n) then g x + c else g x) →
  sum_to f len = sum_to g len + (Z.min (k + n) (Z.of_nat len) - Z.min k (Z.of_nat len)) * c.
Proof.
  intros Hk Hn. induction len as [|len IH]; intros H; cbn [sum_to]; [lia|].
  rewrite IH by (intros x Hx; apply H; lia). rewrite (H (Z.of_nat len)) by lia.
  case_decide; [|destruct (decide (Z.of_nat len < k))].
  - rewrite !(Z.min_r (k + n)), !(Z.min_l k) by lia. nia.
  - rewrite !(Z.min_r (k + n)), !(Z.min_r k) by lia. lia.
  - rewrite !(Z.min_l (k + n)), !(Z.min_l k) by lia. lia.
Qed.

Lemma sum_range f (len : nat) a b : (∀ x, 0 <= x < Z.of_nat len → a <= f x <= b) →
  a * Z.of_nat len <= sum_to f len <= b * Z.of_nat len.
Proof.
  induction len as [|len IH]; intros H; cbn [sum_to]; [lia|].
  pose proof (H (Z.of_nat len)). destruct IH; [intros; apply H|]; lia.
Qed.

Lemma sum_ext f g (len : nat) : (∀ x, 0 <= x < Z.of_nat len → f x = g x) → sum_to f len = sum_to g len.
Proof.
  induction len as [|len IH]; intros H; cbn [sum_to]; [done|].
  rewrite IH by (intros; apply H; lia). f_equal. apply H. lia.
Qed.

(** ** The invariant *)

Definition is_free (bpg : Z) (s : e2fs) (b : Z) : Z := if blk_free bpg s b then 1 else 0.

(** The free blocks of group [i]. *)
Definition group_free (bpg : Z) (s : e2fs) (i : Z) : Z :=
  sum_to (λ k, is_free bpg s (i * bpg + k + 1)) (Z.to_nat bpg).

Definition accounted (bpg : Z) (s : e2fs) : Prop :=
  (∀ i, 0 <= i < ngroups (conf s) → bg_free_blocks_count (gds s) i = Some (group_free bpg s i)) ∧
  s_free_blocks_count (sb s) = Some (sum_to (group_free bpg s) (Z.to_nat (ngroups (conf s)))).

Lemma group_free_range bpg s i : fs_ok bpg s → 0 <= group_free bpg s i <= bpg.
Proof.
  intros Hok. destruct (fo_bpg _ _ Hok) as (_&Hb&_). unfold group_free.
  pose proof (sum_range (λ k, is_free bpg s (i * bpg + k + 1)) (Z.to_nat bpg) 0 1). destruct H; [|lia].
  intros x _. unfold is_free. destruct (blk_free _ _ _); lia.
Qed.

(** Blocks [b] to [b + n - 1] of group [i] have changed by [d] each. *)
Lemma account bpg s s' i b n d : fs_ok bpg s → fs_ok bpg s' → conf s' = conf s → accounted bpg s →
  i * bpg < b → 0 <= n → b + n - 1 <= (i + 1) * bpg → 0 <= i < ngroups (conf s) →
  (∀ x, is_free bpg s' x = if decide (b <= x < b + n) then is_free bpg s x + d else is_free bpg s x) →
  counted i (n * d) s s' → accounted bpg s'.
Proof.
  intros Hok Hok' Ec [Hg Ht] Hb Hn Hle Hi Hf [HC1 HC2].
  destruct (fo_bpg _ _ Hok) as (_&Hbpg&_). destruct (fo_count _ _ Hok) as [Hng Hc31].
  assert (∀ j, 0 <= j → group_free bpg s' j = if decide (i <= j < i + 1) then group_free bpg s j + n * d
    else group_free bpg s j) as Hgf.
  { intros j Hj. unfold group_free. case_decide as Ej.
    - assert (j = i) as -> by lia.
      rewrite (sum_change _ (λ k, is_free bpg s (i * bpg + k + 1)) (b - i * bpg - 1) n d);
        [rewrite Z.min_l, Z.min_l by lia; lia|lia|lia|]. intros x Hx. rewrite Hf.
      destruct (decide (b <= _ < _)), (decide (_ <= x < _)); lia || done.
    - apply sum_ext. intros x Hx. rewrite Hf. rewrite decide_False; [done|]. nia. }
  set (ng := ngroups (conf s)) in *.
  assert (sum_to (group_free bpg s') (Z.to_nat ng) = sum_to (group_free bpg s) (Z.to_nat ng) + n * d) as Hsum.
  { rewrite (sum_change _ (group_free bpg s) i 1 (n * d));
      [rewrite Z.min_l, Z.min_l by lia; lia|lia|lia|]. intros x Hx. apply Hgf. lia. }
  split; rewrite Ec.
  - intros j Hj. rewrite HC1, Hg by done. pose proof (group_free_range bpg s' j Hok') as Hr.
    rewrite Hgf in Hr |- * by lia. case_decide as Ej.
    + assert (j = i) as -> by lia. rewrite (decide_True (P := i = i)) by lia. cbn. by rewrite wrap_small by lia.
    + by rewrite decide_False by lia.
  - fold ng. rewrite HC2, Ht, Hsum. cbn. rewrite wrap_small; [done|].
    rewrite <- Hsum. pose proof (sum_range (group_free bpg s') (Z.to_nat ng) 0 bpg) as Hr.
    destruct Hr; [intros x _; by apply group_free_range|]. lia.
Qed.

(** *** The allocators as a relation *)

(** A call on the set of free blocks. A block that is freed is an allocated one. *)
Inductive alloc_step (bpg : Z) : e2fs → e2fs → Prop :=
| balloc_step s r s' : ext2_balloc s = Ret r s' → alloc_step bpg s s'
| contiguous_step n s r s' : 0 < n < 2 ^ 30 → ext2_contiguous_balloc n s = Ret r s' → alloc_step bpg s s'
| bfree_step b s s' : freeable bpg s b → blk_free bpg s b = false → ext2_bfree b s = Ret tt s' →
    alloc_step bpg s s'.

Lemma looked_accounted bpg k s s' : looked k s s' → accounted bpg s → accounted bpg s'.
Proof.
  intros HL [Hg Ht]. pose proof HL as (HK&Es&Eg&_).
  assert (∀ i, group_free bpg s' i = group_free bpg s i) as E.
  { intros i. apply sum_ext. intros x _. unfold is_free. by rewrite (looked_free _ _ _ _ _ HL). }
  split; rewrite ?Es, ?Eg, (kp_conf _ _ _ HK).
  - intros i Hi. by rewrite E, Hg.
  - rewrite Ht. f_equal. apply sum_ext. intros x _. by rewrite E.
Qed.

Lemma taken_accounted bpg k i b n s s' : fs_ok bpg s → accounted bpg s → 0 <= n → taken bpg k i b n s s' →
  (∀ x, b <= x < b + n → blk_free bpg s x = true) → accounted bpg s'.
Proof.
  intros Hok Ha Hn [T1 T2 T3 (T4a&T4b&T4c) T5 T6 T7] Hf.
  apply (account bpg s s' i b n (-1)); try done; [by destruct T2| |by replace (n * -1) with (- n) by lia].
  intros x. unfold is_free. rewrite T5. case_decide.
  - rewrite bool_decide_eq_true_2, Hf by done. done.
  - rewrite bool_decide_eq_false_2 by done. by rewrite andb_true_r.
Qed.

Lemma alloc_step_ok bpg s s' : alloc_step bpg s s' → fs_ok bpg s → readonly (conf s) = false →
  accounted bpg s → fs_ok bpg s' ∧ conf s' = conf s ∧ accounted bpg s'.
Proof.
  intros Hst Hok Hro Ha. destruct Hst as [s r s' E|n s r s' Hn E|b s s' Hfb Hu E].
  - destruct (ext2_balloc_ok bpg s Hok Hro) as (r'&s1&E'&[(_&HL&_)|(j&HT&Hf)]);
      rewrite E in E'; injection E' as <- <-.
    + split; [by eapply looked_ok|]. split; [apply HL|by eapply looked_accounted].
    + pose proof HT as [T1 [T2 _ _ _ _ _ _ _] _ _ _ _ _]. split; [done|]. split; [done|].
      eapply (taken_accounted bpg _ j r 1 s s' Hok Ha); [lia|exact HT|]. intros x Hx. by replace x with r by lia.
  - destruct (ext2_contiguous_balloc_ok bpg s n Hok Hro Hn) as (r'&s1&E'&[(_&HL&_)|(j&HT&Hf)]);
      rewrite E in E'; injection E' as <- <-.
    + split; [by eapply looked_ok|]. split; [apply HL|by eapply looked_accounted].
    + pose proof HT as [T1 [T2 _ _ _ _ _ _ _] _ _ _ _ _]. split; [done|]. split; [done|].
      eapply (taken_accounted bpg _ j r n s s' Hok Ha); [lia|exact HT|done].
  - destruct (ext2_bfree_ok bpg s b Hok Hfb) as (s1&E'&HR&_&HC). rewrite E in E'. injection E' as <-.
    destruct HR as [R1 [R2 _ _ _ _ _ _ _] Rf _]. split; [done|]. split; [done|].
    destruct Hfb as ([Hpos _]&_&Hle). destruct (fo_bpg _ _ Hok) as (_&Hbpg&_).
    pose proof (Z.div_mod (b - 1) bpg). pose proof (Z.mod_pos_bound (b - 1) bpg).
    assert (0 <= (b - 1) / bpg < ngroups (conf s)).
    { split; [apply Z.div_pos; lia|]. apply Z.div_lt_upper_bound; lia. }
    apply (account bpg s s' ((b - 1) / bpg) b 1 1); try done; try nia.
    intros x. unfold is_free. rewrite Rf. case_decide.
    + replace x with b by lia. by rewrite Hu, Z.eqb_refl.
    + rewrite (proj2 (Z.eqb_neq x b)) by lia. by rewrite orb_false_r.
Qed.

(** ** The theorem *)

(** C25: Whatever is allocated and freed, in any order, the maps stay well formed,
    and if the count of free blocks of every group was the number of clear bits
    of its map and the superblock's the sum of them, so it is afterwards. *)
Theorem allocation_accounts bpg s s' : rtc (alloc_step bpg) s s' → fs_ok bpg s → readonly (conf s) = false →
  accounted bpg s → fs_ok bpg s' ∧ accounted bpg s'.
Proof.
  induction 1 as [s|s1 s2 s3 Hst _ IH]; intros Hok Hro Ha; [done|].
  destruct (alloc_step_ok bpg s1 s2 Hst Hok Hro Ha) as (Hok2&Ec&Ha2). apply IH; [done| |done]. by rewrite Ec.
Qed.

(** The contiguous allocation returns.  Either it gives 0, there is no run of
    free longwords and nothing is taken, or it gives the first of [n] blocks that
    were free: these are allocated now, all the others are as they were.  What is
    seen of the blocks that are not bitmaps stays. *)
Theorem contiguous_run_taken bpg s n : fs_ok bpg s → readonly (conf s) = false → 0 < n < 2 ^ 30 →
  ∃ r s', ext2_contiguous_balloc n s = Ret r s' ∧ fs_ok bpg s' ∧
    (∀ p, ¬ is_bitmap s p → view (disk s') p = view (disk s) p) ∧
    ((r = 0 ∧ no_run bpg 0 n s ∧ ∀ b, blk_free bpg s' b = blk_free bpg s b) ∨
     (0 < r ∧ (∀ b, r <= b < r + n → blk_free bpg s b = true) ∧
      ∀ b, blk_free bpg s' b = blk_free bpg s b && negb (bool_decide (r <= b < r + n)))).
Proof.
  intros Hok Hro Hn. destruct (ext2_contiguous_balloc_ok bpg s n Hok Hro Hn) as (r&s'&E&[(->&HL&Hno)|(j&HT&Hf)]).
  - exists 0, s'. split; [done|]. split; [by eapply looked_ok|]. split; [intros p _; by eapply looked_view|].
    left. split; [done|]. split; [done|]. intros b. by eapply looked_free.
  - pose proof HT as [T1 _ _ (Hj1&_&Hj2) T5 T6 _]. exists r, s'. split; [done|]. split; [done|]. split; [done|].
    right. split; [|done]. destruct (fo_bpg _ _ Hok) as (_&Hb&_). nia.
Qed.
