(* ===== verification/E2File.v ===== *)
(** * Files of tools/e2lib.c: the block map, and files of contiguous blocks

    [ext2_blkno] without allocation computes [block_map], the one the loader
    computes, on what is seen through the cache.  [ext2_fill_contiguous] makes an
    inode whose blocks follow one another. *)

From Stdlib Require Import Ascii String.
From S2P Require Import Prelude CString Vsprintf Ext2Disk Ufile Bio BioFull E2lib E2Alloc.

Open Scope Z_scope.
Open Scope list_scope.

(** ** In-core inodes *)

Definition inode_of (s : e2fs) (ip : Z) : option (list Z) := inode <$> aget (inode_table s) ip.

(** The inode in slot [ip] is [b]. *)
Definition with_inode (ip : Z) (b : list Z) (s : e2fs) : e2fs :=
  set_table (alter (λ e, InodeSlot b (inumber e) (is_free e) (old_mode e)) (Z.to_nat ip) (inode_table s)) s.

Lemma inode_of_with s ip b c : inode_of s ip = Some b → inode_of (with_inode ip c s) ip = Some c.
Proof.
  intros (e&[Hi He]%aget_Some&_)%fmap_Some. unfold inode_of, aget. cbn.
  rewrite decide_True, list_lookup_alter_eq, He by done. done.
Qed.

Lemma with_inode_twice s ip b c : with_inode ip c (with_inode ip b s) = with_inode ip c s.
Proof. unfold with_inode, set_table. cbn. by rewrite list_alter_alter_eq. Qed.

Lemma with_inode_kept s ip b : kept 0 s (with_inode ip b s).
Proof. split; try done. apply lru_step_refl. Qed.

Lemma with_inode_ok bpg s ip b : fs_ok bpg s → fs_ok bpg (with_inode ip b s).
Proof. by intros []. Qed.

Lemma with_inode_realloc bpg s ip b w : fs_ok bpg s → realloc bpg 0 (blk_free bpg s) w s (with_inode ip b s).
Proof. intros Hok. split; [by apply with_inode_ok|apply with_inode_kept|done|done]. Qed.

Lemma get_slot_Ret ip s e : aget (inode_table s) ip = Some e → get_slot ip s = Ret e s.
Proof. intros E. unfold get_slot. cbn [bind gets]. by rewrite E. Qed.

Lemma put_slot_Ret ip e s : 0 <= ip < zlen (inode_table s) →
  put_slot ip e s = Ret tt (set_table (<[Z.to_nat ip := e]> (inode_table s)) s).
Proof. intros Hi. unfold put_slot. cbn [bind gets]. unfold aset. by rewrite decide_True. Qed.

Lemma set_field_ok n ip off v s b b' : inode_of s ip = Some b → put_le n b off v = Some b' →
  set_field n ip off v s = Ret tt (with_inode ip b' s).
Proof.
  intros (e&Ee&->)%fmap_Some Eb. unfold set_field. rewrite (bind_Ret _ _ _ _ _ (get_slot_Ret ip s e Ee)), Eb.
  cbn [lift_opt]. rewrite bind_ret. pose proof (aget_range _ _ _ Ee). apply aget_Some in Ee as [_ Ee].
  rewrite put_slot_Ret by done. unfold with_inode.
  do 2 f_equal. apply list_eq. intros j. destruct (decide (j = Z.to_nat ip)) as [->|Hne].
  - rewrite list_lookup_insert_eq by (by eapply lookup_lt_Some). by rewrite list_lookup_alter_eq, Ee.
  - by rewrite list_lookup_insert_ne, list_lookup_alter_ne by done.
Qed.

Lemma i_field_ok f ip s b v : inode_of s ip = Some b → f b = Some v → i_field f ip s = Ret v s.
Proof.
  intros (e&Ee&->)%fmap_Some Ev. unfold i_field. rewrite (bind_Ret _ _ _ _ _ (get_slot_Ret ip s e Ee)).
  by rewrite Ev.
Qed.

Lemma set_i_block_ok ip k v s b b' : inode_of s ip = Some b → 0 <= k < 15 → put_le 4 b (40 + 4 * k) v = Some b' →
  set_i_block ip k v s = Ret tt (with_inode ip b' s).
Proof.
  intros Hb Hk E. unfold set_i_block. rewrite (proj2 (Z.leb_le 0 k)), (proj2 (Z.ltb_lt k 15)) by lia.
  cbn [andb]. by eapply set_field_ok.
Qed.

(** An inode as read from the device. *)
Definition inode_ok (b : list Z) : Prop := Forall is_byte b ∧ zlen b = 128.

Lemma put_inode_ok n b off v b' : inode_ok b → put_le n b off v = Some b' → inode_ok b'.
Proof. intros [HF Hz] E. split; [by eapply put_le_bytes|]. by rewrite (put_le_len _ _ _ _ _ E). Qed.

Lemma inode_field b n off : inode_ok b → 0 <= off → 0 <= n → off + n <= 128 →
  ∃ v, get_le n b off = Some v ∧ 0 <= v < 256 ^ n.
Proof.
  intros [HF Hz] Ho Hn Hle. destruct (aslice_is_Some b off n) as [a Ea]; [lia..|].
  exists (le_val a). assert (get_le n b off = Some (le_val a)) as E by (unfold get_le; by rewrite Ea).
  split; [done|]. by eapply get_le_range.
Qed.

Lemma i_block_get b k : 0 <= k < 15 → i_block b k = get_u32 b (40 + 4 * k).
Proof. intros Hk. unfold i_block. by rewrite decide_True. Qed.

(** ** The block map *)

(** Every block on the way to block [k] of the file is a block of the device. *)
Definition reaches (s : e2fs) (p : Z) : Prop := p = 0 ∨ in_dev s p.

Definition path_ok (s : e2fs) (b : list Z) (k : Z) : Prop :=
  ∀ v, (12 <= k < 268 → i_block b 12 = Some v → reaches s (s32 v)) ∧
    (268 <= k → i_block b 13 = Some v → reaches s (s32 v) ∧
      ∀ w, pointer_in (view (disk s)) (s32 v) ((k - 268) / 256) = Some w → reaches s w).

Lemma reaches_kept k s s' p : kept k s s' → reaches s' p ↔ reaches s p.
Proof. intros HK. unfold reaches. by rewrite (kept_in_dev _ _ _ _ HK). Qed.

(** A pointer in a block that is read. *)
Lemma pointer_read bpg s no i : fs_ok bpg s → in_dev s no → 0 <= i < 256 →
  ∃ b v s', bread no s = Ret b s' ∧ looked 1 s s' ∧ view (disk s) no = Some b ∧ zlen b = 1024 ∧
    Forall is_byte b ∧ get_u32 b (4 * i) = Some v ∧ 0 <= v < 2 ^ 32 ∧
    pointer_in (view (disk s)) no i = Some (s32 v).
Proof.
  intros Hok Hno Hi. destruct (bread_looked bpg no s Hok Hno) as (b&s'&E&Hv&Hz&HL&_).
  pose proof (fo_bytes _ _ Hok _ _ Hv) as HF. destruct (aslice_is_Some b (4 * i) 4) as [a Ea]; [lia..|].
  assert (get_u32 b (4 * i) = Some (le_val a)) as Ew by (unfold get_le; by rewrite Ea).
  exists b, (le_val a), s'. do 6 (split; [done|]). split; [by apply (get_le_range 4 b (4 * i))|].
  unfold pointer_in. destruct Hno as [Hpos _]. rewrite (proj2 (Z.eqb_neq no 0)) by lia. by rewrite Hv, Ew.
Qed.

(** Without allocation [ext2_blkno] is the format's block map. *)
Lemma tool_blkno_ok bpg s ip b k : fs_ok bpg s → inode_of s ip = Some b → inode_ok b →
  0 <= k <= 65547 → path_ok s b k →
  ∃ r s', ext2_blkno ip k false s = Ret r s' ∧ block_map (view (disk s)) 256 b k = Some r ∧ looked 2 s s'.
Proof.
  intros Hok Hb Hbok Hk Hpath. destruct (fo_conf _ _ Hok) as [C1 C2 C3 C4 C5].
  unfold ext2_blkno, conf_of. cbn [bind gets andb]. rewrite ?C2, ?C3, ?C4. cbv zeta. unfold id. rewrite C2, C3, C4.
  unfold block_map. change (12 + 256) with 268. change (268 + 256 * 256) with 65804.
  destruct (Z.leb_spec k 11).
  - rewrite (proj2 (Z.ltb_lt k 12)) by lia. destruct (inode_field b 4 (40 + 4 * k) Hbok) as (v&Ev&_); [lia..|].
    rewrite <- i_block_get in Ev by lia. exists (s32 v), s. unfold direct_blkno.
    rewrite (bind_Ret _ _ _ _ _ (i_field_ok (λ b, i_block b k) _ _ _ _ Hb Ev)), andb_false_r, bind_ret.
    rewrite (bind_Ret _ _ _ _ _ (i_field_ok (λ b, i_block b k) _ _ _ _ Hb Ev)). rewrite Ev.
    split; [done|]. split; [done|]. eapply looked_le; [|by eapply looked_refl]. lia.
  - rewrite (proj2 (Z.ltb_ge k 12)) by lia. destruct (Z.leb_spec k 267).
    + rewrite (proj2 (Z.ltb_lt k 268)) by lia. destruct (inode_field b 4 88 Hbok) as (v&Ev&_); [lia..|].
      change 88 with (40 + 4 * 12) in Ev. rewrite <- i_block_get in Ev by lia.
      unfold ind_blkno, conf_of. cbn [bind gets]. rewrite C2.
      rewrite (bind_Ret _ _ _ _ _ (i_field_ok (λ b, i_block b EXT2_IND_BLOCK) _ _ _ _ Hb Ev)).
      rewrite andb_false_r, bind_ret, Ev. cbn [fmap option_fmap option_map].
      destruct (Z.eqb_spec (s32 v) 0) as [E0|Hne].
      { exists 0, s. split; [done|]. rewrite E0. split; [done|]. eapply looked_le; [|by eapply looked_refl]. lia. }
      destruct (Hpath v) as [[|Hin] _]; [lia|done|done|].
      destruct (pointer_read bpg s (s32 v) (k - 12) Hok Hin) as (l&w&s'&E&HL&_&_&_&Ew&_&Hp); [lia|].
      rewrite (bind_Ret _ _ _ _ _ E). change (11 + 1) with 12. rewrite Ew. cbn [lift_opt].
      rewrite bind_ret, andb_false_r. exists (s32 w), s'. split; [done|]. split; [done|].
      eapply looked_le; [|done]. lia.
    + rewrite (proj2 (Z.ltb_ge k 268)), (proj2 (Z.ltb_lt k 65804)), (proj2 (Z.leb_le k 65547)) by lia.
      destruct (inode_field b 4 92 Hbok) as (v&Ev&_); [lia..|].
      change 92 with (40 + 4 * 13) in Ev. rewrite <- i_block_get in Ev by lia.
      unfold dind_blkno, conf_of. cbn [bind gets]. rewrite C3, C5.
      rewrite (bind_Ret _ _ _ _ _ (i_field_ok (λ b, i_block b EXT2_DIND_BLOCK) _ _ _ _ Hb Ev)).
      rewrite andb_false_r, bind_ret, Ev. cbn [fmap option_fmap option_map].
      destruct (Z.eqb_spec (s32 v) 0) as [E0|Hne].
      { exists 0, s. split; [done|]. rewrite E0. split; [done|]. eapply looked_le; [|by eapply looked_refl]. lia. }
      destruct (Hpath v) as [_ Hp2]. destruct Hp2 as [[|Hin] Hp2]; [lia|done|done|].
      rewrite (proj2 (Z.eqb_neq 256 0)) by lia.
      replace (k - 12 - 256) with (k - 268) by lia. replace (k - (267 + 1)) with (k - 268) by lia.
      rewrite Z.quot_div_nonneg, Z.rem_mod_nonneg by lia.
      assert (0 <= (k - 268) / 256 < 256) as Hq by (split; [apply Z.div_pos|apply Z.div_lt_upper_bound]; lia).
      pose proof (Z.mod_pos_bound (k - 268) 256 eq_refl) as Hm.
      destruct (pointer_read bpg s (s32 v) ((k - 268) / 256) Hok Hin Hq) as (l&w&s1&E1&HL1&_&_&_&Ew&_&Hp).
      rewrite (bind_Ret _ _ _ _ _ E1), Ew. cbn [lift_opt]. rewrite bind_ret, andb_false_r, bind_ret, Hp.
      destruct (Z.eqb_spec (s32 w) 0) as [E0|Hne2].
      { exists 0, s1. split; [done|]. rewrite E0. split; [done|]. eapply looked_le; [|done]. lia. }
      destruct (Hp2 _ Hp) as [|Hin2]; [done|].
      pose proof (looked_ok _ _ _ _ HL1 Hok) as Hok1.
      destruct (pointer_read bpg s1 (s32 w) ((k - 268) mod 256) Hok1) as (l2&x&s2&E2&HL2&_&_&_&Ex&_&Hp3);
        [by rewrite (kept_in_dev _ _ _ _ (proj1 HL1))|done|].
      rewrite (bind_Ret _ _ _ _ _ E2), Ex. cbn [lift_opt]. rewrite bind_ret, andb_false_r.
      exists (s32 x), s2. split; [done|]. split.
      * rewrite <- Hp3. unfold pointer_in. by rewrite (looked_view _ _ _ _ HL1).
      * by apply (looked_trans 1 1 s s1 s2).
Qed.

(** ** A contiguous file *)

(** [b'] is [b] but for the fields between [lo] and [hi]. *)
Definition same_outside (lo hi : Z) (b b' : list Z) : Prop :=
  ∀ m o, o + m <= lo ∨ hi <= o → get_le m b' o = get_le m b o.

Lemma put_same_outside (n : nat) b off v b' lo hi : put_le n b off v = Some b' → lo <= off → off + Z.of_nat n <= hi →
  same_outside lo hi b b'.
Proof. intros E Hlo Hhi m o H. eapply get_put_le_other; [exact E|]. lia. Qed.

Lemma same_outside_trans lo hi b1 b2 b3 :
  same_outside lo hi b1 b2 → same_outside lo hi b2 b3 → same_outside lo hi b1 b3.
Proof. intros H1 H2 m o H. by rewrite H2, H1. Qed.

Lemma same_outside_le lo hi lo' hi' b b' : lo' <= lo → hi <= hi' → same_outside lo hi b b' → same_outside lo' hi' b b'.
Proof. intros ?? H m o Ho. apply H. lia. Qed.

Lemma put_le_get (n : nat) b off v b' : put_le n b off v = Some b' → 0 <= v < 256 ^ Z.of_nat n →
  get_le (Z.of_nat n) b' off = Some v.
Proof. intros E Hv. rewrite (get_put_le _ _ _ _ _ E). by rewrite Z.mod_small. Qed.

Lemma store_blocks_ok (n : nat) : ∀ i ip r k b lp s,
  inode_of s ip = Some b → inode_ok b → 0 <= i → i + Z.of_nat n <= 268 → k = Z.max 0 (i - 12) →
  0 <= r → r + 268 < 2 ^ 31 → Forall is_byte lp → zlen lp = 1024 →
  ∃ b' lp', store_blocks n ip i r k lp s = Ret lp' (with_inode ip b' s) ∧ inode_ok b' ∧
    Forall is_byte lp' ∧ zlen lp' = 1024 ∧ same_outside 40 88 b b' ∧
    (∀ j, 0 <= j < 12 → i_block b' j = if decide (i <= j < i + Z.of_nat n) then Some (r + j) else i_block b j) ∧
    (∀ j, 12 <= j → get_u32 lp' (4 * (j - 12)) =
      if decide (i <= j < i + Z.of_nat n) then Some (r + j) else get_u32 lp (4 * (j - 12))).
Proof.
  induction n as [|n IH]; intros i ip r k b lp s Hb Hbok Hi Hn Hk Hr H31 HF Hz; cbn [store_blocks].
  { exists b, lp. split.
    { destruct s as [d sb g c t m]. unfold ret, with_inode, set_table. cbn. do 2 f_equal.
      apply list_eq. intros j. rewrite list_lookup_alter. case_decide as Ej; [|done]. subst j.
      apply fmap_Some in Hb as (e&[_ He]%aget_Some&->). cbn in He. rewrite He. by destruct e. }
    do 4 (split; [done|]). split; intros j Hj; by rewrite decide_False by lia. }
  unfold EXT2_NDIR_BLOCKS. destruct (Z.ltb_spec i 12) as [Hlt|Hge].
  - destruct (put_le_is_Some 4 b (40 + 4 * i) (r + i)) as [b1 E1]; [lia|destruct Hbok; lia|].
    rewrite (bind_Ret _ _ _ _ _ (set_i_block_ok ip i (r + i) s b b1 Hb ltac:(lia) E1)).
    destruct (IH (i + 1) ip r k b1 lp (with_inode ip b1 s)) as (b2&lp2&E2&Hb2&HF2&Hz2&Hs2&Hd2&Hi2);
      [by eapply inode_of_with|by eapply put_inode_ok|lia..|done|done|].
    rewrite with_inode_twice in E2. exists b2, lp2. do 4 (split; [done|]). split.
    { eapply same_outside_trans; [|exact Hs2]. eapply put_same_outside; [exact E1|lia|lia]. }
    split.
    + intros j Hj. rewrite Hd2 by done. destruct (decide (i + 1 <= j < i + 1 + Z.of_nat n)).
      * by rewrite decide_True by lia.
      * rewrite !i_block_get by lia. destruct (decide (j = i)) as [->|Hne].
        { rewrite decide_True by lia. apply (put_le_get 4 _ _ _ _ E1). lia. }
        rewrite decide_False by lia. eapply get_put_le_other; [exact E1|]. lia.
    + intros j Hj. rewrite Hi2 by done.
      destruct (decide (i + 1 <= j < _)), (decide (i <= j < _)); lia || done.
  - destruct (put_le_is_Some 4 lp (4 * k) (r + i)) as [lp1 E1]; [lia..|]. rewrite E1. cbn [lift_opt].
    rewrite bind_ret.
    destruct (IH (i + 1) ip r (k + 1) b lp1 s) as (b2&lp2&E2&Hb2&HF2&Hz2&Hs2&Hd2&Hi2);
      [done|done|lia|lia|lia|lia|lia|by eapply put_le_bytes|by rewrite (put_le_len _ _ _ _ _ E1)|].
    exists b2, lp2. do 5 (split; [done|]). split.
    + intros j Hj. rewrite Hd2 by done.
      destruct (decide (i + 1 <= j < _)), (decide (i <= j < _)); lia || done.
    + intros j Hj. rewrite Hi2 by done. destruct (decide (i + 1 <= j < i + 1 + Z.of_nat n)).
      * by rewrite decide_True by lia.
      * destruct (decide (j = i)) as [->|Hne].
        { rewrite decide_True by lia. replace (i - 12) with k by lia. apply (put_le_get 4 _ _ _ _ E1). lia. }
        rewrite decide_False by lia. eapply get_put_le_other; [exact E1|]. lia.
Qed.

(** Blocks [r] to [r + n - 1] of the device are blocks 0 to [n - 1] of the inode,
    through the indirect block [ib] from block 12 on. *)
Definition contiguous_file (s : e2fs) (b : list Z) (r n ib : Z) : Prop :=
  (∀ j, 0 <= j < n → j < 12 → i_block b j = Some (r + j)) ∧
  (12 < n → i_block b 12 = Some ib ∧ in_dev s ib ∧
    ∃ l, view (disk s) ib = Some l ∧ ∀ j, 12 <= j < n → get_u32 l (4 * (j - 12)) = Some (r + j)).

Lemma contiguous_map s b r n ib k : contiguous_file s b r n ib → 0 <= r → r + n < 2 ^ 31 → n <= 268 → ib < 2 ^ 31 →
  0 <= k < n → block_map (view (disk s)) 256 b k = Some (r + k) ∧ path_ok s b k.
Proof.
  intros [Hd Hi] Hr H31 Hn Hib Hk. unfold block_map, path_ok. change (12 + 256) with 268.
  destruct (Z.ltb_spec k 12).
  - rewrite Hd by lia. cbn. rewrite swrap_small by lia. split; [done|]. intros v. split; intros; lia.
  - destruct Hi as (Eib&Hin&l&El&Hl); [lia|]. rewrite (proj2 (Z.ltb_lt k 268)) by lia. rewrite Eib.
    cbn [fmap option_fmap option_map]. pose proof Hin as [Hpos _]. rewrite swrap_small by lia.
    split.
    + unfold pointer_in. rewrite (proj2 (Z.eqb_neq ib 0)) by lia. rewrite El, Hl by lia. cbn.
      by rewrite swrap_small by lia.
    + intros v. split; [|intros; lia]. intros _ [= <-]. right. by rewrite swrap_small by lia.
Qed.

(** The fields a fill does not store to: all but i_size, i_blocks and the block
    numbers up to the indirect block's. *)
Definition other_fields (b b' : list Z) : Prop :=
  ∀ m o, 0 <= m → (o + m <= 4 ∨ 8 <= o) → (o + m <= 28 ∨ 32 <= o) → (o + m <= 40 ∨ 92 <= o) →
    get_le m b' o = get_le m b o.

Lemma inode_table_with s s' ip b b' : inode_table s' = inode_table (with_inode ip b s) →
  inode_table (with_inode ip b' s') = inode_table (with_inode ip b' s).
Proof. intros E. cbn. rewrite E. cbn. by rewrite list_alter_alter_eq. Qed.

Lemma inode_of_table s s' ip : inode_table s' = inode_table s → inode_of s' ip = inode_of s ip.
Proof. unfold inode_of. by intros ->. Qed.

Lemma zero_block_bytes : Forall is_byte (replicate 1024 0) ∧ zlen (replicate 1024 0) = 1024.
Proof. split; [|done]. apply Forall_replicate. done. Qed.

(** The size and the block numbers, when the blocks have been found. *)
Lemma store_file_ok bpg s ip b r n ib : fs_ok bpg s → inode_of s ip = Some b → inode_ok b →
  0 < n <= 267 → 0 < r → r + 268 < 2 ^ 31 →
  (ib = 0 ∧ n <= 12 ∨ in_dev s ib ∧ ¬ is_bitmap s ib ∧ i_block b 12 = Some ib) →
  ∃ s' b', (set_field 4 ip 4 (n * blocksize (conf s)) ;;;
      let! lp := zero_block in
      let! lp := store_blocks (Z.to_nat n) ip 0 r 0 lp in
      (if negb (ib =? 0) then bwrite ib lp else ret tt) ;;;
      ret r) s = Ret r s' ∧
    realloc bpg 1 (blk_free bpg s) (λ m, m = ib) s s' ∧
    inode_table s' = inode_table (with_inode ip b' s) ∧ inode_ok b' ∧ contiguous_file s' b' r n ib ∧
    i_size b' = Some (n * 1024) ∧ i_blocks b' = i_blocks b ∧ other_fields b b'.
Proof.
  intros Hok Hb Hbok Hn Hr H31 Hib. pose proof (fo_conf _ _ Hok) as [C1 _ _ _ _]. rewrite C1.
  destruct (put_le_is_Some 4 b 4 (n * 1024)) as [b1 E1]; [lia|destruct Hbok; lia|].
  rewrite (bind_Ret _ _ _ _ _ (set_field_ok 4 ip 4 (n * 1024) s b b1 Hb E1)).
  set (s1 := with_inode ip b1 s). unfold zero_block, conf_of. rewrite bind_bind. cbn [bind gets].
  change (conf s1) with (conf s). rewrite C1. rewrite bind_ret. change (Z.to_nat 1024) with 1024%nat.
  destruct zero_block_bytes as [HF0 Hz0].
  destruct (store_blocks_ok (Z.to_nat n) 0 ip r 0 b1 (replicate 1024 0) s1)
    as (b2&lp&E2&Hb2&HFl&Hzl&Hout&Hd&Hi); [by eapply inode_of_with|by eapply put_inode_ok|lia|lia|lia|lia|lia|done|done|].
  rewrite (bind_Ret _ _ _ _ _ E2). unfold s1. rewrite with_inode_twice. set (s2 := with_inode ip b2 s).
  rewrite Z2Nat.id in Hd, Hi by lia.
  assert (i_size b2 = Some (n * 1024) ∧ i_blocks b2 = i_blocks b ∧ other_fields b b2) as Hfields.
  { split; [|split].
    - unfold i_size. rewrite (Hout 4 4) by lia. apply (put_le_get 4 _ _ _ _ E1). lia.
    - unfold i_blocks. rewrite (Hout 4 28) by lia. eapply get_put_le_other; [exact E1|]. lia.
    - intros m o Hm H1 H2 H3. rewrite (Hout m o) by lia. eapply get_put_le_other; [exact E1|]. lia. }
  assert (∀ j, 0 <= j < n → j < 12 → i_block b2 j = Some (r + j)) as Hdir
    by (intros j Hj1 Hj2; rewrite Hd by lia; by rewrite decide_True by lia).
  pose proof (with_inode_ok bpg s ip b2 Hok : fs_ok bpg s2) as Hok2.
  destruct Hib as [[-> Hn12]|(Hin&Hnb&Eib)].
  - cbn [Z.eqb negb]. rewrite bind_ret. exists s2, b2. split; [done|]. split.
    { eapply realloc_impl; [| | |by apply (with_inode_realloc bpg s ip b2 (λ m, m = 0))]; [lia|done|done]. }
    split; [done|]. split; [done|]. split; [split; [done|lia]|]. done.
  - pose proof Hin as [Hpos _]. rewrite (proj2 (Z.eqb_neq ib 0)) by lia. cbn [negb].
    destruct (bwrite_wrote bpg ib lp s2 Hok2) as (s3&E3&HW&_); [done|done|].
    rewrite (bind_Ret _ _ _ _ _ E3). pose proof HW as (HK&_&_&Et&_&_&Ev). exists s3, b2. split; [done|].
    split.
    { apply (realloc_trans bpg 0 1 (blk_free bpg s) (blk_free bpg s2) _ s s2 s3); [lia|by apply with_inode_realloc|].
      by eapply wrote_realloc. }
    split; [done|]. split; [done|]. split; [|done]. split; [done|]. intros Hn12.
    split; [|split; [by rewrite (kept_in_dev _ _ _ _ HK)|]].
    { rewrite i_block_get in Eib |- * by lia. rewrite (Hout 4 (40 + 4 * 12)) by lia. rewrite <- Eib.
      eapply get_put_le_other; [exact E1|]. lia. }
    exists lp. rewrite Ev, decide_True by done. split; [done|]. intros j Hj. rewrite Hi by lia.
    by rewrite decide_True by lia.
Qed.

(** Freeing block 0 is an access behind the group descriptors. *)
Lemma free_block_0 bpg s : fs_ok bpg s → ext2_bfree 0 s = Trap.
Proof.
  intros Hok. destruct (fo_bpg _ _ Hok) as (Ebpg&Hb&Hmod). destruct (fo_count _ _ Hok) as [Hng Hc31].
  destruct (fo_gds _ _ Hok) as [_ Hz].
  unfold ext2_bfree. rewrite (bind_Ret (sb_field s_blocks_per_group) _ s bpg s)
    by (unfold sb_field; cbn [bind gets]; by rewrite Ebpg).
  rewrite (proj2 (Z.eqb_neq bpg 0)) by lia. change (u32 (0 - 1)) with 4294967295.
  assert (4294967295 / 8192 <= 4294967295 / bpg) as H1 by (apply Z.div_le_compat_l; lia).
  change (4294967295 / 8192) with 524287 in H1.
  assert (bg_block_bitmap (gds s) (s32 (4294967295 / bpg)) = None) as E.
  { unfold bg_block_bitmap, get_le, aslice, sizeof_gd. rewrite decide_False; [done|]. intros (Ho&_&Hle).
    assert (4294967295 / bpg <= 4294967295 / 32) as H2
      by (apply Z.div_le_compat_l; pose proof (Z.div_mod bpg 32); lia).
    change (4294967295 / 32) with 134217727 in H2. rewrite swrap_small in Hle by lia.
    pose proof (Z.mod_pos_bound 4294967295 bpg). pose proof (Z.div_mod 4294967295 bpg). nia. }
  assert (gd_field bg_block_bitmap (s32 (4294967295 / bpg)) s = Trap) as ET
    by (unfold gd_field; cbn [bind gets]; by rewrite E).
  unfold bind. by rewrite ET.
Qed.

(** What a fill has done: the data blocks, and the indirect block beyond eleven
    of them, were free and are not. *)
Definition fill_free (bpg : Z) (s : e2fs) (r n ib : Z) (x : Z) : bool :=
  blk_free bpg s x && negb (bool_decide (r <= x < r + n)) && negb ((11 <? n) && (x =? ib)).

Record filled (bpg : Z) (s : e2fs) (ip : Z) (b : list Z) (n r ib : Z) (b' : list Z) (s' : e2fs) : Prop := {
  fl_realloc : realloc bpg (2 * ngroups (conf s) + 3) (fill_free bpg s r n ib) (λ m, m = ib) s s';
  fl_inode : inode_table s' = inode_table (with_inode ip b' s);
  fl_ok : inode_ok b';
  fl_start : 0 < r;
  fl_was_free : ∀ x, r <= x < r + n → blk_free bpg s x = true;
  fl_indirect : if 11 <? n then blk_free bpg s ib = true ∧ ¬ r <= ib < r + n else ib = 0;
  fl_map : contiguous_file s' b' r n ib;
  fl_size : i_size b' = Some (n * 1024);
  fl_blocks : i_blocks b' = Some (2 * (n + if 11 <? n then 1 else 0));
  fl_other : other_fields b b'
}.

Lemma taken_end bpg k j r n s s' : fs_ok bpg s → taken bpg k j r n s s' → 0 < r ∧ r + n < 2 ^ 31.
Proof.
  intros Hok [_ _ _ (H1&H2&H3) _ _ _]. destruct (fo_bpg _ _ Hok) as (_&Hb&_).
  destruct (fo_count _ _ Hok) as [_ Hc]. nia.
Qed.

(** The end of a fill: [s2] is the state in which the blocks have been found, and
    [b2] the inode there. *)
Lemma fill_end bpg s ip b n r ib s2 b2 k : fs_ok bpg s → fs_ok bpg s2 → inode_of s2 ip = Some b2 → inode_ok b2 →
  0 < n <= 267 → 0 < r → r + 268 < 2 ^ 31 → 0 <= k → k + 1 <= 2 * ngroups (conf s) + 3 →
  realloc bpg k (fill_free bpg s r n ib) (λ m, m = ib) s s2 → conf s2 = conf s →
  inode_table s2 = inode_table (with_inode ip b2 s) → (∀ x, r <= x < r + n → blk_free bpg s x = true) →
  (if 11 <? n then (blk_free bpg s ib = true ∧ ¬ r <= ib < r + n) ∧ i_block b2 12 = Some ib else ib = 0) →
  i_blocks b2 = Some (2 * (n + if 11 <? n then 1 else 0)) → other_fields b b2 →
  ∃ s' b', (set_field 4 ip 4 (n * blocksize (conf s)) ;;;
      let! lp := zero_block in
      let! lp := store_blocks (Z.to_nat n) ip 0 r 0 lp in
      (if negb (ib =? 0) then bwrite ib lp else ret tt) ;;;
      ret r) s2 = Ret r s' ∧ filled bpg s ip b n r ib b' s'.
Proof.
  intros Hok Hok2 Hb2 Hbok2 Hn Hr H31 Hk Hk2 HR Ec Et Hfree Hib Hblk Hoth. pose proof HR as [_ HK _ _].
  destruct (store_file_ok bpg s2 ip b2 r n ib Hok2 Hb2 Hbok2 Hn Hr H31) as (s'&b'&E&HR'&Et'&Hbok'&Hc&Hsz&Hbl&Ho).
  { destruct (Z.ltb_spec 11 n); [right|left; lia]. destruct Hib as [[Hf Hnr] Ei].
    apply (fo_free bpg s Hok) in Hf as [Hin Hnb].
    by rewrite (kept_in_dev _ _ _ _ HK), (kept_bitmap _ _ _ _ HK). }
  rewrite Ec in E. exists s', b'. split; [done|]. split; try done.
  - apply (realloc_impl bpg (k + 1) _ (blk_free bpg s2) _ (λ m, m = ib)); [lia|apply (ra_free _ _ _ _ _ _ HR)|done|].
    by eapply realloc_trans.
  - rewrite Et'. by apply inode_table_with with b2.
  - destruct (11 <? n); [by destruct Hib|done].
  - by rewrite Hbl.
  - intros m o H0 H1 H2 H3. rewrite Ho by done. by apply Hoth.
Qed.

Lemma ext2_fill_contiguous_ok bpg s ip b n : fs_ok bpg s → readonly (conf s) = false →
  inode_of s ip = Some b → inode_ok b → 0 < n <= 267 → ngroups (conf s) * bpg + 268 < 2 ^ 31 →
  (∃ s', ext2_fill_contiguous ip n s = Ret (-1) s' ∧ looked (ngroups (conf s)) s s' ∧ no_run bpg 0 n s) ∨
  (11 < n ∧ ext2_fill_contiguous ip n s = Trap ∧
   ∃ j r s1, taken bpg (ngroups (conf s) + 1) j r n s s1 ∧ exhausted bpg 0 s1) ∨
  (∃ r ib b' s', ext2_fill_contiguous ip n s = Ret r s' ∧ filled bpg s ip b n r ib b' s').
Proof.
  intros Hok Hro Hb Hbok Hn H31. destruct (fo_conf _ _ Hok) as [C1 C2 C3 _ _].
  destruct (fo_count _ _ Hok) as [Hng _].
  unfold ext2_fill_contiguous. rewrite (bind_Ret (conf_of id) _ s (conf s) s eq_refl).
  rewrite C3, (proj2 (Z.ltb_ge 267 n)) by lia.
  destruct (ext2_contiguous_balloc_ok bpg s n Hok Hro) as (r&s1&E1&[(->&HL&Hno)|(j&HT&Hf)]); [lia|..].
  { left. rewrite (bind_Ret _ _ _ _ _ E1). cbn [Z.eqb].
    edestruct (say_looked bpg) as (s2&E2&HL2); [by eapply looked_ok|]. rewrite (bind_Ret _ _ _ _ _ E2).
    exists s2. split; [done|]. split; [|done]. rewrite <- (Z.add_0_r (ngroups _)). by eapply looked_trans. }
  right. rewrite (bind_Ret _ _ _ _ _ E1). pose proof HT as [Hok1 HK1 Et1 (Hj1&Hj2&Hj3) Hfr1 Hv1 HC1].
  destruct (taken_end _ _ _ _ _ _ _ Hok HT) as [Hr0 Hr1]. rewrite (proj2 (Z.eqb_neq r 0)) by lia.
  assert (r + 268 < 2 ^ 31) as Hr2 by nia.
  assert (inode_of s1 ip = Some b) as Hb1 by (by rewrite (inode_of_table s s1)).
  rewrite C1. change (Z.quot 1024 512) with 2.
  destruct (put_le_is_Some 4 b 28 (n * 2)) as [b1 Eb1]; [lia|destruct Hbok; lia|].
  rewrite (bind_Ret _ _ _ _ _ (set_field_ok 4 ip 28 (n * 2) s1 b b1 Hb1 Eb1)).
  pose proof (put_inode_ok _ _ _ _ _ Hbok Eb1) as Hbok1.
  assert (i_blocks b1 = Some (n * 2)) as Ebl1 by (apply (put_le_get 4 _ _ _ _ Eb1); lia).
  set (s2 := with_inode ip b1 s1). pose proof (with_inode_ok bpg s1 ip b1 Hok1 : fs_ok bpg s2) as Hok2.
  assert (inode_of s2 ip = Some b1) as Hb2 by (by eapply inode_of_with).
  assert (inode_table s2 = inode_table (with_inode ip b1 s)) as Et2 by (cbn; by rewrite Et1).
  assert (other_fields b b1) as Ho1 by (intros m o _ _ H _; eapply get_put_le_other; [exact Eb1|]; lia).
  assert (∀ w, realloc bpg (ngroups (conf s) + 1)
    (λ x, blk_free bpg s x && negb (bool_decide (r <= x < r + n))) w s s2) as HR2.
  { intros w. replace (ngroups (conf s) + 1) with (ngroups (conf s) + 1 + 0) by lia.
    apply (realloc_trans bpg _ 0 (λ x, blk_free bpg s x && negb (bool_decide (r <= x < r + n))) _ w s s1 s2);
      [done|by eapply taken_realloc|].
    apply (realloc_impl bpg 0 0 (blk_free bpg s1) _ w w); [done|exact Hfr1|done|by apply with_inode_realloc]. }
  rewrite C2. destruct (Z.ltb_spec 11 n) as [Hbig|Hsmall].
  2: { right. rewrite bind_ret. cbv beta match. rewrite <- C1.
       destruct (fill_end bpg s ip b n r 0 s2 b1 (ngroups (conf s) + 1)) as (s'&b'&E&HF); try done.
       - lia.
       - lia.
       - eapply realloc_impl; [| | |exact (HR2 (λ m, m = 0))]; [done| |done].
         intros x. unfold fill_free. rewrite (proj2 (Z.ltb_ge 11 n)) by lia. by rewrite andb_true_r.
       - exact (kp_conf _ _ _ HK1).
       - by rewrite (proj2 (Z.ltb_ge 11 n)) by lia.
       - rewrite Ebl1, (proj2 (Z.ltb_ge 11 n)) by lia. f_equal. lia.
       - exists r, 0, b', s'. split; [exact E|done]. }
  pose proof (kp_conf _ _ _ HK1) as Ec1.
  destruct (ext2_balloc_ok bpg s2 Hok2) as (ib&s3&E3&HB); [by rewrite <- Hro, <- Ec1|].
  rewrite bind_bind, (bind_Ret _ _ _ _ _ E3). change (conf s2) with (conf s1) in HB. rewrite Ec1 in HB.
  destruct HB as [(->&HL3&Hex)|(j2&HT3&Hf3)].
  { left. split; [done|]. split; [|by exists j, r, s1]. cbn [Z.eqb].
    edestruct (say_looked bpg) as (s4&E4&HL4); [by eapply looked_ok|].
    rewrite bind_bind, (bind_Ret _ _ _ _ _ E4), bind_bind. replace (Z.to_nat n) with (S (Z.to_nat (n - 1))) by lia.
    cbn [free_numbers]. rewrite bind_bind. unfold bind at 1.
    by rewrite (free_block_0 bpg) by (eapply looked_ok; [exact HL4|]; by eapply looked_ok). }
  right. pose proof HT3 as [Hok3 HK3 Et3 Hj' Hfr3 Hv3 HC3].
  destruct (taken_end _ _ _ _ _ _ _ Hok2 HT3) as [Hib0 Hib1]. rewrite (proj2 (Z.eqb_neq ib 0)) by lia.
  assert (inode_of s3 ip = Some b1) as Hb3 by (by rewrite (inode_of_table s2 s3)).
  assert (blk_free bpg s ib = true ∧ ¬ r <= ib < r + n) as Hib.
  { rewrite (ra_free _ _ _ _ _ _ (HR2 (λ _, False))) in Hf3. apply andb_true_iff in Hf3 as [? Hn3].
    split; [done|]. by apply negb_true_iff, bool_decide_eq_false in Hn3. }
  unfold count_block, conf_of. rewrite !bind_bind. cbn [bind gets].
  rewrite (kp_conf _ _ _ HK3). change (conf s2) with (conf s1). rewrite Ec1, C1. change (Z.quot 1024 512) with 2.
  unfold add_i_blocks. rewrite bind_bind, (bind_Ret _ _ _ _ _ (i_field_ok i_blocks ip s3 b1 _ Hb3 Ebl1)).
  destruct (put_le_is_Some 4 b1 28 (n * 2 + 2)) as [b2 Eb2]; [lia|destruct Hbok1; lia|].
  rewrite (bind_Ret _ _ _ _ _ (set_field_ok 4 ip 28 (n * 2 + 2) s3 b1 b2 Hb3 Eb2)).
  pose proof (put_inode_ok _ _ _ _ _ Hbok1 Eb2) as Hbok2.
  pose proof (inode_of_with s3 ip b1 b2 Hb3) as Hb4.
  destruct (put_le_is_Some 4 b2 (40 + 4 * 12) ib) as [b3 Eb3]; [lia|destruct Hbok2; lia|].
  rewrite bind_bind, (bind_Ret _ _ _ _ _ (set_i_block_ok ip EXT2_IND_BLOCK ib _ b2 b3 Hb4 ltac:(done) Eb3)).
  rewrite with_inode_twice, bind_ret. cbv beta match. rewrite <- C1.
  pose proof (put_inode_ok _ _ _ _ _ Hbok2 Eb3) as Hbok3. set (s5 := with_inode ip b3 s3).
  destruct (fill_end bpg s ip b n r ib s5 b3 (ngroups (conf s) + 1 + (ngroups (conf s) + 1))) as (s'&b'&E&HF); try done.
  - by apply with_inode_ok.
  - by eapply inode_of_with.
  - lia.
  - lia.
  - apply (realloc_trans bpg _ _ (λ x, blk_free bpg s x && negb (bool_decide (r <= x < r + n))) _ _ s s2 s5);
      [lia|apply HR2|]. replace (ngroups (conf s) + 1) with (ngroups (conf s) + 1 + 0) by lia.
    apply (realloc_trans bpg _ 0 (λ x, blk_free bpg s2 x && negb (bool_decide (ib <= x < ib + 1))) _ _ s2 s3 s5);
      [done| |].
    + eapply taken_realloc. exact HT3.
    + apply (realloc_impl bpg 0 0 (blk_free bpg s3) _ (λ m, m = ib) (λ m, m = ib)); [done| |done|by apply with_inode_realloc].
      intros x. rewrite Hfr3, (ra_free _ _ _ _ _ _ (HR2 (λ _, False))). unfold fill_free.
      rewrite (proj2 (Z.ltb_lt 11 n)) by lia. cbn [andb]. do 2 f_equal.
      destruct (Z.eqb_spec x ib); [apply bool_decide_eq_true_2|apply bool_decide_eq_false_2]; lia.
  - cbn. rewrite (kp_conf _ _ _ HK3). done.
  - cbn. rewrite Et3. cbn. by rewrite Et1, list_alter_alter_eq.
  - rewrite (proj2 (Z.ltb_lt 11 n)) by lia. split; [done|]. rewrite i_block_get by lia.
    apply (put_le_get 4 _ _ _ _ Eb3). lia.
  - unfold i_blocks. rewrite (get_put_le_other _ _ _ _ _ 4 28 Eb3) by lia.
    transitivity (Some (n * 2 + 2)); [apply (put_le_get 4 _ _ _ _ Eb2); lia|].
    rewrite (proj2 (Z.ltb_lt 11 n)) by lia. f_equal. lia.
  - intros m o H0 H1 H2 H3. rewrite (get_put_le_other _ _ _ _ _ m o Eb3), (get_put_le_other _ _ _ _ _ m o Eb2) by lia.
    by apply Ho1.
  - exists r, ib, b', s'. split; [exact E|done].
Qed.

(** ** Theorems *)

(** [ext2_bread] returns what the cache shows of the block that the format's
    block map gives, zeros for a hole, and changes nothing that is seen. *)
Theorem bread_reads_block bpg s ip b k : fs_ok bpg s → inode_of s ip = Some b → inode_ok b →
  0 <= k <= 65547 → path_ok s b k → (∀ p, block_map (view (disk s)) 256 b k = Some p → p = 0 ∨ in_dev s p) →
  ∃ d p s', ext2_bread ip k s = Ret d s' ∧ block_map (view (disk s)) 256 b k = Some p ∧
    (if p =? 0 then d = replicate 1024 0 else view (disk s) p = Some d) ∧
    (∀ m, view (disk s') m = view (disk s) m) ∧ inode_table s' = inode_table s.
Proof.
  intros Hok Hb Hbok Hk Hp Hin. destruct (tool_blkno_ok bpg s ip b k Hok Hb Hbok Hk Hp) as (p&s1&E1&Em&HL1).
  pose proof (looked_ok _ _ _ _ HL1 Hok) as Hok1. pose proof HL1 as (HK1&_&_&Et1&_).
  unfold ext2_bread. rewrite (bind_Ret _ _ _ _ _ E1). destruct (Z.eqb_spec p 0) as [->|Hne].
  - exists (replicate 1024 0), 0, s1. unfold zero_block, conf_of. cbn [bind gets].
    destruct (fo_conf _ _ Hok1) as [-> _ _ _ _]. split; [done|]. split; [done|]. split; [done|]. split; [|done].
    intros m. by eapply looked_view.
  - destruct (Hin p Em) as [|Hd]; [done|].
    destruct (bread_looked bpg p s1 Hok1) as (d&s2&E2&Hv&_&HL2&_); [by rewrite (kept_in_dev _ _ _ _ HK1)|].
    exists d, p, s2. split; [done|]. split; [done|]. rewrite (proj2 (Z.eqb_neq p 0)) by done.
    rewrite (looked_view _ _ _ _ HL1) in Hv. split; [done|]. pose proof HL2 as (_&_&_&Et2&_). split; [|congruence].
    intros m. by rewrite (looked_view _ _ _ _ HL2), (looked_view _ _ _ _ HL1).
Qed.

(** A file of more than eleven blocks needs an indirect block: when the run of
    data blocks takes the last free ones, the release of the run frees block
    numbers 0, 1, ... instead, and block 0 leads to an access outside the group
    descriptors. *)
Theorem fill_without_indirect bpg s ip b n r s1 : fs_ok bpg s → readonly (conf s) = false →
  inode_of s ip = Some b → inode_ok b → 11 < n <= 267 →
  ext2_contiguous_balloc n s = Ret r s1 → 0 < r → (∀ x, blk_free bpg s x = true → r <= x < r + n) →
  ext2_fill_contiguous ip n s = Trap.
Proof.
  intros Hok Hro Hb Hbok Hn E1 Hr Hall. destruct (fo_conf _ _ Hok) as [C1 C2 C3 _ _].
  destruct (ext2_contiguous_balloc_ok bpg s n Hok Hro) as (r'&s1'&E1'&[(->&_)|(j&HT&_)]); [lia|..];
    rewrite E1 in E1'; [injection E1' as ? _; lia|injection E1' as <- <-]. pose proof HT as [Hok1 HK1 Et1 _ Hfr1 _ _].
  unfold ext2_fill_contiguous. rewrite (bind_Ret (conf_of id) _ s (conf s) s eq_refl).
  rewrite C3, (proj2 (Z.ltb_ge 267 n)) by lia. rewrite (bind_Ret _ _ _ _ _ E1), (proj2 (Z.eqb_neq r 0)) by lia.
  rewrite C2, (proj2 (Z.ltb_lt 11 n)) by lia.
  destruct (put_le_is_Some 4 b 28 (n * Z.quot (blocksize (conf s)) 512)) as [b1 Eb1]; [lia|destruct Hbok; lia|].
  assert (inode_of s1 ip = Some b) as Hb1 by (by rewrite (inode_of_table s s1)).
  rewrite (bind_Ret _ _ _ _ _ (set_field_ok 4 ip 28 _ s1 b b1 Hb1 Eb1)).
  set (s2 := with_inode ip b1 s1). pose proof (with_inode_ok bpg s1 ip b1 Hok1 : fs_ok bpg s2) as Hok2.
  destruct (ext2_balloc_ok bpg s2 Hok2) as (ib&s3&E3&[(->&HL&_)|(i&_&Hf)]);
    [change (conf s2) with (conf s1); by rewrite (kp_conf _ _ _ HK1)|..].
  2: { change (blk_free bpg s2 ib) with (blk_free bpg s1 ib) in Hf. rewrite Hfr1 in Hf.
       apply andb_true_iff in Hf as [Hf Hne]. apply Hall in Hf. by rewrite bool_decide_eq_true_2 in Hne. }
  rewrite bind_bind, (bind_Ret _ _ _ _ _ E3). cbn [Z.eqb]. pose proof (looked_ok _ _ _ _ HL Hok2) as Hok3.
  edestruct (say_looked bpg) as (s4&E4&HL4); [exact Hok3|].
  rewrite bind_bind, (bind_Ret _ _ _ _ _ E4), bind_bind. replace (Z.to_nat n) with (S (Z.to_nat (n - 1))) by lia.
  cbn [free_numbers]. rewrite bind_bind. unfold bind at 1. by rewrite (free_block_0 bpg) by (by eapply looked_ok).
Qed.
