(* ===== verification/E2Boot.v ===== *)
(** * The boot file of tools/e2writeboot.c on the device

    From the allocation to the close: the boot block points at the blocks of the
    file, which lie next to each other and hold the image. *)

From Stdlib Require Import Ascii String.
From S2P Require Import Prelude CString Vsprintf Ext2Disk Ufile Bio BioFull E2lib E2writeboot E2Alloc E2File.

Open Scope Z_scope.
Open Scope list_scope.

(** ** Writing the image *)

(** A block that is there already is not allocated. *)
Lemma ext2_blkno_there ip k s r s' : readonly (conf s) = false →
  ext2_blkno ip k false s = Ret r s' → r ≠ 0 → ext2_blkno ip k true s = Ret r s'.
Proof.
  intros Hro. unfold ext2_blkno. rewrite !(bind_Ret (conf_of id) _ s (conf s) s eq_refl). cbn [andb]. rewrite Hro.
  assert (∀ v : Z, v =? 0 = true → s32 v = 0) as H0 by (by intros v ->%Z.eqb_eq).
  destruct (k <=? directlim (conf s)); [|destruct (k <=? ind1lim (conf s)); [|destruct (k <=? ind2lim (conf s)); [|done]]];
    intros E Hr; rewrite <- E.
  - unfold direct_blkno in *. apply bind_inv in E as (v&s1&E1&E). rewrite !(bind_Ret _ _ _ _ _ E1).
    rewrite andb_false_r, bind_ret in E. rewrite andb_false_r, andb_true_r, bind_ret.
    destruct (v =? 0) eqn:E0; [|by rewrite bind_ret].
    assert (s1 = s) as -> by (revert E1; unfold i_field, get_slot; cbn [bind gets];
      intros (?&?&(?&?&[= <- <-]&[_ ->]%lift_opt_Ret)%bind_inv&[_ ->]%lift_opt_Ret)%bind_inv; done).
    rewrite (bind_Ret _ _ _ _ _ E1) in E. injection E as <- _. by rewrite H0 in Hr.
  - unfold ind_blkno in *. unfold conf_of in *. cbn [bind gets] in *. apply bind_inv in E as (v&s1&E1&E).
    rewrite !(bind_Ret _ _ _ _ _ E1). rewrite andb_false_r, bind_ret in E. rewrite andb_false_r, andb_true_r, bind_ret.
    destruct (v =? 0) eqn:E0; [rewrite (H0 _ E0) in E; injection E as <- _; done|]. rewrite bind_ret.
    destruct (s32 v =? 0); [done|]. apply bind_inv in E as (l&s2&E2&E). rewrite !(bind_Ret _ _ _ _ _ E2).
    apply bind_inv in E as (w&s3&E3&E). rewrite !(bind_Ret _ _ _ _ _ E3). rewrite andb_false_r in *. rewrite andb_true_r.
    destruct (w =? 0) eqn:E4; [|done]. injection E as <- _. by rewrite H0 in Hr.
  - unfold dind_blkno in *. unfold conf_of in *. cbn [bind gets] in *. apply bind_inv in E as (v&s1&E1&E).
    rewrite !(bind_Ret _ _ _ _ _ E1). rewrite andb_false_r, bind_ret in E. rewrite andb_false_r, andb_true_r, bind_ret.
    destruct (v =? 0) eqn:E0; [rewrite (H0 _ E0) in E; injection E as <- _; done|]. rewrite bind_ret.
    destruct (s32 v =? 0); [done|]. destruct (ptrs_per_blk (conf s) =? 0); [done|].
    apply bind_inv in E as (l&s2&E2&E). rewrite !(bind_Ret _ _ _ _ _ E2).
    apply bind_inv in E as (w&s3&E3&E). rewrite !(bind_Ret _ _ _ _ _ E3). rewrite andb_false_r, bind_ret in *.
    rewrite andb_true_r. destruct (w =? 0) eqn:E4; [rewrite (H0 _ E4) in E; injection E as <- _; done|].
    rewrite bind_ret. destruct (s32 w =? 0); [done|].
    apply bind_inv in E as (l2&s4&E5&E). rewrite !(bind_Ret _ _ _ _ _ E5).
    apply bind_inv in E as (x&s5&E6&E). rewrite !(bind_Ret _ _ _ _ _ E6). rewrite andb_false_r in *. rewrite andb_true_r.
    destruct (x =? 0) eqn:E7; [|done]. injection E as <- _. by rewrite H0 in Hr.
Qed.

Lemma contiguous_file_same s s' b r n ib : contiguous_file s b r n ib →
  (in_dev s ib → in_dev s' ib) → view (disk s') ib = view (disk s) ib → contiguous_file s' b r n ib.
Proof.
  intros [Hd Hi] Hin Hv. split; [done|]. intros Hn. destruct (Hi Hn) as (?&?&l&El&?).
  split; [done|]. split; [by apply Hin|]. exists l. by rewrite Hv.
Qed.

(** The data blocks are ordinary blocks of the device, not the indirect block. *)
Definition data_blocks (s : e2fs) (r n ib : Z) : Prop :=
  0 < r ∧ r + n < 2 ^ 31 ∧ (ib < 2 ^ 31 ∧ ¬ is_bitmap s ib) ∧
  ∀ x, r <= x < r + n → in_dev s x ∧ ¬ is_bitmap s x ∧ x ≠ ib.

Lemma data_blocks_kept k s s' r n ib : kept k s s' → data_blocks s r n ib → data_blocks s' r n ib.
Proof.
  intros HK (?&?&[? ?]&Hx). rewrite <- (kept_bitmap _ _ _ ib HK) in *. do 3 (split; [done|]). intros x Hin.
  rewrite (kept_in_dev _ _ _ _ HK), (kept_bitmap _ _ _ _ HK). by apply Hx.
Qed.

(** In core after the calls from [s] to [s'], unless every buffer is in use. *)
Definition in_core (k : Z) (s s' : e2fs) (lo hi : Z) : Prop :=
  lru (disk s) → bio_counter (disk s) + k < 2 ^ 31 → full (disk s') ∨ ∀ x, lo <= x < hi → has (disk s') x.

(** A block of the file that is there is written. *)
Lemma ext2_bwrite_ok bpg ip b k p d s : fs_ok bpg s → readonly (conf s) = false →
  inode_of s ip = Some b → inode_ok b → 0 <= k <= 65547 → path_ok s b k →
  block_map (view (disk s)) 256 b k = Some p → in_dev s p → ¬ is_bitmap s p → Forall is_byte d → zlen d = 1024 →
  ∃ s', ext2_bwrite ip k d s = Ret tt s' ∧ realloc bpg 3 (blk_free bpg s) (λ m, m = p) s s' ∧
    inode_table s' = inode_table s ∧ view (disk s') p = Some d ∧ has (disk s') p.
Proof.
  intros Hok Hro Hb Hbok Hk Hp Hm Hin Hnb HF Hz. pose proof Hin as [Hpos _].
  destruct (tool_blkno_ok bpg s ip b k Hok Hb Hbok) as (r'&s1&E1&Hm'&HL); [lia|done|].
  rewrite Hm in Hm'. injection Hm' as <-.
  unfold ext2_bwrite. rewrite (bind_Ret (conf_of id) _ s (conf s) s eq_refl), Hro.
  rewrite (bind_Ret _ _ _ _ _ (ext2_blkno_there ip k s _ s1 Hro E1 ltac:(lia))).
  rewrite (proj2 (Z.eqb_neq p 0)) by lia.
  pose proof (looked_ok _ _ _ _ HL Hok) as Hok1. pose proof HL as (HK1&_&_&Et1&_).
  destruct (bwrite_wrote bpg p d s1 Hok1) as (s2&E2&HW&Hh); [by rewrite (kept_in_dev _ _ _ _ HK1)|done|].
  pose proof HW as (_&_&_&Et2&_&_&Ev). exists s2. split; [done|]. split.
  - apply (realloc_trans bpg 2 1 (blk_free bpg s) _ _ s s1 s2); [done|by eapply looked_realloc|].
    apply (realloc_impl bpg 1 1 (blk_free bpg s1) _ (λ m, m = p) (λ m, m = p));
      [done|intros x; by eapply looked_free|done|].
    eapply wrote_realloc; [exact Hok1|exact HW|done| |done]. by rewrite (kept_bitmap _ _ _ _ HK1).
  - split; [congruence|]. split; [|done]. rewrite Ev. by rewrite decide_True.
Qed.

Lemma write_block_ok bpg ip b r n ib k d s : fs_ok bpg s → readonly (conf s) = false →
  inode_of s ip = Some b → inode_ok b → contiguous_file s b r n ib → data_blocks s r n ib →
  0 <= k < n → n <= 267 → Forall is_byte d → zlen d = 1024 →
  ∃ s', ext2_bwrite ip k d s = Ret tt s' ∧ realloc bpg 3 (blk_free bpg s) (λ m, m = r + k) s s' ∧
    inode_table s' = inode_table s ∧ view (disk s') (r + k) = Some d ∧ has (disk s') (r + k).
Proof.
  intros Hok Hro Hb Hbok Hc (Hr&H31&[Hib Hibm]&Hx) Hk Hn HF Hz.
  destruct (contiguous_map s b r n ib k Hc) as [Hm Hp]; [lia..|].
  destruct (Hx (r + k)) as (Hin&Hnb&_); [lia|]. eapply ext2_bwrite_ok; try done. lia.
Qed.

Lemma write_image_ok bpg ip b r n ib buf : n <= 267 → Forall is_byte buf → zlen buf = n * 1024 → inode_ok b →
  ∀ (m : nat) fuel k s, k = n - Z.of_nat m → 0 <= k → (m <= fuel)%nat →
  fs_ok bpg s → readonly (conf s) = false → inode_of s ip = Some b →
  contiguous_file s b r n ib → data_blocks s r n ib →
  ∃ s', write_image fuel ip k (Z.of_nat m * 1024) buf s = Ret tt s' ∧
    realloc bpg (3 * Z.of_nat m) (blk_free bpg s) (λ x, r + k <= x < r + n) s s' ∧
    inode_table s' = inode_table s ∧
    (∀ j, k <= j < n → view (disk s') (r + j) = aslice buf (j * 1024) 1024) ∧
    in_core (3 * Z.of_nat m) s s' (r + k) (r + n).
Proof.
  intros Hn HF Hz Hbok m. induction m as [|m IH]; intros fuel k s Ek Hk Hfuel Hok Hro Hb Hc Hdb.
  { exists s. split; [by destruct fuel|]. split.
    { eapply looked_realloc; [done|by eapply looked_refl]. }
    split; [done|]. split; [lia|]. intros _ _. right. lia. }
  destruct fuel as [|fuel]; [lia|]. cbn [write_image].
  rewrite (proj2 (Z.leb_gt (Z.of_nat (S m) * 1024) 0)) by lia.
  unfold conf_of. cbn [bind gets]. destruct (fo_conf _ _ Hok) as [C1 _ _ _ _]. rewrite C1.
  rewrite (swrap_small 32) by lia.
  destruct (aslice_is_Some buf (k * 1024) 1024) as [d Ed]; [lia..|]. rewrite Ed. cbn [lift_opt]. rewrite bind_ret.
  assert (Forall is_byte d ∧ zlen d = 1024) as [HFd Hzd].
  { split; [|by eapply aslice_len]. apply aslice_Some in Ed as (_&_&_&->). by apply Forall_take, Forall_drop. }
  destruct (write_block_ok bpg ip b r n ib k d s) as (s1&E1&HR1&Et1&Hv1&Hh1); try done; [lia|].
  rewrite (bind_Ret _ _ _ _ _ E1). pose proof HR1 as [Hok1 HK1 Hf1 Hw1].
  replace (Z.of_nat (S m) * 1024 - 1024) with (Z.of_nat m * 1024) by lia.
  pose proof Hdb as (Hr&H31&[Hib Hibm]&Hx).
  assert (contiguous_file s1 b r n ib) as Hc1.
  { eapply contiguous_file_same; [done|by rewrite (kept_in_dev _ _ _ _ HK1)|].
    apply Hw1; [done|]. intros E. destruct (Hx (r + k)) as (_&_&?); [lia|congruence]. }
  destruct (IH fuel (k + 1) s1) as (s2&E2&HR2&Et2&Hv2&Hc2); try done; try lia.
  - by rewrite (kp_conf _ _ _ HK1).
  - by rewrite (inode_of_table s s1).
  - by eapply data_blocks_kept.
  - pose proof HR2 as [Hok2 HK2 Hf2 Hw2]. exists s2. split; [done|]. split; [|split; [congruence|split]].
    + replace (3 * Z.of_nat (S m)) with (3 + 3 * Z.of_nat m) by lia.
      apply (realloc_trans bpg 3 (3 * Z.of_nat m) (blk_free bpg s) (blk_free bpg s) _ s s1 s2); [lia| |].
      * apply (realloc_impl bpg 3 3 (blk_free bpg s) _ (λ m, m = r + k)); [done|done|intros x ->; lia|done].
      * apply (realloc_impl bpg (3 * Z.of_nat m) (3 * Z.of_nat m) (blk_free bpg s1) _ (λ x, r + (k + 1) <= x < r + n));
          [lia|done|intros x; lia|done].
    + intros j Hj. destruct (decide (j = k)) as [->|Hne]; [|apply Hv2; lia].
      rewrite Ed, <- Hv1. apply Hw2; [|lia]. rewrite (kept_bitmap _ _ _ _ HK1). apply Hx. lia.
    + intros Hl H31'. destruct (kp_lru _ _ _ HK1) as (_&_&Hs1). destruct Hs1 as (Hl1&Hc1'&_); [done|lia|].
      destruct (kp_lru _ _ _ HK2) as (_&_&Hs2). destruct Hs2 as (_&_&Hmono); [done|lia|].
      destruct Hc2 as [Hfull|Hall]; [done|lia|by left|]. destruct Hmono as [?|Hmono]; [by left|right].
      intros x Hin. destruct (decide (x = r + k)) as [->|]; [by apply Hmono|]. apply Hall. lia.
Qed.

(** ** Putting the inode back *)

Lemma sb_field_inv f s v s' : sb_field f s = Ret v s' → f (sb s) = Some v ∧ s' = s.
Proof. unfold sb_field. cbn [bind gets]. by intros [? ->]%lift_opt_Ret. Qed.

Lemma sb_field_Ret f s v : f (sb s) = Some v → sb_field f s = Ret v s.
Proof. intros E. unfold sb_field. cbn [bind gets]. by rewrite E. Qed.

Lemma gd_field_inv f i s v s' : gd_field f i s = Ret v s' → f (gds s) i = Some v ∧ s' = s.
Proof. unfold gd_field. cbn [bind gets]. by intros [? ->]%lift_opt_Ret. Qed.

Lemma gd_field_Ret f i s v : f (gds s) i = Some v → gd_field f i s = Ret v s.
Proof. intros E. unfold gd_field. cbn [bind gets]. by rewrite E. Qed.

Lemma inode_place_kept k s s' ino p : kept k s s' → inode_place ino s = Ret p s → inode_place ino s' = Ret p s'.
Proof.
  intros HK. unfold inode_place. intros (ipg&s1&[E1 ->]%sb_field_inv&E)%bind_inv.
  rewrite <- (kp_ipg _ _ _ HK) in E1. rewrite (bind_Ret _ _ _ _ _ (sb_field_Ret _ _ _ E1)).
  unfold conf_of in *. cbn [bind gets] in *. rewrite (kp_conf _ _ _ HK). destruct (_ || _); [done|].
  apply bind_inv in E as (t&s1&[Et ->]%gd_field_inv&E). rewrite <- (kp_itables _ _ _ HK) in Et.
  rewrite (bind_Ret _ _ _ _ _ (gd_field_Ret _ _ _ _ Et)). by injection E as <-.
Qed.

Lemma set_table_kept t s : kept 0 s (set_table t s).
Proof. split; try done. apply lru_step_refl. Qed.

Lemma set_table_ok bpg t s : fs_ok bpg s → fs_ok bpg (set_table t s).
Proof. by intros []. Qed.

Lemma set_table_realloc bpg t s w : fs_ok bpg s → realloc bpg 0 (blk_free bpg s) w s (set_table t s).
Proof. intros Hok. split; [by apply set_table_ok|apply set_table_kept|done|done]. Qed.

Lemma asplice_bytes l off b l' : Forall is_byte l → Forall is_byte b → asplice l off b = Some l' → Forall is_byte l'.
Proof.
  intros Hl Hb. unfold asplice. case_decide; [|done]. intros [= <-].
  rewrite !Forall_app. split; [by apply Forall_take|]. split; [done|by apply Forall_drop].
Qed.

Lemma ext2_iput_ok bpg ip e links mode g blk off s : fs_ok bpg s → readonly (conf s) = false →
  aget (inode_table s) ip = Some e → inode_ok (inode e) → i_links_count (inode e) = Some links → links ≠ 0 →
  i_mode (inode e) = Some mode → S_ISDIR mode = false → S_ISDIR (old_mode e) = false →
  inode_place (inumber e) s = Ret (g, blk, off) s → in_dev s blk → ¬ is_bitmap s blk →
  0 <= off → off + 128 <= 1024 →
  ∃ s' l l', ext2_iput ip s = Ret tt s' ∧ realloc bpg 2 (blk_free bpg s) (λ m, m = blk) s s' ∧
    view (disk s) blk = Some l ∧ asplice l off (inode e) = Some l' ∧ view (disk s') blk = Some l'.
Proof.
  intros Hok Hro He [HF Hz] El Hl0 Em Hd1 Hd2 Hplace Hin Hnb Hoff Hoff2.
  unfold ext2_iput. rewrite (bind_Ret _ _ _ _ _ (get_slot_Ret ip s e He)), El. cbn [lift_opt]. rewrite bind_ret.
  rewrite (proj2 (Z.eqb_neq links 0)) by done. rewrite bind_ret.
  pose proof (aget_range _ _ _ He) as Hip. rewrite (bind_Ret _ _ _ _ _ (put_slot_Ret ip _ s Hip)).
  set (s1 := set_table _ s). pose proof (set_table_kept _ s : kept 0 s s1) as HK1.
  pose proof (set_table_ok bpg _ s Hok : fs_ok bpg s1) as Hok1.
  unfold conf_of. cbn [bind gets]. change (conf s1) with (conf s). rewrite Hro.
  rewrite !bind_bind, (bind_Ret _ _ _ _ _ (inode_place_kept _ _ _ _ _ HK1 Hplace)).
  rewrite bind_bind, Em. cbn [lift_opt]. rewrite bind_ret, bind_bind.
  destruct (in_dev_valid bpg s1 blk Hok1) as [_ Hs32]; [done|].
  destruct (bread_looked bpg blk s1 Hok1) as (l&s2&E2&Hv&Hzl&HL2&_); [done|].
  rewrite (bind_Ret _ _ _ _ _ E2), bind_bind.
  destruct (asplice l off (inode e)) as [l'|] eqn:Es.
  2: { unfold asplice in Es. rewrite decide_True in Es by lia. done. }
  cbn [lift_opt]. rewrite bind_ret, bind_bind. pose proof (looked_ok _ _ _ _ HL2 Hok1) as Hok2.
  assert (zlen l' = 1024) as Hzl' by (apply asplice_len in Es; unfold zlen in *; lia).
  assert (Forall is_byte l') as HFl' by (eapply asplice_bytes; [exact (fo_bytes _ _ Hok1 _ _ Hv)|exact HF|exact Es]).
  destruct (bwrite_wrote bpg blk l' s2 Hok2) as (s3&E3&HW&_);
    [by rewrite (kept_in_dev _ _ _ _ (proj1 HL2))|done|].
  rewrite (bind_Ret _ _ _ _ _ E3), Hd1, Hd2. cbn [andb negb]. rewrite bind_bind, bind_ret, bind_ret.
  pose proof HW as (_&_&_&Et3&_&_&Ev3). pose proof HL2 as (HK2&_&_&Et2&_).
  rewrite put_slot_Ret by (rewrite Et3, Et2; cbn; unfold zlen; by rewrite length_insert).
  eexists _, l, l'. split; [done|]. split; [|split; [done|split; [done|]]].
  - apply (realloc_trans bpg 0 2 (blk_free bpg s) (blk_free bpg s) _ s s1); [done|by apply set_table_realloc|].
    apply (realloc_trans bpg 1 1 (blk_free bpg s1) (blk_free bpg s) _ s1 s2); [done|by eapply looked_realloc|].
    apply (realloc_trans bpg 1 0 (blk_free bpg s) (blk_free bpg s) _ s2 s3); [done| |].
    + apply (realloc_impl bpg 1 1 (blk_free bpg s2) _ (λ m, m = blk)); [done|intros x; by rewrite (looked_free _ _ _ _ _ HL2)|done|].
      eapply wrote_realloc; [exact Hok2|exact HW|done| |done]. by rewrite (kept_bitmap _ _ _ _ HK2).
    + pose proof (wrote_data_ok bpg _ _ _ _ _ HW HFl') as Hok3.
      eapply realloc_impl; [| | |eapply set_table_realloc; apply Hok3]; [done| |done|by rewrite (kept_bitmap _ _ _ _ HK2)|done].
      intros x. rewrite (wrote_free _ _ _ _ _ _ _ HW), (looked_free _ _ _ _ _ HL2); [done|].
      by rewrite (kept_bitmap _ _ _ _ HK2).
  - cbn. rewrite Ev3. by rewrite decide_True.
Qed.

(** ** Closing *)

(** A dirty buffer has the memory of a block of the file, and no other dirty
    buffer has its number. *)
Definition flushable (l : list bio_buf) (f : ufile) : Prop :=
  (∀ i b, l !! i = Some b → dirty b = true →
     ∃ d, data b = Some d ∧ zlen d = 1024 ∧ 0 <= blkno b ∧ (blkno b + 1) * 1024 <= zlen (contents f)) ∧
  (∀ i j b c, l !! i = Some b → l !! j = Some c → dirty b = true → dirty c = true → blkno b = blkno c → i = j).

Definition file_at (f : ufile) (p : Z) : option (list Z) := aslice (contents f) (p * 1024) 1024.

(** What block [p] of the file is to become: [v]. *)
Definition pending (l : list bio_buf) (f : ufile) (p : Z) (v : list Z) : Prop :=
  (∃ i b, l !! i = Some b ∧ dirty b = true ∧ blkno b = p ∧ data b = Some v) ∨
  ((∀ i b, l !! i = Some b → dirty b = true → blkno b ≠ p) ∧ file_at f p = Some v).

Lemma flush_all_pending l : ∀ f, flushable l f → zlen (contents f) < 2 ^ 31 →
  ∃ l' f', flush_all 1024 l f = Some (l', f') ∧ zlen (contents f') = zlen (contents f) ∧
    (∀ i b, l' !! i = Some b → dirty b = false) ∧ ∀ p v, pending l f p v → file_at f' p = Some v.
Proof.
  induction l as [|b l IH]; intros f [Hd Hu] H31.
  { exists [], f. split; [done|]. split; [done|]. split; [done|]. by intros p v [(?&?&?&_)|[_ ?]]. }
  assert (∀ i c, l !! i = Some c → dirty c = true →
     ∃ d, data c = Some d ∧ zlen d = 1024 ∧ 0 <= blkno c ∧ (blkno c + 1) * 1024 <= zlen (contents f)) as Hdl
    by (intros i c; apply (Hd (S i))).
  assert (∀ i j c e, l !! i = Some c → l !! j = Some e → dirty c = true → dirty e = true →
    blkno c = blkno e → i = j) as Hul.
  { intros i j c e Hi Hj H1 H2 E. pose proof (Hu (S i) (S j) c e Hi Hj H1 H2 E). lia. }
  cbn [flush_all]. destruct (dirty b) eqn:Eb.
  - destruct (Hd 0%nat b eq_refl Eb) as (d&Ed&Hz&H0&Hfit). pose proof (zlen_nonneg (contents f)).
    destruct (f_write_in d (contents f) (blkno b * 1024)) as (c'&Ec&Ew); [lia|lia|].
    unfold write_out. rewrite Ed, (swrap_small 32) by lia. unfold f_lseek. rewrite (proj2 (Z.leb_le 0 _)) by lia.
    rewrite take_ge by (unfold zlen in Hz; lia). rewrite Ew.
    assert (zlen c' = zlen (contents f)) as Hzc by (apply asplice_len in Ec; unfold zlen; by rewrite Ec).
    destruct (IH (UFile c' (blkno b * 1024 + zlen d))) as (l'&f'&->&Hz'&Hcl&Hp); [split; [|done]|cbn; lia|].
    { cbn. rewrite Hzc. exact Hdl. }
    eexists _, f'. split; [done|]. split; [by rewrite Hz'|]. split.
    { intros [|i] x; [by intros [= <-]|by apply Hcl]. }
    intros p v [([|i]&x&Hi&Hx1&Hx2&Hx3)|[Hno Hf]]; apply Hp.
    + injection Hi as <-. right. split.
      * intros j c Hj Hc E. pose proof (Hu 0%nat (S j) b c eq_refl Hj Eb Hc ltac:(congruence)). lia.
      * unfold file_at. cbn. subst p. rewrite <- Hz at 1 2. rewrite <- Hx3, Ed. rewrite Hz in *.
        rewrite <- Hz at 2. by eapply aslice_asplice_same.
    + left. by exists i, x.
    + right. split; [intros j c Hj; by apply (Hno (S j))|]. unfold file_at in *. cbn. rewrite <- Hf.
      eapply aslice_asplice_other; [exact Ec|]. pose proof (Hno 0%nat b eq_refl Eb). rewrite Hz. lia.
  - destruct (IH f) as (l'&f'&->&Hz'&Hcl&Hp); [done|done|]. exists (b :: l'), f'. split; [done|].
    split; [done|]. split; [intros [|i] x; [by intros [= <-]|by apply Hcl]|].
    intros p v [([|i]&x&Hi&Hx1&Hx2&Hx3)|[Hno Hf]]; apply Hp.
    + injection Hi as <-. congruence.
    + left. by exists i, x.
    + right. split; [intros j c Hj; by apply (Hno (S j))|done].
Qed.

Lemma bio_pending d : bio_ok d → bio_blocksize d = 1024 →
  flushable (buflist d) (bio_file d) ∧ ∀ p v, view d p = Some v → pending (buflist d) (bio_file d) p v.
Proof.
  intros Hok Hbs. split; [split|].
  - intros i b Hi Hb. destruct (data b) as [x|] eqn:Ex.
    + destruct (ok_used d Hok i b x Hi Ex) as (?&?&?&_). rewrite Hbs in *. by exists x.
    + destruct (ok_unused d Hok i b Hi Ex). congruence.
  - intros i j b c Hi Hj Hb Hc E. eapply (ok_unique d Hok); [done|done|done|].
    destruct (data b) eqn:Ex; [by eexists|]. destruct (ok_unused d Hok i b Hi Ex). congruence.
  - intros p v Hv. unfold view in Hv. destruct (cached (buflist d) p) as [b|] eqn:Ec.
    + apply (cached_spec d p b Hok) in Ec as (i&Hi&Hp&_). destruct (dirty b) eqn:Eb; [left; by exists i, b|].
      right. destruct (ok_used d Hok i b v Hi Hv) as (_&_&_&Hf). split.
      * intros j c Hj Hcd E. rewrite (ok_unique d Hok i j b c) in Hi by (done || congruence || by eexists). congruence.
      * unfold file_at. rewrite <- Hp, <- Hf by done. unfold file_block. by rewrite Hbs.
    + right. split.
      * intros j c Hj Hcd E. rewrite cached_None in Ec. apply (Ec j c Hj E).
        destruct (data c) eqn:Ex; [by eexists|]. destruct (ok_unused d Hok j c Hj Ex). congruence.
      * unfold file_at. unfold file_block in Hv. by rewrite Hbs in Hv.
Qed.

(** Block [p] is in none of the places [ext2_close] writes to: a superblock and
    the group descriptors at the start of every group. *)
Definition no_copy (ng bpg p : Z) : Prop :=
  ∀ i, 0 <= i < ng → p < i * bpg + 1 ∨ (i * bpg + 2) * 1024 + 32 * ng <= p * 1024.

Lemma file_write_ok b f : 0 <= pos f → pos f + zlen b <= zlen (contents f) →
  pos (f_write b f) = pos f + zlen b ∧ zlen (contents (f_write b f)) = zlen (contents f) ∧
  ∀ p, (p + 1) * 1024 <= pos f ∨ pos f + zlen b <= p * 1024 → file_at (f_write b f) p = file_at f p.
Proof.
  destruct f as [c o]. cbn [pos contents]. intros Ho Hle. destruct (f_write_in b c o) as (c'&Ec&->); [done..|].
  split; [done|]. split; [apply asplice_len in Ec; cbn; unfold zlen; by rewrite Ec|].
  intros p Hp. unfold file_at. cbn. eapply aslice_asplice_other; [exact Ec|]. lia.
Qed.

Lemma pending_file l f f' p v : file_at f' p = file_at f p → pending l f p v → pending l f' p v.
Proof. intros E [H|[H1 H2]]; [by left|right]. split; [done|]. by rewrite E. Qed.

Lemma flushable_file l f f' : zlen (contents f') = zlen (contents f) → flushable l f → flushable l f'.
Proof. intros E [H1 H2]. split; [|done]. by rewrite E. Qed.

(** The writes for one group. *)
Lemma close_group_ok off s : 0 <= off → zlen (sb s) = 1024 →
  off + 1024 + zlen (gds s) <= zlen (contents (bio_file (disk s))) →
  let f' := f_write (gds s) (f_write (sb s) (f_lseek off (bio_file (disk s)))) in
  zlen (contents f') = zlen (contents (bio_file (disk s))) ∧
  ∀ p, (p + 1) * 1024 <= off ∨ off + 1024 + zlen (gds s) <= p * 1024 →
    file_at f' p = file_at (bio_file (disk s)) p.
Proof.
  intros Ho Hz Hle. pose proof (zlen_nonneg (gds s)). unfold f_lseek. rewrite (proj2 (Z.leb_le 0 off)) by done.
  destruct (file_write_ok (sb s) (UFile (contents (bio_file (disk s))) off)) as (P1&Z1&H1); [done|cbn; lia|].
  destruct (file_write_ok (gds s) (f_write (sb s) (UFile (contents (bio_file (disk s))) off))) as (P2&Z2&H2);
    [rewrite P1; cbn; lia|rewrite P1, Z1; cbn; lia|]. cbn [pos contents] in *.
  split; [congruence|]. intros p Hp. rewrite H2 by (rewrite P1; lia). rewrite H1 by lia. done.
Qed.

Lemma bflush_pending d : bio_blocksize d = 1024 → flushable (buflist d) (bio_file d) →
  zlen (contents (bio_file d)) < 2 ^ 31 →
  ∃ l f, bflush d = Ret tt (set_bufs l (set_file f d)) ∧ zlen (contents f) = zlen (contents (bio_file d)) ∧
    (∀ i b, l !! i = Some b → dirty b = false) ∧
    ∀ p v, pending (buflist d) (bio_file d) p v → file_at f p = Some v.
Proof.
  intros Hbs Hfl H31. destruct (flush_all_pending (buflist d) (bio_file d) Hfl H31) as (l&f&E&Hz&Hcl&Hp).
  exists l, f. split; [|done]. unfold bflush. rewrite (bind_Ret (gets id) _ d d d eq_refl). unfold id.
  by rewrite Hbs, E.
Qed.

Lemma on_file_bind {A} g (k : unit → E2 A) s :
  bind (on_file g) k s = k tt (set_disk (set_file (g (bio_file (disk s))) (disk s)) s).
Proof. done. Qed.

Lemma close_groups_ok bpg (n : nat) : ∀ i s, 0 <= i → i + Z.of_nat n = ngroups (conf s) →
  blocksize (conf s) = 1024 → bio_blocksize (disk s) = 1024 → s_blocks_per_group (sb s) = Some bpg →
  0 < bpg <= 8192 → zlen (sb s) = 1024 → zlen (gds s) = 32 * ngroups (conf s) →
  zlen (contents (bio_file (disk s))) < 2 ^ 31 →
  ((ngroups (conf s) - 1) * bpg + 2) * 1024 + 32 * ngroups (conf s) <= zlen (contents (bio_file (disk s))) →
  flushable (buflist (disk s)) (bio_file (disk s)) →
  ∃ s', close_groups n i s = Ret tt s' ∧
    ∀ p v, no_copy (ngroups (conf s)) bpg p → pending (buflist (disk s)) (bio_file (disk s)) p v →
      (0 < n)%nat → file_at (bio_file (disk s')) p = Some v.
Proof.
  induction n as [|n IH]; intros i s Hi Hn Hbs Hdb Ebpg Hbpg Hsb Hgds H31 Hfit Hfl.
  { exists s. split; [done|]. intros; lia. }
  cbn [close_groups]. rewrite (bind_Ret _ _ _ _ _ (sb_field_Ret _ _ _ Ebpg)). unfold conf_of. cbn [bind gets].
  rewrite Hbs. set (ng := ngroups (conf s)) in *. set (f0 := bio_file (disk s)) in *.
  assert (0 <= i * bpg <= (ng - 1) * bpg) as Hib by nia. set (q := i * bpg) in *.
  rewrite (swrap_small 32 eq_refl bpg) by lia. fold q. rewrite (swrap_small 32 eq_refl q) by lia.
  rewrite (swrap_small 32 eq_refl (q + 1)), (swrap_small 32 eq_refl ((q + 1) * 1024)) by lia.
  destruct (close_group_ok ((q + 1) * 1024) s) as [Hz1 Hsame]; [lia|done|fold f0; lia|]. fold f0 in Hz1, Hsame.
  rewrite !on_file_bind. cbn [set_disk set_file disk bio_file]. fold f0.
  set (f1 := f_write (gds s) (f_write (sb s) (f_lseek ((q + 1) * 1024) f0))) in *.
  set (s1 := set_disk (set_file f1 (disk s)) s).
  match goal with |- context [bind (on_disk bflush) ?k ?t] => change t with s1 end.
  destruct (bflush_pending (disk s1)) as (l&f&E&Hz&Hcl&Hp); [done|by apply (flushable_file _ f0)|change (zlen (contents f1) < 2 ^ 31); lia|].
  change (bio_file (disk s1)) with f1 in *. change (buflist (disk s1)) with (buflist (disk s)) in *.
  set (s2 := set_disk (set_bufs l (set_file f (disk s1))) s1).
  assert (on_disk bflush s1 = Ret tt s2) as Eb by (unfold on_disk; by rewrite E).
  rewrite (bind_Ret _ _ _ _ _ Eb). rewrite Hz1 in Hz.
  destruct (IH (i + 1) s2) as (s3&E3&Hp3); try done; try (cbn; lia).
  { split; intros; exfalso; [assert (dirty b = false) by (by eapply Hcl); congruence|
      assert (dirty b = false) by (by eapply Hcl); congruence]. }
  exists s3. split; [exact E3|]. intros p v Hno Hpd _.
  assert (file_at f p = Some v) as Hf.
  { apply Hp. apply (pending_file _ f0); [|done]. apply Hsame. rewrite Hgds. fold ng.
    destruct (Hno i) as [|]; [lia|left|right]; unfold q in *; lia. }
  destruct n as [|n]; [by injection E3 as <-|]. apply Hp3; [done| |lia]. right. split; [|done].
  intros j b Hj Hb. assert (dirty b = false) by (by eapply Hcl). congruence.
Qed.

(** After the close the file holds what was seen through the cache. *)
Lemma ext2_close_ok bpg s : fs_ok bpg s → readonly (conf s) = false → 0 < ngroups (conf s) →
  ((ngroups (conf s) - 1) * bpg + 2) * 1024 + 32 * ngroups (conf s) <= zlen (contents (bio_file (disk s))) →
  ∃ s', ext2_close s = Ret tt s' ∧
    ∀ p v, no_copy (ngroups (conf s)) bpg p → view (disk s) p = Some v → file_at (bio_file (disk s')) p = Some v.
Proof.
  intros Hok Hro Hng Hfit. destruct (bio_pending (disk s) (fo_bio _ _ Hok) (fo_size _ _ Hok)) as [Hfl Hp].
  destruct (close_groups_ok bpg (Z.to_nat (ngroups (conf s))) 0 s) as (s'&E&Hp'); try apply Hok; try lia; try done.
  exists s'. unfold ext2_close, conf_of. cbn [bind gets]. unfold id. rewrite Hro. split; [exact E|].
  intros p v Hno Hv. apply (Hp' p v); [done|by apply Hp|lia].
Qed.

(** ** The boot block *)

(** The sum of the first [n] quadwords. *)
Fixpoint quad_sum (n : nat) (b : list Z) : Z :=
  match n with
  | O => 0
  | S n => quad_sum n b + default 0 (get_u64 b (8 * Z.of_nat n))
  end.

Lemma quad_sum_S n b : quad_sum (S n) b = quad_sum n b + default 0 (get_u64 b (8 * Z.of_nat n)).
Proof. done. Qed.

Lemma sum_quads_ok b (n : nat) : ∀ i c, 0 <= i → 8 * (i + Z.of_nat n) <= zlen b → c = u64 (quad_sum (Z.to_nat i) b) →
  sum_quads n b i c = Some (u64 (quad_sum (Z.to_nat i + n) b)).
Proof.
  induction n as [|n IH]; intros i c Hi Hz Hc; cbn [sum_quads].
  { by rewrite Nat.add_0_r, Hc. }
  destruct (aslice_is_Some b (8 * i) 8) as [a Ea]; [lia..|].
  assert (get_u64 b (8 * i) = Some (le_val a)) as Ew by (unfold get_le; by rewrite Ea).
  rewrite Ew, IH; [|lia|lia|].
  - do 3 f_equal. lia.
  - replace (Z.to_nat (i + 1)) with (S (Z.to_nat i)) by lia. cbn [quad_sum].
    rewrite Z2Nat.id, Ew by lia. cbn. rewrite Hc. by rewrite wrap_add_l.
Qed.

Lemma quad_sum_ext b b' (n : nat) : (∀ i, (i < n)%nat → get_u64 b (8 * Z.of_nat i) = get_u64 b' (8 * Z.of_nat i)) →
  quad_sum n b = quad_sum n b'.
Proof. induction n as [|n IH]; intros H; cbn; [done|]. rewrite IH, H by auto with lia. done. Qed.

Lemma boot_block_ok r n : 0 < r → 0 < n → (r + n) * 1024 < 2 ^ 31 →
  ∃ bb, boot_block 1024 r (n * 1024) = Some bb ∧ zlen bb = 1024 ∧ Forall is_byte bb ∧
    get_u64 bb 480 = Some (n * 2) ∧ get_u64 bb 488 = Some (r * 2) ∧ get_u64 bb 496 = Some 0 ∧
    get_u64 bb 504 = Some (u64 (quad_sum 63 bb)).
Proof.
  intros Hr Hn H31. unfold boot_block, boot_fields. change (1024 <? 1024) with false. cbv iota.
  rewrite (swrap_small 32) by lia. unfold CONSOLE_BLOCK_SIZE. rewrite !Z.quot_div_nonneg by lia.
  replace (n * 1024) with (n * 2 * 512) by lia. replace (r * 1024) with (r * 2 * 512) by lia.
  rewrite !Z.div_mul by lia. change (Z.to_nat (512 / 8)) with 64%nat.
  destruct (put_le_is_Some 8 (replicate 1024 0) 480 (n * 2)) as [b1 E1]; [done..|]. rewrite E1.
  pose proof (put_le_len _ _ _ _ _ E1) as Z1. change (zlen (replicate 1024 0)) with 1024 in Z1.
  destruct (put_le_is_Some 8 b1 488 (r * 2)) as [b2 E2]; [lia..|]. rewrite E2.
  pose proof (put_le_len _ _ _ _ _ E2) as Z2.
  destruct (put_le_is_Some 8 b2 496 0) as [b3 E3]; [lia..|]. rewrite E3.
  pose proof (put_le_len _ _ _ _ _ E3) as Z3.
  rewrite (sum_quads_ok b3 64 0 0) by (done || lia).
  destruct (put_le_is_Some 8 b3 504 (u64 (quad_sum (Z.to_nat 0 + 64) b3))) as [b4 E4]; [lia..|]. rewrite E4.
  pose proof (put_le_len _ _ _ _ _ E4) as Z4. exists b4.
  split; [replace 1024 with (zlen b4) by lia; apply aslice_all|]. split; [lia|].
  destruct zero_block_bytes as [HF0 _]. split.
  { eapply put_le_bytes; [|exact E4]. eapply put_le_bytes; [|exact E3]. eapply put_le_bytes; [|exact E2].
    by eapply put_le_bytes. }
  split; [|split; [|split]].
  - rewrite (get_put_le_other _ _ _ _ _ 8 480 E4), (get_put_le_other _ _ _ _ _ 8 480 E3),
      (get_put_le_other _ _ _ _ _ 8 480 E2) by lia. apply (put_le_get 8 _ _ _ _ E1). lia.
  - rewrite (get_put_le_other _ _ _ _ _ 8 488 E4), (get_put_le_other _ _ _ _ _ 8 488 E3) by lia.
    apply (put_le_get 8 _ _ _ _ E2). lia.
  - rewrite (get_put_le_other _ _ _ _ _ 8 496 E4) by lia. apply (put_le_get 8 _ _ _ _ E3). lia.
  - transitivity (Some (u64 (quad_sum (Z.to_nat 0 + 64) b3))).
    { apply (put_le_get 8 _ _ _ _ E4). apply wrap_range. lia. }
    do 2 f_equal. change (Z.to_nat 0 + 64)%nat with (S 63). rewrite quad_sum_S.
    (* the last quadword was zero when the sum was made *)
    rewrite (get_put_le_other _ _ _ _ _ 8 (8 * Z.of_nat 63) E3), (get_put_le_other _ _ _ _ _ 8 (8 * Z.of_nat 63) E2),
      (get_put_le_other _ _ _ _ _ 8 (8 * Z.of_nat 63) E1) by lia.
    change (default 0 (get_u64 (replicate 1024 0) (8 * Z.of_nat 63))) with 0. rewrite Z.add_0_r.
    apply quad_sum_ext. intros i Hi. symmetry.
    eapply get_put_le_other; [exact E4|]. lia.
Qed.

(** Blocks that follow one another make one slice. *)
Lemma blocks_join (c buf : list Z) r (n : nat) : 0 <= r → zlen buf = Z.of_nat n * 1024 →
  (∀ j, 0 <= j < Z.of_nat n → aslice c ((r + j) * 1024) 1024 = aslice buf (j * 1024) 1024) → (0 < n)%nat →
  aslice c (r * 1024) (Z.of_nat n * 1024) = Some buf.
Proof.
  intros Hr Hz H Hn. assert (∀ m : nat, (0 < m <= n)%nat →
    ∃ a, aslice c (r * 1024) (Z.of_nat m * 1024) = Some a ∧ aslice buf 0 (Z.of_nat m * 1024) = Some a) as HI.
  { induction m as [|m IH]; intros Hm; [lia|]. destruct (aslice_is_Some buf (Z.of_nat m * 1024) 1024) as [d Ed]; [lia..|].
    pose proof (H (Z.of_nat m) ltac:(lia)) as Hj. rewrite Ed in Hj.
    destruct (decide (m = 0%nat)) as [->|].
    - exists d. rewrite Z.mul_0_l, Z.add_0_r in *. by replace (Z.of_nat 1 * 1024) with 1024 by lia.
    - destruct IH as (a&Ea&Eb); [lia|]. exists (a ++ d).
      replace (Z.of_nat (S m) * 1024) with (Z.of_nat m * 1024 + 1024) by lia. split.
      + apply aslice_join; [done|]. by replace (r * 1024 + Z.of_nat m * 1024) with ((r + Z.of_nat m) * 1024) by lia.
      + by apply aslice_join. }
  destruct (HI n) as (a&Ea&Eb); [lia|]. rewrite <- Hz in Eb. rewrite aslice_all in Eb. by injection Eb as <-.
Qed.

(** The blocks of a contiguous file, on any contents of the device. *)
Lemma contiguous_on (rd : Z → option (list Z)) s b b' r n ib : contiguous_file s b r n ib →
  (∀ k, 0 <= k < 13 → i_block b' k = i_block b k) → (12 < n → rd ib = view (disk s) ib) →
  0 <= r → r + n < 2 ^ 31 → n <= 267 → ib < 2 ^ 31 →
  ∀ k, 0 <= k < n → block_map rd 256 b' k = Some (r + k).
Proof.
  intros [Hd Hi] Hb Hrd Hr H31 Hn Hib k Hk. unfold block_map. change (12 + 256) with 268.
  destruct (Z.ltb_spec k 12).
  - rewrite Hb, Hd by lia. cbn. by rewrite swrap_small by lia.
  - destruct Hi as (Eib&[Hpos _]&l&El&Hl); [lia|]. rewrite (proj2 (Z.ltb_lt k 268)) by lia. rewrite Hb, Eib by lia.
    cbn [fmap option_fmap option_map]. rewrite swrap_small by lia. unfold pointer_in.
    rewrite (proj2 (Z.eqb_neq ib 0)) by lia. rewrite Hrd, El, Hl by lia. cbn. by rewrite swrap_small by lia.
Qed.

(** ** From the allocation to the close *)

(** The file system is in order, the boot file's inode [e] is in slot [ip], a
    regular file's that is kept in block [blk] at [off]; no free block lies where
    copies of the superblock and of the group descriptors are written. *)
Record boot_ready (bpg : Z) (s : e2fs) (ip : Z) (e : inode_slot) (blk off : Z) : Prop := {
  br_ok : fs_ok bpg s;
  br_rw : readonly (conf s) = false;
  br_slot : aget (inode_table s) ip = Some e;
  br_inode : inode_ok (inode e);
  br_links : ∃ links, i_links_count (inode e) = Some links ∧ links ≠ 0;
  br_mode : ∃ mode, i_mode (inode e) = Some mode ∧ S_ISDIR mode = false ∧ S_ISDIR (old_mode e) = false;
  br_place : ∃ g, inode_place (inumber e) s = Ret (g, blk, off) s;
  br_off : 0 <= off ∧ off + 128 <= 1024;
  br_blk : in_dev s blk ∧ ¬ is_bitmap s blk ∧ blk_free bpg s blk = false ∧ no_copy (ngroups (conf s)) bpg blk;
  br_free : ∀ b, blk_free bpg s b = true → no_copy (ngroups (conf s)) bpg b;
  br_fit : ((ngroups (conf s) - 1) * bpg + 2) * 1024 + 32 * ngroups (conf s) <= zlen (contents (bio_file (disk s)));
  br_lru : lru (disk s)
}.

(** The state behind the fill: where the blocks are, and what the rest keeps. *)
Lemma filled_blocks bpg s ip b n r ib b' s' : fs_ok bpg s → filled bpg s ip b n r ib b' s' → 0 < n <= 267 →
  data_blocks s' r n ib ∧ (r + n) * 1024 < 2 ^ 31 ∧
  (∀ x, blk_free bpg s x = false → x ≠ 0 → x ≠ ib ∧ ¬ r <= x < r + n).
Proof.
  intros Hok [[Hok' HK' Hf' Hw'] _ _ Hr Hfree Hib _ _ _ _] Hn. pose proof (ok_file _ (fo_bio _ _ Hok)) as H31.
  assert (∀ x, r <= x < r + n → in_dev s x ∧ ¬ is_bitmap s x) as Hin by (intros x Hx; by apply (fo_free _ _ Hok), Hfree).
  assert ((r + n) * 1024 < 2 ^ 31) as Hend.
  { destruct (Hin (r + n - 1)) as [[_ Hd] _]; [lia|]. lia. }
  assert (ib < 2 ^ 31 ∧ ¬ is_bitmap s ib ∧ ¬ r <= ib < r + n) as (Hib31&Hibm&Hibr).
  { destruct (11 <? n).
    - destruct Hib as [Hf Hnr]. apply (fo_free _ _ Hok) in Hf as [[? ?] ?]. split; [lia|done].
    - subst ib. split; [lia|]. split; [|lia]. intros [? _]%(fo_maps _ _ Hok). lia. }
  split; [|split; [done|]].
  - split; [done|]. split; [lia|]. split; [by rewrite (kept_bitmap _ _ _ _ HK')|]. intros x Hx.
    rewrite (kept_in_dev _ _ _ _ HK'), (kept_bitmap _ _ _ _ HK'). destruct (Hin x Hx). split; [done|].
    split; [done|]. by intros ->.
  - intros x Hx Hx0. split; [|intros Hxr; by rewrite Hfree in Hx]. intros ->.
    destruct (11 <? n); [|done]. destruct Hib as [Hib _]. congruence.
Qed.

Lemma bwrite_0_wrote bpg b s : fs_ok bpg s → full (disk s) → 1024 <= zlen (contents (bio_file (disk s))) →
  zlen b = 1024 → ∃ s', bwrite 0 b s = Ret tt s' ∧ wrote 1 0 b s s'.
Proof.
  intros Hok Hfull Hfit Hz. destruct (bwrite_keeps 0 b (disk s) (fo_bio _ _ Hok)) as (d&E&Hb&Ebs&Hs&Hvw&Hl&Hh).
  { split; [done|]. rewrite (fo_size _ _ Hok). split; [lia|done]. }
  { by rewrite (fo_size _ _ Hok). }
  exists (set_disk d s). unfold bwrite, on_disk. change (s32 0) with 0. rewrite E. split; [done|].
  by split; [split|].
Qed.

(** Every buffer is in use when the image has been written. *)
Lemma image_fills bpg s s1 s2 k1 k2 r n : fs_ok bpg s → lru (disk s) → 0 <= k2 → 0 <= n →
  bio_counter (disk s) + k1 + k2 < 2 ^ 31 → kept k1 s s1 → kept k2 s1 s2 → in_core k2 s1 s2 r (r + n) →
  Z.of_nat (length (buflist (disk s))) <= n → full (disk s2).
Proof.
  intros Hok Hl Hk2 Hn Hc HK1 HK2 Hcore Hlen. destruct (kp_lru _ _ _ HK1) as (El1&_&H1).
  destruct H1 as (Hl1&Hc1&_); [done|lia|]. destruct (kp_lru _ _ _ HK2) as (El2&_&_).
  destruct Hcore as [?|Hall]; [done|lia|done|].
  apply (has_all_full _ (seqZ r n)); [apply NoDup_seqZ| |rewrite length_seqZ; lia].
  apply Forall_lookup_2. intros i x [-> Hi]%lookup_seqZ. apply Hall. lia.
Qed.

(** The inode's fields after the image has been written. *)
Lemma stamp_ok bpg s ip b n now : fs_ok bpg s → inode_of s ip = Some b → inode_ok b → 0 < n <= 267 →
  ∃ b', (∀ A (k : E2 A), (set_field 4 ip 4 (n * 1024) ;;; set_field 4 ip 16 now ;;; k) s = k (with_inode ip b' s)) ∧
    inode_ok b' ∧ i_size b' = Some (n * 1024) ∧
    ∀ m o, 0 <= m → (o + m <= 4 ∨ 20 <= o) → get_le m b' o = get_le m b o.
Proof.
  intros Hok Hb Hbok Hn. destruct (put_le_is_Some 4 b 4 (n * 1024)) as [b1 E1]; [lia|destruct Hbok; lia|].
  pose proof (put_inode_ok _ _ _ _ _ Hbok E1) as Hbok1.
  destruct (put_le_is_Some 4 b1 16 now) as [b2 E2]; [lia|destruct Hbok1; lia|].
  exists b2. split.
  { intros A k. rewrite (bind_Ret _ _ _ _ _ (set_field_ok 4 ip 4 _ s b b1 Hb E1)).
    rewrite (bind_Ret _ _ _ _ _ (set_field_ok 4 ip 16 now _ b1 b2 (inode_of_with _ _ _ _ Hb) E2)).
    by rewrite with_inode_twice. }
  split; [by eapply put_inode_ok|]. split.
  - unfold i_size. rewrite (get_put_le_other _ _ _ _ _ 4 4 E2) by lia. apply (put_le_get 4 _ _ _ _ E1). lia.
  - intros m o Hm H. rewrite (get_put_le_other _ _ _ _ _ m o E2), (get_put_le_other _ _ _ _ _ m o E1) by lia. done.
Qed.

(** The boot block, the inode and the close, on a state that holds the image. *)
Lemma finish_ok bpg s ip e blk off bb : boot_ready bpg s ip e blk off → 0 < ngroups (conf s) →
  full (disk s) → zlen bb = 1024 → Forall is_byte bb →
  ∃ s' l, (ext2_write_bootblock bb ;;; ext2_iput ip ;;; ext2_close) s = Ret tt s' ∧
    let dev := bio_file (disk s') in
    file_at dev 0 = Some bb ∧ file_at dev blk = Some l ∧ aslice l off 128 = Some (inode e) ∧
    ∀ p v, view (disk s) p = Some v → no_copy (ngroups (conf s)) bpg p → p ≠ 0 → p ≠ blk → ¬ is_bitmap s p →
      file_at dev p = Some v.
Proof.
  intros [Hok Hro Hslot Hin (links&Hl&Hl0) (mode&Hm&Hm1&Hm2) (g&Hplace) [Hoff1 Hoff2] (Hb1&Hb2&Hb3&Hb4) Hfr Hfit _]
    Hng Hfull Hz HF. unfold ext2_write_bootblock.
  assert (no_copy (ngroups (conf s)) bpg 0) as Hn0.
  { destruct (fo_bpg _ _ Hok) as (_&Hbpg&_). intros i Hi. left. nia. }
  assert (¬ is_bitmap s 0) as Hbm0 by (intros [? _]%(fo_maps _ _ Hok); lia).
  destruct (bwrite_0_wrote bpg bb s Hok Hfull) as (s1&E1&HW); [destruct Hb1 as [? ?]; lia|done|].
  rewrite (bind_Ret _ _ _ _ _ E1). pose proof (wrote_data_ok bpg _ _ _ _ _ HW HF Hbm0 Hok) as Hok1.
  pose proof HW as (HK1&_&_&Et1&_&_&Ev1).
  destruct (ext2_iput_ok bpg ip e links mode g blk off s1) as (s2&l&l'&E2&[Hok2 HK2 _ Hw2]&Hl1&Hl2&Hl3); try done.
  { by rewrite (kp_conf _ _ _ HK1). }
  { by rewrite Et1. }
  { by eapply inode_place_kept. }
  { by rewrite (kept_in_dev _ _ _ _ HK1). }
  { by rewrite (kept_bitmap _ _ _ _ HK1). }
  rewrite (bind_Ret _ _ _ _ _ E2). pose proof (kept_trans 1 2 s s1 s2 ltac:(done) HK1 HK2) as HK.
  destruct (ext2_close_ok bpg s2 Hok2) as (s3&E3&Hdev).
  { by rewrite (kp_conf _ _ _ HK). }
  { by rewrite (kp_conf _ _ _ HK). }
  { by rewrite (kp_conf _ _ _ HK), (kp_size _ _ _ HK). }
  rewrite (kp_conf _ _ _ HK) in Hdev. exists s3, l'. split; [done|]. split; [|split; [|split]].
  - apply Hdev; [done|]. rewrite Hw2; [|by rewrite (kept_bitmap _ _ _ _ HK1)|destruct Hb1; lia].
    rewrite Ev1. by rewrite decide_True.
  - by apply Hdev.
  - destruct Hin as [_ Hzi]. rewrite <- Hzi. by eapply aslice_asplice_same.
  - intros p v Hv Hno Hp0 Hpb Hpm. apply Hdev; [done|].
    rewrite Hw2; [|by rewrite (kept_bitmap _ _ _ _ HK1)|done]. rewrite Ev1. by rewrite decide_False.
Qed.

Lemma slot_of_table s s' ip e b : aget (inode_table s) ip = Some e →
  inode_table s' = inode_table (with_inode ip b s) →
  aget (inode_table s') ip = Some (InodeSlot b (inumber e) (is_free e) (old_mode e)).
Proof.
  intros [Hi He]%aget_Some ->. unfold aget. cbn. by rewrite decide_True, list_lookup_alter_eq, He by done.
Qed.

(** What the console needs of the device [c]: the boot block counts sectors and
    says where they start, with the sum of its quadwords, and the sectors hold
    the image. *)
Definition boots (c image : list Z) (sectors lbn : Z) : Prop :=
  get_u64 c 480 = Some sectors ∧ get_u64 c 488 = Some lbn ∧ get_u64 c 496 = Some 0 ∧
  get_u64 c 504 = Some (u64 (quad_sum 63 c)) ∧ aslice c (lbn * 512) (sectors * 512) = Some image.

Lemma get_le_block0 n c bb o : aslice c 0 1024 = Some bb → 0 <= o → 0 <= n → o + n <= 1024 → get_le n c o = get_le n bb o.
Proof.
  intros E Ho Hn Hle. unfold get_le. pose proof (aslice_len _ _ _ _ E).
  destruct (aslice_is_Some bb o n) as [a Ea]; [lia..|]. rewrite Ea.
  by rewrite <- (Z.add_0_l o), (aslice_aslice _ _ _ _ _ _ _ E Ea).
Qed.

(** ** The theorem *)

(** Allocating and writing elsewhere leave the file system ready. *)
Lemma boot_ready_after bpg k f w s s' ip e e' blk off : boot_ready bpg s ip e blk off → realloc bpg k f w s s' →
  (∀ x, f x = true → blk_free bpg s x = true) → bio_counter (disk s) + k < 2 ^ 31 →
  aget (inode_table s') ip = Some e' → inode_ok (inode e') → inumber e' = inumber e → old_mode e' = old_mode e →
  i_links_count (inode e') = i_links_count (inode e) → i_mode (inode e') = i_mode (inode e) →
  boot_ready bpg s' ip e' blk off.
Proof.
  intros [B1 B2 B3 B4 B5 B6 [g B7] B8 (B9&B10&B11&B12) B13 B14 B15] [Hok HK Hf _] Hff Hc Hs Hi En Eo El Em.
  split; rewrite ?(kp_conf _ _ _ HK), ?El, ?Em, ?Eo, ?En, ?(kp_size _ _ _ HK); try done.
  - exists g. by eapply inode_place_kept.
  - rewrite (kept_in_dev _ _ _ _ HK), (kept_bitmap _ _ _ _ HK). do 2 (split; [done|]). split; [|done].
    rewrite Hf. destruct (f blk) eqn:E; [|done]. by rewrite (Hff _ E) in B11.
  - intros x. rewrite Hf. intros E. by apply B13, Hff.
  - destruct (kp_lru _ _ _ HK) as (_&_&H). by destruct H.
Qed.

Lemma fill_free_was bpg s r n ib x : fill_free bpg s r n ib x = true → blk_free bpg s x = true.
Proof. unfold fill_free. by destruct (blk_free bpg s x). Qed.

(** The fields of the boot file's inode that neither the fill nor the stamp
    stores to. *)
Lemma stamped_fields b b1 b2 : other_fields b b1 →
  (∀ m o, 0 <= m → (o + m <= 4 ∨ 20 <= o) → get_le m b2 o = get_le m b1 o) →
  i_links_count b2 = i_links_count b ∧ i_mode b2 = i_mode b ∧ (∀ k, 0 <= k < 13 → i_block b2 k = i_block b1 k).
Proof.
  intros H1 H2. split; [|split].
  - unfold i_links_count. rewrite (H2 2 26), (H1 2 26) by lia. done.
  - unfold i_mode. rewrite (H2 2 0), (H1 2 0) by lia. done.
  - intros k Hk. rewrite !i_block_get, H2 by lia. done.
Qed.

(** The image on the device, the boot block in front. *)
Lemma boots_ok c bb buf r n : aslice c (0 * 1024) 1024 = Some bb → get_u64 bb 480 = Some (n * 2) →
  get_u64 bb 488 = Some (r * 2) → get_u64 bb 496 = Some 0 → get_u64 bb 504 = Some (u64 (quad_sum 63 bb)) →
  0 < n → 0 < r → zlen buf = n * 1024 →
  (∀ j, 0 <= j < n → aslice c ((r + j) * 1024) 1024 = aslice buf (j * 1024) 1024) → boots c buf (n * 2) (r * 2).
Proof.
  change (0 * 1024) with 0. intros E H1 H2 H3 H4 Hn Hr Hz Hj.
  unfold boots. rewrite !(get_le_block0 8 c bb _ E) by lia. do 3 (split; [done|]). split.
  - rewrite H4. do 2 f_equal. apply quad_sum_ext. intros i Hi. symmetry. apply (get_le_block0 8 c bb); [done|lia..].
  - replace (r * 2 * 512) with (r * 1024) by lia. replace (n * 2 * 512) with (n * 1024) by lia.
    replace n with (Z.of_nat (Z.to_nat n)) by lia. apply blocks_join; [lia|lia| |lia].
    intros j Hin. apply Hj. lia.
Qed.

(** The image and the stamp, when the blocks have been found. *)
Lemma image_written bpg s ip e blk off n buf now r ib b1 s1 : boot_ready bpg s ip e blk off →
  filled bpg s ip (inode e) n r ib b1 s1 → 0 < n <= 267 → zlen buf = n * 1024 → Forall is_byte buf →
  Z.of_nat (length (buflist (disk s))) <= n →
  bio_counter (disk s) + 2 * ngroups (conf s) + 3 + 3 * n < 2 ^ 31 →
  ∃ s2 e', (∀ A (k : E2 A), (write_image (S (Z.to_nat (n * 1024))) ip 0 (n * 1024) buf ;;;
      set_field 4 ip 4 (n * 1024) ;;; set_field 4 ip 16 now ;;; k) s1 = k s2) ∧
    boot_ready bpg s2 ip e' blk off ∧ full (disk s2) ∧ i_size (inode e') = Some (n * 1024) ∧
    conf s2 = conf s ∧
    realloc bpg (2 * ngroups (conf s) + 3 + 3 * n) (fill_free bpg s r n ib) (λ x, x = ib ∨ r <= x < r + n) s s2 ∧
    contiguous_file s2 b1 r n ib ∧ (∀ k, 0 <= k < 13 → i_block (inode e') k = i_block b1 k) ∧
    ∀ j, 0 <= j < n → view (disk s2) (r + j) = aslice buf (j * 1024) 1024.
Proof.
  intros HB HF Hn Hz Hbuf Hlen Hcnt. pose proof HB as [Hok Hro Hslot _ _ _ _ _ _ _ _ Hlru].
  destruct (filled_blocks _ _ _ _ _ _ _ _ _ Hok HF Hn) as (Hdb&Hend&_).
  destruct HF as [HR Et Hb1 Hr _ _ Hc _ _ Hoth]. pose proof HR as [Hok1 HK1 Hf1 Hv1].
  assert (inode_of s1 ip = Some b1) as Hi1.
  { rewrite (inode_of_table (with_inode ip b1 s) s1) by done. eapply inode_of_with. unfold inode_of. by rewrite Hslot. }
  destruct (write_image_ok bpg ip b1 r n ib buf (proj2 Hn) Hbuf Hz Hb1 (Z.to_nat n) (S (Z.to_nat (n * 1024))) 0 s1)
    as (s2&E2&HR2&Et2&Hv2&Hcore); try done; try lia.
  { by rewrite (kp_conf _ _ _ HK1). }
  rewrite Z2Nat.id in E2, HR2, Hcore by lia. pose proof HR2 as [Hok2 HK2 Hf2 Hw2].
  assert (inode_of s2 ip = Some b1) as Hi2 by (by rewrite (inode_of_table s1 s2)).
  destruct (stamp_ok bpg s2 ip b1 n now Hok2 Hi2 Hb1 Hn) as (b2&E3&Hb2&Hsz&Hst).
  destruct (stamped_fields _ _ _ Hoth Hst) as (El&Em&Eb).
  assert (realloc bpg (2 * ngroups (conf s) + 3 + 3 * n) (fill_free bpg s r n ib)
    (λ x, x = ib ∨ r <= x < r + n) s (with_inode ip b2 s2)) as HRs.
  { replace (2 * ngroups (conf s) + 3 + 3 * n) with (2 * ngroups (conf s) + 3 + (3 * n + 0)) by lia.
    apply (realloc_trans bpg _ _ (fill_free bpg s r n ib) _ _ s s1 (with_inode ip b2 s2)); [lia| |].
    - eapply realloc_impl; [| | |exact HR]; [done|done|]. by left.
    - apply (realloc_trans bpg _ 0 (fill_free bpg s r n ib) _ _ s1 s2); [done| |].
      + eapply realloc_impl; [| | |exact HR2]; [done|done|]. intros x. cbv beta. lia.
      + eapply realloc_impl; [| | |by apply (with_inode_realloc bpg s2 ip b2 (λ _, False))]; [done| |done].
        intros x. by rewrite Hf2, Hf1. }
  exists (with_inode ip b2 s2), (InodeSlot b2 (inumber e) (is_free e) (old_mode e)).
  split. { intros A k. by rewrite (bind_Ret _ _ _ _ _ E2), E3. }
  split.
  { eapply boot_ready_after; [exact HB|exact HRs|intros x; apply fill_free_was|lia| |done..].
    apply (slot_of_table s _ ip e b2 Hslot). cbn. rewrite Et2, Et. cbn. by rewrite list_alter_alter_eq. }
  split.
  { change (full (disk s2)). apply (image_fills bpg s s1 s2 (2 * ngroups (conf s) + 3) (3 * n) (r + 0) n);
      try done; try lia. by replace (r + 0 + n) with (r + n) by lia. }
  split; [done|]. split; [exact (kp_conf _ _ _ (ra_kept _ _ _ _ _ _ HRs))|]. split; [done|]. split; [|done].
  destruct Hdb as (_&_&[_ Hibm]&Hx).
  apply (contiguous_file_same s1 s2); [done|by rewrite (kept_in_dev _ _ _ _ HK2)|]. apply Hw2; [done|].
  intros Hin. destruct (Hx ib) as (_&_&Hne); [lia|done].
Qed.

Lemma free_ngroups bpg s x : fs_ok bpg s → blk_free bpg s x = true → 0 < ngroups (conf s).
Proof.
  intros Hok. unfold blk_free, group_map. case_decide; [|done].
  destruct (bg_block_bitmap (gds s) ((x - 1) / bpg)) as [no|] eqn:E; [|done]. intros _.
  pose proof (gd_fields_in _ _ _ _ Hok E). lia.
Qed.

(** C16: When the blocks have been found, e2writeboot leaves a device on which the
    boot block counts the image's sectors, says where they start and carries the
    checksum of its quadwords; the sectors hold the image; the inode on the
    device is of that size and maps block [k] of the file to the [k]-th of these
    blocks; and every allocated block that is not a bitmap, the boot block or the
    inode's holds what it held, where [ext2_close] does not put a copy of the
    superblock and the descriptors. *)
Theorem boot_file_on_device bpg s ip e blk off n buf now argv2 r s1 : boot_ready bpg s ip e blk off →
  0 < n <= 267 → zlen buf = n * 1024 → Forall is_byte buf →
  Z.of_nat (length (buflist (disk s))) <= n →
  bio_counter (disk s) + 2 * ngroups (conf s) + 3 + 3 * n < 2 ^ 31 →
  ngroups (conf s) * bpg + 268 < 2 ^ 31 →
  ext2_fill_contiguous ip n s = Ret r s1 → 0 < r →
  ∃ s' b', fill_boot_file ip (n * 1024) now buf argv2 s = Ret tt s' ∧
    let dev := bio_file (disk s') in
    boots (contents dev) buf (n * 2) (r * 2) ∧
    aslice (contents dev) (blk * 1024 + off) 128 = Some b' ∧ i_size b' = Some (n * 1024) ∧
    (∀ k, 0 <= k < n → block_map (file_at dev) 256 b' k = Some (r + k)) ∧
    ∀ p v, view (disk s) p = Some v → blk_free bpg s p = false → no_copy (ngroups (conf s)) bpg p →
      p ≠ 0 → p ≠ blk → ¬ is_bitmap s p → file_at dev p = Some v.
Proof.
  intros HB Hn Hz HFb Hlen Hcnt H31 E1 Hr. pose proof HB as [Hok Hro Hslot Hin _ _ _ _ (_&Hbm&Hbf&_) Hfr _ _].
  assert (inode_of s ip = Some (inode e)) as Hi by (unfold inode_of; by rewrite Hslot).
  destruct (ext2_fill_contiguous_ok bpg s ip (inode e) n Hok Hro Hi Hin Hn H31)
    as [(s1'&E&_&_)|[(_&E&_)|(r'&ib&b1&s1'&E&HF)]]; rewrite E1 in E; [injection E as -> _; lia|done|].
  injection E as <- <-. destruct (filled_blocks _ _ _ _ _ _ _ _ _ Hok HF Hn) as ((_&_&[Hib Hibm]&_)&Hend&Hother).
  pose proof HF as [_ _ _ _ Hfree Hibf _ _ _ _].
  destruct (image_written bpg s ip e blk off n buf now r ib b1 s1 HB HF Hn Hz HFb Hlen Hcnt)
    as (s2&e2&E2&HB2&Hfull&Hsz&Ec&HR&Hc&Heb&Hv). pose proof HR as [_ HK _ Hw].
  destruct (boot_block_ok r n) as (bb&Ebb&Hzbb&HFbb&G1&G2&G3&G4); [lia..|].
  assert (0 < ngroups (conf s)) as Hng by (eapply free_ngroups; [exact Hok|]; by apply (Hfree r); lia).
  destruct (finish_ok bpg s2 ip e2 blk off bb HB2 ltac:(by rewrite Ec) Hfull Hzbb HFbb) as (s3&l&E3&H0&Hl&Hls&Hdev).
  rewrite Ec in Hdev. exists s3, (inode e2). split.
  { unfold fill_boot_file, conf_of. cbn [bind gets]. destruct (fo_conf _ _ Hok) as [-> _ _ _ _].
    cbn [Z.eqb]. rewrite Z.quot_div_nonneg, Z.div_mul, (bind_Ret _ _ _ _ _ E1) by lia.
    rewrite (proj2 (Z.leb_gt r 0)) by lia. rewrite E2, Ebb. cbn [lift_opt]. by rewrite bind_ret. }
  assert (∀ x, blk_free bpg s x = true → x ≠ 0 ∧ x ≠ blk ∧ ¬ is_bitmap s2 x ∧ no_copy (ngroups (conf s)) bpg x) as Hx.
  { intros x Hx. apply (fo_free _ _ Hok) in Hx as Hd. destruct Hd as [[Hpos _] Hnb].
    split; [lia|]. split; [by intros ->; rewrite Hbf in Hx|]. rewrite (kept_bitmap _ _ _ _ HK). by split; [|apply Hfr]. }
  assert (∀ j, 0 <= j < n → file_at (bio_file (disk s3)) (r + j) = aslice buf (j * 1024) 1024) as Hj.
  { intros j Hj. destruct (aslice_is_Some buf (j * 1024) 1024) as [d Ed]; [lia..|].
    destruct (Hx (r + j)) as (X1&X2&X3&X4); [apply Hfree; lia|]. rewrite Ed.
    apply (Hdev (r + j) d); [by rewrite Hv|exact X4|exact X1|exact X2|exact X3]. }
  split; [exact (boots_ok _ bb buf r n H0 G1 G2 G3 G4 (proj1 Hn) Hr Hz Hj)|].
  split; [exact (aslice_aslice _ _ _ _ _ _ _ Hl Hls)|]. split; [done|]. split.
  - apply (contiguous_on _ s2 b1 (inode e2) r n ib Hc Heb); [|lia..]. intros Hn12.
    destruct Hc as [_ Hc]. destruct (Hc Hn12) as (_&_&li&Eli&_). rewrite Eli.
    rewrite (proj2 (Z.ltb_lt 11 n)) in Hibf by lia. destruct (Hx ib) as (X1&X2&X3&X4); [by apply Hibf|].
    exact (Hdev ib li Eli X4 X1 X2 X3).
  - intros p v Hp Hpf Hpc Hp0 Hpb Hpm. destruct (Hother p Hpf Hp0) as [Hpi Hpr].
    apply (Hdev p v); [|exact Hpc|exact Hp0|exact Hpb|by rewrite (kept_bitmap _ _ _ _ HK)].
    rewrite Hw; [exact Hp|exact Hpm|]. intros [Hq|Hq]; [exact (Hpi Hq)|exact (Hpr Hq)].
Qed.
