(* ===== verification/E2Dir.v ===== *)
(** * Directories of tools/e2lib.c

    A directory block is a chain of entries.  [search_block] finds the first entry
    of a name, and [find_room] with [store_entry] puts an entry where the first
    room is: into an unused entry or behind the name of a used one. *)

From Stdlib Require Import Ascii String.
From S2P Require Import Prelude CString Vsprintf Ext2Disk Ufile Bio BioFull E2lib E2Alloc E2File E2Boot.

Open Scope Z_scope.
Open Scope list_scope.

(** ** The entries of a block *)

Record dent := Dent { d_off : Z; d_ino : Z; d_len : Z; d_name : list Z }.

(** The entries of block [b] from [o] on are [l]. *)
Inductive dir_from (b : list Z) (bs : Z) : Z → list dent → Prop :=
| dir_end : dir_from b bs bs []
| dir_entry o ino len name l : 0 <= o → dp_inode b o = Some ino → ino < 2 ^ 31 →
    dp_rec_len b o = Some len → dp_name_len b o = Some (zlen name) → aslice b (o + 8) (zlen name) = Some name →
    8 + zlen name <= len → dir_from b bs (o + len) l → dir_from b bs o (Dent o ino len name :: l).

Lemma dir_from_le b bs o l : dir_from b bs o l → o <= bs.
Proof. induction 1; [lia|]. pose proof (zlen_nonneg name). lia. Qed.

Lemma get_le_same n b b' o : (∀ m p, o <= p → p + m <= o + n → aslice b' p m = aslice b p m) → get_le n b' o = get_le n b o.
Proof. intros H. unfold get_le. rewrite H by lia. done. Qed.

Lemma dir_from_same b b' bs o l : (∀ p m, o <= p → aslice b' p m = aslice b p m) →
  dir_from b bs o l → dir_from b' bs o l.
Proof.
  intros H Hd. induction Hd as [|o ino len name l Ho Hi Hi2 Hr Hn Hnm Hle Hd IH]; [constructor|].
  pose proof (zlen_nonneg name). unfold dp_inode, dp_rec_len, dp_name_len in *.
  constructor; [done|unfold dp_inode, get_le|done|unfold dp_rec_len, get_le|unfold dp_name_len, get_le| |done|];
    rewrite ?H by lia; try done. apply IH. intros; apply H; lia.
Qed.

(** Part of a chain is replaced: [b'] is [b] outside of entry [d]. *)
Lemma dir_replace b b' bs d mid post : ∀ pre o,
  dir_from b bs o (pre ++ d :: post) →
  (∀ p m, 0 <= m → p + m <= d_off d ∨ d_off d + d_len d <= p → aslice b' p m = aslice b p m) →
  (dir_from b' bs (d_off d + d_len d) post → dir_from b' bs (d_off d) (mid ++ post)) →
  dir_from b' bs o (pre ++ mid ++ post).
Proof.
  induction pre as [|x pre IH]; intros o Hd Hsame Hmid; cbn [app] in *.
  - inversion Hd; subst; cbn in *. apply Hmid. eapply dir_from_same; [|done].
    intros p m Hp. destruct (decide (0 <= m)); [apply Hsame; lia|]. unfold aslice. by rewrite !decide_False by lia.
  - inversion Hd as [|o' ino len name l Ho Hi Hi2 Hr Hn Hnm Hle Hd']; subst.
    assert (o + len <= d_off d) as Hdo.
    { clear -Hd'. revert Hd'. generalize (o + len). induction pre as [|y pre IH]; intros q Hd; cbn in Hd.
      - inversion Hd; subst; cbn. lia.
      - inversion Hd as [|? ? len2 ? ? ? ? ? ? ? ? ? Hd2]; subst. apply IH in Hd2. pose proof (zlen_nonneg name). lia. }
    pose proof (zlen_nonneg name). unfold dp_inode, dp_rec_len, dp_name_len in *.
    constructor; [done|unfold dp_inode, get_le|done|unfold dp_rec_len, get_le|unfold dp_name_len, get_le| |done|];
      rewrite ?Hsame by lia; try done. by apply IH.
Qed.

Lemma rec_len_bounds n : 0 <= n → n + 8 <= EXT2_DIR_REC_LEN n <= n + 11.
Proof.
  intros Hn. unfold EXT2_DIR_REC_LEN. change (Z.lnot 3) with (Z.lnot (Z.ones 2)).
  rewrite <- Z.ldiff_land, Z.ldiff_ones_r, Z.shiftr_div_pow2, Z.shiftl_mul_pow2 by lia. change (2 ^ 2) with 4.
  pose proof (Z.div_mod (n + 8 + 3) 4). pose proof (Z.mod_pos_bound (n + 8 + 3) 4). lia.
Qed.

(** ** Search *)

Definition is_name (c : list Z) (d : dent) : bool := bool_decide (d_name d = c).
Definition find_name (c : list Z) (l : list dent) : option dent := find (is_name c) l.

(** The number that is found, or -1. *)
Definition lookup_name (c : list Z) (l : list dent) : Z := match find_name c l with Some d => d_ino d | None => -1 end.

Lemma aslice_cons (b : list Z) off x a : aslice b off (zlen (x :: a)) = Some (x :: a) →
  aget b off = Some x ∧ aslice b (off + 1) (zlen a) = Some a.
Proof.
  intros E. rewrite zlen_cons in E. pose proof (zlen_nonneg a). split.
  - rewrite <- (Z.add_0_r off). by rewrite <- (aget_aslice b off _ _ 0 E) by lia.
  - apply (aslice_aslice b off (1 + zlen a) (x :: a) 1); [done|]. apply aslice_Some. rewrite zlen_cons.
    repeat split; try lia. change (drop (Z.to_nat 1) (x :: a)) with a. by rewrite take_ge by (unfold zlen; lia).
Qed.

Lemma same_name_ok c : ∀ b off a, aslice b off (zlen c) = Some a → same_name c b off = Some (bool_decide (a = c)).
Proof.
  induction c as [|x c IH]; intros b off a E; cbn [same_name].
  { apply aslice_len in E. destruct a; [done|]. unfold zlen in E. cbn [length] in E. lia. }
  pose proof (aslice_len _ _ _ _ E) as Hz. pose proof (zlen_nonneg c). rewrite zlen_cons in Hz.
  destruct a as [|y a]; [unfold zlen in *; cbn [length] in *; lia|]. rewrite zlen_cons in Hz.
  replace (zlen (x :: c)) with (zlen (y :: a)) in E by (rewrite !zlen_cons; lia).
  apply aslice_cons in E as [-> E]. destruct (Z.eqb_spec y x) as [->|Hne].
  - rewrite (IH b (off + 1) a) by (by replace (zlen c) with (zlen a) by lia).
    f_equal. apply bool_decide_ext. split; [by intros ->|by intros [= ->]].
  - rewrite bool_decide_eq_false_2; [done|]. by intros [= ? _].
Qed.

Lemma search_block_ok b c bs s (fuel : nat) : ∀ o l, dir_from b bs o l → (length l < fuel)%nat →
  loop (St := e2fs) fuel (λ blockoffset,
    if blockoffset <? bs then
      let! namelen := lift_opt (dp_name_len b blockoffset) in
      let! same := (if namelen =? zlen c then lift_opt (same_name c b (blockoffset + 8)) else ret false) in
      if same : bool then let! ino := lift_opt (dp_inode b blockoffset) in ret (inr (s32 ino))
      else let! n := lift_opt (dp_rec_len b blockoffset) in ret (inl (blockoffset + n))
    else ret (inr (-1))) o s = Ret (s32 (lookup_name c l)) s.
Proof.
  induction fuel as [|fuel IH]; intros o l Hd Hf; [lia|].
  inversion Hd as [|o' ino len name l' Ho Hi Hi2 Hr Hn Hnm Hle Hd']; subst.
  { apply loop_exit. by rewrite Z.ltb_irrefl. }
  pose proof (dir_from_le _ _ _ _ Hd'). pose proof (zlen_nonneg name). cbn [length] in Hf.
  unfold lookup_name, find_name. cbn [find]. change (is_name c _) with (bool_decide (name = c)).
  assert ((if zlen name =? zlen c then lift_opt (same_name c b (o + 8)) else ret false) s =
    Ret (bool_decide (name = c)) s) as Es.
  { destruct (Z.eqb_spec (zlen name) (zlen c)) as [E|Hne].
    - by rewrite (same_name_ok c b (o + 8) name) by (by rewrite <- E).
    - rewrite bool_decide_eq_false_2; [done|]. by intros ->. }
  destruct (bool_decide (name = c)) eqn:Ec.
  - apply loop_exit. rewrite (proj2 (Z.ltb_lt o bs)), Hn by lia. cbn [lift_opt]. rewrite bind_ret.
    rewrite (bind_Ret _ _ _ _ _ Es), Hi. done.
  - erewrite loop_step; [apply (IH (o + len) l' Hd'); lia|].
    rewrite (proj2 (Z.ltb_lt o bs)), Hn by lia. cbn [lift_opt]. rewrite bind_ret.
    by rewrite (bind_Ret _ _ _ _ _ Es), Hr.
Qed.

(** ** Insertion *)

Definition has_room (need : Z) (d : dent) : bool :=
  if d_ino d =? 0 then need <=? d_len d else need <=? d_len d - EXT2_DIR_REC_LEN (zlen (d_name d)).

(** An entry made into two, or an unused one taken. *)
Definition put_name (name : list Z) (ino : Z) (d : dent) : list dent :=
  let k := EXT2_DIR_REC_LEN (zlen (d_name d)) in
  if d_ino d =? 0 then [Dent (d_off d) ino (d_len d) name]
  else [Dent (d_off d) (d_ino d) k (d_name d); Dent (d_off d + k) ino (d_len d - k) name].

Fixpoint insert_dent (name : list Z) (ino : Z) (l : list dent) : option (list dent) :=
  match l with
  | [] => None
  | d :: l =>
      if has_room (EXT2_DIR_REC_LEN (zlen name)) d then Some (put_name name ino d ++ l)
      else cons d <$> insert_dent name ino l
  end.

Lemma insert_dent_split name ino l l' : insert_dent name ino l = Some l' →
  ∃ pre d post, l = pre ++ d :: post ∧ l' = pre ++ put_name name ino d ++ post ∧
    has_room (EXT2_DIR_REC_LEN (zlen name)) d = true.
Proof.
  revert l'. induction l as [|d l IH]; intros l'; cbn [insert_dent]; [done|].
  destruct (has_room _ d) eqn:E.
  - intros [= <-]. by exists [], d, l.
  - intros (l2&E2&->)%fmap_Some. destruct (IH l2 E2) as (pre&d'&post&->&->&Hr). by exists (d :: pre), d', post.
Qed.

(** What [find_room] leaves: the place [dp], and the block [b'] in which a used
    entry has been cut down to its name. *)
Definition room_made (b : list Z) (d : dent) (dp : Z) (b' : list Z) : Prop :=
  let k := EXT2_DIR_REC_LEN (zlen (d_name d)) in
  if d_ino d =? 0 then dp = d_off d ∧ b' = b
  else dp = d_off d + k ∧ ∃ b0, put_le 2 b (d_off d + 4) k = Some b0 ∧ put_le 2 b0 (dp + 4) (d_len d - k) = Some b'.

Lemma entry_fields b bs o ino len name l : dir_from b bs o (Dent o ino len name :: l) → zlen b = bs → Forall is_byte b →
  0 <= o ∧ o + len <= bs ∧ 8 + zlen name <= len < 65536.
Proof.
  intros Hd Hz HF. inversion Hd as [|o' ino' len' name' l' Ho Hi Hi2 Hr Hn Hnm Hle Hd']; subst.
  pose proof (dir_from_le _ _ _ _ Hd'). pose proof (get_le_range _ _ _ _ HF Hr). change (256 ^ 2) with 65536 in *. lia.
Qed.

Lemma find_room_ok b name ino bs s (fuel : nat) : zlen b = bs → Forall is_byte b →
  ∀ o l, dir_from b bs o l → (length l < fuel)%nat →
  ∃ r, loop (St := e2fs) fuel (λ blockoffset,
    if blockoffset <? bs then
      let! dp_ino := lift_opt (dp_inode b blockoffset) in
      let! dp_reclen := lift_opt (dp_rec_len b blockoffset) in
      let! dp_namelen := lift_opt (dp_name_len b blockoffset) in
      if (dp_ino =? 0) && (EXT2_DIR_REC_LEN (zlen name) <=? dp_reclen) then
        ret (inr (Some blockoffset, b))
      else if negb (dp_ino =? 0) &&
              (EXT2_DIR_REC_LEN (zlen name) <=? dp_reclen - EXT2_DIR_REC_LEN dp_namelen) then
        let new_reclen := dp_reclen - EXT2_DIR_REC_LEN dp_namelen in
        let dp_reclen := EXT2_DIR_REC_LEN dp_namelen in
        let! dirbuf := lift_opt (put_le 2 b (blockoffset + 4) dp_reclen) in
        let entry_dp := blockoffset + dp_reclen in
        let! dirbuf := lift_opt (put_le 2 dirbuf (entry_dp + 4) new_reclen) in
        ret (inr (Some entry_dp, dirbuf))
      else ret (inl (blockoffset + dp_reclen))
    else ret (inr (None, b))) o s = Ret r s ∧
  match insert_dent name ino l with
  | None => r = (None, b)
  | Some l' => ∃ pre d post dp b', l = pre ++ d :: post ∧ l' = pre ++ put_name name ino d ++ post ∧
      has_room (EXT2_DIR_REC_LEN (zlen name)) d = true ∧ r = (Some dp, b') ∧ room_made b d dp b'
  end.
Proof.
  intros Hz HF. induction fuel as [|fuel IH]; intros o l Hd Hf; [lia|].
  inversion Hd as [|o' ino' len nm l' Ho Hi Hi2 Hr Hn Hnm Hle Hd']; subst l.
  { eexists. split; [|done]. apply loop_exit. subst o. by rewrite Z.ltb_irrefl. }
  subst o'. destruct (entry_fields _ _ _ _ _ _ _ Hd Hz HF) as (_&Hob&Hlen). pose proof (zlen_nonneg nm).
  pose proof (rec_len_bounds (zlen name) (zlen_nonneg name)). pose proof (zlen_nonneg name).
  pose proof (rec_len_bounds (zlen nm) (zlen_nonneg nm)).
  cbn [length insert_dent] in *. unfold has_room at 1. cbn [d_ino d_len d_name].
  set (need := EXT2_DIR_REC_LEN (zlen name)) in *. set (k := EXT2_DIR_REC_LEN (zlen nm)) in *.
  destruct (IH (o + len) l' Hd') as (r&Er&HC); [lia|].
  destruct (if ino' =? 0 then need <=? len else need <=? len - k) eqn:Eroom.
  - destruct (ino' =? 0) eqn:E0.
    + exists (Some o, b). split.
      * apply loop_exit. rewrite (proj2 (Z.ltb_lt o bs)), Hi, Hr, Hn by lia. cbn [lift_opt]. rewrite !bind_ret.
        by rewrite E0, Eroom.
      * exists [], (Dent o ino' len nm), l', o, b. unfold has_room, room_made. cbn [d_ino d_len d_off d_name].
        by rewrite E0, Eroom.
    + apply Z.leb_le in Eroom. destruct (put_le_is_Some 2 b (o + 4) k) as [b0 E1]; [lia..|].
      destruct (put_le_is_Some 2 b0 (o + k + 4) (len - k)) as [b1 E2];
        [lia|rewrite (put_le_len _ _ _ _ _ E1); lia|].
      exists (Some (o + k), b1). split.
      * apply loop_exit. rewrite (proj2 (Z.ltb_lt o bs)), Hi, Hr, Hn by lia. cbn [lift_opt]. rewrite !bind_ret.
        fold k need. rewrite E0, (proj2 (Z.leb_le need (len - k))) by lia. cbn [andb negb]. rewrite E1. cbn [lift_opt].
        by rewrite bind_ret, E2.
      * exists [], (Dent o ino' len nm), l', (o + k), b1. unfold has_room, room_made. cbn [d_ino d_len d_off d_name].
        fold k need. rewrite E0, (proj2 (Z.leb_le need (len - k))) by lia. do 4 (split; [done|]).
        split; [done|]. by exists b0.
  - exists r. split.
    + erewrite loop_step; [exact Er|]. rewrite (proj2 (Z.ltb_lt o bs)), Hi, Hr, Hn by lia. cbn [lift_opt].
      rewrite !bind_ret. fold k need. by destruct (ino' =? 0); cbn [andb negb]; rewrite Eroom.
    + destruct (insert_dent name ino l') as [l2|]; [|done]. cbn [fmap option_fmap option_map].
      destruct HC as (pre&d&post&dp&b'&->&->&HC1&HC2&HC3). by exists (Dent o ino' len nm :: pre), d, post, dp, b'.
Qed.

Lemma put_le_other (n : nat) b off v b' p m : put_le n b off v = Some b' → p + m <= off ∨ off + Z.of_nat n <= p →
  aslice b' p m = aslice b p m.
Proof.
  intros E H. eapply aslice_asplice_other; [exact E|]. unfold zlen. by rewrite length_le_bytes.
Qed.

(** The place: an entry of [dpl] bytes up to the end of [d], behind what is left
    of [d] itself. *)
Lemma room_made_ok b bs d dp b' name ino l : zlen b = bs → Forall is_byte b → dir_from b bs (d_off d) (d :: l) →
  has_room (EXT2_DIR_REC_LEN (zlen name)) d = true → room_made b d dp b' →
  ∃ dpl, d_off d <= dp ∧ dp + dpl = d_off d + d_len d ∧ 8 + zlen name <= dpl ∧ zlen b' = bs ∧ Forall is_byte b' ∧
    dp_rec_len b' dp = Some dpl ∧
    (∀ p m, 0 <= m → p + m <= d_off d ∨ d_off d + d_len d <= p → aslice b' p m = aslice b p m) ∧
    ∀ b2 post, (∀ p m, 0 <= m → p + m <= dp → aslice b2 p m = aslice b' p m) →
      dir_from b2 bs dp (Dent dp ino dpl name :: post) → dir_from b2 bs (d_off d) (put_name name ino d ++ post).
Proof.
  intros Hz HF Hd Hroom Hmade. destruct d as [o ino' len nm]. cbn [d_off d_len] in *.
  destruct (entry_fields _ _ _ _ _ _ _ Hd Hz HF) as (Ho&Hob&Hlen). pose proof (zlen_nonneg nm).
  inversion Hd as [|? ? ? ? ? _ Hi Hi2 Hr Hln Hnm Hle _]; subst.
  pose proof (rec_len_bounds (zlen name) (zlen_nonneg name)) as Hneed. pose proof (zlen_nonneg name).
  pose proof (rec_len_bounds (zlen nm) (zlen_nonneg nm)) as Hk.
  unfold has_room, room_made, put_name in *. cbn [d_ino d_len d_off d_name] in *. destruct (ino' =? 0) eqn:E0.
  - destruct Hmade as [-> ->]. apply Z.leb_le in Hroom. exists len. do 7 (split; [done || lia|]). done.
  - destruct Hmade as (->&b0&E1&E2). apply Z.leb_le in Hroom. set (k := EXT2_DIR_REC_LEN (zlen nm)) in *.
    assert (∀ p m, 0 <= m → p + m <= o + 4 ∨ o + 6 <= p → p + m <= o + k + 4 ∨ o + k + 6 <= p →
      aslice b' p m = aslice b p m) as Hsame.
    { intros p m Hm H1 H2. rewrite (put_le_other _ _ _ _ _ p m E2), (put_le_other _ _ _ _ _ p m E1) by lia. done. }
    exists (len - k). split; [lia|]. split; [lia|]. split; [lia|].
    split; [by rewrite (put_le_len _ _ _ _ _ E2), (put_le_len _ _ _ _ _ E1)|].
    split; [eapply put_le_bytes; [|exact E2]; by eapply put_le_bytes|].
    split; [apply (put_le_get 2 _ _ _ _ E2); lia|].
    split; [intros p m Hm Hp; apply Hsame; lia|]. intros b2 post Hb2 Hdp. cbn [app].
    assert (∀ p m, 0 <= m → p + m <= o + 4 ∨ o + 6 <= p → p + m <= o + k → aslice b2 p m = aslice b p m) as Hs2.
    { intros p m Hm Hp Hpk. rewrite Hb2, Hsame by lia. done. }
    constructor; try done.
    + unfold dp_inode, get_le in *. by rewrite Hs2 by lia.
    + unfold dp_rec_len. unfold get_le. rewrite Hb2 by lia. fold (get_u16 b' (o + 4)).
      rewrite (get_put_le_other _ _ _ _ _ 2 (o + 4) E2) by lia. apply (put_le_get 2 _ _ _ _ E1). lia.
    + unfold dp_name_len, get_le in *. by rewrite Hs2 by lia.
    + by rewrite Hs2 by lia.
    + lia.
Qed.

(** The entry is stored: the chain has it, and the rest of the block is as it was. *)
Lemma store_entry_ok b bs d dp b' name ino l s : zlen b = bs → Forall is_byte b → zlen name < 256 →
  Forall is_byte name → 0 <= ino < 2 ^ 31 → dir_from b bs (d_off d) (d :: l) →
  has_room (EXT2_DIR_REC_LEN (zlen name)) d = true → room_made b d dp b' →
  ∃ b2, store_entry b' dp ino name s = Ret b2 s ∧ zlen b2 = bs ∧ Forall is_byte b2 ∧
    (∀ p m, 0 <= m → p + m <= d_off d ∨ d_off d + d_len d <= p → aslice b2 p m = aslice b p m) ∧
    (dir_from b2 bs (d_off d + d_len d) l → dir_from b2 bs (d_off d) (put_name name ino d ++ l)).
Proof.
  intros Hz HF Hn HFn Hino Hd Hroom Hmade.
  assert (0 <= d_off d ∧ d_off d + d_len d <= bs) as [Ho Hob].
  { destruct d. by destruct (entry_fields _ _ _ _ _ _ _ Hd Hz HF) as (?&?&_). }
  destruct (room_made_ok b bs d dp b' name ino l Hz HF Hd Hroom Hmade) as (dpl&Hdp&Hend&Hdpl&Hz'&HF'&Hr&Hsame&Hput).
  pose proof (zlen_nonneg name). unfold store_entry.
  destruct (put_le_is_Some 4 b' dp ino) as [b3 E3]; [lia..|]. pose proof (put_le_len _ _ _ _ _ E3) as Z3.
  destruct (put_le_is_Some 2 b3 (dp + 6) (zlen name)) as [b4 E4]; [lia..|]. pose proof (put_le_len _ _ _ _ _ E4) as Z4.
  assert (is_Some (asplice b4 (dp + 8) name)) as [b2 E2] by (unfold asplice; rewrite decide_True by lia; by eexists).
  rewrite E3. cbn [lift_opt]. rewrite bind_ret, E4. cbn [lift_opt]. rewrite bind_ret, E2. exists b2.
  assert (∀ p m, 0 <= m → p + m <= dp ∨ dp + 4 <= p ∧ p + m <= dp + 6 ∨ dp + dpl <= p → aslice b2 p m = aslice b' p m) as H2.
  { intros p m Hm Hp. rewrite (aslice_asplice_other _ _ _ _ p m E2), (put_le_other _ _ _ _ _ p m E4),
      (put_le_other _ _ _ _ _ p m E3) by lia. done. }
  split; [done|]. split; [apply asplice_len in E2; unfold zlen in *; lia|]. split.
  { eapply asplice_bytes; [|exact HFn|exact E2]. eapply put_le_bytes; [|exact E4]. by eapply put_le_bytes. }
  split; [intros p m Hm Hp; rewrite H2, Hsame by lia; done|]. intros Hl. apply Hput.
  { intros p m Hm Hp. apply H2; lia. }
  constructor; try lia; rewrite ?Hend; try done.
  - unfold dp_inode. unfold get_le. rewrite (aslice_asplice_other _ _ _ _ dp 4 E2) by lia. fold (get_u32 b4 dp).
    rewrite (get_put_le_other _ _ _ _ _ 4 dp E4) by lia. apply (put_le_get 4 _ _ _ _ E3). lia.
  - unfold dp_rec_len, get_le in *. by rewrite H2 by lia.
  - unfold dp_name_len. unfold get_le. rewrite (aslice_asplice_other _ _ _ _ (dp + 6) 2 E2) by lia.
    fold (get_u16 b4 (dp + 6)). apply (put_le_get 2 _ _ _ _ E4). lia.
  - by eapply aslice_asplice_same.
Qed.

(** *** What is found afterwards *)

Lemma find_app c l1 l2 : find_name c (l1 ++ l2) = match find_name c l1 with Some d => Some d | None => find_name c l2 end.
Proof. unfold find_name. induction l1 as [|d l1 IH]; cbn; [done|]. by destruct (is_name c d). Qed.

Lemma find_cons c d l : find_name c (d :: l) = if is_name c d then Some d else find_name c l.
Proof. done. Qed.

Lemma is_name_eq c o i n m : is_name c (Dent o i n m) = bool_decide (m = c).
Proof. done. Qed.

(** The new name is found. *)
Lemma insert_found name ino l l' : insert_dent name ino l = Some l' → find_name name l = None →
  d_ino <$> find_name name l' = Some ino.
Proof.
  intros (pre&d&post&->&->&_)%insert_dent_split. rewrite !find_app, find_cons. destruct (find_name name pre); [done|].
  destruct d as [o i n m]. unfold put_name. rewrite is_name_eq. destruct (bool_decide (m = name)) eqn:E; [done|]. intros _.
  cbn [d_ino d_off d_len d_name]. destruct (i =? 0); cbn [app]; rewrite !find_cons, !is_name_eq.
  - by rewrite bool_decide_eq_true_2.
  - rewrite E. by rewrite bool_decide_eq_true_2.
Qed.

(** Another name of a used entry stays, and one that was not there is not. *)
Lemma insert_others name ino l l' c : insert_dent name ino l = Some l' → c ≠ name →
  (find_name c l = None → find_name c l' = None) ∧
  ∀ x, find_name c l = Some x → d_ino x ≠ 0 → d_ino <$> find_name c l' = Some (d_ino x).
Proof.
  intros (pre&d&post&->&->&_)%insert_dent_split Hc. rewrite !find_app, find_cons.
  destruct (find_name c pre) as [y|]; [split; [done|]|].
  { by intros x [= ->] _. }
  destruct d as [o i n m]. unfold put_name. rewrite is_name_eq. cbn [d_ino d_off d_len d_name].
  destruct (bool_decide (m = c)) eqn:E; [split; [done|]|].
  - intros x [= <-] Hx. cbn [d_ino] in *. rewrite (proj2 (Z.eqb_neq i 0)) by done. cbn [app].
    by rewrite find_cons, is_name_eq, E.
  - destruct (i =? 0); cbn [app]; rewrite !find_cons, !is_name_eq, ?E;
      rewrite bool_decide_eq_false_2 by done; (split; [done|]); by intros x ->.
Qed.

(** ** A directory on the device *)

(** A directory of direct blocks [blks], with the entries [ents] of each. *)
Record dir_ok (s : e2fs) (dip : Z) (blks : list Z) (ents : list (list dent)) : Prop := {
  do_inode : ∃ b, inode_of s dip = Some b ∧ inode_ok b ∧ i_size b = Some (zlen blks * 1024) ∧
    ∀ (k : nat) p, blks !! k = Some p → i_block b (Z.of_nat k) = Some p;
  do_small : (length blks <= 12)%nat;
  do_distinct : NoDup blks;
  do_blocks : ∀ (k : nat) p, blks !! k = Some p → in_dev s p ∧ ¬ is_bitmap s p;
  do_ents : Forall2 (λ p l, ∃ d, view (disk s) p = Some d ∧ dir_from d 1024 0 l) blks ents
}.

Lemma dir_ok_after s s' dip blks ents k : dir_ok s dip blks ents → kept k s s' → inode_table s' = inode_table s →
  (∀ p, p ∈ blks → view (disk s') p = view (disk s) p) → dir_ok s' dip blks ents.
Proof.
  intros [(b&Hb&Hr) D2 D3 D4 D5] HK Et Hv. split; try done.
  - exists b. by rewrite (inode_of_table s s').
  - intros i p Hp. rewrite (kept_in_dev _ _ _ _ HK), (kept_bitmap _ _ _ _ HK). by eapply D4.
  - apply Forall2_same_length_lookup_2; [by eapply Forall2_length|]. intros i p l Hp Hl.
    rewrite Hv by (by eapply list_elem_of_lookup_2). by eapply (Forall2_lookup_lr _ _ _ i p l D5).
Qed.

Lemma dir_ok_looked s s' dip blks ents k : looked k s s' → dir_ok s dip blks ents → dir_ok s' dip blks ents.
Proof.
  intros HL Hd. pose proof HL as (HK&_&_&Et&_). eapply dir_ok_after; [exact Hd|exact HK|exact Et|].
  intros p _. by eapply looked_view.
Qed.

(** A block of the directory: what the block map says of it, and its entries. *)
Lemma dir_block bpg s dip blks ents (k : nat) l : fs_ok bpg s → dir_ok s dip blks ents → ents !! k = Some l →
  ∃ p d b, blks !! k = Some p ∧ inode_of s dip = Some b ∧ inode_ok b ∧ path_ok s b (Z.of_nat k) ∧
    (k < 12)%nat ∧ block_map (view (disk s)) 256 b (Z.of_nat k) = Some p ∧ in_dev s p ∧ ¬ is_bitmap s p ∧
    view (disk s) p = Some d ∧ zlen d = 1024 ∧ Forall is_byte d ∧ dir_from d 1024 0 l.
Proof.
  intros Hok [(b&Hb&Hbok&_&Hblk) Hsmall _ Hblks Hents] Hl.
  destruct (Forall2_lookup_r _ _ _ _ _ Hents Hl) as (p&Hp&d&Hd&Hdir). exists p, d, b.
  pose proof (lookup_lt_Some _ _ _ Hp). destruct (Hblks k p Hp) as [Hin Hnb]. destruct (in_dev_valid bpg s p Hok Hin) as [_ Es].
  do 3 (split; [done|]). split; [intros v; split; intros; lia|]. split; [lia|]. split.
  { unfold block_map. rewrite (proj2 (Z.ltb_lt _ 12)) by lia. rewrite (Hblk k p Hp). cbn. by rewrite Es. }
  do 3 (split; [done|]). split; [by eapply view_len|]. split; [|done]. exact (fo_bytes _ _ Hok _ _ Hd).
Qed.

Lemma dir_read bpg s dip blks ents (k : nat) l : fs_ok bpg s → dir_ok s dip blks ents → ents !! k = Some l →
  ∃ d s', ext2_bread dip (Z.of_nat k) s = Ret d s' ∧ looked 3 s s' ∧ zlen d = 1024 ∧ Forall is_byte d ∧
    dir_from d 1024 0 l ∧ ∃ p, blks !! k = Some p ∧ view (disk s) p = Some d.
Proof.
  intros Hok Hd Hl. destruct (dir_block bpg s dip blks ents k l Hok Hd Hl)
    as (p&d&b&Hp&Hb&Hbok&Hpath&Hk&Hm&Hin&Hnb&Hv&Hz&HF&Hdir).
  destruct (tool_blkno_ok bpg s dip b (Z.of_nat k) Hok Hb Hbok) as (r&s1&E1&Hm'&HL); [lia|done|].
  rewrite Hm in Hm'. injection Hm' as <-. pose proof (looked_ok _ _ _ _ HL Hok) as Hok1. pose proof Hin as [Hpos _].
  destruct (bread_looked bpg p s1 Hok1) as (d'&s2&E2&Hv2&_&HL2&_); [by rewrite (kept_in_dev _ _ _ _ (proj1 HL))|].
  rewrite (looked_view _ _ _ _ HL), Hv in Hv2. injection Hv2 as <-. exists d, s2.
  unfold ext2_bread. rewrite (bind_Ret _ _ _ _ _ E1), (proj2 (Z.eqb_neq p 0)) by lia. split; [exact E2|].
  split; [by apply (looked_trans 2 1 s s1 s2)|]. do 3 (split; [done|]). by exists p.
Qed.

Lemma dir_from_inos b bs o l : Forall is_byte b → dir_from b bs o l → Forall (λ d, 0 <= d_ino d < 2 ^ 31) l.
Proof.
  intros HF Hd. induction Hd as [|o ino len name l Ho Hi Hi2 Hr Hn Hnm Hle Hd IH]; constructor; [|done].
  cbn. pose proof (get_le_range _ _ _ _ HF Hi). lia.
Qed.

Lemma lookup_name_app c l1 l2 : Forall (λ d, 0 <= d_ino d < 2 ^ 31) l1 →
  lookup_name c (l1 ++ l2) = if 0 <=? lookup_name c l1 then lookup_name c l1 else lookup_name c l2.
Proof.
  intros H. unfold lookup_name. rewrite find_app. destruct (find_name c l1) as [d|] eqn:E; [|done].
  apply find_some in E as [Hin _]. rewrite List.Forall_forall in H. specialize (H d Hin).
  by rewrite (proj2 (Z.leb_le 0 (d_ino d))) by lia.
Qed.

Lemma lookup_name_range c l : Forall (λ d, 0 <= d_ino d < 2 ^ 31) l → -1 <= lookup_name c l < 2 ^ 31.
Proof.
  intros H. unfold lookup_name. destruct (find_name c l) as [d|] eqn:E; [|done].
  apply find_some in E as [Hin _]. rewrite List.Forall_forall in H. specialize (H d Hin). lia.
Qed.

(** Fuel for the blocks and for the entries of each. *)
Definition dir_fuel (fuel : nat) (ents : list (list dent)) : Prop :=
  (length ents < fuel)%nat ∧ Forall (λ l, length l < fuel)%nat ents.

(** The size of the directory and the offset of block [k] in the loops. *)
Lemma dir_size s dip blks ents : dir_ok s dip blks ents → i_field i_size dip s = Ret (zlen ents * 1024) s.
Proof.
  intros [(b&Hb&_&Hsz&_) _ _ _ Hents]. apply (i_field_ok _ _ _ b); [done|]. rewrite Hsz. do 2 f_equal.
  unfold zlen. apply Forall2_length in Hents. by rewrite Hents.
Qed.

Lemma dir_index s dip blks ents (k : nat) l : dir_ok s dip blks ents → ents !! k = Some l →
  Z.of_nat k * 1024 <? zlen ents * 1024 = true ∧ s32 (Z.of_nat k * 1024 / u32 1024) = Z.of_nat k ∧
  u32 (Z.of_nat k * 1024 + 1024) = Z.of_nat (S k) * 1024.
Proof.
  intros [_ Hsmall _ _ Hents] Hl. pose proof (lookup_lt_Some _ _ _ Hl). apply Forall2_length in Hents.
  change (u32 1024) with 1024. rewrite Z.div_mul, (swrap_small 32), wrap_small by lia. unfold zlen.
  split; [|split; [done|lia]]. apply Z.ltb_lt. lia.
Qed.

Definition inos_ok (l : list dent) : Prop := Forall (λ d, 0 <= d_ino d < 2 ^ 31) l.

(** [search_dir] finds the first entry of the name in the directory's blocks. *)
Lemma search_dir_from bpg dip blks ents c fuel : dir_fuel fuel ents → ∀ (n : nat) k s,
  fs_ok bpg s → dir_ok s dip blks ents → (k + n = length ents)%nat → ∀ f, (n < f)%nat →
  ∃ s', loop f (λ diroffset,
      let! size := i_field i_size dip in
      if diroffset <? size then
        let! bs := conf_of blocksize in
        if bs =? 0 then trap
        else
          let! dirbuf := ext2_bread dip (s32 (diroffset / u32 bs)) in
          let! next_ino := search_block fuel dirbuf c bs in
          ret (if 0 <=? next_ino then inr next_ino else inl (u32 (diroffset + bs)))
      else ret (inr (-1))) (Z.of_nat k * 1024) s = Ret (lookup_name c (concat (drop k ents))) s' ∧
    looked (3 * Z.of_nat n) s s'.
Proof.
  intros [_ Hfu] n. induction n as [|n IH]; intros k s Hok Hd Hk f Hf; (destruct f as [|f]; [lia|]).
  { exists s. split; [|by eapply looked_refl]. apply loop_exit. rewrite (bind_Ret _ _ _ _ _ (dir_size _ _ _ _ Hd)).
    rewrite (proj2 (Z.ltb_ge _ _)) by (unfold zlen; lia). by rewrite drop_ge by lia. }
  destruct (lookup_lt_is_Some_2 ents k) as [l Hl]; [lia|]. rewrite (drop_S _ _ _ Hl). cbn [concat].
  destruct (dir_index _ _ _ _ _ _ Hd Hl) as (I1&I2&I3).
  destruct (dir_read bpg s dip blks ents k l Hok Hd Hl) as (d&s1&E1&HL1&Hz&HF&Hdir&_).
  pose proof (dir_from_inos _ _ _ _ HF Hdir) as Hin. pose proof (lookup_name_range c l Hin) as Hr.
  rewrite lookup_name_app by done.
  assert ((let! size := i_field i_size dip in
      if Z.of_nat k * 1024 <? size then
        let! bs := conf_of blocksize in
        if bs =? 0 then trap
        else
          let! dirbuf := ext2_bread dip (s32 (Z.of_nat k * 1024 / u32 bs)) in
          let! next_ino := search_block fuel dirbuf c bs in
          ret (if 0 <=? next_ino then inr next_ino else inl (u32 (Z.of_nat k * 1024 + bs)))
      else ret (inr (-1))) s = Ret (if 0 <=? lookup_name c l then inr (lookup_name c l) else inl (Z.of_nat (S k) * 1024)) s1)
    as Hbody.
  { rewrite (bind_Ret _ _ _ _ _ (dir_size _ _ _ _ Hd)), I1. unfold conf_of. cbn [bind gets].
    destruct (fo_conf _ _ Hok) as [-> _ _ _ _]. cbn [Z.eqb]. rewrite I2, (bind_Ret _ _ _ _ _ E1).
    unfold search_block. rewrite (bind_Ret _ _ _ _ _ (search_block_ok d c 1024 s1 fuel 0 l Hdir
      (proj1 (Forall_lookup _ _) Hfu k l Hl))). by rewrite (swrap_small 32), I3 by lia. }
  destruct (0 <=? lookup_name c l).
  - exists s1. split; [by apply loop_exit|]. eapply looked_le; [|exact HL1]. lia.
  - destruct (IH (S k) s1 (looked_ok _ _ _ _ HL1 Hok) (dir_ok_looked _ _ _ _ _ _ HL1 Hd)) with (f := f)
      as (s2&E2&HL2); [lia..|]. exists s2. split; [by rewrite (loop_step _ _ _ _ _ _ Hbody)|].
    replace (3 * Z.of_nat (S n)) with (3 + 3 * Z.of_nat n) by lia. by apply (looked_trans 3 (3 * Z.of_nat n) s s1 s2); [lia|..].
Qed.

Lemma search_dir_ok bpg s dip blks ents c fuel : fs_ok bpg s → dir_ok s dip blks ents → dir_fuel fuel ents →
  ∃ s', search_dir fuel dip c s = Ret (lookup_name c (concat ents)) s' ∧ looked (3 * zlen ents) s s'.
Proof.
  intros Hok Hd Hfu. pose proof Hfu as [Hf _].
  destruct (search_dir_from bpg dip blks ents c fuel Hfu (length ents) 0 s Hok Hd eq_refl fuel Hf) as (s'&E&HL).
  by exists s'.
Qed.

(** *** ext2_mknod *)

(** The entry goes to the first block with room. *)
Definition inserted (name : list Z) (ino : Z) (ents : list (list dent)) (j : nat) (l l' : list dent) : Prop :=
  ents !! j = Some l ∧ insert_dent name ino l = Some l' ∧
  ∀ i x, (i < j)%nat → ents !! i = Some x → insert_dent name ino x = None.

Lemma find_place_from bpg dip blks ents name ino fuel j l l' : dir_fuel fuel ents → inserted name ino ents j l l' →
  ∀ (n : nat) k s b0, fs_ok bpg s → dir_ok s dip blks ents → (k + n = j)%nat → ∀ f, (n < f)%nat →
  ∃ d pre x post dp b' s', loop f (λ '(diroffset, dirbuf),
      let! size := i_field i_size dip in
      if diroffset <? size then
        let! bs := conf_of blocksize in
        if bs =? 0 then trap
        else
          let! dirbuf := ext2_bread dip (s32 (diroffset / u32 bs)) in
          let! ' (entry_dp, dirbuf) := find_room fuel dirbuf bs (zlen name) in
          match entry_dp with
          | Some dp => ret (inr (Some dp, diroffset, dirbuf))
          | None => ret (inl (u32 (diroffset + bs), dirbuf))
          end
      else ret (inr (None, diroffset, dirbuf))) (Z.of_nat k * 1024, b0) s =
      Ret (Some dp, Z.of_nat j * 1024, b') s' ∧ looked (3 * Z.of_nat (S n)) s s' ∧
    zlen d = 1024 ∧ Forall is_byte d ∧ dir_from d 1024 0 l ∧ l = pre ++ x :: post ∧
    l' = pre ++ put_name name ino x ++ post ∧ has_room (EXT2_DIR_REC_LEN (zlen name)) x = true ∧ room_made d x dp b'.
Proof.
  intros [_ Hfu] (Hj&Hins&Hbefore) n. induction n as [|n IH]; intros k s b0 Hok Hd Hk f Hf; (destruct f as [|f]; [lia|]).
  all: assert (∃ y, ents !! k = Some y) as [y Hy] by (apply lookup_lt_is_Some_2; apply lookup_lt_Some in Hj; lia).
  all: destruct (dir_index _ _ _ _ _ _ Hd Hy) as (I1&I2&I3);
    destruct (dir_read bpg s dip blks ents k y Hok Hd Hy) as (d&s1&E1&HL1&Hz&HF&Hdir&_);
    destruct (find_room_ok d name ino 1024 s1 fuel Hz HF 0 y Hdir (proj1 (Forall_lookup _ _) Hfu k y Hy))
      as (r&Er&HC).
  - replace k with j in * by lia. rewrite Hj in Hy. injection Hy as <-. rewrite Hins in HC.
    destruct HC as (pre&x&post&dp&b'&->&->&Hroom&->&Hmade). exists d, pre, x, post, dp, b', s1. split; [|done].
    apply loop_exit. rewrite (bind_Ret _ _ _ _ _ (dir_size _ _ _ _ Hd)), I1. unfold conf_of. cbn [bind gets].
    destruct (fo_conf _ _ Hok) as [-> _ _ _ _]. cbn [Z.eqb]. rewrite I2, (bind_Ret _ _ _ _ _ E1).
    unfold find_room. by rewrite (bind_Ret _ _ _ _ _ Er).
  - rewrite (Hbefore k y) in HC by (done || lia). subst r.
    destruct (IH (S k) s1 d (looked_ok _ _ _ _ HL1 Hok) (dir_ok_looked _ _ _ _ _ _ HL1 Hd)) with (f := f)
      as (d2&pre&x&post&dp&b'&s2&E2&HL2&Hrest); [lia..|]. exists d2, pre, x, post, dp, b', s2. split; [|split; [|exact Hrest]].
    + rewrite (loop_step _ _ _ s (Z.of_nat (S k) * 1024, d) s1); [exact E2|].
      rewrite (bind_Ret _ _ _ _ _ (dir_size _ _ _ _ Hd)), I1. unfold conf_of. cbn [bind gets].
      destruct (fo_conf _ _ Hok) as [-> _ _ _ _]. cbn [Z.eqb]. rewrite I2, (bind_Ret _ _ _ _ _ E1).
      unfold find_room. rewrite (bind_Ret _ _ _ _ _ Er). by rewrite I3.
    + replace (3 * Z.of_nat (S (S n))) with (3 + 3 * Z.of_nat (S n)) by lia.
      by apply (looked_trans 3 (3 * Z.of_nat (S n)) s s1 s2); [lia|..].
Qed.

Lemma concat_insert (j : nat) (l l' : list dent) ents : ents !! j = Some l →
  concat ents = concat (take j ents) ++ l ++ concat (drop (S j) ents) ∧
  concat (<[j := l']> ents) = concat (take j ents) ++ l' ++ concat (drop (S j) ents).
Proof.
  intros Hl. pose proof (lookup_lt_Some _ _ _ Hl). split.
  - rewrite <- (take_drop_middle ents j l Hl) at 1. by rewrite concat_app.
  - rewrite insert_take_drop by done. by rewrite concat_app.
Qed.

Lemma ext2_mknod_ok bpg dip blks ents name ino fuel j l l' s : fs_ok bpg s → readonly (conf s) = false →
  dir_ok s dip blks ents → dir_fuel fuel ents → inserted name ino ents j l l' → zlen name < 256 →
  Forall is_byte name → 0 <= ino < 2 ^ 31 →
  ∃ s' p, ext2_mknod fuel dip name ino s = Ret tt s' ∧ blks !! j = Some p ∧
    realloc bpg (3 * zlen ents + 3) (blk_free bpg s) (λ m, m = p) s s' ∧ dir_ok s' dip blks (<[j := l']> ents).
Proof.
  intros Hok Hro Hd Hfu Hins Hn HFn Hino. pose proof Hfu as [Hf _]. pose proof Hins as (Hj&_&_).
  pose proof (lookup_lt_Some _ _ _ Hj) as Hjlt. destruct (fo_conf _ _ Hok) as [C1 _ _ _ _].
  destruct (find_place_from bpg dip blks ents name ino fuel j l l' Hfu Hins j 0 s (replicate 1024 0) Hok Hd eq_refl fuel)
    as (d&pre&x&post&dp&b'&s1&E1&HL&Hz&HF&Hdir&El&El'&Hroom&Hmade); [lia|].
  pose proof (looked_ok _ _ _ _ HL Hok) as Hok1. pose proof (dir_ok_looked _ _ _ _ _ _ HL Hd) as Hd1.
  pose proof HL as (HK&_&_&Et1&_).
  (* the entry that gives the room *)
  assert (dir_from d 1024 (d_off x) (x :: post)) as Hx.
  { rewrite El in Hdir. clear -Hdir. revert Hdir. generalize 0. induction pre as [|y pre IH]; intros o Hdir.
    - cbn in Hdir. inversion Hdir; subst. exact Hdir.
    - cbn in Hdir. inversion Hdir; subst. by eapply IH. }
  destruct (store_entry_ok d 1024 x dp b' name ino post s1 Hz HF Hn HFn Hino Hx Hroom Hmade)
    as (b2&E2&Hz2&HF2&Hsame&Hmid).
  destruct (dir_block bpg s1 dip blks ents j l Hok1 Hd1 Hj)
    as (p&d'&b&Hp&Hb&Hbok&Hpath&Hk&Hm&Hin&Hnb&Hv&_).
  destruct (dir_index _ _ _ _ _ _ Hd Hj) as (_&I2&_).
  destruct (ext2_bwrite_ok bpg dip b (Z.of_nat j) p b2 s1 Hok1) as (s2&E3&HR&Et2&Hv2&_); try done; [|lia|].
  { by rewrite (kp_conf _ _ _ HK). }
  exists s2, p. split; [|split; [done|split]].
  - unfold ext2_mknod, conf_of, zero_block. cbn [bind gets]. rewrite C1. unfold conf_of. rewrite bind_bind.
    cbn [bind gets]. rewrite C1, bind_ret. unfold find_entry_place.
    change (Z.of_nat 0 * 1024) with 0 in E1. change (Z.to_nat 1024) with 1024%nat.
    rewrite (bind_Ret _ _ _ _ _ E1). cbn [Z.eqb]. rewrite (bind_Ret _ _ _ _ _ E2). by rewrite I2.
  - apply (realloc_impl bpg (3 * Z.of_nat (S j) + 3) _ (blk_free bpg s) _ (λ m, m = p)); [unfold zlen; lia|done|done|].
    apply (realloc_trans bpg (3 * Z.of_nat (S j)) 3 (blk_free bpg s) (blk_free bpg s) _ s s1 s2);
      [lia|by eapply looked_realloc|].
    eapply realloc_impl; [| | |exact HR]; [done| |done]. intros m. by rewrite (looked_free _ _ _ _ _ HL).
  - pose proof HR as [_ HK2 _ Hw]. destruct Hd1 as [D1 D2 D3 D4 D5]. split; try done.
    + destruct D1 as (b0&Hb0&D1). exists b0. by rewrite (inode_of_table s1 s2).
    + intros i q Hq. rewrite (kept_in_dev _ _ _ _ HK2), (kept_bitmap _ _ _ _ HK2). by eapply D4.
    + apply Forall2_same_length_lookup_2; [rewrite length_insert; by eapply Forall2_length|].
      intros i q lq Hq Hlq. destruct (decide (i = j)) as [->|Hne].
      * rewrite Hp in Hq. injection Hq as <-. rewrite list_lookup_insert_eq in Hlq by done. injection Hlq as <-.
        exists b2. split; [done|]. rewrite El'. rewrite El in Hdir.
        eapply dir_replace; [exact Hdir|exact Hsame|exact Hmid].
      * rewrite list_lookup_insert_ne in Hlq by done.
        destruct (Forall2_lookup_lr _ _ _ i q lq D5 Hq Hlq) as (dq&Hdq&Hfrom). exists dq. split; [|done].
        rewrite Hw; [done|by apply (D4 i q)|]. intros ->. apply Hne. by eapply (NoDup_lookup _ i j p).
Qed.

Lemma insert_dent_len name ino l l' : insert_dent name ino l = Some l' → (length l' <= S (length l))%nat.
Proof.
  intros (pre&d&post&->&->&_)%insert_dent_split. rewrite !length_app. cbn [length]. unfold put_name.
  destruct (d_ino d =? 0); cbn [length]; lia.
Qed.

Lemma dir_fuel_insert fuel ents (j : nat) l l' name ino : dir_fuel fuel ents → ents !! j = Some l →
  insert_dent name ino l = Some l' → dir_fuel (S fuel) (<[j := l']> ents).
Proof.
  intros [Hf HF] Hl Hi. split; [rewrite length_insert; lia|]. apply Forall_insert.
  - eapply Forall_impl; [|exact HF]. cbn. lia.
  - pose proof (insert_dent_len _ _ _ _ Hi). pose proof (Forall_lookup_1 _ _ _ _ HF Hl). cbn in *. lia.
Qed.

Lemma dir_inos bpg s dip blks ents : fs_ok bpg s → dir_ok s dip blks ents → inos_ok (concat ents).
Proof.
  intros Hok Hd. unfold inos_ok. apply Forall_concat, Forall_lookup_2. intros k l Hl.
  destruct (dir_block bpg s dip blks ents k l Hok Hd Hl) as (p&d&b&_&_&_&_&_&_&_&_&_&_&HF&Hdir).
  by eapply dir_from_inos.
Qed.

Lemma lookup_absent c l : inos_ok l → lookup_name c l = -1 → find_name c l = None.
Proof.
  unfold lookup_name. destruct (find_name c l) as [d|] eqn:E; [|done]. intros Hi Hd.
  apply find_some in E as [Hin _]. unfold inos_ok in Hi. rewrite List.Forall_forall in Hi. specialize (Hi d Hin). lia.
Qed.

Lemma lookup_insert name ino ents (j : nat) l l' c : ents !! j = Some l → insert_dent name ino l = Some l' →
  (find_name name (concat ents) = None → lookup_name name (concat (<[j := l']> ents)) = ino) ∧
  (c ≠ name → lookup_name c (concat ents) ≠ 0 →
    lookup_name c (concat (<[j := l']> ents)) = lookup_name c (concat ents)).
Proof.
  intros Hl Hi. destruct (concat_insert j l l' ents Hl) as [-> ->]. split.
  - unfold lookup_name. rewrite !find_app. destruct (find_name name (concat (take j ents))); [done|].
    destruct (find_name name l) eqn:E; [done|]. intros _.
    pose proof (insert_found _ _ _ _ Hi E) as (x&Hx&->)%fmap_Some. by rewrite Hx.
  - intros Hc. unfold lookup_name. rewrite !find_app. destruct (find_name c (concat (take j ents))); [done|].
    destruct (insert_others _ _ _ _ _ Hi Hc) as [H1 H2]. destruct (find_name c l) as [x|].
    + intros Hx. specialize (H2 x eq_refl Hx) as (y&Hy&Ey)%fmap_Some. by rewrite Hy.
    + by rewrite H1.
Qed.

(** C26: In a directory in which there is room and the name is not found, [ext2_mknod]
    returns, the free blocks and the blocks outside the directory are as they
    were, a search then finds the name with its inode number, and finds every
    other name that it found with a number other than 0 before, or did not find,
    as before. *)
Theorem mknod_found bpg dip blks ents name ino fuel j l l' s s1 : fs_ok bpg s → readonly (conf s) = false →
  dir_ok s dip blks ents → dir_fuel fuel ents → inserted name ino ents j l l' → zlen name < 256 →
  Forall is_byte name → 0 <= ino < 2 ^ 31 → search_dir fuel dip name s = Ret (-1) s1 →
  ∃ s', ext2_mknod fuel dip name ino s = Ret tt s' ∧
    (∀ b, blk_free bpg s' b = blk_free bpg s b) ∧
    (∀ p, ¬ is_bitmap s p → p ∉ blks → view (disk s') p = view (disk s) p) ∧
    (∃ s2, search_dir (S fuel) dip name s' = Ret ino s2) ∧
    ∀ c v s1, c ≠ name → search_dir fuel dip c s = Ret v s1 → v ≠ 0 →
      ∃ s2, search_dir (S fuel) dip c s' = Ret v s2.
Proof.
  intros Hok Hro Hd Hfu Hins Hn HFn Hino Habs. pose proof Hins as (Hj&Hi&_).
  destruct (ext2_mknod_ok bpg dip blks ents name ino fuel j l l' s) as (s'&p&E&Hp&[Hok' HK Hfr Hw]&Hd'); try done.
  pose proof (dir_fuel_insert _ _ _ _ _ _ _ Hfu Hj Hi) as Hfu'.
  destruct (search_dir_ok bpg s dip blks ents name fuel Hok Hd Hfu) as (t&Et&_). rewrite Habs in Et. injection Et as Ht <-.
  assert (∀ c, ∃ s2, search_dir (S fuel) dip c s' = Ret (lookup_name c (concat (<[j := l']> ents))) s2) as Hs.
  { intros c. destruct (search_dir_ok bpg s' dip blks _ c (S fuel) Hok' Hd' Hfu') as (u&Eu&_). by exists u. }
  exists s'. split; [done|]. split; [done|]. split.
  { intros q Hq Hin. apply Hw; [done|]. intros ->. by eapply Hin, list_elem_of_lookup_2. }
  split.
  - destruct (Hs name) as [s2 E2]. exists s2. rewrite E2. f_equal.
    apply (proj1 (lookup_insert name ino ents j l l' name Hj Hi)). apply lookup_absent; [|done]. exact (dir_inos bpg s dip blks ents Hok Hd).
  - intros c v t' Hc Ec Hv. destruct (search_dir_ok bpg s dip blks ents c fuel Hok Hd Hfu) as (u&Eu&_).
    rewrite Ec in Eu. injection Eu as -> _. destruct (Hs c) as [s2 E2]. exists s2. rewrite E2. f_equal.
    by apply (proj2 (lookup_insert name ino ents j l l' c Hj Hi)).
Qed.
