(* ===== verification/E2Inode.v ===== *)
(** * Where tools/e2lib.c and fs/ext2.c look for an inode

    Both compute the place in the inode table from the inode number; the tool
    divides the number itself by the number of inodes in a group, and so takes
    the table of the next group for the last inode of every group. *)

From Stdlib Require Import Ascii String.
From S2P Require Import Prelude CString Vsprintf BootFs Ext2Disk.
From S2P Require Ext2.
From S2P Require Import Ufile Bio BioFull E2lib E2Alloc E2File E2Boot.

Open Scope Z_scope.
Open Scope list_scope.

(** The number of the table's group is what differs. *)
Lemma inode_place_group s ino ipg table : s_inodes_per_group (sb s) = Some ipg → blocksize (conf s) = 1024 →
  0 < ipg < 2 ^ 24 → 1 <= ino < 2 ^ 31 → bg_inode_table (gds s) (ino / ipg) = Some table → 0 <= table →
  table * 1024 + (ino - 1) mod ipg * 128 < 2 ^ 31 →
  ∃ blk off, inode_place ino s = Ret (ino / ipg, blk, off) s ∧
    blk * 1024 + off = table * 1024 + (ino - 1) mod ipg * 128 ∧ 0 <= off ∧ off + 128 <= 1024.
Proof.
  intros Eipg Ebs Hipg Hino Et Ht H31. pose proof (Z.mod_pos_bound (ino - 1) ipg ltac:(lia)) as Hm.
  set (k := (ino - 1) mod ipg) in *. assert (0 <= ino / ipg < 2 ^ 31) as Hq.
  { split; [apply Z.div_pos; lia|]. apply Z.div_lt_upper_bound; [lia|]. nia. }
  pose proof (Z.div_mod (k * 128) 1024 ltac:(lia)) as Hdm. pose proof (Z.mod_pos_bound (k * 128) 1024 ltac:(lia)) as Hdb.
  assert ((k * 128) mod 1024 + 128 <= 1024) as Hend.
  { replace 1024 with (8 * 128) by lia. rewrite Z.mul_mod_distr_r by lia. pose proof (Z.mod_pos_bound k 8 eq_refl). lia. }
  exists (table + k * 128 / 1024), ((k * 128) mod 1024). split; [|lia].
  unfold inode_place. rewrite (bind_Ret _ _ _ _ _ (sb_field_Ret _ _ _ Eipg)). unfold conf_of. cbn [bind gets].
  rewrite Ebs, (proj2 (Z.eqb_neq ipg 0)) by lia. cbn [orb Z.eqb].
  rewrite (wrap_small 32 ino), (wrap_small 32 (ino - 1)), (swrap_small 32 eq_refl (ino / ipg)) by lia. fold k.
  rewrite (bind_Ret _ _ _ _ _ (gd_field_Ret _ _ _ _ Et)). unfold sizeof_inode.
  rewrite (swrap_small 32 eq_refl (table * 1024)), (swrap_small 32 eq_refl (k * 128)) by lia.
  rewrite (Z.quot_div_nonneg (k * 128)), (Z.rem_mod_nonneg (k * 128)) by lia.
  assert (0 <= k * 128 / 1024) by (apply Z.div_pos; lia).
  rewrite (swrap_small 32 eq_refl) by lia. rewrite <- Z.mul_add_distr_r, Z.quot_mul by lia. done.
Qed.

(** C37: For an inode that is not the last of its group the tool finds the place that
    the loader reads; for the last one it takes the table of the group behind,
    and for the last inode of the file system there is no such table. *)
Theorem inode_places bpg s (g : Ext2.geometry) ino ipg off : fs_ok bpg s →
  Ext2.sb g = sb s → Ext2.gds g = gds s → Ext2.partition_offset g = 0 → Ext2.fs_bsize g = 1024 →
  s_inode_size (sb s) = Some 128 → s_inodes_per_group (sb s) = Some ipg → 0 < ipg < 2 ^ 24 → 1 <= ino < 2 ^ 31 →
  Ext2.inode_offset g ino = Some off → off + 1024 < 2 ^ 31 →
  (ino mod ipg ≠ 0 → ∃ blk o, inode_place ino s = Ret ((ino - 1) / ipg, blk, o) s ∧
     blk * 1024 + o = off ∧ 0 <= o ∧ o + 128 <= 1024) ∧
  (∀ table, ino mod ipg = 0 → bg_inode_table (gds s) (ino / ipg) = Some table → (table + ipg) * 1024 < 2 ^ 31 →
     ∃ blk o, inode_place ino s = Ret (ino / ipg, blk, o) s ∧ blk * 1024 + o = table * 1024 + (ipg - 1) * 128) ∧
  (ino = ngroups (conf s) * ipg → inode_place ino s = Trap).
Proof.
  intros Hok Esb Egds Epo Ebs Eisz Eipg Hipg Hino Eoff H31. destruct (fo_conf _ _ Hok) as [C1 _ _ _ _].
  unfold Ext2.inode_offset in Eoff. rewrite Esb, Egds, Epo, Ebs, Eisz, Eipg in Eoff.
  rewrite (proj2 (Z.eqb_neq ipg 0)) in Eoff by lia. pose proof (Z.mod_pos_bound (ino - 1) ipg ltac:(lia)) as Hm.
  assert (0 <= (ino - 1) / ipg < 2 ^ 31) as Hq.
  { split; [apply Z.div_pos; lia|]. apply Z.div_lt_upper_bound; [lia|]. nia. }
  rewrite (wrap_small 32 (ino - 1)), (swrap_small 32 eq_refl ((ino - 1) / ipg)) in Eoff by lia.
  rewrite (wrap_small 32 ((ino - 1) mod ipg * 128)) in Eoff by lia.
  destruct (bg_inode_table (gds s) ((ino - 1) / ipg)) as [table|] eqn:Et; [|done]. injection Eoff as Eoff.
  destruct (fo_gds _ _ Hok) as [HFg Hzg]. pose proof (get_le_range _ _ _ _ HFg Et) as Ht.
  change (256 ^ 4) with (2 ^ 32) in Ht. rewrite (swrap_small 64 eq_refl) in Eoff by lia. split; [|split].
  - intros Hne. assert (ino / ipg = (ino - 1) / ipg) as Eq.
    { apply (Z.div_unique _ _ _ (ino mod ipg - 1)); [left; pose proof (Z.mod_pos_bound ino ipg ltac:(lia)); lia|].
      pose proof (Z.div_mod ino ipg ltac:(lia)). lia. }
    destruct (inode_place_group s ino ipg table Eipg C1 Hipg Hino) as (blk&o&E&Ho&Hr);
      [by rewrite Eq|lia|lia|]. rewrite Eq in E. exists blk, o. split; [done|]. lia.
  - intros table' Hz Et' Hfit. pose proof (get_le_range _ _ _ _ HFg Et') as Ht'.
    assert ((ino - 1) mod ipg = ipg - 1) as Em.
    { symmetry. apply (Z.mod_unique _ _ (ino / ipg - 1)); [lia|]. pose proof (Z.div_mod ino ipg ltac:(lia)). lia. }
    destruct (inode_place_group s ino ipg table' Eipg C1 Hipg Hino Et') as (blk&o&E&Ho&Hr); [lia..|].
    exists blk, o. split; [done|]. rewrite Ho, Em. done.
  - intros ->. unfold inode_place. rewrite (bind_Ret _ _ _ _ _ (sb_field_Ret _ _ _ Eipg)). unfold conf_of. cbn [bind gets].
    rewrite C1, (proj2 (Z.eqb_neq ipg 0)) by lia. cbn [orb Z.eqb].
    rewrite (wrap_small 32 (_ * ipg)), Z.div_mul by lia. destruct (fo_count _ _ Hok) as [Hng _].
    rewrite (swrap_small 32) by nia. assert (bg_inode_table (gds s) (ngroups (conf s)) = None) as En.
    { unfold bg_inode_table, get_le, aslice, sizeof_gd. rewrite decide_False; [done|]. rewrite Hzg. lia. }
    assert (gd_field bg_inode_table (ngroups (conf s)) s = Trap) as ET
      by (unfold gd_field; cbn [bind gets]; by rewrite En).
    unfold bind at 1. by rewrite ET.
Qed.
