(* ===== verification/E2Sample.v ===== *)
(** * A small ext2 file system

    64 blocks of 1024 bytes in one group behind the boot block: the superblock,
    the descriptors, the two bitmaps, a table of 32 inodes and a directory; the
    second half of the group is free.  The theorems about tools/e2lib.c are applied to it. *)

From Stdlib Require Import Ascii String.
From S2P Require Import Prelude CString Vsprintf Ext2Disk Ufile Bio BioFull E2lib E2writeboot E2Alloc E2Count E2File E2Boot E2Dir E2Inode.
From S2P Require Ext2.

Open Scope Z_scope.
Open Scope list_scope.

(** ** The file system *)

Definition le4 (v : Z) : list Z := [v mod 256; v / 256 mod 256; v / 65536 mod 256; v / 16777216 mod 256].
Definition padded (l : list Z) : list Z := l ++ replicate (Z.to_nat (1024 - zlen l)) 0.

Definition sample_sb : list Z :=
  padded (le4 32 ++ le4 65 ++ le4 0 ++ le4 32 ++ le4 21 ++ le4 1 ++ le4 0 ++ le4 0 ++ le4 64 ++ le4 64 ++ le4 32 ++
    le4 0 ++ le4 0 ++ [0; 0; 0; 0; 0x53; 0xef]).
(* maps in blocks 3 and 4, the inodes from block 5 on; 32 blocks and 21 inodes free *)
Definition sample_gds : list Z := le4 3 ++ le4 4 ++ le4 5 ++ [32; 0; 21; 0; 1; 0; 0; 0] ++ replicate 12 0.
Definition sample_map : list Z := padded (le4 0xffffffff).
Definition sample_inode : list Z :=
  [0x68; 0x81] ++ replicate 24 0 ++ [1; 0] ++ replicate 100 0.

(** A directory of one block, 7, with entries for itself and its parent. *)
Definition sample_dir : list Z :=
  le4 2 ++ [12; 0; 1; 0; 46; 0; 0; 0] ++ le4 2 ++ [1012 mod 256; 3; 2; 0; 46; 46; 0; 0].
Definition sample_dir_inode : list Z :=
  [0xed; 0x41; 0; 0] ++ le4 1024 ++ replicate 18 0 ++ [2; 0] ++ replicate 12 0 ++ le4 7 ++ replicate 84 0.

(** The first inode is number 11. *)
Definition sample_device : list Z :=
  replicate 1024 0 ++ sample_sb ++ padded sample_gds ++ sample_map ++ padded (le4 0x7ff) ++
  replicate 1024 0 ++ padded (replicate 256 0 ++ sample_inode) ++ padded sample_dir ++ replicate (57 * 1024) 0.

Definition sample_disk : bio := Bio (UFile sample_device 0) 0 1024 (replicate 2 (BioBuf 0 0 false None)).
Definition sample_conf : config := Config 1 1024 11 267 65547 256 (str "disk") false false.
Definition sample_slot : inode_slot := InodeSlot sample_inode 11 0 0x8168.
Definition sample_dir_slot : inode_slot := InodeSlot sample_dir_inode 2 0 0x41ed.
Definition sample_fs : e2fs :=
  E2fs sample_disk sample_sb sample_gds sample_conf [sample_slot; sample_dir_slot] [].

(** ** It is in order *)

Lemma sample_device_ok : zlen sample_device = 65 * 1024 ∧ Forall is_byte sample_device.
Proof. split; [by vm_compute|]. apply (bool_decide_unpack _). vm_compute. exact I. Qed.

Lemma sample_buf i b : buflist sample_disk !! i = Some b → b = BioBuf 0 0 false None.
Proof. by intros [-> _]%(lookup_replicate_1 2). Qed.

Lemma sample_view n : view sample_disk n = aslice sample_device (n * 1024) 1024.
Proof.
  unfold view. rewrite (proj2 (cached_None _ _)); [done|]. intros i b ->%sample_buf _. by intros [? [=]].
Qed.

Lemma sample_bio_ok : bio_ok sample_disk.
Proof.
  split.
  - done.
  - done.
  - change (zlen sample_device < 2 ^ 31). rewrite (proj1 sample_device_ok). done.
  - done.
  - by intros i b d ->%sample_buf.
  - by intros i b ->%sample_buf.
  - intros i j b c ->%sample_buf. by intros _ _ [? [=]].
Qed.

Lemma sample_lru : lru sample_disk.
Proof. split; [done|]. intros i b ->%sample_buf. by left. Qed.

Lemma sample_group i no : bg_block_bitmap sample_gds i = Some no → i = 0 ∧ no = 3.
Proof.
  intros H. assert (i = 0) as ->.
  { apply fmap_Some in H as (a&(?&_&Hb&_)%aslice_Some&_). change (zlen sample_gds) with 32 in Hb.
    unfold sizeof_gd in *. lia. }
  split; [done|]. vm_compute in H. congruence.
Qed.

Lemma sample_in_dev b : 0 < b <= 64 → in_dev sample_fs b.
Proof. intros Hb. split; [lia|]. change (contents _) with sample_device. rewrite (proj1 sample_device_ok). lia. Qed.

Lemma sample_map_view : view sample_disk 3 = Some sample_map.
Proof. rewrite sample_view. by vm_compute. Qed.

Lemma sample_map_bits : forallb (λ k, eqb (marked sample_map k) (k <? 32)) (seqZ 0 64) = true.
Proof. by vm_compute. Qed.

(** The free blocks are 33 to 64. *)
Lemma sample_free b : blk_free 64 sample_fs b = true ↔ 33 <= b <= 64.
Proof.
  pose proof sample_map_bits as Hbits. rewrite forallb_forall in Hbits.
  assert (0 < b <= 64 → blk_free 64 sample_fs b = negb (b - 1 <? 32)) as Hin.
  { intros Hb. unfold blk_free, group_map. rewrite decide_True by lia.
    rewrite Z.div_small, Z.mod_small by lia. replace (bg_block_bitmap (gds sample_fs) 0) with (Some 3) by done.
    change (disk sample_fs) with sample_disk. rewrite sample_map_view. f_equal. apply eqb_prop, Hbits.
    apply list_elem_of_In, elem_of_seqZ. lia. }
  split.
  - intros E. assert (0 < b <= 64) as Hb.
    { revert E. unfold blk_free, group_map. case_decide; [|done].
      destruct (bg_block_bitmap (gds sample_fs) ((b - 1) / 64)) as [no|] eqn:Eg; [|done]. intros _.
      apply sample_group in Eg as [Eg _]. pose proof (Z.div_mod (b - 1) 64). pose proof (Z.mod_pos_bound (b - 1) 64). lia. }
    rewrite Hin in E by done. apply negb_true_iff, Z.ltb_ge in E. lia.
  - intros Hb. rewrite Hin by lia. rewrite (proj2 (Z.ltb_ge (b - 1) 32)) by lia. done.
Qed.

Lemma sample_fs_ok : fs_ok 64 sample_fs.
Proof.
  destruct sample_device_ok as [Hz HF]. split.
  - exact sample_bio_ok.
  - reflexivity.
  - split; reflexivity.
  - split; [|done]. apply (bool_decide_unpack _). vm_compute. exact I.
  - split; [|done]. apply (bool_decide_unpack _). vm_compute. exact I.
  - split; [reflexivity|]. split; [split; [reflexivity|discriminate]|reflexivity].
  - split; [discriminate|reflexivity].
  - intros n b. change (disk sample_fs) with sample_disk. rewrite sample_view.
    intros (_&_&_&->)%aslice_Some. by apply Forall_take, Forall_drop.
  - intros n [i [_ ->]%sample_group]. apply sample_in_dev. lia.
  - intros i j n [-> _]%sample_group [-> _]%sample_group. done.
  - intros b Hb%sample_free. split; [apply sample_in_dev; lia|]. intros [i [_ ->]%sample_group]. lia.
Qed.

Lemma sample_inode_ok : inode_ok sample_inode.
Proof. split; [|done]. apply (bool_decide_unpack _). vm_compute. exact I. Qed.

Lemma sample_ready : boot_ready 64 sample_fs 0 sample_slot 6 256.
Proof.
  split.
  - exact sample_fs_ok.
  - done.
  - done.
  - exact sample_inode_ok.
  - by exists 1.
  - by exists 0x8168.
  - by exists 0.
  - done.
  - split; [by apply sample_in_dev|]. split; [intros [i [_ ?]%sample_group]; lia|]. split.
    + destruct (blk_free 64 sample_fs 6) eqn:E; [|done]. apply sample_free in E. lia.
    + intros i. change (ngroups (conf sample_fs)) with 1. lia.
  - intros b Hb%sample_free i. change (ngroups (conf sample_fs)) with 1. lia.
  - change (contents _) with sample_device. rewrite (proj1 sample_device_ok). done.
  - exact sample_lru.
Qed.

Lemma sample_accounted : accounted 64 sample_fs.
Proof.
  assert (group_free 64 sample_fs 0 = 32) as E.
  { unfold group_free. transitivity (sum_to (λ k, if 32 <=? k then 1 else 0) 64); [|done].
    apply sum_ext. intros k Hk. unfold is_free. change (0 * 64 + k + 1) with (k + 1).
    destruct (blk_free 64 sample_fs (k + 1)) eqn:Ef.
    - apply sample_free in Ef. by rewrite (proj2 (Z.leb_le 32 k)) by lia.
    - rewrite (proj2 (Z.leb_gt 32 k)); [done|]. destruct (decide (32 <= k)); [|lia].
      rewrite (proj2 (sample_free (k + 1))) in Ef by lia. done. }
  split.
  - intros i Hi. change (ngroups (conf sample_fs)) with 1 in Hi. replace i with 0 by lia. by rewrite E.
  - change (Z.to_nat (ngroups (conf sample_fs))) with 1%nat. cbn [sum_to]. change (Z.of_nat 0) with 0. by rewrite E.
Qed.

(** ** The theorems on it *)

Lemma after_sample (m : E2 Z) (s : e2fs) r :
  (match m s with Ret v _ => v =? r | _ => false end) = true → m s = Ret r (after m s).
Proof. exact (after_Ret m s r). Qed.

Definition sample_fs1 : e2fs := after (ext2_contiguous_balloc 13) sample_fs.
Definition sample_fs2 : e2fs := after ext2_balloc sample_fs1.

Lemma sample_steps : rtc (alloc_step 64) sample_fs sample_fs2.
Proof.
  apply (rtc_l _ _ sample_fs1); [|apply (rtc_l _ _ sample_fs2); [|apply rtc_refl]].
  - apply (contiguous_step 64 13 _ 33); [done|]. apply after_sample. vm_compute. reflexivity.
  - apply (balloc_step 64 _ 46). apply after_sample. vm_compute. reflexivity.
Qed.

Lemma allocation_accounts_witness : fs_ok 64 sample_fs2 ∧ accounted 64 sample_fs2.
Proof.
  apply (allocation_accounts 64 sample_fs sample_fs2 sample_steps sample_fs_ok eq_refl sample_accounted).
Defined.

(** An image of 13 blocks goes to blocks 33 to 45, its indirect block is 46. *)
Definition sample_image : list Z := replicate (13 * 1024) 0xaa.
Definition sample_filled : e2fs := after (ext2_fill_contiguous 0 13) sample_fs.

Lemma sample_image_ok : zlen sample_image = 13 * 1024 ∧ Forall is_byte sample_image.
Proof. split; [by vm_compute|]. apply (bool_decide_unpack _). vm_compute. exact I. Qed.

Lemma sample_fill : ext2_fill_contiguous 0 13 sample_fs = Ret 33 sample_filled.
Proof. apply after_sample. vm_compute. reflexivity. Qed.

Lemma boot_file_on_device_witness : ∃ s' b',
  fill_boot_file 0 (13 * 1024) 7 sample_image (str "bootlx") sample_fs = Ret tt s' ∧
  let dev := bio_file (disk s') in
  boots (contents dev) sample_image 26 66 ∧
  aslice (contents dev) (6 * 1024 + 256) 128 = Some b' ∧ i_size b' = Some (13 * 1024) ∧
  (∀ k, 0 <= k < 13 → block_map (file_at dev) 256 b' k = Some (33 + k)) ∧
  ∀ p v, view (disk sample_fs) p = Some v → blk_free 64 sample_fs p = false → no_copy 1 64 p →
    p ≠ 0 → p ≠ 6 → ¬ is_bitmap sample_fs p → file_at dev p = Some v.
Proof.
  destruct sample_image_ok as [Hz HF].
  apply (boot_file_on_device 64 sample_fs 0 sample_slot 6 256 13 sample_image 7 (str "bootlx") 33 sample_filled
    sample_ready).
  - split; [reflexivity|discriminate].
  - exact Hz.
  - exact HF.
  - discriminate.
  - reflexivity.
  - reflexivity.
  - exact sample_fill.
  - reflexivity.
Defined.

(** *** The directory *)

Definition sample_entries : list dent := [Dent 0 2 12 [46]; Dent 12 2 1012 [46; 46]].

Lemma sample_dir_view : view sample_disk 7 = Some (padded sample_dir).
Proof. rewrite sample_view. by vm_compute. Qed.

Lemma sample_dir_ok : dir_ok sample_fs 1 [7] [sample_entries].
Proof.
  split.
  - exists sample_dir_inode. split; [done|]. split; [split; [|done]; apply (bool_decide_unpack _); vm_compute; exact I|].
    split; [by vm_compute|]. intros [|k] p; [intros [= <-]; by vm_compute|done].
  - cbn. lia.
  - apply NoDup_singleton.
  - intros [|k] p; [intros [= <-]|done]. split; [by apply sample_in_dev|]. intros [i [_ ?]%sample_group]. lia.
  - constructor; [|constructor]. exists (padded sample_dir). split; [exact sample_dir_view|].
    apply dir_entry; [done|by vm_compute|done|by vm_compute|by vm_compute|by vm_compute|done|].
    apply dir_entry; [done|by vm_compute|done|by vm_compute|by vm_compute|by vm_compute|done|]. apply dir_end.
Qed.

Lemma sample_absent : search_dir 3 1 (str "vmlinux") sample_fs =
  Ret (-1) (after (search_dir 3 1 (str "vmlinux")) sample_fs).
Proof. apply after_sample. vm_compute. reflexivity. Qed.

Lemma mknod_found_witness : ∃ s', ext2_mknod 3 1 (str "vmlinux") 12 sample_fs = Ret tt s' ∧
  (∀ b, blk_free 64 s' b = blk_free 64 sample_fs b) ∧
  (∀ p, ¬ is_bitmap sample_fs p → p ∉ [7] → view (disk s') p = view (disk sample_fs) p) ∧
  (∃ s2, search_dir 4 1 (str "vmlinux") s' = Ret 12 s2) ∧
  ∀ c v s1, c ≠ str "vmlinux" → search_dir 3 1 c sample_fs = Ret v s1 → v ≠ 0 → ∃ s2, search_dir 4 1 c s' = Ret v s2.
Proof.
  apply (mknod_found 64 1 [7] [sample_entries] (str "vmlinux") 12 3 0 sample_entries
    [Dent 0 2 12 [46]; Dent 12 2 12 [46; 46]; Dent 24 12 1000 (str "vmlinux")] sample_fs
    (after (search_dir 3 1 (str "vmlinux")) sample_fs) sample_fs_ok).
  - reflexivity.
  - exact sample_dir_ok.
  - split; [cbn; lia|]. apply Forall_singleton. cbn. lia.
  - split; [reflexivity|]. split; [reflexivity|]. intros i x Hi. lia.
  - reflexivity.
  - apply (bool_decide_unpack _). vm_compute. exact I.
  - split; [discriminate|reflexivity].
  - exact sample_absent.
Defined.

(** *** Blocks and inodes *)

Lemma contiguous_run_taken_witness : ∃ r s', ext2_contiguous_balloc 13 sample_fs = Ret r s' ∧ fs_ok 64 s' ∧
  (∀ p, ¬ is_bitmap sample_fs p → view (disk s') p = view (disk sample_fs) p) ∧
  ((r = 0 ∧ no_run 64 0 13 sample_fs ∧ ∀ b, blk_free 64 s' b = blk_free 64 sample_fs b) ∨
   (0 < r ∧ (∀ b, r <= b < r + 13 → blk_free 64 sample_fs b = true) ∧
    ∀ b, blk_free 64 s' b = blk_free 64 sample_fs b && negb (bool_decide (r <= b < r + 13)))).
Proof.
  apply (contiguous_run_taken 64 sample_fs 13 sample_fs_ok); [reflexivity|]. split; [reflexivity|reflexivity].
Defined.

Lemma sample_all : ext2_contiguous_balloc 32 sample_fs = Ret 33 (after (ext2_contiguous_balloc 32) sample_fs).
Proof. apply after_sample. vm_compute. reflexivity. Qed.

Lemma fill_without_indirect_witness : ext2_fill_contiguous 0 32 sample_fs = Trap.
Proof.
  apply (fill_without_indirect 64 sample_fs 0 sample_inode 32 33 (after (ext2_contiguous_balloc 32) sample_fs)
    sample_fs_ok).
  - reflexivity.
  - reflexivity.
  - exact sample_inode_ok.
  - split; [reflexivity|discriminate].
  - exact sample_all.
  - reflexivity.
  - intros x Hx. apply sample_free in Hx. lia.
Defined.

Lemma bread_reads_block_witness : ∃ d p s', ext2_bread 1 0 sample_fs = Ret d s' ∧
  block_map (view (disk sample_fs)) 256 sample_dir_inode 0 = Some p ∧
  (if p =? 0 then d = replicate 1024 0 else view (disk sample_fs) p = Some d) ∧
  (∀ m, view (disk s') m = view (disk sample_fs) m) ∧ inode_table s' = inode_table sample_fs.
Proof.
  apply (bread_reads_block 64 sample_fs 1 sample_dir_inode 0 sample_fs_ok).
  - reflexivity.
  - split; [apply (bool_decide_unpack _); vm_compute; exact I|reflexivity].
  - split; discriminate.
  - intros v. split; intros; lia.
  - intros p Hp. assert (p = 7) as -> by (vm_compute in Hp; congruence). right. by apply sample_in_dev.
Defined.

(** The loader's view of the same superblock and descriptors. *)
Definition sample_geometry : Ext2.geometry := Ext2.Geometry sample_sb sample_gds 1 11 267 65547 256 1024 0 0.

Lemma inode_places_witness :
  (11 mod 32 ≠ 0 → ∃ blk o, inode_place 11 sample_fs = Ret ((11 - 1) / 32, blk, o) sample_fs ∧
     blk * 1024 + o = 6400 ∧ 0 <= o ∧ o + 128 <= 1024) ∧
  (∀ table, 11 mod 32 = 0 → bg_inode_table sample_gds (11 / 32) = Some table → (table + 32) * 1024 < 2 ^ 31 →
     ∃ blk o, inode_place 11 sample_fs = Ret (11 / 32, blk, o) sample_fs ∧ blk * 1024 + o = table * 1024 + (32 - 1) * 128) ∧
  (11 = 1 * 32 → inode_place 11 sample_fs = Trap).
Proof.
  apply (inode_places 64 sample_fs sample_geometry 11 32 6400 sample_fs_ok); try reflexivity.
  - split; reflexivity.
  - split; [discriminate|reflexivity].
Defined.
