(* ===== verification/Sdisklabel.v ===== *)
(** * sdisklabel/: BSD disk labels, and the boot block of a labelled disk

    [library.c], the operations of [sdisklabel.c], and [swriteboot.c] behind its
    option parsing; the disk is the state.  A label is the bytes of [struct
    disklabel].  Integers are little-endian, [int] has 32 bits.  Messages to
    stderr are not kept; [exit(1)] is a [Jump]. *)

From Stdlib Require Import Ascii String.
From S2P Require Import Prelude CString Vsprintf Ufile.

Open Scope Z_scope.
Open Scope list_scope.

Definition LABELOFFSET : Z := 64.
Definition sizeof_label : Z := 276.
Definition DISKLABELMAGIC : Z := 0x82564557.
Definition DTYPE_SCSI : Z := 4.
Definition SECT_SIZE : Z := 512.
Definition BOOT_SECTOR : Z := 2.
Definition ABOOT_MAGIC : Z := 0x30302d746f6f6261.

Abbreviation FM := (M ufile).

Definition lseek (off : Z) : FM Z := λ f, if 0 <=? off then Ret off (f_lseek off f) else Ret (-1) f.
Definition read (n : Z) : FM (list Z) := λ f, let '(b, f) := f_read n f in Ret b f.
Definition write (b : list Z) : FM Z := λ f, Ret (zlen b) (f_write b f).
Definition exit {A} : FM A := longjmp "exit(1)".

(** ** Labels *)

Definition l_magic (d : list Z) := get_u32 d 0.
Definition l_magic2 (d : list Z) := get_u32 d 132.
Definition l_npartitions (d : list Z) := get_u16 d 138.
Definition l_psize (d : list Z) (x : Z) := get_u32 d (148 + 16 * x).
Definition l_poffset (d : list Z) (x : Z) := get_u32 d (148 + 16 * x + 4).

(** ** library.c *)

(** The value returned, and the structure at [d] (read only where it succeeds). *)
Definition read_disklabel (d : list Z) : FM (Z * list Z) :=
  let! r := lseek LABELOFFSET in
  if r <? 0 then ret (-1, d)
  else
    let! b := read sizeof_label in
    let! d := lift_opt (asplice d 0 b) in
    if negb (zlen b =? sizeof_label) then ret (-1, d)
    else
      let! m := lift_opt (l_magic d) in
      let! m2 := lift_opt (l_magic2 d) in
      ret (if negb (m =? DISKLABELMAGIC) || negb (m2 =? DISKLABELMAGIC) then -1 else 0, d).

(* buf[0] + ... of n words *)
Fixpoint sum_words (n : nat) (buf : list Z) (off sum : Z) : option Z :=
  match n with
  | O => Some sum
  | S n => let? w := get_u64 buf off in sum_words n buf (off + 8) (u64 (sum + w))
  end.

Definition dosumlabel (d : list Z) : FM Z :=
  let! r := lseek 0 in
  if r <? 0 then ret (-1)
  else
    let! buf := read (64 * 8) in
    if negb (zlen buf =? 64 * 8) then ret (-1)
    else
      let! buf := lift_opt (asplice buf LABELOFFSET d) in
      let! sum := lift_opt (sum_words 63 buf 0 0) in
      let! r := lseek (63 * 8) in
      if r <? 0 then ret (-1)
      else
        let! r := write (le_bytes 8 sum) in
        ret (if negb (r =? 8) then -1 else 0).

Definition does_overlap (a1 a2 b1 b2 : Z) : bool :=
  if (b1 <? a1) && (a1 <? b2) then true
  else if (b1 <? a2) && (a2 <? b2) then true
  else if (a1 <? b1) && (b1 <? a2) then true
  else if (a1 <? b2) && (b2 <? a2) then true
  else false.

(* from partition x on; [n] of them are left.  A shift by 32 or more and a
   partition behind the label's eight are errors of the program. *)
Fixpoint overlap_from (n : nat) (x : Z) (d : list Z) (offset endplace force : Z) : option Z :=
  match n with
  | O => Some (-1)
  | S n =>
      if 32 <=? x then None
      else if Z.land force (Z.shiftl 1 x) =? 0 then
        let? off := l_poffset d x in
        let? size := l_psize d x in
        let part_offset := s32 off in
        let part_end := s32 (u32 (off + size)) in
        if (0 <? part_end) && does_overlap part_offset part_end offset endplace then Some x
        else overlap_from n (x + 1) d offset endplace force
      else overlap_from n (x + 1) d offset endplace force
  end.

Definition overlaplabel (d : list Z) (offset endplace force : Z) : option Z :=
  let? n := l_npartitions d in
  overlap_from (Z.to_nat n) 0 d offset endplace force.

(** ** sdisklabel.c *)

Definition write_disklabel (d : list Z) : FM Z :=
  dosumlabel d ;;;
  let! r := lseek LABELOFFSET in
  if r <? 0 then ret (-1)
  else
    let! r := write d in
    ret (if negb (r =? sizeof_label) then -1 else 0).

Definition fixmagic (d : list Z) : option (list Z) :=
  let? d := put_le 4 d 0 DISKLABELMAGIC in
  let? d := put_le 4 d 132 DISKLABELMAGIC in
  let? d := put_le 2 d 4 DTYPE_SCSI in
  let? d := put_le 4 d 40 512 in
  asplice d 8 (str "SCSI" ++ [0]).

(** The label; label_modified is set. *)
Definition zero_disklabel : option (list Z) := fixmagic (replicate (Z.to_nat sizeof_label) 0).

(** The value returned and the label; label_modified is set when it is 0. *)
Definition set_partition (total_disk_size : Z) (force : bool) (d : list Z) (num offset size fstype : Z) :
    option (Z * list Z) :=
  let endplace := s32 (offset + size) in
  if (total_disk_size <? endplace) && negb force then Some (-1, d)
  else
    let size := if total_disk_size <? endplace then s32 (total_disk_size - offset) else size in
    let endplace := if total_disk_size <? endplace then total_disk_size else endplace in
    let? n := l_npartitions d in
    if (n <? num) && negb force then Some (-1, d)
    else
      let? _ := overlaplabel d offset endplace (Z.shiftl 1 num) in
      let? d := put_le 4 d (148 + 16 * num + 4) offset in
      let? d := put_le 4 d (148 + 16 * num) size in
      let? d := put_le 1 d (148 + 16 * num + 12) fstype in
      let? d := (if num =? n then put_le 2 d 138 (n + 1) else Some d) in
      Some (0, d).

(** ** swriteboot.c *)

(* the scan for the magic number: the word behind the last one *)
Fixpoint scan_config (n : nat) (i : Z) (buf : list Z) (bootpart : Z) : option Z :=
  match n with
  | O => Some bootpart
  | S n =>
      let? w := get_u64 buf (8 * i) in
      if w =? ABOOT_MAGIC then
        let? v := get_u64 buf (8 * (i + 1)) in scan_config n (i + 1) buf v
      else scan_config n (i + 1) buf bootpart
  end.

(** The partition, and [buf] afterwards. *)
Definition read_configured_partition (buf : list Z) : FM (Z * list Z) :=
  let! r := lseek (60 * 8) in
  if r <? 0 then exit
  else
    let! bootsize := read 8 in
    let! bootsect := read 8 in
    let! bootsect := lift_opt (get_u64 bootsect 0) in
    let! r := lseek (s64 (SECT_SIZE * bootsect)) in
    if r <? 0 then ret (0, buf)
    else
      let! b := read SECT_SIZE in
      let! buf := lift_opt (asplice buf 0 b) in
      let! p := lift_opt (scan_config 64 0 buf 0) in
      ret (s32 p, buf).

(* while ((x = read(file_fd, buf, 2048)) > 0) write(disk_fd, buf, x) *)
Fixpoint copy_chunks (n : nat) (image buf : list Z) : FM (list Z) :=
  match n with
  | O => diverge
  | S n =>
      let b := take 2048 image in
      if zlen b =? 0 then ret buf
      else
        let! buf := lift_opt (asplice buf 0 b) in
        write b ;;;
        copy_chunks n (drop 2048 image) buf
  end.

Definition copy_file (image buf : list Z) : FM (list Z) := copy_chunks (S (length image)) image buf.

(* the scan that stores the partition behind every magic number *)
Fixpoint patch_config (n : nat) (i : Z) (buf : list Z) (bootpart : Z) : option (list Z) :=
  match n with
  | O => Some buf
  | S n =>
      let? w := get_u64 buf (8 * i) in
      if w =? ABOOT_MAGIC then
        let? buf := put_le 8 buf (8 * (i + 1)) bootpart in patch_config n (i + 1) buf bootpart
      else patch_config n (i + 1) buf bootpart
  end.

Definition sectors (n : Z) : Z := (n + SECT_SIZE - 1) / SECT_SIZE.

(** The partition stored in the image on the disk, if there is one. *)
Definition write_config (bootpart : Z) (buf : list Z) : FM unit :=
  if negb (bootpart =? 0) then
    let! r := lseek (SECT_SIZE * BOOT_SECTOR) in
    if r <? 0 then exit
    else
      let! b := read SECT_SIZE in
      let! buf := lift_opt (asplice buf 0 b) in
      let! buf := lift_opt (patch_config 64 0 buf bootpart) in
      lseek (SECT_SIZE * BOOT_SECTOR) ;;;
      let! b := lift_opt (aslice buf 0 SECT_SIZE) in
      write b ;;;
      ret tt
  else ret tt.

(** What main does once the options are read and the files open: [bootpart] is
    0 without -c, [kernel] the third file if there is one, [buf] the array of
    2048 bytes.  The sizes are those of the files. *)
Definition swriteboot (force_overlap bootpart : Z) (image : list Z) (kernel : option (list Z))
    (dlabel buf : list Z) : FM unit :=
  let kernelsize := match kernel with Some k => sectors (zlen k) | None => 0 end in
  let! ' (r, dlabel) := read_disklabel dlabel in
  if negb (r =? 0) then exit
  else
    let bootsect := BOOT_SECTOR in
    let bootsize := sectors (zlen image) in
    let! x := lift_opt (overlaplabel dlabel (s32 bootsect) (s32 (bootsize + bootsect + kernelsize)) force_overlap) in
    if negb (x =? -1) then exit
    else
      let! ' (bootpart, buf) :=
        (if bootpart =? 0 then read_configured_partition buf else ret (bootpart, buf)) in
      let! r := lseek (60 * 8) in
      if r <? 0 then exit
      else
        write (le_bytes 8 bootsize) ;;;
        write (le_bytes 8 bootsect) ;;;
        write (le_bytes 8 0) ;;;
        let! r := lseek (SECT_SIZE * bootsect) in
        if r <? 0 then exit
        else
          let! buf := copy_file image buf in
          let! buf :=
            match kernel with
            | Some k => if 0 <? kernelsize then copy_file k buf else ret buf
            | None => ret buf
            end in
          write_config bootpart buf ;;;
          dosumlabel dlabel ;;;
          ret tt.

(** ** Lemmas *)

Lemma lseek_Ret off f : 0 <= off → lseek off f = Ret off (UFile (contents f) off).
Proof. intros H. unfold lseek, f_lseek. by rewrite (proj2 (Z.leb_le 0 off) H). Qed.

Lemma read_Ret n f : 0 <= n → 0 <= pos f → pos f + n <= zlen (contents f) →
  ∃ b, aslice (contents f) (pos f) n = Some b ∧ read n f = Ret b (UFile (contents f) (pos f + n)).
Proof.
  intros Hn Hp Hl. destruct f as [c p]. destruct (f_read_in n c p Hn Hp Hl) as (b&E&Er).
  exists b. split; [done|]. unfold read. by rewrite Er.
Qed.

Lemma write_Ret b f : 0 <= pos f → pos f + zlen b <= zlen (contents f) →
  ∃ c, asplice (contents f) (pos f) b = Some c ∧ write b f = Ret (zlen b) (UFile c (pos f + zlen b)).
Proof.
  intros Hp Hl. destruct f as [c p]. destruct (f_write_in b c p Hp Hl) as (c'&E&Ew).
  exists c'. split; [done|]. unfold write. cbn [pos]. by rewrite Ew.
Qed.

(** Two ranges of sectors, end exclusive, have a sector in common. *)
Definition meet (a1 a2 b1 b2 : Z) : Prop := Z.max a1 b1 < Z.min a2 b2.

#[export] Instance meet_dec a1 a2 b1 b2 : Decision (meet a1 a2 b1 b2).
Proof. unfold meet. apply _. Defined.

Lemma does_overlap_spec a1 a2 b1 b2 : a1 < a2 → b1 < b2 →
  does_overlap a1 a2 b1 b2 = true ↔ meet a1 a2 b1 b2 ∧ ¬ (a1 = b1 ∧ a2 = b2).
Proof.
  intros Ha Hb. unfold does_overlap, meet.
  destruct (Z.ltb_spec b1 a1), (Z.ltb_spec a1 b2), (Z.ltb_spec b1 a2), (Z.ltb_spec a2 b2),
    (Z.ltb_spec a1 b1), (Z.ltb_spec b2 a2); cbn [andb]; split; intros; try done; lia.
Qed.

Lemma sum_words_ext n : ∀ buf buf' off sum,
  aslice buf off (8 * Z.of_nat n) = aslice buf' off (8 * Z.of_nat n) → 0 <= off →
  off + 8 * Z.of_nat n <= zlen buf → off + 8 * Z.of_nat n <= zlen buf' →
  sum_words n buf off sum = sum_words n buf' off sum.
Proof.
  induction n as [|n IH]; intros buf buf' off sum E H0 Hl Hl'; [done|]. cbn [sum_words].
  assert (∀ o k, 0 <= o → 0 <= k → o + k <= 8 * Z.of_nat (S n) →
    aslice buf (off + o) k = aslice buf' (off + o) k) as Hsub.
  { intros o k Ho Hk Hok. destruct (aslice_is_Some buf off (8 * Z.of_nat (S n))) as [a Ea]; [lia..|].
    pose proof (aslice_len _ _ _ _ Ea) as Hz. destruct (aslice_is_Some a o k) as [b Eb]; [lia..|].
    rewrite (aslice_aslice _ _ _ _ _ _ _ Ea Eb). rewrite E in Ea.
    by rewrite (aslice_aslice _ _ _ _ _ _ _ Ea Eb). }
  unfold get_le. rewrite <- (Z.add_0_r off) at 1 2. rewrite (Hsub 0 8) by lia. rewrite Z.add_0_r.
  destruct (le_val <$> aslice buf' off 8); [|done]. apply IH; [apply (Hsub 8 (8 * Z.of_nat n))|..]; lia.
Qed.

Lemma sum_words_Some n : ∀ buf off sum, 0 <= off → off + 8 * Z.of_nat n <= zlen buf →
  is_Some (sum_words n buf off sum).
Proof.
  induction n as [|n IH]; intros buf off sum H0 Hl; [by eexists|]. cbn [sum_words]. unfold get_le.
  destruct (aslice_is_Some buf off 8) as [a ->]; [lia..|]. cbn. apply IH; lia.
Qed.

Lemma sum_words_range n b o s sum : 0 <= s < 2 ^ 64 → sum_words n b o s = Some sum → 0 <= sum < 2 ^ 64.
Proof.
  revert o s. induction n as [|n IH]; intros o s Hs E; cbn [sum_words] in E; [by injection E as <-|].
  destruct (get_u64 b o); [|done]. eapply IH; [|exact E]. apply wrap_range. lia.
Qed.

Lemma read_disklabel_ok d c l p : zlen d = sizeof_label → aslice c LABELOFFSET sizeof_label = Some l →
  l_magic l = Some DISKLABELMAGIC → l_magic2 l = Some DISKLABELMAGIC →
  ∃ f, read_disklabel d (UFile c p) = Ret (0, l) f ∧ contents f = c.
Proof.
  intros Hd Hl Hm Hm2. pose proof (aslice_len _ _ _ _ Hl) as Hz. pose proof (proj1 (aslice_Some _ _ _ _) Hl) as (_&_&Hc&_).
  unfold read_disklabel. rewrite (bind_Ret _ _ _ _ _ (lseek_Ret LABELOFFSET (UFile c p) ltac:(done))).
  change (LABELOFFSET <? 0) with false. cbv iota. cbn [contents].
  destruct (read_Ret sizeof_label (UFile c LABELOFFSET)) as (b&Eb&Er); [done|done|exact Hc|].
  cbn [contents pos] in Eb, Er. rewrite Hl in Eb. injection Eb as <-. rewrite (bind_Ret _ _ _ _ _ Er), Hz.
  rewrite asplice_0 by (rewrite Hz, Hd; done). cbn [lift_opt]. rewrite bind_ret, drop_ge by (unfold zlen in *; lia). rewrite app_nil_r.
  change (negb (sizeof_label =? sizeof_label)) with false. cbv iota. rewrite Hm, Hm2. cbn [lift_opt]. rewrite !bind_ret.
  by eexists.
Qed.

(** [dosumlabel] on a disk that has a boot block: the sum it stores is that of
    the block with the label in place. *)
Lemma dosumlabel_ok d f : zlen d = sizeof_label → 512 <= zlen (contents f) →
  ∃ c sum c', asplice (contents f) LABELOFFSET d = Some c ∧ sum_words 63 c 0 0 = Some sum ∧
    asplice (contents f) 504 (le_bytes 8 sum) = Some c' ∧ dosumlabel d f = Ret 0 (UFile c' 512).
Proof.
  intros Hd Hl. unfold dosumlabel. rewrite (bind_Ret _ _ _ _ _ (lseek_Ret 0 f ltac:(lia))).
  cbn [Z.ltb]. change (0 <? 0) with false. cbv iota.
  destruct (read_Ret (64 * 8) (UFile (contents f) 0)) as (buf&Eb&Er); [cbn; lia..|].
  rewrite (bind_Ret _ _ _ _ _ Er). cbn [contents pos] in Eb |- *.
  pose proof (aslice_len _ _ _ _ Eb) as Hz. rewrite Hz. change (negb (64 * 8 =? 64 * 8)) with false. cbv iota.
  destruct (asplice buf LABELOFFSET d) as [buf'|] eqn:Es.
  2:{ unfold asplice in Es. rewrite decide_True in Es; [done|]. unfold LABELOFFSET, sizeof_label in *. lia. }
  destruct (asplice (contents f) LABELOFFSET d) as [c|] eqn:Ec.
  2:{ unfold asplice in Ec. rewrite decide_True in Ec; [done|]. unfold LABELOFFSET, sizeof_label in *. lia. }
  cbn [lift_opt]. rewrite bind_ret.
  assert (zlen buf' = 512) as Hzb by (apply asplice_len in Es; unfold zlen in *; lia).
  assert (zlen c = zlen (contents f)) as Hzc by (apply asplice_len in Ec; unfold zlen in *; lia).
  destruct (sum_words_Some 63 buf' 0 0) as [sum Esum]; [lia..|].
  assert (sum_words 63 c 0 0 = Some sum) as Ecs.
  { rewrite <- Esum. apply sum_words_ext; [|lia..]. apply aslice_cells; [lia..|].
    intros i Hi. rewrite (aget_asplice _ _ _ _ _ Ec), (aget_asplice _ _ _ _ _ Es).
    case_decide; [done|]. rewrite (aget_aslice _ _ _ _ i Eb) by lia. done. }
  rewrite Esum. cbn [lift_opt]. rewrite bind_ret.
  rewrite (bind_Ret _ _ _ _ _ (lseek_Ret (63 * 8) _ ltac:(lia))).
  change (63 * 8 <? 0) with false. cbv iota. cbn [contents].
  destruct (write_Ret (le_bytes 8 sum) (UFile (contents f) (63 * 8))) as (c'&Ec'&Ew).
  { cbn. lia. }
  { unfold zlen at 1. rewrite length_le_bytes. cbn. lia. }
  rewrite (bind_Ret _ _ _ _ _ Ew). unfold zlen at 1. rewrite length_le_bytes.
  exists c, sum, c'. split; [done|]. split; [done|]. split; [done|]. unfold zlen. by rewrite length_le_bytes.
Qed.

(** [write_disklabel] leaves a boot block the SRM console accepts. On any
    disk with a boot block it succeeds, the label is at offset 64, the eight
    bytes at 504 hold the sum modulo 2^64 of the 63 words before them (the new
    label included), and every other byte of the disk is as it was. *)
Lemma write_disklabel_ok d f :
  zlen d = sizeof_label → 512 <= zlen (contents f) →
  ∃ f', write_disklabel d f = Ret 0 f' ∧ zlen (contents f') = zlen (contents f) ∧
    aslice (contents f') LABELOFFSET sizeof_label = Some d ∧
    sum_words 63 (contents f') 0 0 = get_u64 (contents f') 504 ∧
    ∀ i, ¬ (LABELOFFSET <= i < LABELOFFSET + sizeof_label) → ¬ (504 <= i < 512) →
      aget (contents f') i = aget (contents f) i.
Proof.
  intros Hd Hl. destruct (dosumlabel_ok d f Hd Hl) as (c&sum&c'&Ec&Es&Ec'&Er).
  unfold write_disklabel. rewrite (bind_Ret _ _ _ _ _ Er).
  rewrite (bind_Ret _ _ _ _ _ (lseek_Ret LABELOFFSET _ ltac:(unfold LABELOFFSET; lia))).
  change (LABELOFFSET <? 0) with false. cbv iota. cbn [contents].
  assert (zlen c = zlen (contents f)) as Hzc by (apply asplice_len in Ec; unfold zlen in *; lia).
  assert (zlen c' = zlen (contents f)) as Hzc' by (apply asplice_len in Ec'; unfold zlen in *; lia).
  assert (zlen (le_bytes 8 sum) = 8) as H8 by (unfold zlen; by rewrite length_le_bytes).
  destruct (write_Ret d (UFile c' LABELOFFSET)) as (c2&E2&Ew);
    [unfold LABELOFFSET; cbn; lia|unfold LABELOFFSET, sizeof_label in *; cbn; lia|].
  rewrite (bind_Ret _ _ _ _ _ Ew), Hd. change (negb (sizeof_label =? sizeof_label)) with false. cbv iota.
  cbn [contents pos] in E2. eexists. split; [done|]. cbn [contents].
  assert (zlen c2 = zlen c') as Hz2 by (apply asplice_len in E2; unfold zlen in *; lia).
  split; [lia|]. split; [rewrite <- Hd; by eapply aslice_asplice_same|].
  assert (∀ i, 0 <= i < 504 → aget c2 i = aget c i) as Hlow.
  { intros i Hi. rewrite (aget_asplice _ _ _ _ _ E2), (aget_asplice _ _ _ _ _ Ec), (aget_asplice _ _ _ _ _ Ec').
    repeat case_decide; try done; lia. }
  split.
  - transitivity (sum_words 63 c 0 0).
    + apply sum_words_ext; [|lia..]. apply aslice_cells; [lia..|]. intros i Hi. apply Hlow. lia.
    + rewrite Es. unfold get_le.
      rewrite (aslice_asplice_other _ _ _ _ 504 8 E2) by (unfold LABELOFFSET, sizeof_label in *; lia).
      rewrite <- H8 at 1. rewrite (aslice_asplice_same _ _ _ _ Ec').
      change (Some sum = Some (le_val (le_bytes 8 sum))). f_equal. symmetry. rewrite le_val_le_bytes. change (256 ^ Z.of_nat 8) with (2 ^ 64).
      apply (wrap_small 64). eapply sum_words_range; [|exact Es]. lia.
  - intros i H1 H2. rewrite (aget_asplice _ _ _ _ _ E2), decide_False by lia.
    rewrite (aget_asplice _ _ _ _ _ Ec'), decide_False by lia. done.
Qed.

Definition example_label : list Z := match zero_disklabel with Some d => d | None => [] end.

(** Partition [k] of a label: its sectors, an ordinary range of ints. *)
Definition partition_at (d : list Z) (k o e : Z) : Prop :=
  l_poffset d k = Some o ∧ l_psize d k = Some (e - o) ∧ 0 <= o < e ∧ e < 2 ^ 31.

Definition forced (force k : Z) : bool := negb (Z.land force (Z.shiftl 1 k) =? 0).

(** What [overlaplabel] looks for. *)
Definition conflict (d : list Z) (offset endplace force k : Z) : Prop :=
  forced force k = false ∧
  ∃ o e, partition_at d k o e ∧ meet o e offset endplace ∧ ¬ (o = offset ∧ e = endplace).

Lemma overlap_from_spec n : ∀ x d offset endplace force,
  offset < endplace → 0 <= x → x + Z.of_nat n <= 32 →
  (∀ k, x <= k < x + Z.of_nat n → ∃ o e, partition_at d k o e) →
  ∃ r, overlap_from n x d offset endplace force = Some r ∧
    ((r = -1 ∧ ∀ k, x <= k < x + Z.of_nat n → ¬ conflict d offset endplace force k) ∨
     (x <= r < x + Z.of_nat n ∧ conflict d offset endplace force r ∧
      ∀ k, x <= k < r → ¬ conflict d offset endplace force k)).
Proof.
  induction n as [|n IH]; intros x d offset endplace force Hoe Hx H32 Hp.
  { exists (-1). split; [done|]. left. split; [done|]. lia. }
  cbn [overlap_from]. rewrite (proj2 (Z.leb_gt 32 x)) by lia.
  destruct (IH (x + 1) d offset endplace force) as (r&Er&Hr); [done|lia|lia| |].
  { intros k Hk. apply Hp. lia. }
  assert (¬ conflict d offset endplace force x → ∃ r0, overlap_from n (x + 1) d offset endplace force = Some r0 ∧
    ((r0 = -1 ∧ ∀ k, x <= k < x + Z.of_nat (S n) → ¬ conflict d offset endplace force k) ∨
     (x <= r0 < x + Z.of_nat (S n) ∧ conflict d offset endplace force r0 ∧
      ∀ k, x <= k < r0 → ¬ conflict d offset endplace force k))) as Hskip.
  { intros Hno. exists r. split; [done|]. destruct Hr as [[-> Hr]|(Hr1&Hr2&Hr3)].
    - left. split; [done|]. intros k Hk. destruct (decide (k = x)) as [->|]; [done|]. apply Hr. lia.
    - right. split; [lia|]. split; [done|]. intros k Hk.
      destruct (decide (k = x)) as [->|]; [done|]. apply Hr3. lia. }
  destruct (Z.land force (Z.shiftl 1 x) =? 0) eqn:Ef.
  2:{ apply Hskip. intros [Hf _]. unfold forced in Hf. by rewrite Ef in Hf. }
  destruct (Hp x) as (o&e&(Eo&Es&Ho&He)); [lia|]. rewrite Eo, Es.
  rewrite (swrap_small 32 ltac:(lia) o) by lia. replace (o + (e - o)) with e by lia.
  rewrite (wrap_small 32 e) by lia. rewrite (swrap_small 32 ltac:(lia) e) by lia.
  rewrite (proj2 (Z.ltb_lt 0 e)) by lia. cbn [andb].
  destruct (does_overlap o e offset endplace) eqn:Ed.
  - apply does_overlap_spec in Ed as [Hm Hne]; [|lia|done]. exists x. split; [done|]. right.
    split; [lia|]. split; [|intros k; lia]. split; [unfold forced; by rewrite Ef|]. by exists o, e.
  - apply Hskip. intros [_ (o'&e'&(Eo'&Es'&Ho'&He')&Hm&Hne)].
    assert (o' = o) as -> by congruence. assert (e' = e) as -> by (rewrite Es in Es'; injection Es'; lia).
    apply not_true_iff_false in Ed. apply Ed. by apply does_overlap_spec; [lia|done|].
Qed.

(** What [overlaplabel] answers. On a label with at most eight partitions,
    none of them empty, it returns the first partition that is not forced and
    has a sector in the area but is not exactly the area, and -1 when there is
    none. (So an area that is exactly a partition's passes the check.) *)
Theorem overlaplabel_first d n offset endplace force :
  l_npartitions d = Some n → 0 <= n <= 8 → offset < endplace →
  (∀ k, 0 <= k < n → ∃ o e, partition_at d k o e) →
  ∃ r, overlaplabel d offset endplace force = Some r ∧
    ((r = -1 ∧ ∀ k, 0 <= k < n → ¬ conflict d offset endplace force k) ∨
     (0 <= r < n ∧ conflict d offset endplace force r ∧
      ∀ k, 0 <= k < r → ¬ conflict d offset endplace force k)).
Proof.
  intros En Hn Hoe Hp. unfold overlaplabel. rewrite En.
  destruct (overlap_from_spec (Z.to_nat n) 0 d offset endplace force) as (r&Er&Hr); [lia..| |].
  - intros k Hk. apply Hp. lia.
  - exists r. split; [done|]. rewrite Z2Nat.id in Hr by lia. exact Hr.
Qed.

(* partitions 1..99 and 100..199 *)
Definition example_parts : list Z :=
  match (let? (_, d) := set_partition 1000 false example_label 0 1 99 8 in
         let? (_, d) := set_partition 1000 false d 1 100 100 8 in Some d) with
  | Some d => d
  | None => []
  end.

Lemma overlaplabel_first_witness :
  ∃ r, overlaplabel example_parts 2 150 1 = Some r ∧
    ((r = -1 ∧ ∀ k, 0 <= k < 2 → ¬ conflict example_parts 2 150 1 k) ∨
     (0 <= r < 2 ∧ conflict example_parts 2 150 1 r ∧
      ∀ k, 0 <= k < r → ¬ conflict example_parts 2 150 1 k)).
Proof.
  apply (overlaplabel_first example_parts 2 2 150 1).
  - vm_compute. reflexivity.
  - lia.
  - lia.
  - intros k Hk. assert (k = 0 ∨ k = 1) as [-> | ->] by lia.
    + exists 1, 100. unfold partition_at. split; [vm_compute; reflexivity|]. split; [vm_compute; reflexivity|]. lia.
    + exists 100, 200. unfold partition_at. split; [vm_compute; reflexivity|]. split; [vm_compute; reflexivity|]. lia.
Defined.

Example overlap_example : overlaplabel example_parts 2 150 1 = Some 1.
Proof. vm_compute. reflexivity. Qed.

(** Two partitions with the same sectors do not overlap, says the code. *)
Lemma overlap_misses_equal a b : does_overlap a b a b = false.
Proof.
  unfold does_overlap. rewrite !Z.ltb_irrefl. cbn [andb]. rewrite !andb_false_r. done.
Qed.
