(* ===== verification/Srmboot.v ===== *)
(** * srmbootfat/: boot blocks for FAT images and raw partitions

    The tools as the Makefile builds them for the Alpha, where [WORD] and [DWORD]
    are little-endian loads.  The image or device is an open file, [None] where
    open fails; messages are kept with their arguments; the value is that of
    main, the arguments are those behind the program's name.  [heap] is what
    malloc(3) returns for a size. *)

From Stdlib Require Import Ascii String.
From S2P Require Import Prelude CString Vsprintf Ufile Sdisklabel.

Open Scope Z_scope.
Open Scope list_scope.

Record tool := Tool { disk : ufile; output : list (string * list arg) }.

Abbreviation T := (M tool).

Definition say (fmt : string) (args : list arg) : T unit := modify (λ t, Tool (disk t) (output t ++ [(fmt, args)])).
Definition read_disk (n : Z) : T (list Z) := λ t, let '(b, f) := f_read n (disk t) in Ret b (Tool f (output t)).
Definition write_disk (b : list Z) : T unit := modify (λ t, Tool (f_write b (disk t)) (output t)).
Definition seek_disk (off : Z) : T unit := modify (λ t, Tool (f_lseek off (disk t)) (output t)).

(** ** Boot blocks *)

(** [srm.start], [srm.count] and [srm.flags] of a boot block. *)
Definition fill_srm (boot : list Z) (start count : Z) : option (list Z) :=
  let? boot := put_le 8 boot 488 start in
  let? boot := put_le 8 boot 480 count in
  put_le 8 boot 496 0.

(** [check.checksum], from the 63 quadwords in front of it. *)
Definition put_checksum (boot : list Z) : option (list Z) :=
  let? checksum := sum_words 63 boot 0 0 in
  put_le 8 boot 504 checksum.

(** The message and the write at the end of both tools. *)
Definition write_boot (boot : list Z) : T Z :=
  let! start := lift_opt (get_u64 boot 488) in
  let! count := lift_opt (get_u64 boot 480) in
  say ("Writing SRM boot block: starting sector %u, block count %u" ++ nl) [AInt (u32 start); AInt (u32 count)] ;;;
  seek_disk 0 ;;;
  write_disk boot ;;;
  ret 0.

(** ** srmbootfat.c *)

Definition MDIR_SIZE : Z := 32.
Definition sizeof_boot : Z := 1024.

(** Fields of [struct bootsector]. *)
Definition b_secsiz (b : list Z) := get_u16 b 11.
Definition b_clsiz (b : list Z) := aget b 13.
Definition b_nrsvsect (b : list Z) := get_u16 b 14.
Definition b_nfat (b : list Z) := aget b 16.
Definition b_dirents (b : list Z) := get_u16 b 17.
Definition b_descr (b : list Z) := aget b 21.
Definition b_fatlen (b : list Z) := get_u16 b 22.
Definition b_fat_type (b : list Z) := aslice b 54 5.

(** [old_dos]: directory length, cluster size and FAT length by media. *)
Record OldDos_t := OldDos {
  tracks : Z; sectors_per_track : Z; heads : Z; dir_len : Z; cluster_size : Z; fat_len : Z; media : Z }.

Definition old_dos : list OldDos_t := [
  OldDos 40 9 1 4 1 2 0xfc; OldDos 40 9 2 7 2 2 0xfd; OldDos 40 8 1 4 1 1 0xfe; OldDos 40 8 2 7 2 1 0xff;
  OldDos 80 9 2 7 2 3 0xf9; OldDos 80 15 2 14 1 7 0xf9; OldDos 80 18 2 14 1 9 0xf0; OldDos 80 36 2 15 2 9 0xf0;
  OldDos 1 8 1 1 1 1 0xf0].

(** What main keeps of the boot sector. *)
Record geometry := Geometry {
  secsize : Z; clusize : Z; fatstart : Z; nfat : Z; dirents : Z; fatsize : Z; fatbits : Z }.

(** [None] for a field outside the boot sector, [Some None] for an
    unrecognisable type. *)
Definition geometry_of (b : list Z) : option (option geometry) :=
  let? secsize := b_secsiz b in
  let? clusize := b_clsiz b in
  let? fatstart := b_nrsvsect b in
  let? nfat := b_nfat b in
  let? dirents := b_dirents b in
  let? media := b_descr b in
  let? fatsize := b_fatlen b in
  if Z.land media (u32 (Z.lnot 7)) =? 0xf8 then
    let? d := aget old_dos (Z.land media 3) in
    Some (Some (Geometry secsize (cluster_size d) 1 2 (dir_len d * (512 / MDIR_SIZE)) (fat_len d) 12))
  else
    let? type := b_fat_type b in
    if bool_decide (type = str "FAT12") then Some (Some (Geometry secsize clusize fatstart nfat dirents fatsize 12))
    else if bool_decide (type = str "FAT16") then Some (Some (Geometry secsize clusize fatstart nfat dirents fatsize 16))
    else Some None.

(** A shift by 32 is no value of C: [None], as for an access outside the FAT. *)
Definition get_fat_entry (fat : list Z) (fatbits entry : Z) : option Z :=
  if fatbits =? 12 then
    let entry := u32 (entry * 3) in
    let i := Z.shiftl (Z.land entry 7) 2 in
    let entry := Z.shiftr entry 3 in
    let? a := get_u32 fat (4 * entry) in
    let? b := get_u32 fat (4 * u32 (entry + 1)) in
    if 32 <=? 32 - i then None
    else Some (Z.land (Z.lor (Z.shiftr a i) (u32 (Z.shiftl b (32 - i)))) 0xfff)
  else get_u16 fat (2 * entry).

(** *** The name in the directory *)

(* toupper(3) in the C locale *)
Definition toupper (c : Z) : Z := if (97 <=? c) && (c <=? 122) then c - 32 else c.

Fixpoint dosname_from (p : list Z) (i : Z) (dosname : list Z) : option (list Z) :=
  match p with
  | [] => Some dosname
  | c :: p =>
      if c =? 46 then dosname_from p 8 dosname
      else if i <? zlen dosname then
        let? dosname := aset dosname i (toupper c) in dosname_from p (i + 1) dosname
      else dosname_from p i dosname
  end.

Definition dosname_of (path : list Z) : option (list Z) := dosname_from path 0 (replicate 12 32).

(** The first entry of [n] from [i] on with the name, and no label or directory. *)
Fixpoint find_entry (n : nat) (i : Z) (rootdir dosname : list Z) : option (option Z) :=
  match n with
  | O => Some None
  | S n =>
      let? name := aslice rootdir (MDIR_SIZE * i) 11 in
      let? attr := aget rootdir (MDIR_SIZE * i + 11) in
      if bool_decide (name = take 11 dosname) && (Z.land attr (Z.lor 8 16) =? 0) then Some (Some i)
      else find_entry n (i + 1) rootdir dosname
  end.

(** *** The chain of clusters *)

(** while ((j = get_fat_entry (fat, fatbits, start)) < fat_end): the number of
    clusters of a contiguous file, [inr] of one that is not.  A turn moves
    [start] on by one below [fat_end]. *)
Definition check_chain (fat : list Z) (fatbits start : Z) : T (option Z) :=
  let fat_end := u32 (Z.shiftl 1 fatbits - 9) in
  loop (S (Z.to_nat fat_end)) (λ '(start, i),
    let! j := lift_opt (get_fat_entry fat fatbits start) in
    if j <? fat_end then
      if negb (j =? u32 (start + 1)) then ret (inr None) else ret (inl (j, i + 1))
    else ret (inr (Some i))) (start, 1).

Section tools.
Context (heap : Z → Z).

(** The file found, and the boot sector to be written. *)
Definition mark_fat (argv1 argv2 boot : list Z) (g : geometry) : T Z :=
  (if negb (nfat g =? 1) && negb (nfat g =? 2)
   then say ("%s: warning: weird number of FAT tables (%d)" ++ nl) [AStr (Some argv1); AInt (nfat g)] else ret tt) ;;;
  let i := s32 (u32 (fatsize g * secsize g)) in
  let dirsize := u32 (dirents g * MDIR_SIZE) in
  if (heap (u64 i) =? 0) || (heap dirsize =? 0) then say ("Not enough memory" ++ nl) [] ;;; ret 2
  else
    seek_disk (u32 (fatstart g * secsize g)) ;;;
    let! fat := read_disk (u64 i) in
    if negb (zlen fat =? i) then say "perror" [] ;;; ret 2
    else
      let! t := gets disk in
      seek_disk (pos t + u32 (u32 (nfat g - 1) * u32 i)) ;;;
      let! rootdir := read_disk dirsize in
      if negb (zlen rootdir =? dirsize) then say "perror" [] ;;; ret 2
      else
        let! dosname := lift_opt (dosname_of argv2) in
        let! found := lift_opt (find_entry (Z.to_nat (dirents g)) 0 rootdir dosname) in
        match found with
        | None =>
            say ("Can't find %s in the root directory in %s" ++ nl) [AStr (Some argv2); AStr (Some argv1)] ;;; ret 4
        | Some e =>
            let! start := lift_opt (get_u16 rootdir (MDIR_SIZE * e + 26)) in
            let! size := lift_opt (get_u32 rootdir (MDIR_SIZE * e + 28)) in
            if u32 (fatsize g * secsize g * 8) <? start * fatbits g then
              say "%s: first cluster (%u) is beyond the end of FAT" [AStr (Some argv2); AInt start] ;;; ret 3
            else
              let size := u32 (size + secsize g - 1) / secsize g in
              let first := u32 (u32 ((start - 2) * clusize g) + fatstart g + nfat g * fatsize g
                + dirents g / (512 / MDIR_SIZE)) in
              let! boot := lift_opt (fill_srm boot first size) in
              let! chain := check_chain fat (fatbits g) start in
              match chain with
              | None => say ("Unfortunately, %s is not contiguous" ++ nl) [AStr (Some argv2)] ;;; ret 4
              | Some n =>
                  if clusize g =? 0 then trap
                  else if negb (u32 (size + clusize g - 1) / clusize g =? n) then
                    say ("Inconsistency: file size contradicts with the number of clusters allocated" ++ nl) [] ;;; ret 3
                  else
                    let! boot := lift_opt (put_checksum boot) in
                    write_boot boot
              end
        end.

Definition srmbootfat (argv : list (list Z)) (file : option ufile) : T Z :=
  match argv with
  | [argv1; argv2] =>
      match file with
      | None => say "perror" [] ;;; ret 2
      | Some f =>
          modify (λ t, Tool f (output t)) ;;;
          let! boot := read_disk sizeof_boot in
          if negb (zlen boot =? sizeof_boot) then say ("Can't read boot sector from %s" ++ nl) [AStr (Some argv1)] ;;; ret 2
          else
            let! g := lift_opt (geometry_of boot) in
            match g with
            | None => say ("%s: unrecognisable FAT type" ++ nl) [AStr (Some argv1)] ;;; ret 3
            | Some g =>
                if negb (secsize g =? 512) then
                  say ("%s: sector size is %d; unfortunately, this is not supported" ++ nl) [AStr (Some argv1); AInt (secsize g)] ;;;
                  ret 3
                else mark_fat argv1 argv2 boot g
            end
      end
  | _ => say ("Usage:  srmbootfat <filesystem image file> <boot file>" ++ nl) [] ;;; ret 1
  end.

(** ** srmbootraw.c *)

Definition BUFSIZE : Z := 65536.

(** while ((len = read (image, buf, BUFSIZE)) > 0): the size of the image. *)
Definition copy_image (image : list Z) : T Z :=
  loop (S (length image)) (λ '(rest, size),
    let b := take (Z.to_nat BUFSIZE) rest in
    if zlen b =? 0 then ret (inr size)
    else write_disk b ;;; ret (inl (drop (Z.to_nat BUFSIZE) rest, u64 (size + zlen b)))) (image, 0).

Definition srmbootraw (argv : list (list Z)) (device : option ufile) (image : option (list Z)) : T Z :=
  match argv with
  | [argv1; argv2] =>
      match device, image with
      | Some f, Some image =>
          modify (λ t, Tool f (output t)) ;;;
          let! boot := read_disk 512 in
          if negb (zlen boot =? 512) then say ("Can't read boot sector from %s" ++ nl) [AStr (Some argv1)] ;;; ret 2
          else if heap BUFSIZE =? 0 then say ("Can't allocate memory for %s" ++ nl) [AStr (Some argv2)] ;;; ret 2
          else
            let! size := copy_image image in
            let! boot := lift_opt (fill_srm boot 1 (u64 (size + 511) / 512)) in
            let! boot := lift_opt (put_checksum boot) in
            write_boot boot
      | _, _ => say "perror" [] ;;; ret 2
      end
  | _ => say ("Usage:  srmbootraw <boot device> <boot image>" ++ nl) [] ;;; ret 1
  end.
End tools.

(** ** Lemmas *)

(** A boot block with its fields and its checksum; all else is kept. *)
Record marked (b b' : list Z) (start count : Z) : Prop := {
  mk_len : zlen b' = zlen b;
  mk_fields : get_u64 b' 480 = Some count ∧ get_u64 b' 488 = Some start ∧ get_u64 b' 496 = Some 0;
  mk_sum : ∃ sum, sum_words 63 b' 0 0 = Some sum ∧ get_u64 b' 504 = Some sum;
  mk_rest : ∀ i, i < 480 ∨ 512 <= i → aget b' i = aget b i
}.

Lemma fill_srm_ok b start count : 512 <= zlen b → 0 <= start < 2 ^ 64 → 0 <= count < 2 ^ 64 →
  ∃ b1 b2, fill_srm b start count = Some b1 ∧ put_checksum b1 = Some b2 ∧ marked b b2 start count.
Proof.
  intros Hl Hs Hc. unfold fill_srm.
  destruct (put_le_is_Some 8 b 488 start) as [x1 E1]; [lia..|]. pose proof (put_le_len _ _ _ _ _ E1).
  destruct (put_le_is_Some 8 x1 480 count) as [x2 E2]; [lia..|]. pose proof (put_le_len _ _ _ _ _ E2).
  destruct (put_le_is_Some 8 x2 496 0) as [x3 E3]; [lia..|]. pose proof (put_le_len _ _ _ _ _ E3).
  rewrite E1, E2, E3. exists x3. unfold put_checksum.
  destruct (sum_words_Some 63 x3 0 0) as [sum Esum]; [lia..|]. rewrite Esum.
  destruct (put_le_is_Some 8 x3 504 sum) as [x4 E4]; [lia..|]. pose proof (put_le_len _ _ _ _ _ E4).
  exists x4. split; [done|]. split; [done|].
  assert (∀ n l l' off v i, put_le n l off v = Some l' → i < off ∨ off + Z.of_nat n <= i → aget l' i = aget l i) as Hother.
  { intros n l l' off v i E Hi. rewrite (aget_asplice _ _ _ _ _ E), decide_False; [done|].
    unfold zlen. rewrite length_le_bytes. lia. }
  pose proof (get_put_le _ _ _ _ _ E1) as G1. pose proof (get_put_le _ _ _ _ _ E2) as G2.
  pose proof (get_put_le _ _ _ _ _ E3) as G3. pose proof (get_put_le _ _ _ _ _ E4) as G4.
  change (256 ^ Z.of_nat 8) with (2 ^ 64) in *. change (Z.of_nat 8) with 8 in *.
  rewrite (Z.mod_small start), (Z.mod_small count) in * by lia.
  rewrite (Z.mod_small sum) in G4 by (eapply sum_words_range; [|exact Esum]; lia).
  split.
  - lia.
  - rewrite !(get_put_le_other _ _ _ _ _ _ _ E4), (get_put_le_other _ _ _ _ _ 8 480 E3),
      (get_put_le_other _ _ _ _ _ 8 488 E3), (get_put_le_other _ _ _ _ _ 8 488 E2) by lia. done.
  - exists sum. split; [|done]. rewrite <- Esum. apply sum_words_ext; [|lia..]. apply aslice_cells; [lia..|].
    intros i Hi. apply (Hother _ _ _ _ _ _ E4). lia.
  - intros i Hi. rewrite (Hother _ _ _ _ _ _ E4), (Hother _ _ _ _ _ _ E3), (Hother _ _ _ _ _ _ E2), (Hother _ _ _ _ _ _ E1); [done|lia..].
Qed.

Lemma write_boot_ok boot start count (t : tool) : get_u64 boot 488 = Some start → get_u64 boot 480 = Some count →
  ∃ t', write_boot boot t = Ret 0 t' ∧ disk t' = f_write boot (UFile (contents (disk t)) 0).
Proof.
  intros Es Ec. unfold write_boot. rewrite Es, Ec. cbn [lift_opt]. rewrite !bind_ret. by eexists.
Qed.

Lemma f_write_start b c : contents (f_write b (UFile c 0)) = b ++ drop (length b) c.
Proof. unfold f_write. cbn. by rewrite app_nil_r. Qed.

(** ** Raw partitions *)

Lemma copy_image_loop sz : 0 < sz → ∀ n image (done_ size : Z) pre fl (t : tool), (length image <= n)%nat → (n < fl)%nat →
  contents (disk t) = pre → pos (disk t) = done_ → 0 <= done_ <= zlen pre → 0 <= size → size + zlen image < 2 ^ 64 →
  ∃ t', loop fl (λ '(rest, size),
      let b := take (Z.to_nat sz) rest in
      if zlen b =? 0 then ret (inr size)
      else write_disk b ;;; ret (inl (drop (Z.to_nat sz) rest, u64 (size + zlen b)))) (image, size) t
    = Ret (size + zlen image) t' ∧
    contents (disk t') = take (Z.to_nat done_) pre ++ image ++ drop (Z.to_nat (done_ + zlen image)) pre.
Proof.
  intros Hsz. induction n as [n IH] using lt_wf_ind. intros image done_ size pre fl t Hn Hfl Hc Hp Hd Hs H64.
  destruct fl as [|fl]; [lia|]. destruct image as [|c image].
  - exists t. change (zlen (@nil Z)) with 0 in *. rewrite Z.add_0_r in *. erewrite loop_exit; [|by rewrite take_nil].
    split; [done|]. rewrite Z.add_0_r. cbn [app]. by rewrite take_drop.
  - set (l := c :: image) in *. set (b := take (Z.to_nat sz) l).
    assert (0 < zlen b <= zlen l ∧ (0 < length b)%nat) as (Hb1&Hb2).
    { subst b l. unfold zlen. rewrite length_take. cbn [length]. lia. }
    set (t1 := Tool (f_write b (disk t)) (output t)). set (rest := drop (Z.to_nat sz) l).
    assert (b ++ rest = l) as Hsplit by apply take_drop.
    assert (zlen b + zlen rest = zlen l) as Hz by (rewrite <- zlen_app, Hsplit; done). pose proof (zlen_nonneg rest).
    erewrite loop_step with (s' := t1).
    2:{ fold b rest. cbv zeta. rewrite (proj2 (Z.eqb_neq (zlen b) 0)) by lia. reflexivity. }
    destruct (IH (length rest)) with (image := rest) (done_ := done_ + zlen b) (size := u64 (size + zlen b))
      (pre := take (Z.to_nat done_) pre ++ b ++ drop (Z.to_nat (done_ + zlen b)) pre) (fl := fl) (t := t1)
      as (t'&E&Hc').
    + unfold zlen in *. subst l. lia.
    + lia.
    + unfold zlen in *. lia.
    + subst t1. unfold f_write. cbn [disk contents]. rewrite Hc, Hp.
      replace (Z.to_nat done_ - length pre)%nat with 0%nat by (unfold zlen in *; lia).
      rewrite app_nil_r. do 3 f_equal. unfold zlen. lia.
    + subst t1. cbn. by rewrite Hp.
    + rewrite !zlen_app. pose proof (zlen_nonneg (drop (Z.to_nat (done_ + zlen b)) pre)).
      unfold zlen in *. rewrite length_take. lia.
    + rewrite (wrap_small 64) by lia. lia.
    + rewrite (wrap_small 64) by lia. lia.
    + exists t'. rewrite (wrap_small 64) in * by lia. split; [rewrite E; f_equal; lia|]. rewrite Hc'.
      assert (take (Z.to_nat (done_ + zlen b)) (take (Z.to_nat done_) pre ++ b ++ drop (Z.to_nat (done_ + zlen b)) pre)
        = take (Z.to_nat done_) pre ++ b) as ->.
      { rewrite app_assoc, take_app_length'; [done|]. rewrite length_app, length_take. unfold zlen in *. lia. }
      assert (drop (Z.to_nat (done_ + zlen b + zlen rest)) (take (Z.to_nat done_) pre ++ b ++ drop (Z.to_nat (done_ + zlen b)) pre)
        = drop (Z.to_nat (done_ + zlen l)) pre) as ->.
      { rewrite app_assoc. replace (Z.to_nat (done_ + zlen b + zlen rest)) with (length (take (Z.to_nat done_) pre ++ b) + length rest)%nat
          by (rewrite length_app, length_take; unfold zlen in *; lia).
        rewrite drop_app_add, drop_drop. f_equal. unfold zlen in *. lia. }
      rewrite <- !app_assoc, <- Hsplit. by rewrite <- app_assoc.
Qed.

(** C18: [srmbootraw] leaves on the device a boot block, the image right behind it
    and the rest as it was: the boot block keeps its label, counts the sectors of
    the image, says that it starts in sector 1, and has its checksum. *)
Theorem srmbootraw_device heap argv1 argv2 dev image (t : tool) :
  heap BUFSIZE ≠ 0 → 512 <= zlen dev → zlen image < 2 ^ 63 →
  let count := (zlen image + 511) / 512 in
  ∃ t' boot, srmbootraw heap [argv1; argv2] (Some (UFile dev 0)) (Some image) t = Ret 0 t' ∧
    contents (disk t') = boot ++ image ++ drop (Z.to_nat (512 + zlen image)) dev ∧
    marked (take 512 dev) boot 1 count ∧ zlen image <= count * 512 < zlen image + 512.
Proof.
  intros Hheap Hd Hi count. pose proof (zlen_nonneg image). unfold srmbootraw.
  set (t1 := Tool (UFile dev 0) (output t)). set (t2 := Tool (UFile dev 512) (output t)).
  rewrite (bind_Ret (modify (λ t, Tool (UFile dev 0) (output t))) _ t tt t1 eq_refl).
  assert (zlen (take 512 dev) = 512) as Hz by (unfold zlen in *; rewrite length_take; lia).
  assert (read_disk 512 t1 = Ret (take 512 dev) t2) as Er.
  { unfold read_disk, f_read. cbn [disk t1 contents pos]. change (Z.to_nat 0) with 0%nat. rewrite drop_0.
    change (Z.to_nat 512) with 512%nat. rewrite Hz. done. }
  rewrite (bind_Ret _ _ _ _ _ Er), Hz. change (negb (512 =? 512)) with false. cbv iota.
  rewrite (proj2 (Z.eqb_neq _ _) Hheap). unfold copy_image.
  destruct (copy_image_loop BUFSIZE eq_refl (length image) image 512 0 dev (S (length image)) t2) as (t3&E3&Hc3); [lia..|done|done|lia|lia|lia|].
  rewrite (bind_Ret _ _ _ _ _ E3), Z.add_0_l, (wrap_small 64) by lia. fold count.
  assert (0 <= count < 2 ^ 64 ∧ zlen image <= count * 512 < zlen image + 512) as [Hcr Hcs].
  { subst count. pose proof (Z.div_mod (zlen image + 511) 512 ltac:(lia)).
    pose proof (Z.mod_pos_bound (zlen image + 511) 512 ltac:(lia)). lia. }
  destruct (fill_srm_ok (take 512 dev) 1 count) as (b1&b2&E1&E2&Hm); [lia..|].
  rewrite E1. cbn [lift_opt]. rewrite bind_ret, E2. cbn [lift_opt]. rewrite bind_ret.
  destruct (mk_fields _ _ _ _ Hm) as (Hcount&Hstart&_). destruct (write_boot_ok b2 1 count t3 Hstart Hcount) as (t4&E4&Hd4).
  exists t4, b2. split; [exact E4|]. split; [|done]. rewrite Hd4, Hc3, f_write_start. f_equal.
  pose proof (mk_len _ _ _ _ Hm) as Hzb. rewrite drop_app_ge by (unfold zlen in *; rewrite length_take in *; lia).
  replace (_ - _)%nat with 0%nat by (unfold zlen in *; rewrite length_take in *; lia). done.
Qed.

Lemma srmbootraw_device_witness :
  ∃ t' boot, srmbootraw (λ _, 1) [str "dev"; str "image"] (Some (UFile (replicate 1200 7) 0)) (Some (replicate 600 9))
      (Tool (UFile [] 0) []) = Ret 0 t' ∧
    contents (disk t') = boot ++ replicate 600 9 ++ replicate 88 7 ∧ marked (replicate 512 7) boot 1 2.
Proof.
  destruct (srmbootraw_device (λ _, 1) (str "dev") (str "image") (replicate 1200 7) (replicate 600 9) (Tool (UFile [] 0) []))
    as (t'&boot&E&Hc&Hm&_); [done|vm_compute; discriminate|vm_compute; reflexivity|].
  exists t', boot. split; [exact E|]. split; [rewrite Hc; by vm_compute|exact Hm].
Defined.

(** ** FAT *)

(** Entry [n] of a FAT-12: 12 bits of the bytes [n + n / 2] and the one behind. *)
Definition fat12_entry (fat : list Z) (n : Z) : option Z :=
  let? w := get_u16 fat (n + n / 2) in Some (Z.land (Z.shiftr w (4 * (n mod 2))) 0xfff).

(** [get_fat_entry] reads the twelve bits of an entry out of two 32-bit words;
    that is the entry of the format, except that for every eighth entry, whose
    bits begin with a word, the second word is shifted by 32, which is undefined
    (here [None]). *)
Theorem get_fat_entry_12 fat n : Forall is_byte fat → 0 <= n < 2 ^ 16 → 4 * (3 * n / 8) + 8 <= zlen fat →
  get_fat_entry fat 12 n = if n mod 8 =? 0 then None else fat12_entry fat n.
Proof.
  intros HF Hn Hl. unfold get_fat_entry. change (12 =? 12) with true. cbv iota zeta.
  rewrite (wrap_small 32 (n * 3)), Z.shiftr_div_pow2, Z.shiftl_mul_pow2 by lia. change (2 ^ 3) with 8. change (2 ^ 2) with 4.
  rewrite (Z.land_ones (n * 3) 3 ltac:(lia) : Z.land _ 7 = _ mod 8), (Z.mul_comm n 3).
  pose proof (Z.div_mod (3 * n) 8 ltac:(lia)) as Hdm. pose proof (Z.mod_pos_bound (3 * n) 8 ltac:(lia)) as Hm.
  set (q := 3 * n / 8) in *. set (r := (3 * n) mod 8) in *. rewrite (wrap_small 32 (q + 1)) by lia.
  destruct (aslice_is_Some fat (4 * q) 4) as [a Ea]; [lia..|]. destruct (aslice_is_Some fat (4 * (q + 1)) 4) as [b Eb]; [lia..|].
  assert (get_u32 fat (4 * q) = Some (le_val a)) as Ga by (unfold get_le; by rewrite Ea).
  assert (get_u32 fat (4 * (q + 1)) = Some (le_val b)) as Gb by (unfold get_le; by rewrite Eb). rewrite Ga, Gb.
  pose proof (Z.div_mod n 8 ltac:(lia)). pose proof (Z.mod_pos_bound n 8 ltac:(lia)).
  pose proof (Z.div_mod n 2 ltac:(lia)). pose proof (Z.mod_pos_bound n 2 ltac:(lia)).
  destruct (Z.eqb_spec (n mod 8) 0) as [E8|E8].
  - assert (r = 0) as -> by lia. done.
  - assert (0 < r) by lia. rewrite (proj2 (Z.leb_gt _ _)) by lia. unfold fat12_entry.
    destruct (aslice_is_Some fat (n + n / 2) 2) as [w Ew]; [lia..|].
    assert (get_u16 fat (n + n / 2) = Some (le_val w)) as Gw by (unfold get_le; by rewrite Ew). rewrite Gw. f_equal.
    apply Z.bits_inj'. intros k Hk. rewrite !Z.land_spec. change 4095 with (Z.ones 12).
    destruct (Z.ltb_spec k 12); [|by rewrite !Z.ones_spec_high, !andb_false_r by lia].
    rewrite Z.ones_spec_low, !andb_true_r by lia. rewrite Z.lor_spec, !Z.shiftr_spec by lia.
    rewrite (get_le_testbit _ _ _ _ (k + r * 4) HF Ga), (get_le_testbit _ _ _ _ (k + 4 * (n mod 2)) HF Gw) by lia.
    rewrite (decide_True (P := k + 4 * (n mod 2) < 8 * 2)) by lia. unfold wrap.
    destruct (decide (k + r * 4 < 8 * 4)).
    + rewrite Z.mod_pow2_bits_low, Z.shiftl_spec, (Z.testbit_neg_r (le_val b)), orb_false_r by lia. f_equal. lia.
    + rewrite Z.mod_pow2_bits_low, Z.shiftl_spec by lia. rewrite (get_le_testbit _ _ _ _ _ HF Gb), decide_True by lia.
      cbn [orb]. f_equal. lia.
Qed.

Lemma get_fat_entry_12_witness :
  let fat := [0xf0; 0xff; 0xff; 0x03; 0x40; 0x00; 0xff; 0x8f; 0x00; 0xff; 0x0f; 0x00; 0; 0; 0; 0] in
  get_fat_entry fat 12 3 = Some 4 ∧ get_fat_entry fat 12 0 = None.
Proof.
  intros fat. assert (Forall is_byte fat) as HF by (apply (bool_decide_unpack _); vm_compute; exact I).
  split; (rewrite (get_fat_entry_12 fat) by (done || lia)); by vm_compute.
Defined.

Lemma check_chain_loop fat bits start fat_end n e : ∀ m k fl (t : tool), Z.of_nat m = n - 1 - k → 0 <= k → (m < fl)%nat →
  0 <= start → start + n < 2 ^ 32 →
  (∀ k, 0 <= k < n - 1 → get_fat_entry fat bits (start + k) = Some (start + k + 1) ∧ start + k + 1 < fat_end) →
  get_fat_entry fat bits (start + n - 1) = Some e → fat_end <= e →
  loop fl (λ '(start, i),
    let! j := lift_opt (get_fat_entry fat bits start) in
    if j <? fat_end then
      if negb (j =? u32 (start + 1)) then ret (inr None) else ret (inl (j, i + 1))
    else ret (inr (Some i))) (start + k, 1 + k) t = Ret (Some n) t.
Proof.
  induction m as [|m IH]; intros k fl t Hm Hk Hfl Hs H32 Hc He Hle; (destruct fl as [|fl]; [lia|]).
  - replace (start + k) with (start + n - 1) by lia. erewrite loop_exit.
    2:{ rewrite He. cbn [lift_opt]. rewrite bind_ret, (proj2 (Z.ltb_ge _ _)) by lia. reflexivity. }
    do 2 f_equal. lia.
  - destruct (Hc k) as [E Hlt]; [lia|]. erewrite loop_step.
    2:{ rewrite E. cbn [lift_opt]. rewrite bind_ret, (proj2 (Z.ltb_lt _ _)), (wrap_small 32), Z.eqb_refl by lia. reflexivity. }
    replace (start + k + 1) with (start + (k + 1)) by lia. replace (1 + k + 1) with (1 + (k + 1)) by lia.
    apply IH; [lia|lia|lia|done..].
Qed.

(** The entry has the name and is neither a label nor a directory. *)
Definition is_file (rootdir name : list Z) (i : Z) : bool :=
  bool_decide (aslice rootdir (32 * i) 11 = Some name) &&
  match aget rootdir (32 * i + 11) with Some a => Z.land a 24 =? 0 | None => false end.

Lemma find_entry_first rootdir dosname e : ∀ n i, Z.of_nat n * 32 + 32 * i <= zlen rootdir → 0 <= i <= e →
  e < i + Z.of_nat n → is_file rootdir (take 11 dosname) e = true →
  (∀ j, 0 <= j < e → is_file rootdir (take 11 dosname) j = false) →
  find_entry n i rootdir dosname = Some (Some e).
Proof.
  induction n as [|n IH]; intros i Hl Hi He Hm Hf; [lia|]. cbn [find_entry]. unfold MDIR_SIZE.
  destruct (aslice_is_Some rootdir (32 * i) 11) as [a Ea]; [lia..|].
  destruct (proj2 (aget_is_Some rootdir (32 * i + 11))) as [x Ex]; [lia|]. rewrite Ea, Ex. change (Z.lor 8 16) with 24.
  assert (is_file rootdir (take 11 dosname) i = bool_decide (a = take 11 dosname) && (Z.land x 24 =? 0)) as <-.
  { unfold is_file. rewrite Ea, Ex. f_equal. apply bool_decide_ext. split; [by intros [=]|by intros ->]. }
  destruct (decide (i = e)) as [->|Hne]; [by rewrite Hm|]. rewrite Hf by lia. apply IH; [lia|lia|lia|done|done].
Qed.

(** A file of [clusters] successive clusters from [start] on, in the root
    directory of the image: the FAT and the directory are where the boot sector
    says. *)
Record fat_file (img path : list Z) (g : geometry) (start size clusters : Z) : Prop := {
  ff_boot : ∃ b, aslice img 0 sizeof_boot = Some b ∧ geometry_of b = Some (Some g);
  ff_geometry : secsize g = 512 ∧ (nfat g = 1 ∨ nfat g = 2) ∧ 0 < clusize g < 256 ∧ 0 <= fatstart g < 2 ^ 16 ∧
    0 <= fatsize g < 2 ^ 16 ∧ 0 <= dirents g < 2 ^ 16 ∧ (fatbits g = 12 ∨ fatbits g = 16);
  ff_entry : ∃ rootdir dosname e,
    aslice img ((fatstart g + nfat g * fatsize g) * 512) (dirents g * 32) = Some rootdir ∧
    dosname_of path = Some dosname ∧ 0 <= e < dirents g ∧ is_file rootdir (take 11 dosname) e = true ∧
    (∀ j, 0 <= j < e → is_file rootdir (take 11 dosname) j = false) ∧
    get_u16 rootdir (32 * e + 26) = Some start ∧ get_u32 rootdir (32 * e + 28) = Some size;
  ff_chain : ∃ fat e,
    aslice img (fatstart g * 512) (fatsize g * 512) = Some fat ∧
    (∀ k, 0 <= k < clusters - 1 → get_fat_entry fat (fatbits g) (start + k) = Some (start + k + 1) ∧
       start + k + 1 < 2 ^ fatbits g - 9) ∧
    get_fat_entry fat (fatbits g) (start + clusters - 1) = Some e ∧ 2 ^ fatbits g - 9 <= e;
  ff_size : 2 <= start < 2 ^ 16 ∧ start * fatbits g <= fatsize g * 4096 ∧ 0 <= size < 2 ^ 32 - 512 ∧ 1 <= clusters <= 2 ^ 16 ∧
    ((size + 511) / 512 + clusize g - 1) / clusize g = clusters
}.

Lemma read_disk_ok n f out b : 0 <= n → aslice (contents f) (pos f) n = Some b →
  read_disk n (Tool f out) = Ret b (Tool (UFile (contents f) (pos f + n)) out).
Proof.
  intros Hn Ha. unfold read_disk, f_read. cbn [disk output]. pose proof (aslice_len _ _ _ _ Ha) as Hz.
  apply aslice_Some in Ha as (_&_&_&->). by rewrite Hz.
Qed.

(** C17: [srmbootfat] on an image with the file in the root directory and in
    successive clusters: the boot block gets the first sector of the first
    cluster, the number of sectors and a checksum, and nothing else of the image
    changes.  For FAT-12 the hypothesis on the chain excludes the entries that
    [get_fat_entry] cannot read. *)
Theorem srmbootfat_marks heap argv1 argv2 img g start size clusters (t : tool) :
  (∀ n, heap n ≠ 0) → fat_file img argv2 g start size clusters →
  let first := fatstart g + nfat g * fatsize g + dirents g / 16 + (start - 2) * clusize g in
  ∃ t' boot, srmbootfat heap [argv1; argv2] (Some (UFile img 0)) t = Ret 0 t' ∧
    contents (disk t') = boot ++ drop 1024 img ∧ marked (take 1024 img) boot first ((size + 511) / 512).
Proof.
  intros Hheap [(b&Eb&Eg) (Hss&Hnf&Hcl&Hfs&Hfz&Hde&Hbits) (rootdir&dosname&e&Er&Ed&He&Hm&Hfirst&Est&Esz)
    (fat&last_&Ef&Hc&Hl&Hle) (Hst&Hend&Hsz&Hcn&Hclu)] first. unfold srmbootfat.
  set (t1 := Tool (UFile img 0) (output t)).
  rewrite (bind_Ret (modify (λ t, Tool (UFile img 0) (output t))) _ t tt t1 eq_refl).
  rewrite (bind_Ret _ _ _ _ _ (read_disk_ok sizeof_boot (UFile img 0) (output t) b ltac:(done) Eb)).
  pose proof (aslice_len _ _ _ _ Eb) as Hzb. rewrite Hzb, Z.eqb_refl. cbn [negb]. rewrite Eg. cbn [lift_opt].
  rewrite bind_ret, Hss. change (negb (512 =? 512)) with false. cbv iota. unfold mark_fat. cbn [contents pos].
  assert (negb (nfat g =? 1) && negb (nfat g =? 2) = false) as -> by (destruct Hnf as [->| ->]; done).
  rewrite bind_ret. cbv zeta. rewrite Hss.
  rewrite (wrap_small 32 (fatsize g * 512)), (swrap_small 32 eq_refl), (wrap_small 64 (fatsize g * 512)) by lia.
  unfold MDIR_SIZE. rewrite (wrap_small 32 (dirents g * 32)) by lia.
  rewrite !(proj2 (Z.eqb_neq _ 0) (Hheap _)). cbn [orb]. rewrite (wrap_small 32 (fatstart g * 512)) by lia.
  rewrite (bind_Ret (seek_disk (fatstart g * 512)) _ _ tt (Tool (UFile img (fatstart g * 512)) (output t))).
  2:{ unfold seek_disk, modify, f_lseek. cbn [disk output contents]. by rewrite (proj2 (Z.leb_le _ _)) by lia. }
  rewrite (bind_Ret _ _ _ _ _ (read_disk_ok (fatsize g * 512) (UFile img (fatstart g * 512)) (output t) fat ltac:(lia) Ef)).
  cbn [contents pos]. rewrite (aslice_len _ _ _ _ Ef), Z.eqb_refl. cbn [negb].
  rewrite (bind_Ret (gets disk) _ (Tool (UFile img (fatstart g * 512 + fatsize g * 512)) (output t)) _ _ eq_refl).
  cbn [disk pos].
  set (t2 := Tool (UFile img ((fatstart g + nfat g * fatsize g) * 512)) (output t)).
  rewrite (bind_Ret (seek_disk _) _ _ tt t2).
  2:{ unfold seek_disk, modify, f_lseek. cbn [disk output contents].
      assert (u32 (u32 (nfat g - 1) * u32 (fatsize g * 512)) = (nfat g - 1) * (fatsize g * 512)) as ->.
      { rewrite (wrap_small 32 (nfat g - 1)), (wrap_small 32 (fatsize g * 512)), wrap_small by (destruct Hnf as [Hn|Hn]; rewrite ?Hn; lia). done. }
      rewrite (proj2 (Z.leb_le _ _)) by (destruct Hnf as [Hn|Hn]; rewrite ?Hn; lia). subst t2. do 3 f_equal. lia. }
  rewrite (bind_Ret _ _ _ _ _ (read_disk_ok (dirents g * 32) (UFile img ((fatstart g + nfat g * fatsize g) * 512)) (output t) rootdir ltac:(lia) Er)).
  pose proof (aslice_len _ _ _ _ Er) as Hzr. rewrite Hzr, Z.eqb_refl. cbn [negb]. rewrite Ed. cbn [lift_opt]. rewrite bind_ret.
  rewrite (find_entry_first rootdir dosname e) by (done || lia). cbn [lift_opt]. rewrite bind_ret, Est. cbn [lift_opt].
  rewrite bind_ret, Esz. cbn [lift_opt]. rewrite bind_ret. rewrite (wrap_small 32 (fatsize g * 512 * 8)), (proj2 (Z.ltb_ge _ _)) by lia.
  rewrite (wrap_small 32 (size + 512 - 1)) by lia. replace (size + 512 - 1) with (size + 511) by lia.
  set (count := (size + 511) / 512) in *.
  assert (0 <= count < 2 ^ 24) as Hcount by (subst count; split; [apply Z.div_pos|apply Z.div_lt_upper_bound]; lia).
  assert (0 <= dirents g / 16 < 2 ^ 12) as Hd16 by (split; [apply Z.div_pos|apply Z.div_lt_upper_bound]; lia).
  change (512 / 32) with 16. rewrite (wrap_small 32 ((start - 2) * clusize g)) by nia.
  rewrite (wrap_small 32 (_ + _ + _ + _)) by (destruct Hnf as [Hn|Hn]; rewrite ?Hn; nia).
  replace ((start - 2) * clusize g + fatstart g + nfat g * fatsize g + dirents g / 16) with first by (subst first; lia).
  assert (0 <= first < 2 ^ 32) as Hfr by (subst first; destruct Hnf as [Hn|Hn]; rewrite Hn; nia).
  destruct (fill_srm_ok b first count) as (b1&b2&E1&E2&Hmk); [unfold sizeof_boot in *; lia|lia|lia|].
  rewrite E1. cbn [lift_opt]. rewrite bind_ret.
  assert (u32 (Z.shiftl 1 (fatbits g) - 9) = 2 ^ fatbits g - 9 ∧ 2 ^ 11 < 2 ^ fatbits g <= 2 ^ 16) as [Efe Hfe]
    by (destruct Hbits as [->| ->]; done).
  unfold check_chain. rewrite Efe.
  assert (clusters <= 2 ^ fatbits g - 9) as Hcl2.
  { destruct (decide (clusters = 1)) as [->|]; [lia|]. destruct (Hc (clusters - 2)) as [_ ?]; lia. }
  pose proof (check_chain_loop fat (fatbits g) start (2 ^ fatbits g - 9) clusters last_ (Z.to_nat (clusters - 1)) 0
    (S (Z.to_nat (2 ^ fatbits g - 9)))) as Hloop. rewrite Z.add_0_r, Z.add_0_r in Hloop.
  rewrite (bind_Ret _ _ _ _ _ (Hloop _ ltac:(lia) ltac:(lia) ltac:(lia) ltac:(lia) ltac:(lia) Hc Hl Hle)).
  rewrite (proj2 (Z.eqb_neq (clusize g) 0)), (wrap_small 32 (count + _ - 1)), Hclu, Z.eqb_refl by lia. cbn [negb].
  rewrite E2. cbn [lift_opt]. rewrite bind_ret.
  destruct (mk_fields _ _ _ _ Hmk) as (Hcount'&Hstart'&_). edestruct (write_boot_ok b2 first count) as (t4&E4&Hd4); [done|done|].
  assert (b = take 1024 img) as Eb' by (apply aslice_Some in Eb as (_&_&_&->); done).
  exists t4, b2. split; [exact E4|]. rewrite <- Eb'. split; [|done]. rewrite Hd4. cbn [disk contents].
  rewrite f_write_start. f_equal. f_equal. pose proof (mk_len _ _ _ _ Hmk). unfold zlen, sizeof_boot in *. lia.
Qed.

(** An image: a label of the same name in front of the file. *)
Definition fx_pad (n : Z) (l : list Z) : list Z := l ++ replicate (Z.to_nat (n - zlen l)) 0.
Definition fx_boot : list Z :=
  fx_pad 512 ([0; 0; 0] ++ str "MTOOLS39" ++ [0; 2; 2; 1; 0; 2; 16; 0; 64; 0; 0xf0; 1; 0] ++ replicate 30 0 ++ str "FAT16   ").
Definition fx_fat : list Z := fx_pad 512 (concat (map (le_bytes 2) [0xfff0; 0xffff; 0; 4; 5; 0xffff])).
Definition fx_entry (attr start size : Z) : list Z :=
  str "ABOOT   BIN" ++ [attr] ++ replicate 14 0 ++ le_bytes 2 start ++ le_bytes 4 size.
Definition fx_image : list Z :=
  fx_boot ++ fx_fat ++ fx_fat ++ fx_pad 512 (fx_entry 8 0 0 ++ fx_entry 32 3 2500) ++ replicate 6144 7.

Definition fx_geometry : geometry := Geometry 512 2 1 2 16 1 16.

Lemma fx_file : fat_file fx_image (str "aboot.bin") fx_geometry 3 2500 3.
Proof.
  split.
  - eexists. split; [vm_compute; reflexivity|vm_compute; reflexivity].
  - cbn. lia.
  - do 2 eexists. exists 1. split; [vm_compute; reflexivity|]. split; [vm_compute; reflexivity|]. split; [done|].
    split; [vm_compute; reflexivity|]. split; [|by split; vm_compute].
    intros j Hj. assert (j = 0) as -> by lia. vm_compute. reflexivity.
  - do 2 eexists. split; [vm_compute; reflexivity|]. split; [|split; [vm_compute; reflexivity|done]].
    intros k Hk. assert (k = 0 ∨ k = 1) as [->| ->] by lia; by vm_compute.
  - cbn. repeat split; lia.
Qed.

Lemma srmbootfat_marks_witness :
  ∃ t' boot, srmbootfat (λ _, 1) [str "image"; str "aboot.bin"] (Some (UFile fx_image 0)) (Tool (UFile [] 0) []) = Ret 0 t' ∧
    contents (disk t') = boot ++ drop 1024 fx_image ∧ marked (take 1024 fx_image) boot 6 5.
Proof.
  destruct (srmbootfat_marks (λ _, 1) (str "image") (str "aboot.bin") fx_image fx_geometry 3 2500 3 (Tool (UFile [] 0) []))
    as (t'&boot&E&Hc&Hm); [done|exact fx_file|]. exists t', boot. split; [exact E|]. split; [exact Hc|exact Hm].
Defined.
