(* ===== verification/Netboot.v ===== *)
(** * Network boot: net.c, netabootwrap.c, b2c.c

    netabootwrap puts the loader, a header, the kernel and a ramdisk into one
    file; the firmware loads it as a whole, and net.c finds the parts behind its
    own end.  [netfs] reads memory: its state is the position [src] and the memory
    as it is when net.c hands over to the decompressor, so what that stores is
    taken not to reach the kernel it is reading.  The header is the bytes of
    [struct header] of netwrap.h. *)

From Stdlib Require Import Ascii String.
From S2P Require Import Prelude CString Vsprintf Cons Utils Aboot BootFs Gzip Ufile Disk.

Open Scope Z_scope.
Open Scope list_scope.

Definition quote : string := String (ascii_of_N 34) EmptyString.

(** ** netwrap.h *)

Definition h_header_size (h : list Z) := s32 <$> get_u32 h 0.
Definition h_kern_size (h : list Z) := s32 <$> get_u32 h 4.
Definition h_ird_size (h : list Z) := s32 <$> get_u32 h 8.

Definition align_pagesize (v : Z) : Z := Z.land (u64 (v + (PAGE_SIZE - 1))) (Z.lnot (PAGE_SIZE - 1)).
Definition align_512 (v : Z) : Z := Z.land (u64 (v + 511)) (Z.lnot 511).

(** ** net.c *)

Record net := Net { src : Z; seen : mem }.

Section net_c.
(* [aboot_end] is &_end *)
Context {K : Type} `{ConsIO K} `{ConsDev K} (aboot_end : Z) (fuel : nat).

Abbreviation NM := (M (gzip net K)).

Definition on_loader {A} (m : M (loader net K) A) : NM A := on_base m.
Definition get_aboot {A} (f : aboot K → A) : NM A := gets (λ g, f (ab (base g))).
Definition mod_aboot (f : aboot K → aboot K) : NM unit := on_loader (on_ab (modify f)).
Definition on_system {A} (m : M (ustate K) A) : NM A := on_loader (on_ab (on_sys m)).
Definition print (fmt : string) (args : list arg) : NM unit := on_loader (tell fmt args).

(** A function of the table that net.c does not have: its value is undefined. *)
Definition dang {A} : M (net * ustate K) A :=
  fs_printf ("aboot: oops, unimplemented net-bfs function called!" ++ nl) [] ;;; trap.

Definition net_bread (fd blkno nblks : Z) (buf : list Z) : M (net * ustate K) (Z * list Z) :=
  let nbytes := s32 (512 * nblks) in
  let! n := gets (λ s, s.1) in
  let! l := lift_opt (read_mem (seen n) (src n) (u64 nbytes)) in
  let! buf := lift_opt (asplice buf 0 l) in
  mod_fs (λ n, Net (u64 (src n + nbytes)) (seen n)) ;;;
  ret (nbytes, buf).

Definition netfs : bootfs net K :=
  Bootfs (-1) (λ _, 512) (λ _ _ _, dang) (λ _, dang) net_bread (λ _, dang) (λ _ _, dang) (λ _ _, dang).

(** [netfs] looks at the memory as it is now, from [p] on. *)
Definition read_from (p : Z) : NM unit :=
  on_loader (modify (λ l, Loader (ab l) (Net p (kmem l)) (kmem l))).

Definition read_initrd (ird_size : Z) : NM Z :=
  let! p := get_aboot (λ a, free_mem_ptr (sys a)) in
  let initrd_start := u64 (p - align_pagesize (u64 ird_size)) in
  mod_aboot (λ a, Aboot (sys a) (start_addr a) (entry_addr a) (chunks a) (nchunks a) (boot_file a)
    (initrd_file a) (kernel_args a) (bss_start a) (bss_size a) initrd_start (u64 ird_size)) ;;;
  on_system (set_free_mem_ptr initrd_start) ;;;
  let nblocks := s32 (align_512 (u64 ird_size) / 512) in
  print ("aboot: loading initrd (%d bytes/%d blocks) at %#lx" ++ nl) [AInt ird_size; AInt nblocks; AInt initrd_start] ;;;
  let! buf := on_loader (peek_mem initrd_start (nblocks * 512)) in
  let! ' (_, buf) := on_loader (on_fs (bread netfs (-1) 0 nblocks buf)) in
  on_loader (poke_mem initrd_start buf) ;;;
  ret 0.

(** Where the parts are: the header, its size, and address and size of kernel
    and ramdisk. *)
Definition find_parts : NM (Z * Z * (Z * Z) * (Z * Z)) :=
  let header := align_512 aboot_end in
  let! h := on_loader (peek_mem header 12) in
  let! header_size := lift_opt (h_header_size h) in
  let kern_src := align_512 (u64 (header + header_size)) in
  let! kern_size := lift_opt (h_kern_size h) in
  let ird_src := align_512 (u64 (kern_src + kern_size)) in
  let! ird_size := lift_opt (h_ird_size h) in
  ret (header, header_size, (kern_src, kern_size), (ird_src, ird_size)).

(* strncpy(kernel_args, header->boot_arg, n) *)
Definition take_args (header n : Z) : NM unit :=
  let! l := on_loader (peek_mem (header + 12) n) in
  let l := match cstring l with Some s => s ++ replicate (Z.to_nat (n - zlen s)) 0 | None => l end in
  let! a := get_aboot kernel_args in
  let! a := lift_opt (asplice a 0 l) in
  mod_aboot (λ s, Aboot (sys s) (start_addr s) (entry_addr s) (chunks s) (nchunks s) (boot_file s)
    (initrd_file s) a (bss_start s) (bss_size s) (initrd_start s) (initrd_size s)).

Definition ask_args : NM unit :=
  loop fuel (λ _,
    let! a := get_aboot kernel_args in
    let! c0 := lift_opt (aget a 0) in
    let! more := (if c0 =? 105 then let! c1 := lift_opt (aget a 1) in ret (c1 =? 0) else ret false) in
    if more : bool then
      print ("Enter kernel arguments:" ++ nl) [] ;;;
      print "aboot> " [] ;;;
      let! a := on_system (on_con (io_getline a 256)) in
      mod_aboot (λ s, Aboot (sys s) (start_addr s) (entry_addr s) (chunks s) (nchunks s) (boot_file s)
        (initrd_file s) a (bss_start s) (bss_size s) (initrd_start s) (initrd_size s)) ;;;
      print nl [] ;;;
      ret (inl tt)
    else ret (inr tt)) tt.

(** The kernel goes to a safe place, the highest free one. *)
Definition move_kernel (kern : Z * Z) : NM Z :=
  let '(kern_src, kern_size) := kern in
  let! p := get_aboot (λ a, free_mem_ptr (sys a)) in
  let dest := u64 (p - align_pagesize (u64 kern_size)) in
  on_system (set_free_mem_ptr dest) ;;;
  let! l := on_loader (peek_mem kern_src (u64 kern_size)) in
  on_loader (poke_mem dest l) ;;;
  ret dest.

(** The parts put where they are used: where the kernel is now. *)
Definition place_parts (kern ird : Z * Z) : NM Z :=
  let! u := get_aboot sys in
  let top := if free_mem_ptr u =? 0 then memory_end (clusters u) else free_mem_ptr u in
  on_system (set_free_mem_ptr (Z.land top (Z.lnot (PAGE_SIZE - 1)))) ;;;
  (if negb (ird.2 =? 0) then read_from ird.1 ;;; read_initrd ird.2 ;;; ret tt else ret tt) ;;;
  let! f := get_aboot boot_file in
  let! f := lift_opt (put_cstring f (str "network")) in
  mod_aboot (λ s, Aboot (sys s) (start_addr s) (entry_addr s) (chunks s) (nchunks s) f
    (initrd_file s) (kernel_args s) (bss_start s) (bss_size s) (initrd_start s) (initrd_size s)) ;;;
  move_kernel kern.

Definition load_kernel : NM Z :=
  let! ' (header, header_size, kern, ird) := find_parts in
  let! p := place_parts kern ird in
  read_from p ;;;
  uncompress_kernel netfs fuel (-1) ;;;
  let! bss := get_aboot (λ s, (bss_start s, bss_size s)) in
  on_loader (poke_mem bss.1 (replicate (Z.to_nat bss.2) 0)) ;;;
  let! a := get_aboot kernel_args in
  let! c := lift_opt (aget a 0) in
  (if c =? 0 then
     let! b := on_loader (peek_mem (header + 12) 1) in
     if bool_decide (b = [0]) then ret tt else take_args header (u64 (header_size - 12))
   else ret tt) ;;;
  ask_args ;;;
  ret 0.
End net_c.

(** ** netabootwrap.c *)

(** The file that is written, and the messages. *)
Record wrap_state := Wrap { target : ufile; output : list (string * list arg) }.

Abbreviation WM := (M wrap_state).

Section netabootwrap.
(* the files of the host, and the array [bootloader] of the generated header *)
Context (files : list Z → option (list Z)) (bootloader progname : list Z).

Definition say (fmt : string) (args : list arg) : WM unit := modify (λ w, Wrap (target w) (output w ++ [(fmt, args)])).
Definition exit {A} : WM A := longjmp "exit(1)".
Definition write_target (b : list Z) : WM unit := modify (λ w, Wrap (f_write b (target w)) (output w)).
Definition seek_target (off : Z) : WM unit := modify (λ w, Wrap (f_lseek off (target w)) (output w)).

Definition print_usage {A} : WM A :=
  say ("Following shows options and default values or example value" ++ nl) [] ;;;
  say ("%s -t netboot.img -k vmlinux.gz -i initrd.gz -a " ++ quote ++ "root=/dev/hda1 single" ++ quote ++ nl)
    [AStr (Some progname)] ;;;
  exit.

(** [open_file] tests the pointer, not the descriptor: for a file that does not
    open it goes on to look at a [struct stat] that nobody has filled in. *)
Definition open_file (fn : list Z) : WM (list Z * Z) :=
  match files fn with
  | None => trap
  | Some f =>
      if zlen f <=? 10 * 1024 then
        say ("%s:Is this a right file %s, size = %d" ++ nl) [AStr (Some progname); AStr (Some fn); AInt (s32 (zlen f))] ;;; print_usage
      else ret (f, s32 (zlen f))
  end.

(** while ((red=read(sfd, buf, 4096))) write(tfd, buf, red) *)
Definition append_file (f : list Z) : WM unit :=
  loop (S (length f)) (λ f,
    let b := take 4096 f in
    if zlen b =? 0 then ret (inr tt) else write_target b ;;; ret (inl (drop 4096 f))) f.

(** tfn, kfn, ifn and barg *)
Record wrap_options := WrapOptions { tfn : list Z; kfn : list Z; ifn : option (list Z); barg : option (list Z) }.

Definition default_options : wrap_options := WrapOptions (str "netboot.img") (str "vmlinux.gz") None None.

Definition set_option (c : Z) (v : list Z) (o : wrap_options) : wrap_options :=
  if c =? 116 then WrapOptions v (kfn o) (ifn o) (barg o)
  else if c =? 107 then WrapOptions (tfn o) v (ifn o) (barg o)
  else if c =? 105 then WrapOptions (tfn o) (kfn o) (Some v) (barg o)
  else WrapOptions (tfn o) (kfn o) (ifn o) (Some v).

Definition missing (c : Z) : string :=
  if c =? 116 then "%s: missing file name for target"
  else if c =? 107 then "%s: missing file name for kernel"
  else if c =? 105 then "%s: missing file name for initial RAM-disk"
  else "%s: No kernel parameters specified".

(** The switches: -t, -k, -i and -a, the value behind the letter or in the next
    argument. *)
Fixpoint read_switches (argv : list (list Z)) (o : wrap_options) : WM wrap_options :=
  match argv with
  | [] => ret o
  | a :: argv =>
      match a with
      | 45 :: c :: v =>
          if bool_decide (c ∈ [116; 107; 105; 97]) then
            match v, argv with
            | [], [] => say (missing c ++ nl) [AStr (Some progname)] ;;; ret o
            | [], v :: argv => read_switches argv (set_option c v o)
            | _, _ => read_switches argv (set_option c v o)
            end
          else say ("%s: unknown switch: -%c" ++ nl) [AStr (Some progname); AInt c] ;;; print_usage
      | [45] => say ("%s: unknown switch: -%c" ++ nl) [AStr (Some progname); AInt 0] ;;; print_usage
      | _ => ret o
      end
  end.

Definition header_bytes (header_size ksz isz : Z) (barg : option (list Z)) : list Z :=
  le_bytes 4 header_size ++ le_bytes 4 ksz ++ le_bytes 4 isz ++
  match barg with Some a => a ++ [0] | None => [] end.

(** The parts behind each other, each on a multiple of 512 bytes. *)
Definition write_image (kernel initrd : list Z * Z) (o : wrap_options) : WM unit :=
  write_target bootloader ;;;
  (if barg o is Some a then say ("With kernel arguments : %s " ++ nl) [AStr (Some a)]
   else say ("Without kernel argument" ++ nl) []) ;;;
  (if barg o is Some a then if 200 <=? zlen a then say ("Kernel argument-list is too long" ++ nl) [] ;;; exit else ret tt
   else ret tt) ;;;
  let h := header_bytes (12 + match barg o with Some a => zlen a + 1 | None => 0 end) kernel.2 initrd.2 (barg o) in
  seek_target (align_512 (zlen bootloader)) ;;;
  write_target h ;;;
  say ("Binding kernel %s" ++ nl) [AStr (Some (kfn o))] ;;;
  let! t := gets target in
  seek_target (align_512 (pos t)) ;;;
  append_file kernel.1 ;;;
  (if ifn o is Some n then
     say ("Binding initrd %s" ++ nl) [AStr (Some n)] ;;;
     let! t := gets target in
     seek_target (align_512 (pos t)) ;;;
     append_file initrd.1
   else ret tt) ;;;
  say ("Done." ++ nl) [].

Definition netabootwrap (argv : list (list Z)) : WM Z :=
  let! o := read_switches argv default_options in
  let! kernel := open_file (kfn o) in
  let! initrd := match ifn o with Some n => open_file n | None => ret ([], 0) end in
  say ("Target file name is %s" ++ nl) [AStr (Some (tfn o))] ;;;
  modify (λ w, Wrap (UFile [] 0) (output w)) ;;;
  write_image kernel initrd o ;;;
  ret 0.
End netabootwrap.


(** ** b2c.c *)

(** The array [symname] of C source, of the whole words of a file. *)
Definition hex (n : Z) : list Z := if n =? 0 then [48] else rev (number_digits 64 (digits 0) n 16).

Section b2c.
Context (files : list Z → option (list Z)).

(* for (i = 0; i < red / sizeof (int); i++) *)
Fixpoint print_words (n : nat) (i : Z) (buf : list Z) : WM unit :=
  match n with
  | O => ret tt
  | S n =>
      let! w := lift_opt (get_u32 buf (4 * i)) in
      write_target (str "0x" ++ hex w ++ str ", " ++ str nl) ;;;
      print_words n (i + 1) buf
  end.

(** As in netabootwrap, the test of [open_file] never holds. *)
Definition b2c_open_file (fn : list Z) : WM (list Z) :=
  match files fn with
  | None => trap
  | Some f =>
      if zlen f <=? 10 * 1024 then
        say ("Is this a right file %s, size = %ld" ++ nl) [AStr (Some fn); AInt (zlen f)] ;;; exit
      else ret f
  end.

Definition b2c (argv : list (list Z)) : WM Z :=
  match argv with
  | [sfn; tfn; symname] =>
      let! f := b2c_open_file sfn in
      modify (λ w, Wrap (UFile [] 0) (output w)) ;;;
      write_target (str "int " ++ symname ++ str "[] = {" ++ str nl) ;;;
      loop (S (length f)) (λ f,
        let buf := take 4096 f in
        if zlen buf =? 0 then ret (inr tt)
        else print_words (Z.to_nat (zlen buf / 4)) 0 buf ;;; ret (inl (drop 4096 f))) f ;;;
      write_target (str "};") ;;;
      ret 0
  | _ => say ("Usage: b2c bin_img tar_file.h symname" ++ nl) [] ;;; exit
  end.
End b2c.

(** ** Lemmas *)

Definition align (v : Z) : Z := (v + 511) / 512 * 512.

Lemma align_512_ok v : 0 <= v < 2 ^ 64 - 511 → align_512 v = align v.
Proof.
  intros Hv. unfold align_512, align. rewrite wrap_small by lia. change 511 with (Z.ones 9) at 2.
  rewrite <- Z.ldiff_land, Z.ldiff_ones_r, Z.shiftl_mul_pow2, Z.shiftr_div_pow2 by lia. done.
Qed.

Lemma align_bounds v : v <= align v < v + 512 ∧ align v mod 512 = 0.
Proof.
  unfold align. pose proof (Z.div_mod (v + 511) 512 ltac:(lia)). pose proof (Z.mod_pos_bound (v + 511) 512 ltac:(lia)).
  split; [lia|]. by apply Z.mod_mul.
Qed.

Lemma align_add b v : b mod 512 = 0 → align (b + v) = b + align v.
Proof.
  intros Hb. unfold align. pose proof (Z.div_mod b 512 ltac:(lia)) as E. rewrite Hb, Z.add_0_r in E.
  rewrite E at 1. replace (512 * (b / 512) + v + 511) with (v + 511 + b / 512 * 512) by lia.
  rewrite Z.div_add by lia. lia.
Qed.

(** What the image is: zeros up to the next multiple of 512 between the parts. *)
Definition padded (l : list Z) : list Z := l ++ replicate (Z.to_nat (align (zlen l) - zlen l)) 0.

Lemma zlen_padded l : zlen (padded l) = align (zlen l).
Proof. unfold padded. rewrite zlen_app. unfold zlen at 2. rewrite length_replicate. pose proof (align_bounds (zlen l)). lia. Qed.

Definition image_head (bootloader h : list Z) : list Z := padded (padded bootloader ++ h).
Definition image_of (bootloader h kernel : list Z) (initrd : option (list Z)) : list Z :=
  match initrd with
  | Some r => padded (image_head bootloader h ++ kernel) ++ r
  | None => image_head bootloader h ++ kernel
  end.

(** A file written at its end, or behind it: the gap reads as zeros. *)
Definition filled (f : ufile) : list Z := contents f ++ replicate (Z.to_nat (pos f - zlen (contents f))) 0.

Lemma f_write_filled b f : zlen (contents f) <= pos f →
  contents (f_write b f) = filled f ++ b ∧ pos (f_write b f) = zlen (filled f ++ b).
Proof.
  intros Hp. pose proof (zlen_nonneg (contents f)).
  assert (Z.to_nat (pos f - zlen (contents f)) = (Z.to_nat (pos f) - length (contents f))%nat) as E by (unfold zlen in *; lia).
  assert (zlen (filled f) = pos f) as Hz.
  { unfold filled. rewrite zlen_app. unfold zlen at 2. rewrite length_replicate. lia. }
  unfold f_write. cbn [contents pos]. rewrite <- E. fold (filled f).
  rewrite take_ge by (unfold zlen in *; lia). rewrite drop_ge by (unfold zlen in *; lia).
  rewrite app_nil_r, zlen_app. split; [done|lia].
Qed.

Lemma append_file_loop : ∀ n l fl (w : wrap_state), (length l <= n)%nat → (n < fl)%nat →
  zlen (contents (target w)) <= pos (target w) → (l = [] → zlen (contents (target w)) = pos (target w)) →
  ∃ w', loop fl (λ f,
      let b := take 4096 f in
      if zlen b =? 0 then ret (inr tt) else write_target b ;;; ret (inl (drop 4096 f))) l w = Ret tt w' ∧
    contents (target w') = filled (target w) ++ l ∧ pos (target w') = zlen (contents (target w')).
Proof.
  induction n as [n IH] using lt_wf_ind. intros l fl w Hn Hfl Hp Hnil. destruct fl as [|fl]; [lia|].
  destruct l as [|c l].
  - exists w. erewrite loop_exit; [|done]. split; [done|]. unfold filled. rewrite (Hnil eq_refl), Z.sub_diag.
    cbn. by rewrite !app_nil_r.
  - set (f := c :: l) in *. set (b := take 4096 f). set (w1 := Wrap (f_write b (target w)) (output w)).
    assert (0 < zlen b) as Hb by (subst b f; unfold zlen; rewrite length_take; cbn [length]; lia).
    destruct (f_write_filled b (target w) Hp) as [Hc1 Hp1].
    erewrite loop_step with (s' := w1).
    2:{ fold b. cbv zeta. rewrite (proj2 (Z.eqb_neq (zlen b) 0)) by lia. reflexivity. }
    assert (pos (target w1) = zlen (contents (target w1))) as Hw1 by (cbn [w1 target]; by rewrite Hc1).
    assert (length (drop 4096 f) < n)%nat as Hlt by (subst f; rewrite length_drop; cbn [length] in *; lia).
    destruct (IH (length (drop 4096 f))) with (l := drop 4096 f) (fl := fl) (w := w1) as (w'&E&Hc&Hp'); [lia|lia|lia|lia|by intros _|].
    + exists w'. split; [exact E|]. split; [|done]. rewrite Hc. unfold filled at 1. rewrite Hw1, Z.sub_diag.
      change (Z.to_nat 0) with 0%nat. cbn [replicate]. rewrite app_nil_r. cbn [w1 target]. rewrite Hc1, <- app_assoc.
      unfold b. by rewrite take_drop.
Qed.

Lemma append_file_ok l (w : wrap_state) : l ≠ [] → zlen (contents (target w)) <= pos (target w) →
  ∃ w', append_file l w = Ret tt w' ∧ contents (target w') = filled (target w) ++ l ∧ pos (target w') = zlen (contents (target w')).
Proof. intros Hl Hp. apply (append_file_loop (length l)); [lia|lia|done|done]. Qed.

(** The target at its end, moved to the next multiple of 512. *)
Lemma seek_aligned w : pos (target w) = zlen (contents (target w)) → pos (target w) < 2 ^ 62 →
  ∃ w', seek_target (align_512 (pos (target w))) w = Ret tt w' ∧ filled (target w') = padded (contents (target w)) ∧
    zlen (contents (target w')) <= pos (target w').
Proof.
  intros Hp Hlt. pose proof (zlen_nonneg (contents (target w))). rewrite align_512_ok by lia.
  pose proof (align_bounds (pos (target w))) as [Hb _]. eexists. split; [done|]. unfold f_lseek.
  rewrite (proj2 (Z.leb_le 0 _)) by lia. cbn [target filled contents pos]. unfold filled, padded. cbn [contents pos].
  rewrite Hp in *. split; [done|lia].
Qed.

Definition header_of (o : wrap_options) (ksz isz : Z) : list Z :=
  header_bytes (12 + match barg o with Some a => zlen a + 1 | None => 0 end) ksz isz (barg o).

Lemma header_of_len o ksz isz : zlen (header_of o ksz isz) = 12 + match barg o with Some a => zlen a + 1 | None => 0 end.
Proof.
  assert (∀ x, zlen (le_bytes 4 x) = 4) as H4 by (intros x; unfold zlen; by rewrite length_le_bytes).
  unfold header_of, header_bytes. rewrite !zlen_app, !H4.
  destruct (barg o); [rewrite zlen_app; change (zlen [0]) with 1; lia|change (zlen (@nil Z)) with 0; lia].
Qed.

Lemma wrap_say_ok fmt args w : ∃ w', say fmt args w = Ret tt w' ∧ target w' = target w.
Proof. by eexists. Qed.

Lemma wrap_image_ok bootloader kernel initrd o (w : wrap_state) :
  target w = UFile [] 0 → match barg o with Some a => zlen a < 200 | None => True end →
  kernel.1 ≠ [] → (is_Some (ifn o) → initrd.1 ≠ []) → zlen bootloader < 2 ^ 31 → zlen kernel.1 < 2 ^ 31 →
  ∃ w', write_image bootloader kernel initrd o w = Ret tt w' ∧
    contents (target w') = image_of bootloader (header_of o kernel.2 initrd.2) kernel.1
      (if ifn o is Some _ then Some initrd.1 else None).
Proof.
  intros Ht Ha Hk Hi Hb31 Hk31. pose proof (zlen_nonneg bootloader). unfold write_image.
  set (w1 := Wrap (UFile bootloader (zlen bootloader)) (output w)).
  assert (write_target bootloader w = Ret tt w1) as E1.
  { unfold write_target, modify. rewrite Ht. subst w1. do 2 f_equal. unfold f_write. cbn [contents pos length]. rewrite Nat.sub_0_r. change (Z.to_nat 0) with 0%nat.
    cbn [replicate app take]. by rewrite drop_nil, app_nil_r. }
  rewrite (bind_Ret _ _ _ _ _ E1).
  assert (∃ w2, (if barg o is Some a then say ("With kernel arguments : %s " ++ nl) [AStr (Some a)]
    else say ("Without kernel argument" ++ nl) []) w1 = Ret tt w2 ∧ target w2 = target w1) as (w2&E2&H2)
    by (destruct (barg o); apply wrap_say_ok).
  rewrite (bind_Ret _ _ _ _ _ E2).
  assert ((if barg o is Some a then if 200 <=? zlen a then say ("Kernel argument-list is too long" ++ nl) [] ;;; exit else ret tt
   else ret tt) w2 = Ret tt w2) as E3 by (destruct (barg o) as [a|]; [by rewrite (proj2 (Z.leb_gt 200 (zlen a)))|done]).
  rewrite (bind_Ret _ _ _ _ _ E3). cbv zeta. fold (header_of o kernel.2 initrd.2). set (h := header_of o kernel.2 initrd.2).
  pose proof (header_of_len o kernel.2 initrd.2) as Hzh. fold h in Hzh.
  assert (12 <= zlen h < 300) as Hh by (rewrite Hzh; clear -Ha; destruct (barg o) as [a|]; [pose proof (zlen_nonneg a)|]; lia).
  destruct (seek_aligned w2) as (w3&E4&Hf3&Hl3); [by rewrite H2|rewrite H2; cbn; lia|].
  replace (pos (target w2)) with (zlen bootloader) in E4 by (by rewrite H2). rewrite (bind_Ret _ _ _ _ _ E4).
  rewrite H2 in Hf3. cbn [w1 target contents] in Hf3.
  destruct (f_write_filled h (target w3) Hl3) as [Hc4 Hp4]. rewrite Hf3 in Hc4, Hp4.
  set (w4 := Wrap (f_write h (target w3)) (output w3)). rewrite (bind_Ret (write_target h) _ w3 tt w4 eq_refl).
  destruct (wrap_say_ok ("Binding kernel %s" ++ nl) [AStr (Some (kfn o))] w4) as (w5&E5&H5). rewrite (bind_Ret _ _ _ _ _ E5).
  rewrite (bind_Ret (gets target) _ w5 (target w5) w5 eq_refl). pose proof (align_bounds (zlen bootloader)) as [Hab _].
  destruct (seek_aligned w5) as (w6&E6&Hf6&Hl6); [rewrite H5; cbn [w4 target]; by rewrite Hc4|
    rewrite H5; cbn [w4 target]; rewrite Hp4, zlen_app, zlen_padded; lia|].
  rewrite (bind_Ret _ _ _ _ _ E6). rewrite H5 in Hf6. cbn [w4 target] in Hf6. rewrite Hc4 in Hf6.
  fold (image_head bootloader h) in Hf6.
  destruct (append_file_ok kernel.1 w6 Hk Hl6) as (w7&E7&Hc7&Hp7). rewrite (bind_Ret _ _ _ _ _ E7). rewrite Hf6 in Hc7.
  unfold image_of. destruct (ifn o) as [n|].
  - rewrite bind_bind. destruct (wrap_say_ok ("Binding initrd %s" ++ nl) [AStr (Some n)] w7) as (w8&E8&H8).
    rewrite (bind_Ret _ _ _ _ _ E8), bind_bind, (bind_Ret (gets target) _ w8 (target w8) w8 eq_refl).
    destruct (seek_aligned w8) as (w9&E9&Hf9&Hl9); [by rewrite H8|
      rewrite H8, Hp7, Hc7, zlen_app; unfold image_head; rewrite zlen_padded, zlen_app, zlen_padded;
      pose proof (align_bounds (align (zlen bootloader) + zlen h)); lia|].
    rewrite bind_bind, (bind_Ret _ _ _ _ _ E9). rewrite H8, Hc7 in Hf9.
    destruct (append_file_ok initrd.1 w9 (Hi ltac:(by eexists)) Hl9) as (w10&E10&Hc10&_).
    rewrite (bind_Ret _ _ _ _ _ E10), Hf9 in *.
    destruct (wrap_say_ok ("Done." ++ nl) [] w10) as (w11&E11&H11). exists w11. split; [exact E11|]. by rewrite H11.
  - rewrite bind_ret. destruct (wrap_say_ok ("Done." ++ nl) [] w7) as (w11&E11&H11). exists w11. split; [exact E11|]. by rewrite H11.
Qed.

Lemma read_part m p img off n x : bytes_at m p img → aslice img off n = Some x → read_mem m (p + off) n = Some x.
Proof.
  intros Hb Ha. pose proof Ha as (Ho&Hn&Hl&_)%aslice_Some. rewrite <- Ha. apply read_mem_cells; [done..|].
  intros i Hi. destruct (proj2 (aget_is_Some img (off + i))) as [b Eb]; [lia|]. rewrite Eb.
  unfold aget in Eb. rewrite decide_True in Eb by lia. apply Hb in Eb. rewrite <- Eb. f_equal. lia.
Qed.

Lemma aslice_at (l1 l2 l3 : list Z) off : off = zlen l1 → aslice (l1 ++ l2 ++ l3) off (zlen l2) = Some l2.
Proof. intros ->. by apply aslice_app_mid. Qed.

Lemma header_fields hs ksz isz b rest : 0 <= hs < 2 ^ 31 → 0 <= ksz < 2 ^ 31 → 0 <= isz < 2 ^ 31 →
  let h := le_bytes 4 hs ++ le_bytes 4 ksz ++ le_bytes 4 isz in
  zlen h = 12 ∧ h_header_size h = Some hs ∧ h_kern_size h = Some ksz ∧ h_ird_size h = Some isz ∧
  header_bytes hs ksz isz b ++ rest = h ++ match b with Some a => a ++ [0] | None => [] end ++ rest.
Proof.
  intros H1 H2 H3 h. assert (∀ x, zlen (le_bytes 4 x) = 4) as H4 by (intros x; unfold zlen; by rewrite length_le_bytes).
  assert (∀ x l1 l3 off, off = zlen l1 → 0 <= x < 2 ^ 31 → s32 <$> get_u32 (l1 ++ le_bytes 4 x ++ l3) off = Some x) as Hget.
  { intros x l1 l3 off Ho Hx. unfold get_le. pose proof (aslice_at l1 (le_bytes 4 x) l3 off Ho) as Es. rewrite H4 in Es.
    rewrite Es. change (Some (s32 (le_val (le_bytes 4 x))) = Some x). rewrite le_val_le_bytes.
    change (256 ^ Z.of_nat 4) with (2 ^ 32). rewrite Z.mod_small by lia. f_equal. apply swrap_small; lia. }
  split; [subst h; rewrite !zlen_app, !H4; done|]. subst h. unfold h_header_size, h_kern_size, h_ird_size.
  split; [by apply (Hget hs [])|]. split; [apply Hget; [by rewrite H4|done]|].
  split.
  - rewrite app_assoc. rewrite <- (app_nil_r (le_bytes 4 isz)). apply Hget; [by rewrite zlen_app, !H4|done].
  - unfold header_bytes. by rewrite <- !app_assoc.
Qed.

(** C19: what netabootwrap writes, loaded at a multiple of 512 bytes, is what
    net.c looks for: behind its own end it finds the header with the arguments,
    the kernel with all its bytes, and the ramdisk when there is one.  The end
    of the loader and the end of the array the wrapper has embedded have to be
    on the same multiple of 512 bytes. *)
Theorem netboot_parts_found files bootloader progname argv o kernel (w0 w1 : wrap_state) :
  read_switches progname argv default_options w0 = Ret o w1 →
  files (kfn o) = Some kernel → 10240 < zlen kernel < 2 ^ 31 →
  (∀ n, ifn o = Some n → ∃ r, files n = Some r ∧ 10240 < zlen r < 2 ^ 31) →
  (∀ a, barg o = Some a → zlen a < 200) → zlen bootloader < 2 ^ 31 →
  ∃ w2, netabootwrap files bootloader progname argv w0 = Ret 0 w2 ∧
    ∀ (K : Type) (aboot_end p : Z) (g : gzip net K), bytes_at (kmem (base g)) p (contents (target w2)) →
      p mod 512 = 0 → 0 <= p < 2 ^ 62 → align_512 aboot_end = p + align (zlen bootloader) →
      ∃ header hs ks rs isz, find_parts aboot_end g = Ret (header, hs, (ks, zlen kernel), (rs, isz)) g ∧
        read_mem (kmem (base g)) ks (zlen kernel) = Some kernel ∧
        match ifn o with Some n => read_mem (kmem (base g)) rs isz = files n ∧ files n ≠ None | None => isz = 0 end ∧
        match barg o with
        | Some a => read_mem (kmem (base g)) (header + 12) (hs - 12) = Some (a ++ [0])
        | None => hs = 12
        end.
Proof.
  intros Esw Hk Hkz Hi Ha Hbz. unfold netabootwrap. rewrite (bind_Ret _ _ _ _ _ Esw).
  assert (∀ n r (w : wrap_state), files n = Some r → 10240 < zlen r < 2 ^ 31 → open_file files progname n w = Ret (r, zlen r) w) as Hopen.
  { intros n r w En Hr. unfold open_file. rewrite En, (proj2 (Z.leb_gt _ _)) by lia. by rewrite swrap_small by lia. }
  rewrite (bind_Ret _ _ _ _ _ (Hopen _ _ w1 Hk Hkz)).
  set (r := match ifn o with Some n => default [] (files n) | None => [] end).
  assert (match ifn o with Some n => open_file files progname n | None => ret ([], 0) end w1 = Ret (r, zlen r) w1 ∧
    0 <= zlen r < 2 ^ 31 ∧ (is_Some (ifn o) → r ≠ [])) as (Er&Hrz&Hrn).
  { subst r. destruct (ifn o) as [n|]; [|split; [done|split; [done|by intros []]]].
    destruct (Hi n eq_refl) as (r&En&Hr). rewrite En. change (default [] (Some r)) with r. split; [by apply Hopen|]. split; [lia|].
    intros _ ->. change (zlen (@nil Z)) with 0 in Hr. lia. }
  rewrite (bind_Ret _ _ _ _ _ Er). destruct (wrap_say_ok ("Target file name is %s" ++ nl) [AStr (Some (tfn o))] w1) as (w3&E3&H3).
  rewrite (bind_Ret _ _ _ _ _ E3). set (w4 := Wrap (UFile [] 0) (output w3)).
  rewrite (bind_Ret (modify (λ w, Wrap (UFile [] 0) (output w))) _ w3 tt w4 eq_refl).
  destruct (wrap_image_ok bootloader (kernel, zlen kernel) (r, zlen r) o w4) as (w5&E5&Hc); cbn [fst snd]; [done| | |done|done|lia|].
  { destruct (barg o) as [a|] eqn:Eb; [by apply Ha|done]. }
  { intros ->. change (zlen (@nil Z)) with 0 in Hkz. lia. }
  rewrite (bind_Ret _ _ _ _ _ E5). exists w5. split; [done|]. cbn [fst snd] in Hc.
  intros K aboot_end p g Hmem Hp Hpr Hend. set (m := kmem (base g)) in *. rewrite Hc in Hmem.
  set (isz := zlen r) in *. set (h := header_of o (zlen kernel) isz) in *.
  set (hs := 12 + match barg o with Some a => zlen a + 1 | None => 0 end).
  assert (zlen h = hs) as Hzh by apply header_of_len.
  assert (12 <= hs < 300) as Hhs by (subst hs; destruct (barg o) as [a|]; [specialize (Ha a eq_refl); pose proof (zlen_nonneg a)|]; lia).
  set (B := align (zlen bootloader)) in *. set (okern := align (B + hs)). set (oird := align (okern + zlen kernel)).
  pose proof (zlen_nonneg bootloader). pose proof (align_bounds (zlen bootloader)) as [HB _]. fold B in HB.
  pose proof (align_bounds (B + hs)) as [Hok _]. fold okern in Hok. pose proof (align_bounds (okern + zlen kernel)) as [Hoi _]. fold oird in Hoi.
  assert (zlen (image_head bootloader h) = okern) as Hzi by (unfold image_head; by rewrite zlen_padded, zlen_app, zlen_padded, Hzh).
  (* the parts of the image *)
  assert (∃ Y, image_of bootloader h kernel (if ifn o is Some _ then Some r else None) = image_head bootloader h ++ kernel ++ Y) as [Yk EYk].
  { unfold image_of. destruct (ifn o); [unfold padded at 1; rewrite <- !app_assoc; by eexists|exists []; by rewrite app_nil_r]. }
  assert (∃ Y, image_of bootloader h kernel (if ifn o is Some _ then Some r else None) = padded bootloader ++ h ++ Y) as [Y EY].
  { rewrite EYk. unfold image_head, padded at 1. rewrite <- !app_assoc. by eexists. }
  assert (read_mem m (p + okern) (zlen kernel) = Some kernel) as Rk.
  { eapply read_part; [exact Hmem|]. rewrite EYk. by apply aslice_at. }
  assert (zlen (padded bootloader) = B) as HzB by apply zlen_padded.
  set (h12 := le_bytes 4 hs ++ le_bytes 4 (zlen kernel) ++ le_bytes 4 isz).
  destruct (header_fields hs (zlen kernel) isz (barg o) Y) as (Hz12&F1&F2&F3&Eh); [lia..|]. fold h12 in Hz12, F1, F2, F3, Eh.
  assert (h ++ Y = h12 ++ match barg o with Some a => a ++ [0] | None => [] end ++ Y) as Eh' by exact Eh.
  assert (read_mem m (p + B) 12 = Some h12) as Rh.
  { eapply read_part; [exact Hmem|]. rewrite EY, Eh', <- Hz12. by apply aslice_at. }
  assert (find_parts aboot_end g = Ret (p + B, hs, (p + okern, zlen kernel), (p + oird, isz)) g) as Efind.
  { unfold find_parts. rewrite Hend. unfold on_loader, on_base, peek_mem.
    assert (∀ (x n : Z) (l : list Z), read_mem m x n = Some l →
      on_base (let! m := gets kmem in lift_opt (read_mem m x n)) g = Ret l (set_base (base g) g)) as Hpeek.
    { intros x n l E. unfold on_base. cbn [gets bind]. fold m. rewrite E. done. }
    assert (set_base (base g) g = g) as Eg by (by destruct g).
    pose proof (Hpeek _ _ _ Rh) as E. unfold on_base in E. rewrite (bind_Ret _ _ _ _ _ E), Eg, F1. cbn [lift_opt].
    rewrite bind_ret, F2. cbn [lift_opt]. rewrite bind_ret, F3. cbn [lift_opt]. rewrite bind_ret.
    rewrite (wrap_small 64 (p + B + hs)), (align_512_ok (p + B + hs)) by lia. rewrite <- (Z.add_assoc p B), align_add by done.
    fold okern. rewrite (wrap_small 64 (p + okern + _)), align_512_ok by lia. rewrite <- (Z.add_assoc p okern), align_add by done. done. }
  exists (p + B), hs, (p + okern), (p + oird), isz. split; [exact Efind|]. split; [exact Rk|]. split.
  - destruct (ifn o) as [n|] eqn:En; [|done]. destruct (Hi n eq_refl) as (r'&Er'&_). subst isz. subst r. rewrite Er' in *. change (default [] (Some r')) with r' in *.
    split; [|done]. eapply read_part; [exact Hmem|]. unfold image_of. rewrite <- (app_nil_r (_ ++ r')), <- app_assoc.
    apply aslice_at. rewrite zlen_padded, zlen_app, Hzi. done.
  - destruct (barg o) as [a|] eqn:Eb; [|done]. rewrite <- Z.add_assoc. eapply read_part; [exact Hmem|]. rewrite EY, Eh'.
    rewrite app_assoc. replace (hs - 12) with (zlen (a ++ [0])) by (subst hs; rewrite zlen_app; change (zlen [0]) with 1; lia).
    apply aslice_at. rewrite zlen_app, HzB, Hz12. done.
Qed.

Definition nx_files (n : list Z) : option (list Z) :=
  if bool_decide (n = str "vmlinux.gz") then Some (replicate 11000 1)
  else if bool_decide (n = str "initrd") then Some (replicate 10300 2) else None.

Definition nx_gzip (l : list Z) : gzip net (cstate refcon) :=
  Gzip (Loader example_aboot (Net 0 ∅) (mem_write ∅ 0x20000000 l)) [] 0 [] 0 0 0 0 0 0 0 0 0 0 0 0 0.

(** The loader is 1000 bytes long, its parts are found behind it in memory. *)
Lemma netboot_parts_found_witness :
  ∃ w2, netabootwrap nx_files (replicate 1000 5) (str "netabootwrap") [str "-iinitrd"; str "-a"; str "root=/dev/sda1"]
      (Wrap (UFile [] 0) []) = Ret 0 w2 ∧
    let g := nx_gzip (contents (target w2)) in
    ∃ header hs ks rs isz, find_parts (0x20000000 + 1000) g = Ret (header, hs, (ks, 11000), (rs, isz)) g ∧
      read_mem (kmem (base g)) ks 11000 = Some (replicate 11000 1) ∧
      read_mem (kmem (base g)) rs isz = Some (replicate 10300 2) ∧
      read_mem (kmem (base g)) (header + 12) (hs - 12) = Some (str "root=/dev/sda1" ++ [0]).
Proof.
  destruct (netboot_parts_found nx_files (replicate 1000 5) (str "netabootwrap") [str "-iinitrd"; str "-a"; str "root=/dev/sda1"]
    (WrapOptions (str "netboot.img") (str "vmlinux.gz") (Some (str "initrd")) (Some (str "root=/dev/sda1"))) (replicate 11000 1)
    (Wrap (UFile [] 0) []) (Wrap (UFile [] 0) [])) as (w2&E&Hf).
  - vm_compute. reflexivity.
  - reflexivity.
  - by vm_compute.
  - intros n [= <-]. exists (replicate 10300 2). by vm_compute.
  - intros a [= <-]. by vm_compute.
  - by vm_compute.
  - exists w2. split; [exact E|]. intros g.
    destruct (Hf _ (0x20000000 + 1000) 0x20000000 g) as (header&hs&ks&rs&isz&E1&E2&(E3&_)&E4).
    + apply bytes_at_mem_write.
    + reflexivity.
    + lia.
    + by vm_compute.
    + exists header, hs, ks, rs, isz. split; [exact E1|]. split; [exact E2|]. split; [exact E3|exact E4].
Defined.
