(* ===== verification/Objtools.v ===== *)
(** * tools/objstrip.c, elfencap.c and abootconf.c

    Boot images out of object files, object files around boot images, and the
    partition of the configuration file in an installed loader.  Input and disk
    are files of the operating system, output is the bytes written to it, and
    messages are kept with their arguments.  The arguments are those behind the
    program's name.  An array on the stack holds what has been read into it:
    an access to more of it is outside. *)

From Stdlib Require Import Ascii String.
From S2P Require Import Prelude CString Vsprintf Ufile Sdisklabel.

Open Scope Z_scope.
Open Scope list_scope.

Record obj := Obj { infile : ufile; out : list Z; messages : list (string * list arg) }.

Abbreviation OM := (M obj).

Definition say (fmt : string) (args : list arg) : OM unit := modify (λ s, Obj (infile s) (out s) (messages s ++ [(fmt, args)])).
Definition exit {A} (code : string) : OM A := longjmp code.
Definition put (b : list Z) : OM unit := modify (λ s, Obj (infile s) (out s ++ b) (messages s)).
Definition read_in (n : Z) : OM (list Z) := λ s, let '(b, f) := f_read n (infile s) in Ret b (Obj f (out s) (messages s)).
(* lseek from the start: does it return the offset? *)
Definition seek_in (off : Z) : OM bool := λ s, Ret (0 <=? off) (Obj (f_lseek off (infile s)) (out s) (messages s)).

(** while ((n = read(ifd, buf, sizeof(buf))) > 0) write(1, buf, n) *)
Definition copy_rest : OM unit := λ s,
  loop (S (length (contents (infile s)))) (λ _,
    let! b := read_in 8192 in
    if zlen b =? 0 then ret (inr tt) else put b ;;; ret (inl tt)) tt s.

(** ** ELF *)

Definition BLOCK_SIZE : Z := 512.
Definition ET_EXEC : Z := 2.
Definition EM_ALPHA : Z := 0x9026.
Definition sizeof_phdr : Z := 56.

Definition e_type (b : list Z) := get_u16 b 16.
Definition e_machine (b : list Z) := get_u16 b 18.
Definition e_entry (b : list Z) := get_u64 b 24.
Definition e_phoff (b : list Z) := get_u64 b 32.
Definition e_phnum (b : list Z) := get_u16 b 56.
Definition p_offset (b : list Z) := get_u64 b 8.
Definition p_vaddr (b : list Z) := get_u64 b 16.
Definition p_filesz (b : list Z) := get_u64 b 32.
Definition p_memsz (b : list Z) := get_u64 b 40.

(** ** elfencap.c *)

Definition LOAD_ADDR : Z := 0xfffffc0000310000.

(** The ELF header, and the one program header, for [n] bytes. *)
Definition encap_ehdr : list Z :=
  [0x7f] ++ str "ELF" ++ [2; 1; 1] ++ replicate 9 0 ++
  le_bytes 2 ET_EXEC ++ le_bytes 2 EM_ALPHA ++ le_bytes 4 1 ++ le_bytes 8 LOAD_ADDR ++ le_bytes 8 64 ++
  replicate 16 0 ++ le_bytes 2 1 ++ replicate 6 0.
Definition encap_phdr (n : Z) : list Z :=
  replicate 8 0 ++ le_bytes 8 120 ++ le_bytes 8 LOAD_ADDR ++ replicate 8 0 ++ le_bytes 8 n ++ le_bytes 8 n ++ replicate 8 0.
Definition encap_header (n : Z) : list Z := encap_ehdr ++ encap_phdr n.

Definition elfencap (argv1 : list Z) (file : option (list Z)) : OM Z :=
  match file with
  | None => say "perror" [AStr (Some argv1)] ;;; ret 1
  | Some f =>
      modify (λ s, Obj (UFile f 0) (out s) (messages s)) ;;;
      put (encap_header (u64 (zlen f))) ;;;
      copy_rest ;;;
      ret 0
  end.

(** ** objstrip.c *)

(** What the code takes from [struct exec] of linux/a.out.h and its macros. *)
Record coff := Coff {
  f_flags : Z; f_opthdr : Z; N_MAGIC : Z; N_TXTOFF : Z; ah_tsize : Z; ah_dsize : Z; ah_bsize : Z; ah_text_start : Z }.

Record strip_options := StripOptions { verbose : bool; pad : Z; primary : bool }.

Definition strip_letter (c : Z) (o : strip_options) : strip_options :=
  if c =? 118 then StripOptions (negb (verbose o)) (pad o) (primary o)
  else if c =? 98 then StripOptions (verbose o) BLOCK_SIZE (primary o)
  else if c =? 112 then StripOptions (verbose o) (pad o) true
  else o.

(** for (i = 1; i < argc && argv[i][0] == '-'; ++i): the options and the other
    arguments. *)
Fixpoint strip_args (argv : list (list Z)) (o : strip_options) : strip_options * list (list Z) :=
  match argv with
  | (45 :: letters) :: rest => strip_args rest (foldl (λ o c, strip_letter c o) o letters)
  | _ => (o, argv)
  end.

Section objstrip.
Context (prog_name : list Z) (parse_coff : list Z → option coff) (COFF_F_EXEC sizeof_ah OMAGIC : Z) (fuel : nat).

Definition usage {A} : OM A :=
  say ("usage: %s [-v] -p file primary" ++ nl ++ "       %s [-vb] file [secondary]" ++ nl)
    [AStr (Some prog_name); AStr (Some prog_name)] ;;; exit "exit(1)".

(** The boot block for a file of [st_size] bytes. *)
Definition primary_block (size : Z) : option (list Z) :=
  let bb := str "Linux SRM bootblock" ++ replicate 493 0 in
  let? bb := put_le 8 bb (8 * 60) (size / BLOCK_SIZE) in
  let? bb := put_le 8 bb (8 * 61) 1 in
  let? bb := put_le 8 bb (8 * 62) 0 in
  let? sum := sum_words 63 bb 0 0 in
  put_le 8 bb (8 * 63) sum.

Definition make_primary : OM Z :=
  let! n := gets (λ s, zlen (contents (infile s))) in
  let size := Z.land (s64 (n + BLOCK_SIZE - 1)) (Z.lnot (BLOCK_SIZE - 1)) in
  let! bb := lift_opt (primary_block size) in
  put bb ;;;
  say ("%lu" ++ nl) [AInt (u64 size)] ;;;
  ret 0.

(** Offset, size in memory and in the file. *)
Definition elf_segment (o : strip_options) (inname buf : list Z) : OM (Z * Z * Z) :=
  let! type := lift_opt (e_type buf) in
  let! machine := lift_opt (e_machine buf) in
  if negb (type =? ET_EXEC) then
    say ("%s: %s is not an ELF executable" ++ nl) [AStr (Some prog_name); AStr (Some inname)] ;;; exit "exit(1)"
  else if negb (machine =? EM_ALPHA) then
    say ("%s: is not for this processor (e_machine=%d)" ++ nl) [AStr (Some prog_name); AInt machine] ;;; exit "exit(1)"
  else
    let! phnum := lift_opt (e_phnum buf) in
    (if negb (phnum =? 1) then
       say ("%s: %d program headers (forgot to link with -N?)" ++ nl) [AStr (Some prog_name); AInt phnum] else ret tt) ;;;
    let! entry := lift_opt (e_entry buf) in
    let! phoff := lift_opt (e_phoff buf) in
    seek_in (s64 phoff) ;;;
    let! ph := read_in sizeof_phdr in
    if negb (zlen ph =? sizeof_phdr) then say "read" [] ;;; exit "exit(1)"
    else
      let! offset := lift_opt (p_offset ph) in
      let! mem_size := lift_opt (p_memsz ph) in
      let! fil_size := lift_opt (p_filesz ph) in
      let! vaddr := lift_opt (p_vaddr ph) in
      let delta := if vaddr <? entry then entry - vaddr else 0 in
      let offset := s64 (offset + delta) in
      let mem_size := u64 (mem_size - delta) in
      let fil_size := u64 (fil_size - delta) in
      (if verbose o then
         say ("%s: extracting %#016lx-%#016lx (at %lx)" ++ nl)
           [AStr (Some prog_name); AInt (u64 (vaddr + delta)); AInt (u64 (vaddr + delta + fil_size)); AInt offset]
       else ret tt) ;;;
      ret (offset, mem_size, fil_size).

Definition coff_segment (o : strip_options) (inname buf : list Z) : OM (Z * Z * Z) :=
  let! a := lift_opt (parse_coff buf) in
  if Z.land (f_flags a) COFF_F_EXEC =? 0 then
    say ("%s: %s is not in executable format" ++ nl) [AStr (Some prog_name); AStr (Some inname)] ;;; exit "exit(1)"
  else if negb (f_opthdr a =? sizeof_ah) then
    say ("%s: %s has unexpected optional header size" ++ nl) [AStr (Some prog_name); AStr (Some inname)] ;;; exit "exit(1)"
  else if negb (N_MAGIC a =? OMAGIC) then
    say ("%s: %s is not an OMAGIC file" ++ nl) [AStr (Some prog_name); AStr (Some inname)] ;;; exit "exit(1)"
  else
    let fil_size := u64 (ah_tsize a + ah_dsize a) in
    (if verbose o then
       say ("%s: extracting %#016lx-%#016lx (at %lx)" ++ nl)
         [AStr (Some prog_name); AInt (ah_text_start a); AInt (u64 (ah_text_start a + fil_size)); AInt (N_TXTOFF a)]
     else ret tt) ;;;
    ret (N_TXTOFF a, u64 (fil_size + ah_bsize a), fil_size).

(** while (tocopy > 0): the bytes of the segment *)
Definition copy_segment (fil_size : Z) : OM unit :=
  loop fuel (λ tocopy,
    if 0 <? tocopy then
      let n := Z.min tocopy 8192 in
      let! b := read_in n in
      if negb (zlen b =? n) then say "read" [] ;;; exit "exit(1)"
      else put b ;;; ret (inl (tocopy - n))
    else ret (inr tt)) fil_size.

Definition zero_fill (tocopy : Z) : OM unit :=
  loop fuel (λ tocopy,
    let n := Z.min tocopy 8192 in
    put (replicate (Z.to_nat n) 0) ;;;
    ret (if 0 <? tocopy - n then inl (tocopy - n) else inr tt)) tocopy.

Definition extract (o : strip_options) (inname : list Z) (seg : Z * Z * Z) : OM Z :=
  let '(offset, mem_size, fil_size) := seg in
  let! ok := seek_in offset in
  if negb ok then say "lseek" [] ;;; exit "exit(1)"
  else
    (if verbose o then
       say ("%s: copying %lu byte from %s" ++ nl) [AStr (Some prog_name); AInt fil_size; AStr (Some inname)] else ret tt) ;;;
    copy_segment fil_size ;;;
    let mem_size := if pad o =? 0 then mem_size else u64 (u64 (mem_size + pad o - 1) / pad o * pad o) in
    let tocopy := u64 (mem_size - fil_size) in
    (if 0 <? tocopy then
       say ("%s: zero-filling bss and aligning to %lu with %lu bytes" ++ nl)
         [AStr (Some prog_name); AInt (pad o); AInt tocopy] ;;;
       zero_fill tocopy
     else ret tt) ;;;
    ret 0.

(** [files] are the input files; the output file can always be created. *)
Definition objstrip (files : list Z → option (list Z)) (argv : list (list Z)) : OM Z :=
  match strip_args argv (StripOptions false 0 false) with
  | (_, []) => usage
  | (o, inname :: rest) =>
      match files inname with
      | None => say "open" [] ;;; exit "exit(1)"
      | Some f =>
          modify (λ s, Obj (UFile f 0) (out s) (messages s)) ;;;
          if primary o then match rest with [] => usage | _ => make_primary end
          else
            let! buf := read_in 8192 in
            let! ident := lift_opt (aslice buf 0 4) in
            let! seg := (if bool_decide (ident = 0x7f :: str "ELF") then elf_segment o inname buf else coff_segment o inname buf) in
            extract o inname seg
      end
  end.
End objstrip.

(** ** abootconf.c *)

(** strtol(3) in base 10: the value, [None] for one out of range. *)
Fixpoint skip_blanks (l : list Z) : list Z :=
  match l with
  | c :: l' => if (c =? 32) || ((9 <=? c) && (c <=? 13)) then skip_blanks l' else l
  | [] => []
  end.

Fixpoint decimal (l : list Z) (acc : Z) : Z :=
  match l with
  | c :: l => if (48 <=? c) && (c <=? 57) then decimal l (10 * acc + (c - 48)) else acc
  | [] => acc
  end.

Definition strtol_value (s : list Z) : Z :=
  match skip_blanks s with
  | 45 :: l => - decimal l 0
  | 43 :: l => decimal l 0
  | l => decimal l 0
  end.

Definition strtol (s : list Z) : option Z :=
  if decide (- 2 ^ 63 <= strtol_value s < 2 ^ 63) then Some (strtol_value s) else None.

(** atoi(3): strtol(3), which stops at the ends of its range, as an int. *)
Definition atoi (s : list Z) : Z := s32 (Z.max (- 2 ^ 63) (Z.min (2 ^ 63 - 1) (strtol_value s))).

(** Index of the first word that is the magic number. *)
Fixpoint find_magic (n : nat) (i : Z) (sector : list Z) : option (option Z) :=
  match n with
  | O => Some None
  | S n =>
      let? w := get_u64 sector (8 * i) in
      if w =? ABOOT_MAGIC then Some (Some i) else find_magic n (i + 1) sector
  end.

Section abootconf.
Context (prog_name : list Z).

Definition write_in (b : list Z) : OM unit := modify (λ s, Obj (f_write b (infile s)) (out s) (messages s)).

(** The word behind the magic number, read or written; behind the last word of
    the sector there is none. *)
Definition set_partition_of (argv1 : list Z) (arg : option (list Z)) (part : Z) : OM Z :=
  let! sector := read_in 512 in
  if negb (zlen sector =? 512) then say ("%s: short read" ++ nl) [AStr (Some prog_name)] ;;; exit "exit(1)"
  else
    let! pos := lift_opt (get_u64 sector (8 * 61)) in
    let aboot_pos := s64 (u64 (pos * 512)) in
    let! ok := seek_in aboot_pos in
    if negb ok then say "lseek" [] ;;; exit "exit(1)"
    else
      let! sector := read_in 512 in
      if negb (zlen sector =? 512) then say ("%s: short read" ++ nl) [AStr (Some prog_name)] ;;; exit "exit(1)"
      else
        let! found := lift_opt (find_magic 64 0 sector) in
        match found with
        | None =>
            say ("%s: could not find aboot on disk %s" ++ nl) [AStr (Some prog_name); AStr (Some argv1)] ;;; exit "exit(1)"
        | Some i =>
            if part <? 0 then
              let! v := lift_opt (get_u64 sector (8 * (i + 1))) in
              say ("aboot.conf partition currently set to %ld" ++ nl) [AInt (s64 v)] ;;; exit "exit(0)"
            else
              let! ok := seek_in aboot_pos in
              if negb ok then say "lseek" [] ;;; exit "exit(1)"
              else
                let! v := lift_opt (atoi <$> arg) in
                let! sector := lift_opt (put_le 8 sector (8 * (i + 1)) v) in
                write_in sector ;;;
                ret 0
        end.

Definition abootconf (argv : list (list Z)) (disk : option (list Z)) : OM Z :=
  let run argv1 arg part :=
    match disk with
    | None => say "perror" [AStr (Some argv1)] ;;; exit "exit(1)"
    | Some d => modify (λ s, Obj (UFile d 0) (out s) (messages s)) ;;; set_partition_of argv1 arg part
    end in
  match argv with
  | [argv1] => run argv1 None (-1)
  | [argv1; argv2] =>
      match strtol argv2 with
      | None => say ("%s: bad partition number %s" ++ nl) [AStr (Some prog_name); AStr (Some argv2)] ;;; exit "exit(1)"
      | Some part => run argv1 (Some argv2) part
      end
  | _ => say ("usage: %s device [partition]" ++ nl) [AStr (Some prog_name)] ;;; exit "exit(1)"
  end.
End abootconf.

(** ** Lemmas *)

Lemma say_obj fmt args s : say fmt args s = Ret tt (Obj (infile s) (out s) (messages s ++ [(fmt, args)])).
Proof. done. Qed.

Lemma read_in_ok n s b : 0 <= n → aslice (contents (infile s)) (pos (infile s)) n = Some b →
  read_in n s = Ret b (Obj (UFile (contents (infile s)) (pos (infile s) + n)) (out s) (messages s)).
Proof.
  intros Hn Ha. unfold read_in, f_read. pose proof (aslice_len _ _ _ _ Ha) as Hz.
  apply aslice_Some in Ha as (_&_&_&->). by rewrite Hz.
Qed.

Lemma read_in_chunk n f p (s : obj) : infile s = UFile f p → 0 <= n → 0 <= p <= zlen f →
  ∃ b, read_in n s = Ret b (Obj (UFile f (p + zlen b)) (out s) (messages s)) ∧
    zlen b = Z.min n (zlen f - p) ∧ drop (Z.to_nat p) f = b ++ drop (Z.to_nat (p + zlen b)) f.
Proof.
  intros Hf Hn Hp. exists (take (Z.to_nat n) (drop (Z.to_nat p) f)).
  assert (zlen (take (Z.to_nat n) (drop (Z.to_nat p) f)) = Z.min n (zlen f - p)) as Hz
    by (unfold zlen in *; rewrite length_take, length_drop; lia).
  split; [unfold read_in, f_read; by rewrite Hf|]. split; [done|]. rewrite Z2Nat.inj_add by (unfold zlen; lia).
  rewrite <- drop_drop. rewrite <- (take_drop (Z.to_nat n) (drop (Z.to_nat p) f)) at 1 4. f_equal.
  rewrite drop_app_length'; [done|]. unfold zlen. lia.
Qed.

(** The copying of a whole file. *)
Lemma copy_rest_ok f (s : obj) : infile s = UFile f 0 →
  ∃ s', copy_rest s = Ret tt s' ∧ out s' = out s ++ f ∧ messages s' = messages s.
Proof.
  intros Hf. unfold copy_rest. rewrite Hf. cbn [contents].
  assert (∀ n p fl (s : obj), infile s = UFile f p → 0 <= p <= zlen f → zlen f - p <= Z.of_nat n → (n < fl)%nat →
    ∃ s', loop fl (λ _, let! b := read_in 8192 in
        if zlen b =? 0 then ret (inr tt) else put b ;;; ret (inl tt)) tt s = Ret tt s' ∧
      out s' = out s ++ drop (Z.to_nat p) f ∧ messages s' = messages s) as Hloop.
  { clear s Hf. induction n as [n IH] using lt_wf_ind. intros p fl s Hf Hp Hn Hfl. destruct fl as [|fl]; [lia|].
    destruct (read_in_chunk 8192 f p s Hf ltac:(lia) Hp) as (b&Er&Hz&Hd). set (s1 := Obj (UFile f (p + zlen b)) _ _) in Er.
    destruct (Z.eqb_spec (zlen b) 0) as [E0|E0].
    - exists s1. erewrite loop_exit; [|rewrite (bind_Ret _ _ _ _ _ Er), E0; reflexivity]. split; [done|].
      rewrite drop_ge by (unfold zlen in *; lia). by rewrite app_nil_r.
    - erewrite loop_step; [|rewrite (bind_Ret _ _ _ _ _ Er), (proj2 (Z.eqb_neq _ 0)) by done; reflexivity].
      destruct (IH (Z.to_nat (zlen f - (p + zlen b)))) with (p := p + zlen b) (fl := fl)
        (s := Obj (infile s1) (out s1 ++ b) (messages s1)) as (s'&E&Ho&Hm); [lia|done|lia|lia|lia|].
      exists s'. split; [exact E|]. split; [|exact Hm]. rewrite Ho, Hd. cbn [out s1]. by rewrite <- app_assoc. }
  destruct (Hloop (length f) 0 (S (length f)) s Hf) as (s'&E&Ho&Hm); [pose proof (zlen_nonneg f); lia|unfold zlen; lia|lia|].
  by exists s'.
Qed.

Lemma copy_segment_ok fuel f off n (s : obj) : infile s = UFile f off → 0 <= off → 0 <= n → off + n <= zlen f →
  n < Z.of_nat fuel →
  ∃ s' b, copy_segment fuel n s = Ret tt s' ∧ aslice f off n = Some b ∧ out s' = out s ++ b ∧ messages s' = messages s.
Proof.
  intros Hf Ho Hn Hl Hfuel. revert off n s Hf Ho Hn Hl Hfuel. unfold copy_segment.
  induction fuel as [|fuel IH]; intros off n s Hf Ho Hn Hl Hfuel; [lia|].
  destruct (Z.ltb_spec 0 n) as [Hpos|Hpos].
  - set (c := Z.min n 8192). destruct (aslice_is_Some f off c) as [b Eb]; [lia..|]. pose proof (aslice_len _ _ _ _ Eb) as Hz.
    pose proof (read_in_ok c s b ltac:(lia)) as Er. rewrite Hf in Er. specialize (Er Eb). cbn [contents pos] in Er.
    destruct (IH (off + c) (n - c) (Obj (UFile f (off + c)) (out s ++ b) (messages s))) as (s'&b'&E&Eb'&Hout&Hm); [done|lia..|].
    exists s', (b ++ b'). split; [|split; [|split; [by rewrite Hout; cbn; rewrite app_assoc|done]]].
    + erewrite loop_step; [exact E|]. rewrite (proj2 (Z.ltb_lt 0 n) Hpos). fold c.
      rewrite (bind_Ret _ _ _ _ _ Er), Hz, Z.eqb_refl. reflexivity.
    + replace n with (c + (n - c)) by lia. by apply aslice_join.
  - assert (n = 0) as -> by lia. destruct (aslice_is_Some f off 0) as [b Eb]; [lia..|]. exists s, b.
    pose proof (aslice_len _ _ _ _ Eb) as Hz. destruct b as [|x b]; [|rewrite zlen_cons in Hz; pose proof (zlen_nonneg b); lia].
    split; [by apply loop_exit|]. split; [done|]. by rewrite app_nil_r.
Qed.

Lemma zero_fill_ok fuel n (s : obj) : 0 < n → n <= Z.of_nat fuel →
  ∃ s', zero_fill fuel n s = Ret tt s' ∧ out s' = out s ++ replicate (Z.to_nat n) 0.
Proof.
  intros Hn Hf. revert n s Hn Hf. unfold zero_fill. induction fuel as [|fuel IH]; intros n s Hn Hf; [lia|].
  set (c := Z.min n 8192). set (s1 := Obj (infile s) (out s ++ replicate (Z.to_nat c) 0) (messages s)).
  destruct (Z.ltb_spec 0 (n - c)) as [Hlt|Hle].
  - destruct (IH (n - c) s1) as (s'&E&Ho); [lia..|]. exists s'.
    erewrite loop_step with (s' := s1); [|by rewrite (bind_Ret (put _) _ s tt s1 eq_refl); fold c; rewrite (proj2 (Z.ltb_lt _ _) Hlt)].
    split; [exact E|]. rewrite Ho. cbn [s1 out]. rewrite <- app_assoc, <- replicate_add. do 2 f_equal. lia.
  - exists s1. erewrite loop_exit with (s' := s1); [|by rewrite (bind_Ret (put _) _ s tt s1 eq_refl); fold c; rewrite (proj2 (Z.ltb_ge _ _) Hle)].
    split; [done|]. cbn [s1 out]. do 3 f_equal. lia.
Qed.

Lemma get_le_app_l k l l' off v : get_le k l off = Some v → get_le k (l ++ l') off = Some v.
Proof. unfold get_le. intros (a&Ea&->)%fmap_Some. by rewrite (aslice_app_l _ _ _ _ _ Ea). Qed.

Lemma encap_fields rest : let b := encap_ehdr ++ rest in
  aslice b 0 4 = Some (0x7f :: str "ELF") ∧ e_type b = Some ET_EXEC ∧ e_machine b = Some EM_ALPHA ∧
  e_phnum b = Some 1 ∧ e_entry b = Some LOAD_ADDR ∧ e_phoff b = Some 64.
Proof.
  intros b. split; [by apply aslice_app_l|]. unfold e_type, e_machine, e_phnum, e_entry, e_phoff.
  by repeat split; apply get_le_app_l.
Qed.

Lemma encap_phdr_fields n : 0 <= n < 2 ^ 64 → zlen (encap_phdr n) = 56 ∧
  p_offset (encap_phdr n) = Some 120 ∧ p_vaddr (encap_phdr n) = Some LOAD_ADDR ∧
  p_filesz (encap_phdr n) = Some n ∧ p_memsz (encap_phdr n) = Some n.
Proof.
  intros Hn. split; [done|]. assert (le_val (le_bytes 8 n) = n) as En.
  { rewrite le_val_le_bytes. by apply Z.mod_small. }
  split; [done|]. split; [done|]. split; rewrite <- En at 2; reflexivity.
Qed.

Lemma strip_args_pad argv o : pad o = 0 ∨ pad o = 512 → pad (strip_args argv o).1 = 0 ∨ pad (strip_args argv o).1 = 512.
Proof.
  revert o. induction argv as [|a argv IH]; intros o Ho; [done|]. cbn [strip_args].
  destruct a as [|c letters]; [done|]. destruct (decide (c = 45)) as [->|Hc]; [|by repeat case_match].
  apply IH. clear IH. revert o Ho. induction letters as [|c letters IH]; intros o Ho; [done|]. cbn [foldl]. apply IH.
  unfold strip_letter. repeat case_match; cbn [pad]; auto.
Qed.

Lemma pad_up n : 0 <= n → n + 512 < 2 ^ 63 → u64 (u64 (n + 512 - 1) / 512 * 512) - n = (- n) mod 512.
Proof.
  intros Hn Hb. rewrite (wrap_small 64 (n + 512 - 1)) by lia.
  pose proof (Z.div_mod (n + 512 - 1) 512 ltac:(lia)). pose proof (Z.mod_pos_bound (n + 512 - 1) 512 ltac:(lia)).
  rewrite wrap_small by lia. apply (Z.mod_unique_pos _ _ (- ((n + 512 - 1) / 512))); lia.
Qed.

Lemma say_if (b : bool) fmt args s : ∃ m, (if b then say fmt args else ret tt) s = Ret tt (Obj (infile s) (out s) m).
Proof. destruct b; [by eexists|]. exists (messages s). by destruct s. Qed.

Lemma extract_ok prog fuel o inname e p off n (s : obj) : pad o = 0 ∨ pad o = 512 → infile s = UFile e p →
  0 <= off → 0 <= n → off + n <= zlen e → n + 512 < 2 ^ 63 → n + 512 < Z.of_nat fuel →
  ∃ s' b, extract prog fuel o inname (off, n, n) s = Ret 0 s' ∧ aslice e off n = Some b ∧
    out s' = out s ++ b ++ replicate (if pad o =? 0 then 0 else Z.to_nat ((- n) mod 512)) 0.
Proof.
  intros Hpad Hs Hoff Hn Hl Hb Hfuel. unfold extract.
  set (s1 := Obj (UFile e off) (out s) (messages s)).
  assert (seek_in off s = Ret true s1) as Es by (unfold seek_in, f_lseek; by rewrite (proj2 (Z.leb_le 0 off) Hoff), Hs).
  rewrite (bind_Ret _ _ _ _ _ Es). cbv iota. cbn [negb].
  destruct (say_if (verbose o) ("%s: copying %lu byte from %s" ++ nl) [AStr (Some prog); AInt n; AStr (Some inname)] s1) as [m Em].
  rewrite (bind_Ret _ _ _ _ _ Em). set (s2 := Obj _ _ m).
  destruct (copy_segment_ok fuel e off n s2) as (s3&b&E3&Eb&Ho3&_); [done|lia..|].
  rewrite (bind_Ret _ _ _ _ _ E3). cbv zeta. cbn [out s2 s1] in Ho3.
  assert (u64 ((if pad o =? 0 then n else u64 (u64 (n + pad o - 1) / pad o * pad o)) - n) =
    if pad o =? 0 then 0 else (- n) mod 512) as ->.
  { destruct Hpad as [->| ->]; [by rewrite Z.sub_diag|]. change (512 =? 0) with false. cbv iota. rewrite pad_up by lia.
    apply wrap_small. pose proof (Z.mod_pos_bound (- n) 512 ltac:(lia)). lia. }
  pose proof (Z.mod_pos_bound (- n) 512 ltac:(lia)).
  destruct (decide (0 < if pad o =? 0 then 0 else (- n) mod 512)) as [Hpos|Hpos].
  - rewrite (proj2 (Z.ltb_lt _ _) Hpos). destruct (Z.eqb_spec (pad o) 0) as [|Hne]; [lia|].
    cbv iota. rewrite bind_bind. erewrite bind_Ret; [|apply say_obj].
    destruct (zero_fill_ok fuel ((- n) mod 512) (Obj (infile s3) (out s3) (messages s3 ++
      [(("%s: zero-filling bss and aligning to %lu with %lu bytes" ++ nl)%string, [AStr (Some prog); AInt (pad o); AInt ((- n) mod 512)])])))
      as (s4&E4&Ho4); [lia..|].
    erewrite bind_Ret; [|exact E4]. exists s4, b. split; [done|]. split; [done|]. rewrite Ho4. cbn [out]. by rewrite Ho3, <- app_assoc.
  - rewrite (proj2 (Z.ltb_ge _ _)) by lia. cbv iota. rewrite bind_ret. exists s3, b. split; [done|]. split; [done|]. rewrite Ho3.
    destruct (pad o =? 0); [|replace ((- n) mod 512) with 0 by lia]; cbn [Z.to_nat replicate]; by rewrite app_nil_r.
Qed.

Lemma elfencap_out argv1 f (s : obj) : zlen f < 2 ^ 64 →
  ∃ s1, elfencap argv1 (Some f) s = Ret 0 s1 ∧ out s1 = out s ++ encap_header (zlen f) ++ f.
Proof.
  intros Hz. pose proof (zlen_nonneg f). unfold elfencap.
  rewrite (bind_Ret (modify (λ s, Obj (UFile f 0) (out s) (messages s))) _ s tt (Obj (UFile f 0) (out s) (messages s)) eq_refl).
  rewrite (bind_Ret (put (encap_header (u64 (zlen f)))) _ (Obj (UFile f 0) (out s) (messages s)) tt
    (Obj (UFile f 0) (out s ++ encap_header (u64 (zlen f))) (messages s)) eq_refl).
  destruct (copy_rest_ok f (Obj (UFile f 0) (out s ++ encap_header (u64 (zlen f))) (messages s)) eq_refl) as (s1&E1&Ho1&_).
  rewrite (bind_Ret _ _ _ _ _ E1). exists s1. split; [done|]. rewrite Ho1, (wrap_small 64) by lia. cbn [out]. by rewrite <- app_assoc.
Qed.

(** What objstrip takes from the headers of elfencap. *)
Lemma elf_segment_encap prog o inname rest f p (s : obj) : zlen f + 120 < 2 ^ 62 →
  let e := encap_header (zlen f) ++ f in infile s = UFile e p →
  ∃ s', elf_segment prog o inname (encap_ehdr ++ rest) s = Ret (120, zlen f, zlen f) s' ∧
    out s' = out s ∧ infile s' = UFile e 120.
Proof.
  intros Hz e Hs. pose proof (zlen_nonneg f). destruct (encap_phdr_fields (zlen f)) as (Hph&F1&F2&F3&F4); [lia|].
  destruct (encap_fields rest) as (_&G1&G2&G3&G4&G5). unfold elf_segment.
  rewrite G1, G2, G3, G4, G5. cbn [lift_opt]. rewrite bind_ret, bind_ret.
  change (negb (ET_EXEC =? ET_EXEC)) with false. change (negb (EM_ALPHA =? EM_ALPHA)) with false. cbv iota.
  rewrite bind_ret. change (negb (1 =? 1)) with false. cbv iota. rewrite !bind_ret.
  set (s1 := Obj (UFile e 64) (out s) (messages s)).
  assert (seek_in (s64 64) s = Ret true s1) as Es by (unfold seek_in; by rewrite Hs).
  rewrite (bind_Ret _ _ _ _ _ Es).
  assert (aslice e 64 56 = Some (encap_phdr (zlen f))) as Ea.
  { unfold e, encap_header. rewrite <- app_assoc. by apply aslice_app_mid. }
  pose proof (read_in_ok sizeof_phdr s1 _ ltac:(done) Ea) as Er. cbn [s1 infile contents pos out messages] in Er.
  rewrite (bind_Ret _ _ _ _ _ Er), Hph. change (negb (56 =? sizeof_phdr)) with false. cbv iota.
  rewrite F1, F2, F3, F4. cbn [lift_opt]. rewrite !bind_ret, Z.ltb_irrefl. cbv zeta.
  rewrite !Z.add_0_r, !Z.sub_0_r, (swrap_small 64 eq_refl 120), !(wrap_small 64 (zlen f)) by lia.
  match goal with |- context [say ?fmt ?args] =>
    destruct (say_if (verbose o) fmt args (Obj (UFile e (64 + sizeof_phdr)) (out s) (messages s))) as [m Em] end.
  rewrite (bind_Ret _ _ _ _ _ Em). eexists. split; [reflexivity|split; reflexivity].
Qed.

(** ** abootconf *)

Lemma atoi_strtol l v : strtol l = Some v → - 2 ^ 31 <= v < 2 ^ 31 → atoi l = v.
Proof.
  unfold strtol, atoi. case_decide; [|done]. intros [= <-] Hv. rewrite Z.min_r, Z.max_r by lia. by apply (swrap_small 32).
Qed.

Lemma find_magic_range n i b j : find_magic n i b = Some (Some j) → i <= j < i + Z.of_nat n ∧ get_u64 b (8 * j) = Some ABOOT_MAGIC.
Proof.
  revert i. induction n as [|n IH]; intros i; [done|]. cbn [find_magic]. destruct (get_u64 b (8 * i)) as [w|] eqn:Ew; [|done].
  cbn [mbind option_bind]. destruct (Z.eqb_spec w ABOOT_MAGIC) as [->|_]; [intros [= <-]; split; [lia|done]|].
  intros [Hr Hg]%IH. split; [lia|done].
Qed.

(** The search looks at nothing behind the word it finds. *)
Lemma find_magic_prefix n i b b' j : find_magic n i b = Some (Some j) →
  (∀ k, i <= k <= j → get_u64 b' (8 * k) = get_u64 b (8 * k)) → find_magic n i b' = Some (Some j).
Proof.
  revert i. induction n as [|n IH]; intros i; [done|]. intros E HE. pose proof (find_magic_range _ _ _ _ E) as [Hr _].
  cbn [find_magic] in *. rewrite HE by lia. destruct (get_u64 b (8 * i)) as [w|]; [|done].
  cbn [mbind option_bind] in *. destruct (w =? ABOOT_MAGIC); [done|]. apply IH; [done|]. intros k Hk. apply HE. lia.
Qed.

(** A splice of a slice, put back. *)
Lemma asplice_asplice (d sec sec' d' : list Z) off o b : aslice d off (zlen sec) = Some sec → asplice sec o b = Some sec' →
  asplice d off sec' = Some d' → asplice d (off + o) b = Some d'.
Proof.
  intros Ha Es Ed. pose proof (zlen_nonneg b). assert (zlen sec' = zlen sec) as Hz by (unfold zlen; by rewrite (asplice_len _ _ _ _ Es)).
  apply aslice_Some in Ha as Ha'. destruct Ha' as (?&_&Hl&_).
  assert (0 <= o ∧ o + zlen b <= zlen sec) as Ho by (unfold asplice in Es; case_decide; [lia|done]).
  assert (is_Some (asplice d (off + o) b)) as [d1 E1] by (unfold asplice; rewrite decide_True by lia; by eexists).
  rewrite E1. f_equal. apply list_eq_aget. intros k Hk.
  rewrite (aget_asplice _ _ _ _ _ E1), (aget_asplice _ _ _ _ _ Ed), Hz. case_decide; case_decide; try lia.
  - rewrite (aget_asplice _ _ _ _ _ Es), decide_True by lia. f_equal. lia.
  - rewrite (aget_asplice _ _ _ _ _ Es), decide_False by lia. rewrite (aget_aslice _ _ _ _ _ Ha) by lia. f_equal. lia.
  - done.
Qed.

(** The image of the loader on a disk: its sector, and the index of the magic
    number in it. *)
Definition config_at (d : list Z) (p : Z) (sec : list Z) (i : Z) : Prop :=
  get_u64 d 488 = Some p ∧ 1 <= p ∧ p * 512 < 2 ^ 62 ∧ aslice d (p * 512) 512 = Some sec ∧
  find_magic 64 0 sec = Some (Some i) ∧ i < 63.

(** Up to the magic number. *)
Lemma partition_word prog argv1 arg part d p sec i (s : obj) : config_at d p sec i → infile s = UFile d 0 →
  let s' := Obj (UFile d (p * 512 + 512)) (out s) (messages s) in
  set_partition_of prog argv1 arg part s =
    (if part <? 0 then
       let! v := lift_opt (get_u64 sec (8 * (i + 1))) in
       say ("aboot.conf partition currently set to %ld" ++ nl) [AInt (s64 v)] ;;; exit "exit(0)"
     else
       let! ok := seek_in (p * 512) in
       if negb ok then say "lseek" [] ;;; exit "exit(1)"
       else
         let! v := lift_opt (atoi <$> arg) in
         let! sector := lift_opt (put_le 8 sec (8 * (i + 1)) v) in
         write_in sector ;;;
         ret 0) s'.
Proof.
  intros (Ep&Hp&Hb&Es&Em&Hi) Hs s'. pose proof (aslice_Some d (p * 512) 512 sec) as [Hd _]. specialize (Hd Es).
  unfold set_partition_of. destruct (aslice_is_Some d 0 512) as [b0 E0]; [lia..|].
  pose proof (read_in_ok 512 s b0 ltac:(lia)) as Er. rewrite Hs in Er. specialize (Er E0).
  rewrite (bind_Ret _ _ _ _ _ Er), (aslice_len _ _ _ _ E0). change (negb (512 =? 512)) with false. cbv iota.
  rewrite (get_le_aslice 8 d 0 512 b0 (8 * 61) E0) by lia. change (0 + 8 * 61) with 488. rewrite Ep. cbn [lift_opt]. rewrite bind_ret. cbv zeta.
  rewrite (wrap_small 64), (swrap_small 64 eq_refl) by lia.
  set (s1 := Obj (UFile d (p * 512)) (out s) (messages s)). cbn [contents pos].
  assert (∀ q, seek_in (p * 512) (Obj (UFile d q) (out s) (messages s)) = Ret true s1) as Ek.
  { intros q. unfold seek_in, f_lseek. by rewrite (proj2 (Z.leb_le 0 (p * 512))) by lia. }
  rewrite (bind_Ret _ _ _ _ _ (Ek _)). cbv iota. cbn [negb].
  pose proof (read_in_ok 512 s1 sec ltac:(lia) Es) as Er1. cbn [s1 infile contents pos out messages] in Er1.
  rewrite (bind_Ret _ _ _ _ _ Er1), (aslice_len _ _ _ _ Es). change (negb (512 =? 512)) with false. cbv iota.
  rewrite Em. cbn [lift_opt]. by rewrite bind_ret.
Qed.

(** C23: abootconf with a number stores it in the eight bytes behind the magic
    number of the installed loader and changes nothing else of the disk; run
    without a number on that disk it shows the number. *)
Theorem abootconf_sets prog argv1 argv2 d p sec i part (s s2 : obj) :
  config_at d p sec i → strtol argv2 = Some part → 0 <= part < 2 ^ 31 →
  ∃ s1 d', abootconf prog [argv1; argv2] (Some d) s = Ret 0 s1 ∧ contents (infile s1) = d' ∧
    asplice d (p * 512 + 8 * (i + 1)) (le_bytes 8 part) = Some d' ∧
    ∃ s3, abootconf prog [argv1] (Some d') s2 = Jump "exit(0)" s3 ∧
      messages s3 = messages s2 ++ [(("aboot.conf partition currently set to %ld" ++ nl)%string, [AInt part])].
Proof.
  intros Hc Hn Hpart. pose proof Hc as (Ep&Hp&Hb&Es&Em&Hi). pose proof (find_magic_range _ _ _ _ Em) as [Hir Hmg].
  pose proof (aslice_len _ _ _ _ Es) as Hzs. destruct (proj1 (aslice_Some d (p * 512) 512 sec) Es) as (_&_&Hd&_).
  cbn [abootconf]. rewrite Hn.
  rewrite (bind_Ret (modify _) _ s tt (Obj (UFile d 0) (out s) (messages s)) eq_refl).
  rewrite (partition_word prog argv1 (Some argv2) part d p sec i) by done. cbn [out messages].
  rewrite (proj2 (Z.ltb_ge part 0)) by lia.
  set (s0 := Obj (UFile d (p * 512)) (out s) (messages s)).
  assert (seek_in (p * 512) (Obj (UFile d (p * 512 + 512)) (out s) (messages s)) = Ret true s0) as Ek.
  { unfold seek_in, f_lseek. by rewrite (proj2 (Z.leb_le 0 (p * 512))) by lia. }
  rewrite (bind_Ret _ _ _ _ _ Ek). cbv iota. cbn [negb fmap option_fmap option_map lift_opt].
  rewrite bind_ret, (atoi_strtol _ _ Hn) by lia. destruct (put_le_is_Some 8 sec (8 * (i + 1)) part) as [sec' Es']; [lia..|].
  rewrite Es'. cbn [lift_opt]. rewrite bind_ret. pose proof (put_le_len _ _ _ _ _ Es') as Hzs'.
  destruct (f_write_in sec' d (p * 512)) as (d'&Ed'&Ew); [lia..|].
  set (s1 := Obj (UFile d' (p * 512 + zlen sec')) (out s) (messages s)).
  assert (write_in sec' s0 = Ret tt s1) as Ewr by (unfold write_in, modify; cbn [s0 infile out messages]; by rewrite Ew).
  rewrite (bind_Ret _ _ _ _ _ Ewr). exists s1, d'. split; [done|]. split; [done|].
  split; [apply (asplice_asplice d sec sec'); [by rewrite Hzs|exact Es'|exact Ed']|].
  assert (config_at d' p sec' i) as Hc'.
  { repeat split; [|done|done| | |done].
    - unfold get_le. rewrite (aslice_asplice_other d d' (p * 512) sec') by (done || lia). exact Ep.
    - pose proof (aslice_asplice_same _ _ _ _ Ed') as E. by rewrite Hzs', Hzs in E.
    - apply (find_magic_prefix _ _ sec); [done|]. intros k Hk. apply (get_put_le_other _ _ _ _ _ _ _ Es'). lia. }
  cbn [abootconf]. rewrite (bind_Ret (modify _) _ s2 tt (Obj (UFile d' 0) (out s2) (messages s2)) eq_refl).
  rewrite (partition_word prog argv1 None (-1) d' p sec' i) by done. change (-1 <? 0) with true. cbv iota.
  rewrite (get_put_le _ _ _ _ _ Es' : get_u64 sec' _ = _). cbn [lift_opt]. rewrite bind_ret.
  change (256 ^ Z.of_nat 8) with (2 ^ 64). rewrite Z.mod_small, (swrap_small 64 eq_refl) by lia.
  erewrite bind_Ret; [|apply say_obj]. eexists. split; reflexivity.
Qed.

Definition conf_disk : list Z :=
  replicate 488 0 ++ le_bytes 8 1 ++ replicate 16 0 ++ replicate 16 9 ++ le_bytes 8 ABOOT_MAGIC ++ le_bytes 8 0 ++ replicate 480 9.

Lemma abootconf_sets_witness :
  ∃ s1 d', abootconf (str "abootconf") [str "/dev/sda"; str "3"] (Some conf_disk) (Obj (UFile [] 0) [] []) = Ret 0 s1 ∧
    contents (infile s1) = d' ∧ asplice conf_disk (1 * 512 + 8 * (2 + 1)) (le_bytes 8 3) = Some d' ∧
    ∃ s3, abootconf (str "abootconf") [str "/dev/sda"] (Some d') (Obj (UFile [] 0) [] []) = Jump "exit(0)" s3 ∧
      messages s3 = [] ++ [(("aboot.conf partition currently set to %ld" ++ nl)%string, [AInt 3])].
Proof.
  apply (abootconf_sets (str "abootconf") (str "/dev/sda") (str "3") conf_disk 1
    (replicate 16 9 ++ le_bytes 8 ABOOT_MAGIC ++ le_bytes 8 0 ++ replicate 480 9) 2 3 (Obj (UFile [] 0) [] []) (Obj (UFile [] 0) [] [])).
  - unfold config_at. split; [reflexivity|]. split; [lia|]. split; [lia|]. split; [vm_compute; reflexivity|].
    split; [vm_compute; reflexivity|lia].
  - vm_compute. reflexivity.
  - lia.
Defined.

(** C20: objstrip takes out of a file made by elfencap the file that was wrapped,
    all of it and nothing else; with -b filled with zeros up to the next
    multiple of 512 bytes. *)
Theorem elfencap_objstrip prog parse_coff exec ah magic fuel files argv o inname argv1 f (s s2 : obj) :
  strip_args argv (StripOptions false 0 false) = (o, [inname]) → primary o = false → zlen f + 120 < 2 ^ 62 →
  zlen f + 512 < Z.of_nat fuel → out s = [] →
  ∃ s1, elfencap argv1 (Some f) s = Ret 0 s1 ∧
    (files inname = Some (out s1) →
     ∃ s3, objstrip prog parse_coff exec ah magic fuel files argv s2 = Ret 0 s3 ∧
       out s3 = out s2 ++ f ++ replicate (if pad o =? 0 then 0 else Z.to_nat ((- zlen f) mod 512)) 0).
Proof.
  intros Ho Hp Hz Hfuel Hs. pose proof (zlen_nonneg f). destruct (elfencap_out argv1 f s) as (s1&E1&Ho1); [lia|].
  rewrite Hs in Ho1. cbn [app] in Ho1. exists s1. split; [done|]. intros Hfile.
  set (e := encap_header (zlen f) ++ f) in *. unfold objstrip. rewrite Ho, Hfile, Ho1, Hp.
  set (t0 := Obj (UFile e 0) (out s2) (messages s2)).
  rewrite (bind_Ret (modify (λ s, Obj (UFile e 0) (out s) (messages s))) _ s2 tt t0 eq_refl).
  assert (zlen e = 120 + zlen f) as Hze by (unfold e, encap_header; by rewrite !zlen_app).
  assert (∃ rest, take (Z.to_nat 8192) e = encap_ehdr ++ rest) as [rest Erest].
  { unfold e, encap_header. rewrite <- app_assoc. rewrite take_app_ge by (cbn [encap_ehdr length app str map]; by vm_compute; lia). by eexists. }
  set (buf := encap_ehdr ++ rest) in *.
  set (t1 := Obj (UFile e (zlen buf)) (out s2) (messages s2)).
  assert (read_in 8192 t0 = Ret buf t1) as Er.
  { unfold read_in, f_read. cbn [t0 infile contents pos out messages]. change (Z.to_nat 0) with 0%nat. by rewrite drop_0, Erest. }
  rewrite (bind_Ret _ _ _ _ _ Er). destruct (encap_fields rest) as (G0&_). fold buf in G0.
  rewrite G0. cbn [lift_opt]. rewrite bind_ret, bool_decide_eq_true_2 by done.
  destruct (elf_segment_encap prog o inname rest f (zlen buf) t1 Hz eq_refl) as (t2&E2&Ho2&Hi2). fold buf in E2.
  rewrite (bind_Ret _ _ _ _ _ E2).
  destruct (extract_ok prog fuel o inname e 120 120 (zlen f) t2) as (s3&b&E3&Eb&Ho3); [|done|lia..|].
  { pose proof (strip_args_pad argv (StripOptions false 0 false) (or_introl eq_refl)) as Hpad. by rewrite Ho in Hpad. }
  exists s3. split; [done|]. rewrite Ho3, Ho2. cbn [t1 out]. f_equal. f_equal.
  unfold e in Eb. rewrite <- (app_nil_r f) in Eb at 2. rewrite (aslice_app_mid (encap_header (zlen f)) f []) in Eb; [congruence| |done].
  unfold encap_header. by rewrite zlen_app.
Qed.

Lemma elfencap_objstrip_witness :
  ∃ s1, elfencap (str "aboot") (Some (replicate 700 7)) (Obj (UFile [] 0) [] []) = Ret 0 s1 ∧
    ∃ s3, objstrip (str "objstrip") (λ _, None) 2 80 263 2000 (λ _, Some (out s1)) [str "-bv"; str "in"]
      (Obj (UFile [] 0) [] []) = Ret 0 s3 ∧ out s3 = replicate 700 7 ++ replicate 324 0.
Proof.
  destruct (elfencap_objstrip (str "objstrip") (λ _, None) 2 80 263 2000
    (λ _, Some (encap_header 700 ++ replicate 700 7)) [str "-bv"; str "in"] (StripOptions true 512 false) (str "in") (str "aboot")
    (replicate 700 7) (Obj (UFile [] 0) [] []) (Obj (UFile [] 0) [] [])) as (s1&E1&H1).
  - reflexivity.
  - reflexivity.
  - by vm_compute.
  - by vm_compute.
  - reflexivity.
  - exists s1. split; [exact E1|]. assert (out s1 = encap_header 700 ++ replicate 700 7) as Es.
    { vm_compute in E1. injection E1 as <-. vm_compute. reflexivity. }
    rewrite Es. apply H1. f_equal. symmetry. exact Es.
Defined.
