(* ===== verification/Sdisktool.v ===== *)
(** * sdisklabel/sdisklabel.c: the command line

    The state is the disk, the label in memory and the statics of the program;
    of the messages those to the standard output are kept.  What the two ioctls
    of [set_disk_size] answer is a parameter: the geometry, and the size in
    sectors, [None] for a call that fails. *)

From Stdlib Require Import Ascii String.
From S2P Require Import Prelude CString Vsprintf Ufile Objtools Sdisklabel.

Open Scope Z_scope.
Open Scope list_scope.

Record sdisk := SDisk {
  disk : ufile; label : list Z; label_modified : bool; force : bool; total_disk_size : Z;
  printed : list (string * list arg) }.

Abbreviation SM := (M sdisk).

Definition on_disk {A} (m : FM A) : SM A := λ s,
  match m (disk s) with
  | Ret a f => Ret a (SDisk f (label s) (label_modified s) (force s) (total_disk_size s) (printed s))
  | Jump e f => Jump e (SDisk f (label s) (label_modified s) (force s) (total_disk_size s) (printed s))
  | Trap => Trap
  | Diverge => Diverge
  end.
Definition set_label (d : list Z) : SM unit :=
  modify (λ s, SDisk (disk s) d (label_modified s) (force s) (total_disk_size s) (printed s)).
Definition set_modified : SM unit :=
  modify (λ s, SDisk (disk s) (label s) true (force s) (total_disk_size s) (printed s)).
Definition set_force : SM unit :=
  modify (λ s, SDisk (disk s) (label s) (label_modified s) true (total_disk_size s) (printed s)).
Definition set_size (n : Z) : SM unit :=
  modify (λ s, SDisk (disk s) (label s) (label_modified s) (force s) n (printed s)).
Definition printf (fmt : string) (args : list arg) : SM unit :=
  modify (λ s, SDisk (disk s) (label s) (label_modified s) (force s) (total_disk_size s) (printed s ++ [(fmt, args)])).

Definition l_fstype (d : list Z) (x : Z) := get_u8 d (148 + 16 * x + 12).

Definition print_disklabel (d : list Z) : SM unit :=
  let! n := lift_opt (l_npartitions d) in
  times (Z.to_nat n) (λ x,
    let! type := lift_opt (l_fstype d x) in
    let! offset := lift_opt (l_poffset d x) in
    let! size := lift_opt (l_psize d x) in
    printf ("partition %d: type %d, starts sector %d, size %d" ++ nl) [AInt x; AInt type; AInt offset; AInt size] ;;;
    ret (x + 1)) 0 ;;;
  ret tt.

(** total_disk_size, from what it is; heads, sectors and cylinders only go into
    a message. *)
Definition set_disk_size (geo : option (Z * Z * Z)) (blocks : option Z) (total : Z) : Z :=
  match geo with
  | Some (heads, sectors, cylinders) =>
      let product := s32 (heads * sectors * cylinders) in
      if product =? 0 then product
      else match blocks with Some b => s32 b | None => product end
  | None => total
  end.

Definition isdigit (c : Z) : bool := (48 <=? c) && (c <=? 57).
Definition starts_with_digit (a : list Z) : bool := match a with c :: _ => isdigit c | [] => false end.

(** One command, and the arguments behind it. *)
Definition command (args : list (list Z)) : SM (list (list Z)) :=
  match args with
  | [] => trap
  | a :: rest =>
      if bool_decide (a = str "sum") then
        let! d := gets label in on_disk (dosumlabel d) ;;; ret rest
      else if bool_decide (a = str "zero") then
        let! d := lift_opt zero_disklabel in set_label d ;;; set_modified ;;; ret rest
      else if bool_decide (a = str "print") then
        let! d := gets label in print_disklabel d ;;; ret rest
      else if bool_decide (a = str "force") then set_force ;;; ret rest
      else
        match rest with
        | off :: size :: fstype :: rest =>
            if starts_with_digit a && starts_with_digit off && starts_with_digit size && starts_with_digit fstype then
              let partnum := atoi a in
              if (partnum <? 0) || (7 <? partnum) then on_disk exit
              else
                let! s := gets id in
                let! ' (r, d) := lift_opt (set_partition (total_disk_size s) (force s) (label s) partnum
                  (atoi off) (atoi size) (atoi fstype)) in
                if negb (r =? 0) then on_disk exit
                else set_label d ;;; set_modified ;;; ret rest
            else on_disk exit
        | _ => on_disk exit
        end
  end.

(** for (x = 2; x < argc;): the size comes before another command. *)
Definition run_commands (args : list (list Z)) : SM unit :=
  loop (S (length args)) (λ args,
    match args with
    | [] => ret (inr tt)
    | a :: rest =>
        let! args := match rest with
                     | v :: rest => if bool_decide (a = str "size") then set_size (atoi v) ;;; ret rest else ret args
                     | [] => ret args
                     end in
        let! args := command args in
        ret (inl args)
    end) args.

Definition sdisklabel (geo : option (Z * Z * Z)) (blocks : option Z) (drive : option (list Z)) (argv : list (list Z)) : SM Z :=
  match argv with
  | argv1 :: argv2 :: args =>
      match drive with
      | None => on_disk exit
      | Some c =>
          modify (λ s, SDisk (UFile c 0) (label s) (label_modified s) (force s)
            (set_disk_size geo blocks (total_disk_size s)) (printed s)) ;;;
          (if bool_decide (argv2 = str "zero") then
             let! d := lift_opt zero_disklabel in set_label d ;;; set_modified
           else
             let! d := gets label in
             let! ' (r, d) := on_disk (read_disklabel d) in
             set_label d ;;;
             if negb (r =? 0) then on_disk exit else ret tt) ;;;
          run_commands (argv2 :: args) ;;;
          let! s := gets id in
          (if label_modified s then
             let! r := on_disk (write_disklabel (label s)) in
             if negb (r =? 0) then on_disk exit else ret tt
           else ret tt) ;;;
          ret 0
      end
  | _ => on_disk exit
  end.

(** The program as it starts. *)
Definition start : sdisk := SDisk (UFile [] 0) (replicate (Z.to_nat sizeof_label) 0) false false 0 [].

(** ** Lemmas *)

Definition partition_is (d : list Z) (k offset size fstype : Z) : Prop :=
  l_poffset d k = Some offset ∧ l_psize d k = Some size ∧ l_fstype d k = Some fstype.

Lemma overlap_from_Some n : ∀ x d offset endplace force, zlen d = sizeof_label → 0 <= x → x + Z.of_nat n <= 8 →
  is_Some (overlap_from n x d offset endplace force).
Proof.
  induction n as [|n IH]; intros x d offset endplace force Hd Hx Hn; [by eexists|]. cbn [overlap_from].
  rewrite (proj2 (Z.leb_gt 32 x)) by lia. case_match; [|apply IH; lia].
  unfold l_poffset, l_psize, sizeof_label in *.
  destruct (get_le_is_Some 4 d (148 + 16 * x + 4)) as [o ->]; [lia..|].
  destruct (get_le_is_Some 4 d (148 + 16 * x)) as [z ->]; [lia..|]. cbn [mbind option_bind].
  case_match; [by eexists|apply IH; lia].
Qed.

(** A partition set in a label: its fields, the number of partitions, and
    everything else as it was. *)
Lemma set_partition_ok total d n num offset size fstype : zlen d = sizeof_label → l_npartitions d = Some n → n <= 8 →
  0 <= num <= 7 → num <= n → 0 <= offset → 0 <= size → offset + size <= total → total < 2 ^ 31 →
  ∃ d', set_partition total false d num offset size fstype = Some (0, d') ∧ zlen d' = sizeof_label ∧
    partition_is d' num offset size (fstype mod 256) ∧ l_npartitions d' = Some (Z.max n (num + 1)) ∧
    (∀ k o, 0 <= k → (o + k <= 138 ∨ 140 <= o) → (o + k <= 148 + 16 * num ∨ 148 + 16 * num + 13 <= o) → get_le k d' o = get_le k d o).
Proof.
  intros Hd Hn Hn8 Hnum Hle Ho Hs Ht Htb. unfold set_partition. rewrite swrap_small by lia.
  rewrite (proj2 (Z.ltb_ge _ _)) by lia. cbn [andb negb]. rewrite Hn. cbn [mbind option_bind].
  rewrite (proj2 (Z.ltb_ge _ _)) by lia. cbn [andb negb].
  unfold overlaplabel. rewrite Hn. cbn [mbind option_bind].
  destruct (overlap_from_Some (Z.to_nat n) 0 d offset (offset + size) (Z.shiftl 1 num)) as [x ->]; [done|lia|lia|].
  cbn [mbind option_bind]. set (b := 148 + 16 * num).
  destruct (put_le_is_Some 4 d (b + 4) offset) as [d1 E1]; [unfold sizeof_label in *; lia..|]. rewrite E1. cbn [mbind option_bind].
  pose proof (put_le_len _ _ _ _ _ E1) as Z1.
  destruct (put_le_is_Some 4 d1 b size) as [d2 E2]; [unfold sizeof_label in *; lia..|]. rewrite E2. cbn [mbind option_bind].
  pose proof (put_le_len _ _ _ _ _ E2) as Z2.
  destruct (put_le_is_Some 1 d2 (b + 12) fstype) as [d3 E3]; [unfold sizeof_label in *; lia..|]. rewrite E3. cbn [mbind option_bind].
  pose proof (put_le_len _ _ _ _ _ E3) as Z3.
  destruct (put_le_is_Some 2 d3 138 (n + 1)) as [d4 E4]; [unfold sizeof_label in *; lia..|].
  pose proof (put_le_len _ _ _ _ _ E4) as Z4.
  assert (∀ k o, 0 <= k → (o + k <= 138 ∨ 140 <= o) →
    get_le k (if num =? n then d4 else d3) o = get_le k d3 o) as H4.
  { intros k o Hk Hd4. destruct (num =? n); [|done]. by apply (get_put_le_other _ _ _ _ _ _ _ E4). }
  exists (if num =? n then d4 else d3).
  split; [destruct (num =? n); [by rewrite E4|done]|]. split; [destruct (num =? n); lia|].
  assert (l_poffset d3 num = Some offset) as F1.
  { unfold l_poffset. fold b. rewrite (get_put_le_other _ _ _ _ _ _ _ E3), (get_put_le_other _ _ _ _ _ _ _ E2) by lia.
    rewrite (get_put_le _ _ _ _ _ E1 : get_u32 d1 _ = _). f_equal. apply Z.mod_small. change (256 ^ Z.of_nat 4) with (2 ^ 32). lia. }
  assert (l_psize d3 num = Some size) as F2.
  { unfold l_psize. fold b. rewrite (get_put_le_other _ _ _ _ _ _ _ E3) by lia.
    rewrite (get_put_le _ _ _ _ _ E2 : get_u32 d2 _ = _). f_equal. apply Z.mod_small. change (256 ^ Z.of_nat 4) with (2 ^ 32). lia. }
  assert (l_fstype d3 num = Some (fstype mod 256)) as F3 by exact (get_put_le _ _ _ _ _ E3).
  split; [|split].
  - unfold partition_is, l_poffset, l_psize, l_fstype in *. fold b in F1, F2, F3 |- *. rewrite !H4 by lia. done.
  - unfold l_npartitions. destruct (Z.eqb_spec num n) as [->|Hne].
    + rewrite (get_put_le _ _ _ _ _ E4 : get_u16 d4 _ = _). f_equal. change (256 ^ Z.of_nat 2) with 65536. rewrite Z.mod_small; lia.
    + rewrite (get_put_le_other _ _ _ _ _ _ _ E3), (get_put_le_other _ _ _ _ _ _ _ E2), (get_put_le_other _ _ _ _ _ _ _ E1) by lia.
      unfold l_npartitions in Hn. rewrite Hn. f_equal. lia.
  - intros k o Hk Hko Hkp. rewrite H4 by done.
    by rewrite (get_put_le_other _ _ _ _ _ _ _ E3), (get_put_le_other _ _ _ _ _ _ _ E2), (get_put_le_other _ _ _ _ _ _ _ E1) by lia.
Qed.

Lemma set_disk_size_small geo blocks : set_disk_size geo blocks 0 < 2 ^ 31.
Proof.
  assert (∀ x, s32 x < 2 ^ 31) as H by (intros x; apply (swrap_range 32 eq_refl x)).
  unfold set_disk_size. destruct geo as [[[h s] c]|]; [|lia]. case_match; [apply H|]. destruct blocks; apply H.
Qed.

Lemma on_disk_Ret {A} (m : FM A) s a f : m (disk s) = Ret a f →
  on_disk m s = Ret a (SDisk f (label s) (label_modified s) (force s) (total_disk_size s) (printed s)).
Proof. intros E. unfold on_disk. by rewrite E. Qed.

Lemma digit_not a w : starts_with_digit a = true → starts_with_digit w = false → bool_decide (a = w) = false.
Proof. intros Ha Hw. apply bool_decide_eq_false_2. congruence. Qed.

Lemma command_partition a1 a2 a3 a4 k (s : sdisk) : forallb starts_with_digit [a1; a2; a3; a4] = true →
  force s = false → zlen (label s) = sizeof_label → l_npartitions (label s) = Some k → k <= 8 →
  0 <= atoi a1 <= 7 → atoi a1 <= k → 0 <= atoi a2 → 0 <= atoi a3 →
  atoi a2 + atoi a3 <= total_disk_size s → total_disk_size s < 2 ^ 31 →
  ∃ l', set_partition (total_disk_size s) false (label s) (atoi a1) (atoi a2) (atoi a3) (atoi a4) = Some (0, l') ∧
    run_commands [a1; a2; a3; a4] s = Ret tt (SDisk (disk s) l' true (force s) (total_disk_size s) (printed s)).
Proof.
  intros Hd Hf Hl Hk Hk8 H1 H1k H2 H3 Ht Htb.
  destruct (set_partition_ok (total_disk_size s) (label s) k (atoi a1) (atoi a2) (atoi a3) (atoi a4)) as (l'&E&_); [done|done|lia..|].
  exists l'. split; [exact E|]. pose proof Hd as Hd'. cbn [forallb] in Hd'. apply andb_prop in Hd' as [D1 Hd'].
  apply andb_prop in Hd' as [D2 Hd']. apply andb_prop in Hd' as [D3 Hd']. apply andb_prop in Hd' as [D4 _].
  set (s' := SDisk (disk s) l' true (force s) (total_disk_size s) (printed s)).
  assert (command [a1; a2; a3; a4] s = Ret [] s') as Ec.
  { unfold command. rewrite !(digit_not a1) by done. rewrite D1, D2, D3, D4. cbn [andb].
    rewrite (proj2 (Z.ltb_ge _ _)), (proj2 (Z.ltb_ge _ _)) by lia. cbn [orb].
    rewrite (bind_Ret (gets id) _ s s s eq_refl). cbn [id]. rewrite Hf, E. cbn [lift_opt]. rewrite bind_ret.
    change (negb (0 =? 0)) with false. cbv iota.
    rewrite (bind_Ret (set_label l') _ s tt (SDisk (disk s) l' (label_modified s) (force s) (total_disk_size s) (printed s)) eq_refl).
    done. }
  unfold run_commands. cbn [length]. erewrite loop_step with (a' := []) (s' := s'); [by apply loop_exit|].
  rewrite (digit_not a1 (str "size")) by done. rewrite bind_ret. by rewrite (bind_Ret _ _ _ _ _ Ec).
Qed.

(** C21: [sdisklabel drive n offset size type] on a labelled disk: the label on
    the disk afterwards has partition n as asked, the other partitions and the
    magic numbers as before and the number of partitions that goes with it, the
    boot block has its checksum, and the rest of the disk is untouched. *)
Theorem sdisklabel_sets_partition geo blocks c l argv1 a1 a2 a3 a4 k :
  aslice c LABELOFFSET sizeof_label = Some l → 512 <= zlen c →
  l_magic l = Some DISKLABELMAGIC → l_magic2 l = Some DISKLABELMAGIC → l_npartitions l = Some k → k <= 8 →
  forallb starts_with_digit [a1; a2; a3; a4] = true → 0 <= atoi a1 <= 7 → atoi a1 <= k → 0 <= atoi a2 → 0 <= atoi a3 →
  atoi a2 + atoi a3 <= set_disk_size geo blocks 0 →
  ∃ s' l', sdisklabel geo blocks (Some c) [argv1; a1; a2; a3; a4] start = Ret 0 s' ∧
    let c' := contents (disk s') in
    zlen c' = zlen c ∧ aslice c' LABELOFFSET sizeof_label = Some l' ∧
    l_magic l' = Some DISKLABELMAGIC ∧ l_magic2 l' = Some DISKLABELMAGIC ∧
    l_npartitions l' = Some (Z.max k (atoi a1 + 1)) ∧
    partition_is l' (atoi a1) (atoi a2) (atoi a3) (atoi a4 mod 256) ∧
    (∀ j o z t, 0 <= j <= 7 → j ≠ atoi a1 → partition_is l j o z t → partition_is l' j o z t) ∧
    sum_words 63 c' 0 0 = get_u64 c' 504 ∧
    ∀ i, ¬ (LABELOFFSET <= i < LABELOFFSET + sizeof_label) → ¬ (504 <= i < 512) → aget c' i = aget c i.
Proof.
  intros Hl Hc Hm Hm2 Hk Hk8 Hd H1 H1k H2 H3 Ht. pose proof (aslice_len _ _ _ _ Hl) as Hz.
  pose proof Hd as D1. cbn [forallb] in D1. apply andb_prop in D1 as [D1 _].
  set (total := set_disk_size geo blocks 0) in *. cbn [sdisklabel].
  set (s0 := SDisk (UFile c 0) (label start) false false total []).
  rewrite (bind_Ret (modify _) _ start tt s0 eq_refl). rewrite (digit_not a1 (str "zero")) by done.
  rewrite bind_bind, (bind_Ret (gets label) _ s0 (label start) s0 eq_refl).
  destruct (read_disklabel_ok (label start) c l 0) as (f&Ef&Hf); [done..|].
  set (sr := SDisk f (label start) false false total []).
  rewrite bind_bind, (bind_Ret _ _ _ _ sr (on_disk_Ret (read_disklabel (label start)) s0 _ _ Ef)).
  set (s1 := SDisk f l false false total []). rewrite bind_bind.
  rewrite (bind_Ret (set_label l) _ sr tt s1 eq_refl). change (negb (0 =? 0)) with false. cbv iota. rewrite bind_ret.
  destruct (command_partition a1 a2 a3 a4 k s1) as (l'&El&Er); [done..|apply set_disk_size_small|].
  rewrite (bind_Ret _ _ _ _ _ Er), (bind_Ret (gets id) _ _ _ _ eq_refl). cbn [id label_modified label].
  destruct (set_partition_ok total l k (atoi a1) (atoi a2) (atoi a3) (atoi a4)) as (l2&El2&Hz2&Hp&Hn&Hother);
    [done|done|lia..|apply set_disk_size_small|].
  cbn [s1 label total_disk_size] in El. rewrite El in El2. injection El2 as <-.
  destruct (write_disklabel_ok l' f Hz2) as (f'&Ew&Hzc&Hlab&Hsum&Hrest); [by rewrite Hf|].
  rewrite bind_bind. erewrite bind_Ret; [|apply on_disk_Ret; exact Ew]. change (negb (0 =? 0)) with false. cbv iota. rewrite bind_ret.
  eexists _, l'. split; [reflexivity|]. cbn [disk]. rewrite Hf in Hzc, Hrest.
  split; [exact Hzc|]. split; [exact Hlab|]. unfold l_magic, l_magic2 in *. rewrite !Hother by lia.
  split; [exact Hm|]. split; [exact Hm2|]. split; [exact Hn|]. split; [exact Hp|]. split; [|by split].
  intros j o z t Hj Hne. unfold partition_is, l_poffset, l_psize, l_fstype. rewrite !Hother by lia. done.
Qed.

Definition tool_disk : list Z :=
  replicate 64 5 ++ match set_partition 1000 false (default [] zero_disklabel) 0 10 90 8 with Some (_, d) => d | None => [] end ++ replicate 300 6.

Lemma sdisklabel_sets_partition_witness :
  ∃ s' l', sdisklabel (Some (4, 25, 10)) None (Some tool_disk) [str "/dev/sda"; str "1"; str "100"; str "900"; str "8"] start = Ret 0 s' ∧
    aslice (contents (disk s')) LABELOFFSET sizeof_label = Some l' ∧ l_npartitions l' = Some 2 ∧
    partition_is l' 0 10 90 8 ∧ partition_is l' 1 100 900 8.
Proof.
  destruct (sdisklabel_sets_partition (Some (4, 25, 10)) None tool_disk
    (match set_partition 1000 false (default [] zero_disklabel) 0 10 90 8 with Some (_, d) => d | None => [] end)
    (str "/dev/sda") (str "1") (str "100") (str "900") (str "8") 1) as (s'&l'&E&_&El&_&_&En&Ep&Eo&_).
  - vm_compute. reflexivity.
  - by vm_compute.
  - vm_compute. reflexivity.
  - vm_compute. reflexivity.
  - vm_compute. reflexivity.
  - lia.
  - reflexivity.
  - by vm_compute.
  - by vm_compute.
  - by vm_compute.
  - by vm_compute.
  - by vm_compute.
  - exists s', l'. split; [exact E|]. split; [exact El|]. split; [exact En|]. split; [|exact Ep].
    apply Eo; [lia|intros H; vm_compute in H; discriminate H|].
    repeat split; vm_compute; reflexivity.
Defined.

(** A size that is the last argument: the program goes on to compare behind the
    end of [argv]. *)
Lemma size_needs_command v s : run_commands [str "size"; v] s = Trap.
Proof. done. Qed.
