(* ===== verification/Swriteboot.v ===== *)
(** * sdisklabel/swriteboot.c: the command line, and what is left on the disk

    [getopt] permutes: options are taken wherever they stand, up to "--".  The
    option string is "f:c:v?".  Messages are not kept. *)

From Stdlib Require Import Ascii String.
From S2P Require Import Prelude CString Vsprintf Ufile Objtools Sdisklabel.

Open Scope Z_scope.
Open Scope list_scope.

(** force_overlap, bootpart, verbose and err, and the other arguments. *)
Record sw_options := SwOptions { force_overlap : Z; bootpart : Z; verbose : bool; err : bool; operands : list (list Z) }.

Definition no_options : sw_options := SwOptions 0 0 false false [].

(** An option with its argument; [None] is [exit(1)]. *)
Definition option_arg (c : Z) (optarg : list Z) (o : sw_options) : option sw_options :=
  let part := atoi optarg in
  if (part <? 1) || (8 <? part) then None
  else if c =? 102 then
    Some (SwOptions (Z.lor (force_overlap o) (u32 (Z.shiftl 1 (part - 1)))) (bootpart o) (verbose o) (err o) (operands o))
  else Some (SwOptions (force_overlap o) part (verbose o) (err o) (operands o)).

Definition set_err (o : sw_options) : sw_options :=
  SwOptions (force_overlap o) (bootpart o) (verbose o) true (operands o).
Definition add_operands (l : list (list Z)) (o : sw_options) : sw_options :=
  SwOptions (force_overlap o) (bootpart o) (verbose o) (err o) (operands o ++ l).

(** The letters of one argument; the argument of its last letter may be the next
    one, which is then used up. *)
Fixpoint letters (l : list Z) (next : option (list Z)) (o : sw_options) : option (sw_options * bool) :=
  match l with
  | [] => Some (o, false)
  | c :: l =>
      if (c =? 102) || (c =? 99) then
        match l, next with
        | [], None => Some (set_err o, false)
        | [], Some a => let? o := option_arg c a o in Some (o, true)
        | _, _ => let? o := option_arg c l o in Some (o, false)
        end
      else if c =? 118 then
        letters l next (SwOptions (force_overlap o) (bootpart o) true (err o) (operands o))
      else letters l next (set_err o)
  end.

(** The argument that is taken by the option before it is skipped. *)
Fixpoint read_options (argv : list (list Z)) (skip : bool) (o : sw_options) : option sw_options :=
  match argv with
  | [] => Some o
  | a :: rest =>
      if skip then read_options rest false o
      else if bool_decide (a = str "--") then Some (add_operands rest o)
      else
        match a with
        | 45 :: (_ :: _) as l =>
            let? (o, used) := letters (drop 1 l) (head rest) o in read_options rest used o
        | _ => read_options rest false (add_operands [a] o)
        end
  end.

Definition swriteboot_main (disks files : list Z → option (list Z)) (dlabel buf : list Z) (argv : list (list Z)) : FM Z :=
  match read_options argv false no_options with
  | None => exit
  | Some o =>
      match operands o with
      | device :: bootfile :: rest =>
          if err o then exit
          else
            match disks device, files bootfile, (match rest with [] => Some None | k :: _ => Some <$> files k end) with
            | Some c, Some image, Some kernel =>
                modify (λ _, UFile c 0) ;;;
                swriteboot (force_overlap o) (bootpart o) image kernel dlabel buf ;;;
                ret 0
            | _, _, _ => exit
            end
      | _ => exit
      end
  end.

(** ** Lemmas *)

Lemma copy_chunks_ok n : ∀ image buf c p, (length image < n)%nat → zlen buf = 2048 → 0 <= p → p + zlen image <= zlen c →
  ∃ buf' c', copy_chunks n image buf (UFile c p) = Ret buf' (UFile c' (p + zlen image)) ∧ zlen buf' = 2048 ∧
    asplice c p image = Some c'.
Proof.
  induction n as [|n IH]; intros image buf c p Hn Hb Hp Hl; [lia|]. cbn [copy_chunks].
  set (b := take 2048 image). set (rest := drop 2048 image).
  assert (zlen b = Z.min 2048 (zlen image)) as Hzb by (subst b; unfold zlen; rewrite length_take; lia).
  assert (image = b ++ rest) as Hsplit by (subst b rest; by rewrite take_drop).
  assert (zlen image = zlen b + zlen rest) as Hzi by (by rewrite Hsplit at 1; rewrite zlen_app).
  clearbody b rest. pose proof (zlen_nonneg image). pose proof (zlen_nonneg rest).
  destruct (Z.eqb_spec (zlen b) 0) as [E0|E0].
  - assert (image = []) as -> by (apply zlen_nil_inv; lia). exists buf, c. change (zlen (@nil Z)) with 0. rewrite Z.add_0_r.
    split; [done|]. split; [done|]. change (zlen (@nil Z)) with 0 in Hl. unfold asplice. rewrite decide_True by (change (zlen (@nil Z)) with 0; lia).
    cbn [app length]. by rewrite Nat.add_0_r, take_drop.
  - destruct (asplice buf 0 b) as [buf1|] eqn:Eb; [|unfold asplice in Eb; rewrite decide_True in Eb; [done|lia]].
    cbn [lift_opt]. rewrite bind_ret. destruct (write_Ret b (UFile c p)) as (c1&E1&Ew); [done|cbn [contents pos]; lia|].
    cbn [contents pos] in E1, Ew. rewrite (bind_Ret _ _ _ _ _ Ew).
    assert (zlen c1 = zlen c) as Hz1 by (unfold zlen; by rewrite (asplice_len _ _ _ _ E1)).
    destruct (IH rest buf1 c1 (p + zlen b)) as (buf'&c'&E&Hb'&E'); [unfold zlen in *; lia| |lia|lia|].
    { unfold zlen in *. rewrite (asplice_len _ _ _ _ Eb). lia. }
    exists buf', c'. split; [rewrite E; do 2 f_equal; lia|]. split; [done|]. rewrite Hsplit. by apply (asplice_app c c1).
Qed.

Lemma copy_file_ok image buf c p : zlen buf = 2048 → 0 <= p → p + zlen image <= zlen c →
  ∃ buf' c', copy_file image buf (UFile c p) = Ret buf' (UFile c' (p + zlen image)) ∧ zlen buf' = 2048 ∧
    asplice c p image = Some c'.
Proof. apply copy_chunks_ok. lia. Qed.

Lemma scan_config_Some n : ∀ i buf p, 0 <= i → 8 * (i + Z.of_nat n + 1) <= zlen buf → is_Some (scan_config n i buf p).
Proof.
  induction n as [|n IH]; intros i buf p Hi Hl; [by eexists|]. cbn [scan_config].
  destruct (get_le_is_Some 8 buf (8 * i)) as [w ->]; [lia..|]. cbn [mbind option_bind].
  destruct (get_le_is_Some 8 buf (8 * (i + 1))) as [v ->]; [lia..|]. cbn [mbind option_bind]. case_match; apply IH; lia.
Qed.

(** The words after the patch, one after the other. *)
Lemma patch_config_ok n : ∀ i buf p, 0 <= i → 8 * (i + Z.of_nat n + 1) <= zlen buf →
  ∃ buf', patch_config n i buf p = Some buf' ∧ zlen buf' = zlen buf ∧
    (∀ j, 0 <= j → (j <= i ∨ i + Z.of_nat n < j) → get_u64 buf' (8 * j) = get_u64 buf (8 * j)) ∧
    (∀ j, i < j <= i + Z.of_nat n → get_u64 buf' (8 * j) =
      if decide (get_u64 buf' (8 * (j - 1)) = Some ABOOT_MAGIC) then Some (u64 p) else get_u64 buf (8 * j)).
Proof.
  induction n as [|n IH]; intros i buf p Hi Hl.
  { exists buf. split; [done|]. split; [done|]. split; [done|]. intros j Hj. lia. }
  cbn [patch_config]. destruct (get_le_is_Some 8 buf (8 * i)) as [w Ew]; [lia..|]. rewrite Ew. cbn [mbind option_bind].
  set (buf1 := if w =? ABOOT_MAGIC then put_le 8 buf (8 * (i + 1)) p else Some buf).
  assert (∃ b, buf1 = Some b ∧ zlen b = zlen buf ∧ (∀ j, j ≠ i + 1 → get_u64 b (8 * j) = get_u64 buf (8 * j)) ∧
    get_u64 b (8 * (i + 1)) = if w =? ABOOT_MAGIC then Some (u64 p) else get_u64 buf (8 * (i + 1))) as (b&Eb&Hz&Hoth&Hi1).
  { subst buf1. destruct (w =? ABOOT_MAGIC); [|by exists buf].
    destruct (put_le_is_Some 8 buf (8 * (i + 1)) p) as [b E]; [lia..|]. exists b. split; [done|].
    split; [by apply (put_le_len _ _ _ _ _ E)|]. split; [|exact (get_put_le _ _ _ _ _ E)].
    intros j Hj. apply (get_put_le_other _ _ _ _ _ _ _ E). lia. }
  destruct (IH (i + 1) b p) as (buf'&E&Hz'&Hout&Hin); [lia|lia|].
  exists buf'. split; [subst buf1; destruct (w =? ABOOT_MAGIC); [by rewrite Eb|injection Eb as ->; exact E]|]. split; [lia|]. split.
  - intros j Hj Hji. rewrite Hout by lia. apply Hoth. lia.
  - intros j Hj. destruct (decide (j = i + 1)) as [->|Hne].
    + rewrite (Hout (i + 1)) by lia. rewrite Hi1. replace (i + 1 - 1) with i by lia.
      rewrite (Hout i), (Hoth i), Ew by lia. destruct (Z.eqb_spec w ABOOT_MAGIC) as [->|Hw]; [by rewrite decide_True|].
      by rewrite decide_False by congruence.
    + rewrite Hin by lia. rewrite (Hoth j) by lia. done.
Qed.

Lemma read_configured_ok buf c p : zlen buf = 2048 → 496 <= zlen c →
  ∃ part b q, read_configured_partition buf (UFile c p) = Ret (part, b) (UFile c q) ∧ zlen b = 2048.
Proof.
  intros Hb Hc. unfold read_configured_partition. rewrite (bind_Ret _ _ _ _ _ (lseek_Ret (60 * 8) _ ltac:(lia))).
  change (60 * 8 <? 0) with false. cbv iota. cbn [contents].
  destruct (read_Ret 8 (UFile c 480)) as (b1&_&E1); [cbn [pos contents]; lia..|]. change (60 * 8) with 480.
  rewrite (bind_Ret _ _ _ _ _ E1). cbn [contents pos].
  destruct (read_Ret 8 (UFile c (480 + 8))) as (b2&Eb2&E2); [cbn [pos contents]; lia..|].
  rewrite (bind_Ret _ _ _ _ _ E2). cbn [contents pos] in *. pose proof (aslice_len _ _ _ _ Eb2) as Hz2.
  destruct (get_le_is_Some 8 b2 0) as [bs ->]; [lia..|]. cbn [lift_opt]. rewrite bind_ret.
  set (off := s64 (SECT_SIZE * bs)). destruct (decide (0 <= off)) as [Hoff|Hoff].
  - rewrite (bind_Ret _ _ _ _ _ (lseek_Ret off _ Hoff)). rewrite (proj2 (Z.ltb_ge off 0)) by lia. cbn [contents].
    set (b := take (Z.to_nat SECT_SIZE) (drop (Z.to_nat off) c)).
    assert (zlen b <= 512) as Hzb by (subst b; rewrite zlen_take; unfold SECT_SIZE; lia).
    assert (read SECT_SIZE (UFile c off) = Ret b (UFile c (off + zlen b))) as E3 by reflexivity.
    rewrite (bind_Ret _ _ _ _ _ E3). destruct (asplice_is_Some buf 0 b) as [buf' Eb']; [lia..|]. rewrite Eb'. cbn [lift_opt]. rewrite bind_ret.
    assert (zlen buf' = 2048) as Hzb' by (unfold zlen; rewrite (asplice_len _ _ _ _ Eb'); exact Hb).
    destruct (scan_config_Some 64 0 buf' 0) as [part Ep]; [lia..|]. rewrite Ep. cbn [lift_opt]. rewrite bind_ret. by eexists _, _, _.
  - assert (lseek off (UFile c (480 + 8 + 8)) = Ret (-1) (UFile c (480 + 8 + 8))) as E3
      by (unfold lseek; by rewrite (proj2 (Z.leb_gt 0 off)) by lia).
    rewrite (bind_Ret _ _ _ _ _ E3). by eexists _, _, _.
Qed.

(** The words of the first sector of the image, as [main] leaves them: the
    partition is behind every word that is the magic number. *)
Definition configured (part : Z) (image disk : list Z) (off : Z) : Prop :=
  ∀ j, 0 <= j < 64 → get_u64 disk (off + 8 * j) =
    if decide (part ≠ 0 ∧ 0 < j ∧ get_u64 disk (off + 8 * (j - 1)) = Some ABOOT_MAGIC) then Some (u64 part)
    else get_u64 image (8 * j).

Lemma write_config_ok part buf c p sec : zlen buf = 2048 → aslice c 1024 512 = Some sec →
  ∃ c' q, write_config part buf (UFile c p) = Ret tt (UFile c' q) ∧ zlen c' = zlen c ∧
    (∀ o n, o + n <= 1024 ∨ 1536 <= o → aslice c' o n = aslice c o n) ∧ configured part sec c' 1024.
Proof.
  intros Hb Hs. pose proof (aslice_len _ _ _ _ Hs) as Hzs. pose proof (proj1 (aslice_Some _ _ _ _) Hs) as (_&_&Hc&_). unfold write_config.
  destruct (Z.eqb_spec part 0) as [->|Hp]; cbn [negb].
  { exists c, p. split; [done|]. split; [done|]. split; [done|]. intros j Hj. rewrite decide_False by naive_solver.
    symmetry. apply (get_le_aslice 8 c 1024 512 sec); [done|lia..]. }
  change (SECT_SIZE * BOOT_SECTOR) with 1024.
  rewrite (bind_Ret _ _ _ _ _ (lseek_Ret 1024 _ ltac:(lia))). change (1024 <? 0) with false. cbv iota. cbn [contents].
  destruct (read_Ret SECT_SIZE (UFile c 1024)) as (b&Eb&Er); [done|done|exact Hc|]. cbn [contents pos] in Eb, Er.
  change SECT_SIZE with 512 in *. rewrite Hs in Eb. injection Eb as <-. rewrite (bind_Ret _ _ _ _ _ Er).
  destruct (asplice_is_Some buf 0 sec) as [buf1 E1]; [lia..|]. rewrite E1. cbn [lift_opt]. rewrite bind_ret.
  assert (zlen buf1 = 2048) as Hz1 by (unfold zlen; rewrite (asplice_len _ _ _ _ E1); exact Hb).
  destruct (patch_config_ok 64 0 buf1 part) as (buf2&E2&Hz2&Hout&Hin); [lia..|]. rewrite E2. cbn [lift_opt]. rewrite bind_ret.
  rewrite (bind_Ret _ _ _ _ _ (lseek_Ret 1024 _ ltac:(lia))).
  destruct (aslice_is_Some buf2 0 512) as [b2 Eb2]; [lia..|]. rewrite Eb2. cbn [lift_opt]. rewrite bind_ret.
  pose proof (aslice_len _ _ _ _ Eb2) as Hzb2. cbn [contents].
  destruct (write_Ret b2 (UFile c 1024)) as (c'&Ec'&Ew); [done|cbn [contents pos]; lia|]. cbn [contents pos] in Ec', Ew.
  rewrite (bind_Ret _ _ _ _ _ Ew). exists c', (1024 + zlen b2). split; [done|].
  split; [unfold zlen; by rewrite (asplice_len _ _ _ _ Ec')|]. split; [intros o n Ho; apply (aslice_asplice_other _ _ _ _ _ _ Ec'); lia|].
  (* the words of the disk are those of the buffer *)
  pose proof (aslice_asplice_same _ _ _ _ Ec') as Es'. rewrite Hzb2 in Es'.
  assert (∀ j, 0 <= j < 64 → get_u64 c' (1024 + 8 * j) = get_u64 buf2 (8 * j)) as Hw.
  { intros j Hj. rewrite <- (get_le_aslice 8 c' 1024 512 b2 (8 * j) Es') by lia. apply (get_le_aslice 8 buf2 0 512); [done|lia..]. }
  assert (∀ j, 0 <= j < 64 → get_u64 buf1 (8 * j) = get_u64 sec (8 * j)) as Hs1.
  { intros j Hj. symmetry. apply (get_le_aslice 8 buf1 0 512); [|lia..]. rewrite <- Hzs. exact (aslice_asplice_same _ _ _ _ E1). }
  intros j Hj. rewrite Hw by lia. destruct (decide (j = 0)) as [->|Hj0].
  - rewrite decide_False by (intros (_&?&_); lia). rewrite Hout by lia. by apply Hs1.
  - rewrite Hin, Hs1, Hw by lia. destruct (decide (get_u64 buf2 (8 * (j - 1)) = Some ABOOT_MAGIC)) as [E|E].
    + rewrite decide_True; [done|]. split; [done|]. split; [lia|done].
    + rewrite decide_False; [done|]. by intros (_&_&?).
Qed.

Lemma asplice_same (l : list Z) off b : aslice l off (zlen b) = Some b → asplice l off b = Some l.
Proof.
  intros E. pose proof (proj1 (aslice_Some _ _ _ _) E) as (H0&_&H1&_). destruct (asplice_is_Some l off b) as [l' E']; [lia..|].
  rewrite E'. f_equal. apply list_eq_aget. intros i Hi. rewrite (aget_asplice _ _ _ _ _ E'). case_decide; [|done].
  rewrite (aget_aslice _ _ _ _ _ E) by lia. f_equal. lia.
Qed.

(** The three words of the boot block. *)
Lemma boot_words_ok bootsize bootsect c : 512 <= zlen c →
  ∃ c', asplice c 480 (le_bytes 8 bootsize ++ le_bytes 8 bootsect ++ le_bytes 8 0) = Some c' ∧
    (write (le_bytes 8 bootsize) ;;; write (le_bytes 8 bootsect) ;;; write (le_bytes 8 0)) (UFile c 480) = Ret 8 (UFile c' 504).
Proof.
  intros Hc. assert (∀ v, zlen (le_bytes 8 v) = 8) as H8 by (intros v; unfold zlen; by rewrite length_le_bytes).
  destruct (write_Ret (le_bytes 8 bootsize) (UFile c 480)) as (c1&E1&W1); [done|rewrite H8; cbn [contents pos]; lia|].
  cbn [contents pos] in E1, W1. rewrite (bind_Ret _ _ _ _ _ W1), H8.
  assert (zlen c1 = zlen c) as Z1 by (unfold zlen; by rewrite (asplice_len _ _ _ _ E1)).
  destruct (write_Ret (le_bytes 8 bootsect) (UFile c1 488)) as (c2&E2&W2); [done|rewrite H8; cbn [contents pos]; lia|].
  cbn [contents pos] in E2, W2. change (480 + 8) with 488. rewrite (bind_Ret _ _ _ _ _ W2), H8.
  assert (zlen c2 = zlen c) as Z2 by (unfold zlen in *; rewrite (asplice_len _ _ _ _ E2); lia).
  destruct (write_Ret (le_bytes 8 0) (UFile c2 496)) as (c3&E3&W3); [done|rewrite H8; cbn [contents pos]; lia|].
  cbn [contents pos] in E3, W3. change (488 + 8) with 496. rewrite W3, H8. exists c3. split; [|done].
  apply (asplice_app c c1); [done|]. rewrite H8. apply (asplice_app c1 c2); [done|]. by rewrite H8.
Qed.

Lemma copy_kernel_ok (kernel : option (list Z)) buf c p : zlen buf = 2048 → 0 <= p → p + zlen (default [] kernel) <= zlen c →
  ∃ buf' c' q, (match kernel with
                | Some k => if 0 <? match kernel with Some k => sectors (zlen k) | None => 0 end then copy_file k buf else ret buf
                | None => ret buf
                end) (UFile c p) = Ret buf' (UFile c' q) ∧ zlen buf' = 2048 ∧ asplice c p (default [] kernel) = Some c'.
Proof.
  intros Hb Hp Hl. assert (asplice c p [] = Some c) as Hnil.
  { apply asplice_same. change (zlen (@nil Z)) with 0. pose proof (zlen_nonneg (default [] kernel)).
    destruct (aslice_is_Some c p 0) as [a Ea]; [lia..|]. rewrite Ea. f_equal. apply zlen_nil_inv. exact (aslice_len _ _ _ _ Ea). }
  destruct kernel as [k|]; [|by exists buf, c, p]. change (default [] (Some k)) with k in *.
  destruct (Z.ltb_spec 0 (sectors (zlen k))) as [H|H].
  - destruct (copy_file_ok k buf c p) as (buf'&c'&E&Hb'&Ec); [done..|]. by eexists _, _, _.
  - assert (k = []) as -> by (apply zlen_nil_inv; unfold sectors, SECT_SIZE in H; pose proof (zlen_nonneg k); pose proof (Z.div_le_mono 512 (zlen k + 512 - 1) 512);
      change (512 / 512) with 1 in *; lia).
    by exists buf, c, p.
Qed.

Lemma get_u64_at (l1 l2 : list Z) v : get_u64 (l1 ++ le_bytes 8 v ++ l2) (zlen l1) = Some (u64 v).
Proof.
  unfold get_le. rewrite (aslice_app_mid l1 (le_bytes 8 v) l2); [|done|unfold zlen; by rewrite length_le_bytes].
  cbn [fmap option_fmap option_map]. by rewrite le_val_le_bytes.
Qed.

Lemma boot_words_get c c' bootsize bootsect :
  asplice c 480 (le_bytes 8 bootsize ++ le_bytes 8 bootsect ++ le_bytes 8 0) = Some c' →
  zlen c' = zlen c ∧ get_u64 c' 480 = Some (u64 bootsize) ∧ get_u64 c' 488 = Some (u64 bootsect) ∧ get_u64 c' 496 = Some 0 ∧
  ∀ o n, o + n <= 480 ∨ 504 <= o → aslice c' o n = aslice c o n.
Proof.
  intros E. assert (∀ v, zlen (le_bytes 8 v) = 8) as H8 by (intros v; unfold zlen; by rewrite length_le_bytes).
  set (w := le_bytes 8 bootsize ++ le_bytes 8 bootsect ++ le_bytes 8 0) in *.
  assert (zlen w = 24) as Hw by (subst w; rewrite !zlen_app, !H8; lia).
  pose proof (aslice_asplice_same _ _ _ _ E) as Es. rewrite Hw in Es. split; [unfold zlen; by rewrite (asplice_len _ _ _ _ E)|].
  pose proof (λ o, get_le_aslice 8 c' 480 24 w o Es) as Hg.
  assert (get_u64 c' 480 = get_u64 w 0) as -> by (symmetry; apply (Hg 0); lia).
  assert (get_u64 c' 488 = get_u64 w 8) as -> by (symmetry; apply (Hg 8); lia).
  assert (get_u64 c' 496 = get_u64 w 16) as -> by (symmetry; apply (Hg 16); lia). clear Hg.
  split; [exact (get_u64_at [] _ bootsize)|]. split; [|split].
  - subst w. rewrite <- (H8 bootsize). apply get_u64_at.
  - subst w. rewrite app_assoc. replace 16 with (zlen (le_bytes 8 bootsize ++ le_bytes 8 bootsect)) by (rewrite zlen_app, !H8; lia).
    rewrite <- (app_nil_r (le_bytes 8 0)). rewrite get_u64_at. done.
  - intros o n Ho. apply (aslice_asplice_other _ _ _ _ _ _ E). lia.
Qed.

(** The checksum, when the label is on the disk already. *)
Lemma dosumlabel_in_place l c p : aslice c LABELOFFSET sizeof_label = Some l → 512 <= zlen c →
  ∃ c', dosumlabel l (UFile c p) = Ret 0 (UFile c' 512) ∧ zlen c' = zlen c ∧ sum_words 63 c' 0 0 = get_u64 c' 504 ∧
    ∀ o n, o + n <= 504 ∨ 512 <= o → aslice c' o n = aslice c o n.
Proof.
  intros Hl Hc. pose proof (aslice_len _ _ _ _ Hl) as Hz.
  destruct (dosumlabel_ok l (UFile c p) Hz Hc) as (c1&sum&c'&E1&Esum&E&Er). cbn [contents] in E1, E.
  rewrite asplice_same in E1 by (by rewrite Hz). injection E1 as <-. exists c'. split; [exact Er|].
  assert (zlen (le_bytes 8 sum) = 8) as H8 by (unfold zlen; by rewrite length_le_bytes).
  assert (zlen c' = zlen c) as Hz' by (unfold zlen; by rewrite (asplice_len _ _ _ _ E)).
  assert (∀ o n, o + n <= 504 ∨ 512 <= o → aslice c' o n = aslice c o n) as Hother
    by (intros o n Ho; apply (aslice_asplice_other _ _ _ _ _ _ E); lia).
  split; [done|]. split; [|exact Hother].
  rewrite (sum_words_ext 63 c' c) by (lia || (apply Hother; lia)). rewrite Esum.
  rewrite (get_put_le 8 c 504 sum c' E : get_u64 c' 504 = _). f_equal. symmetry. apply Z.mod_small.
  change (256 ^ Z.of_nat 8) with (2 ^ 64). eapply sum_words_range; [|exact Esum]. lia.
Qed.

Lemma bind_assoc3 {A B C D} (m1 : FM A) (m2 : FM B) (m3 : FM C) (k : FM D) s r s' :
  (m1 ;;; m2 ;;; m3) s = Ret r s' → (m1 ;;; m2 ;;; m3 ;;; k) s = k s'.
Proof. unfold bind. destruct (m1 s) as [? s1| | |]; try done. destruct (m2 s1) as [? s2| | |]; try done. by destruct (m3 s2); intros [= _ ->]. Qed.

(** Image and kernel, one behind the other, and the partition in the image. *)
Lemma copy_parts_ok part image kernel b c1 : let kern := default [] kernel in zlen b = 2048 → 512 <= zlen image →
  1024 + zlen image + zlen kern <= zlen c1 →
  ∃ b2 c2 p2 b3 c3 q3 c4 q4, copy_file image b (UFile c1 1024) = Ret b2 (UFile c2 p2) ∧
    match kernel with
    | Some k => if 0 <? match kernel with Some k => sectors (zlen k) | None => 0 end then copy_file k b2 else ret b2
    | None => ret b2
    end (UFile c2 p2) = Ret b3 (UFile c3 q3) ∧
    write_config part b3 (UFile c3 q3) = Ret tt (UFile c4 q4) ∧ zlen c4 = zlen c1 ∧
    configured part image c4 1024 ∧
    aslice c4 (1024 + 512) (zlen image - 512) = aslice image 512 (zlen image - 512) ∧
    aslice c4 (1024 + zlen image) (zlen kern) = Some kern ∧
    ∀ o n, o + n <= 1024 ∨ 1024 + zlen image + zlen kern <= o → aslice c4 o n = aslice c1 o n.
Proof.
  intros kern Hzb Hzi Hc. pose proof (zlen_nonneg kern) as Hzk.
  destruct (copy_file_ok image b c1 1024) as (b2&c2&W2&Hzb2&E2); [done|done|lia|].
  assert (zlen c2 = zlen c1) as Z2 by (unfold zlen; by rewrite (asplice_len _ _ _ _ E2)).
  destruct (copy_kernel_ok kernel b2 c2 (1024 + zlen image)) as (b3&c3&q3&W3&Hzb3&E3); [done|lia|fold kern; lia|].
  fold kern in E3. assert (zlen c3 = zlen c2) as Z3 by (unfold zlen; by rewrite (asplice_len _ _ _ _ E3)).
  pose proof (aslice_asplice_same _ _ _ _ E2) as I2. pose proof (aslice_asplice_same _ _ _ _ E3) as I3.
  assert (aslice c3 1024 (zlen image) = Some image) as I3'
    by (rewrite (aslice_asplice_other _ _ _ _ _ _ E3) by lia; exact I2).
  destruct (aslice_is_Some image 0 512) as [sec Esec]; [lia..|].
  pose proof (aslice_aslice _ _ _ _ _ _ _ I3' Esec) as Isec. change (1024 + 0) with 1024 in Isec.
  destruct (write_config_ok part b3 c3 q3 sec Hzb3 Isec) as (c4&q4&W4&Z4&O4&G4).
  exists b2, c2, (1024 + zlen image), b3, c3, q3, c4, q4. split; [exact W2|]. split; [exact W3|]. split; [exact W4|].
  split; [lia|]. split; [|split; [|split]].
  - intros j Hj. rewrite G4 by done. rewrite (get_le_aslice 8 image 0 512 sec (8 * j) Esec) by lia. by rewrite Z.add_0_l.
  - rewrite O4 by lia. destruct (aslice_is_Some image 512 (zlen image - 512)) as [x Ex]; [lia..|].
    rewrite Ex. exact (aslice_aslice _ _ _ _ _ _ _ I3' Ex).
  - rewrite O4 by lia. exact I3.
  - intros o n Ho. rewrite O4 by lia. rewrite (aslice_asplice_other _ _ _ _ o n E3) by lia.
    apply (aslice_asplice_other _ _ _ _ _ _ E2). lia.
Qed.

Lemma configured_ext part image c c' off : configured part image c off →
  (∀ j, 0 <= j < 64 → get_u64 c' (off + 8 * j) = get_u64 c (off + 8 * j)) → configured part image c' off.
Proof.
  intros H HE j Hj. rewrite HE, H by done. destruct (decide (j = 0)) as [->|]; [rewrite !decide_False by (intros (_&?&_); lia); done|].
  by rewrite (HE (j - 1)) by lia.
Qed.

Lemma sectors_range n : 0 <= n < 2 ^ 62 → 0 <= sectors n < 2 ^ 64.
Proof.
  intros Hn. unfold sectors, SECT_SIZE. pose proof (Z.div_mod (n + 512 - 1) 512 ltac:(lia)).
  pose proof (Z.mod_pos_bound (n + 512 - 1) 512 ltac:(lia)). lia.
Qed.

(** C22: swriteboot on a labelled disk, when the place is free: the boot block
    has the number of sectors of the image, sector 2 and the checksum; the image
    is from sector 2 on with the kernel right behind it, its first sector with
    the number of the partition behind every magic word, the one given with -c or
    the one that was found; the label is as before and so is the rest. *)
Theorem swriteboot_device force part image kernel dlabel buf c l :
  aslice c LABELOFFSET sizeof_label = Some l → l_magic l = Some DISKLABELMAGIC → l_magic2 l = Some DISKLABELMAGIC →
  zlen dlabel = sizeof_label → zlen buf = 2048 → 512 <= zlen image →
  let kern := default [] kernel in
  overlaplabel l 2 (s32 (sectors (zlen image) + 2 + match kernel with Some k => sectors (zlen k) | None => 0 end)) force = Some (-1) →
  1024 + zlen image + zlen kern <= zlen c → zlen c < 2 ^ 62 →
  ∃ f' part', swriteboot force part image kernel dlabel buf (UFile c 0) = Ret tt f' ∧ (part ≠ 0 → part' = part) ∧
    let c' := contents f' in
    zlen c' = zlen c ∧
    get_u64 c' 480 = Some (sectors (zlen image)) ∧ get_u64 c' 488 = Some 2 ∧ get_u64 c' 496 = Some 0 ∧
    sum_words 63 c' 0 0 = get_u64 c' 504 ∧ aslice c' LABELOFFSET sizeof_label = Some l ∧
    configured part' image c' 1024 ∧
    aslice c' (1024 + 512) (zlen image - 512) = aslice image 512 (zlen image - 512) ∧
    aslice c' (1024 + zlen image) (zlen kern) = Some kern ∧
    ∀ o n, o + n <= 480 ∨ 512 <= o ∧ o + n <= 1024 ∨ 1024 + zlen image + zlen kern <= o → aslice c' o n = aslice c o n.
Proof.
  intros Hl Hm Hm2 Hdl Hb Hzi kern Hov Hzc Hc62. pose proof (zlen_nonneg kern) as Hzk. unfold swriteboot.
  destruct (read_disklabel_ok dlabel c l 0 Hdl Hl Hm Hm2) as (f&Ef&Hf). rewrite (bind_Ret _ _ _ _ _ Ef).
  change (negb (0 =? 0)) with false. cbv iota zeta. change BOOT_SECTOR with 2. change (s32 2) with 2.
  rewrite Hov. cbn [lift_opt]. rewrite bind_ret. change (negb (-1 =? -1)) with false. cbv iota.
  assert (∃ part' b q, (if part =? 0 then read_configured_partition buf else ret (part, buf)) f = Ret (part', b) (UFile c q) ∧
    zlen b = 2048 ∧ (part ≠ 0 → part' = part)) as (part'&b&q&Eb&Hzb&Hpart).
  { destruct f as [c0 p]. cbn [contents] in Hf. subst c0. destruct (Z.eqb_spec part 0) as [->|Hp]; [|by eexists _, _, _].
    destruct (read_configured_ok buf c p Hb) as (part'&b&q&E&Hzb); [lia|]. exists part', b, q. split; [exact E|]. split; [done|]. by intros []. }
  rewrite (bind_Ret _ _ _ _ _ Eb). rewrite (bind_Ret _ _ _ _ _ (lseek_Ret (60 * 8) _ ltac:(lia))).
  change (60 * 8 <? 0) with false. cbv iota. cbn [contents]. change (60 * 8) with 480. change (SECT_SIZE * 2) with 1024.
  destruct (boot_words_ok (sectors (zlen image)) 2 c) as (c1&E1&W1); [lia|].
  rewrite (bind_assoc3 _ _ _ _ _ _ _ W1).
  destruct (boot_words_get _ _ _ _ E1) as (Z1&G480&G488&G496&O1).
  rewrite (bind_Ret _ _ _ _ _ (lseek_Ret 1024 _ ltac:(lia))). change (1024 <? 0) with false. cbv iota. cbn [contents].
  destruct (copy_parts_ok part' image kernel b c1) as (b2&c2&p2&b3&c3&q3&c4&q4&W2&W3&W4&Z4&G4&T4&K4&O4); [done|done|fold kern; lia|].
  fold kern in K4, O4. rewrite (bind_Ret _ _ _ _ _ W2), (bind_Ret _ _ _ _ _ W3), (bind_Ret _ _ _ _ _ W4).
  assert (aslice c4 LABELOFFSET sizeof_label = Some l) as L4.
  { rewrite O4, O1 by (left; unfold LABELOFFSET, sizeof_label; lia). exact Hl. }
  destruct (dosumlabel_in_place l c4 q4 L4) as (c5&W5&Z5&Hsum&O5); [lia|]. rewrite (bind_Ret _ _ _ _ _ W5).
  eexists _, part'. split; [reflexivity|]. split; [exact Hpart|]. cbn [contents].
  split; [lia|].
  assert (∀ o, 480 <= o <= 496 → get_u64 c5 o = get_u64 c1 o) as Hg by (intros o Ho; unfold get_le; by rewrite O5, O4 by lia).
  rewrite !Hg, G480, G488, G496 by lia. rewrite wrap_small by (apply sectors_range; lia).
  do 3 (split; [done|]). split; [exact Hsum|].
  split; [rewrite O5 by (left; unfold LABELOFFSET, sizeof_label; lia); exact L4|].
  split; [apply (configured_ext _ _ c4); [exact G4|intros j Hj; unfold get_le; by rewrite O5 by lia]|].
  rewrite !O5 by lia. split; [exact T4|]. split; [exact K4|]. intros o n Ho. rewrite O5, O4, O1 by lia. done.
Qed.

Definition sw_label : list Z := match set_partition 1000 false (default [] zero_disklabel) 0 10 90 8 with Some (_, d) => d | None => [] end.
Definition sw_disk : list Z := replicate 64 5 ++ sw_label ++ replicate 3756 6.
Definition sw_image : list Z := replicate 16 1 ++ le_bytes 8 ABOOT_MAGIC ++ replicate 600 2.

Lemma swriteboot_device_witness :
  ∃ f' part', swriteboot 0 3 sw_image (Some (replicate 100 4)) (replicate 276 0) (replicate 2048 0) (UFile sw_disk 0) = Ret tt f' ∧
    (3 ≠ 0 → part' = 3) ∧ get_u64 (contents f') 480 = Some (sectors (zlen sw_image)) ∧ get_u64 (contents f') 488 = Some 2 ∧
    configured part' sw_image (contents f') 1024 ∧ aslice (contents f') (1024 + zlen sw_image) 100 = Some (replicate 100 4).
Proof.
  destruct (swriteboot_device 0 3 sw_image (Some (replicate 100 4)) (replicate 276 0) (replicate 2048 0) sw_disk sw_label)
    as (f'&part'&E&Hp&_&E1&E2&_&_&_&E3&_&E4&_).
  - vm_compute. reflexivity.
  - vm_compute. reflexivity.
  - vm_compute. reflexivity.
  - vm_compute. reflexivity.
  - vm_compute. reflexivity.
  - by vm_compute.
  - vm_compute. reflexivity.
  - by vm_compute.
  - by vm_compute.
  - exists f', part'. split; [exact E|]. split; [exact Hp|]. split; [exact E1|]. split; [exact E2|]. split; [exact E3|exact E4].
Defined.
