(* ===== verification/Segments.v ===== *)
(** * The kernel's segment arrives in memory

    [flush_slide] (flush_window of zip/misc.c) is called with one window of
    output after another; the proofs follow a kernel with one loadable segment
    through them. *)

From Stdlib Require Import Ascii String.
From S2P Require Import Prelude CString Vsprintf Cons Utils Aboot Huft Inflate Crc BootFs Gzip Files.

Open Scope Z_scope.
Open Scope list_scope.

(** Runs a read of the state. *)
Ltac step_get :=
  match goal with
  | |- context [bind (gets ?f) ?k ?s] => rewrite (bind_Ret (gets f) k s (f s) s eq_refl); cbv beta
  end.

(** Runs a change of the state. *)
Ltac step_mod :=
  match goal with
  | |- context [bind (modify ?f) ?k ?s] => rewrite (bind_Ret (modify f) k s tt (f s) eq_refl); cbv beta
  end.

(** ** A window of output *)

Section segments.
Context {F K : Type} `{HO : ConsOut K} (bfs : bootfs F K).

(** [w] in the window, its length in [outcnt]. *)
Definition load_window (w : list Z) (g : gzip F K) : gzip F K :=
  set_wp (zlen w) (set_buffers (inbuf g) (inbuf_at g) (w ++ drop (length w) (slide g)) (slide_at g) g).

Fixpoint run_windows (ws : list (list Z)) : M (gzip F K) unit :=
  match ws with
  | [] => ret tt
  | w :: ws => modify (load_window w) ;;; flush_slide ;;; run_windows ws
  end.

Definition the_chunks (g : gzip F K) : list segment := chunks (ab (base g)).
Definition memory (g : gzip F K) : mem := kmem (base g).

(** The buffers as [uncompress_kernel] allocates them. *)
Definition buffers_ok (g : gzip F K) : Prop :=
  zlen (slide g) = WSIZE ∧ zlen (inbuf g) = INBUFSIZ ∧ inbuf_at g = slide_at g + WSIZE.

(** The message of a segment can be printed. *)
Definition announced (i : Z) (c : segment) : Prop :=
  printable ("aboot: segment %d, %ld bytes at %#lx" ++ nl) [AInt i; AInt (size c); AInt (addr c)].

(** The segment fits the address space and the memory behind it is there.
    (A first window that begins before the segment is copied up to [offset]
    bytes too far.) *)
Definition segment_ok (c : segment) (m : mem) : Prop :=
  0 <= offset c ∧ 0 <= size c ∧ offset c + size c < 2 ^ 62 ∧
  0 <= addr c ∧ addr c + offset c + size c < 2 ^ 64 ∧ announced 0 c ∧
  mapped m (addr c) (offset c + size c).

(** [out] has been flushed: what memory holds of the segment, and where the
    loop over the segments stands. *)
Definition flushed (c : segment) (g : gzip F K) (out : list Z) : Prop :=
  buffers_ok g ∧ the_chunks g = [c] ∧ nchunks (ab (base g)) = 1 ∧
  io_ok (u_con (sys (ab (base g)))) ∧ segment_ok c (memory g) ∧
  bytes_out g = zlen out ∧
  (∀ i, 0 <= i < size c → offset c + i < zlen out → memory g !! (addr c + i) = aget out (offset c + i)) ∧
  ((chunk g = 0 ∧ file_offset g = zlen out ∧ zlen out <= offset c + size c) ∨
   (chunk g = 1 ∧ offset c + size c <= zlen out)).

(** What a flush leaves alone. *)
Definition kept (g g' : gzip F K) : Prop :=
  inbuf g' = inbuf g ∧ inbuf_at g' = inbuf_at g ∧ slide g' = slide g ∧ slide_at g' = slide_at g ∧
  insize g' = insize g ∧ inptr g' = inptr g ∧ block_number g' = block_number g ∧ input_fd g' = input_fd g ∧
  method g' = method g ∧ pkzip g' = pkzip g ∧ extended g' = extended g ∧ fss (base g') = fss (base g) ∧
  io_disk (u_con (sys (ab (base g')))) = io_disk (u_con (sys (ab (base g)))) ∧
  same_heap (sys (ab (base g))) (sys (ab (base g'))) ∧ entry_addr (ab (base g')) = entry_addr (ab (base g)).

#[export] Instance kept_preorder : PreOrder kept.
Proof.
  split; [by intros g; repeat split|]. unfold kept.
  intros g1 g2 g3 (->&->&->&->&->&->&->&->&->&->&->&->&->&?&->) (->&->&->&->&->&->&->&->&->&->&->&->&->&?&->).
  do 13 (split; [done|]). split; [by etrans|done].
Qed.

(** What a flush of [n] bytes behind [d] leaves in [outcnt]. *)
Definition left_of (c : segment) (d n : Z) : Z :=
  let e := offset c + size c in if (d <=? e) && (e - d <? n) then n - (e - d) else n.

(** *** Pieces *)

Lemma crc_loop_total s : ∀ c, ∃ c', crc_loop c s = Some c'.
Proof.
  induction s as [|b s IH]; intros c; [by eexists|]. cbn [crc_loop]. unfold crc_step.
  set (i := Z.land (Z.lxor (s32 c) b) 255).
  assert (0 <= i < 256) as Hi.
  { subst i. change 255 with (Z.ones 8). rewrite Z.land_ones by lia. by apply Z.mod_pos_bound. }
  assert (is_Some (aget crc_32_tab i)) as [t ->] by (apply aget_is_Some; exact Hi). apply IH.
Qed.

Lemma say_ok fmt args (a : aboot K) : io_ok (u_con (sys a)) → printable fmt args →
  ∃ k, say fmt args a = Ret tt (set_sys a (UState k (clusters (sys a)) (pagesize (sys a))
    (free_mem_ptr (sys a)) (dest_addr (sys a)))) ∧ io_ok k ∧ io_disk k = io_disk (u_con (sys a)).
Proof.
  intros Hq Hp. destruct (out_printf fmt args _ Hq Hp) as (r&k&E&Hk&Hd). exists k. split; [|done].
  unfold say, on_sys, on_con, bind. by rewrite E.
Qed.

Lemma gz_printf_ok fmt args (g : gzip F K) : io_ok (u_con (sys (ab (base g)))) → printable fmt args →
  ∃ a, gz_printf fmt args g = Ret tt (set_base (Loader a (fss (base g)) (kmem (base g))) g) ∧
    io_ok (u_con (sys a)) ∧ chunks a = chunks (ab (base g)) ∧ nchunks a = nchunks (ab (base g)) ∧
    kept g (set_base (Loader a (fss (base g)) (kmem (base g))) g).
Proof.
  intros Hq Hp. destruct (say_ok fmt args (ab (base g)) Hq Hp) as (k&E&Hk&Hd).
  exists (set_sys (ab (base g)) (UState k (clusters (sys (ab (base g)))) (pagesize (sys (ab (base g))))
    (free_mem_ptr (sys (ab (base g)))) (dest_addr (sys (ab (base g)))))).
  split; [|split; [exact Hk|by repeat split]].
  unfold gz_printf, on_base, tell, on_ab. by rewrite E.
Qed.

(** Copying into memory. *)
Lemma poke_ok p l (g : gzip F K) : mapped (memory g) p (zlen l) →
  on_base (poke_mem p l) g =
    Ret tt (set_base (Loader (ab (base g)) (fss (base g)) (mem_write (memory g) p l)) g).
Proof.
  intros Hm. unfold on_base, poke_mem. cbn [bind gets]. fold (memory g).
  by rewrite write_mem_mapped.
Qed.

Lemma mem_write_get m p l i : 0 <= i < zlen l → mem_write m p l !! (p + i) = aget l i.
Proof.
  intros Hi. rewrite mem_write_lookup. unfold aget. rewrite !decide_True by lia. f_equal. lia.
Qed.

Lemma from_window_get (g : gzip F K) w j : buffers_ok g → take (length w) (slide g) = w →
  0 <= j < zlen w → aget (from_window g) j = aget w j.
Proof.
  intros (Hz&_&_) Hw Hj. unfold from_window, aget. rewrite !decide_True by lia.
  rewrite lookup_app_l.
  - symmetry. rewrite <- Hw. apply lookup_take_lt. unfold zlen in Hj. lia.
  - apply (f_equal length) in Hw. rewrite length_take in Hw. unfold zlen in *. lia.
Qed.

Lemma from_window_len (g : gzip F K) : buffers_ok g → zlen (from_window g) = WSIZE + INBUFSIZ.
Proof.
  intros (Hz&Hi&Ha). unfold from_window. rewrite Hz, Ha, Z.eqb_refl, zlen_app. by rewrite Hz, Hi.
Qed.

(** What the copy of a piece makes of the segment in memory. *)
Lemma stored_step c (m : mem) out w W src dest bytes n :
  segment_ok c m → zlen out <= offset c + size c →
  src = Z.max 0 (offset c - zlen out) → dest = addr c + Z.max 0 (zlen out - offset c) →
  n = Z.min (zlen w) (offset c + size c - zlen out) →
  aslice W src n = Some bytes → (∀ j, 0 <= j < zlen w → aget W j = aget w j) →
  (∀ i, 0 <= i < size c → offset c + i < zlen out → m !! (addr c + i) = aget out (offset c + i)) →
  ∀ i, 0 <= i < size c → offset c + i < zlen (out ++ w) →
    mem_write m dest bytes !! (addr c + i) = aget (out ++ w) (offset c + i).
Proof.
  intros _ Hle -> -> -> Eb HW Hold i Hi Hlt. rewrite zlen_app in Hlt.
  pose proof (aslice_len _ _ _ _ Eb) as Hzb. pose proof (zlen_nonneg out).
  destruct (decide (offset c + i < zlen out)) as [Ho|Ho].
  - rewrite mem_write_frame by lia. rewrite Hold by lia. unfold aget.
    repeat case_decide; try lia; [|done]. symmetry. apply lookup_app_l. unfold zlen in Ho. lia.
  - set (p := addr c + Z.max 0 (zlen out - offset c)).
    replace (addr c + i) with (p + (i - Z.max 0 (zlen out - offset c))) by (subst p; lia).
    rewrite mem_write_get by lia.
    rewrite (aget_aslice _ _ _ _ _ Eb) by lia. rewrite HW by lia.
    unfold aget. rewrite !decide_True by lia. rewrite lookup_app_r by (unfold zlen in *; lia).
    f_equal. unfold zlen in *. lia.
Qed.

Lemma store_chunk_ok c (g : gzip F K) out w :
  buffers_ok g → the_chunks g = [c] → nchunks (ab (base g)) = 1 →
  io_ok (u_con (sys (ab (base g)))) → segment_ok c (memory g) →
  wp g = zlen w → 0 < zlen w <= WSIZE → take (length w) (slide g) = w →
  chunk g = 0 → file_offset g = zlen out → zlen out <= offset c + size c → zlen out < 2 ^ 62 →
  (∀ i, 0 <= i < size c → offset c + i < zlen out → memory g !! (addr c + i) = aget out (offset c + i)) →
  ∃ r g', store_chunk g = Ret r g' ∧
    buffers_ok g' ∧ the_chunks g' = [c] ∧ nchunks (ab (base g')) = 1 ∧
    io_ok (u_con (sys (ab (base g')))) ∧ segment_ok c (memory g') ∧
    bytes_out g' = bytes_out g ∧ crc g' = crc g ∧ kept g g' ∧
    (∀ i, 0 <= i < size c → offset c + i < zlen (out ++ w) →
       memory g' !! (addr c + i) = aget (out ++ w) (offset c + i)) ∧
    wp g' = left_of c (zlen out) (zlen w) ∧
    ((r = inr tt ∧ chunk g' = 0 ∧ file_offset g' = zlen (out ++ w) ∧ zlen (out ++ w) <= offset c + size c) ∨
     (r = inl tt ∧ chunk g' = 1 ∧ offset c + size c <= zlen (out ++ w))).
Proof.
  intros Hb Hc Hn Hq Hseg Hwp Hw Htk Hch Hfo Hle H62 Hold.
  pose proof Hseg as (S1&S2&S3&S4&S5&S0&S6). pose proof (zlen_nonneg out) as Ho0.
  unfold store_chunk. do 2 step_get. rewrite Hch, Hn. change (negb (0 <? 1)) with false. cbv iota.
  unfold the_chunks in Hc. step_get. rewrite Hc. change (aget [c] 0) with (Some c). cbn [lift_opt].
  rewrite bind_ret. do 2 step_get. rewrite Hwp, Hfo. rewrite (swrap_small 64 ltac:(lia) (zlen out - offset c)) by lia.
  set (co := zlen out - offset c).
  assert ((if co <? 0 then (- co, addr c) else (0, u64 (addr c + co)))
    = (Z.max 0 (offset c - zlen out), addr c + Z.max 0 (zlen out - offset c))) as ->.
  { subst co. destruct (Z.ltb_spec (zlen out - offset c) 0).
    - f_equal; lia.
    - rewrite (wrap_small 64) by lia. f_equal; lia. }
  cbv iota beta.
  destruct (Z.leb_spec (zlen w) (Z.max 0 (offset c - zlen out))) as [Hnext|Hcopy].
  { (* the next window *)
    eexists (inr tt), _. split; [done|]. cbn [set_output base]. rewrite zlen_app.
    rewrite (wrap_small 64) by (unfold WSIZE in *; lia).
    do 7 (split; [done|]). split; [by repeat split|]. split; [intros i Hi Hlt; lia|]. split.
    { cbn. rewrite Hwp. unfold left_of. by rewrite (proj2 (Z.ltb_ge (_ - _) _)), andb_false_r by lia. }
    left. split; [done|split; [done|split; [done|lia]]]. }
  rewrite (swrap_small 64 ltac:(lia) (offset c + size c - zlen out)) by lia.
  set (n := if zlen w <? offset c + size c - zlen out then zlen w else offset c + size c - zlen out).
  assert (n = Z.min (zlen w) (offset c + size c - zlen out)) as En
    by (subst n; destruct (Z.ltb_spec (zlen w) (offset c + size c - zlen out)); lia).
  (* the message *)
  assert (∃ a, (if co =? 0 then gz_printf ("aboot: segment %d, %ld bytes at %#lx" ++ nl)
      [AInt 0; AInt (size c); AInt (addr c)] else ret tt) g
      = Ret tt (set_base (Loader a (fss (base g)) (kmem (base g))) g) ∧
    io_ok (u_con (sys a)) ∧ chunks a = chunks (ab (base g)) ∧ nchunks a = nchunks (ab (base g)) ∧
    kept g (set_base (Loader a (fss (base g)) (kmem (base g))) g))
    as (a&Ep&Hqa&Eca&Ena&Hka).
  { destruct (co =? 0); [by apply gz_printf_ok|]. exists (ab (base g)). split; [by destruct g as [[]]|].
    do 3 (split; [done|]). by repeat split. }
  rewrite (bind_Ret _ _ _ _ _ Ep). set (g1 := set_base _ g).
  assert (buffers_ok g1) as Hb1 by exact Hb.
  rewrite (bind_Ret (gets from_window) _ g1 (from_window g1) g1 eq_refl).
  destruct (aslice_is_Some (from_window g1) (Z.max 0 (offset c - zlen out)) n) as [bytes Eb];
    [lia|lia|rewrite (from_window_len g1 Hb1); unfold WSIZE, INBUFSIZ in *; lia|].
  rewrite Eb. cbn [lift_opt]. rewrite bind_ret.
  pose proof (aslice_len _ _ _ _ Eb) as Hzb.
  rewrite (bind_Ret (on_base (poke_mem _ bytes)) _ g1 tt _ (poke_ok (addr c + Z.max 0 (zlen out - offset c)) bytes g1
    ltac:(rewrite Hzb; apply (mapped_sub _ _ _ _ _ S6); lia))).
  set (m' := mem_write (memory g1) _ bytes).
  assert (∀ i, 0 <= i < size c → offset c + i < zlen (out ++ w) →
    m' !! (addr c + i) = aget (out ++ w) (offset c + i)) as Hnew.
  { apply (stored_step c (memory g1) out w (from_window g1)
      (Z.max 0 (offset c - zlen out)) _ bytes n); try done.
    intros j Hj. by apply from_window_get. }
  assert (segment_ok c m') as Hseg'.
  { split; [done|]. do 5 (split; [done|]). intros q Hq'. unfold m'. rewrite mem_write_lookup.
    case_decide as Hin; [|by apply S6]. apply lookup_lt_is_Some. unfold zlen in *. lia. }
  step_mod. rewrite (wrap_small 64 (zlen out + n)) by (unfold WSIZE in *; lia).
  destruct (Z.ltb_spec n (zlen w)) as [Hlt|Hge].
  - step_mod. eexists (inl tt), _. split; [done|]. split; [exact Hb|]. split; [by rewrite <- Hc, <- Eca|].
    split; [by rewrite <- Hn, <- Ena|]. split; [exact Hqa|]. split; [exact Hseg'|].
    split; [done|]. split; [done|]. split; [exact Hka|]. split; [exact Hnew|]. split.
    { cbn. unfold left_of. rewrite (proj2 (Z.leb_le _ _)), (proj2 (Z.ltb_lt (_ - _) _)) by lia.
      cbn [andb]. rewrite (wrap_small 32) by (unfold WSIZE in *; lia). lia. }
    right. split; [done|].
    split; [cbn; by rewrite Hch|]. rewrite zlen_app. lia.
  - eexists (inr tt), _. split; [done|]. split; [exact Hb|]. split; [by rewrite <- Hc, <- Eca|].
    split; [by rewrite <- Hn, <- Ena|]. split; [exact Hqa|]. split; [exact Hseg'|].
    split; [done|]. split; [done|]. split; [exact Hka|]. split; [exact Hnew|]. split.
    { cbn. rewrite Hwp. unfold left_of. by rewrite (proj2 (Z.ltb_ge (_ - _) _)), andb_false_r by lia. }
    left. split; [done|]. split; [done|].
    rewrite zlen_app. cbn. split; lia.
Qed.

(** *** One flush *)

(** What the code of a flush needs to know besides [flushed]: the window. *)
Definition has_window (g : gzip F K) (w : list Z) : Prop :=
  wp g = zlen w ∧ 0 < zlen w <= WSIZE ∧ take (length w) (slide g) = w.

Lemma load_has_window w (g : gzip F K) : 0 < zlen w <= WSIZE → has_window (load_window w g) w.
Proof. intros Hw. split; [done|]. split; [done|]. cbn. apply take_app_length. Qed.

Lemma load_flushed c w (g : gzip F K) out : 0 < zlen w <= WSIZE → flushed c g out → flushed c (load_window w g) out.
Proof.
  intros Hw (Hb&H2). split; [|exact H2]. destruct Hb as (Hz&Hi&Ha). split; [|by split].
  cbn. rewrite zlen_app. unfold zlen in *. rewrite length_drop. lia.
Qed.

(** The loop over the segments, with [bytes_out] already moved on. *)
Lemma chunks_loop_ok c (g : gzip F K) out w :
  has_window g w → zlen out < 2 ^ 62 →
  flushed c (set_output (zlen out) (chunk g) (file_offset g) g) out → bytes_out g = zlen (out ++ w) →
  ∃ g', loop (S (Z.to_nat (1 - chunk g))) (λ _ : unit, store_chunk) tt g = Ret tt g' ∧
    flushed c g' (out ++ w) ∧ crc g' = crc g ∧ kept g g' ∧ wp g' = left_of c (zlen out) (zlen w).
Proof.
  intros (Hwp&Hw&Htk) H62 (Hb&Hc&Hn&Hq&Hseg&_&Hold&Hpos) Hbo.
  change (buffers_ok g) in Hb. change (the_chunks g = [c]) in Hc. change (nchunks (ab (base g)) = 1) in Hn.
  change (∀ i, 0 <= i < size c → offset c + i < zlen out → memory g !! (addr c + i) = aget out (offset c + i)) in Hold.
  change (io_ok (u_con (sys (ab (base g))))) in Hq. change (segment_ok c (memory g)) in Hseg.
  destruct Hpos as [(Hch&Hfo&Hle)|(Hch&Hle)]; cbn [set_output chunk file_offset] in Hch;
    [cbn [set_output file_offset] in Hfo|].
  - destruct (store_chunk_ok c g out w) as (r&g1&E1&B1&C1&N1&Q1&S1&O1&R1&K1&T1&L1&Hr); try done.
    rewrite Hch. change (Z.to_nat (1 - 0)) with 1%nat.
    destruct Hr as [(->&Hc1&Hf1&Hl1)|(->&Hc1&Hl1)].
    + exists g1. split; [by apply loop_exit|]. split; [|by split].
      unfold flushed. rewrite O1, Hbo. do 6 (split; [done|]). split; [done|]. by left.
    + exists g1. rewrite (loop_step _ _ _ _ _ _ E1). split.
      * apply loop_exit. unfold store_chunk. do 2 step_get. rewrite Hc1, N1. done.
      * split; [|by split]. unfold flushed. rewrite O1, Hbo. do 6 (split; [done|]). split; [done|]. by right.
  - rewrite Hch. change (Z.to_nat (1 - 1)) with 0%nat. exists g. split.
    + apply loop_exit. unfold store_chunk. do 2 step_get. rewrite Hch, Hn. done.
    + split; [|split; [done|split; [done|]]].
      2:{ unfold left_of. rewrite Hwp. destruct (Z.leb_spec (zlen out) (offset c + size c)); [|done].
          destruct (Z.ltb_spec (offset c + size c - zlen out) (zlen w)); cbn [andb]; lia. }
      unfold flushed. rewrite Hbo. do 6 (split; [done|]). rewrite zlen_app. split.
      * intros i Hi Hlt. rewrite (Hold i Hi) by lia. unfold aget. repeat case_decide; try lia; [|done].
        symmetry. apply lookup_app_l. unfold zlen in *. lia.
      * right. split; [done|lia].
Qed.

Lemma window_slice (g : gzip F K) w : has_window g w → buffers_ok g →
  aslice (slide g) 0 (zlen w) = Some w.
Proof.
  intros (_&Hw&Htk) (Hz&_&_). apply aslice_Some. split; [done|]. split; [apply zlen_nonneg|].
  split; [lia|]. unfold zlen. rewrite Nat2Z.id. by rewrite drop_0, Htk.
Qed.

Lemma do_updcrc_ok (g : gzip F K) w : Forall is_byte w →
  ∃ r, do_updcrc (Some w) g = Ret r (set_crc (crc_feed (crc g) w) g).
Proof.
  intros HF. unfold do_updcrc. step_get. unfold updcrc.
  rewrite crc_loop_ok by done. cbn [lift_opt]. rewrite bind_ret. by eexists.
Qed.

(** What follows the check of the header. *)
Lemma flush_rest_ok c (g : gzip F K) out w :
  has_window g w → flushed c g out → zlen (out ++ w) < 2 ^ 62 →
  ∃ g', (modify (λ g, set_output (u64 (bytes_out g + zlen w)) (chunk g) (file_offset g) g) ;;;
         let! n := gets (λ g, nchunks (ab (base g))) in
         let! k := gets chunk in
         loop (S (Z.to_nat (n - k))) (λ _ : unit, store_chunk) tt) g = Ret tt g' ∧
    flushed c g' (out ++ w) ∧ crc g' = crc g ∧ kept g g' ∧ wp g' = left_of c (zlen out) (zlen w).
Proof.
  intros Hw Hfl H62. pose proof (zlen_nonneg out). pose proof (zlen_nonneg w). rewrite zlen_app in H62.
  pose proof Hfl as (_&_&Hn&_&_&Hbo&_).
  step_mod. do 2 step_get. rewrite Hbo, (wrap_small 64) by lia.
  set (g1 := set_output _ _ _ g). change (nchunks (ab (base g1))) with (nchunks (ab (base g))). rewrite Hn.
  apply (chunks_loop_ok c g1 out w); [done|lia| |].
  - destruct Hfl as (?&?&?&?&?&?&?&?). unfold flushed. split; [done|]. split; [done|].
    split; [done|]. split; [done|]. split; [done|]. split; [done|]. split; done.
  - cbn. by rewrite zlen_app.
Qed.

Lemma flush_next_ok c (g : gzip F K) out w :
  has_window g w → Forall is_byte w → flushed c g out → 0 < zlen out → zlen (out ++ w) < 2 ^ 62 →
  ∃ g', flush_slide g = Ret tt g' ∧ flushed c g' (out ++ w) ∧ crc g' = crc_feed (crc g) w ∧
    kept g g' ∧ wp g' = left_of c (zlen out) (zlen w).
Proof.
  intros Hw HF Hfl Hout H62. pose proof Hw as (Hwp&Hw0&_). pose proof Hfl as (Hb&_&_&_&_&Hbo&_).
  destruct (do_updcrc_ok g w HF) as (r&Er).
  unfold flush_slide. step_get. rewrite Hwp, (proj2 (Z.eqb_neq _ 0)) by lia. step_get.
  rewrite (window_slice g w Hw Hb). cbn [lift_opt]. rewrite bind_ret, (bind_Ret _ _ _ _ _ Er).
  set (g1 := set_crc _ g). step_get. change (bytes_out g1) with (bytes_out g).
  rewrite Hbo, (proj2 (Z.eqb_neq _ 0)) by lia. rewrite bind_ret.
  destruct (flush_rest_ok c g1 out w Hw Hfl H62) as (g'&E&Hfl'&Ec&Hk). exists g'. split; [exact E|done].
Qed.

(** The first window: the header is checked, and names the one segment. *)
Lemma flush_first_ok c (g : gzip F K) w a :
  has_window g w → Forall is_byte w → buffers_ok g → bytes_out g = 0 → chunk g = 0 → file_offset g = 0 →
  is_loadable_elf (from_window g) (zlen w) (ab (base g)) = Ret true a →
  chunks a = [c] → nchunks a = 1 → io_ok (u_con (sys a)) → segment_ok c (memory g) →
  ∃ g', flush_slide g = Ret tt g' ∧ flushed c g' w ∧ crc g' = crc_feed (crc g) w ∧
    kept (set_base (Loader a (fss (base g)) (kmem (base g))) g) g' ∧ wp g' = left_of c 0 (zlen w).
Proof.
  intros Hw HF Hb Hbo Hch Hfo Ea Eca Ena Hq Hseg. pose proof Hw as (Hwp&Hw0&_).
  destruct (do_updcrc_ok g w HF) as (r&Er).
  unfold flush_slide. step_get. rewrite Hwp, (proj2 (Z.eqb_neq _ 0)) by lia. step_get.
  rewrite (window_slice g w Hw Hb). cbn [lift_opt]. rewrite bind_ret, (bind_Ret _ _ _ _ _ Er).
  set (g1 := set_crc _ g). step_get. change (bytes_out g1) with (bytes_out g).
  rewrite Hbo. change (0 =? 0) with true. cbv iota. rewrite bind_bind. step_get.
  set (g2 := set_base (Loader a (fss (base g)) (kmem (base g))) g1).
  assert (on_base (on_ab (is_loadable_elf (from_window g1) (zlen w))) g1 = Ret true g2) as E2.
  { unfold on_base, on_ab. change (from_window g1) with (from_window g). cbn [g1 set_crc base].
    by rewrite Ea. }
  rewrite bind_bind, (bind_Ret _ _ _ _ _ E2), bind_ret.
  pose proof Hseg as (S1&S2&_). unfold WSIZE in Hw0.
  destruct (flush_rest_ok c g2 [] w Hw) as (g'&E&Hfl'&Ec&Hk).
  - unfold flushed. change (buffers_ok g2) with (buffers_ok g). change (the_chunks g2) with (chunks a).
    change (memory g2) with (memory g). change (bytes_out g2) with (bytes_out g).
    change (chunk g2) with (chunk g). change (file_offset g2) with (file_offset g).
    change (zlen []) with 0. rewrite Hbo, Hch, Hfo. do 6 (split; [done|]).
    split; [intros; lia|]. left. split; [done|]. split; [done|lia].
  - cbn. lia.
  - exists g'. split; [exact E|done].
Qed.

Lemma run_windows_ok c ws : ∀ (g : gzip F K) out,
  Forall (λ w, 0 < zlen w <= WSIZE ∧ Forall is_byte w) ws → flushed c g out → 0 < zlen out →
  zlen (out ++ concat ws) < 2 ^ 62 →
  ∃ g', run_windows ws g = Ret tt g' ∧ flushed c g' (out ++ concat ws) ∧
    crc g' = crc_feed (crc g) (concat ws).
Proof.
  induction ws as [|w ws IH]; intros g out HF Hfl Hout H62.
  { exists g. cbn. rewrite app_nil_r. done. }
  inversion HF as [|?? [Hw Hb] HF']; subst. cbn [run_windows concat] in *. step_mod.
  pose proof (zlen_nonneg (concat ws)). rewrite app_assoc in H62.
  destruct (flush_next_ok c (load_window w g) out w) as (g1&E1&Hf1&Ec1&_);
    [by apply load_has_window|done|by apply load_flushed|done|rewrite zlen_app in H62; lia|].
  rewrite (bind_Ret _ _ _ _ _ E1).
  destruct (IH g1 (out ++ w)) as (g2&E2&Hf2&Ec2); [done|done|rewrite zlen_app; lia|done|].
  exists g2. rewrite app_assoc. split; [done|]. split; [done|].
  rewrite Ec2, Ec1, crc_feed_app. done.
Qed.
End segments.

(** ** The theorem *)

(** C6: a kernel with one loadable segment is where its program header says.
    When the output of inflate is flushed window by window, the first window
    holding the headers, and the whole output covers the segment, then memory
    at the segment's address holds the segment's bytes of the output, the byte
    count is the length of the output and the CRC register has taken in all of
    it - wherever the windows cut the segment. *)
Theorem flush_stores_segment {F K} `{HO : ConsOut K} (g : gzip F K) w ws a c :
  let out := concat (w :: ws) in
  Forall (λ w, 0 < zlen w <= WSIZE ∧ Forall is_byte w) (w :: ws) → zlen out < 2 ^ 62 →
  buffers_ok g → bytes_out g = 0 → chunk g = 0 → file_offset g = 0 →
  is_loadable_elf (from_window (load_window w g)) (zlen w) (ab (base g)) = Ret true a →
  chunks a = [c] → nchunks a = 1 → io_ok (u_con (sys a)) → segment_ok c (memory g) →
  offset c + size c <= zlen out →
  ∃ g', run_windows (w :: ws) g = Ret tt g' ∧
    read_mem (memory g') (addr c) (size c) = aslice out (offset c) (size c) ∧
    bytes_out g' = zlen out ∧ crc g' = crc_feed (crc g) out.
Proof.
  intros out HF H62 Hb Hbo Hch Hfo Ea Eca Ena Hq Hseg Hcov.
  inversion HF as [|?? [Hw Hby] HF']; subst. cbn [run_windows]. step_mod.
  assert (buffers_ok (load_window w g)) as Hb'.
  { destruct Hb as (Hz&Hi&Ha). split; [|by split]. cbn. rewrite zlen_app. unfold zlen in *. rewrite length_drop. lia. }
  destruct (flush_first_ok c (load_window w g) w a) as (g1&E1&Hf1&Ec1&_);
    [by apply load_has_window|done..|].
  rewrite (bind_Ret _ _ _ _ _ E1).
  destruct (run_windows_ok c ws g1 w HF' Hf1) as (g2&E2&(_&_&_&_&Hseg2&Hbo2&Hst&_)&Ec2); [lia|done|].
  exists g2. split; [done|]. split; [|split; [done|by rewrite Ec2, Ec1, <- crc_feed_app]].
  pose proof Hseg2 as (S1&S2&_&_&_&_&Hm). change (w ++ concat ws) with out in Hst.
  apply read_mem_cells; [lia|lia|lia|]. intros i Hi. apply Hst; lia.
Qed.


(** A kernel of one segment, cut by the end of the first window and of the
    second. *)
Definition ex_kernel : list Z :=
  [0x7f; 69; 76; 70; 2; 1; 1] ++ replicate 9 0 ++
  le_bytes 2 ET_EXEC ++ le_bytes 2 EM_ALPHA ++ le_bytes 4 1 ++
  le_bytes 8 0xfffffc0000310000 ++ le_bytes 8 64 ++ le_bytes 8 0 ++ le_bytes 4 0 ++
  le_bytes 2 64 ++ le_bytes 2 56 ++ le_bytes 2 1 ++ replicate 6 0 ++
  le_bytes 4 PT_LOAD ++ le_bytes 4 7 ++ le_bytes 8 130 ++ le_bytes 8 0xfffffc0000310000 ++
  le_bytes 8 0 ++ le_bytes 8 120 ++ le_bytes 8 160 ++ le_bytes 8 0x2000 ++
  map Z.of_nat (seq 0 150).

Definition ex_windows : list (list Z) :=
  [take 150 ex_kernel; take 60 (drop 150 ex_kernel); drop 210 ex_kernel].

Definition ex_aboot : aboot (cstate refcon) :=
  Aboot (UState (example_con 4 []) example_clusters 8192 0 (page_offset + 0x310000)) 0 0 [] 0
    (replicate 256 0) (replicate 256 0) (replicate 256 0) 0 0 0 0.

(** As [uncompress_kernel] starts, with memory for the segment. *)
Definition ex_gzip : gzip unit (cstate refcon) :=
  Gzip (Loader ex_aboot () (mem_write ∅ 0xfffffc0000310000 (replicate 260 0xff)))
    (replicate (Z.to_nat INBUFSIZ) 0) (0x100000 + WSIZE) (replicate (Z.to_nat WSIZE) 0) 0x100000
    0 0 0 0 8 0 3 0 0 0xffffffff 0 0.

Definition ex_loaded : aboot (cstate refcon) :=
  match is_loadable_elf (H := cons_io 2000) ex_kernel 150 ex_aboot with Ret _ a => a | _ => ex_aboot end.

Lemma zlen_copies n (x : Z) : 0 <= n → zlen (replicate (Z.to_nat n) x) = n.
Proof. intros. unfold zlen. rewrite length_replicate. lia. Qed.

Lemma flush_stores_segment_witness :
  ∃ g', run_windows (H := cons_io 2000) ex_windows ex_gzip = Ret tt g' ∧
    read_mem (memory g') 0xfffffc0000310000 120 = aslice ex_kernel 130 120 ∧
    bytes_out g' = 270 ∧ crc g' = crc_feed 0xffffffff ex_kernel.
Proof.
  apply (flush_stores_segment (HO := cons_io_out 2000) ex_gzip (take 150 ex_kernel)
    [take 60 (drop 150 ex_kernel); drop 210 ex_kernel] ex_loaded (Segment 0xfffffc0000310000 130 120)).
  - apply (bool_decide_unpack _). vm_compute. exact I.
  - vm_compute. done.
  - split; [by apply (zlen_copies WSIZE)|]. split; [by apply (zlen_copies INBUFSIZ)|done].
  - done.
  - done.
  - done.
  - vm_compute. reflexivity.
  - vm_compute. reflexivity.
  - vm_compute. reflexivity.
  - split; [vm_compute; reflexivity|]. split; [vm_compute; reflexivity|].
    apply Nat.ltb_lt. vm_compute. reflexivity.
  - do 5 (split; [cbn; lia|]). split.
    { apply (printable_checked (K := refcon) 2000). vm_compute. reflexivity. }
    apply mapped_seqZ. apply (bool_decide_unpack _). vm_compute. exact I.
  - vm_compute. discriminate.
Defined.


(** Two segments in one window: the loop goes on to the second one with
    [outcnt] and [file_offset] moved on but reads the window from its start
    again, so what reaches the second address are bytes of the first segment. *)
Definition ex_two_segments : list Z :=
  take 56 ex_kernel ++ le_bytes 2 2 ++ replicate 6 0 ++
  le_bytes 4 PT_LOAD ++ le_bytes 4 7 ++ le_bytes 8 176 ++ le_bytes 8 0xfffffc0000310000 ++
  le_bytes 8 0 ++ le_bytes 8 40 ++ le_bytes 8 40 ++ le_bytes 8 0x2000 ++
  le_bytes 4 PT_LOAD ++ le_bytes 4 7 ++ le_bytes 8 216 ++ le_bytes 8 0xfffffc0000310080 ++
  le_bytes 8 0 ++ le_bytes 8 40 ++ le_bytes 8 40 ++ le_bytes 8 0x2000 ++
  map Z.of_nat (seq 0 150).

Example second_segment_misread :
  match run_windows (H := cons_io 2000) [ex_two_segments] ex_gzip with
  | Ret _ g' =>
      read_mem (memory g') 0xfffffc0000310000 40 = aslice ex_two_segments 176 40 ∧
      read_mem (memory g') 0xfffffc0000310080 40 = aslice ex_two_segments 0 40 ∧
      aslice ex_two_segments 0 40 ≠ aslice ex_two_segments 216 40
  | _ => False
  end.
Proof. vm_compute. repeat split. discriminate. Qed.
