(* ===== verification/Lockstep.v ===== *)
(** * inflate in two environments

    zip/inflate.c is written against [InflateEnv]; what it does depends on the
    environment only through the answers it gets.  [Lockstep] relates the states
    of the list environment [refenv] to those of another one whose calls give the
    same answers - while the output stays a prefix of a known one, since an
    environment may refuse other output.  Then inflate runs the same way in both:
    each function has its lemma, proved by walking through its code. *)

From Stdlib Require Import Ascii String.
From S2P Require Import Prelude CString Vsprintf Bits Huft Inflate Deflate.

Open Scope Z_scope.
Open Scope list_scope.

(** ** Lists with a count of their own *)

(** [refenv] in which a flush changes [outcnt], as flush_window of zip/misc.c
    does: [left] gives the new count from the output before and the old count. *)
Section left_env.
Variable left : list Z → Z → Z.

Definition re_next (s : refenv) (c : Z) (rest : list Z) : refenv :=
  RefEnv rest (c :: re_back s) (re_output s) (re_room s) (re_window s) (re_outcnt s).
Definition re_flushed (s : refenv) : refenv :=
  RefEnv (re_input s) (re_back s) (re_output s ++ take (Z.to_nat (re_outcnt s)) (re_window s))
    (re_room s) (re_window s) (left (re_output s) (re_outcnt s)).
Definition re_allocated (s : refenv) (n : Z) : refenv :=
  RefEnv (re_input s) (re_back s) (re_output s) (re_room s - n - 8) (re_window s) (re_outcnt s).

Definition left_env : InflateEnv refenv := {|
  get_byte := λ s, match re_input s with
    | c :: rest => Ret c (re_next s c rest)
    | [] => Jump "attempted to read past eof" s
    end;
  unget_byte := unget_byte (InflateEnv := refenv_env);
  flush_window := λ s, Ret tt (re_flushed s);
  env_malloc := λ n s, if n + 8 <=? re_room s then Ret 8 (re_allocated s n) else Jump "out of memory" s;
  env_unzip_error := λ A x s, Jump x s;
  window := re_window;
  set_window := set_window (InflateEnv := refenv_env);
  outcnt := re_outcnt;
  set_outcnt := set_outcnt (InflateEnv := refenv_env)
|}.

Program Definition left_laws : InflateLaws (H := left_env) refenv := {|
  env_input := re_input; env_back := re_back; env_output := re_output; env_room := re_room
|}.
Solve Obligations with done.
Next Obligation. intros [i b o r w n] c rest E. cbn in *. subst i. eauto 10. Qed.
Next Obligation. intros [i b o r w n] c rest E. cbn in *. subst b. eauto 10. Qed.
Next Obligation. intros [i b o r w n] E. cbn in *. eauto 10. Qed.
Next Obligation.
  intros [i b o r w n] k Hk Hr. cbn in *. rewrite (proj2 (Z.leb_le _ _)) by lia. eauto 10.
Qed.
End left_env.

(** ** The relation *)

Class Lockstep {St : Type} `{InflateEnv St} (left : list Z → Z → Z) (RE : refenv → St → Prop) (OUT : list Z) := {
  ls_window s1 s2 : RE s1 s2 → window s2 = re_window s1;
  ls_size s1 s2 : RE s1 s2 → zlen (re_window s1) = WSIZE;
  ls_outcnt s1 s2 : RE s1 s2 → outcnt s2 = re_outcnt s1;
  ls_set_window s1 s2 l : RE s1 s2 → zlen l = WSIZE → RE (set_window (InflateEnv := left_env left) l s1) (set_window l s2);
  ls_set_outcnt s1 s2 n : RE s1 s2 → RE (set_outcnt (InflateEnv := left_env left) n s1) (set_outcnt n s2);
  ls_get s1 s2 c rest : RE s1 s2 → re_input s1 = c :: rest →
    ∃ s2', get_byte s2 = Ret c s2' ∧ RE (re_next s1 c rest) s2';
  ls_flush s1 s2 : RE s1 s2 → re_outcnt s1 = WSIZE → re_output s1 ++ re_window s1 `prefix_of` OUT →
    ∃ s2', flush_window s2 = Ret tt s2' ∧ RE (re_flushed left s1) s2';
  ls_malloc s1 s2 n : RE s1 s2 → 0 <= n → n + 8 <= re_room s1 →
    ∃ p s2', env_malloc n s2 = Ret p s2' ∧ RE (re_allocated s1 n) s2'
}.

Section lockstep.
Context {St : Type} `{HE : InflateEnv St} (left : list Z → Z → Z) (RE : refenv → St → Prop) (OUT : list Z)
  `{HL : !Lockstep left RE OUT}.
#[local] Instance list_env : InflateEnv refenv := left_env left.

Definition related (s1 : ist refenv) (s2 : ist St) : Prop :=
  RE (env s1) (env s2) ∧ bb s2 = bb s1 ∧ bk s2 = bk s1 ∧ hufts s2 = hufts s1 ∧ heap s2 = heap s1.

(** The output only grows. *)
Definition grows (s1 s1' : ist refenv) : Prop := re_output (env s1) `prefix_of` re_output (env s1').

(** When [m1] returns and its output is still the expected one, [m2] returns the
    same value, in a related state. *)
Definition steps {A} (m1 : M (ist refenv) A) (m2 : M (ist St) A) : Prop :=
  ∀ s1 a s1', m1 s1 = Ret a s1' → grows s1 s1' ∧
    ∀ s2, related s1 s2 → re_output (env s1') `prefix_of` OUT →
      ∃ s2', m2 s2 = Ret a s2' ∧ related s1' s2'.

(** *** The monad *)

Lemma steps_ret {A} (a : A) : steps (ret a) (ret a).
Proof. intros s1 a' s1' [= <- <-]. split; [by unfold grows|]. intros s2 HR _. by exists s2. Qed.

Lemma steps_bind {A B} (m1 : M _ A) (m2 : M _ A) (k1 : A → M _ B) k2 :
  steps m1 m2 → (∀ a, steps (k1 a) (k2 a)) → steps (bind m1 k1) (bind m2 k2).
Proof.
  intros Hm Hk s1 b s1' E. apply bind_inv in E as (a&t1&E1&E2).
  destruct (Hm _ _ _ E1) as [Hg1 HS1]. destruct (Hk a _ _ _ E2) as [Hg2 HS2].
  split; [unfold grows in *; by etrans|]. intros s2 HR HO.
  destruct (HS1 s2 HR) as (t2&F1&HR1); [by etrans|]. destruct (HS2 t2 HR1 HO) as (s2'&F2&HR2).
  exists s2'. by rewrite (bind_Ret _ _ _ _ _ F1).
Qed.

Lemma steps_none {A} (m1 : M (ist refenv) A) (m2 : M (ist St) A) :
  (∀ s a s', m1 s ≠ Ret a s') → steps m1 m2.
Proof. intros Hn s1 a s1' E. by apply Hn in E. Qed.

Lemma steps_trap {A} (m2 : M _ A) : steps trap m2.
Proof. by apply steps_none. Qed.

Lemma steps_diverge {A} (m2 : M _ A) : steps diverge m2.
Proof. by apply steps_none. Qed.

Lemma steps_error {A} x (m2 : M _ A) : steps (on_env (env_unzip_error A x)) m2.
Proof. by apply steps_none. Qed.

Lemma steps_lift {A} (o : option A) : steps (lift_opt o) (lift_opt o).
Proof. destruct o; [apply steps_ret|apply steps_trap]. Qed.

Lemma steps_loop {A B} fuel (body1 : A → M _ (A + B)) body2 : (∀ a, steps (body1 a) (body2 a)) →
  ∀ a, steps (loop fuel body1 a) (loop fuel body2 a).
Proof.
  intros Hb. induction fuel as [|fuel IH]; intros a; [apply steps_diverge|].
  apply steps_bind; [apply Hb|]. intros [x|x]; [apply IH|apply steps_ret].
Qed.

(** *** The state *)

Lemma steps_gets {A} (f1 : ist refenv → A) f2 :
  (∀ s1 s2, related s1 s2 → f2 s2 = f1 s1) → steps (gets f1) (gets f2).
Proof.
  intros Hf s1 a s1' [= <- <-]. split; [by unfold grows|]. intros s2 HR _. exists s2. split; [|done].
  unfold gets. by rewrite (Hf _ _ HR).
Qed.

Lemma steps_heap : steps (gets heap) (gets heap).
Proof. apply steps_gets. by intros s1 s2 (_&_&_&_&?). Qed.

Lemma steps_hufts : steps (gets hufts) (gets hufts).
Proof. apply steps_gets. by intros s1 s2 (_&_&_&?&_). Qed.

Lemma steps_globals : steps get_globals get_globals.
Proof. apply steps_gets. by intros s1 s2 (_&->&->&_). Qed.

Lemma steps_wp : steps get_wp get_wp.
Proof. apply steps_gets. intros s1 s2 [HR _]. apply (ls_outcnt _ _ HR). Qed.

Lemma steps_modify f1 f2 :
  (∀ s1, re_output (env (f1 s1)) = re_output (env s1)) →
  (∀ s1 s2, related s1 s2 → related (f1 s1) (f2 s2)) → steps (modify f1) (modify f2).
Proof.
  intros Ho Hf s1 a s1' [= <- <-]. split; [by unfold grows; rewrite Ho|].
  intros s2 HR _. eexists. split; [reflexivity|]. by apply Hf.
Qed.

Lemma steps_set_heap h : steps (set_heap h) (set_heap h).
Proof. apply steps_modify; [done|]. intros s1 s2 (?&?&?&?&?). by repeat split. Qed.

Lemma steps_set_hufts n : steps (set_hufts n) (set_hufts n).
Proof. apply steps_modify; [done|]. intros s1 s2 (?&?&?&?&?). by repeat split. Qed.

Lemma steps_put_globals p : steps (put_globals p) (put_globals p).
Proof. apply steps_modify; [done|]. intros s1 s2 (?&?&?&?&?). by repeat split. Qed.

Lemma steps_put_wp n : steps (put_wp n) (put_wp n).
Proof.
  apply steps_modify; [done|]. intros s1 s2 (HR&?&?&?&?). split; [|by repeat split].
  apply (ls_set_outcnt _ _ n HR).
Qed.

(** *** The environment *)

Lemma related_env s1 s2 e1 e2 : related s1 s2 → RE e1 e2 →
  related (IState e1 (bb s1) (bk s1) (hufts s1) (heap s1)) (IState e2 (bb s2) (bk s2) (hufts s2) (heap s2)).
Proof. intros (_&?&?&?&?) HR. by repeat split. Qed.

Lemma steps_get : steps (on_env get_byte) (on_env get_byte).
Proof.
  intros s1 a s1' E. unfold on_env in E. cbn [get_byte list_env left_env] in E.
  destruct (re_input (env s1)) as [|c rest] eqn:Ei; [done|]. injection E as <- <-. split; [by unfold grows|].
  intros s2 HR _. destruct (ls_get _ _ c rest (proj1 HR) Ei) as (e&E&He).
  eexists. split; [by apply on_env_Ret|]. by apply (related_env s1 s2).
Qed.

Lemma steps_malloc {B} n (k1 : M _ B) k2 : 0 <= n → steps k1 k2 →
  steps (on_env (env_malloc n) ;;; k1) (on_env (env_malloc n) ;;; k2).
Proof.
  intros Hn Hk s1 a s1' E. apply bind_inv in E as (p1&t1&E1&E2). unfold on_env in E1.
  cbn [env_malloc list_env left_env] in E1.
  destruct (Z.leb_spec (n + 8) (re_room (env s1))) as [Hr|]; [|done]. injection E1 as _ <-.
  destruct (Hk _ _ _ E2) as [Hg HS]. split; [exact Hg|]. intros s2 HR HO.
  destruct (ls_malloc _ _ n (proj1 HR) Hn Hr) as (p&e&F&He).
  destruct (HS _ (related_env s1 s2 _ _ HR He) HO) as (s2'&F2&HR2). exists s2'.
  by rewrite (bind_Ret _ _ _ _ _ (on_env_Ret _ s2 _ _ F)).
Qed.

(** Changes of the window that keep its size. *)
Lemma steps_slide {A} (f : list Z → option (list Z)) (k1 : M _ A) k2 :
  (∀ l l', f l = Some l' → zlen l' = zlen l) → steps k1 k2 →
  steps (let! sl := get_slide in let! sl := lift_opt (f sl) in put_slide sl ;;; k1)
        (let! sl := get_slide in let! sl := lift_opt (f sl) in put_slide sl ;;; k2).
Proof.
  intros Hf Hk s1 b s1' E. unfold get_slide in *. cbn [gets bind] in *. cbn [window list_env left_env] in E.
  destruct (f (re_window (env s1))) as [l|] eqn:El; [|done]. cbn [lift_opt ret] in E.
  destruct (Hk _ _ _ E) as [Hg HS]. split; [exact Hg|].
  intros s2 HR HO. rewrite (ls_window _ _ (proj1 HR)), El. apply (HS _); [|done].
  apply (related_env s1 s2); [done|]. apply (ls_set_window _ _ _ (proj1 HR)).
  rewrite (Hf _ _ El). apply (ls_size _ _ (proj1 HR)).
Qed.

Lemma steps_flush_full w : steps (flush_full w) (flush_full w).
Proof.
  unfold flush_full. destruct (Z.eqb_spec w WSIZE) as [->|_]; [|apply steps_ret].
  apply steps_bind; [|intros _; apply steps_ret].
  intros s1 a s1' E. set (e1 := set_outcnt WSIZE (env s1)).
  assert (a = tt ∧ s1' = IState (re_flushed left e1) (bb s1) (bk s1) (hufts s1) (heap s1)) as [-> ->].
  { unfold flush_output, put_wp, modify, bind, on_env in E. by injection E as <- <-. }
  split; [by exists (take (Z.to_nat WSIZE) (re_window e1))|]. intros s2 HR HO.
  assert (take (Z.to_nat WSIZE) (re_window e1) = re_window e1) as Et.
  { apply take_ge. pose proof (ls_size _ _ (proj1 HR)) as Hz. change (re_window e1) with (re_window (env s1)).
    unfold zlen in Hz. lia. }
  destruct (ls_flush e1 _ (ls_set_outcnt _ _ WSIZE (proj1 HR))) as (e&E2&He);
    [done|by rewrite <- Et|].
  eexists. split; [|by apply (related_env s1 s2)].
  unfold flush_output. rewrite (bind_Ret (put_wp WSIZE) _ s2 tt _ eq_refl).
  exact (on_env_Ret _ (IState (set_outcnt WSIZE (env s2)) (bb s2) (bk s2) (hufts s2) (heap s2)) _ _ E2).
Qed.

(** ** The functions of inflate.c *)

Create HintDb lockstep.
#[local] Hint Resolve steps_ret steps_trap steps_diverge steps_error steps_lift steps_heap steps_hufts steps_globals
  steps_wp steps_set_heap steps_set_hufts steps_put_globals steps_put_wp steps_get steps_flush_full : lockstep.

(** Walks through the code of both sides. *)
Ltac walk := repeat (cbv zeta; match goal with
  | |- ∀ _, _ => intro
  | |- steps _ _ => solve [auto with lockstep nocore]
  | |- steps (bind _ _) _ => apply steps_bind
  | |- steps (loop _ _ _) _ => apply steps_loop
  | |- steps (if ?b then _ else _) _ => destruct b
  | |- steps (match ?x with _ => _ end) _ => destruct x
  end).

(** *** Tables *)

Lemma steps_new_table z : steps (new_table z) (new_table z).
Proof. unfold new_table. apply steps_malloc; [apply (wrap_range 64); lia|]. walk. Qed.

Lemma steps_get_entry t i : steps (get_entry t i) (get_entry t i).
Proof. unfold get_entry. walk. Qed.

Lemma steps_set_entry t i r : steps (set_entry t i r) (set_entry t i r).
Proof. unfold set_entry. walk. Qed.

Lemma steps_set_link t l : steps (set_link t l) (set_link t l).
Proof. unfold set_link. walk. Qed.
#[local] Hint Resolve steps_new_table steps_get_entry steps_set_entry steps_set_link : lockstep.

Lemma steps_make_tables c g l k a st : steps (make_tables c g l k a st) (make_tables c g l k a st).
Proof. unfold make_tables. walk. Qed.

Lemma steps_fill fuel q z f r : ∀ j, steps (fill_entries fuel q j z f r) (fill_entries fuel q j z f r).
Proof. induction fuel as [|n IH]; intros j; cbn [fill_entries]; walk. Qed.
#[local] Hint Resolve steps_make_tables steps_fill : lockstep.

Lemma steps_codes_of_length n s v d e c g l k a : ∀ st,
  steps (codes_of_length n s v d e c g l k a st) (codes_of_length n s v d e c g l k a st).
Proof. induction a as [|a IH]; intros st; cbn [codes_of_length]; walk. Qed.
#[local] Hint Resolve steps_codes_of_length : lockstep.

Lemma steps_all_codes fuel n s v d e c g l : ∀ k st,
  steps (all_codes fuel n s v d e c g l k st) (all_codes fuel n s v d e c g l k st).
Proof. induction fuel as [|f IH]; intros k st; cbn [all_codes]; walk. Qed.
#[local] Hint Resolve steps_all_codes : lockstep.

Lemma steps_huft_build b n s d e m : steps (huft_build b n s d e m) (huft_build b n s d e m).
Proof. unfold huft_build. walk. Qed.

Lemma steps_huft_free fuel : ∀ t, steps (huft_free fuel t) (huft_free fuel t).
Proof. induction fuel as [|n IH]; intros t; cbn [huft_free]; walk. Qed.
#[local] Hint Resolve steps_huft_build steps_huft_free : lockstep.

Lemma steps_free_tables t : steps (free_tables t) (free_tables t).
Proof. unfold free_tables. walk. Qed.

(** *** The window *)

Lemma steps_put_byte w c : steps (put_byte w c) (put_byte w c).
Proof. unfold put_byte. apply (steps_slide (λ sl, aset sl w (u8 c))); [|apply steps_ret]. intros l l' E. unfold zlen. by rewrite (aset_len _ _ _ _ E). Qed.

Lemma steps_ext {A} (m1 m1' : M _ A) m2 m2' : (∀ s, m1 s = m1' s) → (∀ s, m2 s = m2' s) → steps m1' m2' → steps m1 m2.
Proof. intros H1 H2 HS s1 a s1'. rewrite H1. intros E. destruct (HS _ _ _ E) as [Hg Hs]. split; [done|]. intros s2. rewrite H2. apply Hs. Qed.

Lemma steps_copy_block e w d : steps (copy_block e w d) (copy_block e w d).
Proof.
  eapply steps_ext; [| |apply (steps_slide (λ sl, let? src := aslice sl d e in asplice sl w src) (ret (w + e, d + e)) (ret (w + e, d + e)))];
    [| | |apply steps_ret].
  3:{ intros l l' E. destruct (aslice l d e) as [src|]; [|done]. cbn in E. unfold asplice in E.
      case_decide; [|done]. injection E as <-. unfold zlen in *. rewrite !length_app, length_take, length_drop. lia. }
  all: intros s; unfold copy_block, get_slide; cbn [gets bind]; by destruct (aslice _ d e).
Qed.

Lemma steps_copy_slow e : ∀ w d, steps (copy_slow e w d) (copy_slow e w d).
Proof.
  induction e as [|e IH]; intros w d; [apply steps_ret|].
  eapply steps_ext; [| |apply (steps_slide (λ sl, let? c := aget sl d in aset sl w c) (copy_slow e (w + 1) (d + 1)) (copy_slow e (w + 1) (d + 1)))];
    [| | |apply IH].
  3:{ intros l l' E. destruct (aget l d) as [c|]; [|done]. unfold zlen. by rewrite (aset_len _ _ _ _ E). }
  all: intros s; cbn [copy_slow]; unfold get_slide; cbn [gets bind]; by destruct (aget _ d) as [c|].
Qed.
#[local] Hint Resolve steps_free_tables steps_put_byte steps_copy_block steps_copy_slow : lockstep.

Lemma steps_copy_match n w d : steps (copy_match n w d) (copy_match n w d).
Proof. unfold copy_match. walk. Qed.

(** *** Codes and blocks *)

Lemma steps_needbits n bk : steps (needbits n bk) (needbits n bk).
Proof. unfold needbits. walk. Qed.

Lemma steps_masked n bk : steps (masked n bk) (masked n bk).
Proof. unfold masked. walk. Qed.
#[local] Hint Resolve steps_copy_match steps_needbits steps_masked : lockstep.

Lemma steps_lookup t nb bk : steps (lookup_code t nb bk) (lookup_code t nb bk).
Proof. unfold lookup_code, walk_tables. walk. Qed.

Lemma steps_base_of ent : steps (base_of ent) (base_of ent).
Proof. unfold base_of. walk. Qed.
#[local] Hint Resolve steps_lookup steps_base_of : lockstep.

Lemma steps_codes fuel tl td bl bd : steps (inflate_codes fuel tl td bl bd) (inflate_codes fuel tl td bl bd).
Proof. unfold inflate_codes, codes_step. walk. Qed.

Lemma steps_stored_bytes n : ∀ bk w, steps (stored_bytes n bk w) (stored_bytes n bk w).
Proof. induction n as [|n IH]; intros bk w; cbn [stored_bytes]; walk. Qed.

Lemma steps_border order : ∀ nb ll bk, steps (read_border order nb ll bk) (read_border order nb ll bk).
Proof. induction order as [|o order IH]; intros nb ll bk; cbn [read_border]; walk. Qed.
#[local] Hint Resolve steps_codes steps_stored_bytes steps_border : lockstep.

Lemma steps_lengths tl bl n ll bk : steps (read_lengths tl bl n ll bk) (read_lengths tl bl n ll bk).
Proof. unfold read_lengths, lengths_step, repeat_code. walk. Qed.
#[local] Hint Resolve steps_lengths : lockstep.

Lemma steps_block fuel : steps (inflate_block fuel) (inflate_block fuel).
Proof. unfold inflate_block, inflate_dynamic, inflate_fixed, inflate_stored. walk. Qed.
#[local] Hint Resolve steps_block : lockstep.

(** All blocks of a member: the same run in both environments. *)
Lemma steps_blocks fuel : steps (inflate_blocks fuel) (inflate_blocks fuel).
Proof. unfold inflate_blocks. walk. Qed.
End lockstep.
