(* ===== verification/Unzip.v ===== *)
(** * uncompress_kernel: from a gzip file to the kernel in memory

    The parts put together.  The file system ([BootFile], [BootTail]) gives the
    input buffer its blocks, zip/misc.c finds its way through the gzip header,
    inflate decodes the stream into windows, each window goes to memory
    ([Segments]), and zip/unzip.c compares length and checksum.  [Lockstep] moves
    the theorem on inflate to the loader's state, through [runs_like], the
    relation between that state and the lists of [refenv]. *)

From Stdlib Require Import Ascii String.
From S2P Require Import Prelude CString Vsprintf Cons Utils Aboot Bits Huft Inflate Deflate HuftSim Canon Dynamic Blocks Crc BootFs Gzip Ext2 Ext2Read Files Disk DiskLoad Segments Lockstep.

Open Scope Z_scope.
Open Scope list_scope.

(** ** Memory of the allocator *)

Definition heap_room {K} (u : ustate K) : Z := heap_top u - u64 (dest_addr u + pagesize u) - 1.

Lemma malloc_fits {K} `{ConsIO K} n (u : ustate K) :
  0 <= n → n + 8 <= heap_room u → heap_top u < 2 ^ 64 →
  ∃ p u', malloc n u = Ret p u' ∧ p mod 8 = 0 ∧ heap_top u - n - 7 <= p <= heap_top u - n ∧
    u' = UState (u_con u) (clusters u) (pagesize u) p (dest_addr u) ∧ heap_top u' = p ∧
    heap_room u - n - 8 <= heap_room u' ∧ heap_top u' < 2 ^ 64.
Proof.
  intros Hn Hr H64. unfold heap_room in Hr.
  pose proof (wrap_range 64 ltac:(lia) (dest_addr u + pagesize u)) as Hd.
  set (q := heap_top u - n - (heap_top u - n) mod 8).
  pose proof (Z.mod_pos_bound (heap_top u - n) 8 ltac:(lia)) as Hm.
  assert (malloc n u = Ret q (UState (u_con u) (clusters u) (pagesize u) q (dest_addr u))) as E.
  { unfold malloc. unfold heap_top in *. cbn [gets bind].
    destruct (Z.eqb_spec (free_mem_ptr u) 0) as [E0|E0];
      cbn [bind gets set_free_mem_ptr modify ret free_mem_ptr dest_addr pagesize u_con clusters];
      rewrite (wrap_small 64 (_ - n)), land_lnot7 by lia; fold q;
      rewrite (proj2 (Z.leb_gt q _)) by lia; reflexivity. }
  assert (q mod 8 = 0) as Hq8.
  { subst q. pose proof (Z.div_mod (heap_top u - n) 8 ltac:(lia)).
    replace (_ - _ - _ mod 8) with ((heap_top u - n) / 8 * 8) by lia. by apply Z.mod_mul. }
  set (u' := UState (u_con u) (clusters u) (pagesize u) q (dest_addr u)) in *.
  assert (heap_top u' = q) as Ht by (unfold heap_top; cbn; by rewrite (proj2 (Z.eqb_neq q 0)) by lia).
  exists q, u'. split; [exact E|]. split; [done|]. split; [lia|]. split; [done|]. split; [done|].
  unfold heap_room. rewrite Ht. cbn [dest_addr pagesize u']. lia.
Qed.

(** ** The output of a stream is bytes *)

Lemma lz_copy_bytes n dist : ∀ out out', lz_copy n dist out = Some out' → Forall is_byte out → Forall is_byte out'.
Proof.
  induction n as [|n IH]; intros out out' E HF; [by injection E as <-|]. cbn [lz_copy] in E.
  destruct (aget out (zlen out - dist)) as [c|] eqn:Ec; [|done]. apply (IH _ _ E). apply list.Forall_app. split; [done|].
  constructor; [|done]. apply aget_Some in Ec as [_ Ec]. by apply (Forall_lookup_1 _ _ _ _ HF Ec).
Qed.

Lemma block_codes_bytes fuel lit dist : ∀ bs out rest out',
  block_codes fuel lit dist bs out = Some (rest, out') → Forall is_byte out → Forall is_byte out'.
Proof.
  induction fuel as [|fuel IH]; intros bs out rest out' E HF; [done|]. cbn [block_codes] in E.
  destruct (lit bs) as [[v b1]|]; [|done]. cbn [mbind option_bind] in E.
  destruct (lit_symbol v) as [sym|] eqn:Es; [|done]. destruct sym as [c| |base extra]; cbn [mbind option_bind] in E.
  - apply (IH _ _ _ _ E). apply list.Forall_app. split; [done|]. constructor; [|done].
    unfold lit_symbol in Es. destruct (Z.ltb_spec v 0); [done|]. destruct (Z.ltb_spec v 256).
    + injection Es as ->. unfold is_byte. lia.
    + by destruct (v =? 256), (v <? 286).
  - by injection E as <- <-.
  - destruct (read_num extra b1) as [[x b2]|]; [|done]. cbn [mbind option_bind] in E.
    destruct (dist b2) as [[dv b3]|]; [|done]. cbn [mbind option_bind] in E.
    destruct (dist_symbol dv) as [[dbase dextra]|]; [|done]. cbn [mbind option_bind] in E.
    destruct (read_num dextra b3) as [[y b4]|]; [|done]. cbn [mbind option_bind] in E.
    destruct (dbase + y <=? zlen out); [|done].
    destruct (lz_copy _ _ out) as [out1|] eqn:El; [|done]. apply (IH _ _ _ _ E). by eapply lz_copy_bytes.
Qed.

Lemma read_bytes_bytes n : ∀ bs l rest, read_bytes n bs = Some (l, rest) → Forall is_byte l.
Proof.
  induction n as [|n IH]; intros bs l rest E; [by injection E as <- <-|]. cbn [read_bytes] in E.
  destruct (read_num 8 bs) as [[x b1]|] eqn:E1; [|done]. cbn [mbind option_bind] in E.
  destruct (read_bytes n b1) as [[l1 b2]|] eqn:E2; [|done]. injection E as <- <-.
  apply read_num_Some in E1 as (_&_&_&Hx&_); [|lia]. constructor; [exact Hx|by apply (IH _ _ _ E2)].
Qed.

Lemma stream_bytes n fuel : ∀ bs out rest out',
  stream n fuel bs out = Some (rest, out') → Forall is_byte out → Forall is_byte out'.
Proof.
  induction n as [|n IH]; intros bs out rest out' E HF; [done|]. cbn [stream] in E.
  destruct (read_num 1 bs) as [[e b1]|]; [|done]. cbn [mbind option_bind] in E.
  destruct (read_num 2 b1) as [[t b2]|]; [|done]. cbn [mbind option_bind] in E.
  destruct (block_body fuel t b2 out) as [[b3 out1]|] eqn:Eb; [|done]. cbn [mbind option_bind] in E.
  assert (Forall is_byte out1) as HF1.
  { unfold block_body in Eb. destruct (t =? 0).
    - unfold stored_block in Eb. destruct (read_num 16 (align b2)) as [[m1 b4]|]; [|done]. cbn [mbind option_bind] in Eb.
      destruct (read_num 16 b4) as [[m2 b5]|]; [|done]. cbn [mbind option_bind] in Eb. destruct (_ =? _); [|done].
      destruct (read_bytes _ b5) as [[l b6]|] eqn:El; [|done]. injection Eb as <- <-.
      apply list.Forall_app. split; [done|]. by eapply read_bytes_bytes.
    - destruct (t =? 1); [by eapply block_codes_bytes|]. destruct (t =? 2); [|done].
      unfold dynamic_block in Eb. destruct (read_trees b2) as [[[ll dl] b4]|]; [|done]. cbn [mbind option_bind] in Eb.
      destruct (usable ll && usable dl); [|done]. by eapply block_codes_bytes. }
  destruct (e =? 0); [by apply (IH _ _ _ _ E)|by injection E as <- <-].
Qed.

(** ** The headers are in the window *)

Lemma get_le_more n w l o x : get_le n w o = Some x → get_le n (w ++ l) o = Some x.
Proof.
  unfold get_le. destruct (aslice w o n) as [r|] eqn:E; [|done]. by rewrite (aslice_app_l _ l _ _ _ E).
Qed.

Lemma read_phdr_more w l o q : read_phdr w o = Some q → read_phdr (w ++ l) o = Some q.
Proof.
  unfold read_phdr. destruct (get_u32 w o) eqn:E1; [|done]. rewrite (get_le_more _ _ l _ _ E1). cbn [mbind option_bind].
  destruct (get_u64 w (o + 8)) eqn:E2; [|done]. rewrite (get_le_more _ _ l _ _ E2). cbn [mbind option_bind].
  destruct (get_u64 w (o + 16)) eqn:E3; [|done]. rewrite (get_le_more _ _ l _ _ E3). cbn [mbind option_bind].
  destruct (get_u64 w (o + 32)) eqn:E4; [|done]. rewrite (get_le_more _ _ l _ _ E4). cbn [mbind option_bind].
  destruct (get_u64 w (o + 40)) eqn:E5; [|done]. by rewrite (get_le_more _ _ l _ _ E5).
Qed.

Lemma phdr_table_more w l n : ∀ o ps, phdr_table w o n = Some ps → phdr_table (w ++ l) o n = Some ps.
Proof.
  induction n as [|n IH]; intros o ps E; [done|]. cbn [phdr_table] in *.
  destruct (read_phdr w o) as [q|] eqn:E1; [|done]. rewrite (read_phdr_more _ l _ _ E1). cbn [mbind option_bind] in *.
  destruct (phdr_table w (o + sizeof_phdr) n) as [qs|] eqn:E2; [|done]. by rewrite (IH _ _ E2).
Qed.

Lemma parse_elf_more w l x : parse_elf w = Some x → parse_elf (w ++ l) = Some x.
Proof.
  unfold parse_elf. destruct (aslice w 0 6) eqn:E0; [|done]. rewrite (aslice_app_l _ l _ _ _ E0). cbn [mbind option_bind].
  destruct (get_u16 w 16) eqn:E1; [|done]. rewrite (get_le_more _ _ l _ _ E1). cbn [mbind option_bind].
  destruct (get_u16 w 18) eqn:E2; [|done]. rewrite (get_le_more _ _ l _ _ E2). cbn [mbind option_bind].
  destruct (get_u64 w 24) eqn:E3; [|done]. rewrite (get_le_more _ _ l _ _ E3). cbn [mbind option_bind].
  destruct (get_u64 w 32) eqn:E4; [|done]. rewrite (get_le_more _ _ l _ _ E4). cbn [mbind option_bind].
  destruct (get_u16 w 56) eqn:E5; [|done]. rewrite (get_le_more _ _ l _ _ E5). cbn [mbind option_bind].
  destruct (phdr_table w _ _) eqn:E6; [|done]. by rewrite (phdr_table_more _ l _ _ _ E6).
Qed.

(** ** Reading the file *)

Section unzip.
Context {F K : Type} `{HO : ConsOut K} (fs : bootfs F K) (fd bs : Z) (content : list Z)
  `{HB : !BootFile fs fd bs content} `{HT : !BootTail fs fd bs content}.

(** The block size divides the buffer's, and block numbers fit an [int]. *)
Hypothesis block_fits : 0 < bs ∧ (bs | INBUFSIZ).
Hypothesis content_fits : zlen content + INBUFSIZ < 2 ^ 31.

(** The console and the open file work. *)
Definition file_works (g : gzip F K) : Prop :=
  file_ok (BootFile := HB) (fss (base g), sys (ab (base g))) ∧ input_fd g = fd.

(** The buffer holds the file from [b0] on. *)
Definition fetched (g : gzip F K) (b0 : Z) : Prop :=
  ∀ j, 0 <= j < INBUFSIZ → b0 + j < zlen content → aget (inbuf g) j = aget content (b0 + j).

(** [p] is the next byte of the file to be read. *)
Definition at_pos (g : gzip F K) (p : Z) : Prop :=
  file_works g ∧ zlen (inbuf g) = INBUFSIZ ∧ 0 <= p <= zlen content ∧
  ((p = 0 ∧ insize g = 0 ∧ inptr g = 0 ∧ block_number g = 0) ∨
   (insize g = INBUFSIZ ∧ 0 <= inptr g <= INBUFSIZ ∧ (p - inptr g) mod INBUFSIZ = 0 ∧ 0 <= p - inptr g ∧
    fetched g (p - inptr g) ∧
    (block_number g * bs = p - inptr g + INBUFSIZ ∨ zlen content <= p - inptr g + INBUFSIZ))).

(** Nothing has changed but the reading position and what goes with it. *)
Definition same_load (g g' : gzip F K) : Prop :=
  ab (base g') = set_sys (ab (base g)) (sys (ab (base g'))) ∧
  clusters (sys (ab (base g'))) = clusters (sys (ab (base g))) ∧ kmem (base g') = kmem (base g) ∧
  inbuf_at g' = inbuf_at g ∧ slide_at g' = slide_at g ∧ bytes_out g' = bytes_out g ∧ chunk g' = chunk g ∧
  file_offset g' = file_offset g ∧ crc g' = crc g ∧ pkzip g' = pkzip g.

#[export] Instance same_load_preorder : PreOrder same_load.
Proof.
  split.
  - intros g. split; [by destruct g as [[[]]]|]. by repeat split.
  - intros g1 g2 g3 (A1&?&?&?&?&?&?&?&?&?) (A2&?&?&?&?&?&?&?&?&?).
    split; [rewrite A2, A1; by destruct (ab (base g1))|]. repeat split; congruence.
Qed.

Definition only_read (g g' : gzip F K) : Prop :=
  same_load g g' ∧ slide g' = slide g ∧ wp g' = wp g ∧ method g' = method g ∧
  same_heap (sys (ab (base g))) (sys (ab (base g'))).

#[export] Instance only_read_preorder : PreOrder only_read.
Proof.
  split; [by intros g; repeat split; try apply same_load_preorder|].
  intros g1 g2 g3 (?&?&?&?&?) (?&?&?&?&?). split; [by etrans|]. do 3 (split; [congruence|]). by etrans.
Qed.

(** *** A block of the file in the buffer *)

Lemma blocks_of_buffer : Z.quot INBUFSIZ bs * bs = INBUFSIZ ∧ 0 < Z.quot INBUFSIZ bs ∧ Z.rem INBUFSIZ bs = 0.
Proof.
  destruct block_fits as [Hbs [q Hq]]. assert (0 < q) by (unfold INBUFSIZ in Hq; nia).
  rewrite Hq, Z.quot_mul, Z.rem_mul by lia. lia.
Qed.

Lemma fill_inbuf_ok g p c : file_works g → zlen (inbuf g) = INBUFSIZ → p mod INBUFSIZ = 0 → 0 <= p →
  block_number g * bs = p → aget content p = Some c →
  ∃ g', fill_inbuf fs g = Ret c g' ∧ at_pos g' (p + 1) ∧ only_read g g' ∧ inptr g' = 1.
Proof.
  intros [Hf Hfd] Hz Hp Hp0 Hblk Ec. apply aget_range in Ec as Hlt.
  destruct blocks_of_buffer as (Hn&Hn0&Hrem). destruct block_fits as [Hbs _].
  set (n := Z.quot INBUFSIZ bs) in *. set (k := block_number g) in *.
  assert (0 <= k ∧ k + n < 2 ^ 31) as [Hk Hkn] by nia.
  assert (n <= INBUFSIZ) as HnI by nia. unfold INBUFSIZ in HnI.
  assert (∃ r data f u, bread fs fd k n (inbuf g) (fss (base g), sys (ab (base g))) = Ret (r, data) (f, u) ∧
    zlen data = INBUFSIZ ∧ (∀ j, 0 <= j < INBUFSIZ → p + j < zlen content → aget data j = aget content (p + j)) ∧
    r <= INBUFSIZ ∧ (r = INBUFSIZ ∨ zlen content <= p + INBUFSIZ) ∧ file_ok (f, u) ∧
    same_heap (sys (ab (base g))) u) as (r&data&f&u&Er&Hzd&Hd&Hr&Hor&Hf'&Hu).
  { destruct (Z.le_gt_cases ((k + n) * bs) (zlen content)) as [Hle|Hgt].
    - destruct (file_bread _ _ k n (inbuf g) Hf) as (data&f&u&E&Hs&Hf'&Hu); [lia|lia|lia|unfold INBUFSIZ in *; lia|lia|].
      rewrite Hn in *. rewrite drop_ge, app_nil_r in E by (unfold zlen in Hz; lia).
      exists INBUFSIZ, data, f, u. split; [done|]. pose proof (aslice_len _ _ _ _ Hs). split; [done|].
      split; [|split; [lia|split; [by left|done]]]. intros j Hj _. rewrite (aget_aslice _ _ _ _ _ Hs) by lia. f_equal. lia.
    - destruct (file_tail _ _ k n (inbuf g) Hf) as (r&f&u&E&Hr&Hf'&Hu); [lia|lia|unfold INBUFSIZ in *; lia|lia|].
      rewrite Hblk in E. eexists r, _, f, u. split; [exact E|]. rewrite zlen_app, !zlen_drop.
      pose proof (Z.mul_add_distr_r k n bs). split; [lia|]. split; [|split; [lia|split; [right; lia|done]]].
      intros j Hj Hlt2. unfold aget. rewrite !decide_True by lia.
      rewrite lookup_app_l by (rewrite length_drop; unfold zlen in *; lia). rewrite lookup_drop. f_equal. lia. }
  pose proof (Hd 0 ltac:(unfold INBUFSIZ; lia) ltac:(lia)) as E0. rewrite Z.add_0_r, Ec in E0.
  set (g1 := set_buffers data (inbuf_at g) (slide g) (slide_at g)
    (set_base (Loader (set_sys (ab (base g)) u) f (kmem (base g))) g)).
  assert (∃ blk, fill_inbuf fs g = Ret c (set_input INBUFSIZ 1 blk g1) ∧
    (blk * bs = p + INBUFSIZ ∨ zlen content <= p + INBUFSIZ)) as (blk&E&Hblk').
  { unfold fill_inbuf. rewrite (bind_Ret _ _ g bs g) by (unfold gets; by rewrite (file_bsize _ _ Hf)).
    rewrite (proj2 (Z.eqb_neq bs 0)) by lia. rewrite Hrem. change (negb (0 =? 0)) with false. cbv iota. rewrite bind_ret.
    rewrite (bind_Ret (gets block_number) _ g k g eq_refl), (proj2 (Z.ltb_ge k 0)) by lia. rewrite bind_ret. cbv zeta.
    rewrite (bind_Ret (gets input_fd) _ g fd g) by (unfold gets; by rewrite Hfd).
    rewrite (bind_Ret (gets inbuf) _ g (inbuf g) g eq_refl). fold n.
    rewrite (bind_Ret (on_base _) _ g (r, data) (set_base (Loader (set_sys (ab (base g)) u) f (kmem (base g))) g))
      by (unfold on_base, on_fs; by rewrite Er).
    rewrite Hn. cbv iota beta. step_mod.
    change (set_buffers data _ _ _ _) with g1.
    destruct (Z.eqb_spec r INBUFSIZ) as [->|Hne]; cbn [negb].
    - exists (k + n). split; [|left; lia].
      do 2 step_mod.
      rewrite E0. cbn [lift_opt]. by rewrite (swrap_small 32) by lia.
    - exists (-1). split; [|by destruct Hor; [|right]]. rewrite (proj2 (Z.ltb_lt r INBUFSIZ)) by lia.
      do 2 step_mod.
      by rewrite E0. }
  eexists. split; [exact E|]. split; [|split; [|done]].
  - split; [split; [exact Hf'|exact Hfd]|]. split; [exact Hzd|]. split; [lia|]. right.
    cbn [set_input inptr insize block_number]. replace (p + 1 - 1) with p by lia.
    split; [done|]. split; [by vm_compute|]. split; [done|]. split; [lia|]. split; [exact Hd|exact Hblk'].
  - split; [|split; [done|split; [done|split; [done|exact Hu]]]].
    split; [done|]. split; [exact (proj1 Hu)|]. by repeat split.
Qed.

Lemma get_char_ok g p c : at_pos g p → aget content p = Some c →
  ∃ g', get_char fs g = Ret c g' ∧ at_pos g' (p + 1) ∧ only_read g g' ∧ 1 <= inptr g'.
Proof.
  intros (Hw&Hz&Hp&Hor) Ec. apply aget_range in Ec as Hlt. unfold get_char.
  rewrite (bind_Ret (gets inptr) _ g (inptr g) g eq_refl), (bind_Ret (gets insize) _ g (insize g) g eq_refl).
  assert (inptr g < insize g ∧ insize g = INBUFSIZ ∧ 0 <= inptr g ∧ (p - inptr g) mod INBUFSIZ = 0 ∧ 0 <= p - inptr g ∧
      fetched g (p - inptr g) ∧ (block_number g * bs = p - inptr g + INBUFSIZ ∨ zlen content <= p - inptr g + INBUFSIZ) ∨
    insize g <= inptr g ∧ p mod INBUFSIZ = 0 ∧ block_number g * bs = p) as [(Hin&Hs&Hi0&Hm&Hb0&Hfe&Hblk)|(Hin&Hm&Hblk)].
  { destruct Hor as [(->&->&->&->)|(Hs&Hi&Hm&Hb0&Hfe&Hblk)]; [by right|]. rewrite Hs.
    destruct (Z.lt_ge_cases (inptr g) INBUFSIZ); [left; repeat (split; [done || lia|]); done|]. right. assert (inptr g = INBUFSIZ) as Ei by lia.
    rewrite Ei in *. destruct Hblk; [|lia]. split; [done|]. split; [|lia].
    replace p with (p - INBUFSIZ + 1 * INBUFSIZ) by lia. by rewrite Z.mod_add. }
  - rewrite (proj2 (Z.ltb_lt _ _) Hin). rewrite (bind_Ret (gets inbuf) _ g (inbuf g) g eq_refl).
    pose proof (Hfe (inptr g) ltac:(lia) ltac:(lia)) as E. replace (p - inptr g + inptr g) with p in E by lia.
    rewrite E, Ec. cbn [lift_opt]. rewrite bind_ret. unfold INBUFSIZ in *. rewrite (wrap_small 32) by lia.
    eexists. split; [reflexivity|]. cbn [set_input inptr insize block_number]. split; [|split; [|lia]].
    + split; [exact Hw|]. split; [exact Hz|]. split; [lia|]. right. cbn [set_input inptr insize block_number].
      replace (p + 1 - (inptr g + 1)) with (p - inptr g) by lia. unfold INBUFSIZ. repeat (split; [done || lia|]). done.
    + split; [|done]. split; [by destruct g as [[[]]]|]. by repeat split.
  - rewrite (proj2 (Z.ltb_ge _ _) Hin). destruct (fill_inbuf_ok g p c Hw Hz Hm) as (g'&E&H1&H2&H3); [lia|done|done|].
    exists g'. split; [done|]. split; [done|]. split; [done|lia].
Qed.

(** *** Runs of bytes *)

(** Something has been read: a byte can be given back. *)
Definition reading (g : gzip F K) (p : Z) : Prop := at_pos g p ∧ 1 <= inptr g.

Lemma reading_range g p : reading g p → 0 <= p <= zlen content.
Proof. by intros [(_&_&?&_) _]. Qed.

(** [l] is in the file at [p]. *)
Definition has (p : Z) (l : list Z) : Prop := ∀ i c, aget l i = Some c → aget content (p + i) = Some c.

Lemma has_cons p c l : has p (c :: l) → aget content p = Some c ∧ has (p + 1) l.
Proof.
  intros Hh. split; [rewrite <- (Z.add_0_r p); by apply Hh|]. intros i x Hi. apply aget_range in Hi as Hr.
  rewrite <- Z.add_assoc. apply Hh. apply aget_Some in Hi as [? Hi]. apply aget_Some. split; [lia|].
  replace (Z.to_nat (1 + i)) with (S (Z.to_nat i)) by lia. done.
Qed.

Lemma has_app p l1 l2 : has p (l1 ++ l2) → has p l1 ∧ has (p + zlen l1) l2.
Proof.
  intros Hh. split; intros i x Hi; pose proof (aget_range _ _ _ Hi) as Hr.
  - apply Hh. apply aget_Some in Hi as [? Hi]. apply aget_Some. split; [done|]. by apply lookup_app_l_Some.
  - rewrite <- Z.add_assoc. apply Hh. rewrite Z.add_comm, aget_app_r by lia. done.
Qed.

Lemma has_end p l : 0 <= p <= zlen content → has p l → p + zlen l <= zlen content.
Proof.
  intros Hp Hh. destruct (decide (zlen l = 0)) as [->|]; [lia|]. pose proof (zlen_nonneg l).
  destruct (proj2 (aget_is_Some l (zlen l - 1))) as [x Hx]; [lia|]. apply Hh, aget_range in Hx. lia.
Qed.

Lemma get_chars_ok l : ∀ g p, at_pos g p → has p l →
  ∃ g', get_chars fs (length l) g = Ret l g' ∧ at_pos g' (p + zlen l) ∧ only_read g g'.
Proof.
  induction l as [|c l IH]; intros g p Hg Hh.
  { exists g. change (zlen []) with 0. by rewrite Z.add_0_r. }
  apply has_cons in Hh as [Hc Hh]. cbn [length get_chars].
  destruct (get_char_ok g p c Hg Hc) as (g1&E1&A1&O1&_). rewrite (bind_Ret _ _ _ _ _ E1).
  destruct (IH g1 (p + 1)) as (g2&E2&A2&O2); [done|done|]. rewrite (bind_Ret _ _ _ _ _ E2).
  exists g2. split; [done|]. rewrite zlen_cons, Z.add_assoc. split; [done|]. by etrans.
Qed.

Lemma skip_bytes_ok n : ∀ g p, reading g p → 0 <= n → p + n <= zlen content →
  ∃ g', skip_bytes fs n g = Ret tt g' ∧ reading g' (p + n) ∧ only_read g g'.
Proof.
  intros g p Hg Hn. unfold skip_bytes. rewrite <- (Z2Nat.id n Hn). generalize (Z.to_nat n). clear n Hn. intros n.
  rewrite Nat2Z.id. revert g p Hg. induction n as [|m IH]; intros g p Hg Hle.
  { exists g. rewrite Z.add_0_r. by repeat split; try apply Hg; try apply same_load_preorder. }
  pose proof Hg as [(_&_&Hp&_) _]. destruct (proj2 (aget_is_Some content p)) as [c Hc]; [lia|].
  destruct (get_char_ok g p c (proj1 Hg) Hc) as (g1&E1&A1&O1&R1). cbn [times].
  rewrite bind_bind, (bind_Ret _ _ _ _ _ E1), bind_ret.
  destruct (IH g1 (p + 1)) as (g2&E2&A2&O2); [done|lia|]. exists g2. split; [exact E2|].
  replace (p + Z.of_nat (S m)) with (p + 1 + Z.of_nat m) by lia. split; [done|]. by etrans.
Qed.

Lemma skip_name_ok l : ∀ fuel g p, reading g p → has p (l ++ [0]) → Forall (λ c, c ≠ 0) l → (length l < fuel)%nat →
  ∃ g', skip_name fs fuel g = Ret tt g' ∧ reading g' (p + zlen l + 1) ∧ only_read g g'.
Proof.
  induction l as [|c l IH]; intros fuel g p Hg Hh HF Hf; (destruct fuel as [|fuel]; [cbn in Hf; lia|]).
  - apply has_cons in Hh as [Hc _]. destruct (get_char_ok g p 0 (proj1 Hg) Hc) as (g1&E1&A1&O1&R1).
    exists g1. unfold skip_name. split; [apply loop_exit; by rewrite (bind_Ret _ _ _ _ _ E1)|].
    change (zlen []) with 0. by rewrite Z.add_0_r.
  - apply has_cons in Hh as [Hc Hh]. inversion HF as [|?? Hc0 HF']; subst.
    destruct (get_char_ok g p c (proj1 Hg) Hc) as (g1&E1&A1&O1&R1).
    destruct (IH fuel g1 (p + 1)) as (g2&E2&A2&O2); [done|done|done|cbn in Hf; lia|].
    exists g2. unfold skip_name. rewrite (loop_step _ _ _ _ tt g1).
    + split; [exact E2|]. rewrite zlen_cons. replace (p + (1 + zlen l) + 1) with (p + 1 + zlen l + 1) by lia.
      split; [done|]. by etrans.
    + rewrite (bind_Ret _ _ _ _ _ E1). by rewrite (proj2 (Z.eqb_neq c 0)).
Qed.

(** ** The gzip header *)

Definition optional (b : bool) (l : list Z) : list Z := if b then l else [].

(** RFC 1952: the time, extra flags and system are [six]; the fields that the
    flags ask for follow. *)
Definition gzip_header (flags : Z) (six extra name comment : list Z) : list Z :=
  [0x1f; 0x8b; DEFLATED; flags] ++ six ++
  optional (flag flags EXTRA_FIELD) (le_bytes 2 (zlen extra) ++ extra) ++
  optional (flag flags ORIG_NAME) (name ++ [0]) ++
  optional (flag flags COMMENT) (comment ++ [0]).

Definition header_ok (flags : Z) (six extra name comment : list Z) : Prop :=
  flag flags ENCRYPTED = false ∧ flag flags CONTINUATION = false ∧ flag flags RESERVED = false ∧
  zlen six = 6 ∧ zlen extra < 65536 ∧ Forall (λ c, c ≠ 0) name ∧ Forall (λ c, c ≠ 0) comment.

Lemma word_bytes n : 0 <= n < 65536 →
  ∃ lo hi, le_bytes 2 n = [lo; hi] ∧ Z.lor lo (Z.shiftl hi 8) = n.
Proof.
  intros Hn. exists (u8 n), (u8 (n / 256)). split; [done|]. unfold wrap. rewrite (Z.mod_small (n / 256)).
  2:{ split; [apply Z.div_pos; lia|]. apply Z.div_lt_upper_bound; lia. }
  change (2 ^ 8) with 256. pose proof (Z.mod_pos_bound n 256 ltac:(lia)). rewrite lor_shiftl_add by (try lia; done).
  change (2 ^ 8) with 256. pose proof (Z.div_mod n 256). lia.
Qed.

Lemma set_method_reading m g p : reading g p → reading (set_method m g) p.
Proof. done. Qed.

Definition method_read (m : Z) (g g' : gzip F K) : Prop :=
  same_load g g' ∧ slide g' = slide g ∧ wp g' = wp g ∧ method g' = m ∧ same_heap (sys (ab (base g))) (sys (ab (base g'))).

Lemma skip_extra_ok b extra g p : zlen extra < 65536 → reading g p → has p (optional b (le_bytes 2 (zlen extra) ++ extra)) →
  ∃ g', (if b then
      let! lo := get_char fs in let! hi := get_char fs in skip_bytes fs (Z.lor lo (Z.shiftl hi 8))
    else ret tt) g = Ret tt g' ∧
    reading g' (p + zlen (optional b (le_bytes 2 (zlen extra) ++ extra))) ∧ only_read g g'.
Proof.
  intros Hz Hg Hh. destruct b; cbn [optional] in *.
  2:{ exists g. rewrite Z.add_0_r. by repeat split; try apply Hg; try apply same_load_preorder. }
  pose proof (zlen_nonneg extra). destruct (word_bytes (zlen extra)) as (lo&hi&El&Ez); [lia|]. rewrite El in *.
  pose proof (has_end p _ (reading_range g p Hg) Hh) as Hend. rewrite zlen_app in *.
  change (zlen [lo; hi]) with 2 in *. apply has_cons in Hh as [B0 Hh]. apply has_cons in Hh as [B1 _].
  destruct (get_char_ok g _ _ (proj1 Hg) B0) as (g0&E0&A0&O0&R0). rewrite (bind_Ret _ _ _ _ _ E0).
  destruct (get_char_ok g0 _ _ A0 B1) as (g1&E1&A1&O1&R1). rewrite (bind_Ret _ _ _ _ _ E1), Ez.
  destruct (skip_bytes_ok (zlen extra) g1 (p + 1 + 1)) as (g2&E2&A2&O2); [done|lia|lia|].
  exists g2. split; [done|]. replace (p + (2 + zlen extra)) with (p + 1 + 1 + zlen extra) by lia. split; [done|].
  etrans; [exact O0|]. by etrans.
Qed.

Lemma skip_opt_name_ok b l fuel g p : Forall (λ c, c ≠ 0) l → (length l < fuel)%nat → reading g p →
  has p (optional b (l ++ [0])) →
  ∃ g', (if b then skip_name fs fuel else ret tt) g = Ret tt g' ∧ reading g' (p + zlen (optional b (l ++ [0]))) ∧ only_read g g'.
Proof.
  intros HF Hf Hg Hh. destruct b; cbn [optional] in *.
  - rewrite zlen_app, Z.add_assoc. by apply skip_name_ok.
  - exists g. rewrite Z.add_0_r. by repeat split; try apply Hg; try apply same_load_preorder.
Qed.

Lemma only_read_method g1 g2 m : only_read g1 g2 → method_read m g1 (set_method m g2).
Proof. intros (Hl&?&?&_&?). split; [exact Hl|]. do 3 (split; [done|]). done. Qed.

Lemma set_method_read g1 g2 m : only_read (set_method m g1) g2 → method_read m g1 g2.
Proof. intros (Hl&?&?&?&?). split; [exact Hl|]. do 3 (split; [done|]). done. Qed.

(** The method does not matter to a change of it. *)
Lemma method_read_first m n g1 g2 g3 : method_read n g1 g2 → method_read m g2 g3 → method_read m g1 g3.
Proof. intros (?&?&?&?&?) (?&?&?&?&?). split; [by etrans|]. do 3 (split; [congruence|]). by etrans. Qed.

Lemma method_read_trans m g1 g2 g3 : method_read m g1 g2 → only_read g2 g3 → method_read m g1 g3.
Proof. intros (?&?&?&?&?) (?&?&?&?&?). split; [by etrans|]. do 3 (split; [congruence|]). by etrans. Qed.

Lemma get_method_ok fuel flags six extra name comment g :
  at_pos g 0 → has 0 (gzip_header flags six extra name comment) → header_ok flags six extra name comment →
  (length name < fuel)%nat → (length comment < fuel)%nat →
  ∃ g', get_method fs fuel g = Ret DEFLATED g' ∧ reading g' (zlen (gzip_header flags six extra name comment)) ∧
    method_read DEFLATED g g'.
Proof.
  intros Hg Hh (F1&F2&F3&Hsix&Hex&Hn&Hc) Hfn Hfc.
  pose proof (has_end 0 _ ltac:(pose proof (zlen_nonneg content); lia) Hh) as Hend.
  unfold gzip_header in *. rewrite !zlen_app, Hsix in *.
  apply has_app in Hh as [H4 Hh]. apply has_app in Hh as [_ Hh]. rewrite Hsix in Hh.
  change (zlen [31; 139; DEFLATED; flags]) with 4 in *. apply has_app in Hh as [Hx Hh]. apply has_app in Hh as [Hy Hz].
  set (zx := zlen (optional (flag flags EXTRA_FIELD) _)) in *. set (zy := zlen (optional (flag flags ORIG_NAME) _)) in *.
  set (zc := zlen (optional (flag flags COMMENT) _)) in *. assert (0 <= zx ∧ 0 <= zy ∧ 0 <= zc) as (Zx&Zy&Zc) by (repeat split; apply zlen_nonneg).
  apply has_cons in H4 as [B0 H4]. apply has_cons in H4 as [B1 H4]. apply has_cons in H4 as [B2 H4]. apply has_cons in H4 as [B3 _].
  unfold get_method. destruct (get_char_ok g 0 _ Hg B0) as (g0&E0&A0&O0&R0). rewrite (bind_Ret _ _ _ _ _ E0).
  destruct (get_char_ok g0 _ _ A0 B1) as (g1&E1&A1&O1&R1). rewrite (bind_Ret _ _ _ _ _ E1). step_mod.
  change (bool_decide ([31; 139] = [31; 139]) || bool_decide ([31; 139] = [31; 158])) with true. cbv iota.
  set (g1' := set_method (-1) g1). rewrite bind_bind.
  destruct (get_char_ok g1' _ _ A1 B2) as (g2&E2&A2&O2&R2). rewrite (bind_Ret _ _ _ _ _ E2). rewrite bind_bind. step_mod.
  set (g2' := set_method DEFLATED g2). rewrite bind_bind.
  destruct (get_char_ok g2' _ _ A2 B3) as (g3&E3&A3&O3&R3). rewrite (bind_Ret _ _ _ _ _ E3).
  rewrite F1, F2, F3. rewrite bind_bind, bind_ret, bind_bind, bind_ret, bind_bind, bind_ret, bind_bind.
  destruct (skip_bytes_ok 6 g3 4) as (g4&E4&A4&O4); [by split|lia|lia|]. rewrite (bind_Ret _ _ _ _ _ E4), bind_bind.
  destruct (skip_extra_ok (flag flags EXTRA_FIELD) extra g4 (4 + 6)) as (g5&E5&A5&O5); [done|done|done|].
  rewrite (bind_Ret _ _ _ _ _ E5), bind_bind.
  destruct (skip_opt_name_ok (flag flags ORIG_NAME) name fuel g5 _ Hn Hfn A5) as (g6&E6&A6&O6); [done|].
  rewrite (bind_Ret _ _ _ _ _ E6).
  destruct (skip_opt_name_ok (flag flags COMMENT) comment fuel g6 _ Hc Hfc A6) as (g7&E7&A7&O7); [done|].
  rewrite (bind_Ret _ _ _ _ _ E7). exists g7.
  assert (method_read DEFLATED g g7) as Hm.
  { assert (only_read g2' g7) as O27 by (do 4 (etrans; [eassumption|]); done).
    eapply method_read_first; [|apply set_method_read, O27]. eapply method_read_first; [|apply set_method_read, O2].
    apply (method_read_trans (method g) _ g0); [|done]. destruct O0 as (?&?&?&?&?). by split. }
  split; [|split; [|done]]. { unfold gets. by rewrite (proj1 (proj2 (proj2 (proj2 Hm)))). }
  fold zx zy zc in A7. by rewrite !Z.add_assoc.
Qed.

(** ** Output *)

Section output.
Variables (h : elf_header) (c : segment) (out : list Z).

(** What the output is: a kernel with one segment, its headers in the first window. *)
Record kernel_output : Prop := {
  ko_parse : parse_elf (take (Z.to_nat WSIZE) out) = Some h;
  ko_fit : h_phoff h + h_phnum h * sizeof_phdr <= Z.min WSIZE (zlen out);
  ko_table : 0 <= h_phoff h ∧ 0 < h_phnum h;
  ko_bss : (length (bss_headers (h_table h)) <= 1)%nat;
  ko_segment : map segment_of (filter is_load (h_table h)) = [c];
  ko_size : zlen out < 2 ^ 32
}.

(** Before the first window: the loader can take this kernel. *)
Definition waiting (g : gzip F K) : Prop :=
  bytes_out g = 0 ∧ chunk g = 0 ∧ file_offset g = 0 ∧ Forall (mem_free (ab (base g))) (h_table h) ∧
  bss_size (ab (base g)) <= 0 ∧ segment_ok c (memory g).

(** Between windows, [done_] being flushed. *)
Definition progress (g : gzip F K) (done_ : list Z) : Prop :=
  (done_ = [] ∧ waiting g) ∨ (done_ ≠ [] ∧ flushed c g done_ ∧ entry_addr (ab (base g)) = h_entry h).

(** Memory for [n] bytes of tables, and for the chunks before the first window. *)
Definition chunks_room (done_ : list Z) : Z :=
  if bool_decide (done_ = []) then sizeof_segment * h_phnum h + 8 else 0.
Definition room_for (g : gzip F K) (n : Z) (done_ : list Z) : Prop :=
  n + chunks_room done_ <= heap_room (sys (ab (base g))) ∧ heap_top (sys (ab (base g))) < 2 ^ 64.

(** *** What does not depend on the reading position *)

Lemma at_pos_same g g' p : at_pos g p → fss (base g') = fss (base g) →
  io_ok (u_con (sys (ab (base g')))) → io_disk (u_con (sys (ab (base g')))) = io_disk (u_con (sys (ab (base g)))) →
  inbuf g' = inbuf g → insize g' = insize g → inptr g' = inptr g → block_number g' = block_number g →
  input_fd g' = input_fd g → at_pos g' p.
Proof.
  intros ([Hf Hfd]&Hp) E1 Hio Ed E2 E3 E4 E5 E6. unfold at_pos, file_works, fetched in *.
  rewrite E1, E2, E3, E4, E5, E6. split; [|done]. split; [|done]. by apply (file_heap _ _ _ Hf).
Qed.

Lemma reading_io g p : reading g p → io_ok (u_con (sys (ab (base g)))).
Proof. intros [([Hf _]&_) _]. by apply (file_io _ _ Hf). Qed.

Lemma reading_buffers g p : reading g p → zlen (slide g) = WSIZE → inbuf_at g = slide_at g + WSIZE → buffers_ok g.
Proof. intros [(_&Hz&_) _] ??. done. Qed.

Lemma progress_same g g' done_ : progress g done_ → same_load g g' → buffers_ok g' →
  io_ok (u_con (sys (ab (base g')))) → progress g' done_.
Proof.
  intros [[-> (H1&H2&H3&H4&H5&H6)]|(Hne&(_&F2&F3&_&F5&F6&F7&F8)&He)] (Ea&Ecl&Em&_&_&Eb&Ech&Efo&_) Hb Hio;
    unfold progress, waiting, flushed, the_chunks, memory in *; rewrite ?Eb, ?Ech, ?Efo, ?Em in *.
  - left. split; [done|]. do 3 (split; [done|]). rewrite Ea. split; [|done].
    eapply List.Forall_impl; [|exact H4]. intros q Hq Hl. unfold mem_free in *. cbn [sys set_sys].
    rewrite Ecl. by apply Hq.
  - right. split; [done|]. rewrite Ea. split; [|done]. split; [done|]. do 2 (split; [done|]). by split.
Qed.

(** *** A flush *)

Hypothesis HK : kernel_output.
Hypothesis Hbytes : Forall is_byte out.

Lemma first_header w l : w = take (Z.to_nat WSIZE) out → parse_elf (w ++ l) = Some h.
Proof. intros ->. apply parse_elf_more, HK. Qed.

Lemma first_len w : w = take (Z.to_nat WSIZE) out → zlen w = Z.min WSIZE (zlen out).
Proof. intros ->. rewrite zlen_take. pose proof (zlen_nonneg out). unfold WSIZE. lia. Qed.

(** What a flush keeps, whether or not it was the first. *)
Definition after_flush (g g' : gzip F K) : Prop :=
  (∀ p, at_pos g p → at_pos g' p) ∧ slide g' = slide g ∧ inbuf_at g' = inbuf_at g ∧ slide_at g' = slide_at g ∧
  inptr g' = inptr g ∧ pkzip g' = pkzip g.

Lemma kept_after g g0 g' : kept g0 g' → io_ok (u_con (sys (ab (base g')))) →
  io_disk (u_con (sys (ab (base g0)))) = io_disk (u_con (sys (ab (base g)))) → fss (base g0) = fss (base g) →
  inbuf g0 = inbuf g → insize g0 = insize g → inptr g0 = inptr g → block_number g0 = block_number g →
  input_fd g0 = input_fd g → slide g0 = slide g → inbuf_at g0 = inbuf_at g → slide_at g0 = slide_at g →
  pkzip g0 = pkzip g → after_flush g g'.
Proof.
  intros (K1&K2&K3&K4&K5&K6&K7&K8&_&K10&_&K12&K13&_) Hio ???????????.
  split; [|repeat split; congruence]. intros p Hp. apply (at_pos_same g); [done|congruence|done|congruence..].
Qed.

Lemma flush_ok g w done_ n p : progress g done_ → room_for g n done_ → buffers_ok g → at_pos g p → has_window g w →
  Forall is_byte w → zlen (done_ ++ w) < 2 ^ 62 → (done_ = [] → w = take (Z.to_nat WSIZE) out) → 0 <= n →
  ∃ g', flush_slide g = Ret tt g' ∧ progress g' (done_ ++ w) ∧ room_for g' n (done_ ++ w) ∧
    crc g' = crc_feed (crc g) w ∧ after_flush g g' ∧ wp g' = left_of c (zlen done_) (zlen w).
Proof.
  intros Hpr [Hr H64] Hb Hpos Hw HF H62 Hfirst Hn. pose proof Hw as (_&Hw0&Htk).
  assert (io_ok (u_con (sys (ab (base g))))) as Hio by (destruct Hpos as [[Hf _] _]; by apply (file_io _ _ Hf)).
  assert (done_ ++ w ≠ []) as Hne by (intros [_ ->]%app_nil; by destruct Hw0).
  unfold chunks_room in *. unfold room_for, chunks_room. rewrite (bool_decide_eq_false_2 _ Hne).
  destruct Hpr as [[-> (W1&W2&W3&W4&W5&W6)]|(Hd&Hfl&He)].
  - rewrite bool_decide_eq_true_2 in Hr by done. cbn [app] in *. specialize (Hfirst eq_refl).
    destruct (ko_table HK) as [Hpo Hpn].
    destruct (malloc_fits (sizeof_segment * h_phnum h) (sys (ab (base g)))) as (q&u&Em&_&_&Eu&_&Hru&H64'); [unfold sizeof_segment; lia|lia|done|].
    destruct (is_loadable_elf_ok (from_window g) (zlen w) h (ab (base g)) u q) as (p0&_&Ea); try done.
    { unfold from_window. rewrite <- (take_drop (length w) (slide g)), Htk, <- app_assoc. by apply first_header. }
    { rewrite (wrap_small 32) by (unfold WSIZE in Hw0; lia). rewrite (first_len w Hfirst). apply HK. }
    { apply HK. }
    set (a := accepted h p0 u (ab (base g))) in *.
    destruct (flush_first_ok c g w a) as (g'&E&Hfl&Ec&Hk&Hwp'); try done.
    { exact (ko_segment HK). }
    { cbn. by rewrite (ko_segment HK). }
    { cbn. by rewrite Eu. }
    exists g'. split; [done|]. split; [right; split; [done|split; [done|by apply Hk]]|].
    assert (same_heap u (sys (ab (base g')))) as (S1&S2&S3&S4) by (apply Hk).
    split; [|split; [done|]].
    + unfold heap_room, heap_top in *. rewrite S1, S2, S3, S4. lia.
    + split; [|exact Hwp']. eapply kept_after; [exact Hk|apply Hfl|cbn; by rewrite Eu|done..].
  - rewrite bool_decide_eq_false_2 in Hr by done.
    destruct (flush_next_ok c g done_ w) as (g'&E&Hfl'&Ec&Hk&Hwp'); try done.
    { destruct done_; [done|]. rewrite zlen_cons. pose proof (zlen_nonneg done_). lia. }
    exists g'. split; [done|]. split; [right; split; [done|split; [done|]]|].
    { rewrite <- He. apply Hk. }
    assert (same_heap (sys (ab (base g))) (sys (ab (base g')))) as (S1&S2&S3&S4) by (apply Hk).
    split; [|split; [done|]].
    + unfold heap_room, heap_top in *. rewrite S1, S2, S3, S4. lia.
    + split; [|exact Hwp']. by eapply kept_after; [exact Hk|apply Hfl'|..].
Qed.

(** ** inflate on the loader's state *)

#[local] Instance this_env : InflateEnv (gzip F K) := gzip_env fs.

Definition left_at (done_ : list Z) (n : Z) : Z := left_of c (zlen done_) n.

Record runs_like (s1 : refenv) (g : gzip F K) : Prop := {
  rl_window : slide g = re_window s1;
  rl_size : zlen (slide g) = WSIZE;
  rl_outcnt : wp g = re_outcnt s1;
  rl_pos : ∃ p, reading g p ∧ re_input s1 = drop (Z.to_nat p) content;
  rl_room : 0 <= re_room s1 ∧ room_for g (re_room s1) (re_output s1);
  rl_place : inbuf_at g = slide_at g + WSIZE;
  rl_crc : crc g = crc_feed 0xffffffff (re_output s1);
  rl_pkzip : pkzip g = 0;
  rl_output : progress g (re_output s1)
}.

Lemma runs_like_set_window s1 g l : runs_like s1 g → zlen l = WSIZE →
  runs_like (set_window (InflateEnv := left_env left_at) l s1) (set_buffers (inbuf g) (inbuf_at g) l (slide_at g) g).
Proof.
  intros [R1 R2 R3 (p&Rp&Ri) R4 R5 R6 R7 R8] Hl. split; try done; [by exists p|].
  apply (progress_same g); [done|by destruct g as [[[]]]| |by apply (reading_io _ _ Rp)].
  destruct (reading_buffers g p Rp R2 R5) as (_&?&?). by split.
Qed.

Lemma runs_like_set_outcnt s1 g n : runs_like s1 g → runs_like (set_outcnt (InflateEnv := left_env left_at) n s1) (set_wp n g).
Proof. intros [R1 R2 R3 (p&Rp&Ri) R4 R5 R6 R7 R8]. split; try done. by exists p. Qed.

Lemma room_read g g' n d : room_for g n d → same_heap (sys (ab (base g))) (sys (ab (base g'))) → room_for g' n d.
Proof. unfold room_for, heap_room, heap_top. by intros ? (->&->&->&->). Qed.

Lemma runs_like_get s1 g x rest : runs_like s1 g → re_input s1 = x :: rest →
  ∃ g', get_char fs g = Ret x g' ∧ runs_like (re_next s1 x rest) g'.
Proof.
  intros [R1 R2 R3 (p&Rp&Ri) [R4 R4'] R5 R6 R7 R8] Ex. rewrite Ex in Ri.
  pose proof (reading_range _ _ Rp) as Hp0.
  assert (aget content p = Some x) as Hx.
  { apply aget_Some. split; [lia|]. rewrite <- (Nat.add_0_r (Z.to_nat p)), <- lookup_drop, <- Ri. done. }
  destruct (get_char_ok g p x (proj1 Rp) Hx) as (g'&E&A&O&I). exists g'. split; [done|].
  destruct O as (L&O1&O2&_&O4). pose proof L as (_&_&_&L1&L2&_&_&_&L3&L4).
  assert (reading g' (p + 1)) as Rp' by done.
  split; cbn [re_next re_window re_outcnt re_output re_room re_input]; try congruence.
  - exists (p + 1). split; [done|]. cbn. replace (Z.to_nat (p + 1)) with (Z.to_nat p + 1)%nat by lia.
    by rewrite <- drop_drop, <- Ri.
  - split; [done|]. by apply (room_read g).
  - apply (progress_same g); [done|done| |by apply (reading_io _ _ Rp')].
    apply (reading_buffers g' (p + 1)); [done|congruence|congruence].
Qed.

Lemma runs_like_malloc s1 g n : runs_like s1 g → 0 <= n → n + 8 <= re_room s1 →
  ∃ q g', gz_malloc n g = Ret q g' ∧ runs_like (re_allocated s1 n) g'.
Proof.
  intros [R1 R2 R3 (p&Rp&Ri) [R4 [R4' R4'']] R5 R6 R7 R8] Hn Hr.
  assert (0 <= chunks_room (re_output s1)) as Hc.
  { unfold chunks_room, sizeof_segment. pose proof (ko_table HK). case_bool_decide; lia. }
  destruct (malloc_fits n (sys (ab (base g)))) as (q&u&E&_&_&Eu&_&Hru&H64); [done|lia|done|].
  set (g' := set_base (Loader (set_sys (ab (base g)) u) (fss (base g)) (kmem (base g))) g).
  assert (reading g' p) as Rp'.
  { split; [|exact (proj2 Rp)]. apply (at_pos_same g); [apply Rp|done| |cbn; by rewrite Eu|done..].
    cbn. rewrite Eu. by apply (reading_io _ _ Rp). }
  exists q, g'. split.
  { unfold gz_malloc, on_base, on_ab, on_sys. by rewrite E. }
  split; try done; [by exists p| |].
  - cbn. split; [lia|]. unfold room_for. cbn. split; [lia|done].
  - apply (progress_same g); [done| | |by apply (reading_io _ _ Rp')].
    + split; [done|]. split; [cbn; by rewrite Eu|]. by repeat split.
    + by apply (reading_buffers g' p).
Qed.

Lemma prefix_bytes l : l `prefix_of` out → Forall is_byte l.
Proof. intros [k Ek]. pose proof Hbytes as HF. rewrite Ek in HF. by apply list.Forall_app in HF as [? _]. Qed.

Lemma prefix_size l : l `prefix_of` out → zlen l < 2 ^ 32.
Proof. intros [k Ek]. pose proof (ko_size HK) as Hz. rewrite Ek, zlen_app in Hz. pose proof (zlen_nonneg k). lia. Qed.

Lemma runs_like_flush s1 g : runs_like s1 g → re_outcnt s1 = WSIZE → re_output s1 ++ re_window s1 `prefix_of` out →
  ∃ g', flush_slide g = Ret tt g' ∧ runs_like (re_flushed left_at s1) g'.
Proof.
  intros [R1 R2 R3 (p&Rp&Ri) [R4 R4'] R5 R6 R7 R8] Ew Hpre.
  set (w := slide g). assert (zlen w = WSIZE) as Hzw by done.
  assert (take (length w) w = w) as Htk by (by apply take_ge).
  assert (Forall is_byte w) as HF.
  { apply prefix_bytes in Hpre. rewrite <- R1 in Hpre. by apply list.Forall_app in Hpre as [_ ?]. }
  destruct (flush_ok g w (re_output s1) (re_room s1) p) as (g'&E&P'&R'&C'&(A1&A2&A3&A4&A5&A6)&W'); try done.
  { by apply (reading_buffers g p). }
  { apply Rp. }
  { split; [congruence|]. split; [unfold WSIZE in *; lia|done]. }
  { apply prefix_size in Hpre. rewrite <- R1 in Hpre. fold w in Hpre. lia. }
  { intros E0. rewrite E0 in Hpre. cbn in Hpre. destruct Hpre as [k ->]. rewrite <- R1. fold w.
    rewrite take_app_le by (unfold zlen in Hzw; lia). symmetry. apply take_ge. unfold zlen in Hzw. lia. }
  exists g'. split; [done|].
  assert (re_output s1 ++ w = re_output (re_flushed left_at s1)) as Eo.
  { cbn. f_equal. rewrite Ew, <- R1. fold w. symmetry. apply take_ge. unfold zlen in Hzw. lia. }
  rewrite Eo in *. split; cbn [re_flushed re_window re_outcnt re_room re_input]; try congruence; try done.
  - rewrite W', Ew. by rewrite Hzw.
  - exists p. split; [|done]. split; [by apply A1, Rp|]. rewrite A5. apply Rp.
  - rewrite C', R6, <- crc_feed_app. by rewrite Eo.
Qed.

#[local] Instance loader_lockstep : Lockstep left_at runs_like out.
Proof.
  split.
  - by intros s1 s2 [].
  - intros s1 s2 []. congruence.
  - by intros s1 s2 [].
  - intros s1 s2 l. apply runs_like_set_window.
  - intros s1 s2 n. apply runs_like_set_outcnt.
  - intros s1 s2 x rest. apply runs_like_get.
  - intros s1 s2. apply runs_like_flush.
  - intros s1 s2 n. apply runs_like_malloc.
Qed.

(** *** Giving the lookahead back *)

Lemma undo_ok fuel : ∀ k (s : ist (gzip F K)), (Z.to_nat k < fuel)%nat → 0 <= k →
  k / 8 <= inptr (env s) → inptr (env s) < 2 ^ 32 →
  ∃ s', loop fuel (λ k,
      if 8 <=? k then on_env unget_byte ;;; ret (inl (k - 8))
      else
        modify (λ s, IState (env s) (bb s) k (hufts s) (heap s)) ;;;
        ret (inr tt)) k s = Ret tt s' ∧
    env s' = set_input (insize (env s)) (inptr (env s) - k / 8) (block_number (env s)) (env s).
Proof.
  induction fuel as [|fuel IH]; intros k s Hf Hk Hp H32; [lia|]. destruct (Z.leb_spec 8 k) as [H8|H8].
  - assert (k / 8 = (k - 8) / 8 + 1) as Ek.
    { replace k with (k - 8 + 1 * 8) at 1 by lia. by rewrite Z.div_add. }
    pose proof (Z.div_pos (k - 8) 8 ltac:(lia) ltac:(lia)).
    set (s1 := IState (set_input (insize (env s)) (u32 (inptr (env s) - 1)) (block_number (env s)) (env s))
      (bb s) (bk s) (hufts s) (heap s)).
    destruct (IH (k - 8) s1) as (s'&E&He); [lia|lia|cbn; rewrite (wrap_small 32) by lia; lia|cbn; rewrite (wrap_small 32) by lia; lia|].
    exists s'. rewrite (loop_step _ _ _ _ (k - 8) s1).
    + split; [exact E|]. rewrite He, Ek. subst s1. cbn [env inptr insize block_number set_input].
      rewrite (wrap_small 32) by lia. unfold set_input. cbn. f_equal. lia.
    + by rewrite (proj2 (Z.leb_le 8 k)).
  - eexists. split.
    + apply loop_exit. by rewrite (proj2 (Z.leb_gt 8 k)).
    + rewrite Z.div_small by lia. cbn. rewrite Z.sub_0_r. by destruct (env s).
Qed.

(** Going back within the buffer. *)
Lemma at_pos_back g p j : reading g p → 0 <= j <= inptr g →
  at_pos (set_input (insize g) (inptr g - j) (block_number g) g) (p - j).
Proof.
  intros [(Hw&Hz&Hp&Hor) H1] Hj. destruct Hor as [(_&_&E&_)|(Hs&Hi&Hm&Hb0&Hfe&Hblk)]; [lia|].
  split; [exact Hw|]. split; [exact Hz|]. split; [lia|]. right. cbn [set_input insize inptr block_number].
  replace (p - j - (inptr g - j)) with (p - inptr g) by lia. repeat (split; [done || lia|]). done.
Qed.

(** *** The whole stream *)

Lemma out_nonempty : 0 < zlen out.
Proof. pose proof (ko_fit HK). pose proof (ko_table HK). unfold sizeof_phdr in *. lia. Qed.

Lemma blocks_on_loader n fuel g p rest :
  reading g p → zlen (slide g) = WSIZE → inbuf_at g = slide_at g + WSIZE → pkzip g = 0 → crc g = 0xffffffff →
  waiting g → room_for g (block_room * Z.of_nat n) [] → Forall is_byte content →
  stream n fuel (fbits (drop (Z.to_nat p) content)) [] = Some (rest, out) → (n <= fuel)%nat → 24 <= zlen rest →
  ∃ (e2 : refenv) (s2 : ist (gzip F K)) q,
    inflate_blocks fuel (IState (set_wp 0 g) 0 0 0 []) = Ret 0 s2 ∧ runs_like e2 (env s2) ∧ reading (env s2) q ∧
    zlen rest = bk s2 + 8 * (zlen content - q) ∧ 0 <= bk s2 <= 15 ∧ 0 <= wp (env s2) < WSIZE ∧
    re_output e2 ++ take (Z.to_nat (wp (env s2))) (slide (env s2)) = out.
Proof.
  intros Rp Hsz Hpl Hpk Hcrc Hwait Hroom HF E Hn H24.
  set (e1 := RefEnv (drop (Z.to_nat p) content) [] [] (block_room * Z.of_nat n) (slide g) 0).
  set (s1 := IState e1 0 0 0 [] : ist refenv).
  assert (at_block (HL := left_laws left_at) (drop (Z.to_nat p) content) [] s1 (fbits (drop (Z.to_nat p) content)) []) as Hat.
  { unfold at_block, reads, win, hist. cbn. split; [|split; [lia|split; [|unfold WSIZE; lia]]].
    - split; [done|]. split; [by apply Forall_drop|]. split; [lia|]. split; [lia|]. split; [done|]. by exists [].
    - split; [|done]. split; [done|]. split; [unfold WSIZE; lia|]. intros dist Hd Hdo. change (zlen []) with 0 in Hdo. lia. }
  destruct (inflate_blocks_ok (HL := left_laws left_at) _ _ n fuel fuel _ _ _ _ s1 E Hn H24 Hat) as (s2&F2&(Hr&Hk&Hwin&Hw)).
  { cbn. lia. }
  destruct (steps_blocks left_at runs_like out fuel s1 0 s2 F2) as [_ HS].
  destruct Hwin as [_ Ho]. cbn [app] in Ho.
  destruct (HS (IState (set_wp 0 g) 0 0 0 [])) as (s2'&F2'&(HR&_&Ek&_)).
  - split; [|by repeat split]. cbn. split; try done; [by exists p| |by left].
    cbn. split; [|done]. pose proof block_room_fixed. nia.
  - cbn in Ho. rewrite <- Ho. by eexists.
  - pose proof HR as [R1 R2 R3 (q&Rq&Ri) _ _ _ _ _]. exists (env s2), s2', q. split; [exact F2'|].
    split; [done|]. split; [done|]. rewrite Ek, R1, R3. apply reads_length in Hr as Hlen.
    destruct Hr as (_&_&_&Hk0&_). cbn in Hlen, Hk0, Ho, Hw. pose proof (reading_range _ _ Rq).
    rewrite Ri, zlen_drop in Hlen. split; [lia|]. split; [lia|]. done.
Qed.

(** All of the output has been flushed, and the input is at [e]. *)
Definition unpacked (g : gzip F K) (e : Z) : Prop :=
  at_pos g e ∧ flushed c g out ∧ entry_addr (ab (base g)) = h_entry h ∧ crc g = crc_feed 0xffffffff out ∧ pkzip g = 0.

(** The last window, if there is one. *)
Lemma flush_last done_ n g w e : at_pos g e → zlen (slide g) = WSIZE → inbuf_at g = slide_at g + WSIZE →
  crc g = crc_feed 0xffffffff done_ → pkzip g = 0 → progress g done_ → 0 <= n → room_for g n done_ →
  wp g = w → 0 <= w < WSIZE → done_ ++ take (Z.to_nat w) (slide g) = out →
  ∃ g', flush_slide g = Ret tt g' ∧ unpacked g' e.
Proof.
  intros He R2 R5 R6 R7 R8 Hn R4 Hwp Hw Ho. pose proof out_nonempty as Hne.
  destruct (decide (w = 0)) as [->|Hw0].
  - exists g. split; [unfold flush_slide; step_get; by rewrite Hwp|].
    change (Z.to_nat 0) with 0%nat in Ho. rewrite take_0, app_nil_r in Ho. rewrite Ho in *.
    destruct R8 as [[E0 _]|(_&Hfl&Hen)]; [rewrite E0 in Hne; change (zlen []) with 0 in Hne; lia|]. split; [done|]. split; [done|]. by split.
  - set (v := take (Z.to_nat w) (slide g)) in *.
    assert (zlen v = w) as Hzv by (unfold v; rewrite zlen_take; lia).
    assert (Forall is_byte v) as HF.
    { pose proof Hbytes as HF. rewrite <- Ho in HF. by apply list.Forall_app in HF as [_ ?]. }
    pose proof (ko_size HK) as H32.
    destruct (flush_ok g v done_ n e) as (g'&E&P'&_&C'&(A1&A2&A3&A4&A5&A6)&_); try done.
    + destruct He as (_&Hz&_). by split.
    + split; [congruence|]. split; [lia|]. unfold v. rewrite length_take. f_equal. unfold zlen in R2. lia.
    + rewrite Ho. lia.
    + intros E0. rewrite E0 in Ho. cbn in Ho. rewrite <- Ho. symmetry. apply take_ge. unfold zlen in Hzv. lia.
    + exists g'. split; [done|]. rewrite Ho in P'. destruct P' as [[E0 _]|(_&Hfl&Hen)].
      { rewrite E0 in Hne. change (zlen []) with 0 in Hne. lia. }
      split; [by apply A1|]. split; [done|]. split; [done|]. rewrite C', R6, <- crc_feed_app, Ho. split; [done|congruence].
Qed.

Lemma run_inflate_ok n fuel g p rest e :
  reading g p → zlen (slide g) = WSIZE → inbuf_at g = slide_at g + WSIZE → pkzip g = 0 → crc g = 0xffffffff →
  waiting g → room_for g (block_room * Z.of_nat n) [] → Forall is_byte content →
  stream n fuel (fbits (drop (Z.to_nat p) content)) [] = Some (rest, out) → (n <= fuel)%nat → 24 <= zlen rest →
  zlen rest / 8 = zlen content - e →
  ∃ g', run_inflate fs fuel g = Ret 0 g' ∧ unpacked g' e.
Proof.
  intros Rp Hsz Hpl Hpk Hcrc Hwait Hroom HF E Hn H24 He.
  destruct (blocks_on_loader n fuel g p rest) as (e2&s2&q&E2&HR&Rq&Hlen&Hk&Hw&Ho); try done.
  set (j := bk s2 / 8). assert (0 <= j <= 1) as Hj.
  { subst j. split; [apply Z.div_pos; lia|]. assert (bk s2 / 8 < 2); [|lia]. apply Z.div_lt_upper_bound; lia. }
  assert (e = q - j) as ->.
  { rewrite Hlen, Z.mul_comm, Z.div_add in He by lia. fold j in He. lia. }
  assert (j <= inptr (env s2)) as Hjp by (destruct Rq as [_ ?]; lia).
  assert (inptr (env s2) < 2 ^ 32) as H32.
  { destruct Rq as [(_&_&_&Hor) _]. unfold INBUFSIZ in *. lia. }
  destruct (undo_ok (S (Z.to_nat (bk s2))) (bk s2) s2) as (s3&E3&H3); [lia|lia|exact Hjp|done|]. fold j in H3.
  set (g3 := env s3) in *.
  assert (at_pos g3 (q - j)) as Hat by (rewrite H3; apply at_pos_back; [done|lia]).
  destruct HR as [R1 R2 R3 _ [R4 R4'] R5 R6 R7 R8].
  destruct (flush_last (re_output e2) (re_room e2) (set_wp (wp g3) g3) (wp g3) (q - j)) as (g'&E4&Hun); try done;
    try (rewrite H3; done).
  exists g'. split; [|done]. unfold run_inflate, inflate.
  set (s0 := IState (set_wp 0 g) 0 0 0 []) in *.
  assert (put_wp 0 (IState g 0 0 0 []) = Ret tt s0) as P0 by done. rewrite (bind_Ret _ _ _ _ _ P0).
  assert (put_globals (0, 0) s0 = Ret tt s0) as P1 by done. rewrite (bind_Ret _ _ _ _ _ P1).
  rewrite (bind_Ret _ _ _ _ _ E2). change (negb (0 =? 0)) with false. cbv iota.
  assert (undo_lookahead s2 = Ret tt s3) as P2 by exact E3. rewrite (bind_Ret _ _ _ _ _ P2).
  assert (get_wp s3 = Ret (wp g3) s3) as P3 by done. rewrite (bind_Ret _ _ _ _ _ P3).
  unfold flush_output. rewrite bind_bind.
  set (s4 := IState (set_wp (wp g3) g3) (bb s3) (bk s3) (hufts s3) (heap s3)).
  assert (put_wp (wp g3) s3 = Ret tt s4) as P4 by done. rewrite (bind_Ret _ _ _ _ _ P4).
  pose proof (on_env_Ret flush_slide s4 _ _ E4) as P5. by rewrite (bind_Ret _ _ _ _ _ P5).
Qed.

(** ** The member, and the kernel *)

Definition gzip_trailer : list Z := le_bytes 4 (crc32 out) ++ le_bytes 4 (zlen out).

Lemma trailer_fields : get_u32 gzip_trailer 0 = Some (crc32 out) ∧ get_u32 gzip_trailer 4 = Some (zlen out).
Proof.
  pose proof (zlen_nonneg out). pose proof (ko_size HK).
  assert (0 <= crc32 out < 2 ^ 32) as Hc.
  { unfold crc32. apply lxor_range; [lia| |lia]. apply feed_range; [lia|exact Hbytes]. }
  unfold gzip_trailer, get_le. split.
  - rewrite <- (app_nil_l (le_bytes 4 (crc32 out) ++ _)), aslice_app_mid by done.
    cbn [fmap option_fmap option_map]. rewrite le_val_le_bytes. f_equal. by apply Z.mod_small.
  - rewrite <- (app_nil_r (le_bytes 4 (zlen out))), aslice_app_mid by done.
    cbn [fmap option_fmap option_map]. rewrite le_val_le_bytes. f_equal. apply Z.mod_small. change (256 ^ Z.of_nat 4) with (2 ^ 32). lia.
Qed.

Lemma unzip_ok n fuel g p rest e :
  reading g p → zlen (slide g) = WSIZE → inbuf_at g = slide_at g + WSIZE → pkzip g = 0 → method g = DEFLATED →
  waiting g → room_for g (block_room * Z.of_nat n) [] → Forall is_byte content →
  stream n fuel (fbits (drop (Z.to_nat p) content)) [] = Some (rest, out) → (n <= fuel)%nat → 24 <= zlen rest →
  zlen rest / 8 = zlen content - e → has e gzip_trailer →
  ∃ g', unzip fs fuel g = Ret tt g' ∧ flushed c g' out ∧ entry_addr (ab (base g')) = h_entry h.
Proof.
  intros Rp Hsz Hpl Hpk Hme Hwait Hroom HF E Hn H24 He Htr. pose proof trailer_fields as [T0 T4].
  unfold unzip. set (g1 := set_crc 0xffffffff g).
  rewrite (bind_Ret (do_updcrc None) _ g 0 g1 eq_refl).
  do 2 step_get. change (pkzip g1) with (pkzip g). rewrite Hpk. change (negb (0 =? 0) && _) with false. cbv iota.
  rewrite bind_ret. step_get. change (method g1) with (method g). rewrite Hme. change (DEFLATED =? DEFLATED) with true. cbv iota.
  destruct (run_inflate_ok n fuel g1 p rest e) as (g2&E2&(Hat&Hfl&Hen&Hcrc&Hpk2)); try done.
  rewrite bind_bind, (bind_Ret _ _ _ _ _ E2). change (0 =? 3) with false. change (negb (0 =? 0)) with false. cbv iota.
  rewrite bind_ret. change (0 =? 0) with true. cbv iota. rewrite bind_bind. change 8%nat with (length gzip_trailer).
  destruct (get_chars_ok gzip_trailer g2 e Hat Htr) as (g3&E3&Hat3&O3). rewrite (bind_Ret _ _ _ _ _ E3).
  unfold read_le. rewrite T0, T4. cbn [lift_opt]. rewrite bind_bind, bind_ret, bind_bind, bind_ret, bind_ret.
  pose proof (proj1 O3) as (_&_&_&_&_&Hbo&_&_&Hcr&_).
  set (g4 := set_crc (crc g3) g3).
  assert (do_updcrc (Some []) g3 = Ret (crc32 out) g4) as E4.
  { unfold do_updcrc, crc32. step_get. rewrite <- Hcrc, <- Hcr. reflexivity. }
  rewrite (bind_Ret _ _ _ _ _ E4), Z.eqb_refl. cbn [negb]. rewrite bind_ret. step_get.
  change (bytes_out g4) with (bytes_out g3). rewrite Hbo, (proj1 (proj2 (proj2 (proj2 (proj2 (proj2 Hfl)))))), Z.eqb_refl. cbn [negb].
  rewrite bind_ret. do 2 step_get. change (negb (0 =? 0) && _) with false. cbv iota. rewrite bind_ret.
  eexists. split; [reflexivity|].
  destruct (progress_same g2 g3 out) as [[E0 _]|(_&Hfl3&Hen3)]; [right; split; [|done]|apply O3| |by destruct Hat3 as [[Hf _] _]; apply (file_io _ _ Hf)|..].
  - intros E0. pose proof out_nonempty as Ho. rewrite E0 in Ho. change (zlen []) with 0 in Ho. lia.
  - destruct Hfl as ((B1&B2&B3)&_), O3 as ((_&_&_&L1&L2&_)&S1&_). split; [congruence|]. split; [apply Hat3|congruence].
  - pose proof out_nonempty as Ho. rewrite E0 in Ho. change (zlen []) with 0 in Ho. lia.
  - split; [exact Hfl3|exact Hen3].
Qed.

(** What the loader needs: the file open, memory for both buffers, for the
    tables of [n] blocks and for the chunks, and nothing left of another kernel. *)
Record can_load (g : gzip F K) (n : nat) : Prop := {
  cl_file : file_ok (BootFile := HB) (fss (base g), sys (ab (base g)));
  cl_pkzip : pkzip g = 0;
  cl_free : Forall (mem_free (ab (base g))) (h_table h);
  cl_bss : bss_size (ab (base g)) <= 0;
  cl_segment : segment_ok c (memory g);
  cl_room : INBUFSIZ + 8 + (WSIZE + 8) + block_room * Z.of_nat n + (sizeof_segment * h_phnum h + 8)
    <= heap_room (sys (ab (base g)));
  cl_top : heap_top (sys (ab (base g))) < 2 ^ 64
}.

(** The state as decompression begins: both buffers there, nothing read. *)
Definition buffers_of (g : gzip F K) (u : ustate K) (iat wat : Z) : gzip F K :=
  set_wp 0 (set_input 0 0 0 (set_output 0 0 0
    (set_buffers (replicate (Z.to_nat INBUFSIZ) 0) iat (replicate (Z.to_nat WSIZE) 0) wat
      (set_base (Loader (set_sys (ab (base g)) u) (fss (base g)) (kmem (base g))) (set_input_fd fd g))))).

Lemma buffers_ready g n : can_load g n → ∃ u iat wat,
  (∀ A (k : M (gzip F K) A), (modify (set_input_fd fd) ;;;
    let! iat := gz_malloc INBUFSIZ in
    let! wat := gz_malloc WSIZE in
    modify (set_buffers (replicate (Z.to_nat INBUFSIZ) 0) iat (replicate (Z.to_nat WSIZE) 0) wat) ;;;
    clear_bufs ;;; k) g = k (buffers_of g u iat wat)) ∧
  let g1 := buffers_of g u iat wat in
  at_pos g1 0 ∧ inbuf_at g1 = slide_at g1 + WSIZE ∧ waiting g1 ∧ room_for g1 (block_room * Z.of_nat n) [].
Proof.
  intros [C1 C2 C3 C4 C5 C6 C7]. pose proof (ko_table HK) as [_ Hpn]. pose proof block_room_fixed as Hbr.
  assert (0 <= sizeof_segment * h_phnum h) by (unfold sizeof_segment; lia).
  assert (0 <= block_room * Z.of_nat n) by nia.
  set (u0 := sys (ab (base g))) in *.
  destruct (malloc_fits INBUFSIZ u0) as (p1&u1&E1&M1&P1&U1&T1&R1&L1); [done|unfold INBUFSIZ, WSIZE in *; lia|done|].
  destruct (malloc_fits WSIZE u1) as (p2&u2&E2&M2&P2&U2&T2&R2&L2); [done|unfold INBUFSIZ, WSIZE in *; lia|done|].
  assert (p1 = p2 + WSIZE) as Ep.
  { apply Z.div_exact in M1, M2; [|done..]. unfold WSIZE in *. rewrite T1 in P2. lia. }
  exists u2, p1, p2. split; [|split; [|split; [exact Ep|split]]].
  - intros A k. step_mod.
    set (g2 := set_base (Loader (set_sys (ab (base g)) u1) (fss (base g)) (kmem (base g))) (set_input_fd fd g)).
    set (g3 := set_base (Loader (set_sys (ab (base g)) u2) (fss (base g)) (kmem (base g))) (set_input_fd fd g)).
    assert (gz_malloc INBUFSIZ (set_input_fd fd g) = Ret p1 g2) as F1.
    { unfold gz_malloc, on_base, on_ab, on_sys. cbn [set_input_fd base]. fold u0. by rewrite E1. }
    assert (gz_malloc WSIZE g2 = Ret p2 g3) as F2.
    { unfold gz_malloc, on_base, on_ab, on_sys. cbn [g2 set_base base ab sys set_sys]. by rewrite E2. }
    rewrite (bind_Ret _ _ _ _ _ F1), (bind_Ret _ _ _ _ _ F2). step_mod. unfold clear_bufs. by step_mod.
  - split; [split; [|done]|split; [by apply (zlen_copies INBUFSIZ)|split; [pose proof (zlen_nonneg content); lia|by left]]].
    cbn. apply (file_heap _ _ _ C1); fold u0; rewrite U2, U1; [|done]. by apply (file_io _ _ C1).
  - do 3 (split; [done|]). split; [|by split].
    eapply List.Forall_impl; [|exact C3]. intros q Hq Hl. unfold mem_free in *. cbn. rewrite U2, U1. by apply Hq.
  - unfold room_for, chunks_room. rewrite bool_decide_eq_true_2 by done. cbn. split; [|done].
    unfold INBUFSIZ, WSIZE in *. lia.
Qed.

Lemma uncompress_kernel_ok n fuel g flags six extra name comment data pad rest :
  content = gzip_header flags six extra name comment ++ data ++ gzip_trailer ++ pad →
  header_ok flags six extra name comment → (length name < fuel)%nat → (length comment < fuel)%nat →
  Forall is_byte content → stream n fuel (fbits (data ++ gzip_trailer ++ pad)) [] = Some (rest, out) →
  align rest = fbits (gzip_trailer ++ pad) → (n <= fuel)%nat → can_load g n →
  ∃ g', uncompress_kernel fs fuel fd g = Ret 1 g' ∧ flushed c g' out ∧ entry_addr (ab (base g')) = h_entry h.
Proof.
  intros Ec Hh Hfn Hfc HF E Hal Hn Hcl. set (hd := gzip_header flags six extra name comment) in *.
  destruct (buffers_ready g n Hcl) as (u&iat&wat&Hrun&Hat&Hpl&Hwait&Hroom).
  set (g1 := buffers_of g u iat wat) in *.
  assert (∀ p l l', content = p ++ l ++ l' → has (zlen p) l) as Hhas.
  { intros p l l' Ec' i x Hi. pose proof (aget_range _ _ _ Hi). rewrite Ec', Z.add_comm, aget_app_r by lia.
    apply aget_Some in Hi as [? Hi]. apply aget_Some. split; [done|]. by apply lookup_app_l_Some. }
  destruct (get_method_ok fuel flags six extra name comment g1 Hat) as (g2&E2&Rp&(L2&S2&_&M2&H2)); try done.
  { apply (Hhas [] _ _ Ec). }
  fold hd in Rp.
  assert (progress g2 []) as [[_ Hw2]|[? _]]; [|assert (zlen (replicate (Z.to_nat WSIZE) 0) = WSIZE) as Hz by (by apply (zlen_copies WSIZE))|done].
  { apply (progress_same g1); [by left|done| |by apply (reading_io _ _ Rp)]. destruct L2 as (_&_&_&L3&L4&_), Rp as [(_&?&_) _].
    split; [rewrite S2; by apply (zlen_copies WSIZE)|]. split; [done|congruence]. }
  assert (zlen rest - zlen rest mod 8 = 8 * zlen (gzip_trailer ++ pad)) as Hzr.
  { apply (f_equal length) in Hal. unfold align in Hal. rewrite length_drop, length_fbits in Hal.
    pose proof (Z.mod_pos_bound (zlen rest) 8 ltac:(lia)). pose proof (Z.mod_le (zlen rest) 8 (zlen_nonneg rest) ltac:(lia)).
    unfold zlen in *. lia. }
  pose proof (Z.div_mod (zlen rest) 8 ltac:(lia)) as Hdm. pose proof (zlen_nonneg pad).
  assert (zlen gzip_trailer = 8) as Ht8 by done.
  set (g3 := set_method DEFLATED g2).
  destruct (unzip_ok n fuel g3 (zlen hd) rest (zlen (hd ++ data))) as (g4&E4&Hfl&Hen).
  - exact Rp.
  - change (slide g3) with (slide g2). by rewrite S2.
  - destruct L2 as (_&_&_&L3&L4&_). change (inbuf_at g2 = slide_at g2 + WSIZE). congruence.
  - change (pkzip g2 = 0). destruct L2 as (_&_&_&_&_&_&_&_&_&->). apply Hcl.
  - done.
  - exact Hw2.
  - by apply (room_read g1).
  - exact HF.
  - rewrite Ec. unfold zlen. rewrite Nat2Z.id. by rewrite drop_app_length.
  - exact Hn.
  - rewrite zlen_app in Hzr. pose proof (Z.mod_pos_bound (zlen rest) 8). lia.
  - rewrite Ec. rewrite zlen_app, (zlen_app data), (zlen_app hd). lia.
  - rewrite app_assoc in Ec. exact (Hhas _ _ _ Ec).
  - exists g4. split; [|exact (conj Hfl Hen)]. unfold uncompress_kernel. rewrite Hrun, (bind_Ret _ _ _ _ _ E2). step_mod. fold g3.
    by rewrite (bind_Ret _ _ _ _ _ E4).
Qed.
End output.
End unzip.

(** ** The theorem *)

(** C1: A compressed kernel is loaded.  When the open file is a gzip member - any
    header, a DEFLATE stream of blocks of every type that the format decodes to
    [out], the CRC and the length of [out] - and [out] is an acceptable executable
    with one loadable segment, then [uncompress_kernel] returns 1, the entry
    address is the one of the ELF header, and memory at the segment's address
    holds the segment's bytes of [out].  It holds for any file system that keeps
    [BootFile] and [BootTail] and any block size that divides the input buffer's,
    wherever the buffer's refills cut the stream: inflate holds at most fifteen
    bits at the end, so the byte it gives back is still in the buffer. *)
Theorem uncompress_kernel_loads {F K} `{HO : ConsOut K} fs fd bs content
    `{HB : !BootFile (F := F) fs fd bs content} `{HT : !BootTail fs fd bs content}
    (g : gzip F K) n fuel h c out flags six extra name comment data pad rest :
  0 < bs ∧ (bs | INBUFSIZ) → zlen content + INBUFSIZ < 2 ^ 31 → Forall is_byte content →
  content = gzip_header flags six extra name comment ++ data ++ gzip_trailer out ++ pad →
  header_ok flags six extra name comment → (length name < fuel)%nat → (length comment < fuel)%nat →
  stream n fuel (fbits (data ++ gzip_trailer out ++ pad)) [] = Some (rest, out) →
  align rest = fbits (gzip_trailer out ++ pad) → (n <= fuel)%nat →
  kernel_output h c out → offset c + size c <= zlen out → can_load fs fd bs content h c g n →
  ∃ g', uncompress_kernel fs fuel fd g = Ret 1 g' ∧ entry_addr (ab (base g')) = h_entry h ∧
    read_mem (memory g') (addr c) (size c) = aslice out (offset c) (size c).
Proof.
  intros Hbs Hsz HF Ec Hh Hfn Hfc E Hal Hn HK Hcov Hcl.
  assert (Forall is_byte out) as Hb by (by eapply stream_bytes in E).
  destruct (uncompress_kernel_ok fs fd bs content Hbs Hsz h c out HK Hb n fuel g flags six extra name comment data pad rest)
    as (g'&E'&(_&_&_&_&(S1&S2&_)&_&Hst&_)&Hen); [done..|].
  exists g'. split; [done|]. split; [done|]. apply read_mem_cells; [lia|lia|lia|]. intros i Hi. apply Hst; lia.
Qed.

(** *** An example: [ex_kernel], compressed, on an ext2 file system *)

Definition ux_data : list Z :=
  [171; 119; 245; 113; 99; 98; 100; 100; 128; 1; 38; 6; 181; 9; 16; 158; 33; 3; 195; 159; 255; 255; 29; 24;
   48; 129; 3; 131; 5; 3; 76; 7; 136; 102; 7; 226; 38; 184; 44; 68; 31; 140; 87; 1; 165; 23; 192; 4; 20; 96;
   26; 153; 152; 89; 88; 217; 216; 57; 56; 185; 184; 121; 120; 249; 248; 5; 4; 133; 132; 69; 68; 197; 196;
   37; 36; 165; 164; 101; 100; 229; 228; 21; 20; 149; 148; 85; 84; 213; 212; 53; 52; 181; 180; 117; 116; 245;
   244; 13; 12; 141; 140; 77; 76; 205; 204; 45; 44; 173; 172; 109; 108; 237; 236; 29; 28; 157; 156; 93; 92;
   221; 220; 61; 60; 189; 188; 125; 124; 253; 252; 3; 2; 131; 130; 67; 66; 195; 194; 35; 34; 163; 162; 99;
   98; 227; 226; 19; 18; 147; 146; 83; 82; 211; 210; 51; 50; 179; 178; 115; 114; 243; 242; 11; 10; 139; 138;
   75; 74; 203; 202; 43; 42; 171; 170; 107; 106; 235; 234; 27; 26; 155; 154; 91; 90; 219; 218; 59; 58; 187;
   186; 123; 122; 251; 250; 39; 76; 156; 52; 121; 202; 84; 0].

Definition ux_header : list Z :=
  gzip_header ORIG_NAME [0x5e; 0xd0; 0xb2; 0x4d; 2; 3] [] (str "vmlinux") [].

Definition ux_pad : list Z := replicate (Z.to_nat (1024 - zlen (ux_header ++ ux_data ++ gzip_trailer ex_kernel))) 0.

Definition ux_file : list Z := ux_header ++ ux_data ++ gzip_trailer ex_kernel ++ ux_pad.
Definition ux_size : Z := zlen (ux_header ++ ux_data ++ gzip_trailer ex_kernel).

Definition ux_disk : list Z :=
  take (3 * 1024) ex_disk ++
  ex_block [(128, le_bytes 2 0x41ed); (128 + 4, le_bytes 4 1024); (128 + 28, le_bytes 4 2);
            (128 + 40, le_bytes 4 5)] ++
  ex_block [(256, le_bytes 2 0x81a4); (256 + 4, le_bytes 4 ux_size); (256 + 28, le_bytes 4 2); (256 + 40, le_bytes 4 7)] ++
  ex_block [(0, ex_dirent 2 12 "."); (12, ex_dirent 2 12 ".."); (24, ex_dirent 11 1000 "kernel")] ++
  replicate 1024 0 ++ ux_file ++ replicate 1024 0.

Definition ux_con : cstate refcon :=
  CState (RefCon [] [] 0 (λ d, if d =? 1 then ux_disk else []) (λ _, None)) 0
    (replicate 512 0) (replicate 1024 0).

(** The file system mounted and the kernel open. *)
Definition ux_opened : Z * (ext2 * ustate (cstate refcon)) :=
  let s := (ext2_init, UState ux_con example_clusters 8192 0 (page_offset + 0x310000)) in
  match (mount kx_fs 1 0 0 ;;; open kx_fs (str "/kernel")) s with
  | Ret fd s => (fd, s)
  | _ => (-1, s)
  end.

Definition ux_inode : list Z := default [] (aslice ux_disk (4 * 1024 + 256) 128).

Definition ux_gzip : gzip ext2 (cstate refcon) :=
  let a := Aboot (ux_opened.2.2) 0 0 [] 0 [] [] [] 0 0 0 0 in
  Gzip (Loader a ux_opened.2.1 (mem_write ∅ 0xfffffc0000310000 (replicate 260 0xff)))
    [] 0 [] 0 0 0 0 0 0 0 0 0 0 0 0 0.

Example ux_fd : ux_opened.1 = 1.
Proof. vm_compute. reflexivity. Qed.

Lemma ux_inode_ok : ext2_inode ux_disk (geo ux_opened.2.1) ux_inode ux_file ux_size 1.
Proof.
  split.
  - exists 0. split; vm_compute; reflexivity.
  - vm_compute. reflexivity.
  - split; vm_compute; [discriminate|reflexivity].
  - split; vm_compute; [reflexivity|discriminate].
  - split; vm_compute; [discriminate|]. split; [discriminate|reflexivity].
  - apply plain_map_check. vm_compute. reflexivity.
  - apply (bool_decide_unpack _). vm_compute. exact I.
Qed.

Lemma ux_holds : ext2_holds (H0 := ex_laws) ux_disk (geo ux_opened.2.1) ux_inode 1
  (ux_opened.2.1, ux_opened.2.2).
Proof.
  split.
  - split; [split; [vm_compute; reflexivity|split; [vm_compute; reflexivity|apply Nat.ltb_lt; vm_compute; reflexivity]]|].
    split; [split; vm_compute; try (split; discriminate || reflexivity); reflexivity|].
    split; (split; [vm_compute; reflexivity|]); intros b _ E; vm_compute in E; discriminate.
  - split; [vm_compute; reflexivity|]. split; [vm_compute; reflexivity|].
    eexists. split; vm_compute; reflexivity.
Qed.

Definition ux_boot_file : BootFile (HO := cons_io_out 2000) kx_fs 1 1024 ux_file :=
  ext2_boot_file (HO := cons_io_out 2000) 20 ux_disk (geo ux_opened.2.1) ux_inode ux_file ux_size 1 1
    ux_inode_ok ltac:(vm_compute; lia).

Definition ux_boot_tail : BootTail (HB := ux_boot_file) kx_fs 1 1024 ux_file :=
  ext2_boot_tail (HO := cons_io_out 2000) 20 ux_disk (geo ux_opened.2.1) ux_inode ux_file ux_size 1 1
    ux_inode_ok _ ltac:(vm_compute; discriminate).

Definition ux_elf : elf_header :=
  ElfHeader 0xfffffc0000310000 64 1 [Phdr PT_LOAD 130 0xfffffc0000310000 120 160].
Definition ux_segment : segment := Segment 0xfffffc0000310000 130 120.

Lemma ux_kernel : kernel_output ux_elf ux_segment ex_kernel.
Proof.
  split.
  - vm_compute. reflexivity.
  - vm_compute. discriminate.
  - vm_compute. split; [discriminate|reflexivity].
  - vm_compute. lia.
  - reflexivity.
  - vm_compute. reflexivity.
Qed.

Lemma ux_can_load : can_load (HO := cons_io_out 2000) (HB := ux_boot_file) kx_fs 1 1024 ux_file ux_elf ux_segment ux_gzip 1.
Proof.
  split.
  - exact ux_holds.
  - done.
  - repeat constructor; vm_compute; reflexivity.
  - vm_compute. discriminate.
  - do 5 (split; [cbn; lia|]). split.
    { apply (printable_checked (K := refcon) 2000). vm_compute. reflexivity. }
    apply mapped_seqZ. apply (bool_decide_unpack _). vm_compute. exact I.
  - vm_compute. discriminate.
  - vm_compute. reflexivity.
Qed.

Definition ux_rest : list bool :=
  default [] (fst <$> stream 1 300 (fbits (ux_data ++ gzip_trailer ex_kernel ++ ux_pad)) []).

Lemma uncompress_kernel_loads_witness :
  ∃ g', uncompress_kernel (H := ex_io) kx_fs 300 1 ux_gzip = Ret 1 g' ∧
    entry_addr (ab (base g')) = 0xfffffc0000310000 ∧
    read_mem (memory g') 0xfffffc0000310000 120 = aslice ex_kernel 130 120.
Proof.
  apply (uncompress_kernel_loads (HO := cons_io_out 2000) (HB := ux_boot_file) (HT := ux_boot_tail) kx_fs 1 1024 ux_file
    ux_gzip 1 300 ux_elf ux_segment ex_kernel ORIG_NAME [0x5e; 0xd0; 0xb2; 0x4d; 2; 3] [] (str "vmlinux") [] ux_data ux_pad ux_rest).
  - split; [done|by exists 128].
  - vm_compute. reflexivity.
  - apply (bool_decide_unpack _). vm_compute. exact I.
  - reflexivity.
  - do 5 (split; [vm_compute; reflexivity|]). split; [apply (bool_decide_unpack _); vm_compute; exact I|constructor].
  - vm_compute. lia.
  - vm_compute. lia.
  - apply (bool_decide_unpack _). vm_compute. exact I.
  - apply (bool_decide_unpack _). vm_compute. exact I.
  - lia.
  - exact ux_kernel.
  - vm_compute. discriminate.
  - exact ux_can_load.
Defined.
