(* ===== verification/Boot.v ===== *)
(** * From the boot arguments to the kernel

    [load] against the contract of the file system: the kernel's segments and
    its cleared data in memory; and [main_], which enters it. *)

From Stdlib Require Import Ascii String.
From S2P Require Import Prelude CString Vsprintf Cons Utils Aboot BootFs Gzip Ext2 Ext2Read Files Disk DiskLoad Main.

Open Scope Z_scope.
Open Scope list_scope.

(** ** What the operations of disk.c keep *)

Section frames.
Context {F K : Type} `{ConsIO K}.

(** [d'] is [d] but for the file systems, the console and the heap. *)
Definition same_but_fs (d d' : disk F K) : Prop := ∃ f u, d' = at_state d f u (kmem (base (gz d))).

#[export] Instance same_but_fs_preorder : PreOrder same_but_fs.
Proof.
  split.
  - intros d. eexists _, _. apply at_state_self.
  - intros d1 d2 d3 (f2&u2&->) (f3&u3&->). by exists f3, u3.
Qed.

Lemma through_frame {A} (m : M (F * ustate K) A) d a d' : through m d = Ret a d' → same_but_fs d d'.
Proof.
  unfold through, on_loader, on_gz, on_base, on_fs. destruct (m _) as [x [f u]|e [f u]| |]; try discriminate.
  intros [= <- <-]. by exists f, u.
Qed.

Lemma print_frame fmt args d d' : print fmt args d = Ret tt d' → same_but_fs d d'.
Proof.
  unfold print, on_loader, on_gz, on_base, tell, on_ab, say, on_sys, on_con, bind.
  destruct (io_printf fmt args _) as [x k|e k| |]; try discriminate. intros [= <-].
  eexists _, (UState k _ _ _ _). rewrite (at_state_self d) at 1. done.
Qed.

(** Operations that change nothing else when they return. *)
Definition keeps {A} (m : M (disk F K) A) : Prop := ∀ d a d', m d = Ret a d' → same_but_fs d d'.

Lemma keeps_ret {A} (a : A) : keeps (ret a).
Proof. by intros d x d' [= _ <-]. Qed.

Lemma keeps_gets {A} (f : disk F K → A) : keeps (gets f).
Proof. by intros d x d' [= _ <-]. Qed.

Lemma keeps_opt {A} (o : option A) : keeps (lift_opt o).
Proof. destruct o; [apply keeps_ret|by intros d x d']. Qed.

Lemma keeps_bind {A B} (m : M (disk F K) A) (k : A → M (disk F K) B) :
  keeps m → (∀ a, keeps (k a)) → keeps (bind m k).
Proof.
  intros Hm Hk d b d' E. apply bind_inv in E as (a&d1&E1&E2). etrans; [by eapply Hm|by eapply Hk].
Qed.

Lemma keeps_through {A} (m : M (F * ustate K) A) : keeps (through m).
Proof. intros d a d'. apply through_frame. Qed.

Lemma keeps_print fmt args : keeps (print fmt args).
Proof. intros d [] d'. apply print_frame. Qed.

Hint Resolve keeps_ret keeps_gets keeps_opt keeps_bind keeps_through keeps_print : aboot.

Ltac keeps := repeat first
  [ apply keeps_bind; [auto with aboot|intros ?] | progress cbv zeta
  | match goal with
    | |- keeps (if ?b then _ else _) => destruct b
    | |- keeps (match ?o with _ => _ end) => destruct o
    end ]; auto with aboot.

Lemma probe_keeps table dev : keeps (probe table dev).
Proof. induction table as [|fs l IH]; cbn [probe]; keeps. Qed.
Hint Resolve probe_keeps : aboot.

Lemma mount_fs_keeps table dummy dev part : keeps (mount_fs table dummy dev part).
Proof. unfold mount_fs. keeps. Qed.
End frames.

(** ** read_kernel and load *)

Section boot_load.
Context {F K : Type} `{HO : ConsOut K} (table : list (bootfs F K)) (dummy : bootfs F K) (aboot_size : Z) (fuel : nat).
Context (fs : bootfs F K) (fd bs : Z) (content : list Z) `{HB : !BootFile fs fd bs content}.

(** The file is a kernel that can be loaded with the globals [a], the console
    and heap [u] and the memory [m]. *)
Record bootable (a : aboot K) (u : ustate K) (m : mem) (h : elf_header) : Prop := {
  bo_blocks : block_power bs ∧ bs < 2 ^ 31;
  bo_header : ∃ hdr, aslice content 0 bs = Some hdr ∧ parse_elf hdr = Some h;
  bo_fits : h_phoff h + h_phnum h * sizeof_phdr <= bs ∧ 0 <= h_phoff h ∧ 0 < h_phnum h;
  bo_free : Forall (mem_free (set_sys a u)) (h_table h);
  bo_bss : bss_size a <= 0 ∧ (length (bss_headers (h_table h)) <= 1)%nat;
  bo_heap : ∃ p1 u1 p2 u2, malloc bs u = Ret p1 u1 ∧ malloc (sizeof_segment * h_phnum h) u1 = Ret p2 u2;
  bo_apart : segments_apart bs (map segment_of (filter is_load (h_table h)));
  bo_loadable i c : aget (map segment_of (filter is_load (h_table h))) i = Some c → loadable bs content m i c
}.

Lemma bootable_same_heap a u v m h : bootable a u m h → same_heap u v → bootable a v m h.
Proof.
  intros [B1 B2 B3 B4 B5 (p1&u1&p2&u2&E1&E2) B7 B8] Huv. split; try done.
  - eapply List.Forall_impl; [|exact B4]. intros q Hq Hl. unfold mem_free in *. cbn [sys set_sys] in *.
    destruct Huv as (->&_). by apply Hq.
  - destruct (malloc_same_heap _ _ _ _ _ E1 Huv) as (v1&F1&_&H1).
    destruct (malloc_same_heap _ _ _ _ _ E2 H1) as (v2&F2&_&_). by exists p1, v1, p2, v2.
Qed.

(** What loading leaves of [d] with the memory [m]: the globals of the header,
    the segments, and [P] of the file systems, the console and the heap. *)
Definition kernel_loaded (P : F * ustate K → Prop) (d : disk F K) (m : mem) (h : elf_header) (d' : disk F K) : Prop :=
  ∃ p u f' u' m', hd_error (h_table h) = Some p ∧
    d' = at_state (with_aboot (accepted h p u (ab (base (gz d)))) d) f' u' m' ∧ P (f', u') ∧
    (∀ i c, aget (map segment_of (filter is_load (h_table h))) i = Some c → loaded content c m') ∧
    (∀ q, is_Some (m !! q) → is_Some (m' !! q)).

Lemma bootable_loads d f u m h : file_ok (f, u) → bootable (ab (base (gz d))) u m h →
  returns (load_uncompressed fs fd) (at_state d f u m) (λ r d', r = 0 ∧ kernel_loaded file_ok d m h d').
Proof.
  intros Hf [[B1 B1'] (hdr&B2&B2') (B3&B3'&B3'') B4 [B5 B5'] (p1&u1&p2&u2&E1&E2) B7 B8].
  eapply returns_mono; [by eapply (load_uncompressed_ok fs fd bs content (at_state d f u m) h hdr p1 u1 p2 u2)|].
  intros r d' (->&p&v&f'&u'&m'&Hp&->&Hok). split; [done|]. by exists p, v, f', u', m'.
Qed.

(** The message of an attempt. *)
Definition loading (name : list Z) (method : Z) : Prop :=
  printable ("aboot: loading %s %s..." ++ nl) [AStr (Some (str (method_name method))); AStr (Some name)].

Lemma open_at name r d f u m f' u' : open fs name (f, u) = Ret r (f', u') →
  through (open fs name) (at_state d f u m) = Ret r (at_state d f' u' m).
Proof.
  intros E. unfold through, on_loader, on_gz, on_base, on_fs.
  cbn [gz at_state base set_base fss ab sys set_sys]. by rewrite E.
Qed.

Lemma close_at d f u m : file_ok (f, u) → ∃ f',
  through (close fs fd) (at_state d f u m) = Ret tt (at_state d f' u m).
Proof.
  intros Hf. destruct (file_close f u Hf) as [f' E]. exists f'. unfold through, on_loader, on_gz, on_base, on_fs.
  cbn [gz at_state base set_base fss ab sys set_sys]. by rewrite E.
Qed.

(** A kernel whose name does not end in .gz is loaded at the first attempt. *)
Lemma read_kernel_ok name d f u m f1 u1 h :
  ends_in_gz name = false → open fs name (f, u) = Ret fd (f1, u1) → 0 <= fd → file_ok (f1, u1) →
  loading name 0 → bootable (ab (base (gz d))) u1 m h →
  returns (read_kernel fuel fs name) (at_state d f u m) (λ r d', r = 0 ∧ kernel_loaded (λ s, io_ok (u_con s.2)) d m h d').
Proof.
  intros Hgz Eo Hfd Hf1 Hp Hb. unfold read_kernel. rewrite Hgz.
  eapply returns_bind with (Q := λ r d', r = inr 0 ∧ kernel_loaded (λ s, io_ok (u_con s.2)) d m h d').
  2:{ intros r d' (->&Hl). by step. }
  unfold attempt_method. eapply returns_eq; [by apply open_at|]. rewrite (proj2 (Z.ltb_ge fd 0)) by lia.
  apply (print_at fs fd bs content); [done|exact Hp|]. intros u2 Hf2 Hu2.
  destruct (bootable_loads d f1 u2 m h Hf2) as (r&d'&E'&->&p&v&f3&u3&m3&Hp3&->&Hf3&Hl3&Hd3).
  { by eapply bootable_same_heap. }
  destruct (close_at (with_aboot (accepted h p v (ab (base (gz d)))) d) f3 u3 m3 Hf3) as [f4 E4].
  eapply (returns_eq _ _ _ (Some 0)).
  { unfold catch. change (0 =? 0) with true. cbv iota. rewrite (bind_Ret _ _ _ _ _ E'), (bind_Ret _ _ _ _ _ E4). reflexivity. }
  cbv iota. step. split; [done|]. exists p, v, f4, u3, m3. split; [done|]. split; [done|].
  split; [by apply (file_io _ _ Hf3)|]. done.
Qed.

(** The uninitialised data of a kernel, and that no segment lies there. *)
Definition kernel_bss (a : aboot K) (h : elf_header) : Z * Z := bss_of (bss_start a, bss_size a) (h_table h).

Definition bss_apart (a : aboot K) (h : elf_header) : Prop :=
  let bss := kernel_bss a h in
  ∀ i c x, aget (map segment_of (filter is_load (h_table h))) i = Some c → 0 <= x < size c →
    ¬ (bss.1 <= addr c + x < bss.1 + bss.2).

Definition zero_filling (bss : Z * Z) : Prop :=
  printable ("aboot: zero-filling %ld bytes at 0x%p" ++ nl) [AInt bss.2; AInt bss.1].

(** The memory of a loaded kernel. *)
Definition kernel_image (a : aboot K) (h : elf_header) (m : mem) : Prop :=
  let bss := kernel_bss a h in
  Forall (λ c, read_mem m (addr c) (size c) = aslice content (offset c) (size c))
    (map segment_of (filter is_load (h_table h))) ∧
  read_mem m bss.1 bss.2 = Some (replicate (Z.to_nat bss.2) 0).

Lemma kernel_image_cleared a u h m m' : bootable a u m h → bss_apart a h →
  (∀ i c, aget (map segment_of (filter is_load (h_table h))) i = Some c → loaded content c m') →
  let bss := kernel_bss a h in kernel_image a h (mem_write m' bss.1 (replicate (Z.to_nat bss.2) 0)).
Proof.
  intros HB' Hap Hl bss. split.
  - apply List.Forall_forall. intros c Hc. apply list_elem_of_In, list_elem_of_lookup in Hc as [i Hi].
    rewrite <- aget_of_nat in Hi. pose proof (bo_loadable _ _ _ _ HB' _ _ Hi) as Hlc.
    destruct (bo_blocks _ _ _ _ HB') as [Hb _].
    destruct (extent_covers fs fd bs content c _ _ Hb Hlc) as (_&Hcov&_).
    destruct Hlc as (Ho&Hs&_&Hin&_). apply read_mem_cells; [done|done| |].
    + unfold extent in Hcov. pose proof (Z.div_mod (offset c) bs).
      rewrite (low_mod bs c Hb Ho) in Hcov. pose proof (bs_pos fs fd bs content Hb). lia.
    + intros x Hx. rewrite mem_write_frame; [by apply (Hl _ _ Hi)|].
      pose proof (Hap _ _ _ Hi Hx) as Hnot. fold bss in Hnot. unfold zlen. rewrite length_replicate. lia.
  - fold bss. destruct (Z.le_gt_cases 0 bss.2) as [Hz|Hz].
    + rewrite <- (read_mem_bytes _ _ _ (bytes_at_mem_write m' bss.1 (replicate (Z.to_nat bss.2) 0))).
      f_equal. unfold zlen. rewrite length_replicate. lia.
    + replace (Z.to_nat bss.2) with 0%nat by lia. unfold read_mem. by rewrite seqZ_nil by lia.
Qed.

(** The arguments and the place of the ramdisk. *)
Definition same_args (a a' : aboot K) : Prop :=
  boot_file a' = boot_file a ∧ kernel_args a' = kernel_args a ∧
  initrd_start a' = initrd_start a ∧ initrd_size a' = initrd_size a.

(** An uncompressed kernel on the partition to boot from, no ramdisk. *)
Record can_boot (dev : Z) (d : disk F K) (name : list Z) (h : elf_header) : Prop := {
  cb_name : cstring (boot_file (ab (base (gz d)))) = Some name;
  cb_plain : name ≠ str "-" ∧ ends_in_gz name = false;
  cb_file : ∃ d1 f u, mount_fs table dummy dev (boot_part d) d = Ret (Some fs) d1 ∧
    open fs name (fss (base (gz d1)), sys (ab (base (gz d1)))) = Ret fd (f, u) ∧ 0 <= fd ∧ file_ok (f, u) ∧
    bootable (ab (base (gz d))) u (kmem (base (gz d))) h;
  cb_messages : loading name 0 ∧ zero_filling (kernel_bss (ab (base (gz d))) h);
  cb_bss : mapped (kmem (base (gz d))) (kernel_bss (ab (base (gz d))) h).1 (kernel_bss (ab (base (gz d))) h).2 ∧
    bss_apart (ab (base (gz d))) h;
  cb_initrd : aget (initrd_file (ab (base (gz d)))) 0 = Some 0
}.

Lemma load_ok dev d name h :
  let a := ab (base (gz d)) in let m := kmem (base (gz d)) in can_boot dev d name h →
  returns (load table dummy aboot_size fuel dev) d (λ r d', r = 0 ∧ ∃ p, hd_error (h_table h) = Some p ∧
    entry_addr (ab (base (gz d'))) = h_entry h ∧ start_addr (ab (base (gz d'))) = p_vaddr p ∧
    same_args a (ab (base (gz d'))) ∧ io_ok (u_con (sys (ab (base (gz d'))))) ∧
    kernel_image a h (kmem (base (gz d'))) ∧ (∀ q, is_Some (m !! q) → is_Some (kmem (base (gz d')) !! q))).
Proof.
  intros a m [Hn [Hne Hgz] (d1&f&u&Em&Eo&Hfd&Hf&Hb) [Hp1 Hp2] [Hmap Hap] Hi].
  fold a m in Hn, Hb, Hp2, Hmap, Hap, Hi. set (bss := kernel_bss a h) in *.
  unfold load, get_aboot. step.
  eapply returns_opt; [exact Hn|]. cbv beta. rewrite bool_decide_eq_false_2 by done.
  destruct (mount_fs_keeps _ _ _ _ _ _ _ Em) as (f0&u0&->). fold m in Em, Eo |- *. fold a in Eo |- *.
  cbn [gz at_state base set_base fss ab sys set_sys] in Eo.
  set (d2 := Disk (gz d) (label d) (boot_part d) (config_file_partition d) (Some fs) (first d)).
  eapply returns_bind with (Q := λ r d', r = 0 ∧ kernel_loaded (λ s, io_ok (u_con s.2)) d2 m h d').
  { step. eapply returns_eq; [exact Em|]. eapply (returns_eq _ _ _ tt (at_state d2 f0 u0 m)); [reflexivity|].
    cbv iota. by apply (read_kernel_ok name d2 f0 u0 m f u). }
  intros r d3 (->&p&v&f3&u3&m3&Hp&->&Hio&Hl&Hd). change (0 <? 0) with false. cbv iota. step.
  apply print_io; [exact Hio|exact Hp2|]. intros c Hc _.
  eapply returns_eq; [apply (poke_at bss.1 (replicate (Z.to_nat bss.2) 0))|].
  { intros q Hq. apply Hd, Hmap. unfold zlen in Hq. rewrite length_replicate in Hq. lia. }
  step. eapply returns_opt; [exact Hi|]. cbv beta. change (0 =? 0) with true. cbv iota. step.
  split; [done|]. exists p. split; [exact Hp|]. split; [done|]. split; [done|]. split; [done|]. split; [exact Hc|].
  split; [by apply (kernel_image_cleared a u h m)|]. intros q Hq. by apply mem_write_keeps, Hd.
Qed.

(** Without a label the file system is the one that mounts. *)
Lemma mount_single fs' dev part d d' : label d = None → part ≠ 0 → through (mount fs' dev 0 1) d = Ret 0 d' →
  mount_fs [fs'] dummy dev part d = Ret (Some fs') d'.
Proof.
  intros El Hp E. unfold mount_fs. rewrite (bind_Ret (gets label) _ d (label d) d eq_refl), El.
  rewrite (proj2 (Z.eqb_neq part 0)) by done. cbn [probe]. by rewrite bind_bind, (bind_Ret _ _ _ _ _ E).
Qed.
End boot_load.

(** ** main_ *)

(** Closing a device or the console comes back. *)
Class ConsoleCloses (K : Type) `{ConsoleLaws K} := {
  close_ok dev k : ∃ r k', ccb_close dev k = Ret r k' ∧ (con_busy k' <= con_busy k)%nat;
  close_console_ok k : ∃ r k', ccb_close_console k = Ret r k'
}.

Section boot_main.
Context {F K : Type} `{HL : ConsoleLaws K} `{HC : !ConsoleCloses K} `{HP : Pal (disk F (cstate K))}.
Context (table : list (bootfs F (cstate K))) (dummy : bootfs F (cstate K)).
Context (aboot_size : Z) (turns fuel : nat) (sp : Z).

#[local] Hint Extern 0 (ConsIO _) => exact (cons_io fuel) : typeclass_instances.
#[local] Hint Extern 0 (ConsIOLaws _) => exact (cons_io_laws fuel) : typeclass_instances.
#[local] Hint Extern 0 (ConsOut _) => exact (cons_io_out fuel) : typeclass_instances.
#[local] Hint Extern 0 (ConsDev _) => exact (cons_dev_ops turns fuel) : typeclass_instances.

(** The page below the kernel: the arguments as a C string, the ramdisk. *)
Definition params_at (m : mem) (start : Z) (args : list Z) (rd_start rd_size : Z) : Prop :=
  read_mem m (start + PARAM_OFFSET) (zlen args + 1) = Some (args ++ [0]) ∧
  field64 m (start + PARAM_OFFSET + 0x100) = Some (u64 rd_start) ∧
  field64 m (start + PARAM_OFFSET + 0x108) = Some (u64 rd_size).

(** There is memory for it, and it does not wrap around. *)
Definition params_room (m : mem) (start : Z) : Prop :=
  0 <= start + PARAM_OFFSET ∧ start < 2 ^ 64 ∧ mapped m (start + PARAM_OFFSET) 272.

Definition with_params (m : mem) (start : Z) (args : list Z) (rd_start rd_size : Z) : mem :=
  mem_write (mem_write (mem_write m (start + PARAM_OFFSET) (args ++ [0]))
    (start + PARAM_OFFSET + 0x100) (le_bytes 8 rd_start)) (start + PARAM_OFFSET + 0x108) (le_bytes 8 rd_size).

Lemma with_params_at m start args rd_start rd_size : zlen args < 256 →
  params_at (with_params m start args rd_start rd_size) start args rd_start rd_size.
Proof.
  intros Hz. unfold with_params. split; [|split].
  - assert (zlen (args ++ [0]) = zlen args + 1) as <- by (by rewrite zlen_app).
    apply read_mem_bytes. eapply bytes_at_ext; [apply bytes_at_mem_write|]. intros q Hq.
    rewrite zlen_app in Hq. change (zlen [0]) with 1 in Hq.
    by rewrite !mem_write_frame by (rewrite ?zlen_le_bytes; lia).
  - rewrite field64_other by (rewrite ?zlen_le_bytes; lia). apply field64_same.
  - apply field64_same.
Qed.

Lemma with_params_keeps m start args rd_start rd_size q : zlen args < 256 →
  ¬ (start + PARAM_OFFSET <= q < start + PARAM_OFFSET + 272) → with_params m start args rd_start rd_size !! q = m !! q.
Proof.
  intros Hz Hq. unfold with_params. rewrite !mem_write_frame; rewrite ?zlen_le_bytes; try lia; [done|].
  rewrite zlen_app. change (zlen [0]) with 1. lia.
Qed.

Lemma put_params_ok {B} (k : unit → M (disk F (cstate K)) B) d f u m start args rd_start rd_size Q :
  params_room m start → zlen args < 256 →
  returns (k tt) (at_state d f u (with_params m start args rd_start rd_size)) Q →
  returns (bind (put_params start args rd_start rd_size) k) (at_state d f u m) Q.
Proof.
  intros (H0'&H1&Hm) Hz HQ. unfold PARAM_OFFSET in *. unfold put_params, PARAM_OFFSET. step.
  rewrite !wrap_small by lia. eapply returns_eq; [apply poke_at|].
  { rewrite zlen_app. change (zlen [0]) with 1. eapply mapped_sub; [exact Hm|lia..]. }
  step. apply store_step; [apply mapped_mem_write; eapply mapped_sub; [exact Hm|lia..]|].
  apply store_step; [do 2 apply mapped_mem_write; eapply mapped_sub; [exact Hm|lia..]|]. exact HQ.
Qed.

Lemma cstring_short buf s : cstring buf = Some s → zlen s < zlen buf.
Proof. intros (_&rest&->)%cstring_Some. rewrite zlen_app, zlen_cons. pose proof (zlen_nonneg rest). lia. Qed.

Lemma prepare_kernel_ok (d : disk F (cstate K)) name args :
  let a := ab (base (gz d)) in let m := mem_of d in
  cstring (boot_file a) = Some name → cstring (kernel_args a) = Some args → zlen args < 256 →
  cons_ready fuel (u_con (sys a)) → params_room m (start_addr a) →
  printable ("aboot: starting kernel %s with arguments %s" ++ nl) [AStr (Some name); AStr (Some args)] →
    returns (prepare_kernel fuel) d (λ r d', r = (entry_addr a, u64 (start_addr a + STACK_OFFSET)) ∧
    mem_of d' = with_params m (start_addr a) args (initrd_start a) (initrd_size a)).
Proof.
  intros a m Hn Ha Hz Hc Hr Hp. unfold prepare_kernel, get_aboot. step.
  eapply returns_opt; [exact Hn|]. cbv beta. step. eapply returns_opt; [exact Ha|]. cbv beta.
  rewrite (at_state_self d). fold a. apply print_io; [exact Hc|exact Hp|]. intros c _ _. do 2 step.
  apply put_params_ok; [exact Hr|exact Hz|]. destruct (close_console_ok (con c)) as (r&k'&Ek).
  eapply returns_eq.
  { unfold on_console, on_aboot, on_loader, on_gz, on_base, on_ab, on_sys, on_con, cons_close_console, dispatch, bind.
    cbn [gz at_state base set_base ab sys set_sys u_con]. rewrite Ek. reflexivity. }
  do 2 step. done.
Qed.

(** [load_kernel] when the first attempt succeeds. *)
Lemma load_kernel_first stack (d d2 d3 : disk F (cstate K)) dev Q :
  boot_device stack d = Ret (Some dev) d2 →
  get_aboot_options table dummy fuel dev stack d2 = Ret tt d3 → (0 < fuel)%nat →
  returns (load table dummy aboot_size fuel dev) d3 (λ r d', r = 0 ∧ io_ok (u_con (sys (ab (base (gz d'))))) ∧
    ∀ c, io_ok c → Q (at_state d' (fss (base (gz d')))
      (UState c (clusters (sys (ab (base (gz d'))))) (pagesize (sys (ab (base (gz d')))))
        (free_mem_ptr (sys (ab (base (gz d'))))) (dest_addr (sys (ab (base (gz d')))))) (mem_of d'))) →
  returns (load_kernel table dummy aboot_size fuel stack) d (λ r d', r = 0 ∧ Q d').
Proof.
  intros E2 E3 Hf (r&d4&E4&->&Hio&HQ). unfold load_kernel. eapply returns_eq; [exact E2|]. cbv iota.
  destruct fuel as [|n] eqn:En; [lia|].
  eapply (returns_eq _ _ _ 0 d4).
  { apply loop_exit. unfold load_turn. rewrite (bind_Ret _ _ _ _ _ E3), (bind_Ret _ _ _ _ _ E4). reflexivity. }
  destruct (close_ok dev (con (u_con (sys (ab (base (gz d4))))))) as (x&k'&Ek&Hb).
  eapply returns_eq.
  { unfold on_console, on_aboot, on_loader, on_gz, on_base, on_ab, on_sys, on_con. cbn [io_close cons_dev_ops].
    unfold cons_close, dispatch. rewrite Ek. reflexivity. }
  step. split; [done|]. rewrite (at_state_self d4). apply HQ.
  destruct Hio as (Hok&Hpb&Hfu). split; [exact Hok|]. split; [exact Hpb|]. cbn [con]. lia.
Qed.

(** The page below the kernel is no part of what is loaded. *)
Definition params_apart (a : aboot (cstate K)) (h : elf_header) (start : Z) : Prop :=
  let bss := kernel_bss a h in
  (bss.2 <= 0 ∨ bss.1 + bss.2 <= start + PARAM_OFFSET ∨ start + PARAM_OFFSET + 272 <= bss.1) ∧
  ∀ c, c ∈ map segment_of (filter is_load (h_table h)) →
    addr c + size c <= start + PARAM_OFFSET ∨ start + PARAM_OFFSET + 272 <= addr c.

Lemma kernel_image_params content (a : aboot (cstate K)) h m start args rd_start rd_size :
  kernel_image content a h m → params_apart a h start → zlen args < 256 →
  kernel_image content a h (with_params m start args rd_start rd_size).
Proof.
  intros [Hs Hb] [Ab As] Hz. split.
  - apply List.Forall_forall. intros c Hc. rewrite List.Forall_forall in Hs. rewrite <- (Hs c Hc).
    apply list_elem_of_In in Hc. specialize (As c Hc). apply read_mem_ext. intros q Hq.
    apply with_params_keeps; [exact Hz|lia].
  - rewrite <- Hb. apply read_mem_ext. intros q Hq. apply with_params_keeps; [exact Hz|lia].
Qed.

(** Up to the check of the page size; up to the options. *)
Definition startup : M (disk F (cstate K)) unit :=
  on_console cons_init ;;;
  print ("aboot: Linux/Alpha SRM bootloader version " ++ ABOOT_VERSION ++ nl) [].

Lemma main_stages stack d d0 d1 d2 r :
  startup d = Ret tt d0 → pagesize (sys (ab (base (gz d0)))) = 8192 →
  (pal_init fuel sp ;;; boot_args fuel) d0 = Ret tt d1 →
  load_kernel table dummy aboot_size fuel stack d1 = Ret r d2 → 0 <= r →
  main_ table dummy aboot_size turns fuel sp stack d =
    (let! ' (entry, stk) := prepare_kernel fuel in run_kernel entry stk ;;; kernel_returned fuel) d2.
Proof.
  intros E0 Hp E1 E2 Hr. unfold main_, startup in *. rewrite <- bind_bind, (bind_Ret _ _ _ _ _ E0).
  unfold get_aboot at 1. unfold bind at 1, gets at 1. rewrite Hp, Z.eqb_refl. cbn [negb].
  rewrite <- bind_bind, (bind_Ret _ _ _ _ _ E1), (bind_Ret _ _ _ _ _ E2).
  by rewrite (proj2 (Z.ltb_ge r 0)) by lia.
Qed.
(** C2: From power-up to the kernel.  When the first stages come through - the
    console, PALcode, the arguments, the device, its label and the options - and
    the file named is a kernel that can be loaded from a file system that keeps
    [BootFile], then [main_] jumps to the entry address of its ELF header with
    the stack pointer below its start, and memory then holds every segment of the
    file at its address, zeros for the uninitialised data, and, in the page below
    the kernel, the arguments as a C string with the place and size of the
    ramdisk behind it. *)
Theorem main_boots_kernel stack (d d0 d1 d2 d3 : disk F (cstate K)) dev
    fs fd bs content `{HB : !BootFile (F := F) fs fd bs content} name args h p :
  let a := ab (base (gz d3)) in
  startup d = Ret tt d0 → pagesize (sys (ab (base (gz d0)))) = 8192 →
  (pal_init fuel sp ;;; boot_args fuel) d0 = Ret tt d1 →
  boot_device stack d1 = Ret (Some dev) d2 →
  get_aboot_options table dummy fuel dev stack d2 = Ret tt d3 →
  (0 < fuel)%nat → can_boot table dummy fs fd bs content dev d3 name h → hd_error (h_table h) = Some p →
  cstring (kernel_args a) = Some args → zlen args < 256 →
  params_room (mem_of d3) (p_vaddr p) → params_apart a h (p_vaddr p) →
  printable ("aboot: starting kernel %s with arguments %s" ++ nl)
    [AStr (Some name); AStr (Some args)] →
  ∃ d4, main_ table dummy aboot_size turns fuel sp stack d =
      (run_kernel (h_entry h) (u64 (p_vaddr p + STACK_OFFSET)) ;;; kernel_returned fuel) d4 ∧
    kernel_image content a h (mem_of d4) ∧
    params_at (mem_of d4) (p_vaddr p) args (initrd_start a) (initrd_size a).
Proof.
  intros a E0 Hps E1 E2 E3 Hf Hb Hp Ha Hz Hroom Hap Hmsg. pose proof (cb_name _ _ _ _ _ _ _ _ _ _ Hb) as Hn.
  pose proof (load_ok table dummy aboot_size fuel fs fd bs content dev d3 name h Hb) as Hl.
  destruct (load_kernel_first stack d1 d2 d3 dev
    (λ d', io_ok (u_con (sys (ab (base (gz d'))))) ∧
      entry_addr (ab (base (gz d'))) = h_entry h ∧ start_addr (ab (base (gz d'))) = p_vaddr p ∧
      same_args a (ab (base (gz d'))) ∧ kernel_image content a h (mem_of d') ∧
      (∀ q, is_Some (mem_of d3 !! q) → is_Some (mem_of d' !! q))) E2 E3 Hf) as (r&d4&E4&->&Hio&He&Hs&(S1&S2&S3&S4)&Hk&Hd).
  { eapply returns_mono; [exact Hl|]. intros r d' (->&p'&Hp'&R1&R2&R3&R4&R5&R6). split; [done|]. split; [exact R4|].
    intros c Hc. rewrite Hp in Hp'. injection Hp' as <-. exact (conj Hc (conj R1 (conj R2 (conj R3 (conj R5 R6))))). }
  rewrite (main_stages stack d d0 d1 d4 0 E0 Hps E1 E4) by lia.
  destruct (prepare_kernel_ok d4 name args) as (?&d5&E5&->&Hm5).
  { by rewrite S1. } { by rewrite S2. } { done. } { exact Hio. }
  { rewrite Hs. destruct Hroom as (?&?&Hm). split; [done|]. split; [done|]. intros q Hq. by apply Hd, Hm. } { exact Hmsg. }
  exists d5. rewrite (bind_Ret _ _ _ _ _ E5), He, Hs. split; [done|]. rewrite Hm5, Hs, S3, S4.
  split; [by apply kernel_image_params|by apply with_params_at].
Qed.
End boot_main.

(** ** An example: power-up to the kernel of [kx_disk]

    The firmware is [refcon]; the processor stores nothing and the kernel does
    not come back. *)

#[export] Instance refcon_closes : ConsoleCloses refcon.
Proof. split; [intros dev k; by exists 0, k|intros k; by exists 0, k]. Qed.

#[export] Instance mx_pal {F} : Pal (disk F (cstate refcon)) := {|
  PAL_swppal := λ _ _ _ _, ret 0;
  PAL_tbi := λ _, ret tt;
  enter_kernel := λ _ _, longjmp "kernel"
|}.

#[export] Instance mx_pal_laws {F} : PalLaws (F := F) (K := refcon).
Proof. split; [|done]. intros d f u m pa vptb ksp _. by exists m. Qed.

Definition mx_env (index : Z) : option (list Z) :=
  if index =? 0 then Some (str "0") else if index =? 1 then Some (str "SCSI 0 6 0 0 0")
  else if index =? 2 then Some (str "1/kernel") else if index =? 3 then Some (str "root=/dev/sda1") else None.

Definition mx_con : cstate refcon :=
  CState (RefCon [] [] 0 (λ d, if d =? 1 then kx_disk else []) mx_env) 0 (replicate 512 0) (replicate 1024 0).

(** The tables of the console, the parameter page, and memory for the kernel. *)
Definition mx_mem : mem :=
  let m := mem_write ∅ L1_TABLE (replicate 8 0 ++ le_bytes 8 0x3f00001001) in
  let m := mem_write m (L1_TABLE + 8 * 1023) (replicate 8 0) in
  let m := mem_write m INIT_HWRPB (replicate 160 1 ++ le_bytes 8 8192 ++ replicate 128 2) in
  let m := mem_write m (INIT_HWRPB + 8192 + percpu_pal_revision) (replicate 8 0) in
  let m := mem_write m (INIT_HWRPB + 8192 + percpu_palcode_avail 2) (le_bytes 8 0x115) in
  let m := mem_write m pcb_va (replicate 48 0xee) in
  let m := mem_write m (old_vptb + 8 * Z.shiftr pcb_va 13) (le_bytes 8 0x4200001101) in
  let m := mem_write m 0xfffffc000030a000 (replicate 272 0xee) in
  mem_write (mem_write m 0xfffffc0000310000 (replicate 2048 0xff)) 0xfffffc0000320000 (replicate 4096 0xff).

Definition mx_disk : disk ext2 (cstate refcon) :=
  let u := UState mx_con example_clusters 8192 0 (page_offset + 0x300000) in
  let a := Aboot u 0 0 [] 0 (replicate 256 0) (replicate 256 0) (replicate 256 0) 0 0 0 0 in
  Disk (Gzip (Loader a ext2_init mx_mem) [] 0 [] 0 0 0 0 0 0 0 0 0 0 0 0 0) None 0 0 None 1.

Definition mx_dummy : bootfs ext2 (cstate refcon) := dummyfs (H := ex_io) 20000 (λ _, 0) (λ _ s, s).

(** The states between the stages. *)
Definition mx0 := state_of mx_disk (startup (F := ext2) (K := refcon) 2000 mx_disk).
Definition mx1 := state_of mx_disk ((pal_init (K := refcon) 2000 0x20010000 ;;; boot_args 2000) mx0).
Definition mx2 := state_of mx_disk (boot_device (H := ex_io) (H0 := cons_dev_ops 10 2000) (replicate 256 0) mx1).
Definition mx3 := state_of mx_disk
  (get_aboot_options (H := ex_io) (H0 := cons_dev_ops 10 2000) [kx_fs] mx_dummy 2000 1 (replicate 256 0) mx2).
Definition mx4 := state_of mx3 (through (mount kx_fs 1 0 1) mx3).
Definition mx5 := state_of (fss (base (gz mx4)), sys (ab (base (gz mx4))))
  (open kx_fs (str "kernel") (fss (base (gz mx4)), sys (ab (base (gz mx4))))).

Example mx_runs : value_of (startup (K := refcon) 2000 mx_disk) = Some tt ∧
  value_of ((pal_init (K := refcon) 2000 0x20010000 ;;; boot_args 2000) mx0) = Some tt ∧
  value_of (boot_device (H := ex_io) (H0 := cons_dev_ops 10 2000) (replicate 256 0) mx1) = Some (Some 1) ∧
  value_of (get_aboot_options (H := ex_io) (H0 := cons_dev_ops 10 2000) [kx_fs] mx_dummy 2000 1 (replicate 256 0) mx2)
    = Some tt ∧
  value_of (through (mount kx_fs 1 0 1) mx3) = Some 0 ∧
  boot_part mx3 = 1 ∧ label mx3 = None.
Proof. vm_compute. repeat split. Qed.

Lemma mx_mapped p n : forallb (λ q, bool_decide (is_Some (mem_of mx0 !! q))) (seqZ p n) = true → mapped (mem_of mx0) p n.
Proof.
  intros E. apply mapped_seqZ, List.Forall_forall. intros q Hq. rewrite forallb_forall in E.
  by apply (bool_decide_eq_true (is_Some (mem_of mx0 !! q))), E.
Qed.

Lemma mx_tables : pal_tables (mem_of mx0) 0x3f00001001 8192 0x115 0x4200001101.
Proof.
  split.
  - vm_compute. reflexivity.
  - split; [discriminate|reflexivity].
  - apply mx_mapped. vm_compute. reflexivity.
  - apply mx_mapped. vm_compute. reflexivity.
  - vm_compute. reflexivity.
  - split; discriminate.
  - vm_compute. reflexivity.
  - split; [discriminate|reflexivity].
  - apply mx_mapped. vm_compute. reflexivity.
  - apply mx_mapped. vm_compute. reflexivity.
  - vm_compute. reflexivity.
Qed.

Lemma pal_init_switches_witness :
  ∃ d', pal_init (K := refcon) 2000 0x20010000 mx0 = Ret tt d' ∧
    pal_done (mem_of d') 0x3f00001001 8192 0x115 ∧
    (∀ q, ¬ pal_area q → mem_of d' !! q = mem_of mx0 !! q) ∧
    cons_ready 2000 (u_con (sys (ab (base (gz d'))))).
Proof.
  apply (pal_init_switches 2000 0x20010000 mx0 0x3f00001001 8192 0x115 0x4200001101).
  - exact mx_tables.
  - split; [vm_compute; reflexivity|]. split; [vm_compute; reflexivity|]. apply Nat.ltb_lt. vm_compute. reflexivity.
  - apply (printable_checked (K := refcon) 2000). vm_compute. reflexivity.
Defined.

Lemma mx_opens : open kx_fs (str "kernel") (fss (base (gz mx4)), sys (ab (base (gz mx4)))) = Ret 1 (mx5.1, mx5.2).
Proof.
  set (s := (fss (base (gz mx4)), sys (ab (base (gz mx4))))).
  assert (value_of (open kx_fs (str "kernel") s) = Some 1) as E by (vm_compute; reflexivity).
  exact (value_pair s (open kx_fs (str "kernel") s) 1 E).
Qed.

Lemma mx_holds : ext2_holds (H0 := ex_laws) kx_disk (geo kx_opened.2.1) kx_inode 1 (mx5.1, mx5.2).
Proof.
  split.
  - split; [split; [vm_compute; reflexivity|split; [vm_compute; reflexivity|apply Nat.ltb_lt; vm_compute; reflexivity]]|].
    split; [split; vm_compute; try (split; discriminate || reflexivity); reflexivity|].
    split; (split; [vm_compute; reflexivity|]); intros b _ E; vm_compute in E; discriminate.
  - split; [vm_compute; reflexivity|]. split; [vm_compute; reflexivity|].
    eexists. split; vm_compute; reflexivity.
Qed.

Lemma mx_mount : mount_fs (H := ex_io) [kx_fs] mx_dummy 1 (boot_part mx3) mx3 = Ret (Some kx_fs) mx4.
Proof.
  destruct mx_runs as (_&_&_&_&E&Ep&El). apply mount_single; [exact El|by rewrite Ep|].
  exact (value_Ret mx3 _ _ E).
Qed.

Lemma mx_loadable i c : aget kx_chunks i = Some c →
  loadable (HO := cons_io_out 2000) 1024 kx_file (kmem (base (gz mx3))) i c.
Proof.
  intros E. apply aget_range in E as Hi. change (zlen kx_chunks) with 2 in Hi.
  assert (i = 0 ∨ i = 1) as [-> | ->] by lia; injection E as <-;
    (split; [vm_compute; discriminate|]; split; [vm_compute; discriminate|];
     split; [vm_compute; reflexivity|]; split; [vm_compute; discriminate|]; split;
     [apply announced_short; vm_compute; reflexivity|
      apply mapped_seqZ; apply (bool_decide_unpack _); vm_compute; exact I]).
Qed.

Lemma mx_bootable : bootable (HO := cons_io_out 2000) 1024 kx_file (ab (base (gz mx3))) mx5.2 (kmem (base (gz mx3))) kx_header.
Proof.
  split.
  - split; [by exists 10|done].
  - exists (take 1024 kx_file). split; vm_compute; reflexivity.
  - split; [vm_compute; discriminate|]. split; [vm_compute; discriminate|reflexivity].
  - repeat constructor; intros _; vm_compute; reflexivity.
  - split; [vm_compute; discriminate|vm_compute; lia].
  - set (r := malloc (H := cons_io 2000) 1024 mx5.2).
    set (r2 := malloc (H := cons_io 2000) (sizeof_segment * h_phnum kx_header) (state_of mx5.2 r)).
    assert (is_Some (value_of r) ∧ is_Some (value_of r2)) as [[p1 E1] [p2 E2]]
      by (split; apply (bool_decide_unpack _); vm_compute; exact I).
    exists p1, (state_of mx5.2 r), p2, (state_of mx5.2 r2).
    split; [exact (value_Ret mx5.2 _ _ E1)|exact (value_Ret mx5.2 _ _ E2)].
  - exact kx_apart.
  - exact mx_loadable.
Qed.

Lemma mx_can_boot : can_boot (HO := cons_io_out 2000) (HB := kx_boot_file) [kx_fs] mx_dummy kx_fs 1 1024 kx_file 1 mx3
  (str "kernel") kx_header.
Proof.
  split.
  - vm_compute. reflexivity.
  - split; [discriminate|vm_compute; reflexivity].
  - exists mx4, mx5.1, mx5.2. split; [exact mx_mount|]. split.
    { exact mx_opens. }
    split; [lia|]. split; [exact mx_holds|exact mx_bootable].
  - split; apply (printable_checked (K := refcon) 2000); vm_compute; reflexivity.
  - split; [apply mapped_seqZ; apply (bool_decide_unpack _); vm_compute; exact I|].
    intros i c x E Hx. change (aget kx_chunks i = Some c) in E. apply aget_range in E as Hi.
    change (zlen kx_chunks) with 2 in Hi.
    change (kernel_bss _ _) with (0xfffffc0000320000 + 1000, 3000). cbn [fst snd].
    assert (i = 0 ∨ i = 1) as [-> | ->] by lia; injection E as <-; cbn [addr size] in *; lia.
  - vm_compute. reflexivity.
Qed.

Lemma main_boots_kernel_witness :
  ∃ d4, main_ [kx_fs] mx_dummy 20000 10 2000 0x20010000 (replicate 256 0) mx_disk =
      (run_kernel 0xfffffc0000310000 0xfffffc0000302000 ;;; kernel_returned 2000) d4 ∧
    kernel_image kx_file (ab (base (gz mx3))) kx_header (mem_of d4) ∧
    params_at (mem_of d4) 0xfffffc0000310000 (str "root=/dev/sda1") 0 0.
Proof.
  destruct mx_runs as (E0&E1&E2&E3&_).
  apply (main_boots_kernel [kx_fs] mx_dummy 20000 10 2000 0x20010000 (replicate 256 0) mx_disk mx0 mx1 mx2 mx3 1
    kx_fs 1 1024 kx_file (HB := kx_boot_file) (str "kernel") (str "root=/dev/sda1") kx_header
    (Phdr PT_LOAD 200 0xfffffc0000310000 900 900)).
  - exact (value_Ret mx_disk _ _ E0).
  - vm_compute. reflexivity.
  - exact (value_Ret mx_disk _ _ E1).
  - exact (value_Ret mx_disk _ _ E2).
  - exact (value_Ret mx_disk _ _ E3).
  - lia.
  - exact mx_can_boot.
  - reflexivity.
  - vm_compute. reflexivity.
  - vm_compute. reflexivity.
  - split; [vm_compute; discriminate|]. split; [vm_compute; reflexivity|].
    apply mapped_seqZ. apply (bool_decide_unpack _). vm_compute. exact I.
  - split; [right; right; vm_compute; discriminate|]. change (map _ _) with kx_chunks.
    intros c Hc. apply list_elem_of_In in Hc. destruct Hc as [<-|[<-|[]]]; right; vm_compute; discriminate.
  - apply (printable_checked (K := refcon) 2000). vm_compute. reflexivity.
Defined.
